(* ===== verification/_CoqProject ===== *)
-Q . S2P
Prelude.v
Regex.v
GoStd.v
JsonDecoder.v
JsonEncode.v
Sha256.v
Primitives.v
ClaimQueue.v
JsonUnmarshal.v
JsonRoundTrip.v
JsonStrict.v
Base64Url.v
Cursor.v
Optimistic.v
CasStore.v
Lease.v
Interaction.v
Session.v
Execution.v
Attempt.v
Idempotency.v
IdempotencyStore.v
Outbox.v
Reconciliation.v
Workspace.v
Checkpoint.v
Cleanup.v
OutboxStore.v
RuntimeStore.v
RuntimeHistory.v
RuntimeBinding.v
RuntimeProfile.v
RuntimeEvent.v
ComputeReconciliation.v
Worker.v
LocalAuthority.v
Handshake.v
AgentdAdmission.v
Resume.v
EventStream.v
Profiles.v
Catalog.v
Repositories.v
Once.v
SessionCreate.v
AuthorityAdmission.v
ExecutionBinding.v
ExecutionCreate.v
ExecutionSignal.v
HarnessPort.v
HarnessRegistry.v
CheckpointRestore.v
CodexFrames.v
CodexStream.v
CodexSpec.v
CodexClient.v
Capture.v
CaptureWriter.v
Control.v
AgentdSession.v
AgentdServer.v
AgentdReconnect.v
AgentdConfig.v
AgentdCredentials.v
ControlReports.v
AgentdPolicy.v
ProcessControl.v
Observer.v
ControlLoop.v
Supervisor.v
SupervisorLocks.v
SupervisorSafety.v
HttpRequests.v
HttpStream.v
WorkspaceStorage.v
WorkspaceStorageSafety.v
AgentSandbox.v
AgentSandboxSafety.v
SandboxBindings.v
SandboxJournal.v
