(* ===== verification/Prelude.v ===== *)
(** * ThinkPixelAR: a verification library

    ThinkPixelAR is a runtime control plane for coding agents.  A Session owns a
    Workspace; an Execution is one admitted piece of work in a Session; an Attempt
    is one try of an Execution on a sandbox; a run authority issues the grants
    under which work happens; an agent process inside a sandbox ([agentd]) connects
    back over an authenticated stream.  Durable aggregates hold the state,
    application services mutate them inside transactions, and workers reconcile
    external resources with durable intent.

    ** The library

    Foundations.
    - [Prelude]: results of fallible Go calls, machine integers, guard automation.
    - [Regex]: regular expressions, their matcher and its correctness
      ([match_string]), for the patterns the program compiles.
    - [GoStd]: [time], [unicode/utf8], [bytes.TrimSpace], [encoding/hex] and the
      scanner behind [json.Valid], [path.Clean] and its companions;
      [JsonDecoder]: [json.Decoder.Token] and [More]; [JsonEncode]:
      [json.Marshal]; [JsonUnmarshal], [JsonStrict]: [json.Unmarshal]
      into Go values, raw messages and unknown-field-rejecting structs;
      [JsonRoundTrip]: what is marshalled is read back; [Base64Url]:
      [base64.RawURLEncoding]; [Sha256]: an executable SHA-256 with test vectors.
    - [Optimistic]: the interface of versioned aggregates (class [Versioned]) and
      what it implies for interleaved writers; [Lease]: the interface of fenced
      claims (class [Fenced]) and the exclusion of superseded workers;
      [CasStore]: tables written under the version that was read (class
      [Stored]); [ClaimQueue]: the statement that claims due rows (class
      [Queue]); [Interaction]: programs that call other components, their runs
      and traces; [Observer]: runs that keep to a protocol, and the proof rules for
      programs that do, and what a run has seen of an object ([Sight]); [Once]: operations
      elected by an idempotency record.

    The domain (src/internal/primitives and src/internal/domain).  One file per
    package; the aggregate struct is a [Record], its constructors and methods are
    functions into [result], and a method that mutates its receiver returns the new
    one.  Every method checks before it assigns, so an error leaves the receiver
    unchanged.
    - [Primitives] and [Cursor] (primitives/*.go), [Session] (session/session.go),
      [Execution] (execution/execution.go), [Attempt] (attempt/attempt.go),
      [Idempotency] (idempotency/record.go), [Outbox] (outbox/message.go),
      [Reconciliation] (reconciliation/work.go), [Workspace]
      (workspace/workspace.go), [Checkpoint] (checkpoint/checkpoint.go), [Cleanup]
      (cleanup/intent.go), [RuntimeBinding] (runtimebinding/binding.go, modules
      [Sandbox] and [Harness]), [RuntimeProfile] (runtimeprofile/*.go),
      [RuntimeEvent] (runtimeevent/event.go).

    Storage (src/internal/adapters/postgres).  One tenant's rows of a table with
    the constraints, indexes and triggers of its migrations, and one function per
    statement of the repository.
    - [IdempotencyStore], [OutboxStore], [RuntimeStore] (modules [Sessions],
      [Executions], [Attempts]: store.go, execution_creation.go,
      attempt_fence.go), [RuntimeHistory] (histories of the three tables),
      [Repositories] ([WithinTransaction]), [AgentdCredentials]
      (agentd_credentials.go: generations of agent credentials, bootstraps and
      connection epochs), [AgentdPolicy] (agentd_policy.go: what an agent may send
      and receive, and the dispatch ledger; [persistThread] of
      harness_bindings.go).

    The services (src/internal/app and the adapters that hold logic).  A service
    that calls stores, providers or policies is a [prog] over an inductive type of
    its calls; theorems quantify over every run, so over every behaviour of the
    other side, failures included.
    - [SessionCreate] and [Resume] (app/session), [ExecutionBinding],
      [ExecutionCreate] and [ExecutionSignal] (app/execution), [Profiles]
      (config/runtimeprofiles), [Catalog] (config/sessionruntimes), [LocalAuthority] and [AuthorityAdmission]
      (adapters/authority/local, with the grants table of
      adapters/postgres/local_grants.go), [CheckpointRestore] (app/checkpoint),
      [HarnessPort] and [HarnessRegistry] (ports/harness, app/harnessregistry),
      [CodexFrames], [CodexStream], [CodexSpec] and [CodexClient]
      (adapters/harness/codex), [ComputeReconciliation] and [Worker]
      (app/reconciliation), [Handshake]
      (adapters/sandboxtransport/protocol/handshake.go), [AgentdAdmission]
      (app/agentdadmission/admission.go), [EventStream] (app/eventstream/read.go,
      with the log query of adapters/postgres/event_reads.go).
    - The agent's connection: [Control] and [ControlReports]
      (adapters/sandboxtransport/control), [AgentdSession] (adapters/sandboxtransport/grpc/session.go), [AgentdServer]
      (app/agentdserver/handler.go) on the runtime's side; [AgentdConfig]
      (app/agentd/config.go), [Capture] and [CaptureWriter]
      (app/agentd/capture.go), [AgentdReconnect] (app/agentd/reconnect.go),
      [ProcessControl] (app/agentd/control_linux.go: executing a command) and
      [ControlLoop] (the same file: [Serve]) on the agent's.
    - The agent's process supervisor: [Supervisor] (app/agentd/process_linux.go,
      shutdown_linux.go, status.go, controls_linux.go and turn_linux.go) has the
      state that its goroutines share, one program per goroutine, what a call may
      answer in a state ([react]) and the steps of all goroutines together;
      [SupervisorLocks] shows of every program that it respects the locks it knows
      it holds, [SupervisorSafety] what follows for every interleaving.
    - Storage of workspaces: [WorkspaceStorage] (ports/workspace, the Kubernetes provider of
      adapters/workspace/kubernetes/provider.go and empty.go, its store
      adapters/postgres/workspace_storage.go and the publication of an empty generation in
      workspace_empty.go); [WorkspaceStorageSafety] shows what holds of every run against a
      cluster that answers as it likes.
    - Compute: [AgentSandbox] (adapters/sandbox/agentsandbox: the provider that
      [ComputeReconciliation] calls, against the same kind of cluster; what it has seen of an
      object is the [Sight] of [Observer]) with [AgentSandboxSafety], and its store:
      [SandboxBindings] (adapters/postgres: sandbox_bindings.go, compute_reconciliation.go,
      compute_recovery.go and sandbox_replacement.go as transactions over rows) with
      [SandboxJournal], for every sequence of calls.
    - The API (adapters/http): [HttpRequests] (server.go, problem.go, sessions.go,
      executions.go, execution_signals.go) on top of the services above, and
      [HttpStream] (session_events.go) on top of [EventStream].

    ** What the theorems show

    - Aggregates: every reachable value satisfies the aggregate's invariant; the
      Session transition function refines the documented lifecycle; terminal,
      closed, settled and tombstoned states are final; histories and evidence are
      append-only; of several commands presenting one version at most one wins;
      stored values restore to themselves.
    - Fenced records: after a claim is taken over, every command of the previous
      owner is refused, whatever happened in between.
    - Storage: whatever the interleaving of readers and writers, every outbox,
      session, execution and attempt row is the outcome of a run of the domain's
      commands and is read back as it is; a session, execution or attempt is replaced
      only by a value computed from the current row, so no update is lost; a due outbox
      message is handed out after at most as many grants as there were due messages
      ahead of it, while claims last and nothing is added before it; the attempts of
      an execution that is over or superseded are never touched again.
    - Admission: Sessions, Executions, signals and grants are created atomically
      and once per idempotency key, also when the answer of a commit is lost; what an
      admission or a signal rests on is what its own transaction read; the grant binding of an Execution survives
      storage; catalogs, profiles and harness registries resolve exactly what was
      approved; reads disclose only with access.
    - Cursors: a page cursor decodes to what was encoded, and one that was altered
      decodes only if the HMAC collides.
    - Workspaces: published generations form one gap-free chain of parents.
    - Authority: a grant stays within the resolved profile, the operator's ceilings
      and its time window end to end, and a cancelled or expired grant never
      becomes active again.
    - Reconciliation: the provider is mutated at most once and inside the fences of
      the loaded intent; convergence rests on observation.
    - Workspace storage: every mutation of the cluster is preceded by its durable intent and
      follows the object that was pinned; a claim that was bound is not created anew.
    - Compute: a sandbox is created only for a reservation that was read back and checked, and
      objects are changed and deleted only as they were read, under an operation that the store
      has begun; lifecycle operations are journaled once and in order, nothing follows a
      release, and at most one observation of a loaded intent is recorded.
    - Transport: negotiated limits and capabilities are the meet of both sides, a
      Welcome verifies exactly when it is the negotiated one, a lease rests on two
      complete checks, refused admissions close what they allocated, frames and
      credentials are re-checked; every frame of a session is valid for its
      direction and authorised as it passes; commands are dispatched once, as the plan
      has them and in its order, one at a time; an execution's input has one encoding.
      The registry hands out every generation and epoch once and a bootstrap opens
      one connection; the dispatch ledger records each command once, with at most
      one outstanding per sandbox and outcomes that rest on frames and are final;
      a revoked admission passes no frame again.
    - The agent: captured output stays within its budgets, in order, complete and
      sanitised under every interleaving, no wake-up is lost, and the chunks in
      which a stream arrives do not matter; the reconnect loop presents a proof
      once, stops local work before every attempt and bounds its attempts and
      pauses; an operation changes the process at most once, whatever is repeated;
      a connection is served with consecutive frames, one command at a time and
      one answer per result.
    - The supervisor: at most one process is alive or has failed its cleanup, none is
      launched before the last one is cleaned up, no process group is signalled after
      its leader was reaped, no process is left running that nobody was told of, and a
      shutdown that reports success is final.
    - The API: a request is refused with a problem document or reaches exactly one
      service, once, for the authenticated caller, with the values the request
      carries, and the service's answer decides the response; a stream of events
      authenticates before every read, shows what was read once and in ascending
      order, and gives back its share of the limits, which are exact.
    - Codex: the event stream refines its specification (numbered, bracketed, ended
      once), publishes only approved content, and the client writes each request at
      most once, on a thread whose policy was confirmed.
    - Checkpoints: a manifest that validates is signed, bound to the expected
      Session and backed by exactly the vendor objects that it names.
    - Events: a payload is accepted exactly when it is a JSON object within the
      contract's bounds; a reader discloses exactly the next event or reports a gap, and
      over a stored log its answer is determined.
    - Two theorems record behaviour that departs from the intent: a renewal under
      clock regression and a claim before creation.

    ** Bounds and fuel

    Definitions recurse structurally over bytes, lists or programs, or over a
    number that the code itself bounds.  The payload walk of [RuntimeEvent] recurses
    over the remaining nesting levels ([maxJSONDepth] + 1) and its loops run on 257
    passes: every pass increments a counter that stops the walk at 256, so the fuel
    never decides ([event_payload_exact] is an equivalence).  JSON documents are
    parsed on as much fuel as they have bytes, every step consuming one; the vendor
    walk of [CheckpointRestore] runs on 4098 passes, which its entry limit never
    exhausts.  The read loops of [CodexClient], the turns of
    [AgentdServer.serve_loop], [AgentdReconnect.connections] and
    [ControlLoop.serve_loop] are bounded by the number of frames, turns, attempts
    and selections that are observed; a run that is still
    waiting has no outcome and no theorem takes it for a success.  So are the loop of
    [HttpStream.eventStream] and, in the class [Settings] of [Supervisor], the attempts
    of a shutdown to take the gate and its waits for orphans, which the code bounds by
    deadlines; the answers of contexts and timers are free, so every interleaving in
    which a deadline passes earlier is included.
    [CaptureWriter.write_loop] has as much fuel as its chunk has bytes, every turn
    consuming one.  [JsonEncode.digits] has twenty digits for a [uint64].  Unsigned
    counters wrap where the code's do ([u64]).

    ** Not modelled

    Parameters, with the equations used of them: protobuf encoding, JSON
    canonicalisation, JSON schemas, the encoding of grants and policies, semantic
    versions, Ed25519, media types ([mime.ParseMediaType]), network addresses
    ([net.SplitHostPort]), PostgreSQL's text of a [jsonb] value and, of Kubernetes, the
    comparison and encoding of Pod specifications, the names of objects and the equality of
    templates.  Left out: the
    construction of checkpoint manifests and Codex restore; the repositories of
    workspaces and checkpoints, the claiming of reconciliation work ([ClaimCompute],
    [FinishCompute]) and the suspend and resume transactions; of the API the mux, tracing, the recovery of
    panics, metrics, health and authority diagnostics; of agentd the cgroups, the
    decoding of its files and its bootstrap; of the Kubernetes adapters templates, attachments, network
    policies, runtime classes, capability discovery and session resume; the gRPC server
    and client, the host registry and its secrets, and telemetry, which are input and
    output. *)

From Stdlib Require Import ZArith Bool Lia.
From stdpp Require Import base strings list decidable.

#[global] Open Scope Z_scope.

(** ** Results of fallible Go calls

    A Go function returning [(T, error)], or a method returning [error] and
    mutating its receiver, becomes a function into [result E T]: [Ok] carries
    the value (or the mutated receiver), [Err] the sentinel error that
    [errors.Is] observes.  Every modelled method performs its checks before its
    first assignment, so an [Err] leaves the receiver as it was. *)

Inductive result (E A : Type) : Type :=
| Ok (a : A)
| Err (e : E).

Arguments Ok {E A} a.
Arguments Err {E A} e.

Definition rbind {E A B : Type} (m : result E A) (k : A -> result E B) : result E B :=
  match m with
  | Ok a => k a
  | Err e => Err e
  end.

Declare Scope go_scope.
Delimit Scope go_scope with go.

Notation "'let!' x ':=' m 'in' k" := (rbind m (fun x => k))
  (at level 10, x binder, m at level 100, k at level 200) : go_scope.

(** The boolean [==] of Go on comparable values. *)
Notation "x == y" := (bool_decide (x = y)) (at level 70, no associativity) : go_scope.
Notation "x != y" := (negb (bool_decide (x = y))) (at level 70, no associativity) : go_scope.

#[global] Open Scope go_scope.

Definition is_ok {E A : Type} (r : result E A) : bool :=
  match r with Ok _ => true | Err _ => false end.

(** [p != nil] for a pointer modelled as an [option]. *)
Definition is_some {A : Type} (o : option A) : bool :=
  match o with Some _ => true | None => false end.

(** The bytes of a Go string. *)
Abbreviation chars := String.list_ascii_of_string.

(** ** Lists *)

(** A key names one element. *)
Lemma keyed {A K : Type} (f : A -> K) t a b : NoDup (map f t) -> a ∈ t -> b ∈ t -> f a = f b -> a = b.
Proof.
  intros N X Y I. apply list_elem_of_lookup_1 in X as [i X]. apply list_elem_of_lookup_1 in Y as [j Y].
  assert (P : map f t !! i = Some (f a)) by by rewrite list_lookup_fmap, X.
  assert (Q : map f t !! j = Some (f a)) by by rewrite list_lookup_fmap, Y, I.
  pose proof (NoDup_lookup _ _ _ _ N P Q) as ->. congruence.
Qed.

(** ** Machine integers *)

Definition max_int64 : Z := 9223372036854775807.
Definition two64 : Z := 18446744073709551616.

(** Conversion to [uint64]; [u64 (x + 1)] is Go's [x++]. *)
Definition u64 (z : Z) : Z := z mod two64.

Definition is_u64 (z : Z) : Prop := 0 <= z < two64.

(** Conversion to [int64]: two's complement wrap-around. *)
Definition i64 (z : Z) : Z := (z + max_int64 + 1) mod two64 - max_int64 - 1.

Lemma u64_range z : is_u64 (u64 z).
Proof. unfold is_u64, u64, two64. apply Z.mod_pos_bound. lia. Qed.

Lemma u64_small z : is_u64 z -> u64 z = z.
Proof. unfold is_u64, u64. apply Z.mod_small. Qed.

Lemma u64_succ_small z : 0 <= z < two64 - 1 -> u64 (z + 1) = z + 1.
Proof. intros H. apply u64_small. unfold is_u64. lia. Qed.

(** [x++] never returns to [x], even at the wrap-around. *)
Lemma u64_succ_neq z : is_u64 z -> u64 (z + 1) <> z.
Proof.
  unfold is_u64, u64, two64. intros H E.
  destruct (Z.eq_dec z 18446744073709551615) as [-> | N].
  - discriminate E.
  - rewrite Z.mod_small in E; lia.
Qed.

Lemma i64_small z : - max_int64 - 1 <= z <= max_int64 -> i64 z = z.
Proof. unfold i64, max_int64, two64. intros H. rewrite Z.mod_small; lia. Qed.

(** ** Booleans

    Guards are boolean expressions as in the source; [simp_bool] turns a guard
    that was decided into the atomic facts it stands for. *)

Lemma negb_bool_decide_false (P : Prop) `{Decision P} :
  negb (bool_decide P) = false -> P.
Proof. rewrite negb_false_iff. apply bool_decide_eq_true. Qed.

Lemma negb_bool_decide_true (P : Prop) `{Decision P} :
  negb (bool_decide P) = true -> ~ P.
Proof. rewrite negb_true_iff. apply bool_decide_eq_false. Qed.

Ltac simp_bool_step :=
  match goal with
  | H : _ || _ = false |- _ => apply orb_false_iff in H as [? ?]
  | H : _ && _ = true |- _ => apply andb_true_iff in H as [? ?]
  | H : negb (bool_decide _) = false |- _ => apply negb_bool_decide_false in H
  | H : negb (bool_decide _) = true |- _ => apply negb_bool_decide_true in H
  | H : bool_decide _ = true |- _ => apply bool_decide_eq_true in H
  | H : bool_decide _ = false |- _ => apply bool_decide_eq_false in H
  | H : negb _ = false |- _ => apply negb_false_iff in H
  | H : negb _ = true |- _ => apply negb_true_iff in H
  | H : eqb _ _ = true |- _ => apply eqb_prop in H
  | H : is_some ?o = true |- _ => destruct o eqn:?; [clear H | discriminate H]
  | H : is_some ?o = false |- _ => destruct o eqn:?; [discriminate H | clear H]
  | H : true = true |- _ => clear H
  | H : false = false |- _ => clear H
  end.

Ltac simp_bool := repeat simp_bool_step; simplify_eq; try discriminate.

(** Evaluate the comparisons of constants that a case analysis leaves behind. *)
Ltac reduce_decide :=
  repeat match goal with
  | |- context [bool_decide ?P] =>
      let v := eval vm_compute in (bool_decide P) in
      match v with true => idtac | false => idtac end; change (bool_decide P) with v
  | H : context [bool_decide ?P] |- _ =>
      let v := eval vm_compute in (bool_decide P) in
      match v with true => idtac | false => idtac end; change (bool_decide P) with v in H
  end; cbn [negb andb orb eqb] in *.

(** [ok_inv H] inverts [H : code = Ok r]: it follows the only control path that
    returns a value and leaves the guards of that path in the context. *)
Ltac ok_inv_step H :=
  lazymatch type of H with
  | rbind ?m _ = _ => destruct m eqn:?; unfold rbind at 1 in H
  | (match ?x with _ => _ end) = _ => destruct x eqn:?
  end; try discriminate H.

Ltac ok_inv H :=
  repeat ok_inv_step H;
  try (injection H as H; try subst); simp_bool.

(** [split_guards H] keeps every path, for statements about errors. *)
Ltac split_guards :=
  repeat match goal with
  | |- context [match ?x with _ => _ end] => destruct x eqn:?
  end.
