(* ===== verification/Regex.v ===== *)
(** * Regular expressions

    The program validates identifiers and digests with anchored Go regular
    expressions ([regexp.MustCompile(`^...$`)]).  This file models the fragment
    those patterns use (literals, character classes, concatenation,
    alternation, [*], [?] and bounded repetition) as an executable matcher by
    derivatives, with its meaning as a relation.  All classes of the program are
    ASCII, so matching on bytes and matching on runes coincide. *)

From Stdlib Require Import ZArith Bool Lia Ascii.
From stdpp Require Import base strings list.
From S2P Require Import Prelude.

(** A byte class: a list of inclusive ranges of byte values, as [[a-z0-9._]]. *)
Definition cls : Type := list (Z * Z).

Definition byte_val (c : ascii) : Z := Z.of_N (N_of_ascii c).

Definition in_cls (k : cls) (c : ascii) : bool :=
  existsb (fun '(lo, hi) => (lo <=? byte_val c) && (byte_val c <=? hi)) k.

Inductive re : Type :=
| RNone
| REps
| RCls (k : cls)
| RCat (a b : re)
| RAlt (a b : re)
| RStar (a : re).

Fixpoint nullable (r : re) : bool :=
  match r with
  | RNone => false
  | REps => true
  | RCls _ => false
  | RCat a b => nullable a && nullable b
  | RAlt a b => nullable a || nullable b
  | RStar _ => true
  end.

(** Constructors that drop dead branches, so derivatives stay small. *)
Definition mk_cat (a b : re) : re :=
  match a with
  | RNone => RNone
  | REps => b
  | _ => RCat a b
  end.

Definition mk_alt (a b : re) : re :=
  match a, b with
  | RNone, _ => b
  | _, RNone => a
  | _, _ => RAlt a b
  end.

Fixpoint deriv (c : ascii) (r : re) : re :=
  match r with
  | RNone | REps => RNone
  | RCls k => if in_cls k c then REps else RNone
  | RCat a b =>
      if nullable a then mk_alt (mk_cat (deriv c a) b) (deriv c b)
      else mk_cat (deriv c a) b
  | RAlt a b => mk_alt (deriv c a) (deriv c b)
  | RStar a => mk_cat (deriv c a) (RStar a)
  end.

(** [Regexp.MatchString] for a pattern anchored at both ends. *)
Fixpoint match_string (r : re) (s : string) : bool :=
  match s with
  | EmptyString => nullable r
  | String c s' => match_string (deriv c r) s'
  end.

(** ** Pattern syntax *)

Definition ropt (r : re) : re := RAlt r REps.

(** [r{n}] *)
Fixpoint rep (n : nat) (r : re) : re :=
  match n with
  | O => REps
  | S k => RCat r (rep k r)
  end.

(** [r{0,n}] *)
Fixpoint rep_upto (n : nat) (r : re) : re :=
  match n with
  | O => REps
  | S k => ropt (RCat r (rep_upto k r))
  end.

Fixpoint lit (s : string) : re :=
  match s with
  | EmptyString => REps
  | String c s' => RCat (RCls [(byte_val c, byte_val c)]) (lit s')
  end.

Definition cls_digit : cls := [(48, 57)].
Definition cls_lower : cls := [(97, 122)].
Definition cls_upper : cls := [(65, 90)].
Definition cls_hex : cls := [(48, 57); (97, 102)].
Definition cls_alnum : cls := cls_upper ++ cls_lower ++ cls_digit.

(** [^sha256:[0-9a-f]{64}$], the digest pattern of every domain package. *)
Definition sha256_pattern : re := RCat (lit "sha256:") (rep 64 (RCls cls_hex)).

(** [^[A-Za-z0-9][A-Za-z0-9._:/-]*$], the bounded-name pattern. *)
Definition name_class : cls := cls_alnum ++ [(45, 47); (58, 58); (95, 95)].
Definition name_pattern : re := RCat (RCls cls_alnum) (RStar (RCls name_class)).

(** [^[A-Za-z0-9._~-]{16,128}$], the idempotency-key pattern of the services. *)
Definition key_class : cls := cls_alnum ++ [(45, 46); (95, 95); (126, 126)].
Definition key_pattern : re := RCat (rep 16 (RCls key_class)) (rep_upto 112 (RCls key_class)).

(** [^[A-Za-z0-9][A-Za-z0-9._:-]{0,127}$], the identifier pattern of runtimes and
    profiles. *)
Definition id_class : cls := cls_alnum ++ [(45, 46); (58, 58); (95, 95)].
Definition id_pattern : re := RCat (RCls cls_alnum) (rep_upto 127 (RCls id_class)).

(** ** Meaning *)

Inductive matches : re -> list ascii -> Prop :=
| m_eps : matches REps []
| m_cls k c : in_cls k c = true -> matches (RCls k) [c]
| m_cat a b u v : matches a u -> matches b v -> matches (RCat a b) (u ++ v)
| m_alt_l a b u : matches a u -> matches (RAlt a b) u
| m_alt_r a b u : matches b u -> matches (RAlt a b) u
| m_star_nil a : matches (RStar a) []
| m_star_cons a c u v :
    matches a (c :: u) -> matches (RStar a) v -> matches (RStar a) (c :: u ++ v).

Create HintDb regex.
#[export] Hint Constructors matches : regex.

Lemma nullable_spec r : nullable r = true <-> matches r [].
Proof.
  induction r as [| | k | a IHa b IHb | a IHa b IHb | a IHa]; cbn.
  - split; [discriminate | inversion 1].
  - split; eauto with regex.
  - split; [discriminate | inversion 1].
  - rewrite andb_true_iff, IHa, IHb. split.
    + intros [Ha Hb]. change (@nil ascii) with ([] ++ [] : list ascii). by constructor.
    + inversion 1 as [| | ? ? u v Hu Hv Eab Euv | | | |]; subst.
      apply app_nil in Euv as [-> ->]. done.
  - rewrite orb_true_iff, IHa, IHb. split.
    + intros [?|?]; eauto with regex.
    + inversion 1; subst; eauto.
  - split; eauto with regex.
Qed.

Lemma mk_cat_spec a b u : matches (mk_cat a b) u <-> matches (RCat a b) u.
Proof.
  destruct a; cbn; try reflexivity.
  - split; [inversion 1 |]. inversion 1 as [| | ? ? ? ? Hn | | | |]; inversion Hn.
  - split.
    + intros H. change u with ([] ++ u). eauto with regex.
    + inversion 1 as [| | ? ? u' v Hu Hv E1 E2 | | | |]; subst. inversion Hu; subst. done.
Qed.

Lemma mk_alt_spec a b u : matches (mk_alt a b) u <-> matches (RAlt a b) u.
Proof.
  assert (N : forall w, ~ matches RNone w) by (intros w H; inversion H).
  assert (A : matches (RAlt a b) u <-> matches a u \/ matches b u)
    by (split; [inversion 1; eauto | intros [?|?]; eauto with regex]).
  assert (S : mk_alt a b = RAlt a b \/ (a = RNone /\ mk_alt a b = b)
              \/ (b = RNone /\ mk_alt a b = a)) by (destruct a, b; cbn; auto).
  destruct S as [-> | [[-> ->] | [-> ->]]]; [done | rewrite A .. ];
    split; auto; intros [F | F]; auto; by apply N in F.
Qed.

Lemma matches_cat a b u :
  matches (RCat a b) u <-> exists v w, u = v ++ w /\ matches a v /\ matches b w.
Proof.
  split; [inversion 1; subst; eauto | intros (v & w & -> & Hv & Hw); eauto with regex].
Qed.

Lemma cat_cons a b c u :
  matches (RCat a b) (c :: u) <->
  (exists v w, u = v ++ w /\ matches a (c :: v) /\ matches b w)
  \/ (matches a [] /\ matches b (c :: u)).
Proof.
  split.
  - inversion 1 as [| | ? ? x y Hx Hy E1 E2 | | | |]; subst.
    destruct x as [| c' x]; cbn in *; simplify_eq; eauto 8.
  - intros [(v & w & -> & Hv & Hw) | [Ha Hb]].
    + change (c :: v ++ w) with ((c :: v) ++ w). eauto with regex.
    + change (c :: u) with ([] ++ c :: u). eauto with regex.
Qed.

Lemma deriv_spec c r : forall u, matches (deriv c r) u <-> matches r (c :: u).
Proof.
  induction r as [| | k | a IHa b IHb | a IHa b IHb | a IHa]; intros u; cbn.
  - split; inversion 1.
  - split; inversion 1.
  - destruct (in_cls k c) eqn:E.
    + split; inversion 1; subst; eauto with regex.
    + split; inversion 1; subst; congruence.
  - assert (C : matches (mk_cat (deriv c a) b) u <->
                exists v w, u = v ++ w /\ matches a (c :: v) /\ matches b w).
    { rewrite mk_cat_spec. split.
      - inversion 1 as [| | ? ? x y Hx Hy E1 E2 | | | |]; subst.
        exists x, y. rewrite <- IHa. eauto.
      - intros (v & w & -> & Hv & Hw). apply IHa in Hv. eauto with regex. }
    rewrite cat_cons. destruct (nullable a) eqn:Na.
    + apply nullable_spec in Na. rewrite mk_alt_spec. split.
      * inversion 1; subst; [left; by apply C | right; split; [done | by apply IHb]].
      * intros [H | [_ H]]; [apply m_alt_l; by apply C | apply m_alt_r; by apply IHb].
    + rewrite C. split; [eauto |]. intros [? | [Ha _]]; [done |].
      apply nullable_spec in Ha. congruence.
  - rewrite mk_alt_spec. split; inversion 1; subst;
      ((apply m_alt_l; by apply IHa) || (apply m_alt_r; by apply IHb)).
  - rewrite mk_cat_spec. split.
    + inversion 1 as [| | ? ? x y Hx Hy E1 E2 | | | |]; subst.
      apply IHa in Hx. eauto with regex.
    + inversion 1; subst. apply m_cat; [by apply IHa | done].
Qed.

(** The matcher decides the language of the pattern. *)
Lemma match_string_spec s : forall r,
  match_string r s = true <-> matches r (chars s).
Proof.
  induction s as [| c s IH]; intros r; cbn.
  - apply nullable_spec.
  - rewrite IH. apply deriv_spec.
Qed.

Lemma matches_cls k u : matches (RCls k) u <-> exists c, u = [c] /\ in_cls k c = true.
Proof. split; [inversion 1; eauto | intros (c & -> & H); eauto with regex]. Qed.

Lemma matches_rep_cls n k : forall u,
  matches (rep n (RCls k)) u <-> length u = n /\ Forall (fun c => in_cls k c = true) u.
Proof.
  induction n as [| n IH]; intros u; cbn.
  - split.
    + inversion 1; subst. split; constructor.
    + intros [H _]. destruct u; [constructor | discriminate H].
  - split.
    + inversion 1 as [| | ? ? x y Hx Hy E1 E2 | | | |]; subst.
      apply matches_cls in Hx as (c & -> & Hc). apply IH in Hy as [Hl Hf].
      cbn. split; [lia | by constructor].
    + intros [Hl Hf]. destruct u as [| c u]; [discriminate Hl |].
      inversion Hf; subst. cbn in Hl. change (c :: u) with ([c] ++ u).
      apply m_cat; [by apply matches_cls; eauto | apply IH; split; [lia | done]].
Qed.

Lemma matches_star_cls k : forall u,
  matches (RStar (RCls k)) u <-> Forall (fun c => in_cls k c = true) u.
Proof.
  intros u; split.
  - remember (RStar (RCls k)) as r eqn:E. intros H. revert E.
    induction H as [| | | | | | a c u v Ha IHa Hv IHv]; intros E; simplify_eq; try constructor.
    + inversion Ha; subst. done.
    + inversion Ha; subst. cbn. by apply IHv.
  - induction 1 as [| c u Hc Hu IH]; [constructor |].
    apply (m_star_cons _ c [] u); [by constructor | done].
Qed.

Lemma matches_lit s : forall u, matches (lit s) u <-> u = chars s.
Proof.
  induction s as [| c s IH]; intros u; cbn.
  - split; [inversion 1; done | intros ->; constructor].
  - split.
    + inversion 1 as [| | ? ? x y Hx Hy E1 E2 | | | |]; subst.
      apply matches_cls in Hx as (c' & -> & Hc). apply IH in Hy as ->. cbn. f_equal.
      cbn in Hc. unfold byte_val in Hc. rewrite orb_false_r in Hc.
      apply andb_true_iff in Hc as [H1 H2].
      apply Z.leb_le in H1, H2.
      rewrite <- (ascii_N_embedding c'), <- (ascii_N_embedding c). f_equal. lia.
    + intros ->. change (c :: chars s) with ([c] ++ chars s).
      apply m_cat; [| by apply IH]. constructor. cbn. rewrite !Z.leb_refl. done.
Qed.

(** What the digest pattern accepts: ["sha256:"] and 64 lower-case hex digits. *)
Lemma sha256_pattern_spec s :
  match_string sha256_pattern s = true <->
  exists h, chars s = chars "sha256:" ++ h
            /\ length h = 64%nat /\ Forall (fun c => in_cls cls_hex c = true) h.
Proof.
  rewrite match_string_spec. unfold sha256_pattern. rewrite matches_cat. split.
  - intros (x & y & E & Hx & Hy).
    apply matches_lit in Hx as ->. apply matches_rep_cls in Hy as [Hl Hf]. eauto.
  - intros (h & E & Hl & Hf). exists (chars "sha256:"), h.
    split; [done |]. split; [by apply matches_lit | by apply matches_rep_cls].
Qed.

(** What the name pattern accepts: an alphanumeric byte, then name bytes. *)
Lemma name_pattern_spec s :
  match_string name_pattern s = true <->
  exists c u, chars s = c :: u /\ in_cls cls_alnum c = true
              /\ Forall (fun x => in_cls name_class x = true) u.
Proof.
  rewrite match_string_spec. unfold name_pattern. rewrite matches_cat. split.
  - intros (x & y & E & Hx & Hy). apply matches_cls in Hx as (c & -> & Hc).
    apply matches_star_cls in Hy. eauto.
  - intros (c & u & E & Hc & Hu). exists [c], u.
    split; [done |]. split; [apply matches_cls; eauto | by apply matches_star_cls].
Qed.

Lemma matches_rep_upto_cls n k : forall u, matches (rep_upto n (RCls k)) u ->
  (length u <= n)%nat /\ Forall (fun c => in_cls k c = true) u.
Proof.
  induction n as [| n IH]; intros u; cbn [rep_upto].
  - inversion 1; subst. split; [cbn; lia | constructor].
  - unfold ropt. inversion 1 as [| | | ? ? ? Ha | ? ? ? Hb | |]; subst.
    + inversion Ha as [| | ? ? x y Hx Hy E1 E2 | | | |]; subst.
      apply matches_cls in Hx as (c & -> & Hc). apply IH in Hy as [Hl Hf].
      cbn. split; [lia | by constructor].
    + inversion Hb; subst. split; [cbn; lia | constructor].
Qed.

(** An accepted identifier consists of identifier bytes. *)
Lemma id_pattern_class s : match_string id_pattern s = true ->
  Forall (fun c => in_cls id_class c = true) (chars s).
Proof.
  rewrite match_string_spec. unfold id_pattern. rewrite matches_cat.
  intros (x & y & -> & Hx & Hy). apply matches_cls in Hx as (c & -> & Hc).
  apply matches_rep_upto_cls in Hy as [_ Hy]. cbn [app]. constructor; [| done].
  unfold in_cls, id_class in *. rewrite existsb_app. by rewrite Hc.
Qed.
