(* ===== verification/GoStd.v ===== *)
(** * The Go standard library, as far as the program uses it

    Strings and byte slices are Rocq strings (a Go string is a byte sequence);
    [len] counts bytes.  Modelled here: [time.Time], [unicode/utf8],
    [bytes.TrimSpace], [encoding/hex], the scanner behind
    [encoding/json.Valid] and the helpers of [strings] and [path]. *)

From Stdlib Require Import ZArith Bool Lia Ascii.
From stdpp Require Import base strings list.
From S2P Require Import Prelude Regex.

Definition len (s : string) : Z := Z.of_nat (String.length s).

Definition byte_of (z : Z) : ascii := ascii_of_N (Z.to_N z).

Definition to_bytes (s : string) : list Z := map byte_val (chars s).

(** [bytes.IndexByte(s, b) < 0] *)
Definition no_byte (b : Z) (s : string) : bool :=
  forallb (fun c => negb (c =? b)) (to_bytes s).

Lemma byte_val_range c : 0 <= byte_val c < 256.
Proof.
  unfold byte_val. pose proof (N_ascii_bounded c). lia.
Qed.

Lemma byte_of_val c : byte_of (byte_val c) = c.
Proof. unfold byte_of, byte_val. rewrite N2Z.id. apply ascii_N_embedding. Qed.

Lemma byte_val_of z : 0 <= z < 256 -> byte_val (byte_of z) = z.
Proof.
  intros H. unfold byte_of, byte_val. rewrite N_ascii_embedding; [lia |].
  apply N2Z.inj_lt. rewrite Z2N.id by lia. cbn. lia.
Qed.

Lemma length_to_bytes s : Z.of_nat (length (to_bytes s)) = len s.
Proof.
  unfold to_bytes, len. rewrite length_map.
  induction s as [| c s IH]; cbn; lia.
Qed.

(** ** Package time

    An instant in nanoseconds since the zero time (1 January year 1, UTC) and
    the location it is presented in.  Comparison looks at the instant only;
    [UTC()] changes only the location. *)

Inductive Location : Type :=
| LocUTC
| LocZone (name : string).

#[export] Instance Location_eq_dec : EqDecision Location.
Proof. solve_decision. Defined.

Record Time : Type := mkTime { nanos : Z; loc : Location }.

#[export] Instance Time_eq_dec : EqDecision Time.
Proof. solve_decision. Defined.

Definition UTC (t : Time) : Time := mkTime (nanos t) LocUTC.
Definition IsZero (t : Time) : bool := nanos t =? 0.
Definition Before (t u : Time) : bool := nanos t <? nanos u.
Definition After (t u : Time) : bool := nanos u <? nanos t.
Definition TimeEqual (t u : Time) : bool := nanos t =? nanos u.
Definition Add (t : Time) (d : Z) : Time := mkTime (nanos t + d) (loc t).

(** The zero [time.Time]. *)
Definition zeroTime : Time := mkTime 0 LocUTC.

(** Seconds from year 1 to the Unix epoch. *)
Definition unix_epoch_seconds : Z := 62135596800.

(** [t.UnixMilli()], an [int64]: [unixSec*1000 + nsec/1e6] with wrap-around. *)
Definition UnixMilli (t : Time) : Z :=
  i64 ((nanos t / 1000000000 - unix_epoch_seconds) * 1000
       + (nanos t mod 1000000000) / 1000000).

(** Helper of every aggregate: copy a [*time.Time], normalised to UTC. *)
Definition copyTime (v : option Time) : option Time :=
  match v with
  | None => None
  | Some t => Some (UTC t)
  end.

Definition is_utc (t : Time) : Prop := loc t = LocUTC.

Lemma UTC_idem t : UTC (UTC t) = UTC t.
Proof. done. Qed.

Lemma UTC_of_utc t : is_utc t -> UTC t = t.
Proof. destruct t as [n l]; unfold is_utc; cbn. by intros ->. Qed.

Lemma UTC_is_utc t : is_utc (UTC t).
Proof. done. Qed.

Lemma copyTime_utc o : (forall t, o = Some t -> is_utc t) -> copyTime o = o.
Proof. destruct o as [t |]; cbn; [| done]. intros H. by rewrite UTC_of_utc by eauto. Qed.

Create HintDb go.
#[export] Hint Resolve UTC_is_utc : go.

(** Unfold the time predicates so that [lia] sees instants. *)
Ltac times :=
  unfold Before, After, IsZero, TimeEqual, UTC in *; cbn [nanos loc] in *.

Ltac tlia := times; lia.

(** ** Package unicode/utf8 *)

Definition RuneError : Z := 65533.

Definition is_cont (b : Z) : bool := (128 <=? b) && (b <=? 191).

(** [utf8.DecodeRune]: the first rune and its width; [(RuneError, 1)] for an
    invalid encoding.  The second-byte ranges exclude over-long forms,
    surrogates and values beyond U+10FFFF. *)
Definition DecodeRune (b0 : Z) (rest : list Z) : Z * nat :=
  let bad := (RuneError, 1%nat) in
  if b0 <? 128 then (b0, 1%nat)
  else if (b0 <? 194) || (244 <? b0) then bad
  else match rest with
  | [] => bad
  | b1 :: rest1 =>
      if b0 <? 224 then
        if is_cont b1 then (Z.lor (Z.shiftl (Z.land b0 31) 6) (Z.land b1 63), 2%nat) else bad
      else
        let lo := if b0 =? 224 then 160 else if b0 =? 240 then 144 else 128 in
        let hi := if b0 =? 237 then 159 else if b0 =? 244 then 143 else 191 in
        if negb ((lo <=? b1) && (b1 <=? hi)) then bad
        else match rest1 with
        | [] => bad
        | b2 :: rest2 =>
            if negb (is_cont b2) then bad
            else if b0 <? 240 then
              (Z.lor (Z.shiftl (Z.land b0 15) 12)
                 (Z.lor (Z.shiftl (Z.land b1 63) 6) (Z.land b2 63)), 3%nat)
            else match rest2 with
            | [] => bad
            | b3 :: _ =>
                if negb (is_cont b3) then bad
                else (Z.lor (Z.shiftl (Z.land b0 7) 18)
                        (Z.lor (Z.shiftl (Z.land b1 63) 12)
                           (Z.lor (Z.shiftl (Z.land b2 63) 6) (Z.land b3 63))), 4%nat)
            end
        end
  end.

(** The runes of [for i, r := range s], with the index and width of each. *)
Fixpoint range_bytes (i skip : nat) (s : list Z) : list (nat * (Z * nat)) :=
  match s with
  | [] => []
  | b :: s' =>
      match skip with
      | S k => range_bytes (S i) k s'
      | O => let rw := DecodeRune b s' in
             (i, rw) :: range_bytes (S i) (snd rw - 1) s'
      end
  end.

Definition range_string (s : string) : list (nat * (Z * nat)) := range_bytes 0 0 (to_bytes s).

Definition runes (s : string) : list Z := map (fun x => fst (snd x)) (range_string s).

Definition RuneCountInString (s : string) : Z := Z.of_nat (length (range_string s)).

(** A decoding error is the pair [(RuneError, 1)]; a literal U+FFFD has width 3. *)
Definition ValidString (s : string) : bool :=
  forallb (fun x => negb ((fst (snd x) =? RuneError) && (snd (snd x) =? 1)%nat))
          (range_string s).

(** [unicode.IsControl]: category Cc. *)
Definition IsControl (r : Z) : bool := ((0 <=? r) && (r <? 32)) || ((127 <=? r) && (r <? 160)).

Lemma range_bytes_length i : forall k s, (length (range_bytes i k s) <= length s)%nat.
Proof.
  intros k s. revert i k. induction s as [| b s IH]; intros i k; cbn; [lia |].
  destruct k as [| k]; cbn; [specialize (IH (S i) (snd (DecodeRune b s) - 1)%nat) |
                             specialize (IH (S i) k)]; lia.
Qed.

(** A string has at most as many runes as bytes. *)
Lemma RuneCount_le_len s : RuneCountInString s <= len s.
Proof.
  unfold RuneCountInString, range_string. rewrite <- length_to_bytes.
  pose proof (range_bytes_length 0 0 (to_bytes s)). lia.
Qed.

(** ** bytes.TrimSpace

    Leading and trailing runes of [unicode.IsSpace] are removed.  The multi-byte
    white-space runes are U+0085, U+00A0, U+1680, U+2000..U+200A, U+2028,
    U+2029, U+202F, U+205F and U+3000; their encodings end in bytes that no
    other rune start can follow, so trimming from the right by encoding agrees
    with [utf8.DecodeLastRune]. *)

Definition ascii_space (b : Z) : bool := ((9 <=? b) && (b <=? 13)) || (b =? 32).

Definition space2 (b0 b1 : Z) : bool := (b0 =? 194) && ((b1 =? 133) || (b1 =? 160)).

Definition space3 (b0 b1 b2 : Z) : bool :=
  ((b0 =? 225) && (b1 =? 154) && (b2 =? 128))
  || ((b0 =? 226) && (b1 =? 128)
      && (((128 <=? b2) && (b2 <=? 138)) || (b2 =? 168) || (b2 =? 169) || (b2 =? 175)))
  || ((b0 =? 226) && (b1 =? 129) && (b2 =? 159))
  || ((b0 =? 227) && (b1 =? 128) && (b2 =? 128)).

Fixpoint trim_left (s : list Z) : list Z :=
  match s with
  | [] => []
  | b0 :: s1 =>
      if ascii_space b0 then trim_left s1
      else match s1 with
      | [] => s
      | b1 :: s2 =>
          if space2 b0 b1 then trim_left s2
          else match s2 with
          | [] => s
          | b2 :: s3 => if space3 b0 b1 b2 then trim_left s3 else s
          end
      end
  end.

(** On the reversed bytes. *)
Fixpoint trim_right_rev (s : list Z) : list Z :=
  match s with
  | [] => []
  | b0 :: s1 =>
      if ascii_space b0 then trim_right_rev s1
      else match s1 with
      | [] => s
      | b1 :: s2 =>
          if space2 b1 b0 then trim_right_rev s2
          else match s2 with
          | [] => s
          | b2 :: s3 => if space3 b2 b1 b0 then trim_right_rev s3 else s
          end
      end
  end.

Definition TrimSpace (s : list Z) : list Z := rev (trim_right_rev (rev (trim_left s))).

(** ** encoding/json: the scanner behind json.Valid *)

Module Json.

(** One constructor per step function of the Go scanner. *)
Inductive step_fn : Type :=
| BeginValueOrEmpty | BeginValue | BeginStringOrEmpty | BeginString
| EndValue | EndTop
| InString | InStringEsc | EscU | EscU1 | EscU12 | EscU123
| Neg | Digits | Zero | Dot | Dot0 | Exp | ExpSign | Exp0
| LitT | LitTr | LitTru | LitF | LitFa | LitFal | LitFals | LitN | LitNu | LitNul.

Inductive parse_state : Type := ObjectKey | ObjectValue | ArrayValue.

Record scanner : Type := mkScanner {
  sstep : step_fn;
  sstack : list parse_state;
  sendTop : bool
}.

Definition maxNestingDepth : Z := 10000.

Definition reset : scanner := mkScanner BeginValue [] false.

Definition isSpace (c : Z) : bool := (c =? 32) || (c =? 9) || (c =? 13) || (c =? 10).
Definition isDigit (c : Z) : bool := (48 <=? c) && (c <=? 57).
Definition isHex (c : Z) : bool :=
  isDigit c || ((97 <=? c) && (c <=? 102)) || ((65 <=? c) && (c <=? 70)).

Definition goto (s : scanner) (f : step_fn) : option scanner :=
  Some (mkScanner f (sstack s) (sendTop s)).

Definition push (s : scanner) (p : parse_state) (f : step_fn) : option scanner :=
  if Z.of_nat (length (p :: sstack s)) <=? maxNestingDepth
  then Some (mkScanner f (p :: sstack s) (sendTop s))
  else None.

Definition pop (s : scanner) : option scanner :=
  match tail (sstack s) with
  | [] => Some (mkScanner EndTop [] true)
  | st => Some (mkScanner EndValue st (sendTop s))
  end.

Definition endTop (s : scanner) (c : Z) : option scanner :=
  if isSpace c then Some (mkScanner EndTop (sstack s) true) else None.

Definition endValue (s : scanner) (c : Z) : option scanner :=
  match sstack s with
  | [] => endTop s c
  | p :: st =>
      if isSpace c then goto s EndValue
      else match p with
      | ObjectKey =>
          if c =? 58 then Some (mkScanner BeginValue (ObjectValue :: st) (sendTop s)) else None
      | ObjectValue =>
          if c =? 44 then Some (mkScanner BeginString (ObjectKey :: st) (sendTop s))
          else if c =? 125 then pop s else None
      | ArrayValue =>
          if c =? 44 then goto s BeginValue
          else if c =? 93 then pop s else None
      end
  end.

Definition beginValue (s : scanner) (c : Z) : option scanner :=
  if isSpace c then goto s BeginValue
  else if c =? 123 then push s ObjectKey BeginStringOrEmpty
  else if c =? 91 then push s ArrayValue BeginValueOrEmpty
  else if c =? 34 then goto s InString
  else if c =? 45 then goto s Neg
  else if c =? 48 then goto s Zero
  else if c =? 116 then goto s LitT
  else if c =? 102 then goto s LitF
  else if c =? 110 then goto s LitN
  else if (49 <=? c) && (c <=? 57) then goto s Digits
  else None.

Definition beginString (s : scanner) (c : Z) (self : step_fn) : option scanner :=
  if isSpace c then goto s self
  else if c =? 34 then goto s InString else None.

Definition state0 (s : scanner) (c : Z) : option scanner :=
  if c =? 46 then goto s Dot
  else if (c =? 101) || (c =? 69) then goto s Exp
  else endValue s c.

Definition expSign (s : scanner) (c : Z) : option scanner :=
  if isDigit c then goto s Exp0 else None.

Definition expect (s : scanner) (c want : Z) (f : step_fn) : option scanner :=
  if c =? want then goto s f else None.

Definition step (s : scanner) (c : Z) : option scanner :=
  match sstep s with
  | BeginValueOrEmpty =>
      if isSpace c then goto s BeginValueOrEmpty
      else if c =? 93 then endValue s c else beginValue s c
  | BeginValue => beginValue s c
  | BeginStringOrEmpty =>
      if isSpace c then goto s BeginStringOrEmpty
      else if c =? 125 then
        endValue (mkScanner (sstep s) (ObjectValue :: tail (sstack s)) (sendTop s)) c
      else beginString s c BeginString
  | BeginString => beginString s c BeginString
  | EndValue => endValue s c
  | EndTop => endTop s c
  | InString =>
      if c =? 34 then goto s EndValue
      else if c =? 92 then goto s InStringEsc
      else if c <? 32 then None else goto s InString
  | InStringEsc =>
      if (c =? 98) || (c =? 102) || (c =? 110) || (c =? 114) || (c =? 116)
         || (c =? 92) || (c =? 47) || (c =? 34) then goto s InString
      else if c =? 117 then goto s EscU else None
  | EscU => if isHex c then goto s EscU1 else None
  | EscU1 => if isHex c then goto s EscU12 else None
  | EscU12 => if isHex c then goto s EscU123 else None
  | EscU123 => if isHex c then goto s InString else None
  | Neg =>
      if c =? 48 then goto s Zero
      else if (49 <=? c) && (c <=? 57) then goto s Digits else None
  | Digits => if isDigit c then goto s Digits else state0 s c
  | Zero => state0 s c
  | Dot => if isDigit c then goto s Dot0 else None
  | Dot0 =>
      if isDigit c then goto s Dot0
      else if (c =? 101) || (c =? 69) then goto s Exp else endValue s c
  | Exp => if (c =? 43) || (c =? 45) then goto s ExpSign else expSign s c
  | ExpSign => expSign s c
  | Exp0 => if isDigit c then goto s Exp0 else endValue s c
  | LitT => expect s c 114 LitTr
  | LitTr => expect s c 117 LitTru
  | LitTru => expect s c 101 EndValue
  | LitF => expect s c 97 LitFa
  | LitFa => expect s c 108 LitFal
  | LitFal => expect s c 115 LitFals
  | LitFals => expect s c 101 EndValue
  | LitN => expect s c 117 LitNu
  | LitNu => expect s c 108 LitNul
  | LitNul => expect s c 108 EndValue
  end.

Fixpoint run (s : scanner) (data : list Z) : option scanner :=
  match data with
  | [] => Some s
  | c :: data' => match step s c with Some s' => run s' data' | None => None end
  end.

(** [scan.eof() != scanError] *)
Definition eof (s : scanner) : bool :=
  if sendTop s then true
  else match step s 32 with Some s' => sendTop s' | None => false end.

End Json.

(** [json.Valid] *)
Definition json_valid (data : list Z) : bool :=
  match Json.run Json.reset data with
  | Some s => Json.eof s
  | None => false
  end.

(** [json.Unmarshal(data, &object)] for [object map[string]json.RawMessage],
    followed by [err == nil && object != nil]: the document is valid and its
    value is an object ([null] would leave the map nil).  Keys are strings by the
    grammar and [RawMessage] accepts every value. *)
Definition json_unmarshal_object (data : list Z) : bool :=
  json_valid data
  && match trim_left data with b :: _ => b =? 123 | [] => false end.

(** The JSON object check shared by the Session, Execution, Workspace and
    profile-snapshot packages, with their byte limit. *)
Definition validJSONObject (value : string) (maximum : Z) : bool :=
  let trimmed := TrimSpace (to_bytes value) in
  let n := Z.of_nat (length trimmed) in
  if (n <? 2) || (maximum <? n)
     || negb (match trimmed with b :: _ => b =? 123 | [] => false end)
     || negb (json_valid trimmed)
  then false
  else json_unmarshal_object trimmed.

(** ** encoding/hex *)

Definition hexdigit (n : Z) : ascii := byte_of (if n <? 10 then 48 + n else 87 + n).

Fixpoint hexEncode (src : list Z) : string :=
  match src with
  | [] => ""
  | b :: s => String (hexdigit (Z.shiftr b 4)) (String (hexdigit (Z.land b 15)) (hexEncode s))
  end.

(** Both letter cases decode. *)
Definition unhex (c : ascii) : option Z :=
  let v := byte_val c in
  if (48 <=? v) && (v <=? 57) then Some (v - 48)
  else if (97 <=? v) && (v <=? 102) then Some (v - 87)
  else if (65 <=? v) && (v <=? 70) then Some (v - 55)
  else None.

(** [hex.Decode]: an odd length or a foreign byte is an error. *)
Fixpoint hexDecode (s : string) : option (list Z) :=
  match s with
  | EmptyString => Some []
  | String a (String b rest) =>
      match unhex a, unhex b, hexDecode rest with
      | Some x, Some y, Some l => Some (Z.lor (Z.shiftl x 4) y :: l)
      | _, _, _ => None
      end
  | String _ EmptyString => None
  end.

Definition is_byte (b : Z) : Prop := 0 <= b < 256.

(** Case analysis over a byte or a nibble by evaluation. *)
Lemma below_dec (n : nat) (f : Z -> bool) :
  forallb f (map Z.of_nat (seq 0 n)) = true -> forall b, 0 <= b < Z.of_nat n -> f b = true.
Proof.
  rewrite forallb_forall. intros H b Hb. apply H, in_map_iff.
  exists (Z.to_nat b). split; [lia |]. apply in_seq. lia.
Qed.

Lemma unhex_hexdigit n : 0 <= n < 16 -> unhex (hexdigit n) = Some n.
Proof.
  intros H. enough (E : bool_decide (unhex (hexdigit n) = Some n) = true)
    by (by apply bool_decide_eq_true in E).
  revert n H. apply (below_dec 16). vm_compute. reflexivity.
Qed.

Lemma byte_nibbles b : is_byte b ->
  0 <= Z.shiftr b 4 < 16 /\ 0 <= Z.land b 15 < 16
  /\ Z.lor (Z.shiftl (Z.shiftr b 4) 4) (Z.land b 15) = b.
Proof.
  intros H.
  enough (E : ((0 <=? Z.shiftr b 4) && (Z.shiftr b 4 <? 16)
               && (0 <=? Z.land b 15) && (Z.land b 15 <? 16)
               && (Z.lor (Z.shiftl (Z.shiftr b 4) 4) (Z.land b 15) =? b)) = true) by lia.
  revert b H. apply (below_dec 256). vm_compute. reflexivity.
Qed.

Lemma hexDecode_encode l : Forall is_byte l -> hexDecode (hexEncode l) = Some l.
Proof.
  induction 1 as [| b l Hb Hl IH]; cbn [hexEncode hexDecode]; [done |].
  destruct (byte_nibbles b Hb) as (H1 & H2 & H3).
  by rewrite (unhex_hexdigit _ H1), (unhex_hexdigit _ H2), IH, H3.
Qed.

Lemma unhex_range c x : unhex c = Some x -> 0 <= x < 16.
Proof. unfold unhex. intros H. repeat case_match; simplify_eq; lia. Qed.

Lemma hexDecode_bytes : forall n s l,
  (String.length s <= n)%nat -> hexDecode s = Some l ->
  Forall is_byte l /\ String.length s = (2 * length l)%nat.
Proof.
  induction n as [| n IH]; intros s l Hn H.
  - destruct s; [| cbn in Hn; lia]. cbn in H. simplify_eq. split; [constructor | done].
  - destruct s as [| a [| b s]]; cbn in H; [by simplify_eq; split; [constructor |] | done |].
    destruct (unhex a) eqn:Ha, (unhex b) eqn:Hb, (hexDecode s) as [l' |] eqn:Hs; try discriminate H.
    simplify_eq. apply IH in Hs as [Hf Hl]; [| cbn in Hn; lia].
    split; [constructor; [| done] | cbn; lia].
    apply unhex_range in Ha, Hb. unfold is_byte.
    enough (E : (0 <=? Z.lor (Z.shiftl z 4) z0) && (Z.lor (Z.shiftl z 4) z0 <? 256) = true) by lia.
    revert z Ha. apply (below_dec 16). revert z0 Hb.
    apply (below_dec 16). vm_compute. reflexivity.
Qed.

(** Hex encoding preserves the byte order: the first differing byte decides. *)
Lemma hexdigit_order m n : 0 <= m < 16 -> 0 <= n < 16 ->
  Ascii.compare (hexdigit m) (hexdigit n) = (m ?= n).
Proof.
  intros Hm Hn.
  enough (E : bool_decide (Ascii.compare (hexdigit m) (hexdigit n) = (m ?= n)) = true)
    by (by apply bool_decide_eq_true in E).
  revert m Hm. apply (below_dec 16). revert n Hn.
  apply (below_dec 16). vm_compute. reflexivity.
Qed.

(** ** Packages strings and path

    The string helpers and [path.Clean] (on Linux also [filepath.Clean]) *)

Definition HasPrefix (s prefix : string) : bool := String.prefix prefix s.

Fixpoint HasSuffix (s suffix : string) : bool :=
  (s == suffix) || match s with String _ rest => HasSuffix rest suffix | EmptyString => false end.

(** [strings.TrimSuffix(s, "/")] *)
Fixpoint trim_slash (s : string) : string :=
  match s with
  | EmptyString => EmptyString
  | String c EmptyString => if byte_val c =? 47 then EmptyString else s
  | String c rest => String c (trim_slash rest)
  end.

(** The segments of a path. *)
Fixpoint segments (s : string) (current : string) : list string :=
  match s with
  | EmptyString => [current]
  | String c rest =>
      if byte_val c =? 47 then current :: segments rest "" else segments rest (current +:+ String c "")
  end.

(** [path.Clean], segment by segment; the accumulator is reversed. *)
Fixpoint clean (rooted : bool) (acc : list string) (l : list string) : list string :=
  match l with
  | [] => rev acc
  | x :: rest =>
      if (x == "") || (x == ".") then clean rooted acc rest
      else if x == ".." then
        match acc with
        | y :: acc' => if y == ".." then clean rooted (x :: acc) rest else clean rooted acc' rest
        | [] => if rooted then clean rooted [] rest else clean rooted [x] rest
        end
      else clean rooted (x :: acc) rest
  end.

Fixpoint join_path (l : list string) : string :=
  match l with
  | [] => ""
  | [x] => x
  | x :: rest => x +:+ "/" +:+ join_path rest
  end.

Definition Clean (path : string) : string :=
  let rooted := HasPrefix path "/" in
  let out := (if rooted then "/" else "") +:+ join_path (clean rooted [] (segments path "")) in
  if out == "" then "." else out.

Example clean_paths :
  map Clean ["/a//b/./c/../d/"; "/../x"; "../a/../.."; ""; "a/.."; "/"; "/a"]
  = ["/a/b/d"; "/x"; "../.."; "."; "."; "/"; "/a"].
Proof. vm_compute. reflexivity. Qed.

(** [filepath.IsAbs] *)
Definition IsAbs (path : string) : bool := HasPrefix path "/".

(** [strings.Cut(s, " ")]: the part before the first space. *)
Fixpoint cut_space (s : string) : string :=
  match s with
  | EmptyString => EmptyString
  | String c rest => if byte_val c =? 32 then EmptyString else String c (cut_space rest)
  end.
