(* ===== verification/JsonDecoder.v ===== *)
(** * encoding/json: Decoder.Token and Decoder.More

    The token stream of a JSON document as a [json.Decoder] with [UseNumber]
    delivers it: the decoder's token state machine over the scanner of [GoStd],
    and the unquoting of string literals.  Strings that the decoder returns are
    valid UTF-8 and are represented by their runes. *)

From Stdlib Require Import ZArith Bool Lia.
From stdpp Require Import base list gmap.
From S2P Require Import Prelude GoStd.

(** ** unquote *)

Definition hex4 (s : list Z) : option Z :=
  match s with
  | a :: b :: c :: d :: _ =>
      match unhex (byte_of a), unhex (byte_of b), unhex (byte_of c), unhex (byte_of d) with
      | Some x, Some y, Some z, Some w => Some (x * 4096 + y * 256 + z * 16 + w)
      | _, _, _, _ => None
      end
  | _ => None
  end.

(** [getu4]: four hex digits after a backslash and a [u], or -1. *)
Definition getu4 (s : list Z) : Z :=
  match s with
  | a :: b :: rest => if (a =? 92) && (b =? 117) then default (-1) (hex4 rest) else -1
  | _ => -1
  end.

Definition is_surrogate (r : Z) : bool := (55296 <=? r) && (r <? 57344).

(** [utf16.DecodeRune] *)
Definition utf16_DecodeRune (r1 r2 : Z) : Z :=
  if (55296 <=? r1) && (r1 <? 56320) && (56320 <=? r2) && (r2 <? 57344)
  then Z.lor (Z.shiftl (r1 - 55296) 10) (r2 - 56320) + 65536
  else RuneError.

(** One rune of a literal's text and the bytes it takes. *)
Definition unquote_rune (c : Z) (rest : list Z) : Z * nat :=
  if negb (c =? 92) then DecodeRune c rest
  else match rest with
  | [] => (RuneError, 1%nat)
  | e :: _ =>
      if e =? 117 then
        let rr := getu4 (c :: rest) in
        if is_surrogate rr then
          let dec := utf16_DecodeRune rr (getu4 (skipn 5 rest)) in
          if negb (dec =? RuneError) then (dec, 12%nat) else (RuneError, 6%nat)
        else (rr, 6%nat)
      else if e =? 98 then (8, 2%nat)
      else if e =? 102 then (12, 2%nat)
      else if e =? 110 then (10, 2%nat)
      else if e =? 114 then (13, 2%nat)
      else if e =? 116 then (9, 2%nat)
      else (e, 2%nat)
  end.

Fixpoint unquote (skip : nat) (s : list Z) : list Z :=
  match s with
  | [] => []
  | c :: s' =>
      match skip with
      | S k => unquote k s'
      | O => let rw := unquote_rune c s' in fst rw :: unquote (snd rw - 1) s'
      end
  end.

(** ** Tokens *)

Inductive token : Type :=
| Delim (c : Z)
| TString (runes : list Z)
| TNumber (text : list Z)
| TBool (b : bool)
| TNull.

#[export] Instance token_eq_dec : EqDecision token.
Proof. solve_decision. Defined.

Inductive token_state : Type :=
| tokenTopValue | tokenArrayStart | tokenArrayValue | tokenArrayComma
| tokenObjectStart | tokenObjectKey | tokenObjectColon | tokenObjectValue | tokenObjectComma.

(** The unread bytes and the token state with its stack. *)
Record decoder : Type := mkDecoder {
  tokenState : token_state;
  tokenStack : list token_state;
  buf : list Z
}.

Inductive token_error : Type := EOF | SyntaxError.

Definition tokenValueAllowed (s : token_state) : bool :=
  match s with
  | tokenTopValue | tokenArrayStart | tokenArrayValue | tokenObjectValue => true
  | _ => false
  end.

Definition tokenValueEnd (s : token_state) : token_state :=
  match s with
  | tokenArrayStart | tokenArrayValue => tokenArrayComma
  | tokenObjectValue => tokenObjectComma
  | s => s
  end.

(** [readValue] on a scalar: the bytes of the literal and what follows.  A complete
    top-level value ends at the first byte that does not continue it. *)
Fixpoint readValue (s : Json.scanner) (data : list Z) : option (list Z * list Z) :=
  match data with
  | [] => if Json.eof s then Some ([], []) else None
  | c :: rest =>
      match Json.step s c with
      | Some s' =>
          if Json.sendTop s' then Some ([], data)
          else match readValue s' rest with
               | Some (v, r) => Some (c :: v, r)
               | None => None
               end
      | None => if Json.eof s then Some ([], data) else None
      end
  end.

(** The value of a literal. *)
Definition literal (text : list Z) : token :=
  match text with
  | c :: rest =>
      if c =? 34 then TString (unquote 0 (removelast rest))
      else if c =? 116 then TBool true
      else if c =? 102 then TBool false
      else if c =? 110 then TNull
      else TNumber text
  | [] => TNumber text
  end.

(** Leave a compound value: back to the enclosing state, one value later. *)
Definition leave (c : Z) (stack : list token_state) (rest : list Z)
  : result token_error (token * decoder) :=
  match stack with
  | s :: stack' => Ok (Delim c, mkDecoder (tokenValueEnd s) stack' rest)
  | [] => Err SyntaxError
  end.

(** [Decode] of a scalar that starts at [data]. *)
Definition scalar (next : token_state) (stack : list token_state) (data : list Z)
  : result token_error (token * decoder) :=
  match readValue Json.reset data with
  | Some (text, rest) => Ok (literal text, mkDecoder next stack rest)
  | None => Err SyntaxError
  end.

Fixpoint token_from (st : token_state) (stack : list token_state) (data : list Z)
  : result token_error (token * decoder) :=
  match data with
  | [] => Err EOF
  | c :: rest =>
      if Json.isSpace c then token_from st stack rest
      else if c =? 91 then
        if tokenValueAllowed st then Ok (Delim 91, mkDecoder tokenArrayStart (st :: stack) rest)
        else Err SyntaxError
      else if c =? 93 then
        match st with
        | tokenArrayStart | tokenArrayComma => leave 93 stack rest
        | _ => Err SyntaxError
        end
      else if c =? 123 then
        if tokenValueAllowed st then Ok (Delim 123, mkDecoder tokenObjectStart (st :: stack) rest)
        else Err SyntaxError
      else if c =? 125 then
        match st with
        | tokenObjectStart | tokenObjectComma => leave 125 stack rest
        | _ => Err SyntaxError
        end
      else if c =? 58 then
        match st with
        | tokenObjectColon => token_from tokenObjectValue stack rest
        | _ => Err SyntaxError
        end
      else if c =? 44 then
        match st with
        | tokenArrayComma => token_from tokenArrayValue stack rest
        | tokenObjectComma => token_from tokenObjectKey stack rest
        | _ => Err SyntaxError
        end
      else
        match st, c =? 34 with
        | (tokenObjectStart | tokenObjectKey), true => scalar tokenObjectColon stack data
        | _, _ =>
            if tokenValueAllowed st then scalar (tokenValueEnd st) stack data
            else Err SyntaxError
        end
  end.

Definition Token (d : decoder) : result token_error (token * decoder) :=
  token_from (tokenState d) (tokenStack d) (buf d).

(** [peek] skips white space. *)
Fixpoint peek (data : list Z) : option Z :=
  match data with
  | [] => None
  | c :: rest => if Json.isSpace c then peek rest else Some c
  end.

Definition More (d : decoder) : bool :=
  match peek (buf d) with
  | Some c => negb (c =? 93) && negb (c =? 125)
  | None => false
  end.

Definition NewDecoder (data : list Z) : decoder := mkDecoder tokenTopValue [] data.

(** ** What More tells about the next token *)

Definition closing (t : token) : bool := bool_decide (t = Delim 93) || bool_decide (t = Delim 125).

Lemma literal_not_delim text c : literal text <> Delim c.
Proof. unfold literal. repeat case_match; discriminate. Qed.

Lemma scalar_not_closing next stack data t d :
  scalar next stack data = Ok (t, d) -> closing t = false.
Proof.
  unfold scalar. intros H. destruct (readValue _ _) as [[text rest] |]; [| discriminate H].
  injection H as <- <-. unfold closing.
  rewrite !bool_decide_eq_false_2; [done | apply literal_not_delim ..].
Qed.

(** After a comma or a colon no compound value can end. *)
Lemma token_from_open st stack data t d :
  match st with tokenArrayValue | tokenObjectKey | tokenObjectValue => True | _ => False end ->
  token_from st stack data = Ok (t, d) -> closing t = false.
Proof.
  intros S. induction data as [| c rest IH]; cbn [token_from]; [discriminate |].
  destruct (Json.isSpace c); [done |].
  destruct st; try done; cbn [tokenValueAllowed];
    repeat (case_match; try discriminate; try (intros; simplify_eq; reflexivity));
    apply scalar_not_closing.
Qed.

Lemma More_spec d t d' : Token d = Ok (t, d') -> More d = negb (closing t).
Proof.
  unfold Token, More. destruct d as [st stack data]. cbn [tokenState tokenStack buf].
  induction data as [| c rest IH]; cbn [token_from peek]; [discriminate |].
  destruct (Json.isSpace c); [done |].
  destruct (c =? 93) eqn:E1.
  { assert (c = 93) as -> by lia. cbn. unfold leave. intros H. by repeat case_match; simplify_eq. }
  destruct (c =? 125) eqn:E2.
  { assert (c = 125) as -> by lia. cbn. unfold leave. intros H. by repeat case_match; simplify_eq. }
  cbn [negb andb]. intros H. symmetry. apply negb_true_iff. revert H.
  destruct (c =? 91); [destruct (tokenValueAllowed st); [by intros; simplify_eq | discriminate] |].
  destruct (c =? 123); [destruct (tokenValueAllowed st); [by intros; simplify_eq | discriminate] |].
  destruct (c =? 58); [destruct st; try discriminate; by apply token_from_open |].
  destruct (c =? 44); [destruct st; try discriminate; by apply token_from_open |].
  intros H. destruct st, (c =? 34); try discriminate H; by apply scalar_not_closing in H.
Qed.
