(* ===== verification/JsonEncode.v ===== *)
(** * encoding/json: Marshal

    The encoder for what the program marshals: strings (with the default HTML
    escaping), unsigned integers, UTC times (RFC 3339 with nanoseconds), raw
    messages (compacted), maps (keys sorted) and structs (fields in declaration
    order). *)

From Stdlib Require Import ZArith Bool Lia.
From stdpp Require Import base strings list.
From S2P Require Import Prelude Regex GoStd.

Inductive jvalue : Type :=
| JString (s : string)
| JUint (n : Z)
| JTime (t : Time)
| JRaw (data : string)
| JNull
| JBytes (data : string)
| JMap (ms : list (string * jvalue))
| JStruct (ms : list (string * jvalue)).

(** ** Numbers *)

(** The decimal digits of [n], at most [fuel] of them; twenty hold a [uint64]. *)
Fixpoint digits (fuel : nat) (n : Z) : list Z :=
  match fuel with
  | O => []
  | S k => if n <? 10 then [48 + n] else digits k (n / 10) ++ [48 + n mod 10]
  end.

Definition decimal (n : Z) : list Z := digits 20 n.

(** [n] zero-padded to [width] digits. *)
Fixpoint padded (width : nat) (n : Z) : list Z :=
  match width with
  | O => []
  | S k => padded k (n / 10) ++ [48 + n mod 10]
  end.

(** ** Strings *)

(** A control or HTML character as [\u00xx]. *)
Definition u_escape (b : Z) : list Z :=
  [92; 117; 48; 48] ++ map byte_val (chars (hexEncode [b])).

(** One rune of width [w] spelled by [bytes]. *)
Definition encode_rune (r : Z) (w : nat) (bytes : list Z) : list Z :=
  if r <? 128 then
    if (r =? 34) || (r =? 92) then [92; r]
    else if r =? 8 then [92; 98]
    else if r =? 12 then [92; 102]
    else if r =? 10 then [92; 110]
    else if r =? 13 then [92; 114]
    else if r =? 9 then [92; 116]
    else if (r <? 32) || (r =? 60) || (r =? 62) || (r =? 38) then u_escape r
    else [r]
  else if (r =? RuneError) && (w =? 1)%nat then [92; 117; 102; 102; 102; 100]
  else if r =? 8232 then [92; 117; 50; 48; 50; 56]
  else if r =? 8233 then [92; 117; 50; 48; 50; 57]
  else bytes.

Definition encode_string (s : string) : list Z :=
  let data := to_bytes s in
  [34] ++ flat_map (fun ir => encode_rune (fst (snd ir)) (snd (snd ir))
                                (firstn (snd (snd ir)) (skipn (fst ir) data)))
            (range_bytes 0 0 data)
       ++ [34].

(** ** Times *)

(** Year, month and day of a day number counted from 1 March of year 0
    (proleptic Gregorian, 400-year eras of 146097 days). *)
Definition civil (days : Z) : Z * Z * Z :=
  let era := days / 146097 in
  let doe := days mod 146097 in
  let yoe := (doe - doe / 1460 + doe / 36524 - doe / 146096) / 365 in
  let doy := doe - (365 * yoe + yoe / 4 - yoe / 100) in
  let mp := (5 * doy + 2) / 153 in
  let d := doy - (153 * mp + 2) / 5 + 1 in
  let m := if mp <? 10 then mp + 3 else mp - 9 in
  ((yoe + era * 400 + (if m <=? 2 then 1 else 0)), m, d).

(** Trailing zeros of the fraction are dropped. *)
Fixpoint drop_zeros (l : list Z) : list Z :=
  match l with
  | 48 :: l' => drop_zeros l'
  | _ => l
  end.

(** RFC 3339 text of a UTC time; a year beyond 9999 is an error. *)
Definition time_text (t : Time) : option (list Z) :=
  let second := nanos t / 1000000000 in
  let ns := nanos t mod 1000000000 in
  (* 1 January of year 1 is day 306 after 1 March of year 0. *)
  let '(y, m, d) := civil (second / 86400 + 306) in
  let sod := second mod 86400 in
  if (y <? 0) || (9999 <? y) then None
  else Some (padded 4 y ++ [45] ++ padded 2 m ++ [45] ++ padded 2 d ++ [84]
        ++ padded 2 (sod / 3600) ++ [58] ++ padded 2 (sod / 60 mod 60) ++ [58] ++ padded 2 (sod mod 60)
        ++ (if ns =? 0 then [] else [46] ++ rev (drop_zeros (rev (padded 9 ns))))
        ++ [90]).

(** [Time.MarshalJSON] *)
Definition encode_time (t : Time) : option (list Z) :=
  option_map (fun text => [34] ++ text ++ [34]) (time_text t).

(** ** Raw messages

    [compact] with HTML escaping: white space outside strings is dropped, and
    inside the document [<], [>], [&], U+2028 and U+2029 are escaped. *)
Fixpoint compact_bytes (s : Json.scanner) (data : list Z) : option (list Z) :=
  match data with
  | [] => if Json.eof s then Some [] else None
  | c :: rest =>
      match Json.step s c with
      | None => None
      | Some s' =>
          let in_string := match Json.sstep s with
                           | Json.InString | Json.InStringEsc | Json.EscU | Json.EscU1
                           | Json.EscU12 | Json.EscU123 => true | _ => false end in
          let out :=
            if (c =? 60) || (c =? 62) || (c =? 38) then u_escape c
            else if negb in_string && Json.isSpace c then []
            else [c] in
          match c, rest with
          | 226, 128 :: 168 :: rest' =>
              option_map (app [92; 117; 50; 48; 50; 56]) (compact_bytes s' rest')
          | 226, 128 :: 169 :: rest' =>
              option_map (app [92; 117; 50; 48; 50; 57]) (compact_bytes s' rest')
          | _, _ => option_map (app out) (compact_bytes s' rest)
          end
      end
  end.

(** ** Byte slices: base64 with padding *)

Definition base64_char (v : Z) : Z :=
  if v <? 26 then 65 + v
  else if v <? 52 then 97 + (v - 26)
  else if v <? 62 then 48 + (v - 52)
  else if v =? 62 then 43 else 47.

Fixpoint base64 (data : list Z) : list Z :=
  match data with
  | [] => []
  | [a] => [base64_char (a / 4); base64_char (a mod 4 * 16); 61; 61]
  | [a; b] => [base64_char (a / 4); base64_char (a mod 4 * 16 + b / 16);
               base64_char (b mod 16 * 4); 61]
  | a :: b :: c :: rest =>
      [base64_char (a / 4); base64_char (a mod 4 * 16 + b / 16);
       base64_char (b mod 16 * 4 + c / 64); base64_char (c mod 64)] ++ base64 rest
  end.

(** ** Marshal *)

Fixpoint insert_key (m : string * list Z) (l : list (string * list Z)) : list (string * list Z) :=
  match l with
  | [] => [m]
  | x :: rest => if String.leb (fst m) (fst x) then m :: l else x :: insert_key m rest
  end.

Definition join (l : list (string * list Z)) : list Z :=
  match l with
  | [] => []
  | (k, v) :: rest =>
      encode_string k ++ [58] ++ v
      ++ flat_map (fun kv => [44] ++ encode_string (fst kv) ++ [58] ++ snd kv) rest
  end.

Fixpoint encode (v : jvalue) : option (list Z) :=
  match v with
  | JNull => Some [110; 117; 108; 108]
  | JBytes data =>
      Some (if data == "" then [110; 117; 108; 108] else [34] ++ base64 (to_bytes data) ++ [34])
  | JString s => Some (encode_string s)
  | JUint n => Some (decimal n)
  | JTime t => encode_time t
  | JRaw data => compact_bytes Json.reset (to_bytes data)
  | JMap ms =>
      match (fix members ms :=
               match ms with
               | [] => Some []
               | (k, x) :: rest =>
                   match encode x, members rest with
                   | Some bs, Some l => Some (insert_key (k, bs) l)
                   | _, _ => None
                   end
               end) ms with
      | Some l => Some ([123] ++ join l ++ [125])
      | None => None
      end
  | JStruct ms =>
      match (fix fields ms :=
               match ms with
               | [] => Some []
               | (k, x) :: rest =>
                   match encode x, fields rest with
                   | Some bs, Some l => Some ((k, bs) :: l)
                   | _, _ => None
                   end
               end) ms with
      | Some l => Some ([123] ++ join l ++ [125])
      | None => None
      end
  end.

(** A [bool] and a signed integer. *)
Definition bool_json (b : bool) : jvalue := JRaw (if b then "true" else "false").

Definition int_json (n : Z) : jvalue :=
  if n <? 0 then JRaw (String.string_of_list_ascii (map byte_of (45 :: decimal (- n)))) else JUint n.

(** A [json.RawMessage]: the empty slice is [nil] in the program, and [nil] is [null]. *)
Definition raw_message (data : string) : jvalue := if data == "" then JNull else JRaw data.

(** A string field with [omitempty]. *)
Definition omitempty (name value : string) : list (string * jvalue) :=
  if value == "" then [] else [(name, JString value)].

Definition of_bytes (l : list Z) : string := String.string_of_list_ascii (map byte_of l).

(** [json.Marshal] *)
Definition Marshal (v : jvalue) : option string := option_map of_bytes (encode v).

(** [raw, _ := json.Marshal(v)]: nil bytes on an error. *)
Definition marshal (v : jvalue) : string := default "" (Marshal v).

(** ** Examples *)

Definition quote (s : string) : string := String (byte_of 34) (s +:+ String (byte_of 34) "").

Example marshal_map :
  Marshal (JMap [("b", JUint 18446744073709551615); ("a", JString "x<y")])
  = Some ("{" +:+ quote "a" +:+ ":" +:+ quote "x\u003cy" +:+ "," +:+ quote "b"
          +:+ ":18446744073709551615}").
Proof. vm_compute. reflexivity. Qed.

Example marshal_time :
  Marshal (JTime (mkTime ((unix_epoch_seconds + 1709210096) * 1000000000 + 120000000) LocUTC))
  = Some (quote "2024-02-29T12:34:56.12Z").
Proof. vm_compute. reflexivity. Qed.

Example marshal_raw :
  Marshal (JRaw ("{ " +:+ quote "k 1" +:+ " : [1, 2 ] }")) = Some ("{" +:+ quote "k 1" +:+ ":[1,2]}").
Proof. vm_compute. reflexivity. Qed.

Example marshal_struct :
  Marshal (JStruct [("b", JBytes "Hello"); ("a", JNull); ("c", raw_message "")])
  = Some ("{" +:+ quote "b" +:+ ":" +:+ quote "SGVsbG8=" +:+ "," +:+ quote "a" +:+ ":null,"
          +:+ quote "c" +:+ ":null}").
Proof. vm_compute. reflexivity. Qed.
