(* ===== verification/Sha256.v ===== *)
(** * crypto/sha256

    The digest the program binds evidence with ([sandbox.Digest]), executable:
    32-bit words as [Z] modulo 2^32, the message as a list of bytes.  The examples
    at the end are the published test vectors. *)

From Stdlib Require Import ZArith Bool Lia Ascii.
From stdpp Require Import base strings list.
From S2P Require Import Prelude Regex GoStd.

Definition w32 (z : Z) : Z := Z.land z 4294967295.
Definition add32 (a b : Z) : Z := w32 (a + b).
Definition not32 (a : Z) : Z := 4294967295 - a.
Definition rotr (x n : Z) : Z := w32 (Z.lor (Z.shiftr x n) (Z.shiftl x (32 - n))).

Definition round_constants : list Z :=
  [1116352408; 1899447441; 3049323471; 3921009573; 961987163; 1508970993; 2453635748; 2870763221;
   3624381080; 310598401; 607225278; 1426881987; 1925078388; 2162078206; 2614888103; 3248222580;
   3835390401; 4022224774; 264347078; 604807628; 770255983; 1249150122; 1555081692; 1996064986;
   2554220882; 2821834349; 2952996808; 3210313671; 3336571891; 3584528711; 113926993; 338241895;
   666307205; 773529912; 1294757372; 1396182291; 1695183700; 1986661051; 2177026350; 2456956037;
   2730485921; 2820302411; 3259730800; 3345764771; 3516065817; 3600352804; 4094571909; 275423344;
   430227734; 506948616; 659060556; 883997877; 958139571; 1322822218; 1537002063; 1747873779;
   1955562222; 2024104815; 2227730452; 2361852424; 2428436474; 2756734187; 3204031479; 3329325298].

Definition initial_state : list Z :=
  [1779033703; 3144134277; 1013904242; 2773480762; 1359893119; 2600822924; 528734635; 1541459225].

(** The message schedule, newest word first: 48 words are derived from the 16 of
    the block. *)
Fixpoint schedule (n : nat) (w : list Z) : list Z :=
  match n with
  | O => w
  | S n' =>
      let x15 := nth 14 w 0 in
      let x2 := nth 1 w 0 in
      let s0 := Z.lxor (Z.lxor (rotr x15 7) (rotr x15 18)) (Z.shiftr x15 3) in
      let s1 := Z.lxor (Z.lxor (rotr x2 17) (rotr x2 19)) (Z.shiftr x2 10) in
      schedule n' (w32 (nth 15 w 0 + s0 + nth 6 w 0 + s1) :: w)
  end.

Definition compress_round (s : list Z) (kw : Z * Z) : list Z :=
  match s with
  | [a; b; c; d; e; f; g; h] =>
      let s1 := Z.lxor (Z.lxor (rotr e 6) (rotr e 11)) (rotr e 25) in
      let ch := Z.lxor (Z.land e f) (Z.land (not32 e) g) in
      let t1 := w32 (h + s1 + ch + fst kw + snd kw) in
      let s0 := Z.lxor (Z.lxor (rotr a 2) (rotr a 13)) (rotr a 22) in
      let maj := Z.lxor (Z.lxor (Z.land a b) (Z.land a c)) (Z.land b c) in
      [add32 t1 (w32 (s0 + maj)); a; b; c; add32 d t1; e; f; g]
  | _ => s
  end.

Fixpoint words_of (bs : list Z) : list Z :=
  match bs with
  | a :: b :: c :: d :: rest =>
      (Z.shiftl a 24 + Z.shiftl b 16 + Z.shiftl c 8 + d) :: words_of rest
  | _ => []
  end.

Definition compress (s : list Z) (block : list Z) : list Z :=
  let w := rev (schedule 48 (rev (words_of block))) in
  zip_with add32 s (fold_left compress_round (combine round_constants w) s).

(** Big-endian bytes of [z]. *)
Fixpoint be_bytes (n : nat) (z : Z) : list Z :=
  match n with
  | O => []
  | S n' => Z.land (Z.shiftr z (8 * Z.of_nat n')) 255 :: be_bytes n' z
  end.

(** Padding: a one bit, zeros to 56 modulo 64, the bit length. *)
Definition pad (msg : list Z) : list Z :=
  let n := Z.of_nat (length msg) in
  msg ++ 128 :: repeat 0 (Z.to_nat ((119 - n) mod 64)) ++ be_bytes 8 (8 * n).

Fixpoint blocks (n : nat) (bs : list Z) : list (list Z) :=
  match n with
  | O => []
  | S n' => take 64 bs :: blocks n' (drop 64 bs)
  end.

Definition Sum256 (msg : list Z) : list Z :=
  let p := pad msg in
  concat (map (be_bytes 4)
    (fold_left compress (blocks (Nat.div (length p) 64) p) initial_state)).

(** [sandbox.Digest] *)
Definition Digest (b : string) : string := "sha256:" +:+ hexEncode (Sum256 (to_bytes b)).

(** ** Shape of the digest *)

Lemma length_be_bytes n z : length (be_bytes n z) = n.
Proof. induction n; cbn; auto. Qed.

Lemma be_bytes_bytes n z : Forall is_byte (be_bytes n z).
Proof.
  induction n as [| n IH]; cbn [be_bytes]; constructor; [| done].
  unfold is_byte. change 255 with (Z.ones 8). rewrite Z.land_ones by lia.
  apply Z.mod_pos_bound. lia.
Qed.

Lemma length_compress_round s kw : length (compress_round s kw) = length s.
Proof. do 9 (destruct s as [| ? s]; [done |]). done. Qed.

Lemma length_compress s b : length s = 8%nat -> length (compress s b) = 8%nat.
Proof.
  intros H. unfold compress. rewrite length_zip_with, H.
  assert (L : forall kws t, length (fold_left compress_round kws t) = length t).
  { induction kws as [| kw kws IH]; intros t; cbn; [done |].
    by rewrite IH, length_compress_round. }
  by rewrite L, H.
Qed.

Lemma Sum256_shape msg : length (Sum256 msg) = 32%nat /\ Forall is_byte (Sum256 msg).
Proof.
  unfold Sum256. set (p := pad msg). clearbody p.
  assert (L : length (fold_left compress (blocks (Nat.div (length p) 64) p) initial_state) = 8%nat).
  { assert (G : forall bs s, length s = 8%nat -> length (fold_left compress bs s) = 8%nat).
    { induction bs as [| b bs IH]; intros s Hs; cbn; [done |]. by apply IH, length_compress. }
    by apply G. }
  revert L. generalize (fold_left compress (blocks (Nat.div (length p) 64) p) initial_state).
  intros s L. do 9 (destruct s as [| ? s]; try discriminate L). cbn [map concat].
  split; [by rewrite !length_app, !length_be_bytes |].
  repeat apply Forall_app_2; try apply be_bytes_bytes. constructor.
Qed.

Lemma hexdigit_class n : 0 <= n < 16 -> in_cls cls_hex (hexdigit n) = true.
Proof.
  intros H. revert n H. apply (below_dec 16). vm_compute. reflexivity.
Qed.

Lemma hexEncode_chars l : Forall is_byte l ->
  length (chars (hexEncode l)) = (2 * length l)%nat
  /\ Forall (fun c => in_cls cls_hex c = true) (chars (hexEncode l)).
Proof.
  induction 1 as [| b l Hb Hl [IH1 IH2]]; cbn; [split; [done | constructor] |].
  destruct (byte_nibbles b Hb) as (H1 & H2 & _). split; [lia |].
  constructor; [by apply hexdigit_class | constructor; [by apply hexdigit_class | done]].
Qed.

(** Every digest has the form the program's digest pattern checks. *)
Lemma Digest_pattern b : match_string sha256_pattern (Digest b) = true.
Proof.
  destruct (Sum256_shape (to_bytes b)) as [L F].
  destruct (hexEncode_chars _ F) as [L' F'].
  apply sha256_pattern_spec. exists (chars (hexEncode (Sum256 (to_bytes b)))).
  split; [done |]. split; [by rewrite L', L | exact F'].
Qed.

Example sha256_empty :
  Digest "" = "sha256:e3b0c44298fc1c149afbf4c8996fb92427ae41e4649b934ca495991b7852b855".
Proof. vm_compute. reflexivity. Qed.

Example sha256_abc :
  Digest "abc" = "sha256:ba7816bf8f01cfea414140de5dae2223b00361a396177a9cb410ff61f20015ad".
Proof. vm_compute. reflexivity. Qed.

Example sha256_two_blocks :
  Digest "abcdbcdecdefdefgefghfghighijhijkijkljklmklmnlmnomnopnopq"
  = "sha256:248d6a61d20638b8e5c026930c3e6039a33ce45964ff2167f6ecedd419db06c1".
Proof. vm_compute. reflexivity. Qed.
