(* ===== verification/Primitives.v ===== *)
(** * internal/primitives

    Closed enumerations, bounded strings and payloads, typed errors and UUIDv7
    identifiers: the validation vocabulary of every domain package, and concrete
    identifiers, digests and instants for witnesses. *)

From Stdlib Require Import ZArith Bool Lia Ascii.
From stdpp Require Import base strings list.
From S2P Require Import Prelude Regex GoStd.

(** ** enum.go *)

(** A Go string type with a closed list of constants.  The two laws say that the
    constants are distinct and that the list passed to [ParseEnum] has them all. *)
Class GoEnum (T : Type) := {
  enum_string : T -> string;
  enum_all : list T;
  enum_string_inj : forall x y, enum_string x = enum_string y -> x = y;
  enum_complete : forall x, x ∈ enum_all
}.

Inductive EnumError : Type := ErrInvalidEnum.

Fixpoint ParseEnum_loop {T} (str : T -> string) (value : string) (allowed : list T)
  : result EnumError T :=
  match allowed with
  | [] => Err ErrInvalidEnum
  | candidate :: rest =>
      if value == str candidate then Ok candidate else ParseEnum_loop str value rest
  end.

Definition ParseEnum {T} `{GoEnum T} (value : string) : result EnumError T :=
  ParseEnum_loop enum_string value enum_all.

Lemma ParseEnum_loop_ok {T} (str : T -> string) v l x :
  ParseEnum_loop str v l = Ok x -> v = str x /\ x ∈ l.
Proof.
  induction l as [| c l IH]; cbn; intros H; [discriminate H |].
  destruct (v == str c) eqn:E; simp_bool.
  - split; [done | left].
  - apply IH in H as [-> Hin]. split; [done | by right].
Qed.

Lemma ParseEnum_loop_in {T} (str : T -> string) (inj : forall x y, str x = str y -> x = y) x l :
  x ∈ l -> ParseEnum_loop str (str x) l = Ok x.
Proof.
  induction 1 as [x l | x y l Hin IH]; cbn.
  - by rewrite bool_decide_eq_true_2.
  - destruct (str x == str y) eqn:E; simp_bool; [by apply inj in E as -> | done].
Qed.

Section EnumFacts.
Context {T : Type} {ET : GoEnum T}.

Lemma ParseEnum_ok v (x : T) : ParseEnum v = Ok x <-> v = enum_string x.
Proof.
  split; [intros H; by apply ParseEnum_loop_ok in H as [-> _] |].
  intros ->. apply ParseEnum_loop_in; [apply enum_string_inj | apply enum_complete].
Qed.

Lemma ParseEnum_print (x : T) : ParseEnum (enum_string x) = Ok x.
Proof. by apply ParseEnum_ok. Qed.

End EnumFacts.

Create Rewrite HintDb enum.
#[export] Hint Rewrite @ParseEnum_print : enum.

(** Laws of a [GoEnum] instance by case analysis. *)
Ltac enum_inj := intros [] [] H; first [reflexivity | discriminate H].
Ltac enum_in := intros []; repeat (first [left | right]).

(** ** bounds.go *)

Inductive BoundsError : Type := ErrOutOfBounds.

Definition BoundedString (value : string) (minBytes maxBytes maxRunes : Z)
  : result BoundsError string :=
  if (minBytes <? 0) || (maxBytes <? minBytes) || (maxRunes <? 0) then Err ErrOutOfBounds
  else if negb (ValidString value) || (len value <? minBytes) || (maxBytes <? len value)
          || (maxRunes <? RuneCountInString value) then Err ErrOutOfBounds
  else Ok value.

Definition BoundedPayload (value : string) (maxBytes : Z) : result BoundsError string :=
  if (maxBytes <? 0) || (maxBytes <? len value) then Err ErrOutOfBounds
  else Ok value.

(** [_, err := BoundedString(v, 1, max, max); err == nil], the [bounded] helper of
    the domain packages. *)
Definition bounded (value : string) (maximum : Z) : bool :=
  is_ok (BoundedString value 1 maximum maximum).

(** With equal byte and rune limits, as every caller passes them, the rune test
    never decides: a string is accepted exactly when it is valid UTF-8 and its
    byte length is within the limits. *)
Lemma BoundedString_equal_limits v mn mx :
  0 <= mn <= mx ->
  BoundedString v mn mx mx =
  if ValidString v && (mn <=? len v) && (len v <=? mx) then Ok v else Err ErrOutOfBounds.
Proof.
  intros H. unfold BoundedString. pose proof (RuneCount_le_len v).
  destruct (ValidString v); cbn.
  - repeat case_match; simp_bool; try done; lia.
  - repeat case_match; done.
Qed.

(** ** errors.go *)

Inductive ErrorKind : Type :=
| Invalid | NotFound | Conflict | Forbidden | Unavailable | Internal.

#[export] Instance ErrorKind_eq_dec : EqDecision ErrorKind.
Proof. solve_decision. Defined.

#[export, refine] Instance ErrorKind_enum : GoEnum ErrorKind := {|
  enum_string k :=
    match k with
    | Invalid => "invalid" | NotFound => "not_found" | Conflict => "conflict"
    | Forbidden => "forbidden" | Unavailable => "unavailable" | Internal => "internal"
    end;
  enum_all := [Invalid; NotFound; Conflict; Forbidden; Unavailable; Internal]
|}.
Proof. all: [> enum_inj | enum_in]. Defined.

Record Error (C : Type) : Type := mkError {
  err_kind : ErrorKind;
  err_code : string;
  err_message : string;
  err_cause : C
}.
Arguments mkError {C}.
Arguments err_kind {C}.
Arguments err_code {C}.
Arguments err_message {C}.
Arguments err_cause {C}.

Inductive NewErrorFailure : Type := InvalidKind | InvalidCode | InvalidMessage.

Definition code_rune (n : Z) (ir : nat * (Z * nat)) : bool :=
  let i := Z.of_nat (fst ir) in
  let r := fst (snd ir) in
  ((97 <=? r) && (r <=? 122)) || ((48 <=? r) && (r <=? 57))
  || ((r =? 45) && (0 <? i) && (i <? n - 1)).

Definition validCode (value : string) : bool :=
  if (len value <? 1) || (64 <? len value) then false
  else forallb (code_rune (len value)) (range_string value).

Definition NewError {C} (kind code safeMessage : string) (cause : C)
  : result NewErrorFailure (Error C) :=
  match ParseEnum kind with
  | Err _ => Err InvalidKind
  | Ok k =>
      if negb (validCode code) then Err InvalidCode
      else match BoundedString safeMessage 1 256 256 with
      | Err _ => Err InvalidMessage
      | Ok _ => Ok (mkError k code safeMessage cause)
      end
  end.

(** [Error()]: the cause is never part of the text. *)
Definition Error_Error {C} (e : Error C) : string := (err_code e +:+ ": " +:+ err_message e).

(** ** id.go *)

(** A validated canonical UUIDv7; [ID] is a string type in the source. *)
Definition ID : Type := string.

Inductive IDError : Type := ErrInvalidID | ErrEntropy.

(** [raw[i]] of the 16-byte array. *)
Definition raw_at (raw : list Z) (i : nat) : Z := nth i raw 0.

Definition slice (i j : nat) (l : list Z) : list Z := firstn (j - i) (skipn i l).

Definition formatID (raw : list Z) : ID :=
  hexEncode (slice 0 4 raw) +:+ "-" +:+ hexEncode (slice 4 6 raw) +:+ "-" +:+
  hexEncode (slice 6 8 raw) +:+ "-" +:+ hexEncode (slice 8 10 raw) +:+ "-" +:+
  hexEncode (slice 10 16 raw).

(** [byte(x)] *)
Definition to_byte (x : Z) : Z := Z.land x 255.

(** [random] is [None] for a nil reader, otherwise the bytes the reader yields
    before end of file; [io.ReadFull] needs sixteen. *)
Definition NewIDFrom (now : Time) (random : option (list Z)) : result IDError ID :=
  match random with
  | None => Err ErrInvalidID
  | Some source =>
      let millis := UnixMilli (UTC now) in
      if (millis <? 0) || (2 ^ 48 - 1 <? millis) then Err ErrInvalidID
      else if (length source <? 16)%nat then Err ErrEntropy
      else
        let raw := firstn 16 source in
        Ok (formatID
          [ to_byte (Z.shiftr millis 40); to_byte (Z.shiftr millis 32);
            to_byte (Z.shiftr millis 24); to_byte (Z.shiftr millis 16);
            to_byte (Z.shiftr millis 8); to_byte millis;
            Z.lor (Z.land (raw_at raw 6) 15) 112; raw_at raw 7;
            Z.lor (Z.land (raw_at raw 8) 63) 128; raw_at raw 9;
            raw_at raw 10; raw_at raw 11; raw_at raw 12; raw_at raw 13;
            raw_at raw 14; raw_at raw 15 ])
  end.

Definition char_at (i : nat) (s : string) : option ascii := String.get i s.

Definition ParseID (value : string) : result IDError ID :=
  if (len value != 36) || (char_at 8 value != Some "-"%char)
     || (char_at 13 value != Some "-"%char) || (char_at 18 value != Some "-"%char)
     || (char_at 23 value != Some "-"%char)
  then Err ErrInvalidID
  else
    let compact := String.substring 0 8 value +:+ String.substring 9 4 value +:+
                   String.substring 14 4 value +:+ String.substring 19 4 value +:+
                   String.substring 24 12 value in
    match hexDecode compact with
    | None => Err ErrInvalidID
    | Some raw =>
        if formatID raw != value then Err ErrInvalidID
        else if (Z.shiftr (raw_at raw 6) 4 != 7) || (Z.shiftr (raw_at raw 8) 6 != 2)
        then Err ErrInvalidID
        else Ok value
    end.

(** The [validID] helper of the domain packages. *)
Definition validID (id : ID) : bool := is_ok (ParseID id).

Definition validIDs (ids : list ID) : bool := forallb validID ids.

(** An optional identifier field: empty or valid. *)
Definition validOptID (id : ID) : bool := (id == "") || validID id.

(** A canonical UUIDv7: sixteen bytes, version 7, RFC 4122 variant. *)
Definition uuid7 (raw : list Z) : Prop :=
  length raw = 16%nat /\ Forall is_byte raw
  /\ Z.shiftr (raw_at raw 6) 4 = 7 /\ Z.shiftr (raw_at raw 8) 6 = 2.

(** *** Identifier lemmas *)

Lemma length_app_string a b :
  String.length (a +:+ b) = (String.length a + String.length b)%nat.
Proof. induction a as [| c a IH]; cbn; [done | by rewrite <- IH]. Qed.

Lemma length_substring s : forall n m,
  String.length (String.substring n m s) = Nat.min m (String.length s - n)%nat.
Proof.
  induction s as [| c s IH]; intros [| n] [| m]; cbn; try done; rewrite IH; lia.
Qed.

Lemma append_cons c a b : String c a +:+ b = String c (a +:+ b).
Proof. done. Qed.

Lemma append_empty b : "" +:+ b = b.
Proof. done. Qed.

Ltac destruct_raw raw H :=
  do 16 (destruct raw as [| ? raw]; [discriminate H |]);
  destruct raw; [| discriminate H].

Definition compactID (value : string) : string :=
  String.substring 0 8 value +:+ String.substring 9 4 value +:+
  String.substring 14 4 value +:+ String.substring 19 4 value +:+
  String.substring 24 12 value.

Lemma compactID_length v : String.length v = 36%nat -> String.length (compactID v) = 32%nat.
Proof. intros H. unfold compactID. rewrite !length_app_string, !length_substring, H. done. Qed.

Lemma formatID_shape raw : length raw = 16%nat ->
  len (formatID raw) = 36
  /\ char_at 8 (formatID raw) = Some "-"%char /\ char_at 13 (formatID raw) = Some "-"%char
  /\ char_at 18 (formatID raw) = Some "-"%char /\ char_at 23 (formatID raw) = Some "-"%char
  /\ compactID (formatID raw) = hexEncode raw.
Proof. intros H. destruct_raw raw H. repeat split. Qed.

(** [formatID] and [ParseID] are inverse on canonical UUIDv7 values. *)
Lemma ParseID_formatID raw : uuid7 raw -> ParseID (formatID raw) = Ok (formatID raw).
Proof.
  intros (L & B & V & W).
  destruct (formatID_shape raw L) as (F1 & F2 & F3 & F4 & F5 & F6).
  unfold ParseID. rewrite F1, F2, F3, F4, F5, !bool_decide_eq_true_2 by done. cbn [negb orb].
  fold (compactID (formatID raw)). rewrite F6, hexDecode_encode by done.
  rewrite V, W, !bool_decide_eq_true_2 by done. done.
Qed.

Lemma ParseID_inv v id : ParseID v = Ok id -> id = v /\ exists raw, uuid7 raw /\ v = formatID raw.
Proof.
  unfold ParseID. fold (compactID v). intros H. ok_inv H.
  split; [done |]. exists l.
  match goal with D : hexDecode _ = Some l, L : len _ = 36 |- _ =>
    pose proof (hexDecode_bytes _ _ _ (le_n _) D) as [B S];
    rewrite compactID_length in S by (unfold len in L; lia) end.
  repeat split; try done. lia.
Qed.

Lemma ParseID_same v id : ParseID v = Ok id -> id = v.
Proof. intros H. by apply ParseID_inv in H as [-> _]. Qed.

Lemma ParseID_nonempty id : is_ok (ParseID id) = true -> id <> "".
Proof. intros H ->. vm_compute in H. discriminate H. Qed.

Lemma validID_spec v : validID v = true <-> exists raw, uuid7 raw /\ v = formatID raw.
Proof.
  unfold validID. split.
  - destruct (ParseID v) eqn:E; [| done]. intros _. by apply ParseID_inv in E as [_ ?].
  - intros (raw & Hu & ->). by rewrite ParseID_formatID.
Qed.

(** The empty identifier marks an absent reference and is never valid. *)
Lemma validID_nonempty v : validID v = true -> v <> "".
Proof. intros H ->. vm_compute in H. discriminate H. Qed.

Lemma to_byte_range x : is_byte (to_byte x).
Proof.
  unfold is_byte, to_byte. change 255 with (Z.ones 8). rewrite Z.land_ones by lia.
  apply Z.mod_pos_bound. lia.
Qed.

Lemma version_byte b : is_byte b ->
  is_byte (Z.lor (Z.land b 15) 112) /\ Z.shiftr (Z.lor (Z.land b 15) 112) 4 = 7.
Proof.
  intros H. unfold is_byte.
  enough (E : ((0 <=? Z.lor (Z.land b 15) 112) && (Z.lor (Z.land b 15) 112 <? 256)
               && (Z.shiftr (Z.lor (Z.land b 15) 112) 4 =? 7)) = true) by lia.
  revert b H. apply (below_dec 256). vm_compute. reflexivity.
Qed.

Lemma variant_byte b : is_byte b ->
  is_byte (Z.lor (Z.land b 63) 128) /\ Z.shiftr (Z.lor (Z.land b 63) 128) 6 = 2.
Proof.
  intros H. unfold is_byte.
  enough (E : ((0 <=? Z.lor (Z.land b 63) 128) && (Z.lor (Z.land b 63) 128 <? 256)
               && (Z.shiftr (Z.lor (Z.land b 63) 128) 6 =? 2)) = true) by lia.
  revert b H. apply (below_dec 256). vm_compute. reflexivity.
Qed.

(** The raw bytes [NewIDFrom] formats. *)
Definition id_raw (millis : Z) (raw : list Z) : list Z :=
  [ to_byte (Z.shiftr millis 40); to_byte (Z.shiftr millis 32);
    to_byte (Z.shiftr millis 24); to_byte (Z.shiftr millis 16);
    to_byte (Z.shiftr millis 8); to_byte millis;
    Z.lor (Z.land (raw_at raw 6) 15) 112; raw_at raw 7;
    Z.lor (Z.land (raw_at raw 8) 63) 128; raw_at raw 9;
    raw_at raw 10; raw_at raw 11; raw_at raw 12; raw_at raw 13;
    raw_at raw 14; raw_at raw 15 ].

Lemma raw_at_byte l i : Forall is_byte l -> is_byte (raw_at l i).
Proof.
  intros H. unfold raw_at. destruct (nth_in_or_default i l 0) as [Hin | ->]; [| unfold is_byte; lia].
  rewrite Forall_forall in H. by apply H, list_elem_of_In.
Qed.

Lemma id_raw_uuid7 m raw : Forall is_byte raw -> uuid7 (id_raw m raw).
Proof.
  intros H. pose proof (fun i => raw_at_byte raw i H) as R.
  split; [done |]. split; [| split; [apply (version_byte _ (R 6%nat)) | apply (variant_byte _ (R 8%nat))]].
  unfold id_raw. repeat (constructor; [first [apply to_byte_range | apply R
    | apply (version_byte _ (R 6%nat)) | apply (variant_byte _ (R 8%nat))] |]). constructor.
Qed.

Lemma NewIDFrom_ok now random id :
  NewIDFrom now random = Ok id <->
  exists source, random = Some source /\ (16 <= length source)%nat
    /\ 0 <= UnixMilli now < 2 ^ 48
    /\ id = formatID (id_raw (UnixMilli now) (firstn 16 source)).
Proof.
  assert (U : UnixMilli (UTC now) = UnixMilli now) by done.
  unfold NewIDFrom. rewrite U. split.
  - intros H. ok_inv H. eexists. split; [done |]. repeat split; try lia.
    apply Nat.ltb_ge. done.
  - intros (source & -> & L & M & ->).
    destruct ((UnixMilli now <? 0) || (2 ^ 48 - 1 <? UnixMilli now)) eqn:E; [lia |].
    destruct (length source <? 16)%nat eqn:F; [apply Nat.ltb_lt in F; lia | done].
Qed.

(** *** Ordering of identifiers by creation time *)

Lemma nibble_compare b c : is_byte b -> is_byte c ->
  (b ?= c) = match Z.shiftr b 4 ?= Z.shiftr c 4 with
             | Eq => Z.land b 15 ?= Z.land c 15
             | o => o
             end.
Proof.
  unfold is_byte. intros Hb Hc. rewrite !Z.shiftr_div_pow2 by lia.
  change 15 with (Z.ones 4). rewrite !Z.land_ones by lia. change (2 ^ 4) with 16.
  pose proof (Z.div_mod b 16). pose proof (Z.div_mod c 16).
  pose proof (Z.mod_pos_bound b 16). pose proof (Z.mod_pos_bound c 16).
  destruct (Z.compare_spec (b / 16) (c / 16)), (Z.compare_spec (b mod 16) (c mod 16)),
    (Z.compare_spec b c); lia || done.
Qed.

Lemma compare_hex_byte b c s t : is_byte b -> is_byte c ->
  String.compare
    (String (hexdigit (Z.shiftr b 4)) (String (hexdigit (Z.land b 15)) s))
    (String (hexdigit (Z.shiftr c 4)) (String (hexdigit (Z.land c 15)) t))
  = match b ?= c with Eq => String.compare s t | o => o end.
Proof.
  intros Hb Hc.
  destruct (byte_nibbles b Hb) as (H1 & H2 & _), (byte_nibbles c Hc) as (H3 & H4 & _).
  cbn [String.compare]. rewrite !hexdigit_order by lia. rewrite (nibble_compare b c) by done.
  destruct (Z.shiftr b 4 ?= Z.shiftr c 4); [| done | done].
  destruct (Z.land b 15 ?= Z.land c 15); done.
Qed.

Lemma to_byte_shiftr m k : 0 <= k -> to_byte (Z.shiftr m k) = (m / 2 ^ k) mod 256.
Proof.
  intros H. unfold to_byte. change 255 with (Z.ones 8).
  rewrite Z.land_ones, Z.shiftr_div_pow2 by lia. done.
Qed.

(** The first six bytes are the big-endian milliseconds. *)
Lemma millis_bytes m : 0 <= m < 2 ^ 48 ->
  m = to_byte (Z.shiftr m 40) * 2 ^ 40 + to_byte (Z.shiftr m 32) * 2 ^ 32
      + to_byte (Z.shiftr m 24) * 2 ^ 24 + to_byte (Z.shiftr m 16) * 2 ^ 16
      + to_byte (Z.shiftr m 8) * 2 ^ 8 + to_byte m.
Proof.
  intros H. replace (to_byte m) with (to_byte (Z.shiftr m 0)) by done.
  rewrite !to_byte_shiftr by lia.
  change (2 ^ 40) with (2 ^ 32 * 256). change (2 ^ 32) with (2 ^ 24 * 256).
  change (2 ^ 24) with (2 ^ 16 * 256). change (2 ^ 16) with (2 ^ 8 * 256).
  change (2 ^ 8) with 256. change (2 ^ 0) with 1.
  change (2 ^ 48) with (256 * 256 * 256 * 256 * 256 * 256) in H.
  rewrite <- !Z.div_div, Z.div_1_r by lia.
  set (q1 := m / 256). set (q2 := q1 / 256). set (q3 := q2 / 256).
  set (q4 := q3 / 256). set (q5 := q4 / 256).
  pose proof (Z.div_mod m 256) as E0. pose proof (Z.div_mod q1 256) as E1.
  pose proof (Z.div_mod q2 256) as E2. pose proof (Z.div_mod q3 256) as E3.
  pose proof (Z.div_mod q4 256) as E4.
  pose proof (Z.mod_pos_bound m 256). pose proof (Z.mod_pos_bound q1 256).
  pose proof (Z.mod_pos_bound q2 256). pose proof (Z.mod_pos_bound q3 256).
  pose proof (Z.mod_pos_bound q4 256).
  fold q1 in E0. fold q2 in E1. fold q3 in E2. fold q4 in E3. fold q5 in E4.
  rewrite (Z.mod_small q5 256) by lia. lia.
Qed.

Lemma formatID_compare_millis m1 m2 r1 r2 :
  0 <= m1 < 2 ^ 48 -> 0 <= m2 < 2 ^ 48 -> m1 < m2 ->
  String.compare (formatID (id_raw m1 r1)) (formatID (id_raw m2 r2)) = Lt.
Proof.
  intros H1 H2 Hlt. apply millis_bytes in H1, H2.
  unfold formatID, id_raw, slice.
  cbn [Nat.sub firstn skipn hexEncode].
  rewrite ?append_cons, ?append_empty, ?append_cons, ?append_empty, ?append_cons.
  pose proof (to_byte_range (Z.shiftr m1 40)). pose proof (to_byte_range (Z.shiftr m2 40)).
  pose proof (to_byte_range (Z.shiftr m1 32)). pose proof (to_byte_range (Z.shiftr m2 32)).
  pose proof (to_byte_range (Z.shiftr m1 24)). pose proof (to_byte_range (Z.shiftr m2 24)).
  pose proof (to_byte_range (Z.shiftr m1 16)). pose proof (to_byte_range (Z.shiftr m2 16)).
  pose proof (to_byte_range (Z.shiftr m1 8)). pose proof (to_byte_range (Z.shiftr m2 8)).
  pose proof (to_byte_range m1). pose proof (to_byte_range m2).
  repeat first
    [ rewrite compare_hex_byte by done
    | progress change (String.compare (String "-" ?s) (String "-" ?t)) with (String.compare s t) ].
  unfold is_byte in *.
  repeat match goal with
  | |- context [match ?a ?= ?b with _ => _ end] => destruct (Z.compare_spec a b)
  end; lia || done.
Qed.

(** *** Properties of identifiers *)

(** [ParseID] accepts exactly the canonical text of UUIDv7 values: what it
    accepts it returns unchanged, it is the lower-case hyphenated form of sixteen
    bytes with version 7 and the RFC 4122 variant, and every such form is
    accepted. *)
Theorem id_parse_exact value id :
  ParseID value = Ok id <-> id = value /\ exists raw, uuid7 raw /\ value = formatID raw.
Proof.
  split; [apply ParseID_inv |]. intros (-> & raw & U & ->). by apply ParseID_formatID.
Qed.

(** Generated identifiers are canonical and sort by creation time: each parses
    back to itself, and one created in an earlier millisecond compares smaller as
    a string, whatever the entropy. *)
Theorem id_generated_ordered now1 now2 r1 r2 a b
  (B1 : Forall is_byte r1) (B2 : Forall is_byte r2)
  (H1 : NewIDFrom now1 (Some r1) = Ok a) (H2 : NewIDFrom now2 (Some r2) = Ok b) :
  ParseID a = Ok a /\ ParseID b = Ok b
  /\ (UnixMilli now1 < UnixMilli now2 -> String.compare a b = Lt).
Proof.
  apply NewIDFrom_ok in H1 as (s1 & E1 & _ & M1 & ->), H2 as (s2 & E2 & _ & M2 & ->).
  simplify_eq. split_and!.
  - apply ParseID_formatID, id_raw_uuid7, Forall_take, B1.
  - apply ParseID_formatID, id_raw_uuid7, Forall_take, B2.
  - by apply formatID_compare_millis.
Qed.

Definition ex_entropy : list Z := [1; 2; 3; 4; 5; 6; 255; 8; 255; 10; 11; 12; 13; 14; 15; 16].

Lemma id_generated_witness :
  String.compare "018bcfe5-6800-7f08-bf0a-0b0c0d0e0f10" "018bcfe5-6be8-7f08-bf0a-0b0c0d0e0f10" = Lt.
Proof.
  apply (id_generated_ordered (mkTime ((unix_epoch_seconds + 1700000000) * 1000000000) LocUTC)
           (mkTime ((unix_epoch_seconds + 1700000001) * 1000000000) LocUTC) ex_entropy ex_entropy);
    try (vm_compute; reflexivity);
    unfold ex_entropy, is_byte; repeat constructor; lia.
Defined.

(** ** Concrete values for the witnesses

    Identifiers, digests and instants like those of the Go test fixtures. *)

Definition id1 : ID := "01900000-0000-7000-8000-000000000001".
Definition id2 : ID := "01900000-0000-7000-8000-000000000002".
Definition id3 : ID := "01900000-0000-7000-8000-000000000003".
Definition id4 : ID := "01900000-0000-7000-8000-000000000004".

Definition digest_a : string :=
  "sha256:aaaaaaaaaaaaaaaaaaaaaaaaaaaaaaaaaaaaaaaaaaaaaaaaaaaaaaaaaaaaaaaa".
Definition digest_b : string :=
  "sha256:bbbbbbbbbbbbbbbbbbbbbbbbbbbbbbbbbbbbbbbbbbbbbbbbbbbbbbbbbbbbbbbb".

(** [n] seconds into 14 November 2023, 22:13:20 UTC. *)
Definition at_second (n : Z) : Time :=
  mkTime ((unix_epoch_seconds + 1700000000 + n) * 1000000000) LocUTC.

(** The same instants presented in another time zone. *)
Definition at_second_local (n : Z) : Time :=
  mkTime (nanos (at_second n)) (LocZone "Europe/Bucharest").
