(* ===== verification/ClaimQueue.v ===== *)
(** * postgres/store.go: claiming due rows

    The outbox and the reconciliation queue hand out due rows with the same
    statement: the first rows in the order of their due time that are pending or whose
    claim has expired, skipping rows that another transaction has locked, are leased
    to the caller under a new fence.  The statement is written once over the interface
    [Queue], and so are its consequences: what is handed out is exactly the head of
    the queue, a leased row is not handed out again before its lease ends, and no due
    row is passed over more often than there are rows ahead of it. *)

From Stdlib Require Import ZArith Bool Lia.
From stdpp Require Import base strings list sorting.
From S2P Require Import Prelude GoStd Primitives.

Class Queue (Row : Type) := {
  q_id : Row -> ID;
  q_available : Row -> Time;
  q_pending : Row -> bool;
  q_claimed : Row -> bool;
  q_expires : Row -> option Time;
  (** The columns that a claim assigns: owner, lease and instant of the claim. *)
  q_claim : ID -> Time -> Time -> Row -> Row;
  (** The constraints and the trigger of the table, at the clock of the database. *)
  q_accepts : Time -> Row -> Row -> bool;
  q_claim_id : forall o l n r, q_id (q_claim o l n r) = q_id r;
  q_claim_available : forall o l n r, q_available (q_claim o l n r) = q_available r;
  q_claim_pending : forall o l n r, q_pending (q_claim o l n r) = false;
  q_claim_expires : forall o l n r, q_expires (q_claim o l n r) = Some l
}.

(** One execution of the statement. *)
Record Poll (Row : Type) : Type := mkPoll {
  p_owner : ID;
  p_now : Time;
  p_lease : Time;
  p_limit : Z;
  p_clock : Time;
  p_locked : Row -> bool
}.
Arguments mkPoll {Row}.
Arguments p_owner {Row}.
Arguments p_now {Row}.
Arguments p_lease {Row}.
Arguments p_limit {Row}.
Arguments p_clock {Row}.
Arguments p_locked {Row}.

Section Claiming.
Context {Row : Type} {Q : Queue Row}.

(** [WHERE available_at<=$2 AND (state='PENDING' OR (state='CLAIMED' AND
    claim_expires_at<=$2))] *)
Definition due (now : Z) (r : Row) : bool :=
  (nanos (q_available r) <=? now)
  && (q_pending r
      || (q_claimed r && match q_expires r with Some l => nanos l <=? now | None => false end)).

(** [ORDER BY available_at, id] *)
Definition row_le (a b : Row) : Prop :=
  nanos (q_available a) < nanos (q_available b)
  \/ nanos (q_available a) = nanos (q_available b) /\ String.le (q_id a) (q_id b).

#[global] Instance row_le_dec : RelDecision row_le.
Proof. unfold RelDecision, row_le. intros a b. apply _. Defined.

Definition candidates (p : Poll Row) (t : list Row) : list Row :=
  take (Z.to_nat (p_limit p))
    (merge_sort row_le (List.filter (fun r => due (nanos (p_now p)) r && negb (p_locked p r)) t)).

Definition grant (p : Poll Row) (r : Row) : Row := q_claim (p_owner p) (p_lease p) (p_now p) r.

Definition chosen (cs : list Row) (r : Row) : bool := existsb (fun c => q_id c == q_id r) cs.

(** The table after the claim and the rows it returns; [None] when a row violates the
    constraints, which fails the whole statement. *)
Definition claim_rows (p : Poll Row) (t : list Row) : option (list Row * list Row) :=
  let cs := candidates p t in
  if forallb (fun r => q_accepts (p_clock p) r (grant p r)) cs
  then Some (map (fun r => if chosen cs r then grant p r else r) t, map (grant p) cs)
  else None.

(** ** What is chosen *)

#[local] Instance row_le_trans : Transitive row_le.
Proof.
  intros a b c [H | [H L]] [K | [K M]]; unfold row_le; [left; lia | left; lia | left; lia |].
  right. split; [lia | by transitivity (q_id b)].
Qed.

#[local] Instance row_le_total : Total row_le.
Proof.
  intros a b. unfold row_le.
  destruct (Z.lt_total (nanos (q_available a)) (nanos (q_available b))) as [| [E |]]; auto.
  destruct (total String.le (q_id a) (q_id b)); auto.
Qed.

Lemma in_candidates p t r : r ∈ candidates p t ->
  r ∈ t /\ due (nanos (p_now p)) r = true /\ p_locked p r = false.
Proof.
  unfold candidates. intros H. apply elem_of_take in H as (i & H & _). apply list_elem_of_lookup_2 in H.
  rewrite merge_sort_Permutation, list_elem_of_In, filter_In in H. destruct H as [H E].
  apply andb_true_iff in E as [E L]. apply negb_true_iff in L. by rewrite list_elem_of_In.
Qed.

Lemma candidates_nodup p t : NoDup (map q_id t) -> NoDup (map q_id (candidates p t)).
Proof.
  intros N. unfold candidates.
  assert (F : NoDup (map q_id (List.filter (fun r => due (nanos (p_now p)) r && negb (p_locked p r)) t))).
  { induction t as [| x t IH]; cbn; [constructor |]. apply NoDup_cons in N as [N0 N].
    destruct (_ && _); [| by apply IH]. cbn. apply NoDup_cons. split; [| by apply IH].
    intros I. apply list_elem_of_fmap in I as (y & E & I). apply list_elem_of_In, filter_In in I as [I _].
    destruct N0. rewrite E. by apply list_elem_of_fmap_2, list_elem_of_In. }
  rewrite <- (merge_sort_Permutation row_le) in F. revert F. generalize (merge_sort row_le
    (List.filter (fun r => due (nanos (p_now p)) r && negb (p_locked p r)) t)). intros l F.
  rewrite <- (take_drop (Z.to_nat (p_limit p)) l), map_app in F. by apply NoDup_app in F as (? & _ & _).
Qed.

Lemma chosen_spec cs r : chosen cs r = true <-> q_id r ∈ map q_id cs.
Proof.
  unfold chosen. rewrite existsb_exists. split.
  - intros (c & I & E). apply bool_decide_eq_true in E. rewrite <- E.
    by apply list_elem_of_fmap_2, list_elem_of_In.
  - intros H. apply list_elem_of_fmap in H as (c & E & I). exists c. split; [by apply list_elem_of_In |].
    by apply bool_decide_eq_true.
Qed.

(** Rows of a table are told apart by their identifiers. *)
Lemma same_id t a b : NoDup (map q_id t) -> a ∈ t -> b ∈ t -> q_id a = q_id b -> a = b.
Proof. apply keyed. Qed.

Lemma chosen_in p t r : NoDup (map q_id t) -> r ∈ t ->
  chosen (candidates p t) r = true <-> r ∈ candidates p t.
Proof.
  intros N R. rewrite chosen_spec. split; [| intros I; by apply list_elem_of_fmap_2].
  intros I. apply list_elem_of_fmap in I as (c & E & I).
  destruct (in_candidates _ _ _ I) as [C _]. by rewrite (same_id t r c N R C E).
Qed.

(** The head of the queue: a due row that is left out has the whole batch before it. *)
Lemma left_out p t m : NoDup (map q_id t) -> m ∈ t -> due (nanos (p_now p)) m = true ->
  p_locked p m = false -> m ∉ candidates p t ->
  length (candidates p t) = Z.to_nat (p_limit p) /\ Forall (fun r => row_le r m /\ r <> m) (candidates p t).
Proof.
  intros N I D K O. unfold candidates in *.
  set (l := merge_sort row_le (List.filter (fun r => due (nanos (p_now p)) r && negb (p_locked p r)) t)) in *.
  assert (M : m ∈ l).
  { unfold l. rewrite merge_sort_Permutation. apply list_elem_of_In, filter_In.
    rewrite D, K. split; [by apply list_elem_of_In | done]. }
  assert (S : StronglySorted row_le l) by (apply StronglySorted_merge_sort; apply _).
  rewrite <- (take_drop (Z.to_nat (p_limit p)) l), elem_of_app in M. destruct M as [M | M]; [done |].
  split.
  - rewrite length_take. apply list_elem_of_lookup_1 in M as [i M]. apply lookup_lt_Some in M.
    rewrite length_drop in M. lia.
  - apply Forall_forall. intros r R. split; [| by intros ->].
    rewrite <- (take_drop (Z.to_nat (p_limit p)) l) in S. by eapply StronglySorted_app_1_elem_of.
Qed.

(** ** What a claim changes *)

Lemma claim_rows_some p t t' got : claim_rows p t = Some (t', got) ->
  t' = map (fun r => if chosen (candidates p t) r then grant p r else r) t
  /\ got = map (grant p) (candidates p t)
  /\ Forall (fun r => q_accepts (p_clock p) r (grant p r) = true) (candidates p t).
Proof.
  unfold claim_rows. intros H. destruct (forallb _ _) eqn:A; [| discriminate H]. injection H as <- <-.
  split_and!; try done. apply Forall_forall. intros r R. rewrite forallb_forall in A.
  by apply A, list_elem_of_In.
Qed.

Lemma claim_rows_ids p t t' got : claim_rows p t = Some (t', got) -> map q_id t' = map q_id t.
Proof.
  intros H. apply claim_rows_some in H as (-> & _ & _). rewrite map_map. apply map_ext. intros r.
  destruct (chosen _ r); [apply q_claim_id | done].
Qed.

(** A leased row is not due before its lease ends. *)
Lemma granted_not_due p r h : h < nanos (p_lease p) -> due h (grant p r) = false.
Proof.
  intros H. unfold due, grant. rewrite q_claim_pending, q_claim_expires. cbn [orb].
  replace (nanos (p_lease p) <=? h) with false by lia. by rewrite !andb_false_r.
Qed.

Lemma due_later now h r : now <= h -> due now r = true -> due h r = true.
Proof.
  unfold due. intros L D. apply andb_true_iff in D as [A B]. apply andb_true_iff. split; [lia |].
  apply orb_true_iff in B as [-> | B]; [done |]. apply andb_true_iff in B as [-> B].
  apply orb_true_iff. right. destruct (q_expires r) as [l |]; [lia | done].
Qed.

(** ** Fairness *)

Context `{!EqDecision Row}.

(** The due rows ahead of [m], up to the horizon [h]. *)
Definition ahead (h : Z) (m : Row) (t : list Row) : nat :=
  length (List.filter (fun r => due h r && bool_decide (row_le r m) && negb (bool_decide (r = m))) t).

(** A poll that could have handed out [m], whose leases outlast the horizon. *)
Definition timely (h : Z) (m : Row) (p : Poll Row) : Prop :=
  nanos (p_now p) <= h < nanos (p_lease p) /\ due (nanos (p_now p)) m = true /\ p_locked p m = false.

Lemma filter_replaced (P ch : Row -> bool) (f : Row -> Row) t :
  (forall r, ch r = true -> P (f r) = false) -> (forall r, r ∈ t -> ch r = true -> P r = true) ->
  (length (List.filter P (map (fun r => if ch r then f r else r) t)) + length (List.filter ch t)
   = length (List.filter P t))%nat.
Proof.
  intros F C. induction t as [| x t IH]; [done |]. cbn [map List.filter].
  destruct (ch x) eqn:E.
  - rewrite (F x E), (C x); [| left | done]. cbn [length]. rewrite <- IH; [lia |].
    intros r R. apply C. by right.
  - destruct (P x); cbn [length]; rewrite <- IH; try lia; intros r R; apply C; by right.
Qed.

Lemma filter_shrinks (P : Row -> bool) (f : Row -> Row) t :
  (forall r, r ∈ t -> P (f r) = true -> P r = true) ->
  (length (List.filter P (map f t)) <= length (List.filter P t))%nat.
Proof.
  intros H. induction t as [| x t IH]; [done |]. cbn [map List.filter].
  assert (IH' : (length (List.filter P (map f t)) <= length (List.filter P t))%nat)
    by (apply IH; intros r R; apply H; by right).
  destruct (P (f x)) eqn:E; [rewrite (H x ltac:(left) E) | destruct (P x)]; cbn [length]; lia.
Qed.

Lemma chosen_count p t : NoDup (map q_id t) ->
  length (List.filter (chosen (candidates p t)) t) = length (candidates p t).
Proof.
  intros N. apply Permutation_length, NoDup_Permutation.
  - apply NoDup_ListNoDup, List.NoDup_filter, NoDup_ListNoDup. by apply NoDup_fmap_1 in N.
  - pose proof (candidates_nodup p t N) as C. by apply NoDup_fmap_1 in C.
  - intros r. rewrite list_elem_of_In, filter_In, <- list_elem_of_In. split.
    + intros [R C]. by apply (chosen_in p t r N R).
    + intros C. destruct (in_candidates _ _ _ C) as [R _]. split; [done |]. by apply chosen_in.
Qed.

(** A poll that passes [m] over hands out a full batch of rows ahead of it. *)
Lemma passed_over h m p t t' got :
  NoDup (map q_id t) -> m ∈ t -> timely h m p -> claim_rows p t = Some (t', got) -> q_id m ∉ map q_id got ->
  m ∈ t' /\ length got = Z.to_nat (p_limit p) /\ (ahead h m t' + Z.to_nat (p_limit p) = ahead h m t)%nat.
Proof.
  intros N I ((L1 & L2) & D & K) H O. apply claim_rows_some in H as (-> & -> & _).
  assert (C : m ∉ candidates p t).
  { intros C. apply O. rewrite map_map. apply list_elem_of_fmap. exists m. split; [symmetry; apply q_claim_id | exact C]. }
  destruct (left_out p t m N I D K C) as [E F]. rewrite length_map. split_and!; [| done |].
  - apply list_elem_of_fmap. exists m. split; [| done].
    destruct (chosen _ m) eqn:X; [| done]. by apply chosen_in in X.
  - unfold ahead. rewrite <- E, <- (chosen_count p t N). apply filter_replaced.
    + intros r _. by rewrite granted_not_due.
    + intros r R X. apply chosen_in in X; [| done..]. rewrite Forall_forall in F. destruct (F r X) as [A B].
      destruct (in_candidates _ _ _ X) as (_ & D' & _).
      by rewrite (due_later _ h r L1 D'), bool_decide_true, bool_decide_false.
Qed.

(** [unserved h m t n t']: from [t] to [t'], polls that handed out [n] rows in all did
    not hand out [m]; other writers put nothing in front of it. *)
Inductive unserved (h : Z) (m : Row) : list Row -> nat -> list Row -> Prop :=
| us_done t : unserved h m t 0 t
| us_poll p t t1 got n t2 :
    timely h m p -> claim_rows p t = Some (t1, got) -> q_id m ∉ map q_id got ->
    unserved h m t1 n t2 -> unserved h m t (Z.to_nat (p_limit p) + n) t2
| us_other t t1 n t2 :
    NoDup (map q_id t1) -> m ∈ t1 -> (ahead h m t1 <= ahead h m t)%nat ->
    unserved h m t1 n t2 -> unserved h m t n t2.

(** A due row is passed over at most as often as there are due rows ahead of it. *)
Lemma unserved_bounded h m t n t' :
  unserved h m t n t' -> NoDup (map q_id t) -> m ∈ t -> (n <= ahead h m t)%nat.
Proof.
  induction 1 as [t | p t t1 got n t2 T C O _ IH | t t1 n t2 N1 I1 A _ IH]; intros N I; [lia | |].
  - destruct (passed_over h m p t t1 got N I T C O) as (I1 & _ & E).
    rewrite <- (claim_rows_ids _ _ _ _ C) in N. specialize (IH N I1). lia.
  - specialize (IH N1 I1). lia.
Qed.

End Claiming.
