(* ===== verification/JsonUnmarshal.v ===== *)
(** * encoding/json: Unmarshal

    A document becomes a tree, and a struct is filled from the tree the way
    [json.Unmarshal] fills it: members are matched to fields exactly or by folded
    case, unknown members are skipped, [null] leaves a field as it was, and any
    value of the wrong shape is an error; raw messages keep the text of a value. *)

From Stdlib Require Import ZArith Bool Lia.
From stdpp Require Import base strings list gmap.
From S2P Require Import Prelude Regex GoStd JsonDecoder JsonEncode.

Inductive jtree : Type :=
| TreeNull
| TreeBool (b : bool)
| TreeNumber (text : list Z)
| TreeString (text : list Z)
| TreeArray (l : list jtree)
| TreeObject (ms : list (string * jtree)).

(** ** Strings *)

(** [utf8.AppendRune] *)
Definition EncodeRune (r : Z) : list Z :=
  if (0 <=? r) && (r <? 128) then [r]
  else if (128 <=? r) && (r <? 2048) then [192 + r / 64; 128 + r mod 64]
  else if (r <? 0) || (1114111 <? r) || ((55296 <=? r) && (r <? 57344)) then [239; 191; 189]
  else if r <? 65536 then [224 + r / 4096; 128 + r / 64 mod 64; 128 + r mod 64]
  else [240 + r / 262144; 128 + r / 4096 mod 64; 128 + r / 64 mod 64; 128 + r mod 64].

Definition utf8_string (rs : list Z) : string := of_bytes (flat_map EncodeRune rs).

(** ** Documents *)

Fixpoint skip_space (data : list Z) : list Z :=
  match data with
  | c :: rest => if Json.isSpace c then skip_space rest else data
  | [] => []
  end.

(** A scalar; a string keeps its text as written between the quotes. *)
Definition scalar_tree (text : list Z) : jtree :=
  match literal text with
  | TString _ => TreeString (removelast (tail text))
  | TNumber t => TreeNumber t
  | TBool b => TreeBool b
  | TNull | Delim _ => TreeNull
  end.

(** The string that a literal's text denotes. *)
Definition unquoted (text : list Z) : string := utf8_string (unquote 0 text).

(** After white space, the byte [b] and what follows it. *)
Definition next_byte (b : Z) (data : list Z) : option (list Z) :=
  match skip_space data with
  | c :: rest => if c =? b then Some rest else None
  | [] => None
  end.

(** A string at the head of the data, for a member's name. *)
Definition parse_key (data : list Z) : option (string * list Z) :=
  match readValue Json.reset (skip_space data) with
  | Some (text, r) =>
      match scalar_tree text with
      | TreeString key => option_map (pair (unquoted key)) (next_byte 58 r)
      | _ => None
      end
  | None => None
  end.

(** A value at the head of [data] and what follows it; every call consumes a
    byte, so the length of the document is enough fuel. *)
Fixpoint parse_value (fuel : nat) (data : list Z) : option (jtree * list Z) :=
  match fuel with
  | O => None
  | S k =>
      match next_byte 123 data, next_byte 91 data with
      | Some rest, _ =>
          match next_byte 125 rest with
          | Some rest' => Some (TreeObject [], rest')
          | None => option_map (fun mr => (TreeObject (fst mr), snd mr)) (parse_members k rest)
          end
      | None, Some rest =>
          match next_byte 93 rest with
          | Some rest' => Some (TreeArray [], rest')
          | None => option_map (fun lr => (TreeArray (fst lr), snd lr)) (parse_elements k rest)
          end
      | None, None =>
          option_map (fun tr => (scalar_tree (fst tr), snd tr)) (readValue Json.reset (skip_space data))
      end
  end
with parse_members (fuel : nat) (data : list Z) : option (list (string * jtree) * list Z) :=
  match fuel with
  | O => None
  | S k =>
      match parse_key data with
      | None => None
      | Some (key, r) =>
          match parse_value k r with
          | None => None
          | Some (v, r') =>
              match next_byte 125 r', next_byte 44 r' with
              | Some rest, _ => Some ([(key, v)], rest)
              | None, Some rest =>
                  option_map (fun mr => ((key, v) :: fst mr, snd mr)) (parse_members k rest)
              | None, None => None
              end
          end
      end
  end
with parse_elements (fuel : nat) (data : list Z) : option (list jtree * list Z) :=
  match fuel with
  | O => None
  | S k =>
      match parse_value k data with
      | None => None
      | Some (v, r) =>
          match next_byte 93 r, next_byte 44 r with
          | Some rest, _ => Some ([v], rest)
          | None, Some rest => option_map (fun lr => (v :: fst lr, snd lr)) (parse_elements k rest)
          | None, None => None
          end
      end
  end.

Fixpoint depth (t : jtree) : Z :=
  match t with
  | TreeArray l => 1 + fold_right (fun x m => Z.max (depth x) m) 0 l
  | TreeObject ms => 1 + fold_right (fun kv m => Z.max (depth (snd kv)) m) 0 ms
  | _ => 0
  end.

(** The tree of a document that [checkValid] accepts. *)
Definition parse (data : list Z) : option jtree :=
  match parse_value (S (length data)) data with
  | Some (t, rest) =>
      match skip_space rest with
      | [] => if depth t <=? Json.maxNestingDepth then Some t else None
      | _ => None
      end
  | None => None
  end.

(** ** Structs *)

(** [foldName]: ASCII letters fold to upper case, and so do the two runes whose
    fold is an ASCII letter. *)
Definition fold_rune (r : Z) : Z :=
  if (97 <=? r) && (r <=? 122) then r - 32
  else if r =? 383 then 83
  else if r =? 8490 then 75
  else r.

Definition fold_name (s : string) : list Z := map fold_rune (runes s).

(** What a member's value does to the struct, or an error. *)
Definition field (A : Type) : Type := string * (jtree -> A -> option A).

Definition field_for {A} (fields : list (field A)) (key : string) : option (field A) :=
  match List.find (fun f => fst f == key) fields with
  | Some f => Some f
  | None => List.find (fun f => fold_name (fst f) == fold_name key) fields
  end.

Definition set_member {A} (fields : list (field A)) (acc : option A) (m : string * jtree)
  : option A :=
  match acc, field_for fields (fst m) with
  | Some a, Some f => snd f (snd m) a
  | _, _ => acc
  end.

Definition struct {A} (fields : list (field A)) (t : jtree) (a : A) : option A :=
  match t with
  | TreeNull => Some a
  | TreeObject ms => fold_left (set_member fields) ms (Some a)
  | _ => None
  end.

(** A string field. *)
Definition into_string {A} (set : string -> A -> A) (t : jtree) (a : A) : option A :=
  match t with
  | TreeNull => Some a
  | TreeString text => Some (set (unquoted text) a)
  | _ => None
  end.

(** [strconv.ParseUint(text, 10, 64)] *)
Fixpoint parse_digits (text : list Z) (n : Z) : option Z :=
  match text with
  | [] => if n <? two64 then Some n else None
  | c :: rest => if Json.isDigit c then parse_digits rest (n * 10 + (c - 48)) else None
  end.

Definition into_uint {A} (set : Z -> A -> A) (t : jtree) (a : A) : option A :=
  match t with
  | TreeNull => Some a
  | TreeNumber text => option_map (fun n => set n a) (parse_digits text 0)
  | _ => None
  end.

(** A byte slice: base64 text (line breaks skipped), or an array of numbers. *)
Definition base64_value (c : Z) : option Z :=
  if (65 <=? c) && (c <=? 90) then Some (c - 65)
  else if (97 <=? c) && (c <=? 122) then Some (c - 71)
  else if (48 <=? c) && (c <=? 57) then Some (c + 4)
  else if c =? 43 then Some 62
  else if c =? 47 then Some 63
  else None.

Fixpoint base64_decode (text : list Z) : option (list Z) :=
  match text with
  | [] => Some []
  | a :: b :: c :: d :: rest =>
      match base64_value a, base64_value b with
      | Some x, Some y =>
          let first := x * 4 + y / 16 in
          match base64_value c, base64_value d with
          | Some z, Some w =>
              option_map (app [first; y mod 16 * 16 + z / 4; z mod 4 * 64 + w]) (base64_decode rest)
          | Some z, None =>
              if (d =? 61) && bool_decide (rest = []) then Some [first; y mod 16 * 16 + z / 4] else None
          | None, _ =>
              if (c =? 61) && (d =? 61) && bool_decide (rest = []) then Some [first] else None
          end
      | _, _ => None
      end
  | _ => None
  end.

Definition line_break (c : Z) : bool := (c =? 10) || (c =? 13).

Definition byte_element (t : jtree) : option Z :=
  match t with
  | TreeNull => Some 0
  | TreeNumber text =>
      match parse_digits text 0 with
      | Some n => if n <? 256 then Some n else None
      | None => None
      end
  | _ => None
  end.

Definition into_bytes {A} (set : string -> A -> A) (t : jtree) (a : A) : option A :=
  match t with
  | TreeNull => Some (set "" a)
  | TreeString text =>
      option_map (fun bs => set (of_bytes bs) a)
        (base64_decode (List.filter (fun c => negb (line_break c)) (to_bytes (unquoted text))))
  | TreeArray l =>
      option_map (fun bs => set (of_bytes bs) a)
        (foldr (fun t acc => match byte_element t, acc with
                             | Some b, Some bs => Some (b :: bs)
                             | _, _ => None
                             end) (Some []) l)
  | _ => None
  end.

(** *** Times: [Time.UnmarshalJSON], strict RFC 3339 *)

Definition digit (c : Z) : option Z := if Json.isDigit c then Some (c - 48) else None.

(** A two-digit number within bounds. *)
Definition two (a b lo hi : Z) : option Z :=
  match digit a, digit b with
  | Some x, Some y => let n := x * 10 + y in if (lo <=? n) && (n <=? hi) then Some n else None
  | _, _ => None
  end.

Definition leap (y : Z) : bool := (y mod 4 =? 0) && (negb (y mod 100 =? 0) || (y mod 400 =? 0)).

Definition days_in (y m : Z) : Z :=
  if m =? 2 then (if leap y then 29 else 28)
  else if (m =? 4) || (m =? 6) || (m =? 9) || (m =? 11) then 30 else 31.

(** The inverse of [civil]: days from 1 March of year 0. *)
Definition days_of (y m d : Z) : Z :=
  let y := if m <=? 2 then y - 1 else y in
  let era := y / 400 in
  let yoe := y mod 400 in
  let mp := if 2 <? m then m - 3 else m + 9 in
  let doy := (153 * mp + 2) / 5 + d - 1 in
  era * 146097 + (yoe * 365 + yoe / 4 - yoe / 100 + doy).

(** The fraction of a second: its digits, of which the first nine count. *)
Fixpoint fraction (scale : Z) (text : list Z) : Z * list Z :=
  match text with
  | c :: rest =>
      if Json.isDigit c
      then let '(n, r) := fraction (scale / 10) rest in ((c - 48) * scale + n, r)
      else (0, text)
  | [] => (0, [])
  end.

Definition fraction_of (rest : list Z) : Z * list Z :=
  match rest with
  | p :: q :: r => if (p =? 46) && Json.isDigit q then fraction 100000000 (q :: r) else (0, rest)
  | _ => (0, rest)
  end.

(** The zone: [Z], or an offset, which is presented under its own name. *)
Definition zone (text : list Z) : option (Z * Location) :=
  match text with
  | [c] => if c =? 90 then Some (0, LocUTC) else None
  | [s; h1; h2; c; m1; m2] =>
      match two h1 h2 0 23, two m1 m2 0 59 with
      | Some h, Some m =>
          if (c =? 58) && ((s =? 43) || (s =? 45))
          then let off := (h * 3600 + m * 60) * 1000000000 in
               Some (if s =? 43 then off else - off, LocZone (of_bytes text))
          else None
      | _, _ => None
      end
  | _ => None
  end.

Definition parse_time (text : list Z) : option Time :=
  match text with
  | y1 :: y2 :: y3 :: y4 :: s1 :: m1 :: m2 :: s2 :: d1 :: d2 :: s3 :: h1 :: h2 :: s4 :: i1 :: i2
      :: s5 :: c1 :: c2 :: rest =>
      match two y1 y2 0 99, two y3 y4 0 99, two m1 m2 1 12, two h1 h2 0 23, two i1 i2 0 59,
            two c1 c2 0 59 with
      | Some ya, Some yb, Some m, Some h, Some i, Some c =>
          let y := ya * 100 + yb in
          match two d1 d2 1 (days_in y m) with
          | Some d =>
              if negb ((s1 =? 45) && (s2 =? 45) && (s3 =? 84) && (s4 =? 58) && (s5 =? 58)) then None
              else
                let frac := fraction_of rest in
                match zone (snd frac) with
                | Some (off, location) =>
                    let seconds := (days_of y m d - 306) * 86400 + h * 3600 + i * 60 + c in
                    Some (mkTime (seconds * 1000000000 + fst frac - off) location)
                | None => None
                end
          | None => None
          end
      | _, _, _, _, _, _ => None
      end
  | _ => None
  end.

Definition into_time {A} (set : Time -> A -> A) (t : jtree) (a : A) : option A :=
  match t with
  | TreeNull => Some a
  | TreeString text => option_map (fun x => set x a) (parse_time text)
  | _ => None
  end.

(** *** Structs read field by field

    The members that land in a field named [name] of a struct with fields [names],
    applied in order to the field's value. *)
Definition resolved_name (names : list string) (key : string) : option string :=
  match List.find (fun n => n == key) names with
  | Some n => Some n
  | None => List.find (fun n => fold_name n == fold_name key) names
  end.

Definition get {A} (into : jtree -> A -> option A) (names : list string)
    (ms : list (string * jtree)) (name : string) (a : A) : option A :=
  fold_left (fun acc m =>
      match acc with
      | Some x => if resolved_name names (fst m) == Some name then into (snd m) x else Some x
      | None => None
      end) ms (Some a).

(** The members of an object; [null] leaves the struct as it was. *)
Definition members {A} (t : jtree) (a : A) (k : list (string * jtree) -> option A) : option A :=
  match t with
  | TreeNull => Some a
  | TreeObject ms => k ms
  | _ => None
  end.

Definition as_string : jtree -> string -> option string := into_string (fun s _ => s).

Definition as_bool (t : jtree) (b : bool) : option bool :=
  match t with TreeNull => Some b | TreeBool x => Some x | _ => None end.

(** A signed 64-bit integer: [strconv.ParseInt(text, 10, 64)]. *)
Definition as_int (t : jtree) (n : Z) : option Z :=
  match t with
  | TreeNull => Some n
  | TreeNumber (c :: rest) =>
      if c =? 45
      then match parse_digits rest 0 with
           | Some x => if x <=? max_int64 + 1 then Some (- x) else None
           | None => None
           end
      else match parse_digits (c :: rest) 0 with
           | Some x => if x <=? max_int64 then Some x else None
           | None => None
           end
  | _ => None
  end.

Definition as_strings (t : jtree) (l : list string) : option (list string) :=
  match t with
  | TreeNull => Some []
  | TreeArray ts =>
      foldr (fun t acc => match as_string t "", acc with
                          | Some s, Some l => Some (s :: l)
                          | _, _ => None
                          end) (Some []) ts
  | _ => None
  end.

(** [json.Unmarshal] of a document into a struct that starts as [a]. *)
Definition Unmarshal {A} (fields : list (field A)) (raw : string) (a : A) : option A :=
  match parse (to_bytes raw) with
  | Some t => struct fields t a
  | None => None
  end.

(** ** Examples *)

Definition into_pair : list (field (string * Z)) :=
  [("id", into_string (fun s p => (s, snd p))); ("n", into_uint (fun n p => (fst p, n)))].

Example unmarshal_folded :
  Unmarshal into_pair ("{ " +:+ quote "N" +:+ " : 7 , " +:+ quote "x" +:+ ":[1,{}], " +:+ quote "iD"
                       +:+ ":" +:+ quote "\u0041\n" +:+ "}") ("", 0)
  = Some (String (byte_of 65) (String (byte_of 10) ""), 7).
Proof. vm_compute. reflexivity. Qed.

Example unmarshal_mismatch :
  Unmarshal into_pair ("{" +:+ quote "n" +:+ ":1.5}") ("", 0) = None
  /\ Unmarshal into_pair ("{" +:+ quote "n" +:+ ":null}") ("", 3) = Some ("", 3)
  /\ Unmarshal into_pair ("{" +:+ quote "n" +:+ ":1},") ("", 0) = None.
Proof. vm_compute. auto. Qed.

Example time_offset :
  parse_time (to_bytes "2024-02-29T14:34:56.12+02:00")
  = Some (mkTime ((unix_epoch_seconds + 1709210096) * 1000000000 + 120000000) (LocZone "+02:00"))
  /\ parse_time (to_bytes "2023-02-29T14:34:56Z") = None.
Proof. vm_compute. auto. Qed.

(** ** Raw messages

    Values kept as their text ([json.RawMessage]): the text of a value at the head of a
    document, [map[string]json.RawMessage], and [json.Unmarshal] of such a text into a scalar. *)

(** ** map[string]json.RawMessage *)

(** The text of the value at the head of [data], compound or not, and what follows. *)
Fixpoint raw_value (s : Json.scanner) (data : list Z) : option (list Z * list Z) :=
  match data with
  | [] => if Json.eof s then Some ([], []) else None
  | c :: rest =>
      match Json.step s c with
      | Some s' =>
          if Json.sendTop s'
          then match Json.sstack s with [] => Some ([], data) | _ :: _ => Some ([c], rest) end
          else option_map (fun vr => (c :: fst vr, snd vr)) (raw_value s' rest)
      | None => if Json.eof s then Some ([], data) else None
      end
  end.

(** Every member consumes a byte. *)
Fixpoint raw_members (fuel : nat) (data : list Z) : option (list (string * string)) :=
  match fuel with
  | O => None
  | S k =>
      match parse_key data with
      | None => None
      | Some (key, r) =>
          match raw_value Json.reset (skip_space r) with
          | None => None
          | Some (text, r') =>
              match next_byte 125 r', next_byte 44 r' with
              | Some _, _ => Some [(key, of_bytes text)]
              | None, Some rest => option_map (cons (key, of_bytes text)) (raw_members k rest)
              | None, None => None
              end
          end
      end
  end.

(** [json.Unmarshal(raw, &m)]: an error, the nil map, or the members, the last of a
    repeated key winning. *)
Definition unmarshalRawMap (raw : string) : option (option (gmap string string)) :=
  let data := to_bytes raw in
  if negb (json_valid data) then None
  else match next_byte 123 data with
  | Some rest =>
      match next_byte 125 rest with
      | Some _ => Some (Some ∅)
      | None =>
          option_map (fun ms => Some (foldl (fun m kv => <[fst kv := snd kv]> m) ∅ ms))
            (raw_members (length data) rest)
      end
  | None => match parse data with Some TreeNull => Some None | _ => None end
  end.

(** [json.Unmarshal(raw, &s)] for a string that starts empty; nil bytes are an error. *)
Definition unmarshalString (raw : option string) : option string :=
  text ← raw; t ← parse (to_bytes text); as_string t "".

(** [json.Unmarshal(raw, &n)] for an [int64], and for a [bool]. *)
Definition unmarshalInt (raw : option string) : option Z :=
  text ← raw; t ← parse (to_bytes text); as_int t 0.

Definition unmarshalBool (raw : option string) : option bool :=
  text ← raw; t ← parse (to_bytes text); as_bool t false.

(** [json.Unmarshal(raw, &n)] for an [*int32] that starts nil. *)
Definition unmarshalInt32Pointer (raw : option string) : option (option Z) :=
  text ← raw; t ← parse (to_bytes text);
  match t with
  | TreeNull => Some None
  | _ => n ← as_int t 0; if (-2147483648 <=? n) && (n <=? 2147483647) then Some (Some n) else None
  end.

(** [json.Marshal] of a slice. *)
Definition MarshalArray (l : list jvalue) : option string :=
  elements ← mapM Marshal l;
  Some ("[" +:+ String.concat "," elements +:+ "]").
