(* ===== verification/JsonRoundTrip.v ===== *)
(** * encoding/json: what is marshalled is unmarshalled

    Strings (with UTF-8 decoding, escaping and unquoting), unsigned integers, UTC
    times (with the calendar) and structs of these round-trip through
    [JsonEncode.Marshal] and [JsonUnmarshal.Unmarshal]. *)

From Stdlib Require Import ZArith Bool Lia.
From stdpp Require Import base strings list.
From S2P Require Import Prelude Regex GoStd JsonDecoder JsonEncode JsonUnmarshal Primitives.

(** ** Round trip: strings *)

(** [encode_string] without indices. *)
Fixpoint escaped (skip : nat) (s : list Z) : list Z :=
  match s with
  | [] => []
  | b :: s' =>
      match skip with
      | S k => escaped k s'
      | O => let rw := DecodeRune b s' in
             encode_rune (fst rw) (snd rw) (firstn (snd rw) (b :: s')) ++ escaped (snd rw - 1) s'
      end
  end.

Lemma escaped_range data : forall s i k, s = skipn i data ->
  flat_map (fun ir => encode_rune (fst (snd ir)) (snd (snd ir))
                        (firstn (snd (snd ir)) (skipn (fst ir) data))) (range_bytes i k s)
  = escaped k s.
Proof.
  induction s as [| b s IH]; intros i k E; cbn [range_bytes escaped]; [done |].
  assert (s = skipn (S i) data) as E'.
  { change (S i) with (1 + i)%nat. by rewrite <- List.skipn_skipn, <- E. }
  destruct k as [| k]; [| by apply IH]. cbn [flat_map fst snd]. rewrite <- E. f_equal. by apply IH.
Qed.

Lemma encode_string_escaped s : encode_string s = [34] ++ escaped 0 (to_bytes s) ++ [34].
Proof. unfold encode_string. by rewrite (escaped_range (to_bytes s) (to_bytes s) 0 0). Qed.

(** Valid from the given offset into the current rune. *)
Fixpoint valid_runes (skip : nat) (s : list Z) : bool :=
  match s with
  | [] => true
  | b :: s' =>
      match skip with
      | S k => valid_runes k s'
      | O => let rw := DecodeRune b s' in
             negb ((fst rw =? RuneError) && (snd rw =? 1)%nat) && valid_runes (snd rw - 1) s'
      end
  end.

Lemma valid_runes_range s : forall i k,
  forallb (fun x => negb ((fst (snd x) =? RuneError) && (snd (snd x) =? 1)%nat)) (range_bytes i k s)
  = valid_runes k s.
Proof.
  induction s as [| b s IH]; intros i k; cbn [range_bytes valid_runes]; [done |].
  destruct k as [| k]; [| by apply IH]. cbn [forallb fst snd]. by rewrite IH.
Qed.

Lemma lor_low k a b : 0 <= k -> 0 <= b < 2 ^ k -> Z.lor (Z.shiftl a k) b = a * 2 ^ k + b.
Proof.
  intros Hk H. rewrite <- Z.shiftl_mul_pow2, <- Z.add_lor_land by lia.
  enough (Z.land (Z.shiftl a k) b = 0) as -> by lia.
  apply Z.bits_inj'. intros n Hn. rewrite Z.land_spec, Z.bits_0, Z.shiftl_spec by lia.
  destruct (Z.lt_ge_cases n k).
  - by rewrite Z.testbit_neg_r by lia.
  - rewrite <- (Z.mod_small b (2 ^ k)), Z.mod_pow2_bits_high, andb_false_r by lia. done.
Qed.

Lemma land_low b k : 0 <= k -> Z.land b (Z.ones k) = b mod 2 ^ k.
Proof. intros. by apply Z.land_ones. Qed.

(** A rune of several bytes: the encoding gives back the bytes it was read from,
    none of which is ASCII, and reading depends on these bytes only. *)
Record multi (b0 : Z) (rest : list Z) (r : Z) (w : nat) : Prop := {
  mu_rune : 128 <= r;
  mu_width : (2 <= w)%nat;
  mu_encode : EncodeRune r = firstn w (b0 :: rest);
  mu_high : Forall (fun c => 128 <= c) (firstn w (b0 :: rest));
  mu_local : forall x, DecodeRune b0 (firstn (w - 1) rest ++ x) = (r, w);
  mu_split : b0 :: rest = firstn w (b0 :: rest) ++ skipn (w - 1) rest;
  mu_length : (w <= length (b0 :: rest))%nat
}.

Definition decoded2 b0 b1 := (b0 - 192) * 64 + (b1 - 128).
Definition decoded3 b0 b1 b2 := (b0 - 224) * 4096 + (b1 - 128) * 64 + (b2 - 128).
Definition decoded4 b0 b1 b2 b3 :=
  (b0 - 240) * 262144 + (b1 - 128) * 4096 + (b2 - 128) * 64 + (b3 - 128).

Lemma land_cont b : 128 <= b <= 191 -> Z.land b 63 = b - 128.
Proof.
  intros H. change 63 with (Z.ones 6). rewrite land_low by lia. change (2 ^ 6) with 64.
  symmetry. apply (Z.mod_unique_pos b 64 2); lia.
Qed.

Lemma land_lead b k base : 0 <= k -> base mod 2 ^ k = 0 -> base <= b < base + 2 ^ k ->
  Z.land b (Z.ones k) = b - base.
Proof.
  intros Hk Hb H. rewrite land_low by lia. pose proof (Z.div_mod base (2 ^ k)) as D.
  symmetry. apply (Z.mod_unique_pos b (2 ^ k) (base / 2 ^ k)); lia.
Qed.

Lemma DecodeRune_2 b0 b1 rest : 194 <= b0 < 224 -> 128 <= b1 <= 191 ->
  DecodeRune b0 (b1 :: rest) = (decoded2 b0 b1, 2%nat).
Proof.
  intros H0 H1. unfold DecodeRune, is_cont.
  replace (b0 <? 128) with false by lia. replace ((b0 <? 194) || (244 <? b0)) with false by lia.
  replace (b0 <? 224) with true by lia. replace ((128 <=? b1) && (b1 <=? 191)) with true by lia.
  rewrite (land_cont b1), lor_low by lia. change 31 with (Z.ones 5).
  by rewrite (land_lead b0 5 192) by (done || lia).
Qed.

(** The second byte's range excludes over-long forms, surrogates and values beyond
    U+10FFFF. *)
Definition second_ok (b0 b1 : Z) : bool :=
  ((if b0 =? 224 then 160 else if b0 =? 240 then 144 else 128) <=? b1)
  && (b1 <=? (if b0 =? 237 then 159 else if b0 =? 244 then 143 else 191)).

Lemma second_range b0 b1 : second_ok b0 b1 = true -> 128 <= b1 <= 191.
Proof. unfold second_ok. repeat case_match; lia. Qed.

Lemma DecodeRune_3 b0 b1 b2 rest : 224 <= b0 < 240 -> second_ok b0 b1 = true -> is_cont b2 = true ->
  DecodeRune b0 (b1 :: b2 :: rest) = (decoded3 b0 b1 b2, 3%nat).
Proof.
  intros H0 H1 H2. pose proof (second_range _ _ H1). unfold DecodeRune. unfold second_ok in H1.
  replace (b0 <? 128) with false by lia. replace ((b0 <? 194) || (244 <? b0)) with false by lia.
  replace (b0 <? 224) with false by lia. rewrite H1, H2. cbn [negb]. unfold is_cont in H2.
  replace (b0 <? 240) with true by lia. rewrite (land_cont b1), (land_cont b2) by lia.
  change 15 with (Z.ones 4). rewrite (land_lead b0 4 224) by (done || lia).
  rewrite (lor_low 6) by lia. rewrite (lor_low 12) by lia. f_equal. unfold decoded3. lia.
Qed.

Lemma DecodeRune_4 b0 b1 b2 b3 rest :
  240 <= b0 <= 244 -> second_ok b0 b1 = true -> is_cont b2 = true -> is_cont b3 = true ->
  DecodeRune b0 (b1 :: b2 :: b3 :: rest) = (decoded4 b0 b1 b2 b3, 4%nat).
Proof.
  intros H0 H1 H2 H3. pose proof (second_range _ _ H1). unfold DecodeRune. unfold second_ok in H1.
  replace (b0 <? 128) with false by lia. replace ((b0 <? 194) || (244 <? b0)) with false by lia.
  replace (b0 <? 224) with false by lia. rewrite H1, H2. cbn [negb]. rewrite H3.
  replace (b0 <? 240) with false by lia. cbn [negb]. unfold is_cont in *.
  rewrite (land_cont b1), (land_cont b2), (land_cont b3) by lia.
  change 7 with (Z.ones 3). rewrite (land_lead b0 3 240) by (done || lia).
  rewrite (lor_low 6) by lia. rewrite (lor_low 12) by lia. rewrite (lor_low 18) by lia.
  f_equal. unfold decoded4. lia.
Qed.

Lemma EncodeRune_2 b0 b1 : 194 <= b0 < 224 -> 128 <= b1 <= 191 ->
  EncodeRune (decoded2 b0 b1) = [b0; b1] /\ 128 <= decoded2 b0 b1.
Proof.
  intros H0 H1. unfold EncodeRune. set (r := decoded2 b0 b1). unfold decoded2 in r. split; [| lia].
  replace ((0 <=? r) && (r <? 128)) with false by lia.
  replace ((128 <=? r) && (r <? 2048)) with true by lia.
  rewrite <- (Z.div_unique_pos r 64 (b0 - 192) (b1 - 128)),
    <- (Z.mod_unique_pos r 64 (b0 - 192) (b1 - 128)) by lia.
  f_equal; [lia |]. f_equal. lia.
Qed.

Lemma EncodeRune_3 b0 b1 b2 : 224 <= b0 < 240 -> second_ok b0 b1 = true -> is_cont b2 = true ->
  EncodeRune (decoded3 b0 b1 b2) = [b0; b1; b2] /\ 128 <= decoded3 b0 b1 b2.
Proof.
  intros H0 H1 H2. unfold EncodeRune. set (r := decoded3 b0 b1 b2). unfold decoded3 in r.
  unfold is_cont in H2. pose proof (second_range _ _ H1). unfold second_ok in H1.
  destruct (b0 =? 224) eqn:E1, (b0 =? 237) eqn:E2, (b0 =? 240) eqn:E3, (b0 =? 244) eqn:E4;
    try lia; split; try lia;
  (replace ((0 <=? r) && (r <? 128)) with false by lia;
   replace ((128 <=? r) && (r <? 2048)) with false by lia;
   replace ((r <? 0) || (1114111 <? r) || ((55296 <=? r) && (r <? 57344))) with false by lia;
   replace (r <? 65536) with true by lia;
   rewrite <- (Z.div_unique_pos r 4096 (b0 - 224) ((b1 - 128) * 64 + (b2 - 128))) by lia;
   rewrite <- (Z.mod_unique_pos r 64 ((b0 - 224) * 64 + (b1 - 128)) (b2 - 128)) by lia;
   rewrite <- (Z.div_unique_pos r 64 ((b0 - 224) * 64 + (b1 - 128)) (b2 - 128)) by lia;
   rewrite <- (Z.mod_unique_pos ((b0 - 224) * 64 + (b1 - 128)) 64 (b0 - 224) (b1 - 128)) by lia;
   f_equal; [lia |]; f_equal; [lia |]; f_equal; lia).
Qed.

Lemma EncodeRune_4 b0 b1 b2 b3 :
  240 <= b0 <= 244 -> second_ok b0 b1 = true -> is_cont b2 = true -> is_cont b3 = true ->
  EncodeRune (decoded4 b0 b1 b2 b3) = [b0; b1; b2; b3] /\ 128 <= decoded4 b0 b1 b2 b3.
Proof.
  intros H0 H1 H2 H3. unfold EncodeRune. set (r := decoded4 b0 b1 b2 b3). unfold decoded4 in r.
  unfold is_cont in *. pose proof (second_range _ _ H1). unfold second_ok in H1.
  assert (65536 <= r < 1114112).
  { destruct (b0 =? 240) eqn:E3, (b0 =? 244) eqn:E4; try lia;
      destruct (b0 =? 224) eqn:?, (b0 =? 237) eqn:?; lia. }
  split; [| lia]. clear H1.
  replace ((0 <=? r) && (r <? 128)) with false by lia.
  replace ((128 <=? r) && (r <? 2048)) with false by lia.
  replace ((r <? 0) || (1114111 <? r) || ((55296 <=? r) && (r <? 57344))) with false by lia.
  replace (r <? 65536) with false by lia.
  set (hi := (b0 - 240) * 64 + (b1 - 128)). set (mid := hi * 64 + (b2 - 128)).
  rewrite <- (Z.div_unique_pos r 262144 (b0 - 240) ((b1 - 128) * 4096 + (b2 - 128) * 64 + (b3 - 128))) by lia.
  rewrite <- (Z.div_unique_pos r 4096 hi ((b2 - 128) * 64 + (b3 - 128))) by lia.
  rewrite <- (Z.mod_unique_pos r 64 mid (b3 - 128)) by lia.
  rewrite <- (Z.div_unique_pos r 64 mid (b3 - 128)) by lia.
  rewrite <- (Z.mod_unique_pos mid 64 hi (b2 - 128)) by lia.
  rewrite <- (Z.mod_unique_pos hi 64 (b0 - 240) (b1 - 128)) by lia.
  f_equal; [lia |]; f_equal; [lia |]; f_equal; [lia |]; f_equal; lia.
Qed.

Ltac rune_parts := unfold is_cont, second_ok in *; repeat constructor; try lia; try reflexivity.

Lemma multi_2 b0 b1 rest : 194 <= b0 < 224 -> is_cont b1 = true ->
  multi b0 (b1 :: rest) (decoded2 b0 b1) 2.
Proof.
  intros H0 H1. unfold is_cont in H1. destruct (EncodeRune_2 b0 b1 H0) as [E G]; [lia |].
  split; try done; [rune_parts | | cbn; lia]. intros x. cbn. apply DecodeRune_2; lia.
Qed.

Lemma multi_3 b0 b1 b2 rest : 224 <= b0 < 240 -> second_ok b0 b1 = true -> is_cont b2 = true ->
  multi b0 (b1 :: b2 :: rest) (decoded3 b0 b1 b2) 3.
Proof.
  intros H0 H1 H2. destruct (EncodeRune_3 b0 b1 b2 H0 H1 H2) as [E G].
  pose proof (second_range _ _ H1). split; try done; [lia | | | cbn; lia].
  - unfold is_cont in H2. repeat constructor; lia.
  - intros x. cbn. by apply DecodeRune_3.
Qed.

Lemma multi_4 b0 b1 b2 b3 rest :
  240 <= b0 <= 244 -> second_ok b0 b1 = true -> is_cont b2 = true -> is_cont b3 = true ->
  multi b0 (b1 :: b2 :: b3 :: rest) (decoded4 b0 b1 b2 b3) 4.
Proof.
  intros H0 H1 H2 H3. destruct (EncodeRune_4 b0 b1 b2 b3 H0 H1 H2 H3) as [E G].
  pose proof (second_range _ _ H1). split; try done; [lia | | | cbn; lia].
  - unfold is_cont in *. repeat constructor; lia.
  - intros x. cbn. by apply DecodeRune_4.
Qed.

(** A valid rune is one ASCII byte or several bytes. *)
Lemma DecodeRune_valid b0 rest :
  negb ((fst (DecodeRune b0 rest) =? RuneError) && (snd (DecodeRune b0 rest) =? 1)%nat) = true ->
  (b0 < 128 /\ DecodeRune b0 rest = (b0, 1%nat))
  \/ multi b0 rest (fst (DecodeRune b0 rest)) (snd (DecodeRune b0 rest)).
Proof.
  destruct (b0 <? 128) eqn:A; [intros _; left; split; [lia |]; unfold DecodeRune; by rewrite A |].
  intros V. right.
  destruct ((b0 <? 194) || (244 <? b0)) eqn:B; [unfold DecodeRune in V; rewrite A, B in V; done |].
  destruct rest as [| b1 rest]; [unfold DecodeRune in V; rewrite A, B in V; done |].
  destruct (b0 <? 224) eqn:C.
  { destruct (is_cont b1) eqn:D; [| unfold DecodeRune in V; rewrite A, B, C, D in V; done].
    rewrite DecodeRune_2 by (unfold is_cont in D; lia). apply multi_2; [lia | done]. }
  destruct (second_ok b0 b1) eqn:D;
    [| unfold DecodeRune, second_ok in *; rewrite A, B, C, D in V; done].
  destruct rest as [| b2 rest]; [unfold DecodeRune, second_ok in *; rewrite A, B, C, D in V; done |].
  destruct (is_cont b2) eqn:E;
    [| unfold DecodeRune, second_ok in *; rewrite A, B, C, D, E in V; done].
  destruct (b0 <? 240) eqn:F; [rewrite DecodeRune_3 by (done || lia); apply multi_3; (done || lia) |].
  destruct rest as [| b3 rest];
    [unfold DecodeRune, second_ok in *; rewrite A, B, C, D, E, F in V; done |].
  destruct (is_cont b3) eqn:G;
    [| unfold DecodeRune, second_ok in *; rewrite A, B, C, D, E, F, G in V; done].
  rewrite DecodeRune_4 by (done || lia). apply multi_4; (done || lia).
Qed.

Fixpoint runes_from (skip : nat) (s : list Z) : list Z :=
  match s with
  | [] => []
  | b :: s' =>
      match skip with
      | S k => runes_from k s'
      | O => fst (DecodeRune b s') :: runes_from (snd (DecodeRune b s') - 1) s'
      end
  end.

(** Decoding and encoding again gives back the bytes. *)
Lemma runes_from_encode s : forall k, Forall is_byte s -> valid_runes k s = true -> (k <= length s)%nat ->
  flat_map EncodeRune (runes_from k s) = skipn k s.
Proof.
  induction s as [| b s IH]; intros k B V L; [by destruct k |].
  apply Forall_cons in B as [Hb B].
  destruct k as [| k]; cbn [runes_from valid_runes length] in *; [| apply IH; (done || lia)].
  apply andb_true_iff in V as [V V']. cbn [flat_map skipn].
  apply DecodeRune_valid in V as [[A E] | M].
  - rewrite E in *. cbn [fst snd Nat.sub] in *. rewrite IH by (done || lia).
    unfold EncodeRune. unfold is_byte in Hb. by replace ((0 <=? b) && (b <? 128)) with true by lia.
  - destruct M as [_ W En _ _ Sp Ln]. cbn [length] in Ln.
    rewrite En, IH; [by rewrite <- Sp | done | done | lia].
Qed.

(** The scanner over bytes that do not end the value. *)
Fixpoint quiet (s : Json.scanner) (l : list Z) : option Json.scanner :=
  match l with
  | [] => Some s
  | c :: l' =>
      match Json.step s c with
      | Some s' => if Json.sendTop s' then None else quiet s' l'
      | None => None
      end
  end.

Lemma quiet_app s l1 l2 s' : quiet s l1 = Some s' -> quiet s (l1 ++ l2) = quiet s' l2.
Proof.
  revert s. induction l1 as [| c l1 IH]; intros s; cbn; [by intros [= ->] |].
  destruct (Json.step s c) as [x |]; [| done]. destruct (Json.sendTop x); [done | apply IH].
Qed.

Lemma readValue_quiet l : forall s s' r, quiet s l = Some s' ->
  readValue s (l ++ r) = option_map (fun vr => (l ++ fst vr, snd vr)) (readValue s' r).
Proof.
  induction l as [| c l IH]; intros s s' r; cbn [quiet app readValue].
  - intros [= ->]. by destruct (readValue s' r) as [[v x] |].
  - destruct (Json.step s c) as [x |]; [| done]. destruct (Json.sendTop x); [done |].
    intros H. rewrite (IH _ _ _ H). by destruct (readValue s' r) as [[v y] |].
Qed.

Definition in_string : Json.scanner := Json.mkScanner Json.InString [] false.

(** What an escaped ASCII control or HTML character consists of. *)
Definition u_escape_ok (b : Z) : bool :=
  match u_escape b with
  | [e; u; z1; z2; h1; h2] =>
      (e =? 92) && (u =? 117) && (z1 =? 48) && (z2 =? 48) && Json.isHex h1 && Json.isHex h2
      && bool_decide (hex4 [48; 48; h1; h2] = Some b)
  | _ => false
  end.

Lemma u_escape_shape b : 0 <= b < 128 -> exists h1 h2, u_escape b = [92; 117; 48; 48; h1; h2]
  /\ Json.isHex h1 = true /\ Json.isHex h2 = true /\ hex4 [48; 48; h1; h2] = Some b.
Proof.
  intros H. assert (E : u_escape_ok b = true)
    by (apply (below_dec 128 u_escape_ok); [vm_compute; reflexivity | lia]).
  unfold u_escape_ok in E. destruct (u_escape b) as [| e [| u [| z1 [| z2 [| h1 [| h2 [|]]]]]]] eqn:U;
    try discriminate E. simp_bool. exists h1, h2.
  assert (e = 92 /\ u = 117 /\ z1 = 48 /\ z2 = 48) as (-> & -> & -> & ->) by lia. done.
Qed.

Lemma unquote_cons c s :
  unquote 0 (c :: s) = fst (unquote_rune c s) :: unquote (snd (unquote_rune c s) - 1) s.
Proof. done. Qed.

Lemma ascii_chunk b more : 0 <= b < 128 ->
  quiet in_string (encode_rune b 1 [b]) = Some in_string
  /\ unquote 0 (encode_rune b 1 [b] ++ more) = b :: unquote 0 more.
Proof.
  intros H. unfold encode_rune. replace (b <? 128) with true by lia.
  destruct ((b =? 34) || (b =? 92)) eqn:E1.
  { destruct (b =? 34) eqn:Q; [assert (b = 34) as -> by lia | assert (b = 92) as -> by lia]; done. }
  destruct (b =? 8) eqn:E2; [assert (b = 8) as -> by lia; done |].
  destruct (b =? 12) eqn:E3; [assert (b = 12) as -> by lia; done |].
  destruct (b =? 10) eqn:E4; [assert (b = 10) as -> by lia; done |].
  destruct (b =? 13) eqn:E5; [assert (b = 13) as -> by lia; done |].
  destruct (b =? 9) eqn:E6; [assert (b = 9) as -> by lia; done |].
  destruct ((b <? 32) || (b =? 60) || (b =? 62) || (b =? 38)) eqn:E7.
  - destruct (u_escape_shape b H) as (h1 & h2 & -> & X1 & X2 & X4). split.
    + cbn -[Json.isHex]. do 2 (change (Json.isHex 48) with true; cbn -[Json.isHex]). rewrite X1.
      cbn -[Json.isHex]. by rewrite X2.
    + assert (unquote_rune 92 (117 :: 48 :: 48 :: h1 :: h2 :: more) = (b, 6%nat)) as E.
      { unfold unquote_rune, getu4. cbn -[hex4 is_surrogate].
        change (hex4 (48 :: 48 :: h1 :: h2 :: more)) with (hex4 [48; 48; h1; h2]).
        rewrite X4. cbn [default from_option id]. unfold is_surrogate, id.
        by replace ((55296 <=? b) && (b <? 57344)) with false by lia. }
      cbn [app]. rewrite unquote_cons, E. done.
  - split.
    + cbn. replace (b =? 34) with false by lia. replace (b =? 92) with false by lia.
      by replace (b <? 32) with false by lia.
    + cbn [app unquote]. unfold unquote_rune. replace (b =? 92) with false by lia.
      cbn [negb]. unfold DecodeRune. by replace (b <? 128) with true by lia.
Qed.

Lemma quiet_high l : Forall (fun c => 128 <= c) l -> quiet in_string l = Some in_string.
Proof.
  induction 1 as [| c l H _ IH]; cbn; [done |]. replace (c =? 34) with false by lia.
  replace (c =? 92) with false by lia. by replace (c <? 32) with false by lia.
Qed.

Lemma unquote_skip l : forall k more, length l = k -> unquote k (l ++ more) = unquote 0 more.
Proof.
  induction l as [| c l IH]; intros k more <-; [done |]. cbn. by apply IH.
Qed.

Lemma multi_chunk b s r w more : multi b s r w ->
  let chunk := encode_rune r w (firstn w (b :: s)) in
  quiet in_string chunk = Some in_string /\ unquote 0 (chunk ++ more) = r :: unquote 0 more.
Proof.
  intros [R W En Hi Lo Sp Ln]. cbv zeta. unfold encode_rune. replace (r <? 128) with false by lia.
  replace (w =? 1)%nat with false by (symmetry; apply Nat.eqb_neq; lia). rewrite andb_false_r.
  destruct (r =? 8232) eqn:E1; [assert (r = 8232) as -> by lia; done |].
  destruct (r =? 8233) eqn:E2; [assert (r = 8233) as -> by lia; done |].
  split; [by apply quiet_high |].
  destruct w as [| w]; [lia |]. cbn [firstn app unquote]. unfold unquote_rune.
  replace (S w - 1)%nat with w in Lo by lia.
  cbn [firstn] in Hi. apply Forall_cons in Hi as [Hb _]. replace (b =? 92) with false by lia.
  cbn [negb]. rewrite Lo. cbn [fst snd]. f_equal. replace (S w - 1)%nat with w by lia.
  apply unquote_skip. rewrite length_take. cbn in Ln. lia.
Qed.

(** An escaped string scans to its end and unquotes to its runes. *)
Lemma escaped_scan s : forall k, Forall is_byte s -> valid_runes k s = true ->
  quiet in_string (escaped k s) = Some in_string /\ unquote 0 (escaped k s) = runes_from k s.
Proof.
  induction s as [| b s IH]; intros k B V; [done |]. apply Forall_cons in B as [Hb B].
  destruct k as [| k]; cbn [escaped runes_from valid_runes] in *; [| by apply IH].
  apply andb_true_iff in V as [V V']. destruct (IH _ B V') as [IH1 IH2].
  set (rest := escaped _ s) in *. apply DecodeRune_valid in V as [[A E] | M].
  - rewrite E in *. cbn [fst snd firstn] in *. unfold is_byte in Hb.
    destruct (ascii_chunk b rest) as [C1 C2]; [lia |]. change (b :: take 0 s) with [b]. rewrite (quiet_app _ _ _ _ C1), C2, IH2. done.
  - destruct (multi_chunk b s _ _ rest M) as [C1 C2].
    rewrite (quiet_app _ _ _ _ C1), C2, IH2. done.
Qed.

Lemma to_bytes_range s : Forall is_byte (to_bytes s).
Proof.
  unfold to_bytes. apply Forall_forall. intros x H. apply list_elem_of_fmap in H as (c & -> & _).
  apply byte_val_range.
Qed.

Lemma of_bytes_to_bytes s : of_bytes (to_bytes s) = s.
Proof.
  unfold of_bytes, to_bytes. rewrite map_map.
  rewrite (map_ext _ (fun c => c)) by apply byte_of_val. rewrite map_id.
  apply String.string_of_list_ascii_of_string.
Qed.

Lemma to_bytes_of_bytes l : Forall is_byte l -> to_bytes (of_bytes l) = l.
Proof.
  intros H. unfold of_bytes, to_bytes. rewrite String.list_ascii_of_string_of_list_ascii, map_map.
  induction H as [| x l Hx _ IH]; cbn; [done |]. rewrite IH, byte_val_of by done. done.
Qed.

Definition after_string : Json.scanner := Json.mkScanner Json.EndValue [] false.

Lemma readValue_after r : readValue after_string r = Some ([], r).
Proof.
  destruct r as [| c r]; [done |]. cbn. unfold Json.endTop. by destruct (Json.isSpace c).
Qed.

Lemma readValue_text text r : quiet in_string text = Some in_string ->
  readValue Json.reset ([34] ++ text ++ [34] ++ r) = Some ([34] ++ text ++ [34], r).
Proof.
  intros Q. rewrite (readValue_quiet [34] Json.reset in_string) by done.
  rewrite (readValue_quiet text in_string in_string) by done.
  rewrite (readValue_quiet [34] in_string after_string) by done.
  rewrite readValue_after. done.
Qed.

Lemma scalar_tree_text text : scalar_tree ([34] ++ text ++ [34]) = TreeString text.
Proof. unfold scalar_tree. cbn. f_equal. apply removelast_last. Qed.

Section StringRoundTrip.
Context (s : string) (V : ValidString s = true).

Lemma escaped_valid : valid_runes 0 (to_bytes s) = true.
Proof. unfold ValidString, range_string in V. by rewrite valid_runes_range in V. Qed.

Lemma escaped_quiet : quiet in_string (escaped 0 (to_bytes s)) = Some in_string.
Proof. apply escaped_scan; [apply to_bytes_range | exact escaped_valid]. Qed.

Lemma unquoted_escaped : unquoted (escaped 0 (to_bytes s)) = s.
Proof.
  unfold unquoted, utf8_string.
  destruct (escaped_scan (to_bytes s) 0 (to_bytes_range s) escaped_valid) as [_ ->].
  rewrite runes_from_encode; [apply of_bytes_to_bytes | apply to_bytes_range | exact escaped_valid | lia].
Qed.

End StringRoundTrip.

(** ** Round trip: numbers *)

Definition is_digit (c : Z) : Prop := 48 <= c <= 57.

Lemma digits_range f : forall n, 0 <= n -> Forall is_digit (digits f n).
Proof.
  unfold is_digit. induction f as [| f IH]; intros n H; cbn [digits]; [constructor |].
  destruct (n <? 10) eqn:E; [repeat constructor; lia |].
  apply Forall_app. split; [apply IH, Z.div_pos; lia |].
  pose proof (Z.mod_pos_bound n 10). repeat constructor; lia.
Qed.

Lemma parse_digits_app l : Forall is_digit l -> forall r acc, parse_digits (l ++ r) acc
  = parse_digits r (fold_left (fun a c => a * 10 + (c - 48)) l acc).
Proof.
  unfold is_digit. induction 1 as [| c l H _ IH]; intros r acc; cbn; [done |].
  unfold Json.isDigit. replace ((48 <=? c) && (c <=? 57)) with true by lia. by apply IH.
Qed.

Lemma digits_value f : forall n, 0 <= n < 10 ^ Z.of_nat f ->
  fold_left (fun a c => a * 10 + (c - 48)) (digits f n) 0 = n.
Proof.
  induction f as [| f IH]; intros n H; [cbn in *; lia |]. cbn [digits].
  destruct (n <? 10) eqn:E; [cbn; lia |]. rewrite fold_left_app. rewrite IH.
  - cbn. pose proof (Z.div_mod n 10). lia.
  - rewrite Nat2Z.inj_succ, Z.pow_succ_r in H by lia. split; [apply Z.div_pos; lia |].
    apply Z.div_lt_upper_bound; lia.
Qed.

Lemma parse_decimal n : is_u64 n -> parse_digits (decimal n) 0 = Some n.
Proof.
  unfold is_u64, decimal, two64. intros H. rewrite <- (app_nil_r (digits 20 n)).
  rewrite parse_digits_app by (apply digits_range; lia).
  rewrite digits_value by (split; [lia | change (10 ^ Z.of_nat 20) with 100000000000000000000; lia]).
  cbn. unfold two64. by replace (n <? 18446744073709551616) with true by lia.
Qed.

Definition in_digits : Json.scanner := Json.mkScanner Json.Digits [] false.

Lemma quiet_digits l : Forall is_digit l -> quiet in_digits l = Some in_digits.
Proof.
  unfold is_digit. induction 1 as [| c l H _ IH]; [done |]. cbn. unfold Json.isDigit.
  by replace ((48 <=? c) && (c <=? 57)) with true by lia.
Qed.

(** A byte that cannot continue a number: a comma or a closing brace. *)
Definition ends_number (r : list Z) : Prop :=
  match r with c :: _ => c = 44 \/ c = 125 | [] => True end.

Lemma digits_head f n : 0 < n < 10 ^ Z.of_nat f -> exists c l, digits f n = c :: l /\ 49 <= c <= 57.
Proof.
  revert n. induction f as [| f IH]; intros n H; [cbn in H; lia |]. cbn [digits].
  destruct (n <? 10) eqn:E; [exists (48 + n), []; split; [done | lia] |].
  rewrite Nat2Z.inj_succ, Z.pow_succ_r in H by lia.
  destruct (IH (n / 10)) as (c & l & -> & Hc).
  { split; [apply Z.div_str_pos; lia | apply Z.div_lt_upper_bound; lia]. }
  exists c, (l ++ [48 + n mod 10]). done.
Qed.

Lemma readValue_decimal n r : is_u64 n -> ends_number r ->
  readValue Json.reset (decimal n ++ r) = Some (decimal n, r).
Proof.
  intros H E. unfold is_u64, two64 in H. destruct (Z.eq_dec n 0) as [-> | N].
  - destruct r as [| c r]; [done |]. destruct E as [-> | ->]; done.
  - unfold decimal. assert (B : 0 < n < 10 ^ Z.of_nat 20)
      by (change (10 ^ Z.of_nat 20) with 100000000000000000000; lia).
    pose proof (digits_range 20 n ltac:(lia)) as D.
    destruct (digits_head 20 n B) as (c & l & Q & Hc). rewrite Q in *.
    apply Forall_cons in D as [_ D].
    assert (S : quiet Json.reset (c :: l) = Some in_digits).
    { unfold quiet; fold quiet. cbn [Json.step Json.reset Json.sstep]. unfold Json.beginValue, Json.isSpace.
      replace ((c =? 32) || (c =? 9) || (c =? 13) || (c =? 10)) with false by lia.
      replace (c =? 123) with false by lia. replace (c =? 91) with false by lia.
      replace (c =? 34) with false by lia. replace (c =? 45) with false by lia.
      replace (c =? 48) with false by lia. replace (c =? 116) with false by lia.
      replace (c =? 102) with false by lia. replace (c =? 110) with false by lia.
      replace ((49 <=? c) && (c <=? 57)) with true by lia. by apply quiet_digits. }
    rewrite (readValue_quiet _ _ _ _ S).
    assert (readValue in_digits r = Some ([], r)) as ->.
    { destruct r as [| x r]; [done |]. destruct E as [-> | ->]; done. }
    cbn. by rewrite app_nil_r.
Qed.

Lemma scalar_tree_decimal n : is_u64 n -> scalar_tree (decimal n) = TreeNumber (decimal n).
Proof.
  intros H. unfold is_u64, two64 in H. unfold scalar_tree, literal.
  pose proof (digits_range 20 n ltac:(lia)) as D. fold (decimal n) in D.
  destruct (decimal n) as [| c l]; [done |]. apply Forall_cons in D as [D _]. unfold is_digit in D.
  replace (c =? 34) with false by lia. replace (c =? 116) with false by lia.
  replace (c =? 102) with false by lia. by replace (c =? 110) with false by lia.
Qed.

(** ** Round trip: times *)

Lemma year_of_era doe : 0 <= doe < 146097 ->
  let yoe := (doe - doe / 1460 + doe / 36524 - doe / 146096) / 365 in
  0 <= yoe <= 399 /\ 0 <= doe - (365 * yoe + yoe / 4 - yoe / 100) <= 365
  /\ (doe - (365 * yoe + yoe / 4 - yoe / 100) = 365 ->
      (yoe + 1) mod 4 = 0 /\ ((yoe + 1) mod 100 <> 0 \/ (yoe + 1) mod 400 = 0)).
Proof. intros H yoe. unfold yoe. Z.to_euclidean_division_equations. lia. Qed.

Lemma month_of_year doy : 0 <= doy <= 365 ->
  let mp := (5 * doy + 2) / 153 in
  let d := doy - (153 * mp + 2) / 5 + 1 in
  0 <= mp <= 11 /\ 1 <= d <= 31 /\ (mp = 11 -> d <= 29 /\ (d = 29 -> doy = 365))
  /\ (mp = 1 \/ mp = 3 \/ mp = 6 \/ mp = 8 -> d <= 30).
Proof. intros H mp d. unfold d, mp. Z.to_euclidean_division_equations. lia. Qed.

Lemma leap_era yoe era : 0 <= yoe -> leap (yoe + era * 400 + 1) = leap (yoe + 1).
Proof.
  intros H. unfold leap.
  replace ((yoe + era * 400 + 1) mod 4) with ((yoe + 1) mod 4)
    by (rewrite <- (Z_mod_plus_full (yoe + 1) (era * 100)); f_equal; lia).
  replace ((yoe + era * 400 + 1) mod 100) with ((yoe + 1) mod 100)
    by (rewrite <- (Z_mod_plus_full (yoe + 1) (era * 4)); f_equal; lia).
  replace ((yoe + era * 400 + 1) mod 400) with ((yoe + 1) mod 400)
    by (rewrite <- (Z_mod_plus_full (yoe + 1) era); f_equal; lia).
  done.
Qed.

(** The calendar date of a day determines the day and exists. *)
Lemma civil_inverse days y m d : civil days = (y, m, d) ->
  days_of y m d = days /\ 1 <= m <= 12 /\ 1 <= d <= days_in y m.
Proof.
  unfold civil. set (era := days / 146097). set (doe := days mod 146097).
  assert (Hd : 0 <= doe < 146097) by (apply Z.mod_pos_bound; lia).
  pose proof (Z.div_mod days 146097 ltac:(lia)) as DM. fold era doe in DM.
  pose proof (year_of_era doe Hd) as Y. cbv zeta in Y.
  set (yoe := (doe - doe / 1460 + doe / 36524 - doe / 146096) / 365) in *.
  set (doy := doe - (365 * yoe + yoe / 4 - yoe / 100)) in *.
  destruct Y as (Y1 & Y2 & Y3). pose proof (month_of_year doy Y2) as M. cbv zeta in M.
  set (mp := (5 * doy + 2) / 153) in *. set (day := doy - (153 * mp + 2) / 5 + 1) in *.
  destruct M as (M1 & M2 & M3 & M4). clearbody era doe yoe.
  intros [= <- <- <-]. destruct (mp <? 10) eqn:E.
  - replace (mp + 3 <=? 2) with false by lia.
    assert (Dy : (yoe + era * 400 + 0) / 400 = era) by (symmetry; apply (Z.div_unique_pos _ _ _ yoe); lia).
    assert (My : (yoe + era * 400 + 0) mod 400 = yoe) by (symmetry; apply (Z.mod_unique_pos _ _ era); lia).
    split; [| split; [lia |]].
    + unfold days_of. replace (mp + 3 <=? 2) with false by lia. replace (2 <? mp + 3) with true by lia.
      rewrite Dy, My. replace (mp + 3 - 3) with mp by lia. lia.
    + split; [lia |]. unfold days_in. replace (mp + 3 =? 2) with false by lia.
      destruct (_ || _) eqn:F; lia.
  - replace (mp - 9 <=? 2) with true by lia.
    assert (Dy : (yoe + era * 400 + 1 - 1) / 400 = era) by (symmetry; apply (Z.div_unique_pos _ _ _ yoe); lia).
    assert (My : (yoe + era * 400 + 1 - 1) mod 400 = yoe) by (symmetry; apply (Z.mod_unique_pos _ _ era); lia).
    split; [| split; [lia |]].
    + unfold days_of. replace (mp - 9 <=? 2) with true by lia. replace (2 <? mp - 9) with false by lia.
      rewrite Dy, My. replace (mp - 9 + 9) with mp by lia. lia.
    + split; [lia |]. unfold days_in. destruct (mp - 9 =? 2) eqn:F.
      * rewrite leap_era by lia. destruct (M3 ltac:(lia)) as [M5 M6].
        destruct (leap (yoe + 1)) eqn:L; [lia |].
        enough (day <> 29) by lia. intros X. destruct (Y3 (M6 X)) as [L4 L100].
        unfold leap in L. rewrite L4 in L. cbn in L. lia.
      * replace ((mp - 9 =? 4) || (mp - 9 =? 6) || (mp - 9 =? 9) || (mp - 9 =? 11)) with false by lia.
        lia.
Qed.

Lemma padded_2 n : padded 2 n = [48 + n / 10 mod 10; 48 + n mod 10].
Proof. done. Qed.

Lemma padded_4 n : padded 4 n
  = [48 + n / 10 / 10 / 10 mod 10; 48 + n / 10 / 10 mod 10; 48 + n / 10 mod 10; 48 + n mod 10].
Proof. done. Qed.

Lemma digit_of x : 0 <= x < 10 -> digit (48 + x) = Some x.
Proof.
  intros H. unfold digit, Json.isDigit.
  replace ((48 <=? 48 + x) && (48 + x <=? 57)) with true by lia. f_equal. lia.
Qed.

Lemma two_of a b lo hi : 0 <= a < 10 -> 0 <= b < 10 -> lo <= a * 10 + b <= hi ->
  two (48 + a) (48 + b) lo hi = Some (a * 10 + b).
Proof.
  intros Ha Hb H. unfold two. rewrite !digit_of by done.
  by replace ((lo <=? a * 10 + b) && (a * 10 + b <=? hi)) with true by lia.
Qed.

Lemma two_padded n lo hi : 0 <= n < 100 -> lo <= n <= hi ->
  two (48 + n / 10 mod 10) (48 + n mod 10) lo hi = Some n.
Proof.
  intros H B. assert (E : n / 10 mod 10 * 10 + n mod 10 = n)
    by (Z.to_euclidean_division_equations; lia).
  rewrite two_of; [by rewrite E | apply Z.mod_pos_bound; lia | apply Z.mod_pos_bound; lia | lia].
Qed.

(** The value of fraction digits, most significant first. *)
Fixpoint frac_value (scale : Z) (l : list Z) : Z :=
  match l with
  | [] => 0
  | c :: l' => (c - 48) * scale + frac_value (scale / 10) l'
  end.

Lemma fraction_digits l : Forall is_digit l -> forall scale,
  fraction scale (l ++ [90]) = (frac_value scale l, [90]).
Proof.
  unfold is_digit. induction 1 as [| c l H _ IH]; intros scale; [done |]. cbn [app fraction].
  unfold Json.isDigit. replace ((48 <=? c) && (c <=? 57)) with true by lia. by rewrite IH.
Qed.

Lemma frac_value_zeros l : forall scale, frac_value scale (l ++ [48]) = frac_value scale l.
Proof. induction l as [| c l IH]; intros scale; cbn; [lia | by rewrite IH]. Qed.

Lemma frac_value_trim l : forall scale,
  frac_value scale (rev (drop_zeros l)) = frac_value scale (rev l).
Proof.
  induction l as [| c l IH]; intros scale; [done |]. destruct (Z.eq_dec c 48) as [-> | N].
  - cbn [drop_zeros rev]. by rewrite frac_value_zeros.
  - replace (drop_zeros (c :: l)) with (c :: l); [done |].
    cbn. repeat case_match; done.
Qed.

Lemma drop_zeros_sub l : Forall is_digit l -> Forall is_digit (drop_zeros l).
Proof.
  induction 1 as [| c l H Hl IH]; [done |]. destruct (Z.eq_dec c 48) as [-> | N]; [done |].
  replace (drop_zeros (c :: l)) with (c :: l); [by constructor |]. cbn. repeat case_match; done.
Qed.

Lemma padded_range w : forall n, Forall is_digit (padded w n).
Proof.
  induction w as [| w IH]; intros n; cbn; [constructor |]. apply Forall_app. split; [done |].
  pose proof (Z.mod_pos_bound n 10 ltac:(lia)). unfold is_digit. repeat constructor; lia.
Qed.

Lemma padded_value n : 0 <= n < 1000000000 -> frac_value 100000000 (padded 9 n) = n.
Proof.
  intros H. cbn [padded app frac_value]. change (100000000 / 10) with 10000000.
  change (10000000 / 10) with 1000000. change (1000000 / 10) with 100000.
  change (100000 / 10) with 10000. change (10000 / 10) with 1000. change (1000 / 10) with 100.
  change (100 / 10) with 10. change (10 / 10) with 1.
  Z.to_euclidean_division_equations. lia.
Qed.

Definition fraction_text (ns : Z) : list Z :=
  if ns =? 0 then [] else [46] ++ rev (drop_zeros (rev (padded 9 ns))).

Lemma fraction_roundtrip ns : 0 <= ns < 1000000000 ->
  fraction_of (fraction_text ns ++ [90]) = (ns, [90]).
Proof.
  intros H. unfold fraction_text. destruct (ns =? 0) eqn:E; [cbn; f_equal; lia |].
  set (l := rev (drop_zeros (rev (padded 9 ns)))).
  assert (D : Forall is_digit l).
  { apply Forall_rev, drop_zeros_sub, Forall_rev, padded_range. }
  assert (V : frac_value 100000000 l = ns).
  { unfold l. by rewrite frac_value_trim, rev_involutive, padded_value. }
  destruct l as [| c l']; [cbn in V; lia |]. cbn [app fraction_of].
  apply Forall_cons in D as D'. destruct D' as [Dc _]. unfold is_digit in Dc. unfold Json.isDigit.
  replace ((48 <=? c) && (c <=? 57)) with true by lia. cbn [Z.eqb Pos.eqb andb].
  change (c :: l' ++ [90]) with ((c :: l') ++ [90]). by rewrite fraction_digits, V.
Qed.

Lemma time_roundtrip t text : time_text t = Some text -> parse_time text = Some (UTC t).
Proof.
  unfold time_text. set (second := nanos t / 1000000000). set (ns := nanos t mod 1000000000).
  assert (Hn : 0 <= ns < 1000000000) by (apply Z.mod_pos_bound; lia).
  pose proof (Z.div_mod (nanos t) 1000000000 ltac:(lia)) as Dn. fold second ns in Dn.
  destruct (civil (second / 86400 + 306)) as [[y m] d] eqn:C.
  apply civil_inverse in C as (C & Hm & Hd).
  set (sod := second mod 86400).
  assert (Hs : 0 <= sod < 86400) by (apply Z.mod_pos_bound; lia).
  pose proof (Z.div_mod second 86400 ltac:(lia)) as Ds. fold sod in Ds.
  destruct ((y <? 0) || (9999 <? y)) eqn:Y; [discriminate |]. fold (fraction_text ns).
  rewrite !padded_2, padded_4. intros [= <-]. cbn [app].
  assert (H31 : days_in y m <= 31) by (unfold days_in; repeat case_match; lia).
  unfold parse_time. fold (fraction_of (fraction_text ns ++ [90])).
  replace (y / 10 / 10 / 10) with (y / 100 / 10) by (rewrite !Z.div_div by lia; done).
  replace (y / 10 / 10) with (y / 100) by (rewrite !Z.div_div by lia; done).
  rewrite (two_padded (y / 100)) by (Z.to_euclidean_division_equations; lia).
  rewrite (two_of (y / 10 mod 10) (y mod 10)) by (Z.to_euclidean_division_equations; lia).
  rewrite (two_padded m) by lia.
  rewrite (two_padded (sod / 3600)) by (Z.to_euclidean_division_equations; lia).
  rewrite (two_padded (sod / 60 mod 60)) by (Z.to_euclidean_division_equations; lia).
  rewrite (two_padded (sod mod 60)) by (Z.to_euclidean_division_equations; lia).
  replace (y / 100 * 100 + (y / 10 mod 10 * 10 + y mod 10)) with y
    by (clear; Z.to_euclidean_division_equations; lia).
  rewrite (two_padded d) by lia. cbn [Z.eqb Pos.eqb andb negb].
  rewrite fraction_roundtrip by done. cbn [snd fst zone Z.eqb Pos.eqb]. f_equal. unfold UTC. f_equal.
  rewrite C. clear C. subst sod. generalize dependent second. intros. clearbody ns.
  Z.to_euclidean_division_equations. lia.
Qed.

(** ** Round trip: structs of scalars *)

Definition plain (c : Z) : Prop := 32 <= c /\ c <> 34 /\ c <> 92.

Lemma quiet_plain l : Forall plain l -> quiet in_string l = Some in_string.
Proof.
  unfold plain. induction 1 as [| c l H _ IH]; cbn; [done |]. replace (c =? 34) with false by lia.
  replace (c =? 92) with false by lia. by replace (c <? 32) with false by lia.
Qed.

Lemma digits_plain l : Forall is_digit l -> Forall plain l.
Proof. intros H. eapply Forall_impl; [exact H |]. unfold is_digit, plain. cbn. lia. Qed.

Lemma time_text_plain t text : time_text t = Some text -> Forall plain text.
Proof.
  unfold time_text. destruct (civil _) as [[y m] d]. destruct (_ || _); [discriminate |].
  intros E. apply (inj Some) in E as <-.
  assert (D : forall w n, Forall plain (padded w n)) by (intros; apply digits_plain, padded_range).
  assert (P : forall c, 32 <= c <= 33 \/ 35 <= c <= 91 \/ 93 <= c -> Forall plain [c])
    by (unfold plain; repeat constructor; lia).
  repeat first [apply D | apply P; lia | simple apply Forall_app_2].
  destruct (_ =? 0); [constructor |]. apply Forall_app_2; [apply P; lia |].
  apply digits_plain, Forall_rev, drop_zeros_sub, Forall_rev, padded_range.
Qed.

(** The tree of a marshalled scalar. *)
Definition flat_tree (v : jvalue) : option jtree :=
  match v with
  | JString s => if ValidString s then Some (TreeString (escaped 0 (to_bytes s))) else None
  | JUint n => if (0 <=? n) && (n <? two64) then Some (TreeNumber (decimal n)) else None
  | JTime t => option_map TreeString (time_text t)
  | _ => None
  end.

Lemma next_byte_quote b r : b <> 34 -> next_byte b ([34] ++ r) = None.
Proof.
  intros H. unfold next_byte. change (skip_space ([34] ++ r)) with (34 :: r).
  cbv iota beta. by rewrite (proj2 (Z.eqb_neq 34 b)) by lia.
Qed.

Lemma parse_text k text r : quiet in_string text = Some in_string ->
  parse_value (S k) ([34] ++ text ++ [34] ++ r) = Some (TreeString text, r).
Proof.
  intros Q. cbn [parse_value]. rewrite (next_byte_quote 123), (next_byte_quote 91) by done.
  change (skip_space ([34] ++ text ++ [34] ++ r)) with ([34] ++ text ++ [34] ++ r).
  rewrite (readValue_text _ _ Q). cbn [option_map fst snd]. by rewrite scalar_tree_text.
Qed.

Lemma decimal_cons n : is_u64 n -> exists c l, decimal n = c :: l /\ is_digit c.
Proof.
  intros H. unfold is_u64 in H. pose proof (digits_range 20 n ltac:(lia)) as D.
  change (decimal n) with (if n <? 10 then [48 + n] else digits 19 (n / 10) ++ [48 + n mod 10]).
  change (digits 20 n) with (if n <? 10 then [48 + n] else digits 19 (n / 10) ++ [48 + n mod 10]) in D.
  destruct (n <? 10); [apply Forall_cons in D as [D _]; eauto |].
  destruct (digits 19 (n / 10)) as [| c l]; cbn [app] in *; apply Forall_cons in D as [D _]; eauto.
Qed.

Lemma parse_uint k n r : is_u64 n -> ends_number r ->
  parse_value (S k) (decimal n ++ r) = Some (TreeNumber (decimal n), r).
Proof.
  intros H E. destruct (decimal_cons n H) as (c & l & Q & D). unfold is_digit in D.
  assert (S : skip_space (decimal n ++ r) = decimal n ++ r).
  { rewrite Q. cbn. unfold Json.isSpace.
    by replace ((c =? 32) || (c =? 9) || (c =? 13) || (c =? 10)) with false by lia. }
  assert (N : forall b, 57 < b -> next_byte b (decimal n ++ r) = None).
  { intros b Hb. unfold next_byte. rewrite S, Q. cbn. by replace (c =? b) with false by lia. }
  cbn [parse_value]. rewrite !N, S, readValue_decimal by (done || lia). cbn [option_map fst snd].
  by rewrite scalar_tree_decimal.
Qed.

Lemma parse_flat k v bs t r : flat_tree v = Some t -> encode v = Some bs -> ends_number r ->
  parse_value (S k) (bs ++ r) = Some (t, r).
Proof.
  intros F E R. destruct v as [s | n | x | | | | |]; try discriminate F; cbn [flat_tree encode] in *.
  - destruct (ValidString s) eqn:V; [| discriminate F]. injection F as <-. apply (inj Some) in E as <-.
    rewrite encode_string_escaped. rewrite <- !app_assoc. apply parse_text. by apply escaped_quiet.
  - destruct (_ && _) eqn:B; [| discriminate F]. injection F as <-. apply (inj Some) in E as <-.
    apply parse_uint; [unfold is_u64; lia | done].
  - unfold encode_time in E. destruct (time_text x) as [text |] eqn:T; [| discriminate F].
    injection F as <-. cbn [option_map] in E. apply (inj Some) in E as <-. rewrite <- !app_assoc.
    apply parse_text.
    by eapply quiet_plain, time_text_plain.
Qed.

Fixpoint encode_fields (ms : list (string * jvalue)) : option (list (string * list Z)) :=
  match ms with
  | [] => Some []
  | (k, x) :: rest =>
      match encode x, encode_fields rest with
      | Some bs, Some l => Some ((k, bs) :: l)
      | _, _ => None
      end
  end.

Lemma encode_struct ms :
  encode (JStruct ms) = option_map (fun l => [123] ++ join l ++ [125]) (encode_fields ms).
Proof.
  cbn [encode]. assert (E : forall ms, (fix fields ms :=
      match ms with
      | [] => Some []
      | (k, x) :: rest =>
          match encode x, fields rest with
          | Some bs, Some l => Some ((k, bs) :: l)
          | _, _ => None
          end
      end) ms = encode_fields ms).
  { clear. induction ms as [| [k x] ms IH]; [done |]. cbn [encode_fields]. by rewrite IH. }
  rewrite E. by destruct (encode_fields ms).
Qed.

Fixpoint flat_fields (ms : list (string * jvalue)) : option (list (string * jtree)) :=
  match ms with
  | [] => Some []
  | (k, x) :: rest =>
      match flat_tree x, flat_fields rest with
      | Some t, Some l => if ValidString k then Some ((k, t) :: l) else None
      | _, _ => None
      end
  end.

Lemma parse_key_string key r : ValidString key = true ->
  parse_key (encode_string key ++ [58] ++ r) = Some (key, r).
Proof.
  intros V. unfold parse_key. rewrite encode_string_escaped. rewrite <- !app_assoc.
  lazymatch goal with |- context [skip_space ?x] => change (skip_space x) with x end.
  rewrite readValue_text by (by apply escaped_quiet). rewrite scalar_tree_text.
  rewrite unquoted_escaped by done. done.
Qed.

Lemma join_cons k v x l :
  join ((k, v) :: x :: l) = encode_string k ++ [58] ++ v ++ [44] ++ join (x :: l).
Proof. destruct x as [k' v']. cbn [join flat_map fst snd]. by rewrite <- !app_assoc. Qed.

Lemma next_byte_here b r : Json.isSpace b = false -> next_byte b ([b] ++ r) = Some r.
Proof. intros H. unfold next_byte. cbn. rewrite H. by rewrite Z.eqb_refl. Qed.

Lemma parse_members_step k data : parse_members (S k) data =
  match parse_key data with
  | None => None
  | Some (key, r) =>
      match parse_value k r with
      | None => None
      | Some (v, r') =>
          match next_byte 125 r', next_byte 44 r' with
          | Some rest, _ => Some ([(key, v)], rest)
          | None, Some rest =>
              option_map (fun mr => ((key, v) :: fst mr, snd mr)) (parse_members k rest)
          | None, None => None
          end
      end
  end.
Proof. done. Qed.

Lemma parse_fields ms : forall l ts fuel r,
  encode_fields ms = Some l -> flat_fields ms = Some ts -> ms <> [] -> (length ms < fuel)%nat ->
  parse_members fuel (join l ++ [125] ++ r) = Some (ts, r).
Proof.
  induction ms as [| [k x] ms IH]; intros l ts fuel r E F N L; [done |]. cbn [encode_fields flat_fields] in *.
  destruct (encode x) as [bs |] eqn:Ex; [| discriminate E].
  destruct (encode_fields ms) as [l' |] eqn:El; [| discriminate E]. apply (inj Some) in E as <-.
  destruct (flat_tree x) as [t |] eqn:Fx; [| discriminate F].
  destruct (flat_fields ms) as [ts' |] eqn:Fl; [| discriminate F].
  destruct (ValidString k) eqn:V; [| discriminate F]. apply (inj Some) in F as <-.
  destruct fuel as [| [| fuel]]; cbn [length] in L; [lia | lia |].
  destruct ms as [| m ms].
  - cbn [encode_fields flat_fields] in El, Fl. simplify_eq. cbn [join flat_map].
    rewrite app_nil_r, <- !app_assoc. rewrite parse_members_step. rewrite parse_key_string by done.
    rewrite (parse_flat fuel x bs t) by (done || by right). by rewrite next_byte_here.
  - destruct l' as [| m' l'].
    { cbn [encode_fields] in El. destruct m. by repeat case_match. }
    rewrite join_cons, <- !app_assoc. rewrite (parse_members_step (S fuel)).
    rewrite parse_key_string by done. rewrite (parse_flat fuel x bs t) by (done || by left).
    assert (next_byte 125 ([44] ++ join (m' :: l') ++ [125] ++ r) = None) as -> by done.
    rewrite next_byte_here by done.
    rewrite (IH (m' :: l') ts' (S fuel) r) by (done || cbn [length] in *; lia). done.
Qed.

Lemma digits_bytes l : Forall is_digit l -> Forall is_byte l.
Proof. intros H. eapply Forall_impl; [exact H |]. unfold is_digit, is_byte. cbn. lia. Qed.

Lemma u_escape_bytes r : Forall is_byte (u_escape r).
Proof.
  unfold u_escape. apply Forall_app_2; [unfold is_byte; repeat constructor; lia |].
  apply Forall_forall. intros x H. apply list_elem_of_fmap in H as (c & -> & _). apply byte_val_range.
Qed.

Lemma DecodeRune_ascii b s : fst (DecodeRune b s) < 128 -> fst (DecodeRune b s) = b.
Proof.
  intros H. destruct (negb ((fst (DecodeRune b s) =? RuneError) && (snd (DecodeRune b s) =? 1)%nat)) eqn:V.
  - apply DecodeRune_valid in V as [[_ ->] | M]; [done |]. destruct M. lia.
  - simp_bool. unfold RuneError in *. lia.
Qed.

Lemma encode_rune_bytes b s : Forall is_byte (b :: s) ->
  Forall is_byte (encode_rune (fst (DecodeRune b s)) (snd (DecodeRune b s))
                    (firstn (snd (DecodeRune b s)) (b :: s))).
Proof.
  intros B. assert (T : Forall is_byte (firstn (snd (DecodeRune b s)) (b :: s))) by (by apply Forall_take).
  apply Forall_cons in B as [Hb _]. pose proof (DecodeRune_ascii b s) as A.
  unfold encode_rune. set (r := fst (DecodeRune b s)) in *.
  assert (K : forall l, forallb (fun c => (0 <=? c) && (c <? 256)) l = true -> Forall is_byte l).
  { intros l Hl. apply Forall_forall. intros x Hx. rewrite forallb_forall in Hl.
    apply list_elem_of_In, Hl in Hx. unfold is_byte. lia. }
  destruct (r <? 128) eqn:E.
  - rewrite A by lia. unfold is_byte in Hb.
    repeat case_match; first [apply u_escape_bytes | apply K; cbn; lia].
  - repeat case_match; first [exact T | apply K; reflexivity].
Qed.

Lemma escaped_bytes s : forall k, Forall is_byte s -> Forall is_byte (escaped k s).
Proof.
  induction s as [| b s IH]; intros k B; [done |]. destruct k as [| k]; cbn [escaped].
  - apply Forall_app_2; [by apply encode_rune_bytes |]. apply Forall_cons in B as [_ B]. by apply IH.
  - apply Forall_cons in B as [_ B]. by apply IH.
Qed.

Lemma encode_string_bytes s : Forall is_byte (encode_string s).
Proof.
  rewrite encode_string_escaped. pose proof (escaped_bytes _ 0 (to_bytes_range s)).
  repeat apply Forall_app_2; try done; unfold is_byte; repeat constructor; lia.
Qed.

Lemma time_text_bytes t text : time_text t = Some text -> Forall is_byte text.
Proof.
  unfold time_text. destruct (civil _) as [[y m] d]. destruct (_ || _); [discriminate |].
  intros E. apply (inj Some) in E as <-.
  assert (D : forall w n, Forall is_byte (padded w n)) by (intros; apply digits_bytes, padded_range).
  assert (P : forall c, 0 <= c < 256 -> Forall is_byte [c]) by (unfold is_byte; repeat constructor; lia).
  repeat first [apply D | apply P; lia | simple apply Forall_app_2].
  destruct (_ =? 0); [constructor |]. apply Forall_app_2; [apply P; lia |].
  apply digits_bytes, Forall_rev, drop_zeros_sub, Forall_rev, padded_range.
Qed.

Lemma flat_bytes x t bs : flat_tree x = Some t -> encode x = Some bs -> Forall is_byte bs.
Proof.
  intros F E. destruct x as [s | n | x | | | | |]; try discriminate F; cbn [flat_tree encode] in *.
  - apply (inj Some) in E as <-. apply encode_string_bytes.
  - apply (inj Some) in E as <-. destruct (_ && _) eqn:B; [| discriminate F].
    apply digits_bytes, digits_range. lia.
  - unfold encode_time in E. destruct (time_text x) as [text |] eqn:T; [| discriminate F].
    cbn [option_map] in E. apply (inj Some) in E as <-. apply time_text_bytes in T.
    repeat apply Forall_app_2; try done; unfold is_byte; repeat constructor; lia.
Qed.

Lemma join_bytes ms : forall l ts, encode_fields ms = Some l -> flat_fields ms = Some ts ->
  Forall is_byte (join l) /\ (length ms <= length (join l))%nat.
Proof.
  assert (P : forall c, 0 <= c < 256 -> Forall is_byte [c]) by (unfold is_byte; repeat constructor; lia).
  induction ms as [| [k x] ms IH]; intros l ts E F; cbn [encode_fields flat_fields] in *.
  { by injection E as <-. }
  destruct (encode x) as [bs |] eqn:Ex; [| discriminate E].
  destruct (encode_fields ms) as [l' |] eqn:El; [| discriminate E]. apply (inj Some) in E as <-.
  destruct (flat_tree x) as [t |] eqn:Fx; [| discriminate F].
  destruct (flat_fields ms) as [ts' |] eqn:Fl; [| discriminate F].
  destruct (IH l' ts' eq_refl eq_refl) as [IH1 IH2]. pose proof (flat_bytes _ _ _ Fx Ex) as B.
  pose proof (encode_string_bytes k) as K. destruct l' as [| m' l'].
  - cbn [join flat_map length] in *. rewrite app_nil_r, !length_app. cbn [length].
    split; [repeat first [assumption | apply P; lia | simple apply Forall_app_2] | lia].
  - rewrite join_cons, !length_app. cbn [length].
    split; [repeat first [assumption | apply P; lia | simple apply Forall_app_2] | lia].
Qed.

Lemma flat_tree_depth x t : flat_tree x = Some t -> depth t = 0.
Proof.
  intros F. destruct x as [s | n | x | | | | |]; try discriminate F; cbn [flat_tree] in F.
  - destruct (ValidString s); [| discriminate F]. by injection F as <-.
  - destruct (_ && _); [| discriminate F]. by injection F as <-.
  - destruct (time_text x); [| discriminate F]. by injection F as <-.
Qed.

Lemma flat_depth ms ts : flat_fields ms = Some ts -> depth (TreeObject ts) = 1.
Proof.
  intros F. cbn [depth]. enough (E : foldr (fun kv m => Z.max (depth (snd kv)) m) 0 ts = 0)
    by (unfold foldr in *; lia).
  revert ts F. induction ms as [| [k x] ms IH]; intros ts F; cbn [flat_fields] in F.
  { by injection F as <-. }
  destruct (flat_tree x) as [t |] eqn:Fx; [| discriminate F].
  destruct (flat_fields ms) as [ts' |]; [| discriminate F].
  destruct (ValidString k); [| discriminate F]. apply (inj Some) in F as <-. cbn [foldr snd].
  rewrite (IH ts' eq_refl). by rewrite (flat_tree_depth x t Fx).
Qed.

Lemma parse_value_object k data : next_byte 125 data = None ->
  parse_value (S k) ([123] ++ data)
  = option_map (fun mr => (TreeObject (fst mr), snd mr)) (parse_members k data).
Proof.
  intros H. cbn [parse_value]. by rewrite next_byte_here, H by done.
Qed.

(** A marshalled struct of scalars is parsed back field by field. *)
Lemma struct_roundtrip ms raw ts :
  Marshal (JStruct ms) = Some raw -> flat_fields ms = Some ts -> ms <> [] ->
  parse (to_bytes raw) = Some (TreeObject ts).
Proof.
  unfold Marshal. rewrite encode_struct. intros E F N.
  destruct (encode_fields ms) as [l |] eqn:El; [| discriminate E]. cbn [option_map] in E.
  apply (inj Some) in E as <-. destruct (join_bytes ms l ts El F) as [B L].
  rewrite to_bytes_of_bytes by (repeat apply Forall_app_2; try done; unfold is_byte; repeat constructor; lia).
  unfold parse. rewrite !length_app. cbn [length]. set (fuel := (1 + (length (join l) + 1))%nat).
  assert (parse_value (S fuel) ([123] ++ join l ++ [125]) = Some (TreeObject ts, [])) as ->.
  { rewrite parse_value_object.
    - pose proof (parse_fields ms l ts fuel [] El F N ltac:(lia)) as P. rewrite app_nil_r in P.
      by rewrite P.
    - destruct l as [| [k v] l]; [| cbn [join]; rewrite encode_string_escaped; by rewrite <- !app_assoc].
      destruct ms as [| [k x] ms]; [done |]. cbn in El. by repeat case_match. }
  cbn [skip_space]. by rewrite (flat_depth ms ts F).
Qed.

(** What the field setters do with the tree of a marshalled scalar. *)
Lemma into_string_flat {A} (set : string -> A -> A) s t a :
  flat_tree (JString s) = Some t -> into_string set t a = Some (set s a).
Proof.
  cbn [flat_tree]. destruct (ValidString s) eqn:V; [| discriminate]. intros E. injection E as <-.
  cbn [into_string]. by rewrite unquoted_escaped.
Qed.

Lemma into_uint_flat {A} (set : Z -> A -> A) n t a :
  flat_tree (JUint n) = Some t -> into_uint set t a = Some (set n a).
Proof.
  cbn [flat_tree]. destruct (_ && _) eqn:B; [| discriminate]. intros E. injection E as <-.
  cbn [into_uint]. by rewrite parse_decimal by (unfold is_u64; lia).
Qed.

Lemma into_time_flat {A} (set : Time -> A -> A) x t a :
  flat_tree (JTime x) = Some t -> into_time set t a = Some (set (UTC x) a).
Proof.
  cbn [flat_tree]. destruct (time_text x) as [text |] eqn:T; [| discriminate].
  intros E. injection E as <-. cbn [into_time]. by rewrite (time_roundtrip x text T).
Qed.

(** A field's setter accepts its marshalled value. *)
Definition accepts {A} (fields : list (field A)) (m : string * jvalue) (f : A -> A) : Prop :=
  exists g, field_for fields (fst m) = Some g
    /\ forall t a, flat_tree (snd m) = Some t -> snd g t a = Some (f a).

(** Unmarshalling a marshalled struct applies the setters in order. *)
Lemma unmarshal_marshal {A} (fields : list (field A)) ms fs raw ts a :
  Marshal (JStruct ms) = Some raw -> flat_fields ms = Some ts -> ms <> [] ->
  Forall2 (accepts fields) ms fs ->
  Unmarshal fields raw a = Some (fold_left (fun x f => f x) fs a).
Proof.
  intros E F N S. unfold Unmarshal. rewrite (struct_roundtrip ms raw ts E F N). cbn [struct].
  clear E N. revert ts a F. induction S as [| [k x] f ms fs (g & G & Hg) S IH]; intros ts a F;
    cbn [flat_fields] in F; [by injection F as <- |].
  destruct (flat_tree x) as [t |] eqn:Fx; [| discriminate F].
  destruct (flat_fields ms) as [ts' |]; [| discriminate F].
  destruct (ValidString k); [| discriminate F]. injection F as <-. cbn [fold_left].
  unfold set_member at 2. cbn [fst snd] in *. rewrite G, (Hg t a Fx). by apply IH.
Qed.

(** A struct encodes when its fields do. *)
Lemma struct_encodes ms :
  is_some (Marshal (JStruct ms)) = forallb (fun m => is_some (encode (snd m))) ms.
Proof.
  unfold Marshal. rewrite encode_struct.
  transitivity (is_some (encode_fields ms)); [by destruct (encode_fields ms) |].
  induction ms as [| [k x] ms IH]; cbn [encode_fields forallb snd]; [done |]. rewrite <- IH.
  by destruct (encode x), (encode_fields ms).
Qed.

(** Scalars that survive: valid text, 64-bit numbers, and times that have a text. *)
Definition scalar_ok (m : string * jvalue) : Prop :=
  ValidString (fst m) = true
  /\ match snd m with
     | JString s => ValidString s = true
     | JUint n => is_u64 n
     | JTime _ => True
     | _ => False
     end.

Lemma flat_fields_some ms : Forall scalar_ok ms -> forall l, encode_fields ms = Some l ->
  exists ts, flat_fields ms = Some ts.
Proof.
  induction 1 as [| [k x] ms [K X] _ IH]; intros l E; cbn [encode_fields flat_fields] in *; [by eauto |].
  destruct (encode x) as [bs |] eqn:Ex; [| discriminate E].
  destruct (encode_fields ms) as [l' |]; [| discriminate E]. destruct (IH l' eq_refl) as [ts ->].
  cbn [fst snd] in *. rewrite K. destruct x as [s | n | t | | | | |]; try contradiction; cbn [flat_tree].
  - rewrite X. eauto.
  - unfold is_u64 in X. replace ((0 <=? n) && (n <? two64)) with true by lia. eauto.
  - cbn [encode] in Ex. unfold encode_time in Ex. destruct (time_text t); [| discriminate Ex].
    cbn. eauto.
Qed.

(** A struct of such scalars is unmarshalled by its setters, in order. *)
Lemma scalars_roundtrip {A} (fields : list (field A)) ms fs raw a :
  Marshal (JStruct ms) = Some raw -> Forall scalar_ok ms -> ms <> [] ->
  Forall2 (accepts fields) ms fs ->
  Unmarshal fields raw a = Some (fold_left (fun x f => f x) fs a).
Proof.
  intros E S N F. pose proof E as E'. unfold Marshal in E'. rewrite encode_struct in E'.
  destruct (encode_fields ms) as [l |] eqn:El; [| discriminate E'].
  destruct (flat_fields_some ms S l El) as [ts T]. exact (unmarshal_marshal fields ms fs raw ts a E T N F).
Qed.

(** [accepts_auto] finds the setter of each field. *)
Ltac accepts_auto :=
  repeat (apply Forall2_cons; split; [eexists; split; [reflexivity |]; intros ? ? ?; cbn [snd fst];
    first [by apply into_string_flat | by apply into_uint_flat | by apply into_time_flat] |]);
  try by apply Forall2_nil.

(** [scalars_auto] checks the names and leaves the values that are not known. *)
Ltac scalars_auto :=
  repeat first [apply Forall_nil_2
               | apply Forall_cons; split; [split; [reflexivity | cbn [snd]; try done] |]].

(** ** ASCII text is valid UTF-8 *)

Definition ascii_text (s : string) : Prop := Forall (fun c => byte_val c < 128) (chars s).

Lemma ascii_valid s : ascii_text s -> ValidString s = true.
Proof.
  unfold ascii_text, ValidString, range_string, to_bytes. intros H. rewrite valid_runes_range.
  induction H as [| c l Hc _ IH]; [done |]. cbn [map valid_runes].
  unfold DecodeRune. replace (byte_val c <? 128) with true by lia. cbn [fst snd Nat.sub].
  rewrite IH, andb_true_r. unfold RuneError. by replace (byte_val c =? 65533) with false by lia.
Qed.

Lemma ascii_app a b : ascii_text a -> ascii_text b -> ascii_text (a +:+ b).
Proof.
  unfold ascii_text. intros Ha Hb. induction a as [| c a IH]; [done |].
  apply Forall_cons in Ha as [Hc Ha]. rewrite append_cons. constructor; [done |]. by apply IH.
Qed.

Lemma hexdigit_ascii n : 0 <= n < 16 -> byte_val (hexdigit n) < 128.
Proof.
  intros H. enough (E : (byte_val (hexdigit n) <? 128) = true) by lia.
  apply (below_dec 16 (fun n => byte_val (hexdigit n) <? 128)); [vm_compute; reflexivity | lia].
Qed.

Lemma hexEncode_ascii l : Forall is_byte l -> ascii_text (hexEncode l).
Proof.
  unfold ascii_text, is_byte. induction 1 as [| b l H _ IH]; cbn; [constructor |].
  constructor; [apply hexdigit_ascii |]; [| constructor; [apply hexdigit_ascii | done]].
  - rewrite Z.shiftr_div_pow2 by lia. change (2 ^ 4) with 16.
    split; [apply Z.div_pos; lia | apply Z.div_lt_upper_bound; lia].
  - change 15 with (Z.ones 4). rewrite Z.land_ones by lia. apply Z.mod_pos_bound. lia.
Qed.

Lemma validID_ascii i : validID i = true -> ascii_text i.
Proof.
  intros H. apply validID_spec in H as (raw & U & ->). unfold formatID, slice.
  assert (B : Forall is_byte raw) by (by destruct U as (_ & B & _)).
  assert (D : ascii_text "-") by (repeat constructor).
  assert (X : forall n m, ascii_text (hexEncode (firstn n (skipn m raw)))).
  { intros n m. apply hexEncode_ascii, Forall_take, Forall_drop, B. }
  repeat (apply ascii_app; [done |]). apply X.
Qed.

Lemma class_ascii k s : Forall (fun r => snd r < 128) k ->
  Forall (fun c => in_cls k c = true) (chars s) -> ascii_text s.
Proof.
  intros K H. eapply Forall_impl; [exact H |]. intros c X. unfold in_cls in X.
  apply existsb_exists in X as ([lo hi] & I & X). rewrite Forall_forall in K.
  apply list_elem_of_In, K in I. cbn in I. lia.
Qed.

Lemma id_pattern_ascii s : match_string id_pattern s = true -> ascii_text s.
Proof.
  intros H. apply (class_ascii id_class); [repeat constructor; lia | by apply id_pattern_class].
Qed.
