(* ===== verification/JsonStrict.v ===== *)
(** * encoding/json: a decoder with DisallowUnknownFields

    [json.NewDecoder(...)] with [DisallowUnknownFields], one [Decode] into a struct
    and a second [Decode] that must meet the end of the input.  A member that no
    field takes is an error; otherwise the struct is filled as by [Unmarshal]. *)

From Stdlib Require Import ZArith Bool Lia.
From stdpp Require Import base strings list.
From S2P Require Import Prelude Regex GoStd JsonDecoder JsonEncode JsonUnmarshal JsonRoundTrip.

Definition set_known {A} (fields : list (field A)) (acc : option A) (m : string * jtree) : option A :=
  match acc, field_for fields (fst m) with
  | Some a, Some f => snd f (snd m) a
  | _, _ => None
  end.

Definition struct_known {A} (fields : list (field A)) (t : jtree) (a : A) : option A :=
  match t with
  | TreeNull => Some a
  | TreeObject ms => fold_left (set_known fields) ms (Some a)
  | _ => None
  end.

Definition DecodeStrict {A} (fields : list (field A)) (raw : string) (a : A) : option A :=
  match parse (to_bytes raw) with
  | Some t => struct_known fields t a
  | None => None
  end.

(** A signed integer field. *)
Definition into_int {A} (set : Z -> A -> A) (t : jtree) (a : A) : option A :=
  match t with
  | TreeNull => Some a
  | _ => option_map (fun n => set n a) (as_int t 0)
  end.

(** ** Strict and lenient decoding agree on known members *)

Definition known {A} (fields : list (field A)) (key : string) : bool :=
  is_some (field_for fields key).

Lemma set_known_fold {A} (fields : list (field A)) ms : forall acc,
  Forall (fun m => known fields (fst m) = true) ms ->
  fold_left (set_known fields) ms acc = fold_left (set_member fields) ms acc.
Proof.
  induction ms as [| m ms IH]; intros acc H; [done |]. apply Forall_cons in H as [K H].
  cbn [fold_left]. rewrite IH by done. f_equal. unfold set_known, set_member, known in *.
  destruct acc as [a |]; [| done]. by destruct (field_for fields (fst m)).
Qed.

Lemma set_known_none {A} (fields : list (field A)) ms : fold_left (set_known fields) ms None = None.
Proof. induction ms as [| m ms IH]; cbn; [done | exact IH]. Qed.

(** Unknown members are the only thing the strict decoder refuses more. *)
Lemma strict_lenient {A} (fields : list (field A)) raw a b :
  DecodeStrict fields raw a = Some b -> Unmarshal fields raw a = Some b.
Proof.
  unfold DecodeStrict, Unmarshal. destruct (parse _) as [t |]; [| done].
  destruct t as [| | | | | ms]; cbn [struct_known struct]; try done.
  revert a. induction ms as [| m ms IH]; intros a; [done |]. cbn [fold_left].
  unfold set_known at 2, set_member at 2. destruct (field_for fields (fst m)) as [f |].
  - destruct (snd f (snd m) a) as [a' |]; [apply IH |].
    by rewrite set_known_none.
  - by rewrite set_known_none.
Qed.

Lemma flat_fields_keys ms : forall ts, flat_fields ms = Some ts -> map fst ts = map fst ms.
Proof.
  induction ms as [| [k x] ms IH]; cbn [flat_fields]; intros ts E; [by injection E as <- |].
  destruct (flat_tree x), (flat_fields ms) as [ts' |], (ValidString k); try discriminate E.
  injection E as <-. cbn. by rewrite (IH ts' eq_refl).
Qed.

(** A struct of scalars with known names is decoded by its setters, in order. *)
Lemma strict_roundtrip {A} (fields : list (field A)) ms fs raw a :
  Marshal (JStruct ms) = Some raw -> Forall scalar_ok ms -> ms <> [] ->
  Forall2 (accepts fields) ms fs ->
  DecodeStrict fields raw a = Some (fold_left (fun x f => f x) fs a).
Proof.
  intros E S N F. pose proof E as E'. unfold Marshal in E'. rewrite encode_struct in E'.
  destruct (encode_fields ms) as [l |] eqn:El; [| discriminate E'].
  destruct (flat_fields_some ms S l El) as [ts T].
  pose proof (unmarshal_marshal fields ms fs raw ts a E T N F) as U.
  unfold DecodeStrict, Unmarshal in *. rewrite (struct_roundtrip ms raw ts E T N) in *.
  cbn [struct struct_known] in *. rewrite set_known_fold; [exact U |].
  assert (K : Forall (fun k => known fields k = true) (map fst ts)).
  { rewrite (flat_fields_keys ms ts T). clear -F.
    induction F as [| m f ms fs (g & G & _) _ IH]; cbn; constructor; [| done].
    unfold known. by rewrite G. }
  clear -K. induction ts as [| m ts IH]; [constructor |]. cbn in K. apply Forall_cons in K as [H K].
  constructor; [done | by apply IH].
Qed.

Lemma into_int_flat {A} (set : Z -> A -> A) n t a : n <= max_int64 ->
  flat_tree (JUint n) = Some t -> into_int set t a = Some (set n a).
Proof.
  intros L. cbn [flat_tree]. destruct (_ && _) eqn:B; [| discriminate].
  assert (U : is_u64 n) by (unfold is_u64; lia).
  intros [= <-]. cbn [into_int as_int].
  pose proof (parse_decimal n U) as P. destruct (decimal_cons n U) as (c & l & Ec & D).
  rewrite Ec in *. unfold is_digit in D. replace (c =? 45) with false by lia. rewrite P.
  by replace (n <=? max_int64) with true by lia.
Qed.
