(* ===== verification/Base64Url.v ===== *)
(** * encoding/base64: RawURLEncoding

    The unpadded URL alphabet, as cursors and signatures are written: the encoder,
    the decoder with and without [Strict], and that decoding inverts encoding. *)

From Stdlib Require Import ZArith Bool Lia Ascii.
From stdpp Require Import base strings list.
From S2P Require Import Prelude Regex GoStd JsonDecoder JsonEncode JsonUnmarshal JsonRoundTrip.

Definition url64_char (v : Z) : Z :=
  if v <? 26 then 65 + v
  else if v <? 52 then 97 + (v - 26)
  else if v <? 62 then 48 + (v - 52)
  else if v =? 62 then 45 else 95.

Fixpoint url64 (data : list Z) : list Z :=
  match data with
  | [] => []
  | [a] => [url64_char (a / 4); url64_char (a mod 4 * 16)]
  | [a; b] => [url64_char (a / 4); url64_char (a mod 4 * 16 + b / 16); url64_char (b mod 16 * 4)]
  | a :: b :: c :: rest =>
      [url64_char (a / 4); url64_char (a mod 4 * 16 + b / 16);
       url64_char (b mod 16 * 4 + c / 64); url64_char (c mod 64)] ++ url64 rest
  end.

Definition url64_value (c : Z) : option Z :=
  if (65 <=? c) && (c <=? 90) then Some (c - 65)
  else if (97 <=? c) && (c <=? 122) then Some (c - 71)
  else if (48 <=? c) && (c <=? 57) then Some (c + 4)
  else if c =? 45 then Some 62
  else if c =? 95 then Some 63
  else None.

(** Bits beyond the last byte are not checked. *)
Fixpoint url64_decode (text : list Z) : option (list Z) :=
  match text with
  | [] => Some []
  | [_] => None
  | [a; b] =>
      match url64_value a, url64_value b with
      | Some x, Some y => Some [x * 4 + y / 16]
      | _, _ => None
      end
  | [a; b; c] =>
      match url64_value a, url64_value b, url64_value c with
      | Some x, Some y, Some z => Some [x * 4 + y / 16; y mod 16 * 16 + z / 4]
      | _, _, _ => None
      end
  | a :: b :: c :: d :: rest =>
      match url64_value a, url64_value b, url64_value c, url64_value d with
      | Some x, Some y, Some z, Some w =>
          option_map (app [x * 4 + y / 16; y mod 16 * 16 + z / 4; z mod 4 * 64 + w]) (url64_decode rest)
      | _, _, _, _ => None
      end
  end.

(** [EncodeToString] and [DecodeString]; the decoder skips line breaks. *)
Definition EncodeToString (data : list Z) : string := of_bytes (url64 data).

Definition DecodeString (s : string) : option (list Z) :=
  url64_decode (List.filter (fun c => negb (line_break c)) (to_bytes s)).

(** [RawURLEncoding.Strict()]: the bits beyond the last byte must be zero, so the
    text is the one the encoder writes (line breaks apart). *)
Definition DecodeStrictString (s : string) : option (list Z) :=
  let text := List.filter (fun c => negb (line_break c)) (to_bytes s) in
  match url64_decode text with
  | Some data => if url64 data == text then Some data else None
  | None => None
  end.

(** ** The encoding inverts *)

Lemma url64_value_char v : 0 <= v < 64 -> url64_value (url64_char v) = Some v.
Proof.
  intros H. pose (f v := match url64_value (url64_char v) with Some w => w =? v | None => false end).
  assert (E : f v = true) by (apply (below_dec 64 f); [vm_compute; reflexivity | lia]).
  unfold f in E. destruct (url64_value _); [f_equal; lia | discriminate E].
Qed.

(** A byte of the alphabet: no full stop, no line break. *)
Definition url64_byte (c : Z) : bool :=
  (0 <=? c) && (c <? 256) && negb (line_break c) && negb (c =? 46).

Lemma url64_char_byte v : 0 <= v < 64 -> url64_byte (url64_char v) = true.
Proof.
  intros H. apply (below_dec 64 (fun v => url64_byte (url64_char v))); [vm_compute; reflexivity | lia].
Qed.

(** Induction on byte slices three bytes at a time. *)
Lemma triples_ind (P : list Z -> Prop) :
  P [] -> (forall a, P [a]) -> (forall a b, P [a; b]) ->
  (forall a b c l, P l -> P (a :: b :: c :: l)) -> forall l, P l.
Proof.
  intros H0 H1 H2 H3 l. remember (length l) as n eqn:E. revert l E.
  induction n as [n IH] using (well_founded_induction lt_wf). intros l ->.
  destruct l as [| a [| b [| c l]]]; auto. apply H3. eapply IH; [| reflexivity]. cbn. lia.
Qed.

Ltac sextet :=
  match goal with
  | |- _ = _ => Z.div_mod_to_equations; lia
  | |- _ <= _ < _ => Z.div_mod_to_equations; lia
  end.

Lemma url64_roundtrip l : Forall is_byte l -> url64_decode (url64 l) = Some l.
Proof.
  unfold is_byte. induction l as [| a | a b | a b c l IH] using triples_ind; intros F; [done | | |];
    repeat (apply Forall_cons in F as [? F]); cbn [url64 url64_decode app];
    rewrite !url64_value_char by sextet; cbn [option_map];
    [| | rewrite IH by done; cbn [option_map app]]; repeat f_equal; sextet.
Qed.

Lemma url64_bytes l : Forall is_byte l -> Forall (fun c => url64_byte c = true) (url64 l).
Proof.
  unfold is_byte. induction l as [| a | a b | a b c l IH] using triples_ind; intros F; [constructor | | |];
    repeat (apply Forall_cons in F as [? F]); cbn [url64 app];
    repeat (apply Forall_cons; split; [apply url64_char_byte; sextet |]); auto.
Qed.

Lemma url64_length l : 3 * Z.of_nat (length (url64 l)) <= 4 * Z.of_nat (length l) + 2.
Proof. induction l as [| a | a b | a b c l IH] using triples_ind; cbn [url64 app length]; lia. Qed.

Lemma EncodeToString_bytes l : Forall is_byte l -> to_bytes (EncodeToString l) = url64 l.
Proof.
  intros F. apply to_bytes_of_bytes. eapply Forall_impl; [exact (url64_bytes l F) |].
  intros c. unfold url64_byte, is_byte. lia.
Qed.

Lemma DecodeString_EncodeToString l : Forall is_byte l -> DecodeString (EncodeToString l) = Some l.
Proof.
  intros F. unfold DecodeString. rewrite EncodeToString_bytes by done.
  replace (List.filter _ (url64 l)) with (url64 l); [by apply url64_roundtrip |].
  pose proof (url64_bytes l F) as B. induction B as [| c t H _ IH]; cbn; [done |].
  unfold url64_byte in H. apply andb_true_iff in H as [H _]. apply andb_true_iff in H as [_ ->].
  by rewrite <- IH.
Qed.

Lemma EncodeToString_no_dot l : Forall is_byte l -> no_byte 46 (EncodeToString l) = true.
Proof.
  intros F. unfold no_byte. rewrite EncodeToString_bytes by done.
  pose proof (url64_bytes l F) as B. apply forallb_forall. intros c I. rewrite Forall_forall in B.
  apply list_elem_of_In, B in I. unfold url64_byte in I. by apply andb_true_iff in I as [_ I].
Qed.

Lemma len_EncodeToString l : Forall is_byte l -> 3 * len (EncodeToString l) <= 4 * Z.of_nat (length l) + 2.
Proof. intros F. rewrite <- length_to_bytes, EncodeToString_bytes by done. apply url64_length. Qed.
