(* ===== verification/Cursor.v ===== *)
(** * internal/primitives/cursor.go: authenticated pagination cursors

    A cursor is marshalled, written in unpadded URL base64, and signed with
    HMAC-SHA256 over the version and the encoded payload.  The codec holds the key;
    the instant its clock shows is an argument.  Proved: a cursor that was encoded
    decodes to itself until it expires, and only in the context it was made for; a
    token that decodes carries the MAC of its own payload, so changing the payload
    under an issued signature needs a collision of the MAC. *)

From Stdlib Require Import ZArith Bool Lia Ascii.
From stdpp Require Import base strings list.
From S2P Require Import Prelude Regex GoStd JsonDecoder JsonEncode JsonUnmarshal JsonRoundTrip.
From S2P Require Import JsonStrict Base64Url Primitives Sha256.

(** ** crypto/hmac over SHA-256 *)

Definition hmac (key msg : list Z) : list Z :=
  let k := if 64 <? Z.of_nat (length key) then Sum256 key else key in
  let block := k ++ repeat 0 (64 - length k) in
  Sum256 (map (Z.lxor 92) block ++ Sum256 (map (Z.lxor 54) block ++ msg)).

(** ** strings.Split on a full stop *)

Fixpoint Split (s : string) : list string :=
  match s with
  | EmptyString => [""]
  | String c rest =>
      if byte_val c =? 46 then "" :: Split rest
      else match Split rest with
           | p :: ps => String c p :: ps
           | [] => [String c ""]
           end
  end.

(** ** The cursor *)

Definition maxCursorPayload : Z := 4096.

Inductive CursorError : Type := ErrInvalidCursor.

Record Cursor : Type := mkCursor {
  TenantID : string;
  PrincipalID : string;
  SecurityEpoch : Z;
  Route : string;
  APIVersion : string;
  QueryDigest : string;
  LastKey : string;
  PageSizeCeiling : Z;
  Snapshot : string;
  Retention : string;
  ExpiresAt : Time
}.

#[export] Instance Cursor_eq_dec : EqDecision Cursor.
Proof. solve_decision. Defined.

Record CursorContext : Type := mkContext {
  ctxTenantID : string;
  ctxPrincipalID : string;
  ctxSecurityEpoch : Z;
  ctxRoute : string;
  ctxAPIVersion : string;
  ctxQueryDigest : string
}.

#[export] Instance CursorContext_eq_dec : EqDecision CursorContext.
Proof. solve_decision. Defined.

Record CursorCodec : Type := mkCodec { key : list Z }.

(** [has_clock] says that the clock argument is not nil. *)
Definition NewCursorCodec (k : list Z) (has_clock : bool) : option CursorCodec :=
  if (Z.of_nat (length k) <? 32) || negb has_clock then None else Some (mkCodec k).

(** [_, err := BoundedString(field, minimum, 512, 512)] without an error. *)
Definition field_ok (minimum : Z) (field : string) : bool :=
  is_ok (BoundedString field minimum 512 512).

Definition validateCursor (value : Cursor) (now : Time) : result CursorError unit :=
  if negb (forallb (field_ok 1) [TenantID value; PrincipalID value; Route value; APIVersion value;
                                 QueryDigest value; LastKey value]) then Err ErrInvalidCursor
  else if negb (forallb (field_ok 0) [Snapshot value; Retention value]) then Err ErrInvalidCursor
  else if (PageSizeCeiling value <? 1) || (200 <? PageSizeCeiling value)
          || (loc (ExpiresAt value) != LocUTC) || negb (After (ExpiresAt value) (UTC now))
  then Err ErrInvalidCursor
  else Ok tt.

Definition sign (c : CursorCodec) (payload : string) : list Z :=
  hmac (key c) (to_bytes ("v1." +:+ payload)).

(** The JSON members of a cursor, in the order of the struct's fields. *)
Definition cursor_members (v : Cursor) : list (string * jvalue) :=
  [("tenant_id", JString (TenantID v)); ("principal_id", JString (PrincipalID v));
   ("security_epoch", JUint (SecurityEpoch v)); ("route", JString (Route v));
   ("api_version", JString (APIVersion v)); ("query_digest", JString (QueryDigest v));
   ("last_key", JString (LastKey v)); ("page_size_ceiling", JUint (PageSizeCeiling v))]
  ++ omitempty "snapshot" (Snapshot v) ++ omitempty "retention" (Retention v)
  ++ [("expires_at", JTime (ExpiresAt v))].

Definition Encode (c : CursorCodec) (now : Time) (value : Cursor) : result CursorError string :=
  let! _ := validateCursor value now in
  match Marshal (JStruct (cursor_members value)) with
  | None => Err ErrInvalidCursor
  | Some payload =>
      if maxCursorPayload <? len payload then Err ErrInvalidCursor
      else
        let encoded := EncodeToString (to_bytes payload) in
        Ok ("v1." +:+ encoded +:+ "." +:+ EncodeToString (sign c encoded))
  end.

(** *** Decoding *)

Definition zeroCursor : Cursor := mkCursor "" "" 0 "" "" "" "" 0 "" "" zeroTime.

Definition set_TenantID (x : string) (v : Cursor) : Cursor :=
  mkCursor x (PrincipalID v) (SecurityEpoch v) (Route v) (APIVersion v) (QueryDigest v) (LastKey v)
    (PageSizeCeiling v) (Snapshot v) (Retention v) (ExpiresAt v).
Definition set_PrincipalID (x : string) (v : Cursor) : Cursor :=
  mkCursor (TenantID v) x (SecurityEpoch v) (Route v) (APIVersion v) (QueryDigest v) (LastKey v)
    (PageSizeCeiling v) (Snapshot v) (Retention v) (ExpiresAt v).
Definition set_SecurityEpoch (x : Z) (v : Cursor) : Cursor :=
  mkCursor (TenantID v) (PrincipalID v) x (Route v) (APIVersion v) (QueryDigest v) (LastKey v)
    (PageSizeCeiling v) (Snapshot v) (Retention v) (ExpiresAt v).
Definition set_Route (x : string) (v : Cursor) : Cursor :=
  mkCursor (TenantID v) (PrincipalID v) (SecurityEpoch v) x (APIVersion v) (QueryDigest v) (LastKey v)
    (PageSizeCeiling v) (Snapshot v) (Retention v) (ExpiresAt v).
Definition set_APIVersion (x : string) (v : Cursor) : Cursor :=
  mkCursor (TenantID v) (PrincipalID v) (SecurityEpoch v) (Route v) x (QueryDigest v) (LastKey v)
    (PageSizeCeiling v) (Snapshot v) (Retention v) (ExpiresAt v).
Definition set_QueryDigest (x : string) (v : Cursor) : Cursor :=
  mkCursor (TenantID v) (PrincipalID v) (SecurityEpoch v) (Route v) (APIVersion v) x (LastKey v)
    (PageSizeCeiling v) (Snapshot v) (Retention v) (ExpiresAt v).
Definition set_LastKey (x : string) (v : Cursor) : Cursor :=
  mkCursor (TenantID v) (PrincipalID v) (SecurityEpoch v) (Route v) (APIVersion v) (QueryDigest v) x
    (PageSizeCeiling v) (Snapshot v) (Retention v) (ExpiresAt v).
Definition set_PageSizeCeiling (x : Z) (v : Cursor) : Cursor :=
  mkCursor (TenantID v) (PrincipalID v) (SecurityEpoch v) (Route v) (APIVersion v) (QueryDigest v) (LastKey v)
    x (Snapshot v) (Retention v) (ExpiresAt v).
Definition set_Snapshot (x : string) (v : Cursor) : Cursor :=
  mkCursor (TenantID v) (PrincipalID v) (SecurityEpoch v) (Route v) (APIVersion v) (QueryDigest v) (LastKey v)
    (PageSizeCeiling v) x (Retention v) (ExpiresAt v).
Definition set_Retention (x : string) (v : Cursor) : Cursor :=
  mkCursor (TenantID v) (PrincipalID v) (SecurityEpoch v) (Route v) (APIVersion v) (QueryDigest v) (LastKey v)
    (PageSizeCeiling v) (Snapshot v) x (ExpiresAt v).
Definition set_ExpiresAt (x : Time) (v : Cursor) : Cursor :=
  mkCursor (TenantID v) (PrincipalID v) (SecurityEpoch v) (Route v) (APIVersion v) (QueryDigest v) (LastKey v)
    (PageSizeCeiling v) (Snapshot v) (Retention v) x.

Definition cursor_fields : list (field Cursor) :=
  [("tenant_id", into_string set_TenantID); ("principal_id", into_string set_PrincipalID);
   ("security_epoch", into_uint set_SecurityEpoch); ("route", into_string set_Route);
   ("api_version", into_string set_APIVersion); ("query_digest", into_string set_QueryDigest);
   ("last_key", into_string set_LastKey); ("page_size_ceiling", into_int set_PageSizeCeiling);
   ("snapshot", into_string set_Snapshot); ("retention", into_string set_Retention);
   ("expires_at", into_time set_ExpiresAt)].

Definition Decode (c : CursorCodec) (now : Time) (token : string) : result CursorError Cursor :=
  if 8192 <? len token then Err ErrInvalidCursor
  else match Split token with
  | [version; encoded; mac] =>
      if version != "v1" then Err ErrInvalidCursor
      else match DecodeString mac with
      | None => Err ErrInvalidCursor
      | Some signature =>
          if signature != sign c encoded then Err ErrInvalidCursor
          else match DecodeString encoded with
          | None => Err ErrInvalidCursor
          | Some payload =>
              if maxCursorPayload <? Z.of_nat (length payload) then Err ErrInvalidCursor
              else match DecodeStrict cursor_fields (of_bytes payload) zeroCursor with
              | None => Err ErrInvalidCursor
              | Some value => let! _ := validateCursor value now in Ok value
              end
          end
      end
  | _ => Err ErrInvalidCursor
  end.

Definition context_of (v : Cursor) : CursorContext :=
  mkContext (TenantID v) (PrincipalID v) (SecurityEpoch v) (Route v) (APIVersion v) (QueryDigest v).

Definition DecodeFor (c : CursorCodec) (now : Time) (token : string) (expected : CursorContext)
  : result CursorError Cursor :=
  let! value := Decode c now token in
  if (TenantID value != ctxTenantID expected) || (PrincipalID value != ctxPrincipalID expected)
     || (SecurityEpoch value != ctxSecurityEpoch expected) || (Route value != ctxRoute expected)
     || (APIVersion value != ctxAPIVersion expected) || (QueryDigest value != ctxQueryDigest expected)
  then Err ErrInvalidCursor
  else Ok value.

(** RFC 4231, test case 2. *)
Example hmac_vector :
  hexEncode (hmac (to_bytes "Jefe") (to_bytes "what do ya want for nothing?"))
  = "5bdcc146bf60754e6a042426089575c75a003f089d2739839dec58b964ec3843".
Proof. vm_compute. reflexivity. Qed.

(** ** Splitting a token *)

Lemma Split_cons a b : no_byte 46 a = true -> Split (a +:+ "." +:+ b) = a :: Split b.
Proof.
  induction a as [| c a IH]; intros H; [done |]. rewrite append_cons. cbn [Split].
  unfold no_byte in *. cbn in H. apply andb_true_iff in H as [Hc H].
  apply negb_true_iff in Hc. rewrite Hc, IH by exact H. done.
Qed.

Lemma Split_single a : no_byte 46 a = true -> Split a = [a].
Proof.
  induction a as [| c a IH]; intros H; [done |]. cbn [Split]. unfold no_byte in *. cbn in H.
  apply andb_true_iff in H as [Hc H]. apply negb_true_iff in Hc. by rewrite Hc, IH.
Qed.

(** ** Encoded cursors *)

Lemma sign_shape c payload : length (sign c payload) = 32%nat /\ Forall is_byte (sign c payload).
Proof. unfold sign, hmac. apply Sum256_shape. Qed.

Record valid_cursor (v : Cursor) : Prop := {
  valid_texts : Forall (fun s => ValidString s = true)
    [TenantID v; PrincipalID v; Route v; APIVersion v; QueryDigest v; LastKey v; Snapshot v; Retention v];
  valid_page : 1 <= PageSizeCeiling v <= 200;
  valid_utc : is_utc (ExpiresAt v)
}.

Lemma field_ok_valid m s : field_ok m s = true -> ValidString s = true.
Proof.
  unfold field_ok, BoundedString. intros H. destruct (_ || _) in H; [done |].
  destruct (ValidString s); [done | discriminate H].
Qed.

Lemma validateCursor_ok v now u :
  validateCursor v now = Ok u -> valid_cursor v /\ After (ExpiresAt v) now = true.
Proof.
  unfold validateCursor. intros H. ok_inv H. cbn [forallb] in *. simp_bool.
  repeat match goal with F : field_ok _ _ = true |- _ => apply field_ok_valid in F end.
  split; [split; [by repeat constructor | lia | done] |].
  match goal with A : After _ _ = true |- _ => exact A end.
Qed.

(** Only the clock separates two validations of one cursor. *)
Lemma validateCursor_later v now now' u :
  validateCursor v now = Ok u ->
  validateCursor v now' = if After (ExpiresAt v) now' then Ok tt else Err ErrInvalidCursor.
Proof.
  unfold validateCursor. intros H. ok_inv H. cbn [negb].
  repeat match goal with E : ?b = true |- context [?b] => rewrite E end. cbn [negb].
  change (After (ExpiresAt v) (UTC now')) with (After (ExpiresAt v) now').
  replace (PageSizeCeiling v <? 1) with false. replace (200 <? PageSizeCeiling v) with false.
  rewrite bool_decide_true by done. by destruct (After (ExpiresAt v) now').
Qed.

(** The payload of an encoded cursor decodes to the cursor. *)
Lemma cursor_json v payload :
  valid_cursor v -> is_u64 (SecurityEpoch v) -> Marshal (JStruct (cursor_members v)) = Some payload ->
  DecodeStrict cursor_fields payload zeroCursor = Some v.
Proof.
  intros [T P U] E M. repeat (apply Forall_cons in T as [? T]).
  assert (Z64 : is_u64 (PageSizeCeiling v)) by (unfold is_u64, two64; lia).
  unfold cursor_members, omitempty in M.
  assert (UT : UTC (ExpiresAt v) = ExpiresAt v) by (by apply UTC_of_utc).
  assert (L : PageSizeCeiling v <= max_int64) by (unfold max_int64; lia).
  destruct (bool_decide_reflect (Snapshot v = "")) as [S | S],
    (bool_decide_reflect (Retention v = "")) as [R | R]; cbn [app] in M;
    (erewrite strict_roundtrip;
      [| exact M | scalars_auto | done
       | repeat (apply Forall2_cons; split; [eexists; split; [reflexivity |]; intros ? ? ?; cbn [snd fst];
           first [by apply into_string_flat | by apply into_uint_flat | by apply into_int_flat
                 | by apply into_time_flat] |]); by apply Forall2_nil]);
    cbn [fold_left]; destruct v; cbn in *; subst; by rewrite UT.
Qed.

(** What [Encode] returns. *)
Lemma Encode_ok c now v token :
  Encode c now v = Ok token ->
  exists payload, validateCursor v now = Ok tt
    /\ Marshal (JStruct (cursor_members v)) = Some payload /\ len payload <= maxCursorPayload
    /\ token = "v1." +:+ EncodeToString (to_bytes payload) +:+ "."
               +:+ EncodeToString (sign c (EncodeToString (to_bytes payload))).
Proof.
  unfold Encode. intros H. destruct (validateCursor v now) as [[] |]; [| discriminate H]. cbn [rbind] in H.
  destruct (Marshal _) as [payload |]; [| discriminate H].
  destruct (Z.ltb_spec maxCursorPayload (len payload)); [discriminate H |]. injection H as <-. eauto.
Qed.

Lemma Split_token a b : no_byte 46 a = true -> no_byte 46 b = true ->
  Split ("v1." +:+ a +:+ "." +:+ b) = ["v1"; a; b].
Proof.
  intros Ha Hb. change ("v1." +:+ ?x) with ("v1" +:+ "." +:+ x). rewrite Split_cons by done.
  by rewrite Split_cons, Split_single.
Qed.

Lemma len_append a b : len (a +:+ b) = len a + len b.
Proof.
  unfold len. induction a as [| c a IH]; [done |]. rewrite append_cons. cbn [String.length]. lia.
Qed.

(** An issued token passes the checks on its form and its signature: what is left is
    the clock. *)
Lemma Decode_issued c now now' v token :
  is_u64 (SecurityEpoch v) -> Encode c now v = Ok token ->
  Decode c now' token = if After (ExpiresAt v) now' then Ok v else Err ErrInvalidCursor.
Proof.
  intros U H. destruct (Encode_ok c now v token H) as (payload & V & M & L & ->).
  set (encoded := EncodeToString (to_bytes payload)). destruct (sign_shape c encoded) as [SL SB].
  pose proof (to_bytes_range payload) as PB.
  assert (Le : 3 * len encoded <= 4 * len payload + 2).
  { rewrite <- (length_to_bytes payload). by apply len_EncodeToString. }
  assert (Ls : 3 * len (EncodeToString (sign c encoded)) <= 4 * 32 + 2).
  { pose proof (len_EncodeToString _ SB). lia. }
  assert (N : no_byte 46 encoded = true) by (by apply EncodeToString_no_dot).
  unfold Decode. replace (8192 <? len _) with false.
  2: { symmetry. apply Z.ltb_ge. rewrite !len_append. unfold maxCursorPayload in L.
       change (len "v1.") with 3. change (len ".") with 1. lia. }
  rewrite Split_token by (done || by apply EncodeToString_no_dot). cbn [negb bool_decide].
  rewrite bool_decide_true by done. cbn [negb].
  rewrite DecodeString_EncodeToString, bool_decide_true by done. cbn [negb]. unfold encoded.
  rewrite DecodeString_EncodeToString, length_to_bytes, of_bytes_to_bytes by done.
  replace (maxCursorPayload <? len payload) with false by lia.
  rewrite (cursor_json v payload (proj1 (validateCursor_ok v now tt V)) U M).
  rewrite (validateCursor_later v now now' tt V). by destruct (After (ExpiresAt v) now').
Qed.

(** An issued cursor decodes to itself exactly until it expires and exactly in the context it was
    issued for: another tenant, principal, security epoch, route, API version or
    query gets an error, and the token is never too long to be read back. *)
Theorem cursor_roundtrip c now now' v token expected :
  is_u64 (SecurityEpoch v) -> Encode c now v = Ok token ->
  DecodeFor c now' token expected
  = if After (ExpiresAt v) now' && (context_of v == expected) then Ok v else Err ErrInvalidCursor.
Proof.
  intros U H. unfold DecodeFor. rewrite (Decode_issued c now now' v token U H).
  destruct (After (ExpiresAt v) now'); [| done]. cbn [rbind andb].
  destruct (bool_decide_reflect (context_of v = expected)) as [<- | N]; cbn [context_of ctxTenantID
    ctxPrincipalID ctxSecurityEpoch ctxRoute ctxAPIVersion ctxQueryDigest].
  - by rewrite !bool_decide_true by done.
  - destruct (_ || _) eqn:B; [done |]. simp_bool. contradict N. destruct expected; cbn in *.
    unfold context_of. congruence.
Qed.

(** ** Tokens that decode *)

(** The third part of a token. *)
Definition signature_of (token : string) : string := nth 2 (Split token) "".

Lemma Decode_ok c now token v :
  Decode c now token = Ok v ->
  exists encoded payload,
    Split token = ["v1"; encoded; signature_of token]
    /\ DecodeString (signature_of token) = Some (sign c encoded)
    /\ DecodeString encoded = Some payload
    /\ DecodeStrict cursor_fields (of_bytes payload) zeroCursor = Some v
    /\ validateCursor v now = Ok tt.
Proof.
  unfold Decode, signature_of. intros H. destruct (8192 <? len token); [discriminate H |].
  destruct (Split token) as [| version [| encoded [| mac [|]]]]; try discriminate H. cbn [nth].
  destruct (bool_decide_reflect (version = "v1")) as [-> |]; [| discriminate H]. cbn [negb] in H.
  destruct (DecodeString mac) as [m |]; [| discriminate H].
  destruct (bool_decide_reflect (m = sign c encoded)) as [Em |]; [| discriminate H]. cbn [negb] in H.
  destruct (DecodeString encoded) as [payload |] eqn:D; [| discriminate H].
  destruct (_ <? _); [discriminate H |].
  destruct (DecodeStrict _ _ _) as [value |] eqn:S; [| discriminate H].
  destruct (validateCursor value now) as [[] |] eqn:V; [| discriminate H]. injection H as <-.
  exists encoded, payload. rewrite Em. auto.
Qed.

(** A token accepted under the signature of an issued token carries the issued
    cursor, or exhibits two messages with one MAC under the codec's key: without such
    a collision nothing of an issued cursor can be altered. *)
Theorem cursor_alteration_needs_collision c now now' v v' token token' :
  is_u64 (SecurityEpoch v) -> Encode c now v = Ok token ->
  Decode c now' token' = Ok v' -> signature_of token' = signature_of token ->
  v' = v \/ exists m m', m <> m' /\ hmac (key c) m = hmac (key c) m'.
Proof.
  intros U H D' S. destruct (decide (v' = v)) as [| N]; [by left |]. right.
  destruct (Encode_ok c now v token H) as (payload & V & M & _ & E).
  pose proof (to_bytes_range payload) as PB. set (encoded := EncodeToString (to_bytes payload)) in *.
  destruct (sign_shape c encoded) as [_ SB].
  destruct (Decode_ok c now' token' v' D') as (encoded' & payload' & _ & Q & P' & J' & _).
  rewrite S in Q. unfold signature_of in Q. rewrite E, Split_token in Q by (by apply EncodeToString_no_dot).
  cbn [nth] in Q. rewrite DecodeString_EncodeToString in Q by done. injection Q as Q.
  exists (to_bytes ("v1." +:+ encoded)), (to_bytes ("v1." +:+ encoded')). split; [| exact Q].
  intros X. apply (f_equal of_bytes) in X. rewrite !of_bytes_to_bytes in X.
  assert (encoded = encoded') as <- by (by injection X).
  unfold encoded in P'. rewrite DecodeString_EncodeToString in P' by done. injection P' as <-.
  rewrite of_bytes_to_bytes in J'.
  rewrite (cursor_json v payload (proj1 (validateCursor_ok v now tt V)) U M) in J'. congruence.
Qed.

(** ** Witnesses *)

Definition sample_cursor : Cursor :=
  mkCursor id1 "principal" 7 "/v1/sessions" "v1" digest_a "a<b" 50 "" "30d" (at_second 60).

Definition sample_codec : CursorCodec := mkCodec (repeat 7 32).

Lemma sample_encodes : is_ok (Encode sample_codec (at_second 0) sample_cursor) = true.
Proof. vm_compute. reflexivity. Qed.

Lemma cursor_roundtrip_witness :
  exists token, DecodeFor sample_codec (at_second 59) token (context_of sample_cursor) = Ok sample_cursor.
Proof.
  pose proof sample_encodes as E.
  destruct (Encode sample_codec (at_second 0) sample_cursor) as [token |] eqn:T; [| discriminate E].
  exists token. refine (eq_trans (cursor_roundtrip _ _ (at_second 59) _ _ _ _ T) _).
  - split; reflexivity || (cbn; lia).
  - rewrite bool_decide_true by reflexivity. reflexivity.
Defined.

Lemma cursor_alteration_witness :
  exists token v', Decode sample_codec (at_second 59) token = Ok v'
    /\ (v' = sample_cursor
        \/ exists m m', m <> m' /\ hmac (key sample_codec) m = hmac (key sample_codec) m').
Proof.
  pose proof sample_encodes as E.
  destruct (Encode sample_codec (at_second 0) sample_cursor) as [token |] eqn:T; [| discriminate E].
  assert (U : is_u64 (SecurityEpoch sample_cursor)) by (split; reflexivity || (cbn; lia)).
  pose proof (Decode_issued _ _ (at_second 59) _ _ U T) as D.
  exists token, sample_cursor. split; [exact D |].
  exact (cursor_alteration_needs_collision _ _ _ _ _ _ _ U T D eq_refl).
Defined.
