(* ===== verification/Optimistic.v ===== *)
(** * Optimistic versioning

    What every versioned aggregate of the domain promises to its repository and
    to concurrent callers: a command presents the version it read, a stale
    command is refused, and an effective command advances the version by one.
    The consequences for interleaved commands are proved once, against the
    interface. *)

From Stdlib Require Import ZArith Bool Lia.
From stdpp Require Import base list.
From S2P Require Import Prelude.

Class Versioned (A Op E : Type) := {
  version : A -> Z;
  presented : Op -> Z;
  apply : A -> Op -> result E A;
  apply_stale : forall a op a', apply a op = Ok a' -> presented op = version a;
  apply_advance : forall a op a', apply a op = Ok a' -> a' = a \/ version a' = u64 (version a + 1)
}.

Section Interleavings.
Context {A Op E : Type} {V : Versioned A Op E}.

(** A refused command leaves the aggregate as it was. *)
Definition attempt_command (a : A) (op : Op) : A :=
  match apply a op with
  | Ok a' => a'
  | Err _ => a
  end.

(** Commands in the order in which they reach the aggregate. *)
Definition run_commands (a : A) (ops : list Op) : A := fold_left attempt_command ops a.

Lemma attempt_command_cases a op :
  attempt_command a op = a
  \/ (exists a', apply a op = Ok a' /\ attempt_command a op = a'
                 /\ version a' = u64 (version a + 1)).
Proof.
  unfold attempt_command. destruct (apply a op) as [a' | e] eqn:Ho; [| by left].
  destruct (apply_advance _ _ _ Ho) as [-> | Hv]; [by left | right; eauto].
Qed.

(** Once the version has moved on, commands prepared against the old one are lost. *)
Lemma stale_commands_lost a ops v :
  version a <> v -> Forall (fun op => presented op = v) ops -> run_commands a ops = a.
Proof.
  unfold run_commands. intros Hv H. induction H as [| op ops Hop Hops IH]; cbn; [done |].
  unfold attempt_command at 2. destruct (apply a op) as [a' | e] eqn:Ho; [| done].
  apply apply_stale in Ho. congruence.
Qed.

(** At most one of any number of commands prepared against the same version
    takes effect, in whatever order they arrive. *)
Lemma single_winner a ops v :
  is_u64 (version a) -> Forall (fun op => presented op = v) ops ->
  run_commands a ops = a
  \/ exists op, op ∈ ops /\ apply a op = Ok (run_commands a ops).
Proof.
  intros Hu H. unfold run_commands. induction H as [| op ops Hop Hops IH]; cbn; [by left |].
  destruct (attempt_command_cases a op) as [-> | (a' & Ho & -> & Hv)].
  - destruct IH as [-> | (w & Hw & Hok)]; [by left |].
    right. exists w. split; [by right | done].
  - right. exists op. split; [left |].
    pose proof (stale_commands_lost a' ops v) as L. unfold run_commands in L.
    rewrite L; [done | | done].
    rewrite Hv, <- Hop, (apply_stale _ _ _ Ho). by apply u64_succ_neq.
Qed.

(** The version counts the effective commands. *)
Lemma version_counts a ops :
  is_u64 (version a) ->
  exists n : nat, (n <= length ops)%nat
    /\ version (run_commands a ops) = u64 (version a + Z.of_nat n).
Proof.
  unfold run_commands. revert a. induction ops as [| op ops IH]; intros a Hu; cbn.
  - exists O. rewrite Z.add_0_r, u64_small by done. done.
  - destruct (attempt_command_cases a op) as [-> | (a' & _ & -> & Hv)].
    + destruct (IH a Hu) as (n & Hn & ->). exists n. split; [lia | done].
    + destruct (IH a') as (n & Hn & ->); [rewrite Hv; apply u64_range |].
      exists (S n). split; [lia |]. rewrite Hv. unfold u64.
      rewrite Zplus_mod_idemp_l. f_equal. lia.
Qed.

End Interleavings.
