(* ===== verification/CasStore.v ===== *)
(** * postgres/store.go: tables of versioned aggregates

    The repositories of sessions, executions, attempts and cleanup intents share one
    protocol: a caller reads an aggregate, applies a command of the domain, and writes
    the result under the version that it read ([... WHERE id=$2 AND state_version=$9]).
    The protocol is stated once, over the interface [Stored]; what it implies is that
    no update is ever lost: whoever writes computed the value from the row that is
    replaced, and a write based on an older row changes nothing ([updates_kept]); so every
    row is the outcome of a run of the domain's commands. *)

From Stdlib Require Import ZArith Bool Lia.
From stdpp Require Import base strings list.
From S2P Require Import Prelude GoStd Primitives Optimistic.

Class Stored (A Op E : Type) {V : Versioned A Op E} := {
  s_id : A -> ID;
  (** The value in the resolution of its columns. *)
  s_round : A -> A;
  (** The columns that an update assigns, the others being the row's. *)
  s_write : A -> A -> A;
  s_wf : A -> Prop;
  (** The row of a value that the domain created. *)
  s_new : A -> Prop;
  s_round_id : forall a, s_id (s_round a) = s_id a;
  s_round_version : forall a, version (s_round a) = version a;
  s_round_again : forall a, s_round (s_round a) = s_round a;
  s_round_wf : forall a, s_wf a -> s_wf (s_round a);
  s_new_wf : forall r, s_new r -> s_wf r /\ s_round r = r;
  s_apply_id : forall a op a', apply a op = Ok a' -> s_id a' = s_id a;
  s_apply_wf : forall a op a', s_wf a -> apply a op = Ok a' -> s_wf a';
  s_apply_write : forall a op a', s_wf a -> s_round a = a -> apply a op = Ok a' -> s_write a a' = s_round a'
}.

Section Cas.
Context {A Op E : Type} {V : Versioned A Op E} {S : Stored A Op E}.

(** [WHERE id=$2 AND state_version=$9] *)
Definition cas_row (v : A) (expected : Z) (r : A) : bool := (s_id r == s_id v) && (version r =? expected).

Definition cas_find (v : A) (expected : Z) (t : list A) : option A := List.find (cas_row v expected) t.

Definition cas_write (v : A) (expected : Z) (t : list A) : list A :=
  map (fun r => if cas_row v expected r then s_write r v else r) t.

(** ** What rows are *)

(** Commands of the domain, each result stored in the resolution of the columns. *)
Inductive stored_run : A -> Prop :=
| sr_new r : s_new r -> stored_run r
| sr_step r op v : stored_run r -> apply r op = Ok v -> stored_run (s_round v).

Lemma stored_run_wf r : stored_run r -> s_wf r /\ s_round r = r.
Proof.
  induction 1 as [r N | r op v _ [IH _] H]; [by apply s_new_wf |].
  split; [| apply s_round_again]. apply s_round_wf. by apply (s_apply_wf r op).
Qed.

(** A value that was read is the current row or an earlier one. *)
Definition cas_past (t : list A) (m : A) : Prop :=
  exists r, r ∈ t /\ s_id r = s_id m /\ (version m < version r \/ m = r).

Record cas_ok (t held : list A) : Prop := {
  ck_ids : NoDup (map s_id t);
  ck_runs : Forall stored_run t;
  ck_versions : Forall (fun r => 0 <= version r <= max_int64) t;
  ck_past : Forall (cas_past t) held
}.

Lemma cas_empty : cas_ok [] [].
Proof. split; constructor. Qed.

(** An insertion under a new identifier. *)
Lemma cas_add t held a : cas_ok t held -> s_new a -> 0 <= version a <= max_int64 -> s_id a ∉ map s_id t ->
  cas_ok (a :: t) held.
Proof.
  intros [N R B P] Na Va Ia. split.
  - cbn. by apply NoDup_cons.
  - constructor; [by constructor | done].
  - by constructor.
  - eapply Forall_impl; [exact P |]. intros m (r & X & H). exists r. split; [by right | done].
Qed.

Lemma cas_get t held r : cas_ok t held -> r ∈ t -> cas_ok t (r :: held).
Proof. intros [N R B P] I. split; try done. constructor; [| done]. exists r. auto. Qed.

(** No lost update: the value was computed from the row that it replaces. *)
Lemma cas_current t held m op v r :
  cas_ok t held -> m ∈ held -> apply m op = Ok v -> cas_find v (version m) t = Some r -> r = m /\ m ∈ t.
Proof.
  intros [N R B P] M H F. apply find_some in F as [I F]. apply list_elem_of_In in I.
  unfold cas_row in F. apply andb_true_iff in F as [F1 F2]. apply bool_decide_eq_true in F1. apply Z.eqb_eq in F2.
  rewrite Forall_forall in P. destruct (P m M) as (x & X & Ex & Hx).
  assert (x = r) as ->. { apply (keyed s_id t); try done. rewrite Ex, F1. symmetry. by eapply s_apply_id. }
  destruct Hx as [Hx | ->]; [lia | done].
Qed.

(** What a caller may rely on when it writes back: every value that was read is the row or an
    earlier version of it, a write that succeeds replaces exactly the row that was read by the
    caller's value, and one that fails changes nothing. *)
Definition updates_kept {X} (t held : list A) (update : A -> Z -> list A * result X unit) : Prop :=
  Forall (cas_past t) held
  /\ forall m op v, m ∈ held -> apply m op = Ok v ->
       match update v (version m) with
       | (t', Ok _) => m ∈ t /\ t' = map (fun r => if s_id r == s_id m then s_round v else r) t
       | (t', Err _) => t' = t
       end.

Lemma cas_written t held m op v r : cas_ok t held -> m ∈ held -> apply m op = Ok v ->
  cas_find v (version m) t = Some r ->
  m ∈ t /\ cas_write v (version m) t = map (fun r => if s_id r == s_id m then s_round v else r) t.
Proof.
  intros C M H F. destruct (cas_current t held m op v r C M H F) as [-> I]. split; [done |]. destruct C as [N R _ _].
  pose proof (s_apply_id m op v H) as Iv. rewrite Forall_forall in R. destruct (stored_run_wf m (R m I)) as [W Rm].
  apply map_ext_in. intros x X. apply list_elem_of_In in X. unfold cas_row. rewrite Iv.
  destruct (bool_decide_reflect (s_id x = s_id m)) as [Ex |]; [| done].
  assert (x = m) as -> by by apply (keyed s_id t). rewrite Z.eqb_refl. exact (s_apply_write m op v W Rm H).
Qed.

Lemma cas_updates_kept {X} t held (update : A -> Z -> list A * result X unit) : cas_ok t held ->
  (forall v e t' x, update v e = (t', Err x) -> t' = t) ->
  (forall m op v t' u, m ∈ held -> apply m op = Ok v -> update v (version m) = (t', Ok u) ->
     (exists r, cas_find v (version m) t = Some r) /\ t' = cas_write v (version m) t) ->
  updates_kept t held update.
Proof.
  intros C F W. split; [apply C |]. intros m op v M H. destruct (update v (version m)) as [t' [u | x]] eqn:U; [| by eapply F].
  destruct (W m op v t' u M H U) as [[r Fr] ->]. exact (cas_written t held m op v r C M H Fr).
Qed.

Lemma cas_row_only t v e r x : NoDup (map s_id t) -> r ∈ t -> x ∈ t -> s_id r = s_id v -> cas_row v e x = true -> x = r.
Proof.
  intros N R X Ir H. unfold cas_row in H. apply andb_true_iff in H as [H _]. apply bool_decide_eq_true in H.
  apply (keyed s_id t); try done. congruence.
Qed.

Lemma cas_update t held m op v r :
  cas_ok t held -> m ∈ held -> apply m op = Ok v -> cas_find v (version m) t = Some r -> version v <= max_int64 ->
  cas_ok (cas_write v (version m) t) held
  /\ forall x, x ∈ cas_write v (version m) t -> (x ∈ t /\ s_id x <> s_id m) \/ x = s_round v.
Proof.
  intros C M H F Bv. destruct (cas_current t held m op v r C M H F) as [-> I]. destruct C as [N R B P].
  pose proof (s_apply_id m op v H) as Iv. rewrite Forall_forall in R, B.
  destruct (stored_run_wf m (R m I)) as [W Rm].
  assert (Wr : forall x, x ∈ t -> cas_row v (version m) x = true -> x = m /\ s_write x v = s_round v).
  { intros x X Hx. assert (x = m) as -> by (apply (cas_row_only t v (version m) m x); done).
    split; [done |]. exact (s_apply_write m op v W Rm H). }
  assert (Vv : version m <= version v).
  { destruct (apply_advance m op v H) as [-> | ->]; [lia |]. specialize (B m I). rewrite u64_succ_small; [lia |].
    unfold max_int64, two64 in *. lia. }
  assert (Bm := B m I). split; [split |].
  - unfold cas_write. rewrite map_map. erewrite map_ext_in; [exact N |]. intros x X. apply list_elem_of_In in X.
    cbn. destruct (cas_row v (version m) x) eqn:Hx; [| done]. destruct (Wr x X Hx) as [-> ->].
    by rewrite s_round_id.
  - apply Forall_forall. intros y Y. apply list_elem_of_fmap in Y as (x & -> & X).
    destruct (cas_row v (version m) x) eqn:Hx; [| by apply R]. destruct (Wr x X Hx) as [-> ->].
    by apply (sr_step m op v); [apply R |].
  - apply Forall_forall. intros y Y. apply list_elem_of_fmap in Y as (x & -> & X).
    destruct (cas_row v (version m) x) eqn:Hx; [| by apply B]. destruct (Wr x X Hx) as [-> ->].
    rewrite s_round_version. lia.
  - eapply Forall_impl; [exact P |]. intros h (x & X & Ix & Hx).
    exists (if cas_row v (version m) x then s_write x v else x).
    split; [apply list_elem_of_fmap; eauto |]. destruct (cas_row v (version m) x) eqn:Hc; [| done].
    destruct (Wr x X Hc) as [-> ->]. rewrite s_round_id, s_round_version. split; [congruence |].
    destruct Hx as [Hx | ->]; [left; lia |].
    destruct (apply_advance m op v H) as [-> | Ev]; [by right | left].
    rewrite Ev, u64_succ_small; [lia | unfold max_int64, two64 in *; lia].
  - intros y Y. apply list_elem_of_fmap in Y as (x & -> & X).
    destruct (cas_row v (version m) x) eqn:Hx; [right; by apply Wr |].
    destruct (decide (s_id x = s_id m)) as [Ex | Ex]; [| by left].
    assert (x = m) as -> by by apply (keyed s_id t). unfold cas_row in Hx.
    by rewrite Iv, bool_decide_true, Z.eqb_refl in Hx.
Qed.

End Cas.
