(* ===== verification/Lease.v ===== *)
(** * Fenced leases

    Idempotency records, outbox messages and reconciliation work are claimed by
    one worker at a time.  A claim advances a fence; every later mutation by the
    claimant presents the fence it was given.  The interface states what each of
    the three promises; the exclusion of stale workers follows from it. *)

From Stdlib Require Import ZArith Bool Lia.
From stdpp Require Import base list.
From S2P Require Import Prelude.

Class Fenced (A Op E : Type) := {
  fence : A -> Z;
  (** The fence a command presents; [None] for a claim that presents none. *)
  presents : Op -> option Z;
  (** The commands that hand the lease to a new claimant. *)
  claims : Op -> bool;
  perform : A -> Op -> result E A;
  perform_presents : forall a op a' f,
    perform a op = Ok a' -> presents op = Some f -> f = fence a;
  perform_fence : forall a op a',
    perform a op = Ok a' -> fence a' = if claims op then u64 (fence a + 1) else fence a
}.

Section Exclusion.
Context {A Op E : Type} {F : Fenced A Op E}.

(** [runs a n a']: accepted commands lead from [a] to [a'] with [n] claims. *)
Inductive runs : A -> nat -> A -> Prop :=
| runs_refl a : runs a 0 a
| runs_step a op a' n a'' :
    perform a op = Ok a' -> runs a' n a'' ->
    runs a (if claims op then S n else n) a''.

Lemma runs_fence a n a' :
  is_u64 (fence a) -> runs a n a' -> fence a' = u64 (fence a + Z.of_nat n) /\ is_u64 (fence a').
Proof.
  intros Hu R. induction R as [a | a op a1 n a2 H R IH].
  - rewrite Z.add_0_r, u64_small by done. done.
  - pose proof (perform_fence _ _ _ H) as Hf. destruct (claims op).
    + destruct IH as [-> ?]; [rewrite Hf; apply u64_range |]. split; [| apply u64_range].
      rewrite Hf. unfold u64. rewrite Zplus_mod_idemp_l. f_equal. lia.
    + rewrite Hf in IH. auto.
Qed.

(** Until the 64-bit fence comes round, it never returns to an earlier value. *)
Lemma runs_fence_moved a n a' :
  is_u64 (fence a) -> runs a n a' -> (0 < n)%nat -> Z.of_nat n < two64 -> fence a' <> fence a.
Proof.
  intros Hu R Hn Hw E'. destruct (runs_fence a n a' Hu R) as [Hf _]. rewrite E' in Hf.
  unfold is_u64, u64 in *. destruct (Z.lt_ge_cases (fence a + Z.of_nat n) two64) as [L | L].
  - rewrite Z.mod_small in Hf; lia.
  - rewrite <- (Z_mod_plus_full _ (-1)) in Hf. rewrite Z.mod_small in Hf; lia.
Qed.

(** Between a claim and the next wrap-around of the 64-bit fence, whoever still
    presents the old fence is refused, whatever happened in between. *)
Lemma stale_fence_refused a n a' op :
  is_u64 (fence a) -> runs a n a' -> (0 < n)%nat -> Z.of_nat n < two64 ->
  presents op = Some (fence a) -> exists e, perform a' op = Err e.
Proof.
  intros Hu R Hn Hw Hp. destruct (perform a' op) as [a'' | e] eqn:Ho; [| by eauto].
  exfalso. apply (perform_presents _ _ _ _ Ho) in Hp.
  by apply (runs_fence_moved a n a' Hu R Hn Hw).
Qed.

Lemma runs_snoc a n a' op a'' :
  runs a n a' -> perform a' op = Ok a'' -> runs a (if claims op then S n else n) a''.
Proof.
  induction 1 as [a | a op1 a1 n a2 H R IH]; intros Ho.
  - exact (runs_step a op a'' 0 a'' Ho (runs_refl a'')).
  - pose proof (runs_step a op1 a1 _ a'' H (IH Ho)) as S.
    by destruct (claims op1), (claims op).
Qed.

(** Two claimants never hold the same fence. *)
Lemma claims_distinct a op1 a1 n a2 op2 a3 :
  is_u64 (fence a) -> perform a op1 = Ok a1 -> claims op1 = true ->
  runs a1 n a2 -> perform a2 op2 = Ok a3 -> claims op2 = true ->
  Z.of_nat n + 1 < two64 -> fence a3 <> fence a1.
Proof.
  intros Hu H1 C1 R H2 C2 Hw.
  pose proof (runs_snoc _ _ _ _ _ R H2) as R'. rewrite C2 in R'.
  apply (runs_fence_moved a1 (S n) a3); [| done | lia | lia].
  rewrite (perform_fence _ _ _ H1), C1. apply u64_range.
Qed.

End Exclusion.
