(* ===== verification/Interaction.v ===== *)
(** * Programs that call other components

    Application services call stores, providers and authorities through
    interfaces and decide on the answers.  Such a service is modelled as a tree of
    calls; a run is the sequence of calls it makes with the answers it got.  What
    the other side answers is unconstrained, so a theorem about every run holds
    for every implementation of the interfaces, including failing ones.  A [commit]
    is one of three: done, refused, or done with its answer lost. *)

From Stdlib Require Import ZArith Bool Lia.
From stdpp Require Import base list.
From S2P Require Import Prelude.

(** ** Commits *)

(** What [tx.Commit] did: the transaction was committed; it was not, and an error says so;
    or it was committed and the answer was lost, which is reported as an error too. *)
Inductive commit : Type := CommitDone | CommitRefused | CommitLost.

Definition took_effect (c : commit) : bool := match c with CommitRefused => false | _ => true end.

Definition reported (c : commit) : bool := match c with CommitDone => true | _ => false end.

(** ** Programs and their runs *)

Section Programs.
Context {call : Type -> Type}.

Inductive prog (A : Type) : Type :=
| Ret (a : A)
| Vis {B : Type} (c : call B) (k : B -> prog A).

Arguments Ret {A} a.
Arguments Vis {A B} c k.

Fixpoint pbind {A B} (p : prog A) (f : A -> prog B) : prog B :=
  match p with
  | Ret a => f a
  | Vis c k => Vis c (fun b => pbind (k b) f)
  end.

Definition trigger {B} (c : call B) : prog B := Vis c Ret.

(** A call together with its answer. *)
Definition event : Type := { B : Type & (call B * B)%type }.

Definition occurred {B} (c : call B) (b : B) : event := existT B (c, b).

(** [runs p tr r]: with the answers of [tr], [p] makes exactly the calls of [tr]
    and returns [r]. *)
Fixpoint runs {A} (p : prog A) (tr : list event) (r : A) : Prop :=
  match p with
  | Ret a => tr = [] /\ r = a
  | Vis c k => exists b tr', tr = occurred c b :: tr' /\ runs (k b) tr' r
  end.

(** Executing a program against a handler, with the trace it leaves. *)
Fixpoint execute {A} (h : forall B, call B -> B) (p : prog A) : list event * A :=
  match p with
  | Ret a => ([], a)
  | Vis c k => let b := h _ c in
               let (tr, a) := execute h (k b) in (occurred c b :: tr, a)
  end.

(** Executing against a component that keeps state of its own. *)
Fixpoint run_state {S A} (h : forall B, S -> call B -> S * B) (s : S) (p : prog A) : S * A :=
  match p with
  | Ret a => (s, a)
  | Vis c k => let (s', b) := h _ s c in run_state h s' (k b)
  end.

(** The same with the trace it leaves. *)
Fixpoint trace_state {S A} (h : forall B, S -> call B -> S * B) (s : S) (p : prog A) : list event * A :=
  match p with
  | Ret a => ([], a)
  | Vis c k => let (s', b) := h _ s c in
               let (tr, a) := trace_state h s' (k b) in (occurred c b :: tr, a)
  end.

Lemma runs_bind {A B} (p : prog A) (f : A -> prog B) : forall tr r,
  runs (pbind p f) tr r <-> exists t1 t2 a, tr = t1 ++ t2 /\ runs p t1 a /\ runs (f a) t2 r.
Proof.
  induction p as [a | C c k IH]; intros tr r; cbn.
  - split.
    + intros H. by exists [], tr, a.
    + by intros (t1 & t2 & a' & -> & [-> ->] & H).
  - split.
    + intros (b & tr' & -> & H). apply IH in H as (t1 & t2 & a & -> & H1 & H2).
      exists (occurred c b :: t1), t2, a. split; [done |]. split; [| done]. eauto.
    + intros (t1 & t2 & a & -> & (b & tr' & -> & H1) & H2). exists b, (tr' ++ t2).
      split; [done |]. apply IH. eauto 6.
Qed.

Lemma runs_trigger {B} (c : call B) tr b : runs (trigger c) tr b <-> tr = [occurred c b].
Proof.
  cbn. split.
  - by intros (b' & tr' & -> & [-> ->]).
  - intros ->. exists b, []. auto.
Qed.

Lemma execute_runs {A} (h : forall B, call B -> B) (p : prog A) :
  runs p (fst (execute h p)) (snd (execute h p)).
Proof.
  induction p as [a | C c k IH]; cbn; [done |].
  specialize (IH (h C c)). destruct (execute h (k (h C c))) as [tr a] eqn:E. cbn in *. eauto.
Qed.

Lemma trace_state_runs {S A} (h : forall B, S -> call B -> S * B) (p : prog A) : forall s,
  runs p (fst (trace_state h s p)) (snd (trace_state h s p)).
Proof.
  induction p as [a | C c k IH]; intros s; cbn; [done |].
  destruct (h C s c) as [s' b]. specialize (IH b s'). destruct (trace_state h s' (k b)) as [tr a] eqn:E. cbn in *. eauto.
Qed.

(** What a program returns when it is executed, without the trace. *)
Lemma execute_bind {A B} (h : forall B, call B -> B) (p : prog A) (f : A -> prog B) :
  snd (execute h (pbind p f)) = snd (execute h (f (snd (execute h p)))).
Proof.
  induction p as [a | C c k IH]; cbn; [done |].
  specialize (IH (h C c)). destruct (execute h (pbind _ _)), (execute h (k (h C c))). exact IH.
Qed.

Lemma execute_trigger {B} (h : forall B, call B -> B) (c : call B) :
  snd (execute h (trigger c)) = h B c.
Proof. done. Qed.

End Programs.

Arguments prog call A : clear implicits.
Arguments event call : clear implicits.
Arguments Ret {call A} a.
Arguments Vis {call A B} c k.

Notation "'do!' x <- p ; q" := (pbind p (fun x => q))
  (at level 10, x binder, p at level 100, q at level 200) : go_scope.

(** [explore H] follows a run of a loop-free program along all its branches,
    leaving the calls made, their answers and the decisions taken. *)
Ltac explore_step H :=
  lazymatch type of H with
  | exists _ : _, _ =>
      let b := fresh "answer" in
      let tr := fresh "tr" in
      destruct H as (b & tr & -> & H)
  | _ = [] /\ _ = _ => destruct H as [-> H]; simplify_eq H
  | context [match ?x with _ => _ end] => destruct x eqn:?; cbn [runs pbind trigger] in H
  end.

Ltac explore H := cbn [runs pbind trigger] in H; repeat explore_step H.
