(* ===== verification/Session.v ===== *)
(** * internal/domain/session: the Session aggregate

    Data, constructors ([New], [Restore]), the lifecycle [Transition] and its
    edge table.  Against them: the lifecycle contract as an abstract edge
    relation, its refinement, the aggregate invariant over all reachable
    Sessions, the execution-generation count and the persistence round trip. *)

From Stdlib Require Import ZArith Bool Lia Ascii.
From stdpp Require Import base strings list.
From S2P Require Import Prelude Regex GoStd Primitives Optimistic.

(** ** Data *)

Inductive State : Type :=
| Provisioning | Ready | Active | Idle | Suspended | Degraded | Closing | Closed.

#[export] Instance State_eq_dec : EqDecision State.
Proof. solve_decision. Defined.

#[export, refine] Instance State_enum : GoEnum State := {|
  enum_string s :=
    match s with
    | Provisioning => "PROVISIONING" | Ready => "READY" | Active => "ACTIVE"
    | Idle => "IDLE" | Suspended => "SUSPENDED" | Degraded => "DEGRADED"
    | Closing => "CLOSING" | Closed => "CLOSED"
    end;
  enum_all := [Provisioning; Ready; Active; Idle; Suspended; Degraded; Closing; Closed]
|}.
Proof. all: [> enum_inj | enum_in]. Defined.

Inductive SessionError : Type :=
| ErrInvalidSession | ErrIllegalTransition | ErrVersionConflict | ErrGenerationExhausted.

(** [State] is a string type in Go: a caller may pass any string where a state is
    expected, so operations take strings and parse them where the code does. *)
Definition ParseState (value : string) : result EnumError State := ParseEnum value.

Record RuntimeBinding : Type := mkRuntimeBinding {
  AuthorityMode : string;
  AuthorityNamespace : string;
  AgentID : string;
  AgentVersionID : string;
  RuntimeSpecSchemaVersion : string;
  RuntimeSpec : string;
  RuntimeSpecDigest : string;
  RuntimeProfileSchemaVersion : string;
  RuntimeProfileSnapshot : string;
  RuntimeProfileDigest : string
}.

(** [recoveryState] is the empty string when absent. *)
Record Session : Type := mkSession {
  tenantID : ID;
  id : ID;
  state : State;
  stateVersion : Z;
  executionGeneration : Z;
  binding : RuntimeBinding;
  recoveryState : option State;
  createdAt : Time;
  updatedAt : Time;
  closedAt : option Time
}.

(** ** Operations *)

Definition validateBinding (b : RuntimeBinding) : result SessionError unit :=
  let values := [AuthorityMode b; AuthorityNamespace b; AgentID b; AgentVersionID b;
                 RuntimeSpecSchemaVersion b; RuntimeProfileSchemaVersion b] in
  if negb (forallb (fun value => is_ok (BoundedString value 1 255 255)) values)
  then Err ErrInvalidSession
  else if (AuthorityMode b != "LOCAL") && (AuthorityMode b != "THINKPIXEL_AG")
  then Err ErrInvalidSession
  else if negb (match_string sha256_pattern (RuntimeSpecDigest b))
          || negb (match_string sha256_pattern (RuntimeProfileDigest b))
  then Err ErrInvalidSession
  else if negb (validJSONObject (RuntimeSpec b) 65536)
          || negb (validJSONObject (RuntimeProfileSnapshot b) 65536)
  then Err ErrInvalidSession
  else Ok tt.

(** The copy shares no bytes with its argument; as a value it is equal to it. *)
Definition cloneBinding (b : RuntimeBinding) : RuntimeBinding := b.

Definition New (tenant session : ID) (b : RuntimeBinding) (now : Time)
  : result SessionError Session :=
  if negb (is_ok (ParseID tenant)) then Err ErrInvalidSession
  else if negb (is_ok (ParseID session)) then Err ErrInvalidSession
  else match validateBinding b with
  | Err e => Err e
  | Ok _ =>
      if IsZero now then Err ErrInvalidSession
      else Ok (mkSession tenant session Provisioning 0 0 (cloneBinding b) None
                 (UTC now) (UTC now) None)
  end.

(** The string of a recovery state field, and back. *)
Definition state_string (o : option State) : string :=
  match o with Some s => enum_string s | None => "" end.

Definition Restore (tenant session : ID) (b : RuntimeBinding) (st recovery : string)
    (version generation : Z) (created updated : Time) (closed : option Time)
  : result SessionError Session :=
  if negb (validID tenant) || negb (validID session) || negb (is_ok (validateBinding b))
     || IsZero created || Before updated created
     || (max_int64 <? version) || (max_int64 <? generation)
  then Err ErrInvalidSession
  else match ParseState st with
  | Err _ => Err ErrInvalidSession
  | Ok s =>
      let finish (r : option State) :=
        if negb (eqb (s == Closed) (is_some closed))
           || match closed with Some c => Before c created | None => false end
           || negb (eqb (s == Degraded) (recovery != ""))
        then Err ErrInvalidSession
        else Ok (mkSession tenant session s version generation (cloneBinding b) r
                   (UTC created) (UTC updated) (copyTime closed)) in
      if recovery != "" then
        match ParseState recovery with
        | Err _ => Err ErrInvalidSession
        | Ok r => if (r == Degraded) || (r == Closed) then Err ErrInvalidSession
                  else finish (Some r)
        end
      else finish None
  end.

(** The [allowed] table: a missing key reads as [false]. *)
Definition allowed (from to : State) : bool :=
  match from, to with
  | Provisioning, (Ready | Degraded) => true
  | Ready, (Active | Suspended | Degraded) => true
  | Active, (Idle | Degraded) => true
  | Idle, (Active | Suspended | Degraded) => true
  | Suspended, (Ready | Idle | Degraded) => true
  | Closing, Closed => true
  | _, _ => false
  end.

Definition canTransition (s : Session) (next : State) : bool :=
  if (state s != Closed) && (next == Closing) then true
  else if state s == Degraded then Some next == recoveryState s
  else allowed (state s) next.

(** Admission: the edge that advances the execution generation. *)
Definition admits (previous next : State) : bool :=
  ((previous == Ready) || (previous == Idle)) && (next == Active).

Definition Transition (self : option Session) (next : string) (expectedVersion : Z) (now : Time)
  : result SessionError Session :=
  match self with
  | None => Err ErrInvalidSession
  | Some s =>
      if expectedVersion != stateVersion s then Err ErrVersionConflict
      else match ParseState next with
      | Err _ => Err ErrInvalidSession
      | Ok n =>
          if IsZero now || Before (UTC now) (updatedAt s) then Err ErrInvalidSession
          else if n == state s then
            if (n == Closing) || (n == Closed) then Ok s else Err ErrIllegalTransition
          else if negb (canTransition s n) then Err ErrIllegalTransition
          else
            let previous := state s in
            if admits previous n && (executionGeneration s == max_int64)
            then Err ErrGenerationExhausted
            else
              let recovery := if n == Degraded then Some previous
                              else if previous == Degraded then None
                              else recoveryState s in
              let generation := if admits previous n then u64 (executionGeneration s + 1)
                                else executionGeneration s in
              let closed := if n == Closed then Some (UTC now) else closedAt s in
              Ok (mkSession (tenantID s) (id s) n (u64 (stateVersion s + 1)) generation
                    (binding s) recovery (createdAt s) (UTC now) closed)
      end
  end.

(** ** Abstract lifecycle

    The transition table of docs/contracts/session-state-machine.md.  The prior
    safe state is what was recorded on entering [Degraded]. *)

(** Prior safe states. *)
Definition safe (s : State) : Prop :=
  match s with
  | Provisioning | Ready | Active | Idle | Suspended => True
  | Degraded | Closing | Closed => False
  end.

(** The states that may admit an Execution or suspend. *)
Definition resting (s : State) : Prop :=
  match s with Ready | Idle => True | _ => False end.

Inductive edge : option State -> State -> State -> Prop :=
| e_ready r : edge r Provisioning Ready
| e_admit r s : resting s -> edge r s Active
| e_suspend r s : resting s -> edge r s Suspended
| e_terminal r : edge r Active Idle
| e_resume r t : resting t -> edge r Suspended t
| e_degrade r s : safe s -> edge r s Degraded
| e_recover s : edge (Some s) Degraded s
| e_close r s : s <> Closed -> s <> Closing -> edge r s Closing
| e_closed r : edge r Closing Closed.

Create HintDb session.
#[export] Hint Constructors edge : session.
#[export] Hint Extern 1 (resting _) => exact I : session.
#[export] Hint Extern 1 (safe _) => exact I : session.

(** ** Invariant and reachability *)

Record wf (s : Session) : Prop := {
  wf_tenant : validID (tenantID s) = true;
  wf_id : validID (id s) = true;
  wf_binding : validateBinding (binding s) = Ok tt;
  wf_version : is_u64 (stateVersion s);
  wf_generation : 0 <= executionGeneration s <= max_int64;
  wf_recovery : match recoveryState s with
                | Some r => state s = Degraded /\ safe r
                | None => state s <> Degraded
                end;
  wf_closed : match closedAt s with
              | Some c => state s = Closed /\ is_utc c /\ nanos (createdAt s) <= nanos c
              | None => state s <> Closed
              end;
  wf_created : nanos (createdAt s) <> 0;
  wf_order : nanos (createdAt s) <= nanos (updatedAt s);
  wf_utc : is_utc (createdAt s) /\ is_utc (updatedAt s)
}.

(** One command of the aggregate, accepted or refused. *)
Record Command : Type := mkCommand {
  c_next : string;
  c_version : Z;
  c_now : Time
}.

Definition exec (s : Session) (c : Command) : result SessionError Session :=
  Transition (Some s) (c_next c) (c_version c) (c_now c).

(** [steps s tr s']: from [s], the accepted commands of [tr] lead to [s']. *)
Inductive steps : Session -> list State -> Session -> Prop :=
| steps_refl s : steps s [] s
| steps_one s c s' tr s'' :
    exec s c = Ok s' -> steps s' tr s'' -> steps s (state s' :: tr) s''.

Inductive reachable : Session -> Prop :=
| reach_new t i b now s : New t i b now = Ok s -> reachable s
| reach_step s c s' : reachable s -> exec s c = Ok s' -> reachable s'.

(** ** Lemmas *)

(** The record a successful non-idempotent transition builds. *)
Definition advanced (s : Session) (n : State) (now : Time) : Session :=
  mkSession (tenantID s) (id s) n (u64 (stateVersion s + 1))
    (if admits (state s) n then u64 (executionGeneration s + 1) else executionGeneration s)
    (binding s)
    (if n == Degraded then Some (state s) else if state s == Degraded then None else recoveryState s)
    (createdAt s) (UTC now)
    (if n == Closed then Some (UTC now) else closedAt s).

Lemma canTransition_edge s n :
  n <> state s ->
  canTransition s n = true <-> edge (recoveryState s) (state s) n.
Proof.
  unfold canTransition. intros Hn. destruct (state s) eqn:E, n; cbn; reduce_decide;
    try congruence; split; intros H; simp_bool; eauto with session;
    try solve [inversion H; subst; auto; contradiction];
    try (rewrite <- H; constructor); inversion H; by apply bool_decide_eq_true.
Qed.

Lemma admits_spec previous n : admits previous n = true <-> resting previous /\ n = Active.
Proof.
  unfold admits. destruct previous, n; reduce_decide; cbn; split; intros H;
    first [discriminate H | split; auto; fail | destruct H; done].
Qed.

(** Which outcome a command has, as the guards decide it. *)
Lemma exec_outcome s c :
  (c_version c <> stateVersion s /\ exec s c = Err ErrVersionConflict)
  \/ (c_version c = stateVersion s
      /\ ((forall n : State, c_next c <> enum_string n) \/ IsZero (c_now c) = true
          \/ nanos (c_now c) < nanos (updatedAt s))
      /\ exec s c = Err ErrInvalidSession)
  \/ (c_version c = stateVersion s /\ IsZero (c_now c) = false
      /\ nanos (updatedAt s) <= nanos (c_now c)
      /\ exists n, c_next c = enum_string n
         /\ ((n = state s /\ (n = Closing \/ n = Closed) /\ exec s c = Ok s)
             \/ (n = state s /\ n <> Closing /\ n <> Closed /\ exec s c = Err ErrIllegalTransition)
             \/ (n <> state s /\ ~ edge (recoveryState s) (state s) n
                 /\ exec s c = Err ErrIllegalTransition)
             \/ (edge (recoveryState s) (state s) n /\ resting (state s) /\ n = Active
                 /\ executionGeneration s = max_int64 /\ exec s c = Err ErrGenerationExhausted)
             \/ (n <> state s /\ edge (recoveryState s) (state s) n
                 /\ ~ (resting (state s) /\ n = Active /\ executionGeneration s = max_int64)
                 /\ exec s c = Ok (advanced s n (c_now c))))).
Proof.
  destruct c as [next v now]. unfold exec, Transition. cbn [c_next c_version c_now].
  destruct (v != stateVersion s) eqn:G1; simp_bool; [by left |].
  destruct (ParseState next) as [n |] eqn:Hn.
  2:{ right; left. split; [done |]. split; [left | done]. intros n ->.
      unfold ParseState in Hn. by rewrite ParseEnum_print in Hn. }
  apply ParseEnum_ok in Hn.
  destruct (IsZero now || Before (UTC now) (updatedAt s)) eqn:G2.
  { right; left. split; [done |]. split; [right | done]. apply orb_true_iff in G2 as [G2 | G2]; [by left |].
    right. tlia. }
  apply orb_false_iff in G2 as [G2 G3]. right; right.
  split; [done |]. split; [done |]. split; [tlia |]. exists n. split; [done |].
  destruct (n == state s) eqn:G4; simp_bool.
  - destruct ((state s == Closing) || (state s == Closed)) eqn:G5.
    + left. apply orb_true_iff in G5. repeat split. destruct G5; simp_bool; auto.
    + right; left. simp_bool. done.
  - destruct (canTransition s n) eqn:G5; cbn [negb].
    + apply canTransition_edge in G5; [| done].
      destruct (admits (state s) n && (executionGeneration s == max_int64)) eqn:G6.
      2:{ do 4 right. repeat split; try done. intros (R & -> & M).
          rewrite (proj2 (admits_spec _ _)), M in G6 by done. discriminate G6. }
      simp_bool. match goal with A : admits _ _ = true |- _ => apply admits_spec in A as [? ->] end.
      auto 10.
    + do 2 right; left. repeat split; try done. intros He.
      apply canTransition_edge in He; [congruence | done].
Qed.

(** [Transition] accepts exactly the idempotent closes and the lifecycle edges. *)
Lemma session_exec_spec s c s' :
  exec s c = Ok s' <->
  c_version c = stateVersion s
  /\ IsZero (c_now c) = false /\ nanos (updatedAt s) <= nanos (c_now c)
  /\ exists n, c_next c = enum_string n
     /\ ((n = state s /\ (n = Closing \/ n = Closed) /\ s' = s)
         \/ (n <> state s /\ edge (recoveryState s) (state s) n
             /\ ~ (resting (state s) /\ n = Active /\ executionGeneration s = max_int64)
             /\ s' = advanced s n (c_now c))).
Proof.
  destruct (exec_outcome s c) as [(V & ->) | [(V & I & ->) | (V & Z & U & n & Hn & O)]].
  - split; [discriminate | tauto].
  - split; [discriminate |]. intros (_ & Hz & Hu & n & Hn & _).
    destruct I as [I | [I | I]]; [by apply I in Hn | congruence | lia].
  - assert (N : forall m : State, c_next c = enum_string m -> m = n)
      by (intros m Hm; apply enum_string_inj; congruence).
    split.
    + intros H. repeat split; try done. exists n. split; [done |].
      destruct O as [(? & ? & E) | [(? & ? & ? & E) | [(? & ? & E) | [(? & ? & ? & ? & E) | (? & ? & ? & E)]]]];
        rewrite E in H; simplify_eq; auto 10.
    + intros (_ & _ & _ & m & Hm & C). apply N in Hm as ->.
      destruct O as [(? & ? & E) | [(? & ? & ? & E) | [(? & ? & E) | [(? & ? & ? & ? & E) | (? & ? & ? & E)]]]];
        rewrite E; destruct C as [(? & ? & ->) | (? & ? & ? & ->)]; first [tauto | congruence | destruct_or!; congruence].
Qed.

Lemma session_exec_cases s c s' : exec s c = Ok s' ->
  s' = s \/ exists n, n <> state s /\ edge (recoveryState s) (state s) n
     /\ ~ (resting (state s) /\ n = Active /\ executionGeneration s = max_int64)
     /\ nanos (updatedAt s) <= nanos (c_now c) /\ s' = advanced s n (c_now c).
Proof.
  intros H. apply session_exec_spec in H as (_ & _ & Hu & n & _ & [(_ & _ & ->) | (? & ? & ? & ->)]);
    [by left | right; eauto 10].
Qed.

#[export, refine] Instance Session_versioned : Versioned Session Command SessionError := {|
  version := stateVersion;
  presented := c_version;
  apply := exec
|}.
Proof.
  - intros s c s' H. by apply session_exec_spec in H as [? _].
  - intros s c s' H. apply session_exec_cases in H as [-> | (n & _ & _ & _ & _ & ->)]; auto.
Defined.

Lemma session_wf_New t i b now s : New t i b now = Ok s -> wf s.
Proof.
  unfold New. intros H. ok_inv H. constructor; cbn; auto with go.
  - destruct a. done.
  - split; cbn; unfold two64; lia.
  - unfold max_int64. lia.
  - tlia.
  - lia.
Qed.

(** An edge out of a state with a recovery record keeps the record consistent. *)
Lemma edge_recovery s n now :
  match recoveryState s with
  | Some r => state s = Degraded /\ safe r
  | None => state s <> Degraded
  end ->
  n <> state s -> edge (recoveryState s) (state s) n ->
  match recoveryState (advanced s n now) with
  | Some r => state (advanced s n now) = Degraded /\ safe r
  | None => state (advanced s n now) <> Degraded
  end.
Proof.
  intros W Hne He. cbn. destruct n; reduce_decide;
    try (destruct (state s == Degraded) eqn:G; simp_bool; try done;
         destruct (recoveryState s) as [r |]; [destruct W; done | done]).
  split; [done |]. inversion He; subst; first [done | contradiction | congruence].
Qed.

Lemma edge_from_closed r n : edge r Closed n -> False.
Proof. inversion 1; done. Qed.

Lemma wf_advanced s n now :
  wf s -> n <> state s -> edge (recoveryState s) (state s) n ->
  ~ (resting (state s) /\ n = Active /\ executionGeneration s = max_int64) ->
  nanos (updatedAt s) <= nanos now -> wf (advanced s n now).
Proof.
  intros W Hne He Hg Hu. destruct W as [W1 W2 W3 W4 W5 W6 W7 W8 W9 W10].
  constructor; cbn [tenantID id binding stateVersion createdAt updatedAt advanced]; auto.
  - apply u64_range.
  - cbn. destruct (admits (state s) n) eqn:G; [| done].
    apply admits_spec in G as [? ?]. rewrite u64_succ_small; unfold two64, max_int64 in *; [| lia].
    assert (executionGeneration s <> 9223372036854775807) by tauto. lia.
  - by apply edge_recovery.
  - cbn. destruct (n == Closed) eqn:G; simp_bool; [split; [done |]; split; [done |]; tlia |].
    destruct (closedAt s) as [c |]; [| done].
    destruct W7 as [W7 _]. rewrite W7 in He. by apply edge_from_closed in He.
  - tlia.
  - split; [apply W10 | done].
Qed.

Lemma session_wf_exec s c s' : wf s -> exec s c = Ok s' -> wf s'.
Proof.
  intros W H. apply session_exec_cases in H as [-> | (n & ? & ? & ? & ? & ->)]; [done |].
  by apply wf_advanced.
Qed.

Lemma session_wf_reachable s : reachable s -> wf s.
Proof. induction 1; eauto using session_wf_New, session_wf_exec. Qed.

(** ** Theorems *)

(** The abstract state of the lifecycle: the state and its recovery record. *)
Definition abs (s : Session) : State * option State := (state s, recoveryState s).

Inductive lifecycle : State * option State -> State * option State -> Prop :=
| l_move s r n : n <> s -> edge r s n ->
    lifecycle (s, r) (n, if n == Degraded then Some s else None).

Lemma abs_advanced s n now : wf s ->
  abs (advanced s n now) = (n, if n == Degraded then Some (state s) else None).
Proof.
  intros W. pose proof (wf_recovery s W) as R. unfold abs. cbn. f_equal.
  destruct (n == Degraded); [done |]. destruct (state s == Degraded) eqn:G; simp_bool; [done |].
  destruct (recoveryState s); [by destruct R | done].
Qed.

(** C14: The Session lifecycle implements its contract.  Every accepted command of
    a reachable Session is an idempotent close or one edge of the abstract state
    machine, and every edge of the abstract machine is taken by a command that
    presents the current version and a clock that has not gone back, except an
    admission when the execution generation is exhausted. *)
Theorem session_refines_lifecycle s (R : reachable s) :
  (forall c s', exec s c = Ok s' -> s' = s \/ lifecycle (abs s) (abs s'))
  /\ (forall a', lifecycle (abs s) a' ->
      (resting (state s) -> fst a' = Active -> executionGeneration s < max_int64) ->
      forall now, IsZero now = false -> nanos (updatedAt s) <= nanos now ->
      exists s', exec s (mkCommand (enum_string (fst a')) (stateVersion s) now) = Ok s'
                 /\ abs s' = a').
Proof.
  pose proof (session_wf_reachable s R) as W. split.
  - intros c s' H. apply session_exec_cases in H as [-> | (n & Hn & He & _ & _ & ->)]; [by left | right].
    rewrite abs_advanced by done. by constructor.
  - intros a' H Hg now Hz Hu. inversion H as [st r n Hn He E1 E2]; subst. cbn [fst] in *.
    exists (advanced s n now). split; [| by apply abs_advanced].
    apply session_exec_spec. cbn [c_version c_now c_next]. repeat split; try done.
    exists n. split; [done |]. right. repeat split; try done.
    intros (Hr & -> & Hm). specialize (Hg Hr eq_refl). lia.
Qed.

(** C15: Every Session reachable from creation satisfies the aggregate invariant:
    a recovery state is recorded exactly in [Degraded] and is one of the five
    safe states, the closing time exactly in [Closed], the generation stays within
    a signed 64-bit range, and timestamps are ordered and in UTC. *)
Theorem session_invariant s (R : reachable s) : wf s.
Proof. by apply session_wf_reachable. Qed.

(** What a refused transition means: the error tells which rule the command
    broke, in the order version, validity, legality, exhaustion.  In particular a
    stale command is always a version conflict, whatever else is wrong with it. *)
Theorem session_transition_errors s c e (H : exec s c = Err e) :
  match e with
  | ErrVersionConflict => c_version c <> stateVersion s
  | ErrInvalidSession =>
      c_version c = stateVersion s
      /\ ((forall n : State, c_next c <> enum_string n) \/ IsZero (c_now c) = true
          \/ nanos (c_now c) < nanos (updatedAt s))
  | ErrIllegalTransition =>
      c_version c = stateVersion s
      /\ exists n, c_next c = enum_string n
         /\ ((n = state s /\ n <> Closing /\ n <> Closed)
             \/ (n <> state s /\ ~ edge (recoveryState s) (state s) n))
  | ErrGenerationExhausted =>
      c_version c = stateVersion s /\ resting (state s)
      /\ c_next c = "ACTIVE" /\ executionGeneration s = max_int64
  end.
Proof.
  destruct (exec_outcome s c) as [(V & E) | [(V & I & E) | (V & Z & U & n & Hn & O)]].
  - rewrite E in H. by simplify_eq.
  - rewrite E in H. by simplify_eq.
  - destruct O as [(? & ? & E) | [(? & ? & ? & E) | [(? & ? & E) | [(? & ? & -> & ? & E) | (? & ? & ? & E)]]]];
      rewrite E in H; simplify_eq; eauto 10.
Qed.

(** Admissions along a sequence of states. *)
Fixpoint admissions (from : State) (tr : list State) : Z :=
  match tr with
  | [] => 0
  | s :: tr' => (if admits from s then 1 else 0) + admissions s tr'
  end.

(** The execution generation counts admissions and nothing else: along any
    run it grows by the number of Ready/Idle to Active edges, never by another
    transition, and it never wraps. *)
Theorem session_generation_counts_admissions s tr s' (W : wf s) (R : steps s tr s') :
  executionGeneration s' = executionGeneration s + admissions (state s) tr
  /\ executionGeneration s' <= max_int64.
Proof.
  induction R as [s | s c s1 tr s2 H R IH]; cbn [admissions].
  - pose proof (wf_generation s W). lia.
  - destruct (IH (session_wf_exec _ _ _ W H)) as [-> Hm]. split; [| done].
    apply session_exec_cases in H as [-> | (n & Hn & He & Hg & _ & ->)].
    + replace (admits (state s) (state s)) with false; [lia |].
      destruct (state s); vm_compute; reflexivity.
    + cbn [executionGeneration state advanced]. destruct (admits (state s) n) eqn:G; [| lia].
      apply admits_spec in G as [? ?]. pose proof (wf_generation s W) as B.
      assert (executionGeneration s <> max_int64) by tauto.
      rewrite u64_succ_small; unfold two64, max_int64 in *; lia.
Qed.

(** A closed Session is final: no sequence of commands changes it. *)
Theorem session_closed_final s tr s' (C : state s = Closed) (R : steps s tr s') : s' = s.
Proof.
  induction R as [s | s c s1 tr s2 H R IH]; [done |].
  apply session_exec_cases in H as [-> | (n & _ & He & _ & _ & ->)]; [auto |].
  rewrite C in He. by apply edge_from_closed in He.
Qed.

Lemma session_restore_wf s (W : wf s) (V : stateVersion s <= max_int64) :
  Restore (tenantID s) (id s) (binding s) (enum_string (state s)) (state_string (recoveryState s))
    (stateVersion s) (executionGeneration s) (createdAt s) (updatedAt s) (closedAt s) = Ok s.
Proof.
  destruct W as [W1 W2 W3 W4 W5 W6 W7 W8 W9 [W10 W11]].
  destruct s as [t i st ver gen b rec cr up cl].
  cbn [tenantID id state stateVersion executionGeneration binding recoveryState createdAt
       updatedAt closedAt] in *.
  unfold Restore.
  rewrite W1, W2, W3. cbn [negb is_ok orb].
  replace (IsZero cr) with false by tlia. replace (Before up cr) with false by tlia.
  replace (max_int64 <? ver) with false by lia. replace (max_int64 <? gen) with false by lia.
  cbn [orb]. unfold ParseState. rewrite ParseEnum_print.
  assert (C : copyTime cl = cl)
    by (apply copyTime_utc; intros c ->; by destruct W7 as (_ & ? & _)).
  destruct rec as [r |]; cbn [state_string].
  - destruct W6 as [-> Hs].
    replace (enum_string r == "") with false by (by destruct r). cbn [negb].
    rewrite ParseEnum_print. destruct r; try contradiction; reduce_decide;
      (destruct cl; [by destruct W7 |]); cbn; rewrite !UTC_of_utc by done; done.
  - cbn [negb]. reduce_decide. rewrite C. destruct cl as [c |].
    + destruct W7 as (-> & _ & Hc). reduce_decide. replace (Before c cr) with false by tlia.
      cbn. by rewrite !UTC_of_utc by done.
    + destruct st; try contradiction; reduce_decide; cbn; by rewrite !UTC_of_utc by done.
Qed.

(** Persistence round trip: storing the fields of a reachable Session and
    restoring them gives the same Session, as long as its version fits the signed
    column. *)
Theorem session_restore_roundtrip s (R : reachable s) (V : stateVersion s <= max_int64) :
  Restore (tenantID s) (id s) (binding s) (enum_string (state s)) (state_string (recoveryState s))
    (stateVersion s) (executionGeneration s) (createdAt s) (updatedAt s) (closedAt s) = Ok s.
Proof. by apply session_restore_wf; [apply session_wf_reachable |]. Qed.

(** One winner: of any commands prepared against the same version, at most
    one changes the Session, in whatever order they arrive. *)
Theorem session_single_winner s ops v (R : reachable s)
    (P : Forall (fun op => c_version op = v) ops) :
  run_commands s ops = s \/ exists op, op ∈ ops /\ exec s op = Ok (run_commands s ops).
Proof. exact (single_winner s ops v (wf_version s (session_wf_reachable s R)) P). Qed.

(** ** Witnesses *)

Definition ex_binding : RuntimeBinding :=
  mkRuntimeBinding "LOCAL" "thinkpixelar/local" "agent" "agent-1" "v1" "{}" digest_a
    "v1" "{}" digest_b.

Definition ex0 : Session :=
  mkSession id1 id2 Provisioning 0 0 ex_binding None (at_second 0) (at_second 0) None.

Definition ex1 : Session := advanced ex0 Ready (at_second 1).
Definition ex2 : Session := advanced ex1 Active (at_second 2).

Lemma session_ex0_reachable : reachable ex0.
Proof.
  apply (reach_new id1 id2 ex_binding (at_second_local 0)). vm_compute. reflexivity.
Qed.

Lemma ex1_reachable : reachable ex1.
Proof.
  apply (reach_step ex0 (mkCommand "READY" 0 (at_second 1)) ex1 session_ex0_reachable).
  vm_compute. reflexivity.
Qed.

Lemma ex2_reachable : reachable ex2.
Proof.
  apply (reach_step ex1 (mkCommand "ACTIVE" 1 (at_second 2)) ex2 ex1_reachable).
  vm_compute. reflexivity.
Qed.

Lemma session_refines_lifecycle_witness :
  exists s', exec ex1 (mkCommand "ACTIVE" 1 (at_second 2)) = Ok s' /\ abs s' = (Active, None).
Proof.
  apply (proj2 (session_refines_lifecycle ex1 ex1_reachable) (Active, None)).
  - apply (l_move Ready None Active); [discriminate | constructor; exact I].
  - intros _ _. vm_compute. reflexivity.
  - vm_compute. reflexivity.
  - vm_compute. discriminate.
Defined.

Lemma session_invariant_witness : wf ex2 /\ executionGeneration ex2 = 1.
Proof. split; [apply (session_invariant ex2 ex2_reachable) | vm_compute; reflexivity]. Defined.

Lemma session_transition_errors_witness :
  exec ex1 (mkCommand "CLOSED" 1 (at_second 2)) = Err ErrIllegalTransition
  /\ c_version (mkCommand "CLOSED" 1 (at_second 2)) = stateVersion ex1.
Proof.
  assert (H : exec ex1 (mkCommand "CLOSED" 1 (at_second 2)) = Err ErrIllegalTransition)
    by (vm_compute; reflexivity).
  split; [exact H | exact (proj1 (session_transition_errors _ _ _ H))].
Defined.

Lemma session_generation_witness :
  executionGeneration ex2 = executionGeneration ex1 + admissions Ready [Active]
  /\ executionGeneration ex2 <= max_int64.
Proof.
  apply (session_generation_counts_admissions ex1 [Active] ex2 (session_wf_reachable _ ex1_reachable)).
  apply (steps_one ex1 (mkCommand "ACTIVE" 1 (at_second 2)) ex2); [| apply steps_refl].
  vm_compute. reflexivity.
Defined.

Definition ex_closed : Session :=
  advanced (advanced ex1 Closing (at_second 2)) Closed (at_second 3).

Lemma session_closed_final_witness :
  exec ex_closed (mkCommand "CLOSED" 3 (at_second 9)) = Ok ex_closed
  /\ forall s', steps ex_closed [Closed] s' -> s' = ex_closed.
Proof.
  split; [vm_compute; reflexivity |].
  intros s' R. exact (session_closed_final ex_closed [Closed] s' eq_refl R).
Defined.

Lemma session_restore_roundtrip_witness :
  Restore id1 id2 ex_binding "ACTIVE" "" 2 1 (at_second 0) (at_second 2) None = Ok ex2.
Proof. apply (session_restore_roundtrip ex2 ex2_reachable). vm_compute. discriminate. Defined.

Lemma session_single_winner_witness :
  let ops := [mkCommand "ACTIVE" 1 (at_second 2); mkCommand "SUSPENDED" 1 (at_second 3)] in
  run_commands ex1 ops = ex1
  \/ exists op, op ∈ ops /\ exec ex1 op = Ok (run_commands ex1 ops).
Proof. apply (session_single_winner ex1 _ 1 ex1_reachable). repeat constructor. Defined.
