(* ===== verification/Execution.v ===== *)
(** * internal/domain/execution: the Execution aggregate

    One bounded, authorized operation.  Besides the lifecycle, the file shows
    that exactly one terminal result ever wins, that it is durable evidence
    (bounded reference, digest) and that it survives persistence. *)

From Stdlib Require Import ZArith Bool Lia.
From stdpp Require Import base strings list.
From S2P Require Import Prelude Regex GoStd Primitives Optimistic.

(** ** Data *)

Inductive State : Type :=
| Queued | Materializing | Running | Cancelling | TimingOut
| Succeeded | Failed | Cancelled | TimedOut.

#[export] Instance State_eq_dec : EqDecision State.
Proof. solve_decision. Defined.

#[export, refine] Instance State_enum : GoEnum State := {|
  enum_string s :=
    match s with
    | Queued => "QUEUED" | Materializing => "MATERIALIZING" | Running => "RUNNING"
    | Cancelling => "CANCELLING" | TimingOut => "TIMING_OUT" | Succeeded => "SUCCEEDED"
    | Failed => "FAILED" | Cancelled => "CANCELLED" | TimedOut => "TIMED_OUT"
    end;
  enum_all := [Queued; Materializing; Running; Cancelling; TimingOut;
               Succeeded; Failed; Cancelled; TimedOut]
|}.
Proof. all: [> enum_inj | enum_in]. Defined.

Inductive ExecutionError : Type :=
| ErrInvalidExecution | ErrIllegalTransition | ErrVersionConflict.

Definition ParseState (value : string) : result EnumError State := ParseEnum value.

Record Binding : Type := mkBinding {
  SessionID : ID;
  SessionGeneration : Z;
  AuthorityMode : string;
  AuthorityNamespace : string;
  AuthorityReference : string;
  ExternalRunID : string;
  GrantDigest : string;
  AgentID : string;
  AgentVersionID : string;
  AgentEvidence : string;
  AgentEvidenceDigest : string
}.

Record TerminalResult : Type := mkTerminalResult { Reference : string; Digest : string }.

#[export] Instance TerminalResult_eq_dec : EqDecision TerminalResult.
Proof. solve_decision. Defined.

Record Execution : Type := mkExecution {
  tenantID : ID;
  id : ID;
  binding : Binding;
  deadline : Time;
  state : State;
  stateVersion : Z;
  terminalResult : option TerminalResult;
  createdAt : Time;
  updatedAt : Time;
  terminalAt : option Time
}.

(** ** Operations *)

Definition isTerminal (s : State) : bool :=
  (s == Succeeded) || (s == Failed) || (s == Cancelled) || (s == TimedOut).

Definition validResult (r : TerminalResult) : bool :=
  is_ok (BoundedString (Reference r) 1 2048 2048) && match_string sha256_pattern (Digest r).

Definition sameResult (left right : option TerminalResult) : bool :=
  match left, right with
  | Some l, Some r => l == r
  | _, _ => false
  end.

Definition validBinding (b : Binding) : bool :=
  forallb (fun value => is_ok (BoundedString value 1 255 255))
    [AuthorityMode b; AuthorityNamespace b; AuthorityReference b; AgentID b; AgentVersionID b]
  && ((ExternalRunID b == "") || is_ok (BoundedString (ExternalRunID b) 1 255 255))
  && ((AuthorityMode b == "LOCAL") || (AuthorityMode b == "THINKPIXEL_AG"))
  && match_string sha256_pattern (GrantDigest b)
  && validJSONObject (AgentEvidence b) 65536
  && match_string sha256_pattern (AgentEvidenceDigest b).

(** The copy shares no bytes with its argument; as a value it is equal to it. *)
Definition cloneBinding (b : Binding) : Binding := b.

Definition New (tenant execution : ID) (b : Binding) (dl now : Time)
  : result ExecutionError Execution :=
  if negb (validID tenant) || negb (validID execution) || negb (validID (SessionID b))
     || (SessionGeneration b == 0) || IsZero now || IsZero dl || negb (After dl now)
     || negb (validBinding b)
  then Err ErrInvalidExecution
  else Ok (mkExecution tenant execution (cloneBinding b) (UTC dl) Queued 0 None
             (UTC now) (UTC now) None).

Definition Restore (tenant execution : ID) (b : Binding) (dl : Time) (st : string) (version : Z)
    (res : option TerminalResult) (created updated : Time) (terminal : option Time)
  : result ExecutionError Execution :=
  if negb (validID tenant) || negb (validID execution) || negb (validID (SessionID b))
     || (SessionGeneration b == 0) || negb (validBinding b) || IsZero dl || IsZero created
     || negb (After dl created) || Before updated created
  then Err ErrInvalidExecution
  else match ParseState st with
  | Err _ => Err ErrInvalidExecution
  | Ok s =>
      if negb (eqb (isTerminal s) (is_some res && is_some terminal))
         || match res with Some r => negb (validResult r) | None => false end
      then Err ErrInvalidExecution
      else Ok (mkExecution tenant execution (cloneBinding b) (UTC dl) s version res
                 (UTC created) (UTC updated) (copyTime terminal))
  end.

(** The [legal] table: a missing key reads as [false]. *)
Definition legal (from to : State) : bool :=
  match from, to with
  | Queued, (Materializing | Cancelling | TimingOut | Failed) => true
  | Materializing, (Running | Cancelling | TimingOut | Failed) => true
  | Running, (Materializing | Cancelling | TimingOut | Succeeded | Failed) => true
  | Cancelling, (Cancelled | Failed) => true
  | TimingOut, (TimedOut | Failed) => true
  | _, _ => false
  end.

Definition Transition (self : option Execution) (next : string) (expectedVersion : Z)
    (res : option TerminalResult) (now : Time) : result ExecutionError Execution :=
  match self with
  | None => Err ErrInvalidExecution
  | Some e =>
      if expectedVersion != stateVersion e then Err ErrVersionConflict
      else match ParseState next with
      | Err _ => Err ErrInvalidExecution
      | Ok n =>
          if IsZero now || Before (UTC now) (updatedAt e) then Err ErrInvalidExecution
          else if n == state e then
            if isTerminal n && sameResult (terminalResult e) res then Ok e
            else Err ErrIllegalTransition
          else if negb (legal (state e) n) then Err ErrIllegalTransition
          else if negb (eqb (isTerminal n) (is_some res))
                  || match res with Some r => negb (validResult r) | None => false end
          then Err ErrInvalidExecution
          else
            Ok (mkExecution (tenantID e) (id e) (binding e) (deadline e) n
                  (u64 (stateVersion e + 1))
                  (match res with Some r => Some r | None => terminalResult e end)
                  (createdAt e) (UTC now)
                  (match res with Some _ => Some (UTC now) | None => terminalAt e end))
      end
  end.

(** ** Commands, runs, invariant *)

Record Command : Type := mkCommand {
  c_next : string;
  c_version : Z;
  c_result : option TerminalResult;
  c_now : Time
}.

Definition exec (e : Execution) (c : Command) : result ExecutionError Execution :=
  Transition (Some e) (c_next c) (c_version c) (c_result c) (c_now c).

Inductive steps : Execution -> list State -> Execution -> Prop :=
| steps_refl e : steps e [] e
| steps_one e c e' tr e'' :
    exec e c = Ok e' -> steps e' tr e'' -> steps e (state e' :: tr) e''.

Inductive reachable : Execution -> Prop :=
| reach_new t i b dl now e : New t i b dl now = Ok e -> reachable e
| reach_step e c e' : reachable e -> exec e c = Ok e' -> reachable e'.

Record wf (e : Execution) : Prop := {
  wf_tenant : validID (tenantID e) = true;
  wf_id : validID (id e) = true;
  wf_session : validID (SessionID (binding e)) = true;
  wf_generation : SessionGeneration (binding e) <> 0;
  wf_binding : validBinding (binding e) = true;
  wf_version : is_u64 (stateVersion e);
  wf_result : match terminalResult e with
              | Some r => isTerminal (state e) = true /\ validResult r = true
              | None => isTerminal (state e) = false
              end;
  wf_terminal : match terminalAt e with
                | Some t => isTerminal (state e) = true /\ t = updatedAt e
                | None => isTerminal (state e) = false
                end;
  wf_created : nanos (createdAt e) <> 0;
  wf_order : nanos (createdAt e) <= nanos (updatedAt e);
  wf_deadline : nanos (createdAt e) < nanos (deadline e) /\ nanos (deadline e) <> 0;
  wf_utc : is_utc (createdAt e) /\ is_utc (updatedAt e) /\ is_utc (deadline e)
}.

(** ** Lemmas *)

Definition advanced (e : Execution) (n : State) (res : option TerminalResult) (now : Time)
  : Execution :=
  mkExecution (tenantID e) (id e) (binding e) (deadline e) n (u64 (stateVersion e + 1))
    (match res with Some r => Some r | None => terminalResult e end)
    (createdAt e) (UTC now)
    (match res with Some _ => Some (UTC now) | None => terminalAt e end).

(** [Transition] accepts exactly a replay of the recorded terminal result, or a
    legal edge with valid evidence if and only if the target is terminal. *)
Lemma execution_exec_spec e c e' :
  exec e c = Ok e' <->
  c_version c = stateVersion e
  /\ IsZero (c_now c) = false /\ nanos (updatedAt e) <= nanos (c_now c)
  /\ exists n, c_next c = enum_string n
     /\ ((n = state e /\ isTerminal n = true
          /\ sameResult (terminalResult e) (c_result c) = true /\ e' = e)
         \/ (n <> state e /\ legal (state e) n = true
             /\ isTerminal n = is_some (c_result c)
             /\ (forall r, c_result c = Some r -> validResult r = true)
             /\ e' = advanced e n (c_result c) (c_now c))).
Proof.
  destruct c as [next v res now]. unfold exec, Transition.
  cbn [c_next c_version c_result c_now]. split.
  - intros H. destruct (v != stateVersion e) eqn:G1; [discriminate H |].
    destruct (ParseState next) as [n |] eqn:Hn; [| discriminate H]. apply ParseEnum_ok in Hn.
    destruct (IsZero now || Before (UTC now) (updatedAt e)) eqn:G2; [discriminate H |].
    simp_bool. repeat split; try done; [tlia |]. exists n. split; [done |].
    destruct (n == state e) eqn:G3.
    + left. destruct (isTerminal n && sameResult (terminalResult e) res) eqn:G4; [| discriminate H].
      by simp_bool.
    + right. destruct (negb (legal (state e) n)) eqn:G4; [discriminate H |].
      destruct (_ || _) eqn:G5 in H; [discriminate H |]. simp_bool.
      repeat split; try done. intros r ->. by simp_bool.
  - intros (-> & Hz & Hu & n & -> & Hcase).
    rewrite bool_decide_eq_true_2 by done. cbn [negb].
    unfold ParseState. rewrite ParseEnum_print, Hz. cbn [orb].
    replace (Before (UTC now) (updatedAt e)) with false by tlia.
    destruct Hcase as [(-> & HT & HS & ->) | (Hne & Hl & HT & HV & ->)].
    + rewrite (bool_decide_eq_true_2 (state e = state e)) by done. by rewrite HT, HS.
    + rewrite (bool_decide_eq_false_2 (n = state e)) by done. rewrite Hl, HT, eqb_reflx.
      cbn [negb orb]. destruct res as [r |]; [| done]. by rewrite (HV r eq_refl).
Qed.

Lemma execution_exec_cases e c e' : exec e c = Ok e' ->
  e' = e \/ exists n, legal (state e) n = true /\ isTerminal n = is_some (c_result c)
     /\ (forall r, c_result c = Some r -> validResult r = true)
     /\ nanos (updatedAt e) <= nanos (c_now c) /\ e' = advanced e n (c_result c) (c_now c).
Proof.
  intros H. apply execution_exec_spec in H as (_ & _ & Hu & n & _ & [(_ & _ & _ & ->) | (? & ? & ? & ? & ->)]);
    [by left | right; eauto 10].
Qed.

#[export, refine] Instance Execution_versioned : Versioned Execution Command ExecutionError := {|
  version := stateVersion;
  presented := c_version;
  apply := exec
|}.
Proof.
  - intros e c e' H. by apply execution_exec_spec in H as [? _].
  - intros e c e' H. apply execution_exec_cases in H as [-> | (n & _ & _ & _ & _ & ->)]; auto.
Defined.

(** No edge leaves a terminal state. *)
Lemma execution_legal_not_terminal s n : legal s n = true -> isTerminal s = false.
Proof. by destruct s, n. Qed.

Lemma execution_wf_New t i b dl now e : New t i b dl now = Ok e -> wf e.
Proof.
  unfold New. intros H. ok_inv H. constructor; cbn; auto with go.
  - split; cbn; unfold two64; lia.
  - tlia.
  - lia.
  - tlia.
Qed.

Lemma execution_wf_exec e c e' : wf e -> exec e c = Ok e' -> wf e'.
Proof.
  intros W H. apply execution_exec_cases in H as [-> | (n & Hl & HT & HV & Hu & ->)]; [done |].
  destruct W as [W1 W2 W3 W4 W5 W6 W7 W8 W9 W10 W11 (W12 & W13 & W14)].
  apply execution_legal_not_terminal in Hl.
  constructor; cbn [advanced tenantID id binding stateVersion state createdAt updatedAt deadline]; auto.
  - apply u64_range.
  - cbn. destruct (c_result c) as [r |]; [by auto |].
    destruct (terminalResult e); [destruct W7; congruence | done].
  - cbn. destruct (c_result c) as [r |]; [by auto |].
    destruct (terminalAt e); [destruct W8; congruence | done].
  - tlia.
  - auto with go.
Qed.

Lemma execution_wf_reachable e : reachable e -> wf e.
Proof. induction 1; eauto using execution_wf_New, execution_wf_exec. Qed.

Lemma steps_terminal e tr e' : steps e tr e' -> isTerminal (state e) = true -> e' = e.
Proof.
  induction 1 as [e | e c e1 tr e2 H R IH]; [done |]. intros T.
  apply execution_exec_cases in H as [-> | (n & Hl & _)]; [auto |].
  apply execution_legal_not_terminal in Hl. congruence.
Qed.

(** ** Theorems *)

(** Every reachable Execution satisfies the aggregate invariant: a terminal
    result with valid evidence and a terminal time are recorded exactly in the
    terminal states, the terminal time is the time of the winning transition, and
    the deadline lies after creation. *)
Theorem execution_invariant e (R : reachable e) : wf e.
Proof. by apply execution_wf_reachable. Qed.

(** One terminal winner: after a terminal state is reached no sequence of
    commands changes the Execution; a replay of the recorded result is accepted
    without effect and a conflicting result is refused. *)
Theorem execution_terminal_final e tr e' (T : isTerminal (state e) = true) (R : steps e tr e') :
  e' = e
  /\ (forall c r, terminalResult e = Some r -> c_result c = Some r ->
      c_next c = enum_string (state e) -> c_version c = stateVersion e ->
      IsZero (c_now c) = false -> nanos (updatedAt e) <= nanos (c_now c) -> exec e c = Ok e)
  /\ (forall c, c_result c <> terminalResult e -> exists err, exec e c = Err err).
Proof.
  split; [| split].
  - by apply (steps_terminal e tr).
  - intros c r Hr Hc Hn Hv Hz Hu. apply execution_exec_spec. repeat split; try done.
    exists (state e). split; [done |]. left. repeat split; try done.
    rewrite Hr, Hc. cbn. by apply bool_decide_eq_true.
  - intros c Hc. destruct (exec e c) as [e1 | err] eqn:E; [| by eauto].
    exfalso. apply execution_exec_spec in E as (_ & _ & _ & n & _ & [(_ & _ & HS & _) | (_ & Hl & _)]).
    + unfold sameResult in HS. destruct (terminalResult e), (c_result c); simp_bool.
    + apply execution_legal_not_terminal in Hl. congruence.
Qed.

Lemma execution_restore_wf e (W : wf e) :
  Restore (tenantID e) (id e) (binding e) (deadline e) (enum_string (state e)) (stateVersion e)
    (terminalResult e) (createdAt e) (updatedAt e) (terminalAt e) = Ok e.
Proof.
  destruct W as [W1 W2 W3 W4 W5 W6 W7 W8 W9 W10 [W11 W11'] (W12 & W13 & W14)].
  destruct e as [t i b dl st ver res cr up ter].
  cbn [tenantID id binding deadline state stateVersion terminalResult createdAt updatedAt
       terminalAt] in *.
  unfold Restore. rewrite W1, W2, W3, W5. rewrite bool_decide_eq_false_2 by done.
  replace (IsZero dl) with false by tlia. replace (IsZero cr) with false by tlia.
  replace (After dl cr) with true by tlia. replace (Before up cr) with false by tlia.
  cbn [negb orb]. unfold ParseState. rewrite ParseEnum_print.
  rewrite (copyTime_utc ter) by (intros x ->; by destruct W8 as [_ ->]).
  rewrite !UTC_of_utc by done.
  destruct res as [r |], ter as [x |]; cbn [is_some andb];
    [ destruct W7 as [-> ->]; done
    | destruct W7; congruence | destruct W8; congruence | by rewrite W7 ].
Qed.

(** Persistence round trip for Executions. *)
Theorem execution_restore_roundtrip e (R : reachable e) :
  Restore (tenantID e) (id e) (binding e) (deadline e) (enum_string (state e)) (stateVersion e)
    (terminalResult e) (createdAt e) (updatedAt e) (terminalAt e) = Ok e.
Proof. by apply execution_restore_wf, execution_wf_reachable. Qed.

(** Cancellation and timeout are decisive: once an Execution is cancelling
    or timing out, no run brings it back to forward work or to success; it can
    only end cancelled, timed out or failed. *)
Theorem execution_stop_decisive e tr e'
    (S : state e = Cancelling \/ state e = TimingOut) (R : steps e tr e') :
  state e' = state e \/ state e' = Failed
  \/ (state e = Cancelling /\ state e' = Cancelled)
  \/ (state e = TimingOut /\ state e' = TimedOut).
Proof.
  induction R as [e | e c e1 tr e2 H R IH]; [auto |].
  apply execution_exec_cases in H as [-> | (n & Hl & HT & _ & _ & ->)]; [auto |].
  destruct (isTerminal n) eqn:N.
  - rewrite (steps_terminal _ _ _ R) by done. cbn. destruct S as [S | S]; rewrite S in *; destruct n; auto; done.
  - destruct S as [S | S]; rewrite S in Hl; destruct n; done.
Qed.

(** ** Witnesses *)

Definition ex_binding : Binding :=
  mkBinding id3 1 "LOCAL" "thinkpixelar/local" "grant-1" "" digest_a "agent" "agent-1" "{}" digest_b.

Definition ex0 : Execution :=
  mkExecution id1 id2 ex_binding (at_second 100) Queued 0 None (at_second 0) (at_second 0) None.

Definition ex_result : TerminalResult := mkTerminalResult "evidence/1" digest_a.

Definition ex_failed : Execution := advanced ex0 Failed (Some ex_result) (at_second 1).

Definition ex_cancelling : Execution := advanced ex0 Cancelling None (at_second 1).

Lemma execution_ex0_reachable : reachable ex0.
Proof.
  apply (reach_new id1 id2 ex_binding (at_second_local 100) (at_second_local 0)).
  vm_compute. reflexivity.
Qed.

Lemma ex_failed_reachable : reachable ex_failed.
Proof.
  apply (reach_step ex0 (mkCommand "FAILED" 0 (Some ex_result) (at_second 1)) _ execution_ex0_reachable).
  vm_compute. reflexivity.
Qed.

Lemma execution_invariant_witness : wf ex_failed /\ isTerminal (state ex_failed) = true.
Proof. split; [apply (execution_invariant _ ex_failed_reachable) | reflexivity]. Defined.

Lemma execution_terminal_final_witness :
  exec ex_failed (mkCommand "FAILED" 1 (Some ex_result) (at_second 5)) = Ok ex_failed.
Proof.
  apply (proj1 (proj2 (execution_terminal_final ex_failed [] ex_failed eq_refl (steps_refl _)))
           (mkCommand "FAILED" 1 (Some ex_result) (at_second 5)) ex_result);
    vm_compute; first [reflexivity | discriminate].
Defined.

Lemma execution_restore_roundtrip_witness :
  Restore id1 id2 ex_binding (at_second 100) "FAILED" 1 (Some ex_result)
    (at_second 0) (at_second 1) (Some (at_second 1)) = Ok ex_failed.
Proof. apply (execution_restore_roundtrip ex_failed ex_failed_reachable). Defined.

Lemma execution_stop_decisive_witness :
  let e' := advanced ex_cancelling Cancelled (Some ex_result) (at_second 2) in
  state e' = state ex_cancelling \/ state e' = Failed
  \/ (state ex_cancelling = Cancelling /\ state e' = Cancelled)
  \/ (state ex_cancelling = TimingOut /\ state e' = TimedOut).
Proof.
  apply (execution_stop_decisive ex_cancelling [Cancelled]); [by left |].
  apply (steps_one _ (mkCommand "CANCELLED" 1 (Some ex_result) (at_second 2))
           (advanced ex_cancelling Cancelled (Some ex_result) (at_second 2)));
    [vm_compute; reflexivity | apply steps_refl].
Defined.
