(* ===== verification/Attempt.v ===== *)
(** * internal/domain/attempt: the Attempt aggregate

    One physical try.  Bindings to sandbox and harness are write-once, liveness
    observations are monotonic, terminalization removes the current designation
    and the lifecycle cannot loop. *)

From Stdlib Require Import ZArith Bool Lia.
From stdpp Require Import base strings list.
From S2P Require Import Prelude Regex GoStd Primitives Optimistic.

(** ** Data *)

Inductive State : Type :=
| Pending | Acquiring | Starting | Running | Interrupting
| Succeeded | Failed | Cancelled | TimedOut | Replaced.

#[export] Instance State_eq_dec : EqDecision State.
Proof. solve_decision. Defined.

#[export, refine] Instance State_enum : GoEnum State := {|
  enum_string s :=
    match s with
    | Pending => "PENDING" | Acquiring => "ACQUIRING" | Starting => "STARTING"
    | Running => "RUNNING" | Interrupting => "INTERRUPTING" | Succeeded => "SUCCEEDED"
    | Failed => "FAILED" | Cancelled => "CANCELLED" | TimedOut => "TIMED_OUT"
    | Replaced => "REPLACED"
    end;
  enum_all := [Pending; Acquiring; Starting; Running; Interrupting;
               Succeeded; Failed; Cancelled; TimedOut; Replaced]
|}.
Proof. all: [> enum_inj | enum_in]. Defined.

Inductive AttemptError : Type := ErrInvalidAttempt | ErrIllegalTransition | ErrVersionConflict.

Definition ParseState (value : string) : result EnumError State := ParseEnum value.

Record Binding : Type := mkBinding {
  ExecutionID : ID;
  ExecutionGeneration : Z;
  Number : Z
}.

Record TerminalResult : Type := mkTerminalResult { Reference : string; Digest : string }.

#[export] Instance TerminalResult_eq_dec : EqDecision TerminalResult.
Proof. solve_decision. Defined.

(** The two references and the two heartbeats are indexed by the observed part;
    a reference is the empty string until bound. *)
Inductive Part : Type := Sandbox | Harness.

Record Attempt : Type := mkAttempt {
  tenantID : ID;
  id : ID;
  binding : Binding;
  state : State;
  stateVersion : Z;
  current : bool;
  sandboxReference : ID;
  harnessReference : ID;
  sandboxHeartbeatAt : option Time;
  harnessHeartbeatAt : option Time;
  terminalResult : option TerminalResult;
  createdAt : Time;
  updatedAt : Time;
  terminalAt : option Time
}.

(** [target *primitives.ID] and [target **time.Time]: the field a helper writes. *)
Definition reference (p : Part) (a : Attempt) : ID :=
  match p with Sandbox => sandboxReference a | Harness => harnessReference a end.

Definition heartbeat (p : Part) (a : Attempt) : option Time :=
  match p with Sandbox => sandboxHeartbeatAt a | Harness => harnessHeartbeatAt a end.

(** ** Operations *)

Definition isTerminal (s : State) : bool :=
  (s == Succeeded) || (s == Failed) || (s == Cancelled) || (s == TimedOut) || (s == Replaced).

Definition validResult (r : TerminalResult) : bool :=
  is_ok (BoundedString (Reference r) 1 2048 2048) && match_string sha256_pattern (Digest r).

Definition sameResult (left right : option TerminalResult) : bool :=
  match left, right with
  | Some l, Some r => l == r
  | _, _ => false
  end.

Definition New (tenant attempt : ID) (b : Binding) (now : Time) : result AttemptError Attempt :=
  if negb (validID tenant) || negb (validID attempt) || negb (validID (ExecutionID b))
     || (ExecutionGeneration b == 0) || (Number b == 0) || IsZero now
  then Err ErrInvalidAttempt
  else Ok (mkAttempt tenant attempt b Pending 0 true "" "" None None None (UTC now) (UTC now) None).

Definition Restore (tenant attempt : ID) (b : Binding) (st : string) (version : Z) (cur : bool)
    (sandboxRef harnessRef : ID) (sandboxBeat harnessBeat : option Time)
    (res : option TerminalResult) (created updated : Time) (terminal : option Time)
  : result AttemptError Attempt :=
  if negb (validID tenant) || negb (validID attempt) || negb (validID (ExecutionID b))
     || (ExecutionGeneration b == 0) || (Number b == 0) || IsZero created
     || Before updated created || ((sandboxRef != "") && negb (validID sandboxRef))
     || ((harnessRef != "") && negb (validID harnessRef))
  then Err ErrInvalidAttempt
  else match ParseState st with
  | Err _ => Err ErrInvalidAttempt
  | Ok s =>
      if negb (eqb (isTerminal s) (is_some res && is_some terminal))
         || (isTerminal s && cur)
         || match res with Some r => negb (validResult r) | None => false end
      then Err ErrInvalidAttempt
      else Ok (mkAttempt tenant attempt b s version cur sandboxRef harnessRef
                 (copyTime sandboxBeat) (copyTime harnessBeat) res
                 (UTC created) (UTC updated) (copyTime terminal))
  end.

Definition validateMutation (self : option Attempt) (expectedVersion : Z) (now : Time)
  : result AttemptError Attempt :=
  match self with
  | None => Err ErrInvalidAttempt
  | Some a =>
      if IsZero now then Err ErrInvalidAttempt
      else if expectedVersion != stateVersion a then Err ErrVersionConflict
      else if Before (UTC now) (updatedAt a) then Err ErrInvalidAttempt
      else Ok a
  end.

(** [a.stateVersion++; a.updatedAt = now.UTC()] *)
Definition advance (a : Attempt) (now : Time) : Attempt :=
  mkAttempt (tenantID a) (id a) (binding a) (state a) (u64 (stateVersion a + 1)) (current a)
    (sandboxReference a) (harnessReference a) (sandboxHeartbeatAt a) (harnessHeartbeatAt a)
    (terminalResult a) (createdAt a) (UTC now) (terminalAt a).

Definition set_reference (p : Part) (r : ID) (a : Attempt) : Attempt :=
  mkAttempt (tenantID a) (id a) (binding a) (state a) (stateVersion a) (current a)
    (match p with Sandbox => r | Harness => sandboxReference a end)
    (match p with Sandbox => harnessReference a | Harness => r end)
    (sandboxHeartbeatAt a) (harnessHeartbeatAt a)
    (terminalResult a) (createdAt a) (updatedAt a) (terminalAt a).

Definition set_heartbeat (p : Part) (t : Time) (a : Attempt) : Attempt :=
  mkAttempt (tenantID a) (id a) (binding a) (state a) (stateVersion a) (current a)
    (sandboxReference a) (harnessReference a)
    (match p with Sandbox => Some t | Harness => sandboxHeartbeatAt a end)
    (match p with Sandbox => harnessHeartbeatAt a | Harness => Some t end)
    (terminalResult a) (createdAt a) (updatedAt a) (terminalAt a).

(** [bind]; [BindSandbox] and [BindHarness] pass the field. *)
Definition bind (self : option Attempt) (p : Part) (ref : ID) (expectedVersion : Z) (now : Time)
  : result AttemptError Attempt :=
  let! a := validateMutation self expectedVersion now in
  if negb (validID ref) || isTerminal (state a) then Err ErrInvalidAttempt
  else if reference p a != "" then
    if reference p a == ref then Ok a else Err ErrInvalidAttempt
  else Ok (advance (set_reference p ref a) now).

Definition BindSandbox self ref expectedVersion now := bind self Sandbox ref expectedVersion now.
Definition BindHarness self ref expectedVersion now := bind self Harness ref expectedVersion now.

(** [observeHeartbeat]; the two exported methods pass the field. *)
Definition observeHeartbeat (self : option Attempt) (p : Part) (expectedVersion : Z)
    (observedAt now : Time) : result AttemptError Attempt :=
  let! a := validateMutation self expectedVersion now in
  let observed := UTC observedAt in
  if negb (current a) || isTerminal (state a) || IsZero observed
     || Before observed (createdAt a) || After observed (UTC now)
     || match heartbeat p a with Some t => Before observed t | None => false end
  then Err ErrInvalidAttempt
  else Ok (advance (set_heartbeat p observed a) now).

Definition ObserveSandboxHeartbeat self expectedVersion observedAt now :=
  observeHeartbeat self Sandbox expectedVersion observedAt now.
Definition ObserveHarnessHeartbeat self expectedVersion observedAt now :=
  observeHeartbeat self Harness expectedVersion observedAt now.

(** The [legal] table: a missing key reads as [false]. *)
Definition legal (from to : State) : bool :=
  match from, to with
  | Pending, (Acquiring | Failed | Interrupting) => true
  | Acquiring, (Starting | Failed | Interrupting) => true
  | Starting, (Running | Failed | Interrupting) => true
  | Running, (Succeeded | Failed | Interrupting) => true
  | Interrupting, (Cancelled | TimedOut | Replaced | Failed) => true
  | _, _ => false
  end.

(** The record after [a.state = next; a.advance(now)] and the result assignment. *)
Definition moved (a : Attempt) (n : State) (res : option TerminalResult) (now : Time) : Attempt :=
  mkAttempt (tenantID a) (id a) (binding a) n (u64 (stateVersion a + 1))
    (match res with Some _ => false | None => current a end)
    (sandboxReference a) (harnessReference a) (sandboxHeartbeatAt a) (harnessHeartbeatAt a)
    (match res with Some r => Some r | None => terminalResult a end)
    (createdAt a) (UTC now)
    (match res with Some _ => Some (UTC now) | None => terminalAt a end).

Definition Transition (self : option Attempt) (next : string) (expectedVersion : Z)
    (res : option TerminalResult) (now : Time) : result AttemptError Attempt :=
  let! a := validateMutation self expectedVersion now in
  match ParseState next with
  | Err _ => Err ErrInvalidAttempt
  | Ok n =>
      if n == state a then
        if isTerminal n && sameResult (terminalResult a) res then Ok a
        else Err ErrIllegalTransition
      else if negb (legal (state a) n) then Err ErrIllegalTransition
      else if negb (eqb (isTerminal n) (is_some res))
              || match res with Some r => negb (validResult r) | None => false end
      then Err ErrInvalidAttempt
      else Ok (moved a n res now)
  end.

(** ** Commands, runs, invariant *)

Inductive Command : Type :=
| CBind (p : Part) (ref : ID) (v : Z) (now : Time)
| CBeat (p : Part) (v : Z) (observedAt now : Time)
| CTransition (next : string) (v : Z) (res : option TerminalResult) (now : Time).

Definition c_version (c : Command) : Z :=
  match c with CBind _ _ v _ | CBeat _ v _ _ | CTransition _ v _ _ => v end.

Definition c_now (c : Command) : Time :=
  match c with CBind _ _ _ now | CBeat _ _ _ now | CTransition _ _ _ now => now end.

Definition exec (a : Attempt) (c : Command) : result AttemptError Attempt :=
  match c with
  | CBind Sandbox r v now => BindSandbox (Some a) r v now
  | CBind Harness r v now => BindHarness (Some a) r v now
  | CBeat Sandbox v o now => ObserveSandboxHeartbeat (Some a) v o now
  | CBeat Harness v o now => ObserveHarnessHeartbeat (Some a) v o now
  | CTransition n v res now => Transition (Some a) n v res now
  end.

Inductive steps : Attempt -> list State -> Attempt -> Prop :=
| steps_refl a : steps a [] a
| steps_one a c a' tr a'' :
    exec a c = Ok a' -> steps a' tr a'' -> steps a (state a' :: tr) a''.

Inductive reachable : Attempt -> Prop :=
| reach_new t i b now a : New t i b now = Ok a -> reachable a
| reach_step a c a' : reachable a -> exec a c = Ok a' -> reachable a'.

Definition beat_ok (a : Attempt) (t : Time) : Prop :=
  is_utc t /\ nanos (createdAt a) <= nanos t <= nanos (updatedAt a).

Record wf (a : Attempt) : Prop := {
  wf_tenant : validID (tenantID a) = true;
  wf_id : validID (id a) = true;
  wf_execution : validID (ExecutionID (binding a)) = true;
  wf_fence : ExecutionGeneration (binding a) <> 0 /\ Number (binding a) <> 0;
  wf_version : is_u64 (stateVersion a);
  wf_reference : forall p, reference p a = "" \/ validID (reference p a) = true;
  wf_heartbeat : forall p t, heartbeat p a = Some t -> beat_ok a t;
  wf_current : current a = negb (isTerminal (state a));
  wf_result : match terminalResult a with
              | Some r => isTerminal (state a) = true /\ validResult r = true
              | None => isTerminal (state a) = false
              end;
  wf_terminal : match terminalAt a with
                | Some t => isTerminal (state a) = true /\ t = updatedAt a
                | None => isTerminal (state a) = false
                end;
  wf_created : nanos (createdAt a) <> 0;
  wf_order : nanos (createdAt a) <= nanos (updatedAt a);
  wf_utc : is_utc (createdAt a) /\ is_utc (updatedAt a)
}.

(** ** Lemmas *)

Lemma validateMutation_ok self v now a :
  validateMutation self v now = Ok a ->
  self = Some a /\ IsZero now = false /\ v = stateVersion a /\ nanos (updatedAt a) <= nanos now.
Proof. unfold validateMutation. intros H. ok_inv H. repeat split; try done. tlia. Qed.

(** What an accepted command does: nothing, or exactly one of three updates. *)
Inductive effect (a : Attempt) (now : Time) : Attempt -> Prop :=
| eff_none : effect a now a
| eff_bind p r : validID r = true -> isTerminal (state a) = false -> reference p a = "" ->
    effect a now (advance (set_reference p r a) now)
| eff_beat p o : current a = true -> isTerminal (state a) = false -> is_utc o ->
    nanos (createdAt a) <= nanos o <= nanos now ->
    (forall t, heartbeat p a = Some t -> nanos t <= nanos o) ->
    effect a now (advance (set_heartbeat p o a) now)
| eff_move n res : legal (state a) n = true -> isTerminal n = is_some res ->
    (forall r, res = Some r -> validResult r = true) ->
    effect a now (moved a n res now).

Lemma bind_effect a p r v now a' :
  bind (Some a) p r v now = Ok a' ->
  v = stateVersion a /\ nanos (updatedAt a) <= nanos now /\ effect a now a'.
Proof.
  unfold bind. intros H. ok_inv_step H. apply validateMutation_ok in Heqr0 as (E & _ & -> & Hu).
  ok_inv H; (split; [done |]); (split; [done |]); constructor; try done.
Qed.

Lemma beat_effect a p v o now a' :
  observeHeartbeat (Some a) p v o now = Ok a' ->
  v = stateVersion a /\ nanos (updatedAt a) <= nanos now /\ effect a now a'.
Proof.
  unfold observeHeartbeat. intros H. ok_inv_step H.
  apply validateMutation_ok in Heqr as (E & _ & -> & Hu).
  ok_inv H. split; [done |]. split; [done |].
  constructor; try done; [tlia |]. intros t Ht.
  match goal with G : match heartbeat p _ with _ => _ end = false |- _ => rewrite Ht in G; tlia end.
Qed.

Lemma transition_effect a n v res now a' :
  Transition (Some a) n v res now = Ok a' ->
  v = stateVersion a /\ nanos (updatedAt a) <= nanos now /\ effect a now a'.
Proof.
  unfold Transition. intros H. ok_inv_step H.
  apply validateMutation_ok in Heqr as (E & _ & -> & Hu). simplify_eq.
  split; [done |]. split; [done |].
  ok_inv H; constructor; try done. intros r ->. by simp_bool.
Qed.

Lemma attempt_exec_effect a c a' : exec a c = Ok a' ->
  c_version c = stateVersion a /\ nanos (updatedAt a) <= nanos (c_now c) /\ effect a (c_now c) a'.
Proof.
  destruct c as [[] r v now | [] v o now | n v res now]; cbn; intros H;
    eauto using bind_effect, beat_effect, transition_effect.
Qed.

#[export, refine] Instance Attempt_versioned : Versioned Attempt Command AttemptError := {|
  version := stateVersion;
  presented := c_version;
  apply := exec
|}.
Proof.
  - intros a c a' H. by apply attempt_exec_effect in H as [? _].
  - intros a c a' H. apply attempt_exec_effect in H as (_ & _ & []); auto.
Defined.

Lemma attempt_legal_not_terminal s n : legal s n = true -> isTerminal s = false.
Proof. by destruct s, n. Qed.

Lemma attempt_wf_New t i b now a : New t i b now = Ok a -> wf a.
Proof.
  unfold New. intros H. ok_inv H. constructor; cbn; auto with go.
  - split; cbn; unfold two64; lia.
  - intros []; by left.
  - intros [] ? ?; done.
  - tlia.
  - lia.
Qed.

Ltac attempt_fields :=
  cbn [advance set_reference set_heartbeat moved tenantID id binding state stateVersion current
       sandboxReference harnessReference sandboxHeartbeatAt harnessHeartbeatAt terminalResult
       createdAt updatedAt terminalAt] in *.

(** Observations stay ordered when the clock moves on. *)
Lemma beat_ok_later a a' now t :
  beat_ok a t -> createdAt a' = createdAt a -> updatedAt a' = UTC now ->
  nanos (updatedAt a) <= nanos now -> beat_ok a' t.
Proof. intros [Hu Ht] Hc Hn Hle. split; [done |]. rewrite Hc, Hn. cbn. lia. Qed.

Lemma wf_effect a now a' :
  wf a -> nanos (updatedAt a) <= nanos now -> effect a now a' -> wf a'.
Proof.
  intros W Hu [| p r Hr HT Hp | p o Hc HT Ho Hb Hm | n res Hl HT HV]; [done | ..];
    destruct W as [W1 W2 W3 W4 W5 W6 W7 W8 W9 W10 W11 W12 [W13 W14]].
  all: constructor; attempt_fields; auto using u64_range with go; try tlia.
  all: try (by destruct (terminalResult a) || by destruct (terminalAt a)).
  all: try (intros q t Ht; eapply beat_ok_later; [apply (W7 q); exact Ht | done | done | done]).
  - intros q. destruct p, q; cbn; auto; (apply (W6 Sandbox) || apply (W6 Harness)).
  - destruct (terminalAt a); [destruct W10; congruence | done].
  - intros q t Ht. destruct p, q; cbn in Ht; simplify_eq;
      try (eapply beat_ok_later; [apply (W7 Sandbox); exact Ht | done ..]);
      try (eapply beat_ok_later; [apply (W7 Harness); exact Ht | done ..]);
      (split; [done |]; cbn; lia).
  - destruct (terminalAt a); [destruct W10; congruence | done].
  - rewrite W8. destruct res; cbn in HT; rewrite HT; cbn; [done |].
    by rewrite (attempt_legal_not_terminal _ _ Hl).
  - apply attempt_legal_not_terminal in Hl. destruct res as [r |]; [auto |].
    destruct (terminalResult a); [destruct W9; congruence | done].
  - apply attempt_legal_not_terminal in Hl. destruct res as [r |]; [auto |].
    destruct (terminalAt a); [destruct W10; congruence | done].
Qed.

Lemma attempt_wf_exec a c a' : wf a -> exec a c = Ok a' -> wf a'.
Proof. intros W H. apply attempt_exec_effect in H as (_ & Hu & He). by apply (wf_effect a (c_now c)). Qed.

Lemma attempt_wf_reachable a : reachable a -> wf a.
Proof. induction 1; eauto using attempt_wf_New, attempt_wf_exec. Qed.

(** The order of an Attempt's history: identity, fence and creation are fixed,
    a bound reference and a terminal result stay, observations do not go back. *)
Record extends (a a' : Attempt) : Prop := {
  ext_identity : tenantID a' = tenantID a /\ id a' = id a /\ binding a' = binding a
                 /\ createdAt a' = createdAt a;
  ext_reference : forall p, reference p a <> "" -> reference p a' = reference p a;
  ext_heartbeat : forall p t, heartbeat p a = Some t ->
                  exists t', heartbeat p a' = Some t' /\ nanos t <= nanos t';
  ext_result : forall r, terminalResult a = Some r -> terminalResult a' = Some r;
  ext_current : current a = false -> current a' = false;
  ext_updated : nanos (updatedAt a) <= nanos (updatedAt a')
}.

#[export] Instance extends_preorder : PreOrder extends.
Proof.
  split.
  - intros a. split; eauto using Z.le_refl.
  - intros a b c [I1 R1 H1 T1 C1 U1] [I2 R2 H2 T2 C2 U2]. split.
    + destruct I1 as (? & ? & ? & ?), I2 as (? & ? & ? & ?). repeat split; congruence.
    + intros p Hp. rewrite <- (R1 p Hp) in Hp |- *. auto.
    + intros p t Ht. destruct (H1 p t Ht) as (t1 & Ht1 & L1).
      destruct (H2 p t1 Ht1) as (t2 & Ht2 & L2). exists t2. split; [done | lia].
    + auto.
    + auto.
    + lia.
Qed.

Lemma effect_extends a now a' :
  wf a -> nanos (updatedAt a) <= nanos now -> effect a now a' -> extends a a'.
Proof.
  intros W Hu [| p r Hr HT Hp | p o Hc HT Ho Hb Hm | n res Hl HT HV]; [reflexivity | ..];
    split; attempt_fields; eauto using Z.le_refl.
  - intros [] Hq; destruct p; cbn in *; congruence.
  - intros [] t Ht; destruct p; cbn in *; eauto using Z.le_refl.
  - intros r Hr. apply attempt_legal_not_terminal in Hl. pose proof (wf_result a W) as R.
    rewrite Hr in R. destruct R; congruence.
  - intros Hc. destruct res; [done | exact Hc].
Qed.

Lemma exec_extends a c a' : wf a -> exec a c = Ok a' -> extends a a'.
Proof.
  intros W H. apply attempt_exec_effect in H as (_ & Hu & He). by apply (effect_extends a (c_now c)).
Qed.

(** Lifecycle rank: every edge climbs. *)
Definition rank (s : State) : nat :=
  match s with
  | Pending => 0 | Acquiring => 1 | Starting => 2 | Running => 3 | Interrupting => 4
  | Succeeded | Failed | Cancelled | TimedOut | Replaced => 5
  end.

Lemma legal_rank s n : legal s n = true -> (rank s < rank n)%nat.
Proof. destruct s, n; cbn; (discriminate || lia). Qed.

(** State changes along a sequence of states. *)
Fixpoint changes (from : State) (tr : list State) : nat :=
  match tr with
  | [] => 0
  | s :: tr' => (if from == s then 0 else 1) + changes s tr'
  end.

Lemma exec_rank a c a' : exec a c = Ok a' ->
  state a' = state a \/ (rank (state a) < rank (state a'))%nat.
Proof.
  intros H. apply attempt_exec_effect in H as (_ & _ & []); auto.
  right. cbn. by apply legal_rank.
Qed.

(** ** Theorems *)

(** Every reachable Attempt satisfies the aggregate invariant; in particular
    it is current exactly while it is not terminal, carries a result exactly when
    it is terminal, and its liveness observations lie between creation and the
    last update. *)
Theorem attempt_invariant a (R : reachable a) : wf a.
Proof. by apply attempt_wf_reachable. Qed.

(** History is append-only: along any run an Attempt keeps its identity,
    generation and ordinal fence, its bound references and its terminal result,
    never becomes current again, and its observations and update time never go
    back. *)
Theorem attempt_history_append_only a tr a' (R : reachable a) (S : steps a tr a') : extends a a'.
Proof.
  apply attempt_wf_reachable in R. induction S as [a | a c a1 tr a2 H S IH]; [reflexivity |].
  transitivity a1; [by apply (exec_extends a c) | eauto using attempt_wf_exec].
Qed.

(** The lifecycle terminates: along any run an Attempt changes state at most
    five times, however many commands it receives. *)
Theorem attempt_lifecycle_bounded a tr a' (S : steps a tr a') :
  (changes (state a) tr + rank (state a) <= rank (state a'))%nat
  /\ (changes (state a) tr <= 5)%nat.
Proof.
  assert (B : (changes (state a) tr + rank (state a) <= rank (state a'))%nat).
  { induction S as [a | a c a1 tr a2 H S IH]; cbn; [lia |].
    destruct (exec_rank a c a1 H) as [E | L].
    - rewrite E in IH |- *. rewrite bool_decide_eq_true_2 by done. lia.
    - destruct (state a == state a1) eqn:E; simp_bool; lia. }
  split; [done |]. destruct (state a'); cbn in B; lia.
Qed.

Lemma attempt_restore_wf a (W : wf a) :
  Restore (tenantID a) (id a) (binding a) (enum_string (state a)) (stateVersion a) (current a)
    (sandboxReference a) (harnessReference a) (sandboxHeartbeatAt a) (harnessHeartbeatAt a)
    (terminalResult a) (createdAt a) (updatedAt a) (terminalAt a) = Ok a.
Proof.
  destruct W as [W1 W2 W3 [W4 W4'] W5 W6 W7 W8 W9 W10 W11 W12 [W13 W14]].
  pose proof (W6 Sandbox) as RS. pose proof (W6 Harness) as RH.
  pose proof (W7 Sandbox) as BS. pose proof (W7 Harness) as BH. clear W6 W7.
  destruct a as [t i b st ver cur sr hr sb hb res cr up ter]. cbn [reference heartbeat] in *.
  attempt_fields. unfold Restore. rewrite W1, W2, W3, !bool_decide_eq_false_2 by done.
  replace (IsZero cr) with false by tlia. replace (Before up cr) with false by tlia.
  assert (OK : forall r : ID, r = "" \/ validID r = true -> (r != "") && negb (validID r) = false)
    by (intros r [-> | ->]; [done | apply andb_false_r]).
  rewrite !OK by done. cbn [negb orb]. unfold ParseState. rewrite ParseEnum_print, W8.
  rewrite (copyTime_utc sb) by (intros x Hx; by destruct (BS x Hx)).
  rewrite (copyTime_utc hb) by (intros x Hx; by destruct (BH x Hx)).
  rewrite (copyTime_utc ter) by (intros x ->; by destruct W10 as [_ ->]).
  rewrite !UTC_of_utc, andb_negb_r by done.
  destruct res as [r |], ter as [x |]; cbn [is_some andb orb];
    [ destruct W9 as [-> ->]; done
    | destruct W9; congruence | destruct W10; congruence | by rewrite W9 ].
Qed.

(** Persistence round trip for Attempts. *)
Theorem attempt_restore_roundtrip a (R : reachable a) :
  Restore (tenantID a) (id a) (binding a) (enum_string (state a)) (stateVersion a) (current a)
    (sandboxReference a) (harnessReference a) (sandboxHeartbeatAt a) (harnessHeartbeatAt a)
    (terminalResult a) (createdAt a) (updatedAt a) (terminalAt a) = Ok a.
Proof. by apply attempt_restore_wf, attempt_wf_reachable. Qed.

(** ** Witnesses *)

Definition ex_binding : Binding := mkBinding id3 1 1.

Definition ex0 : Attempt :=
  mkAttempt id1 id2 ex_binding Pending 0 true "" "" None None None (at_second 0) (at_second 0) None.

Definition ex_result : TerminalResult := mkTerminalResult "evidence/1" digest_a.

Definition ex_commands : list Command :=
  [ CBind Sandbox id4 0 (at_second 1); CTransition "ACQUIRING" 1 None (at_second 2);
    CBeat Sandbox 2 (at_second_local 3) (at_second 4);
    CTransition "FAILED" 3 (Some ex_result) (at_second 5) ].

Definition ex4 : Attempt := run_commands ex0 ex_commands.

Definition ex_trace : list State := [Pending; Acquiring; Acquiring; Failed].

Lemma attempt_ex0_reachable : reachable ex0.
Proof. apply (reach_new id1 id2 ex_binding (at_second_local 0)). vm_compute. reflexivity. Qed.

Ltac step_with c :=
  match goal with
  | |- steps ?a _ _ =>
      let a' := eval vm_compute in (attempt_command a c) in
      apply (steps_one a c a'); [vm_compute; reflexivity |]
  end.

Lemma ex4_steps : steps ex0 ex_trace ex4.
Proof.
  unfold ex_trace.
  step_with (CBind Sandbox id4 0 (at_second 1)).
  step_with (CTransition "ACQUIRING" 1 None (at_second 2)).
  step_with (CBeat Sandbox 2 (at_second_local 3) (at_second 4)).
  step_with (CTransition "FAILED" 3 (Some ex_result) (at_second 5)).
  vm_compute. constructor.
Qed.

Lemma steps_reachable a tr a' : reachable a -> steps a tr a' -> reachable a'.
Proof. intros R S. induction S; eauto using reach_step. Qed.

Lemma ex4_reachable : reachable ex4.
Proof. exact (steps_reachable _ _ _ attempt_ex0_reachable ex4_steps). Qed.

Lemma attempt_invariant_witness : wf ex4 /\ current ex4 = false.
Proof. split; [apply (attempt_invariant ex4 ex4_reachable) | vm_compute; reflexivity]. Defined.

Lemma attempt_history_witness : extends ex0 ex4.
Proof. exact (attempt_history_append_only ex0 ex_trace ex4 attempt_ex0_reachable ex4_steps). Defined.

Lemma attempt_lifecycle_bounded_witness :
  (changes Pending ex_trace + 0 <= 5)%nat /\ (changes Pending ex_trace <= 5)%nat.
Proof. exact (attempt_lifecycle_bounded ex0 ex_trace ex4 ex4_steps). Defined.

Lemma attempt_restore_roundtrip_witness :
  Restore id1 id2 ex_binding "FAILED" 4 false id4 "" (Some (at_second 3)) None (Some ex_result)
    (at_second 0) (at_second 5) (Some (at_second 5)) = Ok ex4.
Proof. exact (attempt_restore_roundtrip ex4 ex4_reachable). Defined.
