(* ===== verification/Idempotency.v ===== *)
(** * internal/domain/idempotency: durable mutation identity

    A Record elects one owner of a logical mutation at a time, and replays one
    terminal outcome.  Proved: the record's own validity check is preserved while
    the clock does not go back, a superseded owner can neither renew nor
    complete, and a terminal outcome is final.  The missing clock guard of
    [Renew] is shown by an example. *)

From Stdlib Require Import ZArith Bool Lia.
From stdpp Require Import base strings list.
From S2P Require Import Prelude Regex GoStd Primitives Lease.

(** ** Data *)

Inductive State : Type := InProgress | Succeeded | Failed.

#[export] Instance State_eq_dec : EqDecision State.
Proof. solve_decision. Defined.

#[export, refine] Instance State_enum : GoEnum State := {|
  enum_string s :=
    match s with
    | InProgress => "IN_PROGRESS" | Succeeded => "SUCCEEDED" | Failed => "FAILED"
    end;
  enum_all := [InProgress; Succeeded; Failed]
|}.
Proof. all: [> enum_inj | enum_in]. Defined.

Inductive RecordError : Type := ErrInvalidRecord | ErrOwnership.

Record Scope : Type := mkScope {
  PrincipalDigest : string;
  Action : string;
  KeyDigest : string
}.

Record Response : Type := mkResponse {
  HTTPStatus : Z;
  Payload : string;
  Reference : string
}.

Record Failure : Type := mkFailure {
  FHTTPStatus : Z;
  ProblemType : string;
  ProblemCode : string
}.

Record Record_ : Type := mkRecord {
  tenantID : ID;
  id : ID;
  operationID : ID;
  resourceID : ID;
  ownerID : ID;
  auditCorrelationID : ID;
  scope : Scope;
  normalizationVersion : string;
  requestDigest : string;
  state : State;
  ownerFence : Z;
  leaseExpiresAt : option Time;
  completedAt : option Time;
  response : option Response;
  failure : option Failure;
  createdAt : Time;
  updatedAt : Time;
  expiresAt : Time
}.

(** ** Operations *)

Definition boundedIdentifier (v : string) (max : Z) : bool :=
  (len v <=? max) && match_string name_pattern v.

Definition boundedOptional (v : string) (max : Z) : bool :=
  (v == "") || ((len v <=? max) && no_byte 0 v).

Definition validScope (s : Scope) : bool :=
  match_string sha256_pattern (PrincipalDigest s) && boundedIdentifier (Action s) 255
  && match_string sha256_pattern (KeyDigest s).

Definition validResponse (v : Response) : bool :=
  (200 <=? HTTPStatus v) && (HTTPStatus v <=? 399) && (len (Payload v) <=? 65536)
  && ((0 <? len (Payload v)) || (Reference v != "")) && boundedOptional (Reference v) 2048.

Definition validFailure (v : Failure) : bool :=
  (400 <=? FHTTPStatus v) && (FHTTPStatus v <=? 499)
  && boundedIdentifier (ProblemType v) 255 && boundedIdentifier (ProblemCode v) 128.

(** The copies share no memory with their argument; as values they are equal. *)
Definition copyResponse (v : option Response) : option Response := v.
Definition copyFailure (v : option Failure) : option Failure := v.

Definition New (tenant i : ID) (sc : Scope) (normalization digest : string)
    (operation resource owner audit : ID) (lease expires now : Time)
  : result RecordError Record_ :=
  if negb (validIDs [tenant; i; operation; owner; audit])
     || ((resource != "") && negb (validIDs [resource]))
     || negb (validScope sc) || negb (boundedIdentifier normalization 64)
     || negb (match_string sha256_pattern digest)
     || IsZero now || negb (After lease now) || negb (After expires lease)
  then Err ErrInvalidRecord
  else Ok (mkRecord tenant i operation resource owner audit sc normalization digest InProgress 1
             (Some (UTC lease)) None None None (UTC now) (UTC now) (UTC expires)).

(** [(r *Record) valid] *)
Definition valid (r : Record_) : bool :=
  validIDs [tenantID r; id r; operationID r; ownerID r; auditCorrelationID r]
  && ((resourceID r == "") || validIDs [resourceID r])
  && validScope (scope r) && boundedIdentifier (normalizationVersion r) 64
  && match_string sha256_pattern (requestDigest r)
  && (ownerFence r != 0) && negb (IsZero (createdAt r))
  && negb (Before (updatedAt r) (createdAt r)) && After (expiresAt r) (createdAt r)
  && match state r with
     | InProgress =>
         match leaseExpiresAt r with Some l => After (expiresAt r) l | None => false end
         && negb (is_some (completedAt r)) && negb (is_some (response r))
         && negb (is_some (failure r))
     | Succeeded =>
         negb (is_some (leaseExpiresAt r)) && is_some (completedAt r) && negb (is_some (failure r))
         && match response r with Some v => validResponse v | None => false end
     | Failed =>
         negb (is_some (leaseExpiresAt r)) && is_some (completedAt r) && negb (is_some (response r))
         && match failure r with Some v => validFailure v | None => false end
     end.

(** An unknown state string falls into the default case of [valid]. *)
Definition Restore (tenant i : ID) (sc : Scope) (normalization digest : string)
    (operation resource owner audit : ID) (st : string) (fence : Z) (lease : option Time)
    (resp : option Response) (fail : option Failure) (created updated : Time)
    (completed : option Time) (expires : Time) : result RecordError Record_ :=
  match ParseEnum st with
  | Err _ => Err ErrInvalidRecord
  | Ok s =>
      let r := mkRecord tenant i operation resource owner audit sc normalization digest s fence
                 (copyTime lease) (copyTime completed) (copyResponse resp) (copyFailure fail)
                 (UTC created) (UTC updated) (UTC expires) in
      if negb (valid r) then Err ErrInvalidRecord else Ok r
  end.

(** The record with a new lease, as [TakeOwnership] and [Renew] leave it. *)
Definition leased (r : Record_) (owner : ID) (fence : Z) (lease now : Time) : Record_ :=
  mkRecord (tenantID r) (id r) (operationID r) (resourceID r) owner (auditCorrelationID r)
    (scope r) (normalizationVersion r) (requestDigest r) (state r) fence (Some (UTC lease))
    (completedAt r) (response r) (failure r) (createdAt r) (UTC now) (expiresAt r).

Definition TakeOwnership (self : option Record_) (owner : ID) (expectedFence : Z) (lease now : Time)
  : result RecordError Record_ :=
  match self with
  | None => Err ErrOwnership
  | Some r =>
      if (state r != InProgress) || (expectedFence != ownerFence r) || negb (validIDs [owner])
         || IsZero now
         || match leaseExpiresAt r with Some l => Before (UTC now) l | None => true end
         || negb (After lease now) || negb (After (expiresAt r) lease)
      then Err ErrOwnership
      else Ok (leased r owner (u64 (ownerFence r + 1)) lease now)
  end.

Definition Renew (self : option Record_) (owner : ID) (fence : Z) (lease now : Time)
  : result RecordError Record_ :=
  match self with
  | None => Err ErrOwnership
  | Some r =>
      if (state r != InProgress) || (ownerID r != owner) || (ownerFence r != fence) || IsZero now
         || match leaseExpiresAt r with Some l => After (UTC now) l | None => true end
         || negb (After lease now)
         || match leaseExpiresAt r with Some l => negb (After lease l) | None => true end
         || negb (After (expiresAt r) lease)
      then Err ErrOwnership
      else Ok (leased r (ownerID r) (ownerFence r) lease now)
  end.

Definition canComplete (self : option Record_) (owner : ID) (fence : Z) (now : Time) : bool :=
  match self with
  | None => false
  | Some r =>
      (state r == InProgress) && (ownerID r == owner) && (ownerFence r == fence)
      && negb (IsZero now)
      && match leaseExpiresAt r with Some l => negb (After (UTC now) l) | None => false end
      && negb (Before (UTC now) (updatedAt r))
  end.

(** The record completed with an outcome. *)
Definition completed (r : Record_) (s : State) (resp : option Response) (fail : option Failure)
    (now : Time) : Record_ :=
  mkRecord (tenantID r) (id r) (operationID r) (resourceID r) (ownerID r) (auditCorrelationID r)
    (scope r) (normalizationVersion r) (requestDigest r) s (ownerFence r) None
    (Some (UTC now)) resp fail (createdAt r) (UTC now) (expiresAt r).

Definition Succeed (self : option Record_) (resp : Response) (owner : ID) (fence : Z) (now : Time)
  : result RecordError Record_ :=
  if negb (canComplete self owner fence now) then Err ErrOwnership
  else if negb (validResponse resp) then Err ErrInvalidRecord
  else match self with
  | None => Err ErrOwnership
  | Some r => Ok (completed r Succeeded (copyResponse (Some resp)) (failure r) now)
  end.

Definition Fail (self : option Record_) (fail : Failure) (owner : ID) (fence : Z) (now : Time)
  : result RecordError Record_ :=
  if negb (canComplete self owner fence now) then Err ErrOwnership
  else if negb (validFailure fail) then Err ErrInvalidRecord
  else match self with
  | None => Err ErrOwnership
  | Some r => Ok (completed r Failed (response r) (copyFailure (Some fail)) now)
  end.

(** ** Commands *)

Inductive Command : Type :=
| CTake (owner : ID) (fence : Z) (lease now : Time)
| CRenew (owner : ID) (fence : Z) (lease now : Time)
| CSucceed (resp : Response) (owner : ID) (fence : Z) (now : Time)
| CFail (fail : Failure) (owner : ID) (fence : Z) (now : Time).

Definition c_fence (c : Command) : Z :=
  match c with CTake _ f _ _ | CRenew _ f _ _ | CSucceed _ _ f _ | CFail _ _ f _ => f end.

Definition c_now (c : Command) : Time :=
  match c with CTake _ _ _ now | CRenew _ _ _ now | CSucceed _ _ _ now | CFail _ _ _ now => now end.

Definition is_take (c : Command) : bool := match c with CTake _ _ _ _ => true | _ => false end.

Definition exec (r : Record_) (c : Command) : result RecordError Record_ :=
  match c with
  | CTake o f l now => TakeOwnership (Some r) o f l now
  | CRenew o f l now => Renew (Some r) o f l now
  | CSucceed v o f now => Succeed (Some r) v o f now
  | CFail v o f now => Fail (Some r) v o f now
  end.

(** ** Lemmas *)

(** What an accepted command requires of the record and how it leaves it. *)
Inductive effect (r : Record_) : Command -> Record_ -> Prop :=
| eff_take o l l0 now : validIDs [o] = true -> leaseExpiresAt r = Some l0 ->
    nanos l0 <= nanos now -> nanos now < nanos l < nanos (expiresAt r) ->
    effect r (CTake o (ownerFence r) l now) (leased r o (u64 (ownerFence r + 1)) l now)
| eff_renew l l0 now : leaseExpiresAt r = Some l0 ->
    nanos now <= nanos l0 -> nanos l0 < nanos l -> nanos now < nanos l < nanos (expiresAt r) ->
    effect r (CRenew (ownerID r) (ownerFence r) l now) (leased r (ownerID r) (ownerFence r) l now)
| eff_succeed v l0 now : leaseExpiresAt r = Some l0 -> validResponse v = true ->
    nanos (updatedAt r) <= nanos now <= nanos l0 ->
    effect r (CSucceed v (ownerID r) (ownerFence r) now)
      (completed r Succeeded (Some v) (failure r) now)
| eff_fail v l0 now : leaseExpiresAt r = Some l0 -> validFailure v = true ->
    nanos (updatedAt r) <= nanos now <= nanos l0 ->
    effect r (CFail v (ownerID r) (ownerFence r) now)
      (completed r Failed (response r) (Some v) now).

Lemma canComplete_ok r o f now : canComplete (Some r) o f now = true ->
  state r = InProgress /\ o = ownerID r /\ f = ownerFence r /\ IsZero now = false
  /\ exists l0, leaseExpiresAt r = Some l0 /\ nanos (updatedAt r) <= nanos now <= nanos l0.
Proof.
  unfold canComplete. intros H. simp_bool. destruct (leaseExpiresAt r) as [l |]; simp_bool.
  repeat split; try done. exists l. split; [done | tlia].
Qed.

Lemma idempotency_exec_effect r c r' : exec r c = Ok r' ->
  state r = InProgress /\ IsZero (c_now c) = false /\ effect r c r'.
Proof.
  destruct c as [o f l now | o f l now | v o f now | v o f now]; cbn [exec c_now]; intros H.
  - unfold TakeOwnership in H. destruct (_ || _) eqn:G in H; [discriminate H |].
    injection H as <-. destruct (leaseExpiresAt r) as [l0 |] eqn:L; simp_bool.
    repeat split; try done. econstructor; eauto; tlia.
  - unfold Renew in H. destruct (_ || _) eqn:G in H; [discriminate H |].
    injection H as <-. destruct (leaseExpiresAt r) as [l0 |] eqn:L; simp_bool.
    repeat split; try done. econstructor; eauto; tlia.
  - unfold Succeed in H. ok_inv H.
    match goal with C : canComplete _ _ _ _ = true |- _ =>
      apply canComplete_ok in C as (? & -> & -> & ? & l0 & ? & ?) end.
    repeat split; try done. by apply (eff_succeed r v l0).
  - unfold Fail in H. ok_inv H.
    match goal with C : canComplete _ _ _ _ = true |- _ =>
      apply canComplete_ok in C as (? & -> & -> & ? & l0 & ? & ?) end.
    repeat split; try done. by apply (eff_fail r v l0).
Qed.

#[export, refine] Instance Record_fenced : Fenced Record_ Command RecordError := {|
  fence := ownerFence;
  presents c := Some (c_fence c);
  claims := is_take;
  perform := exec
|}.
Proof.
  - intros r c r' f H P. apply idempotency_exec_effect in H as (_ & _ & He). inversion He; subst; cbn in P; congruence.
  - intros r c r' H. by apply idempotency_exec_effect in H as (_ & _ & []).
Defined.

Ltac record_fields :=
  cbn [leased completed tenantID id operationID resourceID ownerID auditCorrelationID scope
       normalizationVersion requestDigest state ownerFence leaseExpiresAt completedAt response
       failure createdAt updatedAt expiresAt] in *.

(** The state-independent part of [valid], as facts. *)
Lemma valid_inv r : valid r = true ->
  validIDs [tenantID r; id r; operationID r; ownerID r; auditCorrelationID r] = true
  /\ (resourceID r == "") || validIDs [resourceID r] = true
  /\ validScope (scope r) = true /\ boundedIdentifier (normalizationVersion r) 64 = true
  /\ match_string sha256_pattern (requestDigest r) = true
  /\ ownerFence r <> 0 /\ IsZero (createdAt r) = false
  /\ nanos (createdAt r) <= nanos (updatedAt r) /\ nanos (createdAt r) < nanos (expiresAt r)
  /\ (state r = InProgress -> completedAt r = None /\ response r = None /\ failure r = None).
Proof.
  unfold valid. intros H. apply andb_true_iff in H as [H HS]. simp_bool.
  split_and!; try done; try tlia. intros E. rewrite E in HS. by simp_bool.
Qed.

Lemma valid_intro r :
  validIDs [tenantID r; id r; operationID r; ownerID r; auditCorrelationID r] = true ->
  (resourceID r == "") || validIDs [resourceID r] = true ->
  validScope (scope r) = true -> boundedIdentifier (normalizationVersion r) 64 = true ->
  match_string sha256_pattern (requestDigest r) = true ->
  ownerFence r <> 0 -> IsZero (createdAt r) = false ->
  nanos (createdAt r) <= nanos (updatedAt r) -> nanos (createdAt r) < nanos (expiresAt r) ->
  match state r with
  | InProgress => completedAt r = None /\ response r = None /\ failure r = None
      /\ exists l, leaseExpiresAt r = Some l /\ nanos l < nanos (expiresAt r)
  | Succeeded => leaseExpiresAt r = None /\ completedAt r <> None /\ failure r = None
      /\ exists v, response r = Some v /\ validResponse v = true
  | Failed => leaseExpiresAt r = None /\ completedAt r <> None /\ response r = None
      /\ exists v, failure r = Some v /\ validFailure v = true
  end -> valid r = true.
Proof.
  intros H1 H2 H3 H4 H5 H6 H7 H8 H9 HS. unfold valid.
  rewrite H1, H2, H3, H4, H5, H7, bool_decide_eq_false_2 by done.
  replace (Before (updatedAt r) (createdAt r)) with false by tlia.
  replace (After (expiresAt r) (createdAt r)) with true by tlia. cbn [negb andb].
  destruct (state r).
  - destruct HS as (-> & -> & -> & l & -> & Hl). replace (After (expiresAt r) l) with true by tlia.
    done.
  - destruct HS as (-> & Hc & -> & v & -> & ->). by destruct (completedAt r).
  - destruct HS as (-> & Hc & -> & v & -> & ->). by destruct (completedAt r).
Qed.

Lemma valid_exec r c r' :
  valid r = true -> nanos (updatedAt r) <= nanos (c_now c) ->
  0 <= ownerFence r < two64 - 1 -> exec r c = Ok r' -> valid r' = true.
Proof.
  intros V Hu Hf H. apply idempotency_exec_effect in H as (HS & Hz & He).
  apply valid_inv in V as (V1 & V2 & V3 & V4 & V5 & V6 & V7 & V8 & V9 & V10).
  destruct (V10 HS) as (C1 & C2 & C3).
  destruct He as [o l l0 now Ho Hl Hn Hx | l l0 now Hl Hn Hlt Hx | v l0 now Hl Hv Hx | v l0 now Hl Hv Hx];
    cbn [c_now] in *; apply valid_intro; record_fields; try assumption; try tlia;
    try rewrite HS; try (rewrite u64_succ_small by done; lia).
  - cbn in V1, Ho |- *. rewrite !andb_true_iff in *. tauto.
  - split_and!; try done. exists (UTC l). split; [done | tlia].
  - split_and!; try done. exists (UTC l). split; [done | tlia].
  - by eauto 10.
  - by eauto 10.
Qed.

(** ** Theorems *)

(** Every accepted command keeps the record valid in the sense the store
    checks on load, as long as its clock reading is not earlier than the last
    update and the 64-bit owner fence has not been exhausted. *)
Theorem idempotency_valid_preserved r c r'
    (V : valid r = true) (U : nanos (updatedAt r) <= nanos (c_now c))
    (F : 0 <= ownerFence r < two64 - 1) (H : exec r c = Ok r') : valid r' = true.
Proof. by apply (valid_exec r c). Qed.

(** Lease takeover excludes the superseded owner: once ownership has been
    taken [n] times since an owner obtained its fence, with [n] below the range of
    the fence, every renewal, completion, failure or takeover that presents the
    old fence is refused. *)
Theorem idempotency_superseded_owner_refused r n r' c
    (F : is_u64 (ownerFence r)) (R : runs r n r') (N : (0 < n)%nat) (B : Z.of_nat n < two64)
    (P : c_fence c = ownerFence r) : exists e, exec r' c = Err e.
Proof.
  exact (stale_fence_refused r n r' c F R N B (f_equal Some P)).
Qed.

(** A terminal outcome is final and replayable: a completed record accepts no
    further command, so the stored response or failure never changes. *)
Theorem idempotency_outcome_final r c (D : state r <> InProgress) : exists e, exec r c = Err e.
Proof.
  destruct (exec r c) as [r' | e] eqn:E; [| by eauto].
  apply idempotency_exec_effect in E as [? _]. contradiction.
Qed.

(** Only the owner of a live lease completes: success and failure are
    accepted exactly from the current owner with the current fence, within the
    lease and not before the last update, with a valid outcome. *)
Theorem idempotency_succeed_iff r v o f now :
  is_ok (Succeed (Some r) v o f now) = true <->
  state r = InProgress /\ o = ownerID r /\ f = ownerFence r /\ IsZero now = false
  /\ validResponse v = true
  /\ exists l, leaseExpiresAt r = Some l /\ nanos (updatedAt r) <= nanos now <= nanos l.
Proof.
  split.
  - unfold Succeed. destruct (canComplete (Some r) o f now) eqn:C; cbn; [| discriminate].
    destruct (validResponse v) eqn:V; cbn; [| discriminate]. intros _.
    apply canComplete_ok in C as (? & ? & ? & ? & ?). auto 10.
  - intros (HS & -> & -> & Hz & Hv & l & Hl & Ht). unfold Succeed, canComplete.
    rewrite HS, Hl, Hz, Hv, !bool_decide_eq_true_2 by done.
    replace (After (UTC now) l) with false by tlia.
    by replace (Before (UTC now) (updatedAt r)) with false by tlia.
Qed.

(** The facts of a time field that the code stores: it is in UTC. *)
Definition stored_utc (r : Record_) : Prop :=
  is_utc (createdAt r) /\ is_utc (updatedAt r) /\ is_utc (expiresAt r)
  /\ (forall l, leaseExpiresAt r = Some l -> is_utc l)
  /\ (forall c, completedAt r = Some c -> is_utc c).

(** Persistence round trip: a valid record stored with its state as text is
    restored as the same record. *)
Theorem idempotency_restore_roundtrip r (V : valid r = true) (U : stored_utc r) :
  Restore (tenantID r) (id r) (scope r) (normalizationVersion r) (requestDigest r) (operationID r)
    (resourceID r) (ownerID r) (auditCorrelationID r) (enum_string (state r)) (ownerFence r)
    (leaseExpiresAt r) (response r) (failure r) (createdAt r) (updatedAt r) (completedAt r)
    (expiresAt r) = Ok r.
Proof.
  destruct U as (U1 & U2 & U3 & U4 & U5). unfold Restore. rewrite ParseEnum_print.
  rewrite !UTC_of_utc, !copyTime_utc by done. unfold copyResponse, copyFailure.
  replace (mkRecord _ _ _ _ _ _ _ _ _ _ _ _ _ _ _ _ _ _) with r by (by destruct r).
  by rewrite V.
Qed.

(** C39: The clock guard that [Renew] lacks: a freshly created record accepts a
    renewal whose clock reads before its creation, and the renewed record is one
    that the store's own [Restore] refuses. *)
Theorem idempotency_renew_clock_regression :
  exists tenant i sc norm digest op res owner audit lease expires now r lease' now' r',
    New tenant i sc norm digest op res owner audit lease expires now = Ok r
    /\ valid r = true
    /\ Renew (Some r) owner (ownerFence r) lease' now' = Ok r'
    /\ valid r' = false.
Proof.
  exists id1, id2, (mkScope digest_a "sessions.create.v1" digest_b), "session-create-v1", digest_a,
    id2, "", id3, id2, (at_second 60), (at_second 3600), (at_second 10).
  eexists. exists (at_second 90), (at_second 0). eexists.
  split_and!; [vm_compute; reflexivity .. |]. vm_compute. reflexivity.
Qed.

(** ** Witnesses *)

Definition ex_scope : Scope := mkScope digest_a "sessions.create.v1" digest_b.

Definition ex0 : Record_ :=
  mkRecord id1 id2 id2 "" id3 id2 ex_scope "session-create-v1" digest_a InProgress 1
    (Some (at_second 60)) None None None (at_second 0) (at_second 0) (at_second 3600).

Definition ex_response : Response := mkResponse 201 "{}" "/v1/sessions/1".

Definition ex_taken : Record_ := leased ex0 id4 2 (at_second 120) (at_second 60).

Lemma ex0_new :
  New id1 id2 ex_scope "session-create-v1" digest_a id2 "" id3 id2
    (at_second_local 60) (at_second_local 3600) (at_second_local 0) = Ok ex0.
Proof. vm_compute. reflexivity. Qed.

Lemma ex_taken_run : runs ex0 1 ex_taken.
Proof.
  assert (H : exec ex0 (CTake id4 1 (at_second 120) (at_second 60)) = Ok ex_taken)
    by (vm_compute; reflexivity).
  exact (runs_step (F := Record_fenced) ex0 (CTake id4 1 (at_second 120) (at_second 60)) ex_taken 0
           ex_taken H (runs_refl ex_taken)).
Qed.

Lemma idempotency_valid_preserved_witness :
  exec ex0 (CSucceed ex_response id3 1 (at_second 30))
    = Ok (completed ex0 Succeeded (Some ex_response) None (at_second 30))
  /\ valid (completed ex0 Succeeded (Some ex_response) None (at_second 30)) = true.
Proof.
  assert (H : exec ex0 (CSucceed ex_response id3 1 (at_second 30))
              = Ok (completed ex0 Succeeded (Some ex_response) None (at_second 30)))
    by (vm_compute; reflexivity).
  split; [exact H |].
  refine (idempotency_valid_preserved ex0 _ _ _ _ _ H);
    [ | | split]; vm_compute; first [reflexivity | discriminate].
Defined.

Lemma idempotency_superseded_witness :
  exists e, exec ex_taken (CSucceed ex_response id3 1 (at_second 61)) = Err e.
Proof.
  apply (idempotency_superseded_owner_refused ex0 1 ex_taken
           (CSucceed ex_response id3 1 (at_second 61))).
  - split; vm_compute; [discriminate | reflexivity].
  - exact ex_taken_run.
  - lia.
  - vm_compute. reflexivity.
  - reflexivity.
Defined.

Lemma idempotency_outcome_final_witness :
  exists e, exec (completed ex0 Succeeded (Some ex_response) None (at_second 30))
              (CRenew id3 1 (at_second 90) (at_second 31)) = Err e.
Proof.
  apply (idempotency_outcome_final (completed ex0 Succeeded (Some ex_response) None (at_second 30))).
  discriminate.
Defined.

Lemma idempotency_restore_roundtrip_witness :
  Restore id1 id2 ex_scope "session-create-v1" digest_a id2 "" id3 id2 "IN_PROGRESS" 1
    (Some (at_second 60)) None None (at_second 0) (at_second 0) None (at_second 3600) = Ok ex0.
Proof.
  apply (idempotency_restore_roundtrip ex0); [vm_compute; reflexivity |].
  repeat split; intros ? [= <-]; reflexivity.
Defined.
