(* ===== verification/IdempotencyStore.v ===== *)
(** * postgres/store.go: the idempotency repository

    One tenant's rows of [idempotency_records] and the repository's statements over
    them: [Reserve] (insert, or the row that holds the scope), [get], [Update] under
    the owner fence, and [DeleteExpired].  Proved: the table never holds two rows
    for one scope or one identifier, so at most one record is ever elected per
    scope; a settled row never changes; and rows of the pinned actions outlive
    every expiry. *)

From Stdlib Require Import ZArith Bool Lia.
From stdpp Require Import base strings list.
From S2P Require Import Prelude Regex GoStd Primitives Idempotency.

#[export] Instance Scope_eq_dec : EqDecision Scope.
Proof. solve_decision. Defined.

(** Errors that callers tell apart. *)
Inductive StoreError : Type :=
| StoreNotFound | StoreConflict | ErrRequestDigestMismatch | StoreFailure.

#[export] Instance StoreError_eq_dec : EqDecision StoreError.
Proof. solve_decision. Defined.

Definition Table : Type := list Record_.

(** [timestamptz] keeps microseconds, in UTC. *)
Definition timestamptz (t : Time) : Time := mkTime (nanos t / 1000 * 1000) LocUTC.

(** The row written for a new record: no outcome yet. *)
Definition inserted (r : Record_) : Record_ :=
  mkRecord (tenantID r) (id r) (operationID r) (resourceID r) (ownerID r) (auditCorrelationID r)
    (scope r) (normalizationVersion r) (requestDigest r) (state r) (ownerFence r)
    (option_map timestamptz (leaseExpiresAt r)) None None None
    (timestamptz (createdAt r)) (timestamptz (updatedAt r)) (timestamptz (expiresAt r)).

(** The columns an update writes; the others keep the row's values. *)
Definition written (row r : Record_) : Record_ :=
  mkRecord (tenantID row) (id row) (operationID row) (resourceID row) (ownerID r)
    (auditCorrelationID row) (scope row) (normalizationVersion row) (requestDigest row) (state r)
    (ownerFence r) (option_map timestamptz (leaseExpiresAt r))
    (option_map timestamptz (completedAt r)) (response r) (failure r)
    (createdAt row) (timestamptz (updatedAt r)) (expiresAt row).

(** The CHECK constraints of the table; a violation is an error of the statement. *)
Definition outcome_row (r : Record_) : bool :=
  match state r with
  | InProgress =>
      match leaseExpiresAt r with Some l => After (expiresAt r) l | None => false end
      && negb (is_some (completedAt r)) && negb (is_some (response r)) && negb (is_some (failure r))
  | Succeeded =>
      negb (is_some (leaseExpiresAt r)) && is_some (completedAt r) && negb (is_some (failure r))
      && match response r with
         | Some v => (200 <=? HTTPStatus v) && (HTTPStatus v <=? 399)
                     && ((Payload v != "") || (Reference v != ""))
                     && (len (Payload v) <=? 65536) && (len (Reference v) <=? 2048)
                     && ValidString (Reference v) && no_byte 0 (Reference v)
         | None => false
         end
  | Failed =>
      negb (is_some (leaseExpiresAt r)) && is_some (completedAt r) && negb (is_some (response r))
      && match failure r with
         | Some v => (400 <=? FHTTPStatus v) && (FHTTPStatus v <=? 499)
                     && (ProblemType v != "") && (len (ProblemType v) <=? 255)
                     && (ProblemCode v != "") && (len (ProblemCode v) <=? 128)
         | None => false
         end
  end.

Definition row_ok (r : Record_) : bool :=
  (0 <? ownerFence r) && (ownerFence r <=? max_int64)
  && negb (Before (updatedAt r) (createdAt r)) && After (expiresAt r) (createdAt r)
  && outcome_row r.

Definition row_for (t : Table) (s : Scope) : option Record_ :=
  List.find (fun r => scope r == s) t.

(** [get]: the row of a scope, restored; an outcome column is read only in the
    state that carries it. *)
Definition get (tenant : ID) (t : Table) (s : Scope) : result StoreError Record_ :=
  match row_for t s with
  | None => Err StoreNotFound
  | Some r =>
      match Restore tenant (id r) s (normalizationVersion r) (requestDigest r) (operationID r)
              (resourceID r) (ownerID r) (auditCorrelationID r) (enum_string (state r)) (ownerFence r)
              (leaseExpiresAt r)
              (if state r == Succeeded then response r else None)
              (if state r == Failed then failure r else None)
              (createdAt r) (updatedAt r) (completedAt r) (expiresAt r) with
      | Ok v => Ok v
      | Err _ => Err StoreFailure
      end
  end.

(** [Reserve]: the scope's row wins over the insertion; a second row under an
    existing identifier violates the primary key. *)
Definition Reserve (tenant : ID) (t : Table) (value : option Record_)
  : Table * result StoreError (Record_ * bool) :=
  match value with
  | None => (t, Err StoreFailure)
  | Some v =>
      if tenantID v != tenant then (t, Err StoreFailure)
      else match row_for t (scope v) with
      | None =>
          if negb (row_ok (inserted v)) then (t, Err StoreFailure)
          else if existsb (fun r => id r == id v) t then (t, Err StoreConflict)
          else (inserted v :: t, Ok (v, true))
      | Some _ =>
          match get tenant t (scope v) with
          | Err e => (t, Err e)
          | Ok existing =>
              if (normalizationVersion existing != normalizationVersion v)
                 || (requestDigest existing != requestDigest v)
              then (t, Err ErrRequestDigestMismatch)
              else (t, Ok (existing, false))
          end
      end
  end.

(** The rows an update matches. *)
Definition updatable (v : Record_) (expectedFence : Z) (r : Record_) : bool :=
  (id r == id v) && (ownerFence r == expectedFence) && (state r == InProgress).

Definition Update (tenant : ID) (t : Table) (value : option Record_) (expectedFence : Z)
  : Table * result StoreError unit :=
  match value with
  | None => (t, Err StoreFailure)
  | Some v =>
      if tenantID v != tenant then (t, Err StoreFailure)
      else match List.find (updatable v expectedFence) t with
      | None => (t, Err StoreConflict)
      | Some row =>
          if negb (row_ok (written row v)) then (t, Err StoreFailure)
          else (map (fun r => if updatable v expectedFence r then written r v else r) t, Ok tt)
      end
  end.

(** Actions whose records are never deleted by time. *)
Definition pinned : list string :=
  ["sessions.create.v1"; "executions.create.v1"; "executions.signal.v1"].

Definition deletable (before : Time) (r : Record_) : bool :=
  (state r != InProgress) && negb (existsb (fun a => Action (scope r) == a) pinned)
  && negb (After (expiresAt r) before).

(** [ORDER BY expires_at, idempotency_record_id] *)
Definition expires_first (a b : Record_) : bool :=
  (nanos (expiresAt a) <? nanos (expiresAt b))
  || ((nanos (expiresAt a) =? nanos (expiresAt b)) && String.leb (id a) (id b)).

Fixpoint insert_row (r : Record_) (l : list Record_) : list Record_ :=
  match l with
  | [] => [r]
  | x :: rest => if expires_first r x then r :: l else x :: insert_row r rest
  end.

Definition DeleteExpired (t : Table) (before : Time) (limit : Z) : Table * result StoreError Z :=
  if IsZero before || (limit <? 1) || (1000 <? limit) then (t, Err StoreFailure)
  else
    let chosen := firstn (Z.to_nat limit)
                    (foldr insert_row [] (List.filter (deletable before) t)) in
    (List.filter (fun r => negb (existsb (fun c => id c == id r) chosen)) t,
     Ok (Z.of_nat (length chosen))).

(** ** Operations on one tenant's table *)

Inductive Op : Type :=
| OReserve (v : option Record_)
| OUpdate (v : option Record_) (fence : Z)
| ODelete (before : Time) (limit : Z).

Definition apply_op (tenant : ID) (t : Table) (o : Op) : Table :=
  match o with
  | OReserve v => fst (Reserve tenant t v)
  | OUpdate v f => fst (Update tenant t v f)
  | ODelete b l => fst (DeleteExpired t b l)
  end.

Definition apply_all (tenant : ID) (t : Table) (ops : list Op) : Table := foldl (apply_op tenant) t ops.

(** An owner and an outcome the domain accepts; the times are the table's to check. *)
Definition writable (v : Record_) : Prop :=
  validIDs [ownerID v] = true
  /\ (match response v with Some x => validResponse x = true | None => True end)
  /\ (match failure v with Some x => validFailure x = true | None => True end).

(** The repository hands in records that the domain validated, created after the
    first microsecond of the calendar. *)
Definition op_valid (o : Op) : Prop :=
  match o with
  | OReserve (Some v) => valid v = true /\ 1000 <= nanos (createdAt v)
  | OUpdate (Some v) _ => writable v
  | _ => True
  end.

(** What the rows of a tenant satisfy. *)
Record sound (tenant : ID) (t : Table) : Prop := {
  so_ids : NoDup (map id t);
  so_scopes : NoDup (map scope t);
  so_rows : Forall (fun r => tenantID r = tenant /\ valid r = true /\ stored_utc r) t
}.

(** The columns no statement rewrites. *)
Definition same_identity (a b : Record_) : Prop :=
  tenantID a = tenantID b /\ id a = id b /\ operationID a = operationID b
  /\ resourceID a = resourceID b /\ auditCorrelationID a = auditCorrelationID b
  /\ scope a = scope b /\ normalizationVersion a = normalizationVersion b
  /\ requestDigest a = requestDigest b /\ createdAt a = createdAt b /\ expiresAt a = expiresAt b.

(** ** Lemmas *)

Lemma row_for_some t s r : row_for t s = Some r -> r ∈ t /\ scope r = s.
Proof.
  unfold row_for. intros H. apply List.find_some in H as [H E].
  apply bool_decide_eq_true in E. split; [by apply list_elem_of_In | done].
Qed.

Lemma row_for_none t s : row_for t s = None <-> s ∉ map scope t.
Proof.
  unfold row_for. split.
  - intros H X. apply list_elem_of_fmap in X as (r & -> & Hr). apply list_elem_of_In in Hr.
    apply (List.find_none _ _ H) in Hr. by rewrite bool_decide_eq_true_2 in Hr.
  - intros N. destruct (List.find _ t) as [r |] eqn:F; [| done].
    apply row_for_some in F as [Hr E]. destruct N. apply list_elem_of_fmap. eauto.
Qed.

Lemma existsb_id i t : existsb (fun r => id r == i) t = false <-> i ∉ map id t.
Proof.
  rewrite <- not_true_iff_false, existsb_exists. apply not_iff_compat. rewrite list_elem_of_fmap.
  split; intros (r & A & B).
  - apply bool_decide_eq_true in B. exists r. by rewrite <- list_elem_of_In in A.
  - exists r. rewrite <- list_elem_of_In, bool_decide_eq_true. done.
Qed.

Lemma Reserve_table tenant t v :
  fst (Reserve tenant t v) = t
  \/ exists r, v = Some r /\ tenantID r = tenant /\ fst (Reserve tenant t v) = inserted r :: t
       /\ snd (Reserve tenant t v) = Ok (r, true) /\ row_ok (inserted r) = true
       /\ scope r ∉ map scope t /\ id r ∉ map id t.
Proof.
  unfold Reserve. destruct v as [v |]; [| by left]. destruct (_ != _) eqn:T; [by left |]. simp_bool.
  destruct (row_for t (scope v)) as [r |] eqn:F.
  - left. destruct (get _ _ _); [| done]. by destruct (_ || _).
  - destruct (row_ok _) eqn:K; cbn [negb]; [| by left].
    destruct (existsb _ t) eqn:X; [by left |]. right. exists v.
    apply existsb_id in X. apply row_for_none in F. auto 10.
Qed.

Lemma Update_table tenant t v f :
  fst (Update tenant t v f) = t
  \/ exists r row, v = Some r /\ tenantID r = tenant /\ row ∈ t /\ updatable r f row = true
       /\ row_ok (written row r) = true
       /\ fst (Update tenant t v f) = map (fun x => if updatable r f x then written x r else x) t.
Proof.
  unfold Update. destruct v as [v |]; [| by left]. destruct (_ != _) eqn:T; [by left |]. simp_bool.
  destruct (List.find _ t) as [row |] eqn:F; [| by left].
  destruct (row_ok _) eqn:K; cbn [negb]; [| by left].
  apply List.find_some in F as [F U]. right. exists v, row. rewrite list_elem_of_In. auto 10.
Qed.

Lemma filter_true {A} (l : list A) : List.filter (fun _ => true) l = l.
Proof. induction l as [| x l IH]; cbn; [done | by rewrite IH]. Qed.

Lemma In_firstn {A} n (l : list A) x : In x (firstn n l) -> In x l.
Proof. revert n. induction l as [| y l IH]; intros [| n]; cbn; try done. intros [-> | H]; eauto. Qed.

Lemma insert_row_In r l x : In x (insert_row r l) -> x = r \/ In x l.
Proof.
  induction l as [| y l IH]; cbn; [by intros [-> | []]; left |].
  destruct (expires_first r y); cbn; [by intros [-> | H]; auto |].
  intros [-> | H]; [by auto |]. apply IH in H as [-> | H]; auto.
Qed.

Lemma insert_rows_In l x : In x (foldr insert_row [] l) -> In x l.
Proof.
  induction l as [| y l IH]; cbn; [done |]. intros H. apply insert_row_In in H as [-> | H]; auto.
Qed.

Lemma DeleteExpired_table t before limit : exists p : Record_ -> bool,
  fst (DeleteExpired t before limit) = List.filter p t
  /\ forall r, r ∈ t -> p r = false -> exists c, c ∈ t /\ id c = id r /\ deletable before c = true.
Proof.
  unfold DeleteExpired. destruct (_ || _).
  - exists (fun _ => true). split; [| done]. cbn. by rewrite filter_true.
  - eexists. split; [reflexivity |]. intros r Hr. cbn.
    rewrite negb_false_iff, existsb_exists. intros (c & Hc & E). apply bool_decide_eq_true in E.
    exists c. assert (D : c ∈ List.filter (deletable before) t); [| split; [| split; [done |]]].
    + apply list_elem_of_In. by apply insert_rows_In, In_firstn with (n := Z.to_nat limit).
    + apply list_elem_of_In, List.filter_In in D as [D _]. by apply list_elem_of_In.
    + by apply list_elem_of_In, List.filter_In in D as [_ D].
Qed.

Ltac row_fields :=
  cbn [inserted written tenantID id operationID resourceID ownerID auditCorrelationID scope
       normalizationVersion requestDigest state ownerFence leaseExpiresAt completedAt response
       failure createdAt updatedAt expiresAt] in *.

Ltac tzlia := unfold timestamptz in *; tlia.

Lemma timestamptz_utc o x : option_map timestamptz o = Some x -> is_utc x.
Proof. destruct o; [| done]. by intros [= <-]. Qed.

Lemma outcome_shape r :
  outcome_row r = true ->
  (match response r with Some v => validResponse v = true | None => True end) ->
  (match failure r with Some v => validFailure v = true | None => True end) ->
  match state r with
  | InProgress => completedAt r = None /\ response r = None /\ failure r = None
      /\ exists l, leaseExpiresAt r = Some l /\ nanos l < nanos (expiresAt r)
  | Succeeded => leaseExpiresAt r = None /\ completedAt r <> None /\ failure r = None
      /\ exists v, response r = Some v /\ validResponse v = true
  | Failed => leaseExpiresAt r = None /\ completedAt r <> None /\ response r = None
      /\ exists v, failure r = Some v /\ validFailure v = true
  end.
Proof.
  unfold outcome_row. intros H V W.
  destruct (state r), (leaseExpiresAt r), (completedAt r), (response r), (failure r); cbn in H;
    simp_bool; split_and!; try done; eauto. exists t. split; [done | tlia].
Qed.

Lemma valid_outcomes r : valid r = true ->
  (match response r with Some v => validResponse v = true | None => True end)
  /\ (match failure r with Some v => validFailure v = true | None => True end).
Proof.
  unfold valid. intros H. apply andb_true_iff in H as [_ H].
  destruct (state r), (leaseExpiresAt r), (completedAt r), (response r), (failure r); cbn in H;
    by simp_bool.
Qed.

(** Rounding to microseconds keeps a record valid when the constraints accept it. *)
Lemma inserted_sound v : valid v = true -> 1000 <= nanos (createdAt v) ->
  row_ok (inserted v) = true -> valid (inserted v) = true /\ stored_utc (inserted v).
Proof.
  intros V C K. unfold row_ok in K. simp_bool.
  apply valid_inv in V as (V1 & V2 & V3 & V4 & V5 & V6 & V7 & V8 & V9 & V10). split.
  - assert (1 <= nanos (createdAt v) / 1000) by (apply Z.div_le_lower_bound; lia).
    apply valid_intro; row_fields; try done; try tzlia.
    by apply (outcome_shape (inserted v)).
  - split_and!; try done; intros x Hx; by apply timestamptz_utc in Hx.
Qed.

Lemma valid_writable r : valid r = true -> writable r.
Proof.
  intros V. pose proof (valid_outcomes r V). apply valid_inv in V as (V1 & _). split; [| done].
  cbn in *. rewrite !andb_true_iff in *. tauto.
Qed.

Lemma written_sound row v : valid row = true -> stored_utc row -> writable v ->
  row_ok (written row v) = true -> valid (written row v) = true /\ stored_utc (written row v).
Proof.
  intros V (U1 & U2 & U3 & _) (W1 & O1 & O2) K. unfold row_ok in K. simp_bool.
  apply valid_inv in V as (V1 & V2 & V3 & V4 & V5 & V6 & V7 & V8 & V9 & V10). split.
  - apply valid_intro; row_fields; try done; try tzlia.
    + cbn in *. rewrite !andb_true_iff in *. tauto.
    + by apply (outcome_shape (written row v)).
  - split_and!; try done; intros x Hx; by apply timestamptz_utc in Hx.
Qed.

(** A valid record carries an outcome only in the state that reads its columns. *)
Lemma valid_outcome_columns r : valid r = true ->
  (if state r == Succeeded then response r else None) = response r
  /\ (if state r == Failed then failure r else None) = failure r.
Proof.
  unfold valid. intros H. apply andb_true_iff in H as [_ H].
  destruct (state r), (leaseExpiresAt r), (completedAt r), (response r), (failure r); cbn in H;
    by simp_bool.
Qed.

Lemma map_written {B} (g : Record_ -> B) v f t :
  (forall r, g (written r v) = g r) ->
  map g (map (fun r => if updatable v f r then written r v else r) t) = map g t.
Proof.
  intros G. rewrite map_map. apply map_ext. intros r. by destruct (updatable v f r).
Qed.

Lemma NoDup_map_filter {B} (g : Record_ -> B) p t : NoDup (map g t) -> NoDup (map g (List.filter p t)).
Proof.
  induction t as [| r t IH]; cbn; [done |]. rewrite NoDup_cons. intros [N H].
  destruct (p r); cbn; [| by apply IH]. rewrite NoDup_cons. split; [| by apply IH].
  rewrite list_elem_of_fmap in *. intros (x & E & X). apply N. exists x.
  rewrite list_elem_of_In in *. apply List.filter_In in X as [X _]. done.
Qed.

Lemma NoDup_map_inj {B} (g : Record_ -> B) t x y :
  NoDup (map g t) -> x ∈ t -> y ∈ t -> g x = g y -> x = y.
Proof.
  induction t as [| r t IH]; cbn; [by intros _ X%elem_of_nil |]. rewrite NoDup_cons, !elem_of_cons.
  intros [N H] [-> | X] [-> | Y] E; [done | | | by apply IH]; destruct N; apply list_elem_of_fmap; eauto.
Qed.

Lemma sound_apply tenant t o : op_valid o -> sound tenant t -> sound tenant (apply_op tenant t o).
Proof.
  intros V [S1 S2 S3]. destruct o as [v | v f | b l]; cbn [apply_op].
  - destruct (Reserve_table tenant t v) as [-> | (r & -> & T & -> & _ & K & Ns & Ni)]; [done |].
    destruct V as [V C]. constructor; cbn [map].
    + by apply NoDup_cons.
    + by apply NoDup_cons.
    + apply Forall_cons. split; [| done]. split; [done | by apply inserted_sound].
  - destruct (Update_table tenant t v f) as [-> | (r & row & -> & T & Hr & U & K & ->)]; [done |].
    constructor; [by rewrite map_written | by rewrite map_written |].
    rewrite Forall_forall in *. intros x. rewrite list_elem_of_fmap. intros (y & -> & Hy).
    destruct (S3 y Hy) as (Ty & Vy & Uy). destruct (updatable r f y) eqn:E; [| done].
    assert (y = row) as ->; [| split; [done | by apply written_sound]].
    unfold updatable in U, E. simp_bool. apply (NoDup_map_inj id t); try done. congruence.
  - destruct (DeleteExpired_table t b l) as (p & -> & _).
    constructor; [by apply NoDup_map_filter | by apply NoDup_map_filter |].
    rewrite Forall_forall in *. intros x Hx. apply S3. rewrite list_elem_of_In in *.
    by apply List.filter_In in Hx as [Hx _].
Qed.

Lemma sound_apply_all tenant ops : forall t,
  Forall op_valid ops -> sound tenant t -> sound tenant (apply_all tenant t ops).
Proof.
  unfold apply_all. induction ops as [| o ops IH]; intros t V S; cbn; [done |].
  apply Forall_cons in V as [V Vs]. apply IH; [done |]. by apply sound_apply.
Qed.

Lemma row_for_intro tenant t r : sound tenant t -> r ∈ t -> row_for t (scope r) = Some r.
Proof.
  intros S H. destruct (row_for t (scope r)) as [x |] eqn:F.
  - apply row_for_some in F as [Hx E]. f_equal.
    exact (NoDup_map_inj scope t x r (so_scopes _ _ S) Hx H E).
  - apply row_for_none in F. destruct F. apply list_elem_of_fmap. eauto.
Qed.

Lemma same_identity_refl r : same_identity r r.
Proof. repeat split. Qed.

Lemma same_identity_trans a b c : same_identity a b -> same_identity b c -> same_identity a c.
Proof. unfold same_identity. intros; destruct_and!; split_and!; congruence. Qed.

(** One operation on the row of a scope whose action is never expired. *)
Lemma pinned_step tenant t o r :
  sound tenant t -> r ∈ t -> Action (scope r) ∈ pinned ->
  exists r', r' ∈ apply_op tenant t o /\ same_identity r r' /\ (state r <> InProgress -> r' = r).
Proof.
  intros S Hr P. destruct o as [v | v f | b l]; cbn [apply_op].
  - exists r. split; [| split; [apply same_identity_refl | done]].
    destruct (Reserve_table tenant t v) as [-> | (x & _ & _ & -> & _)]; [done |]. by right.
  - destruct (Update_table tenant t v f) as [-> | (x & row & _ & _ & _ & _ & _ & ->)].
    { exists r. split; [done | split; [apply same_identity_refl | done]]. }
    exists (if updatable x f r then written r x else r). split; [apply list_elem_of_fmap; eauto |].
    unfold updatable. destruct (_ && _) eqn:U; [| split; [apply same_identity_refl | done]].
    split; [by repeat split |]. simp_bool. done.
  - exists r. split; [| split; [apply same_identity_refl | done]].
    destruct (DeleteExpired_table t b l) as (p & -> & D). apply list_elem_of_In, List.filter_In.
    split; [by apply list_elem_of_In |]. destruct (p r) eqn:E; [done |].
    destruct (D r Hr E) as (c & Hc & Ei & Dc).
    assert (c = r) as -> by exact (NoDup_map_inj id t c r (so_ids _ _ S) Hc Hr Ei).
    unfold deletable in Dc. simp_bool.
    assert (existsb (fun a => Action (scope r) == a) pinned = true); [| congruence].
    apply existsb_exists. exists (Action (scope r)). rewrite <- list_elem_of_In, bool_decide_eq_true.
    done.
Qed.

Lemma pinned_steps tenant ops : forall t r,
  Forall op_valid ops -> sound tenant t -> r ∈ t -> Action (scope r) ∈ pinned ->
  exists r', r' ∈ apply_all tenant t ops /\ same_identity r r' /\ (state r <> InProgress -> r' = r).
Proof.
  unfold apply_all. induction ops as [| o ops IH]; intros t r V S Hr P; cbn.
  - exists r. split; [done | split; [apply same_identity_refl | done]].
  - apply Forall_cons in V as [V Vs].
    destruct (pinned_step tenant t o r S Hr P) as (r1 & H1 & I1 & E1).
    destruct (IH (apply_op tenant t o) r1) as (r2 & H2 & I2 & E2);
      [done | by apply sound_apply | done | |].
    { destruct I1 as (_ & _ & _ & _ & _ & <- & _). done. }
    exists r2. split; [done |]. split; [by apply (same_identity_trans _ r1) |].
    intros N. rewrite E1 in E2 by done. auto.
Qed.

(** A constructed record is valid. *)
Lemma New_valid tenant i sc norm digest op res owner audit lease expires now v :
  New tenant i sc norm digest op res owner audit lease expires now = Ok v ->
  valid v = true /\ tenantID v = tenant /\ id v = i /\ scope v = sc /\ requestDigest v = digest
  /\ normalizationVersion v = norm /\ createdAt v = UTC now /\ ownerID v = owner
  /\ resourceID v = res /\ updatedAt v = UTC now /\ ownerFence v = 1.
Proof.
  unfold New. intros H. destruct (_ || _) eqn:G in H; [discriminate H |]. injection H as <-.
  split; [| done]. simp_bool. apply valid_intro; record_fields; try done; try tlia.
  - by destruct (res == ""), (validIDs [res]).
  - split_and!; try done. exists (UTC lease). split; [done | tlia].
Qed.

Lemma stored_row_read tenant t s r : sound tenant t -> row_for t s = Some r -> get tenant t s = Ok r.
Proof.
  intros S F. unfold get. rewrite F. apply row_for_some in F as [H <-].
  pose proof (so_rows _ _ S) as A. rewrite Forall_forall in A.
  destruct (A r H) as (<- & V & U).
  pose proof (idempotency_restore_roundtrip r V U) as R.
  apply valid_outcome_columns in V as [-> ->]. by rewrite R.
Qed.

(** A reservation that was lost returns the stored row and changes nothing. *)
Lemma Reserve_lost tenant t v t' r :
  sound tenant t -> Reserve tenant t (Some v) = (t', Ok (r, false)) ->
  t' = t /\ r ∈ t /\ scope r = scope v /\ requestDigest r = requestDigest v
  /\ normalizationVersion r = normalizationVersion v.
Proof.
  intros S H. unfold Reserve in H. destruct (_ != _) in H; [discriminate H |].
  destruct (row_for t (scope v)) as [row |] eqn:F.
  - assert (get tenant t (scope v) = Ok row) as G by (by apply stored_row_read).
    rewrite G in H. destruct (_ || _) eqn:M in H; [discriminate H |]. injection H as <- <-. simp_bool.
    apply row_for_some in F as [F E]. done.
  - destruct (negb _) in H; [discriminate H |]. by destruct (existsb _ _) in H.
Qed.

(** A reservation that was won, settled under its fence: the row it leaves. *)
Lemma reserve_then_update tenant t v t1 r d f t2 :
  sound tenant t -> op_valid (OReserve (Some v)) -> Reserve tenant t (Some v) = (t1, Ok (r, true)) ->
  Update tenant t1 (Some d) f = (t2, Ok tt) -> id d = id v ->
  r = v /\ written (inserted v) d ∈ t2.
Proof.
  intros S V R U I. pose proof (Reserve_table tenant t (Some v)) as T. rewrite R in T. cbn [fst snd] in T.
  destruct T as [-> | (x & [= <-] & Tn & -> & [= ->] & K & Ns & Ni)].
  { unfold Reserve in R. destruct (_ != _) in R; [discriminate R |].
    destruct (row_for t (scope v)); [by destruct (get _ _ _); [destruct (_ || _) in R |] |].
    destruct (negb _) in R; [discriminate R |]. destruct (existsb _ _) in R; [discriminate R |].
    exfalso. injection R as R _. apply (f_equal length) in R. cbn in R. lia. }
  split; [done |].
  assert (S1 : sound tenant (inserted v :: t)).
  { pose proof (sound_apply tenant t (OReserve (Some v)) V S) as S1.
    cbn [apply_op] in S1. by rewrite R in S1. }
  unfold Update in U. destruct (_ != _) in U; [discriminate U |].
  destruct (List.find _ _) as [row |] eqn:F; [| discriminate U].
  destruct (negb _) in U; [discriminate U |]. injection U as <-.
  apply List.find_some in F as [F E]. apply list_elem_of_In in F.
  assert (row = inserted v) as ->.
  { apply (NoDup_map_inj id (inserted v :: t)); [apply (so_ids _ _ S1) | done | left |].
    unfold updatable in E. simp_bool. rewrite H. exact I. }
  rewrite E. left.
Qed.

(** ** Theorems *)

(** The table's constraints and the domain's validity survive every sequence of
    repository calls: identifiers and scopes stay unique, and every row is a valid
    record of the tenant. *)
Theorem idempotency_table_sound tenant t ops (V : Forall op_valid ops) (S : sound tenant t) :
  sound tenant (apply_all tenant t ops).
Proof. by apply sound_apply_all. Qed.

(** Read back: [get] returns exactly the stored row. *)
Theorem idempotency_read_back tenant t s r (S : sound tenant t) (F : row_for t s = Some r) :
  get tenant t s = Ok r.
Proof. by apply stored_row_read. Qed.

(** C38: At most one election per scope: once a creation or signal scope has a row, no
    sequence of calls removes it, changes its identity, or lets another
    reservation of the scope be created; and once it is settled it never changes. *)
Theorem idempotency_elected_once tenant t ops r v
    (V : Forall op_valid ops) (S : sound tenant t) (H : r ∈ t) (P : Action (scope r) ∈ pinned)
    (E : scope v = scope r) :
  exists r', row_for (apply_all tenant t ops) (scope r) = Some r' /\ same_identity r r'
    /\ (state r <> InProgress -> r' = r)
    /\ forall x, snd (Reserve tenant (apply_all tenant t ops) (Some v)) <> Ok (x, true).
Proof.
  destruct (pinned_steps tenant ops t r V S H P) as (r' & H' & I & C). exists r'.
  assert (F : row_for (apply_all tenant t ops) (scope r) = Some r').
  { destruct I as (_ & _ & _ & _ & _ & -> & _). apply (row_for_intro tenant); [| done].
    by apply sound_apply_all. }
  split; [done | split; [done | split; [done |]]]. intros x R.
  destruct (Reserve_table tenant (apply_all tenant t ops) (Some v)) as [T | (y & [= <-] & _ & _ & _ & _ & N & _)].
  - unfold Reserve in R. destruct (_ != _) in R; [discriminate R |]. rewrite E, F in R.
    destruct (get _ _ _) in R; [| discriminate R]. by destruct (_ || _) in R.
  - apply row_for_none in N. rewrite E in N. congruence.
Qed.

(** ** Witnesses *)

Definition ex_done : Record_ := completed ex0 Succeeded (Some ex_response) None (at_second 30).

Definition ex_ops : list Op :=
  [OUpdate (Some ex_done) 1; ODelete (at_second 100000) 10; OReserve (Some ex0)].

Lemma ex_table_sound : sound id1 [ex0].
Proof.
  constructor; [apply NoDup_singleton .. |]. repeat constructor; try (vm_compute; reflexivity);
    cbn; by intros ? [= <-].
Qed.

Lemma ex_ops_valid : Forall op_valid ex_ops.
Proof. repeat constructor; vm_compute; first [reflexivity | discriminate]. Qed.

Lemma idempotency_table_sound_witness : sound id1 (apply_all id1 [ex0] ex_ops).
Proof. apply (idempotency_table_sound id1 [ex0] ex_ops); [exact ex_ops_valid | exact ex_table_sound]. Defined.

Lemma idempotency_read_back_witness : get id1 [ex0] ex_scope = Ok ex0.
Proof. apply (idempotency_read_back id1 [ex0]); [exact ex_table_sound | reflexivity]. Defined.

Lemma idempotency_elected_once_witness :
  apply_all id1 [ex0] ex_ops = [ex_done]
  /\ exists r', row_for (apply_all id1 [ex0] ex_ops) ex_scope = Some r' /\ same_identity ex0 r'
      /\ (state ex0 <> InProgress -> r' = ex0)
      /\ forall x, snd (Reserve id1 (apply_all id1 [ex0] ex_ops) (Some ex0)) <> Ok (x, true).
Proof.
  split; [vm_compute; reflexivity |].
  apply (idempotency_elected_once id1 [ex0] ex_ops ex0 ex0);
    [exact ex_ops_valid | exact ex_table_sound | left | left | reflexivity].
Defined.
