(* ===== verification/Outbox.v ===== *)
(** * internal/domain/outbox: durable publication intent

    A Message is a semantic publication identity that dispatchers claim, retry,
    deliver or dead-letter.  Proved: the message stays valid over every run that
    does not exhaust its 64-bit fence, a superseded dispatcher is refused, a
    settled message is final, and no command touches the identity consumers
    deduplicate on.  The hypothesis that a message becomes available no earlier
    than it is created is necessary: an example shows what happens without. *)

From Stdlib Require Import ZArith Bool Lia.
From stdpp Require Import base strings list.
From S2P Require Import Prelude Regex GoStd Primitives Lease.

(** ** Data *)

Definition MaxPayloadBytes : Z := 64 * 1024.

Inductive State : Type := Pending | Claimed | Delivered | DeadLettered.

#[export] Instance State_eq_dec : EqDecision State.
Proof. solve_decision. Defined.

#[export, refine] Instance State_enum : GoEnum State := {|
  enum_string s :=
    match s with
    | Pending => "PENDING" | Claimed => "CLAIMED" | Delivered => "DELIVERED"
    | DeadLettered => "DEAD_LETTERED"
    end;
  enum_all := [Pending; Claimed; Delivered; DeadLettered]
|}.
Proof. all: [> enum_inj | enum_in]. Defined.

Inductive MessageError : Type := ErrInvalidMessage | ErrClaimConflict.

Record Envelope : Type := mkEnvelope {
  Topic : string;
  SchemaVersion : string;
  EventID : ID;
  AggregateType : string;
  AggregateID : ID;
  AggregateVersion : Z;
  Payload : string;
  PayloadReference : string;
  PayloadDigest : string
}.

Record DeadLetter : Type := mkDeadLetter {
  ReasonCode : string;
  Detail : string
}.

Record Message : Type := mkMessage {
  tenantID : ID;
  id : ID;
  ownerID : ID;
  envelope : Envelope;
  state : State;
  attempts : Z;
  claimFence : Z;
  availableAt : Time;
  claimExpiresAt : option Time;
  lastErrorCode : string;
  deadLetter : option DeadLetter;
  createdAt : Time;
  updatedAt : Time;
  deliveredAt : option Time
}.

(** ** Operations *)

Definition boundedName (v : string) (max : Z) : bool :=
  (len v <=? max) && match_string name_pattern v.

Definition boundedOptionalName (v : string) (max : Z) : bool := (v == "") || boundedName v max.

Definition validEnvelope (e : Envelope) : bool :=
  if negb (boundedName (Topic e) 255) || negb (boundedName (SchemaVersion e) 128)
     || negb (validID (EventID e)) || negb (boundedName (AggregateType e) 64)
     || negb (validID (AggregateID e)) || (AggregateVersion e == 0)
     || negb (match_string sha256_pattern (PayloadDigest e))
     || (MaxPayloadBytes <? len (Payload e)) || (2048 <? len (PayloadReference e))
     || eqb (len (Payload e) == 0) (PayloadReference e == "")
  then false
  else if 0 <? len (Payload e)
  then json_valid (to_bytes (Payload e)) && no_byte 0 (Payload e)
  else no_byte 0 (PayloadReference e).

Definition validDeadLetter (v : DeadLetter) : bool :=
  boundedName (ReasonCode v) 128 && (len (Detail v) <=? 1024) && no_byte 0 (Detail v).

Definition copyEnvelope (v : Envelope) : Envelope := v.
Definition copyDeadLetter (v : option DeadLetter) : option DeadLetter := v.

(** [(m *Message) valid] *)
Definition valid (m : Message) : bool :=
  if negb (validID (tenantID m)) || negb (validID (id m)) || negb (validEnvelope (envelope m))
     || IsZero (availableAt m) || IsZero (createdAt m) || Before (updatedAt m) (createdAt m)
     || negb (boundedOptionalName (lastErrorCode m) 128)
  then false
  else match state m with
  | Pending =>
      (ownerID m == "") && negb (is_some (claimExpiresAt m)) && negb (is_some (deadLetter m))
      && negb (is_some (deliveredAt m))
  | Claimed =>
      validID (ownerID m) && (0 <? attempts m) && (0 <? claimFence m)
      && match claimExpiresAt m with Some l => After l (updatedAt m) | None => false end
      && negb (is_some (deadLetter m)) && negb (is_some (deliveredAt m))
  | Delivered =>
      (ownerID m == "") && negb (is_some (claimExpiresAt m)) && is_some (deliveredAt m)
      && negb (is_some (deadLetter m))
  | DeadLettered =>
      (ownerID m == "") && negb (is_some (claimExpiresAt m)) && negb (is_some (deliveredAt m))
      && match deadLetter m with Some d => validDeadLetter d | None => false end
  end.

Definition New (tenant i : ID) (env : Envelope) (available now : Time)
  : result MessageError Message :=
  let m := mkMessage tenant i "" (copyEnvelope env) Pending 0 0 (UTC available) None "" None
             (UTC now) (UTC now) None in
  if negb (valid m) || IsZero available || IsZero now then Err ErrInvalidMessage else Ok m.

Definition Restore (tenant i : ID) (env : Envelope) (st : string) (att fence : Z) (owner : ID)
    (available : Time) (expires : option Time) (lastError : string) (dead : option DeadLetter)
    (created updated : Time) (delivered : option Time) : result MessageError Message :=
  match ParseEnum st with
  | Err _ => Err ErrInvalidMessage
  | Ok s =>
      let m := mkMessage tenant i owner (copyEnvelope env) s att fence (UTC available)
                 (copyTime expires) lastError (copyDeadLetter dead) (UTC created) (UTC updated)
                 (copyTime delivered) in
      if negb (valid m) then Err ErrInvalidMessage else Ok m
  end.

Definition Claim (self : option Message) (owner : ID) (lease now : Time)
  : result MessageError Message :=
  match self with
  | None => Err ErrClaimConflict
  | Some m =>
      if negb (validID owner) || IsZero now || negb (After lease now)
         || Before (UTC now) (availableAt m)
         || ((state m != Pending)
             && ((state m != Claimed)
                 || match claimExpiresAt m with Some l => Before (UTC now) l | None => true end))
      then Err ErrClaimConflict
      else Ok (mkMessage (tenantID m) (id m) owner (envelope m) Claimed (u64 (attempts m + 1))
                 (u64 (claimFence m + 1)) (availableAt m) (Some (UTC lease)) (lastErrorCode m)
                 (deadLetter m) (createdAt m) (UTC now) (deliveredAt m))
  end.

Definition ownsClaim (self : option Message) (owner : ID) (fence : Z) (now : Time) : bool :=
  match self with
  | None => false
  | Some m =>
      (state m == Claimed) && (ownerID m == owner) && (claimFence m == fence)
      && negb (IsZero now)
      && match claimExpiresAt m with Some l => negb (After (UTC now) l) | None => false end
      && negb (Before (UTC now) (updatedAt m))
  end.

Definition Retry (self : option Message) (owner : ID) (fence : Z) (available : Time)
    (errorCode : string) (now : Time) : result MessageError Message :=
  match self with
  | None => Err ErrClaimConflict
  | Some m =>
      if negb (ownsClaim self owner fence now) || negb (After available now)
         || negb (boundedName errorCode 128)
      then Err ErrClaimConflict
      else Ok (mkMessage (tenantID m) (id m) "" (envelope m) Pending (attempts m) (claimFence m)
                 (UTC available) None errorCode (deadLetter m) (createdAt m) (UTC now)
                 (deliveredAt m))
  end.

Definition MarkDelivered (self : option Message) (owner : ID) (fence : Z) (now : Time)
  : result MessageError Message :=
  match self with
  | None => Err ErrClaimConflict
  | Some m =>
      if negb (ownsClaim self owner fence now) then Err ErrClaimConflict
      else Ok (mkMessage (tenantID m) (id m) "" (envelope m) Delivered (attempts m) (claimFence m)
                 (availableAt m) None (lastErrorCode m) (deadLetter m) (createdAt m) (UTC now)
                 (Some (UTC now)))
  end.

(** [(m *Message) DeadLetter] *)
Definition MarkDeadLetter (self : option Message) (owner : ID) (fence : Z) (metadata : DeadLetter)
    (now : Time) : result MessageError Message :=
  match self with
  | None => Err ErrClaimConflict
  | Some m =>
      if negb (ownsClaim self owner fence now) || negb (validDeadLetter metadata)
      then Err ErrClaimConflict
      else Ok (mkMessage (tenantID m) (id m) "" (envelope m) DeadLettered (attempts m)
                 (claimFence m) (availableAt m) None (lastErrorCode m)
                 (copyDeadLetter (Some metadata)) (createdAt m) (UTC now) (deliveredAt m))
  end.

(** ** Commands *)

Inductive Command : Type :=
| CClaim (owner : ID) (lease now : Time)
| CRetry (owner : ID) (fence : Z) (available : Time) (errorCode : string) (now : Time)
| CDeliver (owner : ID) (fence : Z) (now : Time)
| CDeadLetter (owner : ID) (fence : Z) (metadata : DeadLetter) (now : Time).

Definition c_fence (c : Command) : option Z :=
  match c with
  | CClaim _ _ _ => None
  | CRetry _ f _ _ _ | CDeliver _ f _ | CDeadLetter _ f _ _ => Some f
  end.

Definition is_claim (c : Command) : bool := match c with CClaim _ _ _ => true | _ => false end.

Definition exec (m : Message) (c : Command) : result MessageError Message :=
  match c with
  | CClaim o l now => Claim (Some m) o l now
  | CRetry o f a e now => Retry (Some m) o f a e now
  | CDeliver o f now => MarkDelivered (Some m) o f now
  | CDeadLetter o f d now => MarkDeadLetter (Some m) o f d now
  end.

(** ** Lemmas *)

(** [valid] as facts: what holds in every state, and the shape of each state. *)
Definition base (m : Message) : Prop :=
  validID (tenantID m) = true /\ validID (id m) = true /\ validEnvelope (envelope m) = true
  /\ IsZero (availableAt m) = false /\ IsZero (createdAt m) = false
  /\ nanos (createdAt m) <= nanos (updatedAt m)
  /\ boundedOptionalName (lastErrorCode m) 128 = true.

Definition shape (m : Message) : Prop :=
  match state m with
  | Pending =>
      ownerID m = "" /\ claimExpiresAt m = None /\ deadLetter m = None /\ deliveredAt m = None
  | Claimed =>
      validID (ownerID m) = true /\ 0 < attempts m /\ 0 < claimFence m
      /\ (exists l, claimExpiresAt m = Some l /\ nanos (updatedAt m) < nanos l)
      /\ deadLetter m = None /\ deliveredAt m = None
  | Delivered =>
      ownerID m = "" /\ claimExpiresAt m = None /\ deliveredAt m <> None /\ deadLetter m = None
  | DeadLettered =>
      ownerID m = "" /\ claimExpiresAt m = None /\ deliveredAt m = None
      /\ exists d, deadLetter m = Some d /\ validDeadLetter d = true
  end.

Lemma outbox_valid_iff m : valid m = true <-> base m /\ shape m.
Proof.
  unfold valid, base, shape. split.
  - intros H. destruct (_ || _) eqn:G in H; [discriminate H |]. simp_bool.
    split; [split_and!; try done; tlia |].
    destruct (state m); simp_bool; split_and!; try done; try lia.
    + destruct (claimExpiresAt m) as [l |]; [| done]. exists l. split; [done | tlia].
    + destruct (deadLetter m) as [d |]; [by eauto | done].
  - intros [(-> & -> & -> & -> & -> & Hu & ->) S].
    replace (Before (updatedAt m) (createdAt m)) with false by tlia. cbn [negb orb].
    destruct (state m).
    + by destruct S as (-> & -> & -> & ->).
    + destruct S as (-> & Ha & Hf & (l & -> & Hl) & -> & ->).
      replace (0 <? attempts m) with true by lia. replace (0 <? claimFence m) with true by lia.
      by replace (After l (updatedAt m)) with true by tlia.
    + destruct S as (-> & -> & Hd & ->). by destruct (deliveredAt m).
    + by destruct S as (-> & -> & -> & d & -> & ->).
Qed.

(** What an accepted command requires, and the message it leaves. *)
Inductive effect (m : Message) : Command -> Message -> Prop :=
| eff_claim o l now :
    validID o = true -> IsZero now = false -> nanos now < nanos l ->
    nanos (availableAt m) <= nanos now ->
    (state m = Pending
     \/ state m = Claimed /\ exists l0, claimExpiresAt m = Some l0 /\ nanos l0 <= nanos now) ->
    effect m (CClaim o l now)
      (mkMessage (tenantID m) (id m) o (envelope m) Claimed (u64 (attempts m + 1))
         (u64 (claimFence m + 1)) (availableAt m) (Some (UTC l)) (lastErrorCode m)
         (deadLetter m) (createdAt m) (UTC now) (deliveredAt m))
| eff_settle c s available expires error dead delivered now :
    state m = Claimed -> c_fence c = Some (claimFence m) ->
    IsZero now = false -> nanos (updatedAt m) <= nanos now ->
    match s with
    | Pending => nanos now < nanos available /\ boundedName error 128 = true
                 /\ dead = deadLetter m /\ delivered = deliveredAt m
    | Claimed => False
    | Delivered => available = availableAt m /\ error = lastErrorCode m
                   /\ dead = deadLetter m /\ delivered = Some (UTC now)
    | DeadLettered => available = availableAt m /\ error = lastErrorCode m
                   /\ delivered = deliveredAt m
                   /\ exists d, dead = Some d /\ validDeadLetter d = true
    end -> expires = None ->
    effect m c
      (mkMessage (tenantID m) (id m) "" (envelope m) s (attempts m) (claimFence m) available expires
         error dead (createdAt m) (UTC now) delivered).

Lemma ownsClaim_ok m o f now : ownsClaim (Some m) o f now = true ->
  state m = Claimed /\ f = claimFence m /\ IsZero now = false /\ nanos (updatedAt m) <= nanos now.
Proof. unfold ownsClaim. intros H. simp_bool. split_and!; try done. tlia. Qed.

Lemma outbox_exec_effect m c m' : exec m c = Ok m' -> effect m c m'.
Proof.
  destruct c as [o l now | o f a e now | o f now | o f d now]; cbn [exec]; intros H.
  - unfold Claim in H. destruct (_ || _) eqn:G in H; [discriminate H |]. injection H as <-.
    simp_bool. constructor; try done; try tlia.
    destruct (state m == Pending) eqn:P; [left; by simp_bool | right]. cbn [negb andb] in *.
    simp_bool. destruct (claimExpiresAt m) as [l0 |]; [| done].
    split; [done |]. exists l0. split; [done | tlia].
  - unfold Retry in H. ok_inv H. apply ownsClaim_ok in H as (? & -> & ? & ?).
    constructor; try done. split_and!; try done. tlia.
  - unfold MarkDelivered in H. ok_inv H.
    match goal with C : ownsClaim _ _ _ _ = true |- _ => apply ownsClaim_ok in C as (? & -> & ? & ?) end.
    by constructor.
  - unfold MarkDeadLetter in H. ok_inv H.
    match goal with C : ownsClaim _ _ _ _ = true |- _ => apply ownsClaim_ok in C as (? & -> & ? & ?) end.
    constructor; try done. split_and!; try done. eauto.
Qed.

#[export, refine] Instance Message_fenced : Fenced Message Command MessageError := {|
  fence := claimFence;
  presents := c_fence;
  claims := is_claim;
  perform := exec
|}.
Proof.
  - intros m c m' f H P. apply outbox_exec_effect in H. inversion H; subst; cbn in P; congruence.
  - intros m c m' H. apply outbox_exec_effect in H. inversion H; subst; [done |].
    destruct c; done.
Defined.

Ltac message_fields :=
  cbn [tenantID id ownerID envelope state attempts claimFence availableAt claimExpiresAt
       lastErrorCode deadLetter createdAt updatedAt deliveredAt] in *.

(** The invariant of a message that was created available no earlier than now:
    validity, one claim per attempt, and a clock that cannot run behind. *)
Record wf (m : Message) : Prop := {
  wf_valid : base m /\ shape m;
  wf_attempts : attempts m = claimFence m;
  wf_fence : is_u64 (claimFence m);
  wf_created : 0 < nanos (createdAt m);
  wf_pending : state m = Pending -> nanos (updatedAt m) <= nanos (availableAt m)
}.

Lemma outbox_wf_New t i e av now m :
  New t i e av now = Ok m -> 0 < nanos now <= nanos av -> wf m.
Proof.
  unfold New. intros H L. destruct (_ || _) eqn:G in H; [discriminate H |].
  injection H as <-. apply orb_false_iff in G as [G _]. apply orb_false_iff in G as [G _].
  apply negb_false_iff, outbox_valid_iff in G. constructor; message_fields; try done; tlia.
Qed.

(** A claim is made at or after the last update, on a message with no outcome. *)
Lemma outbox_claim_clock m now :
  wf m -> nanos (availableAt m) <= nanos now ->
  (state m = Pending
   \/ state m = Claimed /\ exists l0, claimExpiresAt m = Some l0 /\ nanos l0 <= nanos now) ->
  nanos (updatedAt m) <= nanos now /\ deadLetter m = None /\ deliveredAt m = None.
Proof.
  intros [[_ S] _ _ _ P] Ha Hs. unfold shape in S.
  destruct Hs as [E | (E & l0 & E' & ?)]; rewrite E in S.
  - specialize (P E). destruct S as (_ & _ & ? & ?). split_and!; try done. lia.
  - destruct S as (_ & _ & _ & (l1 & E1 & ?) & ? & ?). rewrite E' in E1. simplify_eq.
    split_and!; try done. lia.
Qed.

Lemma outbox_wf_exec m c m' :
  wf m -> exec m c = Ok m' -> (is_claim c = true -> claimFence m < two64 - 1) -> wf m'.
Proof.
  intros W H L. apply outbox_exec_effect in H.
  pose proof W as [[(B1 & B2 & B3 & B4 & B5 & B6 & B7) S] A F C P]. unfold is_u64 in F.
  destruct H as [o l now Ho Hz Hl Ha Hs | c s av ex er de dl now HS Hf Hz Hu Hs ->].
  - destruct (outbox_claim_clock m now W Ha Hs) as (Hu & D1 & D2). specialize (L eq_refl).
    assert (U : u64 (claimFence m + 1) = claimFence m + 1) by (apply u64_succ_small; lia).
    rewrite A, U. constructor; message_fields; try done; [| unfold is_u64; lia].
    split; [split_and!; message_fields; try done; tlia |].
    unfold shape; message_fields. split_and!; try done; try lia.
    exists (UTC l). split; [done | tlia].
  - unfold shape in S. rewrite HS in S. destruct S as (S1 & S2 & S3 & _ & S5 & S6).
    rewrite S5, S6 in Hs.
    destruct s; [| contradiction | |]; destruct_and!; subst; constructor; message_fields;
      try done; try tlia; (split; [split_and!; message_fields; try done; try tlia |]).
    all: try (unfold boundedOptionalName; simp_bool; apply orb_true_iff; by right).
    all: unfold shape; message_fields; split_and!; try done; eauto.
Qed.

Lemma outbox_wf_runs m n m' :
  runs m n m' -> wf m -> claimFence m + Z.of_nat n < two64 -> wf m'.
Proof.
  induction 1 as [m | m c m1 n m2 H R IH]; intros W L; [done |].
  pose proof (perform_fence _ _ _ H) as Hf. cbn [fence claims Message_fenced] in *.
  pose proof (wf_fence m W) as U. unfold is_u64 in U.
  assert (W1 : wf m1) by (apply (outbox_wf_exec m c m1 W H); intros E; rewrite E in L; lia).
  apply IH; [done |]. rewrite Hf. destruct (is_claim c); [| lia].
  rewrite u64_succ_small; lia.
Qed.

(** ** Theorems *)

(** A message stays valid: whatever claims, retries and outcomes follow a
    creation that is available no earlier than now, the message is one that the
    store accepts on load, and it has been attempted exactly as often as it was
    claimed, until the 64-bit fence is exhausted. *)
Theorem outbox_runs_valid t i e av now m n m'
    (N : New t i e av now = Ok m) (C : 0 < nanos now <= nanos av)
    (R : runs m n m') (L : Z.of_nat n < two64) :
  valid m' = true /\ attempts m' = Z.of_nat n /\ claimFence m' = Z.of_nat n.
Proof.
  pose proof (outbox_wf_New _ _ _ _ _ _ N C) as W.
  assert (F : claimFence m = 0).
  { unfold New in N. destruct (_ || _) in N; [discriminate N | by injection N as <-]. }
  assert (W' : wf m') by (apply (outbox_wf_runs m n m' R W); lia).
  destruct (runs_fence (F := Message_fenced) m n m' (wf_fence m W) R) as [Hf _].
  cbn [fence Message_fenced] in Hf. rewrite F, u64_small in Hf by (unfold is_u64; lia).
  split_and!; [by apply outbox_valid_iff, wf_valid | rewrite (wf_attempts m' W'); lia | lia].
Qed.

(** A superseded dispatcher cannot settle: after another claim, a retry,
    delivery or dead-lettering that presents the earlier fence is refused. *)
Theorem outbox_superseded_dispatcher_refused m n m' c
    (F : is_u64 (claimFence m)) (R : runs m n m') (N : (0 < n)%nat) (B : Z.of_nat n < two64)
    (P : c_fence c = Some (claimFence m)) : exists e, exec m' c = Err e.
Proof. exact (stale_fence_refused m n m' c F R N B P). Qed.

(** A delivered or dead-lettered message is settled for good: every further
    command is refused, so it is neither dispatched nor dead-lettered again. *)
Theorem outbox_settled_final m c (D : state m = Delivered \/ state m = DeadLettered) :
  exists e, exec m c = Err e.
Proof.
  destruct (exec m c) as [m' | e] eqn:E; [| by eauto]. exfalso.
  apply outbox_exec_effect in E.
  destruct E as [o l now ? ? ? ? [S | [S _]] | c s av ex er de dl now S];
    destruct D as [D | D]; congruence.
Qed.

(** The identity consumers deduplicate on never changes: across any run the
    tenant, message id, envelope and creation time stay as created. *)
Theorem outbox_identity_stable m n m' (R : runs m n m') :
  tenantID m' = tenantID m /\ id m' = id m /\ envelope m' = envelope m
  /\ createdAt m' = createdAt m.
Proof.
  induction R as [m | m c m1 n m2 H R IH]; [done |].
  apply outbox_exec_effect in H. destruct IH as (-> & -> & -> & ->). by destruct H.
Qed.

(** C40: Without the guard that a message is available no earlier than it is
    created, which [New] does not check, a claim made between the two times
    leaves a message that fails its own validity check. *)
Theorem outbox_claim_before_creation :
  exists t i e av now m o lease now' m',
    New t i e av now = Ok m /\ Claim (Some m) o lease now' = Ok m' /\ valid m' = false.
Proof.
  exists id1, id2, (mkEnvelope "sessions" "v1" id3 "session" id4 1 "{}" "" digest_a),
    (at_second 0), (at_second 10).
  eexists. exists id3, (at_second 60), (at_second 5). eexists.
  split_and!; [vm_compute; reflexivity .. |]. vm_compute. reflexivity.
Qed.

(** ** Witnesses *)

Definition ex_envelope : Envelope :=
  mkEnvelope "sessions.lifecycle" "v1" id3 "session" id4 1 "{}" "" digest_a.

Definition ex0 : Message :=
  mkMessage id1 id2 "" ex_envelope Pending 0 0 (at_second 0) None "" None (at_second 0)
    (at_second 0) None.

Definition ex_claimed (o : ID) (n s : Z) : Message :=
  mkMessage id1 id2 o ex_envelope Claimed n n (at_second 0) (Some (at_second (s + 30))) "" None
    (at_second 0) (at_second s) None.

(** A dispatcher claims, its lease lapses and another claims. *)
Lemma outbox_ex_reclaimed : runs (ex_claimed id3 1 1) 1 (ex_claimed id4 2 40).
Proof.
  assert (H : exec (ex_claimed id3 1 1) (CClaim id4 (at_second 70) (at_second 40))
              = Ok (ex_claimed id4 2 40)) by (vm_compute; reflexivity).
  exact (runs_step (F := Message_fenced) _ (CClaim id4 (at_second 70) (at_second 40)) _ 0 _ H
           (runs_refl _)).
Qed.

Lemma outbox_ex_run : runs ex0 2 (ex_claimed id4 2 40).
Proof.
  assert (H : exec ex0 (CClaim id3 (at_second 31) (at_second 1)) = Ok (ex_claimed id3 1 1))
    by (vm_compute; reflexivity).
  exact (runs_step (F := Message_fenced) _ (CClaim id3 (at_second 31) (at_second 1)) _ 1 _ H
           outbox_ex_reclaimed).
Qed.

Lemma outbox_runs_valid_witness :
  valid (ex_claimed id4 2 40) = true /\ attempts (ex_claimed id4 2 40) = Z.of_nat 2
  /\ claimFence (ex_claimed id4 2 40) = Z.of_nat 2.
Proof.
  apply (outbox_runs_valid id1 id2 ex_envelope (at_second 0) (at_second 0) ex0 2).
  - vm_compute. reflexivity.
  - vm_compute. split; [reflexivity | discriminate].
  - exact outbox_ex_run.
  - vm_compute. reflexivity.
Defined.

Lemma outbox_superseded_witness :
  exists e, exec (ex_claimed id4 2 40) (CDeliver id3 1 (at_second 41)) = Err e.
Proof.
  apply (outbox_superseded_dispatcher_refused (ex_claimed id3 1 1) 1 (ex_claimed id4 2 40)
           (CDeliver id3 1 (at_second 41))).
  - vm_compute. split; [discriminate | reflexivity].
  - exact outbox_ex_reclaimed.
  - lia.
  - vm_compute. reflexivity.
  - reflexivity.
Defined.

Lemma outbox_settled_final_witness :
  let m := mkMessage id1 id2 "" ex_envelope Delivered 1 1 (at_second 0) None "" None (at_second 0)
             (at_second 9) (Some (at_second 9)) in
  valid m = true /\ exists e, exec m (CClaim id3 (at_second 60) (at_second 10)) = Err e.
Proof.
  split; [vm_compute; reflexivity |].
  apply (outbox_settled_final
           (mkMessage id1 id2 "" ex_envelope Delivered 1 1 (at_second 0) None "" None (at_second 0)
              (at_second 9) (Some (at_second 9)))).
  by left.
Defined.

Lemma outbox_identity_stable_witness :
  tenantID (ex_claimed id4 2 40) = tenantID ex0 /\ id (ex_claimed id4 2 40) = id ex0
  /\ envelope (ex_claimed id4 2 40) = envelope ex0
  /\ createdAt (ex_claimed id4 2 40) = createdAt ex0.
Proof. exact (outbox_identity_stable ex0 2 (ex_claimed id4 2 40) outbox_ex_run). Defined.
