(* ===== verification/Reconciliation.v ===== *)
(** * internal/domain/reconciliation: fenced reconciler coordination

    A Work item is leased to one reconciler at a time, which may renew,
    reschedule or complete it.  Proved: validity over every run, exclusion of
    superseded reconcilers, distinct fences for distinct claims, and finality of
    completion. *)

From Stdlib Require Import ZArith Bool Lia.
From stdpp Require Import base strings list.
From S2P Require Import Prelude Regex GoStd Primitives Lease.

(** ** Data *)

Inductive State : Type := Pending | Claimed | Completed.

#[export] Instance State_eq_dec : EqDecision State.
Proof. solve_decision. Defined.

#[export, refine] Instance State_enum : GoEnum State := {|
  enum_string s :=
    match s with
    | Pending => "PENDING" | Claimed => "CLAIMED" | Completed => "COMPLETED"
    end;
  enum_all := [Pending; Claimed; Completed]
|}.
Proof. all: [> enum_inj | enum_in]. Defined.

Inductive WorkError : Type := ErrInvalidWork | ErrClaimConflict.

Record Work : Type := mkWork {
  tenantID : ID;
  id : ID;
  targetID : ID;
  ownerID : ID;
  kind : string;
  targetType : string;
  lastErrorCode : string;
  state : State;
  attempts : Z;
  claimFence : Z;
  nextAttemptAt : Time;
  claimExpiresAt : option Time;
  completedAt : option Time;
  createdAt : Time;
  updatedAt : Time
}.

(** ** Operations *)

Definition boundedName (v : string) (max : Z) : bool :=
  (len v <=? max) && match_string name_pattern v.

(** [(w *Work) valid] *)
Definition valid (w : Work) : bool :=
  if negb (validID (tenantID w)) || negb (validID (id w)) || negb (validID (targetID w))
     || negb (boundedName (kind w) 128) || negb (boundedName (targetType w) 64)
     || IsZero (nextAttemptAt w) || IsZero (createdAt w) || Before (updatedAt w) (createdAt w)
     || ((lastErrorCode w != "") && negb (boundedName (lastErrorCode w) 128))
  then false
  else match state w with
  | Pending =>
      (ownerID w == "") && negb (is_some (claimExpiresAt w)) && negb (is_some (completedAt w))
  | Claimed =>
      validID (ownerID w) && (0 <? attempts w) && (0 <? claimFence w)
      && match claimExpiresAt w with Some l => After l (updatedAt w) | None => false end
      && negb (is_some (completedAt w))
  | Completed =>
      (ownerID w == "") && negb (is_some (claimExpiresAt w)) && (0 <? attempts w)
      && (0 <? claimFence w)
      && match completedAt w with Some t => TimeEqual t (updatedAt w) | None => false end
  end.

Definition New (tenant i : ID) (k ttype : string) (target : ID) (next now : Time)
  : result WorkError Work :=
  let w := mkWork tenant i target "" k ttype "" Pending 0 0 (UTC next) None None (UTC now) (UTC now) in
  if negb (valid w) || IsZero now || IsZero next then Err ErrInvalidWork else Ok w.

Definition Restore (tenant i : ID) (k ttype : string) (target : ID) (st : string) (att fence : Z)
    (owner : ID) (next : Time) (expires : option Time) (lastError : string)
    (created updated : Time) (completed : option Time) : result WorkError Work :=
  match ParseEnum st with
  | Err _ => Err ErrInvalidWork
  | Ok s =>
      let w := mkWork tenant i target owner k ttype lastError s att fence (UTC next)
                 (copyTime expires) (copyTime completed) (UTC created) (UTC updated) in
      if negb (valid w) then Err ErrInvalidWork else Ok w
  end.

(** The work item with its mutable part replaced. *)
Definition updated (w : Work) (owner : ID) (error : string) (s : State) (att fence : Z)
    (next : Time) (expires done : option Time) (now : Time) : Work :=
  mkWork (tenantID w) (id w) (targetID w) owner (kind w) (targetType w) error s att fence next
    expires done (createdAt w) (UTC now).

Definition Claim (self : option Work) (owner : ID) (lease now : Time) : result WorkError Work :=
  match self with
  | None => Err ErrClaimConflict
  | Some w =>
      if negb (validID owner) || IsZero now || negb (After lease now)
         || Before (UTC now) (nextAttemptAt w)
         || ((state w != Pending)
             && ((state w != Claimed)
                 || match claimExpiresAt w with Some l => Before (UTC now) l | None => true end))
      then Err ErrClaimConflict
      else Ok (updated w owner (lastErrorCode w) Claimed (u64 (attempts w + 1))
                 (u64 (claimFence w + 1)) (nextAttemptAt w) (Some (UTC lease)) (completedAt w) now)
  end.

Definition owns (self : option Work) (owner : ID) (fence : Z) (now : Time) : bool :=
  match self with
  | None => false
  | Some w =>
      (state w == Claimed) && (ownerID w == owner) && (claimFence w == fence)
      && negb (IsZero now)
      && match claimExpiresAt w with Some l => negb (After (UTC now) l) | None => false end
      && negb (Before (UTC now) (updatedAt w))
  end.

(** The lease is dereferenced only after [owns] has checked it is present. *)
Definition Renew (self : option Work) (owner : ID) (fence : Z) (lease now : Time)
  : result WorkError Work :=
  match self with
  | None => Err ErrClaimConflict
  | Some w =>
      if negb (owns self owner fence now)
         || match claimExpiresAt w with Some l => negb (After lease l) | None => true end
      then Err ErrClaimConflict
      else Ok (updated w (ownerID w) (lastErrorCode w) (state w) (attempts w) (claimFence w)
                 (nextAttemptAt w) (Some (UTC lease)) (completedAt w) now)
  end.

Definition Reschedule (self : option Work) (owner : ID) (fence : Z) (next : Time)
    (errorCode : string) (now : Time) : result WorkError Work :=
  match self with
  | None => Err ErrClaimConflict
  | Some w =>
      if negb (owns self owner fence now) || negb (After next now)
         || negb (boundedName errorCode 128)
      then Err ErrClaimConflict
      else Ok (updated w "" errorCode Pending (attempts w) (claimFence w) (UTC next) None
                 (completedAt w) now)
  end.

Definition Complete (self : option Work) (owner : ID) (fence : Z) (now : Time)
  : result WorkError Work :=
  match self with
  | None => Err ErrClaimConflict
  | Some w =>
      if negb (owns self owner fence now) then Err ErrClaimConflict
      else Ok (updated w "" (lastErrorCode w) Completed (attempts w) (claimFence w)
                 (nextAttemptAt w) None (Some (UTC now)) now)
  end.

(** ** Commands *)

Inductive Command : Type :=
| CClaim (owner : ID) (lease now : Time)
| CRenew (owner : ID) (fence : Z) (lease now : Time)
| CReschedule (owner : ID) (fence : Z) (next : Time) (errorCode : string) (now : Time)
| CComplete (owner : ID) (fence : Z) (now : Time).

Definition c_fence (c : Command) : option Z :=
  match c with
  | CClaim _ _ _ => None
  | CRenew _ f _ _ | CReschedule _ f _ _ _ | CComplete _ f _ => Some f
  end.

Definition is_claim (c : Command) : bool := match c with CClaim _ _ _ => true | _ => false end.

Definition exec (w : Work) (c : Command) : result WorkError Work :=
  match c with
  | CClaim o l now => Claim (Some w) o l now
  | CRenew o f l now => Renew (Some w) o f l now
  | CReschedule o f n e now => Reschedule (Some w) o f n e now
  | CComplete o f now => Complete (Some w) o f now
  end.

(** ** Lemmas *)

(** The invariant: [valid] as facts per state, one claim per attempt, and a due
    time that is not behind the last update. *)
Record wf (w : Work) : Prop := {
  wf_ids : validID (tenantID w) = true /\ validID (id w) = true /\ validID (targetID w) = true;
  wf_names : boundedName (kind w) 128 = true /\ boundedName (targetType w) 64 = true
             /\ (lastErrorCode w <> "" -> boundedName (lastErrorCode w) 128 = true);
  wf_times : 0 < nanos (createdAt w) <= nanos (updatedAt w) /\ 0 < nanos (nextAttemptAt w);
  wf_attempts : attempts w = claimFence w;
  wf_fence : is_u64 (claimFence w);
  wf_shape :
    match state w with
    | Pending => ownerID w = "" /\ claimExpiresAt w = None /\ completedAt w = None
                 /\ nanos (updatedAt w) <= nanos (nextAttemptAt w)
    | Claimed => validID (ownerID w) = true /\ 0 < claimFence w /\ completedAt w = None
                 /\ exists l, claimExpiresAt w = Some l /\ nanos (updatedAt w) < nanos l
    | Completed => ownerID w = "" /\ claimExpiresAt w = None /\ 0 < claimFence w
                 /\ completedAt w = Some (updatedAt w)
    end
}.

Lemma reconciliation_wf_valid w : wf w -> valid w = true.
Proof.
  intros [(I1 & I2 & I3) (N1 & N2 & N3) T A F S]. unfold valid. rewrite I1, I2, I3, N1, N2, A.
  replace (IsZero (nextAttemptAt w)) with false by tlia.
  replace (IsZero (createdAt w)) with false by tlia.
  replace (Before (updatedAt w) (createdAt w)) with false by tlia. cbn [negb orb].
  replace ((lastErrorCode w != "") && negb (boundedName (lastErrorCode w) 128)) with false.
  2: { destruct (lastErrorCode w == "") eqn:G; simp_bool; [done |]. by rewrite N3. }
  destruct (state w).
  - by destruct S as (-> & -> & -> & _).
  - destruct S as (-> & L & -> & l & -> & Hl). replace (0 <? claimFence w) with true by lia.
    by replace (After l (updatedAt w)) with true by tlia.
  - destruct S as (-> & -> & L & ->). replace (0 <? claimFence w) with true by lia.
    by replace (TimeEqual (updatedAt w) (updatedAt w)) with true by tlia.
Qed.

Lemma owns_ok w o f now : owns (Some w) o f now = true ->
  state w = Claimed /\ o = ownerID w /\ f = claimFence w /\ IsZero now = false
  /\ nanos (updatedAt w) <= nanos now
  /\ exists l, claimExpiresAt w = Some l /\ nanos now <= nanos l.
Proof.
  unfold owns. intros H. simp_bool. destruct (claimExpiresAt w) as [l |]; [| done]. simp_bool.
  split_and!; try done; [tlia |]. exists l. split; [done | tlia].
Qed.

(** What an accepted command requires, and the work item it leaves. *)
Inductive effect (w : Work) : Command -> Work -> Prop :=
| eff_claim o l now :
    validID o = true -> nanos now < nanos l -> nanos (nextAttemptAt w) <= nanos now ->
    (state w = Pending
     \/ state w = Claimed /\ exists l0, claimExpiresAt w = Some l0 /\ nanos l0 <= nanos now) ->
    effect w (CClaim o l now)
      (updated w o (lastErrorCode w) Claimed (u64 (attempts w + 1)) (u64 (claimFence w + 1))
         (nextAttemptAt w) (Some (UTC l)) (completedAt w) now)
| eff_renew l l0 now :
    state w = Claimed -> nanos (updatedAt w) <= nanos now <= nanos l0 ->
    claimExpiresAt w = Some l0 -> nanos l0 < nanos l ->
    effect w (CRenew (ownerID w) (claimFence w) l now)
      (updated w (ownerID w) (lastErrorCode w) (state w) (attempts w) (claimFence w)
         (nextAttemptAt w) (Some (UTC l)) (completedAt w) now)
| eff_reschedule next e now :
    state w = Claimed -> nanos (updatedAt w) <= nanos now -> nanos now < nanos next ->
    boundedName e 128 = true ->
    effect w (CReschedule (ownerID w) (claimFence w) next e now)
      (updated w "" e Pending (attempts w) (claimFence w) (UTC next) None (completedAt w) now)
| eff_complete now :
    state w = Claimed -> nanos (updatedAt w) <= nanos now ->
    effect w (CComplete (ownerID w) (claimFence w) now)
      (updated w "" (lastErrorCode w) Completed (attempts w) (claimFence w) (nextAttemptAt w) None
         (Some (UTC now)) now).

Ltac use_owns :=
  match goal with C : owns _ _ _ _ = true |- _ =>
    apply owns_ok in C as (? & -> & -> & ? & ? & l0 & Hl0 & ?) end.

Lemma reconciliation_exec_effect w c w' : exec w c = Ok w' -> effect w c w'.
Proof.
  destruct c as [o l now | o f l now | o f n e now | o f now]; cbn [exec]; intros H.
  - unfold Claim in H. destruct (_ || _) eqn:G in H; [discriminate H |]. injection H as <-.
    simp_bool. constructor; try done; try tlia.
    destruct (state w == Pending) eqn:P; [left; by simp_bool | right]. cbn [negb andb] in *.
    simp_bool. destruct (claimExpiresAt w) as [l0 |]; [| done].
    split; [done |]. exists l0. split; [done | tlia].
  - unfold Renew in H. destruct (_ || _) eqn:G in H; [discriminate H |]. injection H as <-.
    simp_bool. use_owns. rewrite Hl0 in *. simp_bool.
    apply (eff_renew w l l0 now); try done; tlia.
  - unfold Reschedule in H. destruct (_ || _) eqn:G in H; [discriminate H |]. injection H as <-.
    simp_bool. use_owns. constructor; try done; tlia.
  - unfold Complete in H. destruct (negb _) eqn:G in H; [discriminate H |]. injection H as <-.
    simp_bool. use_owns. by constructor.
Qed.

#[export, refine] Instance Work_fenced : Fenced Work Command WorkError := {|
  fence := claimFence;
  presents := c_fence;
  claims := is_claim;
  perform := exec
|}.
Proof.
  - intros w c w' f H P. apply reconciliation_exec_effect in H.
    inversion H; subst; cbn in P; congruence.
  - intros w c w' H. apply reconciliation_exec_effect in H. by inversion H; subst.
Defined.

Ltac work_fields :=
  cbn [updated tenantID id targetID ownerID kind targetType lastErrorCode state attempts claimFence
       nextAttemptAt claimExpiresAt completedAt createdAt updatedAt] in *.

Lemma reconciliation_wf_New t i k tt tg next now w :
  New t i k tt tg next now = Ok w -> 0 < nanos now <= nanos next -> wf w.
Proof.
  unfold New. intros H L. destruct (_ || _) eqn:G in H; [discriminate H |].
  injection H as <-. apply orb_false_iff in G as [G _]. apply orb_false_iff in G as [G _].
  apply negb_false_iff in G. unfold valid in G. work_fields.
  destruct (_ || _) eqn:K in G; [discriminate G |]. simp_bool.
  constructor; work_fields; try split_and!; try done; tlia.
Qed.

(** A claim is made at or after the last update. *)
Lemma reconciliation_claim_clock w now :
  wf w -> nanos (nextAttemptAt w) <= nanos now ->
  (state w = Pending
   \/ state w = Claimed /\ exists l0, claimExpiresAt w = Some l0 /\ nanos l0 <= nanos now) ->
  nanos (updatedAt w) <= nanos now /\ completedAt w = None.
Proof.
  intros [_ _ _ _ _ S] Ha Hs. destruct Hs as [E | (E & l0 & E' & ?)]; rewrite E in S.
  - destruct S as (_ & _ & ? & ?). split; [lia | done].
  - destruct S as (_ & _ & ? & l1 & E1 & ?). rewrite E' in E1. simplify_eq.
    split; [lia | done].
Qed.

Lemma reconciliation_wf_exec w c w' :
  wf w -> exec w c = Ok w' -> (is_claim c = true -> claimFence w < two64 - 1) -> wf w'.
Proof.
  intros W H L. apply reconciliation_exec_effect in H.
  pose proof W as [(I1 & I2 & I3) (N1 & N2 & N3) T A F S]. unfold is_u64 in F.
  destruct H as [o l now Ho Hl Ha Hs | l l0 now HS Hn Hx Hl | next e now HS Hu Hn Hb | now HS Hu].
  - destruct (reconciliation_claim_clock w now W Ha Hs) as [Hu D]. specialize (L eq_refl).
    rewrite A, u64_succ_small by lia.
    constructor; work_fields; try split_and!; try done; unfold is_u64; try tlia.
    exists (UTC l). split; [done | tlia].
  - rewrite HS in S. destruct S as (S1 & S2 & S3 & l1 & E1 & ?).
    constructor; work_fields; rewrite ?HS; try split_and!; try done; try tlia.
    exists (UTC l). split; [done | tlia].
  - rewrite HS in S. destruct S as (S1 & S2 & S3 & l1 & E1 & ?).
    constructor; work_fields; try split_and!; try done; tlia.
  - rewrite HS in S. destruct S as (S1 & S2 & S3 & l1 & E1 & ?).
    constructor; work_fields; try split_and!; try done; tlia.
Qed.

Lemma reconciliation_wf_runs w n w' :
  runs w n w' -> wf w -> claimFence w + Z.of_nat n < two64 -> wf w'.
Proof.
  induction 1 as [w | w c w1 n w2 H R IH]; intros W L; [done |].
  pose proof (perform_fence _ _ _ H) as Hf. cbn [fence claims Work_fenced] in *.
  pose proof (wf_fence w W) as U. unfold is_u64 in U.
  assert (W1 : wf w1) by (apply (reconciliation_wf_exec w c w1 W H); intros E; rewrite E in L; lia).
  apply IH; [done |]. rewrite Hf. destruct (is_claim c); [| lia].
  rewrite u64_succ_small; lia.
Qed.

(** ** Theorems *)

(** Reconciliation work stays valid over every run of claims, renewals,
    reschedules and completions from a creation due no earlier than now, and a
    due item can always be picked up: while it is not completed and its lease,
    if any, has lapsed, a claim by any valid worker is accepted. *)
Theorem reconciliation_runs_valid t i k tt tg next now w n w'
    (N : New t i k tt tg next now = Ok w) (C : 0 < nanos now <= nanos next)
    (R : runs w n w') (L : Z.of_nat n < two64) :
  valid w' = true
  /\ forall o lease at_,
       state w' <> Completed -> validID o = true -> nanos at_ < nanos lease ->
       0 < nanos at_ -> nanos (nextAttemptAt w') <= nanos at_ ->
       (forall l, claimExpiresAt w' = Some l -> nanos l <= nanos at_) ->
       is_ok (Claim (Some w') o lease at_) = true.
Proof.
  pose proof (reconciliation_wf_New _ _ _ _ _ _ _ _ N C) as W.
  assert (F : claimFence w = 0).
  { unfold New in N. destruct (_ || _) in N; [discriminate N | by injection N as <-]. }
  assert (W' : wf w') by (apply (reconciliation_wf_runs w n w' R W); lia).
  split; [by apply reconciliation_wf_valid |]. intros o lease at_ D Ho Hl Hz Ha Hx.
  unfold Claim. rewrite Ho. replace (IsZero at_) with false by tlia.
  replace (After lease at_) with true by tlia.
  replace (Before (UTC at_) (nextAttemptAt w')) with false by tlia. cbn [negb orb].
  pose proof (wf_shape w' W') as S. destruct (state w'); [done | | contradiction].
  destruct S as (_ & _ & _ & l & Hl' & _). specialize (Hx l Hl'). rewrite Hl'. reduce_decide.
  by replace (Before (UTC at_) l) with false by tlia.
Qed.

(** A superseded reconciler is refused: after another claim, a renewal,
    reschedule or completion that presents the earlier fence has no effect; and
    two claims never carry the same fence. *)
Theorem reconciliation_superseded_refused w n w'
    (F : is_u64 (claimFence w)) (R : runs w n w') (B : Z.of_nat n + 1 < two64) :
  (forall c, (0 < n)%nat -> c_fence c = Some (claimFence w) -> exists e, exec w' c = Err e)
  /\ (forall o l now w'', Claim (Some w') o l now = Ok w'' -> claimFence w'' <> claimFence w).
Proof.
  split.
  - intros c N P. assert (B' : Z.of_nat n < two64) by lia.
    exact (stale_fence_refused w n w' c F R N B' P).
  - intros o l now w'' H E.
    change (exec w' (CClaim o l now) = Ok w'') in H.
    pose proof (runs_snoc (F := Work_fenced) _ _ _ _ _ R H) as R'.
    exact (runs_fence_moved (F := Work_fenced) w _ w'' F R' ltac:(cbn; lia) ltac:(cbn; lia) E).
Qed.

(** Completed work is final. *)
Theorem reconciliation_completed_final w c (D : state w = Completed) : exists e, exec w c = Err e.
Proof.
  destruct (exec w c) as [w' | e] eqn:E; [| by eauto]. exfalso.
  apply reconciliation_exec_effect in E.
  destruct E as [o l now ? ? ? [S | [S _]] | | |]; congruence.
Qed.

(** ** Witnesses *)

Definition ex0 : Work :=
  mkWork id1 id2 id3 "" "compute" "session" "" Pending 0 0 (at_second 0) None None (at_second 0)
    (at_second 0).

Definition ex_claimed (o : ID) (n s : Z) : Work :=
  updated ex0 o "" Claimed n n (at_second 0) (Some (at_second (s + 30))) None (at_second s).

Lemma reconciliation_ex_run1 : runs ex0 1 (ex_claimed id3 1 1).
Proof.
  assert (H : exec ex0 (CClaim id3 (at_second 31) (at_second 1)) = Ok (ex_claimed id3 1 1))
    by (vm_compute; reflexivity).
  exact (runs_step (F := Work_fenced) _ (CClaim id3 (at_second 31) (at_second 1)) _ 0 _ H
           (runs_refl _)).
Qed.

Lemma reconciliation_ex_run2 : runs (ex_claimed id3 1 1) 1 (ex_claimed id4 2 40).
Proof.
  assert (H : exec (ex_claimed id3 1 1) (CClaim id4 (at_second 70) (at_second 40))
              = Ok (ex_claimed id4 2 40)) by (vm_compute; reflexivity).
  exact (runs_step (F := Work_fenced) _ (CClaim id4 (at_second 70) (at_second 40)) _ 0 _ H
           (runs_refl _)).
Qed.

Lemma reconciliation_runs_valid_witness :
  valid (ex_claimed id3 1 1) = true
  /\ is_ok (Claim (Some (ex_claimed id3 1 1)) id4 (at_second 70) (at_second 40)) = true.
Proof.
  pose proof (reconciliation_runs_valid id1 id2 "compute" "session" id3 (at_second 0) (at_second 0)
                ex0 1 (ex_claimed id3 1 1)) as T.
  destruct T as [V L];
    [vm_compute; reflexivity | vm_compute; split; [reflexivity | discriminate]
    | exact reconciliation_ex_run1 | vm_compute; reflexivity |].
  split; [exact V |].
  apply L; [discriminate | vm_compute; reflexivity .. | vm_compute; discriminate |].
  intros l [= <-]. vm_compute. discriminate.
Defined.

Lemma reconciliation_superseded_witness :
  exists e, exec (ex_claimed id4 2 40) (CComplete id3 1 (at_second 41)) = Err e.
Proof.
  destruct (reconciliation_superseded_refused (ex_claimed id3 1 1) 1 (ex_claimed id4 2 40))
    as [A _].
  - split; vm_compute; [discriminate | reflexivity].
  - exact reconciliation_ex_run2.
  - vm_compute. reflexivity.
  - exact (A (CComplete id3 1 (at_second 41)) (Nat.lt_0_succ 0) eq_refl).
Defined.

Lemma reconciliation_completed_final_witness :
  let w := updated ex0 "" "" Completed 1 1 (at_second 0) None (Some (at_second 9)) (at_second 9) in
  valid w = true /\ exists e, exec w (CClaim id3 (at_second 60) (at_second 10)) = Err e.
Proof.
  split; [vm_compute; reflexivity |].
  exact (reconciliation_completed_final
           (updated ex0 "" "" Completed 1 1 (at_second 0) None (Some (at_second 9)) (at_second 9))
           _ eq_refl).
Defined.
