(* ===== verification/Workspace.v ===== *)
(** * internal/domain/workspace: Workspaces and their generations

    The Workspace aggregate ([New], [Transition], [Publish], [Advance]) and the
    immutable Generation record.  Proved: the aggregate invariant, that the
    published generations of a Workspace form one unbroken lineage whose head is
    the current generation, that a child generation built from the current one
    is accepted, and that stale commands are lost.  An example shows that
    [Transition] reaches [Ready] with no generation published. *)

From Stdlib Require Import ZArith Bool Lia.
From stdpp Require Import base strings list.
From S2P Require Import Prelude Regex GoStd Primitives Optimistic.

(** ** Data *)

Inductive State : Type :=
| Provisioning | Ready | Attached | Snapshotting | Degraded | Deleting | Deleted.

#[export] Instance State_eq_dec : EqDecision State.
Proof. solve_decision. Defined.

#[export, refine] Instance State_enum : GoEnum State := {|
  enum_string s :=
    match s with
    | Provisioning => "PROVISIONING" | Ready => "READY" | Attached => "ATTACHED"
    | Snapshotting => "SNAPSHOTTING" | Degraded => "DEGRADED" | Deleting => "DELETING"
    | Deleted => "DELETED"
    end;
  enum_all := [Provisioning; Ready; Attached; Snapshotting; Degraded; Deleting; Deleted]
|}.
Proof. all: [> enum_inj | enum_in]. Defined.

Definition ParseState (value : string) : result EnumError State := ParseEnum value.

Inductive WorkspaceError : Type :=
| ErrInvalidWorkspace | ErrIllegalTransition | ErrVersionConflict | ErrInvalidGeneration
| ErrGenerationExhausted.

Record Binding : Type := mkBinding {
  SessionID : ID;
  ProviderKind : string;
  ProviderReference : string;
  CapacityBytes : Z;
  AccessMode : string;
  VolumeMode : string;
  EncryptionClass : string;
  StorageProfile : string;
  ConfigDigest : string;
  SourceType : string;
  SourceReference : string;
  Provenance : string;
  ProvenanceDigest : string;
  CreateOperationID : ID;
  RetentionDisposition : string
}.

(** The recovery state [""] is [None]. *)
Record Workspace : Type := mkWorkspace {
  tenantID : ID;
  id : ID;
  binding : Binding;
  state : State;
  stateVersion : Z;
  currentGeneration : Z;
  currentGenerationID : option ID;
  recoveryState : option State;
  createdAt : Time;
  updatedAt : Time;
  deletedAt : option Time
}.

Record GenerationBinding : Type := mkGenerationBinding {
  OperationID : ID;
  ProviderSnapshotReference : string;
  IntegrityAlgorithm : string;
  IntegrityRoot : string;
  ManifestDigest : string;
  LogicalBytes : Z;
  LogicalFiles : Z;
  CreatorExecutionID : ID;
  CreatorAttemptID : ID;
  CreatorExecutionGeneration : Z;
  StorageEvidence : string;
  StorageEvidenceDigest : string;
  Classification : string;
  GRetentionDisposition : string
}.

Record Generation : Type := mkGeneration {
  g_tenantID : ID;
  g_id : ID;
  g_workspaceID : ID;
  g_sessionID : ID;
  generation : Z;
  parentID : option ID;
  g_binding : GenerationBinding;
  g_createdAt : Time
}.

(** ** Operations *)

Definition validBinding (b : Binding) : bool :=
  if negb (validID (SessionID b)) || negb (validID (CreateOperationID b)) || (CapacityBytes b == 0)
     || (max_int64 <? CapacityBytes b) || (ProviderReference b == "") || (SourceReference b == "")
  then false
  else if negb (forallb (fun value => is_ok (BoundedString value 1 2048 2048))
                  [ProviderKind b; ProviderReference b; AccessMode b; VolumeMode b;
                   EncryptionClass b; StorageProfile b; SourceType b; SourceReference b;
                   RetentionDisposition b])
  then false
  else match_string sha256_pattern (ConfigDigest b)
       && match_string sha256_pattern (ProvenanceDigest b)
       && validJSONObject (Provenance b) 65536.

Definition cloneBinding (b : Binding) : Binding := b.
Definition cloneGenerationBinding (b : GenerationBinding) : GenerationBinding := b.

Definition New (tenant workspace : ID) (b : Binding) (now : Time)
  : result WorkspaceError Workspace :=
  if negb (validID tenant) || negb (validID workspace) || negb (validBinding b) || IsZero now
  then Err ErrInvalidWorkspace
  else Ok (mkWorkspace tenant workspace (cloneBinding b) Provisioning 0 0 None None (UTC now)
             (UTC now) None).

(** A missing key of either map reads as [false]. *)
Definition workspaceTransitions (from to : State) : bool :=
  match from, to with
  | Provisioning, (Ready | Degraded | Deleting) => true
  | Ready, (Attached | Snapshotting | Degraded | Deleting) => true
  | Attached, (Ready | Snapshotting | Degraded | Deleting) => true
  | Snapshotting, (Ready | Attached | Degraded | Deleting) => true
  | Degraded, (Provisioning | Ready | Attached | Snapshotting | Deleting) => true
  | Deleting, Deleted => true
  | _, _ => false
  end.

Definition Transition (self : option Workspace) (next : string) (expectedVersion : Z) (now : Time)
  : result WorkspaceError Workspace :=
  match self with
  | None => Err ErrInvalidWorkspace
  | Some w =>
      if expectedVersion != stateVersion w then Err ErrVersionConflict
      else match ParseState next with
      | Err _ => Err ErrInvalidWorkspace
      | Ok n =>
          if IsZero now || Before (UTC now) (updatedAt w) then Err ErrInvalidWorkspace
          else if n == state w then
            if (n == Deleting) || (n == Deleted) then Ok w else Err ErrIllegalTransition
          else if negb (workspaceTransitions (state w) n)
                  || ((state w == Degraded) && (Some n != recoveryState w) && (n != Deleting))
          then Err ErrIllegalTransition
          else Ok (mkWorkspace (tenantID w) (id w) (binding w) n (u64 (stateVersion w + 1))
                     (currentGeneration w) (currentGenerationID w)
                     (if n == Degraded then Some (state w)
                      else if state w == Degraded then None else recoveryState w)
                     (createdAt w) (UTC now)
                     (if n == Deleted then Some (UTC now) else deletedAt w))
      end
  end.

(** The workspace with a new current generation. *)
Definition published (w : Workspace) (number : Z) (gid : ID) (now : Time) : Workspace :=
  mkWorkspace (tenantID w) (id w) (binding w) (state w) (u64 (stateVersion w + 1)) number
    (Some gid) (recoveryState w) (createdAt w) (UTC now) (deletedAt w).

Definition Publish (self : option Workspace) (g : Generation) (expectedVersion : Z) (now : Time)
  : result WorkspaceError Workspace :=
  match self with
  | None => Err ErrInvalidWorkspace
  | Some w =>
      if expectedVersion != stateVersion w then Err ErrVersionConflict
      else if (state w != Provisioning) || IsZero now || Before (UTC now) (updatedAt w)
              || (g_tenantID g != tenantID w) || (g_workspaceID g != id w)
              || (g_sessionID g != SessionID (binding w)) || (generation g != 0)
              || is_some (currentGenerationID w)
      then Err ErrInvalidGeneration
      else Ok (published w (currentGeneration w) (g_id g) now)
  end.

Definition Advance (self : option Workspace) (g : Generation) (expectedVersion : Z) (now : Time)
  : result WorkspaceError Workspace :=
  match self with
  | None => Err ErrInvalidWorkspace
  | Some w =>
      if expectedVersion != stateVersion w then Err ErrVersionConflict
      else if currentGeneration w == max_int64 then Err ErrGenerationExhausted
      else if (state w != Snapshotting) || negb (is_some (currentGenerationID w))
              || (g_tenantID g != tenantID w) || (g_workspaceID g != id w)
              || (g_sessionID g != SessionID (binding w))
              || (generation g != u64 (currentGeneration w + 1))
              || negb (is_some (parentID g)) || (parentID g != currentGenerationID w)
              || IsZero now || Before (UTC now) (updatedAt w)
      then Err ErrInvalidGeneration
      else Ok (published w (generation g) (g_id g) now)
  end.

Definition validGenerationBinding (b : GenerationBinding) : bool :=
  if negb (validID (OperationID b)) || (max_int64 <? LogicalBytes b) || (max_int64 <? LogicalFiles b)
     || negb (match_string sha256_pattern (IntegrityRoot b))
     || negb (match_string sha256_pattern (ManifestDigest b))
     || negb (match_string sha256_pattern (StorageEvidenceDigest b))
     || negb (validJSONObject (StorageEvidence b) 65536)
  then false
  else if negb (forallb (fun value => is_ok (BoundedString value 1 2048 2048))
                  [IntegrityAlgorithm b; Classification b; GRetentionDisposition b])
  then false
  else if (ProviderSnapshotReference b != "")
          && negb (is_ok (BoundedString (ProviderSnapshotReference b) 1 2048 2048))
  then false
  else if CreatorExecutionGeneration b == 0
  then (CreatorExecutionID b == "") && (CreatorAttemptID b == "")
  else validID (CreatorExecutionID b) && validID (CreatorAttemptID b).

Definition NewGeneration (tenant gid workspace session : ID) (number : Z)
    (parent : option Generation) (b : GenerationBinding) (now : Time)
  : result WorkspaceError Generation :=
  let build (p : option ID) :=
    Ok (mkGeneration tenant gid workspace session number p (cloneGenerationBinding b) (UTC now)) in
  if negb (validID tenant) || negb (validID gid) || negb (validID workspace)
     || negb (validID session) || (max_int64 <? number) || IsZero now
     || negb (validGenerationBinding b)
  then Err ErrInvalidGeneration
  else if number == 0 then
    match parent with
    | Some _ => Err ErrInvalidGeneration
    | None => build None
    end
  else match parent with
  | None => Err ErrInvalidGeneration
  | Some p =>
      if (g_tenantID p != tenant) || (g_workspaceID p != workspace) || (g_sessionID p != session)
         || (generation p == max_int64) || (number != u64 (generation p + 1))
      then Err ErrInvalidGeneration
      else build (Some (g_id p))
  end.

(** ** Commands *)

Inductive Command : Type :=
| CTransition (next : string) (version : Z) (now : Time)
| CPublish (g : Generation) (version : Z) (now : Time)
| CAdvance (g : Generation) (version : Z) (now : Time).

Definition c_version (c : Command) : Z :=
  match c with CTransition _ v _ | CPublish _ v _ | CAdvance _ v _ => v end.

Definition exec (w : Workspace) (c : Command) : result WorkspaceError Workspace :=
  match c with
  | CTransition n v now => Transition (Some w) n v now
  | CPublish g v now => Publish (Some w) g v now
  | CAdvance g v now => Advance (Some w) g v now
  end.

(** ** Abstract lifecycle

    The states in which the storage is in use, those among which work moves it,
    and the edges: initialization, work, loss and exact recovery of a usable
    state, and deletion. *)

Definition usable (s : State) : Prop :=
  match s with Provisioning | Ready | Attached | Snapshotting => True | _ => False end.

Definition working (s : State) : Prop :=
  match s with Ready | Attached | Snapshotting => True | _ => False end.

Inductive edge : option State -> State -> State -> Prop :=
| e_ready r : edge r Provisioning Ready
| e_work r s t : working s -> working t -> s <> t -> edge r s t
| e_degrade r s : usable s -> edge r s Degraded
| e_recover s : usable s -> edge (Some s) Degraded s
| e_delete r s : usable s \/ s = Degraded -> edge r s Deleting
| e_deleted r : edge r Deleting Deleted.

Create HintDb workspace.
#[export] Hint Constructors edge : workspace.
#[export] Hint Extern 1 (usable _) => exact I : workspace.
#[export] Hint Extern 1 (working _) => exact I : workspace.
#[export] Hint Extern 1 (_ <> _) => discriminate : workspace.

Inductive reachable : Workspace -> Prop :=
| reach_new t i b now w : New t i b now = Ok w -> reachable w
| reach_step w c w' : reachable w -> exec w c = Ok w' -> reachable w'.

(** ** Lemmas *)

Lemma workspace_edge w n :
  n <> state w ->
  workspaceTransitions (state w) n
    && negb ((state w == Degraded) && (Some n != recoveryState w) && (n != Deleting)) = true
  <-> edge (recoveryState w) (state w) n.
Proof.
  intros Hn. destruct (state w) eqn:E, n; cbn; reduce_decide; try congruence; split; intros H;
    try discriminate H; try (by eauto with workspace);
    try (by inversion H; subst; auto; contradiction).
  1-4: rewrite andb_true_r, negb_involutive, bool_decide_eq_true in H; rewrite <- H;
    eauto with workspace.
  - by rewrite andb_false_r.
  - inversion H; subst; [contradiction |]. by destruct_or!.
Qed.

(** The workspace after an accepted transition to another state. *)
Definition moved (w : Workspace) (n : State) (now : Time) : Workspace :=
  mkWorkspace (tenantID w) (id w) (binding w) n (u64 (stateVersion w + 1))
    (currentGeneration w) (currentGenerationID w)
    (if n == Degraded then Some (state w) else if state w == Degraded then None else recoveryState w)
    (createdAt w) (UTC now) (if n == Deleted then Some (UTC now) else deletedAt w).

Definition belongs (g : Generation) (w : Workspace) : Prop :=
  g_tenantID g = tenantID w /\ g_workspaceID g = id w /\ g_sessionID g = SessionID (binding w).

(** What an accepted command requires, and the workspace it leaves. *)
Inductive effect (w : Workspace) : Command -> Workspace -> Prop :=
| eff_idempotent n now : n = state w -> n = Deleting \/ n = Deleted ->
    effect w (CTransition (enum_string n) (stateVersion w) now) w
| eff_move n now : n <> state w -> edge (recoveryState w) (state w) n ->
    nanos (updatedAt w) <= nanos now ->
    effect w (CTransition (enum_string n) (stateVersion w) now) (moved w n now)
| eff_publish g now : state w = Provisioning -> belongs g w -> generation g = 0 ->
    currentGenerationID w = None -> nanos (updatedAt w) <= nanos now ->
    effect w (CPublish g (stateVersion w) now) (published w (currentGeneration w) (g_id g) now)
| eff_advance g now p : state w = Snapshotting -> belongs g w ->
    currentGeneration w <> max_int64 -> generation g = u64 (currentGeneration w + 1) ->
    currentGenerationID w = Some p -> parentID g = Some p -> nanos (updatedAt w) <= nanos now ->
    effect w (CAdvance g (stateVersion w) now) (published w (generation g) (g_id g) now).

Lemma workspace_exec_effect w c w' : exec w c = Ok w' -> effect w c w'.
Proof.
  destruct c as [next v now | g v now | g v now]; cbn [exec]; intros H.
  - unfold Transition in H. destruct (v != stateVersion w) eqn:V; [discriminate H |].
    apply negb_bool_decide_false in V as ->. unfold ParseState in H.
    destruct (ParseEnum next) as [n |] eqn:P; [| discriminate H]. apply ParseEnum_ok in P as ->.
    destruct (_ || _) eqn:T in H; [discriminate H |]. apply orb_false_iff in T as [_ T].
    destruct (n == state w) eqn:N; simp_bool.
    + destruct (_ || _) eqn:D in H; [| discriminate H]. injection H as <-.
      constructor; [done |]. apply orb_true_iff in D as [D | D]; simp_bool; auto.
    + destruct (_ || _) eqn:D in H; [discriminate H |]. injection H as <-.
      apply orb_false_iff in D as [D1 D2]. apply (eff_move w n now); [done | | tlia].
      apply workspace_edge; [done |]. rewrite D2. apply negb_false_iff in D1 as ->. done.
  - unfold Publish in H. ok_inv H. constructor; try done. tlia.
  - unfold Advance in H. destruct (_ != _) eqn:V in H; [discriminate H |].
    apply negb_bool_decide_false in V as ->.
    destruct (_ == max_int64) eqn:M in H; [discriminate H |].
    destruct (_ || _) eqn:G in H; [discriminate H |]. injection H as <-. simp_bool.
    destruct (currentGenerationID w) as [p |] eqn:C; [| done].
    apply (eff_advance w g now p); try done; try congruence. tlia.
Qed.

#[export, refine] Instance Workspace_versioned : Versioned Workspace Command WorkspaceError := {|
  version := stateVersion;
  presented := c_version;
  apply := exec
|}.
Proof.
  - intros w c w' H. apply workspace_exec_effect in H. by destruct H.
  - intros w c w' H. apply workspace_exec_effect in H. destruct H; auto.
Defined.

(** The aggregate invariant. *)
Record wf (w : Workspace) : Prop := {
  wf_ids : validID (tenantID w) = true /\ validID (id w) = true /\ validBinding (binding w) = true;
  wf_version : is_u64 (stateVersion w);
  wf_generation : 0 <= currentGeneration w <= max_int64;
  wf_initial : currentGenerationID w = None -> currentGeneration w = 0;
  wf_recovery : match recoveryState w with
                | Some r => state w = Degraded /\ usable r
                | None => state w <> Degraded
                end;
  wf_deleted : match deletedAt w with
               | Some d => state w = Deleted /\ d = updatedAt w
               | None => state w <> Deleted
               end;
  wf_times : nanos (createdAt w) <> 0 /\ nanos (createdAt w) <= nanos (updatedAt w);
  wf_utc : is_utc (createdAt w) /\ is_utc (updatedAt w)
}.

Ltac workspace_fields :=
  cbn [moved published tenantID id binding state stateVersion currentGeneration
       currentGenerationID recoveryState createdAt updatedAt deletedAt] in *.

Lemma workspace_wf_New t i b now w : New t i b now = Ok w -> wf w.
Proof.
  unfold New. intros H. destruct (_ || _) eqn:G in H; [discriminate H |]. injection H as <-.
  simp_bool. constructor; workspace_fields; try done; try (split; unfold max_int64; lia). tlia.
Qed.

Lemma workspace_wf_moved w n now :
  wf w -> n <> state w -> edge (recoveryState w) (state w) n ->
  nanos (updatedAt w) <= nanos now -> wf (moved w n now).
Proof.
  intros [W1 W2 W3 W4 W5 W6 W7 W8] Hn He Hu.
  constructor; workspace_fields; try done; try apply u64_range; [| | tlia | by destruct W8].
  - destruct (n == Degraded) eqn:D; simp_bool.
    + split; [done |]. inversion He; subst; first [done | contradiction | congruence].
    + destruct (state w == Degraded) eqn:S; simp_bool; [done |].
      destruct (recoveryState w); [by destruct W5 | done].
  - destruct (n == Deleted) eqn:D; simp_bool; [done |].
    destruct (deletedAt w); [| done]. destruct W6 as [W6 _]. rewrite W6 in He.
    inversion He; subst; try contradiction. by destruct_or!.
Qed.

Lemma workspace_wf_exec w c w' : wf w -> exec w c = Ok w' -> wf w'.
Proof.
  intros W H. apply workspace_exec_effect in H.
  destruct H as [| n now ? ? ? | g now S B G C U | g now p S B M G C P U];
    [done | by apply workspace_wf_moved | |]; destruct W as [W1 W2 W3 W4 W5 W6 W7 W8].
  - constructor; workspace_fields; try done; try apply u64_range; [| tlia | by destruct W8].
    destruct (deletedAt w); [| done]. destruct W6. congruence.
  - rewrite u64_succ_small in G by (unfold two64, max_int64 in *; lia).
    constructor; workspace_fields; try done; try apply u64_range; [lia | | tlia | by destruct W8].
    destruct (deletedAt w); [| done]. destruct W6. congruence.
Qed.

Lemma workspace_wf_reachable w : reachable w -> wf w.
Proof. induction 1; eauto using workspace_wf_New, workspace_wf_exec. Qed.

(** ** Theorems *)

(** Every Workspace reachable from creation satisfies the aggregate
    invariant: a recovery state exactly when degraded and usable, a deletion time
    exactly when deleted, a generation number within the signed range and zero
    until a generation is published, ordered timestamps in UTC. *)
Theorem workspace_invariant w (R : reachable w) : wf w.
Proof. by apply workspace_wf_reachable. Qed.

(** The generations a command publishes. *)
Definition publishes (c : Command) : list Generation :=
  match c with
  | CTransition _ _ _ => []
  | CPublish g _ _ | CAdvance g _ _ => [g]
  end.

(** [history w gs]: accepted commands created [w] and published [gs], newest first. *)
Inductive history : Workspace -> list Generation -> Prop :=
| h_new t i b now w : New t i b now = Ok w -> history w []
| h_step w gs c w' : history w gs -> exec w c = Ok w' -> history w' (publishes c ++ gs).

(** Numbers count up from zero and every generation names its predecessor. *)
Fixpoint lineage (gs : list Generation) : Prop :=
  match gs with
  | [] => True
  | g :: rest =>
      match rest with
      | [] => generation g = 0
      | p :: _ => generation g = generation p + 1 /\ parentID g = Some (g_id p)
      end /\ lineage rest
  end.

(** The head of the published generations is the current one. *)
Definition current (w : Workspace) (gs : list Generation) : Prop :=
  match gs with
  | [] => currentGenerationID w = None /\ currentGeneration w = 0
  | g :: _ => currentGenerationID w = Some (g_id g) /\ currentGeneration w = generation g
  end.

Lemma history_reachable w gs : history w gs -> reachable w.
Proof. induction 1; eauto using reachable. Qed.

Lemma belongs_stable w c w' g : exec w c = Ok w' -> belongs g w -> belongs g w'.
Proof. intros H. apply workspace_exec_effect in H. by destruct H. Qed.

Lemma history_lineage w gs (H : history w gs) :
  lineage gs /\ Forall (fun g => belongs g w) gs /\ current w gs.
Proof.
  induction H as [t i b now w H | w gs c w' H IH E].
  - unfold New in H. destruct (_ || _) in H; [discriminate H |]. by injection H as <-.
  - destruct IH as (L & B & C).
    pose proof (workspace_wf_reachable w (history_reachable w gs H)) as W.
    assert (B' : Forall (fun g => belongs g w') gs)
      by (eapply Forall_impl; [exact B | intros g; by apply (belongs_stable w c w')]).
    apply workspace_exec_effect in E.
    destruct E as [| n now ? ? ? | g now S Bg G N U | g now p S Bg M G N P U]; cbn [publishes app].
    + done.
    + by destruct gs.
    + destruct gs as [| p gs]; [| destruct C; congruence].
      split_and!; [done | by constructor | split; [done |]].
      destruct C as [_ C]. cbn. by rewrite C, G.
    + destruct gs as [| q gs]; [destruct C; congruence |]. destruct C as [C1 C2].
      rewrite N in C1. injection C1 as ->.
      pose proof (wf_generation w W) as Wg.
      rewrite u64_succ_small in G by (unfold two64, max_int64 in *; lia).
      split_and!; [split_and!; [lia | done | apply L ..] | by constructor | done].
Qed.

(** The published generations of a Workspace are one unbroken lineage:
    they all belong to it, count up from zero without gap or reuse, each names its
    predecessor as parent, and the newest is the current generation. *)
Theorem workspace_generation_lineage w gs (H : history w gs) :
  lineage gs /\ Forall (fun g => belongs g w) gs /\ current w gs.
Proof. by apply history_lineage. Qed.

(** The lineage can always be continued: in a Workspace being snapshotted, a
    child built by [NewGeneration] from the current generation is accepted by
    [Advance] and becomes current, unless the generation number is exhausted. *)
Theorem workspace_child_accepted w p gs gid b at_ now
    (H : history w (p :: gs)) (S : state w = Snapshotting)
    (X : generation p < max_int64) (I : validID gid = true)
    (V : validGenerationBinding b = true) (A : IsZero at_ = false)
    (N : IsZero now = false) (U : nanos (updatedAt w) <= nanos now) :
  exists g w',
    NewGeneration (tenantID w) gid (id w) (SessionID (binding w)) (generation p + 1) (Some p) b at_
      = Ok g
    /\ Advance (Some w) g (stateVersion w) now = Ok w'
    /\ currentGenerationID w' = Some gid /\ currentGeneration w' = currentGeneration w + 1.
Proof.
  destruct (history_lineage w (p :: gs) H) as (L & B & C1 & C2).
  apply Forall_cons in B as [(B1 & B2 & B3) _].
  destruct (workspace_wf_reachable w (history_reachable _ _ H)) as [(W1 & W2 & W3) _ W _ _ _ _ _].
  assert (W4 : validID (SessionID (binding w)) = true).
  { unfold validBinding in W3. destruct (_ || _) eqn:G in W3; [discriminate W3 |]. by simp_bool. }
  assert (E : u64 (generation p + 1) = generation p + 1)
    by (apply u64_succ_small; unfold two64, max_int64 in *; lia).
  exists (mkGeneration (tenantID w) gid (id w) (SessionID (binding w)) (generation p + 1)
            (Some (g_id p)) b (UTC at_)).
  exists (published w (generation p + 1) gid now). split_and!.
  - unfold NewGeneration. rewrite W1, W2, W4, I, V, A, B1, B2, B3, E.
    rewrite (bool_decide_eq_false_2 (generation p + 1 = 0)) by lia.
    rewrite (bool_decide_eq_false_2 (generation p = max_int64)) by lia.
    rewrite !bool_decide_eq_true_2 by done.
    by replace (max_int64 <? generation p + 1) with false by lia.
  - unfold Advance. cbn [g_tenantID g_workspaceID g_sessionID generation parentID g_id].
    rewrite S, N, C1, C2, E.
    rewrite (bool_decide_eq_false_2 (generation p = max_int64)) by lia.
    rewrite !bool_decide_eq_true_2 by done.
    by replace (Before (UTC now) (updatedAt w)) with false by tlia.
  - done.
  - cbn. lia.
Qed.

(** One winner: of any commands prepared against the same version of a
    Workspace, transitions and publications alike, at most one takes effect. *)
Theorem workspace_single_winner w ops v (R : reachable w)
    (P : Forall (fun op => c_version op = v) ops) :
  run_commands w ops = w \/ exists op, op ∈ ops /\ exec w op = Ok (run_commands w ops).
Proof. exact (single_winner w ops v (wf_version w (workspace_wf_reachable w R)) P). Qed.

(** A concrete workspace: created, made ready, and the same with generation 0
    published first. *)
Definition ex_binding : Binding :=
  mkBinding id3 "kubernetes" "pvc-1" 1024 "RWO" "Filesystem" "aes" "standard" digest_a
    "empty" "none" "{}" digest_b id4 "retain".

Definition ex0 : Workspace :=
  mkWorkspace id1 id2 ex_binding Provisioning 0 0 None None (at_second 0) (at_second 0) None.

Definition ex_unpublished : Workspace := moved ex0 Ready (at_second 1).

Lemma workspace_ex0_new : New id1 id2 ex_binding (at_second_local 0) = Ok ex0.
Proof. vm_compute. reflexivity. Qed.

Lemma workspace_ex_unpublished_step :
  exec ex0 (CTransition "READY" 0 (at_second 1)) = Ok ex_unpublished.
Proof. vm_compute. reflexivity. Qed.

(** The initialization guard that [Transition] lacks: a reachable Workspace
    is [Ready] with no generation published, and neither publication command
    accepts any generation for it. *)
Theorem workspace_ready_without_generation :
  exists w, reachable w /\ state w = Ready /\ currentGenerationID w = None
    /\ forall g v now, is_ok (Publish (Some w) g v now) = false
                       /\ is_ok (Advance (Some w) g v now) = false.
Proof.
  exists ex_unpublished. split_and!; try done.
  - exact (reach_step _ _ _ (reach_new _ _ _ _ _ workspace_ex0_new) workspace_ex_unpublished_step).
  - intros g v now. split; unfold Publish, Advance; cbn [stateVersion moved ex_unpublished];
      by destruct (v != _).
Qed.

(** ** Witnesses *)

Definition ex_generation_binding : GenerationBinding :=
  mkGenerationBinding id4 "" "sha256-tree" digest_a digest_b 10 1 "" "" 0 "{}" digest_a "internal"
    "retain".

Definition ex_g0 : Generation :=
  mkGeneration id1 id4 id2 id3 0 None ex_generation_binding (at_second 1).

Definition ex_published : Workspace := published ex0 0 id4 (at_second 1).
Definition ex_ready : Workspace := moved ex_published Ready (at_second 2).
Definition ex_snapshotting : Workspace := moved ex_ready Snapshotting (at_second 3).

Lemma workspace_ex_g0_new :
  NewGeneration id1 id4 id2 id3 0 None ex_generation_binding (at_second_local 1) = Ok ex_g0.
Proof. vm_compute. reflexivity. Qed.

Lemma workspace_ex_history : history ex_snapshotting [ex_g0].
Proof.
  assert (H1 : exec ex0 (CPublish ex_g0 0 (at_second 1)) = Ok ex_published)
    by (vm_compute; reflexivity).
  assert (H2 : exec ex_published (CTransition "READY" 1 (at_second 2)) = Ok ex_ready)
    by (vm_compute; reflexivity).
  assert (H3 : exec ex_ready (CTransition "SNAPSHOTTING" 2 (at_second 3)) = Ok ex_snapshotting)
    by (vm_compute; reflexivity).
  exact (h_step _ _ _ _ (h_step _ _ _ _ (h_step _ _ _ _ (h_new _ _ _ _ _ workspace_ex0_new) H1) H2) H3).
Qed.

Lemma workspace_invariant_witness : wf ex_snapshotting /\ stateVersion ex_snapshotting = 3.
Proof.
  split; [| vm_compute; reflexivity].
  exact (workspace_invariant ex_snapshotting (history_reachable _ _ workspace_ex_history)).
Defined.

Lemma workspace_generation_lineage_witness :
  lineage [ex_g0] /\ Forall (fun g => belongs g ex_snapshotting) [ex_g0]
  /\ current ex_snapshotting [ex_g0].
Proof. exact (workspace_generation_lineage ex_snapshotting [ex_g0] workspace_ex_history). Defined.

Lemma workspace_child_accepted_witness :
  exists g w',
    NewGeneration id1 id3 id2 id3 1 (Some ex_g0) ex_generation_binding (at_second 4) = Ok g
    /\ Advance (Some ex_snapshotting) g 3 (at_second 5) = Ok w'
    /\ currentGenerationID w' = Some id3 /\ currentGeneration w' = 1.
Proof.
  refine (workspace_child_accepted ex_snapshotting ex_g0 [] id3 ex_generation_binding (at_second 4)
            (at_second 5) workspace_ex_history eq_refl _ _ _ _ _ _);
    vm_compute; first [reflexivity | discriminate].
Defined.

Lemma workspace_single_winner_witness :
  let ops := [CTransition "READY" 3 (at_second 4); CTransition "DEGRADED" 3 (at_second 4)] in
  run_commands ex_snapshotting ops = ex_snapshotting
  \/ exists op, op ∈ ops /\ exec ex_snapshotting op = Ok (run_commands ex_snapshotting ops).
Proof.
  apply (workspace_single_winner ex_snapshotting _ 3 (history_reachable _ _ workspace_ex_history)).
  repeat constructor.
Defined.
