(* ===== verification/Checkpoint.v ===== *)
(** * internal/domain/checkpoint: restore metadata

    A Checkpoint is created, committed once with signed integrity evidence, and
    deleted.  Proved: the exclusion check decides equality with the required
    exclusions up to order, the aggregate invariant, and that the evidence of a
    committed checkpoint is immutable and its life at most three commands long. *)

From Stdlib Require Import ZArith Bool Lia.
From stdpp Require Import base strings list gmap.
From S2P Require Import Prelude Regex GoStd Primitives Optimistic.

(** ** Data *)

Inductive State : Type := Creating | Committed | Deleting | Deleted.

#[export] Instance State_eq_dec : EqDecision State.
Proof. solve_decision. Defined.

#[export, refine] Instance State_enum : GoEnum State := {|
  enum_string s :=
    match s with
    | Creating => "CREATING" | Committed => "COMMITTED" | Deleting => "DELETING"
    | Deleted => "DELETED"
    end;
  enum_all := [Creating; Committed; Deleting; Deleted]
|}.
Proof. all: [> enum_inj | enum_in]. Defined.

Inductive Purpose : Type :=
| PurposeCheckpoint | PurposeSuspend | PurposeFork | PurposeMigration.

#[export] Instance Purpose_eq_dec : EqDecision Purpose.
Proof. solve_decision. Defined.

#[export, refine] Instance Purpose_enum : GoEnum Purpose := {|
  enum_string s :=
    match s with
    | PurposeCheckpoint => "checkpoint" | PurposeSuspend => "suspend" | PurposeFork => "fork"
    | PurposeMigration => "migration"
    end;
  enum_all := [PurposeCheckpoint; PurposeSuspend; PurposeFork; PurposeMigration]
|}.
Proof. all: [> enum_inj | enum_in]. Defined.

Inductive CheckpointError : Type := ErrInvalidCheckpoint | ErrIllegalTransition | ErrVersionConflict.

(** [^[A-Za-z0-9_-]{32,256}$] and [^[A-Za-z0-9_-]+$] *)
Definition cls_base64url : cls := cls_alnum ++ [(95, 95); (45, 45)].
Definition digestPattern : re :=
  RCat (rep 32 (RCls cls_base64url)) (rep_upto 224 (RCls cls_base64url)).
Definition signaturePattern : re := RCat (RCls cls_base64url) (RStar (RCls cls_base64url)).

Definition RequiredExclusions : list string :=
  ["execution_credentials"; "bootstrap_credentials"; "provider_credentials";
   "gateway_tokens"; "scm_and_tool_credentials"; "signing_private_keys";
   "sandbox_process_authority"].

Definition ParsePurpose (value : string) : result EnumError Purpose := ParseEnum value.

Record Binding : Type := mkBinding {
  SessionID : ID;
  WorkspaceID : ID;
  WorkspaceGenerationID : ID;
  WorkspaceGeneration : Z;
  OperationID : ID;
  ParentCheckpointID : ID;
  BPurpose : string;
  RuntimeSpecID : string;
  RuntimeSpecDigest : string;
  AdapterKind : string;
  AdapterVersion : string;
  AdapterBuildDigest : string;
  ProtocolName : string;
  ProtocolVersion : string;
  StateFormatName : string;
  StateFormatVersion : string;
  RuntimeProfileDigest : string;
  RetentionDisposition : string
}.

Record Integrity : Type := mkIntegrity {
  CanonicalManifest : string;
  Canonicalization : string;
  DigestAlgorithm : string;
  PayloadDigest : string;
  CompositeRoot : string;
  SignatureAlgorithm : string;
  Signer : string;
  KeyID : string;
  Signature : string;
  SignedAt : Time;
  VendorState : string;
  Exclusions : list string
}.

Record Checkpoint : Type := mkCheckpoint {
  tenantID : ID;
  id : ID;
  binding : Binding;
  state : State;
  stateVersion : Z;
  integrity : option Integrity;
  createdAt : Time;
  updatedAt : Time;
  committedAt : option Time;
  deletedAt : option Time
}.

(** ** Operations *)

Definition validDigest (value : string) : bool := match_string digestPattern value.

Definition validJSONKind (value : string) (limit first : Z) : bool :=
  let trimmed := TrimSpace (to_bytes value) in
  let n := Z.of_nat (length trimmed) in
  (2 <=? n) && (n <=? limit)
  && match trimmed with b :: _ => b =? first | [] => false end && json_valid trimmed.

(** Bytes 123 and 91 are the opening brace and bracket. *)
Definition validJSONObject (value : string) (limit : Z) : bool := validJSONKind value limit 123.
Definition validJSONArray (value : string) (limit : Z) : bool := validJSONKind value limit 91.

(** The two loops over the [seen] map. *)
Fixpoint collect (values : list string) (seen : gset string) : option (gset string) :=
  match values with
  | [] => Some seen
  | value :: rest => if decide (value ∈ seen) then None else collect rest ({[value]} ∪ seen)
  end.

Definition sameExclusions (values : list string) : bool :=
  if length values != length RequiredExclusions then false
  else match collect values ∅ with
  | None => false
  | Some seen => forallb (fun required => bool_decide (required ∈ seen)) RequiredExclusions
  end.

Definition validBinding (b : Binding) : bool :=
  if negb (validID (SessionID b)) || negb (validID (WorkspaceID b))
     || negb (validID (WorkspaceGenerationID b)) || negb (validID (OperationID b))
     || (max_int64 <? WorkspaceGeneration b)
  then false
  else if negb (is_ok (ParsePurpose (BPurpose b))) then false
  else if (ParentCheckpointID b != "") && negb (validID (ParentCheckpointID b)) then false
  else if negb (forallb (fun value => is_ok (BoundedString value 1 255 255))
                  [RuntimeSpecID b; AdapterKind b; AdapterVersion b; ProtocolName b;
                   ProtocolVersion b; StateFormatName b; StateFormatVersion b;
                   RetentionDisposition b])
  then false
  else validDigest (RuntimeSpecDigest b) && validDigest (AdapterBuildDigest b)
       && validDigest (RuntimeProfileDigest b).

Definition validIntegrity (i : Integrity) : bool :=
  if negb (validJSONObject (CanonicalManifest i) 262144)
     || negb (validJSONArray (VendorState i) 262144) || (Canonicalization i != "RFC8785-JCS")
     || ((DigestAlgorithm i != "sha-256") && (DigestAlgorithm i != "sha-512"))
     || IsZero (SignedAt i) || negb (sameExclusions (Exclusions i))
  then false
  else if negb (forallb (fun value => is_ok (BoundedString value 1 128 128))
                  [SignatureAlgorithm i; Signer i; KeyID i])
  then false
  else validDigest (PayloadDigest i) && validDigest (CompositeRoot i)
       && (32 <=? len (Signature i)) && (len (Signature i) <=? 4096)
       && match_string signaturePattern (Signature i).

Definition cloneIntegrity (i : Integrity) : Integrity := i.

Definition New (tenant checkpoint : ID) (b : Binding) (now : Time)
  : result CheckpointError Checkpoint :=
  if negb (validID tenant) || negb (validID checkpoint) || negb (validBinding b) || IsZero now
  then Err ErrInvalidCheckpoint
  else Ok (mkCheckpoint tenant checkpoint b Creating 0 None (UTC now) (UTC now) None None).

Definition validateMutation (self : option Checkpoint) (expected : Z) (now : Time)
  : result CheckpointError Checkpoint :=
  match self with
  | None => Err ErrInvalidCheckpoint
  | Some c =>
      if IsZero now then Err ErrInvalidCheckpoint
      else if expected != stateVersion c then Err ErrVersionConflict
      else if Before (UTC now) (updatedAt c) then Err ErrInvalidCheckpoint
      else Ok c
  end.

Definition Commit (self : option Checkpoint) (i : Integrity) (expectedVersion : Z) (now : Time)
  : result CheckpointError Checkpoint :=
  let! c := validateMutation self expectedVersion now in
  if (state c != Creating) || negb (validIntegrity i) || After (UTC (SignedAt i)) (UTC now)
  then Err ErrInvalidCheckpoint
  else Ok (mkCheckpoint (tenantID c) (id c) (binding c) Committed (u64 (stateVersion c + 1))
             (Some (cloneIntegrity i)) (createdAt c) (UTC now) (Some (UTC now)) (deletedAt c)).

Definition Delete (self : option Checkpoint) (expectedVersion : Z) (now : Time)
  : result CheckpointError Checkpoint :=
  let! c := validateMutation self expectedVersion now in
  if (state c != Creating) && (state c != Committed) then Err ErrIllegalTransition
  else Ok (mkCheckpoint (tenantID c) (id c) (binding c) Deleting (u64 (stateVersion c + 1))
             (integrity c) (createdAt c) (UTC now) (committedAt c) (deletedAt c)).

Definition MarkDeleted (self : option Checkpoint) (expectedVersion : Z) (now : Time)
  : result CheckpointError Checkpoint :=
  let! c := validateMutation self expectedVersion now in
  if state c != Deleting then Err ErrIllegalTransition
  else Ok (mkCheckpoint (tenantID c) (id c) (binding c) Deleted (u64 (stateVersion c + 1))
             (integrity c) (createdAt c) (UTC now) (committedAt c) (Some (UTC now))).

(** ** Commands *)

Inductive Command : Type :=
| CCommit (i : Integrity) (version : Z) (now : Time)
| CDelete (version : Z) (now : Time)
| CMarkDeleted (version : Z) (now : Time).

Definition c_version (c : Command) : Z :=
  match c with CCommit _ v _ | CDelete v _ | CMarkDeleted v _ => v end.

Definition exec (s : Checkpoint) (c : Command) : result CheckpointError Checkpoint :=
  match c with
  | CCommit i v now => Commit (Some s) i v now
  | CDelete v now => Delete (Some s) v now
  | CMarkDeleted v now => MarkDeleted (Some s) v now
  end.

(** Accepted commands in a row. *)
Inductive steps : Checkpoint -> nat -> Checkpoint -> Prop :=
| steps_refl c : steps c 0 c
| steps_one c op c' n c'' : exec c op = Ok c' -> steps c' n c'' -> steps c (S n) c''.

(** ** Lemmas *)

Lemma collect_spec values : forall seen,
  match collect values seen with
  | Some s => NoDup values /\ (forall v, v ∈ values -> v ∉ seen)
              /\ forall v, v ∈ s <-> v ∈ values \/ v ∈ seen
  | None => ~ (NoDup values /\ forall v, v ∈ values -> v ∉ seen)
  end.
Proof.
  induction values as [| x values IH]; intros seen; cbn.
  - split_and!; [constructor | set_solver | set_solver].
  - destruct (decide (x ∈ seen)) as [I | I]; [set_solver |].
    specialize (IH ({[x]} ∪ seen)). destruct (collect values _) as [s |].
    + destruct IH as (N & D & E). split_and!; [constructor; set_solver | set_solver |].
      intros v. rewrite E. set_solver.
    + intros [N D]. apply IH. apply NoDup_cons in N as [Nx N]. split; [done |].
      intros v Hv. set_solver.
Qed.

Lemma required_nodup : NoDup RequiredExclusions.
Proof. apply (bool_decide_unpack _). vm_compute. exact I. Qed.

Lemma sameExclusions_perm values : sameExclusions values = true <-> values ≡ₚ RequiredExclusions.
Proof.
  unfold sameExclusions. pose proof (collect_spec values ∅) as C. split.
  - intros H. destruct (_ != _) eqn:L in H; [discriminate H |]. simp_bool.
    destruct (collect values ∅) as [s |]; [| discriminate H]. destruct C as (N & _ & E).
    symmetry. apply submseteq_length_Permutation; [| rewrite L; done].
    apply NoDup_submseteq; [apply required_nodup |]. intros v Hv.
    rewrite forallb_forall in H. apply list_elem_of_In in Hv. apply H in Hv.
    apply bool_decide_eq_true, E in Hv. set_solver.
  - intros P. rewrite (Permutation_length P), bool_decide_eq_true_2 by done. cbn [negb].
    assert (N : NoDup values) by (rewrite P; apply required_nodup).
    destruct (collect values ∅) as [s |]; [| exfalso; apply C; split; [done | set_solver]].
    destruct C as (_ & _ & E). apply forallb_forall. intros v Hv.
    apply bool_decide_eq_true, E. left. rewrite P. by apply list_elem_of_In.
Qed.

Lemma checkpoint_validateMutation s v now c : validateMutation (Some s) v now = Ok c ->
  c = s /\ v = stateVersion s /\ IsZero now = false /\ nanos (updatedAt s) <= nanos now.
Proof. unfold validateMutation. intros H. ok_inv H. split_and!; try done. tlia. Qed.

(** What an accepted command requires, and the checkpoint it leaves. *)
Inductive effect (s : Checkpoint) : Command -> Checkpoint -> Prop :=
| eff_commit i now : state s = Creating -> validIntegrity i = true ->
    nanos (SignedAt i) <= nanos now -> nanos (updatedAt s) <= nanos now ->
    effect s (CCommit i (stateVersion s) now)
      (mkCheckpoint (tenantID s) (id s) (binding s) Committed (u64 (stateVersion s + 1))
         (Some i) (createdAt s) (UTC now) (Some (UTC now)) (deletedAt s))
| eff_delete now : state s = Creating \/ state s = Committed ->
    nanos (updatedAt s) <= nanos now ->
    effect s (CDelete (stateVersion s) now)
      (mkCheckpoint (tenantID s) (id s) (binding s) Deleting (u64 (stateVersion s + 1))
         (integrity s) (createdAt s) (UTC now) (committedAt s) (deletedAt s))
| eff_deleted now : state s = Deleting -> nanos (updatedAt s) <= nanos now ->
    effect s (CMarkDeleted (stateVersion s) now)
      (mkCheckpoint (tenantID s) (id s) (binding s) Deleted (u64 (stateVersion s + 1))
         (integrity s) (createdAt s) (UTC now) (committedAt s) (Some (UTC now))).

Lemma checkpoint_exec_effect s c s' : exec s c = Ok s' -> effect s c s'.
Proof.
  destruct c as [i v now | v now | v now]; cbn [exec]; unfold Commit, Delete, MarkDeleted; intros H;
    destruct (validateMutation _ _ _) as [c |] eqn:M; try discriminate H; cbn [rbind] in H;
    apply checkpoint_validateMutation in M as (-> & -> & Z & U).
  - destruct (_ || _) eqn:G in H; [discriminate H |]. injection H as <-. simp_bool.
    unfold cloneIntegrity. constructor; try done. tlia.
  - destruct (_ && _) eqn:G in H; [discriminate H |]. injection H as <-.
    constructor; [| done]. apply andb_false_iff in G as [G | G]; simp_bool; auto.
  - destruct (_ != _) eqn:G in H; [discriminate H |]. injection H as <-. simp_bool.
    by constructor.
Qed.

#[export, refine] Instance Checkpoint_versioned : Versioned Checkpoint Command CheckpointError := {|
  version := stateVersion;
  presented := c_version;
  apply := exec
|}.
Proof.
  - intros s c s' H. apply checkpoint_exec_effect in H. by destruct H.
  - intros s c s' H. apply checkpoint_exec_effect in H. destruct H; auto.
Defined.

(** The aggregate invariant: evidence and commit time come together, and the
    evidence was valid and signed no later than the commit. *)
Record wf (s : Checkpoint) : Prop := {
  wf_ids : validID (tenantID s) = true /\ validID (id s) = true /\ validBinding (binding s) = true;
  wf_times : nanos (createdAt s) <> 0 /\ nanos (createdAt s) <= nanos (updatedAt s);
  wf_evidence :
    match integrity s, committedAt s with
    | Some i, Some at_ => validIntegrity i = true /\ state s <> Creating
        /\ nanos (SignedAt i) <= nanos at_
        /\ nanos (createdAt s) <= nanos at_ <= nanos (updatedAt s)
    | None, None => state s <> Committed
    | _, _ => False
    end;
  wf_deleted : match deletedAt s with
               | Some d => state s = Deleted /\ d = updatedAt s
               | None => state s <> Deleted
               end
}.

Ltac checkpoint_fields :=
  cbn [tenantID id binding state stateVersion integrity createdAt updatedAt committedAt deletedAt]
    in *.

Lemma checkpoint_wf_New t i b now s : New t i b now = Ok s -> wf s.
Proof.
  unfold New. intros H. destruct (_ || _) eqn:G in H; [discriminate H |]. injection H as <-.
  simp_bool. constructor; checkpoint_fields; try done. tlia.
Qed.

Lemma checkpoint_wf_exec s c s' : wf s -> exec s c = Ok s' -> wf s'.
Proof.
  intros [W1 W2 W3 W4] H. apply checkpoint_exec_effect in H.
  destruct H as [i now S V G U | now S U | now S U]; constructor; checkpoint_fields; try done;
    try tlia.
  - split_and!; try done; tlia.
  - destruct (deletedAt s); [| done]. destruct W4. congruence.
  - destruct (integrity s), (committedAt s); try done. destruct W3 as (? & ? & ? & ?).
    split_and!; try done; tlia.
  - destruct (deletedAt s); [| done]. destruct W4, S; congruence.
  - destruct (integrity s), (committedAt s); try done. destruct W3 as (? & ? & ? & ?).
    split_and!; try done; tlia.
Qed.

Lemma checkpoint_steps_wf s n s' : steps s n s' -> wf s -> wf s'.
Proof. induction 1; eauto using checkpoint_wf_exec. Qed.

(** How many commands a state still admits. *)
Definition remaining (s : State) : nat :=
  match s with Creating => 3 | Committed => 2 | Deleting => 1 | Deleted => 0 end.

Lemma checkpoint_remaining s c s' : exec s c = Ok s' ->
  (remaining (state s') < remaining (state s))%nat.
Proof.
  intros H. apply checkpoint_exec_effect in H.
  destruct H as [i now S | now S | now S]; checkpoint_fields; try (rewrite S; cbn; lia).
  destruct S as [S | S]; rewrite S; cbn; lia.
Qed.

(** ** Theorems *)

(** The exclusion check accepts exactly the required exclusions, in any order:
    nothing missing, nothing extra, nothing twice. *)
Theorem checkpoint_exclusions_exact values :
  sameExclusions values = true <-> values ≡ₚ RequiredExclusions.
Proof. apply sameExclusions_perm. Qed.

(** Every checkpoint that commands make of a new one satisfies the invariant,
    and a committed one carries evidence that names all required exclusions and
    was signed no later than the commit. *)
Theorem checkpoint_invariant t i b now s n s' (N : New t i b now = Ok s) (R : steps s n s') :
  wf s' /\ (state s' = Committed -> exists e at_,
    integrity s' = Some e /\ committedAt s' = Some at_ /\ Exclusions e ≡ₚ RequiredExclusions
    /\ nanos (SignedAt e) <= nanos at_).
Proof.
  assert (W : wf s') by eauto using checkpoint_wf_New, checkpoint_steps_wf.
  split; [done |]. intros S. destruct W as [_ _ W _].
  destruct (integrity s') as [e |], (committedAt s') as [at_ |]; try done.
  destruct W as (V & _ & ? & _). exists e, at_. split_and!; try done.
  unfold validIntegrity in V. destruct (_ || _) eqn:G in V; [discriminate V |]. simp_bool.
  by apply sameExclusions_perm.
Qed.

(** Published evidence is immutable and a checkpoint's life is short: after a
    commit no command changes the evidence, the commit time or the binding, and
    no run from any checkpoint has more than three accepted commands. *)
Theorem checkpoint_evidence_immutable s n s' (R : steps s n s') :
  (n <= remaining (state s))%nat
  /\ (state s <> Creating ->
      integrity s' = integrity s /\ committedAt s' = committedAt s /\ binding s' = binding s
      /\ state s' <> Creating).
Proof.
  induction R as [c | c op c' n c'' H R IH]; [split; [lia | done] |].
  pose proof (checkpoint_remaining c op c' H). destruct IH as [L IH]. split; [lia |]. intros S.
  apply checkpoint_exec_effect in H.
  destruct H as [i now S' | now S' | now S']; checkpoint_fields; [congruence | |];
    destruct IH as (-> & -> & -> & ?); done.
Qed.

(** ** Witnesses *)

Definition ex_digest : string := "ZGlnZXN0LW9mLXRoZS1jaGVja3BvaW50LXBheWxvYWQ".

Definition ex_binding : Binding :=
  mkBinding id3 id4 id1 0 id2 "" "suspend" "spec-1" ex_digest "codex" "1.0" ex_digest "app-server"
    "v1" "codex-state" "1" ex_digest "retain".

Definition ex_integrity : Integrity :=
  mkIntegrity "{}" "RFC8785-JCS" "sha-256" ex_digest ex_digest "ed25519" "ar" "key-1" ex_digest
    (at_second 5) "[]" (reverse RequiredExclusions).

Definition ex0 : Checkpoint :=
  mkCheckpoint id1 id2 ex_binding Creating 0 None (at_second 0) (at_second 0) None None.

Definition ex_committed : Checkpoint :=
  mkCheckpoint id1 id2 ex_binding Committed 1 (Some ex_integrity) (at_second 0) (at_second 6)
    (Some (at_second 6)) None.

Definition ex_deleting : Checkpoint :=
  mkCheckpoint id1 id2 ex_binding Deleting 2 (Some ex_integrity) (at_second 0) (at_second 7)
    (Some (at_second 6)) None.

Lemma checkpoint_ex_commit : exec ex0 (CCommit ex_integrity 0 (at_second_local 6)) = Ok ex_committed.
Proof. vm_compute. reflexivity. Qed.

Lemma checkpoint_ex_delete : exec ex_committed (CDelete 1 (at_second 7)) = Ok ex_deleting.
Proof. vm_compute. reflexivity. Qed.

Lemma checkpoint_invariant_witness :
  wf ex_committed /\ (state ex_committed = Committed -> exists e at_,
    integrity ex_committed = Some e /\ committedAt ex_committed = Some at_
    /\ Exclusions e ≡ₚ RequiredExclusions /\ nanos (SignedAt e) <= nanos at_).
Proof.
  apply (checkpoint_invariant id1 id2 ex_binding (at_second 0) ex0 1 ex_committed).
  - vm_compute. reflexivity.
  - exact (steps_one _ _ _ _ _ checkpoint_ex_commit (steps_refl _)).
Defined.

Lemma checkpoint_evidence_immutable_witness :
  integrity ex_deleting = integrity ex_committed /\ committedAt ex_deleting = committedAt ex_committed
  /\ binding ex_deleting = binding ex_committed /\ state ex_deleting <> Creating.
Proof.
  apply (proj2 (checkpoint_evidence_immutable ex_committed 1 ex_deleting
                  (steps_one _ _ _ _ _ checkpoint_ex_delete (steps_refl _)))).
  discriminate.
Defined.
