(* ===== verification/Cleanup.v ===== *)
(** * internal/domain/cleanup: external-resource cleanup intent

    An Intent names one exact external resource and is retried until its absence
    is confirmed or it is quarantined; it then remains as a tombstone.  Proved:
    validity along every run, one version per attempt, an immutable target, and
    finality of the tombstone. *)

From Stdlib Require Import ZArith Bool Lia.
From stdpp Require Import base strings list.
From S2P Require Import Prelude Regex GoStd Primitives Optimistic.

(** ** Data *)

Inductive State : Type := Pending | Confirmed | Quarantined.

#[export] Instance State_eq_dec : EqDecision State.
Proof. solve_decision. Defined.

#[export, refine] Instance State_enum : GoEnum State := {|
  enum_string s :=
    match s with
    | Pending => "PENDING" | Confirmed => "CONFIRMED" | Quarantined => "QUARANTINED"
    end;
  enum_all := [Pending; Confirmed; Quarantined]
|}.
Proof. all: [> enum_inj | enum_in]. Defined.

Inductive IntentError : Type := ErrInvalidIntent | ErrVersionConflict.

Record Target : Type := mkTarget {
  OwnerType : string;
  TargetType : string;
  ProviderKind : string;
  ExternalReference : string;
  OwnerID : ID;
  OperationID : ID;
  RequestDigest : string;
  OwnershipProofDigest : string;
  Orphan : bool
}.

Record Intent : Type := mkIntent {
  tenantID : ID;
  id : ID;
  target : Target;
  state : State;
  i_version : Z;
  attempts : Z;
  nextAttemptAt : Time;
  lastErrorCode : string;
  createdAt : Time;
  updatedAt : Time;
  confirmedAt : option Time;
  quarantinedAt : option Time
}.

(** ** Operations *)

Definition boundedName (v : string) (max : Z) : bool :=
  (len v <=? max) && match_string name_pattern v.

(** The target's part of [valid]. *)
Definition validTarget (t : Target) : bool :=
  validID (OwnerID t) && validID (OperationID t) && boundedName (OwnerType t) 64
  && boundedName (TargetType t) 64 && boundedName (ProviderKind t) 128
  && bounded (ExternalReference t) 2048 && match_string sha256_pattern (RequestDigest t)
  && match_string sha256_pattern (OwnershipProofDigest t).

(** [(i *Intent) valid] *)
Definition valid (i : Intent) : bool :=
  if negb (validID (tenantID i)) || negb (validID (id i)) || negb (validTarget (target i))
     || IsZero (nextAttemptAt i) || IsZero (createdAt i) || Before (updatedAt i) (createdAt i)
     || ((lastErrorCode i != "") && negb (boundedName (lastErrorCode i) 128))
  then false
  else match state i with
  | Pending => negb (is_some (confirmedAt i)) && negb (is_some (quarantinedAt i))
  | Confirmed =>
      (0 <? attempts i)
      && match confirmedAt i with Some t => TimeEqual t (updatedAt i) | None => false end
      && negb (is_some (quarantinedAt i)) && (lastErrorCode i == "")
  | Quarantined =>
      (0 <? attempts i)
      && match quarantinedAt i with Some t => TimeEqual t (updatedAt i) | None => false end
      && negb (is_some (confirmedAt i)) && (lastErrorCode i != "")
  end.

Definition New (tenant i : ID) (t : Target) (next now : Time) : result IntentError Intent :=
  let x := mkIntent tenant i t Pending 0 0 (UTC next) "" (UTC now) (UTC now) None None in
  if negb (valid x) || IsZero now || IsZero next then Err ErrInvalidIntent else Ok x.

Definition Restore (tenant i : ID) (t : Target) (st : string) (version att : Z) (next : Time)
    (lastError : string) (created updated : Time) (confirmed quarantined : option Time)
  : result IntentError Intent :=
  match ParseEnum st with
  | Err _ => Err ErrInvalidIntent
  | Ok s =>
      let x := mkIntent tenant i t s version att (UTC next) lastError (UTC created) (UTC updated)
                 (copyTime confirmed) (copyTime quarantined) in
      if negb (valid x) then Err ErrInvalidIntent else Ok x
  end.

Definition mutable (self : option Intent) (expected : Z) (now : Time) : result IntentError Intent :=
  match self with
  | None => Err ErrVersionConflict
  | Some i =>
      if expected != i_version i then Err ErrVersionConflict
      else if (state i != Pending) || IsZero now || Before (UTC now) (updatedAt i)
      then Err ErrInvalidIntent
      else Ok i
  end.

(** The intent after one more attempt. *)
Definition attempted (i : Intent) (s : State) (next : Time) (error : string)
    (confirmed quarantined : option Time) (now : Time) : Intent :=
  mkIntent (tenantID i) (id i) (target i) s (u64 (i_version i + 1)) (u64 (attempts i + 1)) next
    error (createdAt i) (UTC now) confirmed quarantined.

Definition Retry (self : option Intent) (expected : Z) (next : Time) (errorCode : string)
    (now : Time) : result IntentError Intent :=
  let! i := mutable self expected now in
  if negb (After next now) || negb (boundedName errorCode 128) then Err ErrInvalidIntent
  else Ok (attempted i (state i) (UTC next) errorCode (confirmedAt i) (quarantinedAt i) now).

Definition Confirm (self : option Intent) (expected : Z) (now : Time) : result IntentError Intent :=
  let! i := mutable self expected now in
  Ok (attempted i Confirmed (nextAttemptAt i) "" (Some (UTC now)) (quarantinedAt i) now).

Definition Quarantine (self : option Intent) (expected : Z) (reasonCode : string) (now : Time)
  : result IntentError Intent :=
  let! i := mutable self expected now in
  if negb (boundedName reasonCode 128) then Err ErrInvalidIntent
  else Ok (attempted i Quarantined (nextAttemptAt i) reasonCode (confirmedAt i) (Some (UTC now)) now).

(** ** Commands *)

Inductive Command : Type :=
| CRetry (expected : Z) (next : Time) (errorCode : string) (now : Time)
| CConfirm (expected : Z) (now : Time)
| CQuarantine (expected : Z) (reasonCode : string) (now : Time).

Definition c_version (c : Command) : Z :=
  match c with CRetry v _ _ _ | CConfirm v _ | CQuarantine v _ _ => v end.

Definition exec (i : Intent) (c : Command) : result IntentError Intent :=
  match c with
  | CRetry v n e now => Retry (Some i) v n e now
  | CConfirm v now => Confirm (Some i) v now
  | CQuarantine v r now => Quarantine (Some i) v r now
  end.

(** [n] accepted commands lead from one intent to the other. *)
Inductive steps : Intent -> nat -> Intent -> Prop :=
| steps_refl i : steps i 0 i
| steps_one i c i' n i'' : exec i c = Ok i' -> steps i' n i'' -> steps i (S n) i''.

(** ** Lemmas *)

Lemma cleanup_mutable i v now x : mutable (Some i) v now = Ok x ->
  x = i /\ v = i_version i /\ state i = Pending /\ nanos (updatedAt i) <= nanos now.
Proof. unfold mutable. intros H. ok_inv H. split_and!; try done. tlia. Qed.

(** What an accepted command requires, and the intent it leaves. *)
Inductive effect (i : Intent) : Command -> Intent -> Prop :=
| eff_retry next e now : state i = Pending -> nanos (updatedAt i) <= nanos now ->
    nanos now < nanos next -> boundedName e 128 = true ->
    effect i (CRetry (i_version i) next e now)
      (attempted i (state i) (UTC next) e (confirmedAt i) (quarantinedAt i) now)
| eff_confirm now : state i = Pending -> nanos (updatedAt i) <= nanos now ->
    effect i (CConfirm (i_version i) now)
      (attempted i Confirmed (nextAttemptAt i) "" (Some (UTC now)) (quarantinedAt i) now)
| eff_quarantine r now : state i = Pending -> nanos (updatedAt i) <= nanos now ->
    boundedName r 128 = true ->
    effect i (CQuarantine (i_version i) r now)
      (attempted i Quarantined (nextAttemptAt i) r (confirmedAt i) (Some (UTC now)) now).

Lemma cleanup_exec_effect i c i' : exec i c = Ok i' -> effect i c i'.
Proof.
  destruct c as [v n e now | v now | v r now]; cbn [exec]; unfold Retry, Confirm, Quarantine;
    intros H; destruct (mutable _ _ _) as [x |] eqn:M; try discriminate H; cbn [rbind] in H;
    apply cleanup_mutable in M as (-> & -> & S & U).
  - destruct (_ || _) eqn:G in H; [discriminate H |]. injection H as <-. simp_bool.
    constructor; try done. tlia.
  - injection H as <-. by constructor.
  - destruct (negb _) eqn:G in H; [discriminate H |]. injection H as <-. simp_bool.
    by constructor.
Qed.

#[export, refine] Instance Intent_versioned : Versioned Intent Command IntentError := {|
  version := i_version;
  presented := c_version;
  apply := exec
|}.
Proof.
  - intros i c i' H. apply cleanup_exec_effect in H. by destruct H.
  - intros i c i' H. apply cleanup_exec_effect in H. destruct H; auto.
Defined.

(** [valid] as facts, with one version per attempt. *)
Record wf (i : Intent) : Prop := {
  wf_ids : validID (tenantID i) = true /\ validID (id i) = true /\ validTarget (target i) = true;
  wf_times : 0 < nanos (createdAt i) <= nanos (updatedAt i) /\ nanos (nextAttemptAt i) <> 0;
  wf_error : lastErrorCode i <> "" -> boundedName (lastErrorCode i) 128 = true;
  wf_attempts : attempts i = i_version i;
  wf_version : is_u64 (i_version i);
  wf_shape :
    match state i with
    | Pending => confirmedAt i = None /\ quarantinedAt i = None
    | Confirmed => 0 < attempts i /\ confirmedAt i = Some (updatedAt i) /\ quarantinedAt i = None
                   /\ lastErrorCode i = ""
    | Quarantined => 0 < attempts i /\ quarantinedAt i = Some (updatedAt i) /\ confirmedAt i = None
                   /\ lastErrorCode i <> ""
    end
}.

Lemma cleanup_wf_valid i : wf i -> valid i = true.
Proof.
  intros [(I1 & I2 & I3) T E A V S]. unfold valid. rewrite I1, I2, I3.
  replace (IsZero (nextAttemptAt i)) with false by tlia.
  replace (IsZero (createdAt i)) with false by tlia.
  replace (Before (updatedAt i) (createdAt i)) with false by tlia. cbn [negb orb].
  replace ((lastErrorCode i != "") && negb (boundedName (lastErrorCode i) 128)) with false.
  2: { destruct (lastErrorCode i == "") eqn:G; simp_bool; [done |]. by rewrite E. }
  destruct (state i).
  - by destruct S as (-> & ->).
  - destruct S as (L & -> & -> & ->). replace (0 <? attempts i) with true by lia.
    by replace (TimeEqual (updatedAt i) (updatedAt i)) with true by tlia.
  - destruct S as (L & -> & -> & N). replace (0 <? attempts i) with true by lia.
    replace (TimeEqual (updatedAt i) (updatedAt i)) with true by tlia.
    by rewrite bool_decide_eq_false_2.
Qed.

Ltac intent_fields :=
  cbn [attempted tenantID id target state i_version attempts nextAttemptAt lastErrorCode createdAt
       updatedAt confirmedAt quarantinedAt] in *.

Lemma boundedName_nonempty v m : boundedName v m = true -> v <> "".
Proof.
  unfold boundedName. intros H ->. apply andb_true_iff in H as [_ H]. discriminate H.
Qed.

Lemma cleanup_wf_New t i tg next now x : New t i tg next now = Ok x -> 0 < nanos now -> wf x.
Proof.
  unfold New. intros H L. destruct (_ || _) eqn:G in H; [discriminate H |].
  injection H as <-. apply orb_false_iff in G as [G Z]. apply orb_false_iff in G as [G _].
  apply negb_false_iff in G. unfold valid in G. intent_fields.
  destruct (_ || _) eqn:K in G; [discriminate G |]. simp_bool.
  constructor; intent_fields; try done; tlia.
Qed.

Lemma cleanup_wf_exec i c i' : wf i -> exec i c = Ok i' -> i_version i < two64 - 1 -> wf i'.
Proof.
  intros [W1 W2 W3 W4 W5 W6] H L. apply cleanup_exec_effect in H. unfold is_u64 in W5.
  assert (U : u64 (i_version i + 1) = i_version i + 1) by (apply u64_succ_small; lia).
  destruct H as [next e now S T N B | now S T | r now S T B]; rewrite S in W6;
    destruct W6 as [C Q]; constructor; intent_fields; rewrite ?W4, ?U; try done; try tlia;
    unfold is_u64; try lia.
  - by rewrite S.
  - split_and!; try done. lia.
  - split_and!; try done; [lia |]. by apply boundedName_nonempty in B.
Qed.

Lemma cleanup_wf_steps i n i' : steps i n i' ->
  wf i -> i_version i + Z.of_nat n < two64 -> wf i' /\ i_version i' = i_version i + Z.of_nat n.
Proof.
  induction 1 as [i | i c i1 n i2 H R IH]; intros W L; [split; [done | lia] |].
  pose proof (wf_version i W) as U. unfold is_u64 in U.
  assert (W1 : wf i1) by (apply (cleanup_wf_exec i c i1 W H); lia).
  assert (V : i_version i1 = i_version i + 1).
  { apply cleanup_exec_effect in H. rewrite <- u64_succ_small by lia. by destruct H. }
  destruct (IH W1) as [? ->]; [lia |]. split; [done | lia].
Qed.

(** ** Theorems *)

(** A cleanup intent stays valid over every run of retries, confirmation and
    quarantine, its version and attempt count both equal the number of accepted
    commands, and no command touches the resource it names. *)
Theorem cleanup_runs_valid t i tg next now x n x'
    (N : New t i tg next now = Ok x) (C : 0 < nanos now)
    (R : steps x n x') (L : Z.of_nat n < two64) :
  valid x' = true /\ i_version x' = Z.of_nat n /\ attempts x' = Z.of_nat n /\ target x' = tg.
Proof.
  pose proof (cleanup_wf_New _ _ _ _ _ _ N C) as W.
  assert (i_version x = 0 /\ target x = tg) as [F T].
  { unfold New in N. destruct (_ || _) in N; [discriminate N | by injection N as <-]. }
  destruct (cleanup_wf_steps x n x' R W) as [W' V]; [lia |].
  split_and!; [by apply cleanup_wf_valid | lia | rewrite (wf_attempts x' W'); lia |].
  rewrite <- T. clear - R. induction R as [i | i c i1 n i2 H R IH]; [done |].
  rewrite IH. apply cleanup_exec_effect in H. by destruct H.
Qed.

(** The tombstone is final: a confirmed or quarantined intent refuses every
    command, whatever version it presents. *)
Theorem cleanup_tombstone_final i c (D : state i <> Pending) : exists e, exec i c = Err e.
Proof.
  destruct (exec i c) as [i' | e] eqn:E; [| by eauto].
  apply cleanup_exec_effect in E. destruct E; contradiction.
Qed.

(** ** Witnesses *)

Definition ex_target : Target :=
  mkTarget "session" "sandbox" "kubernetes" "ns/pod-1" id3 id4 digest_a digest_b false.

Definition ex0 : Intent :=
  mkIntent id1 id2 ex_target Pending 0 0 (at_second 5) "" (at_second 0) (at_second 0) None None.

Definition ex_retried : Intent :=
  attempted ex0 Pending (at_second 20) "provider_unavailable" None None (at_second 6).

Definition ex_confirmed : Intent :=
  attempted ex_retried Confirmed (at_second 20) "" (Some (at_second 21)) None (at_second 21).

Lemma cleanup_ex_run : steps ex0 2 ex_confirmed.
Proof.
  assert (H1 : exec ex0 (CRetry 0 (at_second 20) "provider_unavailable" (at_second 6))
               = Ok ex_retried) by (vm_compute; reflexivity).
  assert (H2 : exec ex_retried (CConfirm 1 (at_second 21)) = Ok ex_confirmed)
    by (vm_compute; reflexivity).
  exact (steps_one _ _ _ _ _ H1 (steps_one _ _ _ _ _ H2 (steps_refl _))).
Qed.

Lemma cleanup_runs_valid_witness :
  valid ex_confirmed = true /\ i_version ex_confirmed = Z.of_nat 2
  /\ attempts ex_confirmed = Z.of_nat 2 /\ target ex_confirmed = ex_target.
Proof.
  refine (cleanup_runs_valid id1 id2 ex_target (at_second 5) (at_second 0) ex0 2 ex_confirmed
            _ _ cleanup_ex_run _); vm_compute; reflexivity.
Defined.

Lemma cleanup_tombstone_final_witness :
  exists e, exec ex_confirmed (CRetry 2 (at_second 40) "again" (at_second 30)) = Err e.
Proof. apply (cleanup_tombstone_final ex_confirmed). discriminate. Defined.
