(* ===== verification/OutboxStore.v ===== *)
(** * postgres/store.go: the outbox repository

    One tenant's rows of [outbox_messages] with the constraints and the trigger of the
    table, and the repository's statements over them: [Add], [Get],
    [ClaimAvailable] and [Update].  A row is the message that it restores to; an absent
    column is the empty string or [None].  PostgreSQL's text of a [jsonb] value is a
    parameter.  Proved, whatever the clocks of the dispatchers and of the database say:
    however dispatchers interleave, every row is the outcome of a run of the domain's
    commands and every claim is handed out once; and under the conditions that [serving]
    states, a due message is handed out after at most as many grants as there were due
    messages ahead of it. *)

From Stdlib Require Import ZArith Bool Lia.
From stdpp Require Import base strings list sorting.
From S2P Require Import Prelude Regex GoStd Primitives IdempotencyStore Lease Outbox ClaimQueue.

#[export] Instance Envelope_eq_dec : EqDecision Envelope.
Proof. solve_decision. Defined.
#[export] Instance DeadLetter_eq_dec : EqDecision DeadLetter.
Proof. solve_decision. Defined.
#[export] Instance Message_eq_dec : EqDecision Message.
Proof. solve_decision. Defined.

Definition Table : Type := list Message.

(** A value of a [text] column. *)
Definition text_ok (s : string) (max : Z) : bool := (len s <=? max) && ValidString s && no_byte 0 s.

(** A [bigint] column that holds an unsigned counter. *)
Definition bigint (n : Z) : bool := (0 <=? n) && (n <=? max_int64).

(** The constraint on each state. *)
Definition state_columns (m : Message) : bool :=
  match state m with
  | Pending =>
      (ownerID m == "") && negb (is_some (claimExpiresAt m)) && negb (is_some (deliveredAt m))
      && negb (is_some (deadLetter m))
  | Claimed =>
      (0 <? attempts m) && (0 <? claimFence m) && (ownerID m != "")
      && match claimExpiresAt m with Some l => After l (updatedAt m) | None => false end
      && negb (is_some (deliveredAt m)) && negb (is_some (deadLetter m))
  | Delivered =>
      (ownerID m == "") && negb (is_some (claimExpiresAt m)) && is_some (deliveredAt m)
      && negb (is_some (deadLetter m))
  | DeadLettered =>
      (ownerID m == "") && negb (is_some (claimExpiresAt m)) && negb (is_some (deliveredAt m))
      && is_some (deadLetter m)
  end.

Definition envelope_columns (e : Envelope) : bool :=
  (Topic e != "") && text_ok (Topic e) 255 && (SchemaVersion e != "") && text_ok (SchemaVersion e) 128
  && (AggregateType e != "") && text_ok (AggregateType e) 64
  && (0 <? AggregateVersion e) && bigint (AggregateVersion e)
  && text_ok (PayloadReference e) 2048 && match_string sha256_pattern (PayloadDigest e)
  && negb (eqb (Payload e == "") (PayloadReference e == ""))
  && ((Payload e == "") || (2 <=? len (Payload e)) && (len (Payload e) <=? 65536)).

(** The CHECK constraints of the table. *)
Definition row_ok (m : Message) : bool :=
  envelope_columns (envelope m) && bigint (attempts m) && bigint (claimFence m)
  && text_ok (lastErrorCode m) 128
  && match deadLetter m with
     | Some d => (ReasonCode d != "") && text_ok (ReasonCode d) 128 && text_ok (Detail d) 1024
     | None => true
     end
  && negb (Before (updatedAt m) (createdAt m)) && state_columns m.

(** [enforce_outbox_message_mutation], at the clock of the database; the statements
    assign none of the identity columns that it also protects. *)
Definition mutation_ok (clock : Time) (old new : Message) : bool :=
  negb ((state old == Delivered) || (state old == DeadLettered))
  && negb ((claimFence new <? claimFence old) || (claimFence old + 1 <? claimFence new))
  && negb ((state new == Claimed) && negb (claimFence new =? claimFence old + 1))
  && negb ((state old == Claimed) && (state new == Claimed)
           && match claimExpiresAt old with Some l => Before clock l | None => false end).

(** [UPDATE ... SET state='CLAIMED', attempts=attempts+1, ...] *)
Definition claimed_row (owner : ID) (lease now : Time) (m : Message) : Message :=
  mkMessage (tenantID m) (id m) owner (envelope m) Claimed (attempts m + 1) (claimFence m + 1)
    (availableAt m) (Some lease) (lastErrorCode m) (deadLetter m) (createdAt m) now (deliveredAt m).

#[export, refine] Instance Message_queue : Queue Message := {|
  q_id := id;
  q_available := availableAt;
  q_pending m := state m == Pending;
  q_claimed m := state m == Claimed;
  q_expires := claimExpiresAt;
  q_claim := claimed_row;
  q_accepts clock old new := mutation_ok clock old new && row_ok new
|}.
Proof. all: done. Defined.

(** [scanOutbox] *)
Definition scanOutbox (tenant : ID) (m : Message) : result StoreError Message :=
  match Restore tenant (id m) (envelope m) (enum_string (state m)) (attempts m) (claimFence m) (ownerID m)
          (availableAt m) (claimExpiresAt m) (lastErrorCode m) (deadLetter m) (createdAt m) (updatedAt m)
          (deliveredAt m) with
  | Ok v => Ok v
  | Err _ => Err StoreFailure
  end.

Fixpoint scan_all (tenant : ID) (l : list Message) : result StoreError (list Message) :=
  match l with
  | [] => Ok []
  | m :: rest => let! v := scanOutbox tenant m in let! vs := scan_all tenant rest in Ok (v :: vs)
  end.

Section Store.
Variable tenant : ID.

Definition Get (t : Table) (i : ID) : result StoreError Message :=
  match List.find (fun r => id r == i) t with
  | None => Err StoreNotFound
  | Some r => scanOutbox tenant r
  end.

(** [clock] is the database's clock, [locked] the rows that other transactions hold. *)
Definition ClaimAvailable (clock : Time) (locked : Message -> bool) (t : Table) (ownerID : ID)
    (now leaseExpiresAt : Time) (limit : Z) : Table * result StoreError (list Message) :=
  if negb (is_ok (ParseID ownerID)) || IsZero now || negb (After leaseExpiresAt now)
     || (limit <? 1) || (100 <? limit) then (t, Err StoreFailure)
  else match claim_rows (mkPoll ownerID (timestamptz now) (timestamptz leaseExpiresAt) limit clock locked) t with
  | None => (t, Err StoreFailure)
  | Some (t', rows) => (t', scan_all tenant rows)
  end.

(** The row after [Update]: the columns of a claim and of an outcome. *)
Definition written (r v : Message) : Message :=
  mkMessage (tenantID r) (id r) (ownerID v) (envelope r) (state v) (attempts v) (claimFence v)
    (timestamptz (availableAt v)) (option_map timestamptz (claimExpiresAt v)) (lastErrorCode v)
    (deadLetter v) (createdAt r) (timestamptz (updatedAt v)) (option_map timestamptz (deliveredAt v)).

Definition updatable (v : Message) (expectedFence : Z) (r : Message) : bool :=
  (id r == id v) && (state r == Claimed) && (claimFence r == expectedFence).

Definition Update (clock : Time) (t : Table) (value : option Message) (expectedFence : Z)
  : Table * result StoreError unit :=
  match value with
  | None => (t, Err StoreFailure)
  | Some v =>
      if tenantID v != tenant then (t, Err StoreFailure)
      else match List.find (updatable v expectedFence) t with
      | None => (t, Err StoreConflict)
      | Some r =>
          if negb (mutation_ok clock r (written r v)) || negb (row_ok (written r v)) then (t, Err StoreFailure)
          else (map (fun r => if updatable v expectedFence r then written r v else r) t, Ok tt)
      end
  end.

(** ** Rows *)

(** What every row satisfies: it is a message of this tenant that the domain reached,
    within the constraints of the table and in the resolution of its columns. *)
Record row_wf (r : Message) : Prop := {
  rw_tenant : tenantID r = tenant;
  rw_wf : wf r;
  rw_ok : row_ok r = true;
  rw_created : timestamptz (createdAt r) = createdAt r;
  rw_updated : timestamptz (updatedAt r) = updatedAt r;
  rw_available : timestamptz (availableAt r) = availableAt r;
  rw_expires : option_map timestamptz (claimExpiresAt r) = claimExpiresAt r;
  rw_delivered : option_map timestamptz (deliveredAt r) = deliveredAt r
}.

Definition sound (t : Table) : Prop := NoDup (map id t) /\ Forall row_wf t.

Lemma stored_utc t : timestamptz t = t -> UTC t = t.
Proof. intros <-. done. Qed.

Lemma timestamptz_again t : timestamptz (timestamptz t) = timestamptz t.
Proof. unfold timestamptz. cbn [nanos]. by rewrite Z.div_mul. Qed.

Lemma timestamptz_mono t u : nanos t <= nanos u -> nanos (timestamptz t) <= nanos (timestamptz u).
Proof. intros H. cbn. pose proof (Z.div_le_mono (nanos t) (nanos u) 1000). lia. Qed.

Lemma timestamptz_le t : nanos (timestamptz t) <= nanos t.
Proof. cbn. pose proof (Z.mul_div_le (nanos t) 1000). lia. Qed.

Lemma copyTime_stored o : option_map timestamptz o = o -> copyTime o = o.
Proof. destruct o as [t |]; [| done]. cbn. intros [= E]. by rewrite (stored_utc t E). Qed.

(** A stored row is read back as it is. *)
Lemma scan_row r : row_wf r -> scanOutbox tenant r = Ok r.
Proof.
  intros [T W K C U A X D]. unfold scanOutbox, Restore. rewrite (proj2 (ParseEnum_ok _ (state r)) eq_refl).
  unfold copyEnvelope, copyDeadLetter.
  rewrite (stored_utc _ C), (stored_utc _ U), (stored_utc _ A), (copyTime_stored _ X),
    (copyTime_stored _ D), <- T.
  assert (V : valid r = true) by (apply outbox_valid_iff, wf_valid, W).
  destruct r. cbn in *. by rewrite V.
Qed.

Lemma scan_rows l : Forall row_wf l -> scan_all tenant l = Ok l.
Proof. induction 1 as [| r l R _ IH]; [done |]. cbn. by rewrite (scan_row r R), IH. Qed.

(** ** Claims *)

Lemma row_ok_parts m : row_ok m = true ->
  envelope_columns (envelope m) = true /\ bigint (attempts m) = true /\ bigint (claimFence m) = true
  /\ text_ok (lastErrorCode m) 128 = true /\ state_columns m = true.
Proof. unfold row_ok. intros H. simp_bool. done. Qed.

(** The claim of a due row on behalf of a dispatcher. *)
Lemma due_row h r : row_wf r -> due h r = true ->
  nanos (availableAt r) <= h
  /\ (state r = Pending \/ state r = Claimed /\ exists l, claimExpiresAt r = Some l /\ nanos l <= h).
Proof.
  intros W D. unfold due in D. cbn in D. simp_bool. split; [lia |].
  destruct (bool_decide_reflect (state r = Pending)) as [-> | N]; [by left | right]. cbn [orb] in *.
  simp_bool. split; [done |]. destruct (claimExpiresAt r) as [l |]; [| done]. exists l. split; [done | lia].
Qed.

(** The claim of the statement is the claim of the domain. *)
Lemma claimed_is_claim r owner lease now :
  row_wf r -> is_ok (ParseID owner) = true -> due (nanos now) r = true -> 0 < nanos now < nanos lease ->
  UTC now = now -> UTC lease = lease -> claimFence r < max_int64 ->
  exec r (CClaim owner lease now) = Ok (claimed_row owner lease now r).
Proof.
  intros W O D N U1 U2 F. destruct (due_row _ r W D) as [A S]. cbn [exec]. unfold Claim.
  pose proof (rw_wf r W) as [_ E B _ _]. unfold is_u64 in B.
  assert (V : validID owner = true) by exact O.
  replace (IsZero now) with false by tlia. replace (After lease now) with true by tlia.
  replace (Before (UTC now) (availableAt r)) with false by tlia. rewrite V. cbn [negb orb].
  assert (G : (state r != Pending) && ((state r != Claimed)
    || match claimExpiresAt r with Some l => Before (UTC now) l | None => true end) = false).
  { destruct S as [-> | (-> & l & -> & L)]; [done |]. replace (Before (UTC now) l) with false by tlia. done. }
  rewrite G, U1, U2, E. unfold claimed_row. rewrite E.
  unfold max_int64 in F. rewrite u64_succ_small by (unfold two64; lia). done.
Qed.

Lemma claimed_wf r owner lease now :
  row_wf r -> is_ok (ParseID owner) = true -> due (nanos now) r = true -> 0 < nanos now < nanos lease ->
  timestamptz now = now -> timestamptz lease = lease -> claimFence r < max_int64 ->
  row_wf (claimed_row owner lease now r).
Proof.
  intros W O D N U1 U2 F.
  pose proof (claimed_is_claim r owner lease now W O D N (stored_utc _ U1) (stored_utc _ U2) F) as C.
  pose proof (outbox_wf_exec r _ _ (rw_wf r W) C) as W'. destruct W as [T Wf K C1 C2 C3 C4 C5].
  destruct (due_row _ r ltac:(by split) D) as [A S].
  destruct (outbox_claim_clock r now Wf A S) as (Hu & D1 & D2).
  assert (Wc : wf (claimed_row owner lease now r)) by (apply W'; intros _; unfold two64, max_int64 in *; lia).
  split; try done; [| cbn; by rewrite U2].
  apply row_ok_parts in K as (K1 & K2 & K3 & K4 & _). destruct Wf as [[(_ & _ & _ & _ & _ & B & _) _] E U _ _].
  unfold is_u64 in U. unfold row_ok, state_columns, bigint in *. unfold claimed_row. message_fields.
  rewrite D1, D2, E in *. rewrite K1, K4.
  replace (Before now (createdAt r)) with false by tlia. replace (After lease now) with true by tlia.
  assert (Oe : owner <> "") by (intros ->; vm_compute in O; discriminate O).
  rewrite bool_decide_false by done. cbn [negb is_some andb]. simp_bool. repeat (apply andb_true_iff; split); lia.
Qed.

Definition poll_of (clock : Time) (locked : Message -> bool) (owner : ID) (now lease : Time) (limit : Z)
  : Poll Message := mkPoll owner (timestamptz now) (timestamptz lease) limit clock locked.

(** What a claim that the table accepted says of its rows. *)
Record granted (owner : ID) (now lease : Time) (r : Message) : Prop := {
  gr_owner : is_ok (ParseID owner) = true;
  gr_due : due (nanos (timestamptz now)) r = true;
  gr_times : 0 < nanos (timestamptz now) < nanos (timestamptz lease);
  gr_fence : claimFence r < max_int64
}.

Lemma granted_wf owner now lease r : row_wf r -> granted owner now lease r ->
  row_wf (claimed_row owner (timestamptz lease) (timestamptz now) r).
Proof. intros W [O D N F]. apply claimed_wf; try done; apply timestamptz_again. Qed.

Lemma accepted_granted clock owner now lease r :
  row_wf r -> is_ok (ParseID owner) = true -> due (nanos (timestamptz now)) r = true ->
  q_accepts clock r (claimed_row owner (timestamptz lease) (timestamptz now) r) = true -> granted owner now lease r.
Proof.
  intros W O D A. cbn [q_accepts Message_queue] in A. apply andb_true_iff in A as [_ A].
  apply row_ok_parts in A as (_ & _ & Fc & _ & Sc). unfold claimed_row, state_columns, bigint in *. message_fields.
  destruct (due_row _ r W D) as [Av S]. pose proof (rw_wf r W) as Wf.
  destruct (outbox_claim_clock r (timestamptz now) Wf Av S) as (Hu & _). destruct Wf as [[(_ & _ & _ & _ & _ & B & _) _] _ _ C _].
  simp_bool. constructor; try done; [split; [lia | tlia] | lia].
Qed.

(** A claim that succeeded. *)
Lemma claim_success clock locked t owner now lease limit t' rows :
  sound t -> ClaimAvailable clock locked t owner now lease limit = (t', Ok rows) ->
  claim_rows (poll_of clock locked owner now lease limit) t = Some (t', rows) /\ sound t'
  /\ Forall (granted owner now lease) (candidates (poll_of clock locked owner now lease limit) t).
Proof.
  intros [N W] H. unfold ClaimAvailable in H. destruct (_ || _) eqn:G in H; [discriminate H |]. simp_bool.
  fold (poll_of clock locked owner now lease limit) in H. set (p := poll_of clock locked owner now lease limit) in *.
  destruct (claim_rows p t) as [[t1 rows1] |] eqn:CR; [| discriminate H]. injection H as -> H.
  pose proof (claim_rows_some p t _ _ CR) as (Et & Er & A). rewrite Forall_forall in A, W.
  assert (Gr : forall r, r ∈ candidates p t -> row_wf r /\ granted owner now lease r).
  { intros r R. destruct (in_candidates p t r R) as (I & D & _). split; [by apply W |].
    apply (accepted_granted clock); [by apply W | done | exact D | exact (A r R)]. }
  assert (Gw : forall r, r ∈ candidates p t -> row_wf (grant p r)).
  { intros r R. destruct (Gr r R) as [Wr G']. exact (granted_wf owner now lease r Wr G'). }
  rewrite scan_rows in H.
  2: { subst rows1. apply Forall_forall. intros y Y. apply list_elem_of_fmap in Y as (x & -> & X). by apply Gw. }
  injection H as <-. split; [done |]. split; [split |].
  - pose proof (claim_rows_ids _ _ _ _ CR) as E. cbn [q_id Message_queue] in E. by rewrite E.
  - subst t'. apply Forall_forall. intros y Y. apply list_elem_of_fmap in Y as (x & -> & X).
    destruct (chosen _ x) eqn:C; [| by apply W]. apply Gw. exact (proj1 (chosen_in (Q := Message_queue) p t x N X) C).
  - apply Forall_forall. intros r R. by apply Gr.
Qed.

(** When a claim succeeds: its arguments are valid, its lease is longer than a microsecond,
    the fences of the due rows are not exhausted, and the claims that expired have expired
    for the database's clock too, which its trigger requires. *)
Record claimable (clock : Time) (t : Table) (owner : ID) (now lease : Time) (limit : Z) : Prop := {
  cl_owner : is_ok (ParseID owner) = true;
  cl_now : 0 < nanos (timestamptz now);
  cl_lease : nanos (timestamptz now) < nanos (timestamptz lease);
  cl_limit : 1 <= limit <= 100;
  cl_rows : forall r, r ∈ t -> due (nanos (timestamptz now)) r = true -> claimFence r < max_int64
     /\ forall l, state r = Claimed -> claimExpiresAt r = Some l -> nanos l <= nanos clock
}.

Lemma claim_accepted clock r owner now lease :
  row_wf r -> granted owner now lease r -> (forall l, state r = Claimed -> claimExpiresAt r = Some l -> nanos l <= nanos clock) ->
  q_accepts clock r (claimed_row owner (timestamptz lease) (timestamptz now) r) = true.
Proof.
  intros W G C. cbn [q_accepts Message_queue]. rewrite (rw_ok _ (granted_wf _ _ _ _ W G)), andb_true_r.
  destruct (due_row _ r W (gr_due _ _ _ _ G)) as [_ S]. unfold mutation_ok, claimed_row. message_fields.
  rewrite Z.eqb_refl, andb_false_r.
  replace (claimFence r + 1 <? claimFence r) with false by lia. rewrite Z.ltb_irrefl.
  destruct S as [-> | (E & l & El & L)]; [done |]. specialize (C l E El). rewrite E, El.
  replace (Before clock l) with false by tlia. done.
Qed.

Lemma claim_available clock locked t owner now lease limit :
  sound t -> claimable clock t owner now lease limit ->
  exists t' rows, ClaimAvailable clock locked t owner now lease limit = (t', Ok rows).
Proof.
  intros [N W] [O Z0 L B C]. set (p := poll_of clock locked owner now lease limit).
  assert (K : forall r, r ∈ candidates p t -> row_wf (grant p r) /\ q_accepts (p_clock p) r (grant p r) = true).
  { intros r R. destruct (in_candidates p t r R) as (I & D & _). rewrite Forall_forall in W.
    destruct (C r I D) as [F E]. assert (G : granted owner now lease r) by (by split).
    split; [apply (granted_wf owner now lease); [by apply W | done] | by apply (claim_accepted clock r owner now lease); [apply W | |]]. }
  eexists _, _. unfold ClaimAvailable. rewrite O. pose proof (timestamptz_le now) as L1.
  replace (IsZero now) with false by tlia.
  assert (L2 : nanos now < nanos lease).
  { destruct (Z.lt_ge_cases (nanos now) (nanos lease)) as [| G]; [done |].
    pose proof (timestamptz_mono lease now G). lia. }
  replace (After lease now) with true by tlia. replace (limit <? 1) with false by lia.
  replace (100 <? limit) with false by lia. cbn [negb orb]. fold (poll_of clock locked owner now lease limit). fold p.
  unfold claim_rows. rewrite (proj2 (forallb_forall _ _)) by (intros r R; by apply K, list_elem_of_In).
  rewrite scan_rows; [reflexivity |]. apply Forall_forall. intros r R. apply list_elem_of_fmap in R as (x & -> & X). by apply K.
Qed.

(** ** Outcomes *)

(** A row that a dispatcher settles stays a row. *)
Lemma settled_wf r c v : row_wf r -> exec r c = Ok v -> is_claim c = false ->
  row_ok (written r v) = true -> row_wf (written r v).
Proof.
  intros [T W K C1 C2 C3 C4 C5] E S Ok'. pose proof (outbox_wf_exec r c v W E ltac:(congruence)) as V.
  apply outbox_exec_effect in E. destruct E as [o l now | c s av ex er de dl now HS Hf Hz Hu Hs ->]; [discriminate S |].
  destruct W as [[(B1 & B2 & B3 & B4 & B5 & B6 & B7) Sh] A F Cr P].
  destruct V as [[(V1 & V2 & V3 & V4 & V5 & V6 & V7) Vs] VA VF VC VP]. message_fields.
  pose proof (timestamptz_mono (createdAt r) now ltac:(lia)) as M1. rewrite C1 in M1.
  assert (Av : IsZero (timestamptz av) = false
               /\ (s = Pending -> nanos (timestamptz now) <= nanos (timestamptz av))).
  { destruct s; [| contradiction | |]; [| destruct Hs as (-> & _); by rewrite C3..].
    destruct Hs as (Hs & _). pose proof (timestamptz_mono now av ltac:(lia)). split; [tlia | done]. }
  destruct Av as [Av1 Av2]. unfold shape in Sh. rewrite HS in Sh. destruct Sh as (_ & _ & _ & _ & D1 & D2).
  assert (Vs' : shape (written r
    (mkMessage (tenantID r) (id r) "" (envelope r) s (attempts r) (claimFence r) av None er de (createdAt r) (UTC now) dl))).
  { unfold shape, written in *. message_fields. destruct s; [| contradiction | |].
    - by destruct Vs as (_ & _ & -> & ->).
    - destruct Vs as (_ & _ & X & ->). split_and!; try done. by destruct dl.
    - destruct Vs as (_ & _ & -> & X). split_and!; try done. }
  unfold written in *. split; message_fields; try done; try apply timestamptz_again.
  destruct dl; cbn; [by rewrite timestamptz_again | done].
Qed.

(** An outcome that the table accepted, for a message [r] that is its current row. *)
Lemma update_run clock t v f t' : Update clock t (Some v) f = (t', Ok tt) ->
  tenantID v = tenant
  /\ t' = map (fun r => if updatable v f r then written r v else r) t
  /\ exists r, r ∈ t /\ id r = id v /\ state r = Claimed /\ claimFence r = f /\ row_ok (written r v) = true.
Proof.
  unfold Update. intros H. destruct (negb _) eqn:T in H; [discriminate H |].
  destruct (List.find _ t) as [r |] eqn:F; [| discriminate H]. destruct (_ || _) eqn:G in H; [discriminate H |].
  injection H as <-. apply find_some in F as [I U]. unfold updatable in U. simp_bool.
  split_and!; try done. exists r. rewrite list_elem_of_In. done.
Qed.

Lemma updatable_only t v f r x : NoDup (map id t) -> r ∈ t -> x ∈ t -> id r = id v ->
  updatable v f x = true -> x = r.
Proof.
  intros N R X E U. unfold updatable in U. simp_bool. apply (same_id (Q := Message_queue) t); try done.
  cbn. congruence.
Qed.

Lemma settle_sound t r c v clock f t' : sound t -> r ∈ t -> exec r c = Ok v -> is_claim c = false ->
  Update clock t (Some v) f = (t', Ok tt) -> sound t'.
Proof.
  intros [N W] R E S U. apply update_run in U as (T & -> & r0 & R0 & I0 & _ & _ & K).
  assert (I : id r = id v) by (apply outbox_exec_effect in E; by destruct E).
  assert (r0 = r) as ->. { apply (same_id (Q := Message_queue) t); try done. cbn. congruence. }
  rewrite Forall_forall in W. split.
  - rewrite map_map. erewrite map_ext; [exact N |]. intros x. by destruct (updatable v f x).
  - apply Forall_forall. intros y Y. apply list_elem_of_fmap in Y as (x & -> & X).
    destruct (updatable v f x) eqn:Ux; [| by apply W].
    rewrite (updatable_only t v f r x N R X I Ux). by apply (settled_wf r c v); [apply W |..].
Qed.

(** ** Insertion *)

(** The text of a document that is stored as [jsonb]; [None] when it is refused. *)
Variable jsonb_text : string -> option string.

Definition with_payload (e : Envelope) (p : string) : Envelope :=
  mkEnvelope (Topic e) (SchemaVersion e) (EventID e) (AggregateType e) (AggregateID e) (AggregateVersion e)
    p (PayloadReference e) (PayloadDigest e).

(** The row that is inserted: the columns of a claim and of an outcome stay NULL. *)
Definition inserted (m : Message) : option Message :=
  let e := envelope m in
  p ← (if len (Payload e) =? 0 then Some "" else jsonb_text (Payload e));
  Some (mkMessage (tenantID m) (id m) "" (with_payload e p) (state m) (attempts m) (claimFence m)
          (timestamptz (availableAt m)) None "" None (timestamptz (createdAt m))
          (timestamptz (updatedAt m)) None).

(** The unique keys of the table. *)
Definition collides (m r : Message) : bool :=
  (id r == id m)
  || ((Topic (envelope r) == Topic (envelope m)) && (EventID (envelope r) == EventID (envelope m))).

Definition Add (t : Table) (value : option Message) : Table * result StoreError unit :=
  match value with
  | None => (t, Err StoreFailure)
  | Some v =>
      if tenantID v != tenant then (t, Err StoreFailure)
      else match inserted v with
      | None => (t, Err StoreFailure)
      | Some r =>
          if negb (row_ok r) then (t, Err StoreFailure)
          else if existsb (collides r) t then (t, Err StoreConflict)
          else (r :: t, Ok tt)
      end
  end.

(** ** Histories *)

(** A message as the services create it: available no earlier than it is created. *)
Definition created (m : Message) : Prop :=
  exists i env available now, New tenant i env available now = Ok m
    /\ 1000 <= nanos now <= nanos available.

(** One accepted command of the domain, stored in the resolution of the columns. *)
Inductive command_step (r : Message) (c : Command) (r' : Message) : Prop :=
| cs_intro v : exec r c = Ok v -> r' = written r v -> command_step r c r'.

(** [row_run m n r]: commands lead from the row of a created message to [r], [n] of
    them claims. *)
Inductive row_run : Message -> nat -> Prop :=
| rr_created m r : created m -> inserted m = Some r -> row_run r 0
| rr_step r n c r' : row_run r n -> command_step r c r' -> row_run r' (if is_claim c then S n else n).

(** What callers do with the repository: [claims] are the messages that claims handed
    out, [reads] those that reads returned.  Whoever writes an outcome computed it from
    a message that was handed out some time ago. *)
Inductive history : Table -> list Message -> list Message -> Prop :=
| hi_empty : history [] [] []
| hi_add t claims reads m t' :
    history t claims reads -> created m -> Add t (Some m) = (t', Ok tt) -> history t' claims reads
| hi_get t claims reads i m :
    history t claims reads -> Get t i = Ok m -> history t claims (m :: reads)
| hi_claim t claims reads clock locked owner now lease limit t' rows :
    history t claims reads ->
    ClaimAvailable clock locked t owner now lease limit = (t', Ok rows) ->
    history t' (rows ++ claims) reads
| hi_settle t claims reads clock m c v t' :
    history t claims reads -> m ∈ claims ++ reads -> exec m c = Ok v -> is_claim c = false ->
    Update clock t (Some v) (claimFence m) = (t', Ok tt) -> history t' claims reads.

(** A message that was handed out is an earlier or the current value of its row. *)
Definition past (t : Table) (m : Message) : Prop :=
  exists r, r ∈ t /\ id r = id m
    /\ (claimFence m < claimFence r
        \/ claimFence m = claimFence r /\ (m = r \/ state m = Claimed /\ state r <> Claimed)).

Record consistent (t : Table) (claims reads : list Message) : Prop := {
  co_sound : sound t;
  co_runs : Forall (fun r => row_run r (Z.to_nat (claimFence r))) t;
  co_past : Forall (past t) (claims ++ reads);
  co_claims : NoDup (map (fun m => (id m, claimFence m)) claims)
}.

(** How a row may change under a holder of an earlier value. *)
Definition advances (r r' : Message) : Prop :=
  id r' = id r
  /\ (r' = r \/ claimFence r < claimFence r'
      \/ claimFence r = claimFence r' /\ state r = Claimed /\ state r' <> Claimed).

Lemma past_map f t m : (forall r, r ∈ t -> advances r (f r)) -> past t m -> past (map f t) m.
Proof.
  intros F (r & R & I & H). destruct (F r R) as [E A]. exists (f r).
  split; [by apply list_elem_of_fmap_2 |]. split; [congruence |].
  destruct A as [-> | [A | (A & S1 & S2)]]; [done | left; destruct H as [| [H _]]; lia |].
  destruct H as [H | [H [-> | [_ S3]]]]; [left; lia | right; split; [lia | by right] | done].
Qed.

Lemma past_more t r m : past t m -> past (r :: t) m.
Proof. intros (x & X & H). exists x. split; [by right | done]. Qed.

Lemma claimed_advances r o l n : advances r (claimed_row o l n r).
Proof. split; [done |]. right. left. cbn. lia. Qed.

(** [jsonb] keeps documents documents. *)
Hypothesis jsonb_json : forall s p, jsonb_text s = Some p -> json_valid (to_bytes p) = true /\ no_byte 0 p = true.

Lemma inserted_envelope e p : validEnvelope e = true -> envelope_columns (with_payload e p) = true ->
  (if len (Payload e) =? 0 then Some "" else jsonb_text (Payload e)) = Some p ->
  validEnvelope (with_payload e p) = true.
Proof.
  intros V C P. unfold validEnvelope in *. cbn [with_payload Topic SchemaVersion EventID AggregateType AggregateID
    AggregateVersion PayloadReference PayloadDigest Payload]. destruct (_ || _) eqn:G in V; [discriminate V |].
  destruct (Z.eqb_spec (len (Payload e)) 0) as [Z0 | Z0].
  { injection P as <-. rewrite Z0 in G, V. change (len "") with 0. by rewrite G. }
  destruct (jsonb_json _ _ P) as [J N0]. unfold envelope_columns in C. cbn [with_payload Payload] in C.
  assert (Np : p <> "") by (intros ->; vm_compute in J; discriminate J).
  assert (Lp : 2 <= len p <= 65536).
  { simp_bool. rewrite (bool_decide_false (p = "")) in * by done. cbn [orb] in *. simp_bool. lia. }
  rewrite (bool_decide_false (len (Payload e) = 0)) in G by done.
  rewrite (bool_decide_false (len p = 0)) by lia. unfold MaxPayloadBytes in *.
  replace (64 * 1024 <? len p) with false by lia.
  apply orb_false_iff in G as [G Ge]. apply orb_false_iff in G as [G Gr]. apply orb_false_iff in G as [G _].
  rewrite G, Gr, Ge. cbn [orb]. replace (0 <? len p) with true by lia. by rewrite J, N0.
Qed.

Lemma add_run t m t' : created m -> Add t (Some m) = (t', Ok tt) ->
  exists r, t' = r :: t /\ inserted m = Some r /\ row_wf r /\ claimFence r = 0 /\ id r ∉ map id t.
Proof.
  intros (i & env & av & now & N & L) H. unfold Add in H. destruct (negb _) eqn:T in H; [discriminate H |].
  destruct (inserted m) as [r |] eqn:Ins; [| discriminate H]. destruct (row_ok r) eqn:K; [| discriminate H].
  cbn [negb] in H. destruct (existsb _ t) eqn:X in H; [discriminate H |]. injection H as <-.
  exists r. pose proof (outbox_wf_New _ _ _ _ _ _ N ltac:(lia)) as W.
  unfold New in N. destruct (_ || _) in N; [discriminate N |]. injection N as <-.
  unfold inserted in Ins. cbn [envelope copyEnvelope] in Ins.
  destruct (if len _ =? 0 then _ else _) as [p |] eqn:P in Ins; [| discriminate Ins]. injection Ins as <-.
  destruct W as [[(B1 & B2 & B3 & B4 & B5 & B6 & B7) S] _ _ _ _]. message_fields.
  pose proof (row_ok_parts _ K) as (KE & _). message_fields.
  assert (Ln : 1000 <= nanos (timestamptz now) <= nanos (timestamptz av)).
  { split; [| apply timestamptz_mono; lia]. cbn.
    pose proof (Z.div_le_lower_bound (nanos now) 1000 1 ltac:(lia) ltac:(lia)). lia. }
  assert (V : validEnvelope (with_payload env p) = true) by by apply inserted_envelope.
  split; [done |]. split; [done |]. split_and!; [| done |].
  - split; message_fields; try done; try apply timestamptz_again.
    split; message_fields; try done; [| cbn in *; lia..]. split; [| done].
    split_and!; message_fields; try done; unfold IsZero; cbn in *; apply Z.eqb_neq; lia.
  - message_fields. intros I. apply list_elem_of_fmap in I as (x & E & I). rewrite <- not_true_iff_false, existsb_exists in X.
    apply X. exists x. split; [by apply list_elem_of_In |]. unfold collides. message_fields.
    by rewrite bool_decide_true.
Qed.

Lemma get_run t i m : sound t -> Get t i = Ok m -> m ∈ t.
Proof.
  intros [_ W] H. unfold Get in H. destruct (List.find _ t) as [r |] eqn:F; [| discriminate H].
  apply find_some in F as [I _]. apply list_elem_of_In in I. rewrite Forall_forall in W.
  rewrite (scan_row r (W r I)) in H. by injection H as <-.
Qed.

Lemma past_fence t m r : NoDup (map id t) -> past t m -> r ∈ t -> id r = id m -> claimFence m <= claimFence r.
Proof.
  intros N (x & X & E & H) R I. assert (x = r) as ->.
  { apply (same_id (Q := Message_queue) t); try done. cbn. congruence. }
  destruct H as [| [? _]]; lia.
Qed.

(** What one claim of a due row is. *)
Lemma grant_step clock locked owner now lease limit r :
  row_wf r -> granted owner now lease r ->
  command_step r (CClaim owner (timestamptz lease) (timestamptz now))
    (grant (poll_of clock locked owner now lease limit) r) /\ 0 <= claimFence r.
Proof.
  intros Wr [O D [N1 N2] F].
  split; [| pose proof (wf_fence r (rw_wf r Wr)); unfold is_u64 in *; lia].
  econstructor; [by apply claimed_is_claim |].
  unfold grant, poll_of, written. cbn [q_claim Message_queue claimed_row p_owner p_lease p_now].
  unfold claimed_row. message_fields. cbn [option_map].
  by rewrite !timestamptz_again, (rw_available r Wr), (rw_delivered r Wr).
Qed.

Lemma claim_consistent t claims reads clock locked owner now lease limit t' rows :
  consistent t claims reads ->
  ClaimAvailable clock locked t owner now lease limit = (t', Ok rows) ->
  consistent t' (rows ++ claims) reads.
Proof.
  intros [Sd Rn Pa Nc] R. destruct (claim_success _ _ _ _ _ _ _ _ _ Sd R) as (CR & Sd' & Gr).
  apply claim_rows_some in CR as (Et & Er & _). rewrite Forall_forall in Gr.
  set (p := poll_of clock locked owner now lease limit) in *. pose proof (proj1 Sd) as N.
  assert (Ch : forall r, r ∈ t -> chosen (candidates p t) r = true -> r ∈ candidates p t)
    by (intros r Hr Hc; exact (proj1 (chosen_in (Q := Message_queue) p t r N Hr) Hc)).
  assert (Adv : forall r, advances r (if chosen (candidates p t) r then grant p r else r)).
  { intros r. destruct (chosen _ r); [apply claimed_advances | split; [done | by left]]. }
  rewrite Forall_forall in Rn, Pa. split.
  - exact Sd'.
  - subst t'. apply Forall_forall. intros y Y. apply list_elem_of_fmap in Y as (r & -> & Hr).
    destruct (chosen _ r) eqn:X; [| by apply Rn].
    destruct Sd as [_ W]. rewrite Forall_forall in W.
    destruct (grant_step clock locked owner now lease limit r (W r Hr) (Gr r (Ch r Hr X))) as [G P0].
    replace (Z.to_nat (claimFence (grant p r))) with (S (Z.to_nat (claimFence r))) by (cbn; lia).
    exact (rr_step r _ _ _ (Rn r Hr) G).
  - rewrite <- app_assoc, Forall_app. split.
    + subst rows. apply Forall_forall. intros y Y. apply list_elem_of_fmap in Y as (r & -> & Hr).
      exists (grant p r). split; [| split; [done | right; split; [done | by left]]].
      destruct (in_candidates _ _ _ Hr) as (I & _). subst t'. apply list_elem_of_fmap. exists r.
      split; [| done]. by rewrite (proj2 (chosen_in (Q := Message_queue) p t r N I) Hr).
    + subst t'. apply Forall_forall. intros m Hm. apply past_map; [done |]. by apply Pa.
  - rewrite map_app. apply NoDup_app. split_and!; [| | done].
    + apply (NoDup_fmap_1 fst). change (NoDup (map fst (map (fun m => (id m, claimFence m)) rows))).
      rewrite map_map. subst rows. rewrite map_map. exact (candidates_nodup (Q := Message_queue) p t N).
    + intros k K1 K2. apply list_elem_of_fmap in K1 as (y & -> & Y). apply list_elem_of_fmap in K2 as (m & E & Hm).
      subst rows. apply list_elem_of_fmap in Y as (r & -> & Hr). destruct (in_candidates _ _ _ Hr) as (I & _).
      injection E as E1 E2. cbn in E1, E2.
      pose proof (past_fence t m r N (Pa m ltac:(apply elem_of_app; by left)) I E1). lia.
Qed.

Lemma settle_consistent t claims reads clock m c v t' :
  consistent t claims reads -> m ∈ claims ++ reads -> exec m c = Ok v -> is_claim c = false ->
  Update clock t (Some v) (claimFence m) = (t', Ok tt) -> consistent t' claims reads.
Proof.
  intros [Sd Rn Pa Nc] M E S U. pose proof (proj1 Sd) as N. rewrite Forall_forall in Rn, Pa.
  pose proof (update_run _ _ _ _ _ U) as (_ & Et & r & R & I & S0 & F0 & _).
  assert (Iv : id v = id m) by (apply outbox_exec_effect in E; by destruct E).
  assert (m = r) as ->.
  { destruct (Pa m M) as (x & X & Ex & H). assert (x = r) as ->.
    { apply (same_id (Q := Message_queue) t); try done. cbn. congruence. }
    destruct H as [H | [_ [H | [_ H]]]]; [lia | done | done]. }
  assert (Ev : claimFence v = claimFence r /\ state v <> Claimed).
  { apply outbox_exec_effect in E. destruct E as [| c s av ex er de dl now HS Hf Hz Hu Hs ->]; [discriminate S |].
    cbn. split; [done |]. by destruct s. }
  assert (Adv : forall x, x ∈ t -> advances x (if updatable v (claimFence r) x then written x v else x)).
  { intros x X. destruct (updatable v (claimFence r) x) eqn:Ux; [| split; [done | by left]].
    rewrite (updatable_only t v _ r x N R X (eq_sym Iv) Ux). split; [done |]. right. right. cbn. destruct Ev as [-> Ev].
    done. }
  split; [exact (settle_sound t r c v clock _ t' Sd R E S U) | | | done].
  - subst t'. apply Forall_forall. intros y Y. apply list_elem_of_fmap in Y as (x & -> & X).
    destruct (updatable v (claimFence r) x) eqn:Ux; [| by apply Rn].
    rewrite (updatable_only t v _ r x N R X (eq_sym Iv) Ux). cbn [written claimFence]. destruct Ev as [-> _].
    pose proof (rr_step r _ c (written r v) (Rn r R) ltac:(by econstructor)) as Rr. by rewrite S in Rr.
  - subst t'. apply Forall_forall. intros x X. apply past_map; [done |]. by apply Pa.
Qed.

Lemma outbox_history_consistent t claims reads : history t claims reads -> consistent t claims reads.
Proof.
  induction 1 as [| t claims reads m t' _ [Sd Rn Pa Nc] Cr A | t claims reads i m _ [Sd Rn Pa Nc] G
    | t claims reads clock locked owner now lease limit t' rows _ IH R
    | t claims reads clock m c v t' _ IH M E S U].
  - split; [split; constructor | constructor | constructor | constructor].
  - destruct (add_run t m t' Cr A) as (r & -> & In & W & F & I). destruct Sd as [N Wt]. split.
    + split; [by apply NoDup_cons | by constructor].
    + constructor; [rewrite F; by eapply rr_created | done].
    + eapply Forall_impl; [exact Pa |]. intros x. apply past_more.
    + done.
  - split; try done. apply Forall_app in Pa as [P1 P2]. apply Forall_app. split; [done |].
    constructor; [| done]. exists m. split; [by apply (get_run t i) |]. split; [done |]. right. auto.
  - by apply (claim_consistent t claims reads clock locked owner now lease limit).
  - by apply (settle_consistent t claims reads clock m c v).
Qed.

(** C6: However dispatchers interleave their claims, reads and outcomes, whatever their clocks
    and that of the database show, and however old the message is from which an outcome was
    computed: every row is reached from a
    created message by commands of the domain, as many of them claims as its fence and
    its attempts count; what is stored is what the domain accepts on load; and no two
    claims hand out one message under one fence. *)
Theorem outbox_store_refines t claims reads : history t claims reads ->
  (forall r, r ∈ t -> exists n, row_run r n /\ claimFence r = Z.of_nat n /\ attempts r = Z.of_nat n
                              /\ Get t (id r) = Ok r)
  /\ NoDup (map (fun m => (id m, claimFence m)) claims).
Proof.
  intros H. apply outbox_history_consistent in H as [[N W] Rn _ Nc]. split; [| done]. intros r R.
  rewrite Forall_forall in Rn, W. pose proof (W r R) as Wr. pose proof (wf_fence r (rw_wf r Wr)) as U.
  unfold is_u64 in U. exists (Z.to_nat (claimFence r)).
  split_and!; [by apply Rn | lia | rewrite (wf_attempts r (rw_wf r Wr)); lia |].
  unfold Get. destruct (List.find _ t) as [x |] eqn:F.
  - apply find_some in F as [X E]. apply bool_decide_eq_true in E. apply list_elem_of_In in X.
    assert (x = r) as ->. { by apply (same_id (Q := Message_queue) t). } by apply scan_row.
  - apply list_elem_of_In in R. apply (find_none _ _ F) in R. by rewrite bool_decide_true in R.
Qed.

(** ** Fairness *)

(** Dispatchers and services at work until the horizon [h], seen from a message [m]: claims
    with leases that outlast it, outcomes of other messages that schedule nothing before it,
    and new messages that become available after [m] or after it.  [n] counts the grants that
    are asked for by claims to which [m] is due and not locked; [got] is what is handed out. *)
Inductive serving (h : Z) (m : Message) : Table -> nat -> list Message -> Table -> Prop :=
| sv_done t : serving h m t 0 [] t
| sv_claim clock locked owner now lease limit t t1 rows n got t2 :
    nanos (timestamptz now) <= h < nanos (timestamptz lease) ->
    ClaimAvailable clock locked t owner now lease limit = (t1, Ok rows) ->
    serving h m t1 n got t2 ->
    serving h m t ((if due (nanos (timestamptz now)) m && negb (locked m) then Z.to_nat limit else 0) + n) (rows ++ got) t2
| sv_settle clock r c v t t1 n got t2 :
    r ∈ t -> id r <> id m -> exec r c = Ok v -> is_claim c = false ->
    (state v = Pending -> h < nanos (timestamptz (availableAt v))) ->
    Update clock t (Some v) (claimFence r) = (t1, Ok tt) ->
    serving h m t1 n got t2 -> serving h m t n got t2
| sv_add m' t t1 n got t2 :
    created m' -> Add t (Some m') = (t1, Ok tt) ->
    nanos (availableAt m) < nanos (timestamptz (availableAt m')) \/ h < nanos (timestamptz (availableAt m')) ->
    serving h m t1 n got t2 -> serving h m t n got t2.

Lemma settled_not_due h r c v x : exec r c = Ok v -> is_claim c = false ->
  (state v = Pending -> h < nanos (timestamptz (availableAt v))) -> due h (written x v) = false.
Proof.
  intros E S F. apply outbox_exec_effect in E.
  destruct E as [| c s av ex er de dl now HS Hf Hz Hu Hs ->]; [discriminate S |].
  unfold due, written. cbn [q_available q_pending q_claimed q_expires Message_queue]. message_fields.
  destruct s; [| contradiction | |]; rewrite ?andb_false_r; try done.
  replace (nanos (timestamptz av) <=? h) with false; [done |]. specialize (F eq_refl). lia.
Qed.

(** A claim that could not have handed out [m] puts nothing in front of it. *)
Lemma passed_aside h m p t t1 rows : NoDup (map id t) -> m ∈ t -> h < nanos (p_lease p) ->
  claim_rows (Q := Message_queue) p t = Some (t1, rows) -> m ∉ candidates p t ->
  m ∈ t1 /\ (ahead h m t1 <= ahead h m t)%nat.
Proof.
  intros N I L H O. apply claim_rows_some in H as (-> & _ & _). split.
  - apply list_elem_of_fmap. exists m. split; [| done].
    destruct (chosen _ m) eqn:X; [| done]. by apply (chosen_in (Q := Message_queue)) in X.
  - apply filter_shrinks. intros r R. destruct (chosen _ r); [| done]. by rewrite granted_not_due.
Qed.

Lemma settled_aside h m r c v t t1 clock : sound t -> m ∈ t -> r ∈ t -> id r <> id m -> exec r c = Ok v ->
  is_claim c = false -> (state v = Pending -> h < nanos (timestamptz (availableAt v))) ->
  Update clock t (Some v) (claimFence r) = (t1, Ok tt) -> sound t1 /\ m ∈ t1 /\ (ahead h m t1 <= ahead h m t)%nat.
Proof.
  intros Sd M I D E S F U. split; [exact (settle_sound t r c v clock _ t1 Sd I E S U) |].
  pose proof (update_run _ _ _ _ _ U) as (T & -> & r0 & R0 & I0 & S0 & F0 & K).
  assert (Iv : id r = id v) by (apply outbox_exec_effect in E; by destruct E).
  assert (Nm : updatable v (claimFence r) m = false).
  { destruct (updatable v (claimFence r) m) eqn:X; [| done]. unfold updatable in X. simp_bool. congruence. }
  split; [apply list_elem_of_fmap; exists m; by rewrite Nm |].
  apply filter_shrinks. intros x X. destruct (updatable v (claimFence r) x) eqn:Ux; [| done].
  by rewrite (settled_not_due h r c v x E S F).
Qed.

Lemma added_aside h m m' t t1 : sound t -> m ∈ t -> created m' -> Add t (Some m') = (t1, Ok tt) ->
  nanos (availableAt m) < nanos (timestamptz (availableAt m')) \/ h < nanos (timestamptz (availableAt m')) ->
  sound t1 /\ m ∈ t1 /\ (ahead h m t1 <= ahead h m t)%nat.
Proof.
  intros [N W] M C A L. destruct (add_run t m' t1 C A) as (r & -> & In & Wr & _ & Ir).
  assert (Av : availableAt r = timestamptz (availableAt m')).
  { unfold inserted in In. destruct (if len _ =? 0 then _ else _); [| discriminate In]. by injection In as <-. }
  split; [split; [by apply NoDup_cons | by constructor] |]. split; [by right |].
  unfold ahead. cbn [List.filter]. replace (due h r && bool_decide (row_le r m)) with false; [done |].
  symmetry. apply andb_false_iff. unfold due. cbn [q_available Message_queue]. rewrite Av. destruct L as [L | L].
  - right. apply bool_decide_eq_false. unfold row_le. cbn [q_available Message_queue]. rewrite Av. lia.
  - left. replace (_ <=? h) with false by lia. done.
Qed.

Lemma serving_unserved h m t n got t' : serving h m t n got t' -> sound t -> m ∈ t ->
  id m ∉ map id got -> unserved h m t n t'.
Proof.
  induction 1 as [t | clock locked owner now lease limit t t1 rows n got t2 H R _ IH
    | clock r c v t t1 n got t2 I D E S F U _ IH | m' t t1 n got t2 C A L _ IH]; intros Sd M O.
  - constructor.
  - destruct (claim_success _ _ _ _ _ _ _ _ _ Sd R) as (CR & Sd' & _). rewrite map_app, elem_of_app in O.
    set (p := poll_of clock locked owner now lease limit) in *.
    destruct (due (nanos (timestamptz now)) m && negb (locked m)) eqn:T.
    + apply andb_true_iff in T as [T K]. apply negb_true_iff in K.
      assert (O1 : id m ∉ map q_id rows) by (cbn; tauto).
      assert (Tm : timely h m p) by (split; [exact H | by split]).
      destruct (passed_over (Q := Message_queue) h m p t t1 rows (proj1 Sd) M Tm CR O1) as (M1 & _).
      apply (us_poll h m p t t1 rows); try done. apply IH; try done. tauto.
    + assert (Nc : m ∉ candidates p t).
      { intros X. destruct (in_candidates p t m X) as (_ & Dm & Lm). change (due (nanos (timestamptz now)) m = true) in Dm. change (locked m = false) in Lm. by rewrite Dm, Lm in T. }
      destruct (passed_aside h m p t t1 rows (proj1 Sd) M (proj2 H) CR Nc) as [M1 A].
      apply us_other with t1; [apply Sd' | done | done |]. apply IH; try done. tauto.
  - destruct (settled_aside h m r c v t t1 clock Sd M I D E S F U) as (Sd1 & M1 & A1).
    apply us_other with t1; [apply Sd1 | done | done | by apply IH].
  - destruct (added_aside h m m' t t1 Sd M C A L) as (Sd1 & M1 & A1).
    apply us_other with t1; [apply Sd1 | done | done | by apply IH].
Qed.

Lemma serving_sound h m t n got t' : serving h m t n got t' -> sound t -> sound t'.
Proof.
  induction 1 as [t | clock locked owner now lease limit t t1 rows n got t2 H R _ IH
    | clock r c v t t1 n got t2 I D E S F U _ IH | m' t t1 n got t2 C A L _ IH]; intros Sd; [done | | |]; apply IH.
  - by destruct (claim_success _ _ _ _ _ _ _ _ _ Sd R) as (_ & Sd' & _).
  - exact (settle_sound t r c v clock _ t1 Sd I E S U).
  - destruct Sd as [N W]. destruct (add_run t m' t1 C A) as (r & -> & _ & Wr & _ & Ir).
    split; [by apply NoDup_cons | by constructor].
Qed.

(** C5: No message starves.  Take a message, pending or with an expired claim, and a horizon
    until which, in any order, dispatchers claim under leases that outlast the horizon, settle
    other messages without scheduling them before the horizon, and services add messages that
    become available later than this one or after the horizon; and while nobody settles this
    message.  Count the grants asked for by the successful claims to which the message is due
    and not locked by another transaction.  As soon as they are more than the due messages
    that were ahead of it at the start, the message has been handed out.  And whatever
    happened, a claim fails only for its arguments, an exhausted fence, or a database whose
    clock has not reached the end of a claim that has expired for the dispatcher. *)
Theorem outbox_no_starvation h m t n got t' clock locked owner now lease limit :
  sound t -> m ∈ t -> serving h m t n got t' ->
  ((ahead h m t < n)%nat -> id m ∈ map id got)
  /\ (claimable clock t' owner now lease limit ->
      exists t'' rows, ClaimAvailable clock locked t' owner now lease limit = (t'', Ok rows)).
Proof.
  intros Sd M S. split; [| apply claim_available; exact (serving_sound h m t n got t' S Sd)]. intros A.
  destruct (decide (id m ∈ map id got)) as [| O]; [done | exfalso].
  pose proof (serving_unserved h m t n got t' S Sd M O) as U.
  pose proof (unserved_bounded (Q := Message_queue) h m t n t' U (proj1 Sd) M). lia.
Qed.

End Store.

(** ** A concrete table *)

(** A database that stores documents as they are. *)
Definition jsonb_same (s : string) : option string :=
  if json_valid (to_bytes s) && no_byte 0 s then Some s else None.

Lemma jsonb_same_json s p : jsonb_same s = Some p -> json_valid (to_bytes p) = true /\ no_byte 0 p = true.
Proof. unfold jsonb_same. destruct (_ && _) eqn:E; [| done]. intros [= <-]. by apply andb_true_iff in E. Qed.

Definition ex_event (i : ID) : Envelope :=
  mkEnvelope "session.created" "v1" i "session" id1 1 "{}" "" digest_a.

Definition ex_message (i : ID) (s : Z) : Message :=
  mkMessage id1 i "" (ex_event i) Pending 0 0 (at_second s) None "" None (at_second 0) (at_second 0) None.

Definition ex_table : Table := [ex_message id4 3; ex_message id3 2; ex_message id2 1].

Definition nothing_locked (m : Message) : bool := false.

Definition ex_claim (t : Table) (limit : Z) : Table * result StoreError (list Message) :=
  ClaimAvailable id1 (at_second 10) nothing_locked t id1 (at_second 10) (at_second 60) limit.

Lemma ex_message_created i s : i = id2 \/ i = id3 \/ i = id4 -> s = 1 \/ s = 2 \/ s = 3 -> created id1 (ex_message i s).
Proof.
  intros I S. exists i, (ex_event i), (at_second s), (at_second 0).
  destruct I as [-> | [-> | ->]], S as [-> | [-> | ->]]; (split; [vm_compute; reflexivity | vm_compute; split; discriminate]).
Qed.

Lemma ex_outbox_history : history id1 jsonb_same ex_table [] [].
Proof.
  apply (hi_add id1 jsonb_same [ex_message id3 2; ex_message id2 1] [] [] (ex_message id4 3));
    [| apply ex_message_created; auto | vm_compute; reflexivity].
  apply (hi_add id1 jsonb_same [ex_message id2 1] [] [] (ex_message id3 2));
    [| apply ex_message_created; auto | vm_compute; reflexivity].
  apply (hi_add id1 jsonb_same [] [] [] (ex_message id2 1)); [constructor | apply ex_message_created; auto | vm_compute; reflexivity].
Qed.

Lemma ex_sound : sound id1 ex_table.
Proof. exact (co_sound _ _ _ _ _ (outbox_history_consistent id1 jsonb_same jsonb_same_json _ _ _ ex_outbox_history)). Qed.

Definition ex_t1 : Table := fst (ex_claim ex_table 2).
Definition ex_t2 : Table := fst (ex_claim ex_t1 1).

Definition ex_rows (t : Table) (limit : Z) : list Message :=
  match snd (ex_claim t limit) with Ok l => l | Err _ => [] end.

Lemma ex_claims_first : ex_claim ex_table 2 = (ex_t1, Ok (ex_rows ex_table 2)).
Proof. vm_compute. reflexivity. Qed.

Lemma ex_claims_second : ex_claim ex_t1 1 = (ex_t2, Ok (ex_rows ex_t1 1)).
Proof. vm_compute. reflexivity. Qed.

(** The queue is served in order, and each message once. *)
Lemma ex_served : map id (ex_rows ex_table 2) = [id2; id3] /\ map id (ex_rows ex_t1 1) = [id4].
Proof. vm_compute. split; reflexivity. Qed.

Definition ex_horizon : Z := nanos (at_second 30).

Lemma ex_window : nanos (timestamptz (at_second 10)) <= ex_horizon < nanos (timestamptz (at_second 60))
  /\ nanos (availableAt (ex_message id4 3)) <= nanos (timestamptz (at_second 10)).
Proof. vm_compute. split_and!; (reflexivity || discriminate). Qed.

Lemma ex_serving :
  serving id1 jsonb_same ex_horizon (ex_message id4 3) ex_table 3 (ex_rows ex_table 2 ++ ex_rows ex_t1 1 ++ []) ex_t2.
Proof.
  destruct ex_window as [W _].
  apply (sv_claim id1 jsonb_same ex_horizon (ex_message id4 3) (at_second 10) nothing_locked id1 (at_second 10) (at_second 60) 2
           ex_table ex_t1 (ex_rows ex_table 2) 1); [exact W | exact ex_claims_first |].
  apply (sv_claim id1 jsonb_same ex_horizon (ex_message id4 3) (at_second 10) nothing_locked id1 (at_second 10) (at_second 60) 1
           ex_t1 ex_t2 (ex_rows ex_t1 1) 0); [exact W | exact ex_claims_second |].
  constructor.
Qed.

Lemma outbox_no_starvation_witness : id4 ∈ map id (ex_rows ex_table 2 ++ ex_rows ex_t1 1 ++ []).
Proof.
  refine (proj1 (outbox_no_starvation id1 jsonb_same jsonb_same_json ex_horizon (ex_message id4 3) ex_table 3 _ ex_t2 (at_second 10)
    nothing_locked id1 (at_second 10) (at_second 60) 1 ex_sound _ ex_serving) _).
  - by left.
  - vm_compute. repeat constructor.
Defined.

(** The first claim, then the delivery of what it handed out first. *)
Definition ex_first : Message := claimed_row id1 (at_second 60) (at_second 10) (ex_message id2 1).

Definition ex_delivered : Message :=
  mkMessage id1 id2 "" (ex_event id2) Delivered 1 1 (at_second 1) None "" None (at_second 0) (at_second 20)
    (Some (at_second 20)).

Definition ex_t3 : Table := fst (Update id1 (at_second 20) ex_t1 (Some ex_delivered) 1).

Lemma ex_delivery : exec ex_first (CDeliver id1 1 (at_second 20)) = Ok ex_delivered
  /\ Update id1 (at_second 20) ex_t1 (Some ex_delivered) 1 = (ex_t3, Ok tt)
  /\ existsb (fun m => m == ex_first) (ex_rows ex_table 2) = true
  /\ existsb (fun m => m == ex_delivered) ex_t3 = true.
Proof. vm_compute. split_and!; reflexivity. Qed.

Lemma existsb_elem (m : Message) l : existsb (fun x => x == m) l = true -> m ∈ l.
Proof.
  intros H. apply existsb_exists in H as (x & X & E). apply bool_decide_eq_true in E as ->.
  by apply list_elem_of_In.
Qed.

Lemma ex_history_delivered : history id1 jsonb_same ex_t3 (ex_rows ex_table 2 ++ []) [].
Proof.
  destruct ex_delivery as (E & U & M & _).
  apply (hi_settle id1 jsonb_same ex_t1 _ [] (at_second 20) ex_first (CDeliver id1 1 (at_second 20)) ex_delivered);
    [| rewrite app_nil_r; apply elem_of_app; left; by apply existsb_elem | exact E | reflexivity | exact U].
  apply (hi_claim id1 jsonb_same ex_table [] [] (at_second 10) nothing_locked id1 (at_second 10) (at_second 60) 2);
    [exact ex_outbox_history | exact ex_claims_first].
Qed.

Lemma outbox_store_refines_witness : exists n, row_run id1 jsonb_same ex_delivered n /\ n = 1%nat
  /\ Get id1 ex_t3 id2 = Ok ex_delivered.
Proof.
  destruct ex_delivery as (_ & _ & _ & M).
  destruct (proj1 (outbox_store_refines id1 jsonb_same jsonb_same_json ex_t3 _ _ ex_history_delivered) ex_delivered
    (existsb_elem _ _ M)) as (n & R & F & _ & G).
  exists n. split_and!; [exact R | cbn in F; lia | exact G].
Defined.
