(* ===== verification/RuntimeStore.v ===== *)
(** * postgres/store.go: the tables of sessions, executions and attempts

    One tenant's rows of the three tables with their constraints, unique indexes and
    triggers (migrations 1 to 5, 11, 18 and 33), and the repositories' statements over
    them: store.go, execution_creation.go and attempt_fence.go.  A session row carries
    the current execution besides the aggregate.  PostgreSQL's text of a [jsonb] value
    is a parameter.  The foreign key from a session to its current execution is
    checked at commit; it only refuses more transactions and is left out.

    Proved: every row is the outcome of a run of the domain's commands, whatever the
    interleaving of readers and writers, and the attempts of an execution that is
    terminal or superseded are never touched again. *)

From Stdlib Require Import ZArith Bool Lia.
From stdpp Require Import base strings list.
From S2P Require Import Prelude Regex GoStd Primitives Optimistic CasStore IdempotencyStore.
From S2P Require Import Session Execution Attempt.
From S2P Require Import OutboxStore.

#[export] Instance RuntimeBinding_eq_dec : EqDecision Session.RuntimeBinding.
Proof. solve_decision. Defined.

Lemma option_again o : option_map timestamptz (option_map timestamptz o) = option_map timestamptz o.
Proof. destruct o; cbn [option_map]; by rewrite ?timestamptz_again. Qed.

(** [jsonb_typeof(c) = 'object' AND octet_length(c::text) <= 65536], of the column's text. *)
Definition object_column (s : string) : bool :=
  match to_bytes s with b :: _ => b =? 123 | [] => false end && (len s <=? 65536).

(** ** Sessions *)

Module Sessions.
Import Session.

Record Row : Type := mkRow { aggregate : Session; current : ID }.

Definition round (s : Session) : Session :=
  mkSession (tenantID s) (id s) (state s) (stateVersion s) (executionGeneration s) (binding s) (recoveryState s)
    (timestamptz (createdAt s)) (timestamptz (updatedAt s)) (option_map timestamptz (closedAt s)).

Definition binding_columns (b : RuntimeBinding) : bool :=
  ((AuthorityMode b == "LOCAL") || (AuthorityMode b == "THINKPIXEL_AG"))
  && (AuthorityNamespace b != "") && ValidString (AuthorityNamespace b) && no_byte 0 (AuthorityNamespace b)
  && (AgentID b != "") && text_ok (AgentID b) 255 && (AgentVersionID b != "") && text_ok (AgentVersionID b) 255
  && (RuntimeSpecSchemaVersion b != "") && ValidString (RuntimeSpecSchemaVersion b)
  && no_byte 0 (RuntimeSpecSchemaVersion b)
  && object_column (RuntimeSpec b) && match_string sha256_pattern (RuntimeSpecDigest b)
  && (RuntimeProfileSchemaVersion b != "") && ValidString (RuntimeProfileSchemaVersion b)
  && no_byte 0 (RuntimeProfileSchemaVersion b)
  && object_column (RuntimeProfileSnapshot b) && match_string sha256_pattern (RuntimeProfileDigest b).

(** The CHECK constraints of the table. *)
Definition row_ok (s : Session) : bool :=
  bigint (stateVersion s) && bigint (executionGeneration s) && binding_columns (binding s)
  && negb (Before (updatedAt s) (createdAt s))
  && eqb (state s == Closed) (is_some (closedAt s))
  && match closedAt s with Some c => negb (Before c (createdAt s)) | None => true end
  && eqb (state s == Degraded) (is_some (recoveryState s))
  && negb ((recoveryState s == Some Degraded) || (recoveryState s == Some Closed)).

(** [enforce_session_execution_epoch] *)
Definition epoch_ok (old new : Row) : bool :=
  let o := aggregate old in
  let n := aggregate new in
  negb ((executionGeneration n <? executionGeneration o)
        || ((executionGeneration o <? executionGeneration n)
            && negb (executionGeneration n - executionGeneration o =? 1)))
  && negb ((executionGeneration o <? executionGeneration n)
           && (negb ((state o == Ready) || (state o == Idle)) || (state n != Active) || (current new == "")))
  && negb ((current new != "")
           && (((state n != Active)
                && negb ((state n == Degraded) && (recoveryState n == Some Active)
                         && (current new == current old)
                         && (executionGeneration n =? executionGeneration o)))
               || (executionGeneration n =? 0))).

Definition row_of (i : ID) (t : list Row) : option Row := List.find (fun r => id (aggregate r) == i) t.

(** [Get]; [GetForUpdate] reads the same row under a lock. *)
Definition Get (tenant : ID) (t : list Row) (i : ID) : result StoreError Session :=
  match row_of i t with
  | None => Err StoreNotFound
  | Some r =>
      let s := aggregate r in
      match Restore tenant i (binding s) (enum_string (state s)) (state_string (recoveryState s)) (stateVersion s)
              (executionGeneration s) (createdAt s) (updatedAt s) (closedAt s) with
      | Ok v => Ok v
      | Err _ => Err StoreFailure
      end
  end.

(** The columns of [Update]. *)
Definition written (s v : Session) : Session :=
  mkSession (tenantID s) (id s) (state v) (stateVersion v) (executionGeneration v) (binding s) (recoveryState v)
    (createdAt s) (timestamptz (updatedAt v)) (option_map timestamptz (closedAt v)).

Definition matches (v : Session) (expected : Z) (r : Row) : bool :=
  (id (aggregate r) == id v) && (stateVersion (aggregate r) =? expected).

Definition updated (v : Session) (r : Row) : Row := mkRow (written (aggregate r) v) (current r).

Definition Update (tenant : ID) (t : list Row) (value : option Session) (expected : Z)
  : list Row * result StoreError unit :=
  match value with
  | None => (t, Err StoreFailure)
  | Some v =>
      if tenantID v != tenant then (t, Err StoreFailure)
      else match List.find (matches v expected) t with
      | None => (t, Err StoreConflict)
      | Some r =>
          if negb (epoch_ok r (updated v r)) || negb (row_ok (aggregate (updated v r))) then (t, Err StoreFailure)
          else (map (fun r => if matches v expected r then updated v r else r) t, Ok tt)
      end
  end.

(** The rows that [Activate] matches. *)
Definition admissible (v : Session) (expected : Z) (r : Row) : bool :=
  matches v expected r && ((state (aggregate r) == Ready) || (state (aggregate r) == Idle)) && (current r == "")
  && (executionGeneration (aggregate r) =? executionGeneration v - 1).

(** The columns of [Activate]. *)
Definition activated (v : Session) (execution : ID) (r : Row) : Row :=
  let s := aggregate r in
  mkRow (mkSession (tenantID s) (id s) Active (stateVersion v) (executionGeneration v) (binding s) (recoveryState s)
           (createdAt s) (timestamptz (updatedAt v)) (closedAt s)) execution.

Definition Activate (tenant : ID) (t : list Row) (value : option Session) (expected : Z) (execution : ID)
  : list Row * result StoreError unit :=
  match value with
  | None => (t, Err StoreFailure)
  | Some v =>
      if (tenantID v != tenant) || (state v != Active) || negb (stateVersion v =? u64 (expected + 1))
      then (t, Err StoreFailure)
      else match List.find (admissible v expected) t with
      | None => (t, Err StoreConflict)
      | Some r =>
          if negb (epoch_ok r (activated v execution r)) || negb (row_ok (aggregate (activated v execution r)))
          then (t, Err StoreFailure)
          else (map (fun r => if admissible v expected r then activated v execution r else r) t, Ok tt)
      end
  end.

Section Insert.
Variable jsonb_text : string -> option string.

Definition inserted (v : Session) : option Session :=
  let b := binding v in
  spec ← jsonb_text (RuntimeSpec b);
  profile ← jsonb_text (RuntimeProfileSnapshot b);
  Some (round (mkSession (tenantID v) (id v) (state v) (stateVersion v) (executionGeneration v)
                 (mkRuntimeBinding (AuthorityMode b) (AuthorityNamespace b) (AgentID b) (AgentVersionID b)
                    (RuntimeSpecSchemaVersion b) spec (RuntimeSpecDigest b) (RuntimeProfileSchemaVersion b) profile
                    (RuntimeProfileDigest b))
                 (recoveryState v) (createdAt v) (updatedAt v) (closedAt v))).

Definition Add (tenant : ID) (t : list Row) (value : option Session) : list Row * result StoreError unit :=
  match value with
  | None => (t, Err StoreFailure)
  | Some v =>
      if tenantID v != tenant then (t, Err StoreFailure)
      else match inserted v with
      | None => (t, Err StoreFailure)
      | Some s =>
          if negb (row_ok s) then (t, Err StoreFailure)
          else if is_some (row_of (id s) t) then (t, Err StoreConflict)
          else (mkRow s "" :: t, Ok tt)
      end
  end.
End Insert.
Ltac session_fields :=
  cbn [tenantID id state stateVersion executionGeneration binding recoveryState createdAt updatedAt closedAt
       advanced] in *.

(** A row of this tenant that the domain reached, created in the resolution of the column. *)
Definition row_wf (tenant : ID) (s : Session) : Prop :=
  tenantID s = tenant /\ wf s /\ timestamptz (createdAt s) = createdAt s.

Definition row_new (tenant : ID) (s : Session) : Prop :=
  New tenant (id s) (binding s) (createdAt s) = Ok s /\ timestamptz (createdAt s) = createdAt s.

Lemma session_round_again s : round (round s) = round s.
Proof. destruct s. unfold round. session_fields. by rewrite !timestamptz_again, option_again. Qed.

Lemma session_round_wf tenant s : row_wf tenant s -> row_wf tenant (round s).
Proof.
  intros (T & [W1 W2 W3 W4 W5 W6 W7 W8 W9 W10] & C). unfold round. split_and!; [done | | cbn; apply timestamptz_again].
  rewrite C. constructor; session_fields; try done.
  - destruct (closedAt s) as [c |]; [| done]. destruct W7 as (? & _ & L). cbn [option_map]. split_and!; try done.
    rewrite <- C. by apply timestamptz_mono.
  - rewrite <- C. by apply timestamptz_mono.
  - split; [apply W10 | done].
Qed.

Lemma session_row_new_wf tenant r : row_new tenant r -> row_wf tenant r /\ round r = r.
Proof.
  intros [N C]. pose proof (session_wf_New _ _ _ _ _ N) as W. unfold New in N. ok_inv N.
  destruct r. session_fields. rewrite (stored_utc _ C) in N. injection N. intros. subst. split; [done |].
  unfold round. session_fields. cbn [option_map]. by rewrite C.
Qed.

Lemma session_exec_id s c s' : exec s c = Ok s' -> id s' = id s.
Proof. intros H. apply session_exec_cases in H as [-> | (n & _ & _ & _ & _ & ->)]; done. Qed.

Lemma session_exec_row_wf tenant s c s' : row_wf tenant s -> exec s c = Ok s' -> row_wf tenant s'.
Proof.
  intros (T & W & C) H. pose proof (session_wf_exec _ _ _ W H) as W'.
  apply session_exec_cases in H as [-> | (n & _ & _ & _ & _ & ->)]; done.
Qed.

Lemma session_round_created s : round s = s -> timestamptz (createdAt s) = createdAt s.
Proof. intros H. pose proof (f_equal createdAt H) as E. exact E. Qed.

Lemma session_exec_written s c s' : round s = s -> exec s c = Ok s' -> written s s' = round s'.
Proof.
  intros R H. pose proof (session_round_created s R) as C.
  apply session_exec_cases in H as [-> | (n & _ & _ & _ & _ & ->)]; unfold written, round; cbn; by rewrite C.
Qed.

#[export, refine] Instance Session_stored (tenant : ID) : Stored Session Command SessionError := {|
  s_id := id; s_round := round; s_write := written; s_wf := row_wf tenant; s_new := row_new tenant
|}.
Proof.
  - done.
  - done.
  - exact session_round_again.
  - exact (session_round_wf tenant).
  - exact (session_row_new_wf tenant).
  - exact session_exec_id.
  - exact (session_exec_row_wf tenant).
  - intros s c s' _. apply session_exec_written.
Defined.

End Sessions.

(** ** Executions *)

Module Executions.
Import Execution.

Definition round (e : Execution) : Execution :=
  mkExecution (tenantID e) (id e) (binding e) (timestamptz (deadline e)) (state e) (stateVersion e)
    (terminalResult e) (timestamptz (createdAt e)) (timestamptz (updatedAt e))
    (option_map timestamptz (terminalAt e)).

Definition binding_columns (b : Binding) : bool :=
  (0 <? SessionGeneration b) && bigint (SessionGeneration b)
  && ((AuthorityMode b == "LOCAL") || (AuthorityMode b == "THINKPIXEL_AG"))
  && (AuthorityNamespace b != "") && text_ok (AuthorityNamespace b) 255
  && (AuthorityReference b != "") && text_ok (AuthorityReference b) 255 && text_ok (ExternalRunID b) 255
  && match_string sha256_pattern (GrantDigest b)
  && (AgentID b != "") && text_ok (AgentID b) 255 && (AgentVersionID b != "") && text_ok (AgentVersionID b) 255
  && object_column (AgentEvidence b) && match_string sha256_pattern (AgentEvidenceDigest b).

(** The CHECK constraints of the table. *)
Definition row_ok (e : Execution) : bool :=
  bigint (stateVersion e) && binding_columns (binding e) && After (deadline e) (createdAt e)
  && negb (Before (updatedAt e) (createdAt e))
  && eqb (isTerminal (state e)) (is_some (terminalAt e))
  && eqb (isTerminal (state e)) (is_some (terminalResult e))
  && match terminalResult e with
     | Some r => (Reference r != "") && text_ok (Reference r) 2048 && match_string sha256_pattern (Digest r)
     | None => true
     end
  && match terminalAt e with Some t => negb (Before t (createdAt e)) | None => true end.

(** The unique keys and the index [executions_one_mutable_per_session_idx]. *)
Definition collides (a b : Execution) : bool :=
  (id a == id b)
  || ((AuthorityMode (binding a) == AuthorityMode (binding b))
      && (AuthorityNamespace (binding a) == AuthorityNamespace (binding b))
      && (AuthorityReference (binding a) == AuthorityReference (binding b)))
  || ((SessionID (binding a) == SessionID (binding b))
      && ((SessionGeneration (binding a) =? SessionGeneration (binding b))
          || (negb (isTerminal (state a)) && negb (isTerminal (state b))))).

Definition row_of (i : ID) (t : list Execution) : option Execution := List.find (fun r => id r == i) t.

(** [Get]; [GetForUpdate] reads the same row under a lock. *)
Definition Get (tenant : ID) (t : list Execution) (i : ID) : result StoreError Execution :=
  match row_of i t with
  | None => Err StoreNotFound
  | Some e =>
      match Restore tenant i (binding e) (deadline e) (enum_string (state e)) (stateVersion e) (terminalResult e)
              (createdAt e) (updatedAt e) (terminalAt e) with
      | Ok v => Ok v
      | Err _ => Err StoreFailure
      end
  end.

(** The columns of [Update]; the time of the outcome is written with the outcome. *)
Definition written (e v : Execution) : Execution :=
  mkExecution (tenantID e) (id e) (binding e) (deadline e) (state v) (stateVersion v) (terminalResult v)
    (createdAt e) (timestamptz (updatedAt v))
    (match terminalResult v with Some _ => Some (timestamptz (default zeroTime (terminalAt v))) | None => None end).

Definition matches (v : Execution) (expected : Z) (r : Execution) : bool :=
  (id r == id v) && (stateVersion r =? expected).

Definition Update (tenant : ID) (t : list Execution) (value : option Execution) (expected : Z)
  : list Execution * result StoreError unit :=
  match value with
  | None => (t, Err StoreFailure)
  | Some v =>
      if tenantID v != tenant then (t, Err StoreFailure)
      else match List.find (matches v expected) t with
      | None => (t, Err StoreConflict)
      | Some r =>
          if negb (row_ok (written r v)) then (t, Err StoreFailure)
          else if existsb (fun x => (id x != id r) && collides (written r v) x) t then (t, Err StoreConflict)
          else (map (fun r => if matches v expected r then written r v else r) t, Ok tt)
      end
  end.

Section Insert.
Variable jsonb_text : string -> option string.

Definition inserted (v : Execution) : option Execution :=
  let b := binding v in
  evidence ← jsonb_text (AgentEvidence b);
  Some (mkExecution (tenantID v) (id v)
          (mkBinding (SessionID b) (SessionGeneration b) (AuthorityMode b) (AuthorityNamespace b)
             (AuthorityReference b) (ExternalRunID b) (GrantDigest b) (AgentID b) (AgentVersionID b) evidence
             (AgentEvidenceDigest b))
          (timestamptz (deadline v)) (state v) (stateVersion v) (terminalResult v)
          (timestamptz (createdAt v)) (timestamptz (updatedAt v))
          (match terminalResult v with Some _ => Some (timestamptz (default zeroTime (terminalAt v))) | None => None end)).

(** [sessions]: the rows that the foreign key refers to. *)
Definition Add (tenant : ID) (sessions : list Sessions.Row) (t : list Execution) (value : option Execution)
  : list Execution * result StoreError unit :=
  match value with
  | None => (t, Err StoreFailure)
  | Some v =>
      if tenantID v != tenant then (t, Err StoreFailure)
      else match inserted v with
      | None => (t, Err StoreFailure)
      | Some e =>
          if negb (row_ok e) then (t, Err StoreFailure)
          else if existsb (collides e) t then (t, Err StoreConflict)
          else if negb (is_some (Sessions.row_of (SessionID (binding e)) sessions)) then (t, Err StoreFailure)
          else (e :: t, Ok tt)
      end
  end.
End Insert.
Ltac execution_fields :=
  cbn [tenantID id binding deadline state stateVersion terminalResult createdAt updatedAt terminalAt advanced] in *.

(** A row of this tenant that the domain reached, created in the resolution of the columns. *)
Definition row_wf (tenant : ID) (e : Execution) : Prop :=
  tenantID e = tenant /\ wf e /\ timestamptz (createdAt e) = createdAt e /\ timestamptz (deadline e) = deadline e.

Definition row_new (tenant : ID) (e : Execution) : Prop :=
  New tenant (id e) (binding e) (deadline e) (createdAt e) = Ok e
  /\ timestamptz (createdAt e) = createdAt e /\ timestamptz (deadline e) = deadline e.

Lemma execution_round_again e : round (round e) = round e.
Proof. destruct e. unfold round. execution_fields. by rewrite !timestamptz_again, option_again. Qed.

Lemma execution_round_wf tenant e : row_wf tenant e -> row_wf tenant (round e).
Proof.
  intros (T & [W1 W2 W3 W4 W5 W6 W7 W8 W9 W10 W11 W12] & C & D). unfold round.
  split_and!; [done | | cbn; apply timestamptz_again | cbn; apply timestamptz_again].
  rewrite C, D.
  constructor; execution_fields; try done.
  - destruct (terminalAt e) as [t |]; [| done]. by destruct W8 as [? ->].
  - rewrite <- C. by apply timestamptz_mono.
  - by destruct W12 as (? & ? & ?).
Qed.

Lemma execution_row_new_wf tenant r : row_new tenant r -> row_wf tenant r /\ round r = r.
Proof.
  intros (N & C & D). pose proof (execution_wf_New _ _ _ _ _ _ N) as W. unfold New in N. ok_inv N.
  destruct r. execution_fields. rewrite (stored_utc _ C), (stored_utc _ D) in N. injection N. intros. subst. split; [done |].
  unfold round. execution_fields. cbn [option_map]. by rewrite C, D.
Qed.

Lemma execution_exec_id e c e' : exec e c = Ok e' -> id e' = id e.
Proof. intros H. apply execution_exec_cases in H as [-> | (n & _ & _ & _ & _ & ->)]; done. Qed.

Lemma execution_exec_row_wf tenant e c e' : row_wf tenant e -> exec e c = Ok e' -> row_wf tenant e'.
Proof.
  intros (T & W & C) H. pose proof (execution_wf_exec _ _ _ W H) as W'.
  apply execution_exec_cases in H as [-> | (n & _ & _ & _ & _ & ->)]; done.
Qed.

(** The time of the outcome is present with the outcome. *)
Lemma execution_terminal_column e : wf e ->
  match terminalResult e with Some _ => Some (timestamptz (default zeroTime (terminalAt e))) | None => None end
  = option_map timestamptz (terminalAt e).
Proof.
  intros W. pose proof (wf_result e W) as R. pose proof (wf_terminal e W) as T.
  destruct (terminalResult e), (terminalAt e); try done; destruct_and?; congruence.
Qed.

Lemma execution_exec_written tenant e c e' : row_wf tenant e -> round e = e -> exec e c = Ok e' -> written e e' = round e'.
Proof.
  intros (T & W & C & D) R H. pose proof (execution_wf_exec _ _ _ W H) as W'. unfold written, round.
  rewrite (execution_terminal_column e' W').
  apply execution_exec_cases in H as [-> | (n & _ & _ & _ & _ & ->)]; cbn; by rewrite C, D.
Qed.

#[export, refine] Instance Execution_stored (tenant : ID) : Stored Execution Command ExecutionError := {|
  s_id := id; s_round := round; s_write := written; s_wf := row_wf tenant; s_new := row_new tenant
|}.
Proof.
  - done.
  - done.
  - exact execution_round_again.
  - exact (execution_round_wf tenant).
  - exact (execution_row_new_wf tenant).
  - exact execution_exec_id.
  - exact (execution_exec_row_wf tenant).
  - exact (execution_exec_written tenant).
Defined.

End Executions.

(** ** Attempts *)

Module Attempts.
Import Attempt.

Definition round (a : Attempt) : Attempt :=
  mkAttempt (tenantID a) (id a) (binding a) (state a) (stateVersion a) (current a) (sandboxReference a)
    (harnessReference a) (option_map timestamptz (sandboxHeartbeatAt a)) (option_map timestamptz (harnessHeartbeatAt a))
    (terminalResult a) (timestamptz (createdAt a)) (timestamptz (updatedAt a))
    (option_map timestamptz (terminalAt a)).

Definition between (a : Attempt) (o : option Time) : bool :=
  match o with Some t => negb (Before t (createdAt a)) && negb (After t (updatedAt a)) | None => true end.

(** The CHECK constraints of the table. *)
Definition row_ok (a : Attempt) : bool :=
  (0 <? ExecutionGeneration (binding a)) && bigint (ExecutionGeneration (binding a))
  && (0 <? Number (binding a)) && bigint (Number (binding a)) && bigint (stateVersion a)
  && negb (Before (updatedAt a) (createdAt a)) && between a (sandboxHeartbeatAt a) && between a (harnessHeartbeatAt a)
  && eqb (isTerminal (state a)) (is_some (terminalAt a))
  && eqb (isTerminal (state a)) (is_some (terminalResult a))
  && match terminalResult a with
     | Some r => (Reference r != "") && text_ok (Reference r) 2048 && match_string sha256_pattern (Digest r)
     | None => true
     end
  && match terminalAt a with Some t => negb (Before t (createdAt a)) | None => true end
  && negb (current a && isTerminal (state a)).

(** The unique keys and the index [attempts_one_current_idx]. *)
Definition collides (a b : Attempt) : bool :=
  (id a == id b)
  || ((ExecutionID (binding a) == ExecutionID (binding b))
      && ((Number (binding a) =? Number (binding b)) || (current a && current b))).

Definition fenced_states : list Execution.State :=
  [Execution.Materializing; Execution.Running; Execution.Cancelling; Execution.TimingOut].

(** [enforce_attempt_mutation_fence]: the parents as they are now; [was] tells whether
    the row counts as current before the mutation. *)
Definition fence_ok (sessions : list Sessions.Row) (executions : list Execution.Execution) (a : Attempt) (was : bool)
  : bool :=
  match Executions.row_of (ExecutionID (binding a)) executions with
  | None => false
  | Some e =>
      match Sessions.row_of (Execution.SessionID (Execution.binding e)) sessions with
      | None => false
      | Some s =>
          (Session.state (Sessions.aggregate s) == Session.Active)
          && (Sessions.current s == Execution.id e)
          && (Session.executionGeneration (Sessions.aggregate s) =? Execution.SessionGeneration (Execution.binding e))
          && (Execution.SessionGeneration (Execution.binding e) =? ExecutionGeneration (binding a))
          && existsb (fun x => x == Execution.state e) fenced_states && was
      end
  end.

(** [lockParents]: both parents have to exist. *)
Definition lockParents (sessions : list Sessions.Row) (executions : list Execution.Execution) (execution : ID) : bool :=
  match Executions.row_of execution executions with
  | None => false
  | Some e => is_some (Sessions.row_of (Execution.SessionID (Execution.binding e)) sessions)
  end.

Definition row_of (i : ID) (t : list Attempt) : option Attempt := List.find (fun r => id r == i) t.

Definition Get (tenant : ID) (t : list Attempt) (i : ID) : result StoreError Attempt :=
  match row_of i t with
  | None => Err StoreNotFound
  | Some a =>
      match Restore tenant i (binding a) (enum_string (state a)) (stateVersion a) (current a) (sandboxReference a)
              (harnessReference a) (sandboxHeartbeatAt a) (harnessHeartbeatAt a) (terminalResult a) (createdAt a)
              (updatedAt a) (terminalAt a) with
      | Ok v => Ok v
      | Err _ => Err StoreFailure
      end
  end.

(** The row of an insertion. *)
Definition inserted (v : Attempt) : Attempt :=
  mkAttempt (tenantID v) (id v) (binding v) (state v) (stateVersion v) (current v) (sandboxReference v)
    (harnessReference v) (option_map timestamptz (sandboxHeartbeatAt v)) (option_map timestamptz (harnessHeartbeatAt v))
    (terminalResult v) (timestamptz (createdAt v)) (timestamptz (updatedAt v))
    (match terminalResult v with Some _ => Some (timestamptz (default zeroTime (terminalAt v))) | None => None end).

Definition Add (tenant : ID) (sessions : list Sessions.Row) (executions : list Execution.Execution) (t : list Attempt)
    (value : option Attempt) : list Attempt * result StoreError unit :=
  match value with
  | None => (t, Err StoreFailure)
  | Some v =>
      if tenantID v != tenant then (t, Err StoreFailure)
      else if negb (lockParents sessions executions (ExecutionID (binding v))) then (t, Err StoreNotFound)
      else
        let a := inserted v in
        if negb (fence_ok sessions executions a (current a)) || negb (row_ok a) then (t, Err StoreFailure)
        else if existsb (collides a) t then (t, Err StoreConflict)
        else (a :: t, Ok tt)
  end.

(** The columns of [Update]. *)
Definition written (r v : Attempt) : Attempt :=
  mkAttempt (tenantID r) (id r) (binding r) (state v) (stateVersion v) (current v) (sandboxReference v)
    (harnessReference v) (option_map timestamptz (sandboxHeartbeatAt v)) (option_map timestamptz (harnessHeartbeatAt v))
    (terminalResult v) (createdAt r) (timestamptz (updatedAt v))
    (match terminalResult v with Some _ => Some (timestamptz (default zeroTime (terminalAt v))) | None => None end).

(** [reject_attempt_identity_or_binding_change] for the columns that are assigned. *)
Definition references_kept (old new : Attempt) : bool :=
  ((sandboxReference old == "") || (sandboxReference new == sandboxReference old))
  && ((harnessReference old == "") || (harnessReference new == harnessReference old)).

Definition matches (v : Attempt) (expected : Z) (r : Attempt) : bool :=
  (id r == id v) && (stateVersion r =? expected).

Definition Update (tenant : ID) (sessions : list Sessions.Row) (executions : list Execution.Execution) (t : list Attempt)
    (value : option Attempt) (expected : Z) : list Attempt * result StoreError unit :=
  match value with
  | None => (t, Err StoreFailure)
  | Some v =>
      if tenantID v != tenant then (t, Err StoreFailure)
      else if negb (lockParents sessions executions (ExecutionID (binding v))) then (t, Err StoreNotFound)
      else match List.find (matches v expected) t with
      | None => (t, Err StoreConflict)
      | Some r =>
          let a := written r v in
          if negb (references_kept r a) || negb (fence_ok sessions executions a (current r)) || negb (row_ok a)
          then (t, Err StoreFailure)
          else if existsb (fun x => (id x != id r) && collides a x) t then (t, Err StoreConflict)
          else (map (fun r => if matches v expected r then written r v else r) t, Ok tt)
      end
  end.
(** A row of this tenant that the domain reached, created in the resolution of the column. *)
Definition row_wf (tenant : ID) (a : Attempt) : Prop :=
  tenantID a = tenant /\ wf a /\ timestamptz (createdAt a) = createdAt a.

Definition row_new (tenant : ID) (a : Attempt) : Prop :=
  New tenant (id a) (binding a) (createdAt a) = Ok a /\ timestamptz (createdAt a) = createdAt a.

Lemma attempt_round_again a : round (round a) = round a.
Proof. destruct a. unfold round. attempt_fields. by rewrite !timestamptz_again, !option_again. Qed.

Lemma attempt_round_wf tenant a : row_wf tenant a -> row_wf tenant (round a).
Proof.
  intros (T & [W1 W2 W3 W4 W5 W6 W7 W8 W9 W10 W11 W12 W13] & C). unfold round.
  split_and!; [done | | cbn; apply timestamptz_again]. rewrite C.
  constructor; attempt_fields; try done.
  - intros [] t H; cbn [heartbeat] in H; attempt_fields.
    + destruct (sandboxHeartbeatAt a) as [b |] eqn:B; [| done]. injection H as <-.
      destruct (W7 Sandbox b B) as [_ [L1 L2]]. split; [done |]. cbn [createdAt updatedAt]. rewrite <- C.
      by split; apply timestamptz_mono.
    + destruct (harnessHeartbeatAt a) as [b |] eqn:B; [| done]. injection H as <-.
      destruct (W7 Harness b B) as [_ [L1 L2]]. split; [done |]. cbn [createdAt updatedAt]. rewrite <- C.
      by split; apply timestamptz_mono.
  - destruct (terminalAt a) as [t |]; [| done]. by destruct W10 as [? ->].
  - rewrite <- C. by apply timestamptz_mono.
  - split; [apply W13 | done].
Qed.

Lemma attempt_row_new_wf tenant r : row_new tenant r -> row_wf tenant r /\ round r = r.
Proof.
  intros (N & C). pose proof (attempt_wf_New _ _ _ _ _ N) as W. unfold New in N. ok_inv N.
  destruct r. attempt_fields. rewrite (stored_utc _ C) in N. injection N. intros. subst. split; [done |].
  unfold round. attempt_fields. cbn [option_map]. by rewrite C.
Qed.

(** What no command changes. *)
Lemma attempt_exec_fixed a c a' : exec a c = Ok a' ->
  id a' = id a /\ tenantID a' = tenantID a /\ binding a' = binding a /\ createdAt a' = createdAt a.
Proof. intros H. apply attempt_exec_effect in H as (_ & _ & E). by destruct E as [| [] | [] |]. Qed.

Lemma attempt_exec_row_wf tenant a c a' : row_wf tenant a -> exec a c = Ok a' -> row_wf tenant a'.
Proof.
  intros (T & W & C) H. pose proof (attempt_wf_exec _ _ _ W H) as W'.
  apply attempt_exec_fixed in H as (_ & T' & _ & C'). split_and!; [congruence | done | congruence].
Qed.

Lemma attempt_terminal_column a : wf a ->
  match terminalResult a with Some _ => Some (timestamptz (default zeroTime (terminalAt a))) | None => None end
  = option_map timestamptz (terminalAt a).
Proof.
  intros W. pose proof (wf_result a W) as R. pose proof (wf_terminal a W) as T.
  destruct (terminalResult a), (terminalAt a); try done; destruct_and?; congruence.
Qed.

Lemma attempt_exec_written tenant a c a' : row_wf tenant a -> exec a c = Ok a' -> written a a' = round a'.
Proof.
  intros (T & W & C) H. pose proof (attempt_wf_exec _ _ _ W H) as W'. unfold written, round.
  rewrite (attempt_terminal_column a' W'). apply attempt_exec_fixed in H as (-> & -> & -> & ->). by rewrite C.
Qed.

#[export, refine] Instance Attempt_stored (tenant : ID) : Stored Attempt Command AttemptError := {|
  s_id := id; s_round := round; s_write := written; s_wf := row_wf tenant; s_new := row_new tenant
|}.
Proof.
  - done.
  - done.
  - exact attempt_round_again.
  - exact (attempt_round_wf tenant).
  - exact (attempt_row_new_wf tenant).
  - intros a c a' H. by apply attempt_exec_fixed in H as [? _].
  - exact (attempt_exec_row_wf tenant).
  - intros a c a' W _. by apply (attempt_exec_written tenant).
Defined.

End Attempts.
