(* ===== verification/RuntimeHistory.v ===== *)
(** * Histories of the session, execution and attempt tables

    Committed statements of the repositories in the order in which they take effect,
    issued by any number of callers: a caller adds an aggregate that the domain
    created, reads one, or writes back the outcome of a command on a value that it read
    at any earlier point.

    Proved: every row is the outcome of a run of the domain's commands and is read back
    as it is; a write replaces exactly the row whose value it was computed from, or fails and
    changes nothing, so no update is ever lost; and once an execution is terminal or its
    session has admitted a later one, its attempts are never added to or changed. *)

From Stdlib Require Import ZArith Bool Lia.
From stdpp Require Import base strings list relations.
From S2P Require Import Prelude Regex GoStd Primitives Optimistic CasStore IdempotencyStore.
From S2P Require Import Session Execution Attempt.
From S2P Require Import OutboxStore RuntimeStore.

Record DB : Type := mkDB {
  sessions : list Sessions.Row;
  executions : list Execution.Execution;
  attempts : list Attempt.Attempt
}.

(** The values that callers have read. *)
Record Reads : Type := mkReads {
  read_sessions : list Session.Session;
  read_executions : list Execution.Execution;
  read_attempts : list Attempt.Attempt
}.

Section History.
Variable tenant : ID.
Variable jsonb_text : string -> option string.

Inductive step : DB * Reads -> DB * Reads -> Prop :=
| add_session S E A h i b now v S' :
    Session.New tenant i b now = Ok v -> 1000 <= nanos now ->
    Sessions.Add jsonb_text tenant S (Some v) = (S', Ok tt) ->
    step (mkDB S E A, h) (mkDB S' E A, h)
| get_session S E A HS HE HA i v :
    Sessions.Get tenant S i = Ok v ->
    step (mkDB S E A, mkReads HS HE HA) (mkDB S E A, mkReads (v :: HS) HE HA)
| update_session S E A h m c v S' :
    m ∈ read_sessions h -> Session.exec m c = Ok v ->
    Sessions.Update tenant S (Some v) (Session.stateVersion m) = (S', Ok tt) ->
    step (mkDB S E A, h) (mkDB S' E A, h)
| activate_session S E A h m c v x S' :
    m ∈ read_sessions h -> Session.exec m c = Ok v ->
    Sessions.Activate tenant S (Some v) (Session.stateVersion m) x = (S', Ok tt) ->
    step (mkDB S E A, h) (mkDB S' E A, h)
| add_execution S E A h i b dl now v E' :
    Execution.New tenant i b dl now = Ok v -> 1000 <= nanos now ->
    Executions.Add jsonb_text tenant S E (Some v) = (E', Ok tt) ->
    step (mkDB S E A, h) (mkDB S E' A, h)
| get_execution S E A HS HE HA i v :
    Executions.Get tenant E i = Ok v ->
    step (mkDB S E A, mkReads HS HE HA) (mkDB S E A, mkReads HS (v :: HE) HA)
| update_execution S E A h m c v E' :
    m ∈ read_executions h -> Execution.exec m c = Ok v ->
    Executions.Update tenant E (Some v) (Execution.stateVersion m) = (E', Ok tt) ->
    step (mkDB S E A, h) (mkDB S E' A, h)
| add_attempt S E A h i b now v A' :
    Attempt.New tenant i b now = Ok v -> 1000 <= nanos now ->
    Attempts.Add tenant S E A (Some v) = (A', Ok tt) ->
    step (mkDB S E A, h) (mkDB S E A', h)
| get_attempt S E A HS HE HA i v :
    Attempts.Get tenant A i = Ok v ->
    step (mkDB S E A, mkReads HS HE HA) (mkDB S E A, mkReads HS HE (v :: HA))
| update_attempt S E A h m c v A' :
    m ∈ read_attempts h -> Attempt.exec m c = Ok v ->
    Attempts.Update tenant S E A (Some v) (Attempt.stateVersion m) = (A', Ok tt) ->
    step (mkDB S E A, h) (mkDB S E A', h).

Definition fresh : DB * Reads := (mkDB [] [] [], mkReads [] [] []).

Definition session_table := cas_ok (S := Sessions.Session_stored tenant).
Definition execution_table := cas_ok (S := Executions.Execution_stored tenant).
Definition attempt_table := cas_ok (S := Attempts.Attempt_stored tenant).

(** The tables and what has been read of them. *)
Record consistent (x : DB * Reads) : Prop := {
  co_sessions : session_table (map Sessions.aggregate (sessions x.1)) (read_sessions x.2);
  co_executions : execution_table (executions x.1) (read_executions x.2);
  co_attempts : attempt_table (attempts x.1) (read_attempts x.2)
}.

(** ** Statements that succeed *)

Lemma insert_time t : 1000 <= nanos t -> IsZero (timestamptz t) = false.
Proof. intros H. pose proof (Z.div_le_mono 1000 (nanos t) 1000 ltac:(lia) H) as D.
  change (1000 / 1000) with 1 in D. unfold IsZero, timestamptz. cbn [nanos]. apply Z.eqb_neq. lia.
Qed.

Lemma bigint_range n : bigint n = true -> 0 <= n <= max_int64.
Proof. unfold bigint. intros H. simp_bool. lia. Qed.

Lemma find_map {A B} (f : A -> B) (p : B -> bool) l :
  List.find p (map f l) = option_map f (List.find (fun x => p (f x)) l).
Proof. induction l as [| a l IH]; [done |]. cbn. destruct (p (f a)); [done | exact IH]. Qed.

Lemma not_found {A} (f : A -> ID) i l : is_some (List.find (fun r => f r == i) l) = false -> i ∉ map f l.
Proof.
  intros H I. apply list_elem_of_fmap in I as (r & -> & I).
  destruct (List.find _ l) eqn:F; [discriminate H |].
  apply list_elem_of_In in I. pose proof (find_none _ _ F r I) as G. cbn in G. by rewrite bool_decide_true in G.
Qed.

(** ** Sessions *)

Lemma session_updated S v e S' : Sessions.Update tenant S (Some v) e = (S', Ok tt) ->
  exists r, List.find (Sessions.matches v e) S = Some r /\ Sessions.epoch_ok r (Sessions.updated v r) = true
    /\ Sessions.row_ok (Sessions.aggregate (Sessions.updated v r)) = true
    /\ S' = map (fun r => if Sessions.matches v e r then Sessions.updated v r else r) S.
Proof.
  unfold Sessions.Update. intros H. destruct (negb _) in H; [discriminate H |].
  destruct (List.find _ S) as [r |] eqn:F; [| discriminate H]. destruct (_ || _) eqn:G in H; [discriminate H |].
  injection H as <-. simp_bool. eauto 10.
Qed.

Lemma session_activated S v e x S' : Sessions.Activate tenant S (Some v) e x = (S', Ok tt) ->
  Session.state v = Session.Active
  /\ exists r, List.find (Sessions.admissible v e) S = Some r /\ Sessions.epoch_ok r (Sessions.activated v x r) = true
    /\ Sessions.row_ok (Sessions.aggregate (Sessions.activated v x r)) = true
    /\ S' = map (fun r => if Sessions.admissible v e r then Sessions.activated v x r else r) S.
Proof.
  unfold Sessions.Activate. intros H. destruct (_ || _) eqn:G0 in H; [discriminate H |].
  destruct (List.find _ S) as [r |] eqn:F; [| discriminate H]. destruct (_ || _) eqn:G in H; [discriminate H |].
  injection H as <-. simp_bool. eauto 10.
Qed.

Lemma session_written_version r v : Sessions.row_ok (Sessions.written r v) = true -> Session.stateVersion v <= max_int64.
Proof. unfold Sessions.row_ok. intros H. simp_bool. cbn in *. by apply bigint_range. Qed.

Lemma session_update_cas S v e S' : Sessions.Update tenant S (Some v) e = (S', Ok tt) ->
  Session.stateVersion v <= max_int64
  /\ (exists r, cas_find (S := Sessions.Session_stored tenant) v e (map Sessions.aggregate S) = Some r)
  /\ map Sessions.aggregate S' = cas_write (S := Sessions.Session_stored tenant) v e (map Sessions.aggregate S).
Proof.
  intros U. apply session_updated in U as (r & F & _ & K & ->). split; [exact (session_written_version _ _ K) |]. split.
  - exists (Sessions.aggregate r). unfold cas_find. rewrite find_map.
    change (List.find _ S) with (List.find (Sessions.matches v e) S). by rewrite F.
  - unfold cas_write. rewrite !map_map. apply map_ext. intros y.
    change (cas_row (S := Sessions.Session_stored tenant) v e (Sessions.aggregate y)) with (Sessions.matches v e y).
    by destruct (Sessions.matches _ _ y).
Qed.

Lemma session_update_ok S held m c v S' :
  session_table (map Sessions.aggregate S) held -> m ∈ held -> Session.exec m c = Ok v ->
  Sessions.Update tenant S (Some v) (Session.stateVersion m) = (S', Ok tt) ->
  session_table (map Sessions.aggregate S') held.
Proof.
  intros T M X U. apply session_update_cas in U as (B & [r F] & ->).
  exact (proj1 (cas_update (S := Sessions.Session_stored tenant) _ _ m c v r T M X F B)).
Qed.

(** [Activate] writes what [Update] would write, for a value that the domain admitted. *)
Lemma activated_written m c v x y : Sessions.row_wf tenant m -> Sessions.round m = m -> Session.exec m c = Ok v ->
  Session.state v = Session.Active -> Sessions.admissible v (Session.stateVersion m) y = true ->
  Sessions.aggregate y = m -> Sessions.aggregate (Sessions.activated v x y) = Sessions.written m v.
Proof.
  intros (_ & W & _) R X V A Y. unfold Sessions.admissible in A. rewrite Y in A.
  unfold Sessions.activated, Sessions.written. cbn [Sessions.aggregate]. rewrite Y, V.
  assert (C : option_map timestamptz (Session.closedAt m) = Session.closedAt m).
  { pose proof (f_equal Session.closedAt R) as E. exact E. }
  apply session_exec_cases in X as [-> | (n & Hn & He & _ & _ & ->)].
  - rewrite V in A. reduce_decide. by simp_bool.
  - cbn [Session.advanced Session.state] in V. subst n. cbn [Session.advanced Session.recoveryState Session.closedAt].
    assert (D : Session.state m <> Session.Degraded)
      by (intros E; rewrite E in A; reduce_decide; by simp_bool).
    rewrite !(bool_decide_false (Session.Active = _)) by done. rewrite (bool_decide_false _ D). by rewrite C.
Qed.

Lemma session_activate_cas S held m c v x S' :
  session_table (map Sessions.aggregate S) held -> m ∈ held -> Session.exec m c = Ok v ->
  Sessions.Activate tenant S (Some v) (Session.stateVersion m) x = (S', Ok tt) ->
  Session.stateVersion v <= max_int64
  /\ (exists r, cas_find (S := Sessions.Session_stored tenant) v (Session.stateVersion m) (map Sessions.aggregate S) = Some r)
  /\ map Sessions.aggregate S'
     = cas_write (S := Sessions.Session_stored tenant) v (Session.stateVersion m) (map Sessions.aggregate S).
Proof.
  intros T M X U. apply session_activated in U as (V & r & F & _ & K & ->).
  set (e := Session.stateVersion m) in *. apply find_some in F as [I Ad]. apply list_elem_of_In in I.
  assert (Ma : Sessions.matches v e r = true) by (unfold Sessions.admissible in Ad; by simp_bool).
  assert (N : NoDup (map (fun y => Session.id (Sessions.aggregate y)) S)) by (rewrite <- (map_map Sessions.aggregate); apply T).
  assert (Only : forall y, y ∈ S -> Sessions.matches v e y = true -> y = r).
  { intros y Y H. apply (keyed _ _ _ _ N Y I). unfold Sessions.matches in *. simp_bool. congruence. }
  assert (F' : cas_find (S := Sessions.Session_stored tenant) v e (map Sessions.aggregate S) = Some (Sessions.aggregate r)).
  { unfold cas_find. rewrite find_map. change (List.find _ S) with (List.find (Sessions.matches v e) S).
    destruct (List.find _ S) as [y |] eqn:G.
    - apply find_some in G as [G1 G2]. apply list_elem_of_In in G1. by rewrite (Only y G1 G2).
    - apply list_elem_of_In in I. by rewrite (find_none _ _ G r I) in Ma. }
  destruct (cas_current (S := Sessions.Session_stored tenant) _ _ m c v _ T M X F') as [Rm Im].
  pose proof (ck_runs _ _ T) as Runs. rewrite Forall_forall in Runs. destruct (stored_run_wf _ (Runs m Im)) as [W R].
  assert (Wr : Sessions.aggregate (Sessions.activated v x r) = Sessions.written m v)
    by (by apply (activated_written m c)).
  rewrite Wr in K. split; [exact (session_written_version _ _ K) |]. split; [by eexists |].
  unfold cas_write. rewrite !map_map. apply map_ext_in. intros y Y. apply list_elem_of_In in Y.
  change (cas_row (S := Sessions.Session_stored tenant) v e (Sessions.aggregate y)) with (Sessions.matches v e y).
  destruct (Sessions.matches v e y) eqn:H.
  - rewrite (Only y Y H), Ad, Wr. by rewrite Rm.
  - unfold Sessions.admissible. by rewrite H.
Qed.

Lemma session_activate_ok S held m c v x S' :
  session_table (map Sessions.aggregate S) held -> m ∈ held -> Session.exec m c = Ok v ->
  Sessions.Activate tenant S (Some v) (Session.stateVersion m) x = (S', Ok tt) ->
  session_table (map Sessions.aggregate S') held.
Proof.
  intros T M X U. destruct (session_activate_cas _ _ _ _ _ _ _ T M X U) as (B & [r F] & ->).
  exact (proj1 (cas_update (S := Sessions.Session_stored tenant) _ _ m c v r T M X F B)).
Qed.

(** The text of a [jsonb] object is a JSON object. *)
Hypothesis jsonb_object : forall s p, jsonb_text s = Some p -> object_column p = true -> validJSONObject p 65536 = true.

(** The stored documents are documents that the domain accepts. *)
Lemma session_binding_stored b p q : Session.validateBinding b = Ok tt ->
  validJSONObject p 65536 = true -> validJSONObject q 65536 = true ->
  Session.validateBinding
    (Session.mkRuntimeBinding (Session.AuthorityMode b) (Session.AuthorityNamespace b) (Session.AgentID b)
       (Session.AgentVersionID b) (Session.RuntimeSpecSchemaVersion b) p (Session.RuntimeSpecDigest b)
       (Session.RuntimeProfileSchemaVersion b) q (Session.RuntimeProfileDigest b)) = Ok tt.
Proof.
  unfold Session.validateBinding. intros H P Q.
  cbn [Session.AuthorityMode Session.AuthorityNamespace Session.AgentID Session.AgentVersionID
    Session.RuntimeSpecSchemaVersion Session.RuntimeSpec Session.RuntimeSpecDigest
    Session.RuntimeProfileSchemaVersion Session.RuntimeProfileSnapshot Session.RuntimeProfileDigest].
  rewrite P, Q. repeat case_match; done.
Qed.

Lemma session_inserted_new i b now v s : Session.New tenant i b now = Ok v -> 1000 <= nanos now ->
  Sessions.inserted jsonb_text v = Some s -> Sessions.row_ok s = true ->
  Sessions.row_new tenant s /\ Session.stateVersion s = 0.
Proof.
  intros N L I K. unfold Session.New in N. ok_inv N. unfold Sessions.inserted in I. cbn [Session.binding] in I.
  destruct (jsonb_text (Session.RuntimeSpec _)) as [p |] eqn:J1; [| discriminate I].
  destruct (jsonb_text (Session.RuntimeProfileSnapshot _)) as [q |] eqn:J2; [| discriminate I].
  injection I as <-. split; [| done].
  assert (P : validJSONObject p 65536 = true /\ validJSONObject q 65536 = true).
  { unfold Sessions.row_ok, Sessions.binding_columns in K. cbn [Session.binding Session.RuntimeSpec
      Session.RuntimeProfileSnapshot Sessions.round] in K. simp_bool. eauto. }
  split; [| cbn; by rewrite timestamptz_again].
  unfold Session.New. cbn [Sessions.round Session.id Session.binding Session.createdAt].
  change (Session.cloneBinding b) with b. destruct a. rewrite Heqb0, Heqb1. cbn [negb].
  rewrite session_binding_stored by tauto. change (timestamptz (UTC now)) with (timestamptz now).
  rewrite (insert_time now L). done.
Qed.

Lemma session_add_ok S held i b now v S' :
  session_table (map Sessions.aggregate S) held -> Session.New tenant i b now = Ok v -> 1000 <= nanos now ->
  Sessions.Add jsonb_text tenant S (Some v) = (S', Ok tt) -> session_table (map Sessions.aggregate S') held.
Proof.
  intros T N L H. unfold Sessions.Add in H. destruct (negb _) in H; [discriminate H |].
  destruct (Sessions.inserted jsonb_text v) as [s |] eqn:I; [| discriminate H].
  destruct (negb _) eqn:K in H; [discriminate H |]. destruct (is_some _) eqn:F in H; [discriminate H |].
  injection H as <-. apply not_found in F. simp_bool.
  destruct (session_inserted_new i b now v s N L I K) as [Ns V]. cbn [map Sessions.aggregate].
  apply (cas_add (S := Sessions.Session_stored tenant)); try done.
  - cbn. rewrite V. unfold max_int64. lia.
  - by rewrite map_map.
Qed.

(** A row is read back as it is. *)
Lemma session_get S held i : session_table (map Sessions.aggregate S) held ->
  Sessions.row_of i S = None \/ exists r, Sessions.row_of i S = Some r /\ r ∈ S /\ Session.id (Sessions.aggregate r) = i
    /\ Sessions.Get tenant S i = Ok (Sessions.aggregate r).
Proof.
  intros T. unfold Sessions.Get. destruct (Sessions.row_of i S) as [r |] eqn:F; [right; exists r | by left].
  unfold Sessions.row_of in F. apply find_some in F as [I E]. apply list_elem_of_In in I. apply bool_decide_eq_true in E.
  split_and!; try done. pose proof (ck_runs _ _ T) as Runs. pose proof (ck_versions _ _ T) as B.
  rewrite Forall_forall in Runs, B. assert (M : Sessions.aggregate r ∈ map Sessions.aggregate S) by by apply list_elem_of_fmap_2.
  destruct (stored_run_wf _ (Runs _ M)) as [(Tn & W & _) _]. rewrite <- E, <- Tn.
  rewrite session_restore_wf; [done | done |]. by destruct (B _ M).
Qed.

(** ** Executions *)

Lemma execution_updated E v e E' : Executions.Update tenant E (Some v) e = (E', Ok tt) ->
  exists r, List.find (Executions.matches v e) E = Some r /\ Executions.row_ok (Executions.written r v) = true
    /\ E' = map (fun r => if Executions.matches v e r then Executions.written r v else r) E.
Proof.
  unfold Executions.Update. intros H. destruct (negb _) in H; [discriminate H |].
  destruct (List.find _ E) as [r |] eqn:F; [| discriminate H]. destruct (negb _) eqn:G in H; [discriminate H |].
  destruct (existsb _ _) in H; [discriminate H |]. injection H as <-. simp_bool. eauto 10.
Qed.

Lemma execution_update_ok E held m c v E' :
  execution_table E held -> m ∈ held -> Execution.exec m c = Ok v ->
  Executions.Update tenant E (Some v) (Execution.stateVersion m) = (E', Ok tt) ->
  execution_table E' held
  /\ m ∈ E /\ forall x, x ∈ E' -> (x ∈ E /\ Execution.id x <> Execution.id m) \/ x = Executions.round v.
Proof.
  intros T M X U. apply execution_updated in U as (r & F & K & ->).
  destruct (cas_current (S := Executions.Execution_stored tenant) _ _ m c v r T M X F) as [_ I].
  assert (B : Execution.stateVersion v <= max_int64)
    by (unfold Executions.row_ok in K; simp_bool; cbn in *; by apply bigint_range).
  destruct (cas_update (S := Executions.Execution_stored tenant) _ _ m c v r T M X F B) as [C D].
  split_and!; [exact C | exact I | exact D].
Qed.

Lemma execution_binding_stored b p : Execution.validBinding b = true -> validJSONObject p 65536 = true ->
  Execution.validBinding
    (Execution.mkBinding (Execution.SessionID b) (Execution.SessionGeneration b) (Execution.AuthorityMode b)
       (Execution.AuthorityNamespace b) (Execution.AuthorityReference b) (Execution.ExternalRunID b)
       (Execution.GrantDigest b) (Execution.AgentID b) (Execution.AgentVersionID b) p
       (Execution.AgentEvidenceDigest b)) = true.
Proof.
  unfold Execution.validBinding. intros H P.
  cbn [Execution.AuthorityMode Execution.AuthorityNamespace Execution.AuthorityReference Execution.ExternalRunID
    Execution.GrantDigest Execution.AgentID Execution.AgentVersionID Execution.AgentEvidence
    Execution.AgentEvidenceDigest]. rewrite P.
  rewrite !andb_true_iff in *. tauto.
Qed.

Lemma execution_inserted_new i b dl now v e : Execution.New tenant i b dl now = Ok v -> 1000 <= nanos now ->
  Executions.inserted jsonb_text v = Some e -> Executions.row_ok e = true ->
  Executions.row_new tenant e /\ Execution.stateVersion e = 0.
Proof.
  intros N L I K. unfold Execution.New in N. ok_inv N. unfold Executions.inserted in I. cbn [Execution.binding] in I.
  destruct (jsonb_text (Execution.AgentEvidence _)) as [p |] eqn:J; [| discriminate I].
  injection I as <-. split; [| done].
  assert (P : validJSONObject p 65536 = true
              /\ nanos (timestamptz now) < nanos (timestamptz dl)).
  { unfold Executions.row_ok, Executions.binding_columns in K. Executions.execution_fields.
    cbn [Execution.AgentEvidence] in K. simp_bool. split; [eauto |].
    match goal with H : After _ _ = true |- _ => apply Z.ltb_lt in H; exact H end. }
  destruct P as [P D]. pose proof (timestamptz_le now) as Ln.
  split; [| cbn [Execution.createdAt Execution.deadline]; by rewrite !timestamptz_again].
  unfold Execution.New. Executions.execution_fields. cbn [Execution.SessionID Execution.SessionGeneration].
  change (Execution.cloneBinding b) with b. rewrite execution_binding_stored by done.
  change (timestamptz (UTC now)) with (timestamptz now). change (timestamptz (UTC dl)) with (timestamptz dl).
  rewrite H, H5, H6, bool_decide_false, (insert_time now L) by done.
  rewrite (insert_time dl) by tlia. unfold After. replace (_ <? _) with true by lia. done.
Qed.

Lemma execution_add_ok S E held i b dl now v E' :
  execution_table E held -> Execution.New tenant i b dl now = Ok v -> 1000 <= nanos now ->
  Executions.Add jsonb_text tenant S E (Some v) = (E', Ok tt) ->
  execution_table E' held /\ exists e, E' = e :: E.
Proof.
  intros T N L H. unfold Executions.Add in H. destruct (negb _) in H; [discriminate H |].
  destruct (Executions.inserted jsonb_text v) as [e |] eqn:I; [| discriminate H].
  destruct (negb _) eqn:K in H; [discriminate H |]. destruct (existsb _ E) eqn:F in H; [discriminate H |].
  destruct (negb _) in H; [discriminate H |]. injection H as <-. simp_bool. split; [| by exists e].
  destruct (execution_inserted_new i b dl now v e N L I K) as [Ns V].
  apply (cas_add (S := Executions.Execution_stored tenant)); try done.
  - cbn. rewrite V. unfold max_int64. lia.
  - intros X. apply list_elem_of_fmap in X as (x & Ex & X). apply list_elem_of_In in X.
    assert (existsb (Executions.collides e) E = true) as G; [| by rewrite F in G].
    apply existsb_exists. exists x. split; [done |]. unfold Executions.collides. cbn in Ex.
    by rewrite bool_decide_true.
Qed.

Lemma execution_get E held i : execution_table E held ->
  Executions.row_of i E = None \/ exists r, Executions.row_of i E = Some r /\ r ∈ E /\ Execution.id r = i
    /\ Executions.Get tenant E i = Ok r.
Proof.
  intros T. unfold Executions.Get. destruct (Executions.row_of i E) as [r |] eqn:F; [right; exists r | by left].
  unfold Executions.row_of in F. apply find_some in F as [I Er]. apply list_elem_of_In in I. apply bool_decide_eq_true in Er.
  split_and!; try done. pose proof (ck_runs _ _ T) as Runs. rewrite Forall_forall in Runs.
  destruct (stored_run_wf _ (Runs _ I)) as [(Tn & W & _) _]. rewrite <- Er, <- Tn. by rewrite execution_restore_wf.
Qed.

(** ** Attempts *)

Lemma attempt_updated S E A v e A' : Attempts.Update tenant S E A (Some v) e = (A', Ok tt) ->
  exists r, List.find (Attempts.matches v e) A = Some r /\ Attempts.row_ok (Attempts.written r v) = true
    /\ Attempts.fence_ok S E (Attempts.written r v) (Attempt.current r) = true
    /\ A' = map (fun r => if Attempts.matches v e r then Attempts.written r v else r) A.
Proof.
  unfold Attempts.Update. intros H. destruct (negb _) in H; [discriminate H |]. destruct (negb _) in H; [discriminate H |].
  destruct (List.find _ A) as [r |] eqn:F; [| discriminate H]. cbn zeta in H.
  destruct (_ || _) eqn:G in H; [discriminate H |].
  destruct (existsb _ _) in H; [discriminate H |]. injection H as <-. simp_bool. by exists r.
Qed.

Lemma attempt_update_ok S E A held m c v A' :
  attempt_table A held -> m ∈ held -> Attempt.exec m c = Ok v ->
  Attempts.Update tenant S E A (Some v) (Attempt.stateVersion m) = (A', Ok tt) -> attempt_table A' held.
Proof.
  intros T M X U. apply attempt_updated in U as (r & F & K & _ & ->).
  assert (B : Attempt.stateVersion v <= max_int64)
    by (unfold Attempts.row_ok in K; simp_bool; cbn in *; by apply bigint_range).
  exact (proj1 (cas_update (S := Attempts.Attempt_stored tenant) _ _ m c v r T M X F B)).
Qed.

Lemma attempt_added S E A v A' : Attempts.Add tenant S E A (Some v) = (A', Ok tt) ->
  Attempts.fence_ok S E (Attempts.inserted v) (Attempt.current v) = true
  /\ existsb (Attempts.collides (Attempts.inserted v)) A = false /\ A' = Attempts.inserted v :: A.
Proof.
  unfold Attempts.Add. intros H. destruct (negb _) in H; [discriminate H |]. destruct (negb _) in H; [discriminate H |].
  cbn zeta in H. destruct (_ || _) eqn:G in H; [discriminate H |]. destruct (existsb _ A) eqn:F in H; [discriminate H |].
  injection H as <-. simp_bool. eauto.
Qed.

Lemma attempt_inserted_new i b now v : Attempt.New tenant i b now = Ok v -> 1000 <= nanos now ->
  Attempts.row_new tenant (Attempts.inserted v) /\ Attempt.stateVersion v = 0.
Proof.
  intros N L. unfold Attempt.New in N. ok_inv N. split; [| done].
  split; [| cbn [Attempts.inserted Attempt.createdAt]; by rewrite timestamptz_again].
  unfold Attempt.New, Attempts.inserted. attempt_fields. rewrite H, H3, H4, !bool_decide_false by done.
  change (timestamptz (UTC now)) with (timestamptz now). by rewrite (insert_time now L).
Qed.

Lemma attempt_add_ok S E A held i b now v A' :
  attempt_table A held -> Attempt.New tenant i b now = Ok v -> 1000 <= nanos now ->
  Attempts.Add tenant S E A (Some v) = (A', Ok tt) -> attempt_table A' held.
Proof.
  intros T N L H. apply attempt_added in H as (_ & F & ->). destruct (attempt_inserted_new i b now v N L) as [Ns V].
  apply (cas_add (S := Attempts.Attempt_stored tenant)); try done.
  - cbn. rewrite V. unfold max_int64. lia.
  - intros X. apply list_elem_of_fmap in X as (x & Ex & X). apply list_elem_of_In in X.
    assert (existsb (Attempts.collides (Attempts.inserted v)) A = true) as G; [| by rewrite F in G].
    apply existsb_exists. exists x. split; [done |]. unfold Attempts.collides. cbn in Ex. cbn.
    by rewrite bool_decide_true.
Qed.

Lemma attempt_get A held i : attempt_table A held ->
  Attempts.row_of i A = None \/ exists r, Attempts.row_of i A = Some r /\ r ∈ A /\ Attempt.id r = i
    /\ Attempts.Get tenant A i = Ok r.
Proof.
  intros T. unfold Attempts.Get. destruct (Attempts.row_of i A) as [r |] eqn:F; [right; exists r | by left].
  unfold Attempts.row_of in F. apply find_some in F as [I Er]. apply list_elem_of_In in I. apply bool_decide_eq_true in Er.
  split_and!; try done. pose proof (ck_runs _ _ T) as Runs. rewrite Forall_forall in Runs.
  destruct (stored_run_wf _ (Runs _ I)) as [(Tn & W & _) _]. rewrite <- Er, <- Tn. by rewrite attempt_restore_wf.
Qed.

(** ** Histories *)

Lemma fresh_consistent : consistent fresh.
Proof. split; apply cas_empty. Qed.

Lemma step_consistent x y : consistent x -> step x y -> consistent y.
Proof.
  intros [C1 C2 C3] H. destruct H; cbn [fst snd sessions executions attempts read_sessions read_executions read_attempts] in *;
    split; cbn [fst snd sessions executions attempts read_sessions read_executions read_attempts]; try done.
  - by eapply session_add_ok.
  - destruct (session_get S HS i C1) as [F | (r & F & I & _ & G)]; [unfold Sessions.Get in H; rewrite F in H; discriminate H |].
    rewrite G in H. injection H as <-. apply cas_get; [done | by apply list_elem_of_fmap_2].
  - by eapply session_update_ok.
  - by eapply session_activate_ok.
  - by eapply execution_add_ok.
  - destruct (execution_get E HE i C2) as [F | (r & F & I & _ & G)]; [unfold Executions.Get in H; rewrite F in H; discriminate H |].
    rewrite G in H. injection H as <-. by apply cas_get.
  - by eapply execution_update_ok.
  - by eapply attempt_add_ok.
  - destruct (attempt_get A HA i C3) as [F | (r & F & I & _ & G)]; [unfold Attempts.Get in H; rewrite F in H; discriminate H |].
    rewrite G in H. injection H as <-. by apply cas_get.
  - by eapply attempt_update_ok.
Qed.

Lemma runtime_history_consistent x y : consistent x -> rtc step x y -> consistent y.
Proof. intros C H. induction H; eauto using step_consistent. Qed.

(** ** Fences *)

(** Execution [x] is terminal, or its session has admitted a later one. *)
Definition fenced_off (d : DB) (x : ID) : Prop :=
  exists e s, e ∈ executions d /\ Execution.id e = x
    /\ s ∈ sessions d /\ Session.id (Sessions.aggregate s) = Execution.SessionID (Execution.binding e)
    /\ (Execution.isTerminal (Execution.state e) = true
        \/ Execution.SessionGeneration (Execution.binding e) < Session.executionGeneration (Sessions.aggregate s)).

Definition attempts_of (x : ID) (A : list Attempt.Attempt) : list Attempt.Attempt :=
  List.filter (fun a => Attempt.ExecutionID (Attempt.binding a) == x) A.

(** A session keeps its identifier and its generation does not go back. *)
Definition advances (S S' : list Sessions.Row) : Prop :=
  forall s, s ∈ S -> exists s', s' ∈ S' /\ Session.id (Sessions.aggregate s') = Session.id (Sessions.aggregate s)
    /\ Session.executionGeneration (Sessions.aggregate s) <= Session.executionGeneration (Sessions.aggregate s').

Lemma epoch_monotone o n : Sessions.epoch_ok o n = true ->
  Session.executionGeneration (Sessions.aggregate o) <= Session.executionGeneration (Sessions.aggregate n).
Proof. unfold Sessions.epoch_ok. intros H. simp_bool. lia. Qed.

(** A statement that replaces one row by one that the trigger accepts. *)
Lemma replace_advances S (p : Sessions.Row -> bool) f r : NoDup (map (fun y => Session.id (Sessions.aggregate y)) S) ->
  (forall y, p y = true -> y ∈ S -> y = r) -> Sessions.epoch_ok r (f r) = true ->
  (forall y, Session.id (Sessions.aggregate (f y)) = Session.id (Sessions.aggregate y)) ->
  advances S (map (fun y => if p y then f y else y) S).
Proof.
  intros N O K I s Hs. exists (if p s then f s else s). split; [by apply (list_elem_of_fmap_2 (fun y => if p y then f y else y)) |].
  destruct (p s) eqn:P; [| done]. rewrite (O s P Hs). split; [apply I | by apply epoch_monotone].
Qed.

Lemma session_matches_only S v e r y : NoDup (map (fun y => Session.id (Sessions.aggregate y)) S) -> r ∈ S ->
  Sessions.matches v e r = true -> Sessions.matches v e y = true -> y ∈ S -> y = r.
Proof. intros N I H1 H2 Y. apply (keyed _ _ _ _ N Y I). unfold Sessions.matches in *. simp_bool. congruence. Qed.

Lemma update_advances S held v e S' : session_table (map Sessions.aggregate S) held ->
  Sessions.Update tenant S (Some v) e = (S', Ok tt) -> advances S S'.
Proof.
  intros T U. apply session_updated in U as (r & F & K & _ & ->). apply find_some in F as [I M].
  apply list_elem_of_In in I. pose proof (ck_ids _ _ T) as N. rewrite map_map in N.
  apply (replace_advances _ _ _ r N); [| done | done]. intros y H Y. by apply (session_matches_only S v e).
Qed.

Lemma activate_advances S held v e x S' : session_table (map Sessions.aggregate S) held ->
  Sessions.Activate tenant S (Some v) e x = (S', Ok tt) -> advances S S'.
Proof.
  intros T U. apply session_activated in U as (_ & r & F & K & _ & ->). apply find_some in F as [I M].
  apply list_elem_of_In in I. pose proof (ck_ids _ _ T) as N. rewrite map_map in N.
  apply (replace_advances _ _ _ r N); [| done | done]. intros y H Y. unfold Sessions.admissible in *. simp_bool.
  by apply (session_matches_only S v e).
Qed.

Lemma fenced_sessions S S' E A x : advances S S' -> fenced_off (mkDB S E A) x -> fenced_off (mkDB S' E A) x.
Proof.
  intros Ad (e & s & I & X & J & Y & F). destruct (Ad s J) as (s' & J' & Y' & G). exists e, s'.
  cbn [executions sessions] in *. split_and!; try done; [congruence |]. destruct F as [F | F]; [by left | right; lia].
Qed.

(** A terminal execution is not changed. *)
Lemma fenced_executions S E A held m c v E' x : execution_table E held -> m ∈ held -> Execution.exec m c = Ok v ->
  Executions.Update tenant E (Some v) (Execution.stateVersion m) = (E', Ok tt) ->
  fenced_off (mkDB S E A) x -> fenced_off (mkDB S E' A) x.
Proof.
  intros T M X U (e & s & I & Ex & J & Y & F). pose proof U as U'. apply execution_updated in U' as (r & Fr & _ & ->).
  destruct (cas_current (S := Executions.Execution_stored tenant) _ _ m c v r T M X Fr) as [-> Im].
  exists (if Executions.matches v (Execution.stateVersion m) e then Executions.written e v else e), s.
  cbn [executions sessions] in *.
  split; [apply (list_elem_of_fmap_2 (fun r => if Executions.matches v (Execution.stateVersion m) r
            then Executions.written r v else r)); exact I |].
  destruct (Executions.matches v (Execution.stateVersion m) e) eqn:H; [| done]. split_and!; try done.
  destruct F as [F | F]; [left | by right].
  assert (e = m) as ->.
  { apply (keyed _ _ _ _ (ck_ids _ _ T) I Im). apply find_some in Fr as [_ Fr]. cbn.
    unfold Executions.matches in *. simp_bool. congruence. }
  apply execution_exec_cases in X as [-> | (n & L & _)]; [done |].
  apply execution_legal_not_terminal in L. congruence.
Qed.

(** No fence opens again. *)
Lemma step_fenced x y i : consistent x -> step x y -> fenced_off x.1 i -> fenced_off y.1 i.
Proof.
  intros [C1 C2 C3] H F. destruct H; cbn [fst snd sessions executions attempts read_sessions read_executions] in *; try done.
  - unfold Sessions.Add in H1. eapply fenced_sessions; [| exact F]. intros s Hs. exists s. split; [| done].
    repeat case_match; simplify_eq. by right.
  - eapply fenced_sessions; [by eapply update_advances | done].
  - eapply fenced_sessions; [by eapply activate_advances | done].
  - destruct (execution_add_ok _ _ _ _ _ _ _ _ _ C2 H H0 H1) as [_ [e ->]].
    destruct F as (e0 & s & I & F). exists e0, s. split; [by right | done].
  - by eapply fenced_executions.
Qed.

(** A fence that is closed refuses every mutation. *)
Lemma fence_refuses S E A a was held hs : execution_table E held -> session_table (map Sessions.aggregate S) hs ->
  fenced_off (mkDB S E A) (Attempt.ExecutionID (Attempt.binding a)) -> Attempts.fence_ok S E a was = false.
Proof.
  intros TE TS (e & s & I & X & J & Y & F). cbn [executions sessions] in *. unfold Attempts.fence_ok.
  destruct (execution_get E held (Attempt.ExecutionID (Attempt.binding a)) TE) as [N | (r & -> & Ir & Er & _)].
  { by rewrite N. }
  assert (r = e) as -> by (apply (keyed _ _ _ _ (ck_ids _ _ TE) Ir I); cbn; congruence).
  destruct (session_get S hs (Execution.SessionID (Execution.binding e)) TS) as [N | (q & -> & Iq & Eq & _)].
  { by rewrite N. }
  assert (q = s) as ->.
  { pose proof (ck_ids _ _ TS) as N. rewrite map_map in N. apply (keyed _ _ _ _ N Iq J). cbn. congruence. }
  destruct F as [F | F].
  - destruct (Execution.state e); try discriminate F; cbn; by rewrite !andb_false_r.
  - replace (_ =? Execution.SessionGeneration _) with false by lia. by rewrite !andb_false_r.
Qed.

Lemma step_frozen x y i : consistent x -> step x y -> fenced_off x.1 i ->
  attempts_of i (attempts y.1) = attempts_of i (attempts x.1).
Proof.
  intros [C1 C2 C3] H F. destruct H; cbn [fst snd sessions executions attempts read_attempts] in *; try done.
  - apply attempt_added in H1 as (K & _ & ->). unfold attempts_of. cbn [List.filter Attempts.inserted Attempt.binding].
    destruct (bool_decide_reflect (Attempt.ExecutionID (Attempt.binding v) = i)) as [<- | _]; [| done].
    rewrite (fence_refuses S E A (Attempts.inserted v) _ _ _ C2 C1 F) in K. discriminate K.
  - apply attempt_updated in H1 as (r & Fr & _ & K & ->). apply find_some in Fr as [Ir Mr]. apply list_elem_of_In in Ir.
    assert (O : forall y, y ∈ A -> Attempts.matches v (Attempt.stateVersion m) y = true ->
                Attempt.ExecutionID (Attempt.binding y) <> i).
    { intros y Y My. assert (y = r) as ->.
      { apply (keyed _ _ _ _ (ck_ids _ _ C3) Y Ir). cbn. unfold Attempts.matches in *. simp_bool. congruence. }
      intros <-. rewrite (fence_refuses S E A (Attempts.written r v) _ _ _ C2 C1 F) in K. discriminate K. }
    clear - O. induction A as [| a A IH]; [done |]. unfold attempts_of in *. cbn [map List.filter].
    rewrite IH by (intros y Y; apply O; by right).
    destruct (Attempts.matches v (Attempt.stateVersion m) a) eqn:Ma; [| done].
    pose proof (O a ltac:(left) Ma) as N. cbn [Attempts.written Attempt.binding].
    by rewrite bool_decide_false.
Qed.

Lemma session_row S held r : session_table (map Sessions.aggregate S) held -> r ∈ S ->
  Session.wf (Sessions.aggregate r) /\ stored_run (S := Sessions.Session_stored tenant) (Sessions.aggregate r)
  /\ Sessions.Get tenant S (Session.id (Sessions.aggregate r)) = Ok (Sessions.aggregate r).
Proof.
  intros T I. pose proof (ck_runs _ _ T) as Runs. pose proof (ck_ids _ _ T) as N. rewrite map_map in N.
  rewrite Forall_forall in Runs. pose proof (Runs _ (list_elem_of_fmap_2 Sessions.aggregate S r I)) as Rr.
  destruct (stored_run_wf _ Rr) as [(_ & W & _) _]. split_and!; try done.
  destruct (session_get S held (Session.id (Sessions.aggregate r)) T) as [F | (q & _ & Q & Eq & ->)].
  - apply list_elem_of_In in I. pose proof (find_none _ _ F r I) as G. cbn in G. by rewrite bool_decide_true in G.
  - by rewrite (keyed _ _ _ _ N Q I Eq).
Qed.

Lemma execution_row E held r : execution_table E held -> r ∈ E ->
  Execution.wf r /\ stored_run (S := Executions.Execution_stored tenant) r
  /\ Executions.Get tenant E (Execution.id r) = Ok r.
Proof.
  intros T I. pose proof (ck_runs _ _ T) as Runs. rewrite Forall_forall in Runs. pose proof (Runs _ I) as Rr.
  destruct (stored_run_wf _ Rr) as [(_ & W & _) _]. split_and!; try done.
  destruct (execution_get E held (Execution.id r) T) as [F | (q & _ & Q & Eq & ->)].
  - apply list_elem_of_In in I. pose proof (find_none _ _ F r I) as G. cbn in G. by rewrite bool_decide_true in G.
  - by rewrite (keyed _ _ _ _ (ck_ids _ _ T) Q I Eq).
Qed.

Lemma attempt_row A held r : attempt_table A held -> r ∈ A ->
  Attempt.wf r /\ stored_run (S := Attempts.Attempt_stored tenant) r
  /\ Attempts.Get tenant A (Attempt.id r) = Ok r.
Proof.
  intros T I. pose proof (ck_runs _ _ T) as Runs. rewrite Forall_forall in Runs. pose proof (Runs _ I) as Rr.
  destruct (stored_run_wf _ Rr) as [(_ & W & _) _]. split_and!; try done.
  destruct (attempt_get A held (Attempt.id r) T) as [F | (q & _ & Q & Eq & ->)].
  - apply list_elem_of_In in I. pose proof (find_none _ _ F r I) as G. cbn in G. by rewrite bool_decide_true in G.
  - by rewrite (keyed _ _ _ _ (ck_ids _ _ T) Q I Eq).
Qed.

(** ** Writing back *)

(** What the tables of sessions show of a statement. *)
Definition shown (x : list Sessions.Row * result StoreError unit) : list Session.Session * result StoreError unit :=
  (map Sessions.aggregate (fst x), snd x).

Lemma sessions_kept S held : session_table (map Sessions.aggregate S) held ->
  updates_kept (S := Sessions.Session_stored tenant) (map Sessions.aggregate S) held
    (fun v e => shown (Sessions.Update tenant S (Some v) e)).
Proof.
  intros T. apply cas_updates_kept; [done | |].
  - intros v e t' x H. unfold shown, Sessions.Update in H. repeat case_match; simplify_eq/=; done.
  - intros m c v t' u M X H. unfold shown in H. destruct (Sessions.Update _ _ _ _) as [S' r] eqn:U. destruct u.
    cbn [fst snd] in H. injection H as <- ->. by apply session_update_cas in U as (_ & F & E).
Qed.

Lemma activations_kept S held x : session_table (map Sessions.aggregate S) held ->
  updates_kept (S := Sessions.Session_stored tenant) (map Sessions.aggregate S) held
    (fun v e => shown (Sessions.Activate tenant S (Some v) e x)).
Proof.
  intros T. apply cas_updates_kept; [done | |].
  - intros v e t' y H. unfold shown, Sessions.Activate in H. repeat case_match; simplify_eq/=; done.
  - intros m c v t' u M X H. unfold shown in H. destruct (Sessions.Activate _ _ _ _ _) as [S' r] eqn:U. destruct u.
    cbn [fst snd] in H. injection H as <- ->. by destruct (session_activate_cas _ _ _ _ _ _ _ T M X U) as (_ & F & E).
Qed.

Lemma executions_kept E held : execution_table E held ->
  updates_kept (S := Executions.Execution_stored tenant) E held (fun v e => Executions.Update tenant E (Some v) e).
Proof.
  intros T. apply cas_updates_kept; [done | |].
  - intros v e t' x H. unfold Executions.Update in H. repeat case_match; simplify_eq/=; done.
  - intros m c v t' u M X H. destruct u. apply execution_updated in H as (r & F & _ & ->). split; [by exists r | done].
Qed.

Lemma attempts_kept S E A held : attempt_table A held ->
  updates_kept (S := Attempts.Attempt_stored tenant) A held (fun v e => Attempts.Update tenant S E A (Some v) e).
Proof.
  intros T. apply cas_updates_kept; [done | |].
  - intros v e t' x H. unfold Attempts.Update in H. repeat case_match; simplify_eq/=; done.
  - intros m c v t' u M X H. destruct u. apply attempt_updated in H as (r & F & _ & _ & ->). split; [by exists r | done].
Qed.

(** C3: Storage refines the domain: after any history of the repositories, with any number
    of callers that read and write back at any distance, every session, execution and
    attempt row is well formed, is the outcome of a run of the domain's commands from a
    newly created aggregate (each outcome kept in the resolution of its columns), and
    [Get] returns exactly that row, so no row is unreadable.  And no update is lost: every
    value that a caller has read is still the row, or an earlier version of it; when the
    caller writes back the outcome of a command on that value, through [Update] or
    [Activate], the statement either succeeds, and then the row was still the very value that
    was read and becomes the caller's outcome, all other rows staying as they are, or fails
    and changes nothing. *)
Theorem runtime_store_refines d h (H : rtc step fresh (d, h)) :
  (forall r, r ∈ sessions d -> Session.wf (Sessions.aggregate r)
     /\ stored_run (S := Sessions.Session_stored tenant) (Sessions.aggregate r)
     /\ Sessions.Get tenant (sessions d) (Session.id (Sessions.aggregate r)) = Ok (Sessions.aggregate r))
  /\ (forall e, e ∈ executions d -> Execution.wf e /\ stored_run (S := Executions.Execution_stored tenant) e
     /\ Executions.Get tenant (executions d) (Execution.id e) = Ok e)
  /\ (forall a, a ∈ attempts d -> Attempt.wf a /\ stored_run (S := Attempts.Attempt_stored tenant) a
     /\ Attempts.Get tenant (attempts d) (Attempt.id a) = Ok a)
  /\ updates_kept (S := Sessions.Session_stored tenant) (map Sessions.aggregate (sessions d)) (read_sessions h)
       (fun v e => shown (Sessions.Update tenant (sessions d) (Some v) e))
  /\ (forall x, updates_kept (S := Sessions.Session_stored tenant) (map Sessions.aggregate (sessions d)) (read_sessions h)
       (fun v e => shown (Sessions.Activate tenant (sessions d) (Some v) e x)))
  /\ updates_kept (S := Executions.Execution_stored tenant) (executions d) (read_executions h)
       (fun v e => Executions.Update tenant (executions d) (Some v) e)
  /\ updates_kept (S := Attempts.Attempt_stored tenant) (attempts d) (read_attempts h)
       (fun v e => Attempts.Update tenant (sessions d) (executions d) (attempts d) (Some v) e).
Proof.
  destruct (runtime_history_consistent _ _ fresh_consistent H) as [C1 C2 C3]. cbn [fst snd] in *.
  split_and!; eauto using session_row, execution_row, attempt_row, sessions_kept, activations_kept, executions_kept, attempts_kept.
Qed.

(** C4: Fencing: in any history of the repositories, from the moment an execution is terminal
    or its session has admitted a later execution, no statement adds an attempt to that
    execution or changes one of its attempts. *)
Theorem attempts_frozen d h d' h' i (R : rtc step fresh (d, h)) (H : rtc step (d, h) (d', h')) (F : fenced_off d i) :
  attempts_of i (attempts d') = attempts_of i (attempts d).
Proof.
  pose proof (runtime_history_consistent _ _ fresh_consistent R) as C. clear R.
  change d with (d, h).1 in F. change (attempts_of i (attempts (d', h').1) = attempts_of i (attempts (d, h).1)).
  induction H as [x | x y z S _ IH]; [done |].
  rewrite IH; [by apply step_frozen | by eapply step_fenced | by eapply step_consistent].
Qed.

End History.

(** ** Witnesses *)

(** One document per value: the text as it was written. *)
Definition ex_jsonb (s : string) : option string := if validJSONObject s 65536 then Some s else None.

Lemma ex_jsonb_object s p : ex_jsonb s = Some p -> object_column p = true -> validJSONObject p 65536 = true.
Proof. unfold ex_jsonb. intros H _. by destruct (validJSONObject s 65536) eqn:V; simplify_eq. Qed.

Definition ex_execution : Execution.Execution :=
  Execution.mkExecution id1 id3
    (Execution.mkBinding id2 1 "LOCAL" "thinkpixelar/local" "grant-1" "" digest_a "agent" "agent-1" "{}" digest_b)
    (at_second 100) Execution.Queued 0 None (at_second 3) (at_second 3) None.

Definition ex_materializing : Execution.Execution :=
  Execution.advanced ex_execution Execution.Materializing None (at_second 4).

Definition ex_over : Execution.Execution :=
  Execution.advanced ex_materializing Execution.Failed (Some Execution.ex_result) (at_second 6).

Definition ex_attempt : Attempt.Attempt :=
  Attempt.mkAttempt id1 id4 (Attempt.mkBinding id3 1 1) Attempt.Pending 0 true "" "" None None None
    (at_second 5) (at_second 5) None.

Definition ex_reads : Reads := mkReads [Session.ex1; Session.ex0] [ex_materializing; ex_execution] [].

(** A session that is admitted, its execution that fails, and an attempt of it. *)
Definition ex_db : DB := mkDB [Sessions.mkRow Session.ex2 id3] [ex_over] [ex_attempt].

Lemma ex_runtime_history : rtc (step id1 ex_jsonb) fresh (ex_db, ex_reads).
Proof.
  eapply rtc_l; [exact (add_session id1 ex_jsonb [] [] [] (mkReads [] [] []) id2 Session.ex_binding (at_second 0) Session.ex0
    [Sessions.mkRow Session.ex0 ""] ltac:(vm_compute; reflexivity) ltac:(vm_compute; discriminate) ltac:(vm_compute; reflexivity)) |].
  eapply rtc_l; [exact (get_session id1 ex_jsonb [Sessions.mkRow Session.ex0 ""] [] [] [] [] [] id2 Session.ex0 ltac:(vm_compute; reflexivity)) |].
  eapply rtc_l; [exact (update_session id1 ex_jsonb [Sessions.mkRow Session.ex0 ""] [] [] (mkReads [Session.ex0] [] []) Session.ex0
    (Session.mkCommand "READY" 0 (at_second 1)) Session.ex1 [Sessions.mkRow Session.ex1 ""] ltac:(left) ltac:(vm_compute; reflexivity) ltac:(vm_compute; reflexivity)) |].
  eapply rtc_l; [exact (get_session id1 ex_jsonb [Sessions.mkRow Session.ex1 ""] [] [] [Session.ex0] [] [] id2 Session.ex1 ltac:(vm_compute; reflexivity)) |].
  eapply rtc_l; [exact (activate_session id1 ex_jsonb [Sessions.mkRow Session.ex1 ""] [] [] (mkReads [Session.ex1; Session.ex0] [] []) Session.ex1
    (Session.mkCommand "ACTIVE" 1 (at_second 2)) Session.ex2 id3 [Sessions.mkRow Session.ex2 id3] ltac:(left) ltac:(vm_compute; reflexivity) ltac:(vm_compute; reflexivity)) |].
  eapply rtc_l; [exact (add_execution id1 ex_jsonb [Sessions.mkRow Session.ex2 id3] [] [] (mkReads [Session.ex1; Session.ex0] [] []) id3 (Execution.binding ex_execution)
    (at_second 100) (at_second 3) ex_execution [ex_execution] ltac:(vm_compute; reflexivity) ltac:(vm_compute; discriminate) ltac:(vm_compute; reflexivity)) |].
  eapply rtc_l; [exact (get_execution id1 ex_jsonb [Sessions.mkRow Session.ex2 id3] [ex_execution] [] [Session.ex1; Session.ex0] [] [] id3 ex_execution ltac:(vm_compute; reflexivity)) |].
  eapply rtc_l; [exact (update_execution id1 ex_jsonb [Sessions.mkRow Session.ex2 id3] [ex_execution] [] (mkReads [Session.ex1; Session.ex0] [ex_execution] []) ex_execution
    (Execution.mkCommand "MATERIALIZING" 0 None (at_second 4)) ex_materializing [ex_materializing] ltac:(left) ltac:(vm_compute; reflexivity) ltac:(vm_compute; reflexivity)) |].
  eapply rtc_l; [exact (add_attempt id1 ex_jsonb [Sessions.mkRow Session.ex2 id3] [ex_materializing] [] (mkReads [Session.ex1; Session.ex0] [ex_execution] []) id4
    (Attempt.mkBinding id3 1 1) (at_second 5) ex_attempt [ex_attempt] ltac:(vm_compute; reflexivity) ltac:(vm_compute; discriminate) ltac:(vm_compute; reflexivity)) |].
  eapply rtc_l; [exact (get_execution id1 ex_jsonb [Sessions.mkRow Session.ex2 id3] [ex_materializing] [ex_attempt] [Session.ex1; Session.ex0] [ex_execution] [] id3 ex_materializing ltac:(vm_compute; reflexivity)) |].
  eapply rtc_l; [exact (update_execution id1 ex_jsonb [Sessions.mkRow Session.ex2 id3] [ex_materializing] [ex_attempt] ex_reads ex_materializing
    (Execution.mkCommand "FAILED" 1 (Some Execution.ex_result) (at_second 6)) ex_over [ex_over] ltac:(left) ltac:(vm_compute; reflexivity) ltac:(vm_compute; reflexivity)) |].
  apply rtc_refl.
Qed.

Lemma ex_fenced : fenced_off ex_db id3.
Proof.
  exists ex_over, (Sessions.mkRow Session.ex2 id3). split_and!; try done; [by left .. |]. left. reflexivity.
Qed.

(** The first value that was read of the session is no longer its row, so it cannot be written back. *)
Lemma runtime_store_refines_witness :
  Sessions.Get id1 (sessions ex_db) id2 = Ok Session.ex2 /\ Execution.wf ex_over
  /\ updates_kept (S := Sessions.Session_stored id1) [Session.ex2] [Session.ex1; Session.ex0]
       (fun v e => shown (Sessions.Update id1 (sessions ex_db) (Some v) e)).
Proof.
  destruct (runtime_store_refines id1 ex_jsonb ex_jsonb_object ex_db ex_reads ex_runtime_history) as (A & B & _ & U & _). split.
  - exact (proj2 (proj2 (A (Sessions.mkRow Session.ex2 id3) (list_elem_of_here _ _)))).
  - exact (conj (proj1 (B ex_over (list_elem_of_here _ _))) U).
Defined.

(** Reading the attempt changes nothing; the attempt can no longer be changed. *)
Lemma attempts_frozen_witness :
  attempts_of id3 (attempts ex_db) = attempts_of id3 (attempts ex_db)
  /\ Attempts.Update id1 (sessions ex_db) (executions ex_db) (attempts ex_db)
       (Some (Attempt.moved ex_attempt Attempt.Acquiring None (at_second 7))) 0 = (attempts ex_db, Err StoreFailure).
Proof.
  split; [| vm_compute; reflexivity].
  apply (attempts_frozen id1 ex_jsonb ex_jsonb_object ex_db ex_reads ex_db
           (mkReads (read_sessions ex_reads) (read_executions ex_reads) [ex_attempt]) id3 ex_runtime_history);
    [| exact ex_fenced].
  eapply rtc_l; [| apply rtc_refl].
  exact (get_attempt id1 ex_jsonb (sessions ex_db) (executions ex_db) (attempts ex_db) (read_sessions ex_reads)
    (read_executions ex_reads) [] id4 ex_attempt ltac:(vm_compute; reflexivity)).
Defined.
