(* ===== verification/RuntimeBinding.v ===== *)
(** * internal/domain/runtimebinding: Sandbox and harness bindings

    A SandboxBinding records a provider reference and operation identities once
    each, and a monotone sequence of observations; a HarnessBinding records
    observations of one process.  Proved: write-once evidence, monotone
    observation time, replay of an identical record as a no-op, refusal of a
    conflicting one, and the invariant of both. *)

From Stdlib Require Import ZArith Bool Lia.
From stdpp Require Import base strings list gmap.
From S2P Require Import Prelude Regex GoStd Primitives Optimistic.

Inductive BindingError : Type := ErrInvalidBinding | ErrVersionConflict.

Record OperationIdentity : Type := mkOperationIdentity {
  OperationIdentity_ID : ID;
  RequestDigest : string
}.

#[export] Instance OperationIdentity_eq_dec : EqDecision OperationIdentity.
Proof. solve_decision. Defined.

Definition validDigest (value : string) : bool := match_string sha256_pattern value.

Definition validOperation (o : OperationIdentity) : bool :=
  validIDs [OperationIdentity_ID o] && validDigest (RequestDigest o).

Definition optionalBounded (value : string) (maximum : Z) : bool :=
  (value == "") || bounded value maximum.

(** ** SandboxBinding *)

Module Sandbox.

Inductive SandboxState : Type :=
| SandboxRequested | SandboxProvisioning | SandboxReady | SandboxActive | SandboxSuspending
| SandboxSuspended | SandboxResuming | SandboxReleasing | SandboxReleased | SandboxFailed
| SandboxUnknown.

#[export] Instance SandboxState_eq_dec : EqDecision SandboxState.
Proof. solve_decision. Defined.

#[export, refine] Instance SandboxState_enum : GoEnum SandboxState := {|
  enum_string s :=
    match s with
    | SandboxRequested => "REQUESTED" | SandboxProvisioning => "PROVISIONING"
    | SandboxReady => "READY" | SandboxActive => "ACTIVE" | SandboxSuspending => "SUSPENDING"
    | SandboxSuspended => "SUSPENDED" | SandboxResuming => "RESUMING"
    | SandboxReleasing => "RELEASING" | SandboxReleased => "RELEASED" | SandboxFailed => "FAILED"
    | SandboxUnknown => "UNKNOWN"
    end;
  enum_all := [SandboxRequested; SandboxProvisioning; SandboxReady; SandboxActive;
               SandboxSuspending; SandboxSuspended; SandboxResuming; SandboxReleasing;
               SandboxReleased; SandboxFailed; SandboxUnknown]
|}.
Proof. all: [> enum_inj | enum_in]. Defined.

(** [SandboxOperation] is a string type; these are its constants. *)
Definition OperationAcquire : string := "acquire".
Definition OperationSuspend : string := "suspend".
Definition OperationResume : string := "resume".
Definition OperationRelease : string := "release".

Record SandboxBinding : Type := mkSandboxBinding {
  tenantID : ID;
  id : ID;
  sessionID : ID;
  executionID : ID;
  attemptID : ID;
  executionGeneration : Z;
  attemptNumber : Z;
  providerKind : string;
  providerReference : string;
  resolutionDigest : string;
  operations : gmap string OperationIdentity;
  state : SandboxState;
  reason : string;
  effectiveFactsDigest : string;
  stateVersion : Z;
  createdAt : Time;
  updatedAt : Time;
  observedAt : option Time
}.

Definition NewSandbox (tenant i session execution attempt : ID) (generation number : Z)
    (kind reference resolution : string) (acquire : OperationIdentity) (now : Time)
  : result BindingError SandboxBinding :=
  if negb (validIDs [tenant; i; session; execution; attempt]) || (generation == 0) || (number == 0)
     || negb (bounded kind 128) || negb (optionalBounded reference 2048)
     || negb (validDigest resolution) || negb (validOperation acquire) || IsZero now
  then Err ErrInvalidBinding
  else Ok (mkSandboxBinding tenant i session execution attempt generation number kind reference
             resolution {[OperationAcquire := acquire]} SandboxRequested "" "" 0 (UTC now) (UTC now)
             None).

Definition validateMutation (self : option SandboxBinding) (expected : Z) (now : Time)
  : result BindingError SandboxBinding :=
  match self with
  | None => Err ErrInvalidBinding
  | Some b =>
      if IsZero now then Err ErrInvalidBinding
      else if expected != stateVersion b then Err ErrVersionConflict
      else if Before (UTC now) (updatedAt b) then Err ErrInvalidBinding
      else Ok b
  end.

(** [advance], with the fields the calling method has set. *)
Definition advance (b : SandboxBinding) (reference : string)
    (ops : gmap string OperationIdentity) (s : SandboxState) (why facts : string)
    (observed : option Time) (now : Time) : SandboxBinding :=
  mkSandboxBinding (tenantID b) (id b) (sessionID b) (executionID b) (attemptID b)
    (executionGeneration b) (attemptNumber b) (providerKind b) reference (resolutionDigest b) ops s
    why facts (u64 (stateVersion b + 1)) (createdAt b) (UTC now) observed.

Definition BindProviderReference (self : option SandboxBinding) (reference : string)
    (expected : Z) (now : Time) : result BindingError SandboxBinding :=
  let! b := validateMutation self expected now in
  if negb (bounded reference 2048) then Err ErrInvalidBinding
  else if providerReference b != "" then
    if providerReference b == reference then Ok b else Err ErrInvalidBinding
  else Ok (advance b reference (operations b) (state b) (reason b) (effectiveFactsDigest b)
             (observedAt b) now).

Definition RecordOperation (self : option SandboxBinding) (kind : string)
    (operation : OperationIdentity) (expected : Z) (now : Time)
  : result BindingError SandboxBinding :=
  let! b := validateMutation self expected now in
  if (kind == OperationAcquire)
     || ((kind != OperationSuspend) && (kind != OperationResume) && (kind != OperationRelease))
     || negb (validOperation operation)
  then Err ErrInvalidBinding
  else match operations b !! kind with
  | Some current => if current == operation then Ok b else Err ErrInvalidBinding
  | None => Ok (advance b (providerReference b) (<[kind := operation]> (operations b)) (state b)
                  (reason b) (effectiveFactsDigest b) (observedAt b) now)
  end.

Definition Observe (self : option SandboxBinding) (st why facts : string) (observed : Time)
    (expected : Z) (now : Time) : result BindingError SandboxBinding :=
  let! b := validateMutation self expected now in
  match ParseEnum st with
  | Err _ => Err ErrInvalidBinding
  | Ok s =>
      if negb (bounded why 255) || ((facts != "") && negb (validDigest facts))
         || IsZero observed || After observed (UTC now)
         || match observedAt b with Some o => Before observed o | None => false end
      then Err ErrInvalidBinding
      else Ok (advance b (providerReference b) (operations b) s why facts (Some (UTC observed)) now)
  end.

Inductive Command : Type :=
| CBind (reference : string) (expected : Z) (now : Time)
| CRecord (kind : string) (operation : OperationIdentity) (expected : Z) (now : Time)
| CObserve (st why facts : string) (observed : Time) (expected : Z) (now : Time).

Definition c_version (c : Command) : Z :=
  match c with CBind _ v _ | CRecord _ _ v _ | CObserve _ _ _ _ v _ => v end.

Definition exec (b : SandboxBinding) (c : Command) : result BindingError SandboxBinding :=
  match c with
  | CBind r v now => BindProviderReference (Some b) r v now
  | CRecord k o v now => RecordOperation (Some b) k o v now
  | CObserve s w f o v now => Observe (Some b) s w f o v now
  end.

(** Accepted commands in a row. *)
Inductive steps : SandboxBinding -> SandboxBinding -> Prop :=
| steps_refl b : steps b b
| steps_one b c b' b'' : exec b c = Ok b' -> steps b' b'' -> steps b b''.

(** *** Lemmas *)

Lemma sandbox_validateMutation b v now x : validateMutation (Some b) v now = Ok x ->
  x = b /\ v = stateVersion b /\ IsZero now = false /\ nanos (updatedAt b) <= nanos now.
Proof. unfold validateMutation. intros H. ok_inv H. split_and!; try done. tlia. Qed.

(** What an accepted command requires, and the binding it leaves. *)
Inductive effect (b : SandboxBinding) : Command -> SandboxBinding -> Prop :=
| eff_replay c : c_version c = stateVersion b -> effect b c b
| eff_bind r now : providerReference b = "" -> bounded r 2048 = true ->
    nanos (updatedAt b) <= nanos now ->
    effect b (CBind r (stateVersion b) now)
      (advance b r (operations b) (state b) (reason b) (effectiveFactsDigest b) (observedAt b) now)
| eff_record k o now : operations b !! k = None ->
    k = OperationSuspend \/ k = OperationResume \/ k = OperationRelease ->
    validOperation o = true -> nanos (updatedAt b) <= nanos now ->
    effect b (CRecord k o (stateVersion b) now)
      (advance b (providerReference b) (<[k := o]> (operations b)) (state b) (reason b)
         (effectiveFactsDigest b) (observedAt b) now)
| eff_observe s why facts o now :
    nanos (updatedAt b) <= nanos now -> nanos o <= nanos now -> nanos o <> 0 ->
    (forall p, observedAt b = Some p -> nanos p <= nanos o) ->
    effect b (CObserve (enum_string s) why facts o (stateVersion b) now)
      (advance b (providerReference b) (operations b) s why facts (Some (UTC o)) now).

Lemma sandbox_exec_effect b c b' : exec b c = Ok b' -> effect b c b'.
Proof.
  destruct c as [r v now | k o v now | s w f o v now]; cbn [exec];
    unfold BindProviderReference, RecordOperation, Observe; intros H;
    destruct (validateMutation _ _ _) as [x |] eqn:M; try discriminate H; cbn [rbind] in H;
    apply sandbox_validateMutation in M as (-> & -> & Z & U).
  - destruct (negb _) eqn:B in H; [discriminate H |]. apply negb_false_iff in B.
    destruct (_ != _) eqn:P in H.
    + destruct (_ == _) in H; [| discriminate H]. injection H as <-. by constructor.
    + injection H as <-. apply negb_bool_decide_false in P. by constructor.
  - destruct (_ || _) eqn:G in H; [discriminate H |].
    apply orb_false_iff in G as [G V]. apply orb_false_iff in G as [_ G].
    apply negb_false_iff in V. destruct (operations b !! k) eqn:K in H.
    + destruct (_ == _) in H; [| discriminate H]. injection H as <-. by constructor.
    + injection H as <-. constructor; try done.
      rewrite <- !negb_orb, negb_false_iff, !orb_true_iff, !bool_decide_eq_true in G. tauto.
  - destruct (ParseEnum s) as [n |] eqn:P; [| discriminate H]. apply ParseEnum_ok in P as ->.
    destruct (_ || _) eqn:G in H; [discriminate H |]. injection H as <-.
    apply orb_false_iff in G as [G K]. apply orb_false_iff in G as [G A].
    apply orb_false_iff in G as [_ Zo].
    constructor; try tlia. intros p E. rewrite E in K. tlia.
Qed.

#[export, refine] Instance SandboxBinding_versioned : Versioned SandboxBinding Command BindingError := {|
  version := stateVersion;
  presented := c_version;
  apply := exec
|}.
Proof.
  - intros b c b' H. apply sandbox_exec_effect in H. by destruct H.
  - intros b c b' H. apply sandbox_exec_effect in H. destruct H; auto.
Defined.

(** What one command leaves in place. *)
Record extends (b b' : SandboxBinding) : Prop := {
  ext_reference : providerReference b <> "" -> providerReference b' = providerReference b;
  ext_operations : operations b ⊆ operations b';
  ext_observed : forall o, observedAt b = Some o ->
                 exists o', observedAt b' = Some o' /\ nanos o <= nanos o';
  ext_identity : attemptID b' = attemptID b /\ executionGeneration b' = executionGeneration b
                 /\ resolutionDigest b' = resolutionDigest b
}.

Ltac binding_fields :=
  cbn [advance tenantID id sessionID executionID attemptID executionGeneration attemptNumber
       providerKind providerReference resolutionDigest operations state reason
       effectiveFactsDigest stateVersion createdAt updatedAt observedAt] in *.

#[export] Instance extends_preorder : PreOrder extends.
Proof.
  split.
  - intros b. constructor; try done. intros o ->. exists o. split; [done | lia].
  - intros a b c [A1 A2 A3 A4] [B1 B2 B3 B4]. constructor.
    + intros N. rewrite <- A1 by done. apply B1. by rewrite A1.
    + by etrans.
    + intros o Ho. apply A3 in Ho as (o' & Ho & ?). apply B3 in Ho as (o'' & ? & ?).
      exists o''. split; [done | lia].
    + destruct A4 as (<- & <- & <-). done.
Qed.

Lemma sandbox_exec_extends b c b' : exec b c = Ok b' -> extends b b'.
Proof.
  intros H. apply sandbox_exec_effect in H.
  destruct H as [c V | r now P B U | k o now K W V U | s why facts o now U O Z M];
    [reflexivity | | |]; constructor; binding_fields; try done; try (by eauto with lia).
  by apply insert_subseteq.
Qed.

(** *** Theorems *)

(** Binding evidence is write-once: along any run a recorded provider
    reference and every recorded operation identity stay exactly as recorded, the
    observation time never goes back, and the bound attempt, generation and
    resolution never change. *)
Theorem sandbox_evidence_write_once b b' (R : steps b b') : extends b b'.
Proof.
  induction R as [b | b c b1 b2 H R IH]; [reflexivity |].
  etrans; [by apply (sandbox_exec_extends b c b1) | exact IH].
Qed.

(** Recording is idempotent and conflict-free: at the current version, a
    lifecycle operation that is already recorded is accepted unchanged exactly
    when it is the same identity, and a new one becomes readable. *)
Theorem sandbox_record_operation b k o now
    (K : k = OperationSuspend \/ k = OperationResume \/ k = OperationRelease)
    (V : validOperation o = true) (Z : IsZero now = false)
    (U : nanos (updatedAt b) <= nanos now) :
  match operations b !! k with
  | Some p => RecordOperation (Some b) k o (stateVersion b) now
              = if p == o then Ok b else Err ErrInvalidBinding
  | None => exists b', RecordOperation (Some b) k o (stateVersion b) now = Ok b'
              /\ operations b' !! k = Some o
              /\ RecordOperation (Some b') k o (stateVersion b') now = Ok b'
  end.
Proof.
  assert (M : forall x w, w = stateVersion x -> nanos (updatedAt x) <= nanos now ->
              validateMutation (Some x) w now = Ok x).
  { intros x w -> Ux. unfold validateMutation. rewrite Z, bool_decide_eq_true_2 by done.
    by replace (Before (UTC now) (updatedAt x)) with false by tlia. }
  assert (G : forall x w, w = stateVersion x -> nanos (updatedAt x) <= nanos now ->
              RecordOperation (Some x) k o w now
              = match operations x !! k with
                | Some current => if current == o then Ok x else Err ErrInvalidBinding
                | None => Ok (advance x (providerReference x) (<[k := o]> (operations x)) (state x)
                                (reason x) (effectiveFactsDigest x) (observedAt x) now)
                end).
  { intros x w Hw Ux. unfold RecordOperation. rewrite M by done. cbn [rbind]. rewrite V.
    destruct K as [-> | [-> | ->]]; reduce_decide; done. }
  destruct (operations b !! k) as [p |] eqn:E.
  - by rewrite G, E.
  - rewrite G, E by done. eexists. split; [reflexivity |]. binding_fields.
    rewrite lookup_insert_eq. split; [done |]. rewrite G; binding_fields; [| done | tlia].
    rewrite lookup_insert_eq. by rewrite bool_decide_eq_true_2.
Qed.

(** *** Witnesses *)

Definition ex_acquire : OperationIdentity := mkOperationIdentity id4 digest_a.
Definition ex_release : OperationIdentity := mkOperationIdentity id3 digest_b.

Definition ex0 : SandboxBinding :=
  mkSandboxBinding id1 id2 id3 id4 id1 1 1 "kubernetes" "" digest_a
    {[OperationAcquire := ex_acquire]} SandboxRequested "" "" 0 (at_second 0) (at_second 0) None.

Definition ex1 : SandboxBinding :=
  advance ex0 "pod-1" (operations ex0) SandboxRequested "" "" None (at_second 1).

Lemma sandbox_ex0_new :
  NewSandbox id1 id2 id3 id4 id1 1 1 "kubernetes" "" digest_a ex_acquire (at_second_local 0) = Ok ex0.
Proof. vm_compute. reflexivity. Qed.

Lemma sandbox_evidence_write_once_witness :
  extends ex1 (advance ex1 "pod-1" (operations ex1) SandboxReady "running" "" (Some (at_second 2))
                 (at_second 3)).
Proof.
  apply (sandbox_evidence_write_once ex1).
  apply (steps_one ex1 (CObserve "READY" "running" "" (at_second 2) 1 (at_second 3)) _ _
           ltac:(vm_compute; reflexivity) (steps_refl _)).
Defined.

Lemma sandbox_record_operation_witness :
  exists b', RecordOperation (Some ex0) "release" ex_release 0 (at_second 5) = Ok b'
    /\ operations b' !! "release" = Some ex_release
    /\ RecordOperation (Some b') "release" ex_release (stateVersion b') (at_second 5) = Ok b'.
Proof.
  refine (sandbox_record_operation ex0 "release" ex_release (at_second 5) _ _ _ _);
    [by right; right | vm_compute; reflexivity .. | vm_compute; discriminate].
Defined.

End Sandbox.

(** ** HarnessBinding *)

Module Harness.

Inductive HarnessState : Type :=
| HarnessStarting | HarnessReady | HarnessExecuting | HarnessInterrupting | HarnessExited
| HarnessFailed | HarnessUnknown.

#[export] Instance HarnessState_eq_dec : EqDecision HarnessState.
Proof. solve_decision. Defined.

#[export, refine] Instance HarnessState_enum : GoEnum HarnessState := {|
  enum_string s :=
    match s with
    | HarnessStarting => "STARTING" | HarnessReady => "READY" | HarnessExecuting => "EXECUTING"
    | HarnessInterrupting => "INTERRUPTING" | HarnessExited => "EXITED"
    | HarnessFailed => "FAILED" | HarnessUnknown => "UNKNOWN"
    end;
  enum_all := [HarnessStarting; HarnessReady; HarnessExecuting; HarnessInterrupting; HarnessExited;
               HarnessFailed; HarnessUnknown]
|}.
Proof. all: [> enum_inj | enum_in]. Defined.

Record HarnessSpecification : Type := mkHarnessSpecification {
  AdapterKind : string;
  AdapterVersion : string;
  AdapterBuildDigest : string;
  NegotiationDigest : string;
  ProtocolName : string;
  ProtocolVersion : string;
  ProcessReference : string;
  VendorSessionReference : string
}.

(** The eight specification strings are kept as one record. *)
Record HarnessBinding : Type := mkHarnessBinding {
  tenantID : ID;
  id : ID;
  sessionID : ID;
  executionID : ID;
  attemptID : ID;
  sandboxBindingID : ID;
  executionGeneration : Z;
  attemptNumber : Z;
  specification : HarnessSpecification;
  start : OperationIdentity;
  state : HarnessState;
  reason : string;
  stateVersion : Z;
  createdAt : Time;
  updatedAt : Time;
  observedAt : option Time
}.

Definition validHarnessSpecification (s : HarnessSpecification) : bool :=
  if negb (forallb (fun value => bounded value 128)
             [AdapterKind s; AdapterVersion s; ProtocolName s; ProtocolVersion s])
  then false
  else validDigest (AdapterBuildDigest s) && validDigest (NegotiationDigest s)
       && bounded (ProcessReference s) 255 && bounded (VendorSessionReference s) 2048.

Definition NewHarness (tenant i session execution attempt sandbox : ID) (generation number : Z)
    (spec : HarnessSpecification) (st : OperationIdentity) (now : Time)
  : result BindingError HarnessBinding :=
  if negb (validIDs [tenant; i; session; execution; attempt; sandbox]) || (generation == 0)
     || (number == 0) || negb (validHarnessSpecification spec) || negb (validOperation st)
     || IsZero now
  then Err ErrInvalidBinding
  else Ok (mkHarnessBinding tenant i session execution attempt sandbox generation number spec st
             HarnessStarting "" 0 (UTC now) (UTC now) None).

Definition Observe (self : option HarnessBinding) (st why : string) (observed : Time)
    (expected : Z) (now : Time) : result BindingError HarnessBinding :=
  match self with
  | None => Err ErrInvalidBinding
  | Some b =>
      if IsZero now then Err ErrInvalidBinding
      else if expected != stateVersion b then Err ErrVersionConflict
      else match ParseEnum st with
      | Err _ => Err ErrInvalidBinding
      | Ok s =>
          if negb (bounded why 255) || IsZero observed || After observed (UTC now)
             || Before (UTC now) (updatedAt b)
             || match observedAt b with Some o => Before observed o | None => false end
          then Err ErrInvalidBinding
          else Ok (mkHarnessBinding (tenantID b) (id b) (sessionID b) (executionID b) (attemptID b)
                     (sandboxBindingID b) (executionGeneration b) (attemptNumber b)
                     (specification b) (start b) s why (u64 (stateVersion b + 1)) (createdAt b)
                     (UTC now) (Some (UTC observed)))
      end
  end.

(** One observation: state, reason, observation time, version, clock. *)
Record Command : Type := mkCommand {
  c_state : string;
  c_reason : string;
  c_observed : Time;
  c_version : Z;
  c_now : Time
}.

Definition exec (b : HarnessBinding) (c : Command) : result BindingError HarnessBinding :=
  Observe (Some b) (c_state c) (c_reason c) (c_observed c) (c_version c) (c_now c).

Lemma harness_exec_ok b c b' : exec b c = Ok b' ->
  c_version c = stateVersion b /\ stateVersion b' = u64 (stateVersion b + 1)
  /\ updatedAt b' = UTC (c_now c) /\ observedAt b' = Some (UTC (c_observed c))
  /\ createdAt b' = createdAt b
  /\ nanos (updatedAt b) <= nanos (c_now c) /\ nanos (c_observed c) <= nanos (c_now c)
  /\ (forall o, observedAt b = Some o -> nanos o <= nanos (c_observed c)).
Proof.
  unfold exec, Observe. intros H. destruct (IsZero _); [discriminate H |].
  destruct (_ != _) eqn:V in H; [discriminate H |]. apply negb_bool_decide_false in V.
  destruct (ParseEnum _) as [s |]; [| discriminate H].
  destruct (_ || _) eqn:G in H; [discriminate H |]. injection H as <-.
  apply orb_false_iff in G as [G K]. apply orb_false_iff in G as [G B].
  apply orb_false_iff in G as [_ A]. cbn. split_and!; try done; try tlia.
  intros o E. rewrite E in K. tlia.
Qed.

#[export, refine] Instance HarnessBinding_versioned : Versioned HarnessBinding Command BindingError := {|
  version := stateVersion;
  presented := c_version;
  apply := exec
|}.
Proof.
  - intros b c b' H. by apply harness_exec_ok in H as [? _].
  - intros b c b' H. apply harness_exec_ok in H as (_ & ? & _). auto.
Defined.

(** Observations happened between the creation epoch and the last update. *)
Definition observed_in_order (b : HarnessBinding) : Prop :=
  nanos (createdAt b) <= nanos (updatedAt b)
  /\ forall o, observedAt b = Some o -> nanos o <= nanos (updatedAt b).

(** Harness observations are ordered: whatever observations arrive, in
    whatever order and however stale, the recorded observation never lies after
    the last update, never goes back, and the version counts the recorded ones. *)
Theorem harness_observations_ordered t i s e a sb g n spec st now b ops
    (N : NewHarness t i s e a sb g n spec st now = Ok b) :
  observed_in_order (run_commands b ops)
  /\ exists k, (k <= length ops)%nat /\ stateVersion (run_commands b ops) = u64 (Z.of_nat k).
Proof.
  assert (stateVersion b = 0 /\ observed_in_order b) as [V O].
  { unfold NewHarness in N. destruct (_ || _) in N; [discriminate N |]. injection N as <-.
    split; [done |]. split; [cbn; lia | done]. }
  split.
  - clear N V. unfold run_commands. revert b O. induction ops as [| op ops IH]; intros b O; [done |].
    cbn. apply IH. unfold attempt_command. destruct (apply b op) as [b' |] eqn:E; [| done].
    apply harness_exec_ok in E as (_ & _ & Eu & Eo & Ec & U & L & _). destruct O as [O1 O2].
    split; rewrite Eu.
    + rewrite Ec. cbn. lia.
    + rewrite Eo. intros o [= <-]. cbn. done.
  - assert (U : is_u64 (stateVersion b)) by (rewrite V; split; unfold two64; lia).
    destruct (version_counts (V := HarnessBinding_versioned) b ops U) as (k & Hk & Ek).
    exists k. split; [done |]. etrans; [exact Ek |]. cbn [version HarnessBinding_versioned].
    by rewrite V.
Qed.

Definition ex_spec : HarnessSpecification :=
  mkHarnessSpecification "codex" "1.0" digest_a digest_b "app-server" "v1" "pid-7" "thread-1".

Definition ex0 : HarnessBinding :=
  mkHarnessBinding id1 id2 id3 id4 id1 id2 1 1 ex_spec (mkOperationIdentity id4 digest_a)
    HarnessStarting "" 0 (at_second 0) (at_second 0) None.

Definition ex_ops : list Command :=
  [mkCommand "READY" "handshake" (at_second 2) 0 (at_second 3);
   mkCommand "EXECUTING" "late" (at_second 1) 1 (at_second 4);
   mkCommand "EXECUTING" "turn" (at_second 5) 1 (at_second 6)].

Lemma harness_observations_ordered_witness :
  observed_in_order (run_commands ex0 ex_ops) /\ stateVersion (run_commands ex0 ex_ops) = 2.
Proof.
  split; [| vm_compute; reflexivity].
  apply (harness_observations_ordered id1 id2 id3 id4 id1 id2 1 1 ex_spec
           (mkOperationIdentity id4 digest_a) (at_second 0) ex0 ex_ops).
  vm_compute. reflexivity.
Defined.

End Harness.
