(* ===== verification/RuntimeProfile.v ===== *)
(** * internal/domain/runtimeprofile: runtime profiles and resolution snapshots

    The operator's abstract profile with its cross-field constraints, and the
    immutable per-Execution resolution snapshot.  Proved: what an admitted
    profile outside the standard container class cannot ask for, and what a
    captured snapshot is made of. *)

From Stdlib Require Import ZArith Bool Lia.
From stdpp Require Import base strings list.
From S2P Require Import Prelude Regex GoStd Primitives.

(** ** profile.go *)

Record RequestLimit : Type := mkRequestLimit { Request : Z; Limit : Z }.

Record GPU : Type := mkGPU { Count : Z; Classes : list string }.

Record Resources : Type := mkResources {
  CPU : RequestLimit;
  Memory : RequestLimit;
  EphemeralStorage : RequestLimit;
  MaxProcesses : Z;
  RGPU : GPU
}.

Record Storage : Type := mkStorage {
  WorkspaceBytes : Z;
  WorkspaceMount : string;
  VendorStateRoot : string;
  AccessMode : string;
  SnapshotClass : string;
  EncryptionRequired : bool
}.

Record Network : Type := mkNetwork {
  NProfile : string;
  DefaultDenyIngress : bool;
  DefaultDenyEgress : bool;
  DenyCloudMetadata : bool;
  DenyKubernetesAPI : bool;
  DNSPolicy : string
}.

Record Platform : Type := mkPlatform {
  OS : string;
  Architectures : list string;
  GPUAllowed : bool;
  NodeClass : string
}.

Record Security : Type := mkSecurity {
  Privileged : bool;
  RunAsNonRoot : bool;
  ReadOnlyRootFilesystem : bool;
  AllowPrivilegeEscalation : bool;
  ServiceAccountToken : bool;
  HostNetwork : bool;
  HostPID : bool;
  HostIPC : bool;
  HostPaths : bool;
  RuntimeSockets : bool;
  LinuxCapabilitiesAdd : list string;
  SeccompClass : string
}.

Record Lifecycle : Type := mkLifecycle {
  IdleSuspendSeconds : Z;
  TerminationGraceSeconds : Z;
  WarmPoolEligible : bool;
  SuspendMode : string
}.

Record Implementation : Type := mkImplementation {
  ProviderKind : string;
  ProviderProfileRef : string;
  IsolationRuntimeRef : string;
  StorageProfileRef : string;
  NetworkPolicyRef : string
}.

Record Profile : Type := mkProfile {
  SchemaVersion : Z;
  Name : string;
  Description : string;
  IsolationClass : string;
  PResources : Resources;
  PStorage : Storage;
  PNetwork : Network;
  PPlatform : Platform;
  PSecurity : Security;
  PLifecycle : Lifecycle;
  PImplementation : Implementation
}.

Inductive ProfileError : Type := ErrInvalidProfile | ErrInvalidSnapshot.

Definition within (r : RequestLimit) : bool := negb (Limit r <? Request r).

Definition ValidateConstraints (p : Profile) : result ProfileError unit :=
  let r := PResources p in
  let g := RGPU r in
  let s := PSecurity p in
  let n := PNetwork p in
  if negb (forallb within [CPU r; Memory r; EphemeralStorage r]) then Err ErrInvalidProfile
  else if ((0 <? Count g) && (negb (GPUAllowed (PPlatform p)) || (Z.of_nat (length (Classes g)) =? 0)))
          || ((Count g =? 0) && negb (Z.of_nat (length (Classes g)) =? 0))
  then Err ErrInvalidProfile
  else if (IsolationClass p != "container-standard")
          && (Privileged s || negb (RunAsNonRoot s) || negb (ReadOnlyRootFilesystem s)
              || AllowPrivilegeEscalation s || ServiceAccountToken s || HostNetwork s || HostPID s
              || HostIPC s || HostPaths s || RuntimeSockets s
              || negb (Z.of_nat (length (LinuxCapabilitiesAdd s)) =? 0)
              || negb (DefaultDenyIngress n) || negb (DefaultDenyEgress n)
              || negb (DenyCloudMetadata n) || negb (DenyKubernetesAPI n)
              || (NProfile n == "unrestricted-standalone"))
  then Err ErrInvalidProfile
  else Ok tt.

(** ** snapshot.go *)

(** [^[a-z0-9](?:[a-z0-9._-]*[a-z0-9])?$] *)
Definition cls_lowalnum : cls := cls_lower ++ cls_digit.
Definition identifierPattern : re :=
  RCat (RCls cls_lowalnum)
    (ropt (RCat (RStar (RCls (cls_lowalnum ++ [(45, 46); (95, 95)]))) (RCls cls_lowalnum))).

Record Snapshot : Type := mkSnapshot {
  tenantID : ID;
  executionID : ID;
  schemaVersion : Z;
  profileName : string;
  canonicalResolution : string;
  resolutionDigest : string;
  implementationReference : string;
  implementationVersion : string;
  implementationDigest : string;
  canonicalSupportedVersions : string;
  supportedVersionsDigest : string;
  decisionReason : string;
  createdAt : Time
}.

Definition validIdentifier (value : string) : bool :=
  (len value <=? 128) && match_string identifierPattern value.

Definition NewSnapshot (tenant execution : ID) (schema : Z) (name resolution resDigest implRef
    implVersion implDigest versions versDigest reason : string) (now : Time)
  : result ProfileError Snapshot :=
  if negb (validID tenant) || negb (validID execution) || (schema != 1)
     || negb (validIdentifier name) || negb (validJSONObject resolution 65536)
     || negb (match_string sha256_pattern resDigest) || negb (bounded implRef 255)
     || negb (bounded implVersion 128) || negb (match_string sha256_pattern implDigest)
     || negb (validJSONObject versions 32768) || negb (match_string sha256_pattern versDigest)
     || negb (bounded reason 255) || IsZero now
  then Err ErrInvalidSnapshot
  else Ok (mkSnapshot tenant execution schema name resolution resDigest implRef implVersion
             implDigest versions versDigest reason (UTC now)).

(** ** Theorems *)

(** What isolation outside the standard container class means. *)
Record hardened (p : Profile) : Prop := {
  h_user : Privileged (PSecurity p) = false /\ RunAsNonRoot (PSecurity p) = true
           /\ AllowPrivilegeEscalation (PSecurity p) = false
           /\ LinuxCapabilitiesAdd (PSecurity p) = [];
  h_filesystem : ReadOnlyRootFilesystem (PSecurity p) = true /\ HostPaths (PSecurity p) = false
           /\ RuntimeSockets (PSecurity p) = false;
  h_namespaces : HostNetwork (PSecurity p) = false /\ HostPID (PSecurity p) = false
           /\ HostIPC (PSecurity p) = false;
  h_credentials : ServiceAccountToken (PSecurity p) = false;
  h_network : DefaultDenyIngress (PNetwork p) = true /\ DefaultDenyEgress (PNetwork p) = true
           /\ DenyCloudMetadata (PNetwork p) = true /\ DenyKubernetesAPI (PNetwork p) = true
           /\ NProfile (PNetwork p) <> "unrestricted-standalone"
}.

Definition bounded_resources (p : Profile) : Prop :=
  Forall (fun r => Request r <= Limit r)
    [CPU (PResources p); Memory (PResources p); EphemeralStorage (PResources p)]
  /\ (0 < Count (RGPU (PResources p)) ->
      GPUAllowed (PPlatform p) = true /\ Classes (RGPU (PResources p)) <> [])
  /\ (Count (RGPU (PResources p)) = 0 -> Classes (RGPU (PResources p)) = []).

Lemma length_zero_nil {A} (l : list A) : (Z.of_nat (length l) =? 0) = true <-> l = [].
Proof. destruct l; cbn; split; intros H; try done; lia. Qed.

Lemma ValidateConstraints_iff p :
  ValidateConstraints p = Ok tt <->
  bounded_resources p /\ (IsolationClass p <> "container-standard" -> hardened p).
Proof.
  unfold ValidateConstraints, bounded_resources. cbn [forallb]. split.
  - intros H. destruct (negb _) eqn:R in H; [discriminate H |].
    destruct (_ || _) eqn:G in H; [discriminate H |].
    destruct (_ && _) eqn:S in H; [discriminate H |]. clear H.
    unfold within in R. apply negb_false_iff in R. simp_bool. split; [split_and! |].
    + repeat constructor; lia.
    + intros L. match goal with X : (0 <? _) && _ = false |- _ => apply andb_false_iff in X as [X | X] end;
        [lia |]. simp_bool. split; [done |]. intros E. apply length_zero_nil in E. congruence.
    + intros E. match goal with X : (_ =? 0) && negb _ = false |- _ => apply andb_false_iff in X as [X | X] end;
        [lia |]. simp_bool. by apply length_zero_nil.
    + intros C. apply andb_false_iff in S as [S | S]; simp_bool.
      repeat match goal with X : (Z.of_nat (length _) =? 0) = true |- _ => apply length_zero_nil in X end.
      constructor; try split_and!; done.
  - intros [(R & G1 & G2) Hd]. apply Forall_cons in R as [R1 R]. apply Forall_cons in R as [R2 R].
    apply Forall_cons in R as [R3 _]. unfold within.
    replace (Limit (CPU (PResources p)) <? Request (CPU (PResources p))) with false by lia.
    replace (Limit (Memory (PResources p)) <? Request (Memory (PResources p))) with false by lia.
    replace (Limit (EphemeralStorage (PResources p)) <? Request (EphemeralStorage (PResources p)))
      with false by lia.
    cbn [negb andb].
    replace ((0 <? _) && _) with false.
    2: { destruct (0 <? _) eqn:L; [| done]. apply Z.ltb_lt in L. destruct (G1 L) as [-> N].
         by destruct (Classes _). }
    replace ((_ =? 0) && negb _) with false.
    2: { destruct (_ =? 0) eqn:L at 1; [| done]. apply Z.eqb_eq in L. by rewrite (G2 L). }
    cbn [orb]. destruct (IsolationClass p == "container-standard") eqn:C; simp_bool; [done |].
    destruct (Hd C) as [(-> & -> & -> & ->) (-> & -> & ->) (-> & -> & ->) -> (-> & -> & -> & -> & N)].
    cbn. by rewrite bool_decide_eq_false_2.
Qed.

(** The profile constraints are exactly: requests within limits, GPUs only
    where the platform allows them and with classes, and, outside the standard
    container class, a fully hardened sandbox with default-deny networking. *)
Theorem profile_constraints_exact p :
  ValidateConstraints p = Ok tt <->
  bounded_resources p /\ (IsolationClass p <> "container-standard" -> hardened p).
Proof. apply ValidateConstraints_iff. Qed.

(** A hardened profile, as the operator's examples define one. *)
Definition ex_profile : Profile :=
  mkProfile 1 "secure" "" "microvm"
    (mkResources (mkRequestLimit 500 1000) (mkRequestLimit 1024 2048) (mkRequestLimit 1024 2048) 64
       (mkGPU 0 []))
    (mkStorage 4096 "/workspace" "/state" "RWO" "standard" true)
    (mkNetwork "none" true true true true "") (mkPlatform "linux" ["amd64"] false "")
    (mkSecurity false true true false false false false false false false [] "runtime-default")
    (mkLifecycle 600 30 false "release-and-restore")
    (mkImplementation "kubernetes" "p" "r" "s" "n").

Example profile_ex_valid : ValidateConstraints ex_profile = Ok tt.
Proof. vm_compute. reflexivity. Qed.
