(* ===== verification/RuntimeEvent.v ===== *)
(** * internal/domain/runtimeevent: immutable runtime observations

    [New] with every guard of event.go, and the payload walk [consumeJSON] over the
    token stream of [JsonDecoder].  Proved: a payload is accepted exactly when it
    is the token stream of one JSON object within the nesting, member and key
    bounds, without duplicate keys at any level and without control characters in
    any key or string; and an Event rebuilt from its stored fields is the Event. *)

From Stdlib Require Import ZArith Bool Lia.
From stdpp Require Import base strings list gmap.
From S2P Require Import Prelude Regex GoStd JsonDecoder Primitives.

Definition MaxPayloadBytes : Z := 65536.
Definition MaxReferenceLen : Z := 2048.
Definition maxJSONDepth : nat := 16.
Definition maxJSONMembers : Z := 256.

Inductive EventError : Type := ErrInvalidEvent.

Definition sources : list string :=
  ["agent-runtime"; "agentd"; "harness-adapter"; "sandbox-provider"; "workspace-provider";
   "run-authority"; "gateway"].

Definition classifications : list string := ["Public"; "Internal"; "Confidential"].

Definition types : list string :=
  ["session.created"; "session.state_changed"; "session.degraded"; "session.closed";
   "execution.accepted"; "execution.started"; "execution.completed"; "execution.failed";
   "execution.cancelled"; "execution.timed_out";
   "attempt.started"; "attempt.replaced"; "attempt.terminal"; "sandbox.state_changed";
   "sandbox.health_changed";
   "workspace.generation_committed"; "checkpoint.committed"; "checkpoint.deleted";
   "assistant.message.delta"; "assistant.message.completed"; "tool.requested";
   "tool.status_changed"; "artifact.published";
   "signal.accepted"; "permission.requested"; "permission.resolved"; "stream.gap"].

Record Correlation : Type := mkCorrelation {
  RequestID : ID;
  TraceID : string;
  SpanID : string
}.

Record Event : Type := mkEvent {
  eventID : ID;
  tenantID : ID;
  sessionID : ID;
  executionID : ID;
  attemptID : ID;
  sequence : Z;
  aggregateVersion : Z;
  typeName : string;
  occurredAt : Time;
  recordedAt : Time;
  source : string;
  classification : string;
  payload : string;
  correlation : Correlation;
  retentionPolicy : string;
  retainUntil : option Time
}.

(** ** consumeJSON *)

(** [strings.IndexFunc(s, unicode.IsControl) >= 0] *)
Definition has_control (s : list Z) : bool := existsb IsControl s.

Section Loops.

(** The recursive call on a member or an element. *)
Variable child : decoder -> Z -> result EventError (decoder * Z).

(** The [for d.More()] loops.  A pass increments [members] and stops beyond
    [maxJSONMembers], so a loop makes at most 257 passes. *)
Fixpoint object_loop (fuel : nat) (root : bool) (d : decoder) (members : Z) (seen : gset (list Z))
  : result EventError (decoder * Z) :=
  match fuel with
  | O => Err ErrInvalidEvent
  | S n =>
      if negb (More d) then Ok (d, members)
      else match Token d with
      | Ok (TString name, d1) =>
          if has_control name then Err ErrInvalidEvent
          else if bool_decide (name ∈ seen) then Err ErrInvalidEvent
          else
            let seen := {[name]} ∪ seen in
            let members := members + 1 in
            if (root && (64 <? Z.of_nat (size seen))) || (maxJSONMembers <? members)
            then Err ErrInvalidEvent
            else match child d1 members with
            | Ok (d2, members) => object_loop n root d2 members seen
            | Err e => Err e
            end
      | _ => Err ErrInvalidEvent
      end
  end.

Fixpoint array_loop (fuel : nat) (d : decoder) (members : Z)
  : result EventError (decoder * Z) :=
  match fuel with
  | O => Err ErrInvalidEvent
  | S n =>
      if negb (More d) then Ok (d, members)
      else
        let members := members + 1 in
        if maxJSONMembers <? members then Err ErrInvalidEvent
        else match child d members with
        | Ok (d2, members) => array_loop n d2 members
        | Err e => Err e
        end
  end.

End Loops.

Definition loop_fuel : nat := 257.

(** The closing token of a compound value. *)
Definition finish (close : Z) (r : result EventError (decoder * Z))
  : result EventError (decoder * Z) :=
  match r with
  | Err e => Err e
  | Ok (d, members) =>
      match Token d with
      | Ok (t, d') => if negb (bool_decide (t = Delim close)) then Err ErrInvalidEvent
                      else Ok (d', members)
      | Err _ => Err ErrInvalidEvent
      end
  end.

(** [levels] is [maxJSONDepth + 1 - depth]: none left is [depth > maxJSONDepth]. *)
Fixpoint consumeJSON (levels : nat) (root : bool) (d : decoder) (members : Z)
  : result EventError (decoder * Z) :=
  match levels with
  | O => Err ErrInvalidEvent
  | S n =>
      match Token d with
      | Err _ => Err ErrInvalidEvent
      | Ok (Delim delim, d1) =>
          if root && negb (delim =? 123) then Err ErrInvalidEvent
          else if delim =? 123 then
            finish 125 (object_loop (consumeJSON n false) loop_fuel root d1 members ∅)
          else if delim =? 91 then
            finish 93 (array_loop (consumeJSON n false) loop_fuel d1 members)
          else Err ErrInvalidEvent
      | Ok (t, d1) =>
          if root then Err ErrInvalidEvent
          else match t with
          | TString s => if has_control s then Err ErrInvalidEvent else Ok (d1, members)
          | _ => Ok (d1, members)
          end
      end
  end.

Definition validatePayload (value : string) : result EventError unit :=
  if (len value <? 2) || (MaxPayloadBytes <? len value) then Err ErrInvalidEvent
  else match consumeJSON (S maxJSONDepth) true (NewDecoder (to_bytes value)) 0 with
  | Err _ => Err ErrInvalidEvent
  | Ok (d, _) => match Token d with Err EOF => Ok tt | _ => Err ErrInvalidEvent end
  end.

(** ** New *)

(** [len(s) == length] and every rune one of [0123456789abcdef]. *)
Definition lowerHex (s : string) (length : Z) : bool :=
  (len s == length)
  && forallb (fun r => ((48 <=? r) && (r <=? 57)) || ((97 <=? r) && (r <=? 102))) (runes s).

Definition validCorrelation (c : Correlation) : bool :=
  ((RequestID c == "") || validID (RequestID c))
  && ((TraceID c == "") || lowerHex (TraceID c) 32)
  && ((SpanID c == "") || lowerHex (SpanID c) 16)
  && ((SpanID c == "") || (TraceID c != "")).

Definition enum (value : string) (allowed : list string) : bool :=
  existsb (fun candidate => value == candidate) allowed.

Definition ValidateReference (value : string) : result EventError unit :=
  if negb (bounded value MaxReferenceLen) then Err ErrInvalidEvent else Ok tt.

(** Only the first observation of an aggregate may precede its first version. *)
Definition birth (typeName : string) (executionID attemptID : ID) (sequence : Z) : bool :=
  ((typeName == "session.created") && (executionID == "") && (attemptID == "") && (sequence =? 1))
  || ((typeName == "execution.accepted") && (executionID != "") && (attemptID == "")).

Definition New (eventID tenantID sessionID executionID attemptID : ID) (sequence aggregateVersion : Z)
  (typeName : string) (occurredAt recordedAt : Time) (source classification payload : string)
  (correlation : Correlation) (retentionPolicy : string) (retainUntil : option Time)
  : result EventError Event :=
  if negb (validID eventID) || negb (validID tenantID) || negb (validID sessionID)
     || ((executionID != "") && negb (validID executionID))
     || ((attemptID != "") && (negb (validID attemptID) || (executionID == "")))
     || (sequence =? 0)
     || ((aggregateVersion =? 0) && negb (birth typeName executionID attemptID sequence))
     || negb (enum typeName types) || negb (enum source sources)
     || negb (enum classification classifications)
     || IsZero occurredAt || IsZero recordedAt || negb (validCorrelation correlation)
     || negb (bounded retentionPolicy 128)
     || match retainUntil with Some t => negb (After t recordedAt) | None => false end
     || negb (is_ok (validatePayload payload))
  then Err ErrInvalidEvent
  else Ok (mkEvent eventID tenantID sessionID executionID attemptID sequence aggregateVersion
             typeName (UTC occurredAt) (UTC recordedAt) source classification payload correlation
             retentionPolicy (copyTime retainUntil)).

(** ** The accepted documents *)

(** A JSON document as a tree; a scalar is any token that is not a delimiter. *)
Inductive jtree : Type :=
| JScalar (t : token)
| JObject (ms : list (list Z * jtree))
| JArray (xs : list jtree).

(** Its token stream. *)
Fixpoint flatten (t : jtree) : list token :=
  match t with
  | JScalar s => [s]
  | JObject ms => Delim 123 :: flat_map (fun m => TString (fst m) :: flatten (snd m)) ms ++ [Delim 125]
  | JArray xs => Delim 91 :: flat_map flatten xs ++ [Delim 93]
  end.

(** The members and elements of the document, at every level. *)
Fixpoint weight (t : jtree) : Z :=
  match t with
  | JScalar _ => 0
  | JObject ms => foldr (fun m acc => 1 + weight (snd m) + acc) 0 ms
  | JArray xs => foldr (fun x acc => 1 + weight x + acc) 0 xs
  end.

(** Within [levels] of nesting: keys distinct, no control characters, at most 64
    keys at the root, which is an object. *)
Fixpoint fits (levels : nat) (root : bool) (t : jtree) : Prop :=
  match levels with
  | O => False
  | S n =>
      match t with
      | JScalar (Delim _) => False
      | JScalar (TString s) => root = false /\ has_control s = false
      | JScalar _ => root = false
      | JObject ms =>
          NoDup (map fst ms) /\ (root = true -> (length ms <= 64)%nat)
          /\ Forall (fun m => has_control (fst m) = false) ms
          /\ Forall (fun m => fits n false (snd m)) ms
      | JArray xs => root = false /\ Forall (fits n false) xs
      end
  end.

(** Reading the tokens [ts] takes the decoder from [d] to [d']. *)
Fixpoint reads (d : decoder) (ts : list token) (d' : decoder) : Prop :=
  match ts with
  | [] => d' = d
  | t :: rest => exists d1, Token d = Ok (t, d1) /\ reads d1 rest d'
  end.

Lemma reads_app ts1 : forall ts2 d d',
  reads d (ts1 ++ ts2) d' <-> exists d1, reads d ts1 d1 /\ reads d1 ts2 d'.
Proof.
  induction ts1 as [| t ts1 IH]; intros ts2 d d'; cbn.
  - split; [eauto | by intros (? & -> & ?)].
  - split.
    + intros (d1 & E & H). apply IH in H as (d2 & H1 & H2). eauto 6.
    + intros (d2 & (d1 & E & H1) & H2). exists d1. split; [done |]. apply IH. eauto.
Qed.

Lemma weight_nonneg : forall t, 0 <= weight t.
Proof.
  fix IH 1. intros [s | ms | xs]; cbn; [lia | |].
  - induction ms as [| m ms IHms]; cbn; [lia |]. pose proof (IH (snd m)). lia.
  - induction xs as [| x xs IHxs]; cbn; [lia |]. pose proof (IH x). lia.
Qed.

(** What the recursive call establishes, and what suffices for it. *)
Definition child_sound (fit : jtree -> Prop) (child : decoder -> Z -> result EventError (decoder * Z)) :=
  forall d m d' m', m <= maxJSONMembers -> child d m = Ok (d', m') ->
    exists t, reads d (flatten t) d' /\ fit t /\ m' = m + weight t /\ m' <= maxJSONMembers.

Definition child_complete (fit : jtree -> Prop) (child : decoder -> Z -> result EventError (decoder * Z)) :=
  forall t d m d', 0 <= m -> reads d (flatten t) d' -> fit t -> m + weight t <= maxJSONMembers ->
    child d m = Ok (d', m + weight t).

Section LoopFacts.
Context (fit : jtree -> Prop) (child : decoder -> Z -> result EventError (decoder * Z)).

Abbreviation member_tokens := (fun m => TString (fst m) :: flatten (snd m)) (only parsing).

Lemma object_loop_sound (C : child_sound fit child) fuel : forall root d m seen d' m',
  m <= maxJSONMembers -> (root = true -> (size seen <= 64)%nat) ->
  object_loop child fuel root d m seen = Ok (d', m') ->
  exists ms, reads d (flat_map member_tokens ms) d'
    /\ (NoDup (map fst ms) /\ Forall (fun x => fst x ∉ seen) ms
        /\ (root = true -> (size seen + length ms <= 64)%nat)
        /\ Forall (fun x => has_control (fst x) = false) ms /\ Forall (fun x => fit (snd x)) ms)
    /\ m' = m + weight (JObject ms) /\ m' <= maxJSONMembers.
Proof.
  induction fuel as [| n IH]; intros root d m seen d' m' Hm Hs H; cbn [object_loop] in H; [discriminate H |].
  destruct (negb (More d)).
  { injection H as <- <-. exists []. cbn [flat_map reads map length weight foldr].
    split; [done | split; [| lia]].
    split_and!; [constructor | constructor | intros E; specialize (Hs E); lia | constructor ..]. }
  destruct (Token d) as [[[c | name | tx | b |] d1] |] eqn:T; try discriminate H.
  destruct (has_control name) eqn:Hc; [discriminate H |].
  case_bool_decide as Hin; [discriminate H |].
  destruct (_ || _) eqn:G in H; [discriminate H |].
  destruct (child d1 (m + 1)) as [[d2 m2] |] eqn:K; [| discriminate H].
  apply C in K as (t & R & F & -> & Le); [| simp_bool; lia].
  assert (Sz : (size ({[name]} ∪ seen) = 1 + size seen)%nat).
  { rewrite size_union by set_solver. by rewrite size_singleton. }
  apply IH in H as (ms & R' & (N & D & B & Cc & Ff) & -> & Le'); [| done |].
  2: { intros ->. rewrite Sz in G |- *. rewrite andb_true_l in G.
    apply orb_false_iff in G as [G _]. apply Z.ltb_ge in G. apply Nat2Z.inj_le. exact G. }
  exists ((name, t) :: ms). rewrite Sz in *. cbn [flat_map map fst snd length weight foldr].
  rewrite <- app_comm_cons. split; [| split].
  - exists d1. split; [done |]. apply reads_app. eauto.
  - split_and!.
    + constructor; [| done]. rewrite Forall_forall in D. intros X.
      apply list_elem_of_fmap in X as ([k v] & -> & X). apply D in X. set_solver.
    + constructor; [done |]. eapply Forall_impl; [exact D |]. set_solver.
    + intros E. specialize (B E). lia.
    + by constructor.
    + by constructor.
  - cbn [weight]. cbn [weight] in Le'. lia.
Qed.

Lemma array_loop_sound (C : child_sound fit child) fuel : forall d m d' m',
  m <= maxJSONMembers -> array_loop child fuel d m = Ok (d', m') ->
  exists xs, reads d (flat_map flatten xs) d' /\ Forall fit xs
    /\ m' = m + weight (JArray xs) /\ m' <= maxJSONMembers.
Proof.
  induction fuel as [| n IH]; intros d m d' m' Hm H; cbn [array_loop] in H; [discriminate H |].
  destruct (negb (More d)).
  { injection H as <- <-. exists []. cbn [flat_map reads weight foldr]. split_and!; [done | constructor | lia ..]. }
  destruct (maxJSONMembers <? m + 1) eqn:G; [discriminate H |].
  destruct (child d (m + 1)) as [[d2 m2] |] eqn:K; [| discriminate H].
  apply C in K as (t & R & F & -> & Le); [| lia].
  apply IH in H as (xs & R' & Ff & -> & Le'); [| done].
  exists (t :: xs). cbn [flat_map weight foldr] in *. split_and!.
  - apply reads_app. eauto.
  - by constructor.
  - lia.
  - lia.
Qed.

Lemma reads_head d t ts d' : reads d (t :: ts) d' -> More d = negb (closing t).
Proof. intros (d1 & T & _). by apply More_spec in T. Qed.

Lemma members_room (root : bool) (k l : nat) m :
  (root = true -> (k + S l <= 64)%nat) -> m + 1 <= maxJSONMembers ->
  (root && (64 <? Z.of_nat (1 + k))) || (maxJSONMembers <? m + 1) = false.
Proof.
  intros B M. apply orb_false_iff. split; [| lia]. destruct root; [specialize (B eq_refl) | done].
  rewrite andb_true_l. apply Z.ltb_ge. change 64 with (Z.of_nat 64). apply Nat2Z.inj_le. lia.
Qed.

Lemma object_loop_complete (C : child_complete fit child) ms : forall fuel root d m seen d' dend,
  0 <= m -> reads d (flat_map member_tokens ms) d' -> Token d' = Ok (Delim 125, dend) ->
  NoDup (map fst ms) -> Forall (fun x => fst x ∉ seen) ms ->
  (root = true -> (size seen + length ms <= 64)%nat) ->
  Forall (fun x => has_control (fst x) = false) ms -> Forall (fun x => fit (snd x)) ms ->
  m + weight (JObject ms) <= maxJSONMembers -> (length ms < fuel)%nat ->
  object_loop child fuel root d m seen = Ok (d', m + weight (JObject ms)).
Proof.
  induction ms as [| [k v] ms IH]; intros fuel root d m seen d' dend Hm R T N D B Cc Ff W Fu;
    (destruct fuel as [| n]; [cbn in Fu; lia |]); cbn [object_loop].
  - cbn in R. subst d'. rewrite (More_spec _ _ _ T). cbn. by rewrite Z.add_0_r.
  - cbn [flat_map fst snd] in R. rewrite <- app_comm_cons in R.
    rewrite (reads_head _ _ _ _ R). destruct R as (d1 & T1 & R). rewrite T1.
    apply reads_app in R as (d2 & R1 & R2). cbn [map fst weight foldr length snd] in *.
    rewrite !Forall_cons in D, Cc, Ff. destruct D as [D0 D], Cc as [C0 Cc], Ff as [F0 Ff].
    apply NoDup_cons in N as [N0 N]. cbn [fst snd] in *. rewrite C0. cbn [closing negb].
    rewrite (bool_decide_eq_false_2 _ D0).
    assert (Sz : (size ({[k]} ∪ seen) = 1 + size seen)%nat).
    { rewrite size_union by set_solver. by rewrite size_singleton. }
    pose proof (weight_nonneg v). pose proof (weight_nonneg (JObject ms)) as Wn. cbn [weight] in Wn.
    rewrite Sz, (members_room root _ (length ms) m B) by lia.
    cbn. rewrite (C v d1 (m + 1) d2 ltac:(lia) R1 F0) by lia.
    rewrite (IH n root d2 (m + 1 + weight v) ({[k]} ∪ seen) d' dend); cbn [weight]; try done; try lia.
    + f_equal. f_equal. lia.
    + apply Forall_forall. intros x Hx. rewrite Forall_forall in D. specialize (D x Hx).
      assert (fst x <> k); [intros <-; apply N0, list_elem_of_fmap; eauto |].
      apply not_elem_of_union. split; [by apply not_elem_of_singleton | done].
    + rewrite Sz. intros E. specialize (B E). lia.
Qed.


Lemma array_loop_complete (C : child_complete fit child) xs : forall fuel d m d' dend,
  0 <= m -> reads d (flat_map flatten xs) d' -> Token d' = Ok (Delim 93, dend) ->
  Forall (fun t => exists c ts, flatten t = c :: ts /\ closing c = false) xs -> Forall fit xs ->
  m + weight (JArray xs) <= maxJSONMembers -> (length xs < fuel)%nat ->
  array_loop child fuel d m = Ok (d', m + weight (JArray xs)).
Proof.
  induction xs as [| x xs IH]; intros fuel d m d' dend Hm R T O Ff W Fu;
    (destruct fuel as [| n]; [cbn in Fu; lia |]); cbn [array_loop].
  - cbn in R. subst d'. rewrite (More_spec _ _ _ T). cbn. by rewrite Z.add_0_r.
  - cbn [flat_map weight foldr length] in *. apply reads_app in R as (d1 & R1 & R2).
    apply Forall_cons in O as [(c & ts & E & Cl) O], Ff as [F0 Ff].
    pose proof R1 as R1'. rewrite E in R1'. rewrite (reads_head _ _ _ _ R1'), Cl. cbn [negb].
    pose proof (weight_nonneg x). pose proof (weight_nonneg (JArray xs)) as Wn. cbn [weight] in Wn.
    destruct (maxJSONMembers <? m + 1) eqn:G; [lia |].
    rewrite (C x d (m + 1) d1 ltac:(lia) R1 F0) by lia.
    rewrite (IH n d1 (m + 1 + weight x) d' dend); cbn [weight]; try done; try lia.
    f_equal. f_equal. lia.
Qed.

End LoopFacts.

Lemma fits_open levels root t : fits levels root t ->
  exists c ts, flatten t = c :: ts /\ closing c = false.
Proof.
  destruct levels as [| n]; [done |]. destruct t as [[] | ms | xs]; cbn; try done; intros _; eauto.
Qed.

Lemma weight_members ms : Z.of_nat (length ms) <= weight (JObject ms).
Proof.
  induction ms as [| [k v] ms IH]; cbn [length weight foldr snd] in *; [lia |].
  pose proof (weight_nonneg v). lia.
Qed.

Lemma weight_elements xs : Z.of_nat (length xs) <= weight (JArray xs).
Proof.
  induction xs as [| x xs IH]; cbn [length weight foldr] in *; [lia |].
  pose proof (weight_nonneg x). lia.
Qed.

Lemma loop_fuel_value : loop_fuel = 257%nat.
Proof. done. Qed.

#[local] Opaque loop_fuel.

Lemma finish_ok close r d' m : finish close r = Ok (d', m) <->
  exists d, r = Ok (d, m) /\ Token d = Ok (Delim close, d').
Proof.
  unfold finish. split.
  - intros H. destruct r as [[d m0] |]; [| discriminate H].
    destruct (Token d) as [[t d1] |] eqn:T; [| discriminate H].
    destruct (bool_decide (t = Delim close)) eqn:E; [| discriminate H]. cbn in H.
    apply bool_decide_eq_true in E as ->. simplify_eq. eauto.
  - intros (d & -> & ->). by rewrite bool_decide_eq_true_2.
Qed.

Lemma consumeJSON_sound levels : forall root, child_sound (fits levels root) (consumeJSON levels root).
Proof.
  induction levels as [| n IH]; intros root d m d' m' Hm H; cbn [consumeJSON] in H; [discriminate H |].
  destruct (Token d) as [[t d1] |] eqn:T; [| discriminate H].
  assert (L : forall s, root = false -> (d', m') = (d1, m) -> t = s -> fits (S n) root (JScalar s) ->
          exists t0, reads d (flatten t0) d' /\ fits (S n) root t0 /\ m' = m + weight t0
                     /\ m' <= maxJSONMembers).
  { intros s _ E -> F. simplify_eq. exists (JScalar s). cbn [flatten reads weight].
    split_and!; [eauto | done | lia | lia]. }
  destruct t as [c | s | tx | b |].
  - destruct (root && negb (c =? 123)) eqn:G; [discriminate H |].
    destruct (c =? 123) eqn:E1.
    { assert (c = 123) as -> by lia. apply finish_ok in H as (d2 & H & T2).
      apply (object_loop_sound _ _ (IH false)) in H as (ms & R & (N & _ & B & Cc & F) & -> & Le);
        [| done | rewrite size_empty; lia].
      exists (JObject ms). cbn [flatten]. split; [| done].
      exists d1. split; [done |]. apply reads_app. exists d2. cbn. eauto. }
    destruct (c =? 91) eqn:E2; [| discriminate H]. assert (c = 91) as -> by lia.
    apply finish_ok in H as (d2 & H & T2).
    apply (array_loop_sound _ _ (IH false)) in H as (xs & R & F & -> & Le); [| done].
    exists (JArray xs). cbn [flatten]. split.
    + exists d1. split; [done |]. apply reads_app. exists d2. cbn. eauto.
    + by destruct root.
  - destruct root; [discriminate H |]. destruct (has_control s) eqn:E; [discriminate H |].
    simplify_eq. by apply (L (TString s)).
  - destruct root; [discriminate H |]. simplify_eq. by apply (L (TNumber tx)).
  - destruct root; [discriminate H |]. simplify_eq. by apply (L (TBool b)).
  - destruct root; [discriminate H |]. simplify_eq. by apply (L TNull).
Qed.

Lemma consumeJSON_complete levels : forall root,
  child_complete (fun t => fits levels root t) (consumeJSON levels root).
Proof.
  induction levels as [| n IH]; intros root t d m d' Hm R F W; [done |]. cbn [consumeJSON].
  destruct t as [s | ms | xs].
  - cbn [flatten reads weight] in *. destruct R as (d1 & T & ->). rewrite T, Z.add_0_r.
    destruct s; try done; cbn in F; try (subst root; done).
    destruct F as [-> Hc]. by rewrite Hc.
  - cbn [flatten] in R. destruct R as (d1 & T & R). apply reads_app in R as (d2 & R & d3 & T2 & ->).
    rewrite T. cbn. rewrite andb_false_r. apply finish_ok. exists d2. split; [| done].
    destruct F as (N & B & Cc & F).
    apply (object_loop_complete _ _ (IH false) ms _ root d1 m ∅ d2 d3); try done.
    + apply Forall_forall. set_solver.
    + rewrite loop_fuel_value. unfold maxJSONMembers in *.
      pose proof (weight_members ms). lia.
  - cbn [flatten] in R. destruct R as (d1 & T & R). apply reads_app in R as (d2 & R & d3 & T2 & ->).
    rewrite T. cbn. destruct F as [-> F]. cbn. apply finish_ok. exists d2. split; [| done].
    apply (array_loop_complete _ _ (IH false) xs _ d1 m d2 d3); try done.
    + eapply Forall_impl; [exact F |]. intros x Hx. by apply fits_open in Hx.
    + rewrite loop_fuel_value. unfold maxJSONMembers in *. pose proof (weight_elements xs). lia.
Qed.

(** ** Theorems *)

(** The payload walk accepts exactly the documents of the contract.  A payload
    is accepted if and only if it has between 2 bytes and 64 KiB and its token
    stream is that of one JSON object, followed by nothing, nested at most 16
    levels, with at most 64 keys at the root and 256 members and elements in all,
    keys distinct within every object, and no control character in any key or
    string value. *)
Theorem event_payload_exact (value : string) :
  validatePayload value = Ok tt <->
  2 <= len value <= MaxPayloadBytes
  /\ exists t d, reads (NewDecoder (to_bytes value)) (flatten t) d /\ Token d = Err EOF
       /\ fits 17 true t /\ weight t <= 256.
Proof.
  unfold validatePayload. change (S maxJSONDepth) with 17%nat. split.
  - intros H. destruct (_ || _) eqn:G in H; [discriminate H |].
    destruct (consumeJSON _ _ _ _) as [[d m] |] eqn:K in H; [| discriminate H].
    apply consumeJSON_sound in K as (t & R & F & -> & Le); [| unfold maxJSONMembers; lia].
    destruct (Token d) as [| []] eqn:T; try discriminate H. simp_bool. split; [lia |].
    exists t, d. unfold maxJSONMembers in Le. split_and!; [done | done | done | lia].
  - intros (B & t & d & R & T & F & W).
    destruct (_ || _) eqn:G; [lia |].
    rewrite (consumeJSON_complete 17 true t _ 0 d ltac:(lia) R F W). by rewrite T.
Qed.

(** Reading back a stored Event gives the Event: rebuilding it from its own
    fields passes every check and changes nothing, and the times of an accepted
    Event are in UTC with any expiry after the recording. *)
Theorem event_restore_roundtrip i t s x a q v ty o r src c p co rp ru e
  (H : New i t s x a q v ty o r src c p co rp ru = Ok e) :
  New (eventID e) (tenantID e) (sessionID e) (executionID e) (attemptID e) (sequence e)
    (aggregateVersion e) (typeName e) (occurredAt e) (recordedAt e) (source e) (classification e)
    (payload e) (correlation e) (retentionPolicy e) (retainUntil e) = Ok e
  /\ is_utc (occurredAt e) /\ is_utc (recordedAt e)
  /\ forall at_, retainUntil e = Some at_ -> is_utc at_ /\ After at_ (recordedAt e) = true.
Proof.
  unfold New in H. destruct (_ || _) eqn:G in H; [discriminate H |]. injection H as <-.
  cbn [eventID tenantID sessionID executionID attemptID sequence aggregateVersion typeName occurredAt
       recordedAt source classification payload correlation retentionPolicy retainUntil].
  unfold New. split_and!; [| done | done |].
  - change (IsZero (UTC o)) with (IsZero o). change (IsZero (UTC r)) with (IsZero r).
    replace (match copyTime ru with Some at_ => negb (After at_ (UTC r)) | None => false end)
      with (match ru with Some at_ => negb (After at_ r) | None => false end) by by destruct ru.
    rewrite G, !UTC_idem. by destruct ru.
  - destruct ru as [u |]; cbn; [| done]. intros at_ E. simplify_eq. split; [done |].
    apply orb_false_iff in G as [G _]. apply orb_false_iff in G as [_ G].
    by apply negb_false_iff in G.
Qed.

(** ** Witnesses *)

Definition ex_correlation : Correlation :=
  mkCorrelation id4 "0123456789abcdef0123456789abcdef" "0123456789abcdef".

(** [{"a":[1,"x"],"b":{}}] with [\u0022] for the quotes. *)
Definition quoted (s : string) : string := String (byte_of 34) (s +:+ String (byte_of 34) "").

Definition ex_payload : string :=
  "{" +:+ quoted "a" +:+ ":[1, " +:+ quoted "x" +:+ "]," +:+ quoted "b" +:+ ":{}}".

Definition ex_duplicate : string :=
  "{" +:+ quoted "a" +:+ ":1," +:+ quoted "\u0061" +:+ ":2}".

Definition ex_event : Event :=
  mkEvent id1 id2 id3 "" "" 1 0 "session.created" (at_second 0) (at_second 1) "agent-runtime"
    "Internal" ex_payload ex_correlation "standard" (Some (at_second 60)).

Example ex_payload_accepted : validatePayload ex_payload = Ok tt.
Proof. vm_compute. reflexivity. Qed.

(** An escaped spelling of a key is the same key. *)
Example ex_duplicate_refused : validatePayload ex_duplicate = Err ErrInvalidEvent.
Proof. vm_compute. reflexivity. Qed.

Lemma event_restore_witness :
  New id1 id2 id3 "" "" 1 0 "session.created" (at_second_local 0) (at_second_local 1) "agent-runtime"
    "Internal" ex_payload ex_correlation "standard" (Some (at_second_local 60)) = Ok ex_event
  /\ is_utc (occurredAt ex_event).
Proof.
  split; [vm_compute; reflexivity |].
  refine (proj1 (proj2 (event_restore_roundtrip id1 id2 id3 "" "" 1 0 "session.created" (at_second_local 0)
    (at_second_local 1) "agent-runtime" "Internal" ex_payload ex_correlation "standard"
    (Some (at_second_local 60)) ex_event _))).
  vm_compute. reflexivity.
Defined.
