(* ===== verification/ComputeReconciliation.v ===== *)
(** * internal/app/reconciliation: reconciling compute with its intent

    [Compute.Reconcile] brings a provider's compute in line with a durable
    intent; [Worker.RunBatch] drives it over claimed work.  Both are modelled as
    programs over the ports they call.  Proved for every behaviour of the ports:
    the provider is mutated at most once and only inside the fences of the
    intent, convergence is claimed only on observed evidence, and work is
    finished as done only on confirmed release. *)

From Stdlib Require Import ZArith Bool Lia.
From stdpp Require Import base strings list.
From S2P Require Import Prelude Regex GoStd Primitives RuntimeProfile Interaction.

(** ** Ports (internal/ports/sandbox) *)

(** The sentinel errors, and an error value as the sentinels it wraps. *)
Inductive Sentinel : Type :=
| ErrInvalid | ErrUnsupported | ErrConflict | ErrNotFound | ErrUnavailable | ErrTimeout
| ErrPermission | ErrIntegrity.

#[export] Instance Sentinel_eq_dec : EqDecision Sentinel.
Proof. solve_decision. Defined.

Definition GoError : Type := list Sentinel.

(** [errors.Is] *)
Definition errors_Is (e : GoError) (s : Sentinel) : bool := existsb (fun x => x == s) e.

Inductive State : Type :=
| Requested | Provisioning | Ready | Active | Suspending | Suspended | Resuming | Releasing
| Released | Failed | Unknown.

#[export] Instance State_eq_dec : EqDecision State.
Proof. solve_decision. Defined.

Record Operation : Type := mkOperation { Operation_ID : string; Operation_Digest : string }.

#[export] Instance Operation_eq_dec : EqDecision Operation.
Proof. solve_decision. Defined.

Record Scope : Type := mkScope {
  TenantID : ID;
  SessionID : ID;
  ExecutionID : ID;
  AttemptID : ID;
  SandboxID : ID;
  Generation : Z;
  AttemptOrdinal : Z
}.

Record Runtime : Type := mkRuntime {
  Image : string;
  Architecture : string;
  Entrypoint : list string
}.

Record Attachment : Type := mkAttachment {
  Reference : string;
  WorkspaceID : ID;
  AGeneration : Z;
  MountPath : string;
  ReadOnly : bool
}.

Record AcquireRequest : Type := mkAcquireRequest {
  RScope : Scope;
  ROperation : Operation;
  RRuntime : Runtime;
  RProfile : Profile;
  ProfileDigest : string;
  ImplementationDigest : string;
  RWorkspace : Attachment;
  BootstrapReference : string;
  Deadline : Time
}.

Record Binding : Type := mkBinding { Request : AcquireRequest; ProviderReference : string }.

Record Handle : Type := mkHandle {
  HSandboxID : ID;
  HProviderKind : string;
  HProviderReference : string;
  HState : State;
  ObservedAt : Time
}.

Record EffectiveFacts : Type := mkEffectiveFacts {
  EIsolationClass : string;
  EImage : string;
  EArchitecture : string;
  ResourceDigest : string;
  NetworkClass : string;
  AttachmentReference : string;
  Verified : bool
}.

Definition noFacts : EffectiveFacts := mkEffectiveFacts "" "" "" "" "" "" false.

Record Status : Type := mkStatus {
  SHandle : Handle;
  SState : State;
  Reason : string;
  ProviderGeneration : string;
  Effective : EffectiveFacts
}.

(** [DesiredCompute] is a string type; any other value is unsupported. *)
Inductive DesiredCompute : Type := ComputeRunning | ComputeReleased | OtherDesired (s : string).

Record ComputeIntent : Type := mkComputeIntent {
  IBinding : Binding;
  Desired : DesiredCompute;
  IOperation : Operation;
  Version : Z;
  Revision : Z;
  Current : bool;
  ReleaseAuthorized : bool
}.

Record ComputeObservation : Type := mkComputeObservation {
  OState : State;
  Code : string;
  Converged : bool;
  RecoveryRequired : bool;
  OEffective : EffectiveFacts
}.

(** The calls of [ComputeStore], [ComputeAuthority] and [ComputeProvider]. *)
Inductive port : Type -> Type :=
| LoadCompute (tenant id : ID) : port (result GoError ComputeIntent)
| RecordCompute (intent : ComputeIntent) (o : ComputeObservation) : port (result GoError unit)
| CheckCompute (s : Scope) : port (result GoError unit)
| Acquire (r : AcquireRequest) : port (result GoError Handle)
| Get (tenant id : ID) : port (result GoError Status)
| Release (tenant id : ID) (op : Operation) : port (result GoError unit).

(** ** compute.go *)

Definition observation (s : State) (code : string) : ComputeObservation :=
  mkComputeObservation s code false false noFacts.

Definition recovery (code : string) : ComputeObservation :=
  mkComputeObservation Unknown code false true noFacts.

Definition failure (err : GoError) : ComputeObservation :=
  if errors_Is err ErrIntegrity || errors_Is err ErrUnsupported || errors_Is err ErrInvalid
  then recovery "PROVIDER_INTEGRITY_FAILURE"
  else if errors_Is err ErrConflict then observation Unknown "FENCE_CHANGED"
  else if errors_Is err ErrPermission then observation Unknown "PROVIDER_PERMISSION"
  else observation Unknown "PROVIDER_UNAVAILABLE".

(** The request of the intent's binding. *)
Definition request_of (intent : ComputeIntent) : AcquireRequest := Request (IBinding intent).

Definition observe_status (intent : ComputeIntent) (status : Status) : ComputeObservation :=
  let r := request_of intent in
  let bound := ProviderReference (IBinding intent) in
  if (HSandboxID (SHandle status) != SandboxID (RScope r))
     || ((bound != "") && (HProviderReference (SHandle status) != bound))
  then recovery "PROVIDER_IDENTITY_MISMATCH"
  else match SState status with
  | Ready =>
      if negb (Verified (Effective status)) then recovery "EFFECTIVE_STATE_UNVERIFIED"
      else mkComputeObservation Ready "COMPUTE_READY" true false (Effective status)
  | Requested | Provisioning | Resuming => observation (SState status) "COMPUTE_PENDING"
  | Unknown => observation Unknown "PROVIDER_UNKNOWN"
  | _ => recovery "COMPUTE_UNEXPECTED_STATE"
  end.

Definition running (intent : ComputeIntent) : prog port ComputeObservation :=
  let r := request_of intent in
  do! status <- trigger (Get (TenantID (RScope r)) (SandboxID (RScope r)));
  match status with
  | Err err =>
      if errors_Is err ErrNotFound then
        if ProviderReference (IBinding intent) != "" then Ret (recovery "BOUND_COMPUTE_MISSING")
        else if IOperation intent != ROperation r then Ret (recovery "ACQUIRE_IDENTITY_MISMATCH")
        else
          do! handle <- trigger (Acquire r);
          match handle with
          | Err e => Ret (failure e)
          | Ok h =>
              if (HSandboxID h != SandboxID (RScope r)) || (HProviderReference h == "")
              then Ret (recovery "PROVIDER_IDENTITY_MISMATCH")
              else Ret (observation Provisioning "ACQUIRE_ACCEPTED")
          end
      else Ret (failure err)
  | Ok st => Ret (observe_status intent st)
  end.

Definition release (intent : ComputeIntent) : prog port ComputeObservation :=
  let s := RScope (request_of intent) in
  do! released <- trigger (Release (TenantID s) (SandboxID s) (IOperation intent));
  match released with
  | Err e => Ret (failure e)
  | Ok _ =>
      do! status <- trigger (Get (TenantID s) (SandboxID s));
      match status with
      | Err err =>
          if errors_Is err ErrNotFound
          then Ret (mkComputeObservation Released "COMPUTE_ABSENT" true false noFacts)
          else Ret (failure err)
      | Ok _ => Ret (observation Releasing "RELEASE_PENDING")
      end
  end.

(** Record the observation and return it. *)
Definition record (intent : ComputeIntent) (o : ComputeObservation)
  : prog port (result GoError ComputeObservation) :=
  do! recorded <- trigger (RecordCompute intent o);
  match recorded with
  | Err e => Ret (Err e)
  | Ok _ => Ret (Ok o)
  end.

Definition Reconcile (tenant id : ID) : prog port (result GoError ComputeObservation) :=
  do! loaded <- trigger (LoadCompute tenant id);
  match loaded with
  | Err e => Ret (Err e)
  | Ok intent =>
      let s := RScope (request_of intent) in
      if (TenantID s != tenant) || (SandboxID s != id) then Ret (Err [ErrIntegrity])
      else match Desired intent with
      | ComputeRunning =>
          if negb (Current intent) then record intent (recovery "FENCED_COMPUTE")
          else
            do! checked <- trigger (CheckCompute s);
            match checked with
            | Err _ => Ret (Err [ErrPermission])
            | Ok _ => do! o <- running intent; record intent o
            end
      | ComputeReleased =>
          if negb (ReleaseAuthorized intent) then Ret (Err [ErrConflict])
          else do! o <- release intent; record intent o
      | OtherDesired _ => Ret (Err [ErrUnsupported])
      end
  end.

(** ** Theorems about Reconcile *)

(** Calls that change what the provider runs. *)
Inductive mutation : Type :=
| MAcquire (r : AcquireRequest)
| MRelease (tenant id : ID) (op : Operation).

Definition mutation_of (e : event port) : option mutation :=
  match e with
  | existT _ (c, _) =>
      match c with
      | Acquire r => Some (MAcquire r)
      | Release t i op => Some (MRelease t i op)
      | _ => None
      end
  end.

Definition mutations (tr : list (event port)) : list mutation := omap mutation_of tr.

(** The provider is asked to acquire only for a current intent, after the
    authority agreed, after compute was seen absent, never bound, and with the
    original operation. *)
Definition acquire_fenced (tenant id : ID) (tr : list (event port)) (r : AcquireRequest) : Prop :=
  exists intent err rest,
    tr = occurred (LoadCompute tenant id) (Ok intent)
         :: occurred (CheckCompute (RScope r)) (Ok tt)
         :: occurred (Get tenant id) (Err err)
         :: rest
    /\ r = request_of intent /\ TenantID (RScope r) = tenant /\ SandboxID (RScope r) = id
    /\ Desired intent = ComputeRunning /\ Current intent = true
    /\ errors_Is err ErrNotFound = true /\ ProviderReference (IBinding intent) = ""
    /\ IOperation intent = ROperation r.

(** Release is asked only for an authorized intent, with its saved operation. *)
Definition release_fenced (tenant id : ID) (tr : list (event port)) (t i : ID) (op : Operation)
  : Prop :=
  exists intent rest,
    tr = occurred (LoadCompute tenant id) (Ok intent) :: rest
    /\ t = tenant /\ i = id /\ op = IOperation intent
    /\ Desired intent = ComputeReleased /\ ReleaseAuthorized intent = true.

Definition fenced (tenant id : ID) (tr : list (event port)) (m : mutation) : Prop :=
  match m with
  | MAcquire r => acquire_fenced tenant id tr r
  | MRelease t i op => release_fenced tenant id tr t i op
  end.

(** C18: Reconciliation mutates the provider at most once and only inside the
    fences of the loaded intent, whatever the store, the authority and the
    provider answer. *)
Theorem compute_mutation_fenced tenant id tr res (R : runs (Reconcile tenant id) tr res) :
  (length (mutations tr) <= 1)%nat /\ Forall (fenced tenant id tr) (mutations tr).
Proof.
  unfold Reconcile, running, release, record in R. explore R.
  all: split; [cbn; lia |]; cbn; repeat constructor; simp_bool;
    repeat match goal with u : unit |- _ => destruct u end.
  all: first [ do 3 eexists; split_and!; [reflexivity | done ..]
             | do 2 eexists; split_and!; [reflexivity | done ..] ].
Qed.

(** Evidence that the provider runs the intended compute, or runs none. *)
Definition converged_evidence (tenant id : ID) (tr : list (event port)) (intent : ComputeIntent)
    (o : ComputeObservation) : Prop :=
  (OState o = Ready /\ Desired intent = ComputeRunning /\ Current intent = true
   /\ exists status, occurred (Get tenant id) (Ok status) ∈ tr
      /\ SState status = Ready /\ Verified (Effective status) = true
      /\ HSandboxID (SHandle status) = id /\ OEffective o = Effective status)
  \/ (OState o = Released /\ Desired intent = ComputeReleased /\ ReleaseAuthorized intent = true
      /\ occurred (Release tenant id (IOperation intent)) (Ok tt) ∈ tr
      /\ exists err, occurred (Get tenant id) (Err err) ∈ tr /\ errors_Is err ErrNotFound = true).

Lemma observe_status_converged intent st :
  Converged (observe_status intent st) = true ->
  OState (observe_status intent st) = Ready /\ SState st = Ready
  /\ Verified (Effective st) = true
  /\ HSandboxID (SHandle st) = SandboxID (RScope (request_of intent))
  /\ OEffective (observe_status intent st) = Effective st.
Proof.
  unfold observe_status. destruct (_ || _) eqn:G; [done |]. simp_bool.
  destruct (SState st); try done. by destruct (Verified (Effective st)).
Qed.

Lemma failure_not_converged e : Converged (failure e) = false.
Proof. unfold failure. by repeat case_match. Qed.

(** Convergence is never assumed: whenever reconciliation reports a converged
    observation, the provider itself was seen ready and verified under the right
    identity, or was seen absent after an authorized release; and every reported
    observation was recorded against the loaded intent first. *)
Theorem compute_convergence_evidence tenant id tr o (R : runs (Reconcile tenant id) tr (Ok o)) :
  exists intent,
    occurred (LoadCompute tenant id) (Ok intent) ∈ tr
    /\ occurred (RecordCompute intent o) (Ok tt) ∈ tr
    /\ (Converged o = true -> converged_evidence tenant id tr intent o).
Proof.
  unfold Reconcile, running, release, record in R. explore R; simplify_eq.
  all: repeat match goal with u : unit |- _ => destruct u end; simp_bool.
  all: eexists; split_and!; [by repeat (left || right) | by repeat (left || right) |].
  all: intros C; try discriminate C; try (rewrite failure_not_converged in C; discriminate C).
  - apply observe_status_converged in C as (? & ? & ? & ? & ?). left. split_and!; try done.
    eexists. split_and!; [by repeat (left || right) | done ..].
  - right. split_and!; try done; [by repeat (left || right) |].
    eexists. split_and!; [by repeat (left || right) | done].
Qed.

(** ** Witnesses *)

Definition ex_scope : Scope := mkScope id1 id2 id3 id4 id2 1 1.

Definition ex_request : AcquireRequest :=
  mkAcquireRequest ex_scope (mkOperation id4 digest_a) (mkRuntime "image@sha256" "amd64" [])
    ex_profile digest_a digest_b (mkAttachment "pvc-1" id3 0 "/workspace" false) "bootstrap-1"
    (at_second 600).

Definition ex_running : ComputeIntent :=
  mkComputeIntent (mkBinding ex_request "") ComputeRunning (mkOperation id4 digest_a) 1 1 true false.

Definition ex_released : ComputeIntent :=
  mkComputeIntent (mkBinding ex_request "pod-1") ComputeReleased (mkOperation id3 digest_b) 2 2 false
    true.

(** A provider without the sandbox, and a store that accepts everything. *)
Definition ex_handler (intent : ComputeIntent) : forall B, port B -> B :=
  fun B c =>
    match c in port B return B with
    | LoadCompute _ _ => Ok intent
    | RecordCompute _ _ => Ok tt
    | CheckCompute _ => Ok tt
    | Acquire r => Ok (mkHandle (SandboxID (RScope r)) "kubernetes" "pod-1" Provisioning (at_second 1))
    | Get _ _ => Err [ErrNotFound]
    | Release _ _ _ => Ok tt
    end.

Lemma compute_mutation_fenced_witness :
  let tr := fst (execute (ex_handler ex_running) (Reconcile id1 id2)) in
  mutations tr = [MAcquire ex_request] /\ Forall (fenced id1 id2 tr) (mutations tr).
Proof.
  split; [reflexivity |].
  exact (proj2 (compute_mutation_fenced id1 id2 _ _
                  (execute_runs (ex_handler ex_running) (Reconcile id1 id2)))).
Defined.

Lemma compute_convergence_witness :
  exists intent,
    let tr := fst (execute (ex_handler ex_released) (Reconcile id1 id2)) in
    let o := mkComputeObservation Released "COMPUTE_ABSENT" true false noFacts in
    occurred (LoadCompute id1 id2) (Ok intent) ∈ tr
    /\ occurred (RecordCompute intent o) (Ok tt) ∈ tr
    /\ (Converged o = true -> converged_evidence id1 id2 tr intent o).
Proof.
  exact (compute_convergence_evidence id1 id2 _ _
           (execute_runs (ex_handler ex_released) (Reconcile id1 id2))).
Defined.
