(* ===== verification/Worker.v ===== *)
(** * internal/app/reconciliation/worker.go: driving reconciliation

    [Worker.RunBatch] claims work, reconciles each claim inside its lease and
    finishes it under its claim fence.  Proved for every behaviour of the queue,
    the clock and the reconciler: claims are finished in order and once, work is
    finished as done only on confirmed release, and nothing is reconciled on a
    lapsed lease. *)

From Stdlib Require Import ZArith Bool Lia.
From stdpp Require Import base strings list.
From S2P Require Import Prelude Regex GoStd Primitives RuntimeProfile Interaction.
From S2P Require Import Reconciliation ComputeReconciliation.

(** The calls of [ComputeQueue], [ComputeReconciler] and the clock. *)
Inductive wport : Type -> Type :=
| ClaimCompute (tenant owner : ID) (lease limit : Z) : wport (result GoError (list Work))
| Now : wport Time
| CallReconcile (deadline : Time) (tenant target : ID) : wport (result GoError ComputeObservation)
| FinishCompute (claim : Work) (done : bool) (code : string) (retry : Z) : wport (result GoError unit).

Record Worker : Type := mkWorker { lease : Z; retry : Z }.

Definition second : Z := 1000000000.

(** [queue] and [compute] are present; the bounds of the two durations. *)
Definition NewWorker (l r : Z) : result GoError Worker :=
  if (l <? second) || (5 * 60 * second <? l) || (r <? second) || (3600 * second <? r)
  then Err [ErrInvalid]
  else Ok (mkWorker l r).

(** The code recorded for an answer of the reconciler: later tests override. *)
Definition finish_code (answer : result GoError ComputeObservation) : string :=
  match answer with
  | Ok o => Code o
  | Err e =>
      if errors_Is e ErrUnsupported then "UNSUPPORTED_LIFECYCLE"
      else if errors_Is e ErrPermission then "AUTHORITY_UNAVAILABLE"
      else if errors_Is e ErrConflict then "FENCE_CHANGED"
      else "RECONCILE_UNAVAILABLE"
  end.

Definition finish_done (answer : result GoError ComputeObservation) : bool :=
  match answer with
  | Ok o => Converged o && (OState o == Released)
  | Err _ => false
  end.

(** The loop over the claims; the result is [finished] and the error. *)
Fixpoint run_claims (w : Worker) (tenant : ID) (claims : list Work) (finished : nat)
  : prog wport (nat * option GoError) :=
  match claims with
  | [] => Ret (finished, None)
  | claim :: rest =>
      match claimExpiresAt claim with
      | None => Ret (finished, Some [ErrConflict])
      | Some expires =>
          do! now <- trigger Now;
          if negb (After expires now) then Ret (finished, Some [ErrConflict])
          else
            do! answer <- trigger (CallReconcile expires tenant (targetID claim));
            do! done <- trigger (FinishCompute claim (finish_done answer) (finish_code answer)
                                   (retry w));
            match done with
            | Err e => Ret (finished, Some e)
            | Ok _ => run_claims w tenant rest (S finished)
            end
      end
  end.

Definition RunBatch (w : Worker) (tenant owner : ID) (limit : Z)
  : prog wport (nat * option GoError) :=
  do! claimed <- trigger (ClaimCompute tenant owner (lease w) limit);
  match claimed with
  | Err e => Ret (O, Some e)
  | Ok claims => run_claims w tenant claims 0
  end.

(** ** Theorems *)

(** The events of one claim: the clock, the reconciler's answer for the claim's
    target, and the finish with that answer. *)
Definition claim_events (w : Worker) (tenant : ID) (claim : Work) (expires now : Time)
    (answer : result GoError ComputeObservation) (u : result GoError unit) : list (event wport) :=
  [ occurred Now now;
    occurred (CallReconcile expires tenant (targetID claim)) answer;
    occurred (FinishCompute claim (finish_done answer) (finish_code answer) (retry w)) u ].

(** A claim reconciled before the end of its lease, and finished. *)
Definition finished_claim (w : Worker) (tenant : ID) (claim : Work) (es : list (event wport)) : Prop :=
  exists expires now answer,
    claimExpiresAt claim = Some expires /\ nanos now < nanos expires
    /\ es = claim_events w tenant claim expires now answer (Ok tt).

(** The events after the last finished claim: nothing, a lapsed lease, or a
    refused finish. *)
Definition stopped (w : Worker) (tenant : ID) (rest : list Work) (es : list (event wport))
    (err : option GoError) : Prop :=
  match rest with
  | [] => es = [] /\ err = None
  | claim :: _ =>
      (claimExpiresAt claim = None /\ es = [] /\ err = Some [ErrConflict])
      \/ exists expires now, claimExpiresAt claim = Some expires
         /\ ((nanos expires <= nanos now /\ es = [occurred Now now] /\ err = Some [ErrConflict])
             \/ exists answer e,
                nanos now < nanos expires /\ err = Some e
                /\ es = claim_events w tenant claim expires now answer (Err e))
  end.

Lemma run_claims_spec w tenant claims : forall finished tr n err,
  Interaction.runs (run_claims w tenant claims finished) tr (n, err) ->
  exists did rest segs tail,
    claims = did ++ rest /\ n = (finished + length did)%nat
    /\ tr = concat segs ++ tail /\ Forall2 (finished_claim w tenant) did segs
    /\ stopped w tenant rest tail err.
Proof.
  induction claims as [| claim rest IH]; intros finished tr n err R.
  - cbn in R. destruct R as [-> [= -> ->]]. exists [], [], [], []. cbn. by split_and!; try lia.
  - cbn [run_claims] in R. destruct (claimExpiresAt claim) as [expires |] eqn:E.
    2: { cbn in R. destruct R as [-> [= -> ->]]. exists [], (claim :: rest), [], [].
         cbn. split_and!; try done; try lia. by left. }
    cbn in R. destruct R as (now & tr1 & -> & R).
    destruct (After expires now) eqn:L; cbn in R.
    2: { destruct R as [-> [= -> ->]]. exists [], (claim :: rest), [], [occurred Now now].
         split_and!; try done; try (cbn; lia). right. exists expires, now. split; [done |].
         left. split; [tlia | done]. }
    destruct R as (answer & tr2 & -> & u & tr3 & -> & R). destruct u as [[] | e].
    + apply IH in R as (did & rest' & segs & tail & -> & -> & -> & F & S).
      exists (claim :: did), rest',
        (claim_events w tenant claim expires now answer (Ok tt) :: segs), tail.
      split_and!; [done | cbn; lia | reflexivity | | done].
      constructor; [| done]. exists expires, now, answer. split_and!; [done | tlia | done].
    + cbn in R. destruct R as [-> [= -> ->]]. exists [], (claim :: rest), [],
        (claim_events w tenant claim expires now answer (Err e)).
      split_and!; [done | cbn; lia | reflexivity | constructor |].
      right. exists expires, now. split; [done |]. right. exists answer, e.
      split_and!; [tlia | done | done].
Qed.

(** A batch is worked through in order: the finished claims are a prefix of
    the claimed ones, each reconciled once inside its lease and finished once
    with the outcome of that reconciliation, and the batch stops at the first
    lapsed lease or refused finish. *)
Theorem worker_batch_in_order w tenant owner limit tr n err
    (R : Interaction.runs (RunBatch w tenant owner limit) tr (n, err)) :
  exists answer work,
    tr = occurred (ClaimCompute tenant owner (lease w) limit) answer :: work
    /\ match answer with
       | Err e => work = [] /\ n = O /\ err = Some e
       | Ok claims =>
           exists did rest segs tail,
             claims = did ++ rest /\ n = length did /\ work = concat segs ++ tail
             /\ Forall2 (finished_claim w tenant) did segs /\ stopped w tenant rest tail err
       end.
Proof.
  cbn in R. destruct R as (answer & work & -> & R). exists answer, work. split; [done |].
  destruct answer as [claims | e]; [| by destruct R as [-> [= -> ->]]].
  exact (run_claims_spec w tenant claims 0 work n err R).
Qed.

(** The arguments of a finish call. *)
Definition finish_of (e : event wport) : option (Work * bool * string * Z) :=
  match e with
  | existT _ (c, _) =>
      match c with
      | FinishCompute claim done code r => Some (claim, done, code, r)
      | _ => None
      end
  end.

Lemma finish_done_released answer : finish_done answer = true ->
  exists o, answer = Ok o /\ Converged o = true /\ OState o = Released.
Proof.
  destruct answer as [o | e]; cbn; intros H; [| discriminate H]. simp_bool. eauto.
Qed.

(** The finish of one claim, within the events of that claim. *)
Lemma finish_in_segment w tenant claim expires now answer u e c code r :
  e ∈ claim_events w tenant claim expires now answer u ->
  finish_of e = Some (c, true, code, r) ->
  exists deadline o,
    occurred (CallReconcile deadline tenant (targetID c)) (Ok o)
      ∈ claim_events w tenant claim expires now answer u
    /\ Converged o = true /\ OState o = Released /\ code = Code o.
Proof.
  unfold claim_events. rewrite !elem_of_cons. intros [-> | [-> | [-> | H]]] F; try discriminate F;
    [| by apply elem_of_nil in H].
  cbn in F. injection F as -> D <- <-. destruct (finish_done_released answer D) as (o & -> & ? & ?).
  exists expires, o. split_and!; try done. right. left.
Qed.

(** Work is finished as done only on confirmed release: whenever a claim is
    finished with [done], the reconciler had answered a converged, released
    observation for its target, and its code is the one recorded. *)
Theorem worker_done_only_on_release w tenant owner limit tr n err e claim code r
    (R : Interaction.runs (RunBatch w tenant owner limit) tr (n, err))
    (I : e ∈ tr) (F : finish_of e = Some (claim, true, code, r)) :
  exists deadline o,
    occurred (CallReconcile deadline tenant (targetID claim)) (Ok o) ∈ tr
    /\ Converged o = true /\ OState o = Released /\ code = Code o.
Proof.
  cbn in R. destruct R as (a & work & -> & R).
  apply elem_of_cons in I as [-> | I]; [discriminate F |].
  enough (exists deadline o,
            occurred (CallReconcile deadline tenant (targetID claim)) (Ok o) ∈ work
            /\ Converged o = true /\ OState o = Released /\ code = Code o) as (d & o & ? & ?)
    by (exists d, o; split; [by right | done]).
  destruct a as [claims | e']; [| destruct R as [-> _]; by apply elem_of_nil in I].
  apply run_claims_spec in R as (did & rest & segs & tail & -> & _ & -> & D & S).
  apply elem_of_app in I as [I | I].
  - apply list_elem_of_In, in_concat in I as (seg & Hs & I). apply list_elem_of_In in Hs, I.
    apply list_elem_of_lookup in Hs as (i & Hi).
    destruct (Forall2_lookup_r _ _ _ _ _ D Hi) as (c & Hc & expires & now & answer & _ & _ & ->).
    destruct (finish_in_segment w tenant c expires now answer (Ok tt) e claim code r I F)
      as (d & o & Ho & ?).
    exists d, o. split; [| done]. apply elem_of_app. left. apply list_elem_of_In, in_concat.
    eexists. split; [apply list_elem_of_In; by apply list_elem_of_lookup; eauto |].
    by apply list_elem_of_In.
  - destruct rest as [| c rest]; [destruct S as [-> _]; by apply elem_of_nil in I |].
    destruct S as [(_ & -> & _) | (expires & now & _ & [(_ & -> & _) | (answer & x & _ & _ & ->)])].
    + by apply elem_of_nil in I.
    + apply list_elem_of_singleton in I as ->. discriminate F.
    + destruct (finish_in_segment w tenant c expires now answer (Err x) e claim code r I F)
        as (d & o & Ho & ?).
      exists d, o. split; [| done]. apply elem_of_app. by right.
Qed.

(** ** Witnesses *)

Definition ex_worker : Worker := mkWorker (30 * second) (60 * second).

Definition ex_observation : ComputeObservation :=
  mkComputeObservation Released "COMPUTE_ABSENT" true false noFacts.

(** One claim, reconciled to release one second into its lease. *)
Definition ex_wport : forall B, wport B -> B :=
  fun B c =>
    match c in wport B return B with
    | ClaimCompute _ _ _ _ => Ok [ex_claimed id3 1 1]
    | Now => at_second 2
    | CallReconcile _ _ _ => Ok ex_observation
    | FinishCompute _ _ _ _ => Ok tt
    end.

Definition ex_trace : list (event wport) :=
  fst (execute ex_wport (RunBatch ex_worker id1 id4 10)).

Lemma worker_ex_run : Interaction.runs (RunBatch ex_worker id1 id4 10) ex_trace (1%nat, None).
Proof. exact (execute_runs ex_wport (RunBatch ex_worker id1 id4 10)). Qed.

Lemma worker_batch_in_order_witness :
  exists answer work,
    ex_trace = occurred (ClaimCompute id1 id4 (lease ex_worker) 10) answer :: work
    /\ match answer with
       | Err e => work = [] /\ 1%nat = O /\ None = Some e
       | Ok claims =>
           exists did rest segs tail,
             claims = did ++ rest /\ 1%nat = length did /\ work = concat segs ++ tail
             /\ Forall2 (finished_claim ex_worker id1) did segs
             /\ stopped ex_worker id1 rest tail None
       end.
Proof. exact (worker_batch_in_order ex_worker id1 id4 10 ex_trace 1 None worker_ex_run). Defined.

Lemma worker_done_only_on_release_witness :
  exists deadline o,
    occurred (CallReconcile deadline id1 id3) (Ok o) ∈ ex_trace
    /\ Converged o = true /\ OState o = Released /\ "COMPUTE_ABSENT" = Code o.
Proof.
  refine (worker_done_only_on_release ex_worker id1 id4 10 ex_trace 1 None
           (occurred (FinishCompute (ex_claimed id3 1 1) true "COMPUTE_ABSENT" (60 * second)) (Ok tt))
           (ex_claimed id3 1 1) "COMPUTE_ABSENT" (60 * second) worker_ex_run _ eq_refl).
  do 3 right. left.
Defined.
