(* ===== verification/LocalAuthority.v ===== *)
(** * internal/adapters/authority/local: the standalone run authority

    [New] freezes operator policy, [evaluate] narrows a request against it into a
    Grant, [status] validates, expires and cancels issued grants.  Proved: a grant
    never exceeds the profile it was resolved from, nor the operator's global
    ceilings, keeps that profile's constraints, and expires within the allowed
    duration and deadline; a grant is reported active only inside its window, and
    a cancelled or expired one stays so. *)

From Stdlib Require Import ZArith Bool Lia.
From stdpp Require Import base strings list gmap.
From S2P Require Import Prelude Regex GoStd Sha256 Primitives RuntimeProfile Session.
From S2P Require Import Interaction.

(** ** Data (internal/ports/authority, policy.go) *)

Inductive AuthorityError : Type :=
| ErrDenied | ErrAuthorityConflict | ErrAuthorityUnavailable | ErrInvalidGrant | ErrConfiguration.

Record Caller : Type := mkCaller {
  CTenantID : ID;
  CPrincipalDigest : string;
  CDeadline : Time
}.

Record Request : Type := mkRequest {
  RSessionID : ID;
  RSessionVersion : Z;
  RGeneration : Z;
  RKeyDigest : string;
  RRequestDigest : string;
  RProfile : string;
  RNetwork : string;
  RArchitecture : string;
  RDuration : Z;
  RCPU : option RequestLimit;
  RMemory : option RequestLimit;
  REphemeralStorage : option RequestLimit;
  RWorkspaceBytes : option Z;
  RMaxProcesses : option Z;
  RCapabilities : list string
}.

Record Grant : Type := mkGrant {
  GID : ID;
  Mode : string;
  Issuer : string;
  PolicyDigest : string;
  GReason : string;
  GTenantID : ID;
  GPrincipalDigest : string;
  GSessionID : ID;
  GSessionVersion : Z;
  GGeneration : Z;
  GRequestDigest : string;
  GRuntime : RuntimeBinding;
  GProfile : Profile;
  GProfileDigest : string;
  GImplementationDigest : string;
  GImplementation : string;
  GCapabilities : list string;
  IssuedAt : Time;
  ExpiresAt : Time
}.

Record ApprovedRuntime : Type := mkApprovedRuntime {
  ABinding : RuntimeBinding;
  AProfiles : list string;
  ACapabilities : list string
}.

Record Config : Type := mkConfig {
  ConfigMode : string;
  ConfigRevision : string;
  DefaultProfile : string;
  Profiles : list string;
  DefaultDuration : Z;
  MaximumDuration : Z;
  MaxCPU : Z;
  MaxMemory : Z;
  MaxEphemeralStorage : Z;
  MaxWorkspaceBytes : Z;
  MaxMaxProcesses : Z;
  ConfigArchitectures : list string;
  Networks : list string;
  Runtimes : list ApprovedRuntime;
  Tenants : list string;
  Principals : list string
}.

Record resolved : Type := mkResolved {
  VProfile : Profile;
  VDigest : string;
  VImplementationDigest : string;
  VImplementation : string
}.

Record Authority : Type := mkAuthority {
  config : Config;
  profiles : gmap string resolved;
  revision : string
}.

#[export] Instance RuntimeBinding_eq_dec : EqDecision RuntimeBinding.
Proof. solve_decision. Defined.

(** ** Helpers of policy.go and admission.go *)

(** [slices.Contains] *)
Definition contains (allowed : list string) (v : string) : bool := existsb (fun x => x == v) allowed.

Fixpoint subset_loop (values allowed : list string) (seen : gset string) : bool :=
  match values with
  | [] => true
  | v :: rest =>
      if bool_decide (v ∈ seen) || negb (contains allowed v) then false
      else subset_loop rest allowed ({[v]} ∪ seen)
  end.

Definition subset (values allowed : list string) : bool := subset_loop values allowed ∅.

Definition narrowLimit (base : RequestLimit) (requested : option RequestLimit)
  : option RequestLimit :=
  match requested with
  | None => Some base
  | Some r =>
      if (RuntimeProfile.Request r <=? 0) || (Limit r <=? 0)
         || (Limit r <? RuntimeProfile.Request r)
         || (RuntimeProfile.Request base <? RuntimeProfile.Request r) || (Limit base <? Limit r)
      then None
      else Some r
  end.

Definition narrowValue (base : Z) (requested : option Z) : option Z :=
  match requested with
  | None => Some base
  | Some r => if (r <=? 0) || (base <? r) then None else Some r
  end.

(** [slices.Contains] on architectures, then the singleton. *)
Definition narrowArchitecture (base : list string) (requested : string) : option (list string) :=
  if requested == "" then Some base
  else if contains base requested then Some [requested] else None.

Section Authority_.

(** [jsoncanonicalizer.Transform], a third-party package. *)
Variable Transform : string -> option string.

(** [json.Marshal] of a Grant, and of the policy the revision digests: encoding
    by reflection over the struct tags, used only through its bytes. *)
Variable marshalGrant : Grant -> option string.
Variable marshalPolicy : Config -> gmap string resolved -> string.

Definition canonicalDigest (raw digest : string) : bool :=
  if negb (match_string sha256_pattern digest)
     || match to_bytes raw with b :: _ => negb (b =? 123) | [] => true end
  then false
  else match Transform raw with
  | Some b => Digest b == digest
  | None => false
  end.

(** A binding with both JSON documents cleared. *)
Definition evidence (b : RuntimeBinding) : RuntimeBinding :=
  mkRuntimeBinding (AuthorityMode b) (AuthorityNamespace b) (AgentID b) (AgentVersionID b)
    (RuntimeSpecSchemaVersion b) "" (RuntimeSpecDigest b) (RuntimeProfileSchemaVersion b) ""
    (RuntimeProfileDigest b).

Definition sameBinding (a b : RuntimeBinding) : bool :=
  if negb (canonicalDigest (RuntimeSpec b) (RuntimeSpecDigest b))
     || negb (canonicalDigest (RuntimeProfileSnapshot b) (RuntimeProfileDigest b))
  then false
  else evidence a == evidence b.

(** ** policy.go: New *)

(** One enabled profile against the global ceilings; [None] is a refusal. *)
Definition admit_profile (c : Config) (lookup : string -> option resolved) (name : string)
    (ps : gmap string resolved) : option (gmap string resolved) :=
  match lookup name with
  | None => None
  | Some v =>
      let p := VProfile v in
      let r := PResources p in
      if match ps !! name with Some old => VDigest old != "" | None => false end
         || (MaxCPU c <? Limit (CPU r)) || (MaxMemory c <? Limit (Memory r))
         || (MaxEphemeralStorage c <? Limit (EphemeralStorage r))
         || (MaxWorkspaceBytes c <? WorkspaceBytes (PStorage p))
         || (MaxMaxProcesses c <? MaxProcesses r)
         || negb (subset (Architectures (PPlatform p)) (ConfigArchitectures c))
         || negb (contains (Networks c) (NProfile (PNetwork p)))
         || negb (Count (RGPU r) =? 0) || GPUAllowed (PPlatform p)
      then None
      else Some (<[name := v]> ps)
  end.

Fixpoint admit_profiles (c : Config) (lookup : string -> option resolved) (names : list string)
    (ps : gmap string resolved) : option (gmap string resolved) :=
  match names with
  | [] => Some ps
  | name :: rest =>
      match admit_profile c lookup name ps with
      | None => None
      | Some ps' => admit_profiles c lookup rest ps'
      end
  end.

(** The grant whose size bounds the replay record of a runtime and a profile. *)
Definition sizing_grant (b : RuntimeBinding) (v : resolved) : Grant :=
  mkGrant "" "" "" "" "" "" "" "" 0 0 "" b (VProfile v) "" "" (VImplementation v) [] zeroTime
    zeroTime.

Definition admit_runtime (c : Config) (ps : gmap string resolved) (previous : list ApprovedRuntime)
    (r : ApprovedRuntime) : bool :=
  let b := ABinding r in
  negb ((AuthorityMode b != "LOCAL") || (AuthorityNamespace b != "thinkpixelar/local")
        || (AgentID b == "") || (AgentVersionID b == "") || (RuntimeSpecSchemaVersion b == "")
        || (RuntimeProfileSchemaVersion b == "") || (32768 <? len (RuntimeSpec b))
        || (16384 <? len (RuntimeProfileSnapshot b))
        || negb (canonicalDigest (RuntimeSpec b) (RuntimeSpecDigest b))
        || negb (canonicalDigest (RuntimeProfileSnapshot b) (RuntimeProfileDigest b))
        || match AProfiles r with [] => true | _ => false end
        || negb (subset (AProfiles r) (Profiles c))
        || negb (subset (ACapabilities r) ["shell"; "process"; "fork"]))
  && forallb (fun p => negb (sameBinding (ABinding p) b)) previous
  && forallb (fun name =>
        match ps !! name with
        | Some v => match marshalGrant (sizing_grant b v) with
                    | Some raw => negb (60000 <? len raw)
                    | None => true
                    end
        | None => true
        end) (AProfiles r).

Fixpoint admit_runtimes (c : Config) (ps : gmap string resolved)
    (previous rest : list ApprovedRuntime) : bool :=
  match rest with
  | [] => true
  | r :: rest' => admit_runtime c ps previous r && admit_runtimes c ps (previous ++ [r]) rest'
  end.

Definition day : Z := 24 * 3600 * 1000000000.

(** The registry, store and clock are present.  The frozen copy of the
    configuration is a value equal to it. *)
Definition New (c : Config) (lookup : string -> option resolved)
  : result AuthorityError Authority :=
  if (ConfigMode c != "local") || negb (match_string sha256_pattern (ConfigRevision c))
     || (DefaultDuration c <=? 0) || (MaximumDuration c <? DefaultDuration c)
     || (365 * day <? MaximumDuration c)
     || (Z.of_nat (length (Profiles c)) =? 0) || (128 <? Z.of_nat (length (Profiles c)))
     || negb (contains (Profiles c) (DefaultProfile c))
     || (Z.of_nat (length (Runtimes c)) =? 0) || (128 <? Z.of_nat (length (Runtimes c)))
  then Err ErrConfiguration
  else if negb (forallb (fun v => 0 <? v)
                  [MaxCPU c; MaxMemory c; MaxEphemeralStorage c; MaxWorkspaceBytes c;
                   MaxMaxProcesses c])
  then Err ErrConfiguration
  else if negb (subset (ConfigArchitectures c) ["amd64"; "arm64"])
          || match ConfigArchitectures c with [] => true | _ => false end
          || match Networks c with [] => true | _ => false end
          || negb (subset (Networks c) ["none"; "thinkpixel-only"; "restricted-development";
                                        "package-mirrors"; "unrestricted-standalone"])
  then Err ErrConfiguration
  else if negb (forallb (match_string sha256_pattern) (Principals c)) then Err ErrConfiguration
  else if negb (forallb validID (Tenants c)) then Err ErrConfiguration
  else match admit_profiles c lookup (Profiles c) ∅ with
  | None => Err ErrConfiguration
  | Some ps =>
      if negb (admit_runtimes c ps [] (Runtimes c)) then Err ErrConfiguration
      else Ok (mkAuthority c ps (Digest (marshalPolicy c ps)))
  end.

(** ** admission.go: evaluate *)

(** The profile with the narrowed parts replaced. *)
Definition narrowed (p : Profile) (cpu mem eph : RequestLimit) (workspace processes : Z)
    (archs : list string) : Profile :=
  let r := PResources p in
  let s := PStorage p in
  let q := PPlatform p in
  mkProfile (SchemaVersion p) (Name p) (Description p) (IsolationClass p)
    (mkResources cpu mem eph processes (RGPU r))
    (mkStorage workspace (WorkspaceMount s) (VendorStateRoot s) (AccessMode s) (SnapshotClass s)
       (EncryptionRequired s))
    (PNetwork p)
    (mkPlatform (OS q) archs (GPUAllowed q) (NodeClass q))
    (PSecurity p) (PLifecycle p) (PImplementation p).

(** The narrowing guards of [evaluate], in one pass over the profile's copy. *)
Definition narrow (p : Profile) (r : Request) (approved : ApprovedRuntime) : option Profile :=
  match narrowLimit (CPU (PResources p)) (RCPU r),
        narrowLimit (Memory (PResources p)) (RMemory r),
        narrowLimit (EphemeralStorage (PResources p)) (REphemeralStorage r),
        narrowValue (WorkspaceBytes (PStorage p)) (RWorkspaceBytes r),
        narrowValue (MaxProcesses (PResources p)) (RMaxProcesses r) with
  | Some cpu, Some mem, Some eph, Some workspace, Some processes =>
      if ((RNetwork r != "") && (RNetwork r != NProfile (PNetwork p)))
         || negb (subset (RCapabilities r) (ACapabilities approved))
      then None
      else match narrowArchitecture (Architectures (PPlatform p)) (RArchitecture r) with
      | None => None
      | Some archs => Some (narrowed p cpu mem eph workspace processes archs)
      end
  | _, _, _, _, _ => None
  end.

Definition resting_state (s : State) : bool := (s == Ready) || (s == Idle).

Definition evaluate (a : Authority) (c : Caller) (r : Request) (self : option Session) (i : ID)
    (now : Time) : result AuthorityError Grant :=
  match self with
  | None => Err ErrDenied
  | Some s =>
      if (Session.tenantID s != CTenantID c) || (Session.id s != RSessionID r)
         || (stateVersion s != RSessionVersion r) || (max_int64 <=? executionGeneration s)
         || (RGeneration r != u64 (executionGeneration s + 1)) || negb (resting_state (state s))
      then Err ErrDenied
      else
        let b := binding s in
        match List.find (fun v => sameBinding (ABinding v) b) (Runtimes (config a)) with
        | None => Err ErrDenied
        | Some approved =>
            let name := if RProfile r == "" then DefaultProfile (config a) else RProfile r in
            match profiles a !! name with
            | None => Err ErrDenied
            | Some entry =>
                if negb (contains (AProfiles approved) name) then Err ErrDenied
                else match narrow (VProfile entry) r approved with
                | None => Err ErrDenied
                | Some p =>
                    let duration := if RDuration r =? 0 then DefaultDuration (config a)
                                    else RDuration r in
                    if (duration <=? 0) || (MaximumDuration (config a) <? duration)
                    then Err ErrDenied
                    else
                      let expires := Add now duration in
                      let expires := if negb (IsZero (CDeadline c)) && Before (CDeadline c) expires
                                     then UTC (CDeadline c) else expires in
                      if negb (After expires now) then Err ErrDenied
                      else Ok (mkGrant i "local" "thinkpixelar/local" (revision a)
                                 "LOCAL_POLICY_ADMITTED" (CTenantID c) (CPrincipalDigest c)
                                 (Session.id s) (stateVersion s) (RGeneration r)
                                 (RRequestDigest r) b p (VDigest entry)
                                 (VImplementationDigest entry) (VImplementation entry)
                                 (RCapabilities r) now expires)
                end
            end
        end
  end.

End Authority_.

(** ** Lemmas *)

Lemma contains_spec allowed v : contains allowed v = true <-> v ∈ allowed.
Proof.
  unfold contains. rewrite existsb_exists. split.
  - intros (x & Hx & E). apply bool_decide_eq_true in E as <-. by apply list_elem_of_In.
  - intros H. exists v. split; [by apply list_elem_of_In | by apply bool_decide_eq_true].
Qed.

Lemma subset_loop_spec values allowed : forall seen,
  subset_loop values allowed seen = true <->
  NoDup values /\ (forall v, v ∈ values -> v ∉ seen) /\ (forall v, v ∈ values -> v ∈ allowed).
Proof.
  induction values as [| x values IH]; intros seen; cbn [subset_loop].
  - split; [| done]. intros _. split_and!; [constructor | set_solver | set_solver].
  - destruct (_ || _) eqn:G.
    + split; [discriminate |]. intros (N & S & A). exfalso.
      apply orb_true_iff in G as [G | G]; simp_bool.
      * by apply (S x); [left |].
      * assert (C : contains allowed x = true) by (apply contains_spec, A; left). congruence.
    + simp_bool. rewrite IH, NoDup_cons. apply contains_spec in H0. split.
      * intros (N & S & A). split_and!; try done; set_solver.
      * intros ([Nx N] & S & A). split_and!; try done; set_solver.
Qed.

Lemma subset_spec values allowed :
  subset values allowed = true <-> NoDup values /\ values ⊆ allowed.
Proof.
  unfold subset. rewrite subset_loop_spec. split.
  - intros (N & _ & A). split; [done |]. intros v. apply A.
  - intros [N A]. split_and!; [done | set_solver | apply A].
Qed.

(** [q] asks for no more than [p] and differs from it in nothing else. *)
Record narrower (q p : Profile) : Prop := {
  n_cpu : Limit (CPU (PResources q)) <= Limit (CPU (PResources p))
          /\ RuntimeProfile.Request (CPU (PResources q)) <= RuntimeProfile.Request (CPU (PResources p));
  n_memory : Limit (Memory (PResources q)) <= Limit (Memory (PResources p))
          /\ RuntimeProfile.Request (Memory (PResources q))
             <= RuntimeProfile.Request (Memory (PResources p));
  n_ephemeral : Limit (EphemeralStorage (PResources q)) <= Limit (EphemeralStorage (PResources p))
          /\ RuntimeProfile.Request (EphemeralStorage (PResources q))
             <= RuntimeProfile.Request (EphemeralStorage (PResources p));
  n_workspace : WorkspaceBytes (PStorage q) <= WorkspaceBytes (PStorage p);
  n_processes : MaxProcesses (PResources q) <= MaxProcesses (PResources p);
  n_architectures : Architectures (PPlatform q) ⊆ Architectures (PPlatform p);
  n_rest : PNetwork q = PNetwork p /\ PSecurity q = PSecurity p
           /\ IsolationClass q = IsolationClass p /\ RGPU (PResources q) = RGPU (PResources p)
           /\ GPUAllowed (PPlatform q) = GPUAllowed (PPlatform p)
}.

Lemma narrowLimit_le base r x : narrowLimit base r = Some x ->
  Limit x <= Limit base /\ RuntimeProfile.Request x <= RuntimeProfile.Request base
  /\ (RuntimeProfile.Request base <= Limit base -> RuntimeProfile.Request x <= Limit x).
Proof.
  unfold narrowLimit. destruct r as [r |]; [| intros [= <-]; split_and!; lia].
  destruct (_ || _) eqn:G; [discriminate |]. intros [= <-]. simp_bool. split_and!; lia.
Qed.

Lemma narrowValue_le base r x : narrowValue base r = Some x -> x <= base.
Proof.
  unfold narrowValue. destruct r as [r |]; [| intros [= <-]; lia].
  destruct (_ || _) eqn:G; [discriminate |]. intros [= <-]. simp_bool. lia.
Qed.

Lemma narrowArchitecture_sub base r x : narrowArchitecture base r = Some x -> x ⊆ base.
Proof.
  unfold narrowArchitecture. destruct (r == ""); [by intros [= <-] |].
  destruct (contains base r) eqn:C; [| discriminate]. intros [= <-].
  apply contains_spec in C. set_solver.
Qed.

Lemma narrow_narrower p r approved q : narrow p r approved = Some q ->
  narrower q p /\ NoDup (RCapabilities r) /\ RCapabilities r ⊆ ACapabilities approved
  /\ (ValidateConstraints p = Ok tt -> ValidateConstraints q = Ok tt).
Proof.
  unfold narrow. destruct (narrowLimit (CPU _) _) as [cpu |] eqn:E1; [| discriminate].
  destruct (narrowLimit (Memory _) _) as [mem |] eqn:E2; [| discriminate].
  destruct (narrowLimit (EphemeralStorage _) _) as [eph |] eqn:E3; [| discriminate].
  destruct (narrowValue (WorkspaceBytes _) _) as [ws |] eqn:E4; [| discriminate].
  destruct (narrowValue (MaxProcesses _) _) as [np |] eqn:E5; [| discriminate].
  destruct (_ || _) eqn:G; [discriminate |].
  destruct (narrowArchitecture _ _) as [archs |] eqn:E6; [| discriminate]. intros [= <-].
  apply orb_false_iff in G as [_ G]. apply negb_false_iff, subset_spec in G as [N S].
  apply narrowLimit_le in E1 as (A1 & A2 & A3), E2 as (B1 & B2 & B3), E3 as (C1 & C2 & C3).
  apply narrowValue_le in E4, E5. apply narrowArchitecture_sub in E6.
  split_and!; [constructor; cbn; try done; lia | done | done |].
  rewrite !ValidateConstraints_iff. intros [(R & G1 & G2) Hd]. split.
  - split_and!; [| done | done]. apply Forall_cons in R as [R1 R]. apply Forall_cons in R as [R2 R].
    apply Forall_cons in R as [R3 _]. repeat constructor; auto.
  - intros I. destruct (Hd I). by constructor.
Qed.

(** The operator's global ceilings. *)
Record within_ceilings (c : Config) (p : Profile) : Prop := {
  wc_cpu : Limit (CPU (PResources p)) <= MaxCPU c;
  wc_memory : Limit (Memory (PResources p)) <= MaxMemory c;
  wc_ephemeral : Limit (EphemeralStorage (PResources p)) <= MaxEphemeralStorage c;
  wc_workspace : WorkspaceBytes (PStorage p) <= MaxWorkspaceBytes c;
  wc_processes : MaxProcesses (PResources p) <= MaxMaxProcesses c;
  wc_architectures : Architectures (PPlatform p) ⊆ ConfigArchitectures c;
  wc_network : NProfile (PNetwork p) ∈ Networks c;
  wc_gpu : Count (RGPU (PResources p)) = 0 /\ GPUAllowed (PPlatform p) = false
}.

Lemma within_ceilings_narrower c p q : within_ceilings c p -> narrower q p -> within_ceilings c q.
Proof.
  intros [W1 W2 W3 W4 W5 W6 W7 [W8 W9]] [N1 N2 N3 N4 N5 N6 (N7 & N8 & N9 & N10 & N11)].
  constructor; try lia; [set_solver | by rewrite N7 | by rewrite N10, N11].
Qed.

Lemma admit_profiles_ceilings c lookup names : forall ps qs,
  map_Forall (fun _ v => within_ceilings c (VProfile v)) ps ->
  admit_profiles c lookup names ps = Some qs ->
  map_Forall (fun _ v => within_ceilings c (VProfile v)) qs.
Proof.
  induction names as [| name names IH]; intros ps qs F H; cbn in H; [by simplify_eq |].
  unfold admit_profile in H. destruct (lookup name) as [v |]; [| discriminate H].
  destruct (_ || _) eqn:G in H; [discriminate H |].
  apply IH in H; [done |]. apply map_Forall_insert_2; [| done]. simp_bool.
  match goal with X : subset _ _ = true |- _ => apply subset_spec in X as [_ X] end.
  match goal with X : contains _ _ = true |- _ => apply contains_spec in X end.
  constructor; try done; try lia. split; [lia | done].
Qed.

Section AuthorityTheorems.
Context (Transform : string -> option string).
Context (marshalGrant : Grant -> option string).
Context (marshalPolicy : Config -> gmap string resolved -> string).

Lemma New_ceilings c lookup a : New Transform marshalGrant marshalPolicy c lookup = Ok a ->
  config a = c /\ map_Forall (fun _ v => within_ceilings c (VProfile v)) (profiles a).
Proof.
  unfold New. intros H.
  repeat match type of H with
  | (if ?b then Err _ else _) = _ => destruct b; [discriminate H |]
  end.
  destruct (admit_profiles _ _ _ _) as [ps |] eqn:E; [| discriminate H].
  destruct (negb _) in H; [discriminate H |]. injection H as <-. split; [done |].
  apply (admit_profiles_ceilings c lookup (Profiles c) ∅); [apply map_Forall_empty | done].
Qed.

(** Everything an issued grant was checked against. *)
Record granted (a : Authority) (c : Caller) (r : Request) (s : Session) (now : Time) (g : Grant)
    (entry : resolved) (approved : ApprovedRuntime) : Prop := {
  gr_session : Session.tenantID s = CTenantID c /\ Session.id s = RSessionID r
     /\ stateVersion s = RSessionVersion r /\ (state s = Ready \/ state s = Idle);
  gr_generation : GGeneration g = executionGeneration s + 1 /\ GGeneration g <= max_int64;
  gr_runtime : approved ∈ Runtimes (config a)
     /\ sameBinding Transform (ABinding approved) (binding s) = true /\ GRuntime g = binding s;
  gr_profile : (exists name, profiles a !! name = Some entry /\ name ∈ AProfiles approved)
     /\ narrower (GProfile g) (VProfile entry);
  gr_capabilities : NoDup (GCapabilities g) /\ GCapabilities g ⊆ ACapabilities approved;
  gr_window : IssuedAt g = now /\ nanos now < nanos (ExpiresAt g)
     /\ nanos (ExpiresAt g) <= nanos now + MaximumDuration (config a)
     /\ (IsZero (CDeadline c) = false -> nanos (ExpiresAt g) <= nanos (CDeadline c));
  gr_constraints : ValidateConstraints (VProfile entry) = Ok tt ->
     ValidateConstraints (GProfile g) = Ok tt
}.

Lemma evaluate_granted a c r s i now g :
  0 <= executionGeneration s -> evaluate Transform a c r (Some s) i now = Ok g ->
  exists entry approved, granted a c r s now g entry approved.
Proof.
  intros P H. unfold evaluate in H. destruct (_ || _) eqn:G in H; [discriminate H |].
  apply orb_false_iff in G as [G St]. apply orb_false_iff in G as [G Gn]. simp_bool.
  apply orb_true_iff in St. rewrite !bool_decide_eq_true in St.
  destruct (List.find _ _) as [approved |] eqn:F in H; [| discriminate H].
  apply List.find_some in F as [Fi Fs].
  destruct (profiles a !! _) as [entry |] eqn:E in H; [| discriminate H].
  destruct (negb _) eqn:Cn in H; [discriminate H |]. apply negb_false_iff, contains_spec in Cn.
  destruct (narrow _ _ _) as [p |] eqn:N in H; [| discriminate H].
  destruct (_ || _) eqn:D in H; [discriminate H |]. apply orb_false_iff in D as [D1 D2].
  destruct (negb (After _ _)) eqn:X in H; [discriminate H |]. injection H as <-.
  apply negb_false_iff in X. apply narrow_narrower in N as (N1 & N2 & N3 & N4).
  exists entry, approved. constructor; cbn [GGeneration GRuntime GProfile GCapabilities IssuedAt ExpiresAt].
  - done.
  - match goal with L : (max_int64 <=? _) = false |- _ => apply Z.leb_gt in L end.
    match goal with Q : RGeneration r = _ |- _ => rewrite Q end.
    rewrite u64_succ_small; unfold two64, max_int64 in *; lia.
  - split; [by apply list_elem_of_In | done].
  - split; [eauto | done].
  - done.
  - set (d := if RDuration r =? 0 then _ else _) in *. clearbody d.
    unfold After, Before, Add, IsZero in *. cbn [nanos] in *.
    destruct (nanos (CDeadline c) =? 0) eqn:Z; cbn [negb andb] in *; cbn [nanos] in *.
    + split_and!; try done; lia.
    + destruct (nanos (CDeadline c) <? nanos now + d) eqn:B; cbn [nanos] in *;
        split_and!; try done; tlia.
  - done.
Qed.

(** A grant never exceeds policy.  Whatever the request asks for, an issued
    grant narrows one profile of an approved runtime in every resource, adds no
    capability, keeps the profile's constraints, fences exactly the next
    execution generation of a resting Session, and expires after it was issued
    but within the maximum duration and the caller's deadline. *)
Theorem authority_grant_within_policy a c r s i now g (P : 0 <= executionGeneration s)
    (H : evaluate Transform a c r (Some s) i now = Ok g) :
  exists entry approved, granted a c r s now g entry approved.
Proof. by apply evaluate_granted in H. Qed.

(** C16: The operator's ceilings bind end to end: every grant issued under a policy
    that [New] accepted stays within the global ceilings of its configuration. *)
Theorem authority_ceilings_end_to_end cfg lookup a c r s i now g
    (A : New Transform marshalGrant marshalPolicy cfg lookup = Ok a)
    (P : 0 <= executionGeneration s)
    (H : evaluate Transform a c r (Some s) i now = Ok g) :
  within_ceilings cfg (GProfile g).
Proof.
  apply New_ceilings in A as [_ F]. apply evaluate_granted in H as (entry & approved & []); [| done].
  destruct gr_profile0 as [(name & E & _) N]. exact (within_ceilings_narrower _ _ _ (F _ _ E) N).
Qed.

End AuthorityTheorems.

(** ** lifecycle.go: status, Validate and Cancel *)

(** [persistence.LocalGrantRecord]; the state is the stored string. *)
Record GrantRecord : Type := mkGrantRecord {
  Rec_ID : ID;
  Rec_SessionID : ID;
  Rec_Snapshot : string;
  Rec_Digest : string;
  Rec_State : string;
  Rec_Version : Z
}.

Inductive GrantState : Type := Active_ | Cancelled_ | Expired_.

#[export] Instance GrantState_eq_dec : EqDecision GrantState.
Proof. solve_decision. Defined.

#[export, refine] Instance GrantState_enum : GoEnum GrantState := {|
  enum_string s :=
    match s with Active_ => "ACTIVE" | Cancelled_ => "CANCELLED" | Expired_ => "EXPIRED" end;
  enum_all := [Active_; Cancelled_; Expired_]
|}.
Proof. all: [> enum_inj | enum_in]. Defined.

Record GrantStatus : Type := mkGrantStatus { GState : GrantState; GObservedAt : Time }.

(** Store errors, as far as [status] tells them apart. *)
Inductive StoreError : Type := StoreNotFound | StoreFailure.

(** The calls of [status]: the transaction, the locked row and the clock. *)
Inductive gport : Type -> Type :=
| Begin (tenant : ID) : gport (result StoreError unit)
| GetGrant (i : ID) : gport (result StoreError GrantRecord)
| ReadClock : gport Time
| TransitionGrant (i : ID) (version : Z) (st : string) (at_ : Time) : gport (result StoreError unit)
| CommitTx : gport (result StoreError unit).

(** The callback of the transaction; its error is the callback's own. *)
Definition status_work (g : Grant) (payload : string) (cancel : bool)
  : prog gport (result AuthorityError GrantStatus) :=
  do! got <- trigger (GetGrant (GID g));
  match got with
  | Err StoreNotFound => Ret (Err ErrInvalidGrant)
  | Err StoreFailure => Ret (Err ErrAuthorityUnavailable)
  | Ok record =>
      if (Rec_ID record != GID g) || (Rec_SessionID record != GSessionID g)
         || (Digest (Rec_Snapshot record) != Rec_Digest record) || (payload != Rec_Snapshot record)
      then Ret (Err ErrInvalidGrant)
      else
        do! clock <- trigger ReadClock;
        let now := UTC clock in
        if IsZero now then Ret (Err ErrAuthorityUnavailable)
        else if Before now (IssuedAt g) || negb (After (ExpiresAt g) (IssuedAt g))
        then Ret (Err ErrInvalidGrant)
        else match ParseEnum (Rec_State record) with
        | Err _ => Ret (Err ErrInvalidGrant)
        | Ok Active_ =>
            if Rec_Version record != 0 then Ret (Err ErrInvalidGrant)
            else
              let st := if negb (Before now (ExpiresAt g)) then Expired_
                        else if cancel then Cancelled_ else Active_ in
              if st == Active_ then Ret (Ok (mkGrantStatus st now))
              else
                do! moved <- trigger (TransitionGrant (GID g) (Rec_Version record) (enum_string st) now);
                match moved with
                | Err _ => Ret (Err ErrAuthorityUnavailable)
                | Ok _ => Ret (Ok (mkGrantStatus st now))
                end
        | Ok st =>
            if Rec_Version record != 1 then Ret (Err ErrInvalidGrant)
            else Ret (Ok (mkGrantStatus st now))
        end
  end.

(** Any error but an invalid grant is reported as unavailability. *)
Definition status_error (e : AuthorityError) : AuthorityError :=
  match e with ErrInvalidGrant => ErrInvalidGrant | _ => ErrAuthorityUnavailable end.

Definition status (marshalGrant : Grant -> option string) (c : Caller) (g : Grant) (cancel : bool)
  : prog gport (result AuthorityError GrantStatus) :=
  if negb (validID (CTenantID c)) || negb (match_string sha256_pattern (CPrincipalDigest c))
  then Ret (Err ErrDenied)
  else if negb (validID (GID g)) || (CTenantID c != GTenantID g)
          || (CPrincipalDigest c != GPrincipalDigest g) || (Mode g != "local")
          || (Issuer g != "thinkpixelar/local")
  then Ret (Err ErrInvalidGrant)
  else match marshalGrant g with
  | None => Ret (Err ErrInvalidGrant)
  | Some payload =>
      if 65536 <? len payload then Ret (Err ErrInvalidGrant)
      else
        do! begun <- trigger (Begin (CTenantID c));
        match begun with
        | Err _ => Ret (Err ErrAuthorityUnavailable)
        | Ok _ =>
            do! worked <- status_work g payload cancel;
            match worked with
            | Err e => Ret (Err (status_error e))
            | Ok st =>
                do! committed <- trigger CommitTx;
                match committed with
                | Err _ => Ret (Err ErrAuthorityUnavailable)
                | Ok _ => Ret (Ok st)
                end
            end
        end
  end.

Definition Validate (marshalGrant : Grant -> option string) (c : Caller) (g : Grant)
  : prog gport (result AuthorityError GrantStatus) := status marshalGrant c g false.

Definition Cancel (marshalGrant : Grant -> option string) (c : Caller) (g : Grant)
  : prog gport (result AuthorityError unit) :=
  do! result <- status marshalGrant c g true;
  match result with
  | Err e => Ret (Err e)
  | Ok _ => Ret (Ok tt)
  end.

(** ** postgres/local_grants.go: the grants table

    One tenant's rows; [pending] holds the transaction's writes until commit. *)

Record GrantTable : Type := mkGrantTable {
  committed : gmap ID GrantRecord;
  pending : gmap ID GrantRecord
}.

(** [Get]: [SELECT ... FOR UPDATE] *)
Definition Grants_Get (rows : gmap ID GrantRecord) (i : ID) : result StoreError GrantRecord :=
  match rows !! i with Some r => Ok r | None => Err StoreNotFound end.

(** [Transition]: [UPDATE ... WHERE state_version=$5 AND state='ACTIVE'], which
    must affect one row. *)
Definition Grants_Transition (rows : gmap ID GrantRecord) (i : ID) (version : Z) (st : string)
  : gmap ID GrantRecord * result StoreError unit :=
  match rows !! i with
  | Some r =>
      if (Rec_Version r == version) && (Rec_State r == "ACTIVE")
      then (<[i := mkGrantRecord (Rec_ID r) (Rec_SessionID r) (Rec_Snapshot r) (Rec_Digest r) st
                     (Rec_Version r + 1)]> rows, Ok tt)
      else (rows, Err StoreFailure)
  | None => (rows, Err StoreFailure)
  end.

(** The table as the other side of [status], with the clock reading [now]. *)
Definition grants_handler (now : Time) : forall B, GrantTable -> gport B -> GrantTable * B :=
  fun B t c =>
    match c in gport B return GrantTable * B with
    | Begin _ => (mkGrantTable (committed t) (committed t), Ok tt)
    | GetGrant i => (t, Grants_Get (pending t) i)
    | ReadClock => (t, now)
    | TransitionGrant i v st _ =>
        let (rows, r) := Grants_Transition (pending t) i v st in
        (mkGrantTable (committed t) rows, r)
    | CommitTx => (mkGrantTable (pending t) (pending t), Ok tt)
    end.

(** One call against the stored rows: the rows it leaves and its answer. *)
Definition call_status (marshalGrant : Grant -> option string) (rows : gmap ID GrantRecord)
    (now : Time) (c : Caller) (g : Grant) (cancel : bool)
  : gmap ID GrantRecord * result AuthorityError GrantStatus :=
  let (t, r) := run_state (grants_handler now) (mkGrantTable rows rows)
                  (status marshalGrant c g cancel) in
  (committed t, r).

(** ** Theorems about issued grants *)

(** Only an active, unexpired grant is reported active: the stored row was
    active in its first version and holds exactly the presented grant under its
    digest, the clock read under the row lock lay inside the grant's window, and
    the call was no cancellation, whatever the store and the clock answer. *)
Theorem authority_active_evidence marshalGrant c g cancel tr st
    (R : runs (status marshalGrant c g cancel) tr (Ok st)) (A : GState st = Active_) :
  cancel = false /\ CTenantID c = GTenantID g /\ CPrincipalDigest c = GPrincipalDigest g
  /\ exists record now,
       occurred (GetGrant (GID g)) (Ok record) ∈ tr /\ occurred ReadClock now ∈ tr
       /\ marshalGrant g = Some (Rec_Snapshot record)
       /\ Digest (Rec_Snapshot record) = Rec_Digest record
       /\ Rec_State record = "ACTIVE" /\ Rec_Version record = 0
       /\ nanos (IssuedAt g) <= nanos now < nanos (ExpiresAt g).
Proof.
  unfold status, status_work in R. explore R; simp_bool; try discriminate A; cbn [GState] in A.
  all: try match goal with P : ParseEnum _ = Ok _ |- _ => apply ParseEnum_ok in P end.
  all: try congruence.
  intros _. split_and!; try done.
  eexists _, _. split_and!; [right; left | do 2 right; left | done .. | tlia | tlia].
Qed.

(** The guards of [status] before the transaction, and those on the stored row. *)
Definition presentable (marshalGrant : Grant -> option string) (c : Caller) (g : Grant)
    (payload : string) : Prop :=
  negb (validID (CTenantID c)) || negb (match_string sha256_pattern (CPrincipalDigest c)) = false
  /\ negb (validID (GID g)) || (CTenantID c != GTenantID g)
     || (CPrincipalDigest c != GPrincipalDigest g) || (Mode g != "local")
     || (Issuer g != "thinkpixelar/local") = false
  /\ marshalGrant g = Some payload /\ (65536 <? len payload) = false.

Definition holds_grant (g : Grant) (payload : string) (record : GrantRecord) : Prop :=
  (Rec_ID record != GID g) || (Rec_SessionID record != GSessionID g)
  || (Digest (Rec_Snapshot record) != Rec_Digest record) || (payload != Rec_Snapshot record) = false.

(** A row that holds the grant in a terminal state. *)
Definition terminal_row (rows : gmap ID GrantRecord) (g : Grant) (payload : string) (s : GrantState)
  : Prop :=
  exists record, rows !! GID g = Some record /\ holds_grant g payload record
    /\ Rec_State record = enum_string s /\ Rec_Version record = 1 /\ s <> Active_.

(** The answer to a call on a row that is no longer active. *)
Lemma status_terminal marshalGrant rows now c g cancel payload s :
  presentable marshalGrant c g payload -> terminal_row rows g payload s ->
  nanos (IssuedAt g) < nanos (ExpiresAt g) ->
  IsZero now = false -> nanos (IssuedAt g) <= nanos now ->
  call_status marshalGrant rows now c g cancel = (rows, Ok (mkGrantStatus s (UTC now))).
Proof.
  intros (G1 & G2 & M & L) (record & E & G3 & S & V & N) W Z I.
  unfold call_status, status, status_work.
  rewrite G1, G2, M, L. cbn [pbind trigger run_state grants_handler committed pending].
  unfold Grants_Get. rewrite E. rewrite G3. cbn [pbind trigger run_state grants_handler].
  replace (IsZero (UTC now)) with false by tlia.
  replace (Before (UTC now) (IssuedAt g)) with false by tlia.
  replace (After (ExpiresAt g) (IssuedAt g)) with true by tlia. cbn [negb orb].
  rewrite S, ParseEnum_print, V. by destruct s.
Qed.

(** The table's update of an active row. *)
Lemma Grants_Transition_active rows i record st :
  rows !! i = Some record -> Rec_State record = "ACTIVE" -> Rec_Version record = 0 ->
  Grants_Transition rows i (Rec_Version record) st
  = (<[i := mkGrantRecord (Rec_ID record) (Rec_SessionID record) (Rec_Snapshot record)
              (Rec_Digest record) st 1]> rows, Ok tt).
Proof. intros E S V. unfold Grants_Transition. by rewrite E, S, V. Qed.

(** What an answered cancellation leaves in the table. *)
Lemma status_cancel_row marshalGrant rows rows' c g now st :
  call_status marshalGrant rows now c g true = (rows', Ok st) ->
  exists payload, presentable marshalGrant c g payload /\ terminal_row rows' g payload (GState st)
    /\ nanos (IssuedAt g) < nanos (ExpiresAt g).
Proof.
  unfold call_status, status, status_work. intros H.
  destruct (_ || _) eqn:G1 in H; [by cbn in H |]. destruct (_ || _) eqn:G2 in H; [by cbn in H |].
  destruct (marshalGrant g) as [payload |] eqn:M; [| by cbn in H].
  destruct (65536 <? len payload) eqn:L; [by cbn in H |].
  cbn [pbind trigger run_state grants_handler committed pending] in H. unfold Grants_Get in H.
  destruct (rows !! GID g) as [record |] eqn:E; [| by cbn in H].
  destruct (_ || _) eqn:G3 in H; [by cbn in H |].
  cbn [pbind trigger run_state grants_handler committed pending] in H.
  destruct (IsZero (UTC now)) eqn:Z; [by cbn in H |].
  destruct (_ || _) eqn:G4 in H; [by cbn in H |]. apply orb_false_iff in G4 as [_ W].
  apply negb_false_iff in W.
  destruct (ParseEnum (Rec_State record)) as [s |] eqn:P; [| by cbn in H].
  apply ParseEnum_ok in P.
  exists payload. split; [by repeat split |]. split; [| tlia].
  destruct s.
  - destruct (Rec_Version record == 0) eqn:V; [| by cbn in H]. apply bool_decide_eq_true in V.
    destruct (negb (Before (UTC now) (ExpiresAt g)));
      [change (Expired_ == Active_) with false in H | change (Cancelled_ == Active_) with false in H];
      cbn [negb pbind trigger run_state grants_handler committed pending] in H;
      rewrite (Grants_Transition_active rows _ record _ E P V) in H; cbn in H; simplify_eq;
      (eexists; split_and!; [apply lookup_insert_eq | exact G3 | done ..]).
  - destruct (Rec_Version record == 1) eqn:V; [| by cbn in H]. apply bool_decide_eq_true in V.
    cbn in H. simplify_eq. by exists record.
  - destruct (Rec_Version record == 1) eqn:V; [| by cbn in H]. apply bool_decide_eq_true in V.
    cbn in H. simplify_eq. by exists record.
Qed.

(** Cancellation is permanent: once a cancellation of a grant has returned,
    the stored row is terminal in its second version, and every later validation
    or cancellation of that grant, at any later clock reading, reports the same
    terminal state and leaves the table as it is. *)
Theorem authority_cancel_permanent marshalGrant rows rows' c g now st
    (H : call_status marshalGrant rows now c g true = (rows', Ok st)) :
  GState st <> Active_
  /\ forall now' cancel, IsZero now' = false -> nanos (IssuedAt g) <= nanos now' ->
       call_status marshalGrant rows' now' c g cancel
       = (rows', Ok (mkGrantStatus (GState st) (UTC now'))).
Proof.
  apply status_cancel_row in H as (payload & P & T & W). split.
  - by destruct T as (? & _ & _ & _ & _ & ?).
  - intros now' cancel Z I. by apply (status_terminal marshalGrant rows' now' c g cancel payload).
Qed.

(** ** Witnesses *)

(** Documents that are already canonical. *)
Definition ex_transform (raw : string) : option string := Some raw.
Definition ex_marshal_grant (g : Grant) : option string := Some "{}".
Definition ex_marshal_policy (c : Config) (ps : gmap string resolved) : string := "{}".

Definition ex_runtime : RuntimeBinding :=
  mkRuntimeBinding "LOCAL" "thinkpixelar/local" "agent" "agent-1" "v1" "{}" (Digest "{}")
    "v1" "{}" (Digest "{}").

Definition ex_config : Config :=
  mkConfig "local" digest_a "secure" ["secure"] (600 * 1000000000) (3600 * 1000000000) 1000 2048 2048
    4096 64 ["amd64"] ["none"] [mkApprovedRuntime ex_runtime ["secure"] ["shell"]] [] [].

Definition ex_lookup (name : string) : option resolved :=
  if name == "secure" then Some (mkResolved ex_profile digest_a digest_b "{}") else None.

Definition ex_authority : Authority :=
  mkAuthority ex_config {["secure" := mkResolved ex_profile digest_a digest_b "{}"]} (Digest "{}").

Definition ex_session : Session :=
  mkSession id1 id2 Ready 1 0 ex_runtime None (at_second 0) (at_second 1) None.

Definition ex_caller : Caller := mkCaller id1 digest_a (at_second 300).

Definition ex_request : Request :=
  mkRequest id2 1 1 digest_a digest_b "" "" "amd64" 0 (Some (mkRequestLimit 100 200)) None None None
    None ["shell"].

Definition ex_grant : Grant :=
  mkGrant id3 "local" "thinkpixelar/local" (Digest "{}") "LOCAL_POLICY_ADMITTED" id1 digest_a id2 1 1
    digest_b ex_runtime
    (narrowed ex_profile (mkRequestLimit 100 200) (mkRequestLimit 1024 2048)
       (mkRequestLimit 1024 2048) 4096 64 ["amd64"])
    digest_a digest_b "{}" ["shell"] (at_second 10) (at_second 300).

Lemma authority_ex_new :
  New ex_transform ex_marshal_grant ex_marshal_policy ex_config ex_lookup = Ok ex_authority.
Proof. vm_compute. reflexivity. Qed.

Lemma authority_ex_evaluate :
  evaluate ex_transform ex_authority ex_caller ex_request (Some ex_session) id3 (at_second 10)
  = Ok ex_grant.
Proof. vm_compute. reflexivity. Qed.

Lemma authority_grant_within_policy_witness :
  exists entry approved,
    granted ex_transform ex_authority ex_caller ex_request ex_session (at_second 10) ex_grant entry
      approved.
Proof.
  refine (authority_grant_within_policy ex_transform ex_authority ex_caller ex_request ex_session id3
            (at_second 10) ex_grant _ authority_ex_evaluate).
  vm_compute. discriminate.
Defined.

Lemma authority_ceilings_witness : within_ceilings ex_config (GProfile ex_grant).
Proof.
  refine (authority_ceilings_end_to_end ex_transform ex_marshal_grant ex_marshal_policy ex_config
            ex_lookup ex_authority ex_caller ex_request ex_session id3 (at_second 10) ex_grant
            authority_ex_new _ authority_ex_evaluate).
  vm_compute. discriminate.
Defined.

Definition ex_rows : gmap ID GrantRecord :=
  {[id3 := mkGrantRecord id3 id2 "{}" (Digest "{}") "ACTIVE" 0]}.

(** A store whose row is active, read at second 20. *)
Definition ex_gport : forall B, gport B -> B :=
  fun B c =>
    match c in gport B return B with
    | Begin _ => Ok tt
    | GetGrant _ => Ok (mkGrantRecord id3 id2 "{}" (Digest "{}") "ACTIVE" 0)
    | ReadClock => at_second 20
    | TransitionGrant _ _ _ _ => Ok tt
    | CommitTx => Ok tt
    end.

Lemma authority_ex_validate :
  runs (status ex_marshal_grant ex_caller ex_grant false)
    (fst (execute ex_gport (status ex_marshal_grant ex_caller ex_grant false)))
    (Ok (mkGrantStatus Active_ (at_second 20))).
Proof.
  pose proof (execute_runs ex_gport (status ex_marshal_grant ex_caller ex_grant false)) as R.
  assert (E : snd (execute ex_gport (status ex_marshal_grant ex_caller ex_grant false))
              = Ok (mkGrantStatus Active_ (at_second 20))) by (vm_compute; reflexivity).
  by rewrite E in R.
Qed.

Lemma authority_active_evidence_witness :
  exists record now,
    occurred (GetGrant id3) (Ok record)
      ∈ fst (execute ex_gport (status ex_marshal_grant ex_caller ex_grant false))
    /\ nanos (at_second 10) <= nanos now < nanos (at_second 300).
Proof.
  destruct (authority_active_evidence ex_marshal_grant ex_caller ex_grant false _ _
              authority_ex_validate eq_refl) as (_ & _ & _ & record & now & I & _ & _ & _ & _ & _ & W).
  exists record, now. split; [exact I | exact W].
Defined.

Lemma authority_cancel_permanent_witness :
  exists rows' st,
    call_status ex_marshal_grant ex_rows (at_second 20) ex_caller ex_grant true = (rows', Ok st)
    /\ GState st = Cancelled_
    /\ call_status ex_marshal_grant rows' (at_second 30) ex_caller ex_grant false
        = (rows', Ok (mkGrantStatus (GState st) (at_second 30))).
Proof.
  destruct (call_status ex_marshal_grant ex_rows (at_second 20) ex_caller ex_grant true)
    as [rows' r] eqn:E.
  assert (S : snd (call_status ex_marshal_grant ex_rows (at_second 20) ex_caller ex_grant true)
              = Ok (mkGrantStatus Cancelled_ (at_second 20))) by (vm_compute; reflexivity).
  rewrite E in S. cbn in S. subst r.
  exists rows', (mkGrantStatus Cancelled_ (at_second 20)). split; [reflexivity |].
  split; [reflexivity |].
  refine (proj2 (authority_cancel_permanent ex_marshal_grant ex_rows rows' ex_caller ex_grant
                   (at_second 20) _ E) (at_second 30) false _ _);
    vm_compute; first [reflexivity | discriminate].
Defined.
