(* ===== verification/Handshake.v ===== *)
(** * internal/adapters/sandboxtransport/protocol: the agentd handshake

    [Negotiate] selects the intersection of what agentd offers and what the
    runtime expects, [VerifyWelcome] recomputes it on the other side.  Proved: the
    agreed limits are the pointwise minimum, within the hard limits and mutually
    consistent, whichever side computes them; the agreed capabilities are exactly
    the common ones and contain every required one; and a Welcome verifies exactly
    when it is the negotiated one. *)

From Stdlib Require Import ZArith Bool Lia Ascii.
From stdpp Require Import base strings list gmap.
From S2P Require Import Prelude Regex GoStd Sha256 Primitives.

(** ** Messages (api/agentd/v1)

    [unknown_] are the bytes of fields the schema does not know. *)

Record VersionRange : Type := mkVersionRange {
  Major_ : Z;
  MinimumMinor : Z;
  MaximumMinor : Z;
  v_unknown : string
}.

Record Binding : Type := mkBinding {
  TenantId : string;
  SessionId : string;
  ExecutionId : string;
  AttemptId : string;
  SandboxBindingId : string;
  SessionGeneration : Z;
  b_unknown : string
}.

Record Limits : Type := mkLimits {
  FrameBytes : Z;
  CommandBytes : Z;
  EventBytes : Z;
  DiagnosticBytes : Z;
  MutatingInflight : Z;
  ReadonlyInflight : Z;
  BufferedEvents : Z;
  BufferedBytes : Z;
  HeartbeatIntervalMs : Z;
  LivenessWindowMs : Z;
  l_unknown : string
}.

Record Hello : Type := mkHello {
  Versions : option VersionRange;
  h_Binding : option Binding;
  h_Challenge : string;
  h_BuildDigest : string;
  h_AdapterKind : string;
  h_AdapterDigest : string;
  h_SupportedCapabilities : list string;
  h_RequiredCapabilities : list string;
  h_Limits : option Limits;
  BootstrapProof : string;
  h_unknown : string
}.

Record Welcome : Type := mkWelcome {
  w_Major : Z;
  w_Minor : Z;
  w_Binding : option Binding;
  w_Challenge : string;
  ConnectionId : string;
  ConnectionEpoch : Z;
  Capabilities : list string;
  w_Limits : option Limits;
  NegotiationDigest : string;
  w_BuildDigest : string;
  w_AdapterKind : string;
  w_AdapterDigest : string;
  w_unknown : string
}.

(** [sandboxtransport.Expectations] *)
Record Expected : Type := mkExpected {
  e_Binding : option Binding;
  Challenge : string;
  BuildDigest : string;
  AdapterKind : string;
  AdapterDigest : string;
  SupportedCapabilities : list string;
  RequiredCapabilities : list string;
  e_Limits : option Limits
}.

Inductive HandshakeError : Type := ErrHandshake.

(** ** handshake.go *)

Definition Major : Z := 1.
Definition Minor : Z := 0.
Definition MaxFrameBytes : Z := 1048576.

(** [^[a-z][a-z0-9.-]{0,63}$] *)
Definition namePattern : re :=
  RCat (RCls cls_lower) (rep_upto 63 (RCls (cls_lower ++ cls_digit ++ [(45, 46)]))).

Definition HardLimits : Limits :=
  mkLimits MaxFrameBytes 262144 262144 16384 1 32 256 16777216 10000 30000 "".

(** The fields in descriptor order, as the reflection loop visits them. *)
Definition limit_fields : list (Limits -> Z) :=
  [FrameBytes; CommandBytes; EventBytes; DiagnosticBytes; MutatingInflight; ReadonlyInflight;
   BufferedEvents; BufferedBytes; HeartbeatIntervalMs; LivenessWindowMs].

(** [known]: no unknown bytes in a message or in the messages it contains. *)
Definition known_range (v : VersionRange) : bool := v_unknown v == "".
Definition known_binding (b : Binding) : bool := b_unknown b == "".
Definition known_limits (l : Limits) : bool := l_unknown l == "".

Definition known_opt {A} (f : A -> bool) (o : option A) : bool :=
  match o with Some x => f x | None => true end.

Definition known_hello (h : Hello) : bool :=
  (h_unknown h == "") && known_opt known_range (Versions h) && known_opt known_binding (h_Binding h)
  && known_opt known_limits (h_Limits h).

Definition known_welcome (w : Welcome) : bool :=
  (w_unknown w == "") && known_opt known_binding (w_Binding w)
  && known_opt known_limits (w_Limits w).

Definition validBinding (o : option Binding) : bool :=
  match o with
  | None => false
  | Some b =>
      known_binding b && validID (TenantId b) && validID (SessionId b) && validID (ExecutionId b)
      && validID (AttemptId b) && validID (SandboxBindingId b) && (0 <? SessionGeneration b)
  end.

(** One list: every name well formed and none seen before. *)
Fixpoint distinct_names (l : list string) (seen : gset string) : bool :=
  match l with
  | [] => true
  | c :: rest =>
      if negb (match_string namePattern c) || bool_decide (c ∈ seen) then false
      else distinct_names rest ({[c]} ∪ seen)
  end.

(** [slices.Contains] *)
Definition contains (l : list string) (c : string) : bool := existsb (fun x => x == c) l.

Definition capabilities (supported required : list string) : bool :=
  if (Z.of_nat (length supported) =? 0) || (32 <? Z.of_nat (length supported))
     || (32 <? Z.of_nat (length required))
  then false
  else if negb (distinct_names supported ∅ && distinct_names required ∅) then false
  else forallb (contains supported) required.

(** [uint32] arithmetic of the cross-field test. *)
Definition u32 (z : Z) : Z := z mod 4294967296.

Definition meet (a b : Limits) : Limits :=
  let m (f : Limits -> Z) := u32 (Z.min (f a) (f b)) in
  mkLimits (m FrameBytes) (m CommandBytes) (m EventBytes) (m DiagnosticBytes) (m MutatingInflight)
    (m ReadonlyInflight) (m BufferedEvents) (m BufferedBytes) (m HeartbeatIntervalMs)
    (m LivenessWindowMs) "".

Definition intersectLimits (oa ob : option Limits) : result HandshakeError Limits :=
  match oa, ob with
  | Some a, Some b =>
      if negb (known_limits a) || negb (known_limits b) then Err ErrHandshake
      else if negb (forallb (fun f => negb ((f a =? 0) || (f b =? 0) || (f HardLimits <? f a)
                                            || (f HardLimits <? f b))) limit_fields)
      then Err ErrHandshake
      else
        let out := meet a b in
        if (LivenessWindowMs out <? u32 (2 * HeartbeatIntervalMs out))
           || (FrameBytes out <=? CommandBytes out) || (FrameBytes out <=? EventBytes out)
           || (EventBytes out <? DiagnosticBytes out) || (BufferedBytes out <? EventBytes out)
        then Err ErrHandshake
        else Ok out
  | _, _ => Err ErrHandshake
  end.

(** [slices.Sort] on strings, by bytes. *)
Fixpoint insert_sorted (x : string) (l : list string) : list string :=
  match l with
  | [] => [x]
  | y :: rest => if String.leb x y then x :: l else y :: insert_sorted x rest
  end.

Definition sort_strings (l : list string) : list string := foldr insert_sorted [] l.

Section Protocol.

(** google.golang.org/protobuf: the encoded size of a Hello, message equality and
    the deterministic encoding of a Welcome. *)
Variable Size : Hello -> Z.
Variable BindingEqual : option Binding -> option Binding -> bool.
Variable WelcomeEqual : Welcome -> Welcome -> bool.
Variable MarshalWelcome : Welcome -> string.

(** Digests cover everything but the digest itself and the nonce. *)
Definition negotiationDigest (w : Welcome) : string :=
  Sha256.Digest (MarshalWelcome (mkWelcome (w_Major w) (w_Minor w) (w_Binding w) "" (ConnectionId w)
    (ConnectionEpoch w) (Capabilities w) (w_Limits w) "" (w_BuildDigest w) (w_AdapterKind w)
    (w_AdapterDigest w) (w_unknown w))).

Definition compatible (h : Hello) (e : Expected) (connectionID : string) (epoch : Z) : bool :=
  negb ((MaxFrameBytes <? Size h) || negb (known_hello h)
        || match Versions h with
           | None => true
           | Some v => (Major_ v != Major) || (Minor <? MinimumMinor v)
                       || (MaximumMinor v <? MinimumMinor v)
           end
        || negb (validBinding (e_Binding e)) || negb (BindingEqual (h_Binding h) (e_Binding e))
        || (len (Challenge e) != 32) || (h_Challenge h != Challenge e)
        || negb (match_string sha256_pattern (BuildDigest e)) || (h_BuildDigest h != BuildDigest e)
        || negb (match_string namePattern (AdapterKind e)) || (h_AdapterKind h != AdapterKind e)
        || negb (match_string sha256_pattern (AdapterDigest e))
        || (h_AdapterDigest h != AdapterDigest e) || negb (validID connectionID) || (epoch == 0)
        || ((len (BootstrapProof h) != 0) && (len (BootstrapProof h) != 32))).

Definition Negotiate (self : option Hello) (e : Expected) (connectionID : string) (epoch : Z)
  : result HandshakeError Welcome :=
  match self with
  | None => Err ErrHandshake
  | Some h =>
      if negb (compatible h e connectionID epoch) then Err ErrHandshake
      else if negb (capabilities (h_SupportedCapabilities h) (h_RequiredCapabilities h))
              || negb (capabilities (SupportedCapabilities e) (RequiredCapabilities e))
      then Err ErrHandshake
      else
        let common := List.filter (contains (h_SupportedCapabilities h)) (SupportedCapabilities e) in
        if negb (forallb (contains common) (h_RequiredCapabilities h)
                 && forallb (contains common) (RequiredCapabilities e))
        then Err ErrHandshake
        else match intersectLimits (h_Limits h) (e_Limits e) with
        | Err x => Err x
        | Ok limits =>
            let w := mkWelcome Major Minor (e_Binding e) (Challenge e) connectionID epoch
                       (sort_strings common) (Some limits) "" (BuildDigest e) (AdapterKind e)
                       (AdapterDigest e) "" in
            Ok (mkWelcome Major Minor (e_Binding e) (Challenge e) connectionID epoch
                  (sort_strings common) (Some limits) (negotiationDigest w) (BuildDigest e)
                  (AdapterKind e) (AdapterDigest e) "")
        end
  end.

Definition VerifyWelcome (h : option Hello) (e : Expected) (self : option Welcome)
  : result HandshakeError unit :=
  match self with
  | None => Err ErrHandshake
  | Some w =>
      if negb (known_welcome w) then Err ErrHandshake
      else match Negotiate h e (ConnectionId w) (ConnectionEpoch w) with
      | Err _ => Err ErrHandshake
      | Ok expected => if WelcomeEqual expected w then Ok tt else Err ErrHandshake
      end
  end.

End Protocol.

(** ** Lemmas *)

Lemma contains_elem l c : contains l c = true <-> c ∈ l.
Proof.
  unfold contains. rewrite existsb_exists. split.
  - intros (x & Hx & E). apply bool_decide_eq_true in E as <-. by apply list_elem_of_In.
  - intros H. exists c. split; [by apply list_elem_of_In | by apply bool_decide_eq_true].
Qed.

Lemma forallb_contains l r : forallb (contains l) r = true <-> r ⊆ l.
Proof.
  rewrite forallb_forall. split; intros H c Hc.
  - apply contains_elem, H. by apply list_elem_of_In.
  - apply contains_elem, H. by apply list_elem_of_In.
Qed.

Lemma distinct_names_nodup l : forall seen,
  distinct_names l seen = true -> NoDup l /\ forall c, c ∈ l -> c ∉ seen.
Proof.
  induction l as [| x l IH]; intros seen H; cbn in H; [split; [constructor | set_solver] |].
  destruct (_ || _) eqn:G in H; [discriminate H |]. simp_bool.
  apply IH in H as [N D]. split; [constructor; set_solver | set_solver].
Qed.

Lemma insert_sorted_perm x l : insert_sorted x l ≡ₚ x :: l.
Proof.
  induction l as [| y l IH]; cbn; [done |]. destruct (String.leb x y); [done |].
  rewrite IH. apply Permutation_swap.
Qed.

Lemma sort_strings_perm l : sort_strings l ≡ₚ l.
Proof.
  induction l as [| x l IH]; [done |]. change (insert_sorted x (sort_strings l) ≡ₚ x :: l).
  by rewrite insert_sorted_perm, IH.
Qed.

(** A limits message as the wire decodes it. *)
Definition wire_limits (l : Limits) : Prop := Forall (fun f => 0 <= f l < 4294967296) limit_fields.

Lemma u32_small z : 0 <= z < 4294967296 -> u32 z = z.
Proof. apply Z.mod_small. Qed.

(** The agreed value of each field. *)
Lemma meet_fields a b : wire_limits a -> wire_limits b ->
  Forall (fun f => f (meet a b) = Z.min (f a) (f b)) limit_fields.
Proof.
  unfold wire_limits, limit_fields. rewrite !Forall_cons. intros A B.
  split_and!; [apply u32_small; lia .. | constructor].
Qed.

Lemma meet_comm a b : meet a b = meet b a.
Proof. unfold meet. f_equal; f_equal; apply Z.min_comm. Qed.

Lemma offers_comm a b (fields : list (Limits -> Z)) :
  forallb (fun f => negb ((f a =? 0) || (f b =? 0) || (f HardLimits <? f a)
                          || (f HardLimits <? f b))) fields
  = forallb (fun f => negb ((f b =? 0) || (f a =? 0) || (f HardLimits <? f b)
                            || (f HardLimits <? f a))) fields.
Proof.
  induction fields as [| f fields IH]; cbn; [done |]. rewrite IH. f_equal. f_equal.
  destruct (f a =? 0), (f b =? 0), (f HardLimits <? f a), (f HardLimits <? f b); done.
Qed.

(** What an agreement on limits satisfies. *)
Record agreed (a b l : Limits) : Prop := {
  ag_minimum : Forall (fun f => f l = Z.min (f a) (f b)) limit_fields;
  ag_hard : Forall (fun f => 0 < f l <= f HardLimits) limit_fields;
  ag_liveness : 2 * HeartbeatIntervalMs l <= LivenessWindowMs l;
  ag_frames : CommandBytes l < FrameBytes l /\ EventBytes l < FrameBytes l;
  ag_events : DiagnosticBytes l <= EventBytes l <= BufferedBytes l
}.

Lemma intersectLimits_agreed a b l : wire_limits a -> wire_limits b ->
  intersectLimits (Some a) (Some b) = Ok l -> agreed a b l.
Proof.
  intros A B H. unfold intersectLimits in H. destruct (_ || _) in H; [discriminate H |].
  destruct (negb (forallb _ _)) eqn:F in H; [discriminate H |].
  destruct (_ || _) eqn:G in H; [discriminate H |]. injection H as <-.
  pose proof (meet_fields a b A B) as M.
  assert (K : Forall (fun f => 0 < f (meet a b) <= f HardLimits) limit_fields).
  { apply negb_false_iff in F. rewrite forallb_forall in F. apply Forall_forall. intros f Hf.
    rewrite Forall_forall in M. rewrite (M f Hf). unfold wire_limits in A, B.
    rewrite Forall_forall in A, B. specialize (A f Hf). specialize (B f Hf).
    apply list_elem_of_In, F in Hf. simp_bool. lia. }
  assert (Hb : 0 < HeartbeatIntervalMs (meet a b) <= 10000).
  { rewrite Forall_forall in K. apply (K HeartbeatIntervalMs). do 8 right. left. }
  clear F. simp_bool. rewrite (u32_small (2 * _)) in * by lia.
  constructor; [exact M | exact K | lia | lia | lia].
Qed.

(** ** Theorems *)

(** Both sides compute the same limits, and safe ones: the agreed limits are
    the minimum of the two offers in every field, positive and within the hard
    limits, frames larger than what they carry, events within the buffer, and a
    liveness window of at least two heartbeats; and the order of the offers does
    not matter. *)
Theorem handshake_limits_agreed a b (A : wire_limits a) (B : wire_limits b) :
  intersectLimits (Some a) (Some b) = intersectLimits (Some b) (Some a)
  /\ forall l, intersectLimits (Some a) (Some b) = Ok l -> agreed a b l.
Proof.
  split; [| intros l; by apply intersectLimits_agreed].
  unfold intersectLimits. rewrite (meet_comm a b), (orb_comm (negb (known_limits a))).
  destruct (_ || _); [done |]. rewrite (offers_comm a b limit_fields). done.
Qed.

Section Agreement.
Context (Size : Hello -> Z) (MarshalWelcome : Welcome -> string).
Context (BindingEqual : option Binding -> option Binding -> bool).
Context (WelcomeEqual : Welcome -> Welcome -> bool).

(** [proto.Equal] compares message values. *)
Context (BindingEqual_spec : forall a b, BindingEqual a b = true <-> a = b).
Context (WelcomeEqual_spec : forall a b, WelcomeEqual a b = true <-> a = b).

(** What a Welcome says about the two sides that negotiated it. *)
Record negotiated (h : Hello) (e : Expected) (connectionID : string) (epoch : Z) (w : Welcome)
  : Prop := {
  ng_identity : w_Binding w = e_Binding e /\ h_Binding h = e_Binding e
     /\ w_Challenge w = h_Challenge h /\ ConnectionId w = connectionID /\ ConnectionEpoch w = epoch
     /\ epoch <> 0 /\ h_BuildDigest h = w_BuildDigest w /\ h_AdapterDigest h = w_AdapterDigest w;
  ng_version : exists v, Versions h = Some v /\ Major_ v = w_Major w
     /\ MinimumMinor v <= w_Minor w /\ MinimumMinor v <= MaximumMinor v;
  ng_common : forall c, c ∈ Capabilities w <->
     c ∈ h_SupportedCapabilities h /\ c ∈ SupportedCapabilities e;
  ng_required : h_RequiredCapabilities h ⊆ Capabilities w /\ RequiredCapabilities e ⊆ Capabilities w;
  ng_distinct : NoDup (Capabilities w);
  ng_limits : exists l, w_Limits w = Some l /\ intersectLimits (h_Limits h) (e_Limits e) = Ok l;
  ng_known : known_welcome w = true
}.

Lemma Negotiate_negotiated h e cid epoch w :
  Negotiate Size BindingEqual MarshalWelcome (Some h) e cid epoch = Ok w -> negotiated h e cid epoch w.
Proof using BindingEqual_spec.
  unfold Negotiate. intros H. destruct (compatible _ _ _ _ _ _) eqn:C; [| discriminate H].
  cbn [negb] in H. destruct (_ || _) eqn:K in H; [discriminate H |].
  apply orb_false_iff in K as [_ K]. apply negb_false_iff in K.
  destruct (negb (_ && _)) eqn:R in H; [discriminate H |]. apply negb_false_iff in R.
  destruct (intersectLimits _ _) as [l |] eqn:L in H; [| discriminate H]. injection H as <-.
  set (common := List.filter _ _) in *.
  assert (S : forall c, c ∈ sort_strings common <->
              c ∈ h_SupportedCapabilities h /\ c ∈ SupportedCapabilities e).
  { intros c. rewrite (sort_strings_perm common). unfold common.
    rewrite list_elem_of_In, List.filter_In, <- list_elem_of_In, contains_elem.
    tauto. }
  unfold compatible in C. apply negb_true_iff in C. simp_bool.
  match goal with X : BindingEqual _ _ = true |- _ => apply BindingEqual_spec in X end.
  rewrite !forallb_contains in *.
  constructor; cbn [w_Binding w_Challenge ConnectionId ConnectionEpoch w_BuildDigest w_AdapterDigest
                    w_Major w_Minor Capabilities w_Limits].
  - split_and!; congruence.
  - destruct (Versions h) as [v |]; [| discriminate]. simp_bool. exists v. split_and!; try done; lia.
  - exact S.
  - rewrite !(sort_strings_perm common). done.
  - rewrite (sort_strings_perm common). apply NoDup_ListNoDup, List.NoDup_filter, NoDup_ListNoDup.
    unfold capabilities in K. destruct (_ || _) in K; [discriminate K |].
    destruct (negb _) eqn:D in K; [discriminate K |]. simp_bool.
    match goal with X : distinct_names (SupportedCapabilities e) _ = true |- _ =>
      apply distinct_names_nodup in X as [? _] end. done.
  - eauto.
  - unfold known_welcome. cbn. rewrite andb_true_iff. split.
    + match goal with X : validBinding _ = true |- _ => revert X end. unfold validBinding, known_opt.
      destruct (e_Binding e); [| done]. intros X. by simp_bool.
    + unfold intersectLimits in L. by ok_inv L.
Qed.

(** A handshake that succeeds is sound: the Welcome repeats the identity and
    evidence both sides already agreed on, speaks a version agentd offers, carries
    exactly the capabilities both support (each once) with every required one
    among them, and the agreed limits. *)
Theorem handshake_negotiation_sound h e cid epoch w
  (H : Negotiate Size BindingEqual MarshalWelcome (Some h) e cid epoch = Ok w) :
  negotiated h e cid epoch w.
Proof using BindingEqual_spec. by apply Negotiate_negotiated. Qed.

(** agentd accepts exactly the Welcome it would have negotiated itself from the
    same Hello and expectations: no field of a Welcome can be altered in transit,
    and the runtime's own Welcome is never refused. *)
Theorem handshake_verify_exact h e w :
  VerifyWelcome Size BindingEqual WelcomeEqual MarshalWelcome (Some h) e (Some w) = Ok tt
  <-> Negotiate Size BindingEqual MarshalWelcome (Some h) e (ConnectionId w) (ConnectionEpoch w) = Ok w.
Proof using BindingEqual_spec WelcomeEqual_spec.
  unfold VerifyWelcome. split.
  - intros H. destruct (negb (known_welcome w)); [discriminate H |].
    destruct (Negotiate _ _ _ _ _ _ _) as [x |]; [| discriminate H].
    destruct (WelcomeEqual x w) eqn:E in H; [| discriminate H].
    apply WelcomeEqual_spec in E as ->. done.
  - intros H. rewrite (ng_known _ _ _ _ _ (Negotiate_negotiated _ _ _ _ _ H)). cbn [negb].
    rewrite H. by rewrite (proj2 (WelcomeEqual_spec w w) eq_refl).
Qed.

End Agreement.

(** ** Witnesses *)

#[export] Instance Binding_eq_dec : EqDecision Binding.
Proof. solve_decision. Defined.

#[export] Instance Limits_eq_dec : EqDecision Limits.
Proof. solve_decision. Defined.

#[export] Instance Welcome_eq_dec : EqDecision Welcome.
Proof. solve_decision. Defined.

Definition ex_binding : Binding :=
  mkBinding id1 id1 id1 id1 id1 3 "".

Definition ex_offer : Limits := mkLimits 1048576 65536 262144 16384 1 8 256 1048576 5000 30000 "".

Definition ex_challenge : string := "0123456789abcdef0123456789abcdef".

Definition ex_hello : Hello :=
  mkHello (Some (mkVersionRange 1 0 2 "")) (Some ex_binding) ex_challenge digest_a "pi" digest_a
    ["harness.v1"; "events.v1"; "extra"] ["events.v1"] (Some ex_offer) "" "".

Definition ex_expected : Expected :=
  mkExpected (Some ex_binding) ex_challenge digest_a "pi" digest_a
    ["harness.v1"; "events.v1"; "control.v1"] ["harness.v1"] (Some HardLimits).

(** A size that never reaches the frame bound and an encoding that depends on the
    connection. *)
Definition ex_size (h : Hello) : Z := len (h_Challenge h).
Definition ex_encoding (w : Welcome) : string := ConnectionId w.
Definition ex_equal {A} `{EqDecision A} (a b : A) : bool := bool_decide (a = b).

Definition ex_welcome : Welcome :=
  mkWelcome 1 0 (Some ex_binding) ex_challenge id1 7 ["events.v1"; "harness.v1"]
    (Some ex_offer) (Sha256.Digest id1) digest_a "pi" digest_a "".

Lemma ex_equal_spec {A} `{EqDecision A} (a b : A) : ex_equal a b = true <-> a = b.
Proof. apply bool_decide_eq_true. Qed.

Lemma handshake_limits_witness :
  intersectLimits (Some ex_offer) (Some HardLimits) = Ok ex_offer
  /\ intersectLimits (Some ex_offer) (Some HardLimits) = intersectLimits (Some HardLimits) (Some ex_offer).
Proof.
  split; [reflexivity |]. apply (handshake_limits_agreed ex_offer HardLimits).
  - apply (bool_decide_unpack _). vm_compute. exact I.
  - apply (bool_decide_unpack _). vm_compute. exact I.
Defined.

Lemma handshake_negotiation_witness :
  negotiated ex_hello ex_expected id1 7 ex_welcome.
Proof.
  apply (handshake_negotiation_sound ex_size ex_encoding ex_equal ex_equal_spec).
  vm_compute. reflexivity.
Defined.

Lemma handshake_verify_witness :
  VerifyWelcome ex_size ex_equal ex_equal ex_encoding (Some ex_hello) ex_expected (Some ex_welcome)
  = Ok tt.
Proof.
  apply (handshake_verify_exact ex_size ex_encoding ex_equal ex_equal ex_equal_spec ex_equal_spec).
  vm_compute. reflexivity.
Defined.
