(* ===== verification/AgentdAdmission.v ===== *)
(** * internal/app/agentdadmission: admitting an agentd stream

    The admission service as programs over the ports it calls: the compute store
    and provider, the credential registry, the admission and frame policies, the
    clock and the context.  Proved for every behaviour of these: a lease is given
    only after two complete checks of the current state around the allocation of
    the connection and never outlives the authority, the peer's certificate or the
    connection; a connection allocated by a refused admission is closed; a frame
    is delivered only under a re-checked fence; and a credential is registered
    only within the deadlines and the version it was granted for. *)

From Stdlib Require Import ZArith Bool Lia.
From stdpp Require Import base strings list.
From S2P Require Import Prelude Regex GoStd Primitives RuntimeProfile Interaction.
From S2P Require Import ComputeReconciliation Handshake.

(** ** internal/ports/sandboxtransport *)

Record Identity : Type := mkIdentity { ITenantID : ID; ISandboxID : ID; IAttemptID : ID }.

#[export] Instance Identity_eq_dec : EqDecision Identity.
Proof. solve_decision. Defined.

Record Peer : Type := mkPeer { PIdentity : Identity; CertificateDigest : string; PExpiresAt : Time }.

#[export] Instance Peer_eq_dec : EqDecision Peer.
Proof. solve_decision. Defined.

Definition zeroPeer : Peer := mkPeer (mkIdentity "" "" "") "" zeroTime.

Inductive Purpose : Type :=
| IssueBootstrap | RecoverBootstrap | RenewIdentity | AcceptStream | DeliverFrame.

#[export] Instance Purpose_eq_dec : EqDecision Purpose.
Proof. solve_decision. Defined.

Record Authorization : Type := mkAuthorization {
  ADeadline : Time;
  ABootstrapDeadline : Time;
  AExpected : Expected
}.

Record Connection : Type := mkConnection { CID : ID; CEpoch : Z; CDeadline : Time }.

Record CredentialRequest : Type := mkCredentialRequest {
  QIdentity : Identity;
  Recovery : bool;
  QPeer : Peer;
  QConnectionID : ID;
  QEpoch : Z
}.

Record CredentialGrant : Type := mkCredentialGrant {
  GIdentity : Identity;
  GVersion : Z;
  AuthorityDeadline : Time;
  AttemptDeadline : Time;
  GBootstrapDeadline : Time
}.

Record CredentialRecord : Type := mkCredentialRecord {
  RIdentity : Identity;
  CredentialID : ID;
  RCertificateDigest : string;
  IssuerDigest : string;
  ProofDigest : string;
  NotBefore : Time;
  ExpiresAt : Time;
  Bootstrap : bool
}.

Inductive AdmissionError : Type := ErrAdmission.

Section Service.

(** The body of an agentd frame (one of eight messages of api/agentd/v1) and
    whether it is free of unknown fields. *)
Variable Body : Type.
Variable known_body : Body -> bool.

Record Envelope : Type := mkEnvelope {
  f_Major : Z;
  f_Minor : Z;
  f_ConnectionId : string;
  f_ConnectionEpoch : Z;
  f_MessageId : string;
  f_Sequence : Z;
  f_Binding : option Handshake.Binding;
  f_HarnessHandle : string;
  f_OperationId : string;
  f_RequestDigest : string;
  f_SentUnixMs : Z;
  f_DeadlineUnixMs : Z;
  f_Body : option Body;
  f_unknown : string
}.

(** [protocol.KnownFields] *)
Definition KnownFields (f : Envelope) : bool :=
  (f_unknown f == "") && known_opt known_binding (f_Binding f) && known_opt known_body (f_Body f).

(** google.golang.org/protobuf, as in [Handshake]. *)
Variable Size : Hello -> Z.
Variable MarshalWelcome : Welcome -> string.
Variable BindingEqual : option Handshake.Binding -> option Handshake.Binding -> bool.
Variable LimitsEqual : option Limits -> option Limits -> bool.

(** ** The ports *)

Inductive aport : Type -> Type :=
| CtxErr : aport bool
| Now : aport Time
| ALoadCompute (tenant id : ID) : aport (result GoError ComputeIntent)
| AGet (tenant id : ID) : aport (result GoError Status)
| AuthorizeTransport (i : ComputeIntent) (p : Purpose) : aport (result GoError Authorization)
| RegistryVersion (id : Identity) : aport (result GoError Z)
| Register (r : CredentialRequest) (g : CredentialGrant) (c : CredentialRecord)
  : aport (result GoError unit)
| Reconnect (p : Peer) (deadline : Time) : aport (result GoError Connection)
| ConsumeBootstrap (p : Peer) (proof : string) (deadline : Time) : aport (result GoError Connection)
| CheckConnection (p : Peer) (c : Connection) : aport (result GoError unit)
| CloseConnection (id : Identity) (c : Connection) : aport (result GoError unit)
| AuthorizeFrame (i : ComputeIntent) (c : Connection) (f : Envelope) : aport (result GoError unit).

Abbreviation answer A := (result AdmissionError A).

Definition fail {A} : prog aport (answer A) := Ret (Err ErrAdmission).

(** ** current *)

Definition intent_matches (i : ComputeIntent) (id : Identity) : bool :=
  let s := RScope (request_of i) in
  Current i && (match Desired i with ComputeRunning => true | _ => false end)
  && (TenantID s == ITenantID id) && (SandboxID s == ISandboxID id) && (AttemptID s == IAttemptID id).

Definition binding_matches (i : ComputeIntent) (id : Identity) (e : Expected) : bool :=
  let s := RScope (request_of i) in
  match e_Binding e with
  | None => false
  | Some b =>
      (TenantId b == ITenantID id) && (SandboxBindingId b == ISandboxID id)
      && (AttemptId b == IAttemptID id) && (SessionId b == SessionID s)
      && (ExecutionId b == ExecutionID s) && (SessionGeneration b == Generation s)
  end.

(** The Hello a conforming agentd would send. *)
Definition expected_hello (e : Expected) : Hello :=
  mkHello (Some (mkVersionRange Major 0 Minor "")) (e_Binding e) (Challenge e) (BuildDigest e)
    (AdapterKind e) (AdapterDigest e) (SupportedCapabilities e) (RequiredCapabilities e)
    (e_Limits e) "" "".

Definition status_matches (i : ComputeIntent) (id : Identity) (st : Status) : bool :=
  let r := request_of i in
  (ProviderReference (IBinding i) != "") && (HSandboxID (SHandle st) == ISandboxID id)
  && (HProviderReference (SHandle st) == ProviderReference (IBinding i))
  && ((SState st == Ready) || (SState st == Active)) && Verified (Effective st)
  && (EImage (Effective st) == Image (RRuntime r))
  && (EArchitecture (Effective st) == Architecture (RRuntime r))
  && (EIsolationClass (Effective st) == IsolationClass (RProfile r))
  && (NetworkClass (Effective st) == NProfile (PNetwork (RProfile r)))
  && (AttachmentReference (Effective st) == Reference (RWorkspace r)).

(** The last reading of the clock before the tuple is handed out. *)
Definition hand_out (i : ComputeIntent) (a : Authorization)
  : prog aport (answer (ComputeIntent * Authorization)) :=
  do! now <- trigger Now;
  if negb (After (ADeadline a) now) then fail else Ret (Ok (i, a)).

Definition current (id : Identity) (purpose : Purpose)
  : prog aport (answer (ComputeIntent * Authorization)) :=
  do! cancelled <- trigger CtxErr;
  if cancelled : bool then fail
  else
    do! loaded <- trigger (ALoadCompute (ITenantID id) (ISandboxID id));
    match loaded with
    | Err _ => fail
    | Ok i =>
        let r := request_of i in
        if negb (intent_matches i id) then fail
        else
          do! now <- trigger Now;
          if negb (After (Deadline r) now) then fail
          else
            do! authorized <- trigger (AuthorizeTransport i purpose);
            match authorized with
            | Err _ => fail
            | Ok a =>
                do! now <- trigger Now;
                if negb (After (ADeadline a) now) || After (ADeadline a) (Deadline r) then fail
                else
                  do! cancelled <- trigger CtxErr;
                  if (cancelled : bool) || negb (binding_matches i id (AExpected a)) then fail
                  else match Negotiate Size BindingEqual MarshalWelcome (Some (expected_hello (AExpected a)))
                               (AExpected a) (ISandboxID id) 1 with
                  | Err _ => fail
                  | Ok _ =>
                      if purpose == IssueBootstrap then hand_out i a
                      else
                        do! got <- trigger (AGet (ITenantID id) (ISandboxID id));
                        match got with
                        | Err _ => fail
                        | Ok st =>
                            if negb (status_matches i id st) then fail
                            else
                              do! cancelled <- trigger CtxErr;
                              if cancelled : bool then fail else hand_out i a
                        end
                  end
            end
    end.

(** ** Credentials *)

Definition bootstrap_purpose (p : Purpose) : bool := (p == IssueBootstrap) || (p == RecoverBootstrap).

(** After the purpose is settled. *)
Definition authorize_for (r : CredentialRequest) (purpose : Purpose)
  : prog aport (answer CredentialGrant) :=
  if bootstrap_purpose purpose && ((QConnectionID r != "") || (QPeer r != zeroPeer)) then fail
  else
    do! cur <- current (QIdentity r) purpose;
    match cur with
    | Err _ => fail
    | Ok (i, a) =>
        do! refused <-
          (if bootstrap_purpose purpose then
             do! now <- trigger Now;
             Ret (negb (After (ABootstrapDeadline a) now)
                  || After (ABootstrapDeadline a) (ADeadline a))
           else Ret false);
        if refused : bool then fail
        else
          do! version <- trigger (RegistryVersion (QIdentity r));
          match version with
          | Err _ => fail
          | Ok v =>
              if v =? 0 then fail
              else Ret (Ok (mkCredentialGrant (QIdentity r) v (ADeadline a)
                              (Deadline (request_of i)) (ABootstrapDeadline a)))
          end
    end.

Definition AuthorizeCredential (r : CredentialRequest) : prog aport (answer CredentialGrant) :=
  if Recovery r && (QEpoch r != 0) then fail
  else if QEpoch r != 0 then
    if PIdentity (QPeer r) != QIdentity r then fail
    else
      do! checked <- trigger (CheckConnection (QPeer r)
                                (mkConnection (QConnectionID r) (QEpoch r) zeroTime));
      match checked with
      | Err _ => fail
      | Ok _ => authorize_for r RenewIdentity
      end
  else authorize_for r (if Recovery r then RecoverBootstrap else IssueBootstrap).

Definition CommitCredential (r : CredentialRequest) (g : CredentialGrant) (c : CredentialRecord)
  : prog aport (answer unit) :=
  do! fresh <- AuthorizeCredential r;
  match fresh with
  | Err _ => fail
  | Ok fresh =>
      if (GIdentity g != QIdentity r) || (RIdentity c != QIdentity r)
         || (GVersion g != GVersion fresh) || negb (eqb (Bootstrap c) (QEpoch r == 0))
         || After (ExpiresAt c) (AuthorityDeadline g) || After (ExpiresAt c) (AttemptDeadline g)
         || (Bootstrap c && After (ExpiresAt c) (GBootstrapDeadline g))
      then fail
      else
        do! registered <- trigger (Register r fresh c);
        match registered with
        | Err _ => fail
        | Ok _ => Ret (Ok tt)
        end
  end.

(** ** Admit *)

Definition sameExpected (a b : Expected) : bool :=
  BindingEqual (e_Binding a) (e_Binding b) && LimitsEqual (e_Limits a) (e_Limits b)
  && (Challenge a == Challenge b) && (BuildDigest a == BuildDigest b)
  && (AdapterKind a == AdapterKind b) && (AdapterDigest a == AdapterDigest b)
  && (SupportedCapabilities a == SupportedCapabilities b)
  && (RequiredCapabilities a == RequiredCapabilities b).

(** The lease with what its callbacks close over. *)
Record Lease : Type := mkLease {
  LExpected : Expected;
  ConnectionID : ID;
  Epoch : Z;
  LDeadline : Time;
  LPeer : Peer;
  LConnection : Connection
}.

(** [close] inside [once.Do]. *)
Definition Lease_Close (id : Identity) (c : Connection) (closed : bool) : prog aport bool :=
  if closed then Ret true
  else do! _ <- trigger (CloseConnection id c); Ret true.

(** Close the connection and refuse. *)
Definition refuse (p : Peer) (c : Connection) : prog aport (answer Lease) :=
  do! _ <- Lease_Close (PIdentity p) c false; fail.

(** The second check, after the connection was allocated. *)
Definition recheck (p : Peer) (a : Authorization) (deadline : Time) (c : Connection)
  : prog aport (answer Lease) :=
  do! again <- current (PIdentity p) AcceptStream;
  match again with
  | Err _ => refuse p c
  | Ok (_, after) =>
      if negb (validID (CID c)) || (CEpoch c == 0) then refuse p c
      else
        do! now <- trigger Now;
        if negb (After (CDeadline c) now) || After (CDeadline c) deadline
           || Before (ADeadline after) (CDeadline c)
           || negb (sameExpected (AExpected a) (AExpected after))
        then refuse p c
        else
          do! checked <- trigger (CheckConnection p c);
          match checked with
          | Err _ => refuse p c
          | Ok _ => Ret (Ok (mkLease (AExpected a) (CID c) (CEpoch c) (CDeadline c) p c))
          end
  end.

Definition Admit (p : Peer) (proof : string) : prog aport (answer Lease) :=
  if (len proof != 0) && (len proof != 32) then fail
  else
    do! now <- trigger Now;
    if negb (After (PExpiresAt p) now) then fail
    else
      do! cur <- current (PIdentity p) AcceptStream;
      match cur with
      | Err _ => fail
      | Ok (_, a) =>
          let deadline := if Before (PExpiresAt p) (ADeadline a) then PExpiresAt p else ADeadline a in
          do! connected <-
            (if len proof == 0 then trigger (Reconnect p deadline)
             else trigger (ConsumeBootstrap p proof deadline));
          match connected with
          | Err _ => fail
          | Ok c => recheck p a deadline c
          end
      end.

(** [lease.Check] *)
Definition Lease_Check (l : Lease) (self : option Envelope) : prog aport (answer unit) :=
  match self with
  | None => fail
  | Some f =>
      if negb (BindingEqual (f_Binding f) (e_Binding (LExpected l)))
         || (f_ConnectionId f != CID (LConnection l)) || (f_ConnectionEpoch f != CEpoch (LConnection l))
         || negb (KnownFields f)
      then fail
      else
        do! cur <- current (PIdentity (LPeer l)) DeliverFrame;
        match cur with
        | Err _ => fail
        | Ok (i, now_) =>
            if negb (sameExpected (LExpected l) (AExpected now_)) then fail
            else
              do! now <- trigger Now;
              if negb (After (ADeadline now_) now) || (UnixMilli (ADeadline now_) <? f_DeadlineUnixMs f)
              then fail
              else
                do! checked <- trigger (CheckConnection (LPeer l) (LConnection l));
                match checked with
                | Err _ => fail
                | Ok _ =>
                    do! allowed <- trigger (AuthorizeFrame i (LConnection l) f);
                    match allowed with
                    | Err _ => fail
                    | Ok _ =>
                        do! cancelled <- trigger CtxErr;
                        if cancelled : bool then fail else Ret (Ok tt)
                    end
                end
        end
  end.

(** ** What a run shows *)

(** Calls that change the credential registry. *)
Definition registry_change (e : event aport) : bool :=
  match e with
  | existT _ (c, _) =>
      match c with
      | Register _ _ _ | Reconnect _ _ | ConsumeBootstrap _ _ _ | CloseConnection _ _ => true
      | _ => false
      end
  end.

Definition registry_changes (tr : list (event aport)) : list (event aport) :=
  List.filter registry_change tr.

(** What one passed check of the current state establishes. *)
Record current_evidence (id : Identity) (purpose : Purpose) (tr : list (event aport))
    (i : ComputeIntent) (a : Authorization) : Prop := {
  ce_intent : occurred (ALoadCompute (ITenantID id) (ISandboxID id)) (Ok i) ∈ tr
     /\ Current i = true /\ Desired i = ComputeRunning
     /\ TenantID (RScope (request_of i)) = ITenantID id
     /\ SandboxID (RScope (request_of i)) = ISandboxID id
     /\ AttemptID (RScope (request_of i)) = IAttemptID id;
  ce_authority : occurred (AuthorizeTransport i purpose) (Ok a) ∈ tr
     /\ nanos (ADeadline a) <= nanos (Deadline (request_of i));
  ce_binding : binding_matches i id (AExpected a) = true;
  ce_compatible : is_ok (Negotiate Size BindingEqual MarshalWelcome
     (Some (expected_hello (AExpected a))) (AExpected a) (ISandboxID id) 1) = true;
  ce_provider : purpose <> IssueBootstrap -> exists st,
     occurred (AGet (ITenantID id) (ISandboxID id)) (Ok st) ∈ tr /\ status_matches i id st = true;
  ce_live : exists tr' now, tr = tr' ++ [occurred Now now] /\ nanos now < nanos (ADeadline a)
}.

Lemma intent_matches_spec i id : intent_matches i id = true ->
  Current i = true /\ Desired i = ComputeRunning
  /\ TenantID (RScope (request_of i)) = ITenantID id
  /\ SandboxID (RScope (request_of i)) = ISandboxID id
  /\ AttemptID (RScope (request_of i)) = IAttemptID id.
Proof. unfold intent_matches. intros H. simp_bool. by destruct (Desired i). Qed.

Lemma current_queries id p tr r : runs (current id p) tr r -> registry_changes tr = [].
Proof. unfold current, hand_out, fail. intros H. explore H; done. Qed.

Ltac in_trace := repeat first [apply list_elem_of_here | apply list_elem_of_further].

Lemma current_ok id p tr i a : runs (current id p) tr (Ok (i, a)) -> current_evidence id p tr i a.
Proof.
  unfold current, hand_out, fail. intros H. explore H; simplify_eq; simp_bool.
  all: match goal with X : intent_matches _ _ = true |- _ => apply intent_matches_spec in X end.
  all: match goal with X : Negotiate ?s ?b ?d ?h ?e ?n ?k = Ok _ |- _ =>
         assert (is_ok (Negotiate s b d h e n k) = true) by by rewrite X end.
  all: split; [split; [in_trace | done] | split; [in_trace | tlia] | done | done | |].
  all: first [done | intros _; eexists; split; [in_trace | done] | idtac].
  all: match goal with |- exists tr' now, ?tr = _ /\ _ =>
         exists (removelast tr); eexists; split; [reflexivity | tlia] end.
Qed.

#[local] Opaque current.

(** Split a run at the check of the current state that comes first in it. *)
Ltac split_current H :=
  apply runs_bind in H;
  let t1 := fresh "before" in let t2 := fresh "rest" in
  let x := fresh "cur" in let Hc := fresh "Hcur" in
  destruct H as (t1 & t2 & x & -> & Hc & H).

Lemma registry_changes_app t1 t2 :
  registry_changes (t1 ++ t2) = registry_changes t1 ++ registry_changes t2.
Proof. apply List.filter_app. Qed.

(** The allocation of a connection: by proof, or by reconnection without one. *)
Definition allocates (p : Peer) (proof : string) (deadline : Time) (c : Connection)
    (e : event aport) : Prop :=
  e = if len proof == 0 then occurred (Reconnect p deadline) (Ok c)
      else occurred (ConsumeBootstrap p proof deadline) (Ok c).

(** The connection an event allocated, if it did. *)
Definition allocated (e : event aport) : option Connection :=
  match e with
  | existT _ (c, b) =>
      match c in aport B return B -> option Connection with
      | Reconnect _ _ | ConsumeBootstrap _ _ _ =>
          fun r => match r with Ok c => Some c | Err _ => None end
      | _ => fun _ => None
      end b
  end.

(** What a granted lease rests on. *)
Record lease_evidence (p : Peer) (proof : string) (tr : list (event aport)) (l : Lease) : Prop := {
  le_trace : exists now0 t1 alloc t2 now1 i1 a1 i2 a2 deadline,
     tr = occurred Now now0 :: t1 ++ alloc :: t2
            ++ [occurred Now now1; occurred (CheckConnection p (LConnection l)) (Ok tt)]
     /\ current_evidence (PIdentity p) AcceptStream t1 i1 a1
     /\ allocates p proof deadline (LConnection l) alloc
     /\ current_evidence (PIdentity p) AcceptStream t2 i2 a2
     /\ LExpected l = AExpected a1 /\ sameExpected (AExpected a1) (AExpected a2) = true
     /\ nanos now1 < nanos (LDeadline l) <= nanos (ADeadline a2)
     /\ nanos (LDeadline l) <= nanos deadline
     /\ nanos deadline = Z.min (nanos (PExpiresAt p)) (nanos (ADeadline a1));
  le_connection : LPeer l = p /\ ConnectionID l = CID (LConnection l)
     /\ Epoch l = CEpoch (LConnection l) /\ LDeadline l = CDeadline (LConnection l)
     /\ validID (ConnectionID l) = true /\ Epoch l <> 0;
  le_once : length (registry_changes tr) = 1%nat
}.

Lemma refuse_runs p c tr r : runs (refuse p c) tr r ->
  r = Err ErrAdmission /\ exists b, tr = [occurred (CloseConnection (PIdentity p) c) b].
Proof. unfold refuse, Lease_Close, fail. intros H. explore H. split; [done |]. eauto. Qed.

Lemma recheck_ok p a deadline c tr l : runs (recheck p a deadline c) tr (Ok l) ->
  exists t2 now i2 a2,
    tr = t2 ++ [occurred Now now; occurred (CheckConnection p c) (Ok tt)]
    /\ current_evidence (PIdentity p) AcceptStream t2 i2 a2 /\ registry_changes t2 = []
    /\ l = mkLease (AExpected a) (CID c) (CEpoch c) (CDeadline c) p c
    /\ sameExpected (AExpected a) (AExpected a2) = true
    /\ nanos now < nanos (CDeadline c) <= nanos (ADeadline a2)
    /\ nanos (CDeadline c) <= nanos deadline /\ validID (CID c) = true /\ CEpoch c <> 0.
Proof.
  unfold recheck. intros H. split_current H. pose proof (current_queries _ _ _ _ Hcur) as Q.
  destruct cur as [[i2 a2] |]; [| by apply refuse_runs in H as [? _]].
  apply current_ok in Hcur.
  destruct (_ || _) eqn:G in H; [by apply refuse_runs in H as [? _] |].
  cbn [runs pbind trigger] in H. destruct H as (now & t3 & -> & H).
  destruct (_ || _) eqn:G2 in H; [by apply refuse_runs in H as [? _] |].
  cbn [runs pbind trigger] in H. destruct H as (checked & t4 & -> & H).
  destruct checked as [[] |]; [| by apply refuse_runs in H as [? _]].
  destruct H as [-> H]. simplify_eq. simp_bool.
  exists before, now, i2, a2. split_and!; try done; tlia.
Qed.

(** Every refused recheck gives the connection back. *)
Lemma recheck_err p a deadline c tr e : runs (recheck p a deadline c) tr (Err e) ->
  exists tr' b, tr = tr' ++ [occurred (CloseConnection (PIdentity p) c) b] /\ registry_changes tr' = [].
Proof.
  unfold recheck. intros H. split_current H. pose proof (current_queries _ _ _ _ Hcur) as Q.
  destruct cur as [[i2 a2] |]; [| apply refuse_runs in H as (_ & b & ->); eauto].
  destruct (_ || _) in H; [apply refuse_runs in H as (_ & b & ->); eauto |].
  cbn [runs pbind trigger] in H. destruct H as (now & t3 & -> & H).
  destruct (_ || _) in H.
  { apply refuse_runs in H as (_ & b & ->). exists (before ++ [occurred Now now]), b.
    rewrite registry_changes_app, Q, <- app_assoc. done. }
  cbn [runs pbind trigger] in H. destruct H as (checked & t4 & -> & H).
  destruct checked as [u |]; [by destruct H as [_ H] |].
  apply refuse_runs in H as (_ & b & ->).
  exists (before ++ [occurred Now now; occurred (CheckConnection p c) (Err e0)]), b.
  rewrite registry_changes_app, Q, <- app_assoc. done.
Qed.

(** ** Theorems *)

(** C17: A lease rests on evidence.  Whatever the stores, the provider and the
    policies answer, an admitted stream passed two complete checks of the current
    intent, authority, expectations and provider state, one before and one after
    exactly one connection was allocated for the very same peer; the two saw the
    same expectations; and the lease expires no later than the connection, the
    peer's certificate and both authorizations. *)
Theorem admission_lease_evidence p proof tr l (R : runs (Admit p proof) tr (Ok l)) :
  lease_evidence p proof tr l.
Proof.
  unfold Admit in R. destruct (_ && _) in R; [by destruct R as [_ R] |].
  cbn [runs pbind trigger] in R. destruct R as (now0 & tr1 & -> & R).
  destruct (negb _) in R; [by destruct R as [_ R] |].
  split_current R. pose proof (current_queries _ _ _ _ Hcur) as Q.
  destruct cur as [[i1 a1] |]; [| by destruct R as [_ R]]. apply current_ok in Hcur.
  set (deadline := if Before (PExpiresAt p) (ADeadline a1) then PExpiresAt p else ADeadline a1) in R.
  assert (D : nanos deadline = Z.min (nanos (PExpiresAt p)) (nanos (ADeadline a1))).
  { unfold deadline, Before. destruct (_ <? _) eqn:?; lia. }
  apply runs_bind in R as (ta & tb & connected & -> & Ha & R).
  destruct connected as [c |]; [| by destruct R as [_ R]].
  assert (A : exists alloc, ta = [alloc] /\ allocates p proof deadline c alloc
                            /\ registry_change alloc = true).
  { unfold allocates. destruct (len proof == 0); apply runs_trigger in Ha as ->; eauto. }
  destruct A as (alloc & -> & A & Ac).
  apply recheck_ok in R as (t2 & now1 & i2 & a2 & -> & E2 & Q2 & -> & Sm & L1 & L2 & V & Ep).
  constructor; cbn [LExpected ConnectionID Epoch LDeadline LPeer LConnection].
  - exists now0, before, alloc, t2, now1, i1, a1, i2, a2, deadline. destruct L1. by split_and!.
  - done.
  - change (occurred Now now0 :: before ++ [alloc] ++ t2 ++ _)
      with ([occurred Now now0] ++ before ++ [alloc] ++ t2
            ++ [occurred Now now1; occurred (CheckConnection p c) (Ok tt)]).
    rewrite !registry_changes_app, Q, Q2. unfold registry_changes. cbn. by rewrite Ac.
Qed.

(** A refused admission keeps nothing.  When [Admit] fails, either the registry
    was never changed, or the only change attempted was an allocation that failed,
    or the allocated connection was closed again as the last call. *)
Theorem admission_refusal_closes p proof tr e (R : runs (Admit p proof) tr (Err e)) :
  registry_changes tr = []
  \/ (exists alloc, registry_changes tr = [alloc] /\ allocated alloc = None)
  \/ (exists alloc c d b tr', allocates p proof d c alloc
        /\ registry_changes tr = [alloc; occurred (CloseConnection (PIdentity p) c) b]
        /\ tr = tr' ++ [occurred (CloseConnection (PIdentity p) c) b]).
Proof.
  unfold Admit in R. destruct (_ && _) in R; [by destruct R as [-> _]; left |].
  cbn [runs pbind trigger] in R. destruct R as (now0 & tr1 & -> & R).
  destruct (negb _) in R; [by destruct R as [-> _]; left |].
  split_current R. pose proof (current_queries _ _ _ _ Hcur) as Q.
  change (occurred Now now0 :: before ++ rest) with ([occurred Now now0] ++ before ++ rest).
  rewrite !registry_changes_app, Q. cbn [registry_changes List.filter registry_change occurred app].
  destruct cur as [[i1 a1] |]; [| by destruct R as [-> _]; left].
  set (deadline := if Before (PExpiresAt p) (ADeadline a1) then PExpiresAt p else ADeadline a1) in R.
  apply runs_bind in R as (ta & tb & connected & -> & Ha & R). rewrite registry_changes_app.
  destruct connected as [c | err].
  - right. right. apply recheck_err in R as (tr' & b & -> & Q').
    rewrite registry_changes_app, Q'.
    assert (A : exists alloc, ta = [alloc] /\ allocates p proof deadline c alloc
                              /\ registry_change alloc = true).
    { unfold allocates. destruct (len proof == 0); apply runs_trigger in Ha as ->; eauto. }
    destruct A as (alloc & -> & A & Ac).
    exists alloc, c, deadline, b, ([occurred Now now0] ++ before ++ [alloc] ++ tr').
    split; [done |]. split; [unfold registry_changes; cbn; by rewrite Ac | by rewrite <- !app_assoc].
  - right. left. destruct R as [-> _].
    destruct (len proof == 0); apply runs_trigger in Ha as ->; eexists; split; reflexivity.
Qed.

(** No frame is delivered on the strength of the admission alone.  A frame
    passes only if it repeats the lease's binding, connection and epoch without
    unknown fields, and at that moment the current state was checked again for
    delivery, with unchanged expectations, a deadline beyond the frame's, a live
    connection, and the frame policy's consent to this very frame. *)
Theorem admission_frame_rechecked l f tr (R : runs (Lease_Check l (Some f)) tr (Ok tt)) :
  BindingEqual (f_Binding f) (e_Binding (LExpected l)) = true
  /\ f_ConnectionId f = CID (LConnection l) /\ f_ConnectionEpoch f = CEpoch (LConnection l)
  /\ KnownFields f = true
  /\ exists t1 i a now,
       tr = t1 ++ [occurred Now now; occurred (CheckConnection (LPeer l) (LConnection l)) (Ok tt);
                   occurred (AuthorizeFrame i (LConnection l) f) (Ok tt); occurred CtxErr false]
       /\ current_evidence (PIdentity (LPeer l)) DeliverFrame t1 i a
       /\ sameExpected (LExpected l) (AExpected a) = true
       /\ nanos now < nanos (ADeadline a) /\ f_DeadlineUnixMs f <= UnixMilli (ADeadline a).
Proof.
  unfold Lease_Check in R. destruct (_ || _) eqn:G in R; [by destruct R as [_ R] |].
  split_current R. destruct cur as [[i a] |]; [| by destruct R as [_ R]]. apply current_ok in Hcur.
  destruct (negb _) eqn:S in R; [by destruct R as [_ R] |].
  unfold fail in R. explore R; simplify_eq; simp_bool.
  repeat match goal with u : unit |- _ => destruct u end.
  split_and!; try done. exists before, i, a, answer. split_and!; try done; tlia.
Qed.

Lemma authorize_for_ok r p tr g : runs (authorize_for r p) tr (Ok g) ->
  GIdentity g = QIdentity r /\ GVersion g <> 0 /\ registry_changes tr = []
  /\ exists t1 t2 i a, tr = t1 ++ t2 ++ [occurred (RegistryVersion (QIdentity r)) (Ok (GVersion g))]
       /\ current_evidence (QIdentity r) p t1 i a
       /\ AuthorityDeadline g = ADeadline a /\ AttemptDeadline g = Deadline (request_of i)
       /\ GBootstrapDeadline g = ABootstrapDeadline a.
Proof.
  unfold authorize_for. intros H. destruct (_ && _) in H; [by destruct H as [_ H] |].
  split_current H. pose proof (current_queries _ _ _ _ Hcur) as Q.
  destruct cur as [[i a] |]; [| by destruct H as [_ H]]. apply current_ok in Hcur.
  apply runs_bind in H as (t2 & t3 & refused & -> & Hr & H).
  assert (Q2 : registry_changes t2 = []).
  { destruct (bootstrap_purpose p); cbn in Hr; [by destruct Hr as (? & ? & -> & -> & _) | by destruct Hr as [-> _]]. }
  destruct refused; [by destruct H as [_ H] |]. unfold fail in H. explore H; simplify_eq; simp_bool.
  cbn [GIdentity GVersion AuthorityDeadline AttemptDeadline GBootstrapDeadline].
  rewrite !registry_changes_app, Q, Q2. try intros _. split_and!; [done | lia | done |].
  exists before, t2, i, a. done.
Qed.

Lemma AuthorizeCredential_ok r tr g : runs (AuthorizeCredential r) tr (Ok g) ->
  GIdentity g = QIdentity r /\ GVersion g <> 0 /\ registry_changes tr = []
  /\ exists t0 t1 t2 p i a,
       tr = t0 ++ t1 ++ t2 ++ [occurred (RegistryVersion (QIdentity r)) (Ok (GVersion g))]
       /\ current_evidence (QIdentity r) p t1 i a
       /\ AuthorityDeadline g = ADeadline a /\ AttemptDeadline g = Deadline (request_of i)
       /\ GBootstrapDeadline g = ABootstrapDeadline a.
Proof.
  unfold AuthorizeCredential. intros H. destruct (_ && _) in H; [by destruct H as [_ H] |].
  destruct (QEpoch r != 0).
  - destruct (_ != _) in H; [by destruct H as [_ H] |].
    cbn [runs pbind trigger] in H. destruct H as (checked & t & -> & H).
    destruct checked as [u |]; [| by destruct H as [_ H]].
    apply authorize_for_ok in H as (? & ? & Q & t1 & t2 & i & a & -> & E & ? & ? & ?).
    split_and!; try done. by exists [occurred (CheckConnection (QPeer r)
      (mkConnection (QConnectionID r) (QEpoch r) zeroTime)) (Ok u)], t1, t2, RenewIdentity, i, a.
  - apply authorize_for_ok in H as (? & ? & Q & t1 & t2 & i & a & -> & E & ? & ? & ?).
    split_and!; try done. exists [], t1, t2. by eexists _, i, a.
Qed.

(** A credential is registered at most once per commit and never beyond what
    was granted.  A successful [CommitCredential] re-authorized the request, saw the
    registry at the granted version, and registered exactly the presented record
    for the request's identity, expiring within the authority's, the attempt's and
    (for a bootstrap credential) the bootstrap deadline of the grant. *)
Theorem admission_credential_within_grant r g c tr (R : runs (CommitCredential r g c) tr (Ok tt)) :
  RIdentity c = QIdentity r /\ GIdentity g = QIdentity r /\ Bootstrap c = bool_decide (QEpoch r = 0)
  /\ nanos (ExpiresAt c) <= nanos (AuthorityDeadline g)
  /\ nanos (ExpiresAt c) <= nanos (AttemptDeadline g)
  /\ (Bootstrap c = true -> nanos (ExpiresAt c) <= nanos (GBootstrapDeadline g))
  /\ exists fresh t1,
       tr = t1 ++ [occurred (Register r fresh c) (Ok tt)] /\ registry_changes t1 = []
       /\ occurred (RegistryVersion (QIdentity r)) (Ok (GVersion g)) ∈ t1
       /\ GVersion g <> 0 /\ GVersion fresh = GVersion g
       /\ exists p ti i a, current_evidence (QIdentity r) p ti i a /\ ti ⊆ t1
            /\ AuthorityDeadline fresh = ADeadline a.
Proof.
  unfold CommitCredential in R. apply runs_bind in R as (t1 & t2 & fresh & -> & Ha & R).
  destruct fresh as [fresh |]; [| by destruct R as [_ R]].
  apply AuthorizeCredential_ok in Ha as (Gi & Gv & Q & t0 & ta & tb & p & i & a & -> & E & D1 & _ & _).
  destruct (_ || _) eqn:G in R; [by destruct R as [_ R] |].
  unfold fail in R. explore R; simplify_eq. repeat match goal with u : unit |- _ => destruct u end.
  repeat match goal with X : _ || _ = false |- _ => apply orb_false_iff in X as [? ?] end.
  match goal with X : _ && _ = false |- _ => rename X into B end. simp_bool.
  split_and!; try done; try tlia.
  - intros Hb. rewrite Hb in B. cbn in B. tlia.
  - eexists fresh, _. split_and!; [reflexivity | done | | congruence | done |].
    + replace (GVersion g) with (GVersion fresh) by congruence.
      rewrite !elem_of_app. do 3 right. left.
    + exists p, ta, i, a. split_and!; [done | intros x Hx; rewrite !elem_of_app; tauto | done].
Qed.

End Service.

(** ** Witnesses *)

Definition ex_identity : Identity := mkIdentity id1 id2 id3.

Definition ex_ascope : Scope := mkScope id1 id4 id4 id3 id2 3 1.

Definition ex_arequest : AcquireRequest :=
  let r := ComputeReconciliation.ex_request in
  mkAcquireRequest ex_ascope (ROperation r) (RRuntime r) (RProfile r) (ProfileDigest r)
    (ImplementationDigest r) (RWorkspace r) (BootstrapReference r) (at_second 900).

Definition ex_intent : ComputeIntent :=
  mkComputeIntent (ComputeReconciliation.mkBinding ex_arequest "uid-1") ComputeRunning
    (ROperation ex_arequest) 1 1 true false.

Definition ex_agent_binding : Handshake.Binding :=
  Handshake.mkBinding id1 id4 id4 id3 id2 3 "".

Definition ex_agent_expected : Expected :=
  mkExpected (Some ex_agent_binding) ex_challenge digest_a "pi" digest_a
    ["harness.v1"] ["harness.v1"] (Some HardLimits).

Definition ex_authorization : Authorization :=
  mkAuthorization (at_second 600) (at_second 300) ex_agent_expected.

Definition ex_status : Status :=
  mkStatus (mkHandle id2 "k8s" "uid-1" Ready (at_second 10)) Ready "" "1"
    (mkEffectiveFacts (IsolationClass (RProfile ex_arequest)) (Image (RRuntime ex_arequest))
       (Architecture (RRuntime ex_arequest)) "" (NProfile (PNetwork (RProfile ex_arequest)))
       (Reference (RWorkspace ex_arequest)) true).

Definition ex_peer : Peer := mkPeer ex_identity digest_b (at_second 400).

Definition ex_connection : Connection := mkConnection id4 7 (at_second 400).

(** A world in which every check passes, except that the connection check answers
    [alive]. *)
Definition ex_aport (alive : bool) : forall B, aport unit B -> B :=
  fun B c =>
    match c in aport _ B return B with
    | CtxErr _ => false
    | Now _ => at_second 100
    | ALoadCompute _ _ _ => Ok ex_intent
    | AGet _ _ _ => Ok ex_status
    | AuthorizeTransport _ _ _ => Ok ex_authorization
    | RegistryVersion _ _ => Ok 4
    | Register _ _ _ _ => Ok tt
    | Reconnect _ _ _ => Ok ex_connection
    | ConsumeBootstrap _ _ _ _ => Ok ex_connection
    | CheckConnection _ _ _ => if alive then Ok tt else Err [ErrConflict]
    | CloseConnection _ _ _ => Ok tt
    | AuthorizeFrame _ _ _ _ => Ok tt
    end.

Definition ex_lease : Lease :=
  mkLease ex_agent_expected id4 7 (at_second 400) ex_peer ex_connection.

Abbreviation ex_admit := (Admit unit ex_size ex_encoding ex_equal ex_equal ex_peer ex_challenge).

Lemma admission_lease_witness :
  lease_evidence unit ex_size ex_encoding ex_equal ex_equal ex_peer ex_challenge
    (fst (execute (ex_aport true) ex_admit)) ex_lease.
Proof.
  apply admission_lease_evidence.
  replace (Ok ex_lease) with (snd (execute (ex_aport true) ex_admit)) by (vm_compute; reflexivity).
  apply execute_runs.
Defined.

Lemma admission_refusal_witness :
  let tr := fst (execute (ex_aport false) ex_admit) in
  length (registry_changes unit tr) = 2%nat
  /\ (registry_changes unit tr = []
  \/ (exists alloc, registry_changes unit tr = [alloc] /\ allocated unit alloc = None)
  \/ (exists alloc c d b tr', allocates unit ex_peer ex_challenge d c alloc
        /\ registry_changes unit tr = [alloc; occurred (CloseConnection unit (PIdentity ex_peer) c) b]
        /\ tr = tr' ++ [occurred (CloseConnection unit (PIdentity ex_peer) c) b])).
Proof.
  intros tr. split; [vm_compute; reflexivity |].
  apply (admission_refusal_closes unit ex_size ex_encoding ex_equal ex_equal ex_peer ex_challenge
           tr ErrAdmission).
  replace (Err ErrAdmission) with (snd (execute (ex_aport false) ex_admit)) by (vm_compute; reflexivity).
  apply execute_runs.
Defined.

Definition ex_frame : Envelope unit :=
  mkEnvelope unit 1 0 id4 7 "m1" 1 (Some ex_agent_binding) "" "" "" 0 1700000500000 (Some tt) "".

Abbreviation ex_check :=
  (Lease_Check unit (fun _ => true) ex_size ex_encoding ex_equal ex_equal ex_lease (Some ex_frame)).

Lemma admission_frame_witness :
  runs ex_check (fst (execute (ex_aport true) ex_check)) (Ok tt)
  /\ KnownFields unit (fun _ => true) ex_frame = true.
Proof.
  assert (R : runs ex_check (fst (execute (ex_aport true) ex_check)) (Ok tt)).
  { replace (Ok tt) with (snd (execute (ex_aport true) ex_check)) by (vm_compute; reflexivity).
    apply execute_runs. }
  split; [exact R |].
  apply (admission_frame_rechecked unit (fun _ => true) ex_size ex_encoding ex_equal ex_equal
           ex_lease ex_frame _ R).
Defined.

Definition ex_credential_request : CredentialRequest :=
  mkCredentialRequest ex_identity false zeroPeer "" 0.

Definition ex_credential_grant : CredentialGrant :=
  mkCredentialGrant ex_identity 4 (at_second 600) (at_second 900) (at_second 300).

Definition ex_credential : CredentialRecord :=
  mkCredentialRecord ex_identity id4 digest_a digest_b digest_b (at_second 0) (at_second 300) true.

Abbreviation ex_commit :=
  (CommitCredential unit ex_size ex_encoding ex_equal ex_credential_request ex_credential_grant
     ex_credential).

Lemma admission_credential_witness :
  runs ex_commit (fst (execute (ex_aport true) ex_commit)) (Ok tt)
  /\ RIdentity ex_credential = QIdentity ex_credential_request.
Proof.
  assert (R : runs ex_commit (fst (execute (ex_aport true) ex_commit)) (Ok tt)).
  { replace (Ok tt) with (snd (execute (ex_aport true) ex_commit)) by (vm_compute; reflexivity).
    apply execute_runs. }
  split; [exact R |].
  apply (admission_credential_within_grant unit ex_size ex_encoding ex_equal
           ex_credential_request ex_credential_grant ex_credential _ R).
Defined.
