(* ===== verification/Resume.v ===== *)
(** * internal/app/session/{suspend,resume}.go: suspending and resuming a Session

    Request validation and the [Resumer], as programs over the resume store, the
    materializer and the clock.  Proved for every behaviour of these: one pass
    reconciles at most the one persisted candidate and only before its deadline,
    an ambiguous materialization never abandons the candidate, abandonment has a
    terminal cause, and a candidate is recorded as cleaned only after its cleanup
    succeeded. *)

From Stdlib Require Import ZArith Bool Lia.
From stdpp Require Import base strings list.
From S2P Require Import Prelude Regex GoStd Primitives Interaction Session.

Record Caller : Type := mkCaller { TenantID : ID; PrincipalDigest : string }.

Record SuspendRequest : Type := mkSuspendRequest {
  SCaller : Caller;
  SessionID : ID;
  OperationID : ID;
  CheckpointID : ID;
  ExpectedVersion : Z
}.

(** [type ResumeRequest SuspendRequest] *)
Definition ResumeRequest : Type := SuspendRequest.

(** Sentinel errors of the workspace and checkpoint packages; an error value is
    the sentinels it wraps. *)
Inductive Sentinel : Type :=
| ErrInvalid | ErrIntegrity | ErrConflict | ErrUnavailable | ErrInvalidRestore | ErrIncompatible
| ErrOther.

#[export] Instance Sentinel_eq_dec : EqDecision Sentinel.
Proof. solve_decision. Defined.

Definition GoError : Type := list Sentinel.

Definition errors_Is (e : GoError) (s : Sentinel) : bool := existsb (fun x => x == s) e.

(** [SuspendRequest.Validate]; [math.MaxInt64] leaves room for one increment. *)
Definition SuspendRequest_Validate (r : SuspendRequest) : result GoError unit :=
  if negb (validIDs [TenantID (SCaller r); SessionID r; OperationID r; CheckpointID r])
  then Err [ErrInvalid]
  else if negb (match_string sha256_pattern (PrincipalDigest (SCaller r)))
          || (ExpectedVersion r <? 0) || (ExpectedVersion r =? max_int64)
  then Err [ErrInvalid]
  else Ok tt.

Definition ResumeRequest_Validate (r : ResumeRequest) : result GoError unit :=
  match SuspendRequest_Validate r with
  | Err e => Err e
  | Ok _ => if max_int64 - 2 <? ExpectedVersion r then Err [ErrInvalid] else Ok tt
  end.

Record ResumeIntent : Type := mkResumeIntent {
  Request : ResumeRequest;
  SandboxID : ID;
  BootstrapID : ID;
  AttachmentID : ID;
  WorkspaceID : ID;
  WorkspaceGenerationID : ID;
  WorkspaceGeneration : Z;
  ExecutionGeneration : Z;
  Version : Z;
  Runtime : RuntimeBinding;
  Manifest : string;
  Deadline : Time;
  TargetState : string
}.

Record ResumeResult : Type := mkResumeResult {
  ROperationID : ID;
  RSessionID : ID;
  RCheckpointID : ID;
  RSandboxID : ID;
  RBootstrapID : ID;
  RAttachmentID : ID;
  RState : string;
  RVersion : Z;
  RGeneration : Z
}.

Record ResumeObservation : Type := mkResumeObservation {
  SandboxReference : string;
  AttachmentReference : string;
  EvidenceDigest : string
}.

Definition ResumeObservation_Validate (o : ResumeObservation) : result GoError unit :=
  if (len (SandboxReference o) =? 0) || (2048 <? len (SandboxReference o))
     || (len (AttachmentReference o) =? 0) || (2048 <? len (AttachmentReference o))
     || negb (match_string sha256_pattern (EvidenceDigest o))
  then Err [ErrInvalid]
  else Ok tt.

(** ** Ports

    A Go call may return a value next to its error, and [Resume] looks at both. *)

Abbreviation with_error A := (A * option GoError)%type.

Inductive rport : Type -> Type :=
| Prepare (r : ResumeRequest) : rport (with_error (ResumeIntent * ResumeResult))
| Complete (r : ResumeRequest) (o : ResumeObservation) : rport (with_error ResumeResult)
| Fail_ (r : ResumeRequest) : rport (with_error ResumeResult)
| CleanupIntent (tenant operation : ID) : rport (with_error (ResumeIntent * bool))
| Cleaned (tenant operation : ID) : rport (option GoError)
| Reconcile (i : ResumeIntent) : rport (with_error ResumeObservation)
| Materializer_Cleanup (i : ResumeIntent) : rport (option GoError)
| Now : rport Time.

(** [errors.Is(nil, _)] is false. *)
Definition err_is (err : option GoError) (s : Sentinel) : bool :=
  match err with Some e => errors_Is e s | None => false end.

Definition resumeTerminalError (err : option GoError) : bool :=
  err_is err ErrIntegrity || err_is err ErrConflict || err_is err ErrInvalidRestore
  || err_is err ErrIncompatible.

Definition Resume (r : ResumeRequest) : prog rport (with_error ResumeResult) :=
  do! prepared <- trigger (Prepare r);
  let '((i, result), err) := prepared in
  match err with
  | Some _ =>
      if (SandboxID i != "") && resumeTerminalError err then
        do! failed <- trigger (Fail_ r);
        match failed with
        | (f, None) => Ret (f, None)
        | (_, Some _) => Ret (result, err)
        end
      else Ret (result, err)
  | None =>
      if RState result != "RESUMING" then Ret (result, None)
      else
        do! now <- trigger Now;
        if negb (Before now (Deadline i)) then trigger (Fail_ r)
        else
          do! reconciled <- trigger (Reconcile i);
          match reconciled with
          | (_, Some e) =>
              if errors_Is e ErrIntegrity then trigger (Fail_ r)
              else Ret (result, Some [ErrUnavailable])
          | (observed, None) =>
              do! completed <- trigger (Complete r observed);
              let '(result, err) := completed in
              if resumeTerminalError err then trigger (Fail_ r) else Ret (result, err)
          end
  end.

Definition Cleanup (tenant operation : ID) : prog rport (option GoError) :=
  do! intent <- trigger (CleanupIntent tenant operation);
  let '((i, done_), err) := intent in
  if is_some err || done_ then Ret err
  else
    do! cleaned <- trigger (Materializer_Cleanup i);
    match cleaned with
    | Some _ => Ret (Some [ErrUnavailable])
    | None => trigger (Cleaned tenant operation)
    end.

(** ** What a run does *)

(** The calls that act on a candidate, with the answers that matter. *)
Inductive action : Type :=
| AReconcile (i : ResumeIntent) (o : ResumeObservation) (err : option GoError)
| AComplete (r : ResumeRequest) (o : ResumeObservation)
| AFail (r : ResumeRequest)
| ACleanup (i : ResumeIntent) (err : option GoError)
| ACleaned (tenant operation : ID).

Definition action_of (e : event rport) : option action :=
  match e with
  | existT _ (c, b) =>
      match c in rport B return B -> option action with
      | Reconcile i => fun b => Some (AReconcile i (fst b) (snd b))
      | Complete r o => fun _ => Some (AComplete r o)
      | Fail_ r => fun _ => Some (AFail r)
      | Materializer_Cleanup i => fun b => Some (ACleanup i b)
      | Cleaned t o => fun _ => Some (ACleaned t o)
      | _ => fun _ => None
      end b
  end.

Definition actions (tr : list (event rport)) : list action := omap action_of tr.

(** Why a candidate may be abandoned: a terminal refusal of the store, a passed
    deadline, or an integrity failure of the materialization. *)
Inductive abandon_cause (r : ResumeRequest) : list (event rport) -> Prop :=
| cause_prepare i res e : SandboxID i <> "" -> resumeTerminalError (Some e) = true ->
    abandon_cause r [occurred (Prepare r) ((i, res), Some e)]
| cause_deadline i res now : RState res = "RESUMING" -> Before now (Deadline i) = false ->
    abandon_cause r [occurred (Prepare r) ((i, res), None); occurred Now now]
| cause_integrity i res now o e : RState res = "RESUMING" -> Before now (Deadline i) = true ->
    errors_Is e ErrIntegrity = true ->
    abandon_cause r [occurred (Prepare r) ((i, res), None); occurred Now now;
                     occurred (Reconcile i) (o, Some e)]
| cause_complete i res now o res' e : RState res = "RESUMING" -> Before now (Deadline i) = true ->
    resumeTerminalError (Some e) = true ->
    abandon_cause r [occurred (Prepare r) ((i, res), None); occurred Now now;
                     occurred (Reconcile i) (o, None); occurred (Complete r o) (res', Some e)].

(** The discipline of one pass. *)
Record resume_discipline (r : ResumeRequest) (tr : list (event rport)) : Prop := {
  rd_reconcile : forall i o err, AReconcile i o err ∈ actions tr -> exists res now,
     occurred (Prepare r) ((i, res), None) ∈ tr /\ RState res = "RESUMING"
     /\ occurred Now now ∈ tr /\ Before now (Deadline i) = true;
  rd_complete : forall r' o, AComplete r' o ∈ actions tr ->
     r' = r /\ exists i, AReconcile i o None ∈ actions tr;
  rd_abandon : forall r', AFail r' ∈ actions tr ->
     r' = r /\ exists t f, tr = t ++ [occurred (Fail_ r) f] /\ abandon_cause r t;
  rd_ambiguous : forall i o e, AReconcile i o (Some e) ∈ actions tr ->
     errors_Is e ErrIntegrity = false -> actions tr = [AReconcile i o (Some e)];
  rd_distinct : NoDup (map (fun a => match a with
       | AReconcile _ _ _ => 0 | AComplete _ _ => 1 | AFail _ => 2
       | ACleanup _ _ => 3 | ACleaned _ _ => 4 end) (actions tr))
}.

Lemma terminal_some err : resumeTerminalError err = true -> exists e, err = Some e.
Proof. destruct err; [eauto | done]. Qed.

Ltac in_actions :=
  repeat match goal with
  | H : _ ∈ [] |- _ => apply elem_of_nil in H; destruct H
  | H : _ ∈ _ :: _ |- _ => apply elem_of_cons in H as [H | H]
  end; simplify_eq.

(** ** Theorems *)

(** One pass of [Resume] acts on one candidate.  Whatever the store and the
    materializer answer, only the prepared intent is reconciled, at most once,
    while it is RESUMING and before its deadline; only what that reconciliation
    observed is completed; the candidate is abandoned at most once, as the last
    call and for a terminal cause; and after an ambiguous materialization nothing
    more happens to it. *)
Theorem resume_one_candidate r tr out (R : runs (Resume r) tr out) : resume_discipline r tr.
Proof.
  unfold Resume in R. explore R; simp_bool; try clear R; try intros _.
  all: try match goal with X : resumeTerminalError ?o = true |- _ =>
         is_var o; destruct (terminal_some _ X) as [? ->] end.
  all: constructor; cbn.
  all: intros; in_actions; try discriminate; try congruence.
  all: try (apply (bool_decide_unpack _); vm_compute; exact I).
  all: first
    [ split; [done |]; match goal with |- exists t f, ?l = _ /\ _ =>
        exists (removelast l); eexists; split; [reflexivity | cbn; by econstructor] end
    | split; [done |]; eexists; apply list_elem_of_here
    | do 2 eexists; split_and!;
      [apply list_elem_of_here | done | apply list_elem_of_further, list_elem_of_here | done] ].
Qed.

(** A success that [Resume] reports is one the store gave: an error-free result
    is the store's own answer to preparing, completing or failing this request. *)
Theorem resume_result_from_store r tr res (R : runs (Resume r) tr (res, None)) :
  (exists i, occurred (Prepare r) ((i, res), None) ∈ tr)
  \/ (exists o, occurred (Complete r o) (res, None) ∈ tr)
  \/ occurred (Fail_ r) (res, None) ∈ tr.
Proof.
  unfold Resume in R. explore R; simplify_eq; try discriminate.
  all: first [ left; eexists; apply list_elem_of_here
             | right; right; by repeat first [apply list_elem_of_here | apply list_elem_of_further]
             | right; left; eexists; by repeat first [apply list_elem_of_here | apply list_elem_of_further]].
Qed.

(** Cleanup is recorded only when it happened: [Cleaned] is called only after
    the materializer removed exactly the candidate of the persisted failure intent
    without error. *)
Theorem resume_cleaned_after_cleanup tenant operation tr out
  (R : runs (Cleanup tenant operation) tr out) t o (C : ACleaned t o ∈ actions tr) :
  t = tenant /\ o = operation /\ exists i,
    occurred (CleanupIntent tenant operation) ((i, false), None) ∈ tr
    /\ actions tr = [ACleanup i None; ACleaned tenant operation].
Proof.
  unfold Cleanup in R. explore R; cbn in C; in_actions; simp_bool.
  intros _. split_and!; [done | done |]. eexists. split; [apply list_elem_of_here | done].
Qed.

(** The version a resume request carries leaves room for the two increments it
    causes, in [int64]. *)
Theorem resume_version_room r (V : ResumeRequest_Validate r = Ok tt) :
  0 <= ExpectedVersion r /\ i64 (ExpectedVersion r + 2) = ExpectedVersion r + 2
  /\ validIDs [TenantID (SCaller r); SessionID r; OperationID r; CheckpointID r] = true.
Proof.
  unfold ResumeRequest_Validate, SuspendRequest_Validate in V. ok_inv V.
  match goal with X : (if _ then _ else _) = Ok _ |- _ => ok_inv X end. unfold max_int64 in *.
  split_and!; [lia | apply i64_small; unfold max_int64; lia |].
  done.
Qed.

(** ** Witnesses *)

Definition ex_request : ResumeRequest :=
  mkSuspendRequest (mkCaller id1 digest_a) id2 id3 id4 7.

Definition ex_intent : ResumeIntent :=
  mkResumeIntent ex_request id4 id3 id2 id1 id1 2 3 7 ex_binding "{}" (at_second 60) "IDLE".

Definition ex_result (state : string) : ResumeResult :=
  mkResumeResult id3 id2 id4 id4 id3 id2 state 7 3.

(** A world in which the materialization answers [err] and the rest succeeds. *)
Definition ex_rport (err : option GoError) : forall B, rport B -> B :=
  fun B c =>
    match c in rport B return B with
    | Prepare _ => ((ex_intent, ex_result "RESUMING"), None)
    | Complete _ _ => (ex_result "IDLE", None)
    | Fail_ _ => (ex_result "FAILED", None)
    | CleanupIntent _ _ => ((ex_intent, false), None)
    | Cleaned _ _ => None
    | Reconcile _ => (mkResumeObservation "uid-1" "pvc-1" digest_b, err)
    | Materializer_Cleanup _ => None
    | Now => at_second 10
    end.

Lemma resume_one_candidate_witness :
  let tr := fst (execute (ex_rport (Some [ErrOther])) (Resume ex_request)) in
  length (actions tr) = 1%nat /\ resume_discipline ex_request tr.
Proof.
  intros tr. split; [vm_compute; reflexivity |].
  apply (resume_one_candidate ex_request tr (snd (execute (ex_rport (Some [ErrOther])) (Resume ex_request)))).
  apply execute_runs.
Defined.

Lemma resume_result_witness :
  let tr := fst (execute (ex_rport None) (Resume ex_request)) in
  (exists i, occurred (Prepare ex_request) ((i, ex_result "IDLE"), None) ∈ tr)
  \/ (exists o, occurred (Complete ex_request o) (ex_result "IDLE", None) ∈ tr)
  \/ occurred (Fail_ ex_request) (ex_result "IDLE", None) ∈ tr.
Proof.
  intros tr. apply resume_result_from_store.
  change (ex_result "IDLE", None) with (snd (execute (ex_rport None) (Resume ex_request))).
  apply execute_runs.
Defined.

Lemma resume_cleaned_witness :
  let tr := fst (execute (ex_rport None) (Cleanup id1 id3)) in
  id1 = id1 /\ id3 = id3 /\ exists i,
    occurred (CleanupIntent id1 id3) ((i, false), None) ∈ tr
    /\ actions tr = [ACleanup i None; ACleaned id1 id3].
Proof.
  intros tr.
  apply (resume_cleaned_after_cleanup id1 id3 tr (snd (execute (ex_rport None) (Cleanup id1 id3)))).
  - apply execute_runs.
  - right. left.
Defined.

Lemma resume_version_witness : 0 <= ExpectedVersion ex_request.
Proof.
  apply (resume_version_room ex_request). vm_compute. reflexivity.
Defined.
