(* ===== verification/EventStream.v ===== *)
(** * internal/app/eventstream and postgres/event_reads.go: reading the event log

    [Reader.next] as a program over the transaction, the repositories, the access
    policies and the clock, and [ReadNext] over the rows of one Session's log.
    Proved: whatever the stores and policies answer, what a reader discloses is
    the event right after its cursor, of the caller's tenant and Session, still
    retained and cleared by the access policy for that very event; and over the
    stored log, what [next] returns is determined: the next event, the end of the
    log, or a gap exactly when the event after the cursor is no longer there at a
    clock reading of the call. *)

From Stdlib Require Import ZArith Bool Lia.
From stdpp Require Import base strings list.
From S2P Require Import Prelude Regex GoStd JsonDecoder JsonEncode Primitives Interaction.
From S2P Require Import RuntimeEvent Session Execution.

(** [session.Caller] *)
Record Caller : Type := mkCaller { CTenantID : ID; PrincipalDigest : string }.

Record Result : Type := mkResult {
  Earliest : Z;
  Latest : Z;
  Sequence : Z;
  Type_ : string;
  Data : option string
}.

Definition emptyResult : Result := mkResult 0 0 0 "" None.

Inductive StreamError : Type := ErrInvalid | ErrNotFound | ErrUnavailable | ErrGap.

#[export] Instance StreamError_eq_dec : EqDecision StreamError.
Proof. solve_decision. Defined.

(** [persistence.EventRead] *)
Record EventRead : Type := mkEventRead {
  REvent : option Event;
  REarliest : Z;
  RLatest : Z
}.

(** Store errors, as far as [next] tells them apart. *)
Inductive StoreError : Type := StoreNotFound | StoreFailure.

(** ** Ports *)

Inductive sport : Type -> Type :=
| Begin (tenant : ID) : sport (result StoreError unit)
| GetExecution (id : ID) : sport (result StoreError (option Execution))
| ExecutionAccess (c : Caller) (sid eid : ID) : sport (result unit unit)
| GetSession (id : ID) : sport (result StoreError (option Session))
| Access (c : Caller) (sid : ID) (e : option Event) : sport (result unit unit)
| ReadNext (sid : ID) (after : Z) (now : Time) : sport (result StoreError EventRead)
| Now : sport Time
| Commit : sport (result StoreError unit).

(** ** The envelope *)

Definition optional (name value : string) : list (string * jvalue) :=
  if value != "" then [(name, JString value)] else [].

Definition envelope (e : Event) : jvalue :=
  let c := correlation e in
  JMap ([("schema_version", JString "thinkpixel.runtime-event/v1"); ("event_id", JString (eventID e));
         ("tenant_id", JString (RuntimeEvent.tenantID e)); ("session_id", JString (sessionID e));
         ("sequence", JUint (sequence e)); ("aggregate_version", JUint (aggregateVersion e));
         ("type", JString (typeName e)); ("occurred_at", JTime (occurredAt e));
         ("recorded_at", JTime (recordedAt e)); ("source", JString (source e));
         ("classification", JString (classification e)); ("payload", JRaw (payload e));
         ("correlation", JMap (optional "request_id" (RequestID c) ++ optional "trace_id" (TraceID c)
                               ++ optional "span_id" (SpanID c)))]
        ++ optional "execution_id" (executionID e) ++ optional "attempt_id" (attemptID e)).

Definition maxEnvelope : Z := 524288.

(** ** next *)

(** An error of the transaction's callback, with the bounds read so far. *)
Definition cb_error : Type := (StreamError + StoreError) * Result.

Abbreviation failed e := (Ret (Err (inl e, emptyResult))) (only parsing).

(** [until, ok := e.RetainUntil(); ok && !until.After(now)] *)
Definition expired (e : Event) (now : Time) : bool :=
  match retainUntil e with Some until => negb (After until now) | None => false end.

(** Disclose [e]: the policy, the retention once more, and the envelope. *)
Definition disclose (caller : Caller) (id : ID) (bounds : Result) (e : Event)
  : prog sport (result cb_error Result) :=
  do! allowed <- trigger (Access caller id (Some e));
  match allowed with
  | Err _ => Ret (Err (inl ErrNotFound, bounds))
  | Ok _ =>
      do! late <- (match retainUntil e with
                   | Some _ => do! now <- trigger Now; Ret (expired e now)
                   | None => Ret false
                   end);
      if late : bool then Ret (Err (inl ErrGap, bounds))
      else match Marshal (envelope e) with
      | None => Ret (Err (inl ErrUnavailable, bounds))
      | Some data =>
          if maxEnvelope <? len data then Ret (Err (inl ErrUnavailable, bounds))
          else Ret (Ok (mkResult (Earliest bounds) (Latest bounds) (sequence e) (typeName e) (Some data)))
      end
  end.

(** After the Session is resolved and open to the caller. *)
Definition read_one (caller : Caller) (id executionID_ : ID) (after : Z)
  : prog sport (result cb_error Result) :=
  do! now <- trigger Now;
  do! got <- trigger (ReadNext id after now);
  match got with
  | Err e => Ret (Err (inr e, emptyResult))
  | Ok read =>
      let bounds := mkResult (REarliest read) (RLatest read) 0 "" None in
      if RLatest read <? after then Ret (Err (inl ErrInvalid, bounds))
      else if (u64 (after + 1) <? REarliest read) || (negb (is_some (REvent read)) && (after <? RLatest read))
      then Ret (Err (inl ErrGap, bounds))
      else match REvent read with
      | None => Ret (Ok bounds)
      | Some e =>
          if (RuntimeEvent.tenantID e != CTenantID caller) || (sessionID e != id)
          then Ret (Err (inl ErrUnavailable, bounds))
          else if sequence e != u64 (after + 1) then Ret (Err (inl ErrGap, bounds))
          else
            do! late <- (match retainUntil e with
                         | Some _ => do! now <- trigger Now; Ret (expired e now)
                         | None => Ret false
                         end);
            if late : bool then Ret (Err (inl ErrGap, bounds))
            else if (executionID_ != "") && (executionID e != executionID_)
            then Ret (Ok (mkResult (REarliest read) (RLatest read) (sequence e) "" None))
            else disclose caller id bounds e
      end
  end.

Definition open_session (caller : Caller) (id executionID_ : ID) (after : Z)
  : prog sport (result cb_error Result) :=
  do! got <- trigger (GetSession id);
  match got with
  | Err e => Ret (Err (inr e, emptyResult))
  | Ok None => failed ErrNotFound
  | Ok (Some s) =>
      if (Session.id s != id) || (Session.tenantID s != CTenantID caller) then failed ErrNotFound
      else
        do! allowed <- trigger (Access caller id None);
        match allowed with
        | Err _ => failed ErrNotFound
        | Ok _ => read_one caller id executionID_ after
        end
  end.

(** The transaction's callback; [execution] reads through an Execution. *)
Definition next_work (caller : Caller) (id : ID) (after : Z) (execution : bool)
  : prog sport (result cb_error Result) :=
  if execution then
    do! got <- trigger (GetExecution id);
    match got with
    | Err e => Ret (Err (inr e, emptyResult))
    | Ok None => failed ErrNotFound
    | Ok (Some x) =>
        if (Execution.id x != id) || (Execution.tenantID x != CTenantID caller) then failed ErrNotFound
        else
          let sid := Execution.SessionID (Execution.binding x) in
          do! allowed <- trigger (ExecutionAccess caller sid id);
          match allowed with
          | Err _ => failed ErrNotFound
          | Ok _ => open_session caller sid id after
          end
    end
  else open_session caller id "" after.

(** The error the caller sees, with the bounds only for a gap. *)
Definition stream_error (e : cb_error) : Result * option StreamError :=
  let (err, bounds) := e in
  match err with
  | inl ErrGap => (mkResult (Earliest bounds) (Latest bounds) (Sequence bounds) (Type_ bounds) None, Some ErrGap)
  | inl ErrInvalid => (emptyResult, Some ErrInvalid)
  | inl ErrNotFound | inr StoreNotFound => (emptyResult, Some ErrNotFound)
  | _ => (emptyResult, Some ErrUnavailable)
  end.

Definition next (caller : Caller) (id : ID) (after : Z) (execution : bool)
  : prog sport (Result * option StreamError) :=
  if negb (validID (CTenantID caller)) then Ret (emptyResult, Some ErrNotFound)
  else if negb (validID id) || (max_int64 <? after) then Ret (emptyResult, Some ErrInvalid)
  else if negb (match_string sha256_pattern (PrincipalDigest caller))
  then Ret (emptyResult, Some ErrNotFound)
  else
    do! begun <- trigger (Begin (CTenantID caller));
    match begun with
    | Err e => Ret (stream_error (inr e, emptyResult))
    | Ok _ =>
        do! worked <- next_work caller id after execution;
        match worked with
        | Err e => Ret (stream_error e)
        | Ok out =>
            do! committed <- trigger Commit;
            match committed with
            | Err e => Ret (stream_error (inr e, emptyResult))
            | Ok _ => Ret (out, None)
            end
        end
    end.

(** [Reader.Next] and [ExecutionReader.Next] *)
Definition Next (caller : Caller) (id : ID) (after : Z) := next caller id after false.
Definition ExecutionNext (caller : Caller) (id : ID) (after : Z) := next caller id after true.

(** ** postgres/event_reads.go: ReadNext over the rows of a Session's log *)

(** The rows of the stream and the last sequence ever allocated. *)
Record Log : Type := mkLog { last_sequence : Z; rows : list Event }.

Definition retained (now : Time) (e : Event) : bool := negb (expired e now).

(** [min] and [ORDER BY sequence LIMIT 1]: the first row by sequence. *)
Fixpoint lowest (l : list Event) : option Event :=
  match l with
  | [] => None
  | e :: l' => match lowest l' with
               | Some x => Some (if sequence e <=? sequence x then e else x)
               | None => Some e
               end
  end.

Definition Log_ReadNext (log : Log) (after : Z) (now : Time) : EventRead :=
  let kept := List.filter (retained now) (rows log) in
  let earliest := match lowest kept with Some e => sequence e | None => last_sequence log + 1 end in
  mkEventRead (lowest (List.filter (fun e => after <? sequence e) kept)) earliest (last_sequence log).

(** ** Lemmas *)

Lemma u64_next after : 0 <= after <= max_int64 -> u64 (after + 1) = after + 1.
Proof. unfold max_int64. intros H. apply u64_small. unfold is_u64, two64. lia. Qed.

Ltac in_trace :=
  repeat first [ apply list_elem_of_here | apply list_elem_of_further ].

(** What [disclose] gives out. *)
Lemma disclose_ok caller id bounds e tr out : runs (disclose caller id bounds e) tr (Ok out) ->
  occurred (Access caller id (Some e)) (Ok tt) ∈ tr
  /\ (forall until, retainUntil e = Some until ->
        exists now, occurred Now now ∈ tr /\ nanos now < nanos until)
  /\ exists data, Marshal (envelope e) = Some data /\ len data <= maxEnvelope
       /\ out = mkResult (Earliest bounds) (Latest bounds) (sequence e) (typeName e) (Some data).
Proof.
  unfold disclose. intros H. explore H; simplify_eq; simp_bool; try intros _.
  all: repeat match goal with u : unit |- _ => destruct u end.
  all: split; [in_trace |]; split; [| eexists; split_and!; [done | lia | done]].
  all: intros limit E; try congruence. 
  match goal with X : expired e _ = false, Y : retainUntil e = Some _ |- _ =>
    unfold expired in X; rewrite Y in X end. simp_bool.
  eexists. split; [in_trace | tlia].
Qed.

(** What one read returns without error. *)
Inductive disclosed (caller : Caller) (sid executionID_ : ID) (after : Z) (read : EventRead)
    (tr : list (event sport)) : Result -> Prop :=
| at_end : REvent read = None -> after = RLatest read ->
    disclosed caller sid executionID_ after read tr (mkResult (REarliest read) (RLatest read) 0 "" None)
| filtered e : REvent read = Some e -> sequence e = after + 1 -> executionID_ <> "" ->
    executionID e <> executionID_ ->
    disclosed caller sid executionID_ after read tr
      (mkResult (REarliest read) (RLatest read) (after + 1) "" None)
| delivered e data : REvent read = Some e -> sequence e = after + 1 ->
    RuntimeEvent.tenantID e = CTenantID caller -> sessionID e = sid ->
    (executionID_ <> "" -> executionID e = executionID_) ->
    occurred (Access caller sid (Some e)) (Ok tt) ∈ tr ->
    (forall until, retainUntil e = Some until ->
        exists now, occurred Now now ∈ tr /\ nanos now < nanos until) ->
    Marshal (envelope e) = Some data -> len data <= maxEnvelope ->
    disclosed caller sid executionID_ after read tr
      (mkResult (REarliest read) (RLatest read) (after + 1) (typeName e) (Some data)).

Lemma disclosed_weaken caller sid x after read t1 t2 out : t1 ⊆ t2 ->
  disclosed caller sid x after read t1 out -> disclosed caller sid x after read t2 out.
Proof.
  intros S [| | e data]; [by constructor | by econstructor |].
  econstructor; try done; [by apply S |]. intros limit E.
  destruct (H5 limit E) as (now & Hn & L). exists now. split; [by apply S | done].
Qed.

Lemma read_one_ok caller id x after tr out : 0 <= after <= max_int64 ->
  runs (read_one caller id x after) tr (Ok out) ->
  exists now read, occurred (ReadNext id after now) (Ok read) ∈ tr
    /\ disclosed caller id x after read tr out.
Proof.
  intros Ha H. unfold read_one in H. rewrite (u64_next after Ha) in H.
  cbn [runs pbind trigger] in H. destruct H as (now & t1 & -> & got & t2 & -> & H).
  destruct got as [read |]; [| by destruct H as [_ H]].
  destruct (RLatest read <? after) eqn:G0; [by destruct H as [_ H] |].
  destruct (_ || _) eqn:G in H; [by destruct H as [_ H] |].
  exists now, read. split; [in_trace |].
  destruct (REvent read) as [e |] eqn:Ev.
  2: { destruct H as [-> H]. simplify_eq. cbn in G. simp_bool. constructor; [done | lia]. }
  destruct (_ || _) eqn:G1 in H; [by destruct H as [_ H] |].
  destruct (sequence e != after + 1) eqn:G2; [by destruct H as [_ H] |].
  apply runs_bind in H as (t3 & t4 & late & -> & Hl & H).
  destruct late; [by destruct H as [_ H] |]. simp_bool.
  destruct ((x != "") && (executionID e != x)) eqn:G3.
  - destruct H as [-> H]. simplify_eq. simp_bool.
    replace (sequence e) with (after + 1) by done. by apply (filtered _ _ _ _ _ _ e).
  - apply disclose_ok in H as (A & U & data & M & L & ->). cbn [Earliest Latest].
    match goal with X : sequence e = _ |- _ => rewrite X end.
    apply (delivered _ _ _ _ _ _ e); try done.
    + intros Nx. destruct (decide (executionID e = x)) as [| Ne]; [done |].
      rewrite !bool_decide_eq_false_2 in G3 by done. done.
    + do 2 right. apply elem_of_app. by right.
    + intros limit E. destruct (U limit E) as (n & Hn & Ln). exists n. split; [| done].
      do 2 right. apply elem_of_app. by right.
Qed.

Lemma open_session_ok caller id x after tr out : 0 <= after <= max_int64 ->
  runs (open_session caller id x after) tr (Ok out) ->
  exists s now read, occurred (GetSession id) (Ok (Some s)) ∈ tr
    /\ Session.id s = id /\ Session.tenantID s = CTenantID caller
    /\ occurred (Access caller id None) (Ok tt) ∈ tr
    /\ occurred (ReadNext id after now) (Ok read) ∈ tr
    /\ disclosed caller id x after read tr out.
Proof.
  intros Ha H. unfold open_session in H. cbn [runs pbind trigger] in H.
  destruct H as (got & t1 & -> & H). destruct got as [[s |] |]; try by destruct H as [_ H].
  destruct (_ || _) eqn:G in H; [by destruct H as [_ H] |].
  cbn [runs pbind trigger] in H. destruct H as (allowed & t2 & -> & H).
  destruct allowed as [[] |]; [| by destruct H as [_ H]].
  apply (read_one_ok _ _ _ _ _ _ Ha) in H as (now & read & R & D). simp_bool.
  exists s, now, read. split_and!; try done; [in_trace | in_trace | by do 2 right |].
  eapply disclosed_weaken; [| exact D]. intros y Hy. by do 2 right.
Qed.

(** ** Theorems *)

(** What a reader discloses.  Whatever the stores, the access policies and the
    clock answer, a read that succeeds has opened the Session for this caller and
    tenant, and reports either the end of the log, or the event right after the
    cursor (never a later one): undisclosed when it belongs to another Execution
    than the one read through, and otherwise of the caller's tenant and Session,
    cleared by the policy for that very event, and unexpired at a clock reading of
    this call. *)
Theorem stream_disclosure caller id after execution tr out
  (A : 0 <= after) (R : runs (next caller id after execution) tr (out, None)) :
  exists sid s now read,
    (execution = false -> sid = id)
    /\ (execution = true -> exists x, occurred (GetExecution id) (Ok (Some x)) ∈ tr
          /\ Execution.tenantID x = CTenantID caller /\ sid = Execution.SessionID (Execution.binding x)
          /\ occurred (ExecutionAccess caller sid id) (Ok tt) ∈ tr)
    /\ occurred (GetSession sid) (Ok (Some s)) ∈ tr /\ Session.tenantID s = CTenantID caller
    /\ occurred (Access caller sid None) (Ok tt) ∈ tr
    /\ occurred (ReadNext sid after now) (Ok read) ∈ tr
    /\ disclosed caller sid (if execution then id else "") after read tr out.
Proof.
  unfold next in R. destruct (negb _) in R; [by destruct R as [_ R] |].
  destruct (_ || _) eqn:G in R; [by destruct R as [_ R] |].
  destruct (negb _) in R; [by destruct R as [_ R] |].
  assert (Ha : 0 <= after <= max_int64) by (simp_bool; lia). clear G.
  cbn [runs pbind trigger] in R. destruct R as (begun & t1 & -> & R).
  destruct begun as [u |]; [| cbn in R; destruct R as [_ R]; by destruct e].
  apply runs_bind in R as (t2 & t3 & worked & -> & W & R).
  destruct worked as [out' | [e b]]; [| cbn in R; destruct R as [_ R]; by destruct e as [[] | []]].
  cbn [runs pbind trigger] in R. destruct R as (com & t4 & -> & R).
  destruct com as [v | e]; [| cbn in R; destruct R as [_ R]; by destruct e].
  destruct R as [-> R]. injection R as ->. unfold next_work in W.
  assert (Sub : forall t, t ⊆ t2 -> t ⊆ occurred (Begin (CTenantID caller)) (Ok u) :: t2
                                        ++ [occurred Commit (Ok v)]).
  { intros t S y Hy. right. apply elem_of_app. left. by apply S. }
  destruct execution.
  - cbn [runs pbind trigger] in W. destruct W as (got & t5 & -> & W).
    destruct got as [[x |] |]; try by destruct W as [_ W].
    destruct (_ || _) eqn:G in W; [by destruct W as [_ W] |].
    cbn [runs pbind trigger] in W. destruct W as (allowed & t6 & -> & W).
    destruct allowed as [[] |]; [| by destruct W as [_ W]]. simp_bool.
    apply (open_session_ok _ _ _ _ _ _ Ha) in W as (s & now & read & S1 & _ & S3 & S4 & S5 & D).
    assert (Sub6 : t6 ⊆ occurred (Begin (CTenantID caller)) (Ok u) ::
       (occurred (GetExecution (Execution.id x)) (Ok (Some x))
        :: occurred (ExecutionAccess caller (Execution.SessionID (Execution.binding x)) (Execution.id x)) (Ok tt)
        :: t6) ++ [occurred Commit (Ok v)]) by (apply Sub; intros y Hy; by do 2 right).
    exists (Execution.SessionID (Execution.binding x)), s, now, read.
    split; [done |]. split_and!; [intros _; exists x; split_and!; try done; in_trace
      | by apply Sub6 | done | by apply Sub6 | by apply Sub6 | by eapply disclosed_weaken].
  - apply (open_session_ok _ _ _ _ _ _ Ha) in W as (s & now & read & S1 & _ & S3 & S4 & S5 & D).
    exists id, s, now, read. split; [done |].
    split_and!; [done | by apply (Sub t2) | done | by apply (Sub t2) | by apply (Sub t2) |].
    by eapply disclosed_weaken; [apply (Sub t2) |].
Qed.

(** ** The stored log *)

Lemma lowest_none l : lowest l = None -> l = [].
Proof. destruct l as [| e l]; cbn; [done |]. by destruct (lowest l). Qed.

Lemma lowest_some l : forall e, lowest l = Some e ->
  e ∈ l /\ forall x, x ∈ l -> sequence e <= sequence x.
Proof.
  induction l as [| y l IH]; cbn; intros e H; [discriminate |].
  destruct (lowest l) as [z |] eqn:L.
  - destruct (IH z eq_refl) as [I1 I2]. destruct (sequence y <=? sequence z) eqn:C; simplify_eq.
    + split; [left |]. intros x Hx. apply elem_of_cons in Hx as [-> | Hx]; [lia |].
      specialize (I2 x Hx). lia.
    + split; [by right |]. intros x Hx. apply elem_of_cons in Hx as [-> | Hx]; [lia | by apply I2].
  - apply lowest_none in L. simplify_eq. split; [left |]. intros x Hx.
    apply list_elem_of_singleton in Hx as ->. lia.
Qed.

(** A Session's log: distinct sequence numbers between 1 and the last one
    allocated, all of one tenant and Session. *)
Record log_ok (tenant sid : ID) (log : Log) : Prop := {
  lo_range : forall e, e ∈ rows log -> 1 <= sequence e <= last_sequence log;
  lo_distinct : forall e f, e ∈ rows log -> f ∈ rows log -> sequence e = sequence f -> e = f;
  lo_scope : forall e, e ∈ rows log -> RuntimeEvent.tenantID e = tenant /\ sessionID e = sid
}.

Lemma kept_elem now l e : e ∈ List.filter (retained now) l <-> e ∈ l /\ expired e now = false.
Proof.
  rewrite list_elem_of_In, List.filter_In, <- list_elem_of_In. unfold retained.
  by rewrite negb_true_iff.
Qed.

Lemma after_elem after l e : e ∈ List.filter (fun e => after <? sequence e) l <-> e ∈ l /\ after < sequence e.
Proof. rewrite list_elem_of_In, List.filter_In, <- list_elem_of_In. by rewrite Z.ltb_lt. Qed.

Section LogReads.
Context (tenant sid : ID) (log : Log) (LO : log_ok tenant sid log).
Context (after : Z) (now : Time) (A : 0 <= after <= last_sequence log).

Lemma earliest_le e : e ∈ rows log -> expired e now = false ->
  REarliest (Log_ReadNext log after now) <= sequence e.
Proof.
  intros He Hx. unfold Log_ReadNext. cbn [REarliest].
  assert (K : e ∈ List.filter (retained now) (rows log)) by by apply kept_elem.
  destruct (lowest _) as [x |] eqn:L.
  - by apply lowest_some in L as [_ L]; apply L.
  - apply lowest_none in L. rewrite L in K. by apply elem_of_nil in K.
Qed.

(** The event after the cursor is found when it is there and retained. *)
Lemma ReadNext_found e : e ∈ rows log -> expired e now = false -> sequence e = after + 1 ->
  REvent (Log_ReadNext log after now) = Some e.
Proof using LO.
  intros He Hx Hs. unfold Log_ReadNext. cbn [REvent].
  assert (K : e ∈ List.filter (fun e => after <? sequence e) (List.filter (retained now) (rows log))).
  { apply after_elem. split; [by apply kept_elem | lia]. }
  destruct (lowest _) as [x |] eqn:L.
  - apply lowest_some in L as [Lx L]. specialize (L e K).
    apply after_elem in Lx as [Lx Gx]. apply kept_elem in Lx as [Lx _].
    f_equal. apply (lo_distinct _ _ _ LO); [done | done | lia].
  - apply lowest_none in L. rewrite L in K. by apply elem_of_nil in K.
Qed.

(** Whatever is found is a retained row beyond the cursor. *)
Lemma ReadNext_event e : REvent (Log_ReadNext log after now) = Some e ->
  e ∈ rows log /\ expired e now = false /\ after < sequence e.
Proof.
  unfold Log_ReadNext. cbn [REvent]. intros L. apply lowest_some in L as [L _].
  apply after_elem in L as [L ?]. apply kept_elem in L as [? ?]. done.
Qed.

End LogReads.

(** ** Reading a stored log *)

(** The clock readings of a call. *)
Definition reading (e : event sport) : option Time :=
  match projT2 e with
  | (c, b) => match c in sport B return B -> option Time with Now => Some | _ => fun _ => None end b
  end.

Definition readings (tr : list (event sport)) : list Time := omap reading tr.

Section Follow.
Variables (caller : Caller) (sid : ID) (log : Log) (after : Z).

(** The answers of a call that is let through and reads [log]: the stores answer, with the
    resources that are asked for; the Session and the Execution are open to the caller; and
    the log of [sid] is [log].  The clock and the policy on single events are free. *)
Definition let_through (e : event sport) : Prop :=
  match projT2 e with
  | (c, b) =>
      match c in sport B return B -> Prop with
      | GetExecution i => fun r => exists x, r = Ok (Some x) /\ Execution.id x = i
          /\ Execution.tenantID x = CTenantID caller /\ Execution.SessionID (Execution.binding x) = sid
      | GetSession i => fun r => exists s, r = Ok (Some s) /\ Session.id s = i /\ Session.tenantID s = CTenantID caller
      | ReadNext i a n => fun r => i = sid -> r = Ok (Log_ReadNext log a n)
      | Access _ _ (Some _) | Now => fun _ => True
      | Begin _ | Commit => fun r => r = Ok tt
      | ExecutionAccess _ _ _ | Access _ _ None => fun r => r = Ok tt
      end b
  end.

(** The event after the cursor is stored and was retained at every clock reading of [tr]. *)
Definition kept_throughout (tr : list (event sport)) (e : Event) : Prop :=
  e ∈ rows log /\ sequence e = after + 1 /\ forall n, n ∈ readings tr -> expired e n = false.

(** At some clock reading of [tr] no such event was there. *)
Definition gone (tr : list (event sport)) : Prop :=
  exists n, n ∈ readings tr /\ forall e, e ∈ rows log -> sequence e = after + 1 -> expired e n = true.

(** What is reported about [e], with the bounds as they were read at [now]; [only] is the
    Execution read through, if any. *)
Definition reported_event (only : ID) (now : Time) (tr : list (event sport)) (e : Event)
    (out : Result * option StreamError) : Prop :=
  let read := Log_ReadNext log after now in
  if (only != "") && (executionID e != only)
  then out = (mkResult (REarliest read) (last_sequence log) (after + 1) "" None, None)
  else (occurred (Access caller sid (Some e)) (Err tt) ∈ tr /\ out = (emptyResult, Some ErrNotFound))
       \/ (occurred (Access caller sid (Some e)) (Ok tt) ∈ tr
           /\ out = match Marshal (envelope e) with
                    | Some data =>
                        if len data <=? maxEnvelope
                        then (mkResult (REarliest read) (last_sequence log) (after + 1) (typeName e) (Some data), None)
                        else (emptyResult, Some ErrUnavailable)
                    | None => (emptyResult, Some ErrUnavailable)
                    end).

Record follows (only : ID) (tr : list (event sport)) (now : Time) (out : Result * option StreamError) : Prop := {
  fl_read : occurred (ReadNext sid after now) (Ok (Log_ReadNext log after now)) ∈ tr /\ now ∈ readings tr;
  fl_end : after = last_sequence log ->
    out = (mkResult (REarliest (Log_ReadNext log after now)) (last_sequence log) 0 "" None, None);
  fl_gap : after < last_sequence log -> gone tr ->
    out = (mkResult (REarliest (Log_ReadNext log after now)) (last_sequence log) 0 "" None, Some ErrGap);
  fl_event e : kept_throughout tr e -> reported_event only now tr e out
}.

(** What [next] makes of the outcome of its transaction's work. *)
Definition concluded (w : result cb_error Result) : Result * option StreamError :=
  match w with Ok out => (out, None) | Err e => stream_error e end.

Context (LO : log_ok (CTenantID caller) sid log) (A : 0 <= after <= last_sequence log)
  (M : last_sequence log <= max_int64).

Lemma earliest_bounds now : REarliest (Log_ReadNext log after now) <= last_sequence log + 1.
Proof using LO A.
  unfold Log_ReadNext. cbn [REarliest]. destruct (lowest _) as [x |] eqn:L; [| lia].
  apply lowest_some in L as [L _]. apply kept_elem in L as [L _]. pose proof (lo_range _ _ _ LO x L). lia.
Qed.

(** What the retention check of [e] did. *)
Lemma late_runs e tr late : runs (match retainUntil e with
    | Some _ => do! n <- trigger Now; Ret (expired e n) | None => Ret false end) tr late ->
  if late then exists n, readings tr = [n] /\ expired e n = true
  else forall n, n ∈ readings tr -> expired e n = false.
Proof.
  destruct (retainUntil e) eqn:R; cbn [pbind trigger runs].
  - intros (n & u & -> & -> & ->). destruct (expired e n) eqn:X; [by exists n |].
    intros k K. by apply list_elem_of_singleton in K as ->.
  - intros [-> ->] n K. by apply elem_of_nil in K.
Qed.

(** The read has found [e], the event after the cursor. *)
Lemma disclose_follows bounds e tr w : runs (disclose caller sid bounds e) tr w ->
  (exists n, n ∈ readings tr /\ expired e n = true /\ w = Err (inl ErrGap, bounds))
  \/ (forall n, n ∈ readings tr -> expired e n = false)
    /\ ((occurred (Access caller sid (Some e)) (Err tt) ∈ tr /\ w = Err (inl ErrNotFound, bounds))
       \/ (occurred (Access caller sid (Some e)) (Ok tt) ∈ tr
           /\ w = match Marshal (envelope e) with
                  | Some data => if len data <=? maxEnvelope
                      then Ok (mkResult (Earliest bounds) (Latest bounds) (sequence e) (typeName e) (Some data))
                      else Err (inl ErrUnavailable, bounds)
                  | None => Err (inl ErrUnavailable, bounds)
                  end)).
Proof.
  unfold disclose. cbn [pbind trigger runs]. intros (allowed & t & -> & H). destruct allowed as [[] | []].
  2: { destruct H as [-> ->]. right. split; [intros n K; by apply elem_of_nil in K |]. left. split; [left | done]. }
  apply runs_bind in H as (t1 & t2 & late & -> & L & H). apply late_runs in L. destruct late.
  - destruct L as (n & R & X), H as [-> ->]. left. exists n. rewrite app_nil_r. split; [| done].
    change (n ∈ readings t1). rewrite R. left.
  - right. assert (t2 = [] /\ w = match Marshal (envelope e) with
        | Some data => if len data <=? maxEnvelope
            then Ok (mkResult (Earliest bounds) (Latest bounds) (sequence e) (typeName e) (Some data))
            else Err (inl ErrUnavailable, bounds)
        | None => Err (inl ErrUnavailable, bounds) end) as [-> ->].
    { destruct (Marshal _) as [data |]; [| done]. rewrite (Z.leb_antisym maxEnvelope (len data)).
      by destruct (maxEnvelope <? len data). }
    rewrite app_nil_r. split; [exact L |]. right. split; [left | done].
Qed.

Lemma gone_not_kept tr e : kept_throughout tr e -> gone tr -> False.
Proof. intros (He & Se & K) (n & Hn & G). specialize (K n Hn). specialize (G e He Se). congruence. Qed.

(** The calls of [read_one] up to the answer of the log. *)
Definition read_at (now : Time) (t : list (event sport)) : list (event sport) :=
  occurred Now now :: occurred (ReadNext sid after now) (Ok (Log_ReadNext log after now)) :: t.

Lemma readings_at now t : readings (read_at now t) = now :: readings t.
Proof using. done. Qed.

Lemma read_at_read now t : occurred (ReadNext sid after now) (Ok (Log_ReadNext log after now)) ∈ read_at now t
  /\ now ∈ readings (read_at now t).
Proof using. split; [right; left | left]. Qed.

(** No event after the cursor is there at the first reading. *)
Lemma missed_follows (only : ID) now t out : after < last_sequence log ->
  (forall e, e ∈ rows log -> sequence e = after + 1 -> expired e now = true) ->
  out = (mkResult (REarliest (Log_ReadNext log after now)) (last_sequence log) 0 "" None, Some ErrGap) ->
  follows only (read_at now t) now out.
Proof using.
  intros Lt No ->. split; [apply read_at_read | lia | done |]. intros e K. exfalso.
  apply (gone_not_kept _ _ K). exists now. split; [apply read_at_read | done].
Qed.

(** The event after the cursor is found, and then checked and reported. *)
Lemma found_follows (only : ID) now e t w : e ∈ rows log -> expired e now = false -> sequence e = after + 1 ->
  runs (do! late <- (match retainUntil e with
                     | Some _ => do! n <- trigger Now; Ret (expired e n)
                     | None => Ret false
                     end);
        let bounds := mkResult (REarliest (Log_ReadNext log after now)) (last_sequence log) 0 "" None in
        if late : bool then Ret (Err (inl ErrGap, bounds))
        else if (only != "") && (executionID e != only)
        then Ret (Ok (mkResult (REarliest (Log_ReadNext log after now)) (last_sequence log) (sequence e) "" None))
        else disclose caller sid bounds e) t w ->
  follows only (read_at now t) now (concluded w).
Proof using LO A.
  intros He Hx Se H. pose proof (lo_range _ _ _ LO e He) as Rg.
  assert (Same : forall t x, kept_throughout t x -> x = e)
    by (intros t' x (Hx1 & Sx & _); apply (lo_distinct _ _ _ LO); [done | done | lia]).
  (* e is gone at a later reading *)
  assert (Late : forall n, n ∈ readings t -> expired e n = true -> concluded w =
      (mkResult (REarliest (Log_ReadNext log after now)) (last_sequence log) 0 "" None, Some ErrGap) ->
      follows only (read_at now t) now (concluded w)).
  { intros n Hn Xn ->. split; [apply read_at_read | lia | done |]. intros x K. exfalso. pose proof (Same _ _ K) as ->.
    destruct K as (_ & _ & K). rewrite (K n) in Xn; [done |]. rewrite readings_at. by right. }
  (* e is there at every reading *)
  assert (There : (forall n, n ∈ readings t -> expired e n = false) ->
      reported_event only now (read_at now t) e (concluded w) -> follows only (read_at now t) now (concluded w)).
  { intros L Rep. split; [apply read_at_read | lia | | intros x K; by rewrite (Same _ _ K)].
    intros _ (n & Hn & Gn). specialize (Gn e He Se). rewrite readings_at in Hn.
    apply elem_of_cons in Hn as [-> | Hn]; [congruence | by rewrite (L n Hn) in Gn]. }
  apply runs_bind in H as (t3 & t4 & late & -> & L & H). apply late_runs in L. cbn zeta in H. destruct late.
  { destruct L as (n & Rn & Xn), H as [-> ->]. rewrite app_nil_r in *. apply (Late n); [rewrite Rn; left | done | done]. }
  destruct ((only != "") && (executionID e != only)) eqn:Fi.
  { destruct H as [-> ->]. rewrite app_nil_r in *. apply There; [done |].
    unfold reported_event. cbn zeta. rewrite Fi. cbn. by rewrite Se. }
  apply disclose_follows in H as [(n & Hn & Xn & ->) | [L2 H]].
  { apply (Late n); [unfold readings; rewrite omap_app; apply elem_of_app; by right | done | done]. }
  apply There.
  { intros n Hn. unfold readings in Hn. rewrite omap_app in Hn. apply elem_of_app in Hn as [Hn | Hn]; auto. }
  unfold reported_event. cbn zeta. rewrite Fi.
  destruct H as [[I ->] | [I ->]]; [left | right]; (split; [do 2 right; apply elem_of_app; by right |]); [done |].
  rewrite Se. cbn [Earliest Latest]. destruct (Marshal _) as [data |]; [| done]. by destruct (len data <=? maxEnvelope).
Qed.

(** What the log did not answer with is not there. *)
Lemma not_found_gone now : (forall e, REvent (Log_ReadNext log after now) = Some e -> sequence e <> after + 1) ->
  forall x, x ∈ rows log -> sequence x = after + 1 -> expired x now = true.
Proof using LO.
  intros N x Hx Sx. destruct (expired x now) eqn:Xx; [done |].
  by destruct (N x (ReadNext_found _ _ _ LO after now x Hx Xx Sx)).
Qed.

Lemma read_one_follows only tr w : runs (read_one caller sid only after) tr w -> Forall let_through tr ->
  exists now, follows only tr now (concluded w).
Proof using LO A M.
  intros H F. unfold read_one in H. rewrite (u64_next after) in H by lia. cbn [runs pbind trigger] in H.
  destruct H as (now & t1 & -> & got & t2 & -> & H). exists now.
  apply Forall_cons in F as [_ F]. apply Forall_cons in F as [R F]. cbn in R. specialize (R eq_refl) as ->.
  fold (read_at now t2). change (RLatest (Log_ReadNext log after now)) with (last_sequence log) in H.
  pose proof (earliest_bounds now) as EB. set (E := REarliest (Log_ReadNext log after now)) in *.
  destruct (last_sequence log <? after) eqn:G; [lia |]. clear G.
  pose proof (not_found_gone now) as NF.
  destruct (REvent (Log_ReadNext log after now)) as [e |] eqn:Ev; cbn [is_some negb] in H.
  - pose proof (ReadNext_event _ _ _ _ Ev) as (He & Hx & Gt). pose proof (lo_range _ _ _ LO e He) as Rg.
    pose proof (earliest_le log after now e He Hx) as Ee. fold E in Ee.
    rewrite andb_false_l, orb_false_r in H. destruct (after + 1 <? E) eqn:G1.
    { destruct H as [-> ->]. apply missed_follows; [lia | | done]. apply NF. intros ? [= <-]. lia. }
    destruct (lo_scope _ _ _ LO e He) as [T S]. rewrite T, S, !bool_decide_eq_true_2 in H by done. cbn [negb orb] in H.
    destruct (bool_decide_reflect (sequence e = after + 1)) as [Se | Ne]; cbn [negb] in H.
    + by apply (found_follows only now e).
    + destruct H as [-> ->]. apply missed_follows; [lia | | done]. apply NF. by intros ? [= <-].
  - rewrite andb_true_l in H. destruct (after <? last_sequence log) eqn:G2.
    + rewrite orb_true_r in H. destruct H as [-> ->]. apply missed_follows; [lia | | done]. by apply NF.
    + destruct (after + 1 <? E) eqn:G1; [lia |]. rewrite orb_false_l in H. destruct H as [-> ->].
      assert (after = last_sequence log) by lia. split; [apply read_at_read | done | lia |].
      intros e (He & Se & _). pose proof (lo_range _ _ _ LO e He). lia.
Qed.

(** More calls that read no clock do not matter. *)
Lemma follows_within only before tr behind now out : readings before = [] -> readings behind = [] ->
  follows only tr now out -> follows only (before ++ tr ++ behind) now out.
Proof.
  intros B1 B2 [Rd En Ga Ev].
  assert (Eq : readings (before ++ tr ++ behind) = readings tr).
  { unfold readings in *. rewrite !omap_app, B1, B2. cbn. by rewrite app_nil_r. }
  assert (Sub : forall e, e ∈ tr -> e ∈ before ++ tr ++ behind) by (intros e I; rewrite !elem_of_app; tauto).
  split.
  - rewrite Eq. destruct Rd as [R1 R2]. split; [by apply Sub | done].
  - exact En.
  - unfold gone. rewrite Eq. exact Ga.
  - intros e K. unfold kept_throughout in K. rewrite Eq in K. specialize (Ev e K). revert Ev. unfold reported_event.
    cbn zeta. destruct (_ && _); [done |]. intros [[I ->] | [I ->]]; [left | right]; (split; [by apply Sub | done]).
Qed.

(** How [next] ends in [read_one] when it is let through. *)
Lemma open_session_through only tr w : runs (open_session caller sid only after) tr w -> Forall let_through tr ->
  exists before t, tr = before ++ t /\ readings before = [] /\ runs (read_one caller sid only after) t w.
Proof using.
  unfold open_session. cbn [pbind trigger runs]. intros (got & t1 & -> & H) F.
  apply Forall_cons in F as [(s & -> & Hi & Ht) F]. rewrite Hi, Ht, !bool_decide_eq_true_2 in H by done. cbn [negb orb] in H.
  cbn [pbind trigger runs] in H. destruct H as (allowed & t2 & -> & H). apply Forall_cons in F as [Al F].
  cbn in Al. subst allowed. by exists [occurred (GetSession sid) (Ok (Some s)); occurred (Access caller sid None) (Ok tt)], t2.
Qed.

Lemma next_work_through id execution tr w : (execution = false -> sid = id) ->
  runs (next_work caller id after execution) tr w -> Forall let_through tr ->
  exists before t, tr = before ++ t /\ readings before = []
    /\ runs (read_one caller sid (if execution then id else "") after) t w.
Proof using.
  intros Si H F. unfold next_work in H. destruct execution; [| rewrite <- (Si eq_refl) in H; by apply open_session_through].
  cbn [pbind trigger runs] in H. destruct H as (got & t1 & -> & H). apply Forall_cons in F as [(x & -> & Hi & Ht & Hs) F].
  rewrite Hi, Ht, Hs, !bool_decide_eq_true_2 in H by done. cbn [negb orb] in H. cbn [pbind trigger runs] in H.
  destruct H as (allowed & t2 & -> & H). apply Forall_cons in F as [Al F]. cbn in Al. subst allowed.
  apply open_session_through in H as (before & t & -> & B & H); [| done].
  exists (occurred (GetExecution id) (Ok (Some x)) :: occurred (ExecutionAccess caller sid id) (Ok tt) :: before), t.
  split; [done |]. split; [| done]. exact B.
Qed.
End Follow.

(** C19: Following the cursor over the stored log loses nothing silently.  Take a call of
    [next], for a Session or through an Execution of it, with well-formed arguments, that
    is let through: the stores answer with the resources asked for, these are of the
    caller's tenant and open to it, the read is answered by the log of the Session, and
    the commit succeeds; the clock and the access policy on the single event may answer
    anything.  A cursor beyond the last allocated number is invalid.  Otherwise: at the
    last allocated number the call reports the end; when at some clock reading of the call
    the event numbered [after + 1] is not stored and retained, it reports a gap with the
    bounds of the log; and when that event is stored and retained at every clock reading, it
    is reported, without its content and only to advance the cursor if it belongs to
    another Execution than the one read through, and otherwise with its content if the
    policy clears it, as not found if it does not, and as unavailable if its envelope cannot
    be encoded or is larger than 512 KiB. *)
Theorem stream_follows_log caller id sid log after execution tr out
  (V : validID (CTenantID caller) = true /\ validID id = true /\ match_string sha256_pattern (PrincipalDigest caller) = true)
  (Si : execution = false -> sid = id)
  (LO : log_ok (CTenantID caller) sid log) (M : last_sequence log <= max_int64)
  (A : 0 <= after)
  (R : runs (next caller id after execution) tr out) (F : Forall (let_through caller sid log) tr) :
  (last_sequence log < after -> out = (emptyResult, Some ErrInvalid))
  /\ (after <= last_sequence log ->
      exists now, follows caller sid log after (if execution then id else "") tr now out).
Proof.
  destruct V as (V1 & V2 & V3). unfold next in R. rewrite V1, V2, V3 in R. cbn [negb orb] in R.
  destruct (max_int64 <? after) eqn:G; [destruct R as [_ ->]; split; [done | lia] |].
  cbn [pbind trigger runs] in R. destruct R as (begun & t1 & -> & R). apply Forall_cons in F as [B F].
  cbn in B. subst begun. apply runs_bind in R as (t2 & t3 & w & -> & W & R). apply Forall_app in F as [F2 F3].
  assert (Co : out = concluded w /\ readings t3 = []).
  { destruct w as [o |]; [| by destruct R as [-> ->]]. cbn [pbind trigger runs] in R. destruct R as (com & t4 & -> & R).
    apply Forall_cons in F3 as [C _]. cbn in C. subst com. by destruct R as [-> ->]. }
  destruct Co as [-> B3]. apply (next_work_through caller sid log after) in W as (before & t & -> & Bf & W); [| done | done].
  apply Forall_app in F2 as [_ F2]. split.
  - intros Lt. unfold read_one in W. cbn [pbind trigger runs] in W. destruct W as (now & t4 & -> & got & t5 & -> & W).
    apply Forall_cons in F2 as [_ F2]. apply Forall_cons in F2 as [Rd _]. cbn in Rd. specialize (Rd eq_refl) as ->.
    change (RLatest (Log_ReadNext log after now)) with (last_sequence log) in W.
    replace (last_sequence log <? after) with true in W by lia. by destruct W as [_ ->].
  - intros Le. destruct (read_one_follows caller sid log after LO ltac:(lia) M _ _ _ W F2) as (now & Fo). exists now.
    rewrite <- app_assoc. by apply follows_within with (before := occurred (Begin (CTenantID caller)) (Ok tt) :: before).
Qed.

(** ** Witnesses *)

Definition ex_ecaller : Caller := mkCaller id2 digest_a.

Definition ex_stored : Event :=
  mkEvent id1 id2 id3 id4 "" 2 1 "execution.started" (at_second 0) (at_second 1) "agent-runtime"
    "Internal" ex_payload ex_correlation "standard" (Some (at_second 60)).

Definition ex_log : Log := mkLog 3 [RuntimeEvent.ex_event; ex_stored].

Definition ex_reader_session : Session :=
  Session.mkSession id2 id3 Session.Provisioning 0 0 Session.ex_binding None (at_second 0)
    (at_second 0) None.

Definition ex_sport : forall B, sport B -> B :=
  fun B c =>
    match c in sport B return B with
    | Begin _ => Ok tt
    | GetExecution _ => Ok None
    | ExecutionAccess _ _ _ => Ok tt
    | GetSession _ => Ok (Some ex_reader_session)
    | Access _ _ _ => Ok tt
    | ReadNext _ after now => Ok (Log_ReadNext ex_log after now)
    | Now => at_second 10
    | Commit => Ok tt
    end.

Abbreviation ex_next := (Next ex_ecaller id3 1).

Lemma stream_disclosure_witness :
  let r := execute ex_sport ex_next in
  Sequence (fst (snd r)) = 2 /\ exists sid s now read,
    (false = false -> sid = id3)
    /\ (false = true -> exists x, occurred (GetExecution id3) (Ok (Some x)) ∈ fst r
          /\ Execution.tenantID x = CTenantID ex_ecaller /\ sid = Execution.SessionID (Execution.binding x)
          /\ occurred (ExecutionAccess ex_ecaller sid id3) (Ok tt) ∈ fst r)
    /\ occurred (GetSession sid) (Ok (Some s)) ∈ fst r /\ Session.tenantID s = CTenantID ex_ecaller
    /\ occurred (Access ex_ecaller sid None) (Ok tt) ∈ fst r
    /\ occurred (ReadNext sid 1 now) (Ok read) ∈ fst r
    /\ disclosed ex_ecaller sid "" 1 read (fst r) (fst (snd r)).
Proof.
  intros r. split; [vm_compute; reflexivity |].
  apply (stream_disclosure ex_ecaller id3 1 false (fst r) (fst (snd r))); [done |].
  replace (fst (snd r), None) with (snd r) by (vm_compute; reflexivity).
  apply (execute_runs ex_sport ex_next).
Defined.

Lemma ex_log_ok : log_ok id2 id3 ex_log.
Proof.
  split.
  - intros e He. apply elem_of_cons in He as [-> | He%list_elem_of_singleton]; [| subst e]; cbn; lia.
  - intros e f He Hf. apply elem_of_cons in He as [-> | He%list_elem_of_singleton];
      apply elem_of_cons in Hf as [-> | Hf%list_elem_of_singleton]; subst; done.
  - intros e He. apply elem_of_cons in He as [-> | He%list_elem_of_singleton]; [| subst e]; done.
Qed.

(** A reader at the second event, the third of which is gone. *)
Definition ex_gap : list (event sport) :=
  [occurred (Begin id2) (Ok tt); occurred (GetSession id3) (Ok (Some ex_reader_session));
   occurred (Access ex_ecaller id3 None) (Ok tt); occurred Now (at_second 10);
   occurred (ReadNext id3 2 (at_second 10)) (Ok (Log_ReadNext ex_log 2 (at_second 10)))].

Definition ex_gap_out : Result * option StreamError := (mkResult 1 3 0 "" None, Some ErrGap).

Lemma ex_gap_run : runs (next ex_ecaller id3 2 false) ex_gap ex_gap_out.
Proof.
  pose proof (execute_runs ex_sport (next ex_ecaller id3 2 false)) as H.
  replace (execute ex_sport (next ex_ecaller id3 2 false)) with (ex_gap, ex_gap_out) in H by (vm_compute; reflexivity).
  exact H.
Qed.

Lemma ex_gap_through : Forall (let_through ex_ecaller id3 ex_log) ex_gap.
Proof. repeat constructor. by exists ex_reader_session. Qed.

Lemma stream_follows_log_witness : exists now, follows ex_ecaller id3 ex_log 2 "" ex_gap now ex_gap_out.
Proof.
  apply (proj2 (stream_follows_log ex_ecaller id3 id3 ex_log 2 false ex_gap ex_gap_out
    ltac:(vm_compute; split_and!; reflexivity) (fun _ => eq_refl) ex_log_ok ltac:(vm_compute; discriminate)
    ltac:(vm_compute; discriminate) ex_gap_run ex_gap_through)).
  vm_compute. discriminate.
Defined.
