(* ===== verification/Profiles.v ===== *)
(** * internal/config/runtimeprofiles: the registry of runtime profiles

    [Reload] validates a whole set of profile documents and publishes it, or leaves
    the previous set untouched; [Lookup] hands out a profile with the bytes and
    digests it was admitted under.  JSON canonicalisation and the JSON schema are
    third-party code and parameters; [resolve] is the operator's callback.
    Proved: a reload is all or nothing, and every published profile satisfies its
    constraints and is looked up under its own name with matching digests. *)

From Stdlib Require Import ZArith Bool Lia.
From stdpp Require Import base strings list gmap.
From S2P Require Import Prelude Regex GoStd JsonDecoder JsonEncode JsonUnmarshal Sha256.
From S2P Require Import Primitives RuntimeProfile.

(** ** Decoding a profile *)

Definition decode_RequestLimit (t : jtree) (a : RequestLimit) : option RequestLimit :=
  members t a (fun ms =>
    let names := ["request"; "limit"] in
    r ← get as_int names ms "request" (Request a);
    l ← get as_int names ms "limit" (Limit a);
    Some (mkRequestLimit r l)).

Definition decode_GPU (t : jtree) (a : GPU) : option GPU :=
  members t a (fun ms =>
    let names := ["count"; "classes"] in
    c ← get as_int names ms "count" (Count a);
    l ← get as_strings names ms "classes" (Classes a);
    Some (mkGPU c l)).

Definition decode_Resources (t : jtree) (a : Resources) : option Resources :=
  members t a (fun ms =>
    let names := ["cpu_millis"; "memory_bytes"; "ephemeral_storage_bytes"; "max_processes"; "gpu"] in
    c ← get decode_RequestLimit names ms "cpu_millis" (CPU a);
    m ← get decode_RequestLimit names ms "memory_bytes" (Memory a);
    e ← get decode_RequestLimit names ms "ephemeral_storage_bytes" (EphemeralStorage a);
    p ← get as_int names ms "max_processes" (MaxProcesses a);
    g ← get decode_GPU names ms "gpu" (RGPU a);
    Some (mkResources c m e p g)).

Definition decode_Storage (t : jtree) (a : Storage) : option Storage :=
  members t a (fun ms =>
    let names := ["workspace_bytes"; "workspace_mount"; "vendor_state_root"; "access_mode";
                  "snapshot_class"; "encryption_required"] in
    w ← get as_int names ms "workspace_bytes" (WorkspaceBytes a);
    m ← get as_string names ms "workspace_mount" (WorkspaceMount a);
    v ← get as_string names ms "vendor_state_root" (VendorStateRoot a);
    x ← get as_string names ms "access_mode" (AccessMode a);
    s ← get as_string names ms "snapshot_class" (SnapshotClass a);
    e ← get as_bool names ms "encryption_required" (EncryptionRequired a);
    Some (mkStorage w m v x s e)).

Definition decode_Network (t : jtree) (a : Network) : option Network :=
  members t a (fun ms =>
    let names := ["profile"; "default_deny_ingress"; "default_deny_egress"; "deny_cloud_metadata";
                  "deny_kubernetes_api"; "dns_policy"] in
    p ← get as_string names ms "profile" (NProfile a);
    i ← get as_bool names ms "default_deny_ingress" (DefaultDenyIngress a);
    e ← get as_bool names ms "default_deny_egress" (DefaultDenyEgress a);
    c ← get as_bool names ms "deny_cloud_metadata" (DenyCloudMetadata a);
    k ← get as_bool names ms "deny_kubernetes_api" (DenyKubernetesAPI a);
    d ← get as_string names ms "dns_policy" (DNSPolicy a);
    Some (mkNetwork p i e c k d)).

Definition decode_Platform (t : jtree) (a : Platform) : option Platform :=
  members t a (fun ms =>
    let names := ["os"; "architectures"; "gpu_allowed"; "node_class"] in
    o ← get as_string names ms "os" (OS a);
    l ← get as_strings names ms "architectures" (Architectures a);
    g ← get as_bool names ms "gpu_allowed" (GPUAllowed a);
    n ← get as_string names ms "node_class" (NodeClass a);
    Some (mkPlatform o l g n)).

Definition decode_Security (t : jtree) (a : Security) : option Security :=
  members t a (fun ms =>
    let names := ["privileged"; "run_as_non_root"; "read_only_root_filesystem";
                  "allow_privilege_escalation"; "service_account_token"; "host_network"; "host_pid";
                  "host_ipc"; "host_paths"; "runtime_sockets"; "linux_capabilities_add";
                  "seccomp_class"] in
    p ← get as_bool names ms "privileged" (Privileged a);
    n ← get as_bool names ms "run_as_non_root" (RunAsNonRoot a);
    r ← get as_bool names ms "read_only_root_filesystem" (ReadOnlyRootFilesystem a);
    e ← get as_bool names ms "allow_privilege_escalation" (AllowPrivilegeEscalation a);
    t ← get as_bool names ms "service_account_token" (ServiceAccountToken a);
    hn ← get as_bool names ms "host_network" (HostNetwork a);
    hp ← get as_bool names ms "host_pid" (HostPID a);
    hi ← get as_bool names ms "host_ipc" (HostIPC a);
    hh ← get as_bool names ms "host_paths" (HostPaths a);
    rs ← get as_bool names ms "runtime_sockets" (RuntimeSockets a);
    l ← get as_strings names ms "linux_capabilities_add" (LinuxCapabilitiesAdd a);
    s ← get as_string names ms "seccomp_class" (SeccompClass a);
    Some (mkSecurity p n r e t hn hp hi hh rs l s)).

Definition decode_Lifecycle (t : jtree) (a : Lifecycle) : option Lifecycle :=
  members t a (fun ms =>
    let names := ["idle_suspend_seconds"; "termination_grace_seconds"; "warm_pool_eligible";
                  "suspend_mode"] in
    i ← get as_int names ms "idle_suspend_seconds" (IdleSuspendSeconds a);
    g ← get as_int names ms "termination_grace_seconds" (TerminationGraceSeconds a);
    w ← get as_bool names ms "warm_pool_eligible" (WarmPoolEligible a);
    s ← get as_string names ms "suspend_mode" (SuspendMode a);
    Some (mkLifecycle i g w s)).

Definition decode_Implementation (t : jtree) (a : Implementation) : option Implementation :=
  members t a (fun ms =>
    let names := ["provider_kind"; "provider_profile_ref"; "isolation_runtime_ref";
                  "storage_profile_ref"; "network_policy_ref"] in
    k ← get as_string names ms "provider_kind" (ProviderKind a);
    p ← get as_string names ms "provider_profile_ref" (ProviderProfileRef a);
    i ← get as_string names ms "isolation_runtime_ref" (IsolationRuntimeRef a);
    s ← get as_string names ms "storage_profile_ref" (StorageProfileRef a);
    n ← get as_string names ms "network_policy_ref" (NetworkPolicyRef a);
    Some (mkImplementation k p i s n)).

Definition decode_Profile (t : jtree) (a : Profile) : option Profile :=
  members t a (fun ms =>
    let names := ["schema_version"; "name"; "description"; "isolation_class"; "resources"; "storage";
                  "network"; "platform"; "security"; "lifecycle"; "implementation"] in
    v ← get as_int names ms "schema_version" (SchemaVersion a);
    n ← get as_string names ms "name" (Name a);
    d ← get as_string names ms "description" (Description a);
    i ← get as_string names ms "isolation_class" (IsolationClass a);
    r ← get decode_Resources names ms "resources" (PResources a);
    s ← get decode_Storage names ms "storage" (PStorage a);
    w ← get decode_Network names ms "network" (PNetwork a);
    p ← get decode_Platform names ms "platform" (PPlatform a);
    c ← get decode_Security names ms "security" (PSecurity a);
    l ← get decode_Lifecycle names ms "lifecycle" (PLifecycle a);
    m ← get decode_Implementation names ms "implementation" (PImplementation a);
    Some (mkProfile v n d i r s w p c l m)).

Definition zeroLimit : RequestLimit := mkRequestLimit 0 0.

Definition zeroProfile : Profile :=
  mkProfile 0 "" "" "" (mkResources zeroLimit zeroLimit zeroLimit 0 (mkGPU 0 []))
    (mkStorage 0 "" "" "" "" false) (mkNetwork "" false false false false "")
    (mkPlatform "" [] false "")
    (mkSecurity false false false false false false false false false false [] "")
    (mkLifecycle 0 0 false "") (mkImplementation "" "" "" "" "").

(** [json.Unmarshal(raw, &p)] *)
Definition unmarshalProfile (raw : string) : option Profile :=
  t ← parse (to_bytes raw); decode_Profile t zeroProfile.

(** ** The registry *)

Record entry : Type := mkEntry {
  e_profile : string;
  e_implementation : string;
  e_digest : string;
  e_implementationDigest : string
}.

Definition Registry : Type := gmap string entry.

Inductive ReloadError : Type := ErrInvalidDocument | ErrImplementationUnavailable | ErrInvalidEvidence.

Definition starts_object (raw : string) : bool :=
  match to_bytes raw with b :: _ => b =? 123 | [] => false end.

Section Registry_.

(** [jsoncanonicalizer.Transform] and the compiled JSON schema. *)
Variable Transform : string -> option string.
Variable schemaValid : string -> bool.

(** One document of the set. *)
Definition load (resolve : Profile -> option string) (next : Registry) (raw : string)
  : result ReloadError Registry :=
  if (65536 <? len raw) || negb (ValidString raw) || negb (json_valid (to_bytes raw))
  then Err ErrInvalidDocument
  else match Transform raw with
  | None => Err ErrInvalidDocument
  | Some normalized =>
      if negb (schemaValid normalized) then Err ErrInvalidDocument
      else match unmarshalProfile normalized with
      | None => Err ErrInvalidDocument
      | Some p =>
          if negb (is_ok (ValidateConstraints p)) || is_some (next !! Name p)
          then Err ErrInvalidDocument
          else match resolve p with
          | None => Err ErrImplementationUnavailable
          | Some impl =>
              if (len impl =? 0) || (65536 <? len impl) then Err ErrImplementationUnavailable
              else match Transform impl with
              | None => Err ErrInvalidEvidence
              | Some impl =>
                  if negb (starts_object impl) then Err ErrInvalidEvidence
                  else Ok (<[Name p := mkEntry normalized impl (Digest normalized) (Digest impl)]> next)
              end
          end
      end
  end.

Fixpoint load_all (resolve : Profile -> option string) (next : Registry) (documents : list string)
  : result ReloadError Registry :=
  match documents with
  | [] => Ok next
  | raw :: rest =>
      match load resolve next raw with
      | Err e => Err e
      | Ok next' => load_all resolve next' rest
      end
  end.

(** [Reload]: the registry afterwards and the error. *)
Definition Reload (r : Registry) (documents : list string)
    (resolve : option (Profile -> option string)) : Registry * result ReloadError unit :=
  match resolve with
  | None => (r, Err ErrInvalidDocument)
  | Some resolve =>
      if (Z.of_nat (length documents) =? 0) || (128 <? Z.of_nat (length documents))
      then (r, Err ErrInvalidDocument)
      else match load_all resolve ∅ documents with
      | Err e => (r, Err e)
      | Ok next => (next, Ok tt)
      end
  end.

(** [Lookup]; the decoding error is ignored, as in the code. *)
Definition Lookup (r : Registry) (name : string)
  : option (Profile * string * string * string * string) :=
  match r !! name with
  | None => None
  | Some e =>
      Some (default zeroProfile (unmarshalProfile (e_profile e)), e_profile e, e_digest e,
            e_implementation e, e_implementationDigest e)
  end.

(** What a published entry was admitted under. *)
Record published (name : string) (e : entry) : Prop := {
  pu_profile : exists p, unmarshalProfile (e_profile e) = Some p /\ Name p = name
                 /\ ValidateConstraints p = Ok tt;
  pu_schema : schemaValid (e_profile e) = true;
  pu_canonical : exists raw, Transform raw = Some (e_profile e) /\ len raw <= 65536;
  pu_digest : e_digest e = Digest (e_profile e);
  pu_implementation : e_implementationDigest e = Digest (e_implementation e)
                      /\ starts_object (e_implementation e) = true
}.

Lemma load_published resolve next raw next' :
  map_Forall published next -> load resolve next raw = Ok next' ->
  map_Forall published next' /\ size next' = S (size next).
Proof.
  intros F H. unfold load in H. destruct (_ || _) eqn:G1 in H; [discriminate H |].
  destruct (Transform raw) as [normalized |] eqn:T; [| discriminate H].
  destruct (schemaValid normalized) eqn:Sv; [| discriminate H]. cbn [negb] in H.
  destruct (unmarshalProfile normalized) as [p |] eqn:U; [| discriminate H].
  destruct (_ || _) eqn:G2 in H; [discriminate H |].
  destruct (resolve p) as [impl |]; [| discriminate H].
  destruct (_ || _) eqn:G3 in H; [discriminate H |].
  destruct (Transform impl) as [impl' |]; [| discriminate H].
  destruct (starts_object impl') eqn:O; [| discriminate H]. cbn [negb] in H. injection H as <-.
  simp_bool. split; [| by apply map_size_insert_None].
  apply map_Forall_insert_2; [| done]. constructor; try done.
  - exists p. destruct (ValidateConstraints p) as [[] |]; done.
  - exists raw. split; [done | lia].
Qed.

Lemma load_all_published resolve documents : forall next next',
  map_Forall published next -> load_all resolve next documents = Ok next' ->
  map_Forall published next' /\ size next' = (size next + length documents)%nat.
Proof.
  induction documents as [| raw rest IH]; intros next next' F H; cbn [load_all] in H.
  { injection H as <-. cbn. split; [done | lia]. }
  destruct (load resolve next raw) as [n1 |] eqn:L; [| discriminate H].
  apply load_published in L as [F1 S1]; [| done]. apply IH in H as [F2 S2]; [| done].
  split; [done |]. rewrite S2, S1. cbn. lia.
Qed.

Lemma reload_published r documents resolve :
  match Reload r documents resolve with
  | (r', Err _) => r' = r
  | (r', Ok _) => map_Forall published r'
  end.
Proof.
  unfold Reload. destruct resolve as [resolve |]; [| done]. destruct (_ || _) eqn:G; [done |].
  destruct (load_all _ _ _) as [next |] eqn:L; [| done].
  by apply load_all_published in L as [F S]; [| apply map_Forall_empty].
Qed.

(** Reloading is all or nothing: an error leaves the registry as it was; success
    publishes exactly one entry per document, each a canonical, schema-valid
    profile that satisfies its constraints and is stored under its own name with
    the digests of its bytes. *)
Theorem profiles_reload_atomic r documents resolve :
  match Reload r documents resolve with
  | (r', Err _) => r' = r
  | (r', Ok _) => map_Forall published r' /\ size r' = length documents
                  /\ (0 < length documents <= 128)%nat
  end.
Proof.
  unfold Reload. destruct resolve as [resolve |]; [| done]. destruct (_ || _) eqn:G; [done |].
  destruct (load_all _ _ _) as [next |] eqn:L; [| done].
  apply load_all_published in L as [F S]; [| apply map_Forall_empty].
  change (size next = length documents) in S. simp_bool. split_and!; [done | done | lia | lia].
Qed.

(** What is looked up after a successful reload is a profile that was admitted:
    named as asked, within its constraints, with digests of the returned bytes. *)
Theorem profiles_lookup_sound r documents resolve r' name p raw digest impl implDigest
    (R : Reload r documents resolve = (r', Ok tt))
    (L : Lookup r' name = Some (p, raw, digest, impl, implDigest)) :
  Name p = name /\ ValidateConstraints p = Ok tt /\ unmarshalProfile raw = Some p
  /\ digest = Digest raw /\ implDigest = Digest impl.
Proof.
  pose proof (reload_published r documents resolve) as A. rewrite R in A. unfold Lookup in L.
  destruct (r' !! name) as [e |] eqn:E; [| discriminate L]. injection L as <- <- <- <- <-.
  destruct (A name e E) as [(p & U & N & C) _ _ D [I _]]. rewrite U. done.
Qed.

End Registry_.

(** ** Witnesses *)

Definition ex_document : string :=
  "{" +:+ quote "name" +:+ ":" +:+ quote "dev" +:+ "," +:+ quote "isolation_class" +:+ ":"
  +:+ quote "container-standard" +:+ "," +:+ quote "platform" +:+ ":{" +:+ quote "os" +:+ ":"
  +:+ quote "linux" +:+ "," +:+ quote "architectures" +:+ ":[" +:+ quote "amd64" +:+ "]}}".

Definition ex_registry : Registry :=
  fst (Reload Some (fun _ => true) ∅ [ex_document] (Some (fun _ => Some "{}"))).

Definition ex_profile : Profile := default zeroProfile (unmarshalProfile ex_document).

Example ex_profile_decoded :
  Name ex_profile = "dev" /\ Architectures (PPlatform ex_profile) = ["amd64"].
Proof. vm_compute. auto. Qed.

Lemma profiles_lookup_sound_witness :
  Name ex_profile = "dev" /\ ValidateConstraints ex_profile = Ok tt
  /\ unmarshalProfile ex_document = Some ex_profile
  /\ Digest ex_document = Digest ex_document /\ Digest "{}" = Digest "{}".
Proof.
  refine (profiles_lookup_sound Some (fun _ => true) ∅ [ex_document] (Some (fun _ => Some "{}"))
            ex_registry "dev" ex_profile ex_document (Digest ex_document) "{}" (Digest "{}") _ _);
    vm_compute; reflexivity.
Defined.
