(* ===== verification/Catalog.v ===== *)
(** * internal/config/sessionruntimes: the catalog of approved Session runtimes

    [NewLocal] freezes operator-approved agent runtimes, each checked against the
    profile it asks for; [Resolve] finds the binding of a runtime and a profile.
    Canonicalisation, the JSON schema and the operator's qualification callback are
    parameters.  Proved: a resolution belongs to the runtime and the profile that
    were asked for, although the key joins both names, and the profile is at least
    as isolated as the runtime demands and offers nothing it does not support. *)

From Stdlib Require Import ZArith Bool Lia.
From stdpp Require Import base strings list gmap.
From S2P Require Import Prelude Regex GoStd JsonDecoder JsonEncode JsonUnmarshal Sha256.
From S2P Require Import GoStd.
From S2P Require Import Primitives RuntimeProfile Session LocalAuthority Profiles.

(** ** Data *)

Record Approved : Type := mkApproved {
  A_ID : string;
  A_AgentID : string;
  A_AgentVersionID : string;
  A_Digest : string;
  A_PolicyDigest : string;
  A_Manifest : string
}.

Record Resolution : Type := mkResolution {
  RS_Binding : RuntimeBinding;
  RS_Implementation : string;
  RS_ImplementationDigest : string;
  RS_Qualification : string;
  RS_PolicyDigest : string
}.

Definition Catalog : Type := gmap string Resolution.

(** The part of a manifest that [NewLocal] looks at. *)
Record Spec : Type := mkSpec {
  SP_ImageReference : string;
  SP_ImageDigest : string;
  SP_DurablePaths : list string;
  SP_Workspace : string;
  SP_Profile : string;
  SP_Isolation : string;
  SP_Network : string;
  SP_OS : string;
  SP_Architectures : list string;
  SP_GPU : bool
}.

Definition zeroSpec : Spec := mkSpec "" "" [] "" "" "" "" "" [] false.

Definition decode_Image (t : jtree) (a : string * string) : option (string * string) :=
  members t a (fun ms =>
    let names := ["Reference"; "Digest"] in
    r ← get as_string names ms "Reference" (fst a);
    d ← get as_string names ms "Digest" (snd a);
    Some (r, d)).

Definition decode_SpecProfile (t : jtree) (a : string * string * string)
  : option (string * string * string) :=
  members t a (fun ms =>
    let names := ["Name"; "minimum_isolation_class"; "required_network_profile"] in
    n ← get as_string names ms "Name" (fst (fst a));
    i ← get as_string names ms "minimum_isolation_class" (snd (fst a));
    w ← get as_string names ms "required_network_profile" (snd a);
    Some (n, i, w)).

Definition decode_SpecPlatform (t : jtree) (a : string * list string * bool)
  : option (string * list string * bool) :=
  members t a (fun ms =>
    let names := ["OS"; "Architectures"; "requires_gpu"] in
    o ← get as_string names ms "OS" (fst (fst a));
    l ← get as_strings names ms "Architectures" (snd (fst a));
    g ← get as_bool names ms "requires_gpu" (snd a);
    Some (o, l, g)).

Definition decode_Spec (t : jtree) (a : Spec) : option Spec :=
  members t a (fun ms =>
    let names := ["Image"; "durable_vendor_paths"; "workspace_mount"; "runtime_profile"; "Platform"] in
    i ← get decode_Image names ms "Image" (SP_ImageReference a, SP_ImageDigest a);
    d ← get as_strings names ms "durable_vendor_paths" (SP_DurablePaths a);
    w ← get as_string names ms "workspace_mount" (SP_Workspace a);
    p ← get decode_SpecProfile names ms "runtime_profile" (SP_Profile a, SP_Isolation a, SP_Network a);
    f ← get decode_SpecPlatform names ms "Platform" (SP_OS a, SP_Architectures a, SP_GPU a);
    Some (mkSpec (fst i) (snd i) d w (fst (fst p)) (snd (fst p)) (snd p)
            (fst (fst f)) (snd (fst f)) (snd f))).

Definition unmarshalSpec (raw : string) : option Spec :=
  t ← parse (to_bytes raw); decode_Spec t zeroSpec.

(** A name outside the map has rank zero. *)
Definition rank (name : string) : Z :=
  if name == "container-standard" then 1
  else if name == "microvm-strong" then 2
  else if name == "confidential-strong" then 3
  else 0.

Section Catalog_.

Variable Transform : string -> option string.
Variable schemaValid : string -> bool.
(** The operator's qualification callback. *)
Variable qualify : string -> Profile -> option string.
Variable profiles : Registry.

(** The profile against the manifest. *)
Definition profile_fits (spec : Spec) (p : Profile) (praw impl : string) : bool :=
  negb ((16384 <? len praw) || (32768 <? len impl)
        || (rank (IsolationClass p) <? rank (SP_Isolation spec))
        || (OS (PPlatform p) != SP_OS spec) || (WorkspaceMount (PStorage p) != SP_Workspace spec)
        || ((SP_Network spec != "") && (SP_Network spec != NProfile (PNetwork p)))
        || negb (eqb (SP_GPU spec) (GPUAllowed (PPlatform p))))
  && forallb (contains (SP_Architectures spec)) (Architectures (PPlatform p))
  && forallb (fun dir => (Clean dir == dir)
                && HasPrefix dir (trim_slash (VendorStateRoot (PStorage p)) +:+ "/"))
       (SP_DurablePaths spec).

(** One approved runtime; [None] is the catalog's error. *)
Definition approve (entries : Catalog) (a : Approved) : option Catalog :=
  if negb (match_string id_pattern (A_ID a)) || negb (match_string id_pattern (A_AgentID a))
     || negb (match_string id_pattern (A_AgentVersionID a))
     || negb (match_string sha256_pattern (A_PolicyDigest a)) || (32768 <? len (A_Manifest a))
     || negb (ValidString (A_Manifest a))
  then None
  else match Transform (A_Manifest a) with
  | None => None
  | Some raw =>
      if (Digest raw != A_Digest a) || negb (schemaValid raw) then None
      else match unmarshalSpec raw with
      | None => None
      | Some spec =>
          if negb (HasSuffix (SP_ImageReference spec) ("@" +:+ SP_ImageDigest spec)) then None
          else match Lookup profiles (SP_Profile spec) with
          | None => None
          | Some (p, praw, pdigest, impl, idigest) =>
              if negb (profile_fits spec p praw impl) then None
              else match qualify raw p with
              | None => None
              | Some evidence =>
                  if (16384 <? len evidence) || negb (ValidString evidence) then None
                  else match Transform evidence with
                  | None => None
                  | Some evidence =>
                      let key := A_ID a +:+ "/" +:+ Name p in
                      if (len evidence <? 2) || negb (starts_object evidence)
                         || is_some (entries !! key)
                      then None
                      else Some (<[key := mkResolution
                             (mkRuntimeBinding "LOCAL" "thinkpixelar/local" (A_AgentID a)
                                (A_AgentVersionID a) "1" raw (A_Digest a) "1" praw pdigest)
                             impl idigest evidence (A_PolicyDigest a)]> entries)
                  end
              end
          end
      end
  end.

Fixpoint approve_all (entries : Catalog) (l : list Approved) : option Catalog :=
  match l with
  | [] => Some entries
  | a :: rest => match approve entries a with Some e => approve_all e rest | None => None end
  end.

(** The registry and the callback are present; the schema compiles. *)
Definition NewLocal (approved : list Approved) : option Catalog :=
  if (Z.of_nat (length approved) =? 0) || (128 <? Z.of_nat (length approved)) then None
  else approve_all ∅ approved.

Definition Resolve (c : Catalog) (runtimeID profileID : string) : option Resolution :=
  c !! (runtimeID +:+ "/" +:+ profileID).

End Catalog_.

(** ** Theorems *)

Definition no_slash (s : string) : Prop := Forall (fun c => byte_val c <> 47) (chars s).

Lemma id_no_slash s : match_string id_pattern s = true -> no_slash s.
Proof.
  intros H. apply id_pattern_class in H. eapply Forall_impl; [exact H |].
  intros c. unfold in_cls, id_class, cls_alnum, cls_upper, cls_lower, cls_digit. cbn.
  intros X E. rewrite E in X. discriminate X.
Qed.

(** The joined key determines both names. *)
Lemma key_injective a b : forall x y, no_slash a -> no_slash b ->
  a +:+ "/" +:+ x = b +:+ "/" +:+ y -> a = b /\ x = y.
Proof.
  revert b. induction a as [| c a IH]; intros [| d b] x y Ha Hb E; cbn in E; simplify_eq/=.
  - done.
  - by apply Forall_cons in Hb as [Hb _].
  - by apply Forall_cons in Ha as [Ha _].
  - apply Forall_cons in Ha as [_ Ha], Hb as [_ Hb]. by destruct (IH b x y) as [-> ->].
Qed.

Section CatalogTheorems.
Context (Transform : string -> option string) (schemaValid : string -> bool).
Context (qualify : string -> Profile -> option string) (profiles : Registry).

(** What the entry of a runtime and a profile rests on. *)
Record resolves (approved : list Approved) (rid pid : string) (r : Resolution) : Prop := {
  rs_sound : exists a spec p impl,
    a ∈ approved /\ A_ID a = rid /\ Name p = pid /\ no_slash (A_ID a)
    /\ Transform (A_Manifest a) = Some (RuntimeSpec (RS_Binding r))
    /\ Digest (RuntimeSpec (RS_Binding r)) = RuntimeSpecDigest (RS_Binding r)
    /\ A_Digest a = RuntimeSpecDigest (RS_Binding r)
    /\ schemaValid (RuntimeSpec (RS_Binding r)) = true
    /\ unmarshalSpec (RuntimeSpec (RS_Binding r)) = Some spec
    /\ Lookup profiles (SP_Profile spec)
       = Some (p, RuntimeProfileSnapshot (RS_Binding r), RuntimeProfileDigest (RS_Binding r), impl,
               RS_ImplementationDigest r)
    /\ RS_Implementation r = impl
    /\ rank (SP_Isolation spec) <= rank (IsolationClass p)
    /\ Architectures (PPlatform p) ⊆ SP_Architectures spec
    /\ SP_GPU spec = GPUAllowed (PPlatform p)
    /\ (forall dir, dir ∈ SP_DurablePaths spec -> Clean dir = dir
          /\ HasPrefix dir (trim_slash (VendorStateRoot (PStorage p)) +:+ "/") = true)
}.

Definition catalog_sound (approved : list Approved) (c : Catalog) : Prop :=
  map_Forall (fun key r => exists rid pid, key = rid +:+ "/" +:+ pid
                                          /\ resolves approved rid pid r) c.

Lemma profile_fits_inv spec p praw impl : profile_fits spec p praw impl = true ->
  rank (SP_Isolation spec) <= rank (IsolationClass p)
  /\ Architectures (PPlatform p) ⊆ SP_Architectures spec
  /\ SP_GPU spec = GPUAllowed (PPlatform p)
  /\ (forall dir, dir ∈ SP_DurablePaths spec -> Clean dir = dir
        /\ HasPrefix dir (trim_slash (VendorStateRoot (PStorage p)) +:+ "/") = true).
Proof.
  unfold profile_fits. intros H. apply andb_true_iff in H as [H H3]. apply andb_true_iff in H as [H H2].
  rewrite forallb_forall in H2, H3. apply negb_true_iff in H. simp_bool. split_and!.
  - lia.
  - intros x Hx. apply contains_spec, H2. by apply list_elem_of_In.
  - done.
  - intros dir Hd. apply list_elem_of_In, H3 in Hd. by simp_bool.
Qed.

Lemma approve_sound approved entries a entries' :
  a ∈ approved -> catalog_sound approved entries ->
  approve Transform schemaValid qualify profiles entries a = Some entries' ->
  catalog_sound approved entries'.
Proof.
  intros Ha F H. unfold approve in H. destruct (_ || _) eqn:G1 in H; [discriminate H |].
  destruct (Transform (A_Manifest a)) as [raw |] eqn:T; [| discriminate H].
  destruct (_ || _) eqn:G2 in H; [discriminate H |].
  destruct (unmarshalSpec raw) as [spec |] eqn:U; [| discriminate H].
  destruct (negb _) eqn:G3 in H; [discriminate H |].
  destruct (Lookup profiles (SP_Profile spec)) as [[[[[p praw] pdigest] impl] idigest] |] eqn:L;
    [| discriminate H].
  destruct (profile_fits spec p praw impl) eqn:Fit; [| discriminate H]. cbn [negb] in H.
  destruct (qualify raw p) as [evidence |]; [| discriminate H].
  destruct (_ || _) in H; [discriminate H |].
  destruct (Transform evidence) as [evidence' |]; [| discriminate H].
  destruct (_ || _) in H; [discriminate H |]. injection H as <-.
  apply profile_fits_inv in Fit as (F1 & F2 & F3 & F4). simp_bool.
  apply map_Forall_insert_2; [| done]. exists (A_ID a), (Name p). split; [done |].
  constructor. exists a, spec, p, impl. cbn. split_and!; try done. by apply id_no_slash.
Qed.

Lemma approve_all_sound approved l : forall entries c,
  l ⊆ approved -> catalog_sound approved entries ->
  approve_all Transform schemaValid qualify profiles entries l = Some c -> catalog_sound approved c.
Proof.
  induction l as [| a l IH]; intros entries c S F H; cbn [approve_all] in H; [by injection H as <- |].
  destruct (approve _ _ _ _ entries a) as [e |] eqn:A; [| discriminate H].
  apply IH in H; [done | set_solver |]. eapply approve_sound; [| exact F | exact A]. set_solver.
Qed.

(** A resolution is that of the runtime and the profile asked for, even though the
    catalog's key joins the two names: it carries the canonical bytes of the
    approved manifest under the approved digest, and a profile that is isolated at
    least as strongly as the manifest demands, runs only on architectures the
    manifest supports, and keeps the vendor's durable paths under its state root. *)
Theorem catalog_resolution_exact approved c rid pid r
    (N : NewLocal Transform schemaValid qualify profiles approved = Some c)
    (I : match_string id_pattern rid = true) (R : Resolve c rid pid = Some r) :
  resolves approved rid pid r.
Proof.
  unfold NewLocal in N. destruct (_ || _) in N; [discriminate N |].
  apply (approve_all_sound approved) in N; [| done | apply map_Forall_empty].
  unfold Resolve in R. destruct (N _ _ R) as (rid' & pid' & E & S).
  assert (no_slash rid') as Hs by (by destruct S as [(a & _ & _ & _ & _ & <- & _ & ? & _)]).
  apply key_injective in E as [<- <-]; [done | by apply id_no_slash | done].
Qed.

End CatalogTheorems.

(** ** Witnesses *)

Definition ex_manifest : string :=
  "{" +:+ quote "image" +:+ ":{" +:+ quote "reference" +:+ ":" +:+ quote "r@d" +:+ "," +:+ quote "digest"
  +:+ ":" +:+ quote "d" +:+ "}," +:+ quote "runtime_profile" +:+ ":{" +:+ quote "name" +:+ ":"
  +:+ quote "dev" +:+ "}," +:+ quote "platform" +:+ ":{" +:+ quote "os" +:+ ":" +:+ quote "linux"
  +:+ "," +:+ quote "architectures" +:+ ":[" +:+ quote "amd64" +:+ "," +:+ quote "arm64" +:+ "]}}".

Definition ex_approved : Approved :=
  mkApproved "codex" "agent" "v1" (Digest ex_manifest) digest_a ex_manifest.

Definition ex_catalog : Catalog :=
  default ∅ (NewLocal Some (fun _ => true) (fun _ _ => Some "{}") ex_registry [ex_approved]).

Definition ex_binding : RuntimeBinding :=
  mkRuntimeBinding "LOCAL" "thinkpixelar/local" "agent" "v1" "1" ex_manifest (Digest ex_manifest) "1"
    ex_document (Digest ex_document).

Definition ex_resolution : Resolution :=
  mkResolution ex_binding "{}" (Digest "{}") "{}" digest_a.

Lemma catalog_resolution_exact_witness :
  resolves Some (fun _ => true) ex_registry [ex_approved] "codex" "dev" ex_resolution.
Proof.
  apply (catalog_resolution_exact Some (fun _ => true) (fun _ _ => Some "{}") ex_registry
           [ex_approved] ex_catalog); vm_compute; reflexivity.
Defined.
