(* ===== verification/Repositories.v ===== *)
(** * ports/persistence and postgres/store.go: transactions over repositories

    A service that mutates durable state runs a callback inside one tenant
    transaction ([WithinTransaction]) and talks to repositories, a clock, a source
    of randomness and its own policy callbacks.  Here are those calls, the
    transaction as a program over them, the writes a run makes, whether they were
    committed (the answer of a commit that took effect may be lost), and the
    idempotency table as the other side of the idempotency calls, next to an
    arbitrary environment for all the others. *)

From Stdlib Require Import ZArith Bool Lia.
From stdpp Require Import base strings list.
From S2P Require Import Prelude Regex GoStd Primitives Interaction.
From S2P Require Import Session Execution Outbox RuntimeEvent LocalAuthority Idempotency.
From S2P Require Import IdempotencyStore JsonRoundTrip.

#[export] Instance Response_eq_dec : EqDecision Response.
Proof. solve_decision. Defined.

#[export] Instance Failure_eq_dec : EqDecision Failure.
Proof. solve_decision. Defined.

#[export] Instance Record_eq_dec : EqDecision Record_.
Proof. solve_decision. Defined.

#[export] Instance result_eq_dec {E A} `{EqDecision E, EqDecision A} : EqDecision (result E A).
Proof. solve_decision. Defined.

(** [persistence.SignalRecord] *)
Record SignalRecord : Type := mkSignalRecord {
  Sig_ID : ID;
  Sig_ExecutionID : ID;
  Sig_Payload : string;
  Sig_Digest : string
}.

(** ** Calls

    [P] holds the policy callbacks of the service. *)
Inductive call (P : Type -> Type) : Type -> Type :=
| Clock_Now : call P Time
| Entropy : call P (option string)
| Tx_Begin : call P bool
| Tx_SetTenant (tenant : ID) : call P bool
| Tx_Commit : call P commit
| Tx_Rollback : call P unit
| Idempotency_Reserve (v : Record_) : call P (result StoreError (Record_ * bool))
| Idempotency_Update (v : Record_) (fence : Z) : call P (result StoreError unit)
| Sessions_Add (s : Session.Session) : call P (result StoreError unit)
| Sessions_Get (i : ID) : call P (result StoreError Session.Session)
| Sessions_GetForUpdate (i : ID) : call P (result StoreError Session.Session)
| Sessions_Activate (s : Session.Session) (expected : Z) (execution : ID)
    : call P (result StoreError unit)
| Executions_Add (e : Execution.Execution) : call P (result StoreError unit)
| Executions_Get (i : ID) : call P (result StoreError Execution.Execution)
| Executions_GetForUpdate (i : ID) : call P (result StoreError Execution.Execution)
| Executions_AddInput (i : ID) (input digest : string) : call P (result StoreError unit)
| Executions_AddSignal (r : SignalRecord) : call P (result StoreError unit)
| LocalGrants_Add (r : GrantRecord) : call P (result StoreError unit)
| LocalGrants_Get (i : ID) : call P (result StoreError GrantRecord)
| Events_NextSequence (session : ID) : call P (result StoreError Z)
| Events_Append (e : Event) : call P (result StoreError unit)
| Outbox_Add (m : Message) : call P (result StoreError unit)
| Policy {B : Type} (p : P B) : call P B.

Arguments Clock_Now {P}.
Arguments Entropy {P}.
Arguments Tx_Begin {P}.
Arguments Tx_SetTenant {P} tenant.
Arguments Tx_Commit {P}.
Arguments Tx_Rollback {P}.
Arguments Idempotency_Reserve {P} v.
Arguments Idempotency_Update {P} v fence.
Arguments Sessions_Add {P} s.
Arguments Sessions_Get {P} i.
Arguments Sessions_GetForUpdate {P} i.
Arguments Sessions_Activate {P} s expected execution.
Arguments Executions_Add {P} e.
Arguments Executions_Get {P} i.
Arguments Executions_GetForUpdate {P} i.
Arguments Executions_AddInput {P} i input digest.
Arguments Executions_AddSignal {P} r.
Arguments LocalGrants_Add {P} r.
Arguments LocalGrants_Get {P} i.
Arguments Events_NextSequence {P} session.
Arguments Events_Append {P} e.
Arguments Outbox_Add {P} m.
Arguments Policy {P B} p.

(** What a transaction callback fails with: a repository's error, one of the
    service's own sentinels, or anything else. *)
Inductive failure (E : Type) : Type :=
| FStore (e : StoreError)
| FApp (e : E)
| FOther.

Arguments FStore {E} e.
Arguments FApp {E} e.
Arguments FOther {E}.

(** Durations of the idempotency records. *)
Definition minute : Z := 60 * 1000000000.
Definition year : Z := 365 * 24 * 3600 * 1000000000.

Section Transactions.
Context {P : Type -> Type} {E : Type}.

Abbreviation tx A := (prog (call P) (result (failure E) A)).

(** [if err != nil { return err }] after a repository call. *)
Definition store {A B} (c : call P (result StoreError A)) (k : A -> tx B) : tx B :=
  do! r <- trigger c;
  match r with
  | Err e => Ret (Err (FStore e))
  | Ok a => k a
  end.

(** The same after a domain constructor, whose errors no service tells apart. *)
Definition domain {X A B} (r : result X A) (k : A -> tx B) : tx B :=
  match r with
  | Err _ => Ret (Err FOther)
  | Ok a => k a
  end.

(** [primitives.NewID] *)
Definition NewID (now : Time) : prog (call P) (result IDError ID) :=
  do! random <- trigger Entropy;
  Ret (NewIDFrom now (option_map to_bytes random)).

(** [n] fresh identifiers, or the first error. *)
Fixpoint NewIDs (n : nat) (now : Time) : prog (call P) (option (list ID)) :=
  match n with
  | O => Ret (Some [])
  | S k =>
      do! i <- NewID now;
      match i with
      | Err _ => Ret None
      | Ok i =>
          do! rest <- NewIDs k now;
          Ret (option_map (cons i) rest)
      end
  end.

(** [Store.WithinTransaction]; the callback is present.  The deferred rollback
    does nothing after a commit was attempted. *)
Definition WithinTransaction {A} (tenant : ID) (work : tx A) : tx A :=
  if negb (is_ok (ParseID tenant)) then Ret (Err FOther)
  else
    do! begun <- trigger Tx_Begin;
    if negb begun then Ret (Err FOther)
    else
      do! set <- trigger (Tx_SetTenant tenant);
      if negb set then do! _ <- trigger Tx_Rollback; Ret (Err FOther)
      else
        do! r <- work;
        match r with
        | Err e => do! _ <- trigger Tx_Rollback; Ret (Err e)
        | Ok a =>
            do! c <- trigger Tx_Commit;
            if negb (reported c) then Ret (Err FOther) else Ret (Ok a)
        end.

(** What a transaction that took effect returns: the callback's value, unless the answer to
    the commit was lost. *)
Definition answered {X A} (c : commit) (e : X) (a : A) : result X A := if reported c then Ok a else Err e.

End Transactions.

(** ** What a run leaves behind *)

Inductive write : Type :=
| WRecord (v : Record_) (fence : Z)
| WSession (s : Session.Session)
| WActivate (s : Session.Session) (expected : Z) (execution : ID)
| WExecution (e : Execution.Execution)
| WInput (i : ID) (input digest : string)
| WSignal (r : SignalRecord)
| WGrant (r : GrantRecord)
| WEvent (e : Event)
| WMessage (m : Message).

Section Runs.
Context {P : Type -> Type}.

(** The row an accepted call writes; a reservation is not among them. *)
Definition written_by (ev : event (call P)) : list write :=
  match ev with
  | existT _ (c, b) =>
      match c in call _ B return B -> list write with
      | Idempotency_Update v f => fun r => if is_ok r then [WRecord v f] else []
      | Sessions_Add s => fun r => if is_ok r then [WSession s] else []
      | Sessions_Activate s v x => fun r => if is_ok r then [WActivate s v x] else []
      | Executions_Add e => fun r => if is_ok r then [WExecution e] else []
      | Executions_AddInput i input d => fun r => if is_ok r then [WInput i input d] else []
      | Executions_AddSignal s => fun r => if is_ok r then [WSignal s] else []
      | LocalGrants_Add g => fun r => if is_ok r then [WGrant g] else []
      | Events_Append e => fun r => if is_ok r then [WEvent e] else []
      | Outbox_Add m => fun r => if is_ok r then [WMessage m] else []
      | _ => fun _ => []
      end b
  end.

Definition writes (tr : list (event (call P))) : list write := flat_map written_by tr.

Definition commits_here (ev : event (call P)) : bool :=
  match ev with
  | existT _ (c, b) =>
      match c in call _ B return B -> bool with Tx_Commit => took_effect | _ => fun _ => false end b
  end.

(** The transaction of the run was committed, whatever was reported of it. *)
Definition committed (tr : list (event (call P))) : bool := existsb commits_here tr.

(** The answer of the reservation, when the run made one. *)
Definition reserved_here (ev : event (call P)) : list (Record_ * bool) :=
  match ev with
  | existT _ (c, b) =>
      match c in call _ B return B -> list (Record_ * bool) with
      | Idempotency_Reserve _ => fun r => match r with Ok x => [x] | Err _ => [] end
      | _ => fun _ => []
      end b
  end.

Definition reservations (tr : list (event (call P))) : list (Record_ * bool) :=
  flat_map reserved_here tr.

Lemma writes_app t1 t2 : writes (t1 ++ t2) = writes t1 ++ writes t2.
Proof. apply flat_map_app. Qed.

Lemma committed_app t1 t2 : committed (t1 ++ t2) = committed t1 || committed t2.
Proof. apply existsb_app. Qed.

Lemma reservations_app t1 t2 : reservations (t1 ++ t2) = reservations t1 ++ reservations t2.
Proof. apply flat_map_app. Qed.

(** Calls that begin or end a transaction. *)
Definition is_tx {B} (c : call P B) : bool :=
  match c with Tx_Begin | Tx_SetTenant _ | Tx_Commit | Tx_Rollback => true | _ => false end.

Definition tx_event (ev : event (call P)) : bool := match ev with existT _ (c, _) => is_tx c end.

(** A program that stays inside its caller's transaction. *)
Fixpoint tx_free {A} (p : prog (call P) A) : Prop :=
  match p with
  | Ret _ => True
  | Vis c k => is_tx c = false /\ forall b, tx_free (k b)
  end.

Lemma tx_free_run {A} (p : prog (call P) A) : tx_free p -> forall tr r,
  runs p tr r -> Forall (fun ev => tx_event ev = false) tr.
Proof.
  induction p as [a | B c k IH]; cbn [tx_free runs]; intros F tr r R.
  - by destruct R as [-> _].
  - destruct R as (b & tr' & -> & R). destruct F as [F1 F2]. constructor; [done |].
    by apply (IH b (F2 b) tr' r).
Qed.

Lemma tx_free_uncommitted tr : Forall (fun ev => tx_event ev = false) tr -> committed tr = false.
Proof.
  induction 1 as [| [B [c b]] tr H _ IH]; [done |]. unfold committed in *. cbn [existsb].
  rewrite IH, orb_false_r. cbn in H |- *. by destruct c.
Qed.

Lemma committed_after pre tr : Forall (fun ev => tx_event ev = false) pre -> committed (pre ++ tr) = committed tr.
Proof. intros F. by rewrite committed_app, (tx_free_uncommitted pre F). Qed.

Lemma commit_free_run {A} (p : prog (call P) A) : tx_free p -> forall tr r,
  runs p tr r -> committed tr = false.
Proof. intros F tr r R. by eapply tx_free_uncommitted, tx_free_run. Qed.

Lemma tx_free_bind {A B} (p : prog (call P) A) (f : A -> prog (call P) B) :
  tx_free p -> (forall a, tx_free (f a)) -> tx_free (pbind p f).
Proof.
  induction p as [a | C c k IH]; cbn; intros F G; [done |]. destruct F as [F1 F2].
  split; [done |]. intros b. by apply IH.
Qed.

(** The trace of a transaction around its callback's. *)
Definition transacted (tenant : ID) (inner : list (event (call P))) (c : commit) : list (event (call P)) :=
  [occurred Tx_Begin true; occurred (Tx_SetTenant tenant) true] ++ inner ++ [occurred Tx_Commit c].

(** A transaction that was committed ran its callback to a value, and returns it unless the
    answer was lost; one that was not committed returns an error. *)
Lemma transaction_run {E A} tenant (work : prog (call P) (result (failure E) A)) tr r :
  tx_free work -> runs (WithinTransaction tenant work) tr r ->
  if committed tr then exists inner a c, r = answered c FOther a /\ took_effect c = true
      /\ validID tenant = true /\ runs work inner (Ok a)
      /\ writes tr = writes inner /\ reservations tr = reservations inner
      /\ tr = transacted tenant inner c
  else exists e, r = Err e.
Proof.
  intros F R. unfold WithinTransaction in R. fold (validID tenant) in R.
  destruct (validID tenant) eqn:V; cbn [negb] in R; [| destruct R as [-> ->]; cbn; eauto].
  destruct R as (begun & tr1 & -> & R). destruct begun; cbn [negb] in R; [| destruct R as [-> ->]; cbn; eauto].
  destruct R as (set & tr2 & -> & R). destruct set; cbn [negb] in R;
    [| destruct R as ([] & ? & -> & [-> ->]); cbn; eauto].
  change (runs (pbind work (fun r => match r with
            | Err e => do! _ <- trigger Tx_Rollback; Ret (Err e)
            | Ok a => do! c <- trigger Tx_Commit;
                      if negb (reported c) then Ret (Err FOther) else Ret (Ok a) end)) tr2 r) in R.
  apply runs_bind in R as (inner & tail & a & -> & R1 & R2).
  pose proof (commit_free_run work F inner a R1) as C.
  change (?x :: ?y :: inner ++ ?z) with ([x; y] ++ inner ++ z). rewrite !committed_app, C.
  destruct a as [a | e]; [| destruct R2 as ([] & t & -> & [-> ->]); cbn; eauto].
  destruct R2 as (c & t & -> & R2).
  assert (r = answered c FOther a /\ t = []) as [-> ->].
  { destruct c; cbn in R2; by destruct R2 as [-> ->]. }
  cbn [committed existsb commits_here occurred orb]. rewrite orb_false_r.
  destruct (took_effect c) eqn:T; [| destruct c; try discriminate T; by exists FOther].
  exists inner, a, c. rewrite !writes_app, !reservations_app. cbn. by rewrite !app_nil_r.
Qed.

Lemma answered_map {E X A} (f : E -> X) c e (a : A) :
  match answered c e a with Err e => Err (f e) | Ok a => Ok a end = answered c (f e) a.
Proof. unfold answered. by destruct (reported c). Qed.

Lemma answered_ok {X A} c (e : X) (a b : A) : answered c e a = Ok b -> a = b /\ c = CommitDone.
Proof. destruct c; intros [=]. done. Qed.

End Runs.

(** [tx_free_auto] proves that a callback stays inside its transaction. *)
Ltac tx_free_auto :=
  repeat match goal with
  | |- tx_free (Ret _) => exact I
  | |- tx_free (match ?x with _ => _ end) => destruct x
  | |- tx_free (pbind _ _) => apply tx_free_bind; [| intros]
  | |- tx_free (trigger _) => split; [reflexivity | intros; exact I]
  | |- tx_free (store _ _) => unfold store
  | |- tx_free (domain _ _) => unfold domain
  end.

(** ** The idempotency table behind the calls *)

(** The committed rows of a tenant, those the open transaction sees, and the
    transaction's tenant. *)
Record Rows : Type := mkRows {
  r_committed : Table;
  r_pending : Table;
  r_tenant : ID
}.

Section Records.
Context {P : Type -> Type} {S : Type}.

(** Everything but the idempotency records. *)
Variable env : forall B, S -> call P B -> S * B.

Definition records_handler : forall B, S * Rows -> call P B -> (S * Rows) * B :=
  fun B st c =>
    let rows := snd st in
    match c in call _ B return (S * Rows) * B with
    | Idempotency_Reserve v =>
        let (t, r) := Reserve (r_tenant rows) (r_pending rows) (Some v) in
        ((fst st, mkRows (r_committed rows) t (r_tenant rows)), r)
    | Idempotency_Update v f =>
        let (t, r) := Update (r_tenant rows) (r_pending rows) (Some v) f in
        ((fst st, mkRows (r_committed rows) t (r_tenant rows)), r)
    | Tx_Begin =>
        let (s, b) := env _ (fst st) Tx_Begin in
        ((s, mkRows (r_committed rows) (r_committed rows) (r_tenant rows)), b)
    | Tx_SetTenant tenant =>
        let (s, b) := env _ (fst st) (Tx_SetTenant tenant) in
        ((s, mkRows (r_committed rows) (r_pending rows) tenant), b)
    | Tx_Commit =>
        let (s, b) := env _ (fst st) Tx_Commit in
        ((s, mkRows (if took_effect b then r_pending rows else r_committed rows) (r_pending rows) (r_tenant rows)), b)
    | Tx_Rollback =>
        let (s, b) := env _ (fst st) Tx_Rollback in
        ((s, mkRows (r_committed rows) (r_committed rows) (r_tenant rows)), b)
    | c => let (s, b) := env _ (fst st) c in ((s, rows), b)
    end.

End Records.

Section Replay.
Context {P : Type -> Type}.

(** The rows after an event, when its answer is the table's. *)
Definition step_rows (rows : Rows) (ev : event (call P)) : option Rows :=
  match ev with
  | existT _ (c, b) =>
      match c in call _ B return B -> option Rows with
      | Idempotency_Reserve v => fun b =>
          let (t, r) := Reserve (r_tenant rows) (r_pending rows) (Some v) in
          if decide (r = b) then Some (mkRows (r_committed rows) t (r_tenant rows)) else None
      | Idempotency_Update v f => fun b =>
          let (t, r) := Update (r_tenant rows) (r_pending rows) (Some v) f in
          if decide (r = b) then Some (mkRows (r_committed rows) t (r_tenant rows)) else None
      | Tx_Begin => fun _ => Some (mkRows (r_committed rows) (r_committed rows) (r_tenant rows))
      | Tx_SetTenant tenant => fun _ => Some (mkRows (r_committed rows) (r_pending rows) tenant)
      | Tx_Commit => fun b =>
          Some (mkRows (if took_effect b then r_pending rows else r_committed rows) (r_pending rows) (r_tenant rows))
      | Tx_Rollback => fun _ => Some (mkRows (r_committed rows) (r_committed rows) (r_tenant rows))
      | _ => fun _ => Some rows
      end b
  end.

Fixpoint steps_rows (rows : Rows) (tr : list (event (call P))) : option Rows :=
  match tr with
  | [] => Some rows
  | ev :: tr' => match step_rows rows ev with Some rows' => steps_rows rows' tr' | None => None end
  end.

Lemma steps_rows_app t1 t2 rows :
  steps_rows rows (t1 ++ t2)
  = match steps_rows rows t1 with Some rows' => steps_rows rows' t2 | None => None end.
Proof.
  revert rows. induction t1 as [| ev t1 IH]; intros rows; cbn; [done |].
  by destruct (step_rows rows ev).
Qed.

(** Executing a program against the table is one of its runs, with the table's
    answers. *)
Lemma run_records {S A} (env : forall B, S -> call P B -> S * B) (p : prog (call P) A) :
  forall s rows st r, run_state (records_handler env) (s, rows) p = (st, r) ->
  exists tr, runs p tr r /\ steps_rows rows tr = Some (snd st).
Proof.
  induction p as [a | B c k IH]; intros s rows st r R; cbn [run_state] in R.
  - injection R as <- <-. exists []. done.
  - destruct (records_handler env B (s, rows) c) as [[s' rows'] b] eqn:H.
    destruct (IH b s' rows' st r R) as (tr & R1 & R2). exists (occurred c b :: tr).
    split; [cbn; eauto |]. cbn [steps_rows].
    assert (step_rows rows (occurred c b) = Some rows') as ->; [| done].
    destruct c; cbn [records_handler step_rows occurred fst snd] in *;
      repeat match type of H with context [let (_, _) := ?x in _] => destruct x eqn:? end;
      simplify_eq; try rewrite decide_True by done; done.
Qed.

(** The idempotency calls of a run with their answers. *)
Inductive idem : Type :=
| IReserve (v : Record_) (r : result StoreError (Record_ * bool))
| IUpdate (v : Record_) (fence : Z) (r : result StoreError unit).

Definition idem_of (ev : event (call P)) : list idem :=
  match ev with
  | existT _ (c, b) =>
      match c in call _ B return B -> list idem with
      | Idempotency_Reserve v => fun r => [IReserve v r]
      | Idempotency_Update v f => fun r => [IUpdate v f r]
      | _ => fun _ => []
      end b
  end.

Definition idems (tr : list (event (call P))) : list idem := flat_map idem_of tr.

Lemma idems_app t1 t2 : idems (t1 ++ t2) = idems t1 ++ idems t2.
Proof. apply flat_map_app. Qed.

Definition idem_step (tenant : ID) (t : Table) (i : idem) : option Table :=
  match i with
  | IReserve v b =>
      let (t', r) := Reserve tenant t (Some v) in if decide (r = b) then Some t' else None
  | IUpdate v f b =>
      let (t', r) := Update tenant t (Some v) f in if decide (r = b) then Some t' else None
  end.

Fixpoint idem_steps (tenant : ID) (t : Table) (l : list idem) : option Table :=
  match l with
  | [] => Some t
  | i :: l' => match idem_step tenant t i with Some t' => idem_steps tenant t' l' | None => None end
  end.

Lemma steps_rows_inner inner : Forall (fun ev => tx_event ev = false) inner -> forall rows,
  steps_rows rows inner
  = option_map (fun t => mkRows (r_committed rows) t (r_tenant rows))
      (idem_steps (r_tenant rows) (r_pending rows) (idems inner)).
Proof.
  induction 1 as [| [B [c b]] tr H _ IH]; intros rows; [by destruct rows |].
  cbn [steps_rows]. destruct c; try discriminate H;
    try (change (idems (existT _ _ :: tr)) with (idems tr); apply IH).
  - change (idems (existT _ (Idempotency_Reserve v, b) :: tr)) with (IReserve v b :: idems tr).
    cbn [step_rows idem_steps idem_step]. destruct (Reserve _ _ _) as [t r].
    destruct (decide (r = b)); [by rewrite IH | done].
  - change (idems (existT _ (Idempotency_Update v fence, b) :: tr)) with (IUpdate v fence b :: idems tr).
    cbn [step_rows idem_steps idem_step]. destruct (Update _ _ _ _) as [t r].
    destruct (decide (r = b)); [by rewrite IH | done].
Qed.

(** A committed transaction leaves the rows its idempotency calls made. *)
Lemma transaction_table tenant inner c rows rows' :
  Forall (fun ev => tx_event ev = false) inner -> took_effect c = true ->
  steps_rows rows (transacted tenant inner c) = Some rows' ->
  idem_steps tenant (r_committed rows) (idems inner) = Some (r_committed rows').
Proof.
  intros F T. unfold transacted. cbn [app steps_rows step_rows occurred]. rewrite steps_rows_app, steps_rows_inner by done.
  cbn [r_committed r_pending r_tenant]. destruct (idem_steps _ _ _) as [t |]; [| discriminate].
  cbn. rewrite T. intros E. by injection E as <-.
Qed.

Lemma uncommitted_table tr : forall rows rows', committed tr = false ->
  steps_rows rows tr = Some rows' -> r_committed rows' = r_committed rows.
Proof.
  induction tr as [| [B [c b]] tr IH]; intros rows rows' C H; cbn [steps_rows] in H.
  { by injection H as <-. }
  unfold committed in C. cbn [existsb] in C. apply orb_false_iff in C as [C1 C2].
  destruct (step_rows rows (existT B (c, b))) as [r1 |] eqn:E; [| discriminate H].
  rewrite (IH r1 rows' C2 H). cbn [step_rows] in E.
  destruct c; cbn in C1; try (by injection E as <-).
  - injection E as <-. by rewrite C1.
  - destruct (Reserve _ _ _); destruct (decide _) in E; [| discriminate E]. by injection E as <-.
  - destruct (Update _ _ _ _); destruct (decide _) in E; [| discriminate E]. by injection E as <-.
Qed.

End Replay.

(** ** Identifiers *)

Section NewIDs.
Context {P : Type -> Type}.

(** Drawing identifiers touches no store. *)
Lemma NewIDs_run n now : forall tr (x : option (list ID)), runs (NewIDs (P := P) n now) tr x ->
  Forall (fun ev => tx_event ev = false) tr /\ writes tr = [] /\ idems tr = []
  /\ match x with
     | Some ids => length ids = n /\ Forall (fun i => validID i = true) ids
     | None => True
     end.
Proof.
  induction n as [| n IH]; intros tr x R; cbn [NewIDs] in R.
  { destruct R as [-> ->]. done. }
  unfold NewID in R. cbn [pbind trigger runs] in R. destruct R as (e & tr1 & -> & R).
  destruct (NewIDFrom now (option_map to_bytes e)) as [i | err] eqn:N; [| by destruct R as [-> ->]; repeat constructor].
  apply runs_bind in R as (t1 & t2 & rest & -> & R1 & [-> ->]).
  apply IH in R1 as (F & W & D & L). rewrite app_nil_r. split; [by constructor |].
  split; [exact W |]. split; [exact D |]. destruct rest as [l |]; cbn; [| done].
  destruct L as [-> L]. split; [done |]. constructor; [| done].
  apply NewIDFrom_ok in N as (source & E & Ls & _ & ->). destruct e as [e |]; [| discriminate E].
  injection E as <-. apply validID_spec. eexists. split; [| done].
  apply id_raw_uuid7, Forall_take, to_bytes_range.
Qed.

Lemma neutral_rows tr : Forall (fun ev => @tx_event P ev = false) tr -> idems tr = [] -> forall rows,
  steps_rows rows tr = Some rows.
Proof. intros F D rows. rewrite (steps_rows_inner tr F), D. by destruct rows. Qed.

End NewIDs.

(** ** Settling a reservation *)

Lemma succeed_done record resp op fence now done :
  Succeed (Some record) resp op fence now = Ok done ->
  Idempotency.state done = Succeeded /\ response done = Some resp /\ scope done = scope record
  /\ Idempotency.id done = Idempotency.id record /\ ownerFence done = ownerFence record
  /\ ownerFence record = fence /\ op = ownerID record.
Proof.
  intros H. change (exec record (CSucceed resp op fence now) = Ok done) in H.
  apply idempotency_exec_effect in H as (_ & _ & He). by inversion He; subst.
Qed.

(** A won reservation is the candidate. *)
Lemma reserve_won t v t1 r : Reserve t v.1 (Some v.2) = (t1, Ok (r, true)) -> r = v.2.
Proof. unfold Reserve. intros H. repeat case_match; by simplify_eq. Qed.
