(* ===== verification/Once.v ===== *)
(** * Exactly-once services over the idempotency table

    What the creating services share: a run reserves a record of a pinned action,
    does its work, and settles the record in the same transaction.  Two lemmas
    carry their exactly-once theorems: after such a run the table is sound and
    holds the settled row of the scope; and whatever happens to the table later,
    a reservation of that scope returns this very row. *)

From Stdlib Require Import ZArith Bool Lia.
From stdpp Require Import base strings list.
From S2P Require Import Prelude Regex GoStd Primitives Interaction Outbox RuntimeEvent Idempotency.
From S2P Require Import IdempotencyStore Repositories.

(** ** Clock readings *)

(** A reading past the first microsecond of the calendar. *)
Definition timely {P} (ev : event (call P)) : Prop :=
  match ev with
  | existT _ (c, b) =>
      match c in call _ B return B -> Prop with Clock_Now => fun t => 1000 <= nanos t | _ => fun _ => True end b
  end.

(** An environment whose clock reads so. *)
Definition timely_env {P S} (env : forall B, S -> call P B -> S * B) : Prop :=
  forall s, 1000 <= nanos (snd (env Time s Clock_Now)).

Lemma run_records_timely {P S A} (env : forall B, S -> call P B -> S * B) (p : prog (call P) A) :
  timely_env env -> forall s rows st r,
  run_state (records_handler env) (s, rows) p = (st, r) ->
  exists tr, runs p tr r /\ steps_rows rows tr = Some (snd st) /\ Forall timely tr.
Proof.
  intros T. induction p as [a | B c k IH]; intros s rows st r R; cbn [run_state] in R.
  - injection R as <- <-. exists []. done.
  - destruct (records_handler env B (s, rows) c) as [[s' rows'] b] eqn:H.
    destruct (IH b s' rows' st r R) as (tr & R1 & R2 & F). exists (occurred c b :: tr).
    split; [cbn; eauto |]. cbn [steps_rows]. split.
    + assert (step_rows rows (occurred c b) = Some rows') as ->; [| done].
      destruct c; cbn [records_handler step_rows occurred fst snd] in *;
        repeat match type of H with context [let (_, _) := ?x in _] => destruct x eqn:? end;
        simplify_eq; try rewrite decide_True by done; done.
    + constructor; [| done]. destruct c; try done. cbn in H. specialize (T s).
      destruct (env _ _ _) as [s1 t] eqn:E in H. injection H as <- <- <-. cbn. by rewrite E in T.
Qed.

(** ** Transactions on the table *)

(** The calls leave the table as some valid operations would. *)
Definition lawful (tenant : ID) (l : list idem) : Prop :=
  forall t t', sound tenant t -> idem_steps tenant t l = Some t' ->
  exists ops, Forall op_valid ops /\ t' = apply_all tenant t ops.

Lemma idem_steps_app tenant l1 l2 : forall t,
  idem_steps tenant t (l1 ++ l2)
  = match idem_steps tenant t l1 with Some t' => idem_steps tenant t' l2 | None => None end.
Proof. induction l1 as [| i l1 IH]; intros t; cbn; [done |]. by destruct (idem_step tenant t i). Qed.

Lemma lawful_nil tenant : lawful tenant [].
Proof. intros t t' _ [= <-]. exists []. done. Qed.

Lemma lawful_lost tenant v r : lawful tenant [IReserve v (Ok (r, false))].
Proof.
  intros t t' S H. cbn [idem_steps idem_step] in H. destruct (Reserve _ _ _) as [t1 x] eqn:R.
  destruct (decide _) as [-> |] in H; [| discriminate H]. injection H as <-.
  apply Reserve_lost in R as (-> & _); [| done]. exists []. done.
Qed.

(** A settled record can be written, whatever the clock read in between. *)
Lemma settled_writable v resp op fence now d :
  valid v = true -> Succeed (Some v) resp op fence now = Ok d -> writable d.
Proof.
  intros V Su. apply valid_writable in V as (V1 & _ & V3). unfold Succeed in Su.
  destruct (negb _) in Su; [discriminate Su |]. destruct (validResponse resp) eqn:R; [| discriminate Su].
  injection Su as <-. done.
Qed.

(** What a fresh candidate satisfies. *)
Record fresh (v : Record_) : Prop := {
  fr_valid : valid v = true;
  fr_created : 1000 <= nanos (createdAt v)
}.

Lemma New_fresh tenant i sc norm digest op res owner audit lease expires now v :
  Idempotency.New tenant i sc norm digest op res owner audit lease expires now = Ok v ->
  1000 <= nanos now -> fresh v.
Proof.
  intros H C. apply New_valid in H as (V & _ & _ & _ & _ & _ & Cr & _).
  constructor; [done | by rewrite Cr].
Qed.

Lemma fresh_reserve v : fresh v -> op_valid (OReserve (Some v)).
Proof. by intros [V C]. Qed.

Lemma fresh_settle v resp op fence now d f :
  fresh v -> Succeed (Some v) resp op fence now = Ok d -> op_valid (OUpdate (Some d) f).
Proof. intros [V _] Su. by apply settled_writable in Su. Qed.

(** A reservation settled in place, as by the local authority. *)
Lemma lawful_settled tenant v r resp op fence now d f :
  fresh v -> Succeed (Some r) resp op fence now = Ok d ->
  lawful tenant [IReserve v (Ok (r, true)); IUpdate d f (Ok tt)].
Proof.
  intros Fr Su t t' S H. cbn [idem_steps idem_step] in H. destruct (Reserve _ _ _) as [t1 x] eqn:R.
  destruct (decide _) as [-> |] in H; [| discriminate H].
  destruct (Update _ _ _ _) as [t2 y] eqn:U. destruct (decide _) as [-> |] in H; [| discriminate H].
  injection H as <-. assert (r = v) as -> by exact (reserve_won _ (_, _) _ _ R).
  exists [OReserve (Some v); OUpdate (Some d) f].
  split; [apply Forall_cons; split; [by apply fresh_reserve |]; apply Forall_singleton; by eapply fresh_settle |].
  unfold apply_all. cbn [foldl apply_op]. rewrite R. cbn [fst]. by rewrite U.
Qed.

(** A row settled under a scope, with what it answers. *)
Record settled_row (v : Record_) (resp : Response) (row : Record_) : Prop := {
  st_scope : scope row = scope v;
  st_digest : requestDigest row = requestDigest v;
  st_norm : normalizationVersion row = normalizationVersion v;
  st_state : Idempotency.state row = Succeeded;
  st_response : response row = Some resp
}.

(** The row of a pinned scope that a transaction reserved, worked under and settled. *)
Lemma once_created tenant t t' v r mid resp op fence now d f :
  sound tenant t -> fresh v -> Action (scope v) ∈ pinned -> lawful tenant mid ->
  Succeed (Some r) resp op fence now = Ok d ->
  idem_steps tenant t ([IReserve v (Ok (r, true))] ++ mid ++ [IUpdate d f (Ok tt)]) = Some t' ->
  sound tenant t' /\ exists row, row ∈ t' /\ settled_row v resp row.
Proof.
  intros S Fr P L Su H. cbn [app idem_steps idem_step] in H. destruct (Reserve _ _ _) as [t1 x] eqn:R.
  destruct (decide _) as [-> |] in H; [| discriminate H].
  assert (r = v) as -> by exact (reserve_won _ (_, _) _ _ R).
  pose proof (sound_apply _ _ _ (fresh_reserve v Fr) S) as S1. cbn [apply_op] in S1.
  rewrite R in S1. cbn [fst] in S1.
  rewrite idem_steps_app in H. destruct (idem_steps tenant t1 mid) as [t2 |] eqn:M; [| discriminate H].
  destruct (L t1 t2 S1 M) as (ops & Vo & ->). cbn [idem_steps idem_step] in H.
  pose proof (sound_apply_all tenant ops _ Vo S1) as S2.
  destruct (Update _ _ _ _) as [t3 y] eqn:U. destruct (decide _) as [-> |] in H; [| discriminate H].
  injection H as <-. pose proof (sound_apply _ _ _ (fresh_settle _ _ _ _ _ _ f Fr Su) S2) as S3.
  cbn [apply_op] in S3. rewrite U in S3. split; [exact S3 |].
  assert (T1 : inserted v ∈ t1).
  { destruct (Reserve_table tenant t (Some v)) as [E | (z & [= <-] & _ & E & _)]; rewrite R in E; cbn in E.
    - subst t1. unfold Reserve in R. destruct (_ != _) in R; [discriminate R |].
      destruct (row_for t (scope v)); [by destruct (get _ _ _); [destruct (_ || _) in R |] |].
      destruct (negb _) in R; [discriminate R |]. destruct (existsb _ _) in R; [discriminate R |].
      exfalso. injection R as R. apply (f_equal length) in R. cbn in R. lia.
    - subst t1. left. }
  destruct (pinned_steps tenant ops t1 (inserted v) Vo S1 T1 P) as (row & T2 & I & _).
  apply succeed_done in Su as (Sd & Sr & _ & Si & _).
  unfold Update in U. destruct (_ != _) in U; [discriminate U |].
  destruct (List.find _ _) as [row' |] eqn:F; [| discriminate U].
  destruct (negb _) in U; [discriminate U |]. injection U as <-.
  apply List.find_some in F as [F E]. apply list_elem_of_In in F.
  assert (row' = row) as ->.
  { apply (NoDup_map_inj id _ _ _ (so_ids _ _ S2)); [done | done |].
    unfold updatable in E. simp_bool. destruct I as (_ & I & _). cbn in I. congruence. }
  exists (written row d). split.
  { apply list_elem_of_fmap. exists row. by rewrite E. }
  destruct I as (_ & _ & _ & _ & _ & I1 & I2 & I3 & _). by constructor.
Qed.

(** Later reservations of the scope return that row. *)
Lemma once_again tenant t ops v w resp row t' r created :
  sound tenant t -> row ∈ t -> settled_row v resp row -> Action (scope v) ∈ pinned ->
  Forall op_valid ops -> scope w = scope v ->
  Reserve tenant (apply_all tenant t ops) (Some w) = (t', Ok (r, created)) ->
  created = false /\ r = row /\ t' = apply_all tenant t ops /\ requestDigest w = requestDigest v.
Proof.
  intros S H [E1 E2 E3 E4 E5] P V Es R.
  destruct (pinned_steps tenant ops t row V S H) as (row' & H' & _ & C); [by rewrite E1 |].
  assert (row' = row) as -> by (apply C; by rewrite E4).
  pose proof (sound_apply_all tenant ops t V S) as S2.
  assert (F : row_for (apply_all tenant t ops) (scope w) = Some row)
    by (rewrite Es, <- E1; by apply (row_for_intro tenant)).
  unfold Reserve in R. destruct (_ != _) in R; [discriminate R |]. rewrite F in R.
  rewrite (stored_row_read _ _ _ _ S2 F) in R. destruct (_ || _) eqn:M in R; [discriminate R |].
  injection R as <- <- <-. simp_bool. split_and!; congruence.
Qed.

(** So any later run can only replay it, whatever it was about to do. *)
Lemma once_replayed tenant t ops v w resp row record created rest t' :
  sound tenant t -> row ∈ t -> settled_row v resp row -> Action (scope v) ∈ pinned ->
  Forall op_valid ops -> scope w = scope v ->
  idem_steps tenant (apply_all tenant t ops) (IReserve w (Ok (record, created)) :: rest) = Some t' ->
  created = false /\ record = row /\ requestDigest w = requestDigest v
  /\ idem_steps tenant (apply_all tenant t ops) rest = Some t'.
Proof.
  intros S H St P V E X. cbn [idem_steps idem_step] in X. destruct (Reserve _ _ _) as [t1 y] eqn:R.
  destruct (decide _) as [-> |] in X; [| discriminate X].
  destruct (once_again _ _ _ v w resp row _ _ _ S H St P V E R) as (-> & -> & -> & D). done.
Qed.

(** ** Rows the services construct *)

Lemma event_new i tenant session execution attempt seq version name occurred recorded source class payload
    corr policy until e :
  RuntimeEvent.New i tenant session execution attempt seq version name occurred recorded source class
    payload corr policy until = Ok e ->
  eventID e = i /\ RuntimeEvent.tenantID e = tenant /\ sessionID e = session /\ executionID e = execution
  /\ sequence e = seq /\ typeName e = name /\ correlation e = corr /\ RuntimeEvent.payload e = payload
  /\ payload <> "".
Proof.
  unfold RuntimeEvent.New. intros H. destruct (_ || _) eqn:G in H; [discriminate H |]. injection H as <-.
  split_and!; try done. intros ->. apply orb_false_iff in G as [_ G]. discriminate G.
Qed.

Lemma message_new tenant i env available now m : Outbox.New tenant i env available now = Ok m ->
  Outbox.tenantID m = tenant /\ Outbox.state m = Pending /\ Outbox.envelope m = env.
Proof.
  unfold Outbox.New. intros H. destruct (_ || _) eqn:G in H; [discriminate H |]. by injection H as <-.
Qed.
