(* ===== verification/SessionCreate.v ===== *)
(** * internal/app/session/create.go: creating a Session

    [Create] reserves an idempotency record, and under the reservation it won writes
    the Session, its first event, the provisioning message and the settled record in
    one transaction; a reservation it lost replays the stored answer.  The calls go
    to a clock, a source of randomness, the repositories and the access policy.
    Proved for every answer they give, a commit whose answer is lost included: a run
    that commits nothing leaves no write; a creation commits exactly four mutually consistent rows and records the answer it returns; a
    replay writes nothing and returns the recorded answer; access is granted before
    anything is disclosed.  Over the idempotency table: a creation repeated under
    its key never creates again and never answers differently. *)

From Stdlib Require Import ZArith Bool Lia.
From stdpp Require Import base strings list gmap.
From S2P Require Import Prelude Regex GoStd JsonDecoder JsonEncode JsonUnmarshal JsonRoundTrip Sha256.
From S2P Require Import Primitives Interaction RuntimeProfile Session Outbox RuntimeEvent.
From S2P Require Import LocalAuthority EventStream Idempotency IdempotencyStore Repositories.
From S2P Require Import Once Profiles Catalog.

(** ** Data *)

Inductive CreateError : Type := ErrInvalid | ErrForbidden | ErrUnsupported | ErrConflict | ErrUnavailable.

#[export] Instance CreateError_eq_dec : EqDecision CreateError.
Proof. solve_decision. Defined.

Definition CreateAction : string := "sessions.create.v1".

Record Source : Type := mkSource { Kind : string; SReference : string; SDigest : string }.

Record CreateRequest : Type := mkCreateRequest {
  RuntimeID : string;
  ProfileID : string;
  RSource : Source
}.

Record View : Type := mkView {
  V_ID : ID;
  V_State : string;
  V_StateVersion : Z;
  V_Generation : Z;
  V_RuntimeID : string;
  V_ProfileID : string;
  V_WorkspaceID : ID;
  V_AuthorityMode : string;
  V_AuthorityIssuer : string;
  V_CreatedAt : Time;
  V_UpdatedAt : Time
}.

Record Result : Type := mkResult { R_View : View; Replayed : bool }.

Record ProvisioningIntent : Type := mkIntent {
  I_SessionID : ID;
  I_WorkspaceID : ID;
  I_WorkspaceOperationID : ID;
  I_SourceOperationID : ID;
  I_Request : CreateRequest;
  I_PrincipalDigest : string;
  I_RuntimeDigest : string;
  I_ProfileDigest : string;
  I_Implementation : string;
  I_ImplementationDigest : string;
  I_Qualification : string;
  I_PolicyDigest : string;
  I_ResolvedAt : Time
}.

(** ** Encodings *)

Definition source_json (s : Source) : jvalue :=
  JStruct ([("kind", JString (Kind s))] ++ omitempty "reference" (SReference s)
           ++ omitempty "digest" (SDigest s)).

Definition request_json (r : CreateRequest) : jvalue :=
  JStruct [("agent_runtime_spec_id", JString (RuntimeID r)); ("runtime_profile_id", JString (ProfileID r));
           ("source", source_json (RSource r))].

Definition view_json (v : View) : jvalue :=
  JStruct
    [("id", JString (V_ID v));
     ("state", JString (V_State v));
     ("state_version", JUint (V_StateVersion v));
     ("execution_generation", JUint (V_Generation v));
     ("agent_runtime_spec_id", JString (V_RuntimeID v));
     ("runtime_profile_id", JString (V_ProfileID v));
     ("workspace_id", JString (V_WorkspaceID v));
     ("authority_mode", JString (V_AuthorityMode v));
     ("authority_issuer", JString (V_AuthorityIssuer v));
     ("created_at", JTime (V_CreatedAt v));
     ("updated_at", JTime (V_UpdatedAt v))].

(** Assigning a field of a view. *)
Definition set_ID (x : ID) (v : View) : View :=
  mkView x (V_State v) (V_StateVersion v) (V_Generation v) (V_RuntimeID v) (V_ProfileID v)
    (V_WorkspaceID v) (V_AuthorityMode v) (V_AuthorityIssuer v) (V_CreatedAt v) (V_UpdatedAt v).
Definition set_State (x : string) (v : View) : View :=
  mkView (V_ID v) x (V_StateVersion v) (V_Generation v) (V_RuntimeID v) (V_ProfileID v)
    (V_WorkspaceID v) (V_AuthorityMode v) (V_AuthorityIssuer v) (V_CreatedAt v) (V_UpdatedAt v).
Definition set_StateVersion (x : Z) (v : View) : View :=
  mkView (V_ID v) (V_State v) x (V_Generation v) (V_RuntimeID v) (V_ProfileID v) (V_WorkspaceID v)
    (V_AuthorityMode v) (V_AuthorityIssuer v) (V_CreatedAt v) (V_UpdatedAt v).
Definition set_Generation (x : Z) (v : View) : View :=
  mkView (V_ID v) (V_State v) (V_StateVersion v) x (V_RuntimeID v) (V_ProfileID v) (V_WorkspaceID
    v) (V_AuthorityMode v) (V_AuthorityIssuer v) (V_CreatedAt v) (V_UpdatedAt v).
Definition set_RuntimeID (x : string) (v : View) : View :=
  mkView (V_ID v) (V_State v) (V_StateVersion v) (V_Generation v) x (V_ProfileID v) (V_WorkspaceID
    v) (V_AuthorityMode v) (V_AuthorityIssuer v) (V_CreatedAt v) (V_UpdatedAt v).
Definition set_ProfileID (x : string) (v : View) : View :=
  mkView (V_ID v) (V_State v) (V_StateVersion v) (V_Generation v) (V_RuntimeID v) x (V_WorkspaceID
    v) (V_AuthorityMode v) (V_AuthorityIssuer v) (V_CreatedAt v) (V_UpdatedAt v).
Definition set_WorkspaceID (x : ID) (v : View) : View :=
  mkView (V_ID v) (V_State v) (V_StateVersion v) (V_Generation v) (V_RuntimeID v) (V_ProfileID v)
    x (V_AuthorityMode v) (V_AuthorityIssuer v) (V_CreatedAt v) (V_UpdatedAt v).
Definition set_AuthorityMode (x : string) (v : View) : View :=
  mkView (V_ID v) (V_State v) (V_StateVersion v) (V_Generation v) (V_RuntimeID v) (V_ProfileID v)
    (V_WorkspaceID v) x (V_AuthorityIssuer v) (V_CreatedAt v) (V_UpdatedAt v).
Definition set_AuthorityIssuer (x : string) (v : View) : View :=
  mkView (V_ID v) (V_State v) (V_StateVersion v) (V_Generation v) (V_RuntimeID v) (V_ProfileID v)
    (V_WorkspaceID v) (V_AuthorityMode v) x (V_CreatedAt v) (V_UpdatedAt v).
Definition set_CreatedAt (x : Time) (v : View) : View :=
  mkView (V_ID v) (V_State v) (V_StateVersion v) (V_Generation v) (V_RuntimeID v) (V_ProfileID v)
    (V_WorkspaceID v) (V_AuthorityMode v) (V_AuthorityIssuer v) x (V_UpdatedAt v).
Definition set_UpdatedAt (x : Time) (v : View) : View :=
  mkView (V_ID v) (V_State v) (V_StateVersion v) (V_Generation v) (V_RuntimeID v) (V_ProfileID v)
    (V_WorkspaceID v) (V_AuthorityMode v) (V_AuthorityIssuer v) (V_CreatedAt v) x.

Definition view_fields : list (field View) :=
  [("id", into_string set_ID);
   ("state", into_string set_State);
   ("state_version", into_uint set_StateVersion);
   ("execution_generation", into_uint set_Generation);
   ("agent_runtime_spec_id", into_string set_RuntimeID);
   ("runtime_profile_id", into_string set_ProfileID);
   ("workspace_id", into_string set_WorkspaceID);
   ("authority_mode", into_string set_AuthorityMode);
   ("authority_issuer", into_string set_AuthorityIssuer);
   ("created_at", into_time set_CreatedAt);
   ("updated_at", into_time set_UpdatedAt)].

Definition zeroView : View := mkView "" "" 0 0 "" "" "" "" "" zeroTime zeroTime.

Definition unmarshalView (raw : string) : option View := Unmarshal view_fields raw zeroView.

Definition created_json (state mode issuer : string) : jvalue :=
  JStruct [("state", JString state); ("authority_mode", JString mode); ("authority_issuer", JString issuer)].

Definition intent_json (i : ProvisioningIntent) : jvalue :=
  JStruct [("session_id", JString (I_SessionID i)); ("workspace_id", JString (I_WorkspaceID i));
           ("workspace_operation_id", JString (I_WorkspaceOperationID i));
           ("source_operation_id", JString (I_SourceOperationID i));
           ("request", request_json (I_Request i));
           ("principal_digest", JString (I_PrincipalDigest i));
           ("runtime_digest", JString (I_RuntimeDigest i)); ("profile_digest", JString (I_ProfileDigest i));
           ("implementation", raw_message (I_Implementation i));
           ("implementation_digest", JString (I_ImplementationDigest i));
           ("qualification", raw_message (I_Qualification i));
           ("policy_digest", JString (I_PolicyDigest i)); ("resolved_at", JTime (I_ResolvedAt i))].

(** ** Create *)

(** [access]: the answer is whether the policy allows it. *)
Inductive policy : Type -> Type :=
| Access (c : EventStream.Caller) (r : CreateRequest) (session : ID) : policy bool.

Abbreviation tx A := (prog (call policy) (result (failure CreateError) A)).

(** What the checks before the transaction prepare. *)
Record Prepared : Type := mkPrepared {
  P_RequestDigest : string;
  P_Now : Time;
  P_Operation : ID;
  P_SessionID : ID;
  P_WorkspaceID : ID;
  P_WorkspaceOp : ID;
  P_SourceOp : ID;
  P_EventID : ID;
  P_MessageID : ID;
  P_Candidate : Record_
}.

Section Create_.
Variable catalog : Catalog.
Variable caller : EventStream.Caller.
Variable key : string.
Variable r : CreateRequest.

Definition tenant : ID := EventStream.CTenantID caller.
Definition principal : string := EventStream.PrincipalDigest caller.

(** The reservation that was lost: the stored answer, disclosed under the policy. *)
Definition replay (record : Record_) : tx Result :=
  do! allowed <- trigger (Policy (Access caller r (resourceID record)));
  if negb allowed then Ret (Err (FApp ErrForbidden))
  else match response record with
  | None => Ret (Err (FApp ErrUnavailable))
  | Some resp =>
      if (Idempotency.state record != Succeeded)
         || (normalizationVersion record != "session-create-v1")
      then Ret (Err (FApp ErrUnavailable))
      else match unmarshalView (Idempotency.Payload resp) with
      | None => Ret (Err (FApp ErrUnavailable))
      | Some v => Ret (Ok (mkResult v true))
      end
  end.

(** The view of the new Session. *)
Definition new_view (p : Prepared) (s : Session.Session) (b : RuntimeBinding) : View :=
  mkView (P_SessionID p) (enum_string (Session.state s)) (stateVersion s) (executionGeneration s)
    (RuntimeID r) (ProfileID r) (P_WorkspaceID p) "local" (Session.AuthorityNamespace b) (P_Now p) (P_Now p).

Definition intent_of (p : Prepared) (res : Resolution) : ProvisioningIntent :=
  mkIntent (P_SessionID p) (P_WorkspaceID p) (P_WorkspaceOp p) (P_SourceOp p) r principal
    (RuntimeSpecDigest (RS_Binding res)) (RuntimeProfileDigest (RS_Binding res))
    (RS_Implementation res) (RS_ImplementationDigest res) (RS_Qualification res)
    (RS_PolicyDigest res) (P_Now p).

Definition created_event (p : Prepared) (v : View) : result EventError Event :=
  RuntimeEvent.New (P_EventID p) tenant (P_SessionID p) "" "" 1 0 "session.created" (P_Now p) (P_Now p)
    "agent-runtime" "Internal"
    (marshal (created_json (V_State v) (V_AuthorityMode v) (V_AuthorityIssuer v)))
    (mkCorrelation (P_Operation p) "" "") "session-lifetime" None.

Definition provisioning (p : Prepared) (payload : string) : result MessageError Message :=
  Outbox.New tenant (P_MessageID p)
    (mkEnvelope "session.provision.v1" "1" (P_EventID p) "session_creation" (P_Operation p) 1 payload ""
       (Digest payload)) (P_Now p) (P_Now p).

(** The reservation that was won. *)
Definition creation (p : Prepared) (record : Record_) : tx Result :=
  match Resolve catalog (RuntimeID r) (ProfileID r) with
  | None => Ret (Err (FApp ErrUnsupported))
  | Some res =>
      domain (Session.New tenant (P_SessionID p) (RS_Binding res) (P_Now p)) (fun s =>
      store (Sessions_Add s) (fun _ =>
      let v := new_view p s (RS_Binding res) in
      domain (created_event p v) (fun event =>
      store (Events_Append event) (fun _ =>
      match Marshal (intent_json (intent_of p res)) with
      | None => Ret (Err FOther)
      | Some payload =>
          domain (provisioning p payload) (fun message =>
          store (Outbox_Add message) (fun _ =>
          domain (Succeed (Some record)
                    (mkResponse 201 (marshal (view_json v)) ("/v1/sessions/" +:+ P_SessionID p))
                    (P_Operation p) (ownerFence record) (P_Now p)) (fun done =>
          store (Idempotency_Update done (ownerFence done)) (fun _ =>
          Ret (Ok (mkResult v false))))))
      end))))
  end.

(** The transaction's callback. *)
Definition work (p : Prepared) : tx Result :=
  do! allowed <- trigger (Policy (Access caller r ""));
  if negb allowed then Ret (Err (FApp ErrForbidden))
  else store (Idempotency_Reserve (P_Candidate p)) (fun rc =>
    let (record, created) := rc in
    if requestDigest record != P_RequestDigest p then Ret (Err (FApp ErrConflict))
    else if negb created then replay record
    else creation p record).

(** The error of the callback as the caller sees it. *)
Definition create_error (e : failure CreateError) : CreateError :=
  match e with
  | FApp ErrForbidden => ErrForbidden
  | FApp ErrUnsupported => ErrUnsupported
  | FApp ErrConflict => ErrConflict
  | FStore ErrRequestDigestMismatch => ErrConflict
  | _ => ErrUnavailable
  end.

Definition scope_of : Scope := mkScope principal CreateAction (Digest key).

Definition prepare (now : Time) (ids : list ID) : option Prepared :=
  match ids with
  | [operation; sessionID; workspaceID; workspaceOp; sourceOp; eventID; messageID] =>
      let digest := Digest (marshal (request_json r)) in
      match Idempotency.New tenant operation scope_of "session-create-v1" digest operation sessionID
              operation operation (Add now minute) (Add now year) now with
      | Err _ => None
      | Ok candidate =>
          Some (mkPrepared digest now operation sessionID workspaceID workspaceOp sourceOp eventID
                  messageID candidate)
      end
  | _ => None
  end.

Definition Create : prog (call policy) (result CreateError Result) :=
  if negb (is_ok (ParseID tenant)) || negb (match_string sha256_pattern principal)
  then Ret (Err ErrForbidden)
  else if negb (match_string key_pattern key) || negb (match_string id_pattern (RuntimeID r))
          || negb (match_string id_pattern (ProfileID r))
  then Ret (Err ErrInvalid)
  else if Kind (RSource r) != "empty" then Ret (Err ErrUnsupported)
  else if (SReference (RSource r) != "") || (SDigest (RSource r) != "") then Ret (Err ErrInvalid)
  else
    do! clock <- trigger Clock_Now;
    let now := UTC clock in
    if IsZero now then Ret (Err ErrUnavailable)
    else
      do! ids <- NewIDs 7 now;
      match ids with
      | None => Ret (Err ErrUnavailable)
      | Some ids =>
          match prepare now ids with
          | None => Ret (Err ErrUnavailable)
          | Some p =>
              do! result <- WithinTransaction tenant (work p);
              match result with
              | Err e => Ret (Err (create_error e))
              | Ok res => Ret (Ok res)
              end
          end
      end.

End Create_.

(** ** Lemmas *)

(** The four rows of a creation and the answer. *)
Record creation_of (catalog : Catalog) (caller : EventStream.Caller) (r : CreateRequest) (p : Prepared)
    (record : Record_) (s : Session.Session) (e : Event) (m : Message) (done : Record_) (v : View)
  : Prop := {
  co_session : exists res, Resolve catalog (RuntimeID r) (ProfileID r) = Some res
     /\ Session.New (tenant caller) (P_SessionID p) (RS_Binding res) (P_Now p) = Ok s
     /\ v = new_view r p s (RS_Binding res)
     /\ exists payload, Marshal (intent_json (intent_of caller r p res)) = Some payload
        /\ provisioning caller p payload = Ok m;
  co_event : created_event caller p v = Ok e;
  co_record : Succeed (Some record)
     (mkResponse 201 (marshal (view_json v)) ("/v1/sessions/" +:+ P_SessionID p))
     (P_Operation p) (ownerFence record) (P_Now p) = Ok done
}.

Lemma creation_run catalog caller r p record tr res :
  runs (creation catalog caller r p record) tr (Ok res) ->
  Replayed res = false /\ exists s e m done,
    creation_of catalog caller r p record s e m done (R_View res)
    /\ writes tr = [WSession s; WEvent e; WMessage m; WRecord done (ownerFence done)]
    /\ idems tr = [IUpdate done (ownerFence done) (Ok tt)].
Proof.
  unfold creation, domain, store. intros R. explore R.
  repeat match goal with u : () |- _ => destruct u end.
  intros ->. split; [done |]. do 4 eexists. split; [| split; reflexivity].
  constructor; cbn [R_View]; [| eassumption | eassumption]. eauto 10.
Qed.

(** What a replay discloses. *)
Definition recorded (record : Record_) (v : View) : Prop :=
  Idempotency.state record = Succeeded /\ normalizationVersion record = "session-create-v1"
  /\ exists resp, response record = Some resp /\ unmarshalView (Idempotency.Payload resp) = Some v.

Lemma replay_run caller r record tr res :
  runs (replay caller r record) tr (Ok res) ->
  Replayed res = true /\ recorded record (R_View res)
  /\ tr = [occurred (Policy (Access caller r (resourceID record))) true].
Proof.
  unfold replay. intros R. explore R. intros ->. simp_bool.
  split; [done |]. split; [| done]. split; [done |]. split; [done |]. eauto.
Qed.

(** The outcomes of the callback. *)
Lemma work_run catalog caller r p tr res :
  runs (work catalog caller r p) tr (Ok res) ->
  exists record rest,
    tr = [occurred (Policy (Access caller r "")) true;
          occurred (Idempotency_Reserve (P_Candidate p)) (Ok (record, negb (Replayed res)))] ++ rest
    /\ requestDigest record = P_RequestDigest p
    /\ if Replayed res
       then recorded record (R_View res)
            /\ rest = [occurred (Policy (Access caller r (resourceID record))) true]
       else exists s e m done,
            creation_of catalog caller r p record s e m done (R_View res)
            /\ writes rest = [WSession s; WEvent e; WMessage m; WRecord done (ownerFence done)]
            /\ idems rest = [IUpdate done (ownerFence done) (Ok tt)].
Proof.
  unfold work, store. intros R. cbn [pbind trigger runs] in R.
  destruct R as (allowed & tr1 & -> & R). destruct allowed; cbn [negb] in R; [| by destruct R].
  destruct R as (answer & tr2 & -> & R). destruct answer as [[record created] | e]; [| by destruct R].
  destruct (requestDigest record != _) eqn:D; [by destruct R |]. simp_bool.
  exists record, tr2. destruct created; cbn [negb] in R.
  - apply creation_run in R as (Rf & s & e & m & done_ & C & W & I). rewrite Rf. cbn [negb].
    split; [done |]. split; [done |]. eauto 10.
  - apply replay_run in R as (Rt & Rec & ->). by rewrite Rt.
Qed.

Lemma work_tx_free catalog caller r p : tx_free (work catalog caller r p).
Proof. unfold work, replay, creation. tx_free_auto. Qed.

(** A run of [Create] that was committed: its checks, its preparation and its callback,
    whose value is returned unless the answer to the commit was lost. *)
Lemma create_run catalog caller key r tr x :
  runs (Create catalog caller key r) tr x ->
  if committed tr then exists pre p inner res c,
    x = answered c ErrUnavailable res /\ took_effect c = true
    /\ validID (tenant caller) = true /\ match_string sha256_pattern (principal caller) = true
    /\ match_string key_pattern key = true /\ match_string id_pattern (RuntimeID r) = true
    /\ match_string id_pattern (ProfileID r) = true /\ RSource r = mkSource "empty" "" ""
    /\ (exists ids, prepare caller key r (P_Now p) ids = Some p
                    /\ Forall (fun i => validID i = true) ids)
    /\ is_utc (P_Now p)
    /\ Forall (fun ev => tx_event ev = false) pre /\ writes pre = [] /\ idems pre = []
    /\ runs (work catalog caller r p) inner (Ok res)
    /\ tr = pre ++ transacted (tenant caller) inner c
  else exists e, x = Err e.
Proof.
  unfold Create. intros R.
  destruct (_ || _) eqn:G1 in R; [destruct R as [-> ->]; cbn; eauto |].
  destruct (_ || _) eqn:G2 in R; [destruct R as [-> ->]; cbn; eauto |].
  destruct (Kind (RSource r) != "empty") eqn:G3; [destruct R as [-> ->]; cbn; eauto |].
  destruct (_ || _) eqn:G4 in R; [destruct R as [-> ->]; cbn; eauto |]. simp_bool.
  cbn [pbind trigger runs] in R. destruct R as (clock & tr1 & -> & R).
  destruct (IsZero (UTC clock)) eqn:Z; [destruct R as [-> ->]; cbn; eauto |].
  apply runs_bind in R as (t1 & t2 & ids & -> & R1 & R).
  apply NewIDs_run in R1 as (F & W & D & L). set (pre := occurred Clock_Now clock :: t1).
  assert (Fp : Forall (fun ev => tx_event ev = false) pre) by (by constructor).
  change (occurred Clock_Now clock :: t1 ++ t2) with (pre ++ t2). rewrite committed_after by done.
  destruct ids as [ids |]; [| destruct R as [-> ->]; cbn; eauto].
  destruct (prepare caller key r (UTC clock) ids) as [p |] eqn:Pp; [| destruct R as [-> ->]; cbn; eauto].
  apply runs_bind in R as (t3 & t4 & y & -> & R2 & R).
  assert (t4 = [] /\ x = match y with Err e => Err (create_error e) | Ok a => Ok a end) as [-> ->] by (by destruct y).
  clear R. rewrite app_nil_r. apply transaction_run in R2; [| apply work_tx_free].
  destruct (committed t3); [| destruct R2 as [e ->]; eauto].
  destruct R2 as (inner & res & c & -> & T & _ & R2 & _ & _ & ->). rewrite answered_map.
  assert (P_Now p = UTC clock) as Hn.
  { unfold prepare in Pp. repeat case_match; simplify_eq; done. }
  exists pre, p, inner, res, c. destruct L as [_ L].
  split_and!; try done; [| rewrite Hn; eauto | by rewrite Hn]. destruct (RSource r). cbn in *. congruence.
Qed.

(** One that returned a value was committed. *)
Lemma create_ok_committed catalog caller key r tr res :
  runs (Create catalog caller key r) tr (Ok res) -> committed tr = true.
Proof. intros R%create_run. destruct (committed tr); [done |]. by destruct R. Qed.

(** How the rows of a creation fit together. *)
Record consistent (caller : EventStream.Caller) (s : Session.Session) (e : Event) (m : Message)
    (done : Record_) (v : View) : Prop := {
  cs_session : Session.tenantID s = tenant caller /\ Session.id s = V_ID v
     /\ Session.state s = Provisioning /\ stateVersion s = 0 /\ executionGeneration s = 0
     /\ V_State v = "PROVISIONING";
  cs_event : RuntimeEvent.tenantID e = tenant caller /\ sessionID e = V_ID v /\ executionID e = ""
     /\ sequence e = 1 /\ typeName e = "session.created";
  cs_message : Outbox.tenantID m = tenant caller /\ Outbox.state m = Pending
     /\ EventID (Outbox.envelope m) = eventID e
     /\ AggregateID (Outbox.envelope m) = RequestID (correlation e)
     /\ PayloadDigest (Outbox.envelope m) = Digest (Outbox.Payload (Outbox.envelope m));
  cs_record : Idempotency.state done = Succeeded /\ exists payload,
     response done = Some (mkResponse 201 payload ("/v1/sessions/" +:+ V_ID v))
     /\ unmarshalView payload = Some v
}.

(** The view of a creation survives its encoding. *)
Lemma view_roundtrip v raw :
  ascii_text (V_ID v) -> ValidString (V_State v) = true -> is_u64 (V_StateVersion v) ->
  is_u64 (V_Generation v) -> ascii_text (V_RuntimeID v) -> ascii_text (V_ProfileID v) ->
  ascii_text (V_WorkspaceID v) -> ValidString (V_AuthorityMode v) = true ->
  ValidString (V_AuthorityIssuer v) = true -> is_utc (V_CreatedAt v) -> is_utc (V_UpdatedAt v) ->
  Marshal (view_json v) = Some raw -> unmarshalView raw = Some v.
Proof.
  intros A1 A2 U1 U2 A3 A4 A5 A6 A7 T1 T2 E. apply ascii_valid in A1, A3, A4, A5.
  unfold unmarshalView, view_json in *.
  rewrite (scalars_roundtrip view_fields _
    [set_ID (V_ID v); set_State (V_State v); set_StateVersion (V_StateVersion v);
     set_Generation (V_Generation v); set_RuntimeID (V_RuntimeID v); set_ProfileID (V_ProfileID v);
     set_WorkspaceID (V_WorkspaceID v); set_AuthorityMode (V_AuthorityMode v);
     set_AuthorityIssuer (V_AuthorityIssuer v); set_CreatedAt (UTC (V_CreatedAt v));
     set_UpdatedAt (UTC (V_UpdatedAt v))] raw zeroView E).
  - rewrite !UTC_of_utc by done. by destruct v.
  - scalars_auto.
  - done.
  - accepts_auto.
Qed.

Lemma binding_namespace_valid b x : validateBinding b = Ok x ->
  ValidString (Session.AuthorityNamespace b) = true.
Proof.
  unfold validateBinding. destruct (negb _) eqn:G; [discriminate |]. intros _.
  apply negb_false_iff in G. cbn [forallb] in G. rewrite !andb_true_iff in G. destruct G as (_ & G & _).
  rewrite BoundedString_equal_limits in G by lia. by destruct (ValidString _).
Qed.

Lemma creation_consistent catalog caller key r p ids record s e m done v :
  prepare caller key r (P_Now p) ids = Some p -> Forall (fun i => validID i = true) ids ->
  is_utc (P_Now p) -> match_string id_pattern (RuntimeID r) = true ->
  match_string id_pattern (ProfileID r) = true ->
  creation_of catalog caller r p record s e m done v -> consistent caller s e m done v.
Proof.
  intros Pp V U I1 I2 [(res & _ & N & -> & payload & M & Pm) Ev Su].
  unfold Session.New in N. ok_inv N. cbn [new_view V_ID V_State] in *.
  unfold created_event, RuntimeEvent.New in Ev. destruct (_ || _) eqn:G in Ev; [discriminate Ev |].
  injection Ev as <-. unfold provisioning, Outbox.New in Pm.
  destruct (_ || _) eqn:G' in Pm; [discriminate Pm |]. injection Pm as <-.
  apply succeed_done in Su as (S1 & S2 & _).
  constructor; cbn -[Digest]; try (split_and!; done).
  split; [done |]. eexists. split; [exact S2 |].
  assert (T : is_some (encode_time (P_Now p)) = true).
  { assert (is_some (Marshal (intent_json (intent_of caller r p res))) = true) as X by (by rewrite M).
    unfold intent_json in X. rewrite struct_encodes in X. cbn [forallb snd] in X. rewrite !andb_true_iff in X. apply X. }
  set (v := new_view _ _ _ _). assert (Mv : is_some (Marshal (view_json v)) = true).
  { unfold view_json. rewrite struct_encodes. cbn [forallb snd encode is_some andb v new_view V_CreatedAt V_UpdatedAt].
    by rewrite T. }
  unfold marshal. destruct (Marshal (view_json v)) as [raw |] eqn:Mr; [| discriminate Mv]. cbn [default].
  apply (view_roundtrip v); try done; cbn [v new_view V_ID V_RuntimeID V_ProfileID V_WorkspaceID V_AuthorityIssuer].
  - by apply validID_ascii.
  - by apply id_pattern_ascii.
  - by apply id_pattern_ascii.
  - apply validID_ascii. unfold prepare in Pp. repeat case_match; simplify_eq.
    rewrite !Forall_cons in V. rewrite <- Pp. cbn. tauto.
  - by apply binding_namespace_valid in Heqr0.
Qed.

(** ** Over the idempotency table *)

Lemma prepared_candidate caller key r now ids p : prepare caller key r now ids = Some p ->
  Forall (fun i => validID i = true) ids ->
  valid (P_Candidate p) = true /\ scope (P_Candidate p) = scope_of caller key
  /\ requestDigest (P_Candidate p) = P_RequestDigest p
  /\ P_RequestDigest p = Digest (marshal (request_json r))
  /\ normalizationVersion (P_Candidate p) = "session-create-v1"
  /\ Idempotency.createdAt (P_Candidate p) = UTC now
  /\ Idempotency.updatedAt (P_Candidate p) = UTC now /\ ownerFence (P_Candidate p) = 1.
Proof.
  intros Pp _. unfold prepare in Pp. repeat case_match; simplify_eq/=.
  match goal with N : Idempotency.New _ _ _ _ _ _ _ _ _ _ _ _ = Ok _ |- _ =>
    apply New_valid in N as (? & ? & ? & ? & ? & ? & ? & ? & ? & ? & ?) end.
  done.
Qed.

Lemma create_idems catalog caller key r tr x rows rows' :
  runs (Create catalog caller key r) tr x -> steps_rows rows tr = Some rows' -> committed tr = true ->
  exists res c p ids record t1, x = answered c ErrUnavailable res
    /\ prepare caller key r (P_Now p) ids = Some p
    /\ Forall (fun i => validID i = true) ids
    /\ Reserve (tenant caller) (r_committed rows) (Some (P_Candidate p))
       = (t1, Ok (record, negb (Replayed res)))
    /\ (if Replayed res then recorded record (R_View res) /\ r_committed rows' = t1
        else P_Now p = V_CreatedAt (R_View res) /\ exists done,
             Update (tenant caller) t1 (Some done) (ownerFence done) = (r_committed rows', Ok tt)
             /\ exists resp, Succeed (Some record) resp (P_Operation p) (ownerFence record) (P_Now p) = Ok done
                /\ unmarshalView (Idempotency.Payload resp) = Some (R_View res)).
Proof.
  intros R T Co. apply create_run in R. rewrite Co in R.
  destruct R as (pre & p & inner & res & c & -> & Tc & _ & _ & _ & I1 & I2 & _ & (ids & Pp & Vi) & U & F & _ & D & R & ->).
  clear Co. rewrite steps_rows_app, (neutral_rows pre F D) in T.
  pose proof (tx_free_run _ (work_tx_free catalog caller r p) _ _ R) as Fi.
  apply transaction_table in T; [| exact Fi | exact Tc].
  apply work_run in R as (record & rest & -> & _ & R). rewrite idems_app in T.
  cbn [idems flat_map idem_of app occurred idem_steps idem_step] in T.
  destruct (Reserve _ _ _) as [t1 r1] eqn:Rv. destruct (decide (r1 = _)) as [-> |] in T; [| discriminate T].
  exists res, c, p, ids, record, t1. split; [done |]. split; [done |]. split; [done |]. split; [done |]. destruct (Replayed res).
  - destruct R as [Rec ->]. cbn in T. by injection T as <-.
  - destruct R as (s & e & m & done_ & Co & _ & I).
    change (flat_map idem_of rest) with (idems rest) in T. rewrite I in T. cbn [idem_steps idem_step] in T.
    destruct (Update _ _ _ _) as [t2 u] eqn:Up. destruct (decide (u = _)) as [-> |] in T; [| discriminate T].
    injection T as <-. pose proof (creation_consistent _ _ _ _ _ _ _ _ _ _ _ _ Pp Vi U I1 I2 Co) as Cs.
    destruct Co as [(rs & _ & _ & Ev & _) _ Su]. split; [by rewrite Ev |]. exists done_. split; [done |].
    eexists. split; [exact Su |]. apply succeed_done in Su as (_ & S2 & _).
    destruct Cs as [_ _ _ (_ & payload & C2 & C3)]. rewrite S2 in C2. by injection C2 as -> _.
Qed.

(** After a successful [Create], the table is sound and holds the row that answers
    for it. *)
Lemma create_table catalog caller key r tr res rows rows' :
  sound (tenant caller) (r_committed rows) ->
  runs (Create catalog caller key r) tr (Ok res) -> steps_rows rows tr = Some rows' ->
  1000 <= nanos (V_CreatedAt (R_View res)) \/ Replayed res = true ->
  sound (tenant caller) (r_committed rows') /\ exists v resp row, row ∈ r_committed rows'
    /\ settled_row v resp row /\ scope v = scope_of caller key
    /\ requestDigest v = Digest (marshal (request_json r))
    /\ unmarshalView (Idempotency.Payload resp) = Some (R_View res).
Proof.
  intros S R T C. destruct (create_idems _ _ _ _ _ _ _ _ R T (create_ok_committed _ _ _ _ _ _ R))
    as (res' & c & p & ids & record & t1 & E & Pp & Vi & Rv & X). symmetry in E. apply answered_ok in E as [-> _].
  destruct (prepared_candidate _ _ _ _ _ _ Pp Vi) as (Vc & Sc & Dc & Dr & Nc & Cc & _).
  rewrite Dr in Dc. destruct (Replayed res) eqn:Rp; cbn [negb] in *.
  - destruct X as [(R1 & R2 & resp & R3 & R4) ->].
    apply Reserve_lost in Rv as (-> & Hr & Es & Ed & En); [| done].
    split; [done |]. exists (P_Candidate p), resp, record. split; [done |]. split; [by constructor | done].
  - destruct X as (Cn & done_ & Up & resp & Su & C3). destruct C as [C | C]; [| discriminate C].
    destruct (once_created (tenant caller) (r_committed rows) (r_committed rows') (P_Candidate p) record []
                resp (P_Operation p) (ownerFence record) (P_Now p) done_ (ownerFence done_))
      as (S' & row & Hr & St); try done.
    + constructor; [done |]. by rewrite Cc, Cn.
    + rewrite Sc. left.
    + apply lawful_nil.
    + cbn [app idem_steps idem_step]. rewrite Rv, decide_True, Up, decide_True by done. done.
    + eauto 10.
Qed.

(** ** Theorems *)

(** Creation is atomic: whatever the clock, the randomness, the policy and the
    stores answer, a run that is not committed is an error; a replay commits no write,
    and a creation commits exactly one Session, one event, one message and the settled
    record.  These agree on the tenant, the Session and the operation, the message
    carries the digest of its payload, and the record's stored response decodes to
    the very view that is returned, unless the answer to the commit was lost, which is
    reported as [ErrUnavailable]. *)
Theorem session_create_atomic catalog caller key r tr x
    (R : runs (Create catalog caller key r) tr x) :
  if committed tr then exists res c, x = answered c ErrUnavailable res /\ took_effect c = true
      /\ if Replayed res then writes tr = []
         else exists s e m done,
           writes tr = [WSession s; WEvent e; WMessage m; WRecord done (ownerFence done)]
           /\ consistent caller s e m done (R_View res)
  else exists e, x = Err e.
Proof.
  apply create_run in R. destruct (committed tr); [| done].
  destruct R as (pre & p & inner & res & c & -> & T & _ & _ & _ & I1 & I2 & _ & (ids & Pp & Vi) & U & F & W & D & R & ->).
  exists res, c. split; [done |]. split; [done |]. unfold transacted. rewrite !writes_app, W.
  apply work_run in R as (record & rest & -> & _ & R). rewrite writes_app. destruct (Replayed res).
  - by destruct R as [_ ->].
  - destruct R as (s & e & m & done_ & Co & Wr & _). rewrite Wr. exists s, e, m, done_.
    split; [done |]. by apply (creation_consistent catalog caller key r p ids record).
Qed.

(** Nothing is disclosed without permission: the reservation, which would reveal a
    key conflict, is made only after the policy allowed the caller to create, and a
    stored answer is returned only after it allowed the caller that very Session. *)
Theorem session_create_permission catalog caller key r tr res
    (R : runs (Create catalog caller key r) tr (Ok res)) :
  exists before candidate record after,
    tr = before ++ [occurred (Policy (Access caller r "")) true;
           occurred (Idempotency_Reserve candidate) (Ok (record, negb (Replayed res)))] ++ after
    /\ (Replayed res = true ->
        occurred (Policy (Access caller r (resourceID record))) true ∈ after
        /\ recorded record (R_View res)).
Proof.
  pose proof (create_ok_committed _ _ _ _ _ _ R) as Co. apply create_run in R. rewrite Co in R.
  destruct R as (pre & p & inner & res' & c & E & _ & _ & _ & _ & _ & _ & _ & _ & _ & _ & _ & _ & R & ->).
  symmetry in E. apply answered_ok in E as [-> ->]. apply work_run in R as (record & rest & -> & _ & R).
  exists (pre ++ [occurred Tx_Begin true; occurred (Tx_SetTenant (tenant caller)) true]), (P_Candidate p),
    record, (rest ++ [occurred Tx_Commit CommitDone]). unfold transacted. rewrite <- !app_assoc. split; [done |].
  intros E. rewrite E in R. destruct R as [Rec ->]. split; [left | done].
Qed.

(** C1: Exactly once: after [Create] succeeded under a key, any later [Create] of the
    same caller under the same key, whatever happened to the idempotency table in
    between, with whatever catalog, policy, clock and stores, either fails or
    replays the very same view; it never creates again, and it succeeds only for
    the same request. *)
Theorem session_create_once {S1 S2} catalog1 catalog2 caller key r1 r2
    (env1 : forall B, S1 -> call policy B -> S1 * B) (env2 : forall B, S2 -> call policy B -> S2 * B)
    s1 s2 rows1 rows2 st1 st2 res1 x2 ops
    (S : sound (tenant caller) (r_committed rows1))
    (H1 : run_state (records_handler env1) (s1, rows1) (Create catalog1 caller key r1) = (st1, Ok res1))
    (C : 1000 <= nanos (V_CreatedAt (R_View res1)) \/ Replayed res1 = true)
    (V : Forall op_valid ops)
    (B : r_committed rows2 = apply_all (tenant caller) (r_committed (snd st1)) ops)
    (H2 : run_state (records_handler env2) (s2, rows2) (Create catalog2 caller key r2) = (st2, x2)) :
  match x2 with
  | Err _ => True
  | Ok res2 => Replayed res2 = true /\ R_View res2 = R_View res1
               /\ Digest (marshal (request_json r2)) = Digest (marshal (request_json r1))
  end /\ r_committed (snd st2) = r_committed rows2.
Proof.
  apply run_records in H1 as (tr1 & R1 & T1), H2 as (tr2 & R2 & T2).
  apply (create_table catalog1 caller key r1 tr1 res1 rows1 (snd st1) S) in R1
    as (S1' & v & resp & row & Hr & St & Sc & Dg & Pv); [| done | done].
  destruct (committed tr2) eqn:Co; [| apply create_run in R2; rewrite Co in R2; destruct R2 as [e ->];
                                     split; [done | by apply (uncommitted_table tr2)]].
  destruct (create_idems _ _ _ _ _ _ _ _ R2 T2 Co) as (res2 & c & p & ids & record & t2 & -> & Pp & Vi & Rv & X).
  destruct (prepared_candidate _ _ _ _ _ _ Pp Vi) as (_ & Sp & Dp & Dr & _).
  rewrite B in Rv.
  destruct (once_again _ _ _ v (P_Candidate p) resp row _ _ _ S1' Hr St ltac:(rewrite Sc; left) V ltac:(congruence) Rv)
    as (Rp & Er & Et & Dd).
  subst record t2. apply negb_false_iff in Rp. rewrite Rp in X. destruct X as [(_ & _ & resp' & X1 & X2) X3].
  rewrite (st_response _ _ _ St) in X1. injection X1 as <-. rewrite X3. split; [| done].
  unfold answered. destruct (reported c); [| done]. split_and!; [done | congruence |].
  by rewrite <- Dg, <- Dd, Dp, Dr.
Qed.

(** ** Witnesses *)

(** An environment in which everything succeeds, at a given clock reading. *)
Definition ex_env (now : Time) : forall B, unit -> call policy B -> unit * B :=
  fun B _ c => (tt,
    match c in call _ B return B with
    | Clock_Now => now
    | Entropy => Some "0123456789abcdef"
    | Tx_Begin | Tx_SetTenant _ => true
    | Tx_Commit => CommitDone
    | Tx_Rollback => tt
    | Idempotency_Reserve v => Ok (v, true)
    | Idempotency_Update _ _ => Ok tt
    | Sessions_Add _ | Sessions_Activate _ _ _ | Executions_Add _ | Executions_AddInput _ _ _
    | Executions_AddSignal _ | LocalGrants_Add _ | Events_Append _ | Outbox_Add _ => Ok tt
    | Sessions_Get _ | Sessions_GetForUpdate _ => Err StoreNotFound
    | Executions_Get _ | Executions_GetForUpdate _ => Err StoreNotFound
    | LocalGrants_Get _ => Err StoreNotFound
    | Events_NextSequence _ => Ok 1
    | Policy p => match p in policy B return B with Access _ _ _ => true end
    end).

Definition ex_answers (now : Time) : forall B, call policy B -> B := fun B c => snd (ex_env now B tt c).

Definition ex_caller : EventStream.Caller := EventStream.mkCaller id1 digest_a.
Definition ex_request : CreateRequest := mkCreateRequest "codex" "dev" (mkSource "empty" "" "").
Definition ex_key : string := "create-session-0001".

Definition ex_create : prog (call policy) (result CreateError Result) :=
  Create ex_catalog ex_caller ex_key ex_request.

(** The identifier all draws of the fixed randomness yield. *)
Definition ex_id (now : Time) : ID :=
  match NewIDFrom now (Some (to_bytes "0123456789abcdef")) with Ok i => i | Err _ => "" end.

Definition ex_view : View :=
  mkView (ex_id (at_second 0)) "PROVISIONING" 0 0 "codex" "dev" (ex_id (at_second 0)) "local"
    "thinkpixelar/local" (at_second 0) (at_second 0).

Lemma ex_created : snd (execute (ex_answers (at_second_local 0)) ex_create) = Ok (mkResult ex_view false).
Proof. vm_compute. reflexivity. Qed.

Lemma session_create_atomic_witness :
  exists tr s e m done, runs ex_create tr (Ok (mkResult ex_view false))
    /\ writes tr = [WSession s; WEvent e; WMessage m; WRecord done (ownerFence done)]
    /\ consistent ex_caller s e m done ex_view.
Proof.
  pose proof (execute_runs (ex_answers (at_second_local 0)) ex_create) as R. rewrite ex_created in R.
  assert (C : committed (fst (execute (ex_answers (at_second_local 0)) ex_create)) = true) by exact (create_ok_committed _ _ _ _ _ _ R).
  pose proof (session_create_atomic ex_catalog ex_caller ex_key ex_request _ _ R) as H. rewrite C in H.
  destruct H as (res & c & E & _ & H). symmetry in E. apply answered_ok in E as [-> _].
  destruct H as (s & e & m & done_ & H). exists (fst (execute (ex_answers (at_second_local 0)) ex_create)), s, e, m, done_.
  exact (conj R H).
Defined.

Lemma session_create_permission_witness :
  exists tr before candidate record after,
    tr = before ++ [occurred (Policy (Access ex_caller ex_request "")) true;
           occurred (Idempotency_Reserve candidate) (Ok (record, true))] ++ after.
Proof.
  pose proof (execute_runs (ex_answers (at_second_local 0)) ex_create) as R. rewrite ex_created in R.
  destruct (session_create_permission ex_catalog ex_caller ex_key ex_request _ _ R)
    as (b & c & rec & a & E & _).
  exists (fst (execute (ex_answers (at_second_local 0)) ex_create)), b, c, rec, a. exact E.
Defined.

Definition ex_rows : Rows := mkRows [] [] "".

(** A creation, and an hour later, under another catalog, the same request. *)
Lemma ex_runs : exists st1 st2 : unit * Rows,
  run_state (records_handler (ex_env (at_second_local 0))) (tt, ex_rows) ex_create
    = (st1, Ok (mkResult ex_view false))
  /\ run_state (records_handler (ex_env (at_second 3600))) (tt, snd st1)
       (Create ∅ ex_caller ex_key ex_request) = (st2, Ok (mkResult ex_view true)).
Proof.
  assert (E1 : snd (run_state (records_handler (ex_env (at_second_local 0))) (tt, ex_rows) ex_create)
               = Ok (mkResult ex_view false)) by (vm_compute; reflexivity).
  assert (E2 : snd (run_state (records_handler (ex_env (at_second 3600)))
                      (tt, snd (fst (run_state (records_handler (ex_env (at_second_local 0))) (tt, ex_rows)
                                       ex_create))) (Create ∅ ex_caller ex_key ex_request))
               = Ok (mkResult ex_view true)) by (vm_compute; reflexivity).
  destruct (run_state _ (tt, ex_rows) _) as [st1 x1]. cbn [fst snd] in *. subst x1. exists st1.
  destruct (run_state _ (tt, snd st1) _) as [st2 x2]. cbn [fst snd] in *. subst x2. by exists st2.
Qed.

Lemma session_create_once_witness : exists st1 st2 : unit * Rows,
  run_state (records_handler (ex_env (at_second 3600))) (tt, snd st1)
    (Create ∅ ex_caller ex_key ex_request) = (st2, Ok (mkResult ex_view true))
  /\ (true = true /\ ex_view = ex_view
      /\ Digest (marshal (request_json ex_request)) = Digest (marshal (request_json ex_request)))
  /\ r_committed (snd st2) = r_committed (snd st1).
Proof.
  destruct ex_runs as (st1 & st2 & E1 & E2). exists st1, st2. split; [exact E2 |].
  refine (session_create_once ex_catalog ∅ ex_caller ex_key ex_request ex_request
            (ex_env (at_second_local 0)) (ex_env (at_second 3600)) tt tt ex_rows (snd st1)
            st1 st2 (mkResult ex_view false) (Ok (mkResult ex_view true)) [] _ E1 _ _ _ E2).
  - constructor; constructor.
  - left. vm_compute. discriminate.
  - constructor.
  - reflexivity.
Defined.
