(* ===== verification/AuthorityAdmission.v ===== *)
(** * adapters/authority/local/admission.go: issuing a grant

    [admit_with], the code's [admit], reserves an idempotency record for the request
    and either replays the recorded grant or evaluates the policy against the stored
    Session, and writes the grant with the settled record; [Admit] runs it in a
    transaction of its own, [AdmitInTransaction] in the caller's.  The encoding of
    grants and admissions is a parameter, used only through its bytes.  Proved for
    every answer of the clock, the randomness, the stores and the commit: a run that
    commits nothing leaves no write; a fresh grant is the policy's decision on the Session that was read,
    stored under the digest of exactly its bytes together with a record that replays
    these bytes; and a replay writes nothing and returns what the record holds. *)

From Stdlib Require Import ZArith Bool Lia.
From stdpp Require Import base strings list gmap.
From S2P Require Import Prelude Regex GoStd Sha256 Primitives Interaction RuntimeProfile.
From S2P Require Import Session Outbox RuntimeEvent LocalAuthority Idempotency IdempotencyStore.
From S2P Require Import Repositories.

Section Admission.
Context {P : Type -> Type}.

(** [jsoncanonicalizer.Transform], a third-party package. *)
Variable Transform : string -> option string.
(** [json.Marshal] of the admission's caller and request, and of a grant;
    [json.Unmarshal] of a grant. *)
Variable marshalAdmission : Caller -> Request -> option string.
Variable marshalGrant : Grant -> option string.
Variable unmarshalGrant : string -> option Grant.

Abbreviation tx A := (prog (call P) (result (failure AuthorityError) A)).

(** The guards before the clock is read. *)
Definition admissible (a : Authority) (c : Caller) (r : Request) : bool :=
  negb (negb (validID (CTenantID c)) || negb (match_string sha256_pattern (CPrincipalDigest c))
        || negb (validID (RSessionID r)) || negb (match_string sha256_pattern (RKeyDigest r))
        || negb (match_string sha256_pattern (RRequestDigest r)) || (RGeneration r =? 0)
        || (max_int64 <? RGeneration r) || (max_int64 <? RSessionVersion r)
        || negb (subset (RCapabilities r) ["shell"; "process"; "fork"])
        || (128 <? len (RProfile r)) || (128 <? len (RNetwork r)) || (16 <? len (RArchitecture r))
        || ((0 <? Z.of_nat (length (Tenants (config a))))
            && negb (contains (Tenants (config a)) (CTenantID c)))
        || ((0 <? Z.of_nat (length (Principals (config a))))
            && negb (contains (Principals (config a)) (CPrincipalDigest c)))).

(** Replay returns the original snapshot. *)
Definition replay_grant (record : Record_) : tx Grant :=
  match response record with
  | None => Ret (Err (FApp ErrAuthorityUnavailable))
  | Some resp =>
      if Idempotency.state record != Succeeded then Ret (Err (FApp ErrAuthorityUnavailable))
      else match unmarshalGrant (Idempotency.Payload resp) with
      | None => Ret (Err (FApp ErrAuthorityUnavailable))
      | Some g => Ret (Ok g)
      end
  end.

(** Issue and record a grant. *)
Definition issue (a : Authority) (c : Caller) (r : Request) (i : ID) (now : Time) (record : Record_)
  : tx Grant :=
  do! got <- trigger (Sessions_Get (RSessionID r));
  match got with
  | Err StoreNotFound => Ret (Err (FApp ErrDenied))
  | Err e => Ret (Err (FStore e))
  | Ok s =>
      match evaluate Transform a c r (Some s) i now with
      | Err e => Ret (Err (FApp e))
      | Ok g =>
          match marshalGrant g with
          | None => Ret (Err (FApp ErrDenied))
          | Some payload =>
              if 65536 <? len payload then Ret (Err (FApp ErrDenied))
              else
                store (LocalGrants_Add (mkGrantRecord (GID g) (GSessionID g) payload (Digest payload) "" 0))
                  (fun _ =>
                domain (Succeed (Some record) (mkResponse 201 payload (GID g)) i (ownerFence record) now)
                  (fun done =>
                store (Idempotency_Update done (ownerFence done)) (fun _ => Ret (Ok g))))
          end
      end
  end.

Definition admit_work (a : Authority) (c : Caller) (r : Request) (i : ID) (now : Time)
    (digest : string) (candidate : Record_) : tx Grant :=
  store (Idempotency_Reserve candidate) (fun rc =>
    let (record, created) := rc in
    if requestDigest record != digest then Ret (Err (FApp ErrAuthorityConflict))
    else if negb created then replay_grant record
    else issue a c r i now record).

(** The callback's error as the caller sees it. *)
Definition admit_error (e : failure AuthorityError) : AuthorityError :=
  match e with
  | FApp ErrDenied => ErrDenied
  | FApp ErrAuthorityConflict | FStore ErrRequestDigestMismatch | FStore StoreConflict =>
      ErrAuthorityConflict
  | _ => ErrAuthorityUnavailable
  end.

(** The caller's deadline, normalised. *)
Definition utc_caller (c : Caller) : Caller :=
  LocalAuthority.mkCaller (CTenantID c) (CPrincipalDigest c) (UTC (CDeadline c)).

(** Telemetry around [admit_with] is left out. *)
Definition admit_with (a : Authority) (c : Caller) (r : Request) (transact : tx Grant -> tx Grant)
  : prog (call P) (result AuthorityError Grant) :=
  if negb (admissible a c r) then Ret (Err ErrDenied)
  else
    let c := utc_caller c in
    do! clock <- trigger Clock_Now;
    let now := UTC clock in
    if IsZero now then Ret (Err ErrAuthorityUnavailable)
    else match marshalAdmission c r with
    | None => Ret (Err ErrDenied)
    | Some raw =>
        let digest := Digest raw in
        do! drawn <- NewID now;
        match drawn with
        | Err _ => Ret (Err ErrAuthorityUnavailable)
        | Ok i =>
            match Idempotency.New (CTenantID c) i
                    (mkScope (CPrincipalDigest c) "authority.local.admit.v1" (RKeyDigest r))
                    "local-admission-v1" digest i (RSessionID r) i i (Add now minute)
                    (Add now (MaximumDuration (config a) + day)) now with
            | Err _ => Ret (Err ErrAuthorityUnavailable)
            | Ok candidate =>
                do! result <- transact (admit_work a c r i now digest candidate);
                match result with
                | Err e => Ret (Err (admit_error e))
                | Ok g => Ret (Ok g)
                end
            end
        end
    end.

Definition Admit (a : Authority) (c : Caller) (r : Request)
  : prog (call P) (result AuthorityError Grant) :=
  admit_with a c r (WithinTransaction (CTenantID c)).

Definition AdmitInTransaction (a : Authority) (c : Caller) (r : Request)
  : prog (call P) (result AuthorityError Grant) := admit_with a c r (fun work => work).

(** ** Lemmas *)

(** A grant that was issued and the two rows it left. *)
Record issued (a : Authority) (c : Caller) (r : Request) (g : Grant) (row : GrantRecord) (done : Record_)
  : Prop := {
  is_decision : exists s i clock,
     evaluate Transform a (utc_caller c) r (Some s) i (UTC clock) = Ok g /\ IsZero clock = false;
  is_row : marshalGrant g = Some (Rec_Snapshot row) /\ Rec_Digest row = Digest (Rec_Snapshot row)
     /\ Rec_ID row = GID g /\ Rec_SessionID row = GSessionID g /\ len (Rec_Snapshot row) <= 65536;
  is_record : Idempotency.state done = Succeeded
     /\ response done = Some (mkResponse 201 (Rec_Snapshot row) (GID g))
}.

(** What a replay rests on. *)
Definition replays (record : Record_) (g : Grant) : Prop :=
  Idempotency.state record = Succeeded
  /\ exists resp, response record = Some resp /\ unmarshalGrant (Idempotency.Payload resp) = Some g.

Lemma admit_work_run a c r i clock digest candidate tr g :
  IsZero (UTC clock) = false ->
  runs (admit_work a (utc_caller c) r i (UTC clock) digest candidate) tr (Ok g) ->
  exists record created,
    reservations tr = [(record, created)] /\ requestDigest record = digest
    /\ if created then exists row done, issued a c r g row done
         /\ writes tr = [WGrant row; WRecord done (ownerFence done)]
       else replays record g /\ writes tr = [].
Proof.
  unfold admit_work, issue, replay_grant, store, domain. intros Z R. explore R; simp_bool; intros _.
  - eexists _, false. split; [reflexivity |]. split; [done |]. split; [| done]. split; [done |]. eauto.
  - eexists _, true. split; [reflexivity |]. split; [done |]. eexists _, _. split; [| reflexivity].
    match goal with S : Succeed _ _ _ _ _ = Ok _ |- _ => apply succeed_done in S as (S1 & S2 & _) end.
    constructor; cbn [Rec_Snapshot Rec_Digest Rec_ID Rec_SessionID]; [by eauto 10 | | done].
    split_and!; try done. lia.
Qed.

Lemma admit_work_tx_free a c r i now digest candidate :
  tx_free (admit_work a c r i now digest candidate).
Proof. unfold admit_work, issue, replay_grant. tx_free_auto. Qed.

(** A run: an error before any transaction, or the guards held and the callback ran under
    its transaction. *)
Lemma admit_with_run a c r transact tr x :
  runs (admit_with a c r transact) tr x ->
  (Forall (fun ev => tx_event ev = false) tr /\ exists e, x = Err e)
  \/ exists i clock raw candidate before inner y,
    x = match y with Err e => Err (admit_error e) | Ok g => Ok g end
    /\ admissible a c r = true /\ IsZero (UTC clock) = false /\ marshalAdmission (utc_caller c) r = Some raw
    /\ Forall (fun ev => tx_event ev = false) before /\ writes before = [] /\ reservations before = []
    /\ runs (transact (admit_work a (utc_caller c) r i (UTC clock) (Digest raw) candidate)) inner y
    /\ tr = before ++ inner.
Proof.
  unfold admit_with. intros R.
  destruct (admissible a c r) eqn:A; cbn [negb] in R; [| destruct R as [-> ->]; left; eauto].
  cbn [pbind trigger runs] in R. destruct R as (clock & tr1 & -> & R).
  destruct (IsZero (UTC clock)) eqn:Z; [destruct R as [-> ->]; left; split; [by repeat constructor | eauto] |].
  destruct (marshalAdmission _ _) as [raw |] eqn:M; [| destruct R as [-> ->]; left; split; [by repeat constructor | eauto]].
  cbn [NewID pbind trigger runs] in R. destruct R as (random & tr2 & -> & R).
  destruct (NewIDFrom _ _) as [i |]; [| destruct R as [-> ->]; left; split; [by repeat constructor | eauto]].
  destruct (Idempotency.New _ _ _ _ _ _ _ _ _ _ _ _) as [candidate |];
    [| destruct R as [-> ->]; left; split; [by repeat constructor | eauto]].
  apply runs_bind in R as (inner & rest & y & -> & R1 & R). right.
  assert (rest = [] /\ x = match y with Err e => Err (admit_error e) | Ok g => Ok g end) as [-> ->] by (by destruct y).
  rewrite app_nil_r.
  exists i, clock, raw, candidate, [occurred Clock_Now clock; occurred Entropy random], inner, y.
  split_and!; try done. repeat constructor.
Qed.

(** A successful run. *)
Lemma admit_run a c r transact tr g :
  runs (admit_with a c r transact) tr (Ok g) ->
  exists i clock raw candidate before inner,
    admissible a c r = true /\ IsZero (UTC clock) = false /\ marshalAdmission (utc_caller c) r = Some raw
    /\ Forall (fun ev => tx_event ev = false) before /\ writes before = [] /\ reservations before = []
    /\ runs (transact (admit_work a (utc_caller c) r i (UTC clock) (Digest raw) candidate)) inner (Ok g)
    /\ tr = before ++ inner.
Proof.
  intros [(_ & e & E) | (i & clock & raw & candidate & before & inner & y & E & H)]%admit_with_run; [discriminate E |].
  destruct y; [| discriminate E]. injection E as ->. by exists i, clock, raw, candidate, before, inner.
Qed.

(** ** Theorem *)

(** Issuance is atomic: whatever the clock, the randomness and the stores answer, a run
    that is not committed is an error; and one that is commits either exactly two rows, the
    grant that the policy decided on the stored Session, under the digest of its own
    bytes, and the record that replays these very bytes, or no row at all, when the
    reservation was lost to a settled record of the same request, whose stored grant
    is then the answer, unless the answer to the commit was lost. *)
Theorem authority_admit_atomic a c r tr x (R : runs (Admit a c r) tr x) :
  if committed tr then exists g cm, x = answered cm ErrAuthorityUnavailable g /\ took_effect cm = true
      /\ admissible a c r = true
      /\ exists raw record created,
           marshalAdmission (utc_caller c) r = Some raw
           /\ reservations tr = [(record, created)] /\ requestDigest record = Digest raw
           /\ if created then exists row done, issued a c r g row done
                /\ writes tr = [WGrant row; WRecord done (ownerFence done)]
              else replays record g /\ writes tr = []
  else exists e, x = Err e.
Proof.
  apply admit_with_run in R
    as [[F X] | (i & clock & raw & candidate & before & inner & y & -> & A & Z & M & F & W & V & R & ->)];
    [by rewrite (tx_free_uncommitted tr F) |].
  rewrite committed_after by done. apply transaction_run in R; [| apply admit_work_tx_free].
  destruct (committed inner); [| destruct R as [e ->]; eauto].
  destruct R as (inner' & g & cm & -> & T & _ & R & W' & V' & _). rewrite answered_map.
  exists g, cm. split; [done |]. split; [done |]. split; [done |].
  apply admit_work_run in R as (record & created & Rv & Rd & X); [| done].
  exists raw, record, created. rewrite writes_app, reservations_app, W, V, W', V'. done.
Qed.

End Admission.

(** ** Witness *)

(** Answers under which everything succeeds, with the Session ready. *)
Definition ex_issue_answers {P : Type -> Type} (policy : forall B, P B -> B) : forall B, call P B -> B :=
  fun B c =>
    match c in call _ B return B with
    | Clock_Now => at_second 10
    | Entropy => Some "0123456789abcdef"
    | Tx_Begin | Tx_SetTenant _ => true
    | Tx_Commit => CommitDone
    | Tx_Rollback => tt
    | Idempotency_Reserve v => Ok (v, true)
    | Idempotency_Update _ _ => Ok tt
    | Sessions_Add _ | Sessions_Activate _ _ _ | Executions_Add _ | Executions_AddInput _ _ _
    | Executions_AddSignal _ | LocalGrants_Add _ | Events_Append _ | Outbox_Add _ => Ok tt
    | Sessions_Get _ | Sessions_GetForUpdate _ => Ok ex_session
    | Executions_Get _ | Executions_GetForUpdate _ => Err StoreNotFound
    | LocalGrants_Get _ => Err StoreNotFound
    | Events_NextSequence _ => Ok 1
    | Policy p => policy _ p
    end.

Inductive no_policy : Type -> Type := .

Definition ex_admit : prog (call no_policy) (result AuthorityError Grant) :=
  Admit ex_transform (fun _ _ => Some "{}") ex_marshal_grant (fun _ => None) ex_authority ex_caller ex_request.

Definition ex_no_policy : forall B, no_policy B -> B := fun B p => match p with end.

Lemma ex_admitted : is_ok (snd (execute (ex_issue_answers ex_no_policy) ex_admit)) = true.
Proof. vm_compute. reflexivity. Qed.

Lemma authority_admit_atomic_witness :
  exists tr g row done, runs ex_admit tr (Ok g)
    /\ issued ex_transform ex_marshal_grant ex_authority ex_caller ex_request g row done
    /\ writes tr = [WGrant row; WRecord done (ownerFence done)].
Proof.
  pose proof (execute_runs (ex_issue_answers ex_no_policy) ex_admit) as R. pose proof ex_admitted as E.
  assert (V : reservations (fst (execute (ex_issue_answers ex_no_policy) ex_admit)) <> []
              /\ forallb snd (reservations (fst (execute (ex_issue_answers ex_no_policy) ex_admit))) = true)
    by (split; [vm_compute; discriminate | vm_compute; reflexivity]).
  destruct (snd (execute (ex_issue_answers ex_no_policy) ex_admit)) as [g |]; [| discriminate E].
  assert (C : committed (fst (execute (ex_issue_answers ex_no_policy) ex_admit)) = true) by (vm_compute; reflexivity).
  pose proof (authority_admit_atomic ex_transform (fun _ _ => Some "{}") ex_marshal_grant (fun _ => None)
              ex_authority ex_caller ex_request _ _ R) as H. rewrite C in H.
  destruct H as (g' & cm & Eg & _ & _ & raw & record & created & _ & Rv & _ & X).
  symmetry in Eg. apply answered_ok in Eg as [-> _].
  rewrite Rv in V. destruct V as [_ V]. cbn in V. destruct created; [| discriminate V].
  destruct X as (row & done_ & I & W).
  exists (fst (execute (ex_issue_answers ex_no_policy) ex_admit)), g, row, done_.
  exact (conj R (conj I W)).
Defined.
