(* ===== verification/ExecutionBinding.v ===== *)
(** * app/execution/binding.go: the grant an Execution is bound to

    An Execution keeps only a reference to its grant, the grant's digest and the
    evidence of its agent runtime.  [verifyLocalBinding] reconstructs the grant from
    the stored snapshot and refuses it unless every link agrees; it is used before
    an admission commits and whenever the grant is loaded again.  The encoding of
    grants and JSON canonicalisation are parameters.  Proved: what a verified
    binding guarantees; and that a binding verified once verifies again, to the same
    grant, after any later lifecycle steps of Session and Execution, after the store
    rounded the times and reordered the evidence, and after the grant was settled. *)

From Stdlib Require Import ZArith Bool Lia.
From stdpp Require Import base strings list.
From S2P Require Import Prelude Regex GoStd JsonDecoder JsonEncode JsonUnmarshal.
From S2P Require Import Primitives Interaction RuntimeProfile.
From S2P Require Import Session Execution Outbox RuntimeEvent LocalAuthority EventStream Idempotency.
From S2P Require Import IdempotencyStore Repositories Sha256.

(** ** Errors of the package *)

Inductive ExecError : Type :=
| ErrInvalid | ErrNotFound | ErrConflict | ErrUnsupported | ErrDenied | ErrUnavailable
| ErrInvalidBinding.

#[export] Instance ExecError_eq_dec : EqDecision ExecError.
Proof. solve_decision. Defined.

Definition LocalMode : string := "local".
Definition LocalIssuer : string := "thinkpixelar/local".

(** [Time.Truncate]: down to a multiple of [d] since the zero time. *)
Definition Truncate (t : Time) (d : Z) : Time :=
  if d <=? 0 then t else mkTime (nanos t - nanos t mod d) (loc t).

Definition microsecond : Z := 1000.

(** ** The agent runtime as evidence *)

Definition runtime_json (b : RuntimeBinding) : jvalue :=
  JStruct
    [("AuthorityMode", JString (Session.AuthorityMode b));
     ("AuthorityNamespace", JString (Session.AuthorityNamespace b));
     ("AgentID", JString (Session.AgentID b));
     ("AgentVersionID", JString (Session.AgentVersionID b));
     ("RuntimeSpecSchemaVersion", JString (RuntimeSpecSchemaVersion b));
     ("RuntimeSpec", JBytes (RuntimeSpec b));
     ("RuntimeSpecDigest", JString (RuntimeSpecDigest b));
     ("RuntimeProfileSchemaVersion", JString (RuntimeProfileSchemaVersion b));
     ("RuntimeProfileSnapshot", JBytes (RuntimeProfileSnapshot b));
     ("RuntimeProfileDigest", JString (RuntimeProfileDigest b))].

Definition as_bytes : JsonUnmarshal.jtree -> string -> option string := into_bytes (fun s _ => s).

Definition decode_RuntimeBinding (t : JsonUnmarshal.jtree) (a : RuntimeBinding) : option RuntimeBinding :=
  members t a (fun ms =>
    let names := ["AuthorityMode"; "AuthorityNamespace"; "AgentID"; "AgentVersionID";
                  "RuntimeSpecSchemaVersion"; "RuntimeSpec"; "RuntimeSpecDigest";
                  "RuntimeProfileSchemaVersion"; "RuntimeProfileSnapshot"; "RuntimeProfileDigest"] in
    m ← JsonUnmarshal.get as_string names ms "AuthorityMode" (Session.AuthorityMode a);
    n ← JsonUnmarshal.get as_string names ms "AuthorityNamespace" (Session.AuthorityNamespace a);
    i ← JsonUnmarshal.get as_string names ms "AgentID" (Session.AgentID a);
    v ← JsonUnmarshal.get as_string names ms "AgentVersionID" (Session.AgentVersionID a);
    sv ← JsonUnmarshal.get as_string names ms "RuntimeSpecSchemaVersion" (RuntimeSpecSchemaVersion a);
    s ← JsonUnmarshal.get as_bytes names ms "RuntimeSpec" (RuntimeSpec a);
    sd ← JsonUnmarshal.get as_string names ms "RuntimeSpecDigest" (RuntimeSpecDigest a);
    pv ← JsonUnmarshal.get as_string names ms "RuntimeProfileSchemaVersion" (RuntimeProfileSchemaVersion a);
    p ← JsonUnmarshal.get as_bytes names ms "RuntimeProfileSnapshot" (RuntimeProfileSnapshot a);
    pd ← JsonUnmarshal.get as_string names ms "RuntimeProfileDigest" (RuntimeProfileDigest a);
    Some (mkRuntimeBinding m n i v sv s sd pv p pd)).

Definition zeroRuntime : RuntimeBinding := mkRuntimeBinding "" "" "" "" "" "" "" "" "" "".

Definition unmarshalRuntime (raw : string) : option RuntimeBinding :=
  t ← parse (to_bytes raw); decode_RuntimeBinding t zeroRuntime.

Section Binding_.

(** [canonical.Transform], a third-party package. *)
Variable Transform : string -> option string.
(** [json.Marshal] and [json.Unmarshal] of a grant. *)
Variable marshalGrant : Grant -> option string.
Variable unmarshalGrant : string -> option Grant.

(** ** create.go: sameRuntime *)

(** The documents match their digests once canonical. *)
Definition digests_match (v : RuntimeBinding) : bool :=
  match Transform (RuntimeSpec v) with
  | None => false
  | Some raw =>
      if Digest raw != RuntimeSpecDigest v then false
      else match Transform (RuntimeProfileSnapshot v) with
      | None => false
      | Some raw => Digest raw == RuntimeProfileDigest v
      end
  end.

Definition sameRuntime (a b : RuntimeBinding) : bool :=
  digests_match a && digests_match b && (evidence a == evidence b).

(** ** verifyLocalBinding *)

(** The links between the grant, its row, the Execution and the Session. *)
Definition linked (e : Execution.Execution) (s : Session.Session) (record : GrantRecord) (g : Grant) : bool :=
  let b := Execution.binding e in
  negb ((Mode g != LocalMode) || (Issuer g != LocalIssuer)
        || (AuthorityMode b != "LOCAL") || (AuthorityNamespace b != Issuer g) || (ExternalRunID b != "")
        || (AuthorityMode b != Session.AuthorityMode (GRuntime g))
        || (AuthorityNamespace b != Session.AuthorityNamespace (GRuntime g))
        || (AuthorityReference b != GID g) || (Rec_ID record != GID g) || (GrantDigest b != Rec_Digest record)
        || (GTenantID g != Execution.tenantID e) || (Session.tenantID s != Execution.tenantID e)
        || (GSessionID g != SessionID b) || (Session.id s != SessionID b)
        || (Rec_SessionID record != SessionID b)
        || (GGeneration g != SessionGeneration b) || (GSessionVersion g == 0)
        || negb (match_string sha256_pattern (GPrincipalDigest g))
        || negb (match_string sha256_pattern (GRequestDigest g))
        || negb (sameRuntime (GRuntime g) (Session.binding s))
        || (AgentID b != Session.AgentID (GRuntime g))
        || (AgentVersionID b != Session.AgentVersionID (GRuntime g))
        || negb (TimeEqual (Truncate (deadline e) microsecond) (Truncate (ExpiresAt g) microsecond))
        || IsZero (IssuedAt g) || negb (After (ExpiresAt g) (IssuedAt g))
        || Before (Truncate (Execution.createdAt e) microsecond) (Truncate (IssuedAt g) microsecond)).

(** The evidence column, rebuilt and compared both ways. *)
Definition evidence_matches (b : Binding) (g : Grant) : bool :=
  match unmarshalRuntime (AgentEvidence b) with
  | None => false
  | Some runtime =>
      if negb (sameRuntime runtime (GRuntime g)) then false
      else match Marshal (runtime_json runtime) with
      | None => false
      | Some raw =>
          if Digest raw != AgentEvidenceDigest b then false
          else match Transform raw, Transform (AgentEvidence b) with
          | Some want, Some got => want == got
          | _, _ => false
          end
      end
  end.

Definition verifyLocalBinding (e : option Execution.Execution) (s : option Session.Session)
    (record : GrantRecord) : result ExecError Grant :=
  match e, s with
  | Some e, Some s =>
      if (len (Rec_Snapshot record) =? 0) || (65536 <? len (Rec_Snapshot record))
         || (Digest (Rec_Snapshot record) != Rec_Digest record)
      then Err ErrInvalidBinding
      else match unmarshalGrant (Rec_Snapshot record) with
      | None => Err ErrInvalidBinding
      | Some g =>
          match marshalGrant g with
          | None => Err ErrInvalidBinding
          | Some raw =>
              if (raw != Rec_Snapshot record) || negb (linked e s record g)
                 || negb (evidence_matches (Execution.binding e) g)
              then Err ErrInvalidBinding
              else Ok g
          end
      end
  | _, _ => Err ErrInvalidBinding
  end.

(** ** LoadLocalBinding *)

Definition LoadLocalBinding {P} (i : ID)
  : prog (call P) (result (failure ExecError) (Execution.Execution * Grant)) :=
  store (Executions_Get i) (fun e =>
  let b := Execution.binding e in
  if (AuthorityMode b != "LOCAL") || (AuthorityNamespace b != LocalIssuer)
  then Ret (Err (FApp ErrUnsupported))
  else match ParseID (AuthorityReference b) with
  | Err _ => Ret (Err (FApp ErrInvalidBinding))
  | Ok grantID =>
      store (Sessions_Get (SessionID b)) (fun s =>
      store (LocalGrants_Get grantID) (fun record =>
      match verifyLocalBinding (Some e) (Some s) record with
      | Err x => Ret (Err (FApp x))
      | Ok g => Ret (Ok (e, g))
      end))
  end).

(** ** Lemmas *)

(** Everything a verified binding guarantees. *)
Record bound (e : Execution.Execution) (s : Session.Session) (record : GrantRecord) (g : Grant) : Prop := {
  bo_bytes : marshalGrant g = Some (Rec_Snapshot record) /\ unmarshalGrant (Rec_Snapshot record) = Some g;
  bo_size : 0 < len (Rec_Snapshot record) <= 65536;
  bo_digest : Digest (Rec_Snapshot record) = Rec_Digest record;
  bo_links : linked e s record g = true;
  bo_evidence : evidence_matches (Execution.binding e) g = true
}.

Lemma verify_bound e s record g :
  verifyLocalBinding (Some e) (Some s) record = Ok g <-> bound e s record g.
Proof.
  unfold verifyLocalBinding. split.
  - intros H. destruct (_ || _) eqn:G1 in H; [discriminate H |].
    destruct (unmarshalGrant _) as [x |] eqn:U; [| discriminate H].
    destruct (marshalGrant x) as [raw |] eqn:M; [| discriminate H].
    destruct (_ || _) eqn:G2 in H; [discriminate H |]. injection H as ->. simp_bool.
    constructor; try done. unfold len in *. lia.
  - intros [[M U] [L1 L2] D L E]. rewrite U, M, L, E. cbn [negb].
    rewrite (proj2 (Z.eqb_neq _ _)), (proj2 (Z.ltb_ge _ _)) by lia.
    by rewrite D, !bool_decide_eq_true_2.
Qed.

(** The binding with another evidence document. *)
Definition with_evidence (b : Binding) (ev : string) : Binding :=
  mkBinding (SessionID b) (SessionGeneration b) (AuthorityMode b) (AuthorityNamespace b)
    (AuthorityReference b) (ExternalRunID b) (GrantDigest b) (AgentID b) (AgentVersionID b) ev
    (AgentEvidenceDigest b).

(** How an Execution comes back from the store: times in microseconds, and an
    evidence document that decodes and canonicalises alike. *)
Record stored_as (e e' : Execution.Execution) : Prop := {
  sa_tenant : Execution.tenantID e' = Execution.tenantID e;
  sa_deadline : deadline e' = timestamptz (deadline e);
  sa_created : Execution.createdAt e' = timestamptz (Execution.createdAt e);
  sa_binding : exists ev, Execution.binding e' = with_evidence (Execution.binding e) ev
     /\ unmarshalRuntime ev = unmarshalRuntime (AgentEvidence (Execution.binding e))
     /\ Transform ev = Transform (AgentEvidence (Execution.binding e))
}.

Lemma validID_parse i : validID i = true -> ParseID i = Ok i.
Proof.
  unfold validID. destruct (ParseID i) as [j |] eqn:E; [| done]. intros _. by apply ParseID_same in E as ->.
Qed.

Lemma truncated_again t : nanos (Truncate (timestamptz t) microsecond) = nanos (Truncate t microsecond).
Proof.
  unfold Truncate, timestamptz, microsecond. cbn. rewrite Z.mod_mul by lia.
  rewrite (Z.mod_eq (nanos t) 1000) by lia. lia.
Qed.

Lemma execution_steps_keep e tr e' : Execution.steps e tr e' ->
  Execution.tenantID e' = Execution.tenantID e /\ Execution.binding e' = Execution.binding e
  /\ deadline e' = deadline e /\ Execution.createdAt e' = Execution.createdAt e.
Proof.
  induction 1 as [| e c e1 tr e2 H _ IH]; [done |].
  apply execution_exec_cases in H as [-> | (n & _ & _ & _ & _ & ->)]; [done | exact IH].
Qed.

Lemma session_steps_keep s tr s' : Session.steps s tr s' ->
  Session.tenantID s' = Session.tenantID s /\ Session.id s' = Session.id s
  /\ Session.binding s' = Session.binding s.
Proof.
  induction 1 as [| s c s1 tr s2 H _ IH]; [done |].
  apply session_exec_cases in H as [-> | (n & _ & _ & _ & _ & ->)]; [done | exact IH].
Qed.

Lemma linked_later e e1 s s1 record record1 g :
  Execution.tenantID e1 = Execution.tenantID e ->
  nanos (Truncate (deadline e1) microsecond) = nanos (Truncate (deadline e) microsecond) ->
  nanos (Truncate (Execution.createdAt e1) microsecond)
    = nanos (Truncate (Execution.createdAt e) microsecond) ->
  (exists ev, Execution.binding e1 = with_evidence (Execution.binding e) ev) ->
  Session.tenantID s1 = Session.tenantID s -> Session.id s1 = Session.id s ->
  Session.binding s1 = Session.binding s ->
  Rec_ID record1 = Rec_ID record -> Rec_SessionID record1 = Rec_SessionID record ->
  Rec_Digest record1 = Rec_Digest record -> linked e1 s1 record1 g = linked e s record g.
Proof.
  intros E1 E2 E3 [ev E4] S1 S2 S3 R1 R2 R3. unfold linked, TimeEqual, Before.
  rewrite E1, E2, E3, E4, S1, S2, S3, R1, R2, R3. reflexivity.
Qed.

(** ** Theorem *)

(** A binding verified once stays readable: after any accepted lifecycle steps of the
    Session and of the Execution, after the store rounded the Execution's times to
    microseconds and rewrote its evidence document as an equivalent one, and after
    the grant's row was settled, loading the Execution's binding yields the very
    grant that was verified first. *)
Theorem binding_survives_storage {P} e s record g str s' etr e' e'' record' i
    (answers : forall B, call P B -> B)
    (V : verifyLocalBinding (Some e) (Some s) record = Ok g)
    (I : validID (GID g) = true)
    (S : Session.steps s str s') (X : Execution.steps e etr e') (A : stored_as e' e'')
    (R : Rec_ID record' = Rec_ID record /\ Rec_SessionID record' = Rec_SessionID record
         /\ Rec_Snapshot record' = Rec_Snapshot record /\ Rec_Digest record' = Rec_Digest record)
    (Q1 : answers _ (Executions_Get i) = Ok e'')
    (Q2 : answers _ (Sessions_Get (GSessionID g)) = Ok s')
    (Q3 : answers _ (LocalGrants_Get (GID g)) = Ok record') :
  snd (execute answers (LoadLocalBinding i)) = Ok (e'', g).
Proof.
  apply verify_bound in V as [B1 B2 B3 B4 B5]. destruct R as (R1 & R2 & R3 & R4).
  apply session_steps_keep in S as (S1 & S2 & S3). apply execution_steps_keep in X as (X1 & X2 & X3 & X4).
  destruct A as [A1 A2 A3 (ev & A4 & A5 & A6)]. rewrite X2 in A4, A5, A6.
  assert (L : linked e'' s' record' g = true).
  { rewrite <- B4. apply linked_later; try done; [congruence | | | by exists ev].
    - by rewrite A2, truncated_again, X3.
    - by rewrite A3, truncated_again, X4. }
  assert (V : verifyLocalBinding (Some e'') (Some s') record' = Ok g).
  { apply verify_bound. constructor; rewrite ?R3, ?R4; [exact B1 | exact B2 | exact B3 | exact L |].
    rewrite <- B5, A4. unfold evidence_matches. cbn [with_evidence AgentEvidence AgentEvidenceDigest].
    rewrite A5, A6. reflexivity. }
  assert (N : AuthorityMode (Execution.binding e'') = "LOCAL"
              /\ AuthorityNamespace (Execution.binding e'') = LocalIssuer
              /\ AuthorityReference (Execution.binding e'') = GID g
              /\ SessionID (Execution.binding e'') = GSessionID g).
  { unfold linked in L. apply negb_true_iff in L. simp_bool. split_and!; congruence. }
  destruct N as (N1 & N2 & N3 & N4).
  unfold LoadLocalBinding, store. cbn [pbind trigger execute]. rewrite Q1, N1, N2, N3.
  rewrite !bool_decide_eq_true_2 by done. cbn [negb orb].
  apply validID_parse in I. rewrite I. cbn [pbind trigger execute]. rewrite N4, Q2.
  cbn [pbind trigger execute]. rewrite Q3, V. reflexivity.
Qed.

End Binding_.

(** ** Witness *)

Definition ex_bound_evidence : string := marshal (runtime_json ex_runtime).

Definition ex_bound : Execution.Execution :=
  mkExecution id1 id1
    (mkBinding id2 1 "LOCAL" LocalIssuer id3 "" (Digest "{}") "agent" "agent-1" ex_bound_evidence
       (Digest ex_bound_evidence))
    (at_second 300) Queued 0 None (at_second 12) (at_second 12) None.

Definition ex_grant_row : GrantRecord := mkGrantRecord id3 id2 "{}" (Digest "{}") "ACTIVE" 1.
Definition ex_settled_row : GrantRecord := mkGrantRecord id3 id2 "{}" (Digest "{}") "CANCELLED" 2.

Definition ex_unmarshal_grant (raw : string) : option Grant := Some ex_grant.

Definition ex_active : Session.Session := Session.advanced ex_session Active (at_second 13).
Definition ex_stopped : Execution.Execution := Execution.advanced ex_bound Cancelling None (at_second 14).

(** The store of the restarted process. *)
Definition ex_store : forall B, call (fun _ => Empty_set) B -> B :=
  fun B c =>
    match c in call _ B return B with
    | Clock_Now => at_second 1000
    | Entropy => None
    | Tx_Begin | Tx_SetTenant _ => true
    | Tx_Commit => CommitDone
    | Tx_Rollback => tt
    | Idempotency_Reserve v => Err StoreFailure
    | Idempotency_Update _ _ => Err StoreFailure
    | Sessions_Add _ | Sessions_Activate _ _ _ | Executions_Add _ | Executions_AddInput _ _ _
    | Executions_AddSignal _ | LocalGrants_Add _ | Events_Append _ | Outbox_Add _ => Err StoreFailure
    | Sessions_Get _ | Sessions_GetForUpdate _ => Ok ex_active
    | Executions_Get _ | Executions_GetForUpdate _ => Ok ex_stopped
    | LocalGrants_Get _ => Ok ex_settled_row
    | Events_NextSequence _ => Err StoreFailure
    | Policy p => match p with end
    end.

Lemma binding_survives_storage_witness :
  snd (execute ex_store (LoadLocalBinding ex_transform ex_marshal_grant ex_unmarshal_grant id1))
  = Ok (ex_stopped, ex_grant).
Proof.
  refine (binding_survives_storage ex_transform ex_marshal_grant ex_unmarshal_grant ex_bound ex_session
            ex_grant_row ex_grant [Active] ex_active [Cancelling] ex_stopped ex_stopped ex_settled_row id1
            ex_store _ _ _ _ _ _ eq_refl eq_refl eq_refl).
  - vm_compute. reflexivity.
  - vm_compute. reflexivity.
  - apply (Session.steps_one ex_session (Session.mkCommand "ACTIVE" 1 (at_second 13)) ex_active [] ex_active); [| constructor].
    vm_compute. reflexivity.
  - apply (Execution.steps_one ex_bound (Execution.mkCommand "CANCELLING" 0 None (at_second 14)) ex_stopped []
              ex_stopped); [| constructor].
    vm_compute. reflexivity.
  - constructor; [reflexivity | vm_compute; reflexivity | vm_compute; reflexivity |].
    exists ex_bound_evidence. split; [reflexivity | split; reflexivity].
  - split; [reflexivity | split; [reflexivity | split; reflexivity]].
Defined.
