(* ===== verification/ExecutionCreate.v ===== *)
(** * app/execution/create.go: admitting an Execution

    [Create] reserves an idempotency record and, under the reservation it won, locks
    the Session, has the local authority issue a grant in the same transaction,
    re-verifies that grant against its stored row, activates the Session under its
    version, and writes the Execution, its input, two events, the queue message and
    the settled record.  The authority is an interface ([LocalAdmission]); the local
    authority's [AdmitInTransaction] implements it.  Proved for every answer of the
    clock, the randomness, the policy, the stores and the commit, whose answer may be
    lost: a run that commits nothing leaves no write; one that commits either replayed
    a record or made exactly the calls of an admission, in order, with one consistent
    set of rows, fenced by the next generation of the Session that was read and bounded
    by the grant that was issued; and over the idempotency table a request repeated
    under its key never admits again. *)

From Stdlib Require Import ZArith Bool Lia.
From stdpp Require Import base strings list.
From S2P Require Import Prelude Regex GoStd JsonDecoder JsonEncode JsonUnmarshal JsonRoundTrip.
From S2P Require Import Primitives Interaction RuntimeProfile Session Execution Outbox RuntimeEvent.
From S2P Require Import LocalAuthority EventStream Idempotency IdempotencyStore Repositories Once.
From S2P Require Import AuthorityAdmission ExecutionBinding Sha256.

(** ** Data *)

Definition CreateAction : string := "executions.create.v1".

Record CreateRequest : Type := mkCreateRequest { Input : string; RunReference : string }.

Record View : Type := mkView {
  V_ID : ID;
  V_SessionID : ID;
  V_State : string;
  V_StateVersion : Z;
  V_Generation : Z;
  V_AuthorityMode : string;
  V_AuthorityIssuer : string;
  V_CreatedAt : Time
}.

Record Result : Type := mkResult { R_View : View; Replayed : bool }.

Record QueueIntent : Type := mkQueueIntent {
  Q_ExecutionID : ID;
  Q_SessionID : ID;
  Q_Generation : Z;
  Q_InputDigest : string;
  Q_GrantID : ID;
  Q_GrantDigest : string
}.

(** ** Encodings *)

Definition request_json (r : CreateRequest) : jvalue :=
  JStruct ([("input", JString (Input r))] ++ omitempty "run_reference" (RunReference r)).

Definition operation_json (sid : ID) (version : Z) (r : CreateRequest) : jvalue :=
  JStruct [("SessionID", JString sid); ("Version", JUint version); ("Request", request_json r)].

Definition view_json (v : View) : jvalue :=
  JStruct
    [("id", JString (V_ID v));
     ("session_id", JString (V_SessionID v));
     ("state", JString (V_State v));
     ("state_version", JUint (V_StateVersion v));
     ("generation", JUint (V_Generation v));
     ("authority_mode", JString (V_AuthorityMode v));
     ("authority_issuer", JString (V_AuthorityIssuer v));
     ("created_at", JTime (V_CreatedAt v))].

Definition set_ID (x : ID) (v : View) : View :=
  mkView x (V_SessionID v) (V_State v) (V_StateVersion v) (V_Generation v) (V_AuthorityMode v)
    (V_AuthorityIssuer v) (V_CreatedAt v).
Definition set_SessionID (x : ID) (v : View) : View :=
  mkView (V_ID v) x (V_State v) (V_StateVersion v) (V_Generation v) (V_AuthorityMode v)
    (V_AuthorityIssuer v) (V_CreatedAt v).
Definition set_State (x : string) (v : View) : View :=
  mkView (V_ID v) (V_SessionID v) x (V_StateVersion v) (V_Generation v) (V_AuthorityMode v)
    (V_AuthorityIssuer v) (V_CreatedAt v).
Definition set_StateVersion (x : Z) (v : View) : View :=
  mkView (V_ID v) (V_SessionID v) (V_State v) x (V_Generation v) (V_AuthorityMode v)
    (V_AuthorityIssuer v) (V_CreatedAt v).
Definition set_Generation (x : Z) (v : View) : View :=
  mkView (V_ID v) (V_SessionID v) (V_State v) (V_StateVersion v) x (V_AuthorityMode v)
    (V_AuthorityIssuer v) (V_CreatedAt v).
Definition set_AuthorityMode (x : string) (v : View) : View :=
  mkView (V_ID v) (V_SessionID v) (V_State v) (V_StateVersion v) (V_Generation v) x
    (V_AuthorityIssuer v) (V_CreatedAt v).
Definition set_AuthorityIssuer (x : string) (v : View) : View :=
  mkView (V_ID v) (V_SessionID v) (V_State v) (V_StateVersion v) (V_Generation v) (V_AuthorityMode v)
    x (V_CreatedAt v).
Definition set_CreatedAt (x : Time) (v : View) : View :=
  mkView (V_ID v) (V_SessionID v) (V_State v) (V_StateVersion v) (V_Generation v) (V_AuthorityMode v)
    (V_AuthorityIssuer v) x.

Definition view_fields : list (field View) :=
  [("id", into_string set_ID);
   ("session_id", into_string set_SessionID);
   ("state", into_string set_State);
   ("state_version", into_uint set_StateVersion);
   ("generation", into_uint set_Generation);
   ("authority_mode", into_string set_AuthorityMode);
   ("authority_issuer", into_string set_AuthorityIssuer);
   ("created_at", into_time set_CreatedAt)].

Definition zeroView : View := mkView "" "" "" 0 0 "" "" zeroTime.

Definition unmarshalView (raw : string) : option View := Unmarshal view_fields raw zeroView.

Definition state_json (s : Session.Session) : jvalue :=
  JStruct [("state", JString (enum_string (Session.state s)));
           ("execution_generation", JUint (executionGeneration s))].

Definition intent_json (i : QueueIntent) : jvalue :=
  JStruct [("execution_id", JString (Q_ExecutionID i)); ("session_id", JString (Q_SessionID i));
           ("generation", JUint (Q_Generation i)); ("input_digest", JString (Q_InputDigest i));
           ("grant_id", JString (Q_GrantID i)); ("grant_digest", JString (Q_GrantDigest i))].

(** ** The authority's interface *)

(** What a local admission promises the transaction it joins: it neither begins nor
    ends one, its idempotency calls are lawful, and it writes at most one grant and
    its own settled record. *)
Class LocalAdmission {P : Type -> Type}
    (admission : LocalAuthority.Caller -> Request -> prog (call P) (result AuthorityError Grant)) : Prop := {
  la_inside : forall c r, tx_free (admission c r);
  la_lawful : forall c r tr g tenant,
    runs (admission c r) tr (Ok g) -> Forall timely tr -> lawful tenant (idems tr);
  la_writes : forall c r tr g, runs (admission c r) tr (Ok g) ->
    writes tr = []
    \/ exists row done, writes tr = [WGrant row; WRecord done (ownerFence done)]
         /\ Rec_ID row = GID g /\ Rec_Digest row = Digest (Rec_Snapshot row)
}.

(** ** Create *)

Inductive policy : Type -> Type :=
| Access (c : EventStream.Caller) (session : ID) (r : CreateRequest) : policy bool.

(** The callback fails with one of the package's errors or the authority's. *)
Inductive Cause : Type := Own (e : ExecError) | Authority_ (e : AuthorityError).

Abbreviation tx A := (prog (call policy) (result (failure Cause) A)).

Record Prepared : Type := mkPrepared {
  P_Digest : string;
  P_Operation : ID;
  P_ExecutionID : ID;
  P_EventID : ID;
  P_StateEventID : ID;
  P_MessageID : ID;
  P_Candidate : Record_
}.

Section Create_.
Variable Transform : string -> option string.
Variable marshalGrant : Grant -> option string.
Variable unmarshalGrant : string -> option Grant.
Variable admission : LocalAuthority.Caller -> Request -> prog (call policy) (result AuthorityError Grant).
Variable caller : EventStream.Caller.
Variable sid : ID.
Variable version : Z.
Variable key : string.
Variable r : CreateRequest.

Definition tenant : ID := EventStream.CTenantID caller.
Definition principal : string := EventStream.PrincipalDigest caller.
Definition scope_of : Scope := mkScope principal CreateAction (Digest (sid +:+ "/" +:+ key)).

Definition replay (record : Record_) : tx Result :=
  match response record with
  | None => Ret (Err (FApp (Own ErrUnavailable)))
  | Some resp =>
      if (Idempotency.state record != Succeeded)
         || (normalizationVersion record != "execution-create-v1")
      then Ret (Err (FApp (Own ErrUnavailable)))
      else match unmarshalView (Idempotency.Payload resp) with
      | None => Ret (Err (FApp (Own ErrUnavailable)))
      | Some v =>
          if V_SessionID v != sid then Ret (Err (FApp (Own ErrUnavailable)))
          else Ret (Ok (mkResult v true))
      end
  end.

(** The request to the authority, and the check of what it issued. *)
Definition grant_request (p : Prepared) (s : Session.Session) : Request :=
  mkRequest sid version (u64 (executionGeneration s + 1)) (KeyDigest scope_of) (P_Digest p)
    "" "" "" 0 None None None None None [].

Definition grant_caller : LocalAuthority.Caller := LocalAuthority.mkCaller tenant principal zeroTime.

Definition grant_ok (p : Prepared) (s : Session.Session) (g : Grant) (stored : GrantRecord)
    (grantRaw : string) (now : Time) : bool :=
  negb ((Mode g != LocalMode) || (Issuer g != LocalIssuer) || (GTenantID g != tenant)
        || (GPrincipalDigest g != principal) || (GSessionID g != sid) || (GSessionVersion g != version)
        || (GGeneration g != u64 (executionGeneration s + 1)) || (GRequestDigest g != P_Digest p)
        || negb (After (ExpiresAt g) now) || After (IssuedAt g) now || (Rec_State stored != "ACTIVE")
        || (Rec_SessionID stored != sid) || (Rec_Snapshot stored != grantRaw)
        || (Rec_Digest stored != Digest grantRaw)
        || negb (sameRuntime Transform (GRuntime g) (Session.binding s))).

Definition new_execution (p : Prepared) (b : RuntimeBinding) (s : Session.Session) (g : Grant)
    (stored : GrantRecord) (evidence : string) (now : Time) : result ExecutionError Execution.Execution :=
  Execution.New tenant (P_ExecutionID p)
    (mkBinding sid (executionGeneration s) (Session.AuthorityMode b) (Issuer g) (GID g) ""
       (Rec_Digest stored) (Session.AgentID b) (Session.AgentVersionID b) evidence (Digest evidence))
    (ExpiresAt g) now.

Definition new_view (p : Prepared) (s : Session.Session) (e : Execution.Execution) (g : Grant) (now : Time)
  : View :=
  mkView (P_ExecutionID p) sid (enum_string (Execution.state e)) (Execution.stateVersion e)
    (executionGeneration s) (Mode g) (Issuer g) now.

Definition state_event (p : Prepared) (s : Session.Session) (sequence : Z) (now : Time)
  : result EventError Event :=
  RuntimeEvent.New (P_StateEventID p) tenant sid "" "" sequence (Session.stateVersion s)
    "session.state_changed" now now "agent-runtime" "Internal" (marshal (state_json s))
    (mkCorrelation (P_Operation p) "" "") "session-lifetime" None.

Definition accepted_event (p : Prepared) (v : View) (sequence : Z) (now : Time) : result EventError Event :=
  RuntimeEvent.New (P_EventID p) tenant sid (P_ExecutionID p) "" sequence 0 "execution.accepted" now now
    "agent-runtime" "Internal" (marshal (view_json v)) (mkCorrelation (P_Operation p) "" "")
    "session-lifetime" None.

Definition intent_of (p : Prepared) (s : Session.Session) (g : Grant) (stored : GrantRecord) : QueueIntent :=
  mkQueueIntent (P_ExecutionID p) sid (executionGeneration s) (Digest (Input r)) (GID g)
    (Rec_Digest stored).

Definition queue_message (p : Prepared) (payload : string) (now : Time) : result MessageError Message :=
  Outbox.New tenant (P_MessageID p)
    (mkEnvelope "execution.materialize.v1" "1" (P_EventID p) "execution_creation" (P_Operation p) 1 payload
       "" (Digest payload)) now now.

(** From the verified grant on: activate the Session and write the Execution. *)
Definition accept (p : Prepared) (record : Record_) (s : Session.Session) (g : Grant) : tx Result :=
  store (LocalGrants_Get (GID g)) (fun stored =>
  match marshalGrant g with
  | None => Ret (Err FOther)
  | Some grantRaw =>
      do! clock <- trigger Clock_Now;
      let now := UTC clock in
      if negb (grant_ok p s g stored grantRaw now) then Ret (Err (FApp (Own ErrDenied)))
      else
        domain (Session.Transition (Some s) "ACTIVE" version now) (fun s' =>
        store (Sessions_Activate s' version (P_ExecutionID p)) (fun _ =>
        match Marshal (runtime_json (Session.binding s)) with
        | None => Ret (Err FOther)
        | Some evidence =>
            domain (new_execution p (Session.binding s) s' g stored evidence now) (fun e =>
            if negb (is_ok (verifyLocalBinding Transform marshalGrant unmarshalGrant (Some e) (Some s') stored))
            then Ret (Err (FApp (Own ErrDenied)))
            else
              store (Executions_Add e) (fun _ =>
              store (Executions_AddInput (P_ExecutionID p) (Input r) (Digest (Input r))) (fun _ =>
              let v := new_view p s' e g now in
              store (Events_NextSequence sid) (fun sequence =>
              domain (state_event p s' sequence now) (fun e1 =>
              store (Events_Append e1) (fun _ =>
              domain (accepted_event p v (u64 (sequence + 1)) now) (fun e2 =>
              store (Events_Append e2) (fun _ =>
              domain (queue_message p (marshal (intent_json (intent_of p s' g stored))) now) (fun message =>
              store (Outbox_Add message) (fun _ =>
              domain (Succeed (Some record)
                        (mkResponse 201 (marshal (view_json v)) ("/v1/executions/" +:+ P_ExecutionID p))
                        (P_Operation p) (ownerFence record) now) (fun done =>
              store (Idempotency_Update done (ownerFence done)) (fun _ =>
              Ret (Ok (mkResult v false))))))))))))))
        end))
  end).

(** The reservation that was won. *)
Definition creation (p : Prepared) (record : Record_) : tx Result :=
  store (Sessions_GetForUpdate sid) (fun s =>
  if (Session.stateVersion s != version)
     || ((Session.state s != Session.Ready) && (Session.state s != Session.Idle))
     || (max_int64 <=? executionGeneration s)
  then Ret (Err (FApp (Own ErrConflict)))
  else
    let b := Session.binding s in
    if (Session.AuthorityMode b != "LOCAL") || (Session.AuthorityNamespace b != LocalIssuer)
    then Ret (Err (FApp (Own ErrUnsupported)))
    else
      do! admitted <- admission grant_caller (grant_request p s);
      match admitted with
      | Err e => Ret (Err (FApp (Authority_ e)))
      | Ok g => accept p record s g
      end).

(** The transaction's callback. *)
Definition work (p : Prepared) : tx Result :=
  do! allowed <- trigger (Policy (Access caller sid r));
  if negb allowed then Ret (Err (FApp (Own ErrNotFound)))
  else store (Idempotency_Reserve (P_Candidate p)) (fun rc =>
    let (record, created) := rc in
    if requestDigest record != P_Digest p then Ret (Err (FApp (Own ErrConflict)))
    else if negb created then replay record
    else creation p record).

Definition create_error (e : failure Cause) : ExecError :=
  match e with
  | FApp (Own ErrNotFound) | FStore StoreNotFound => ErrNotFound
  | FApp (Own ErrConflict) | FStore StoreConflict | FStore ErrRequestDigestMismatch
  | FApp (Authority_ ErrAuthorityConflict) => ErrConflict
  | FApp (Own ErrUnsupported) => ErrUnsupported
  | FApp (Own ErrDenied) | FApp (Authority_ LocalAuthority.ErrDenied) => ErrDenied
  | _ => ErrUnavailable
  end.

Definition prepare (now : Time) (ids : list ID) : option Prepared :=
  match ids with
  | [operation; eid; eventID; stateEventID; messageID] =>
      let digest := Digest (marshal (operation_json sid version r)) in
      match Idempotency.New tenant operation scope_of "execution-create-v1" digest operation eid
              operation operation (Add now minute) (Add now year) now with
      | Err _ => None
      | Ok candidate => Some (mkPrepared digest operation eid eventID stateEventID messageID candidate)
      end
  | _ => None
  end.

Definition Create : prog (call policy) (result ExecError Result) :=
  if negb (is_ok (ParseID tenant)) || negb (match_string sha256_pattern principal)
  then Ret (Err ErrDenied)
  else if negb (is_ok (ParseID sid)) then Ret (Err ErrInvalid)
  else if negb (match_string key_pattern key) || (version =? 0) || (max_int64 <? version)
          || (len (Input r) =? 0) || (262144 <? len (Input r)) || negb (ValidString (Input r))
  then Ret (Err ErrInvalid)
  else if RunReference r != "" then Ret (Err ErrUnsupported)
  else
    do! clock <- trigger Clock_Now;
    let now := UTC clock in
    do! ids <- NewIDs 5 now;
    match ids with
    | None => Ret (Err ErrUnavailable)
    | Some ids =>
        match prepare now ids with
        | None => Ret (Err ErrUnavailable)
        | Some p =>
            do! result <- WithinTransaction tenant (work p);
            match result with
            | Err e => Ret (Err (create_error e))
            | Ok res => Ret (Ok res)
            end
        end
    end.

End Create_.

(** ** The local authority implements the interface *)

Lemma admit_work_idems {P} Transform marshalGrant unmarshalGrant a c r i now digest candidate
    (tr : list (event (call P))) g :
  runs (admit_work Transform marshalGrant unmarshalGrant a c r i now digest candidate) tr (Ok g) ->
  fresh candidate -> forall tenant, lawful tenant (idems tr).
Proof.
  unfold admit_work, issue, replay_grant, Repositories.store, domain. intros R F tenant.
  explore R; simp_bool; intros _;
    repeat match goal with u : () |- _ => destruct u end;
    cbn [idems flat_map idem_of app occurred].
  - apply lawful_lost.
  - by eapply lawful_settled.
Qed.

#[export] Instance local_authority_admits {P : Type -> Type} Transform marshalAdmission marshalGrant
    unmarshalGrant a :
  LocalAdmission (P := P) (AdmitInTransaction Transform marshalAdmission marshalGrant unmarshalGrant a).
Proof.
  constructor; unfold AdmitInTransaction.
  - intros c r. unfold admit_with. tx_free_auto; [unfold NewID; tx_free_auto |]. apply admit_work_tx_free.
  - intros c r tr g tenant R T. unfold admit_with in R.
    destruct (admissible a c r); cbn [negb] in R; [| by destruct R].
    cbn [pbind trigger runs] in R. destruct R as (clock & tr1 & -> & R).
    destruct (IsZero (UTC clock)); [by destruct R |].
    destruct (marshalAdmission _ _) as [raw |]; [| by destruct R].
    cbn [NewID pbind trigger runs] in R. destruct R as (random & tr2 & -> & R).
    destruct (NewIDFrom _ _) as [i |]; [| by destruct R].
    destruct (Idempotency.New _ _ _ _ _ _ _ _ _ _ _ _) as [candidate |] eqn:N; [| by destruct R].
    apply runs_bind in R as (inner & rest & x & -> & R1 & R). destruct x as [x |]; [| by destruct R].
    destruct R as [-> _]. rewrite app_nil_r. apply Forall_cons in T as [T _].
    change (lawful tenant (idems inner)). eapply admit_work_idems; [exact R1 |].
    by apply (New_fresh _ _ _ _ _ _ _ _ _ _ _ _ _ N).
  - intros c r tr g R. apply admit_run in R as (i & clock & raw & cand & before & inner & _ & Z & _ & _ & W & _ & R & ->).
    rewrite writes_app, W. apply admit_work_run in R as (record & created & _ & _ & X); [| done].
    destruct created; [right | left; by destruct X].
    destruct X as (row & done_ & [_ (_ & D & I & _) _] & Wr). eauto.
Qed.

(** ** Lemmas *)

Section Runs_.
Context {Transform : string -> option string} {marshalGrant : Grant -> option string}
  {unmarshalGrant : string -> option Grant}
  {admission : LocalAuthority.Caller -> Request -> prog (call policy) (result AuthorityError Grant)}
  `{LA : !LocalAdmission admission}
  (caller : EventStream.Caller) (sid : ID) (version : Z) (key : string) (r : CreateRequest).

Abbreviation accept := (accept Transform marshalGrant unmarshalGrant caller sid version r).
Abbreviation creation := (creation Transform marshalGrant unmarshalGrant admission caller sid version key r).
Abbreviation work := (work Transform marshalGrant unmarshalGrant admission caller sid version key r).
Abbreviation Create := (Create Transform marshalGrant unmarshalGrant admission caller sid version key r).

(** How an acceptance was computed from the Session [s], the grant [g] and its row. *)
Record acceptance (p : Prepared) (record : Record_) (s : Session.Session) (g : Grant) (stored : GrantRecord)
    (s' : Session.Session) (e : Execution.Execution) (n : Z) (e1 e2 : Event) (m : Message) (done : Record_)
    (v : View) (now : Time) : Prop := {
  ac_utc : is_utc now;
  ac_grant : exists raw, marshalGrant g = Some raw
     /\ grant_ok Transform caller sid version p s g stored raw now = true
     /\ (exists evidence, new_execution caller sid p (Session.binding s) s' g stored evidence now = Ok e)
     /\ is_ok (verifyLocalBinding Transform marshalGrant unmarshalGrant (Some e) (Some s') stored) = true
     /\ queue_message caller p (marshal (intent_json (intent_of sid r p s' g stored))) now = Ok m;
  ac_session : Session.Transition (Some s) "ACTIVE" version now = Ok s';
  ac_view : v = new_view sid p s' e g now;
  ac_events : state_event caller sid p s' n now = Ok e1 /\ accepted_event caller sid p v (u64 (n + 1)) now = Ok e2;
  ac_record : Succeed (Some record)
     (mkResponse 201 (marshal (view_json v)) ("/v1/executions/" +:+ P_ExecutionID p))
     (P_Operation p) (ownerFence record) now = Ok done
}.

(** The calls of an acceptance, once the grant was issued. *)
Definition accepted_trace (eid : ID) (g : Grant) (stored : GrantRecord) (clock : Time) (s : Session.Session)
    (e : Execution.Execution) (n : Z) (e1 e2 : Event) (m : Message) (done : Record_) : list (event (call policy)) :=
  [occurred (LocalGrants_Get (GID g)) (Ok stored); occurred Clock_Now clock;
   occurred (Sessions_Activate s version eid) (Ok tt); occurred (Executions_Add e) (Ok tt);
   occurred (Executions_AddInput eid (Input r) (Digest (Input r))) (Ok tt);
   occurred (Events_NextSequence sid) (Ok n); occurred (Events_Append e1) (Ok tt);
   occurred (Events_Append e2) (Ok tt); occurred (Outbox_Add m) (Ok tt);
   occurred (Idempotency_Update done (ownerFence done)) (Ok tt)].

(** The rows of an acceptance. *)
Definition accepted_rows (eid : ID) (s : Session.Session) (e : Execution.Execution) (e1 e2 : Event)
    (m : Message) (done : Record_) : list write :=
  [WActivate s version eid; WExecution e; WInput eid (Input r) (Digest (Input r)); WEvent e1; WEvent e2;
   WMessage m; WRecord done (ownerFence done)].

Lemma accept_run p record s g tr res :
  runs (accept p record s g) tr (Ok res) ->
  Replayed res = false /\ exists stored clock s' e n e1 e2 m done,
    acceptance p record s g stored s' e n e1 e2 m done (R_View res) (UTC clock)
    /\ tr = accepted_trace (P_ExecutionID p) g stored clock s' e n e1 e2 m done.
Proof.
  unfold ExecutionCreate.accept, domain, Repositories.store. intros R. explore R.
  repeat match goal with u : () |- _ => destruct u end.
  intros ->. split; [done |]. do 9 eexists. split; [| reflexivity].
  constructor; cbn [R_View]; try eassumption; [done | | done | eauto].
  repeat match goal with H : negb _ = false |- _ => apply negb_false_iff in H end. eauto 12.
Qed.

(** What a replay discloses. *)
Definition recorded (record : Record_) (v : View) : Prop :=
  Idempotency.state record = Succeeded /\ normalizationVersion record = "execution-create-v1"
  /\ exists resp, response record = Some resp /\ unmarshalView (Idempotency.Payload resp) = Some v.

Lemma exec_replay_run record tr res :
  runs (replay sid record) tr (Ok res) ->
  Replayed res = true /\ recorded record (R_View res) /\ V_SessionID (R_View res) = sid /\ tr = [].
Proof.
  unfold replay. intros R. explore R. intros ->. simp_bool.
  split; [done |]. split; [| done]. split; [done |]. split; [done |]. eauto.
Qed.

(** The Session as the reservation's winner found it. *)
Definition admissible_session (s : Session.Session) : Prop :=
  Session.stateVersion s = version /\ Session.resting (Session.state s) /\ executionGeneration s < max_int64
  /\ Session.AuthorityMode (Session.binding s) = "LOCAL"
  /\ Session.AuthorityNamespace (Session.binding s) = LocalIssuer.

(** A won reservation: the authority's own writes, then the acceptance's. *)
Lemma creation_split p record tr res :
  runs (creation p record) tr (Ok res) ->
  exists s g t1 t2, admissible_session s
    /\ runs (admission (grant_caller caller) (grant_request caller sid version key p s)) t1 (Ok g)
    /\ runs (accept p record s g) t2 (Ok res)
    /\ tr = [occurred (Sessions_GetForUpdate sid) (Ok s)] ++ t1 ++ t2.
Proof.
  unfold ExecutionCreate.creation, Repositories.store. intros R. cbn [pbind trigger runs] in R.
  destruct R as (answer & tr1 & -> & R). destruct answer as [s |]; [| by destruct R].
  destruct (_ || _) eqn:G1 in R; [by destruct R |]. destruct (_ || _) eqn:G2 in R; [by destruct R |].
  apply runs_bind in R as (t1 & t2 & x & -> & R1 & R). destruct x as [g |]; [| by destruct R].
  exists s, g, t1, t2. split; [| exact (conj R1 (conj R eq_refl))]. clear R1 R. simp_bool.
  unfold admissible_session, Session.resting. split_and!; try done; [| lia].
  destruct (Session.state s); cbn in *; auto; done.
Qed.

Lemma exec_work_run p tr res :
  runs (work p) tr (Ok res) ->
  exists record rest,
    tr = [occurred (Policy (Access caller sid r)) true;
          occurred (Idempotency_Reserve (P_Candidate p)) (Ok (record, negb (Replayed res)))] ++ rest
    /\ requestDigest record = P_Digest p
    /\ if Replayed res then recorded record (R_View res) /\ V_SessionID (R_View res) = sid /\ rest = []
       else exists s g t1 stored clock s' e n e1 e2 m done,
            admissible_session s
            /\ runs (admission (grant_caller caller) (grant_request caller sid version key p s)) t1 (Ok g)
            /\ acceptance p record s g stored s' e n e1 e2 m done (R_View res) (UTC clock)
            /\ rest = [occurred (Sessions_GetForUpdate sid) (Ok s)] ++ t1
                      ++ accepted_trace (P_ExecutionID p) g stored clock s' e n e1 e2 m done.
Proof.
  unfold ExecutionCreate.work, Repositories.store. intros R. cbn [pbind trigger runs] in R.
  destruct R as (allowed & tr1 & -> & R). destruct allowed; cbn [negb] in R; [| by destruct R].
  destruct R as (answer & tr2 & -> & R). destruct answer as [[record created] | e]; [| by destruct R].
  destruct (requestDigest record != _) eqn:D; [by destruct R |]. simp_bool.
  exists record, tr2. destruct created; cbn [negb] in R.
  - apply creation_split in R as (s & g & t1 & t2 & A & R1 & R2 & ->).
    apply accept_run in R2 as (Rf & stored & clock & s' & e & n & e1 & e2 & m & done_ & C & ->). rewrite Rf. cbn [negb].
    split; [done |]. split; [done |]. exists s, g, t1, stored, clock, s', e, n, e1, e2, m, done_.
    exact (conj A (conj R1 (conj C eq_refl))).
  - apply exec_replay_run in R as (Rt & Rec & Sd & ->). rewrite Rt. done.
Qed.

Lemma exec_work_tx_free p : tx_free (work p).
Proof using LA.
  unfold ExecutionCreate.work, replay, ExecutionCreate.creation, ExecutionCreate.accept.
  tx_free_auto. apply la_inside.
Qed.

(** A run of [Create] that was committed: its checks, its preparation and its callback,
    whose value is returned unless the answer to the commit was lost. *)
Lemma exec_create_run tr x :
  runs Create tr x ->
  if committed tr then exists pre p now inner res c,
    x = answered c ErrUnavailable res /\ took_effect c = true
    /\ validID (tenant caller) = true /\ validID sid = true /\ is_utc now
    /\ (exists ids, prepare caller sid version key r now ids = Some p /\ Forall (fun i => validID i = true) ids)
    /\ (Forall timely tr -> 1000 <= nanos now)
    /\ Forall (fun ev => tx_event ev = false) pre /\ writes pre = [] /\ idems pre = []
    /\ runs (work p) inner (Ok res)
    /\ tr = pre ++ transacted (tenant caller) inner c
  else exists e, x = Err e.
Proof using LA.
  unfold ExecutionCreate.Create. intros R.
  destruct (_ || _) eqn:G1 in R; [destruct R as [-> ->]; cbn; eauto |].
  destruct (negb (is_ok (ParseID sid))) eqn:G2; [destruct R as [-> ->]; cbn; eauto |].
  destruct (_ || _) eqn:G3 in R; [destruct R as [-> ->]; cbn; eauto |].
  destruct (RunReference r != "") eqn:G4; [destruct R as [-> ->]; cbn; eauto |].
  simp_bool. cbn [pbind trigger runs] in R. destruct R as (clock & tr1 & -> & R).
  apply runs_bind in R as (t1 & t2 & ids & -> & R1 & R).
  apply NewIDs_run in R1 as (F & W & D & L). set (pre := occurred Clock_Now clock :: t1).
  assert (Fp : Forall (fun ev => tx_event ev = false) pre) by (by constructor).
  change (occurred Clock_Now clock :: t1 ++ t2) with (pre ++ t2). rewrite committed_after by done.
  destruct ids as [ids |]; [| destruct R as [-> ->]; cbn; eauto].
  destruct (prepare _ _ _ _ _ _ _) as [p |] eqn:Pp in R; [| destruct R as [-> ->]; cbn; eauto].
  apply runs_bind in R as (t3 & t4 & y & -> & R2 & R).
  assert (t4 = [] /\ x = match y with Err e => Err (create_error e) | Ok a => Ok a end) as [-> ->] by (by destruct y).
  clear R. rewrite app_nil_r. apply transaction_run in R2; [| apply exec_work_tx_free].
  destruct (committed t3); [| destruct R2 as [e ->]; eauto].
  destruct R2 as (inner & res & c & -> & T & _ & R2 & _ & _ & ->). rewrite answered_map.
  exists pre, p, (UTC clock), inner, res, c. destruct L as [_ L]. split_and!; try done; [eauto |].
  intros Ti. apply Forall_cons in Ti as [Ti _]. exact Ti.
Qed.

(** One that returned a value was committed. *)
Lemma exec_ok_committed tr res : runs Create tr (Ok res) -> committed tr = true.
Proof using LA. intros R%exec_create_run. destruct (committed tr); [done |]. by destruct R. Qed.

(** The view of an acceptance survives its encoding. *)
Lemma exec_view_roundtrip v raw :
  ascii_text (V_ID v) -> ascii_text (V_SessionID v) -> ValidString (V_State v) = true ->
  is_u64 (V_StateVersion v) -> is_u64 (V_Generation v) -> ValidString (V_AuthorityMode v) = true ->
  ValidString (V_AuthorityIssuer v) = true -> is_utc (V_CreatedAt v) ->
  Marshal (view_json v) = Some raw -> unmarshalView raw = Some v.
Proof.
  intros A1 A2 A3 U1 U2 A4 A5 T E. apply ascii_valid in A1, A2. unfold unmarshalView, view_json in *.
  rewrite (scalars_roundtrip view_fields _
    [set_ID (V_ID v); set_SessionID (V_SessionID v); set_State (V_State v);
     set_StateVersion (V_StateVersion v); set_Generation (V_Generation v);
     set_AuthorityMode (V_AuthorityMode v); set_AuthorityIssuer (V_AuthorityIssuer v);
     set_CreatedAt (UTC (V_CreatedAt v))] raw zeroView E).
  - rewrite !UTC_of_utc by done. by destruct v.
  - scalars_auto.
  - done.
  - accepts_auto.
Qed.

(** The Session's admission, as its aggregate performs it. *)
Lemma activated s s' now : Session.Transition (Some s) "ACTIVE" version now = Ok s' ->
  Session.state s' = Active /\ Session.stateVersion s' = u64 (Session.stateVersion s + 1)
  /\ (Session.resting (Session.state s) ->
     executionGeneration s' = u64 (executionGeneration s + 1)).
Proof.
  intros H. change (Session.exec s (Session.mkCommand "ACTIVE" version now) = Ok s') in H.
  apply session_exec_spec in H as (_ & _ & _ & n & E & [(_ & [-> | ->] & _) | (_ & _ & _ & ->)]); try discriminate E.
  assert (n = Active) as -> by (apply enum_string_inj; by rewrite <- E).
  split; [done |]. split; [done |]. intros Rs. cbn. by rewrite (proj2 (admits_spec _ _)).
Qed.

(** How the rows of an acceptance fit together. *)
Record consistent (s : Session.Session) (g : Grant) (s' : Session.Session) (e : Execution.Execution)
    (e1 e2 : Event) (m : Message) (done : Record_) (v : View) : Prop := {
  cs_session : Session.tenantID s' = tenant caller /\ Session.id s' = sid /\ Session.state s' = Active
     /\ Session.stateVersion s' = u64 (version + 1)
     /\ executionGeneration s' = u64 (executionGeneration s + 1);
  cs_execution : Execution.tenantID e = tenant caller /\ Execution.id e = V_ID v
     /\ Execution.state e = Queued /\ SessionID (Execution.binding e) = sid
     /\ SessionGeneration (Execution.binding e) = executionGeneration s' /\ V_SessionID v = sid
     /\ V_Generation v = executionGeneration s';
  cs_grant : GTenantID g = tenant caller /\ GPrincipalDigest g = principal caller /\ GSessionID g = sid
     /\ GSessionVersion g = version /\ GGeneration g = executionGeneration s'
     /\ AuthorityReference (Execution.binding e) = GID g /\ deadline e = UTC (ExpiresAt g)
     /\ nanos (IssuedAt g) <= nanos (Execution.createdAt e) < nanos (ExpiresAt g)
     /\ exists raw, marshalGrant g = Some raw /\ GrantDigest (Execution.binding e) = Digest raw;
  cs_events : sessionID e1 = sid /\ typeName e1 = "session.state_changed" /\ sessionID e2 = sid
     /\ typeName e2 = "execution.accepted" /\ executionID e2 = Execution.id e
     /\ sequence e2 = u64 (sequence e1 + 1);
  cs_message : Outbox.tenantID m = tenant caller /\ Outbox.state m = Pending
     /\ EventID (Outbox.envelope m) = eventID e2
     /\ AggregateID (Outbox.envelope m) = RequestID (correlation e2)
     /\ PayloadDigest (Outbox.envelope m) = Digest (Outbox.Payload (Outbox.envelope m));
  cs_record : Idempotency.state done = Succeeded /\ exists payload,
     response done = Some (mkResponse 201 payload ("/v1/executions/" +:+ V_ID v))
     /\ unmarshalView payload = Some v
}.

Lemma acceptance_consistent now0 ids p record s g stored s' e n e1 e2 m done v now :
  prepare caller sid version key r now0 ids = Some p -> Forall (fun i => validID i = true) ids ->
  validID sid = true -> admissible_session s ->
  acceptance p record s g stored s' e n e1 e2 m done v now -> consistent s g s' e e1 e2 m done v.
Proof.
  intros Pp Vi Vs (Av & Ar & _) [U (raw & M & G & (ev & N) & K & Q) Tr -> (E1 & E2) Su].
  apply activated in Tr as (Es & Ev & Eg). specialize (Eg Ar).
  unfold new_execution, Execution.New in N. destruct (_ || _) eqn:Gn in N; [discriminate N |].
  injection N as <-. unfold grant_ok in G. apply negb_true_iff in G.
  destruct (verifyLocalBinding _ _ _ _ _ _) as [g' |] eqn:Vf; [| discriminate K].
  apply verify_bound in Vf as [_ _ _ L _]. unfold linked in L. apply negb_true_iff in L.
  cbn [Execution.binding Execution.tenantID cloneBinding SessionID] in L. clear K.
  unfold state_event in E1. unfold accepted_event in E2. unfold queue_message in Q.
  apply event_new in E1 as (_ & _ & F1 & _ & F2 & F3 & _).
  apply event_new in E2 as (H0 & _ & H1 & H2 & H3 & H4 & H5 & _ & Ne).
  apply message_new in Q as (Q1 & Q2 & Q3). apply succeed_done in Su as (S1 & S2 & _).
  simp_bool.
  assert (Ve : validID (P_ExecutionID p) = true).
  { clear - Pp Vi. unfold prepare in Pp. repeat case_match; simplify_eq/=. rewrite !Forall_cons in Vi. tauto. }
  constructor; cbn [Execution.tenantID Execution.id Execution.state Execution.binding Execution.createdAt
    deadline cloneBinding SessionID SessionGeneration AuthorityReference GrantDigest
    new_view V_ID V_SessionID V_Generation].
  - split_and!; congruence.
  - split_and!; done.
  - split_and!; try congruence; [tlia | tlia |]. eexists. split; [exact M | congruence].
  - split_and!; congruence.
  - rewrite Q3. split_and!; try done. by rewrite H5.
  - split; [done |]. eexists. split; [exact S2 |].
    set (v := new_view _ _ _ _ _ _) in *. unfold marshal in Ne |- *.
    destruct (Marshal (view_json v)) as [text |] eqn:Mv; [| by destruct Ne]. cbn [default].
    apply (exec_view_roundtrip v); try done; cbn [v new_view V_ID V_SessionID V_Generation V_AuthorityMode
      V_AuthorityIssuer V_StateVersion Execution.stateVersion].
    + by apply validID_ascii.
    + by apply validID_ascii.
    + rewrite Eg. apply u64_range.
    + replace (Mode g) with LocalMode by congruence. done.
    + replace (Issuer g) with LocalIssuer by congruence. done.
Qed.

(** ** Over the idempotency table *)

Definition request_digest : string := Digest (marshal (operation_json sid version r)).

Lemma exec_candidate now ids p : prepare caller sid version key r now ids = Some p ->
  scope (P_Candidate p) = scope_of caller sid key /\ requestDigest (P_Candidate p) = request_digest
  /\ P_Digest p = request_digest /\ normalizationVersion (P_Candidate p) = "execution-create-v1"
  /\ (1000 <= nanos now -> fresh (P_Candidate p)).
Proof.
  unfold prepare. intros Pp. repeat case_match; simplify_eq/=.
  match goal with N : Idempotency.New _ _ _ _ _ _ _ _ _ _ _ _ = Ok _ |- _ =>
    pose proof (New_fresh _ _ _ _ _ _ _ _ _ _ _ _ _ N); apply New_valid in N as (? & ? & ? & ? & ? & ? & ?) end.
  done.
Qed.

(** The idempotency calls of a committed [Create]. *)
Lemma exec_create_idems tr x rows rows' :
  runs Create tr x -> steps_rows rows tr = Some rows' -> Forall timely tr -> committed tr = true ->
  exists res c p now ids record, x = answered c ErrUnavailable res
    /\ prepare caller sid version key r now ids = Some p /\ 1000 <= nanos now
    /\ if Replayed res
       then recorded record (R_View res)
            /\ idem_steps (tenant caller) (r_committed rows)
                 [IReserve (P_Candidate p) (Ok (record, false))] = Some (r_committed rows')
       else exists mid done resp op fence at_, lawful (tenant caller) mid
            /\ Succeed (Some record) resp op fence at_ = Ok done
            /\ unmarshalView (Idempotency.Payload resp) = Some (R_View res)
            /\ idem_steps (tenant caller) (r_committed rows)
                 ([IReserve (P_Candidate p) (Ok (record, true))] ++ mid
                  ++ [IUpdate done (ownerFence done) (Ok tt)]) = Some (r_committed rows').
Proof using LA.
  intros R T Ti Ct. apply exec_create_run in R. rewrite Ct in R. clear Ct.
  destruct R as (pre & p & now & inner & res & c & -> & Tc & _ & Vs & _ & (ids & Pp & Vi) & C & F & _ & D & R & ->).
  specialize (C Ti). rewrite steps_rows_app, (neutral_rows pre F D) in T.
  pose proof (tx_free_run _ (exec_work_tx_free p) _ _ R) as Fi. apply transaction_table in T; [| exact Fi | exact Tc].
  apply exec_work_run in R as (record & rest & -> & _ & R). exists res, c, p, now, ids, record.
  split; [done |]. split; [exact Pp |]. split; [exact C |]. rewrite idems_app in T.
  change (idems [_; occurred (Idempotency_Reserve ?v) ?x]) with [IReserve v x] in T.
  destruct (Replayed res).
  - destruct R as (Rec & _ & ->). split; [exact Rec | exact T].
  - destruct R as (s & g & t1 & stored & clock & s' & e & n & e1 & e2 & m & done_ & As & R1 & Co & ->).
    pose proof (acceptance_consistent now ids _ _ _ _ _ _ _ _ _ _ _ _ _ _ Pp Vi Vs As Co) as Cs.
    rewrite !idems_app in T. cbn [accepted_trace idems flat_map idem_of occurred app] in T.
    pose proof (ac_record _ _ _ _ _ _ _ _ _ _ _ _ _ _ Co) as Su.
    eexists (idems t1), done_, _, _, _, _. split; [| split; [exact Su | split; [| exact T]]].
    + eapply la_lawful; [exact R1 |]. unfold transacted in Ti. rewrite !Forall_app in Ti. tauto.
    + apply succeed_done in Su as (_ & S2 & _). destruct (cs_record _ _ _ _ _ _ _ _ _ Cs) as (_ & x & X1 & X2).
      rewrite S2 in X1. cbn [Idempotency.Payload]. injection X1 as X1 _. by rewrite X1.
Qed.

(** After a successful [Create], the table is sound and holds the row that answers
    for it. *)
Lemma exec_create_table tr res rows rows' :
  sound (tenant caller) (r_committed rows) ->
  runs Create tr (Ok res) -> steps_rows rows tr = Some rows' -> Forall timely tr ->
  sound (tenant caller) (r_committed rows') /\ exists v resp row, row ∈ r_committed rows'
    /\ settled_row v resp row /\ scope v = scope_of caller sid key /\ requestDigest v = request_digest
    /\ unmarshalView (Idempotency.Payload resp) = Some (R_View res).
Proof using LA.
  intros S R T Ti. destruct (exec_create_idems _ _ _ _ R T Ti (exec_ok_committed _ _ R))
    as (res' & c & p & now & ids & record & E & Pp & C & X). symmetry in E. apply answered_ok in E as [-> _].
  destruct (exec_candidate _ _ _ Pp) as (Sc & Dc & _ & Nc & Fr). specialize (Fr C).
  destruct (Replayed res).
  - destruct X as ((R1 & R2 & resp & R3 & R4) & X). cbn [idem_steps idem_step] in X.
    destruct (Reserve _ _ _) as [t1 x] eqn:Rv. destruct (decide _) as [-> |] in X; [| discriminate X].
    injection X as <-. apply Reserve_lost in Rv as (-> & Hr & Es & Ed & En); [| done].
    split; [done |]. exists (P_Candidate p), resp, record. split; [done |]. split; [by constructor | done].
  - destruct X as (mid & done_ & resp & op & fence & at_ & L & Su & Un & X).
    eapply once_created in X as (S' & row & Hr & St); try done; [| by rewrite Sc; right; left].
    split; [done |]. by exists (P_Candidate p), resp, row.
Qed.

(** A grant that authorises this very request at an instant: it was issued locally for the
    caller, the Session, its presented version and next generation and the digest of the
    request, it has begun and not expired, its row is active and holds its bytes, and it names
    the runtime to which the Session is bound. *)
Record authorised (s : Session.Session) (g : Grant) (stored : GrantRecord) (now : Time) : Prop := {
  au_issuer : Mode g = LocalMode /\ Issuer g = LocalIssuer;
  au_caller : GTenantID g = tenant caller /\ GPrincipalDigest g = principal caller;
  au_fence : GSessionID g = sid /\ GSessionVersion g = version /\ GGeneration g = u64 (executionGeneration s + 1);
  au_request : GRequestDigest g = request_digest;
  au_live : nanos (IssuedAt g) <= nanos now < nanos (ExpiresAt g);
  au_row : Rec_State stored = "ACTIVE" /\ Rec_SessionID stored = sid
     /\ marshalGrant g = Some (Rec_Snapshot stored) /\ Rec_Digest stored = Digest (Rec_Snapshot stored);
  au_runtime : sameRuntime Transform (GRuntime g) (Session.binding s) = true
}.

Lemma acceptance_authorised p record s g stored s' e n e1 e2 m done v now :
  P_Digest p = request_digest ->
  acceptance p record s g stored s' e n e1 e2 m done v now ->
  authorised s g stored now /\ sequence e1 = n /\ Execution.createdAt e = now
  /\ Idempotency.id done = Idempotency.id record.
Proof.
  intros Pd [U (raw & M & G & (ev & N) & _ & _) _ _ (E1 & _) Su].
  unfold grant_ok in G. apply negb_true_iff in G. simp_bool. split; [| split_and!].
  - constructor; repeat match goal with |- _ /\ _ => split end; first [congruence | tlia].
  - unfold state_event, RuntimeEvent.New in E1. destruct (_ || _) in E1; [discriminate E1 |]. by injection E1 as <-.
  - unfold new_execution, Execution.New in N. destruct (_ || _) in N; [discriminate N |]. injection N as <-.
    cbn [Execution.createdAt]. by rewrite UTC_of_utc.
  - by apply succeed_done in Su as (_ & _ & _ & I & _).
Qed.

End Runs_.

(** ** Theorems *)

Section Theorems.
Context (Transform : string -> option string) (marshalGrant : Grant -> option string)
  (unmarshalGrant : string -> option Grant).

(** C2: Admission is atomic and fenced: whatever the clock, the randomness, the policy,
    the authority and the stores answer, a run that was not committed is an error, and one
    that was committed returns what it committed unless the answer to its commit was lost,
    which is reported as unavailable.  A committed run made exactly the calls that are listed:
    the policy allowed the caller, a record of this key was reserved for the digest of this
    request, and then either nothing was written and the recorded view is returned, or the
    Session that was locked rests at the presented version under the local authority, the
    authority issued a grant in this transaction, the row of the grant and the clock were
    read, and that very grant, active in that row, authorises this tenant, principal,
    Session, version, next generation, request and runtime at that instant.  Then, after the
    authority's own rows, exactly one activated Session, one queued Execution with its input,
    two consecutive events from the sequence that was read, one message and the settled record
    are written.  The Execution carries the Session's next generation and the digest and the
    expiry of the grant, and the record's stored response decodes to the view that is
    returned. *)
Theorem execution_create_atomic admission `{LA : !LocalAdmission admission} caller sid version key r tr x
    (R : runs (Create Transform marshalGrant unmarshalGrant admission caller sid version key r) tr x) :
  if committed tr then exists pre now0 ids p record inner res c,
    x = answered c ErrUnavailable res /\ took_effect c = true
    /\ tr = pre ++ transacted (tenant caller)
              ([occurred (Policy (Access caller sid r)) true;
                occurred (Idempotency_Reserve (P_Candidate p)) (Ok (record, negb (Replayed res)))] ++ inner) c
    /\ writes pre = [] /\ prepare caller sid version key r now0 ids = Some p
    /\ scope (P_Candidate p) = scope_of caller sid key
    /\ requestDigest (P_Candidate p) = request_digest sid version r
    /\ requestDigest record = request_digest sid version r
    /\ if Replayed res then inner = [] /\ recorded record (R_View res) /\ V_SessionID (R_View res) = sid
       else exists s g issuing stored clock s' e n e1 e2 m done,
         inner = [occurred (Sessions_GetForUpdate sid) (Ok s)] ++ issuing
                 ++ accepted_trace sid version r (V_ID (R_View res)) g stored clock s' e n e1 e2 m done
         /\ runs (admission (grant_caller caller) (grant_request caller sid version key p s)) issuing (Ok g)
         /\ (writes issuing = [] \/ exists row d, writes issuing = [WGrant row; WRecord d (ownerFence d)]
              /\ Rec_ID row = GID g /\ Rec_Digest row = Digest (Rec_Snapshot row))
         /\ admissible_session version s
         /\ authorised (Transform := Transform) (marshalGrant := marshalGrant) caller sid version r s g stored (UTC clock)
         /\ sequence e1 = n /\ Execution.createdAt e = UTC clock /\ Idempotency.id done = Idempotency.id record
         /\ consistent (marshalGrant := marshalGrant) caller sid version s g s' e e1 e2 m done (R_View res)
  else exists e, x = Err e.
Proof.
  apply exec_create_run in R. destruct (committed tr); [| done].
  destruct R as (pre & p & now & inner & res & c & -> & T & _ & Vs & _ & (ids & Pp & Vi) & _ & F & W & _ & R & ->).
  apply exec_work_run in R as (record & rest & -> & Rd & R).
  destruct (exec_candidate _ _ _ _ _ _ _ _ Pp) as (Sc & Dc & Pd & _). rewrite Pd in Rd.
  exists pre, now, ids, p, record, rest, res, c. do 8 (split; [done |]). destruct (Replayed res).
  - by destruct R as (Rec & Sd & ->).
  - destruct R as (s & g & t1 & stored & clock & s' & e & n & e1 & e2 & m & done_ & As & R1 & Co & ->).
    exists s, g, t1, stored, clock, s', e, n, e1, e2, m, done_.
    destruct (acceptance_authorised _ _ _ _ _ _ _ _ _ _ _ _ _ _ _ _ _ _ Pd Co) as (Au & N & Ca & Id).
    rewrite (ac_view _ _ _ _ _ _ _ _ _ _ _ _ _ _ _ _ _ _ Co) at 1.
    split_and!; try done; [by apply (la_writes _ _ _ _ R1) |].
    eapply acceptance_consistent; [exact Pp | exact Vi | exact Vs | exact As | exact Co].
Qed.

(** Exactly once: after [Create] succeeded under a key of a Session, any later
    [Create] of the same caller under the same key, whatever happened to the
    idempotency table in between, with whatever authority, policy, clock and stores,
    either fails or replays the very same view; it never admits a second Execution,
    and it succeeds only for the same version and request. *)
Theorem execution_create_once {S1 S2} admission1 admission2 `{LA1 : !LocalAdmission admission1}
    `{LA2 : !LocalAdmission admission2} caller sid version1 version2 key r1 r2
    (env1 : forall B, S1 -> call policy B -> S1 * B) (env2 : forall B, S2 -> call policy B -> S2 * B)
    s1 s2 rows1 rows2 st1 st2 res1 x2 ops
    (T1 : timely_env env1) (T2 : timely_env env2)
    (S : sound (tenant caller) (r_committed rows1))
    (H1 : run_state (records_handler env1) (s1, rows1)
            (Create Transform marshalGrant unmarshalGrant admission1 caller sid version1 key r1)
          = (st1, Ok res1))
    (V : Forall op_valid ops)
    (B : r_committed rows2 = apply_all (tenant caller) (r_committed (snd st1)) ops)
    (H2 : run_state (records_handler env2) (s2, rows2)
            (Create Transform marshalGrant unmarshalGrant admission2 caller sid version2 key r2)
          = (st2, x2)) :
  match x2 with
  | Err _ => True
  | Ok res2 => Replayed res2 = true /\ R_View res2 = R_View res1
               /\ request_digest sid version2 r2 = request_digest sid version1 r1
  end /\ r_committed (snd st2) = r_committed rows2.
Proof.
  apply run_records_timely in H1 as (tr1 & R1 & Q1 & F1); [| done].
  apply run_records_timely in H2 as (tr2 & R2 & Q2 & F2); [| done].
  apply (exec_create_table caller sid version1 key r1 tr1 res1 rows1 (snd st1) S) in R1
    as (S1' & v & resp & row & Hr & St & Sc & Dg & Pv); [| done | done].
  destruct (committed tr2) eqn:Co;
    [| apply exec_create_run in R2; rewrite Co in R2; destruct R2 as [e ->]; split; [done | by apply (uncommitted_table tr2)]].
  destruct (exec_create_idems _ _ _ _ _ _ _ _ _ R2 Q2 F2 Co) as (res2 & c & p & now & ids & record & -> & Pp & _ & X).
  destruct (exec_candidate _ _ _ _ _ _ _ _ Pp) as (Sp & Dp & _). rewrite B in X.
  assert (Pn : Action (scope v) ∈ pinned) by (rewrite Sc; right; left).
  assert (Es : scope (P_Candidate p) = scope v) by congruence.
  destruct (Replayed res2) eqn:Rp.
  - destruct X as ((_ & _ & resp' & X1 & X2) & X). apply (once_replayed _ _ _ v _ resp row) in X as (_ & -> & Dd & [= X]); try done.
    rewrite (st_response _ _ _ St) in X1. injection X1 as <-.
    split; [| congruence]. unfold answered. destruct (reported c); [| done]. split_and!; [done | congruence | congruence].
  - destruct X as (mid & d & resp' & op & fence & at_ & _ & _ & _ & X).
    by apply (once_replayed _ _ _ v _ resp row) in X as (K & _).
Qed.

End Theorems.

(** ** Witnesses *)

(** The grant's snapshot is its identifier; the decoder restores the other fields. *)
Definition ex_marshal (g : Grant) : option string := Some (GID g).

Definition ex_unmarshal (raw : string) : option Grant :=
  Some (mkGrant raw LocalMode LocalIssuer digest_a "LOCAL_POLICY_ADMITTED" id1 digest_a id2 1 1 digest_b
          ex_runtime ex_profile digest_a digest_b "{}" [] (at_second 10) (at_second 610)).

(** An environment that draws a fresh identifier each time. *)
Definition ex_exec_env (now : Time) : forall B, nat -> call policy B -> nat * B :=
  fun B n c =>
    match c in call _ B return nat * B with
    | Clock_Now => (n, now)
    | Entropy => (S n, Some ("0123456789abcde" +:+ String (byte_of (Z.of_nat n)) ""))
    | Tx_Begin | Tx_SetTenant _ => (n, true)
    | Tx_Commit => (n, CommitDone)
    | Tx_Rollback => (n, tt)
    | Idempotency_Reserve v => (n, Ok (v, true))
    | Idempotency_Update _ _ => (n, Ok tt)
    | Sessions_Add _ | Sessions_Activate _ _ _ | Executions_Add _ | Executions_AddInput _ _ _
    | Executions_AddSignal _ | LocalGrants_Add _ | Events_Append _ | Outbox_Add _ => (n, Ok tt)
    | Sessions_Get _ | Sessions_GetForUpdate _ => (n, Ok ex_session)
    | Executions_Get _ | Executions_GetForUpdate _ => (n, Err StoreNotFound)
    | LocalGrants_Get i => (n, Ok (mkGrantRecord i id2 i (Digest i) "ACTIVE" 1))
    | Events_NextSequence _ => (n, Ok 7)
    | Policy p => (n, match p in policy B return B with Access _ _ _ => true end)
    end.

Definition ex_exec_caller : EventStream.Caller := EventStream.mkCaller id1 digest_a.
Definition ex_exec_request : CreateRequest := mkCreateRequest "list the files" "".
Definition ex_exec_key : string := "create-execution-01".

Definition ex_admission : LocalAuthority.Caller -> Request -> prog (call policy) (result AuthorityError Grant) :=
  AdmitInTransaction ex_transform (fun _ _ => Some "{}") ex_marshal ex_unmarshal ex_authority.

#[export] Instance ex_admission_admits : LocalAdmission ex_admission := local_authority_admits _ _ _ _ _.

Definition ex_exec_create : prog (call policy) (result ExecError Result) :=
  Create ex_transform ex_marshal ex_unmarshal ex_admission ex_exec_caller id2 1 ex_exec_key ex_exec_request.

Definition ex_exec_rows : Rows := mkRows [] [] "".

(** An admission, and an hour later the same request. *)
Lemma ex_exec_runs : exists v (st1 st2 : nat * Rows),
  run_state (records_handler (ex_exec_env (at_second 10))) (O, ex_exec_rows) ex_exec_create
    = (st1, Ok (mkResult v false))
  /\ run_state (records_handler (ex_exec_env (at_second 3600))) (O, snd st1) ex_exec_create
    = (st2, Ok (mkResult v true)).
Proof.
  assert (E : match run_state (records_handler (ex_exec_env (at_second 10))) (O, ex_exec_rows) ex_exec_create with
              | (st1, Ok (mkResult v false)) =>
                  snd (run_state (records_handler (ex_exec_env (at_second 3600))) (O, snd st1) ex_exec_create)
                  = Ok (mkResult v true)
              | _ => False
              end) by (vm_compute; reflexivity).
  destruct (run_state _ (O, ex_exec_rows) _) as [st1 [[v [|]] |]]; [destruct E | | destruct E]. exists v, st1.
  destruct (run_state _ (O, snd st1) _) as [st2 x2]. cbn [snd] in E. subst x2. exists st2. split; reflexivity.
Qed.

Lemma ex_exec_timely now : 1000 <= nanos now -> timely_env (ex_exec_env now).
Proof. intros H s. exact H. Qed.

Lemma execution_create_atomic_witness :
  exists v tr s g stored clock s' e e1 e2 m done, runs ex_exec_create tr (Ok (mkResult v false))
    /\ authorised (Transform := ex_transform) (marshalGrant := ex_marshal) ex_exec_caller id2 1 ex_exec_request s g stored (UTC clock)
    /\ consistent (marshalGrant := ex_marshal) ex_exec_caller id2 1 s g s' e e1 e2 m done v.
Proof.
  destruct ex_exec_runs as (v & st1 & _ & E & _). apply run_records in E as (tr & R & _).
  pose proof (execution_create_atomic ex_transform ex_marshal ex_unmarshal ex_admission ex_exec_caller id2 1
              ex_exec_key ex_exec_request tr _ R) as H. rewrite (exec_ok_committed _ _ _ _ _ _ _ R) in H.
  destruct H as (pre & now0 & ids & p & record & inner & res & c & Er & _ & _ & _ & _ & _ & _ & _ & H).
  symmetry in Er. apply answered_ok in Er as [-> _].
  destruct H as (s & g & issuing & stored & clock & s' & e & n & e1 & e2 & m & d & _ & _ & _ & _ & A & _ & _ & _ & C).
  exists v, tr, s, g, stored, clock, s', e, e1, e2, m, d. exact (conj R (conj A C)).
Defined.

Lemma execution_create_once_witness : exists v (st1 st2 : nat * Rows),
  run_state (records_handler (ex_exec_env (at_second 3600))) (O, snd st1) ex_exec_create
    = (st2, Ok (mkResult v true))
  /\ (true = true /\ v = v
      /\ request_digest id2 1 ex_exec_request = request_digest id2 1 ex_exec_request)
  /\ r_committed (snd st2) = r_committed (snd st1).
Proof.
  destruct ex_exec_runs as (v & st1 & st2 & E1 & E2). exists v, st1, st2. split; [exact E2 |].
  refine (execution_create_once ex_transform ex_marshal ex_unmarshal ex_admission ex_admission ex_exec_caller
            id2 1 1 ex_exec_key ex_exec_request ex_exec_request (ex_exec_env (at_second 10))
            (ex_exec_env (at_second 3600)) O O ex_exec_rows (snd st1) st1 st2 (mkResult v false)
            (Ok (mkResult v true)) [] _ _ _ E1 _ _ E2).
  - apply ex_exec_timely. vm_compute. discriminate.
  - apply ex_exec_timely. vm_compute. discriminate.
  - constructor; constructor.
  - constructor.
  - reflexivity.
Defined.
