(* ===== verification/ExecutionSignal.v ===== *)
(** * app/execution/signal.go and read.go: signalling and reading an Execution

    [Signal] accepts a signal for a running Execution: it checks access, reserves an
    idempotency record, and under the reservation it won locks Session and Execution,
    re-verifies the Execution's grant, asks the negotiated policy, and writes the
    signal, its event, its message and the settled record.  [Get] projects the
    durable state of an Execution.  Proved for every answer of the clock, the
    randomness, the policies, the stores and the commit, whose answer may be lost: an
    acceptance makes exactly the calls of its trace and commits four consistent rows,
    under the grant, the Session and the Execution that this trace read: the grant live,
    the Session active and of the Execution's own generation, the Execution running,
    after the policy allowed the signal; over the idempotency table a signal repeated under its key is delivered once; and
    a read discloses nothing without access. *)

From Stdlib Require Import ZArith Bool Lia.
From stdpp Require Import base strings list gmap.
From S2P Require Import Prelude Regex GoStd JsonDecoder JsonEncode JsonUnmarshal JsonRoundTrip.
From S2P Require Import Primitives Interaction RuntimeProfile Session Execution Outbox RuntimeEvent.
From S2P Require Import LocalAuthority EventStream Idempotency IdempotencyStore Repositories Once.
From S2P Require Import ExecutionBinding Sha256.

(** ** Data *)

Definition SignalAction : string := "executions.signal.v1".
Definition MaxSignalBytes : Z := 65536.

Record SignalRequest : Type := mkSignalRequest { SType : string; SPayload : string }.

Record SignalOperation : Type := mkSignalOperation {
  O_ID : ID;
  O_Kind : string;
  O_State : string;
  O_ResourceLocation : string;
  O_CreatedAt : Time
}.

Record SignalResult : Type := mkSignalResult { S_Operation : SignalOperation; S_Replayed : bool }.

Record SignalIntent : Type := mkSignalIntent {
  N_OperationID : ID;
  N_ExecutionID : ID;
  N_SessionID : ID;
  N_Generation : Z;
  N_ExecutionVersion : Z;
  N_Type : string;
  N_PayloadDigest : string
}.

(** ** Encodings *)

Definition signal_json (r : SignalRequest) : jvalue :=
  JStruct [("type", JString (SType r)); ("payload", raw_message (SPayload r))].

Definition signal_intent_json (i : SignalIntent) : jvalue :=
  JStruct [("operation_id", JString (N_OperationID i)); ("execution_id", JString (N_ExecutionID i));
           ("session_id", JString (N_SessionID i)); ("generation", JUint (N_Generation i));
           ("execution_version", JUint (N_ExecutionVersion i)); ("type", JString (N_Type i));
           ("payload_digest", JString (N_PayloadDigest i))].

Definition operation_json (o : SignalOperation) : jvalue :=
  JStruct [("id", JString (O_ID o)); ("kind", JString (O_Kind o)); ("state", JString (O_State o));
           ("resource_location", JString (O_ResourceLocation o)); ("created_at", JTime (O_CreatedAt o))].

Definition set_ID (x : ID) (o : SignalOperation) : SignalOperation :=
  mkSignalOperation x (O_Kind o) (O_State o) (O_ResourceLocation o) (O_CreatedAt o).
Definition set_Kind (x : string) (o : SignalOperation) : SignalOperation :=
  mkSignalOperation (O_ID o) x (O_State o) (O_ResourceLocation o) (O_CreatedAt o).
Definition set_State (x : string) (o : SignalOperation) : SignalOperation :=
  mkSignalOperation (O_ID o) (O_Kind o) x (O_ResourceLocation o) (O_CreatedAt o).
Definition set_ResourceLocation (x : string) (o : SignalOperation) : SignalOperation :=
  mkSignalOperation (O_ID o) (O_Kind o) (O_State o) x (O_CreatedAt o).
Definition set_CreatedAt (x : Time) (o : SignalOperation) : SignalOperation :=
  mkSignalOperation (O_ID o) (O_Kind o) (O_State o) (O_ResourceLocation o) x.

Definition operation_fields : list (field SignalOperation) :=
  [("id", into_string set_ID); ("kind", into_string set_Kind); ("state", into_string set_State);
   ("resource_location", into_string set_ResourceLocation); ("created_at", into_time set_CreatedAt)].

Definition zeroOperation : SignalOperation := mkSignalOperation "" "" "" "" zeroTime.

Definition unmarshalOperation (raw : string) : option SignalOperation :=
  Unmarshal operation_fields raw zeroOperation.

(** ** Signal *)

Inductive policy : Type -> Type :=
| SignalAccess (c : EventStream.Caller) (session execution : ID) : policy bool
| SignalPolicy (c : EventStream.Caller) (e : Execution.Execution) (r : SignalRequest)
    : policy (option (failure ExecError)).

Abbreviation tx A := (prog (call policy) (result (failure ExecError) A)).

Section Signal_.
(** [canonical.Transform], a third-party package. *)
Variable Transform : string -> option string.
(** [json.Marshal] and [json.Unmarshal] of a grant. *)
Variable marshalGrant : Grant -> option string.
Variable unmarshalGrant : string -> option Grant.

Definition ParseSignal (raw : string) : result ExecError SignalRequest :=
  if (MaxSignalBytes <? len raw) || negb (ValidString raw) then Err ErrInvalid
  else match Transform raw with
  | None => Err ErrInvalid
  | Some normalized =>
      match unmarshalRawMap normalized with
      | None => Err ErrInvalid
      | Some m =>
          let fields := default ∅ m in
          if negb (Z.of_nat (size fields) =? 2) then Err ErrInvalid
          else match unmarshalString (fields !! "type") with
          | None => Err ErrInvalid
          | Some ty =>
              if (ty != "user_input") && (ty != "permission_response") && (ty != "interrupt")
              then Err ErrInvalid
              else match fields !! "payload" with
              | None => Err ErrInvalid
              | Some text =>
                  match unmarshalRawMap text with
                  | Some (Some payload) =>
                      if 32 <? Z.of_nat (size payload) then Err ErrInvalid else Ok (mkSignalRequest ty text)
                  | _ => Err ErrInvalid
                  end
              end
          end
      end
  end.

(** What the checks before the transaction prepare. *)
Record Prepared : Type := mkPrepared {
  P_Request : SignalRequest;
  P_Raw : string;
  P_Digest : string;
  P_Operation : ID;
  P_EventID : ID;
  P_MessageID : ID;
  P_Candidate : Record_
}.

Variable caller : EventStream.Caller.
Variable eid : ID.
Variable key : string.

Definition tenant : ID := EventStream.CTenantID caller.
Definition principal : string := EventStream.PrincipalDigest caller.
Definition scope_of : Scope := mkScope principal SignalAction (Digest (eid +:+ "/" +:+ key)).

Definition replay (record : Record_) : tx SignalResult :=
  match response record with
  | None => Ret (Err (FApp ErrUnavailable))
  | Some resp =>
      if (Idempotency.state record != Succeeded)
         || (normalizationVersion record != "execution-signal-v1") || (HTTPStatus resp != 202)
      then Ret (Err (FApp ErrUnavailable))
      else match unmarshalOperation (Idempotency.Payload resp) with
      | None => Ret (Err (FApp ErrUnavailable))
      | Some o => Ret (Ok (mkSignalResult o true))
      end
  end.

Definition intent_of (p : Prepared) (b : Binding) (e : Execution.Execution) : SignalIntent :=
  mkSignalIntent (P_Operation p) eid (SessionID b) (SessionGeneration b) (Execution.stateVersion e)
    (SType (P_Request p)) (Digest (P_Raw p)).

Definition signal_event (p : Prepared) (b : Binding) (e : Execution.Execution) (metadata : string)
    (sequence : Z) (now : Time) : result EventError Event :=
  RuntimeEvent.New (P_EventID p) tenant (SessionID b) eid "" sequence (Execution.stateVersion e)
    "signal.accepted" now now "agent-runtime" "Internal" metadata (mkCorrelation (P_Operation p) "" "")
    "session-lifetime" None.

Definition signal_message (p : Prepared) (metadata : string) (now : Time) : result MessageError Message :=
  Outbox.New tenant (P_MessageID p)
    (mkEnvelope "execution.signal.v1" "1" (P_EventID p) "execution_signal" (P_Operation p) 1 metadata ""
       (Digest metadata)) now now.

Definition operation_of (p : Prepared) (now : Time) : SignalOperation :=
  mkSignalOperation (P_Operation p) "execution.signal" "PENDING" ("/v1/executions/" +:+ eid) now.

(** From the policy's permission on. *)
Definition accept (p : Prepared) (record : Record_) (b : Binding) (e : Execution.Execution) (g : Grant)
  : tx SignalResult :=
  do! clock <- trigger Clock_Now;
  let now := UTC clock in
  if negb (After (ExpiresAt g) now) || negb (After (deadline e) now) then Ret (Err (FApp ErrDenied))
  else
    store (Executions_AddSignal (mkSignalRecord (P_Operation p) eid (P_Raw p) (Digest (P_Raw p)))) (fun _ =>
    let metadata := marshal (signal_intent_json (intent_of p b e)) in
    store (Events_NextSequence (SessionID b)) (fun sequence =>
    domain (signal_event p b e metadata sequence now) (fun event =>
    store (Events_Append event) (fun _ =>
    domain (signal_message p metadata now) (fun message =>
    store (Outbox_Add message) (fun _ =>
    let o := operation_of p now in
    domain (Succeed (Some record) (mkResponse 202 (marshal (operation_json o)) (O_ResourceLocation o))
              (P_Operation p) (ownerFence record) now) (fun done =>
    store (Idempotency_Update done (ownerFence done)) (fun _ =>
    Ret (Ok (mkSignalResult o false)))))))))).

(** The reservation that was won: locks, fences, the grant and the policy. *)
Definition signal (p : Prepared) (record : Record_) (b : Binding) : tx SignalResult :=
  store (Sessions_GetForUpdate (SessionID b)) (fun sess =>
  store (Executions_GetForUpdate eid) (fun e =>
  if (Session.state sess != Active) || (executionGeneration sess != SessionGeneration b)
     || (Execution.state e != Running)
  then Ret (Err (FApp ErrConflict))
  else if AuthorityMode b != "LOCAL" then Ret (Err (FApp ErrUnsupported))
  else match ParseID (AuthorityReference b) with
  | Err _ => Ret (Err (FApp ErrDenied))
  | Ok grantID =>
      store (LocalGrants_Get grantID) (fun stored =>
      match verifyLocalBinding Transform marshalGrant unmarshalGrant (Some e) (Some sess) stored with
      | Err _ => Ret (Err (FApp ErrDenied))
      | Ok g =>
          do! clock <- trigger Clock_Now;
          let now := UTC clock in
          if (Rec_State stored != "ACTIVE") || negb (After (ExpiresAt g) now) || After (IssuedAt g) now
             || negb (After (deadline e) now)
          then Ret (Err (FApp ErrDenied))
          else
            do! refused <- trigger (Policy (SignalPolicy caller e (P_Request p)));
            match refused with
            | Some err => Ret (Err err)
            | None => accept p record b e g
            end
      end)
  end)).

(** The transaction's callback. *)
Definition work (p : Prepared) : tx SignalResult :=
  store (Executions_Get eid) (fun e =>
  if (Execution.tenantID e != tenant) || (Execution.id e != eid) then Ret (Err (FApp ErrNotFound))
  else
    let b := Execution.binding e in
    do! allowed <- trigger (Policy (SignalAccess caller (SessionID b) eid));
    if negb allowed then Ret (Err (FApp ErrNotFound))
    else store (Idempotency_Reserve (P_Candidate p)) (fun rc =>
      let (record, created) := rc in
      if requestDigest record != P_Digest p then Ret (Err (FApp ErrConflict))
      else if negb created then replay record
      else signal p record b)).

Definition signal_error (e : failure ExecError) : ExecError :=
  match e with
  | FApp ErrNotFound | FStore StoreNotFound => ErrNotFound
  | FApp ErrConflict | FStore StoreConflict | FStore ErrRequestDigestMismatch => ErrConflict
  | FApp ErrInvalid => ErrInvalid
  | FApp ErrUnsupported => ErrUnsupported
  | FApp ErrDenied => ErrDenied
  | _ => ErrUnavailable
  end.

(** The canonical body of a request. *)
Definition signal_body (request : SignalRequest) : result ExecError (SignalRequest * string) :=
  match Marshal (signal_json request) with
  | None => Err ErrInvalid
  | Some raw =>
      match ParseSignal raw with
      | Err e => Err e
      | Ok request =>
          match Transform (marshal (signal_json request)) with
          | None => Err ErrInvalid
          | Some raw => Ok (request, raw)
          end
      end
  end.

Definition prepare (request : SignalRequest) (raw : string) (now : Time) (ids : list ID) : option Prepared :=
  match ids with
  | [op; eventID; messageID] =>
      let digest := Digest (eid +:+ "/" +:+ raw) in
      match Idempotency.New tenant op scope_of "execution-signal-v1" digest op eid op op
              (Add now minute) (Add now year) now with
      | Err _ => None
      | Ok candidate => Some (mkPrepared request raw digest op eventID messageID candidate)
      end
  | _ => None
  end.

Definition Signal (request : SignalRequest) : prog (call policy) (result ExecError SignalResult) :=
  if negb (is_ok (ParseID tenant)) || negb (match_string sha256_pattern principal)
  then Ret (Err ErrDenied)
  else if negb (is_ok (ParseID eid)) || negb (match_string key_pattern key) then Ret (Err ErrInvalid)
  else match signal_body request with
  | Err e => Ret (Err e)
  | Ok (request, raw) =>
      do! clock <- trigger Clock_Now;
      let now := UTC clock in
      do! ids <- NewIDs 3 now;
      match ids with
      | None => Ret (Err ErrUnavailable)
      | Some ids =>
          match prepare request raw now ids with
          | None => Ret (Err ErrUnavailable)
          | Some p =>
              do! result <- WithinTransaction tenant (work p);
              match result with
              | Err e => Ret (Err (signal_error e))
              | Ok res => Ret (Ok res)
              end
          end
      end
  end.

End Signal_.

(** ** read.go *)

Record Status : Type := mkStatus {
  T_ID : ID;
  T_SessionID : ID;
  T_State : Execution.State;
  T_StateVersion : Z;
  T_Generation : Z;
  T_AuthorityMode : string;
  T_AuthorityIssuer : string;
  T_CreatedAt : Time;
  T_RunReference : string
}.

Inductive read_policy : Type -> Type :=
| ReadAccess (c : EventStream.Caller) (session execution : ID) : read_policy bool.

Definition read_work (caller : EventStream.Caller) (i : ID)
  : prog (call read_policy) (result (failure ExecError) Status) :=
  store (Executions_Get i) (fun e =>
  if (Execution.tenantID e != EventStream.CTenantID caller) || (Execution.id e != i)
  then Ret (Err (FApp ErrNotFound))
  else
    let b := Execution.binding e in
    do! allowed <- trigger (Policy (ReadAccess caller (SessionID b) i));
    if negb allowed then Ret (Err (FApp ErrNotFound))
    else
      let status mode :=
        Ret (Ok (mkStatus (Execution.id e) (SessionID b) (Execution.state e) (Execution.stateVersion e)
                   (SessionGeneration b) mode (AuthorityNamespace b) (Execution.createdAt e)
                   (ExternalRunID b))) in
      if AuthorityMode b == "LOCAL" then status "local"
      else if AuthorityMode b == "THINKPIXEL_AG" then status "thinkpixelag"
      else Ret (Err (FApp ErrUnavailable))).

Definition Get (caller : EventStream.Caller) (i : ID) : prog (call read_policy) (result ExecError Status) :=
  if negb (is_ok (ParseID (EventStream.CTenantID caller)))
     || negb (match_string sha256_pattern (EventStream.PrincipalDigest caller))
  then Ret (Err ErrDenied)
  else if negb (is_ok (ParseID i)) then Ret (Err ErrInvalid)
  else
    do! result <- WithinTransaction (EventStream.CTenantID caller) (read_work caller i);
    match result with
    | Err (FApp ErrNotFound) | Err (FStore StoreNotFound) => Ret (Err ErrNotFound)
    | Err _ => Ret (Err ErrUnavailable)
    | Ok s => Ret (Ok s)
    end.

(** ** Lemmas *)

Section Runs_.
Context {Transform : string -> option string} {marshalGrant : Grant -> option string}
  {unmarshalGrant : string -> option Grant}
  (caller : EventStream.Caller) (eid : ID) (key : string).

Abbreviation signal := (signal Transform marshalGrant unmarshalGrant caller eid).
Abbreviation work := (work Transform marshalGrant unmarshalGrant caller eid).
Abbreviation Signal := (Signal Transform marshalGrant unmarshalGrant caller eid key).

(** The authority under which a signal is accepted: the Session [s] is active in the
    Execution's generation, the Execution [e] is running, the grant [g] is local, active in its
    row, the one whose bytes and links the Execution holds, and neither it nor the Execution
    is out of its time before and after the policy was asked. *)
Record signal_authorised (b : Binding) (s : Session.Session) (e : Execution.Execution) (stored : GrantRecord)
    (g : Grant) (before after : Time) : Prop := {
  sa_fence : Session.state s = Active /\ executionGeneration s = SessionGeneration b
     /\ Execution.state e = Running /\ AuthorityMode b = "LOCAL";
  sa_row : Rec_State stored = "ACTIVE" /\ marshalGrant g = Some (Rec_Snapshot stored)
     /\ Digest (Rec_Snapshot stored) = Rec_Digest stored;
  sa_links : GTenantID g = Execution.tenantID e /\ GSessionID g = SessionID (Execution.binding e)
     /\ GGeneration g = SessionGeneration (Execution.binding e)
     /\ bound Transform marshalGrant unmarshalGrant e s stored g;
  sa_live : nanos (IssuedAt g) <= nanos before < nanos (ExpiresAt g) /\ nanos before < nanos (deadline e)
     /\ nanos after < nanos (ExpiresAt g) /\ nanos after < nanos (deadline e)
}.

(** How an acceptance was computed under the binding [b], the Session [s], the
    Execution [e] and its grant [g]. *)
Record acceptance (p : Prepared) (record : Record_) (b : Binding) (s : Session.Session)
    (e : Execution.Execution) (stored : GrantRecord) (g : Grant) (before : Time) (n : Z) (ev : Event) (m : Message)
    (done : Record_) (o : SignalOperation) : Prop := {
  ac_authorised : signal_authorised b s e stored g before (O_CreatedAt o);
  ac_utc : is_utc (O_CreatedAt o);
  ac_operation : o = operation_of eid p (O_CreatedAt o);
  ac_rows :
     let metadata := marshal (signal_intent_json (intent_of eid p b e)) in
     signal_event caller eid p b e metadata n (O_CreatedAt o) = Ok ev
     /\ signal_message caller p metadata (O_CreatedAt o) = Ok m;
  ac_record : Succeed (Some record) (mkResponse 202 (marshal (operation_json o)) (O_ResourceLocation o))
     (P_Operation p) (ownerFence record) (O_CreatedAt o) = Ok done
}.

Definition signal_row (p : Prepared) : SignalRecord :=
  mkSignalRecord (P_Operation p) eid (P_Raw p) (Digest (P_Raw p)).

(** The calls of an acceptance, once the reservation was won. *)
Definition signal_trace (b : Binding) (q : SignalRequest) (s : Session.Session) (e : Execution.Execution) (grantID : ID)
    (stored : GrantRecord) (before after : Time) (sig : SignalRecord) (n : Z) (ev : Event) (m : Message) (done : Record_)
  : list (event (call policy)) :=
  [occurred (Sessions_GetForUpdate (SessionID b)) (Ok s); occurred (Executions_GetForUpdate eid) (Ok e);
   occurred (LocalGrants_Get grantID) (Ok stored); occurred Clock_Now before;
   occurred (Policy (SignalPolicy caller e q)) None; occurred Clock_Now after;
   occurred (Executions_AddSignal sig) (Ok tt); occurred (Events_NextSequence (SessionID b)) (Ok n);
   occurred (Events_Append ev) (Ok tt); occurred (Outbox_Add m) (Ok tt);
   occurred (Idempotency_Update done (ownerFence done)) (Ok tt)].

Lemma signal_run p record b tr res :
  runs (signal p record b) tr (Ok res) ->
  S_Replayed res = false /\ exists s e grantID stored g before after n ev m done,
    acceptance p record b s e stored g (UTC before) n ev m done (S_Operation res)
    /\ O_CreatedAt (S_Operation res) = UTC after /\ ParseID (AuthorityReference b) = Ok grantID
    /\ tr = signal_trace b (P_Request p) s e grantID stored before after (signal_row p) n ev m done.
Proof.
  unfold ExecutionSignal.signal, accept, domain, Repositories.store. intros R. explore R.
  repeat match goal with u : () |- _ => destruct u end.
  intros ->. split; [done |]. do 11 eexists. split; [| split; [reflexivity | split; [| reflexivity]]]; [| reflexivity].
  constructor; cbn [S_Operation O_CreatedAt operation_of];
    try match goal with H : Succeed _ _ _ _ _ = Ok _ |- Succeed _ _ _ _ _ = Ok _ => exact H end;
    repeat match goal with H : Succeed _ _ _ _ _ = Ok _ |- _ => clear H end; simp_bool; [| done | done | eauto].
  match goal with V : verifyLocalBinding _ _ _ _ _ _ = Ok _ |- _ => apply verify_bound in V as V' end.
  pose proof V' as [[M _] _ D L _]. unfold linked in L. apply negb_true_iff in L. simp_bool.
  constructor; repeat match goal with |- _ /\ _ => split end; first [done | congruence | tlia].
Qed.

Definition signal_recorded (record : Record_) (o : SignalOperation) : Prop :=
  Idempotency.state record = Succeeded /\ normalizationVersion record = "execution-signal-v1"
  /\ exists resp, response record = Some resp /\ HTTPStatus resp = 202
     /\ unmarshalOperation (Idempotency.Payload resp) = Some o.

Lemma signal_replay_run record tr res :
  runs (replay record) tr (Ok res) ->
  S_Replayed res = true /\ signal_recorded record (S_Operation res) /\ tr = [].
Proof.
  unfold replay. intros R. explore R. intros ->. simp_bool.
  split; [done |]. split; [| done]. split; [done |]. split; [done |]. eauto.
Qed.

Lemma signal_work_run p tr res :
  runs (work p) tr (Ok res) ->
  exists e0 record rest,
    Execution.tenantID e0 = tenant caller /\ Execution.id e0 = eid
    /\ tr = [occurred (Executions_Get eid) (Ok e0);
             occurred (Policy (SignalAccess caller (SessionID (Execution.binding e0)) eid)) true;
             occurred (Idempotency_Reserve (P_Candidate p)) (Ok (record, negb (S_Replayed res)))] ++ rest
    /\ requestDigest record = P_Digest p
    /\ if S_Replayed res then signal_recorded record (S_Operation res) /\ rest = []
       else exists s e grantID stored g before after n ev m done,
            acceptance p record (Execution.binding e0) s e stored g (UTC before) n ev m done (S_Operation res)
            /\ O_CreatedAt (S_Operation res) = UTC after
            /\ ParseID (AuthorityReference (Execution.binding e0)) = Ok grantID
            /\ rest = signal_trace (Execution.binding e0) (P_Request p) s e grantID stored before after
                        (signal_row p) n ev m done.
Proof.
  unfold ExecutionSignal.work, Repositories.store. intros R. cbn [pbind trigger runs] in R.
  destruct R as (answer & tr0 & -> & R). destruct answer as [e0 |]; [| by destruct R].
  destruct (_ || _) eqn:G in R; [by destruct R |]. cbn [pbind trigger runs] in R.
  destruct R as (allowed & tr1 & -> & R). destruct allowed; cbn [negb] in R; [| by destruct R].
  destruct R as (answer & tr2 & -> & R). destruct answer as [[record created] | x]; [| by destruct R].
  destruct (requestDigest record != _) eqn:D; [by destruct R |].
  apply orb_false_iff in G as [G1 G2]. apply negb_false_iff, bool_decide_eq_true in G1, G2, D.
  exists e0, record, tr2. split; [exact G1 |]. split; [exact G2 |]. destruct created; cbn [negb] in R.
  - apply signal_run in R as (Rf & X). rewrite Rf. cbn [negb]. split; [reflexivity |].
    split; [exact D | exact X].
  - apply signal_replay_run in R as (Rt & Rec & ->). rewrite Rt. done.
Qed.

Lemma signal_work_tx_free p : tx_free (work p).
Proof. unfold ExecutionSignal.work, replay, ExecutionSignal.signal, accept. tx_free_auto. Qed.

(** A run of [Signal] that was committed: its checks, its preparation and its callback,
    whose value is returned unless the answer to the commit was lost. *)
Lemma signal_create_run request tr x :
  runs (Signal request) tr x ->
  if committed tr then exists pre p now inner res c,
    x = answered c ErrUnavailable res /\ took_effect c = true
    /\ validID (tenant caller) = true /\ validID eid = true
    /\ (exists q raw ids, signal_body Transform request = Ok (q, raw)
          /\ prepare caller eid key q raw now ids = Some p /\ Forall (fun i => validID i = true) ids)
    /\ (Forall timely tr -> 1000 <= nanos now)
    /\ Forall (fun ev => tx_event ev = false) pre /\ writes pre = [] /\ idems pre = []
    /\ runs (work p) inner (Ok res)
    /\ tr = pre ++ transacted (tenant caller) inner c
  else exists e, x = Err e.
Proof.
  unfold ExecutionSignal.Signal. intros R.
  destruct (_ || _) eqn:G1 in R; [destruct R as [-> ->]; cbn; eauto |].
  destruct (_ || _) eqn:G2 in R; [destruct R as [-> ->]; cbn; eauto |].
  destruct (signal_body Transform request) as [[q raw] |]; [| destruct R as [-> ->]; cbn; eauto].
  apply orb_false_iff in G1 as [G1 _], G2 as [G2 _]. apply negb_false_iff in G1, G2.
  cbn [pbind trigger runs] in R. destruct R as (clock & tr1 & -> & R).
  apply runs_bind in R as (t1 & t2 & ids & -> & R1 & R).
  apply NewIDs_run in R1 as (F & W & D & L). set (pre := occurred Clock_Now clock :: t1).
  assert (Fp : Forall (fun ev => tx_event ev = false) pre) by (by constructor).
  change (occurred Clock_Now clock :: t1 ++ t2) with (pre ++ t2). rewrite committed_after by done.
  destruct ids as [ids |]; [| destruct R as [-> ->]; cbn; eauto].
  destruct (prepare _ _ _ _ _ _ _) as [p |] eqn:Pp in R; [| destruct R as [-> ->]; cbn; eauto].
  apply runs_bind in R as (t3 & t4 & y & -> & R2 & R).
  assert (t4 = [] /\ x = match y with Err e => Err (signal_error e) | Ok a => Ok a end) as [-> ->] by (by destruct y).
  clear R. rewrite app_nil_r. apply transaction_run in R2; [| apply signal_work_tx_free].
  destruct (committed t3); [| destruct R2 as [e ->]; eauto].
  destruct R2 as (inner & res & c & -> & T & _ & R2 & _ & _ & ->). rewrite answered_map.
  exists pre, p, (UTC clock), inner, res, c. destruct L as [_ L].
  split; [reflexivity |]. split; [exact T |].
  split; [exact G1 |]. split; [exact G2 |]. split; [by exists q, raw, ids |]. split.
  { intros Ti. apply Forall_cons in Ti as [Ti _]. exact Ti. }
  split; [exact Fp |]. split; [exact W |]. split; [exact D |]. split; [exact R2 | reflexivity].
Qed.

(** One that returned a value was committed. *)
Lemma signal_ok_committed request tr res : runs (Signal request) tr (Ok res) -> committed tr = true.
Proof. intros R%signal_create_run. destruct (committed tr); [done |]. by destruct R. Qed.

(** The operation survives its encoding. *)
Lemma operation_roundtrip o raw :
  ascii_text (O_ID o) -> ValidString (O_Kind o) = true -> ValidString (O_State o) = true ->
  ascii_text (O_ResourceLocation o) -> is_utc (O_CreatedAt o) ->
  Marshal (operation_json o) = Some raw -> unmarshalOperation raw = Some o.
Proof.
  intros A1 A2 A3 A4 T E. apply ascii_valid in A1, A4. unfold unmarshalOperation, operation_json in *.
  rewrite (scalars_roundtrip operation_fields _
    [set_ID (O_ID o); set_Kind (O_Kind o); set_State (O_State o);
     set_ResourceLocation (O_ResourceLocation o); set_CreatedAt (UTC (O_CreatedAt o))] raw zeroOperation E).
  - rewrite !UTC_of_utc by done. by destruct o.
  - scalars_auto.
  - done.
  - accepts_auto.
Qed.

(** The answer can be written as an RFC 3339 time: up to the year 9999. *)
Definition encodable (o : SignalOperation) : Prop := is_some (encode_time (O_CreatedAt o)) = true.

(** How the rows of an accepted signal fit together. *)
Record signal_consistent (b : Binding) (n : Z) (sig : SignalRecord) (ev : Event) (m : Message) (record done : Record_)
    (o : SignalOperation) : Prop := {
  sc_signal : Sig_ID sig = O_ID o /\ Sig_ExecutionID sig = eid /\ Sig_Digest sig = Digest (Sig_Payload sig);
  sc_event : sessionID ev = SessionID b /\ executionID ev = eid /\ typeName ev = "signal.accepted"
     /\ RequestID (correlation ev) = O_ID o
     /\ sequence ev = n;
  sc_message : Outbox.tenantID m = tenant caller /\ EventID (Outbox.envelope m) = eventID ev
     /\ AggregateID (Outbox.envelope m) = O_ID o /\ Outbox.Payload (Outbox.envelope m) = RuntimeEvent.payload ev
     /\ PayloadDigest (Outbox.envelope m) = Digest (RuntimeEvent.payload ev);
  sc_record : Idempotency.state done = Succeeded /\ Idempotency.id done = Idempotency.id record /\ exists payload,
     response done = Some (mkResponse 202 payload (O_ResourceLocation o))
     /\ (encodable o -> unmarshalOperation payload = Some o)
}.

Lemma signal_acceptance_consistent q raw now ids p record b s e stored g before n ev m done o :
  prepare caller eid key q raw now ids = Some p -> Forall (fun i => validID i = true) ids ->
  validID eid = true -> acceptance p record b s e stored g before n ev m done o ->
  signal_consistent b n (signal_row p) ev m record done o.
Proof.
  intros Pp Vi Ve [_ U Eo [Ev Em] Su].
  unfold signal_event in Ev. unfold signal_message in Em.
  assert (Sq : sequence ev = n).
  { unfold RuntimeEvent.New in Ev. destruct (_ || _) in Ev; [discriminate Ev |]. by injection Ev as <-. }
  apply event_new in Ev as (V1 & _ & V2 & V3 & _ & V4 & V5 & V6 & _).
  apply message_new in Em as (M1 & _ & M2). apply succeed_done in Su as (S1 & S2 & _ & S3 & _).
  assert (Io : O_ID o = P_Operation p /\ O_Kind o = "execution.signal" /\ O_State o = "PENDING"
               /\ O_ResourceLocation o = "/v1/executions/" +:+ eid) by (by rewrite Eo).
  destruct Io as (I1 & I2 & I3 & I4).
  assert (Vo : validID (P_Operation p) = true).
  { clear - Pp Vi. unfold prepare in Pp. repeat case_match; simplify_eq/=. rewrite !Forall_cons in Vi. tauto. }
  constructor.
  - cbn [signal_row Sig_ID Sig_ExecutionID Sig_Digest Sig_Payload]. by rewrite I1.
  - rewrite V5, I1. cbn [RequestID]. done.
  - rewrite M2, V6, V1, I1. done.
  - split; [exact S1 |]. split; [exact S3 |]. eexists. split; [exact S2 |]. unfold encodable. intros Y. unfold marshal.
    assert (X : is_some (Marshal (operation_json o)) = true).
    { unfold operation_json. rewrite struct_encodes. cbn [forallb snd encode is_some andb]. by rewrite Y. }
    destruct (Marshal (operation_json o)) as [text |] eqn:Mo; [| discriminate X]. cbn [default].
    apply (operation_roundtrip o); [| by rewrite I2 | by rewrite I3 | | exact U | exact Mo].
    + rewrite I1. by apply validID_ascii.
    + rewrite I4. apply ascii_app; [| by apply validID_ascii]. by repeat constructor.
Qed.

(** ** Over the idempotency table *)

Definition signal_digest (raw : string) : string := Digest (eid +:+ "/" +:+ raw).

Lemma signal_candidate q raw now ids p : prepare caller eid key q raw now ids = Some p ->
  scope (P_Candidate p) = scope_of caller eid key /\ requestDigest (P_Candidate p) = signal_digest raw
  /\ (1000 <= nanos now -> fresh (P_Candidate p)) /\ normalizationVersion (P_Candidate p) = "execution-signal-v1".
Proof.
  unfold prepare. intros Pp. repeat case_match; simplify_eq/=.
  match goal with N : Idempotency.New _ _ _ _ _ _ _ _ _ _ _ _ = Ok _ |- _ =>
    pose proof (New_fresh _ _ _ _ _ _ _ _ _ _ _ _ _ N); apply New_valid in N as (? & ? & ? & ? & ? & ? & ?) end.
  done.
Qed.

Lemma signal_idems request tr x rows rows' :
  runs (Signal request) tr x -> steps_rows rows tr = Some rows' -> Forall timely tr -> committed tr = true ->
  exists res c q raw p now ids record, x = answered c ErrUnavailable res /\ signal_body Transform request = Ok (q, raw)
    /\ prepare caller eid key q raw now ids = Some p /\ 1000 <= nanos now
    /\ if S_Replayed res
       then signal_recorded record (S_Operation res)
            /\ idem_steps (tenant caller) (r_committed rows)
                 [IReserve (P_Candidate p) (Ok (record, false))] = Some (r_committed rows')
       else exists done resp op fence at_,
            Succeed (Some record) resp op fence at_ = Ok done
            /\ (encodable (S_Operation res) ->
                unmarshalOperation (Idempotency.Payload resp) = Some (S_Operation res))
            /\ idem_steps (tenant caller) (r_committed rows)
                 ([IReserve (P_Candidate p) (Ok (record, true))] ++ []
                  ++ [IUpdate done (ownerFence done) (Ok tt)]) = Some (r_committed rows').
Proof.
  intros R T Ti Ct. apply signal_create_run in R. rewrite Ct in R. clear Ct.
  destruct R as (pre & p & now & inner & res & c & -> & Tc & _ & Ve & (q & raw & ids & Sb & Pp & Vi) & C & F & _ & D & R & ->).
  specialize (C Ti). rewrite steps_rows_app, (neutral_rows pre F D) in T.
  pose proof (tx_free_run _ (signal_work_tx_free p) _ _ R) as Fi. apply transaction_table in T; [| exact Fi | exact Tc].
  apply signal_work_run in R as (e0 & record & rest & _ & _ & -> & _ & R).
  exists res, c, q, raw, p, now, ids, record.
  split; [reflexivity |]. split; [exact Sb |]. split; [exact Pp |]. split; [exact C |].
  rewrite idems_app in T. change (idems [_; _; occurred (Idempotency_Reserve ?v) ?x]) with [IReserve v x] in T.
  destruct (S_Replayed res).
  - destruct R as (Rec & ->). split; [exact Rec | exact T].
  - destruct R as (s & e & grantID & stored & g & before & after & n & ev & m & done_ & Co & _ & _ & ->).
    change (idems (signal_trace _ _ _ _ _ _ _ _ _ _ _ _ ?d)) with [IUpdate d (ownerFence d) (Ok tt)] in T.
    pose proof (signal_acceptance_consistent _ _ _ _ _ _ _ _ _ _ _ _ _ _ _ _ _ Pp Vi Ve Co) as Cs.
    pose proof (ac_record _ _ _ _ _ _ _ _ _ _ _ _ _ Co) as Su.
    eexists done_, _, _, _, _. split; [exact Su |]. split; [| exact T].
    intros Y. apply succeed_done in Su as (_ & S2 & _).
    destruct (sc_record _ _ _ _ _ _ _ _ Cs) as (_ & _ & x & X1 & X2).
    rewrite S2 in X1. cbn [Idempotency.Payload]. injection X1 as X1. rewrite X1. by apply X2.
Qed.

Lemma signal_table request tr res rows rows' :
  sound (tenant caller) (r_committed rows) ->
  runs (Signal request) tr (Ok res) -> steps_rows rows tr = Some rows' -> Forall timely tr ->
  encodable (S_Operation res) ->
  sound (tenant caller) (r_committed rows') /\ exists v resp row q raw, row ∈ r_committed rows'
    /\ settled_row v resp row /\ scope v = scope_of caller eid key /\ requestDigest v = signal_digest raw
    /\ signal_body Transform request = Ok (q, raw)
    /\ unmarshalOperation (Idempotency.Payload resp) = Some (S_Operation res).
Proof.
  intros S R T Ti Y. destruct (signal_idems _ _ _ _ _ R T Ti (signal_ok_committed _ _ _ R))
    as (res' & c & q & raw & p & now & ids & record & E & Sb & Pp & C & X). symmetry in E. apply answered_ok in E as [-> _].
  destruct (signal_candidate _ _ _ _ _ Pp) as (Sc & Dc & Fr & Nc). specialize (Fr C).
  destruct (S_Replayed res).
  - destruct X as ((R1 & R2 & resp & R3 & _ & R4) & X). cbn [idem_steps idem_step] in X.
    destruct (Reserve _ _ _) as [t1 x] eqn:Rv. destruct (decide _) as [-> |] in X; [| discriminate X].
    injection X as <-. apply Reserve_lost in Rv as (-> & Hr & Es & Ed & En); [| done].
    split; [done |]. exists (P_Candidate p), resp, record, q, raw. split; [done |]. split; [by constructor | done].
  - destruct X as (done_ & resp & op & fence & at_ & Su & Un & X).
    eapply once_created in X as (S' & row & Hr & St); try done; [| by rewrite Sc; do 2 right; left | apply lawful_nil].
    split; [done |]. exists (P_Candidate p), resp, row, q, raw.
    split; [exact Hr |]. split; [exact St |]. split; [exact Sc |]. split; [exact Dc |].
    split; [exact Sb | by apply Un].
Qed.

(** What was prepared is for this very request. *)
Lemma signal_prepared q raw now ids p : prepare caller eid key q raw now ids = Some p ->
  P_Request p = q /\ P_Raw p = raw /\ P_Digest p = signal_digest raw.
Proof. unfold prepare. intros Pp. repeat case_match; simplify_eq/=. done. Qed.

End Runs_.

(** ** Theorems *)

Section Theorems.
Context (Transform : string -> option string) (marshalGrant : Grant -> option string)
  (unmarshalGrant : string -> option Grant).

(** C37: A signal is accepted atomically and only under live authority: whatever the
    clock, the randomness, the policies and the stores answer, a run that was not committed is
    an error, and one that was committed returns what it committed unless the answer to its
    commit was lost, which is reported as unavailable.  A committed run made exactly the calls
    that are listed: access to the stored Execution of the caller's tenant was granted, a record
    of this key was reserved for the digest of this request, and then either nothing was
    written and the recorded operation is returned, or the Session and the Execution were
    locked, the grant that the Execution names was read, the clock was read, the negotiated
    policy allowed this request, the clock was read again, and exactly the signal, its event
    under the sequence that was read, its message and the settled record were written, which
    agree with one another.  The Session that was locked is active in the Execution's
    generation, the Execution is running, and the grant, active in the row that was read, is
    the one to which they are bound and has begun and not expired at either reading, nor has
    the Execution's deadline passed. *)
Theorem signal_accept_atomic caller eid key request tr x
    (R : runs (Signal Transform marshalGrant unmarshalGrant caller eid key request) tr x) :
  if committed tr then exists pre now0 q raw ids p e0 record inner res c,
    x = answered c ErrUnavailable res /\ took_effect c = true
    /\ tr = pre ++ transacted (tenant caller)
              ([occurred (Executions_Get eid) (Ok e0);
                occurred (Policy (SignalAccess caller (SessionID (Execution.binding e0)) eid)) true;
                occurred (Idempotency_Reserve (P_Candidate p)) (Ok (record, negb (S_Replayed res)))] ++ inner) c
    /\ writes pre = [] /\ signal_body Transform request = Ok (q, raw)
    /\ prepare caller eid key q raw now0 ids = Some p
    /\ scope (P_Candidate p) = scope_of caller eid key
    /\ requestDigest (P_Candidate p) = signal_digest eid raw /\ requestDigest record = signal_digest eid raw
    /\ Execution.tenantID e0 = tenant caller /\ Execution.id e0 = eid
    /\ if S_Replayed res then inner = [] /\ signal_recorded record (S_Operation res)
       else exists s e grantID stored g before after sig n ev m done,
         inner = signal_trace caller eid (Execution.binding e0) q s e grantID stored before after sig n ev m done
         /\ ParseID (AuthorityReference (Execution.binding e0)) = Ok grantID
         /\ signal_authorised (Transform := Transform) (marshalGrant := marshalGrant) (unmarshalGrant := unmarshalGrant)
              (Execution.binding e0) s e stored g (UTC before) (UTC after)
         /\ Sig_Payload sig = raw /\ O_CreatedAt (S_Operation res) = UTC after
         /\ signal_consistent caller eid (Execution.binding e0) n sig ev m record done (S_Operation res)
  else exists e, x = Err e.
Proof.
  apply signal_create_run in R. destruct (committed tr); [| done].
  destruct R as (pre & p & now & inner & res & c & -> & T & _ & Ve & (q & raw & ids & Sb & Pp & Vi) & _ & _ & W & _ & R & ->).
  apply signal_work_run in R as (e0 & record & rest & E1 & E2 & -> & Rd & R).
  destruct (signal_candidate _ _ _ _ _ _ _ _ Pp) as (Sc & Dc & _).
  destruct (signal_prepared _ _ _ _ _ _ _ _ Pp) as (Pq & Pr & Pd). rewrite Pd in Rd.
  exists pre, now, q, raw, ids, p, e0, record, rest, res, c. do 11 (split; [done |]). destruct (S_Replayed res).
  - destruct R as (Rec & ->). split; [reflexivity | exact Rec].
  - destruct R as (s & e & grantID & stored & g & before & after & n & ev & m & done_ & Co & Ca & Pi & ->).
    rewrite Pq. eexists s, e, grantID, stored, g, before, after, _, n, ev, m, done_.
    split; [reflexivity |]. split; [exact Pi |]. split; [| split; [exact Pr | split; [exact Ca |]]].
    + rewrite <- Ca. exact (ac_authorised _ _ _ _ _ _ _ _ _ _ _ _ _ _ _ Co).
    + eapply signal_acceptance_consistent; [exact Pp | exact Vi | exact Ve | exact Co].
Qed.

(** Exactly once: after [Signal] accepted a signal under a key of an Execution, any
    later [Signal] of the same caller under the same key, whatever happened to the
    idempotency table in between, with whatever policy, clock and stores, either
    fails or replays the very same operation; the signal is never written again, and
    the call succeeds only for the same canonical body. *)
Theorem signal_once {S1 S2} caller eid key request1 request2
    (env1 : forall B, S1 -> call policy B -> S1 * B) (env2 : forall B, S2 -> call policy B -> S2 * B)
    s1 s2 rows1 rows2 st1 st2 res1 x2 ops
    (T1 : timely_env env1) (T2 : timely_env env2)
    (S : sound (tenant caller) (r_committed rows1))
    (H1 : run_state (records_handler env1) (s1, rows1)
            (Signal Transform marshalGrant unmarshalGrant caller eid key request1) = (st1, Ok res1))
    (Y : encodable (S_Operation res1))
    (V : Forall op_valid ops)
    (B : r_committed rows2 = apply_all (tenant caller) (r_committed (snd st1)) ops)
    (H2 : run_state (records_handler env2) (s2, rows2)
            (Signal Transform marshalGrant unmarshalGrant caller eid key request2) = (st2, x2)) :
  match x2 with
  | Err _ => True
  | Ok res2 => S_Replayed res2 = true /\ S_Operation res2 = S_Operation res1
      /\ exists q1 q2 raw1 raw2, signal_body Transform request1 = Ok (q1, raw1)
         /\ signal_body Transform request2 = Ok (q2, raw2) /\ signal_digest eid raw2 = signal_digest eid raw1
  end /\ r_committed (snd st2) = r_committed rows2.
Proof.
  apply run_records_timely in H1 as (tr1 & R1 & Q1 & F1); [| done].
  apply run_records_timely in H2 as (tr2 & R2 & Q2 & F2); [| done].
  apply (signal_table caller eid key request1 tr1 res1 rows1 (snd st1) S) in R1
    as (S1' & v & resp & row & q1 & raw1 & Hr & St & Sc & Dg & Sb1 & Pv); [| done | done | done].
  destruct (committed tr2) eqn:Ct;
    [| apply signal_create_run in R2; rewrite Ct in R2; destruct R2 as [e ->]; split; [done | by apply (uncommitted_table tr2)]].
  destruct (signal_idems _ _ _ _ _ _ _ _ R2 Q2 F2 Ct) as (res2 & c & q2 & raw2 & p & now & ids & record & -> & Sb2 & Pp & _ & X).
  destruct (signal_candidate _ _ _ _ _ _ _ _ Pp) as (Sp & Dp & _). rewrite B in X.
  assert (Pn : Action (scope v) ∈ pinned) by (rewrite Sc; do 2 right; left).
  assert (Es : scope (P_Candidate p) = scope v) by congruence.
  destruct (S_Replayed res2) eqn:Rp.
  - destruct X as ((_ & _ & resp' & X1 & _ & X2) & X).
    apply (once_replayed _ _ _ v _ resp row) in X as (_ & -> & Dd & [= X]); try done.
    rewrite (st_response _ _ _ St) in X1. injection X1 as <-.
    split; [| congruence]. unfold answered. destruct (reported c); [| done]. split; [done |]. split; [congruence |].
    exists q1, q2, raw1, raw2. split; [exact Sb1 |]. split; [exact Sb2 | congruence].
  - destruct X as (d & resp' & op & fence & at_ & _ & _ & X).
    by apply (once_replayed _ _ _ v _ resp row) in X as (K & _).
Qed.

End Theorems.

(** The policy refused the read. *)
Definition refused_here (ev : event (call read_policy)) : bool :=
  match ev with
  | existT _ (c, b) =>
      match c in call _ B return B -> bool with
      | Policy p => match p in read_policy B return B -> bool with ReadAccess _ _ _ => negb end
      | _ => fun _ => false
      end b
  end.

(** A read discloses exactly the stored state, and only with access: a result is the
    projection of the caller's own stored Execution, made after the policy allowed it
    in a transaction that wrote nothing; and when the policy refuses, the answer is
    that there is no such Execution. *)
Theorem execution_read_disclosure caller i tr x (R : runs (Get caller i) tr x) :
  writes tr = []
  /\ (existsb refused_here tr = true -> x = Err ErrNotFound)
  /\ match x with
     | Err _ => True
     | Ok s => exists e,
         tr = [occurred Tx_Begin true; occurred (Tx_SetTenant (EventStream.CTenantID caller)) true;
               occurred (Executions_Get i) (Ok e);
               occurred (Policy (ReadAccess caller (SessionID (Execution.binding e)) i)) true;
               occurred Tx_Commit CommitDone]
         /\ Execution.tenantID e = EventStream.CTenantID caller /\ Execution.id e = i
         /\ T_ID s = i /\ T_SessionID s = SessionID (Execution.binding e) /\ T_State s = Execution.state e
         /\ T_StateVersion s = Execution.stateVersion e
         /\ T_Generation s = SessionGeneration (Execution.binding e) /\ T_CreatedAt s = Execution.createdAt e
     end.
Proof.
  unfold Get, WithinTransaction, read_work, Repositories.store in R. cbv zeta in R. explore R; intros ->; simp_bool;
    try match goal with H : reported ?c = _ |- _ => destruct c; try discriminate H; clear H end;
    (split; [reflexivity |]); (split; [intros D; first [reflexivity | cbn in D; discriminate D] |]);
    try exact I; eexists; split_and!; first [reflexivity | eassumption].
Qed.

(** ** Witnesses *)

Definition ex_running : Execution.Execution := Execution.advanced ex_bound Running None (at_second 14).

Definition ex_signal_env (now : Time) : forall B, nat -> call policy B -> nat * B :=
  fun B n c =>
    match c in call _ B return nat * B with
    | Clock_Now => (n, now)
    | Entropy => (S n, Some ("0123456789abcde" +:+ String (byte_of (Z.of_nat n)) ""))
    | Tx_Begin | Tx_SetTenant _ => (n, true)
    | Tx_Commit => (n, CommitDone)
    | Tx_Rollback => (n, tt)
    | Idempotency_Reserve v => (n, Ok (v, true))
    | Idempotency_Update _ _ => (n, Ok tt)
    | Sessions_Add _ | Sessions_Activate _ _ _ | Executions_Add _ | Executions_AddInput _ _ _
    | Executions_AddSignal _ | LocalGrants_Add _ | Events_Append _ | Outbox_Add _ => (n, Ok tt)
    | Sessions_Get _ | Sessions_GetForUpdate _ => (n, Ok ex_active)
    | Executions_Get _ | Executions_GetForUpdate _ => (n, Ok ex_running)
    | LocalGrants_Get i => (n, Ok ex_grant_row)
    | Events_NextSequence _ => (n, Ok 9)
    | Policy p => (n, match p in policy B return B with SignalAccess _ _ _ => true | SignalPolicy _ _ _ => None end)
    end.

Definition ex_signal_caller : EventStream.Caller := EventStream.mkCaller id1 digest_a.
Definition ex_signal_key : string := "signal-execution-01".
Definition ex_signal_request : SignalRequest := mkSignalRequest "user_input" "{ }".

Definition ex_signal : prog (call policy) (result ExecError SignalResult) :=
  Signal ex_transform ex_marshal_grant ex_unmarshal_grant ex_signal_caller id1 ex_signal_key ex_signal_request.

Definition ex_signal_rows : Rows := mkRows [] [] "".

(** A signal, and an hour later the same request. *)
Lemma ex_signal_runs : exists o (st1 st2 : nat * Rows),
  run_state (records_handler (ex_signal_env (at_second 20))) (O, ex_signal_rows) ex_signal
    = (st1, Ok (mkSignalResult o false))
  /\ run_state (records_handler (ex_signal_env (at_second 3600))) (O, snd st1) ex_signal
    = (st2, Ok (mkSignalResult o true))
  /\ encodable o.
Proof.
  assert (E : match run_state (records_handler (ex_signal_env (at_second 20))) (O, ex_signal_rows) ex_signal with
              | (st1, Ok (mkSignalResult o false)) =>
                  snd (run_state (records_handler (ex_signal_env (at_second 3600))) (O, snd st1) ex_signal)
                  = Ok (mkSignalResult o true) /\ is_some (encode_time (O_CreatedAt o)) = true
              | _ => False
              end) by (vm_compute; split; reflexivity).
  destruct (run_state _ (O, ex_signal_rows) _) as [st1 [[o [|]] |]]; [destruct E | | destruct E].
  destruct E as [E Y]. exists o, st1.
  destruct (run_state _ (O, snd st1) _) as [st2 x2]. cbn [snd] in E. subst x2. exists st2.
  split; [reflexivity |]. split; [reflexivity | exact Y].
Qed.

Lemma signal_accept_atomic_witness :
  exists o tr, runs ex_signal tr (Ok (mkSignalResult o false))
    /\ exists e0 s e stored g before after record n sig ev m done,
       signal_authorised (Transform := ex_transform) (marshalGrant := ex_marshal_grant) (unmarshalGrant := ex_unmarshal_grant)
         (Execution.binding e0) s e stored g (UTC before) (UTC after)
       /\ signal_consistent ex_signal_caller id1 (Execution.binding e0) n sig ev m record done o.
Proof.
  destruct ex_signal_runs as (o & st1 & _ & E & _). apply run_records in E as (tr & R & _).
  pose proof (signal_accept_atomic ex_transform ex_marshal_grant ex_unmarshal_grant ex_signal_caller id1
              ex_signal_key ex_signal_request tr _ R) as H.
  rewrite (signal_ok_committed ex_signal_caller id1 ex_signal_key _ _ _ R) in H.
  destruct H as (pre & now0 & q & raw & ids & p & e0 & record & inner & res & c & Er & _ & _ & _ & _ & _ & _ & _ & _ & _ & _ & H).
  symmetry in Er. apply answered_ok in Er as [-> _].
  destruct H as (s & e & grantID & stored & g & before & after & sig & n & ev & m & d & _ & _ & A & _ & _ & C).
  exists o, tr. split; [exact R |]. exists e0, s, e, stored, g, before, after, record, n, sig, ev, m, d. exact (conj A C).
Defined.

Lemma signal_once_witness : exists o (st1 st2 : nat * Rows),
  run_state (records_handler (ex_signal_env (at_second 3600))) (O, snd st1) ex_signal
    = (st2, Ok (mkSignalResult o true))
  /\ r_committed (snd st2) = r_committed (snd st1).
Proof.
  destruct ex_signal_runs as (o & st1 & st2 & E1 & E2 & Y). exists o, st1, st2. split; [exact E2 |].
  refine (proj2 (signal_once ex_transform ex_marshal_grant ex_unmarshal_grant ex_signal_caller id1 ex_signal_key
            ex_signal_request ex_signal_request (ex_signal_env (at_second 20)) (ex_signal_env (at_second 3600))
            O O ex_signal_rows (snd st1) st1 st2 (mkSignalResult o false) (Ok (mkSignalResult o true)) []
            _ _ _ E1 Y _ _ E2)).
  - intros n. vm_compute. discriminate.
  - intros n. vm_compute. discriminate.
  - constructor; constructor.
  - constructor.
  - reflexivity.
Defined.

Definition ex_read_answers : forall B, call read_policy B -> B :=
  fun B c =>
    match c in call _ B return B with
    | Clock_Now => at_second 20
    | Entropy => None
    | Tx_Begin | Tx_SetTenant _ => true
    | Tx_Commit => CommitDone
    | Tx_Rollback => tt
    | Idempotency_Reserve v => Err StoreFailure
    | Idempotency_Update _ _ => Err StoreFailure
    | Sessions_Add _ | Sessions_Activate _ _ _ | Executions_Add _ | Executions_AddInput _ _ _
    | Executions_AddSignal _ | LocalGrants_Add _ | Events_Append _ | Outbox_Add _ => Err StoreFailure
    | Sessions_Get _ | Sessions_GetForUpdate _ => Ok ex_active
    | Executions_Get _ | Executions_GetForUpdate _ => Ok ex_running
    | LocalGrants_Get _ => Err StoreNotFound
    | Events_NextSequence _ => Err StoreFailure
    | Policy p => match p in read_policy B return B with ReadAccess _ _ _ => true end
    end.

Lemma execution_read_disclosure_witness :
  exists s, snd (execute ex_read_answers (Get ex_signal_caller id1)) = Ok s /\ T_State s = Running
    /\ writes (fst (execute ex_read_answers (Get ex_signal_caller id1))) = [].
Proof.
  eexists. split; [vm_compute; reflexivity |]. split; [reflexivity |].
  exact (proj1 (execution_read_disclosure ex_signal_caller id1 _ _
                  (execute_runs ex_read_answers (Get ex_signal_caller id1)))).
Defined.
