(* ===== verification/HarnessPort.v ===== *)
(** * internal/ports/harness: the harness adapter port

    capabilities.go, events.go and the data of adapter.go.  An adapter declares
    capabilities as a map; a missing entry is unsupported and an unknown name or
    level invalidates the whole declaration.  Every candidate event type belongs to
    one rule: its payload family, the capability it needs and the runtime event it
    may become. *)

From Stdlib Require Import ZArith Bool Lia.
From stdpp Require Import base strings list gmap.
From S2P Require Import Prelude Regex GoStd Primitives RuntimeBinding.

Inductive HarnessError : Type :=
| ErrInvalid | ErrUnsupported | ErrIncompatible | ErrStale | ErrConflict | ErrStartFailed
| ErrProtocol | ErrOutcomeUnknown | ErrStreamIntegrity | ErrCheckpoint.

#[export] Instance HarnessError_eq_dec : EqDecision HarnessError.
Proof. solve_decision. Defined.

(** ** capabilities.go *)

Definition HarnessCapability : Type := string.
Definition CapabilityLevel : Type := string.

Definition Required : CapabilityLevel := "REQUIRED".
Definition Supported : CapabilityLevel := "SUPPORTED".
Definition Unsupported : CapabilityLevel := "UNSUPPORTED".

Definition StructuredEvents : HarnessCapability := "structured-events".
Definition Streaming : HarnessCapability := "streaming".
Definition CheckpointPrepare : HarnessCapability := "checkpoint-prepare".
Definition StructuredToolEvents : HarnessCapability := "structured-tool-events".
Definition StructuredProcessEvents : HarnessCapability := "structured-process-events".
Definition UsageObservation : HarnessCapability := "usage-observation".
Definition LocalApprovalEvents : HarnessCapability := "local-approval-events".

Definition registered (c : HarnessCapability) : bool :=
  existsb (fun x => c == x)
    [StructuredEvents; Streaming; "resume"; "interrupt"; "signals"; CheckpointPrepare; "native-fork";
     StructuredToolEvents; StructuredProcessEvents; UsageObservation; LocalApprovalEvents; "multi-input"].

Definition Capabilities : Type := gmap HarnessCapability CapabilityLevel.

Definition level_ok (level : CapabilityLevel) : bool :=
  (level == Required) || (level == Supported) || (level == Unsupported).

(** The order in which the map is walked does not matter: every failure is the
    same error. *)
Definition Validate (c : Capabilities) : result HarnessError unit :=
  if forallb (fun nl => registered (fst nl) && level_ok (snd nl)) (map_to_list c)
  then Ok tt else Err ErrInvalid.

Definition Supports (c : Capabilities) (name : HarnessCapability) : bool :=
  registered name && ((c !! name == Some Required) || (c !! name == Some Supported)).

Definition Require (c : Capabilities) (names : list HarnessCapability) : result HarnessError unit :=
  let! _ := Validate c in
  if forallb (Supports c) names then Ok tt else Err ErrUnsupported.

(** ** adapter.go *)

Record VersionRange : Type := mkVersionRange { Minimum : string; Maximum : string }.

Record AdapterLimits : Type := mkAdapterLimits {
  InputBytes : Z; InputItems : Z; EventBytes : Z; EventsPerSecond : Z; BufferedEvents : Z;
  SignalBytes : Z; DiagnosticBytes : Z; VendorStatePaths : Z;
  ShutdownTimeout : Z; CheckpointTimeout : Z
}.

Record AdapterDescriptor : Type := mkAdapterDescriptor {
  Kind : string;
  ImplementationVersion : string;
  ContractVersion : string;
  HarnessProtocols : list VersionRange;
  AgentdProtocols : list VersionRange;
  VendorStateFormats : list string;
  d_Capabilities : Capabilities;
  Limits : AdapterLimits
}.

Record Fence : Type := mkFence {
  f_TenantID : ID; f_SessionID : ID; f_ExecutionID : ID; f_AttemptID : ID; f_SandboxBindingID : ID;
  f_Generation : Z; f_AttemptOrdinal : Z
}.

Record HarnessHandle : Type := mkHarnessHandle {
  hh_ID : ID;
  hh_ProcessInstanceID : ID;
  hh_Fence : Fence;
  hh_AdapterKind : string;
  hh_AdapterBuildDigest : string;
  hh_NegotiationDigest : string;
  hh_VendorSessionReference : string
}.

Record Content : Type := mkContent {
  Classification : string;
  Schema : string;
  Inline : string;
  ArtifactReference : string
}.

Record HarnessEvent : Type := mkHarnessEvent {
  StreamID : ID;
  EventID : ID;
  Operation : OperationIdentity;
  Handle : HarnessHandle;
  Sequence : Z;
  EType : string;
  SchemaVersion : string;
  VendorEventID : string;
  OccurredAt : Time;
  ObservedAt : Time;
  EContent : Content
}.

(** ** events.go *)

Definition EventSchemaVersion : string := "thinkpixel.harness-event/v1".

Definition HarnessStarted : string := "harness.started".
Definition HarnessReady : string := "harness.ready".
Definition HarnessExitObserved : string := "harness.exit-observed".
Definition ExecutionStarted : string := "execution.started".
Definition ExecutionProgress : string := "execution.progress".
Definition ExecutionCompletionObserved : string := "execution.completion-observed".
Definition ExecutionFailureObserved : string := "execution.failure-observed".
Definition MessageDelta : string := "message.delta".
Definition MessageCompleted : string := "message.completed".
Definition ProcessStarted : string := "process.started".
Definition ProcessOutput : string := "process.output".
Definition ProcessCompleted : string := "process.completed".
Definition ToolRequested : string := "tool.requested".
Definition ToolStarted : string := "tool.started".
Definition ToolCompleted : string := "tool.completed".
Definition ToolFailed : string := "tool.failed".
Definition ApprovalRequested : string := "approval.requested".
Definition ApprovalResolved : string := "approval.resolved".
Definition CheckpointPrepareStarted : string := "checkpoint.prepare.started".
Definition CheckpointPrepareCompleted : string := "checkpoint.prepare.completed".
Definition UsageObserved : string := "usage.observed".

Record EventRule : Type := mkEventRule {
  PayloadKind : string;
  Capability : HarnessCapability;
  RuntimeType : string
}.

(** [case a, b, c:] of a switch on a string. *)
Definition one_of (kind : string) (cases : list string) : bool := existsb (fun x => kind == x) cases.

Definition EventRuleFor (kind : string) : result HarnessError EventRule :=
  if one_of kind [HarnessStarted; HarnessReady; HarnessExitObserved; ExecutionStarted; ExecutionProgress;
                  ExecutionCompletionObserved; ExecutionFailureObserved]
  then Ok (mkEventRule "observation" StructuredEvents "")
  else if one_of kind [MessageDelta]
  then Ok (mkEventRule "message-delta" StructuredEvents "assistant.message.delta")
  else if one_of kind [MessageCompleted]
  then Ok (mkEventRule "message-completed" StructuredEvents "assistant.message.completed")
  else if one_of kind [ProcessStarted; ProcessOutput; ProcessCompleted]
  then Ok (mkEventRule "process" StructuredProcessEvents "")
  else if one_of kind [ToolRequested]
  then Ok (mkEventRule "tool" StructuredToolEvents "tool.requested")
  else if one_of kind [ToolStarted; ToolCompleted; ToolFailed]
  then Ok (mkEventRule "tool" StructuredToolEvents "tool.status_changed")
  else if one_of kind [ApprovalRequested]
  then Ok (mkEventRule "approval" LocalApprovalEvents "permission.requested")
  else if one_of kind [ApprovalResolved]
  then Ok (mkEventRule "approval" LocalApprovalEvents "permission.resolved")
  else if one_of kind [CheckpointPrepareStarted; CheckpointPrepareCompleted]
  then Ok (mkEventRule "checkpoint" CheckpointPrepare "")
  else if one_of kind [UsageObserved]
  then Ok (mkEventRule "usage" UsageObservation "")
  else Err ErrProtocol.

Definition Confidential : string := "Confidential".

Definition CheckEventDeclaration (e : HarnessEvent) (negotiated : Capabilities)
  : result HarnessError EventRule :=
  match EventRuleFor (EType e) with
  | Err _ => Err ErrProtocol
  | Ok rule =>
      if (SchemaVersion e != EventSchemaVersion) || (Schema (EContent e) != EventSchemaVersion)
         || (Classification (EContent e) != Confidential)
      then Err ErrProtocol
      else if negb (is_ok (Require negotiated [StructuredEvents; Capability rule]))
      then Err ErrUnsupported
      else Ok rule
  end.
