(* ===== verification/HarnessRegistry.v ===== *)
(** * internal/app/harnessregistry: explicitly installed harness adapters

    registry.go.  [New] takes a snapshot of the descriptors of the installed
    adapters; [Resolve] selects the one adapter whose build digest the caller pins.
    The semantic-version library is a parameter, and an adapter is an opaque value
    whose [Descriptor] may answer anything.  Proved: what [Resolve] returns is the
    installed adapter with that kind and digest, its descriptor is within every
    bound and covers the pinned versions, and no kind has two entries with one
    digest, so the selection is unique. *)

From Stdlib Require Import ZArith Bool Lia.
From stdpp Require Import base strings list gmap.
From S2P Require Import Prelude Regex GoStd Primitives Interaction HarnessPort.

(** [^[a-z0-9](?:[a-z0-9._-]{0,126}[a-z0-9])?$] *)
Definition kind_edge : cls := [(97, 122); (48, 57)].
Definition kind_class : cls := [(97, 122); (48, 57); (46, 46); (95, 95); (45, 45)].
Definition kindPattern : re :=
  RCat (RCls kind_edge)
    (RAlt REps (RCat (rep_upto 126 (RCls kind_class)) (RCls kind_edge))).

(** [^[A-Za-z0-9][A-Za-z0-9._/-]{0,127}$] *)
Definition format_class : cls := cls_alnum ++ [(46, 46); (95, 95); (47, 47); (45, 45)].
Definition formatPattern : re := RCat (RCls cls_alnum) (rep_upto 127 (RCls format_class)).

Section Registry.

(** [HarnessAdapter] values, and whether one is nil. *)
Variable Adapter : Type.
Variable nilAdapter : Adapter -> bool.

(** golang.org/x/mod/semver *)
Variables (IsValid : string -> bool) (Canonical Build Major Prerelease : string -> string).
Variable Compare : string -> string -> Z.

Record Registration : Type := mkRegistration { r_Adapter : Adapter; r_BuildDigest : string }.

Record entry : Type := mkEntry { registration : Registration; descriptor : AdapterDescriptor }.

Abbreviation Registry := (gmap string (list entry)).

Definition parse (s : string) : string * bool :=
  if (len s =? 0) || (128 <? len s) then ("", false)
  else let v := "v" +:+ s in (v, IsValid v && ((Canonical v +:+ Build v) == v)).

Definition range_ok (r : VersionRange) : bool :=
  let (lo, lok) := parse (Minimum r) in
  let (hi, hik) := parse (Maximum r) in
  lok && hik && (Major lo == Major hi) && negb (Compare hi lo <? 0).

Definition validRanges (ranges : list VersionRange) : bool :=
  if (Z.of_nat (length ranges) =? 0) || (16 <? Z.of_nat (length ranges)) then false
  else forallb range_ok ranges.

Definition contains (ranges : list VersionRange) (v : string) : bool :=
  existsb (fun r =>
    let lo := fst (parse (Minimum r)) in
    let hi := fst (parse (Maximum r)) in
    (Major v == Major lo) && (0 <=? Compare v lo) && (0 <=? Compare hi v)) ranges.

Definition limits_ok (l : AdapterLimits) : bool :=
  forallb (fun n => 0 <? n)
    [InputBytes l; InputItems l; EventBytes l; EventsPerSecond l; BufferedEvents l; SignalBytes l;
     DiagnosticBytes l; VendorStatePaths l; ShutdownTimeout l; CheckpointTimeout l].

Definition validDescriptor (d : AdapterDescriptor) : bool :=
  if negb (match_string kindPattern (Kind d)) || negb (snd (parse (ImplementationVersion d)))
     || negb (snd (parse (ContractVersion d))) || negb (validRanges (HarnessProtocols d))
     || negb (validRanges (AgentdProtocols d)) || (Z.of_nat (length (VendorStateFormats d)) =? 0)
     || (32 <? Z.of_nat (length (VendorStateFormats d))) || (12 <? Z.of_nat (size (d_Capabilities d)))
     || negb (is_ok (Validate (d_Capabilities d)))
  then false
  else forallb (match_string formatPattern) (VendorStateFormats d) && limits_ok (Limits d).

(** ** New *)

Inductive call : Type -> Type :=
| ContextErr : call bool
| Descriptor (a : Adapter) : call (option AdapterDescriptor).

(** The error of a cancelled context, or one of the port. *)
Inductive failure : Type := ContextError | Fail (e : HarnessError).

(** [append(r.entries[kind], e)] *)
Definition add_entry (r : Registry) (kind : string) (e : entry) : Registry :=
  <[kind := default [] (r !! kind) ++ [e]]> r.

Fixpoint register (r : Registry) (registrations : list Registration)
  : prog call (result failure Registry) :=
  match registrations with
  | [] => Ret (Ok r)
  | reg :: rest =>
      do! cancelled <- (trigger ContextErr : prog call bool);
      if cancelled then Ret (Err ContextError)
      else if nilAdapter (r_Adapter reg) || negb (match_string sha256_pattern (r_BuildDigest reg))
      then Ret (Err (Fail ErrInvalid))
      else
        do! described <- trigger (Descriptor (r_Adapter reg));
        match described with
        | None => Ret (Err (Fail ErrInvalid))
        | Some d =>
            do! cancelled <- (trigger ContextErr : prog call bool);
            if cancelled then Ret (Err ContextError)
            else if negb (validDescriptor d) then Ret (Err (Fail ErrInvalid))
            else if existsb (fun prior => r_BuildDigest (registration prior) == r_BuildDigest reg)
                      (default [] (r !! Kind d))
            then Ret (Err (Fail ErrConflict))
            else register (add_entry r (Kind d) (mkEntry reg d)) rest
        end
  end.

Definition New (registrations : list Registration) : prog call (result failure Registry) :=
  if (Z.of_nat (length registrations) =? 0) || (32 <? Z.of_nat (length registrations))
  then Ret (Err (Fail ErrInvalid))
  else register ∅ registrations.

(** ** Resolve *)

Record Selection : Type := mkSelection {
  s_Kind : string;
  s_BuildDigest : string;
  s_ContractVersion : string;
  s_HarnessVersion : string;
  s_AgentdVersion : string;
  s_VendorStateFormat : string;
  s_RequiredCapabilities : list HarnessCapability;
  s_AllowPrerelease : bool
}.

(** The checks on the candidate with the pinned digest. *)
Definition candidate_ok (s : Selection) (hv av : string) (d : AdapterDescriptor) : bool :=
  negb ((negb (s_AllowPrerelease s) && (Prerelease (fst (parse (ImplementationVersion d))) != ""))
        || (ContractVersion d != s_ContractVersion s) || negb (contains (HarnessProtocols d) hv)
        || negb (contains (AgentdProtocols d) av)
        || negb (one_of (s_VendorStateFormat s) (VendorStateFormats d))
        || negb (is_ok (Require (d_Capabilities d) (s_RequiredCapabilities s)))).

Fixpoint select (s : Selection) (hv av : string) (candidates : list entry) : result HarnessError Adapter :=
  match candidates with
  | [] => Err ErrIncompatible
  | c :: rest =>
      if r_BuildDigest (registration c) != s_BuildDigest s then select s hv av rest
      else if negb (candidate_ok s hv av (descriptor c)) then Err ErrIncompatible
      else Ok (r_Adapter (registration c))
  end.

(** [None] for a nil registry. *)
Definition Resolve (r : option Registry) (s : Selection) : result HarnessError Adapter :=
  if negb (match_string kindPattern (s_Kind s)) || negb (match_string sha256_pattern (s_BuildDigest s))
     || (12 <? Z.of_nat (length (s_RequiredCapabilities s)))
     || negb (match_string formatPattern (s_VendorStateFormat s)) then Err ErrInvalid
  else
    let (contract, cv) := parse (s_ContractVersion s) in
    let (hv, hok) := parse (s_HarnessVersion s) in
    let (av, aok) := parse (s_AgentdVersion s) in
    if negb cv || negb hok || negb aok then Err ErrInvalid
    else if negb (s_AllowPrerelease s)
            && ((Prerelease contract != "") || (Prerelease hv != "") || (Prerelease av != ""))
    then Err ErrIncompatible
    else match r with
    | None => Err ErrIncompatible
    | Some r => select s hv av (default [] (r !! s_Kind s))
    end.

(** ** The registry is what was installed *)

Definition digest_of (e : entry) : string := r_BuildDigest (registration e).

Definition installed (r : Registry) (e : entry) : Prop := e ∈ default [] (r !! Kind (descriptor e)).

(** An entry that comes from the registrations [regs] and the calls [tr]. *)
Record sound (regs : list Registration) (tr : list (event call)) (kind : string) (e : entry) : Prop := {
  so_kind : Kind (descriptor e) = kind;
  so_registered : registration e ∈ regs;
  so_described : In (occurred (Descriptor (r_Adapter (registration e))) (Some (descriptor e))) tr;
  so_adapter : nilAdapter (r_Adapter (registration e)) = false;
  so_digest : match_string sha256_pattern (digest_of e) = true;
  so_valid : validDescriptor (descriptor e) = true
}.

Definition well_formed (regs : list Registration) (tr : list (event call)) (r : Registry) : Prop :=
  map_Forall (fun kind es => Forall (sound regs tr kind) es /\ NoDup (map digest_of es)) r.

Lemma well_formed_lookup regs tr r kind : well_formed regs tr r ->
  Forall (sound regs tr kind) (default [] (r !! kind)) /\ NoDup (map digest_of (default [] (r !! kind))).
Proof.
  intros W. destruct (r !! kind) as [es |] eqn:E; [exact (W kind es E) |]. cbn. split; constructor.
Qed.

Lemma sound_more regs regs' tr tr' kind e :
  sound regs tr kind e -> regs ⊆ regs' -> (forall x, In x tr -> In x tr') -> sound regs' tr' kind e.
Proof. intros [K R D A G V] I J. split; auto. Qed.

Lemma well_formed_add regs tr r reg d :
  well_formed regs tr r ->
  sound (regs ++ [reg]) tr (Kind d) (mkEntry reg d) ->
  existsb (fun prior => r_BuildDigest (registration prior) == r_BuildDigest reg)
    (default [] (r !! Kind d)) = false ->
  well_formed (regs ++ [reg]) tr (add_entry r (Kind d) (mkEntry reg d)).
Proof.
  intros W S F. unfold add_entry. apply map_Forall_insert_2.
  - destruct (well_formed_lookup _ _ _ (Kind d) W) as [A N]. split.
    + apply Forall_app_2; [| constructor; [exact S | constructor]]. eapply Forall_impl; [exact A |].
      intros e E. eapply sound_more; [exact E | set_solver | done].
    + rewrite map_app. apply NoDup_app. split; [exact N |]. split; [| apply NoDup_singleton].
      intros x X Y. apply list_elem_of_singleton in Y as ->. apply list_elem_of_fmap in X as (e & X & I).
      rewrite <- not_true_iff_false in F. apply F. apply existsb_exists. exists e.
      split; [by apply list_elem_of_In |]. by apply bool_decide_eq_true.
  - intros kind es E. destruct (W kind es E) as [A N]. split; [| done].
    eapply Forall_impl; [exact A |]. intros e X. eapply sound_more; [exact X | set_solver | done].
Qed.

Lemma register_run rest : forall regs tr r t r',
  well_formed regs tr r -> (forall reg, reg ∈ regs -> exists e, installed r e /\ registration e = reg) ->
  runs (register r rest) t (Ok r') ->
  well_formed (regs ++ rest) (tr ++ t) r'
  /\ forall reg, reg ∈ regs ++ rest -> exists e, installed r' e /\ registration e = reg.
Proof.
  induction rest as [| reg rest IH]; intros regs tr r t r' W C R; cbn [register] in R.
  { destruct R as [-> [= ->]]. by rewrite !app_nil_r. }
  cbn [pbind trigger runs] in R. destruct R as (c1 & t1 & -> & R). destruct c1; [by destruct R as [_ [=]] |].
  destruct (_ || _) eqn:G in R; [by destruct R as [_ [=]] |]. apply orb_false_iff in G as [G1 G2].
  cbn [pbind trigger runs] in R. destruct R as ([d |] & t2 & -> & R); [| by destruct R as [_ [=]]].
  cbn [pbind trigger runs] in R. destruct R as (c2 & t3 & -> & R). destruct c2; [by destruct R as [_ [=]] |].
  destruct (validDescriptor d) eqn:V; cbn [negb] in R; [| by destruct R as [_ [=]]].
  destruct (existsb _ _) eqn:X in R; [by destruct R as [_ [=]] |].
  set (pre := [occurred ContextErr false; occurred (Descriptor (r_Adapter reg)) (Some d); occurred ContextErr false]).
  assert (W' : well_formed (regs ++ [reg]) (tr ++ pre) (add_entry r (Kind d) (mkEntry reg d))).
  { apply well_formed_add; [| | exact X].
    - intros kind es E. destruct (W kind es E) as [A N]. split; [| done].
      eapply Forall_impl; [exact A |]. intros e Y. eapply sound_more; [exact Y | done |].
      intros x I. apply in_app_iff. by left.
    - split; cbn; try done; [set_solver | apply in_app_iff; right; right; by left | by apply negb_false_iff in G2]. }
  apply (IH _ _ _ _ _ W') in R; [by rewrite <- !app_assoc in R |].
  intros x I. apply elem_of_app in I as [I | I].
  - destruct (C x I) as (e & Ie & <-). exists e. split; [| done]. unfold installed, add_entry in *.
    destruct (decide (Kind (descriptor e) = Kind d)) as [E |]; [| by rewrite lookup_insert_ne].
    rewrite E in *. rewrite lookup_insert_eq. cbn. apply elem_of_app. by left.
  - apply list_elem_of_singleton in I as ->. exists (mkEntry reg d). split; [| done].
    unfold installed, add_entry. cbn. rewrite lookup_insert_eq. cbn. set_solver.
Qed.

(** ** Selection *)

Lemma select_exact s hv av es a : NoDup (map digest_of es) ->
  select s hv av es = Ok a <->
  exists e, e ∈ es /\ digest_of e = s_BuildDigest s /\ candidate_ok s hv av (descriptor e) = true
    /\ r_Adapter (registration e) = a.
Proof.
  induction es as [| c es IH]; cbn [select map]; intros N.
  { split; [discriminate | intros (e & I & _); by apply elem_of_nil in I]. }
  apply NoDup_cons in N as [N1 N]. fold (digest_of c).
  destruct (bool_decide_reflect (digest_of c = s_BuildDigest s)) as [E | E]; cbn [negb].
  - split.
    + destruct (candidate_ok s hv av (descriptor c)) eqn:K; cbn; [| discriminate].
      intros [= <-]. exists c. split_and!; try done. by left.
    + intros (e & I & D & K & A). apply elem_of_cons in I as [-> | I].
      * by rewrite K, A.
      * destruct N1. rewrite E, <- D. by apply list_elem_of_fmap_2.
  - rewrite IH by done. split; intros (e & I & D & K & A); exists e; split_and!; try done; [by right |].
    apply elem_of_cons in I as [-> | I]; [congruence | done].
Qed.

(** The request is well formed: patterns, bounds, versions, and prereleases only
    when they are allowed. *)
Definition selection_ok (s : Selection) : bool :=
  match_string kindPattern (s_Kind s) && match_string sha256_pattern (s_BuildDigest s)
  && (Z.of_nat (length (s_RequiredCapabilities s)) <=? 12)
  && match_string formatPattern (s_VendorStateFormat s)
  && snd (parse (s_ContractVersion s)) && snd (parse (s_HarnessVersion s)) && snd (parse (s_AgentdVersion s))
  && (s_AllowPrerelease s
      || forallb (fun v => Prerelease (fst (parse v)) == "")
           [s_ContractVersion s; s_HarnessVersion s; s_AgentdVersion s]).

Lemma Resolve_select r s :
  Resolve (Some r) s = if selection_ok s
    then select s (fst (parse (s_HarnessVersion s))) (fst (parse (s_AgentdVersion s))) (default [] (r !! s_Kind s))
    else Resolve None s.
Proof.
  unfold Resolve, selection_ok. rewrite Z.leb_antisym. cbn [forallb].
  destruct (match_string kindPattern _), (match_string sha256_pattern _), (12 <? _),
    (match_string formatPattern _); cbn [negb orb andb]; try done.
  destruct (parse (s_ContractVersion s)) as [cn cv], (parse (s_HarnessVersion s)) as [hv hok],
    (parse (s_AgentdVersion s)) as [av aok]. cbn [fst snd].
  destruct cv, hok, aok; cbn [negb orb andb]; try done.
  destruct (s_AllowPrerelease s); cbn [negb andb orb]; [done |].
  by destruct (bool_decide (Prerelease cn = "")), (bool_decide (Prerelease hv = "")),
    (bool_decide (Prerelease av = "")).
Qed.

Lemma Resolve_None_err s a : Resolve None s <> Ok a.
Proof.
  unfold Resolve. destruct (_ || _); [done |]. destruct (parse _), (parse _), (parse _).
  destruct (_ || _); [done |]. by destruct (_ && _).
Qed.

(** A registry built from registrations selects exactly: [Resolve] returns an adapter
    if and only if the request is well formed and the adapter was installed with the
    requested kind and build digest and its descriptor covers the pinned versions,
    the state format and the capabilities.  Every registration is installed, every
    entry holds a descriptor that its own adapter gave and that is within the
    bounds, and one kind never holds two entries with one digest. *)
Theorem registry_resolution_exact regs tr r : runs (New regs) tr (Ok r) ->
  (forall s a, Resolve (Some r) s = Ok a <->
     selection_ok s = true
     /\ exists e, installed r e /\ Kind (descriptor e) = s_Kind s /\ digest_of e = s_BuildDigest s
          /\ candidate_ok s (fst (parse (s_HarnessVersion s))) (fst (parse (s_AgentdVersion s)))
               (descriptor e) = true
          /\ r_Adapter (registration e) = a)
  /\ (forall reg, reg ∈ regs -> exists e, installed r e /\ registration e = reg)
  /\ (forall e, installed r e -> sound regs tr (Kind (descriptor e)) e)
  /\ (forall kind, NoDup (map digest_of (default [] (r !! kind)))).
Proof.
  unfold New. intros R. destruct (_ || _) in R; [by destruct R as [_ [=]] |].
  destruct (register_run regs [] [] ∅ tr r) as [W C]; [apply map_Forall_empty | set_solver | exact R |].
  cbn [app] in *. split_and!; [| exact C | |].
  - intros s a. rewrite Resolve_select. destruct (well_formed_lookup _ _ _ (s_Kind s) W) as [A N].
    destruct (selection_ok s); [| split; [intros H; by apply Resolve_None_err in H | by intros [? _]]].
    rewrite select_exact by done. rewrite Forall_forall in A. split.
    + intros (e & I & H). split; [done |]. exists e. pose proof (so_kind _ _ _ _ (A e I)) as K.
      unfold installed. by rewrite K.
    + intros (_ & e & I & K & H). exists e. unfold installed in I. by rewrite K in I.
  - intros e I. destruct (well_formed_lookup _ _ _ (Kind (descriptor e)) W) as [A _].
    rewrite Forall_forall in A. exact (A e I).
  - intros kind. apply (well_formed_lookup _ _ _ kind W).
Qed.

End Registry.

(** ** Witness: one adapter, one release *)

Definition ex_descriptor : AdapterDescriptor :=
  mkAdapterDescriptor "codex-app-server" "1.0.0" "1.0.0" [mkVersionRange "1.0.0" "1.0.0"]
    [mkVersionRange "1.0.0" "1.0.0"] ["codex/v1"] {[StructuredEvents := Required]}
    (mkAdapterLimits 1 1 1 1 1 1 1 1 1 1).

(** A version library that knows one version. *)
Definition ex_valid (v : string) : bool := v == "v1.0.0".
Definition ex_compare (_ _ : string) : Z := 0.

Definition ex_handler (B : Type) (c : call unit B) : B :=
  match c with ContextErr _ => false | Descriptor _ _ => Some ex_descriptor end.

Definition ex_regs : list (Registration unit) := [mkRegistration unit tt digest_a].

Definition ex_new : prog (call unit) (result failure (gmap string (list (entry unit)))) :=
  New unit (fun _ => false) ex_valid id (fun _ => "") id ex_compare ex_regs.

Lemma ex_new_ok : is_ok (snd (execute ex_handler ex_new)) = true.
Proof. vm_compute. reflexivity. Qed.

Lemma registry_resolution_witness : exists r e, installed unit r e /\ digest_of unit e = digest_a.
Proof.
  pose proof (execute_runs ex_handler ex_new) as R. pose proof ex_new_ok as O.
  destruct (snd (execute ex_handler ex_new)) as [r |]; [| discriminate O].
  destruct (proj1 (proj2 (registry_resolution_exact unit (fun _ => false) ex_valid id (fun _ => "") id (fun _ => "")
    ex_compare ex_regs _ r R)) (mkRegistration unit tt digest_a)) as (e & I & E); [by left |].
  exists r, e. split; [exact I |]. unfold digest_of. by rewrite E.
Defined.
