(* ===== verification/CheckpointRestore.v ===== *)
(** * internal/app/checkpoint/restore.go: validation before a restore

    [Validate] checks a stored manifest against the trusted metadata of the
    checkpoint: its canonical form, its schema, its digests, its signature, the
    runtime it was made for, the workspace it names and the bytes of every vendor
    object.  JSON canonicalisation, the JSON schema and Ed25519 are third-party
    code and parameters; keys, compatibility, workspace and object storage are the
    trusted adapters of [RestoreChecks] and answer freely.  Proved: an accepted
    manifest is bound to the checkpoint in every field, and every adapter approved
    it. *)

From Stdlib Require Import ZArith Bool Lia Sorted.
From stdpp Require Import base strings list gmap.
From S2P Require Import Prelude Regex GoStd JsonDecoder JsonEncode JsonUnmarshal JsonRoundTrip.
From S2P Require Import Base64Url Primitives Interaction Checkpoint Sha256.

Inductive RestoreError : Type := ErrInvalidRestore | ErrIncompatible.

(** ** Data *)

Record VersionedName : Type := mkVersionedName { VN_Name : string; VN_Version : string }.

Record VendorObject : Type := mkVendorObject {
  VO_ID : string;
  VO_Reference : string;
  VO_MediaType : string;
  VO_Format : VersionedName;
  VO_Algorithm : string;
  VO_Digest : string;
  VO_Size : Z;
  VO_Classification : string;
  VO_Role : string
}.

Record WorkspaceManifest : Type := mkWorkspaceManifest {
  W_ID : ID;
  W_GenerationID : ID;
  W_Generation : Z;
  W_Snapshot : string;
  W_Root : string;
  W_Algorithm : string;
  W_EvidenceDigest : string
}.

Record RuntimeManifest : Type := mkRuntimeManifest {
  R_SpecID : string;
  R_SpecDigest : string;
  R_AdapterKind : string;
  R_AdapterVersion : string;
  R_AdapterBuild : string;
  R_Protocol : VersionedName;
  R_StateFormat : VersionedName;
  R_ProfileDigest : string
}.

Record LineageManifest : Type := mkLineage { L_Purpose : string; L_Parent : ID }.

Record IntegrityManifest : Type := mkIntegrityManifest {
  I_Canonicalization : string;
  I_Algorithm : string;
  I_Payload : string;
  I_Composite : string;
  I_SignatureAlgorithm : string;
  I_Issuer : string;
  I_Key : string;
  I_Signature : string;
  I_Signed : string
}.

Record restoreManifest : Type := mkManifest {
  M_Schema : string;
  M_ID : ID;
  M_Tenant : ID;
  M_Session : ID;
  M_Operation : ID;
  M_Created : string;
  M_Committed : string;
  M_Runtime : RuntimeManifest;
  M_Workspace : WorkspaceManifest;
  M_Vendors : list VendorObject;
  M_Lineage : LineageManifest;
  M_Integrity : IntegrityManifest
}.

#[export] Instance VersionedName_eq_dec : EqDecision VersionedName.
Proof. solve_decision. Defined.
#[export] Instance WorkspaceManifest_eq_dec : EqDecision WorkspaceManifest.
Proof. solve_decision. Defined.
#[export] Instance RuntimeManifest_eq_dec : EqDecision RuntimeManifest.
Proof. solve_decision. Defined.

(** The trusted metadata of a checkpoint. *)
Record RestoreTarget : Type := mkTarget {
  T_TenantID : ID;
  T_CheckpointID : ID;
  T_State : State;
  T_Binding : Binding;
  T_Workspace : WorkspaceManifest
}.

(** ** Decoding *)

Definition as_uint (t : jtree) (n : Z) : option Z := into_uint (fun x _ => x) t n.

Definition decode_name (t : jtree) (a : VersionedName) : option VersionedName :=
  members t a (fun ms =>
    let names := ["name"; "version"] in
    n ← get as_string names ms "name" (VN_Name a);
    v ← get as_string names ms "version" (VN_Version a);
    Some (mkVersionedName n v)).

Definition zeroName : VersionedName := mkVersionedName "" "".

Definition decode_vendor (t : jtree) (a : VendorObject) : option VendorObject :=
  members t a (fun ms =>
    let names := ["object_id"; "object_ref"; "media_type"; "state_format"; "digest_algorithm"; "digest";
                  "size_bytes"; "classification"; "role"] in
    i ← get as_string names ms "object_id" (VO_ID a);
    r ← get as_string names ms "object_ref" (VO_Reference a);
    m ← get as_string names ms "media_type" (VO_MediaType a);
    f ← get decode_name names ms "state_format" (VO_Format a);
    g ← get as_string names ms "digest_algorithm" (VO_Algorithm a);
    d ← get as_string names ms "digest" (VO_Digest a);
    s ← get as_int names ms "size_bytes" (VO_Size a);
    c ← get as_string names ms "classification" (VO_Classification a);
    o ← get as_string names ms "role" (VO_Role a);
    Some (mkVendorObject i r m f g d s c o)).

Definition zeroVendor : VendorObject := mkVendorObject "" "" "" zeroName "" "" 0 "" "".

(** An array is decoded over the elements that the slice already has. *)
Fixpoint decode_elements (ts : list jtree) (l : list VendorObject) : option (list VendorObject) :=
  match ts with
  | [] => Some []
  | t :: rest =>
      v ← decode_vendor t (default zeroVendor (head l));
      vs ← decode_elements rest (tail l);
      Some (v :: vs)
  end.

Definition decode_vendors (t : jtree) (l : list VendorObject) : option (list VendorObject) :=
  match t with
  | TreeNull => Some []
  | TreeArray ts => decode_elements ts l
  | _ => None
  end.

Definition decode_workspace (t : jtree) (a : WorkspaceManifest) : option WorkspaceManifest :=
  members t a (fun ms =>
    let names := ["workspace_id"; "generation_id"; "generation"; "snapshot_ref"; "manifest_root";
                  "digest_algorithm"; "storage_evidence_digest"] in
    i ← get as_string names ms "workspace_id" (W_ID a);
    g ← get as_string names ms "generation_id" (W_GenerationID a);
    n ← get as_uint names ms "generation" (W_Generation a);
    s ← get as_string names ms "snapshot_ref" (W_Snapshot a);
    r ← get as_string names ms "manifest_root" (W_Root a);
    d ← get as_string names ms "digest_algorithm" (W_Algorithm a);
    e ← get as_string names ms "storage_evidence_digest" (W_EvidenceDigest a);
    Some (mkWorkspaceManifest i g n s r d e)).

Definition decode_runtime (t : jtree) (a : RuntimeManifest) : option RuntimeManifest :=
  members t a (fun ms =>
    let names := ["agent_runtime_spec_id"; "agent_runtime_spec_digest"; "adapter_kind"; "adapter_version";
                  "adapter_build_digest"; "protocol"; "state_format"; "runtime_profile_digest"] in
    i ← get as_string names ms "agent_runtime_spec_id" (R_SpecID a);
    d ← get as_string names ms "agent_runtime_spec_digest" (R_SpecDigest a);
    k ← get as_string names ms "adapter_kind" (R_AdapterKind a);
    v ← get as_string names ms "adapter_version" (R_AdapterVersion a);
    b ← get as_string names ms "adapter_build_digest" (R_AdapterBuild a);
    p ← get decode_name names ms "protocol" (R_Protocol a);
    f ← get decode_name names ms "state_format" (R_StateFormat a);
    x ← get as_string names ms "runtime_profile_digest" (R_ProfileDigest a);
    Some (mkRuntimeManifest i d k v b p f x)).

Definition decode_lineage (t : jtree) (a : LineageManifest) : option LineageManifest :=
  members t a (fun ms =>
    let names := ["purpose"; "parent_checkpoint_id"] in
    p ← get as_string names ms "purpose" (L_Purpose a);
    i ← get as_string names ms "parent_checkpoint_id" (L_Parent a);
    Some (mkLineage p i)).

Definition decode_integrity (t : jtree) (a : IntegrityManifest) : option IntegrityManifest :=
  members t a (fun ms =>
    let names := ["canonicalization"; "digest_algorithm"; "payload_digest"; "composite_root";
                  "signature_algorithm"; "signer"; "key_id"; "signature"; "signed_at"] in
    c ← get as_string names ms "canonicalization" (I_Canonicalization a);
    d ← get as_string names ms "digest_algorithm" (I_Algorithm a);
    p ← get as_string names ms "payload_digest" (I_Payload a);
    r ← get as_string names ms "composite_root" (I_Composite a);
    s ← get as_string names ms "signature_algorithm" (I_SignatureAlgorithm a);
    i ← get as_string names ms "signer" (I_Issuer a);
    k ← get as_string names ms "key_id" (I_Key a);
    g ← get as_string names ms "signature" (I_Signature a);
    t ← get as_string names ms "signed_at" (I_Signed a);
    Some (mkIntegrityManifest c d p r s i k g t)).

Definition decode_manifest (t : jtree) (a : restoreManifest) : option restoreManifest :=
  members t a (fun ms =>
    let names := ["schema_version"; "checkpoint_id"; "tenant_id"; "session_id"; "operation_id";
                  "created_at"; "committed_at"; "runtime"; "workspace"; "vendor_state"; "lineage";
                  "integrity"] in
    v ← get as_string names ms "schema_version" (M_Schema a);
    i ← get as_string names ms "checkpoint_id" (M_ID a);
    t ← get as_string names ms "tenant_id" (M_Tenant a);
    s ← get as_string names ms "session_id" (M_Session a);
    o ← get as_string names ms "operation_id" (M_Operation a);
    c ← get as_string names ms "created_at" (M_Created a);
    m ← get as_string names ms "committed_at" (M_Committed a);
    r ← get decode_runtime names ms "runtime" (M_Runtime a);
    w ← get decode_workspace names ms "workspace" (M_Workspace a);
    x ← get decode_vendors names ms "vendor_state" (M_Vendors a);
    l ← get decode_lineage names ms "lineage" (M_Lineage a);
    g ← get decode_integrity names ms "integrity" (M_Integrity a);
    Some (mkManifest v i t s o c m r w x l g)).

Definition zeroManifest : restoreManifest :=
  mkManifest "" "" "" "" "" "" "" (mkRuntimeManifest "" "" "" "" "" zeroName zeroName "")
    (mkWorkspaceManifest "" "" 0 "" "" "" "") [] (mkLineage "" "")
    (mkIntegrityManifest "" "" "" "" "" "" "" "" "").

(** [json.Unmarshal(raw, &m)] *)
Definition unmarshalManifest (raw : string) : option restoreManifest :=
  t ← parse (to_bytes raw); decode_manifest t zeroManifest.

(** ** Helpers *)

(** [hash]: SHA-256 in lower-case hex. *)
Definition hash (raw : string) : string := hexEncode (Sum256 (to_bytes raw)).

(** Lower-case hex of 32 bytes.  A text that [hex.DecodeString] accepts is ASCII, so
    [strings.ToLower] changes it exactly when it has an upper-case letter. *)
Definition sha256Hex (value : string) : bool :=
  (len value =? 64) && forallb (fun b => negb ((65 <=? b) && (b <=? 90))) (to_bytes value)
  && is_some (hexDecode value).

(** The token loop that bounds the nesting; every token consumes a byte. *)
Fixpoint shallow (fuel : nat) (d : decoder) (depth : Z) : bool :=
  match fuel with
  | O => false
  | S n =>
      match Token d with
      | Err EOF => true
      | Err _ => false
      | Ok (Delim c, d') =>
          let depth := if (c =? 123) || (c =? 91) then depth + 1 else depth - 1 in
          if 16 <? depth then false else shallow n d' depth
      | Ok (_, d') => shallow n d' depth
      end
  end.

(** [time.Parse(time.RFC3339Nano, value)]: an hour may have one digit, the fraction may
    follow a comma, and an offset may reach 24:60. *)
Definition parse_fraction (rest : list Z) : Z * list Z :=
  match rest with
  | p :: q :: r => if ((p =? 46) || (p =? 44)) && Json.isDigit q then fraction 100000000 (q :: r) else (0, rest)
  | _ => (0, rest)
  end.

Definition parse_zone (text : list Z) : option (Z * Location) :=
  match text with
  | [c] => if c =? 90 then Some (0, LocUTC) else None
  | [s; h1; h2; c; m1; m2] =>
      match two h1 h2 0 24, two m1 m2 0 60 with
      | Some h, Some m =>
          if (c =? 58) && ((s =? 43) || (s =? 45))
          then let off := (h * 3600 + m * 60) * 1000000000 in
               Some (if s =? 43 then off else - off, LocZone (of_bytes text))
          else None
      | _, _ => None
      end
  | _ => None
  end.

Definition parse_hour (text : list Z) : option (Z * list Z) :=
  match text with
  | a :: b :: rest =>
      match digit a with
      | None => None
      | Some x =>
          match digit b with
          | Some y => if x * 10 + y <? 24 then Some (x * 10 + y, rest) else None
          | None => Some (x, b :: rest)
          end
      end
  | _ => None
  end.

Definition time_Parse (value : string) : option Time :=
  match to_bytes value with
  | y1 :: y2 :: y3 :: y4 :: s1 :: m1 :: m2 :: s2 :: d1 :: d2 :: s3 :: hour =>
      match two y1 y2 0 99, two y3 y4 0 99, two m1 m2 1 12, parse_hour hour with
      | Some ya, Some yb, Some m, Some (h, s4 :: i1 :: i2 :: s5 :: c1 :: c2 :: rest) =>
          let y := ya * 100 + yb in
          match two d1 d2 1 (days_in y m), two i1 i2 0 59, two c1 c2 0 59, parse_zone (snd (parse_fraction rest)) with
          | Some d, Some i, Some c, Some (off, location) =>
              if (s1 =? 45) && (s2 =? 45) && (s3 =? 84) && (s4 =? 58) && (s5 =? 58)
              then let seconds := (days_of y m d - 306) * 86400 + h * 3600 + i * 60 + c in
                   Some (mkTime (seconds * 1000000000 + fst (parse_fraction rest) - off) location)
              else None
          | _, _, _, _ => None
          end
      | _, _, _, _ => None
      end
  | _ => None
  end.

(** [json.Marshal] of a map of raw messages; nil is [null]. *)
Definition raw_map (m : gmap string string) : jvalue :=
  JMap (map (fun kv => (fst kv, JRaw (snd kv))) (map_to_list m)).

Definition marshal_raw_map (m : option (gmap string string)) : string :=
  match m with Some m => marshal (raw_map m) | None => "null" end.

Definition name_json (n : VersionedName) : jvalue :=
  JStruct [("name", JString (VN_Name n)); ("version", JString (VN_Version n))].

Definition workspace_json (w : WorkspaceManifest) : jvalue :=
  JStruct [("workspace_id", JString (W_ID w)); ("generation_id", JString (W_GenerationID w));
           ("generation", JUint (W_Generation w)); ("snapshot_ref", JString (W_Snapshot w));
           ("manifest_root", JString (W_Root w)); ("digest_algorithm", JString (W_Algorithm w));
           ("storage_evidence_digest", JString (W_EvidenceDigest w))].

(** The size of an object that is marshalled is not negative. *)
Definition vendor_json (v : VendorObject) : jvalue :=
  JStruct [("object_id", JString (VO_ID v)); ("object_ref", JString (VO_Reference v));
           ("media_type", JString (VO_MediaType v)); ("state_format", name_json (VO_Format v));
           ("digest_algorithm", JString (VO_Algorithm v)); ("digest", JString (VO_Digest v));
           ("size_bytes", JUint (VO_Size v)); ("classification", JString (VO_Classification v));
           ("role", JString (VO_Role v))].

Definition leaf_json (kind : string) (v : jvalue) : jvalue :=
  JMap [("type", JString kind); ("value", v)].

Definition leaves (m : restoreManifest) : list jvalue :=
  leaf_json "workspace" (workspace_json (M_Workspace m))
  :: map (fun v => leaf_json "vendor_state" (vendor_json v)) (M_Vendors m).

Definition runtime_of (b : Binding) : RuntimeManifest :=
  mkRuntimeManifest (RuntimeSpecID b) (RuntimeSpecDigest b) (AdapterKind b) (AdapterVersion b)
    (AdapterBuildDigest b) (mkVersionedName (ProtocolName b) (ProtocolVersion b))
    (mkVersionedName (StateFormatName b) (StateFormatVersion b)) (RuntimeProfileDigest b).

(** ** The trusted adapters *)

(** What [OpenVendor] returns: an error (with or without a reader), a nil reader, or
    a reader. *)
Inductive opened : Type := OpenFailed (has_reader : bool) | OpenNil | Opened.

Inductive call : Type -> Type :=
| ContextErr : call bool
| Keys (tenant : ID) (issuer key : string) (signed : Time) : call (option string)
| Compatible (runtime : RuntimeManifest) (vendors : list VendorObject) : call bool
| CheckWorkspace (tenant : ID) (w : WorkspaceManifest) : call bool
| OpenVendor (tenant : ID) (v : VendorObject) : call opened
| Copy (limit : Z) : call (option string)
| CloseReader : call bool.

(** [NewRestoreValidator]: the adapters are there, the schema compiles, and the byte
    limit is an exact integer. *)
Definition NewRestoreValidator (has_checks compiles : bool) (MaxVendorBytes : Z) : result RestoreError Z :=
  if negb has_checks || (MaxVendorBytes <=? 0) || (9007199254740991 <? MaxVendorBytes)
  then Err ErrInvalidRestore
  else if negb compiles then Err ErrInvalidRestore
  else Ok MaxVendorBytes.

Section Validate_.

(** jsoncanonicalizer.Transform, the compiled schema, and ed25519.Verify. *)
Variable Transform : string -> option string.
Variable schemaValid : string -> bool.
Variable Verify : string -> string -> list Z -> bool.

Definition jcs (v : jvalue) : option string := raw ← Marshal v; Transform raw.
Definition jcs_array (l : list jvalue) : option string := raw ← MarshalArray l; Transform raw.

(** Order, digests and sizes of the vendor objects. *)
Fixpoint vendors_ok (max total : Z) (previous : option string) (l : list VendorObject)
  : result RestoreError unit :=
  match l with
  | [] => Ok tt
  | v :: rest =>
      if VO_Algorithm v != "sha-256" then Err ErrIncompatible
      else if negb (sha256Hex (VO_Digest v)) || (VO_Size v <? 0) || (max - total <? VO_Size v)
              || match previous with Some p => String.leb (VO_ID v) p | None => false end
      then Err ErrInvalidRestore
      else vendors_ok max (total + VO_Size v) (Some (VO_ID v)) rest
  end.

Definition composite_prefix : string := "thinkpixel.checkpoint.composite/v1" +:+ String (byte_of 0) "".

(** The envelope without its signature and payload digest, canonical. *)
Definition payload_of (fields : gmap string string) : option string :=
  match unmarshalRawMap (default "" (fields !! "integrity")) with
  | None => None
  | Some integrity =>
      let kept := option_map (fun m => delete "payload_digest" (delete "signature" m)) integrity in
      jcs (raw_map (<["integrity" := marshal_raw_map kept]> fields))
  end.

(** [m] names the checkpoint of [t]. *)
Definition bound_to (m : restoreManifest) (t : RestoreTarget) : bool :=
  let b := T_Binding t in
  let w := M_Workspace m in
  negb ((M_ID m != T_CheckpointID t) || (M_Tenant m != T_TenantID t) || (M_Session m != SessionID b)
        || (M_Operation m != OperationID b) || (L_Parent (M_Lineage m) != ParentCheckpointID b)
        || (L_Purpose (M_Lineage m) != BPurpose b) || (w != T_Workspace t) || (W_ID w != WorkspaceID b)
        || (W_GenerationID w != WorkspaceGenerationID b) || negb (W_Generation w =? WorkspaceGeneration b)).

Definition digests_ok (m : restoreManifest) : bool :=
  forallb sha256Hex
    [I_Payload (M_Integrity m); I_Composite (M_Integrity m); W_Root (M_Workspace m);
     W_EvidenceDigest (M_Workspace m); R_SpecDigest (M_Runtime m); R_AdapterBuild (M_Runtime m);
     R_ProfileDigest (M_Runtime m)].

Definition profile_ok (m : restoreManifest) : bool :=
  let i := M_Integrity m in
  negb ((I_Canonicalization i != "RFC8785-JCS") || (I_Algorithm i != "sha-256")
        || (I_SignatureAlgorithm i != "Ed25519") || (W_Algorithm (M_Workspace m) != "sha-256")).

(** Everything that needs no adapter: the manifest and the time it was signed. *)
Definition inspect (max : Z) (raw : string) (target : RestoreTarget)
  : result RestoreError (restoreManifest * Time) :=
  if negb (shallow (S (length (to_bytes raw))) (NewDecoder (to_bytes raw)) 0) then Err ErrInvalidRestore
  else if Transform raw != Some raw then Err ErrInvalidRestore
  else if negb (schemaValid raw) then Err ErrInvalidRestore
  else match unmarshalManifest raw with
  | None => Err ErrInvalidRestore
  | Some m =>
      match unmarshalRawMap raw with
      | None => Err ErrIncompatible
      | Some fields =>
          let fields := default ∅ fields in
          if is_some (fields !! "extensions") then Err ErrIncompatible
          else if negb (profile_ok m) then Err ErrIncompatible
          else if negb (digests_ok m) then Err ErrInvalidRestore
          else if 9007199254740991 <? W_Generation (M_Workspace m) then Err ErrInvalidRestore
          else
            let! _ := vendors_ok max 0 None (M_Vendors m) in
            match time_Parse (I_Signed (M_Integrity m)), time_Parse (M_Created m), time_Parse (M_Committed m) with
            | Some signed, Some created, Some committed =>
                if Before signed created || Before committed signed then Err ErrInvalidRestore
                else if option_map hash (payload_of fields) != Some (I_Payload (M_Integrity m))
                then Err ErrInvalidRestore
                else if option_map (fun c => hash (composite_prefix +:+ c)) (jcs_array (leaves m))
                        != Some (I_Composite (M_Integrity m)) then Err ErrInvalidRestore
                else if negb (bound_to m target) then Err ErrInvalidRestore
                else if M_Runtime m != runtime_of (T_Binding target) then Err ErrIncompatible
                else Ok (m, signed)
            | _, _, _ => Err ErrInvalidRestore
            end
      end
  end.

(** The message under the signature. *)
Definition signed_message (m : restoreManifest) : option string :=
  jcs_array (map JString ["thinkpixel.checkpoint.signature/v1"; M_Schema m; M_ID m; M_Tenant m; M_Session m;
                          I_Payload (M_Integrity m); I_Signed (M_Integrity m)]).

Definition signature_ok (m : restoreManifest) (key : string) : bool :=
  match DecodeStrictString (I_Signature (M_Integrity m)), signed_message m with
  | Some sig, Some message => Verify key message sig
  | _, _ => false
  end.

Definition invalid : prog call (result RestoreError unit) := Ret (Err ErrInvalidRestore).

(** The bytes of every vendor object. *)
Fixpoint check_vendors (tenant : ID) (l : list VendorObject) : prog call (result RestoreError unit) :=
  match l with
  | [] =>
      do! cancelled <- (trigger ContextErr : prog call bool);
      if cancelled then invalid else Ret (Ok tt)
  | v :: rest =>
      do! cancelled <- (trigger ContextErr : prog call bool);
      if cancelled then invalid
      else
        do! o <- trigger (OpenVendor tenant v);
        match o with
        | OpenFailed false | OpenNil => invalid
        | OpenFailed true => do! _ <- trigger CloseReader; invalid
        | Opened =>
            do! copied <- trigger (Copy (VO_Size v + 1));
            do! closed <- trigger CloseReader;
            match copied with
            | None => invalid
            | Some stream =>
                let content := String.substring 0 (Z.to_nat (VO_Size v + 1)) stream in
                if negb closed || negb (len content =? VO_Size v) || (hash content != VO_Digest v)
                then invalid
                else check_vendors tenant rest
            end
        end
  end.

Definition Validate (max : Z) (raw : string) (target : RestoreTarget)
  : prog call (result RestoreError unit) :=
  do! cancelled <- trigger ContextErr;
  if cancelled || (T_State target != Committed) || (len raw =? 0) || (262144 <? len raw)
     || negb (ValidString raw) then invalid
  else match inspect max raw target with
  | Err e => Ret (Err e)
  | Ok (m, signed) =>
      do! key <- trigger (Keys (T_TenantID target) (I_Issuer (M_Integrity m)) (I_Key (M_Integrity m)) signed);
      match key with
      | None => invalid
      | Some key =>
          if negb (len key =? 32) || negb (signature_ok m key) then invalid
          else
            do! compatible <- trigger (Compatible (M_Runtime m) (M_Vendors m));
            if negb compatible then Ret (Err ErrIncompatible)
            else
              do! cancelled <- (trigger ContextErr : prog call bool);
              if cancelled then invalid
              else
                do! present <- trigger (CheckWorkspace (T_TenantID target) (M_Workspace m));
                if negb present then invalid else check_vendors (T_TenantID target) (M_Vendors m)
      end
  end.

(** ** What an accepted manifest has shown *)

(** The bytes of [v] were opened, read to the end and hashed. *)
Definition verified (tr : list (event call)) (tenant : ID) (v : VendorObject) : Prop :=
  exists before stream after,
    tr = before ++ [occurred (OpenVendor tenant v) Opened; occurred (Copy (VO_Size v + 1)) (Some stream);
                    occurred CloseReader true] ++ after
    /\ let content := String.substring 0 (Z.to_nat (VO_Size v + 1)) stream in
       len content = VO_Size v /\ hash content = VO_Digest v.

Lemma verified_cons x tr tenant v : verified tr tenant v -> verified (x :: tr) tenant v.
Proof. intros (b & s & a & -> & H). by exists (x :: b), s, a. Qed.

Lemma check_vendors_ok tenant l : forall tr,
  runs (check_vendors tenant l) tr (Ok tt) -> Forall (verified tr tenant) l.
Proof.
  induction l as [| v l IH]; intros tr R; [constructor |]. cbn [check_vendors] in R. unfold invalid in R.
  cbn [pbind trigger runs] in R. destruct R as (c & t1 & -> & R). destruct c; [by destruct R as [_ [=]] |].
  cbn [pbind trigger runs] in R. destruct R as (o & t2 & -> & R).
  destruct o as [[] | |]; cbn [pbind trigger runs] in R;
    [destruct R as (? & ? & _ & _ & [=]) | by destruct R as [_ [=]] | by destruct R as [_ [=]] |].
  destruct R as (copied & t3 & -> & closed & t4 & -> & R).
  destruct copied as [stream |]; [| by destruct R as [_ [=]]].
  destruct closed; cbn [negb orb] in R; [| by destruct R as [_ [=]]].
  set (content := String.substring _ _ stream) in R.
  destruct (len content =? VO_Size v) eqn:L; cbn [negb orb] in R; [| by destruct R as [_ [=]]].
  destruct (bool_decide_reflect (hash content = VO_Digest v)) as [H |]; cbn [negb] in R;
    [| by destruct R as [_ [=]]].
  constructor.
  - exists [occurred ContextErr false], stream, t4. split; [done |]. split; [exact (proj1 (Z.eqb_eq _ _) L) | exact H].
  - eapply Forall_impl; [exact (IH _ R) |]. intros w W. by do 4 apply verified_cons.
Qed.

(** Consecutive objects are in order. *)
Definition before (a b : VendorObject) : Prop := String.leb (VO_ID b) (VO_ID a) = false.

Lemma vendors_ok_sound max l : forall total previous, 0 <= total <= max ->
  vendors_ok max total previous l = Ok tt ->
  Forall (fun v => VO_Algorithm v = "sha-256" /\ sha256Hex (VO_Digest v) = true /\ 0 <= VO_Size v) l
  /\ total + foldr (fun v n => VO_Size v + n) 0 l <= max
  /\ (forall p, previous = Some p -> match l with v :: _ => String.leb (VO_ID v) p = false | [] => True end)
  /\ Sorted before l.
Proof.
  induction l as [| v l IH]; intros total previous T H; cbn [vendors_ok] in H.
  { cbn. split_and!; [constructor | lia | done | constructor]. }
  destruct (bool_decide_reflect (VO_Algorithm v = "sha-256")) as [A |]; cbn [negb] in H; [| discriminate H].
  destruct (_ || _) eqn:G in H; [discriminate H |]. apply orb_false_iff in G as [G P].
  apply orb_false_iff in G as [G G3]. apply orb_false_iff in G as [G1 G2].
  apply IH in H as (F & S & O & K); [| lia]. cbn [foldr]. split_and!.
  - constructor; [| exact F]. apply negb_false_iff in G1. split_and!; [done | done | lia].
  - lia.
  - intros p ->. exact P.
  - constructor; [exact K |]. specialize (O _ eq_refl). destruct l; constructor. exact O.
Qed.

(** Evidence that [raw] is the manifest of [target]. *)
Record authentic (max : Z) (raw : string) (target : RestoreTarget) (m : restoreManifest) (signed : Time)
  : Prop := {
  au_canonical : Transform raw = Some raw;
  au_schema : schemaValid raw = true;
  au_decoded : unmarshalManifest raw = Some m;
  au_identity : M_ID m = T_CheckpointID target /\ M_Tenant m = T_TenantID target
    /\ M_Session m = SessionID (T_Binding target) /\ M_Operation m = OperationID (T_Binding target)
    /\ L_Parent (M_Lineage m) = ParentCheckpointID (T_Binding target)
    /\ L_Purpose (M_Lineage m) = BPurpose (T_Binding target);
  au_workspace : M_Workspace m = T_Workspace target
    /\ W_ID (M_Workspace m) = WorkspaceID (T_Binding target)
    /\ W_GenerationID (M_Workspace m) = WorkspaceGenerationID (T_Binding target)
    /\ W_Generation (M_Workspace m) = WorkspaceGeneration (T_Binding target);
  au_runtime : M_Runtime m = runtime_of (T_Binding target);
  au_payload : exists fields payload, unmarshalRawMap raw = Some fields
    /\ default ∅ fields !! "extensions" = None
    /\ payload_of (default ∅ fields) = Some payload /\ hash payload = I_Payload (M_Integrity m);
  au_composite : exists composite, jcs_array (leaves m) = Some composite
    /\ hash (composite_prefix +:+ composite) = I_Composite (M_Integrity m);
  au_signed : time_Parse (I_Signed (M_Integrity m)) = Some signed;
  au_vendors : Forall (fun v => VO_Algorithm v = "sha-256" /\ sha256Hex (VO_Digest v) = true
                                /\ 0 <= VO_Size v) (M_Vendors m)
    /\ foldr (fun v n => VO_Size v + n) 0 (M_Vendors m) <= max /\ Sorted before (M_Vendors m)
}.

Lemma bound_to_ok m t : bound_to m t = true ->
  (M_ID m = T_CheckpointID t /\ M_Tenant m = T_TenantID t /\ M_Session m = SessionID (T_Binding t)
   /\ M_Operation m = OperationID (T_Binding t) /\ L_Parent (M_Lineage m) = ParentCheckpointID (T_Binding t)
   /\ L_Purpose (M_Lineage m) = BPurpose (T_Binding t))
  /\ M_Workspace m = T_Workspace t /\ W_ID (M_Workspace m) = WorkspaceID (T_Binding t)
  /\ W_GenerationID (M_Workspace m) = WorkspaceGenerationID (T_Binding t)
  /\ W_Generation (M_Workspace m) = WorkspaceGeneration (T_Binding t).
Proof.
  unfold bound_to. intros H. apply negb_true_iff in H.
  repeat (apply orb_false_iff in H as [H ?]). simp_bool. split_and!; try done. lia.
Qed.

Lemma inspect_ok max raw target m signed : 0 <= max ->
  inspect max raw target = Ok (m, signed) -> authentic max raw target m signed.
Proof.
  unfold inspect. intros P H.
  repeat match type of H with
  | (if ?b then Err _ else _) = _ => destruct b eqn:?; [discriminate H |]
  | match ?x with Some _ => _ | None => Err _ end = _ => destruct x eqn:?; [| discriminate H]
  | rbind ?x _ = _ => destruct x as [[] |] eqn:?; [cbn [rbind] in H | discriminate H]
  end.
  injection H as -> ->. simp_bool.
  match goal with V : vendors_ok _ _ _ _ = _ |- _ => apply vendors_ok_sound in V as (V1 & V2 & _ & V3); [| lia] end.
  match goal with B : bound_to _ _ = _ |- _ => apply bound_to_ok in B as (B1 & B2) end.
  split; try done.
  - match goal with A : option_map hash ?x = _ |- _ => destruct x as [payload |] eqn:E; [| discriminate A] end.
    cbn [option_map] in *. eexists _, payload. split_and!; [eassumption | assumption | exact E | congruence].
  - match goal with A : option_map _ (jcs_array ?x) = _ |- _ => destruct (jcs_array x) as [c |] eqn:E; [| discriminate A] end.
    cbn [option_map] in *. exists c. split; [done | congruence].
Qed.

Lemma NewRestoreValidator_ok checks schema n max :
  NewRestoreValidator checks schema n = Ok max -> n = max /\ 0 < max <= 9007199254740991.
Proof. unfold NewRestoreValidator. intros H. ok_inv H. lia. Qed.

(** C35: A manifest that passes validation is the manifest of the checkpoint being
    restored: it is canonical and matches the schema, names the checkpoint, tenant,
    session, operation, lineage, workspace generation and runtime of the trusted
    metadata, its payload digest and composite root are the digests of what it
    says, its signature verifies under the key that the key policy released for its
    issuer and signing time, the adapter, the workspace and every vendor object were
    approved, and the bytes of every vendor object were read to the end and have the
    size and digest it states, within the byte limit in all. *)
Theorem restore_validated checks schema n max raw target tr :
  NewRestoreValidator checks schema n = Ok max ->
  runs (Validate max raw target) tr (Ok tt) ->
  T_State target = Committed /\ 0 < len raw <= 262144
  /\ exists m signed key sig message,
       authentic max raw target m signed
       /\ In (occurred (Keys (T_TenantID target) (I_Issuer (M_Integrity m)) (I_Key (M_Integrity m)) signed)
                (Some key)) tr
       /\ DecodeStrictString (I_Signature (M_Integrity m)) = Some sig /\ signed_message m = Some message
       /\ Verify key message sig = true
       /\ In (occurred (Compatible (M_Runtime m) (M_Vendors m)) true) tr
       /\ In (occurred (CheckWorkspace (T_TenantID target) (M_Workspace m)) true) tr
       /\ Forall (verified tr (T_TenantID target)) (M_Vendors m).
Proof.
  intros New R. assert (P : 0 <= max) by (apply NewRestoreValidator_ok in New; lia).
  unfold Validate, invalid in R. cbn [pbind trigger runs] in R. destruct R as (c & t1 & -> & R).
  destruct (_ || _) eqn:G in R; [by destruct R as [_ [=]] |].
  destruct (inspect max raw target) as [[m signed] |] eqn:I; [| by destruct R as [_ [=]]].
  apply inspect_ok in I; [| exact P].
  cbn [pbind trigger runs] in R. destruct R as (key & t2 & -> & R).
  destruct key as [key |]; [| by destruct R as [_ [=]]].
  destruct (_ || _) eqn:K in R; [by destruct R as [_ [=]] |]. apply orb_false_iff in K as [_ K].
  apply negb_false_iff in K. unfold signature_ok in K.
  destruct (DecodeStrictString _) as [sig |] eqn:E1; [| discriminate K].
  destruct (signed_message m) as [message |] eqn:E2; [| discriminate K].
  cbn [pbind trigger runs] in R. destruct R as (ok & t3 & -> & R).
  destruct ok; cbn [negb] in R; [| by destruct R as [_ [=]]].
  cbn [pbind trigger runs] in R. destruct R as (c2 & t4 & -> & R). destruct c2; [by destruct R as [_ [=]] |].
  cbn [pbind trigger runs] in R. destruct R as (ok & t5 & -> & R).
  destruct ok; cbn [negb] in R; [| by destruct R as [_ [=]]].
  apply check_vendors_ok in R. simp_bool. split; [done |]. split; [unfold len in *; lia |].
  exists m, signed, key, sig, message. split; [exact I |]. split; [right; by left |].
  split; [exact E1 |]. split; [exact E2 |]. split; [exact K |]. split; [do 2 right; by left |].
  split; [do 4 right; by left |]. eapply Forall_impl; [exact R |]. intros v V. by do 5 apply verified_cons.
Qed.

End Validate_.

(** ** Witness: a manifest with one vendor object *)

Definition hex_a : string := String.substring 7 64 digest_a.

(** A JSON text written with apostrophes for quotes. *)
Definition quoted_text (s : string) : string :=
  of_bytes (map (fun b => if b =? 39 then 34 else b) (to_bytes s)).

Definition ex_manifest (payload composite : string) : string := quoted_text
  ("{'checkpoint_id':'" +:+ id1 +:+ "','committed_at':'2026-01-01T00:00:00Z','created_at':'2026-01-01T00:00:00Z',"
   +:+ "'integrity':{'canonicalization':'RFC8785-JCS','composite_root':'" +:+ composite
   +:+ "','digest_algorithm':'sha-256','key_id':'k','payload_digest':'" +:+ payload
   +:+ "','signature':'AAAA','signature_algorithm':'Ed25519','signed_at':'2026-01-01T00:00:00Z','signer':'s'},"
   +:+ "'lineage':{'purpose':'suspend'},'operation_id':'" +:+ id2 +:+ "','runtime':{'adapter_build_digest':'"
   +:+ hex_a +:+ "','adapter_kind':'codex','adapter_version':'1','agent_runtime_spec_digest':'" +:+ hex_a
   +:+ "','agent_runtime_spec_id':'spec','protocol':{'name':'p','version':'1'},'runtime_profile_digest':'"
   +:+ hex_a +:+ "','state_format':{'name':'f','version':'1'}},'schema_version':'thinkpixel.checkpoint/v1',"
   +:+ "'session_id':'" +:+ id3 +:+ "','tenant_id':'" +:+ id4 +:+ "','vendor_state':[{'classification':'Internal',"
   +:+ "'digest':'" +:+ hash "abc" +:+ "','digest_algorithm':'sha-256','media_type':'m','object_id':'o1',"
   +:+ "'object_ref':'r','role':'state','size_bytes':3,'state_format':{'name':'f','version':'1'}}],"
   +:+ "'workspace':{'digest_algorithm':'sha-256','generation':2,'generation_id':'" +:+ id2
   +:+ "','manifest_root':'" +:+ hex_a +:+ "','snapshot_ref':'snap','storage_evidence_digest':'" +:+ hex_a
   +:+ "','workspace_id':'" +:+ id1 +:+ "'}}").

Definition ex_workspace : WorkspaceManifest :=
  mkWorkspaceManifest id1 id2 2 "snap" hex_a "sha-256" hex_a.

Definition ex_target : RestoreTarget :=
  mkTarget id4 id1 Committed
    (mkBinding id3 id1 id2 2 id2 "" "suspend" "spec" hex_a "codex" "1" hex_a "p" "1" "f" "1" hex_a "")
    ex_workspace.

(** Texts that are already canonical, a schema and a signature that accept them. *)
Definition ex_raw : string :=
  let composite := match unmarshalManifest (ex_manifest "" "") with
                   | Some m => hash (composite_prefix +:+ default "" (jcs_array Some (leaves m)))
                   | None => ""
                   end in
  let payload := match unmarshalRawMap (ex_manifest "" composite) with
                 | Some (Some fields) => hash (default "" (payload_of Some fields))
                 | _ => ""
                 end in
  ex_manifest payload composite.

Definition ex_checks (B : Type) (c : call B) : B :=
  match c with
  | ContextErr => false
  | Keys _ _ _ _ => Some "0123456789abcdef0123456789abcdef"
  | Compatible _ _ => true
  | CheckWorkspace _ _ => true
  | OpenVendor _ _ => Opened
  | Copy _ => Some "abc"
  | CloseReader => true
  end.

Definition ex_validate : prog call (result RestoreError unit) :=
  Validate Some (fun _ => true) (fun _ _ sig => (length sig =? 3)%nat) 100 ex_raw ex_target.

Lemma ex_validates : is_ok (snd (execute ex_checks ex_validate)) = true.
Proof. vm_compute. reflexivity. Qed.

Lemma restore_validated_witness : exists tr m, M_ID m = id1 /\ Forall (verified tr id4) (M_Vendors m).
Proof.
  pose proof (execute_runs ex_checks ex_validate) as R. pose proof ex_validates as O.
  destruct (snd (execute ex_checks ex_validate)) as [[] |]; [| discriminate O].
  destruct (restore_validated Some (fun _ => true) (fun _ _ sig => (length sig =? 3)%nat) true true 100 100
    ex_raw ex_target _ eq_refl R) as (_ & _ & m & signed & key & sig & message & A & _ & _ & _ & _ & _ & _ & V).
  eexists _, m. split; [exact (proj1 (au_identity _ _ _ _ _ _ _ A)) | exact V].
Defined.
