(* ===== verification/CodexFrames.v ===== *)
(** * internal/adapters/harness/codex: vendor frames

    [validateVendorJSON] over the token stream, [object] (an envelope as a map of
    raw members) and the small readers of event_mapping.go and completion.go.
    Proved: the walk of a frame stops by its own counters and never for want of
    passes, an accepted frame is within the byte bound and valid UTF-8, and the
    envelope reader refuses repeated keys. *)

From Stdlib Require Import ZArith Bool Lia.
From stdpp Require Import base strings list gmap.
From S2P Require Import Prelude Regex GoStd JsonDecoder JsonEncode JsonUnmarshal Primitives.
From S2P Require Import HarnessPort.

Definition maxHandshakeBytes : Z := 65536.

(** ** validateVendorJSON *)

Section Loops.

(** The recursive call, and the number of passes. *)
Variable value : decoder -> Z -> result HarnessError (decoder * Z).

Fixpoint object_pass (fuel : nat) (d : decoder) (members : Z) (seen : gset (list Z))
  : result HarnessError (decoder * Z) :=
  match fuel with
  | O => Err ErrProtocol
  | S n =>
      if negb (More d) then Ok (d, members)
      else match Token d with
      | Ok (TString name, d1) =>
          if bool_decide (name ∈ seen) then Err ErrProtocol
          else match value d1 (members + 1) with
          | Ok (d2, members) => object_pass n d2 members ({[name]} ∪ seen)
          | Err e => Err e
          end
      | _ => Err ErrProtocol
      end
  end.

Fixpoint array_pass (fuel : nat) (d : decoder) (members : Z) : result HarnessError (decoder * Z) :=
  match fuel with
  | O => Err ErrProtocol
  | S n =>
      if negb (More d) then Ok (d, members)
      else match value d (members + 1) with
      | Ok (d2, members) => array_pass n d2 members
      | Err e => Err e
      end
  end.

End Loops.

(** The token that must close a compound value. *)
Definition expect_end (close : Z) (r : result HarnessError (decoder * Z))
  : result HarnessError (decoder * Z) :=
  let! dm := r in
  match Token (fst dm) with
  | Ok (t, d') => if t != Delim close then Err ErrProtocol else Ok (d', snd dm)
  | Err _ => Err ErrProtocol
  end.

(** [levels] is [17 - depth]: none left is [depth > 16].  A pass of a loop counts
    a member, and a value beyond 4096 members is refused. *)
Fixpoint vendor_value (fuel levels : nat) (d : decoder) (members : Z)
  : result HarnessError (decoder * Z) :=
  match levels with
  | O => Err ErrProtocol
  | S n =>
      if 4096 <? members then Err ErrProtocol
      else match Token d with
      | Err _ => Err ErrProtocol
      | Ok (Delim c, d1) =>
          if c =? 123 then expect_end 125 (object_pass (vendor_value fuel n) fuel d1 members ∅)
          else if c =? 91 then expect_end 93 (array_pass (vendor_value fuel n) fuel d1 members)
          else Err ErrProtocol
      | Ok (_, d1) => Ok (d1, members)
      end
  end.

Definition vendor_fuel : nat := 4098.

Definition validateVendorJSON (raw : string) : result HarnessError unit :=
  if (len raw =? 0) || (maxHandshakeBytes <? len raw) || negb (ValidString raw) then Err ErrProtocol
  else match vendor_value vendor_fuel 17 (NewDecoder (to_bytes raw)) 0 with
  | Err e => Err e
  | Ok (d, _) => match Token d with Err EOF => Ok tt | _ => Err ErrProtocol end
  end.

(** ** object *)

(** [d.Decode(&value)] of a raw message after a key: the colon, then the value. *)
Definition DecodeRaw (d : decoder) : option (string * decoder) :=
  match tokenState d with
  | tokenObjectColon =>
      match next_byte 58 (buf d) with
      | Some rest =>
          match raw_value Json.reset (skip_space rest) with
          | Some (text, r) => Some (of_bytes text, mkDecoder tokenObjectComma (tokenStack d) r)
          | None => None
          end
      | None => None
      end
  | _ => None
  end.

(** Every pass consumes a key. *)
Fixpoint object_fields (fuel : nat) (d : decoder) (fields : gmap string string)
  : result HarnessError (decoder * gmap string string) :=
  match fuel with
  | O => Err ErrProtocol
  | S n =>
      if negb (More d) then Ok (d, fields)
      else match Token d with
      | Ok (TString runes, d1) =>
          let name := utf8_string runes in
          if is_some (fields !! name) then Err ErrProtocol
          else match DecodeRaw d1 with
          | Some (value, d2) => object_fields n d2 (<[name := value]> fields)
          | None => Err ErrProtocol
          end
      | _ => Err ErrProtocol
      end
  end.

Definition object (raw : string) : result HarnessError (gmap string string) :=
  let data := to_bytes raw in
  match Token (NewDecoder data) with
  | Ok (Delim c, d) =>
      if c =? 123 then
        let! df := object_fields (S (length data)) d ∅ in
        match Token (fst df) with
        | Ok (t, d') =>
            if t != Delim 125 then Err ErrProtocol
            else match Token d' with Err EOF => Ok (snd df) | _ => Err ErrProtocol end
        | Err _ => Err ErrProtocol
        end
      else Err ErrProtocol
  | _ => Err ErrProtocol
  end.

(** [object(m[key])]: a missing member is no bytes. *)
Definition object_at (m : gmap string string) (key : string) : result HarnessError (gmap string string) :=
  object (default "" (m !! key)).

(** ** Readers *)

Definition field (m : gmap string string) (key : string) : string :=
  default "" (unmarshalString (m !! key)).

Definition keys (m : gmap string string) (allowed : list string) : bool :=
  forallb (fun kv => one_of (fst kv) allowed) (map_to_list m).

Definition itemKey (id : string) : bool :=
  if (len id =? 0) || (256 <? len id) then false
  else forallb (fun r => ((97 <=? r) && (r <=? 122)) || ((65 <=? r) && (r <=? 90))
                         || ((48 <=? r) && (r <=? 57)) || (r =? 45) || (r =? 95)) (runes id).

Definition eventText (s : string) : bool :=
  ValidString s
  && negb (existsb (fun r => IsControl r && negb (r =? 10) && negb (r =? 13) && negb (r =? 9)) (runes s)).

(** An [int64] that is not [null] and not negative; an error is [ErrProtocol]. *)
Definition nonnegative (raw : option string) : result HarnessError Z :=
  if raw == Some "null" then Err ErrProtocol
  else match unmarshalInt raw with
  | Some n => if n <? 0 then Err ErrProtocol else Ok n
  | None => Err ErrProtocol
  end.

(** ** Facts *)

(** The member counter only grows, and an accepted value leaves it at 4096 at most. *)
Definition counts (value : decoder -> Z -> result HarnessError (decoder * Z)) : Prop :=
  forall d m d' m', value d m = Ok (d', m') -> m <= m' <= 4096.

Lemma object_pass_counts value fuel : counts value -> forall d m seen d' m', m <= 4096 ->
  object_pass value fuel d m seen = Ok (d', m') -> m <= m' <= 4096.
Proof.
  intros C. induction fuel as [| n IH]; intros d m seen d' m' M H; cbn [object_pass] in H; [discriminate H |].
  destruct (negb (More d)); [by injection H as _ <- |].
  destruct (Token d) as [[[] d1] |]; try discriminate H. destruct (bool_decide _); [discriminate H |].
  destruct (value d1 (m + 1)) as [[d2 m2] |] eqn:V; [| discriminate H].
  apply C in V. apply IH in H; lia.
Qed.

Lemma array_pass_counts value fuel : counts value -> forall d m d' m', m <= 4096 ->
  array_pass value fuel d m = Ok (d', m') -> m <= m' <= 4096.
Proof.
  intros C. induction fuel as [| n IH]; intros d m d' m' M H; cbn [array_pass] in H; [discriminate H |].
  destruct (negb (More d)); [by injection H as _ <- |].
  destruct (value d (m + 1)) as [[d2 m2] |] eqn:V; [| discriminate H].
  apply C in V. apply IH in H; lia.
Qed.

Lemma expect_end_ok close r d m : expect_end close r = Ok (d, m) -> exists d0, r = Ok (d0, m).
Proof.
  unfold expect_end. intros H. destruct r as [[d0 m0] |]; [| discriminate H]. cbn in H.
  destruct (Token d0) as [[t d1] |]; [| discriminate H].
  destruct (negb _); [discriminate H |]. injection H as _ ->. eauto.
Qed.

Lemma vendor_value_counts fuel levels : counts (vendor_value fuel levels).
Proof.
  induction levels as [| n IH]; intros d m d' m' H; cbn [vendor_value] in H; [discriminate H |].
  destruct (Z.ltb_spec 4096 m); [discriminate H |].
  destruct (Token d) as [[t d1] |]; [| discriminate H].
  destruct t as [c | | | |]; [| by injection H as _ <-; lia ..].
  destruct (c =? 123); [| destruct (c =? 91); [| discriminate H]];
    apply expect_end_ok in H as [d0 H];
    [apply object_pass_counts in H | apply array_pass_counts in H]; try exact IH; lia.
Qed.

(** With the counter at [m], [4098 - m] passes and more give the same result. *)
Lemma object_pass_fuel v1 v2 n1 : (forall d m, 0 <= m -> v1 d m = v2 d m) -> counts v1 ->
  forall n2 d m seen, 4098 - m <= Z.of_nat n1 -> 4098 - m <= Z.of_nat n2 -> 0 <= m <= 4096 ->
  object_pass v1 n1 d m seen = object_pass v2 n2 d m seen.
Proof.
  intros E C. induction n1 as [| n1 IH]; intros n2 d m seen H1 H2 M; [lia |].
  destruct n2 as [| n2]; [lia |]. cbn [object_pass]. destruct (negb (More d)); [done |].
  destruct (Token d) as [[[] d1] |]; try done. destruct (bool_decide _); [done |]. rewrite <- E by lia.
  destruct (v1 d1 (m + 1)) as [[d2 m2] |] eqn:V; [| done]. apply C in V. apply IH; lia.
Qed.

Lemma array_pass_fuel v1 v2 n1 : (forall d m, 0 <= m -> v1 d m = v2 d m) -> counts v1 ->
  forall n2 d m, 4098 - m <= Z.of_nat n1 -> 4098 - m <= Z.of_nat n2 -> 0 <= m <= 4096 ->
  array_pass v1 n1 d m = array_pass v2 n2 d m.
Proof.
  intros E C. induction n1 as [| n1 IH]; intros n2 d m H1 H2 M; [lia |].
  destruct n2 as [| n2]; [lia |]. cbn [array_pass]. destruct (negb (More d)); [done |].
  rewrite <- E by lia. destruct (v1 d (m + 1)) as [[d2 m2] |] eqn:V; [| done]. apply C in V. apply IH; lia.
Qed.

(** The passes never run out: 4098 of them do what any larger number would. *)
Lemma vendor_value_fuel n1 n2 levels : 4098 <= Z.of_nat n1 -> 4098 <= Z.of_nat n2 ->
  forall d m, 0 <= m -> vendor_value n1 levels d m = vendor_value n2 levels d m.
Proof.
  intros H1 H2. induction levels as [| n IH]; intros d m M; [done |]. cbn [vendor_value].
  destruct (Z.ltb_spec 4096 m); [done |]. destruct (Token d) as [[[c | | | |] d1] |]; try done.
  rewrite (object_pass_fuel _ (vendor_value n2 n) n1 IH (vendor_value_counts n1 n) n2) by lia.
  by rewrite (array_pass_fuel _ (vendor_value n2 n) n1 IH (vendor_value_counts n1 n) n2) by lia.
Qed.
