(* ===== verification/CodexStream.v ===== *)
(** * internal/adapters/harness/codex: the event stream of a turn

    events.go, event_mapping.go, completion.go and the reader side of interrupt.go.
    The stream reads vendor frames one at a time and turns each into at most one
    candidate event.  Its state is a record; [normalize] and [Next] are programs over
    the clock, entropy, the content policy, the vendor pipe and the concurrency
    around them (locks, cancellation, a closed subscription), whose answers are
    unconstrained. *)

From Stdlib Require Import ZArith Bool Lia.
From stdpp Require Import base strings list gmap.
From S2P Require Import Prelude Regex GoStd JsonDecoder JsonEncode JsonUnmarshal Primitives.
From S2P Require Import Interaction RuntimeBinding RuntimeEvent HarnessPort CodexFrames Sha256.

Definition Kind_ : string := "codex-app-server".

(** ** Payloads (ports/harness/events.go) *)

Record ObservationPayload : Type := mkObservation { ReasonCode : string; ResultReference : string }.
Record UsagePayload : Type := mkUsage { InputTokens : Z; OutputTokens : Z }.

(** The payload structs, and the fields the adapter sets. *)
Inductive payload : Type :=
| PObservation (o : ObservationPayload)
| PMessageDelta (MessageID : ID) (Text : string)
| PMessageCompleted (MessageID : ID) (FirstSequence LastSequence : Z)
| PProcess (ProcessID : ID) (OutputReference : string) (ExitCode : option Z)
| PTool (ToolCallID : ID)
| PUsage (u : UsagePayload).

(** The decimal text of a signed integer. *)
Definition int_text (n : Z) : string :=
  if n <? 0 then "-" +:+ of_bytes (decimal (- n)) else of_bytes (decimal n).

Definition payload_json (p : payload) : jvalue :=
  JStruct match p with
  | PObservation o => omitempty "reason_code" (ReasonCode o)
                      ++ omitempty "result_reference" (ResultReference o)
  | PMessageDelta i t => [("message_id", JString i); ("text", JString t)]
  | PMessageCompleted i f l => [("message_id", JString i); ("first_sequence", JUint f);
                                ("last_sequence", JUint l)]
  | PProcess i r e => [("process_id", JString i)] ++ omitempty "output_reference" r
                      ++ match e with Some n => [("exit_code", JRaw (int_text n))] | None => [] end
  | PTool i => [("tool_call_id", JString i)]
  | PUsage u => [("input_tokens", JUint (InputTokens u)); ("output_tokens", JUint (OutputTokens u))]
  end.

(** ** State *)

(** [text] is the bytes written to the running hash, [None] for a nil hash. *)
Record eventItem : Type := mkItem {
  it_id : ID;
  it_kind : string;
  start : list Z;
  completion_sum : list Z;
  done_ : bool;
  suppressed : bool;
  text : option (list Z);
  first : Z;
  last_ : Z
}.

(** The part of [Client] that the stream uses. *)
Record Client : Type := mkClient {
  threadID : string;
  turnID : string;
  turnOperation : string;
  eventsOpened : bool;
  interruptAcknowledged : bool;
  pending : list string;
  pendingBytes : Z
}.

(** [nil], an [EventPolicy], or one that is also a [ResultReferencePolicy]. *)
Inductive Policy : Type := NilPolicy | ContentPolicy | ResultPolicy.

Record eventStream : Type := mkStream {
  client : Client;
  handle : HarnessHandle;
  operation : OperationIdentity;
  capabilities : Capabilities;
  limits : AdapterLimits;
  policy : Policy;
  id : ID;
  sequence : Z;
  started : bool;
  end_ : bool;
  failed : option HarnessError;
  items : gmap string eventItem;
  nextRead : Time;
  usage : option UsagePayload;
  completion : option ObservationPayload
}.

Definition with_client (s : eventStream) (c : Client) : eventStream :=
  mkStream c (handle s) (operation s) (capabilities s) (limits s) (policy s) (id s) (sequence s)
    (started s) (end_ s) (failed s) (items s) (nextRead s) (usage s) (completion s).
Definition with_sequence (s : eventStream) (n : Z) : eventStream :=
  mkStream (client s) (handle s) (operation s) (capabilities s) (limits s) (policy s) (id s) n
    (started s) (end_ s) (failed s) (items s) (nextRead s) (usage s) (completion s).
Definition with_started (s : eventStream) : eventStream :=
  mkStream (client s) (handle s) (operation s) (capabilities s) (limits s) (policy s) (id s) (sequence s)
    true (end_ s) (failed s) (items s) (nextRead s) (usage s) (completion s).
Definition with_end (s : eventStream) : eventStream :=
  mkStream (client s) (handle s) (operation s) (capabilities s) (limits s) (policy s) (id s) (sequence s)
    (started s) true (failed s) (items s) (nextRead s) (usage s) None.
Definition with_failed (s : eventStream) (e : HarnessError) : eventStream :=
  mkStream (client s) (handle s) (operation s) (capabilities s) (limits s) (policy s) (id s) (sequence s)
    (started s) (end_ s) (Some e) (items s) (nextRead s) (usage s) (completion s).
Definition with_item (s : eventStream) (k : string) (i : eventItem) : eventStream :=
  mkStream (client s) (handle s) (operation s) (capabilities s) (limits s) (policy s) (id s) (sequence s)
    (started s) (end_ s) (failed s) (<[k := i]> (items s)) (nextRead s) (usage s) (completion s).
Definition with_nextRead (s : eventStream) (t : Time) : eventStream :=
  mkStream (client s) (handle s) (operation s) (capabilities s) (limits s) (policy s) (id s) (sequence s)
    (started s) (end_ s) (failed s) (items s) t (usage s) (completion s).
Definition with_usage (s : eventStream) (u : UsagePayload) : eventStream :=
  mkStream (client s) (handle s) (operation s) (capabilities s) (limits s) (policy s) (id s) (sequence s)
    (started s) (end_ s) (failed s) (items s) (nextRead s) (Some u) (completion s).
Definition with_completion (s : eventStream) (p : ObservationPayload) : eventStream :=
  mkStream (client s) (handle s) (operation s) (capabilities s) (limits s) (policy s) (id s) (sequence s)
    (started s) (end_ s) (failed s) (items s) (nextRead s) (usage s) (Some p).

(** ** Calls *)

(** How a wait on the timer, the context and the subscription ends. *)
Inductive wake : Type := Proceed | Cancelled | Unsubscribed.

Inductive gate : Type := StreamGate | ClientGate.

Inductive call : Type -> Type :=
| Now : call Time
| Entropy : call (option string)
| MessageText (item : ID) (content : string) : call (option string)
| PolicyOutput (item : ID) (content : string) : call (option string)
| PolicyReference (op : ID) (reason : string) : call (option string)
| ReadSlice : call (option string)
| LoadInterruptSent : call bool
| TryLock (g : gate) : call bool
| Closed : call bool
| Wait (until : Time) : call wake
| Poll : call wake
| ContextErr : call bool.

Definition NewID (now : Time) : prog call (result IDError ID) :=
  do! random <- trigger Entropy;
  Ret (NewIDFrom now (option_map to_bytes random)).

(** What a method returns: no event and no error is [Ok None]. *)
Inductive failure : Type := Fail (e : HarnessError) | EndOfFile | NilPointer.

Definition outcome : Type := result failure (option HarnessEvent).

Definition fails (s : eventStream) (e : HarnessError) : prog call (eventStream * outcome) :=
  Ret (s, Err (Fail e)).

Definition silent (s : eventStream) : prog call (eventStream * outcome) := Ret (s, Ok None).

(** ** emit *)

Definition max_uint64 : Z := two64 - 1.

Definition envelope (s : eventStream) (i : ID) (now : Time) (kind raw : string) : HarnessEvent :=
  mkHarnessEvent (id s) i (operation s) (handle s) (u64 (sequence s + 1)) kind EventSchemaVersion ""
    now now (mkContent Confidential EventSchemaVersion raw "").

Definition emit (s : eventStream) (kind : string) (p : payload) : prog call (eventStream * outcome) :=
  match Marshal (payload_json p) with
  | None => fails s ErrStreamIntegrity
  | Some raw =>
      if (EventBytes (limits s) <? len raw) || (sequence s =? max_uint64) then fails s ErrStreamIntegrity
      else
        do! t <- trigger Now;
        let now := UTC t in
        do! i <- NewID now;
        match i with
        | Err _ => fails s ErrOutcomeUnknown
        | Ok i =>
            let e := envelope s i now kind raw in
            match CheckEventDeclaration e (capabilities s) with
            | Err err => fails s err
            | Ok _ => Ret (with_sequence s (u64 (sequence s + 1)), Ok (Some e))
            end
        end
  end.

(** ** completion.go *)

Definition bucket_keys : list string :=
  ["inputTokens"; "outputTokens"; "totalTokens"; "cachedInputTokens"; "cacheWriteInputTokens";
   "reasoningOutputTokens"].

(** One of the two usage objects: the known keys, each a non-negative integer. *)
Definition bucket_ok (u : gmap string string) (name : string) : bool :=
  match object_at u name with
  | Err _ => false
  | Ok b =>
      keys b bucket_keys
      && forallb (fun key => ((key == "cacheWriteInputTokens") && negb (is_some (b !! key)))
                             || is_ok (nonnegative (b !! key)))
           ["inputTokens"; "outputTokens"; "totalTokens"; "cachedInputTokens"; "reasoningOutputTokens";
            "cacheWriteInputTokens"]
  end.

(** [n, _ := nonnegative(raw)] *)
Definition count_of (raw : option string) : Z :=
  match nonnegative raw with Ok n => n | Err _ => 0 end.

Definition captureUsage (s : eventStream) (p : gmap string string) : result HarnessError eventStream :=
  if negb (is_ok (Require (capabilities s) [UsageObservation])) then Err ErrUnsupported
  else if negb (keys p ["threadId"; "turnId"; "tokenUsage"]) then Err ErrProtocol
  else match object_at p "tokenUsage" with
  | Err _ => Err ErrProtocol
  | Ok u =>
      if negb (keys u ["total"; "last"; "modelContextWindow"]) then Err ErrProtocol
      else if negb (bucket_ok u "total" && bucket_ok u "last") then Err ErrProtocol
      else if match u !! "modelContextWindow" with
              | Some raw => (raw != "null") && negb (is_ok (nonnegative (Some raw)))
              | None => false
              end then Err ErrProtocol
      else
        let total := match object_at u "total" with Ok b => b | Err _ => ∅ end in
        let input := count_of (total !! "inputTokens") in
        let output := count_of (total !! "outputTokens") in
        if match usage s with
           | Some v => (input <? InputTokens v) || (output <? OutputTokens v)
           | None => false
           end then Err ErrStreamIntegrity
        else Ok (with_usage s (mkUsage input output))
  end.

Definition finish (s : eventStream) (p : ObservationPayload) : prog call (eventStream * outcome) :=
  let kind := if ReasonCode p == "failed" then ExecutionFailureObserved else ExecutionCompletionObserved in
  do! r <- emit s kind (PObservation p);
  match snd r with
  | Ok e => Ret (with_end (fst r), Ok e)
  | Err e => Ret (fst r, Err e)
  end.

Definition turn_keys : list string :=
  ["id"; "items"; "itemsView"; "status"; "error"; "startedAt"; "completedAt"; "durationMs"].

Definition conclude (s : eventStream) (p : ObservationPayload) : prog call (eventStream * outcome) :=
  match usage s with
  | Some u => emit (with_completion s p) UsageObserved (PUsage u)
  | None => finish s p
  end.

Definition complete (s : eventStream) (turn : gmap string string) : prog call (eventStream * outcome) :=
  if negb (keys turn turn_keys) then fails s ErrProtocol
  else
    let reason := field turn "status" in
    if negb (one_of reason ["completed"; "interrupted"; "failed"]) then fails s ErrProtocol
    else if (reason == "completed") && negb (forallb (fun ki => done_ (snd ki)) (map_to_list (items s)))
    then fails s ErrStreamIntegrity
    else match policy s with
    | ResultPolicy =>
        do! ref <- trigger (PolicyReference (OperationIdentity_ID (operation s)) reason);
        match ref with
        | None => fails s ErrProtocol
        | Some ref =>
            if (ref != "") && negb (is_ok (ValidateReference ref)) then fails s ErrProtocol
            else conclude s (mkObservation reason ref)
        end
    | _ => conclude s (mkObservation reason "")
    end.

(** ** interrupt.go: the reader's side *)

Definition interruptResponse (c : Client) (f : gmap string string) : prog call (Client * result HarnessError unit) :=
  do! sent <- trigger LoadInterruptSent;
  if negb sent || interruptAcknowledged c || negb (size f =? 2)%nat || (default "" (f !! "id") != "4")
  then Ret (c, Err ErrProtocol)
  else match object_at f "result" with
  | Ok r => if negb (size r =? 0)%nat then Ret (c, Err ErrProtocol)
            else Ret (mkClient (threadID c) (turnID c) (turnOperation c) (eventsOpened c) true
                        (pending c) (pendingBytes c), Ok tt)
  | Err _ => Ret (c, Err ErrProtocol)
  end.

Definition with_pending (c : Client) (l : list string) (n : Z) : Client :=
  mkClient (threadID c) (turnID c) (turnOperation c) (eventsOpened c) (interruptAcknowledged c) l n.

Definition readInterruptFrame (c : Client) : prog call (Client * result HarnessError unit) :=
  if interruptAcknowledged c then Ret (c, Ok tt)
  else
    do! frame <- trigger ReadSlice;
    match frame with
    | None => Ret (c, Err ErrOutcomeUnknown)
    | Some raw =>
        if negb (is_ok (validateVendorJSON raw)) then Ret (c, Err ErrProtocol)
        else match object raw with
        | Err e => Ret (c, Err e)
        | Ok f =>
            if is_some (f !! "id") then interruptResponse c f
            else if negb (keys f ["method"; "params"; "emittedAtMs"]) || (field f "method" == "")
            then Ret (c, Err ErrProtocol)
            else match object_at f "params" with
            | Err e => Ret (c, Err e)
            | Ok _ =>
                if (32 <=? Z.of_nat (length (pending c))) || (maxHandshakeBytes <? pendingBytes c + len raw)
                then Ret (c, Err ErrStreamIntegrity)
                else Ret (with_pending c (pending c ++ [raw]) (pendingBytes c + len raw), Ok tt)
            end
        end
    end.

Definition readEventFrame (c : Client) : prog call (Client * option string) :=
  match pending c with
  | [] => do! frame <- trigger ReadSlice; Ret (c, frame)
  | raw :: rest => Ret (with_pending c rest (pendingBytes c - len raw), Some raw)
  end.

(** ** event_mapping.go *)

(** A member that must be a non-negative [int64] and not [null]. *)
Definition stamp_ok (raw : option string) : bool :=
  (raw != Some "null") && match unmarshalInt raw with Some n => negb (n <? 0) | None => false end.

(** What an item of each kind may contain and which capability it needs. *)
Definition agent_message_keys : list string :=
  ["id"; "type"; "text"; "phase"; "delivery"; "memoryCitation"; "questions"].
Definition command_keys : list string :=
  ["id"; "type"; "command"; "cwd"; "commandActions"; "aggregatedOutput"; "exitCode"; "durationMs";
   "processId"; "status"; "source"; "pluginId"; "scriptPath"].
Definition tool_call_keys : list string :=
  ["id"; "type"; "server"; "tool"; "arguments"; "status"; "result"; "error"; "durationMs"; "appContext";
   "mcpAppResourceUri"; "pluginId"; "readOnlyHint"].

(** The switch on the kind: nothing to report ([Ok None]), or the capability. *)
Definition item_kind (v : gmap string string) : result HarnessError (option HarnessCapability) :=
  let kind := field v "type" in
  if one_of kind ["reasoning"; "userMessage"; "hookPrompt"; "plan"; "contextCompaction"] then Ok None
  else if kind == "agentMessage" then
    if negb (keys v agent_message_keys) then Err ErrProtocol
    else if negb (one_of (field v "phase") [""; "commentary"; "final_answer"]) then Err ErrProtocol
    else Ok (Some StructuredEvents)
  else if kind == "commandExecution" then
    if negb (keys v command_keys) then Err ErrProtocol else Ok (Some StructuredProcessEvents)
  else if kind == "mcpToolCall" then
    if negb (keys v tool_call_keys) then Err ErrProtocol else Ok (Some StructuredToolEvents)
  else if kind == "fileChange" then
    if negb (keys v ["id"; "type"; "changes"; "status"]) then Err ErrProtocol
    else Ok (Some StructuredToolEvents)
  else if kind == "webSearch" then
    if negb (keys v ["id"; "type"; "query"; "action"; "results"]) then Err ErrProtocol
    else Ok (Some StructuredToolEvents)
  else Err ErrUnsupported.

Definition zero_sum : list Z := repeat 0 32.

Definition item_started (s : eventStream) (v : gmap string string) (sum : list Z)
  : prog call (eventStream * outcome) :=
  let kind := field v "type" in
  let key := field v "id" in
  match items s !! key with
  | Some item =>
      if negb (done_ item) && (start item == sum) then silent s else fails s ErrStreamIntegrity
  | None =>
      if 1024 <=? Z.of_nat (size (items s)) then fails s ErrStreamIntegrity
      else
        do! now <- trigger Now;
        do! i <- NewID now;
        match i with
        | Err _ => fails s ErrOutcomeUnknown
        | Ok arid =>
            let item := mkItem arid kind sum zero_sum false false None 0 0 in
            let s := with_item s key item in
            if kind == "agentMessage" then
              if v !! "text" != Some (quote "") then fails s ErrStreamIntegrity
              else silent (with_item s key (mkItem arid kind sum zero_sum false false (Some []) 0 0))
            else if (kind != "webSearch") && (field v "status" != "inProgress")
            then fails s ErrStreamIntegrity
            else if kind == "commandExecution" then emit s ProcessStarted (PProcess arid "" None)
            else emit s ToolStarted (PTool arid)
        end
  end.

Definition close_item (i : eventItem) (sum : list Z) : eventItem :=
  mkItem (it_id i) (it_kind i) (start i) sum true (suppressed i) (text i) (first i) (last_ i).

(** The completed text of a message against the bytes of its fragments. *)
Definition message_completed (s : eventStream) (v : gmap string string) (item : eventItem)
  : prog call (eventStream * outcome) :=
  match (if v !! "text" == Some "null" then None else unmarshalString (v !! "text")) with
  | None => fails s ErrProtocol
  | Some content =>
      if negb (eventText content) then fails s ErrProtocol
      else match text item with
      | None => Ret (s, Err NilPointer)
      | Some written =>
          if Sum256 (to_bytes content) != Sum256 written then fails s ErrStreamIntegrity
          else if suppressed item || (first item =? 0) then silent s
          else emit s MessageCompleted (PMessageCompleted (it_id item) (first item) (last_ item))
      end
  end.

Definition item_completed (s : eventStream) (v : gmap string string) (sum : list Z)
  : prog call (eventStream * outcome) :=
  let kind := field v "type" in
  let key := field v "id" in
  match items s !! key with
  | None => fails s ErrStreamIntegrity
  | Some item =>
      if it_kind item != kind then fails s ErrStreamIntegrity
      else if done_ item then
        if completion_sum item == sum then silent s else fails s ErrStreamIntegrity
      else
        let item := close_item item sum in
        let s := with_item s key item in
        let status := field v "status" in
        if kind == "agentMessage" then message_completed s v item
        else if kind == "commandExecution" then
          if negb (one_of status ["completed"; "failed"; "declined"]) then fails s ErrProtocol
          else match (if is_some (v !! "exitCode") then unmarshalInt32Pointer (v !! "exitCode")
                      else Some None) with
          | None => fails s ErrProtocol
          | Some exit => emit s ProcessCompleted (PProcess (it_id item) "" exit)
          end
        else if kind == "webSearch" then emit s ToolCompleted (PTool (it_id item))
        else if status == "completed" then emit s ToolCompleted (PTool (it_id item))
        else if one_of status ["failed"; "declined"] then
          if (status == "declined") && (kind == "mcpToolCall") then fails s ErrProtocol
          else emit s ToolFailed (PTool (it_id item))
        else fails s ErrProtocol
  end.

Definition item (s : eventStream) (p : gmap string string) (completed : bool)
  : prog call (eventStream * outcome) :=
  let stamp := if completed then "completedAtMs" else "startedAtMs" in
  if negb (keys p ["threadId"; "turnId"; "item"; stamp]) || negb (stamp_ok (p !! stamp))
  then fails s ErrProtocol
  else match object_at p "item" with
  | Err _ => fails s ErrProtocol
  | Ok v =>
      if negb (itemKey (field v "id")) then fails s ErrProtocol
      else match item_kind v with
      | Err e => fails s e
      | Ok None => silent s
      | Ok (Some capability) =>
          if negb (is_ok (Require (capabilities s) [capability])) then fails s ErrUnsupported
          else
            let sum := Sum256 (to_bytes (default "" (p !! "item"))) in
            if completed then item_completed s v sum else item_started s v sum
      end
  end.

Definition write_text (i : eventItem) (l : list Z) : eventItem :=
  mkItem (it_id i) (it_kind i) (start i) (completion_sum i) (done_ i) (suppressed i) (Some l)
    (first i) (last_ i).
Definition suppress (i : eventItem) : eventItem :=
  mkItem (it_id i) (it_kind i) (start i) (completion_sum i) (done_ i) true (text i) (first i) (last_ i).
Definition note_sequence (i : eventItem) (n : Z) : eventItem :=
  mkItem (it_id i) (it_kind i) (start i) (completion_sum i) (done_ i) (suppressed i) (text i)
    (if first i =? 0 then n else first i) n.

Definition message_delta (s : eventStream) (key : string) (item : eventItem) (content : string)
  : prog call (eventStream * outcome) :=
  match text item with
  | None => Ret (s, Err NilPointer)
  | Some written =>
      let item := write_text item (written ++ to_bytes content) in
      let s := with_item s key item in
      match policy s with
      | NilPolicy => silent (with_item s key (suppress item))
      | _ =>
          do! safe <- trigger (MessageText (it_id item) content);
          match safe with
          | None => fails s ErrProtocol
          | Some safe =>
              if negb (eventText safe) then fails s ErrProtocol
              else if safe == "" then silent (with_item s key (suppress item))
              else
                do! r <- emit s MessageDelta (PMessageDelta (it_id item) safe);
                match snd r with
                | Ok (Some e) => Ret (with_item (fst r) key (note_sequence item (Sequence e)), Ok (Some e))
                | o => Ret (fst r, o)
                end
          end
      end
  end.

Definition process_output (s : eventStream) (item : eventItem) (content : string)
  : prog call (eventStream * outcome) :=
  match policy s with
  | NilPolicy => silent s
  | _ =>
      do! ref <- trigger (PolicyOutput (it_id item) content);
      match ref with
      | None => fails s ErrProtocol
      | Some ref =>
          if ref == "" then silent s
          else if negb (is_ok (ValidateReference ref)) then fails s ErrProtocol
          else emit s ProcessOutput (PProcess (it_id item) ref None)
      end
  end.

Definition delta (s : eventStream) (p : gmap string string) (message : bool)
  : prog call (eventStream * outcome) :=
  if negb (keys p ["threadId"; "turnId"; "itemId"; "delta"]) then fails s ErrProtocol
  else
    let key := field p "itemId" in
    match items s !! key with
    | None => fails s ErrStreamIntegrity
    | Some item =>
        if done_ item then fails s ErrStreamIntegrity
        else match (if p !! "delta" == Some "null" then None else unmarshalString (p !! "delta")) with
        | None => fails s ErrProtocol
        | Some content =>
            if negb (eventText content) then fails s ErrProtocol
            else if message then
              if it_kind item != "agentMessage" then fails s ErrStreamIntegrity
              else message_delta s key item content
            else if it_kind item != "commandExecution" then fails s ErrStreamIntegrity
            else process_output s item content
        end
    end.

(** [turn/started] and [turn/completed] *)
Definition turn_notice (s : eventStream) (p : gmap string string) (method : string)
  : prog call (eventStream * outcome) :=
  if negb (keys p ["threadId"; "turn"]) || (field p "threadId" != threadID (client s))
  then fails s ErrProtocol
  else match object_at p "turn" with
  | Err _ => fails s ErrStreamIntegrity
  | Ok turn =>
      if field turn "id" != turnID (client s) then fails s ErrStreamIntegrity
      else if method == "turn/started" then
        if started s || (field turn "status" != "inProgress") then fails s ErrStreamIntegrity
        else emit (with_started s) ExecutionStarted (PObservation (mkObservation "" ""))
      else if negb (started s) then fails s ErrStreamIntegrity
      else complete s turn
  end.

(** The notifications of a started turn. *)
Definition turn_event (s : eventStream) (p : gmap string string) (method : string)
  : prog call (eventStream * outcome) :=
  if negb (started s) || (field p "threadId" != threadID (client s)) then fails s ErrStreamIntegrity
  else if field p "turnId" != turnID (client s) then fails s ErrStreamIntegrity
  else if method == "thread/tokenUsage/updated" then
    match captureUsage s p with
    | Ok s' => silent s'
    | Err e => fails s e
    end
  else if method == "error" then
    if negb (keys p ["threadId"; "turnId"; "error"; "willRetry"]) || (p !! "willRetry" == Some "null")
       || negb (is_some (unmarshalBool (p !! "willRetry"))) then fails s ErrProtocol
    else match object_at p "error" with
    | Err _ => fails s ErrProtocol
    | Ok _ => silent s
    end
  else if one_of method ["item/reasoning/textDelta"; "item/reasoning/summaryTextDelta";
                         "item/reasoning/summaryPartAdded"; "item/plan/delta"; "turn/plan/updated";
                         "turn/diff/updated"; "item/fileChange/outputDelta"] then silent s
  else if one_of method ["item/started"; "item/completed"] then item s p (method == "item/completed")
  else if one_of method ["item/agentMessage/delta"; "item/commandExecution/outputDelta"]
  then delta s p (method == "item/agentMessage/delta")
  else if method == "item/mcpToolCall/progress" then
    match items s !! field p "itemId" with
    | Some i => if done_ i || (it_kind i != "mcpToolCall") then fails s ErrStreamIntegrity else silent s
    | None => fails s ErrStreamIntegrity
    end
  else fails s ErrProtocol.

Definition quiet_methods : list string :=
  ["account/rateLimits/updated"; "remoteControl/status/changed"; "configWarning"; "warning";
   "skills/changed"; "mcpServer/startupStatus/updated"; "thread/status/changed"].

(** A notification with its parameters. *)
Definition notification (s : eventStream) (f p : gmap string string) : prog call (eventStream * outcome) :=
  let method := field f "method" in
  if is_some (p !! "threadId")
     && ((p !! "threadId" == Some "null") || (field p "threadId" != threadID (client s)))
  then fails s ErrStreamIntegrity
  else if is_some (p !! "turnId") && (field p "turnId" != turnID (client s))
  then fails s ErrStreamIntegrity
  else if one_of method quiet_methods then silent s
  else if one_of method ["turn/started"; "turn/completed"] then turn_notice s p method
  else turn_event s p method.

Definition normalize (s : eventStream) (raw : string) : prog call (eventStream * outcome) :=
  if negb (is_ok (validateVendorJSON raw)) then fails s ErrProtocol
  else match object raw with
  | Err _ => fails s ErrProtocol
  | Ok f =>
      if is_some (f !! "id") then
        do! r <- interruptResponse (client s) f;
        Ret (with_client s (fst r), match snd r with Ok _ => Ok None | Err e => Err (Fail e) end)
      else if negb (keys f ["method"; "params"; "emittedAtMs"]) then fails s ErrProtocol
      else if is_some (f !! "emittedAtMs") && negb (stamp_ok (f !! "emittedAtMs")) then fails s ErrProtocol
      else match object_at f "params" with
      | Err _ => fails s ErrProtocol
      | Ok p => notification s f p
      end
  end.

(** ** events.go *)

(** One pass of the read loop: [None] reads on. *)
Definition read_pass (s : eventStream) : prog call (eventStream * option outcome) :=
  do! woken <- trigger (Wait (nextRead s));
  match woken with
  | Cancelled => Ret (s, Some (Err (Fail ErrOutcomeUnknown)))
  | Unsubscribed => Ret (s, Some (Err EndOfFile))
  | Proceed =>
      do! now <- trigger Now;
      let s := with_nextRead s (Add now (1000000000 / EventsPerSecond (limits s))) in
      do! polled <- trigger Poll;
      match polled with
      | Unsubscribed => Ret (s, Some (Err EndOfFile))
      | Cancelled => Ret (s, Some (Err (Fail ErrOutcomeUnknown)))
      | Proceed =>
          do! cr <- readEventFrame (client s);
          let s := with_client s (fst cr) in
          match snd cr with
          | None => Ret (s, Some (Err (Fail ErrStreamIntegrity)))
          | Some raw =>
              do! r <- normalize s raw;
              match snd r with
              | Err e => Ret (fst r, Some (Err e))
              | Ok (Some e) => Ret (fst r, Some (Ok (Some e)))
              | Ok None => Ret (fst r, if end_ (fst r) then Some (Err EndOfFile) else None)
              end
          end
      end
  end.

(** The loop reads frames until one is reported; [frames] bounds how many of them
    a run looks at, and a run that is still reading returns no outcome. *)
Fixpoint read_loop (frames : nat) (s : eventStream) : prog call (eventStream * option outcome) :=
  match frames with
  | O => Ret (s, None)
  | S n =>
      do! r <- read_pass s;
      match snd r with
      | None => read_loop n (fst r)
      | o => Ret (fst r, o)
      end
  end.

(** The deferred function: an expired context or an error fails the stream. *)
Definition settle (s : eventStream) (o : outcome) : prog call (eventStream * option outcome) :=
  do! expired <- trigger ContextErr;
  let o := if negb expired then o else Err (Fail ErrOutcomeUnknown) in
  Ret (match o with Err (Fail e) => with_failed s e | _ => s end, Some o).

Definition Next (frames : nat) (s : eventStream) : prog call (eventStream * option outcome) :=
  do! mine <- trigger (TryLock StreamGate);
  if negb mine then Ret (s, Some (Err (Fail ErrConflict)))
  else match failed s with
  | Some e => Ret (s, Some (Err (Fail e)))
  | None =>
      do! closed <- trigger Closed;
      if closed || end_ s then Ret (s, Some (Err EndOfFile))
      else
        do! free <- trigger (TryLock ClientGate);
        if negb free then Ret (s, Some (Err (Fail ErrConflict)))
        else match completion s with
        | Some p => do! r <- finish s p; settle (fst r) (snd r)
        | None =>
            do! r <- read_loop frames s;
            match snd r with
            | Some o => settle (fst r) o
            | None => Ret r
            end
        end
  end.

Definition eventDigest (s : string) : bool :=
  (len s =? 71) && String.prefix "sha256:" s
  && forallb (fun r => ((48 <=? r) && (r <=? 57)) || ((97 <=? r) && (r <=? 102)))
       (runes (String.substring 7 (String.length s - 7) s)).

Definition eventBinding (h : HarnessHandle) (op : OperationIdentity) : bool :=
  let f := hh_Fence h in
  forallb (fun i => is_ok (ParseID i))
    [hh_ID h; hh_ProcessInstanceID h; f_TenantID f; f_SessionID f; f_ExecutionID f; f_AttemptID f;
     f_SandboxBindingID f; OperationIdentity_ID op]
  && (hh_AdapterKind h == Kind_) && (0 <? f_Generation f) && (0 <? f_AttemptOrdinal f)
  && eventDigest (RequestDigest op) && eventDigest (hh_AdapterBuildDigest h)
  && eventDigest (hh_NegotiationDigest h).

Definition open_client (c : Client) : Client :=
  mkClient (threadID c) (turnID c) (turnOperation c) true (interruptAcknowledged c) (pending c)
    (pendingBytes c).

(** The stream, or an error and the client as it was. *)
Definition Events (c : Client) (h : HarnessHandle) (op : OperationIdentity) (caps : Capabilities)
    (l : AdapterLimits) (p : Policy) : prog call (result HarnessError eventStream) :=
  do! free <- trigger (TryLock ClientGate);
  if negb free then Ret (Err ErrConflict)
  else if eventsOpened c then Ret (Err ErrConflict)
  else if (turnID c == "") || (OperationIdentity_ID op != turnOperation c) || negb (eventBinding h op)
          || (hh_VendorSessionReference h != threadID c) then Ret (Err ErrInvalid)
  else if negb (is_ok (Require caps [StructuredEvents; Streaming])) then Ret (Err ErrUnsupported)
  else if (EventBytes l <? 256) || (MaxPayloadBytes <? EventBytes l) || (EventsPerSecond l <? 1)
          || (1000 <? EventsPerSecond l) || (BufferedEvents l <? 1) then Ret (Err ErrInvalid)
  else
    do! now <- trigger Now;
    do! i <- NewID now;
    match i with
    | Err _ => Ret (Err ErrOutcomeUnknown)
    | Ok i =>
        Ret (Ok (mkStream (open_client c) h op caps l p i 0 false false None ∅ zeroTime None None))
    end.
