(* ===== verification/CodexSpec.v ===== *)
(** * The event stream of a turn: what it promises

    An abstract specification of [CodexStream]: the transitions a frame can cause
    ([move]), with the conditions under which each event is reported, and the proof
    that [normalize] makes only such transitions ([normalize_moves]).  On the
    specification: sequence numbers without gaps, one start and one end, content
    only as the policy approved it, and messages whose fragments add up. *)

From Stdlib Require Import ZArith Bool Lia.
From stdpp Require Import base strings list gmap.
From S2P Require Import Prelude Regex GoStd JsonDecoder JsonEncode JsonUnmarshal JsonRoundTrip.
From S2P Require Import Primitives Interaction RuntimeBinding RuntimeEvent HarnessPort CodexFrames CodexStream Sha256.

Abbreviation trace := (list (Interaction.event call)).

(** ** Emission *)

(** [e] is the next event of [s], of type [kind] and with payload [p]. *)
Record emission (s : eventStream) (kind : string) (p : payload) (e : HarnessEvent) : Prop := {
  em_stream : StreamID e = id s;
  em_event : validID (EventID e) = true;
  em_operation : Operation e = operation s;
  em_handle : Handle e = handle s;
  em_sequence : Sequence e = u64 (sequence s + 1);
  em_room : sequence s <> max_uint64;
  em_type : EType e = kind;
  em_vendor : VendorEventID e = "" /\ ArtifactReference (EContent e) = "";
  em_times : is_utc (OccurredAt e) /\ ObservedAt e = OccurredAt e;
  em_payload : Marshal (payload_json p) = Some (Inline (EContent e));
  em_size : len (Inline (EContent e)) <= EventBytes (limits s);
  em_declared : is_ok (CheckEventDeclaration e (capabilities s)) = true
}.

Definition emitted (s : eventStream) : eventStream := with_sequence s (u64 (sequence s + 1)).

Lemma NewID_run now tr r : runs (NewID now) tr r ->
  forall i, r = Ok i -> validID i = true.
Proof.
  unfold NewID. cbn. intros (e & tr' & -> & -> & ->) i E.
  apply NewIDFrom_ok in E as (source & E & L & _ & ->). destruct e as [e |]; [| discriminate E].
  injection E as <-. apply validID_spec. eexists. split; [| done].
  apply id_raw_uuid7, Forall_take, to_bytes_range.
Qed.

Lemma emit_run s kind p tr s' o :
  runs (emit s kind p) tr (s', o) ->
  (exists e, o = Err (Fail e) /\ s' = s) \/ (exists e, o = Ok (Some e) /\ s' = emitted s /\ emission s kind p e).
Proof.
  unfold emit, fails. intros R. destruct (Marshal (payload_json p)) as [raw |] eqn:M.
  2: { destruct R as [_ [= -> ->]]. left. eauto. }
  destruct (_ || _) eqn:G in R; [destruct R as [_ [= -> ->]]; left; eauto |].
  cbn [pbind trigger runs] in R. destruct R as (t & tr1 & -> & R).
  apply runs_bind in R as (t1 & t2 & i & -> & N & R).
  destruct i as [i |]; [| destruct R as [_ [= -> ->]]; left; eauto].
  pose proof (NewID_run _ _ _ N i eq_refl) as Vi.
  destruct (CheckEventDeclaration _ _) as [rule | err] eqn:C in R; destruct R as [_ [= -> ->]]; [right | left; eauto].
  eexists. split; [done |]. split; [done |]. apply orb_false_iff in G as [G1 G2].
  split; cbn; try done; try lia. by rewrite C.
Qed.

(** ** Transitions *)

(** What no frame changes. *)
Definition frame (s : eventStream) :=
  (handle s, operation s, capabilities s, limits s, policy s, id s, failed s,
   (threadID (client s), turnID (client s))).

(** Content as the policy approved it: reason codes of the contract, references and
    text that the policy returned, identifiers that were generated. *)
Definition approved (tr : trace) (p : payload) : Prop :=
  match p with
  | PObservation o =>
      ReasonCode o ∈ [""; "completed"; "interrupted"; "failed"]
      /\ (ResultReference o = ""
          \/ exists op, In (occurred (PolicyReference op (ReasonCode o)) (Some (ResultReference o))) tr)
  | PMessageDelta i t => validID i = true /\ exists content, In (occurred (MessageText i content) (Some t)) tr
  | PMessageCompleted i _ _ => validID i = true
  | PProcess i ref _ =>
      validID i = true
      /\ (ref = "" \/ exists content, In (occurred (PolicyOutput i content) (Some ref)) tr)
  | PTool i => validID i = true
  | PUsage _ => True
  end.

(** The terminal observation of a turn. *)
Definition terminal (p : ObservationPayload) : string :=
  if ReasonCode p == "failed" then ExecutionFailureObserved else ExecutionCompletionObserved.

Definition all_done (s : eventStream) : Prop := map_Forall (fun _ i => done_ i = true) (items s).

Definition reasons : list string := ["completed"; "interrupted"; "failed"].

(** Reports about work other than messages. *)
Definition work_started (i : ID) (kp : string * payload) : Prop :=
  kp ∈ [(ProcessStarted, PProcess i "" None); (ToolStarted, PTool i)].

Definition work_done (i : ID) (kp : string * payload) : Prop :=
  (exists exit, kp = (ProcessCompleted, PProcess i "" exit))
  \/ kp ∈ [(ToolCompleted, PTool i); (ToolFailed, PTool i)].

(** A message that can still grow. *)
Record growing (s : eventStream) (key : string) (i : eventItem) (written : list Z) : Prop := {
  gr_item : items s !! key = Some i;
  gr_kind : it_kind i = "agentMessage";
  gr_open : done_ i = false;
  gr_text : text i = Some written
}.

Inductive move (s : eventStream) (tr : trace) : eventStream -> outcome -> Prop :=
| m_refused s' e :
    frame s' = frame s -> sequence s' = sequence s -> move s tr s' (Err (Fail e))
| m_nil s' key i :
    items s !! key = Some i -> it_kind i = "agentMessage" -> text i = None -> done_ i = false ->
    move s tr s' (Err NilPointer)
| m_skip : move s tr s (Ok None)
| m_acknowledged c :
    threadID c = threadID (client s) -> turnID c = turnID (client s) -> move s tr (with_client s c) (Ok None)
| m_usage u :
    started s = true ->
    (forall v, usage s = Some v -> InputTokens v <= InputTokens u /\ OutputTokens v <= OutputTokens u) ->
    move s tr (with_usage s u) (Ok None)
| m_begin e :
    started s = false ->
    emission (with_started s) ExecutionStarted (PObservation (mkObservation "" "")) e ->
    move s tr (emitted (with_started s)) (Ok (Some e))
| m_message_opened key i sum :
    started s = true -> items s !! key = None -> Z.of_nat (size (items s)) < 1024 -> validID i = true ->
    move s tr (with_item s key (mkItem i "agentMessage" sum zero_sum false false (Some []) 0 0)) (Ok None)
| m_work_opened key i kind sum kp e :
    started s = true -> items s !! key = None -> Z.of_nat (size (items s)) < 1024 -> validID i = true ->
    kind <> "agentMessage" -> work_started i kp ->
    emission (with_item s key (mkItem i kind sum zero_sum false false None 0 0)) (fst kp) (snd kp) e ->
    move s tr (emitted (with_item s key (mkItem i kind sum zero_sum false false None 0 0))) (Ok (Some e))
| m_suppressed key i written content :
    started s = true -> growing s key i written ->
    move s tr (with_item s key (suppress (write_text i (written ++ to_bytes content)))) (Ok None)
| m_delta key i written content safe e :
    started s = true -> growing s key i written -> policy s <> NilPolicy ->
    In (occurred (MessageText (it_id i) content) (Some safe)) tr -> eventText safe = true ->
    let i' := write_text i (written ++ to_bytes content) in
    emission (with_item s key i') MessageDelta (PMessageDelta (it_id i) safe) e ->
    move s tr (with_item (emitted (with_item s key i')) key (note_sequence i' (Sequence e))) (Ok (Some e))
| m_output key i content ref e :
    started s = true -> items s !! key = Some i -> it_kind i = "commandExecution" -> done_ i = false ->
    policy s <> NilPolicy -> In (occurred (PolicyOutput (it_id i) content) (Some ref)) tr ->
    emission s ProcessOutput (PProcess (it_id i) ref None) e ->
    move s tr (emitted s) (Ok (Some e))
| m_message_hidden key i written sum content :
    started s = true -> growing s key i written -> Sum256 (to_bytes content) = Sum256 written ->
    suppressed i = true \/ first i = 0 ->
    move s tr (with_item s key (close_item i sum)) (Ok None)
| m_message_done key i written sum content e :
    started s = true -> growing s key i written -> Sum256 (to_bytes content) = Sum256 written ->
    suppressed i = false -> first i <> 0 ->
    emission (with_item s key (close_item i sum)) MessageCompleted
      (PMessageCompleted (it_id i) (first i) (last_ i)) e ->
    move s tr (emitted (with_item s key (close_item i sum))) (Ok (Some e))
| m_work_done key i sum kp e :
    started s = true -> items s !! key = Some i -> done_ i = false -> it_kind i <> "agentMessage" ->
    work_done (it_id i) kp ->
    emission (with_item s key (close_item i sum)) (fst kp) (snd kp) e ->
    move s tr (emitted (with_item s key (close_item i sum))) (Ok (Some e))
| m_usage_reported p u e :
    started s = true -> ReasonCode p ∈ reasons -> (ReasonCode p = "completed" -> all_done s) ->
    approved tr (PObservation p) -> usage s = Some u ->
    emission (with_completion s p) UsageObserved (PUsage u) e ->
    move s tr (emitted (with_completion s p)) (Ok (Some e))
| m_finished p e :
    started s = true -> ReasonCode p ∈ reasons -> (ReasonCode p = "completed" -> all_done s) ->
    approved tr (PObservation p) -> usage s = None ->
    emission s (terminal p) (PObservation p) e ->
    move s tr (with_end (emitted s)) (Ok (Some e)).

(** ** normalize makes only these transitions *)

Ltac refused := apply m_refused; reflexivity.

Lemma finish_run s p tr s' o :
  runs (finish s p) tr (s', o) ->
  (exists e, o = Err (Fail e) /\ s' = s)
  \/ (exists e, o = Ok (Some e) /\ s' = with_end (emitted s) /\ emission s (terminal p) (PObservation p) e).
Proof.
  unfold finish, terminal. intros R. apply runs_bind in R as (t1 & t2 & [s1 o1] & -> & E & R).
  apply emit_run in E as [(e & -> & ->) | (e & -> & -> & E)]; destruct R as [_ [= -> ->]]; [left | right]; eauto.
Qed.

Lemma conclude_run s p t tr s' o :
  runs (conclude s p) t (s', o) ->
  started s = true -> ReasonCode p ∈ reasons -> (ReasonCode p = "completed" -> all_done s) ->
  approved tr (PObservation p) -> move s tr s' o.
Proof.
  unfold conclude. intros R S P D A. destruct (usage s) as [u |] eqn:U.
  - apply emit_run in R as [(e & -> & ->) | (e & -> & -> & E)]; [refused | by eapply m_usage_reported].
  - apply finish_run in R as [(e & -> & ->) | (e & -> & -> & E)]; [refused | by eapply m_finished].
Qed.

Lemma one_of_In kind l : one_of kind l = true <-> kind ∈ l.
Proof.
  unfold one_of. rewrite existsb_exists, list_elem_of_In. split.
  - intros (x & I & E). apply bool_decide_eq_true in E as ->. done.
  - intros I. exists kind. split; [done |]. by apply bool_decide_eq_true.
Qed.

Lemma reasons_approved r : r ∈ reasons -> r ∈ [""; "completed"; "interrupted"; "failed"].
Proof. unfold reasons. set_solver. Qed.

Lemma complete_run s turn tr s' o :
  runs (complete s turn) tr (s', o) -> started s = true -> move s tr s' o.
Proof.
  unfold complete, fails. intros R S.
  destruct (negb _) in R; [destruct R as [_ [= -> ->]]; refused |].
  destruct (one_of _ _) eqn:O in R; cbn [negb] in R; [| destruct R as [_ [= -> ->]]; refused].
  apply one_of_In in O. set (reason := field turn "status") in *.
  destruct (_ && _) eqn:D in R; [destruct R as [_ [= -> ->]]; refused |].
  assert (A : reason = "completed" -> all_done s).
  { intros E. rewrite E in D. cbn in D. apply negb_false_iff in D. rewrite forallb_forall in D.
    intros k i I. apply (D (k, i)), list_elem_of_In, elem_of_map_to_list, I. }
  destruct (policy s); cbn [pbind trigger runs] in R.
  1, 2: eapply conclude_run; [exact R | done | done | done |]; split; [by apply reasons_approved | by left].
  destruct R as (ref & tr' & -> & R). destruct ref as [ref |]; [| destruct R as [_ [= -> ->]]; refused].
  destruct (_ && _) in R; [destruct R as [_ [= -> ->]]; refused |].
  eapply conclude_run; [exact R | done | done | done |].
  split; [by apply reasons_approved |]. right. eexists. left. reflexivity.
Qed.

(** [leaf R] closes a branch that returns the stream unchanged. *)
Ltac leaf R := destruct R as [_ [= -> ->]]; first [refused | apply m_skip].

Lemma with_item_twice s k i j : with_item (with_item s k i) k j = with_item s k j.
Proof. unfold with_item. cbn. by rewrite insert_insert_eq. Qed.

Lemma item_started_run s v sum tr s' o :
  runs (item_started s v sum) tr (s', o) -> started s = true -> move s tr s' o.
Proof.
  unfold item_started, fails, silent. intros R S. set (kind := field v "type") in *.
  destruct (items s !! field v "id") as [i |] eqn:L; [destruct (_ && _) in R; leaf R |].
  destruct (Z.leb_spec 1024 (Z.of_nat (size (items s)))) as [| Sz]; [leaf R |].
  cbn [pbind trigger runs] in R. destruct R as (now & tr1 & -> & R).
  apply runs_bind in R as (t1 & t2 & [i |] & -> & N & R); [| leaf R].
  pose proof (NewID_run _ _ _ N i eq_refl) as V.
  destruct (bool_decide_reflect (kind = "agentMessage")) as [-> | K].
  { destruct (negb _) in R; [leaf R |]. destruct R as [_ [= -> ->]]. rewrite with_item_twice.
    by apply m_message_opened. }
  destruct (_ && _) in R; [leaf R |].
  destruct (bool_decide (kind = "commandExecution")) in R;
    apply emit_run in R as [(e & -> & ->) | (e & -> & -> & E)]; try refused.
  - eapply (m_work_opened s _ _ i kind sum (ProcessStarted, _)); try done. unfold work_started. set_solver.
  - eapply (m_work_opened s _ _ i kind sum (ToolStarted, _)); try done. unfold work_started. set_solver.
Qed.

Lemma message_completed_run s v key i sum tr s' o :
  runs (message_completed (with_item s key (close_item i sum)) v (close_item i sum)) tr (s', o) ->
  started s = true -> items s !! key = Some i -> it_kind i = "agentMessage" -> done_ i = false ->
  move s tr s' o.
Proof.
  unfold message_completed, fails, silent. intros R S L K D.
  destruct (if v !! "text" == Some "null" then _ else _) as [content |] in R; [| leaf R].
  destruct (negb _) in R; [leaf R |]. cbn [text close_item] in R.
  destruct (text i) as [written |] eqn:T; [| destruct R as [_ [= -> ->]]; by eapply m_nil].
  destruct (bool_decide_reflect (Sum256 (to_bytes content) = Sum256 written)) as [E |]; cbn [negb] in R; [| leaf R].
  destruct (_ || _) eqn:H in R; cbn [suppressed first close_item] in H.
  - destruct R as [_ [= -> ->]]. eapply m_message_hidden; [done | by split | done |].
    apply orb_true_iff in H as [H | H]; [by left | right; lia].
  - apply orb_false_iff in H as [H1 H2].
    apply emit_run in R as [(e & -> & ->) | (e & -> & -> & Em)]; [refused |].
    eapply m_message_done; [done | by split | done | done | lia | exact Em].
Qed.

Lemma item_completed_run s v sum tr s' o :
  runs (item_completed s v sum) tr (s', o) -> started s = true -> move s tr s' o.
Proof.
  unfold item_completed, fails, silent. intros R S. set (kind := field v "type") in *.
  destruct (items s !! field v "id") as [i |] eqn:L; [| leaf R].
  destruct (bool_decide_reflect (it_kind i = kind)) as [K |]; cbn [negb] in R; [| leaf R].
  destruct (done_ i) eqn:D; [destruct (bool_decide _) in R; leaf R |].
  destruct (bool_decide_reflect (kind = "agentMessage")) as [A | A].
  { eapply message_completed_run; [exact R | done | done | congruence | done]. }
  assert (W : forall kp t, work_done (it_id i) kp ->
    runs (emit (with_item s (field v "id") (close_item i sum)) (fst kp) (snd kp)) t (s', o) -> move s tr s' o).
  { intros kp t W R'. apply emit_run in R' as [(e & -> & ->) | (e & -> & -> & E)]; [refused |].
    eapply m_work_done; try done. congruence. }
  clear K. unfold work_done in W.
  destruct (bool_decide (kind = "commandExecution")) in R.
  { destruct (negb _) in R; [leaf R |]. destruct (if is_some (v !! "exitCode") then _ else _) as [exit |] in R; [| leaf R].
    eapply (W (ProcessCompleted, PProcess (it_id i) "" exit)); [eauto | exact R]. }
  destruct (bool_decide (kind = "webSearch")) in R.
  { eapply (W (ToolCompleted, PTool (it_id i))); [set_solver | exact R]. }
  destruct (bool_decide _) in R.
  { eapply (W (ToolCompleted, PTool (it_id i))); [set_solver | exact R]. }
  destruct (one_of _ _) in R; [| leaf R]. destruct (_ && _) in R; [leaf R |].
  eapply (W (ToolFailed, PTool (it_id i))); [set_solver | exact R].
Qed.

Lemma item_run s p completed tr s' o :
  runs (item s p completed) tr (s', o) -> started s = true -> move s tr s' o.
Proof.
  unfold item, fails, silent. intros R S. destruct (_ || _) in R; [leaf R |].
  destruct (object_at p "item") as [v |]; [| leaf R]. destruct (negb _) in R; [leaf R |].
  destruct (item_kind v) as [[c |] |]; [| leaf R | leaf R]. destruct (negb _) in R; [leaf R |].
  destruct completed; [by eapply item_completed_run | by eapply item_started_run].
Qed.

Lemma message_delta_run s key i content tr s' o :
  runs (message_delta s key i content) tr (s', o) -> started s = true -> items s !! key = Some i ->
  it_kind i = "agentMessage" -> done_ i = false -> move s tr s' o.
Proof.
  unfold message_delta, fails, silent. intros R S L K D.
  destruct (text i) as [written |] eqn:T; [| destruct R as [_ [= -> ->]]; by eapply m_nil].
  cbn [policy with_item] in R. assert (G : growing s key i written) by (by split).
  assert (H : forall tr s' o, (s', o) = (with_item (with_item s key (write_text i (written ++ to_bytes content)))
      key (suppress (write_text i (written ++ to_bytes content))), Ok None) -> move s tr s' o).
  { intros ? ? ? [= -> ->]. rewrite with_item_twice. by eapply m_suppressed. }
  destruct (policy s) eqn:P; [destruct R as [_ R]; by apply H | |];
    (cbn [pbind trigger runs] in R; destruct R as (safe & tr1 & -> & R);
     destruct safe as [safe |]; [| leaf R];
     destruct (eventText safe) eqn:X; cbn [negb] in R; [| leaf R];
     destruct (bool_decide (safe = "")) in R; [destruct R as [_ R]; by apply H |];
     apply runs_bind in R as (t1 & t2 & [s1 o1] & -> & E & R);
     apply emit_run in E as [(e & -> & ->) | (e & -> & -> & E)]; [leaf R |];
     destruct R as [_ [= -> ->]]; eapply m_delta; [done | done | congruence | by left | done | exact E]).
Qed.

Lemma process_output_run s key i content tr s' o :
  runs (process_output s i content) tr (s', o) -> started s = true -> items s !! key = Some i ->
  it_kind i = "commandExecution" -> done_ i = false -> move s tr s' o.
Proof.
  unfold process_output, fails, silent. intros R S L K D.
  destruct (policy s) eqn:P; [leaf R | |];
    (cbn [pbind trigger runs] in R; destruct R as (ref & tr1 & -> & R);
     destruct ref as [ref |]; [| leaf R];
     destruct (bool_decide (ref = "")) in R; [leaf R |]; destruct (negb _) in R; [leaf R |];
     apply emit_run in R as [(e & -> & ->) | (e & -> & -> & E)]; [refused |];
     eapply m_output; [done | done | done | done | congruence | by left | exact E]).
Qed.

Lemma delta_run s p message tr s' o :
  runs (delta s p message) tr (s', o) -> started s = true -> move s tr s' o.
Proof.
  unfold delta, fails. intros R S. destruct (negb _) in R; [leaf R |].
  destruct (items s !! field p "itemId") as [i |] eqn:L; [| leaf R].
  destruct (done_ i) eqn:D; [leaf R |].
  destruct (if p !! "delta" == Some "null" then _ else _) as [content |] in R; [| leaf R]. destruct (negb _) in R; [leaf R |].
  destruct message.
  - destruct (bool_decide_reflect (it_kind i = "agentMessage")); cbn [negb] in R; [| leaf R].
    by eapply message_delta_run.
  - destruct (bool_decide_reflect (it_kind i = "commandExecution")); cbn [negb] in R; [| leaf R].
    by eapply process_output_run.
Qed.

Lemma turn_notice_run s p method tr s' o :
  runs (turn_notice s p method) tr (s', o) -> move s tr s' o.
Proof.
  unfold turn_notice, fails. intros R. destruct (_ || _) in R; [leaf R |].
  destruct (object_at p "turn") as [turn |]; [| leaf R]. destruct (negb _) in R; [leaf R |].
  destruct (bool_decide _) in R.
  - destruct (started s) eqn:S; cbn [orb] in R; [leaf R |]. destruct (negb _) in R; [leaf R |].
    apply emit_run in R as [(e & -> & ->) | (e & -> & -> & E)]; [refused | by apply m_begin].
  - destruct (started s) eqn:S; cbn [negb] in R; [| leaf R]. by eapply complete_run.
Qed.

Lemma captureUsage_ok s p s' : captureUsage s p = Ok s' ->
  exists u, s' = with_usage s u
    /\ forall v, usage s = Some v -> InputTokens v <= InputTokens u /\ OutputTokens v <= OutputTokens u.
Proof.
  unfold captureUsage. intros H.
  repeat match type of H with
  | (if ?b then Err _ else _) = _ => destruct b eqn:?; [discriminate H |]
  | match object_at _ _ with _ => _ end = _ => destruct (object_at _ _) as [u |] in H; [| discriminate H]
  end.
  injection H as <-. eexists. split; [done |]. intros v E. rewrite E in *. cbn. lia.
Qed.

Lemma turn_event_run s p method tr s' o :
  runs (turn_event s p method) tr (s', o) -> move s tr s' o.
Proof.
  unfold turn_event, fails, silent. intros R.
  destruct (started s) eqn:S; cbn [negb orb] in R; [| leaf R]. destruct (negb _) in R; [leaf R |].
  destruct (negb _) in R; [leaf R |]. destruct (bool_decide _) in R.
  { destruct (captureUsage s p) as [s1 |] eqn:U; [| leaf R]. destruct R as [_ [= -> ->]].
    apply captureUsage_ok in U as (u & -> & U). by apply m_usage. }
  destruct (bool_decide _) in R.
  { destruct (_ || _) in R; [leaf R |]. destruct (object_at p "error"); leaf R. }
  destruct (one_of _ _) in R; [leaf R |]. destruct (one_of _ _) in R; [by eapply item_run |].
  destruct (one_of _ _) in R; [by eapply delta_run |]. destruct (bool_decide _) in R; [| leaf R].
  destruct (items s !! _) as [i |]; [| leaf R]. destruct (_ || _) in R; leaf R.
Qed.

Lemma interruptResponse_client c f tr c' r : runs (interruptResponse c f) tr (c', r) ->
  threadID c' = threadID c /\ turnID c' = turnID c.
Proof.
  unfold interruptResponse. cbn [pbind trigger runs]. intros (sent & tr1 & -> & R).
  destruct (_ || _) in R; [by destruct R as [_ [= -> ->]] |].
  destruct (object_at f "result"); [| by destruct R as [_ [= -> ->]]].
  destruct (negb _) in R; by destruct R as [_ [= -> ->]].
Qed.

(** Every frame causes a transition of the specification. *)
Lemma normalize_moves s raw tr s' o : runs (normalize s raw) tr (s', o) -> move s tr s' o.
Proof.
  unfold normalize, fails. intros R. destruct (negb _) in R; [leaf R |].
  destruct (object raw) as [f |]; [| leaf R]. destruct (is_some (f !! "id")).
  { apply runs_bind in R as (t1 & t2 & [c r] & -> & R1 & R). apply interruptResponse_client in R1 as [T U].
    destruct R as [_ [= -> ->]]. cbn [fst snd]. destruct r as [| e]; [by apply m_acknowledged |].
    apply m_refused; [| done]. unfold frame. cbn. by rewrite T, U. }
  destruct (negb _) in R; [leaf R |]. destruct (_ && _) in R; [leaf R |].
  destruct (object_at f "params") as [p |]; [| leaf R]. unfold notification, fails, silent in R.
  destruct (_ && _) in R; [leaf R |]. destruct (_ && _) in R; [leaf R |].
  destruct (one_of _ _) in R; [leaf R |].
  destruct (one_of _ _) in R; [by eapply turn_notice_run | by eapply turn_event_run].
Qed.

(** ** Histories *)

Definition delivered (o : outcome) : list HarnessEvent :=
  match o with Ok (Some e) => [e] | _ => [] end.

(** What a subscriber sees: results of [Next], interleaved with frames that an
    interrupt set aside. *)
Inductive history (s0 : eventStream) : eventStream -> trace -> list HarnessEvent -> Prop :=
| h_open : history s0 s0 [] []
| h_next s tr evs frames t s' o :
    history s0 s tr evs -> runs (Next frames s) t (s', Some o) ->
    history s0 s' (tr ++ t) (evs ++ delivered o)
| h_interrupt s tr evs t c r :
    history s0 s tr evs -> runs (readInterruptFrame (client s)) t (c, r) ->
    history s0 (with_client s c) (tr ++ t) evs.

Definition is_terminal (kind : string) : bool :=
  one_of kind [ExecutionCompletionObserved; ExecutionFailureObserved].

(** The payload family of each event type. *)
Definition matches (kind : string) (p : payload) : Prop :=
  match p with
  | PObservation o => (kind = ExecutionStarted /\ o = mkObservation "" "")
                      \/ (kind = terminal o /\ ReasonCode o ∈ reasons)
  | PMessageDelta _ _ => kind = MessageDelta
  | PMessageCompleted _ _ _ => kind = MessageCompleted
  | PProcess _ _ _ => kind ∈ [ProcessStarted; ProcessOutput; ProcessCompleted]
  | PTool _ => kind ∈ [ToolStarted; ToolCompleted; ToolFailed]
  | PUsage _ => kind = UsageObserved
  end.

(** Events that carry content. *)
Definition content_types : list string := [MessageDelta; ProcessOutput].

(** An event bound to the stream it came from. *)
Record reported (s0 : eventStream) (e : HarnessEvent) (p : payload) : Prop := {
  rp_stream : StreamID e = id s0;
  rp_event : validID (EventID e) = true;
  rp_operation : Operation e = operation s0;
  rp_handle : Handle e = handle s0;
  rp_vendor : VendorEventID e = "" /\ ArtifactReference (EContent e) = "";
  rp_payload : Marshal (payload_json p) = Some (Inline (EContent e));
  rp_size : len (Inline (EContent e)) <= EventBytes (limits s0);
  rp_declared : is_ok (CheckEventDeclaration e (capabilities s0)) = true;
  rp_type : matches (EType e) p;
  rp_policy : one_of (EType e) content_types = true -> policy s0 <> NilPolicy
}.

(** Event number [n] is a fragment of message [i]. *)
Definition delta_at (evs : list HarnessEvent) (n : Z) (i : ID) : Prop :=
  exists k e t, n = Z.of_nat k + 1 /\ evs !! k = Some e /\ EType e = MessageDelta
    /\ Marshal (payload_json (PMessageDelta i t)) = Some (Inline (EContent e)).

Definition span_ok (evs : list HarnessEvent) (i : ID) (f l : Z) : Prop :=
  delta_at evs f i /\ delta_at evs l i /\ f <= l.

Record entry (s0 s : eventStream) (tr : trace) (evs : list HarnessEvent) (k : nat) (e : HarnessEvent)
    (p : payload) : Prop := {
  en_number : Sequence e = Z.of_nat k + 1;
  en_reported : reported s0 e p;
  en_approved : approved tr p;
  en_start : EType e = ExecutionStarted <-> k = 0%nat;
  en_terminal : is_terminal (EType e) = true ->
    S k = length evs /\ end_ s = true
    /\ (forall o, p = PObservation o -> ReasonCode o = "completed" -> all_done s);
  en_message : forall i f l, p = PMessageCompleted i f l -> span_ok evs i f l
}.

Definition log_ok (s0 s : eventStream) (tr : trace) (evs : list HarnessEvent) : Prop :=
  forall k e, evs !! k = Some e -> exists p, entry s0 s tr evs k e p.

Definition identity (s : eventStream) :=
  (handle s, operation s, capabilities s, limits s, policy s, id s).

Record item_ok (evs : list HarnessEvent) (i : eventItem) : Prop := {
  io_id : validID (it_id i) = true;
  io_text : it_kind i = "agentMessage" -> text i <> None;
  io_span : first i <> 0 -> span_ok evs (it_id i) (first i) (last_ i)
}.

(** The state of a stream that has not failed. *)
Record live (s0 s : eventStream) (tr : trace) (evs : list HarnessEvent) : Prop := {
  lv_identity : identity s = identity s0;
  lv_sequence : sequence s = Z.of_nat (length evs);
  lv_range : is_u64 (sequence s);
  lv_started : started s = true <-> evs <> [];
  lv_items : map_Forall (fun _ => item_ok evs) (items s);
  lv_completion : forall p, completion s = Some p ->
    evs <> [] /\ ReasonCode p ∈ reasons /\ (ReasonCode p = "completed" -> all_done s)
    /\ approved tr (PObservation p)
}.

(** *** Monotonicity *)

Lemma approved_more tr t p : approved tr p -> approved (tr ++ t) p.
Proof.
  assert (I : forall x, In x tr -> In x (tr ++ t)) by (intros; apply in_app_iff; by left).
  destruct p; cbn; try done.
  - intros [? [? | [op ?]]]; split; eauto.
  - intros [? [c ?]]; eauto.
  - intros [? [? | [c ?]]]; eauto.
Qed.

Lemma approved_after tr t p : approved t p -> approved (tr ++ t) p.
Proof.
  assert (I : forall x, In x t -> In x (tr ++ t)) by (intros; apply in_app_iff; by right).
  destruct p; cbn; try done.
  - intros [? [? | [op ?]]]; split; eauto.
  - intros [? [c ?]]; eauto.
  - intros [? [? | [c ?]]]; eauto.
Qed.

Lemma span_ok_more evs l i f n : span_ok evs i f n -> span_ok (evs ++ l) i f n.
Proof.
  assert (D : forall n, delta_at evs n i -> delta_at (evs ++ l) n i).
  { intros m (k & e & t & E & L & H). exists k, e, t. split; [done |]. split; [| done].
    by apply lookup_app_l_Some. }
  intros (? & ? & ?). split_and!; auto.
Qed.

Lemma item_ok_more evs l i : item_ok evs i -> item_ok (evs ++ l) i.
Proof. intros [I T S]. split; [done | done |]. intros F. by apply span_ok_more, S. Qed.

(** Earlier entries stay entries while the turn is not over. *)
Lemma entry_more s0 s s' tr t evs l k e p : end_ s = false ->
  entry s0 s tr evs k e p -> entry s0 s' (tr ++ t) (evs ++ l) k e p.
Proof.
  intros O [N R A S T M]. split; [done | done | by apply approved_more | done | |].
  - intros X. destruct (T X) as (_ & Y & _). congruence.
  - intros i f n E. by apply span_ok_more, (M i f n).
Qed.

Lemma log_more s0 s s' tr t evs : end_ s = false -> log_ok s0 s tr evs -> log_ok s0 s' (tr ++ t) evs.
Proof.
  intros O L k e H. destruct (L k e H) as [p P]. exists p. rewrite <- (app_nil_r evs).
  by apply (entry_more s0 s).
Qed.

Lemma log_snoc s0 s s' tr t evs e p : end_ s = false -> log_ok s0 s tr evs ->
  entry s0 s' (tr ++ t) (evs ++ [e]) (length evs) e p -> log_ok s0 s' (tr ++ t) (evs ++ [e]).
Proof.
  intros O L P k e' H. apply lookup_app_Some in H as [H | [Hk H]].
  - destruct (L k e' H) as [p' P']. exists p'. by apply (entry_more s0 s).
  - destruct (k - length evs)%nat as [|] eqn:Z; [| discriminate H]. injection H as <-.
    assert (k = length evs) as -> by lia. eauto.
Qed.

(** *** Transitions preserve the invariant *)

Lemma emission_number s0 s s1 tr evs kind p e :
  live s0 s tr evs -> sequence s1 = sequence s -> emission s1 kind p e ->
  Sequence e = Z.of_nat (length evs) + 1 /\ is_u64 (Sequence e) /\ sequence (emitted s1) = Sequence e.
Proof.
  intros [_ N U _ _ _] Q E. cbn. rewrite (em_sequence _ _ _ _ E), Q.
  pose proof (em_room _ _ _ _ E) as M. rewrite Q in M. unfold max_uint64, is_u64 in *.
  rewrite u64_succ_small by lia. unfold two64 in *. lia.
Qed.

Lemma emission_entry s0 s s1 s' tr t evs kind p e :
  live s0 s tr evs -> identity s1 = identity s -> sequence s1 = sequence s -> emission s1 kind p e ->
  matches kind p -> approved (tr ++ t) p -> (kind = ExecutionStarted <-> evs = []) ->
  (is_terminal kind = true -> end_ s' = true
     /\ forall o, p = PObservation o -> ReasonCode o = "completed" -> all_done s') ->
  (forall i f l, p = PMessageCompleted i f l -> span_ok evs i f l) ->
  (one_of kind content_types = true -> policy s <> NilPolicy) ->
  entry s0 s' (tr ++ t) (evs ++ [e]) (length evs) e p.
Proof.
  intros L I Q E M A S T P Po. destruct (emission_number _ _ _ _ _ _ _ _ L Q E) as (N & _).
  pose proof (lv_identity _ _ _ _ L) as I0. rewrite I0 in I. unfold identity in I, I0.
  injection I as I1 I2 I3 I4 I5 I6. injection I0 as _ _ _ _ I7 _.
  destruct E as [E1 E2 E3 E4 _ _ E5 E6 _ E7 E8 E9].
  split; [exact N | | exact A | | |].
  - split; try congruence. rewrite E5, <- I7. exact Po.
  - rewrite E5, S. split; [by intros -> |]. by destruct evs.
  - rewrite E5. intros X. destruct (T X). rewrite length_app. cbn. split_and!; [lia | done | done].
  - intros i f l X. by apply span_ok_more, (P i f l).
Qed.

(** Same fields that matter, same life. *)
Lemma live_silent s0 s s' tr t evs :
  live s0 s tr evs -> identity s' = identity s -> sequence s' = sequence s -> started s' = started s ->
  map_Forall (fun _ => item_ok evs) (items s') -> completion s' = None -> live s0 s' (tr ++ t) evs.
Proof.
  intros [I N U S It C] E1 E2 E3 E4 E5. split; [congruence | congruence | by rewrite E2 | by rewrite E3 | done |].
  rewrite E5. discriminate.
Qed.

Lemma live_emitted s0 s s1 tr t evs kind p e :
  live s0 s tr evs -> identity s1 = identity s -> sequence s1 = sequence s -> started s1 = true ->
  emission s1 kind p e -> map_Forall (fun _ => item_ok evs) (items s1) ->
  (forall q, completion s1 = Some q -> ReasonCode q ∈ reasons
     /\ (ReasonCode q = "completed" -> all_done s1) /\ approved (tr ++ t) (PObservation q)) ->
  live s0 (emitted s1) (tr ++ t) (evs ++ [e]).
Proof.
  intros L I Q S E It C. destruct (emission_number _ _ _ _ _ _ _ _ L Q E) as (N & U & X).
  split.
  - change (identity (emitted s1)) with (identity s1). rewrite I. apply L.
  - rewrite X, N, length_app. cbn. lia.
  - by rewrite X.
  - cbn. split; [| done]. by destruct evs.
  - intros k i H. apply item_ok_more. exact (It k i H).
  - intros q H. destruct (C q H) as (? & ? & ?). split_and!; try done. by destruct evs.
Qed.

Lemma items_insert evs s k i :
  map_Forall (fun _ => item_ok evs) (items s) -> item_ok evs i ->
  map_Forall (fun _ => item_ok evs) (items (with_item s k i)).
Proof. intros H I. cbn. by apply map_Forall_insert_2. Qed.

Lemma item_ok_close evs i sum : item_ok evs i -> item_ok evs (close_item i sum).
Proof. intros [I T S]. by split. Qed.

Lemma item_ok_write evs i l : item_ok evs i -> item_ok evs (write_text i l).
Proof. intros [I T S]. by split. Qed.

Lemma item_ok_suppress evs i : item_ok evs i -> item_ok evs (suppress i).
Proof. intros [I T S]. by split. Qed.

Lemma item_ok_note evs e i t :
  item_ok evs i -> Sequence e = Z.of_nat (length evs) + 1 -> EType e = MessageDelta ->
  Marshal (payload_json (PMessageDelta (it_id i) t)) = Some (Inline (EContent e)) ->
  item_ok (evs ++ [e]) (note_sequence i (Sequence e)).
Proof.
  intros [I T S] N K M. split; [done | done |]. cbn [first last_ it_id note_sequence]. intros _.
  assert (D : delta_at (evs ++ [e]) (Sequence e) (it_id i)).
  { exists (length evs), e, t. split_and!; try done. by apply list_lookup_middle. }
  destruct (Z.eqb_spec (first i) 0) as [| F]; [split_and!; [done | done | lia] |].
  destruct (span_ok_more _ [e] _ _ _ (S F)) as (D1 & _ & _).
  destruct (S F) as ((k & e1 & t1 & Ek & L & _) & _ & _). apply lookup_lt_Some in L.
  split_and!; [exact D1 | exact D | lia].
Qed.

Lemma work_started_ok i kp tr (P : Prop) : validID i = true -> work_started i kp ->
  matches (fst kp) (snd kp) /\ approved tr (snd kp) /\ fst kp <> ExecutionStarted
  /\ is_terminal (fst kp) = false /\ (forall j f l, snd kp <> PMessageCompleted j f l)
  /\ (one_of (fst kp) content_types = true -> P).
Proof.
  unfold work_started. rewrite !elem_of_cons. intros V [-> | [-> | H]];
    [| | by apply elem_of_nil in H]; cbn; split_and!; try done; try set_solver; auto.
Qed.

Lemma work_done_ok i kp tr (P : Prop) : validID i = true -> work_done i kp ->
  matches (fst kp) (snd kp) /\ approved tr (snd kp) /\ fst kp <> ExecutionStarted
  /\ is_terminal (fst kp) = false /\ (forall j f l, snd kp <> PMessageCompleted j f l)
  /\ (one_of (fst kp) content_types = true -> P).
Proof.
  unfold work_done. rewrite !elem_of_cons. intros V [[exit ->] | [-> | [-> | H]]];
    [| | | by apply elem_of_nil in H]; cbn; split_and!; try done; try set_solver; auto.
Qed.

(** What a reported work item does to the log. *)
Lemma entry_work s0 s s1 s' tr t evs kp e :
  live s0 s tr evs -> identity s1 = identity s -> sequence s1 = sequence s -> started s = true ->
  emission s1 (fst kp) (snd kp) e ->
  matches (fst kp) (snd kp) /\ approved (tr ++ t) (snd kp) /\ fst kp <> ExecutionStarted
    /\ is_terminal (fst kp) = false /\ (forall j f l, snd kp <> PMessageCompleted j f l)
    /\ (one_of (fst kp) content_types = true -> policy s <> NilPolicy) ->
  entry s0 s' (tr ++ t) (evs ++ [e]) (length evs) e (snd kp).
Proof.
  intros L I Q S E (M & A & N & T & P & Po). apply (lv_started _ _ _ _ L) in S.
  eapply emission_entry; try done.
  - by rewrite T.
  - intros i f l H. by destruct (P i f l).
Qed.

(** What a transition keeps of the invariant. *)
Definition kept (s0 s : eventStream) (tr : trace) (evs : list HarnessEvent) (s' : eventStream) (o : outcome)
  : Prop :=
  match o with
  | Ok oe =>
      log_ok s0 s' tr (evs ++ delivered o) /\ live s0 s' tr (evs ++ delivered o)
      /\ failed s' = failed s /\ (oe = None -> end_ s' = false /\ completion s' = None)
  | Err EndOfFile => log_ok s0 s' tr evs /\ live s0 s' tr evs /\ failed s' = failed s
  | Err NilPointer => False
  | Err (Fail _) => True
  end.

Section Kept.
Context (s0 s : eventStream) (tr t : trace) (evs : list HarnessEvent).
Hypothesis G : log_ok s0 s tr evs.
Hypothesis L : live s0 s tr evs.
Hypothesis O : end_ s = false.
Hypothesis C : completion s = None.

Lemma kept_silent s' :
  identity s' = identity s -> sequence s' = sequence s -> started s' = started s ->
  map_Forall (fun _ => item_ok evs) (items s') -> completion s' = None -> end_ s' = false ->
  failed s' = failed s -> kept s0 s (tr ++ t) evs s' (Ok None).
Proof.
  intros. unfold kept. cbn [delivered]. rewrite !app_nil_r.
  split; [exact (log_more s0 s s' tr t evs O G) |]. split; [by apply (live_silent s0 s) | done].
Qed.

Lemma kept_item key i' : item_ok evs i' -> kept s0 s (tr ++ t) evs (with_item s key i') (Ok None).
Proof. intros I. apply kept_silent; try done. apply items_insert; [apply L | done]. Qed.

Lemma kept_emitted s1 s2 kind p e :
  identity s1 = identity s -> sequence s1 = sequence s -> started s1 = true -> failed s1 = failed s ->
  emission s1 kind p e -> map_Forall (fun _ => item_ok evs) (items s1) -> completion s1 = None ->
  entry s0 s2 (tr ++ t) (evs ++ [e]) (length evs) e p ->
  log_ok s0 s2 (tr ++ t) (evs ++ [e]) /\ live s0 (emitted s1) (tr ++ t) (evs ++ [e]).
Proof.
  intros ? ? ? ? ? ? Cn ?. split; [by eapply log_snoc |]. eapply live_emitted; try done.
  rewrite Cn. discriminate.
Qed.

(** Work other than messages: the item, then the report. *)
Lemma kept_work key i' kp e : started s = true -> item_ok evs i' ->
  emission (with_item s key i') (fst kp) (snd kp) e ->
  matches (fst kp) (snd kp) /\ approved (tr ++ t) (snd kp) /\ fst kp <> ExecutionStarted
    /\ is_terminal (fst kp) = false /\ (forall j f l, snd kp <> PMessageCompleted j f l)
    /\ (one_of (fst kp) content_types = true -> policy s <> NilPolicy) ->
  kept s0 s (tr ++ t) evs (emitted (with_item s key i')) (Ok (Some e)).
Proof.
  intros S I Em W. destruct (kept_emitted (with_item s key i') (emitted (with_item s key i')) _ _ e
    eq_refl eq_refl S eq_refl Em (items_insert _ _ _ _ (lv_items _ _ _ _ L) I) C) as [H1 H2]; [| done].
  eapply (entry_work _ _ (with_item s key i')); [exact L | done | done | done | exact Em | exact W].
Qed.

Lemma kept_begin e : started s = false ->
  emission (with_started s) ExecutionStarted (PObservation (mkObservation "" "")) e ->
  kept s0 s (tr ++ t) evs (emitted (with_started s)) (Ok (Some e)).
Proof.
  intros S Em. assert (E : evs = []).
  { destruct evs; [done |]. destruct (lv_started _ _ _ _ L) as [_ St]. rewrite St in S; done. }
  destruct (kept_emitted (with_started s) (emitted (with_started s)) _ _ e eq_refl eq_refl eq_refl eq_refl
    Em (lv_items _ _ _ _ L) C) as [H1 H2]; [| done].
  eapply (emission_entry _ _ (with_started s)); try done; [by left | split; [set_solver | by left]].
Qed.

Lemma kept_delta key i written content safe e :
  started s = true -> growing s key i written -> policy s <> NilPolicy ->
  In (occurred (MessageText (it_id i) content) (Some safe)) t ->
  let i' := write_text i (written ++ to_bytes content) in
  emission (with_item s key i') MessageDelta (PMessageDelta (it_id i) safe) e ->
  kept s0 s (tr ++ t) evs (with_item (emitted (with_item s key i')) key (note_sequence i' (Sequence e)))
    (Ok (Some e)).
Proof.
  intros S Hg Hp Ha i' Em. assert (I : item_ok evs i) by (apply (lv_items _ _ _ _ L key), Hg).
  assert (I' : item_ok evs i') by (by apply item_ok_write).
  set (s2 := with_item _ key (note_sequence _ _)).
  destruct (kept_emitted (with_item s key i') s2 _ _ e eq_refl eq_refl S eq_refl Em
    (items_insert _ _ _ _ (lv_items _ _ _ _ L) I') C) as [H1 H2].
  { eapply (entry_work _ _ (with_item s key i') _ _ _ _ (MessageDelta, PMessageDelta (it_id i) safe)); try done.
    cbn. split_and!; try done; [apply I | exists content; apply in_app_iff; by right]. }
  split; [exact H1 |]. split; [| done]. destruct H2 as [A1 A2 A3 A4 A5 A6].
  split; [exact A1 | exact A2 | exact A3 | exact A4 | |].
  2: { intros q Hq. cbn in Hq. rewrite C in Hq. discriminate Hq. }
  unfold s2. apply items_insert; [exact A5 |].
  destruct (emission_number s0 s (with_item s key i') tr evs _ _ e L eq_refl Em) as (N & _).
  apply (item_ok_note _ _ _ safe I' N); [apply Em | apply Em].
Qed.

Lemma kept_message_done key i written sum e :
  started s = true -> growing s key i written -> first i <> 0 ->
  emission (with_item s key (close_item i sum)) MessageCompleted
    (PMessageCompleted (it_id i) (first i) (last_ i)) e ->
  kept s0 s (tr ++ t) evs (emitted (with_item s key (close_item i sum))) (Ok (Some e)).
Proof.
  intros S Hg F Em. assert (I : item_ok evs i) by (apply (lv_items _ _ _ _ L key), Hg).
  destruct (kept_emitted (with_item s key (close_item i sum)) (emitted (with_item s key (close_item i sum)))
    _ _ e eq_refl eq_refl S eq_refl Em
    (items_insert _ _ _ _ (lv_items _ _ _ _ L) (item_ok_close _ _ sum I)) C) as [H1 H2]; [| done].
  pose proof (proj1 (lv_started _ _ _ _ L) S). eapply (emission_entry _ _ (with_item s key (close_item i sum))); try done; [apply I |].
  intros ? ? ? [= <- <- <-]. by apply (io_span _ _ I).
Qed.

Lemma kept_finished p e :
  started s = true -> ReasonCode p ∈ reasons -> (ReasonCode p = "completed" -> all_done s) ->
  approved (tr ++ t) (PObservation p) -> emission s (terminal p) (PObservation p) e ->
  kept s0 s (tr ++ t) evs (with_end (emitted s)) (Ok (Some e)).
Proof.
  intros S R D A Em. pose proof (proj1 (lv_started _ _ _ _ L) S) as N.
  destruct (kept_emitted s (with_end (emitted s)) _ _ e eq_refl eq_refl S eq_refl Em (lv_items _ _ _ _ L) C)
    as [H1 [A1 A2 A3 A4 A5 A6]].
  - eapply (emission_entry _ _ s); try done.
    + right. done.
    + unfold terminal. split; [| done]. by case_bool_decide.
    + intros _. split; [done |]. intros o [= <-]. exact D.
    + unfold terminal. by case_bool_decide.
  - split; [exact H1 |]. split; [by split | done].
Qed.

Lemma kept_usage p u e :
  started s = true -> ReasonCode p ∈ reasons -> (ReasonCode p = "completed" -> all_done s) ->
  approved (tr ++ t) (PObservation p) -> emission (with_completion s p) UsageObserved (PUsage u) e ->
  kept s0 s (tr ++ t) evs (emitted (with_completion s p)) (Ok (Some e)).
Proof.
  intros S R D A Em. pose proof (proj1 (lv_started _ _ _ _ L) S) as N. split; [| split; [| done]].
  - eapply log_snoc; [done | done |].
    eapply (entry_work _ _ (with_completion s p) _ _ _ _ (UsageObserved, PUsage u)); done.
  - eapply (live_emitted _ _ (with_completion s p)); try done; [apply L |]. intros q [= <-]. done.
Qed.

(** The invariant is kept by every transition that does not fail the stream, and no
    transition dereferences a nil hash. *)
Lemma move_preserves s' o : move s t s' o -> kept s0 s (tr ++ t) evs s' o.
Proof.
  pose proof (lv_items _ _ _ _ L) as It.
  intros M. destruct M as [s' e Hf Hs | s' key i Hi Hk Ht Hd | | c Ht Hu | u Hs Hu | e Hs Em
    | key i sum Hs Hn Hz Hv | key i kind sum kp e Hs Hn Hz Hv Hk Hw Em | key i written content Hs Hg
    | key i written content safe e Hs Hg Hp Ha Hx i' Em | key i content ref e Hs Hi Hk Hd Hp Ha Em
    | key i written sum content Hs Hg Hc Hh | key i written sum content e Hs Hg Hc Hh Hf Em
    | key i sum kp e Hs Hi Hd Hk Hw Em | p u e Hs Hr Hd Ha Hu Em | p e Hs Hr Hd Ha Hu Em].
  - done.
  - by destruct (io_text _ _ (It key i Hi)).
  - by apply kept_silent.
  - by apply kept_silent.
  - by apply kept_silent.
  - by apply kept_begin.
  - by apply kept_item.
  - eapply kept_work; [done | | exact Em | by apply (work_started_ok i)]. by split.
  - apply kept_item, item_ok_suppress, item_ok_write, (It key), Hg.
  - by eapply kept_delta.
  - assert (I : item_ok evs i) by apply (It key i Hi). split; [| split; [| done]].
    + eapply log_snoc; [done | done |].
      eapply (entry_work _ _ s _ _ _ _ (ProcessOutput, PProcess (it_id i) ref None)); try done. cbn.
      split_and!; try done; [set_solver | apply I | right; exists content; apply in_app_iff; by right].
    + eapply (live_emitted _ _ s); try done. rewrite C. discriminate.
  - apply kept_item, item_ok_close, (It key), Hg.
  - by eapply kept_message_done.
  - eapply kept_work; [done | | exact Em | apply (work_done_ok (it_id i)); [apply (It key i Hi) | done]].
    apply item_ok_close, (It key i Hi).
  - eapply kept_usage; try done. by apply approved_after.
  - eapply kept_finished; try done. by apply approved_after.
Qed.

End Kept.

(** *** Next *)

(** States that differ in the client, the pacing and nothing else. *)
Record same (s s' : eventStream) : Prop := {
  sm_identity : identity s' = identity s;
  sm_sequence : sequence s' = sequence s;
  sm_started : started s' = started s;
  sm_end : end_ s' = end_ s;
  sm_failed : failed s' = failed s;
  sm_items : items s' = items s;
  sm_completion : completion s' = completion s
}.

Lemma live_same s0 s s' tr t evs : same s s' -> live s0 s tr evs -> live s0 s' (tr ++ t) evs.
Proof.
  intros [I Q S _ _ It C] [L1 L2 L3 L4 L5 L6].
  split; [congruence | congruence | by rewrite Q | by rewrite S | by rewrite It |].
  intros p H. rewrite C in H. destruct (L6 p H) as (? & ? & ? & ?). unfold all_done in *. rewrite It.
  split_and!; try done. by apply approved_more.
Qed.

Lemma log_same s0 s s' tr t evs : same s s' -> log_ok s0 s tr evs -> log_ok s0 s' (tr ++ t) evs.
Proof.
  intros [_ _ _ E _ It _] L k e H. destruct (L k e H) as [p [N R A S T M]]. exists p.
  split; try done; [by apply approved_more |]. unfold all_done in *. by rewrite E, It.
Qed.

Lemma same_refl s : same s s.
Proof. by split. Qed.

Lemma readEventFrame_same s c o t : runs (readEventFrame (client s)) t (c, o) -> same s (with_client s c).
Proof. intros _. by split. Qed.

(** A pass that reads on keeps everything; one that returns keeps what [kept] says. *)
Lemma read_pass_preserves s0 s tr evs t s' o :
  log_ok s0 s tr evs -> live s0 s tr evs -> end_ s = false -> completion s = None ->
  runs (read_pass s) t (s', o) ->
  match o with
  | None => log_ok s0 s' (tr ++ t) evs /\ live s0 s' (tr ++ t) evs /\ failed s' = failed s
            /\ end_ s' = false /\ completion s' = None
  | Some o => kept s0 s (tr ++ t) evs s' o
  end.
Proof.
  intros G L O C R. unfold read_pass in R. cbn [pbind trigger runs] in R.
  destruct R as (woken & t1 & -> & R).
  assert (W : forall s1 t, same s s1 -> kept s0 s (tr ++ t) evs s1 (Err EndOfFile)).
  { intros s1 t S. split; [by apply (log_same s0 s) |]. split; [by apply (live_same s0 s) | apply S]. }
  destruct woken; [| by destruct R as [_ [= -> ->]] | destruct R as [_ [= -> ->]]; by apply W, same_refl].
  cbn [pbind trigger runs] in R. destruct R as (now & t2 & -> & R).
  set (s1 := with_nextRead s _) in R. cbn [pbind trigger runs] in R. destruct R as (polled & t3 & -> & R).
  destruct polled; [| by destruct R as [_ [= -> ->]] | destruct R as [_ [= -> ->]]; by apply W].
  apply runs_bind in R as (t4 & t5 & [c frame] & -> & _ & R). cbn [fst snd] in R.
  destruct frame as [raw |]; [| by destruct R as [_ [= -> ->]]].
  apply runs_bind in R as (t6 & t7 & [s3 o3] & -> & M & R). cbn [fst snd] in R.
  apply normalize_moves in M. set (s2 := with_client s1 c) in M.
  set (pre := [occurred (Wait (nextRead s)) Proceed; occurred Now now; occurred Poll Proceed] ++ t4).
  assert (S2 : same s s2) by (by split).
  pose proof (move_preserves s0 s2 (tr ++ pre) t6 evs (log_same _ _ _ _ pre _ S2 G) (live_same _ _ _ _ pre _ S2 L)
    O C s3 o3 M) as K.
  assert (T : exists t7', (tr ++ pre) ++ t6 = tr ++ t7' /\ tr ++ occurred (Wait (nextRead s)) Proceed
     :: occurred Now now :: occurred Poll Proceed :: t4 ++ t6 ++ [] = tr ++ t7').
  { eexists. split; [rewrite <- app_assoc; reflexivity |]. unfold pre. rewrite app_nil_r. cbn. done. }
  destruct T as (u & T1 & T2). rewrite T1 in K.
  destruct o3 as [[e |] | f]; destruct R as [-> [= -> ->]]; rewrite T2; [exact K | | by destruct f].
  destruct K as (K1 & K2 & K3 & K4). destruct (K4 eq_refl) as [E1 E2]. rewrite E1, app_nil_r in *. done.
Qed.

Lemma read_loop_preserves s0 frames : forall s tr evs t s' o,
  log_ok s0 s tr evs -> live s0 s tr evs -> end_ s = false -> completion s = None ->
  runs (read_loop frames s) t (s', Some o) -> kept s0 s (tr ++ t) evs s' o.
Proof.
  induction frames as [| n IH]; intros s tr evs t s' o G L O C R; cbn [read_loop] in R.
  { by destruct R as [_ [= -> ?]]. }
  apply runs_bind in R as (t1 & t2 & [s1 o1] & -> & P & R). cbn [fst snd] in R.
  pose proof (read_pass_preserves s0 s tr evs t1 s1 o1 G L O C P) as K. destruct o1 as [o1 |].
  - destruct R as [-> [= -> ->]]. by rewrite app_nil_r.
  - destruct K as (K1 & K2 & K3 & K4 & K5). specialize (IH s1 (tr ++ t1) evs t2 s' o K1 K2 K4 K5 R).
    rewrite app_assoc. unfold kept in *. by rewrite K3 in IH.
Qed.

(** The invariant of a history: the log, and the state unless the stream failed. *)
Definition invariant (s0 s : eventStream) (tr : trace) (evs : list HarnessEvent) : Prop :=
  log_ok s0 s tr evs /\ (failed s = None -> live s0 s tr evs).

Lemma settle_preserves s0 s tr evs t1 t s1 o1 s' o :
  log_ok s0 s tr evs -> end_ s = false -> failed s = None -> kept s0 s (tr ++ t1) evs s1 o1 ->
  runs (settle s1 o1) t (s', Some o) ->
  invariant s0 s' (tr ++ t1 ++ t) (evs ++ delivered o) /\ o <> Err NilPointer.
Proof.
  intros G O F K R. unfold settle in R. cbn [pbind trigger runs] in R. destruct R as (expired & t2 & -> & R).
  destruct R as [-> [= -> ->]]. rewrite app_assoc.
  assert (D : forall e, invariant s0 (with_failed s1 e) ((tr ++ t1) ++ [occurred ContextErr expired]) (evs ++ [])).
  { intros e. rewrite app_nil_r, <- app_assoc. split; [by apply (log_more s0 s) | discriminate]. }
  destruct expired; cbn [negb]; [by split |].
  destruct o1 as [[e |] | [e | |]]; cbn [delivered kept] in *; try (by split).
  - destruct K as (K1 & K2 & K3 & _). split; [| done].
    split; [by apply (log_same s0 s1), K1 | intros _; by apply (live_same s0 s1), K2].
  - destruct K as (K1 & K2 & K3 & _). split; [| done].
    split; [by apply (log_same s0 s1), K1 | intros _; by apply (live_same s0 s1), K2].
  - destruct K as (K1 & K2 & K3). rewrite app_nil_r. split; [| done].
    split; [by apply (log_same s0 s1), K1 | intros _; by apply (live_same s0 s1), K2].
Qed.

(** The pending terminal observation. *)
Lemma finish_kept s0 s tr evs p t s' o :
  log_ok s0 s tr evs -> live s0 s tr evs -> end_ s = false -> completion s = Some p ->
  runs (finish s p) t (s', o) -> kept s0 s (tr ++ t) evs s' o.
Proof.
  intros G L O C R. destruct (lv_completion _ _ _ _ L p C) as (N & Hr & Hd & Ha).
  apply finish_run in R as [(e & -> & ->) | (e & -> & -> & Em)]; [done |].
  assert (S : started s = true) by (by apply L).
  split; [| split; [| done]].
  - eapply log_snoc; [exact O | exact G |]. eapply (emission_entry _ _ s); try done.
    + by right.
    + by apply approved_more.
    + unfold terminal. by case_bool_decide.
    + intros _. split; [done |]. intros q [= <-]. exact Hd.
    + unfold terminal. by case_bool_decide.
  - destruct (live_emitted s0 s s tr t evs _ _ e L eq_refl eq_refl S Em (lv_items _ _ _ _ L)) as [A1 A2 A3 A4 A5 A6].
    + intros q Hq. assert (q = p) as -> by congruence. split_and!; try done. by apply approved_more.
    + split; [exact A1 | exact A2 | exact A3 | exact A4 | exact A5 | discriminate].
Qed.

Lemma Next_preserves s0 s tr evs frames t s' o :
  invariant s0 s tr evs -> runs (Next frames s) t (s', Some o) ->
  invariant s0 s' (tr ++ t) (evs ++ delivered o) /\ o <> Err NilPointer.
Proof.
  intros [G L] R.
  assert (I : forall t f, f <> NilPointer ->
    invariant s0 s (tr ++ t) (evs ++ delivered (Err f)) /\ Err f <> @Err failure (option HarnessEvent) NilPointer).
  { intros t' f Hf. cbn [delivered]. rewrite app_nil_r. split; [| congruence].
    split; [by apply (log_same s0 s) | intros F; apply (live_same s0 s); auto using same_refl]. }
  unfold Next in R. cbn [pbind trigger runs] in R. destruct R as (mine & t1 & -> & R).
  destruct mine; cbn [negb] in R; [| destruct R as [-> [= -> ->]]; by apply I].
  destruct (failed s) as [e |] eqn:F; [destruct R as [-> [= -> ->]]; by apply I |].
  cbn [pbind trigger runs] in R. destruct R as (closed & t2 & -> & R).
  destruct (closed || end_ s) eqn:Q; [destruct R as [-> [= -> ->]]; by apply I |].
  apply orb_false_iff in Q as [_ O]. cbn [pbind trigger runs] in R. destruct R as (free & t3 & -> & R).
  destruct free; cbn [negb] in R; [| destruct R as [-> [= -> ->]]; by apply I].
  set (pre := [occurred (TryLock StreamGate) true; occurred Closed closed; occurred (TryLock ClientGate) true]).
  assert (T : forall u, tr ++ occurred (TryLock StreamGate) true :: occurred Closed closed
     :: occurred (TryLock ClientGate) true :: u = (tr ++ pre) ++ u) by (intros u; by rewrite <- app_assoc).
  rewrite T. pose proof (log_same s0 s s tr pre evs (same_refl s) G) as G'.
  pose proof (live_same s0 s s tr pre evs (same_refl s) (L eq_refl)) as L'.
  destruct (completion s) as [p |] eqn:C.
  - apply runs_bind in R as (u1 & u2 & [s1 o1] & -> & R1 & R). cbn [fst snd] in R.
    eapply (settle_preserves s0 s); try done. by eapply finish_kept.
  - apply runs_bind in R as (u1 & u2 & [s1 o1] & -> & R1 & R). cbn [fst snd] in R.
    destruct o1 as [o1 |]; [| by destruct R as [_ [= ? ?]]].
    eapply (settle_preserves s0 s); try done. by eapply read_loop_preserves.
Qed.

(** ** Theorems *)

Lemma Events_live c h op caps l p t s0 : runs (Events c h op caps l p) t (Ok s0) ->
  invariant s0 s0 [] [] /\ handle s0 = h /\ operation s0 = op /\ capabilities s0 = caps /\ limits s0 = l
  /\ policy s0 = p /\ validID (id s0) = true.
Proof.
  unfold Events. intros R. cbn [pbind trigger runs] in R. destruct R as (free & t1 & -> & R).
  repeat match type of R with
  | runs (if ?b then _ else _) _ _ => destruct b; [by destruct R as [_ [=]] |]
  end.
  cbn [pbind trigger runs] in R. destruct R as (now & t2 & -> & R).
  apply runs_bind in R as (u1 & u2 & [i |] & -> & N & R); [| by destruct R as [_ [=]]].
  pose proof (NewID_run _ _ _ N i eq_refl) as V. destruct R as [_ [= ->]].
  split; [| by split_and!]. split; [intros k e H; by rewrite lookup_nil in H |]. intros _.
  by split.
Qed.

Lemma history_invariant s0 s tr evs : invariant s0 s0 [] [] -> history s0 s tr evs -> invariant s0 s tr evs.
Proof.
  intros I. induction 1 as [| s tr evs frames t s' o _ IH R | s tr evs t c r _ IH R]; [done | |].
  - exact (proj1 (Next_preserves s0 s tr evs frames t s' o IH R)).
  - destruct IH as [G L]. assert (S : same s (with_client s c)) by (by split).
    split; [by apply (log_same s0 s) | intros F; by apply (live_same s0 s), L].
Qed.

(** C34: Every stream that [Events] opens, whatever its frames, its policy and its
    environment do: the delivered events are numbered from 1 without a gap and bound
    to the stream, the operation and the handle it was opened for; the first one, and
    no other, reports the start of the turn; a terminal observation is the last event
    ever delivered and reports the outcome, and a turn is reported completed only
    when every item it opened is done. *)
Theorem codex_turn_reported c h op caps l p t0 s0 s tr evs :
  runs (Events c h op caps l p) t0 (Ok s0) -> history s0 s tr evs ->
  forall k e, evs !! k = Some e ->
    Sequence e = Z.of_nat k + 1 /\ StreamID e = id s0 /\ Operation e = op /\ Handle e = h
    /\ (EType e = ExecutionStarted <-> k = 0%nat)
    /\ (is_terminal (EType e) = true ->
         S k = length evs /\ end_ s = true
         /\ exists o, Marshal (payload_json (PObservation o)) = Some (Inline (EContent e))
              /\ EType e = terminal o /\ ReasonCode o ∈ reasons
              /\ (ReasonCode o = "completed" -> all_done s)).
Proof.
  intros R H k e K. apply Events_live in R as (I & Hh & Ho & _).
  destruct (history_invariant _ _ _ _ I H) as [G _]. destruct (G k e K) as (pl & [N Rp A St T _]).
  destruct Rp as [R1 R2 R3 R4 _ R5 _ _ R6 _]. split_and!; [done | done | congruence | congruence | done |].
  intros X. destruct (T X) as (T1 & T2 & T3). split_and!; [done | done |].
  destruct pl as [o | | | | |]; cbn [matches] in R6;
    try (rewrite R6 in X; discriminate X);
    try (exfalso; rewrite !elem_of_cons, elem_of_nil in R6; destruct_or! R6; try done; rewrite R6 in X; discriminate X).
  exists o. destruct R6 as [[R6 _] | [R6 R7]]; [rewrite R6 in X; discriminate X |].
  split_and!; [done | done | done | by apply (T3 o)].
Qed.

(** Nothing of the vendor's content leaves the adapter unless the policy approved it:
    every delivered event is Confidential, within the negotiated size, of a type the
    negotiated capabilities allow, and its payload consists of generated
    identifiers, sequence numbers, token counts, exit codes, reason codes of the
    contract, and text and references that the policy returned; without a policy no
    text and no process output is delivered.  A completed message points at delivered
    fragments of that message. *)
Theorem codex_content_approved c h op caps l p t0 s0 s tr evs :
  runs (Events c h op caps l p) t0 (Ok s0) -> history s0 s tr evs ->
  forall k e, evs !! k = Some e ->
    is_ok (CheckEventDeclaration e caps) = true /\ len (Inline (EContent e)) <= EventBytes l
    /\ VendorEventID e = "" /\ ArtifactReference (EContent e) = ""
    /\ (p = NilPolicy -> one_of (EType e) content_types = false)
    /\ exists pl, Marshal (payload_json pl) = Some (Inline (EContent e)) /\ matches (EType e) pl
         /\ approved tr pl /\ forall i f n, pl = PMessageCompleted i f n -> span_ok evs i f n.
Proof.
  intros R H k e K. apply Events_live in R as (I & _ & _ & Hc & Hl & Hp & _).
  destruct (history_invariant _ _ _ _ I H) as [G _]. destruct (G k e K) as (pl & [_ Rp A _ _ M]).
  destruct Rp as [_ _ _ _ [R1 R2] R3 R4 R5 R6 R7]. split_and!; [congruence | congruence | done | done | |].
  - intros E. destruct (one_of _ _); [| done]. by destruct R7; [| congruence].
  - exists pl. auto.
Qed.

(** The running hash of a message is never read before it is made: no call of
    [Next] on an open stream panics. *)
Theorem codex_never_nil c h op caps l p t0 s0 s tr evs frames t s' o :
  runs (Events c h op caps l p) t0 (Ok s0) -> history s0 s tr evs ->
  runs (Next frames s) t (s', Some o) -> o <> Err NilPointer.
Proof.
  intros R H N. apply Events_live in R as (I & _).
  exact (proj2 (Next_preserves s0 s tr evs frames t s' o (history_invariant _ _ _ _ I H) N)).
Qed.

(** ** Witnesses: one turn with a message *)

(** A JSON text written with apostrophes for quotes. *)
Definition json_text (s : string) : string :=
  of_bytes (map (fun b => if b =? 39 then 34 else b) (to_bytes s)).

Definition notice (method params : string) : string :=
  json_text ("{'method':'" +:+ method +:+ "','params':{'threadId':'th'," +:+ params +:+ "}}").

Definition sample_frames : list string :=
  [notice "turn/started" "'turn':{'id':'tu','status':'inProgress'}";
   notice "item/started" "'turnId':'tu','startedAtMs':1,'item':{'id':'m1','type':'agentMessage','text':''}";
   notice "item/agentMessage/delta" "'turnId':'tu','itemId':'m1','delta':'Hel'";
   notice "item/agentMessage/delta" "'turnId':'tu','itemId':'m1','delta':'lo'";
   notice "item/completed" "'turnId':'tu','completedAtMs':2,'item':{'id':'m1','type':'agentMessage','text':'Hello'}";
   notice "turn/completed" "'turn':{'id':'tu','status':'completed'}"].

Definition sample_client : Client := mkClient "th" "tu" id1 false false sample_frames 0.

Definition sample_handle : HarnessHandle :=
  mkHarnessHandle id1 id2 (mkFence id1 id2 id3 id4 id1 1 1) Kind_ digest_a digest_b "th".

Definition sample_caps : Capabilities :=
  <[StructuredEvents := Required]> {[Streaming := Supported]}.

Definition sample_limits : AdapterLimits := mkAdapterLimits 1 1 4096 100 8 1 1 1 1 1.

Definition calm (B : Type) (c : call B) : B :=
  match c with
  | Now => at_second 0
  | Entropy => Some "0123456789abcdef"
  | MessageText _ content => Some content
  | PolicyOutput _ _ => Some ""
  | PolicyReference _ _ => Some ""
  | ReadSlice => None
  | LoadInterruptSent => false
  | TryLock _ => true
  | Closed => false
  | Wait _ => Proceed
  | Poll => Proceed
  | ContextErr => false
  end.

Definition sample_open : trace * result HarnessError eventStream :=
  execute calm (Events sample_client sample_handle (mkOperationIdentity id1 digest_a) sample_caps
                  sample_limits ContentPolicy).

(** [n] calls of [Next]. *)
Fixpoint play (n : nat) (s : eventStream) (tr : trace) (evs : list HarnessEvent)
  : eventStream * trace * list HarnessEvent :=
  match n with
  | O => (s, tr, evs)
  | S k =>
      match execute calm (Next 8 s) with
      | (t, (s', Some o)) => play k s' (tr ++ t) (evs ++ delivered o)
      | _ => (s, tr, evs)
      end
  end.

Lemma play_history s0 n : forall s tr evs, history s0 s tr evs ->
  let '(s', tr', evs') := play n s tr evs in history s0 s' tr' evs'.
Proof.
  induction n as [| n IH]; intros s tr evs H; cbn [play]; [done |].
  pose proof (execute_runs calm (Next 8 s)) as R. destruct (execute calm (Next 8 s)) as [t [s' [o |]]]; [| done].
  apply IH. eapply h_next; [exact H | exact R].
Qed.

Lemma sample_opens : is_ok (snd sample_open) = true.
Proof. vm_compute. reflexivity. Qed.

(** The sample turn as its subscriber sees it. *)
Lemma sample_turn :
  match snd sample_open with
  | Ok s0 => let '(s, _, evs) := play 8 s0 [] [] in
             map EType evs = [ExecutionStarted; MessageDelta; MessageDelta; MessageCompleted;
                              ExecutionCompletionObserved] /\ end_ s = true
  | Err _ => False
  end.
Proof. vm_compute. split; reflexivity. Qed.

(** A history of the sample stream with its five events. *)
Lemma sample_history : exists t0 s0 s tr evs,
  runs (Events sample_client sample_handle (mkOperationIdentity id1 digest_a) sample_caps sample_limits
          ContentPolicy) t0 (Ok s0)
  /\ history s0 s tr evs
  /\ map EType evs = [ExecutionStarted; MessageDelta; MessageDelta; MessageCompleted;
                      ExecutionCompletionObserved].
Proof.
  pose proof sample_turn as T. pose proof (execute_runs calm (Events sample_client sample_handle
    (mkOperationIdentity id1 digest_a) sample_caps sample_limits ContentPolicy)) as R.
  fold sample_open in R. destruct sample_open as [t0 [s0 |]]; [| contradiction T]. cbn [fst snd] in *.
  pose proof (play_history s0 8 s0 [] [] (h_open s0)) as H.
  destruct (play 8 s0 [] []) as [[s tr] evs]. destruct T as [T _]. exists t0, s0, s, tr, evs. auto.
Qed.

Lemma last_of_five {A} (f : A -> string) l a b c d e : map f l = [a; b; c; d; e] ->
  exists x, l !! 4%nat = Some x /\ f x = e.
Proof. destruct l as [| x0 [| x1 [| x2 [| x3 [| x4 [|]]]]]]; intros H; try discriminate H. injection H as _ _ _ _ <-. eauto. Qed.

Lemma codex_turn_witness : exists s evs e, evs !! 4%nat = Some e /\ Sequence e = 5
  /\ is_terminal (EType e) = true /\ end_ s = true /\ length evs = 5%nat.
Proof.
  destruct sample_history as (t0 & s0 & s & tr & evs & R & H & M).
  destruct (last_of_five _ _ _ _ _ _ _ M) as (e & L & E).
  destruct (codex_turn_reported _ _ _ _ _ _ _ _ _ _ _ R H 4 e L) as (N & _ & _ & _ & _ & T).
  assert (X : is_terminal (EType e) = true) by (rewrite E; reflexivity).
  destruct (T X) as (T1 & T2 & _). exists s, evs, e. auto.
Defined.

Lemma codex_content_witness : exists (evs : list HarnessEvent) e tr, evs !! 4%nat = Some e
  /\ exists pl, Marshal (payload_json pl) = Some (Inline (EContent e)) /\ approved tr pl.
Proof.
  destruct sample_history as (t0 & s0 & s & tr & evs & R & H & M).
  destruct (last_of_five _ _ _ _ _ _ _ M) as (e & L & E).
  destruct (codex_content_approved _ _ _ _ _ _ _ _ _ _ _ R H 4 e L) as (_ & _ & _ & _ & _ & pl & P1 & _ & P2 & _).
  exists evs, e, tr. split; [exact L |]. exists pl. auto.
Defined.
