(* ===== verification/CodexClient.v ===== *)
(** * internal/adapters/harness/codex: the protocol client

    startup.go, thread.go, turn.go and interrupt.go: the client speaks to one child
    process over its pipes.  [Initialize], [openThread], [StartTurn] and
    [InterruptTurn] are programs over the locks, the context, the pipe and, for the
    interrupt, the reader shared with the event stream.  Proved: whatever the child
    answers, each request is written at most once and in protocol order, and a turn is
    only started on a thread that the child confirmed with the fixed read-only
    policy, the working directory and the pinned version. *)

From Stdlib Require Import ZArith Bool Lia Sorted.
From stdpp Require Import base strings list gmap.
From S2P Require Import Prelude Regex GoStd JsonDecoder JsonEncode JsonUnmarshal Primitives.
From S2P Require Import Sha256 CodexStream CodexSpec Interaction HarnessPort CodexFrames.

Definition Version : string := "0.155.0".

(** ** Requests *)

Inductive request : Type :=
| InitializeRequest
| InitializedNotice
| ThreadRequest (cwd resumeID : string) (infrastructure : bool)
| TurnRequest (thread cwd text : string)
| InterruptRequest (thread turn : string).

Definition newline : string := String (byte_of 10) "".

Definition json_false : jvalue := JRaw "false".

Definition thread_params (cwd resumeID : string) (infrastructure : bool) : list (string * jvalue) :=
  [("cwd", JString cwd); ("approvalPolicy", JString "never"); ("sandbox", JString "read-only")]
  ++ if resumeID == "" then [("ephemeral", json_false)]
     else [("threadId", JString resumeID)]
          ++ (if infrastructure then [("modelProvider", JString "openai")] else [])
          ++ [("excludeTurns", JRaw "true")].

Definition envelope (i : Z) (method : string) (params : jvalue) : string :=
  marshal (JMap [("id", JUint i); ("method", JString method); ("params", params)]) +:+ newline.

(** The line that is written for a request. *)
Definition wire (r : request) : string :=
  match r with
  | InitializeRequest =>
      "{" +:+ quote "id" +:+ ":1," +:+ quote "method" +:+ ":" +:+ quote "initialize" +:+ "," +:+ quote "params"
      +:+ ":{" +:+ quote "clientInfo" +:+ ":{" +:+ quote "name" +:+ ":" +:+ quote "thinkpixelar" +:+ ","
      +:+ quote "version" +:+ ":" +:+ quote "0.1.0" +:+ "}," +:+ quote "capabilities" +:+ ":{"
      +:+ quote "experimentalApi" +:+ ":false}}}" +:+ newline
  | InitializedNotice =>
      "{" +:+ quote "method" +:+ ":" +:+ quote "initialized" +:+ "," +:+ quote "params" +:+ ":{}}" +:+ newline
  | ThreadRequest cwd resumeID infrastructure =>
      envelope 2 (if resumeID == "" then "thread/start" else "thread/resume")
        (JMap (thread_params cwd resumeID infrastructure))
  | TurnRequest thread cwd text =>
      envelope 3 "turn/start"
        (JMap [("threadId", JString thread);
               ("input", JRaw (default "" (MarshalArray [JMap [("type", JString "text"); ("text", JString text)]])));
               ("cwd", JString cwd); ("approvalPolicy", JString "never");
               ("sandboxPolicy", JMap [("type", JString "readOnly"); ("networkAccess", json_false)])])
  | InterruptRequest thread turn =>
      envelope 4 "turn/interrupt" (JMap [("threadId", JString thread); ("turnId", JString turn)])
  end.

Example wire_interrupt :
  wire (InterruptRequest "a" "b")
  = "{" +:+ quote "id" +:+ ":4," +:+ quote "method" +:+ ":" +:+ quote "turn/interrupt" +:+ ","
    +:+ quote "params" +:+ ":{" +:+ quote "threadId" +:+ ":" +:+ quote "a" +:+ "," +:+ quote "turnId" +:+ ":"
    +:+ quote "b" +:+ "}}" +:+ newline.
Proof. vm_compute. reflexivity. Qed.

(** ** State *)

(** [core] is the part that the event stream shares. *)
Record Client : Type := mkClient {
  attempted : bool;
  initialized : bool;
  threadAttempted : bool;
  threadInfrastructure : bool;
  threadCWD : string;
  threadResumeID : string;
  turnDigest : string;
  interruptTarget : option (string * string);
  interruptSent : bool;
  interruptAttempted : bool;
  interruptErr : option HarnessError;
  closed : bool;
  core : CodexStream.Client
}.

Abbreviation threadID c := (CodexStream.threadID (core c)).
Abbreviation turnID c := (CodexStream.turnID (core c)).
Abbreviation turnOperation c := (CodexStream.turnOperation (core c)).

Definition NewClient : Client :=
  mkClient false false false false "" "" "" None false false None false
    (CodexStream.mkClient "" "" "" false false [] 0).

Definition set_attempted (c : Client) : Client :=
  mkClient true (initialized c) (threadAttempted c) (threadInfrastructure c) (threadCWD c)
    (threadResumeID c) (turnDigest c) (interruptTarget c) (interruptSent c) (interruptAttempted c)
    (interruptErr c) (closed c) (core c).
Definition set_initialized (c : Client) : Client :=
  mkClient (attempted c) true (threadAttempted c) (threadInfrastructure c) (threadCWD c)
    (threadResumeID c) (turnDigest c) (interruptTarget c) (interruptSent c) (interruptAttempted c)
    (interruptErr c) (closed c) (core c).
Definition set_thread_attempt (c : Client) (cwd resumeID : string) (infrastructure : bool) : Client :=
  mkClient (attempted c) (initialized c) true infrastructure cwd resumeID (turnDigest c)
    (interruptTarget c) (interruptSent c) (interruptAttempted c) (interruptErr c) (closed c) (core c).
Definition set_core (c : Client) (k : CodexStream.Client) : Client :=
  mkClient (attempted c) (initialized c) (threadAttempted c) (threadInfrastructure c) (threadCWD c)
    (threadResumeID c) (turnDigest c) (interruptTarget c) (interruptSent c) (interruptAttempted c)
    (interruptErr c) (closed c) k.
Definition set_threadID (c : Client) (i : string) : Client :=
  let k := core c in
  set_core c (CodexStream.mkClient i (CodexStream.turnID k) (CodexStream.turnOperation k)
    (CodexStream.eventsOpened k) (CodexStream.interruptAcknowledged k) (CodexStream.pending k)
    (CodexStream.pendingBytes k)).
Definition set_turn_attempt (c : Client) (operation digest : string) : Client :=
  let k := core c in
  mkClient (attempted c) (initialized c) (threadAttempted c) (threadInfrastructure c) (threadCWD c)
    (threadResumeID c) digest (interruptTarget c) (interruptSent c) (interruptAttempted c)
    (interruptErr c) (closed c)
    (CodexStream.mkClient (CodexStream.threadID k) (CodexStream.turnID k) operation
      (CodexStream.eventsOpened k) (CodexStream.interruptAcknowledged k) (CodexStream.pending k)
      (CodexStream.pendingBytes k)).
Definition set_turnID (c : Client) (i : string) : Client :=
  let k := core c in
  mkClient (attempted c) (initialized c) (threadAttempted c) (threadInfrastructure c) (threadCWD c)
    (threadResumeID c) (turnDigest c) (Some (CodexStream.threadID k, i)) (interruptSent c)
    (interruptAttempted c) (interruptErr c) (closed c)
    (CodexStream.mkClient (CodexStream.threadID k) i (CodexStream.turnOperation k)
      (CodexStream.eventsOpened k) (CodexStream.interruptAcknowledged k) (CodexStream.pending k)
      (CodexStream.pendingBytes k)).
Definition set_interrupt_attempt (c : Client) : Client :=
  mkClient (attempted c) (initialized c) (threadAttempted c) (threadInfrastructure c) (threadCWD c)
    (threadResumeID c) (turnDigest c) (interruptTarget c) (interruptSent c) true (interruptErr c)
    (closed c) (core c).
Definition set_interrupt_sent (c : Client) : Client :=
  mkClient (attempted c) (initialized c) (threadAttempted c) (threadInfrastructure c) (threadCWD c)
    (threadResumeID c) (turnDigest c) (interruptTarget c) true (interruptAttempted c) (interruptErr c)
    (closed c) (core c).
Definition set_interrupt_result (c : Client) (e : option HarnessError) : Client :=
  mkClient (attempted c) (initialized c) (threadAttempted c) (threadInfrastructure c) (threadCWD c)
    (threadResumeID c) (turnDigest c) (interruptTarget c) (interruptSent c) (interruptAttempted c) e
    (closed c) (core c).

(** [Close] *)
Definition close (c : Client) : Client :=
  mkClient (attempted c) (initialized c) (threadAttempted c) (threadInfrastructure c) (threadCWD c)
    (threadResumeID c) (turnDigest c) (interruptTarget c) (interruptSent c) (interruptAttempted c)
    (interruptErr c) true (core c).

(** ** Calls *)

Inductive call : Type -> Type :=
| TryLock : call bool
| TryLockInterrupt : call bool
| Expired : call bool
| Write (r : request) : call bool
| ReadSlice : call (option string)
| Tick : call bool
| Shared {B} (c : CodexStream.call B) : call B.

(** A program of the stream, run by the client. *)
Fixpoint lift {A} (p : prog CodexStream.call A) : prog call A :=
  match p with
  | Ret a => Ret a
  | Vis c k => Vis (Shared c) (fun b => lift (k b))
  end.

(** The deferred function of the requests: an expired context or an error closes the
    pipes. *)
Definition settle {A} (c : Client) (r : result HarnessError A) : prog call (Client * result HarnessError A) :=
  do! expired <- trigger Expired;
  let r := if negb expired then r else Err ErrOutcomeUnknown in
  Ret (if is_ok r then c else close c, r).

(** ** Initialize *)

Definition greeting_keys : list string := ["userAgent"; "platformFamily"; "platformOs"; "codexHome"].

(** The response to [initialize]. *)
Definition greeting (raw : string) : result HarnessError unit :=
  match object raw with
  | Err _ => Err ErrProtocol
  | Ok response =>
      if negb (size response =? 2)%nat || (default "" (response !! "id") != "1") then Err ErrProtocol
      else match object_at response "result" with
      | Err _ => Err ErrProtocol
      | Ok answer =>
          if negb (keys answer greeting_keys) then Err ErrProtocol
          else match unmarshalString (answer !! "userAgent") with
          | None => Err ErrProtocol
          | Some identity =>
              if 1024 <? len identity then Err ErrProtocol
              else if cut_space identity != "thinkpixelar/" +:+ Version then Err ErrIncompatible
              else Ok tt
          end
      end
  end.

Definition initialize (c : Client) : prog call (Client * result HarnessError unit) :=
  do! expired <- (trigger Expired : prog call bool);
  if expired then Ret (c, Err ErrOutcomeUnknown)
  else
    do! written <- trigger (Write InitializeRequest);
    if negb written then Ret (c, Err ErrOutcomeUnknown)
    else
      do! line <- trigger ReadSlice;
      match line with
      | None => Ret (c, Err ErrProtocol)
      | Some raw =>
          match greeting raw with
          | Err e => Ret (c, Err e)
          | Ok _ =>
              do! written <- trigger (Write InitializedNotice);
              if negb written then Ret (c, Err ErrOutcomeUnknown) else Ret (set_initialized c, Ok tt)
          end
      end.

Definition Initialize (c : Client) : prog call (Client * result HarnessError unit) :=
  do! free <- trigger TryLock;
  if negb free then Ret (c, Err ErrConflict)
  else if attempted c then Ret (c, Err ErrConflict)
  else
    do! r <- initialize (set_attempted c);
    settle (fst r) (snd r).

(** ** Threads *)

(** A rune of a UUID at byte offset [i]. *)
Definition uuid_rune (ir : nat * (Z * nat)) : bool :=
  let '(i, (r, _)) := ir in
  if (i =? 8)%nat || (i =? 13)%nat || (i =? 18)%nat || (i =? 23)%nat then r =? 45
  else ((48 <=? r) && (r <=? 57)) || ((97 <=? r) && (r <=? 102)).

Definition ValidThreadID (id : string) : bool :=
  (len id =? 36) && forallb uuid_rune (range_string id).

Definition threadIdentity (raw : option string) (cwd : string) : result HarnessError string :=
  match object (default "" raw) with
  | Err _ => Err ErrProtocol
  | Ok thread =>
      match unmarshalString (thread !! "id"), unmarshalString (thread !! "cwd"),
            unmarshalString (thread !! "cliVersion") with
      | Some id, Some directory, Some version =>
          if negb (ValidThreadID id) || (directory != cwd) || (version != Version)
             || (thread !! "ephemeral" != Some "false") then Err ErrProtocol
          else Ok id
      | _, _, _ => Err ErrProtocol
      end
  end.

(** The sandbox that the child confirms. *)
Definition read_only (answer : gmap string string) (cwd : string) : bool :=
  match object_at answer "sandbox" with
  | Err _ => false
  | Ok policy =>
      (unmarshalString (answer !! "cwd") == Some cwd)
      && (unmarshalString (answer !! "approvalPolicy") == Some "never")
      && (policy !! "type" == Some (quote "readOnly")) && (policy !! "networkAccess" == Some "false")
  end.

Definition idle (m : gmap string string) : bool :=
  match object_at m "status" with
  | Ok status => status !! "type" == Some (quote "idle")
  | Err _ => false
  end.

(** [response], [notification]: the identities seen so far. *)
Inductive step : Type := Adopted (id : string) | Waiting (response notification : string).

(** Both identities have to agree. *)
Definition agreed (response notification : string) : result HarnessError step :=
  if (response != "") && (notification != "") then
    if response != notification then Err ErrProtocol else Ok (Adopted response)
  else Ok (Waiting response notification).

Definition thread_response (frame : gmap string string) (cwd resumeID response notification : string)
  : result HarnessError step :=
  if (frame !! "id" != Some "2") || negb (size frame =? 2)%nat || (response != "") then Err ErrProtocol
  else
    let! answer := object_at frame "result" in
    if negb (read_only answer cwd) then Err ErrProtocol
    else
      let! id := threadIdentity (answer !! "thread") cwd in
      if resumeID != "" then
        let thread := match object_at answer "thread" with Ok t => t | Err _ => ∅ end in
        if (id != resumeID) || negb (idle thread) then Err ErrProtocol else Ok (Adopted id)
      else agreed id notification.

Definition startup_hints : list string :=
  ["remoteControl/status/changed"; "configWarning"; "warning"; "skills/changed";
   "mcpServer/startupStatus/updated"].

(** The timestamp of a notification, checked and removed. *)
Definition unstamped (frame : gmap string string) : option (gmap string string) :=
  match frame !! "emittedAtMs" with
  | None => Some frame
  | Some stamp =>
      match unmarshalInt (Some stamp) with
      | Some n => if n <=? 0 then None else Some (delete "emittedAtMs" frame)
      | None => None
      end
  end.

(** A notification while the thread opens. *)
Definition thread_notice (frame : gmap string string) (cwd resumeID response notification : string)
  : result HarnessError step :=
  match unstamped frame with
  | None => Err ErrProtocol
  | Some frame =>
      match unmarshalString (frame !! "method") with
      | None => Err ErrProtocol
      | Some method =>
          if negb (size frame =? 2)%nat || negb (is_some (frame !! "params")) then Err ErrProtocol
          else if method == "thread/status/changed" then
            match object_at frame "params" with
            | Err _ => Err ErrProtocol
            | Ok params =>
                if (resumeID == "") || (unmarshalString (params !! "threadId") != Some resumeID)
                   || negb (idle params) then Err ErrProtocol
                else agreed response notification
            end
          else if method == "thread/started" then
            match object_at frame "params" with
            | Err _ => Err ErrProtocol
            | Ok params =>
                if (notification != "") || (resumeID != "") then Err ErrProtocol
                else let! id := threadIdentity (params !! "thread") cwd in agreed response id
            end
          else if one_of method startup_hints then agreed response notification
          else Err ErrProtocol
      end
  end.

(** At most [n] frames until the thread is adopted. *)
Fixpoint thread_frames (n : nat) (c : Client) (cwd resumeID response notification : string)
  : prog call (Client * result HarnessError string) :=
  match n with
  | O => Ret (c, Err ErrProtocol)
  | S k =>
      do! line <- trigger ReadSlice;
      match line with
      | None => Ret (c, Err ErrProtocol)
      | Some raw =>
          match object raw with
          | Err _ => Ret (c, Err ErrProtocol)
          | Ok frame =>
              match (if is_some (frame !! "id") then thread_response frame cwd resumeID response notification
                     else thread_notice frame cwd resumeID response notification) with
              | Err e => Ret (c, Err e)
              | Ok (Adopted id) => Ret (set_threadID c id, Ok id)
              | Ok (Waiting response notification) => thread_frames k c cwd resumeID response notification
              end
          end
      end
  end.

Definition path_ok (cwd : string) : bool :=
  IsAbs cwd && (Clean cwd == cwd) && (len cwd <=? 4096)
  && no_byte 0 cwd && no_byte 13 cwd && no_byte 10 cwd.

Definition openThread (c : Client) (cwd resumeID : string) (infrastructure : bool)
  : prog call (Client * result HarnessError string) :=
  do! free <- trigger TryLock;
  if negb free then Ret (c, Err ErrConflict)
  else if negb (initialized c) || negb (path_ok cwd) then Ret (c, Err ErrInvalid)
  else if threadAttempted c then
    if (threadCWD c != cwd) || (threadResumeID c != resumeID)
       || negb (Bool.eqb (threadInfrastructure c) infrastructure) then Ret (c, Err ErrConflict)
    else if threadID c == "" then Ret (c, Err ErrOutcomeUnknown)
    else Ret (c, Ok (threadID c))
  else
    do! expired <- (trigger Expired : prog call bool);
    if expired then Ret (c, Err ErrOutcomeUnknown)
    else
      let c := set_thread_attempt c cwd resumeID infrastructure in
      do! written <- trigger (Write (ThreadRequest cwd resumeID infrastructure));
      if negb written then settle c (Err ErrOutcomeUnknown)
      else do! r <- thread_frames 32 c cwd resumeID "" ""; settle (fst r) (snd r).

Definition StartThread (c : Client) (cwd : string) : prog call (Client * result HarnessError string) :=
  openThread c cwd "" false.

Definition ResumeThread (c : Client) (cwd thread : string) : prog call (Client * result HarnessError string) :=
  if negb (ValidThreadID thread) then Ret (c, Err ErrInvalid) else openThread c cwd thread false.

Definition ResumeThreadForInfrastructure (c : Client) (cwd thread : string)
  : prog call (Client * result HarnessError string) :=
  if negb (ValidThreadID thread) then Ret (c, Err ErrInvalid) else openThread c cwd thread true.

(** ** Turns *)

Definition turn_response (frame : gmap string string) : result HarnessError string :=
  if (frame !! "id" != Some "3") || negb (size frame =? 2)%nat then Err ErrProtocol
  else match object_at frame "result" with
  | Err _ => Err ErrProtocol
  | Ok answer =>
      match object_at answer "turn" with
      | Err _ => Err ErrProtocol
      | Ok turn =>
          match unmarshalString (turn !! "id") with
          | None => Err ErrProtocol
          | Some id =>
              if negb (ValidThreadID id) || (turn !! "status" != Some (quote "inProgress"))
              then Err ErrProtocol else Ok id
          end
      end
  end.

(** A notification before the turn is accepted. *)
Definition turn_notice (c : Client) (frame : gmap string string) : bool :=
  match unmarshalString (frame !! "method") with
  | None => false
  | Some method =>
      is_some (frame !! "params")
      && if one_of method ["thread/tokenUsage/updated"; "thread/goal/cleared"] then
           (threadResumeID c != "")
           && match object_at frame "params" with
              | Ok params => unmarshalString (params !! "threadId") == Some (threadID c)
              | Err _ => false
              end
         else one_of method (startup_hints ++ ["thread/status/changed"])
  end.

Fixpoint turn_frames (n : nat) (c : Client) : prog call (Client * result HarnessError string) :=
  match n with
  | O => Ret (c, Err ErrProtocol)
  | S k =>
      do! line <- trigger ReadSlice;
      match line with
      | None => Ret (c, Err ErrProtocol)
      | Some raw =>
          match object raw with
          | Err _ => Ret (c, Err ErrProtocol)
          | Ok frame =>
              if is_some (frame !! "id") then
                match turn_response frame with
                | Err e => Ret (c, Err e)
                | Ok id => Ret (set_turnID c id, Ok id)
                end
              else if turn_notice c frame then turn_frames k c
              else Ret (c, Err ErrProtocol)
          end
      end
  end.

Definition nul : string := String (byte_of 0) "".

Definition StartTurn (c : Client) (operation inputID : ID) (text : string)
  : prog call (Client * result HarnessError string) :=
  do! free <- trigger TryLock;
  if negb free then Ret (c, Err ErrConflict)
  else if threadInfrastructure c || (threadID c == "") || (len text =? 0) || (16384 <? len text)
          || negb (ValidString text) then Ret (c, Err ErrInvalid)
  else if negb (is_ok (ParseID operation)) || negb (is_ok (ParseID inputID)) then Ret (c, Err ErrInvalid)
  else
    let digest := hexEncode (Sum256 (to_bytes (inputID +:+ nul +:+ text))) in
    if turnOperation c != "" then
      if (turnOperation c != operation) || (turnDigest c != digest) then Ret (c, Err ErrConflict)
      else if turnID c == "" then Ret (c, Err ErrOutcomeUnknown)
      else Ret (c, Ok (turnID c))
    else
      do! expired <- (trigger Expired : prog call bool);
      if expired then Ret (c, Err ErrOutcomeUnknown)
      else
        let c := set_turn_attempt c operation digest in
        do! written <- trigger (Write (TurnRequest (threadID c) (threadCWD c) text));
        if negb written then settle c (Err ErrOutcomeUnknown)
        else do! r <- turn_frames 32 c; settle (fst r) (snd r).

(** ** Interrupts *)

(** The wait for the acknowledgement; [None] is still waiting after [n] rounds. *)
Fixpoint await_ack (n : nat) (c : Client) : prog call (Client * option (result HarnessError unit)) :=
  match n with
  | O => Ret (c, None)
  | S k =>
      if CodexStream.interruptAcknowledged (core c) then Ret (c, Some (Ok tt))
      else
        do! expired <- (trigger Expired : prog call bool);
        if expired then Ret (c, Some (Err ErrOutcomeUnknown))
        else
          do! free <- (trigger TryLock : prog call bool);
          if free then
            do! r <- lift (CodexStream.readInterruptFrame (core c));
            match snd r with
            | Err e => Ret (set_core c (fst r), Some (Err e))
            | Ok _ => await_ack k (set_core c (fst r))
            end
          else
            do! done <- (trigger Tick : prog call bool);
            if done then Ret (c, Some (Err ErrOutcomeUnknown)) else await_ack k c
  end.

(** The deferred function of the interrupt records the result. *)
Definition settle_interrupt (c : Client) (r : result HarnessError unit)
  : prog call (Client * option (result HarnessError unit)) :=
  do! s <- settle c r;
  Ret (set_interrupt_result (fst s) (match snd s with Ok _ => None | Err e => Some e end), Some (snd s)).

Definition InterruptTurn (rounds : nat) (c : Client)
  : prog call (Client * option (result HarnessError unit)) :=
  do! free <- trigger TryLockInterrupt;
  if negb free then Ret (c, Some (Err ErrConflict))
  else match interruptTarget c with
  | None => Ret (c, Some (Err ErrInvalid))
  | Some (thread, turn) =>
      if interruptAttempted c then
        Ret (c, Some (match interruptErr c with Some e => Err e | None => Ok tt end))
      else
        do! expired <- (trigger Expired : prog call bool);
        if expired then Ret (c, Some (Err ErrOutcomeUnknown))
        else
          let c := set_interrupt_sent (set_interrupt_attempt c) in
          do! written <- trigger (Write (InterruptRequest thread turn));
          if negb written then settle_interrupt c (Err ErrOutcomeUnknown)
          else
            do! r <- await_ack rounds c;
            match snd r with
            | Some o => settle_interrupt (fst r) o
            | None => Ret r
            end
  end.

(** ** Histories of a client *)

Abbreviation trace := (list (event call)).

Definition request_of (e : event call) : list request :=
  match e with existT _ (c, _) => match c with Write r => [r] | _ => [] end end.

Definition writes (tr : trace) : list request := flat_map request_of tr.

(** What callers do with a client, in any order and any number of times; the event
    stream may meanwhile change its own part and close the pipes. *)
Inductive history : Client -> trace -> Prop :=
| h_new : history NewClient []
| h_initialize c tr t c' r :
    history c tr -> runs (Initialize c) t (c', r) -> history c' (tr ++ t)
| h_thread c tr cwd resumeID infrastructure t c' r :
    history c tr -> runs (openThread c cwd resumeID infrastructure) t (c', r) -> history c' (tr ++ t)
| h_turn c tr operation inputID text t c' r :
    history c tr -> runs (StartTurn c operation inputID text) t (c', r) -> history c' (tr ++ t)
| h_interrupt c tr rounds t c' r :
    history c tr -> runs (InterruptTurn rounds c) t (c', r) -> history c' (tr ++ t)
| h_stream c tr k :
    history c tr -> CodexStream.threadID k = threadID c -> CodexStream.turnID k = turnID c ->
    CodexStream.turnOperation k = turnOperation c -> history (set_core c k) tr
| h_close c tr : history c tr -> history (close c) tr.

(** The order of the protocol. *)
Definition rank (r : request) : nat :=
  match r with
  | InitializeRequest => 1
  | InitializedNotice => 2
  | ThreadRequest _ _ _ => 3
  | TurnRequest _ _ _ => 4
  | InterruptRequest _ _ => 5
  end.

(** How far a client has come. *)
Definition level (c : Client) : nat :=
  if interruptAttempted c then 5
  else if bool_decide (turnOperation c = "") then
    if threadAttempted c then 3 else if attempted c then 2 else 0
  else 4.

Record consistent (c : Client) : Prop := {
  cs_interrupt : interruptAttempted c = true -> interruptTarget c <> None;
  cs_target : interruptTarget c <> None -> turnOperation c <> "";
  cs_turn : turnOperation c <> "" -> threadID c <> "";
  cs_thread : threadID c <> "" -> threadAttempted c = true;
  cs_attempt : threadAttempted c = true -> initialized c = true;
  cs_initialized : initialized c = true -> attempted c = true
}.

(** The child's answer that confirms a thread. *)
Definition confirmed (cwd id raw : string) : Prop :=
  exists frame answer, object raw = Ok frame /\ frame !! "id" = Some "2"
    /\ object_at frame "result" = Ok answer /\ read_only answer cwd = true
    /\ threadIdentity (answer !! "thread") cwd = Ok id.

Definition heard (tr : trace) (cwd id : string) : Prop :=
  exists raw, In (occurred ReadSlice (Some raw)) tr /\ confirmed cwd id raw.

Record invariant (c : Client) (tr : trace) : Prop := {
  iv_consistent : consistent c;
  iv_order : StronglySorted lt (map rank (writes tr));
  iv_level : Forall (fun r => (rank r <= level c)%nat) (writes tr);
  iv_thread : threadID c <> "" -> heard tr (threadCWD c) (threadID c);
  iv_turn : forall thread cwd text, In (TurnRequest thread cwd text) (writes tr) -> heard tr cwd thread
}.

Lemma requests_app a b : writes (a ++ b) = writes a ++ writes b.
Proof. apply flat_map_app. Qed.

Lemma heard_more tr t cwd id : heard tr cwd id -> heard (tr ++ t) cwd id.
Proof. intros (raw & I & C). exists raw. split; [apply in_app_iff; by left | done]. Qed.

(** A step that writes nothing. *)
Lemma invariant_quiet c c' tr t :
  invariant c tr -> writes t = [] -> consistent c' -> (level c <= level c')%nat ->
  (threadID c' <> "" -> heard (tr ++ t) (threadCWD c') (threadID c')) -> invariant c' (tr ++ t).
Proof.
  intros [C O L T U] W C' Lv H. split; rewrite ?requests_app, ?W, ?app_nil_r; try done.
  - eapply Forall_impl; [exact L |]. intros r R. cbn in *. lia.
  - intros th cwd x I. by apply heard_more, (U th cwd x).
Qed.

(** A step that writes the next requests. *)
Lemma invariant_write c c' tr t rs :
  invariant c tr -> writes t = rs -> consistent c' ->
  StronglySorted lt (map rank rs) -> Forall (fun r => (level c < rank r <= level c')%nat) rs ->
  (level c <= level c')%nat ->
  (threadID c' <> "" -> heard (tr ++ t) (threadCWD c') (threadID c')) ->
  (forall thread cwd text, In (TurnRequest thread cwd text) rs -> heard (tr ++ t) cwd thread) ->
  invariant c' (tr ++ t).
Proof.
  intros [C O L T U] W C' S R Lv H HT. split; rewrite ?requests_app, ?W; try done.
  - rewrite map_app. clear -O S L R. induction (writes tr) as [| w ws IH]; [done |].
    cbn in *. apply Forall_cons in L as [L0 L]. apply StronglySorted_inv in O as [O O0].
    constructor; [by apply IH |]. rewrite Forall_app. split; [done |]. rewrite Forall_map.
    eapply Forall_impl; [exact R |]. intros r Hr. cbn in *. lia.
  - apply Forall_app. split; [eapply Forall_impl; [exact L |] | eapply Forall_impl; [exact R |]];
      intros r Hr; cbn in *; lia.
  - intros th cwd x I. apply in_app_iff in I as [I | I]; [by apply heard_more, (U th cwd x) | by apply (HT th cwd x)].
Qed.

(** *** What the flags imply *)

Lemma no_interrupt c : consistent c -> turnOperation c = "" ->
  interruptTarget c = None /\ interruptAttempted c = false.
Proof.
  intros [I T _ _ _ _] E. destruct (interruptTarget c) as [x |] eqn:X; [by destruct (T ltac:(done)) |].
  split; [done |]. destruct (interruptAttempted c); [| done]. by destruct (I eq_refl).
Qed.

Lemma no_thread c : consistent c -> threadAttempted c = false ->
  threadID c = "" /\ turnOperation c = "" /\ interruptTarget c = None /\ interruptAttempted c = false.
Proof.
  intros C E. assert (T : threadID c = "").
  { destruct (decide (threadID c = "")) as [| N]; [done |]. apply (cs_thread c C) in N. congruence. }
  assert (O : turnOperation c = "").
  { destruct (decide (turnOperation c = "")) as [| N]; [done |]. by destruct (cs_turn c C N). }
  destruct (no_interrupt c C O). done.
Qed.

Lemma level_start c : consistent c -> attempted c = false -> level c = 0%nat /\ threadAttempted c = false.
Proof.
  intros C E. destruct (threadAttempted c) eqn:T.
  { apply (cs_attempt c C), (cs_initialized c C) in T. congruence. }
  destruct (no_thread c C T) as (_ & O & _ & I). unfold level. by rewrite I, O, T, E.
Qed.

Lemma level_ready c : consistent c -> initialized c = true -> threadAttempted c = false -> level c = 2%nat.
Proof.
  intros C I T. destruct (no_thread c C T) as (_ & O & _ & N). unfold level.
  by rewrite N, O, T, (cs_initialized c C I).
Qed.

Lemma level_thread c : consistent c -> threadAttempted c = true -> turnOperation c = "" -> level c = 3%nat.
Proof. intros C T O. destruct (no_interrupt c C O) as [_ N]. unfold level. by rewrite N, O, T. Qed.

Lemma level_turn c : turnOperation c <> "" -> interruptAttempted c = false -> level c = 4%nat.
Proof. intros O N. unfold level. rewrite N. by rewrite bool_decide_false. Qed.

(** Closing the pipes changes nothing else. *)
Lemma invariant_close c tr : invariant c tr -> invariant (close c) tr.
Proof. intros [[] O L T U]. by split. Qed.

Lemma settle_run {A} c (r : result HarnessError A) t c' r' : runs (settle c r) t (c', r') ->
  writes t = [] /\ (c' = c \/ c' = close c).
Proof.
  unfold settle. cbn [pbind trigger runs]. intros (e & t1 & -> & -> & [= -> _]). split; [done |].
  destruct (is_ok _); auto.
Qed.

Lemma invariant_settle {A} c tr (r : result HarnessError A) t c' r' :
  invariant c tr -> runs (settle c r) t (c', r') -> invariant c' (tr ++ t).
Proof.
  intros I R. apply settle_run in R as (W & H).
  assert (Q : invariant c (tr ++ t)).
  { apply (invariant_quiet c); try done; [apply I |]. intros N. by apply heard_more, I. }
  destruct H as [-> | ->]; [done | by apply invariant_close].
Qed.

Lemma invariant_skip c tr t : invariant c tr -> writes t = [] -> invariant c (tr ++ t).
Proof.
  intros I W. apply (invariant_quiet c); try done; [apply I |]. intros N. by apply heard_more, I.
Qed.

(** *** Initialize *)

Lemma initialize_run c t c' r : runs (initialize c) t (c', r) ->
  (c' = c \/ c' = set_initialized c) /\ writes t ∈ [[]; [InitializeRequest]; [InitializeRequest; InitializedNotice]].
Proof.
  unfold initialize. intros R. cbn [pbind trigger runs] in R. destruct R as (e & t1 & -> & R).
  destruct e; [destruct R as [-> [= -> _]]; split; [by left | set_solver] |].
  cbn [pbind trigger runs] in R. destruct R as (w & t2 & -> & R).
  destruct w; cbn [negb] in R; [| destruct R as [-> [= -> _]]; split; [by left | set_solver]].
  cbn [pbind trigger runs] in R. destruct R as ([raw |] & t3 & -> & R);
    [| destruct R as [-> [= -> _]]; split; [by left | set_solver]].
  destruct (greeting raw); [| destruct R as [-> [= -> _]]; split; [by left | set_solver]].
  cbn [pbind trigger runs] in R. destruct R as (w & t4 & -> & R).
  destruct w; cbn [negb] in R; destruct R as [-> [= -> _]]; split; auto; set_solver.
Qed.

Lemma Initialize_invariant c tr t c' r : invariant c tr -> runs (Initialize c) t (c', r) -> invariant c' (tr ++ t).
Proof.
  intros I R. unfold Initialize in R. cbn [pbind trigger runs] in R. destruct R as (f & t1 & -> & R).
  destruct f; cbn [negb] in R; [| destruct R as [-> [= -> _]]; by apply invariant_skip].
  destruct (attempted c) eqn:A; [destruct R as [-> [= -> _]]; by apply invariant_skip |].
  apply runs_bind in R as (t2 & t3 & [c1 r1] & -> & R1 & R). cbn [fst snd] in R.
  destruct (level_start c (iv_consistent c tr I) A) as [L T]. apply initialize_run in R1 as [H W].
  destruct (no_thread c (iv_consistent c tr I) T) as (N1 & N2 & N3 & N4).
  change (tr ++ occurred TryLock true :: t2 ++ t3) with (tr ++ ([occurred TryLock true] ++ t2) ++ t3).
  rewrite app_assoc. eapply invariant_settle; [| exact R].
  assert (C1 : consistent c1) by (destruct H as [-> | ->]; split; cbn; congruence).
  assert (L1 : level c1 = 2%nat) by (unfold level; destruct H as [-> | ->]; cbn; by rewrite N4, N2, T).
  apply (invariant_write c _ _ _ (writes t2)); [done | reflexivity | done | | | lia | |].
  - rewrite !elem_of_cons, elem_of_nil in W. destruct W as [-> | [-> | [-> | []]]]; cbn; repeat constructor.
  - rewrite L, L1. rewrite !elem_of_cons, elem_of_nil in W.
    destruct W as [-> | [-> | [-> | []]]]; cbn; repeat constructor; cbn; lia.
  - intros X. destruct H as [-> | ->]; cbn in X; congruence.
  - intros th cwd x X. rewrite !elem_of_cons, elem_of_nil in W. cbn in X.
    destruct W as [W | [W | [W | []]]]; rewrite W in X; cbn in X; destruct_or? X; try done; discriminate X.
Qed.

(** *** Threads *)

Lemma threadIdentity_valid raw cwd id : threadIdentity raw cwd = Ok id -> ValidThreadID id = true /\ id <> "".
Proof.
  unfold threadIdentity. intros H. destruct (object _) as [thread |]; [| discriminate H].
  destruct (unmarshalString _) as [i |]; [| discriminate H].
  destruct (unmarshalString _) as [d |]; [| discriminate H].
  destruct (unmarshalString _) as [v |]; [| discriminate H].
  destruct (ValidThreadID i) eqn:V; [| discriminate H]. destruct (_ || _) in H; [discriminate H |].
  injection H as <-. split; [done |]. intros ->. discriminate V.
Qed.

Lemma agreed_ok response notification st : agreed response notification = Ok st ->
  (st = Adopted response /\ response <> "") \/ st = Waiting response notification.
Proof.
  unfold agreed. intros H. destruct (bool_decide_reflect (response = "")) as [| N]; [right; by injection H |].
  cbn [negb andb] in H. destruct (negb _) in H; [| right; by injection H].
  destruct (negb _) in H; [discriminate H |]. injection H as <-. by left.
Qed.

Lemma thread_response_ok raw frame cwd rid response notification st :
  object raw = Ok frame -> thread_response frame cwd rid response notification = Ok st ->
  match st with
  | Adopted id => confirmed cwd id raw /\ (rid <> "" -> id = rid)
  | Waiting r n => confirmed cwd r raw /\ n = notification /\ rid = ""
  end.
Proof.
  unfold thread_response. intros F H. destruct (_ || _) eqn:G in H; [discriminate H |].
  destruct (object_at frame "result") as [answer |] eqn:A; [| discriminate H]. cbn [rbind] in H.
  destruct (read_only answer cwd) eqn:P; [| discriminate H]. cbn [negb] in H.
  destruct (threadIdentity (answer !! "thread") cwd) as [id |] eqn:T; [| discriminate H]. cbn [rbind] in H.
  simp_bool. assert (K : confirmed cwd id raw) by (by exists frame, answer).
  destruct (bool_decide_reflect (rid = "")) as [-> | N]; cbn [negb] in H.
  - apply agreed_ok in H as [[-> _] | ->]; split_and!; try done.
  - destruct (_ || _) eqn:Q in H; [discriminate H |]. injection H as <-. simp_bool. done.
Qed.

Lemma thread_notice_ok frame cwd rid response notification st :
  thread_notice frame cwd rid response notification = Ok st ->
  match st with
  | Adopted id => id = response /\ response <> ""
  | Waiting r n => r = response
  end.
Proof.
  assert (A : forall n, agreed response n = Ok st ->
    match st with Adopted id => id = response /\ response <> "" | Waiting r n => r = response end).
  { intros n H. by apply agreed_ok in H as [[-> N] | ->]. }
  unfold thread_notice. intros H. destruct (unstamped frame) as [f |]; [| discriminate H].
  destruct (unmarshalString (f !! "method")) as [method |]; [| discriminate H].
  destruct (_ || _) in H; [discriminate H |]. destruct (bool_decide _) in H.
  { destruct (object_at f "params"); [| discriminate H]. destruct (_ || _) in H; [discriminate H |].
    exact (A _ H). }
  destruct (bool_decide _) in H.
  { destruct (object_at f "params") as [params |]; [| discriminate H]. destruct (_ || _) in H; [discriminate H |].
    destruct (threadIdentity _ _) in H; [| discriminate H]. exact (A _ H). }
  destruct (one_of _ _) in H; [exact (A _ H) | discriminate H].
Qed.

Lemma confirmed_valid cwd id raw : confirmed cwd id raw -> ValidThreadID id = true /\ id <> "".
Proof. intros (f & a & _ & _ & _ & _ & T). by apply threadIdentity_valid in T. Qed.

Lemma thread_frames_run n : forall tr0 c cwd rid response notification t c' r,
  (response <> "" -> heard tr0 cwd response /\ rid = "") ->
  runs (thread_frames n c cwd rid response notification) t (c', r) ->
  writes t = []
  /\ match r with
     | Err _ => c' = c
     | Ok id => c' = set_threadID c id /\ id <> "" /\ heard (tr0 ++ t) cwd id /\ (rid <> "" -> id = rid)
     end.
Proof.
  induction n as [| n IH]; intros tr0 c cwd rid response notification t c' r Hr R; cbn [thread_frames] in R.
  { destruct R as [-> [= -> ->]]. done. }
  cbn [pbind trigger runs] in R. destruct R as (line & t1 & -> & R).
  destruct line as [raw |]; [| by destruct R as [-> [= -> ->]]].
  destruct (object raw) as [frame |] eqn:F; [| by destruct R as [-> [= -> ->]]].
  assert (Hin : forall u, In (occurred ReadSlice (Some raw)) (tr0 ++ occurred ReadSlice (Some raw) :: u))
    by (intros; apply in_app_iff; right; by left).
  destruct (if is_some (frame !! "id") then _ else _) as [st | e] eqn:S in R; [| by destruct R as [-> [= -> ->]]].
  destruct (is_some (frame !! "id")).
  - apply (thread_response_ok raw) in S; [| done]. destruct st as [id | r1 n1].
    + destruct S as [K E]. destruct R as [-> [= -> ->]]. split; [done |].
      split_and!; [done | exact (proj2 (confirmed_valid _ _ _ K)) | exists raw; split; [apply Hin | exact K] | done].
    + destruct S as (K & -> & ->).
      apply (IH (tr0 ++ [occurred ReadSlice (Some raw)])) in R as [W R].
      * split; [exact W |]. rewrite <- app_assoc in R. exact R.
      * intros _. split; [| done]. exists raw. split; [apply Hin | done].
  - apply thread_notice_ok in S. destruct st as [id | r1 n1].
    + destruct S as [-> N]. destruct R as [-> [= -> ->]]. destruct (Hr N) as [H1 H2]. split; [done |].
      split_and!; [done | done | by apply heard_more | congruence].
    + subst r1. apply (IH (tr0 ++ [occurred ReadSlice (Some raw)])) in R as [W R].
      * split; [exact W |]. rewrite <- app_assoc in R. exact R.
      * intros N. destruct (Hr N). split; [by apply heard_more | done].
Qed.

Lemma openThread_invariant c tr cwd rid infra t c' r :
  invariant c tr -> runs (openThread c cwd rid infra) t (c', r) -> invariant c' (tr ++ t).
Proof.
  intros I R. pose proof (iv_consistent c tr I) as C. unfold openThread in R. cbn [pbind trigger runs] in R.
  destruct R as (f & t1 & -> & R).
  destruct f; cbn [negb] in R; [| destruct R as [-> [= -> _]]; by apply invariant_skip].
  destruct (initialized c) eqn:A; cbn [negb orb] in R; [| destruct R as [-> [= -> _]]; by apply invariant_skip].
  destruct (negb _) in R; [destruct R as [-> [= -> _]]; by apply invariant_skip |].
  destruct (threadAttempted c) eqn:T.
  { destruct (_ || _) in R; [destruct R as [-> [= -> _]]; by apply invariant_skip |].
    destruct (bool_decide _) in R; destruct R as [-> [= -> _]]; by apply invariant_skip. }
  cbn [pbind trigger runs] in R. destruct R as (e & t2 & -> & R).
  destruct e; [destruct R as [-> [= -> _]]; by apply invariant_skip |].
  cbn [pbind trigger runs] in R. destruct R as (w & t3 & -> & R).
  destruct (no_thread c C T) as (N1 & N2 & N3 & N4).
  set (c1 := set_thread_attempt c cwd rid infra) in *.
  set (pre := [occurred TryLock true; occurred Expired false; occurred (Write (ThreadRequest cwd rid infra)) w]).
  assert (C1 : consistent c1) by (destruct C; split; cbn; rewrite ?N1, ?N2, ?N3, ?N4; auto; congruence).
  assert (I1 : invariant c1 (tr ++ pre)).
  { apply (invariant_write c _ _ _ [ThreadRequest cwd rid infra]); try done.
    - repeat constructor.
    - rewrite (level_ready c C A T), (level_thread c1 C1 eq_refl N2). repeat constructor; cbn; lia.
    - rewrite (level_ready c C A T), (level_thread c1 C1 eq_refl N2). lia.
    - intros th d x [X | []]. discriminate X. }
  change (invariant c' (tr ++ pre ++ t3)). rewrite app_assoc. destruct w; cbn [negb] in R; [| by eapply invariant_settle].
  apply runs_bind in R as (t4 & t5 & [c2 r2] & -> & R1 & R). cbn [fst snd] in R.
  apply (thread_frames_run 32 (tr ++ pre)) in R1 as [W H]; [| done]. rewrite app_assoc.
  eapply invariant_settle; [| exact R]. destruct r2 as [id |]; [| subst c2; by apply invariant_skip].
  destruct H as (-> & N & Hd & _).
  assert (C2 : consistent (set_threadID c1 id)) by (destruct C1; split; cbn in *; auto; congruence).
  apply (invariant_quiet c1); done.
Qed.

(** *** Turns *)

Lemma turn_frames_run n : forall c t c' r, runs (turn_frames n c) t (c', r) ->
  writes t = [] /\ (c' = c \/ exists id, c' = set_turnID c id).
Proof.
  induction n as [| n IH]; intros c t c' r R; cbn [turn_frames] in R.
  { destruct R as [-> [= -> _]]. auto. }
  cbn [pbind trigger runs] in R. destruct R as (line & t1 & -> & R).
  destruct line as [raw |]; [| destruct R as [-> [= -> _]]; auto].
  destruct (object raw) as [frame |]; [| destruct R as [-> [= -> _]]; auto].
  destruct (is_some _); [| destruct (turn_notice c frame); [by apply IH in R | destruct R as [-> [= -> _]]; auto]].
  destruct (turn_response frame) as [id |]; destruct R as [-> [= -> _]]; eauto.
Qed.

Lemma StartTurn_invariant c tr operation inputID text t c' r :
  invariant c tr -> runs (StartTurn c operation inputID text) t (c', r) -> invariant c' (tr ++ t).
Proof.
  intros I R. pose proof (iv_consistent c tr I) as C. unfold StartTurn in R. cbn [pbind trigger runs] in R.
  destruct R as (f & t1 & -> & R).
  destruct f; cbn [negb] in R; [| destruct R as [-> [= -> _]]; by apply invariant_skip].
  destruct (_ || _) eqn:G1 in R; [destruct R as [-> [= -> _]]; by apply invariant_skip |].
  destruct (_ || _) eqn:G2 in R; [destruct R as [-> [= -> _]]; by apply invariant_skip |].
  simp_bool. destruct (bool_decide_reflect (turnOperation c = "")) as [T | T]; cbn [negb] in R.
  2: { destruct (_ || _) in R; [destruct R as [-> [= -> _]]; by apply invariant_skip |].
       destruct (bool_decide _) in R; destruct R as [-> [= -> _]]; by apply invariant_skip. }
  cbn [pbind trigger runs] in R. destruct R as (e & t2 & -> & R).
  destruct e; [destruct R as [-> [= -> _]]; by apply invariant_skip |].
  cbn [pbind trigger runs] in R. destruct R as (w & t3 & -> & R).
  destruct (no_interrupt c C T) as [N3 N4].
  assert (O : operation <> "") by by apply ParseID_nonempty.
  set (c1 := set_turn_attempt c operation _) in R.
  set (pre := [occurred TryLock true; occurred Expired false;
               occurred (Write (TurnRequest (threadID c) (threadCWD c) text)) w]).
  assert (TA : threadAttempted c = true) by by apply (cs_thread c C).
  assert (C1 : consistent c1) by (destruct C; split; cbn; rewrite ?N3, ?N4; auto; congruence).
  assert (Hd : heard (tr ++ pre) (threadCWD c) (threadID c)) by by apply heard_more, I.
  assert (I1 : invariant c1 (tr ++ pre)).
  { apply (invariant_write c _ _ _ [TurnRequest (threadID c) (threadCWD c) text]); try done.
    - repeat constructor.
    - rewrite (level_thread c C TA T), (level_turn c1 O N4). repeat constructor; cbn; lia.
    - rewrite (level_thread c C TA T), (level_turn c1 O N4). lia.
    - intros th d x [[= <- <- <-] | []]. exact Hd. }
  change (invariant c' (tr ++ pre ++ t3)). rewrite app_assoc. destruct w; cbn [negb] in R; [| by eapply invariant_settle].
  apply runs_bind in R as (t4 & t5 & [c2 r2] & -> & R1 & R). cbn [fst snd] in R.
  apply turn_frames_run in R1 as [W F]. rewrite app_assoc.
  eapply invariant_settle; [| exact R]. destruct F as [-> | [id ->]]; [by apply invariant_skip |].
  assert (C2 : consistent (set_turnID c1 id)) by (destruct C1; split; cbn in *; auto; congruence).
  apply (invariant_quiet c1); try done. intros _. by apply heard_more.
Qed.

(** *** Interrupts *)

Lemma writes_lift {A} (p : prog CodexStream.call A) : forall t a, runs (lift p) t a -> writes t = [].
Proof.
  induction p as [a0 | B c0 k IH]; intros t a R; cbn [lift runs] in R.
  - by destruct R as [-> _].
  - destruct R as (b & t' & -> & R). exact (IH _ _ _ R).
Qed.

(** The reader of the interrupt keeps the identities of the turn. *)
Definition same_turn (k k' : CodexStream.Client) : Prop :=
  CodexStream.threadID k' = CodexStream.threadID k /\ CodexStream.turnID k' = CodexStream.turnID k
  /\ CodexStream.turnOperation k' = CodexStream.turnOperation k.

Lemma readInterruptFrame_same k : forall t k' r,
  runs (lift (CodexStream.readInterruptFrame k)) t (k', r) -> same_turn k k'.
Proof.
  unfold CodexStream.readInterruptFrame. intros t k' r R.
  destruct (CodexStream.interruptAcknowledged k); [by destruct R as [_ [= -> _]] |].
  cbn [pbind trigger lift runs] in R. destruct R as (frame & t1 & -> & R).
  destruct frame as [raw |]; [| by destruct R as [_ [= -> _]]].
  destruct (negb _) in R; [by destruct R as [_ [= -> _]] |].
  destruct (object raw) as [f | e]; [| by destruct R as [_ [= -> _]]].
  destruct (is_some _).
  { unfold CodexStream.interruptResponse in R. cbn [pbind trigger lift runs] in R.
    destruct R as (sent & t2 & -> & R). destruct (_ || _) in R; [by destruct R as [_ [= -> _]] |].
    destruct (object_at f "result"); [| by destruct R as [_ [= -> _]]].
    destruct (negb _) in R; by destruct R as [_ [= -> _]]. }
  destruct (_ || _) in R; [by destruct R as [_ [= -> _]] |].
  destruct (object_at f "params"); [| by destruct R as [_ [= -> _]]].
  destruct (_ || _) in R; by destruct R as [_ [= -> _]].
Qed.

(** The rest of the client is untouched. *)
Definition shares (c c' : Client) : Prop := exists k, c' = set_core c k /\ same_turn (core c) k.

Lemma shares_refl c : shares c c.
Proof. exists (core c). split; [by destruct c | done]. Qed.

Lemma shares_trans a b c : shares a b -> shares b c -> shares a c.
Proof.
  intros (k & -> & E1 & E2 & E3) (l & -> & F1 & F2 & F3). cbn in *. exists l. split; [done |].
  split_and!; congruence.
Qed.

Lemma invariant_shares c c' tr : shares c c' -> invariant c tr -> invariant c' tr.
Proof.
  intros (k & -> & E1 & E2 & E3) [[] O L T U].
  split; unfold level in *; cbn in *; rewrite ?E1, ?E3 in *; try done.
  split; cbn; rewrite ?E1, ?E3; done.
Qed.

Lemma await_ack_run n : forall c t c' o, runs (await_ack n c) t (c', o) -> writes t = [] /\ shares c c'.
Proof.
  induction n as [| n IH]; intros c t c' o R; cbn [await_ack] in R.
  { destruct R as [-> [= -> _]]. split; [done | apply shares_refl]. }
  destruct (CodexStream.interruptAcknowledged _).
  { destruct R as [-> [= -> _]]. split; [done | apply shares_refl]. }
  cbn [pbind trigger runs] in R. destruct R as (e & t1 & -> & R).
  destruct e; [destruct R as [-> [= -> _]]; split; [done | apply shares_refl] |].
  cbn [pbind trigger runs] in R. destruct R as (f & t2 & -> & R). destruct f.
  - apply runs_bind in R as (t3 & t4 & [k r] & -> & R1 & R). cbn [fst snd] in R.
    pose proof (writes_lift _ _ _ R1) as W. apply readInterruptFrame_same in R1.
    assert (S : shares c (set_core c k)) by by exists k.
    destruct r; [apply IH in R as [W' S'] | destruct R as [-> [= -> _]]];
      cbn; rewrite requests_app, W; [split; [done | by eapply shares_trans] | done].
  - cbn [pbind trigger runs] in R. destruct R as (d & t3 & -> & R).
    destruct d; [destruct R as [-> [= -> _]]; split; [done | apply shares_refl] | by apply IH in R].
Qed.

Lemma invariant_result c tr e : invariant c tr -> invariant (set_interrupt_result c e) tr.
Proof. intros [[] O L T U]. by split. Qed.

Lemma settle_interrupt_invariant c tr r t c' o :
  invariant c tr -> runs (settle_interrupt c r) t (c', o) -> invariant c' (tr ++ t).
Proof.
  intros I R. unfold settle_interrupt in R. apply runs_bind in R as (t1 & t2 & [c1 r1] & -> & R1 & R).
  destruct R as [-> [= -> _]]. rewrite app_nil_r. apply invariant_result. by eapply invariant_settle.
Qed.

Lemma InterruptTurn_invariant rounds c tr t c' o :
  invariant c tr -> runs (InterruptTurn rounds c) t (c', o) -> invariant c' (tr ++ t).
Proof.
  intros I R. pose proof (iv_consistent c tr I) as C. unfold InterruptTurn in R. cbn [pbind trigger runs] in R.
  destruct R as (f & t1 & -> & R).
  destruct f; cbn [negb] in R; [| destruct R as [-> [= -> _]]; by apply invariant_skip].
  destruct (interruptTarget c) as [[thread turn] |] eqn:T; [| destruct R as [-> [= -> _]]; by apply invariant_skip].
  destruct (interruptAttempted c) eqn:A; [destruct R as [-> [= -> _]]; by apply invariant_skip |].
  cbn [pbind trigger runs] in R. destruct R as (e & t2 & -> & R).
  destruct e; [destruct R as [-> [= -> _]]; by apply invariant_skip |].
  cbn [pbind trigger runs] in R. destruct R as (w & t3 & -> & R).
  set (c1 := set_interrupt_sent (set_interrupt_attempt c)) in *.
  set (pre := [occurred TryLockInterrupt true; occurred Expired false;
               occurred (Write (InterruptRequest thread turn)) w]).
  assert (O : turnOperation c <> "") by (apply (cs_target c C); by rewrite T).
  assert (C1 : consistent c1) by (destruct C; split; cbn; auto; congruence).
  assert (I1 : invariant c1 (tr ++ pre)).
  { apply (invariant_write c _ _ _ [InterruptRequest thread turn]); try done.
    - repeat constructor.
    - rewrite (level_turn c O A). repeat constructor; cbn; lia.
    - rewrite (level_turn c O A). cbn. lia.
    - intros X. by apply heard_more, I.
    - intros th d x [X | []]. discriminate X. }
  change (invariant c' (tr ++ pre ++ t3)). rewrite app_assoc.
  destruct w; cbn [negb] in R; [| by eapply settle_interrupt_invariant].
  apply runs_bind in R as (t4 & t5 & [c2 o2] & -> & R1 & R). cbn [fst snd] in R.
  apply await_ack_run in R1 as [W S]. rewrite app_assoc.
  assert (I2 : invariant c2 ((tr ++ pre) ++ t4)) by (eapply invariant_shares; [exact S | by apply invariant_skip]).
  destruct o2; [by eapply settle_interrupt_invariant |].
  destruct R as [-> [= -> _]]. by rewrite app_nil_r.
Qed.

Lemma client_invariant c tr : history c tr -> invariant c tr.
Proof.
  induction 1 as [| c tr t c' r _ IH R | c tr cwd rid infra t c' r _ IH R | c tr op inp text t c' r _ IH R
    | c tr rounds t c' r _ IH R | c tr k _ IH E1 E2 E3 | c tr _ IH].
  - by split; try constructor.
  - by eapply Initialize_invariant.
  - by eapply openThread_invariant.
  - by eapply StartTurn_invariant.
  - by eapply InterruptTurn_invariant.
  - eapply invariant_shares; [| exact IH]. by exists k.
  - by apply invariant_close.
Qed.

(** C36: However the callers use a client and whatever the child answers, every
    request of the protocol is written at most once, and in the order of the protocol:
    the handshake, its notice, the thread, the turn, the interrupt. *)
Theorem codex_requests_once c tr : history c tr -> StronglySorted lt (map rank (writes tr)).
Proof. intros H. apply (client_invariant c tr H). Qed.

(** A turn is only requested on a valid thread identifier that the child itself
    reported, in a response that confirmed the working directory of the turn, the
    policy never to ask for approval, the read-only sandbox without network and the
    pinned version. *)
Theorem codex_turn_on_confirmed_thread c tr thread cwd text :
  history c tr -> In (TurnRequest thread cwd text) (writes tr) ->
  heard tr cwd thread /\ ValidThreadID thread = true.
Proof.
  intros H X. apply (client_invariant c tr) in H. pose proof (iv_turn c tr H _ _ _ X) as Hd. split; [done |].
  destruct Hd as (raw & _ & K). exact (proj1 (confirmed_valid _ _ _ K)).
Qed.

(** ** A concrete session: handshake, resumed thread, turn, interrupt *)

Definition sample_uuid : string := "01234567-89ab-cdef-0123-456789abcdef".

Definition field_text (k v : string) : string := quote k +:+ ":" +:+ v.

Definition sample_greeting : string :=
  "{" +:+ field_text "id" "1" +:+ "," +:+ quote "result" +:+ ":{"
  +:+ field_text "userAgent" (quote "thinkpixelar/0.155.0 (x)") +:+ "," +:+ field_text "platformFamily" (quote "unix")
  +:+ "," +:+ field_text "platformOs" (quote "linux") +:+ "," +:+ field_text "codexHome" (quote "/h") +:+ "}}" +:+ newline.

Definition sample_thread : string :=
  "{" +:+ field_text "id" "2" +:+ "," +:+ quote "result" +:+ ":{"
  +:+ field_text "cwd" (quote "/work") +:+ "," +:+ field_text "approvalPolicy" (quote "never") +:+ ","
  +:+ field_text "sandbox" ("{" +:+ field_text "type" (quote "readOnly") +:+ "," +:+ field_text "networkAccess" "false" +:+ "}")
  +:+ "," +:+ quote "thread" +:+ ":{" +:+ field_text "id" (quote sample_uuid) +:+ "," +:+ field_text "cwd" (quote "/work")
  +:+ "," +:+ field_text "cliVersion" (quote Version) +:+ "," +:+ field_text "ephemeral" "false" +:+ ","
  +:+ field_text "status" ("{" +:+ field_text "type" (quote "idle") +:+ "}") +:+ "}}}" +:+ newline.

Definition sample_turn_answer : string :=
  "{" +:+ field_text "id" "3" +:+ "," +:+ quote "result" +:+ ":{" +:+ quote "turn" +:+ ":{"
  +:+ field_text "id" (quote sample_uuid) +:+ "," +:+ field_text "status" (quote "inProgress") +:+ "}}}" +:+ newline.

(** A child that answers every read with [raw]. *)
Definition child (raw : string) (B : Type) (c : call B) : B :=
  match c with
  | TryLock => true
  | TryLockInterrupt => true
  | Expired => false
  | Write _ => true
  | ReadSlice => Some raw
  | Tick => false
  | Shared c => CodexSpec.calm _ c
  end.

Definition session1 := execute (child sample_greeting) (Initialize NewClient).
Definition session2 := execute (child sample_thread) (openThread (fst (snd session1)) "/work" sample_uuid false).
Definition session3 := execute (child sample_turn_answer) (StartTurn (fst (snd session2)) id1 id1 "hello").
Definition session4 := execute (child "") (InterruptTurn 4 (fst (snd session3))).

Definition session_trace : trace := ((([] ++ fst session1) ++ fst session2) ++ fst session3) ++ fst session4.

Lemma executed {A B} (h : forall B, call B -> B) (p : prog call (A * B)) :
  runs p (fst (execute h p)) (fst (snd (execute h p)), snd (snd (execute h p))).
Proof. pose proof (execute_runs h p) as R. by destruct (execute h p) as [t [a b]]. Qed.

Lemma session_history : history (fst (snd session4)) session_trace.
Proof.
  exact (h_interrupt _ _ 4 _ _ _
    (h_turn _ _ id1 id1 "hello" _ _ _
      (h_thread _ _ "/work" sample_uuid false _ _ _
        (h_initialize _ _ _ _ _ h_new (executed (child sample_greeting) (Initialize NewClient)))
        (executed (child sample_thread) (openThread (fst (snd session1)) "/work" sample_uuid false)))
      (executed (child sample_turn_answer) (StartTurn (fst (snd session2)) id1 id1 "hello")))
    (executed (child "") (InterruptTurn 4 (fst (snd session3))))).
Qed.

Lemma session_writes : writes session_trace
  = [InitializeRequest; InitializedNotice; ThreadRequest "/work" sample_uuid false;
     TurnRequest sample_uuid "/work" "hello"; InterruptRequest sample_uuid sample_uuid].
Proof. vm_compute. reflexivity. Qed.

Lemma codex_requests_witness : length (writes session_trace) = 5%nat
  /\ StronglySorted lt (map rank (writes session_trace)).
Proof.
  split; [rewrite session_writes; reflexivity |]. exact (codex_requests_once _ _ session_history).
Defined.

Lemma codex_thread_witness : heard session_trace "/work" sample_uuid.
Proof.
  refine (proj1 (codex_turn_on_confirmed_thread _ _ sample_uuid "/work" "hello" session_history _)).
  rewrite session_writes. do 3 right. left. reflexivity.
Defined.
