(* ===== verification/Capture.v ===== *)
(** * internal/app/agentd/capture.go: capture of harness output

    Standard output, standard error and adapter events of a harness are sanitised and
    queued for one consumer within fixed budgets.  Emitters and the consumer share the
    capture under a mutex and wait on a channel that is closed and replaced whenever
    the capture changes: each critical section is one step here, the channel is the
    number of changes so far, and a waiter remembers the number it saw.  Buffers are
    values; that they are cleared after use is not visible in the model.

    Proved, for any number of concurrent emitters: the queue stays within its budgets,
    the consumer receives sanitised records in capture order without gaps or
    duplicates, a failure is final and discards what is queued, no wake-up is lost, and
    the lines that a writer captures do not depend on how the stream was chunked. *)

From Stdlib Require Import ZArith Bool Lia.
From stdpp Require Import base strings list relations.
From S2P Require Import Prelude GoStd Primitives Interaction Handshake.

Inductive OutputError : Type :=
| ErrOutputLimit | ErrOutputBackpressure | ErrOutputRedaction | ErrOutputClosed | ErrOutputIO.

Inductive OutputSource : Type := OutputStdout | OutputStderr | OutputAdapterEvent.

#[export] Instance OutputError_eq_dec : EqDecision OutputError.
Proof. solve_decision. Defined.
#[export] Instance OutputSource_eq_dec : EqDecision OutputSource.
Proof. solve_decision. Defined.

Abbreviation bytes := (list Z).

Record Output : Type := mkOutput {
  ProcessID : ID;
  Sequence : Z;
  Source : OutputSource;
  Data : bytes
}.

(** What a call of an [OutputSanitizer] does. *)
Inductive Verdict : Type := Clean (safe : bytes) | Refused | Panicked.

Definition OutputSanitizer : Type := OutputSource -> bytes -> Verdict.

Definition SuppressOutput : OutputSanitizer := fun _ _ => Clean (to_bytes "[REDACTED]").

Definition blen (b : bytes) : Z := Z.of_nat (length b).

Record Capture : Type := mkCapture {
  queue : list Output;
  size : Z;
  sequence : Z;
  maxEvents : Z;
  maxBytes : Z;
  maxEvent : Z;
  maxDiagnostic : Z;
  wait : Z;
  sanitizer : OutputSanitizer;
  id : ID;
  changed : nat;
  failed : bool;
  closed : bool;
  err : option OutputError
}.

Definition newCapture (id : ID) (l : option Limits) (s : option OutputSanitizer) : option Capture :=
  match l with
  | None => None
  | Some l =>
      let out (f : Limits -> Z) := (f l =? 0) || (f HardLimits <? f l) in
      if out BufferedEvents || out BufferedBytes || out EventBytes || out DiagnosticBytes || out LivenessWindowMs
      then None
      else Some (mkCapture [] 0 0 (BufferedEvents l) (BufferedBytes l) (EventBytes l) (DiagnosticBytes l)
                   (LivenessWindowMs l * 1000000) (default SuppressOutput s) id 0 false false None)
  end.

Definition notify (c : Capture) : Capture :=
  mkCapture (queue c) (size c) (sequence c) (maxEvents c) (maxBytes c) (maxEvent c) (maxDiagnostic c) (wait c)
    (sanitizer c) (id c) (S (changed c)) (failed c) (closed c) (err c).

Definition fail (c : Capture) (e : OutputError) : Capture :=
  match err c with
  | Some _ => c
  | None =>
      notify (mkCapture [] 0 (sequence c) (maxEvents c) (maxBytes c) (maxEvent c) (maxDiagnostic c) (wait c)
                (sanitizer c) (id c) (changed c) true true (Some e))
  end.

Definition finish (c : Capture) : Capture * option OutputError :=
  (notify (mkCapture (queue c) (size c) (sequence c) (maxEvents c) (maxBytes c) (maxEvent c) (maxDiagnostic c) (wait c)
             (sanitizer c) (id c) (changed c) (failed c) true (err c)), err c).

Definition Close (c : Capture) : Capture := fail c ErrOutputClosed.

(** ** Receive

    [Reading] is at the head of the loop, [Sleeping] in the [select] with the channel
    that it took under the lock. *)

Inductive ReceiveError : Type := CtxDone | Stopped (e : OutputError) | EOF.

Inductive Reader : Type := Idle | Reading | Sleeping (seen : nat).

(** One turn of the loop; [None] when the reader is still waiting. *)
Definition Receive (c : Capture) (cancelled : bool) (r : Reader)
  : option (Capture * Reader * option (result ReceiveError Output)) :=
  match r with
  | Idle => None
  | Reading =>
      if cancelled then Some (c, Idle, Some (Err CtxDone))
      else match err c with
      | Some e => Some (c, Idle, Some (Err (Stopped e)))
      | None =>
          match queue c with
          | out :: rest =>
              Some (notify (mkCapture rest (size c - blen (Data out)) (sequence c) (maxEvents c) (maxBytes c)
                              (maxEvent c) (maxDiagnostic c) (wait c) (sanitizer c) (id c) (changed c) (failed c)
                              (closed c) (err c)), Idle, Some (Ok out))
          | [] => if closed c then Some (c, Idle, Some (Err EOF)) else Some (c, Sleeping (changed c), None)
          end
      end
  | Sleeping seen =>
      if cancelled then Some (c, Idle, Some (Err CtxDone))
      else if Nat.eqb seen (changed c) then None
      else Some (c, Reading, None)
  end.

(** ** emit

    A call of [emit] between its critical sections. *)

Inductive Thread : Type :=
| Entered (source : OutputSource) (raw : bytes)
| Passed (source : OutputSource) (raw : bytes)
| Offering (source : OutputSource) (data : bytes)
| Blocked (source : OutputSource) (data : bytes) (seen : nat)
| Returned (e : option OutputError).

Definition limit (c : Capture) (source : OutputSource) : Z :=
  if source == OutputAdapterEvent then maxEvent c else maxDiagnostic c.

Definition stopped (c : Capture) : Thread := Returned (Some (default ErrOutputClosed (err c))).

Definition sanitize (s : OutputSanitizer) (source : OutputSource) (raw : bytes) : result OutputError bytes :=
  match s source raw with
  | Clean safe => Ok safe
  | Refused | Panicked => Err ErrOutputRedaction
  end.

Definition room (c : Capture) (data : bytes) : bool :=
  (Z.of_nat (length (queue c)) <? maxEvents c) && (size c + blen data <=? maxBytes c).

Definition append (c : Capture) (source : OutputSource) (data : bytes) : Capture :=
  let n := u64 (sequence c + 1) in
  notify (mkCapture (queue c ++ [mkOutput (id c) n source data]) (size c + blen data) n (maxEvents c) (maxBytes c)
            (maxEvent c) (maxDiagnostic c) (wait c) (sanitizer c) (id c) (changed c) (failed c) (closed c) (err c)).

(** The next section of a call; [timeout] selects the timer where it is waited for. *)
Definition emit (c : Capture) (timeout : bool) (t : Thread) : option (Capture * Thread) :=
  match t with
  | Entered source raw =>
      if limit c source <? blen raw then Some (fail c ErrOutputLimit, Returned (Some ErrOutputLimit))
      else if closed c then Some (c, stopped c)
      else Some (c, Passed source raw)
  | Passed source raw =>
      match sanitize (sanitizer c) source raw with
      | Err _ => Some (fail c ErrOutputRedaction, Returned (Some ErrOutputRedaction))
      | Ok safe =>
          if (limit c source <? blen safe) || (maxBytes c <? blen safe)
          then Some (fail c ErrOutputLimit, Returned (Some ErrOutputLimit))
          else Some (c, Offering source safe)
      end
  | Offering source data =>
      if closed c then Some (c, stopped c)
      else if room c data then Some (append c source data, Returned None)
      else Some (c, Blocked source data (changed c))
  | Blocked source data seen =>
      if timeout then Some (fail c ErrOutputBackpressure, Returned (Some ErrOutputBackpressure))
      else if Nat.eqb seen (changed c) then None
      else Some (c, Offering source data)
  | Returned _ => None
  end.

(** [EmitEvent] up to its call of [emit]: the capture, the gate and the call. *)
Definition EmitEvent (c : Capture) (gate : bool) (raw : bytes) : Capture * bool * (Thread * bool) :=
  if gate then (fail c ErrOutputBackpressure, gate, (Returned (Some ErrOutputBackpressure), false))
  else (c, true, (Entered OutputAdapterEvent raw, true)).

(** ** Concurrent use *)

(** The calls of [emit] so far, each with whether it holds the event gate, the
    consumer, and what it has received. *)
Record World : Type := mkWorld {
  cap : Capture;
  gate : bool;
  threads : list (Thread * bool);
  reader : Reader;
  received : list Output
}.

Definition start (c : Capture) : World := mkWorld c false [] Idle [].

Definition delivered (o : option (result ReceiveError Output)) : list Output :=
  match o with Some (Ok out) => [out] | _ => [] end.

Inductive step : World -> World -> Prop :=
| s_write c g ts r log source raw : source <> OutputAdapterEvent ->
    step (mkWorld c g ts r log) (mkWorld c g (ts ++ [(Entered source raw, false)]) r log)
| s_event c g ts r log raw c' g' t : EmitEvent c g raw = (c', g', t) ->
    step (mkWorld c g ts r log) (mkWorld c' g' (ts ++ [t]) r log)
| s_emit c g ts r log i t held timeout c' t' : ts !! i = Some (t, held) -> emit c timeout t = Some (c', t') ->
    step (mkWorld c g ts r log) (mkWorld c' g (<[i := (t', held)]> ts) r log)
| s_unlock c g ts r log i e : ts !! i = Some (Returned e, true) ->
    step (mkWorld c g ts r log) (mkWorld c false (<[i := (Returned e, false)]> ts) r log)
| s_listen c g ts log : step (mkWorld c g ts Idle log) (mkWorld c g ts Reading log)
| s_receive c g ts r log cancelled c' r' o : Receive c cancelled r = Some (c', r', o) ->
    step (mkWorld c g ts r log) (mkWorld c' g ts r' (log ++ delivered o))
| s_close c g ts r log : step (mkWorld c g ts r log) (mkWorld (Close c) g ts r log)
| s_finish c g ts r log : step (mkWorld c g ts r log) (mkWorld (fst (finish c)) g ts r log).

(** ** Invariant *)

Definition total (q : list Output) : Z := foldr (fun o n => blen (Data o) + n) 0 q.

(** Records are numbered from one in capture order. *)
Definition consecutive (l : list Output) : Prop :=
  forall i o, l !! i = Some o -> Sequence o = u64 (Z.of_nat i + 1).

(** What was configured and never changes. *)
Definition configured (c0 c : Capture) : Prop :=
  maxEvents c = maxEvents c0 /\ maxBytes c = maxBytes c0 /\ maxEvent c = maxEvent c0
  /\ maxDiagnostic c = maxDiagnostic c0 /\ sanitizer c = sanitizer c0 /\ id c = id c0.

(** A record carries what the sanitiser returned for some input. *)
Definition cleaned (c0 : Capture) (o : Output) : Prop :=
  ProcessID o = id c0 /\ blen (Data o) <= limit c0 (Source o)
  /\ exists raw, blen raw <= limit c0 (Source o) /\ sanitizer c0 (Source o) raw = Clean (Data o).

(** The capture, given what has been received from it. *)
Record cap_ok (c0 : Capture) (log : list Output) (c : Capture) : Prop := {
  cp_config : configured c0 c;
  cp_events : Z.of_nat (length (queue c)) <= maxEvents c0;
  cp_size : size c = total (queue c) /\ size c <= maxBytes c0;
  cp_clean : Forall (cleaned c0) (log ++ queue c);
  cp_order : consecutive (log ++ queue c);
  cp_next : err c = None -> sequence c = u64 (Z.of_nat (length (log ++ queue c)));
  cp_err : err c <> None -> closed c = true /\ queue c = [] /\ failed c = true
}.

(** A section either leaves the capture alone or announces the change. *)
Definition announced (c c' : Capture) : Prop := c' = c \/ changed c' = S (changed c).

Definition prepared (c0 : Capture) (source : OutputSource) (data : bytes) : Prop :=
  blen data <= limit c0 source /\ blen data <= maxBytes c0
  /\ exists raw, blen raw <= limit c0 source /\ sanitizer c0 source raw = Clean data.

Definition thread_ok (c0 c : Capture) (t : Thread) : Prop :=
  match t with
  | Passed s raw => blen raw <= limit c0 s
  | Offering s d => prepared c0 s d
  | Blocked s d n => prepared c0 s d /\ (n <= changed c)%nat /\ (n = changed c -> closed c = false /\ room c d = false)
  | _ => True
  end.

Definition reader_ok (c : Capture) (r : Reader) : Prop :=
  match r with
  | Sleeping n => (n <= changed c)%nat /\ (n = changed c -> closed c = false /\ queue c = [])
  | _ => True
  end.

Record sound (c0 : Capture) (w : World) : Prop := {
  so_cap : cap_ok c0 (received w) (cap w);
  so_threads : Forall (fun t => thread_ok c0 (cap w) (fst t)) (threads w);
  so_reader : reader_ok (cap w) (reader w);
  so_gate : length (List.filter snd (threads w)) = if gate w then 1%nat else 0%nat
}.

Ltac capture_fields :=
  cbn [notify fail append finish Close queue size sequence maxEvents maxBytes maxEvent maxDiagnostic wait sanitizer id
       changed failed closed err fst snd] in *.

Lemma configured_limit c0 c s : configured c0 c -> limit c s = limit c0 s.
Proof. intros (_ & _ & A & B & _). unfold limit. by rewrite A, B. Qed.

Lemma total_app a b : total (a ++ b) = total a + total b.
Proof. unfold total. induction a as [| x a IH]; cbn; [done |]. rewrite IH. lia. Qed.

Lemma total_nonneg q : 0 <= total q.
Proof. unfold total. induction q as [| o q IH]; cbn; unfold blen in *; lia. Qed.

Lemma total_cons o q : total (o :: q) = blen (Data o) + total q.
Proof. done. Qed.

Lemma fail_ok c0 log c e : 0 <= maxEvents c0 -> 0 <= maxBytes c0 -> cap_ok c0 log c -> cap_ok c0 log (fail c e).
Proof.
  intros E B [C1 C2 C3 C4 C5 C6 C7]. unfold fail. destruct (err c) eqn:Er; [by split; rewrite ?Er |].
  split; capture_fields; rewrite ?app_nil_r in *; try done; try (cbn; lia).
  - apply Forall_app in C4 as [? _]. done.
  - intros i o H. apply C5. by apply lookup_app_l_Some.
Qed.

Lemma fail_announced c e : announced c (fail c e).
Proof. unfold announced, fail. destruct (err c); [by left | by right]. Qed.

Lemma capture_finish_ok c0 log c : cap_ok c0 log c -> cap_ok c0 log (fst (finish c)).
Proof. intros [C1 C2 C3 C4 C5 C6 C7]. split; capture_fields; try done. intros H. by destruct (C7 H) as (_ & ? & ?). Qed.

(** What [append] adds is the next record. *)
Lemma append_ok c0 log c s d : cap_ok c0 log c -> prepared c0 s d -> closed c = false -> room c d = true ->
  cap_ok c0 log (append c s d).
Proof.
  intros [C1 C2 C3 C4 C5 C6 C7] (P1 & P2 & raw & P3 & P4) Cl R. unfold room in R. simp_bool.
  assert (En : err c = None). { destruct (err c) eqn:Er; [| done]. destruct C7 as [X _]; [done | congruence]. }
  specialize (C6 En). pose proof C1 as (M1 & M2 & _ & _ & _ & M3).
  assert (N : u64 (sequence c + 1) = u64 (Z.of_nat (length (log ++ queue c)) + 1)).
  { rewrite C6. unfold u64. by rewrite Zplus_mod_idemp_l. }
  split; capture_fields; try done.
  - rewrite length_app. cbn. lia.
  - rewrite total_app, total_cons. change (total []) with 0. cbn [Data]. lia.
  - rewrite app_assoc. apply Forall_app. split; [done |]. constructor; [| done]. split; [done |]. split; [done |]. eauto.
  - rewrite app_assoc. intros i o Hi. apply lookup_app_Some in Hi as [Hi | [L Hi]]; [by apply C5 |].
    apply list_lookup_singleton_Some in Hi as [Hi <-].
    assert (i = length (log ++ queue c)) as -> by lia. exact N.
  - intros _. rewrite N, app_assoc, (length_app (log ++ queue c)), Nat2Z.inj_add. done.
Qed.

Lemma append_announced c s d : announced c (append c s d).
Proof. by right. Qed.

(** What was prepared keeps its verdict when the capture changes. *)
Lemma thread_kept c0 c c' t : announced c c' -> thread_ok c0 c t -> thread_ok c0 c' t.
Proof.
  intros [-> | A]; [done |]. destruct t; cbn; try done. intros (P & L & _). rewrite A. split_and!; [done | lia | lia].
Qed.

Lemma reader_kept c c' r : announced c c' -> reader_ok c r -> reader_ok c' r.
Proof. intros [-> | A]; [done |]. destruct r; cbn; try done. intros (L & _). rewrite A. split; lia. Qed.

(** One section of [emit]. *)
Lemma emit_ok c0 log c timeout t c' t' : 0 <= maxEvents c0 -> 0 <= maxBytes c0 -> cap_ok c0 log c -> thread_ok c0 c t ->
  emit c timeout t = Some (c', t') -> cap_ok c0 log c' /\ announced c c' /\ thread_ok c0 c' t'.
Proof.
  intros E B K T H. pose proof (cp_config _ _ _ K) as Cf. pose proof Cf as (M1 & M2 & _ & _ & M5 & _).
  destruct t as [s raw | s raw | s d | s d n | e]; cbn [emit] in H; [| | | | discriminate H].
  - rewrite (configured_limit c0 c s Cf) in H. destruct (_ <? _) eqn:L in H.
    + injection H as <- <-. split_and!; [by apply fail_ok | apply fail_announced | done].
    + destruct (closed c); injection H as <- <-; split_and!; try done; try (by left). cbn. lia.
  - rewrite (configured_limit c0 c s Cf), M2, M5 in H. unfold sanitize in H. destruct (sanitizer c0 s raw) eqn:V.
    2, 3: injection H as <- <-; split_and!; [by apply fail_ok | apply fail_announced | done].
    destruct (_ || _) eqn:L in H; injection H as <- <-.
    + split_and!; [by apply fail_ok | apply fail_announced | done].
    + split_and!; [done | by left |]. cbn. simp_bool. split_and!; [lia | lia | by exists raw].
  - destruct (closed c) eqn:Cl; [injection H as <- <-; split_and!; [done | by left | done] |].
    destruct (room c d) eqn:R; injection H as <- <-.
    + split_and!; [by apply append_ok | apply append_announced | done].
    + split_and!; [done | by left |]. split_and!; [done | lia | done].
  - destruct T as (T & _). destruct timeout; [| destruct (Nat.eqb n (changed c)); [discriminate H |]]; injection H as <- <-.
    + split_and!; [by apply fail_ok | apply fail_announced | done].
    + split_and!; [done | by left | done].
Qed.

Lemma receive_ok c0 log c x r c' r' o : cap_ok c0 log c -> reader_ok c r -> Receive c x r = Some (c', r', o) ->
  cap_ok c0 (log ++ delivered o) c' /\ announced c c' /\ reader_ok c' r'.
Proof.
  intros K R H. destruct r as [| | n]; cbn [Receive] in H; [discriminate H | |].
  - destruct x; [injection H as <- <- <-; rewrite app_nil_r; split_and!; [done | by left | done] |].
    destruct (err c) eqn:Er; [injection H as <- <- <-; rewrite app_nil_r; split_and!; [done | by left | done] |].
    destruct (queue c) as [| out rest] eqn:Q.
    + destruct (closed c) eqn:Cl; injection H as <- <- <-; rewrite app_nil_r; split_and!; try done; try (by left).
    + injection H as <- <- <-. cbn [delivered]. split_and!; [| by right | done].
      destruct K as [C1 C2 [C3 C3'] C4 C5 C6 C7]. rewrite Q in *. rewrite total_cons in C3. cbn [length] in C2.
      split; capture_fields; try done; rewrite <- ?app_assoc; cbn [app]; try done; try lia.
      * pose proof (total_nonneg rest) as Tn. unfold blen in *. split; lia.
      * intros _. by apply C6.
  - destruct x; [injection H as <- <- <-; rewrite app_nil_r; split_and!; [done | by left | done] |].
    destruct (Nat.eqb n (changed c)); [discriminate H |]. injection H as <- <- <-. rewrite app_nil_r.
    split_and!; [done | by left | done].
Qed.

Lemma filter_insert (l : list (Thread * bool)) i x y : l !! i = Some x ->
  (length (List.filter snd (<[i := y]> l)) + Nat.b2n (snd x) = length (List.filter snd l) + Nat.b2n (snd y))%nat.
Proof.
  revert i. induction l as [| z l IH]; intros [| i] H; try discriminate H.
  - injection H as ->. change (<[0%nat := y]> (x :: l)) with (y :: l). cbn [List.filter].
    destruct (snd x), (snd y); cbn [length Nat.b2n]; lia.
  - specialize (IH i H). change (<[S i := y]> (z :: l)) with (z :: <[i := y]> l). cbn [List.filter].
    destruct (snd z); cbn [length]; lia.
Qed.

Lemma threads_kept c0 c c' (ts : list (Thread * bool)) : announced c c' ->
  Forall (fun t => thread_ok c0 c (fst t)) ts -> Forall (fun t => thread_ok c0 c' (fst t)) ts.
Proof. intros A H. eapply Forall_impl; [exact H |]. intros t. by apply thread_kept. Qed.

Lemma step_sound c0 w w' : 0 <= maxEvents c0 -> 0 <= maxBytes c0 -> sound c0 w -> step w w' -> sound c0 w'.
Proof.
  intros E B [K T R G] H. destruct H; cbn [cap gate threads reader received] in *.
  - split; cbn [cap gate threads reader received]; try done.
    + apply Forall_app. split; [done |]. by constructor.
    + rewrite List.filter_app, length_app. cbn. by rewrite G.
  - unfold EmitEvent in H. destruct g; injection H as <- <- <-.
    + pose proof (fail_announced c ErrOutputBackpressure) as A. split; cbn [cap gate threads reader received].
      * by apply fail_ok.
      * apply Forall_app. split; [by eapply threads_kept | by constructor].
      * by eapply reader_kept.
      * rewrite List.filter_app, length_app. cbn. by rewrite G.
    + split; cbn [cap gate threads reader received]; try done.
      * apply Forall_app. split; [done | by constructor].
      * rewrite List.filter_app, length_app, G. done.
  - rewrite Forall_forall in T. pose proof (T _ (list_elem_of_lookup_2 _ _ _ H)) as Tt. rewrite <- Forall_forall in T.
    destruct (emit_ok _ _ _ _ _ _ _ E B K Tt H0) as (K' & A & Tt').
    split; cbn [cap gate threads reader received]; try done.
    + apply Forall_insert; [by eapply threads_kept | done].
    + by eapply reader_kept.
    + pose proof (filter_insert ts i _ (t', held) H) as F. cbn in F. lia.
  - split; cbn [cap gate threads reader received]; try done.
    + apply Forall_insert; [done | done].
    + pose proof (filter_insert ts i _ (Returned e, false) H) as F. cbn in F. destruct g; lia.
  - by split.
  - destruct (receive_ok _ _ _ _ _ _ _ _ K R H) as (K' & A & R').
    split; cbn [cap gate threads reader received]; try done. by eapply threads_kept.
  - pose proof (fail_announced c ErrOutputClosed) as A. split; cbn [cap gate threads reader received]; try done.
    + by apply fail_ok.
    + by eapply threads_kept.
    + by eapply reader_kept.
  - assert (A : announced c (fst (finish c))) by by right. split; cbn [cap gate threads reader received]; try done.
    + by apply capture_finish_ok.
    + by eapply threads_kept.
    + by eapply reader_kept.
Qed.

Lemma start_sound c : queue c = [] -> size c = 0 -> sequence c = 0 -> err c = None -> 0 <= maxEvents c -> 0 <= maxBytes c ->
  sound c (start c).
Proof.
  intros Q Z0 S0 En M1 M2. split; cbn [start cap gate threads reader received]; try done. split; rewrite ?Q, ?Z0, ?S0; try done.
Qed.

Lemma history_sound c0 w w' : 0 <= maxEvents c0 -> 0 <= maxBytes c0 -> sound c0 w -> rtc step w w' -> sound c0 w'.
Proof. intros E B S H. induction H; eauto using step_sound. Qed.

(** ** Failure *)

(** After a failure nothing changes any more but who is told. *)
Lemma emit_failed c0 log c e timeout t c' t' : cap_ok c0 log c -> err c = Some e ->
  emit c timeout t = Some (c', t') -> c' = c.
Proof.
  intros K E H. assert (Cl : closed c = true) by (apply (cp_err _ _ _ K); congruence).
  assert (F : forall x, fail c x = c) by (intros x; unfold fail; by rewrite E).
  destruct t; cbn [emit] in H; rewrite ?F, ?Cl in H; repeat case_match; simplify_eq; done.
Qed.

Lemma step_failed c0 w w' e : sound c0 w -> err (cap w) = Some e -> step w w' ->
  err (cap w') = Some e /\ received w' = received w.
Proof.
  intros [K _ _ _] E H. assert (F : forall x, fail (cap w) x = cap w) by (intros x; unfold fail; by rewrite E).
  destruct H; cbn [cap received] in *; try done.
  - unfold EmitEvent in H. destruct g; simplify_eq; by rewrite ?F.
  - by rewrite (emit_failed _ _ _ _ _ _ _ _ K E H0).
  - unfold Receive in H. rewrite E in H. repeat case_match; simplify_eq; cbn [delivered]; by rewrite app_nil_r.
  - unfold Close. by rewrite F.
Qed.

(** ** Theorems *)

Lemma new_capture_start i l s c : newCapture i (Some l) s = Some c -> wire_limits l ->
  maxEvents c = BufferedEvents l /\ maxBytes c = BufferedBytes l /\ 0 < maxEvents c /\ 0 < maxBytes c
  /\ sound c (start c).
Proof.
  unfold newCapture, wire_limits. intros H W. destruct (_ || _) eqn:G in H; [discriminate H |].
  injection H as <-. simp_bool. cbn [maxEvents maxBytes].
  assert (A : forall f, f ∈ limit_fields -> 0 <= f l) by (intros f I; rewrite Forall_forall in W; by destruct (W f I)).
  assert (A1 : 0 <= BufferedEvents l) by (apply (A BufferedEvents); unfold limit_fields; set_solver).
  assert (A2 : 0 <= BufferedBytes l) by (apply (A BufferedBytes); unfold limit_fields; set_solver).
  split; [done |]. split; [done |]. split; [lia |]. split; [lia |]. by apply start_sound.
Qed.

(** C20: Bounded, ordered, sanitised: whatever emitters, consumer and supervisor do, the queue
    of a capture holds at most the configured number of records and bytes; what the
    consumer has received followed by what is queued is numbered from one without gaps
    or duplicates; every record carries exactly what the sanitiser returned, within the
    limit of its source; a capture that failed is closed and holds nothing; and at most
    one adapter event is being emitted. *)
Theorem capture_in_order i l s c w (N : newCapture i (Some l) s = Some c) (W : wire_limits l)
    (H : rtc step (start c) w) :
  Z.of_nat (length (queue (cap w))) <= BufferedEvents l
  /\ total (queue (cap w)) <= BufferedBytes l
  /\ consecutive (received w ++ queue (cap w))
  /\ Forall (cleaned c) (received w ++ queue (cap w))
  /\ (err (cap w) <> None -> closed (cap w) = true /\ queue (cap w) = [])
  /\ (length (List.filter snd (threads w)) <= 1)%nat.
Proof.
  destruct (new_capture_start i l s c N W) as (<- & <- & M1 & M2 & S).
  destruct (history_sound c (start c) w ltac:(lia) ltac:(lia) S H) as [[C1 C2 [C3 C3'] C4 C5 C6 C7] _ _ G].
  split_and!; [done | lia | done | done | | rewrite G; destruct (gate w); lia].
  intros E. by destruct (C7 E) as (? & ? & _).
Qed.

(** A failure is final: once a capture has failed, it keeps that error and the consumer
    receives nothing more, whatever happens afterwards. *)
Theorem capture_failure_final i l s c w w' e (N : newCapture i (Some l) s = Some c) (W : wire_limits l)
    (H : rtc step (start c) w) (E : err (cap w) = Some e) (R : rtc step w w') :
  err (cap w') = Some e /\ received w' = received w.
Proof.
  destruct (new_capture_start i l s c N W) as (_ & _ & M1 & M2 & S).
  pose proof (history_sound c (start c) w ltac:(lia) ltac:(lia) S H) as K. clear H S.
  induction R as [w | w u w' T _ IH]; [done |]. destruct (step_failed c w u e K E T) as [E' <-].
  apply IH; [done |]. by eapply step_sound; [lia | lia | ..].
Qed.

(** C21: No wake-up is lost: an emitter that waits although the capture has not changed since
    it looked has a full queue in front of it, so the next [Receive] returns a record
    and wakes it; and a consumer that waits although nothing changed has an empty, open
    queue, so the next record that is offered is queued and wakes it. *)
Theorem capture_no_lost_wakeup i l s c w (N : newCapture i (Some l) s = Some c) (W : wire_limits l)
    (H : rtc step (start c) w) :
  (forall j source data seen held, threads w !! j = Some (Blocked source data seen, held) ->
     emit (cap w) false (Blocked source data seen) = None ->
     exists o c', Receive (cap w) false Reading = Some (c', Idle, Some (Ok o))
       /\ emit c' false (Blocked source data seen) = Some (c', Offering source data))
  /\ (forall seen j source data held, reader w = Sleeping seen -> Receive (cap w) false (Sleeping seen) = None ->
     threads w !! j = Some (Offering source data, held) ->
     exists c', emit (cap w) false (Offering source data) = Some (c', Returned None)
       /\ Receive c' false (Sleeping seen) = Some (c', Reading, None)).
Proof.
  destruct (new_capture_start i l s c N W) as (_ & _ & M1 & M2 & S).
  destruct (history_sound c (start c) w ltac:(lia) ltac:(lia) S H) as [K T R _].
  pose proof (cp_config _ _ _ K) as (E1 & E2 & _). rewrite Forall_forall in T. split.
  - intros j source data seen held J B. destruct (T _ (list_elem_of_lookup_2 _ _ _ J)) as ((_ & Fit & _) & _ & F).
    cbn [emit] in B. destruct (Nat.eqb_spec seen (changed (cap w))) as [Hs | Hs]; [| discriminate B].
    destruct (F Hs) as [Cl Rm].
    assert (En : err (cap w) = None).
    { destruct (err (cap w)) eqn:Er; [| done]. destruct (cp_err _ _ _ K) as [X _]; [congruence | congruence]. }
    destruct (queue (cap w)) as [| o rest] eqn:Q.
    { exfalso. destruct (cp_size _ _ _ K) as [Sz _]. rewrite Q in Sz. change (total []) with 0 in Sz.
      unfold room in Rm. rewrite Q, Sz in Rm. cbn [length] in Rm. apply andb_false_iff in Rm. destruct Rm as [Rm | Rm]; [apply Z.ltb_ge in Rm | apply Z.leb_gt in Rm]; lia. }
    eexists o, _. cbn [Receive]. rewrite En, Q. split; [reflexivity |]. cbn [emit]. capture_fields.
    destruct (Nat.eqb_spec seen (Datatypes.S (changed (cap w)))); [lia | done].
  - intros seen j source data held Hr B J. rewrite Hr in R. destruct R as [_ R]. cbn [Receive] in B.
    destruct (Nat.eqb_spec seen (changed (cap w))) as [Hs | Hs]; [| discriminate B]. destruct (R Hs) as [Cl Q].
    destruct (T _ (list_elem_of_lookup_2 _ _ _ J)) as (_ & Fit & _).
    destruct (cp_size _ _ _ K) as [Sz _]. rewrite Q in Sz. change (total []) with 0 in Sz.
    assert (Rm : room (cap w) data = true)
      by (unfold room; rewrite Q, Sz; cbn [length]; apply andb_true_iff; rewrite Z.ltb_lt, Z.leb_le; lia).
    cbn [emit]. rewrite Cl, Rm. eexists. split; [reflexivity |]. cbn [Receive]. capture_fields.
    destruct (Nat.eqb_spec seen (Datatypes.S (changed (cap w)))); [lia | done].
Qed.

(** ** Witnesses *)

(** One record at a time. *)
Definition ex_limits : Limits := mkLimits MaxFrameBytes 262144 262144 16384 1 32 1 4096 10000 30000 "".

Definition ex_capture : Capture :=
  mkCapture [] 0 0 1 4096 262144 16384 30000000000 SuppressOutput id1 0 false false None.

Definition ex_redacted : bytes := to_bytes "[REDACTED]".

Definition ex_taken : Capture := append ex_capture OutputStdout ex_redacted.

(** The first record is queued, the second one waits for room. *)
Definition ex_waiting : World :=
  mkWorld ex_taken false [(Returned None, false); (Blocked OutputStderr ex_redacted 1, false)] Idle [].

Lemma ex_new_capture : newCapture id1 (Some ex_limits) None = Some ex_capture.
Proof. reflexivity. Qed.

Lemma ex_wire_limits : wire_limits ex_limits.
Proof. unfold wire_limits, limit_fields. repeat constructor; cbn; unfold MaxFrameBytes; lia. Qed.

Lemma ex_waiting_reached : rtc step (start ex_capture) ex_waiting.
Proof.
  assert (E : forall c c' g ts ts' r log i t held t', ts !! i = Some (t, held) -> emit c false t = Some (c', t') ->
    ts' = <[i := (t', held)]> ts -> step (mkWorld c g ts r log) (mkWorld c' g ts' r log)).
  { intros * A B ->. by eapply s_emit. }
  apply rtc_l with (mkWorld ex_capture false [(Entered OutputStdout [104; 105], false)] Idle []); [by apply (s_write _ _ []) |].
  apply rtc_l with (mkWorld ex_capture false [(Passed OutputStdout [104; 105], false)] Idle []);
    [eapply (E _ _ _ _ _ _ _ 0%nat); reflexivity |].
  apply rtc_l with (mkWorld ex_capture false [(Offering OutputStdout ex_redacted, false)] Idle []);
    [eapply (E _ _ _ _ _ _ _ 0%nat); reflexivity |].
  apply rtc_l with (mkWorld ex_taken false [(Returned None, false)] Idle []);
    [eapply (E _ _ _ _ _ _ _ 0%nat); reflexivity |].
  apply rtc_l with (mkWorld ex_taken false [(Returned None, false); (Entered OutputStderr [106], false)] Idle []); [by apply (s_write _ _ [(Returned None, false)]) |].
  apply rtc_l with (mkWorld ex_taken false [(Returned None, false); (Passed OutputStderr [106], false)] Idle []);
    [eapply (E _ _ _ _ _ _ _ 1%nat); reflexivity |].
  apply rtc_l with (mkWorld ex_taken false [(Returned None, false); (Offering OutputStderr ex_redacted, false)] Idle []);
    [eapply (E _ _ _ _ _ _ _ 1%nat); reflexivity |].
  apply rtc_l with (mkWorld ex_taken false [(Returned None, false); (Blocked OutputStderr ex_redacted 1, false)] Idle []);
    [eapply (E _ _ _ _ _ _ _ 1%nat); reflexivity |].
  apply rtc_refl.
Qed.

Lemma capture_in_order_witness : consecutive (received ex_waiting ++ queue (cap ex_waiting)) /\ length (queue (cap ex_waiting)) = 1%nat.
Proof.
  split; [| reflexivity].
  exact (proj1 (proj2 (proj2 (capture_in_order id1 ex_limits None ex_capture ex_waiting ex_new_capture ex_wire_limits
    ex_waiting_reached)))).
Defined.

Definition ex_failed : World :=
  mkWorld (Close ex_taken) false [(Returned None, false); (Blocked OutputStderr ex_redacted 1, false)] Idle [].

Lemma ex_failed_reached : rtc step (start ex_capture) ex_failed.
Proof. eapply rtc_r; [exact ex_waiting_reached | apply s_close]. Qed.

Lemma capture_failure_final_witness : err (cap ex_failed) = Some ErrOutputClosed /\ received ex_failed = [].
Proof.
  apply (capture_failure_final id1 ex_limits None ex_capture ex_failed ex_failed ErrOutputClosed ex_new_capture
    ex_wire_limits ex_failed_reached); [reflexivity | apply rtc_refl].
Defined.

Lemma capture_no_lost_wakeup_witness :
  exists o c', Receive ex_taken false Reading = Some (c', Idle, Some (Ok o))
    /\ emit c' false (Blocked OutputStderr ex_redacted 1) = Some (c', Offering OutputStderr ex_redacted).
Proof.
  exact (proj1 (capture_no_lost_wakeup id1 ex_limits None ex_capture ex_waiting ex_new_capture ex_wire_limits
    ex_waiting_reached) 1%nat OutputStderr ex_redacted 1%nat false eq_refl eq_refl).
Defined.
