(* ===== verification/CaptureWriter.v ===== *)
(** * internal/app/agentd/capture.go: the line writer

    [captureWriter] cuts the byte stream of a process into lines and emits each line.
    [Write] sees the stream in chunks of any size.  Proved: it behaves as if it read
    the stream byte by byte, so how the stream is chunked makes no difference to what is
    emitted, whatever the capture answers; and while the capture accepts, what is
    emitted is exactly the lines of the stream. *)

From Stdlib Require Import ZArith Bool Lia.
From stdpp Require Import base list.
From S2P Require Import Prelude GoStd Interaction Capture.

(** The calls of the capture: [emit], and [fail] with the output limit. *)
Inductive wcall : Type -> Type :=
| WEmit (source : OutputSource) (data : bytes) : wcall (option OutputError)
| WFail (e : OutputError) : wcall unit.

(** [bytes.IndexByte] *)
Fixpoint IndexByte (raw : bytes) (b : Z) : option nat :=
  match raw with
  | [] => None
  | x :: rest => if x =? b then Some 0%nat else option_map S (IndexByte rest b)
  end.

Section Writer.
Variable maxDiagnostic : Z.
Variable source : OutputSource.

(** The loop of [Write]: every turn consumes a line or the rest of the chunk, so
    [fuel] as long as the chunk is never exhausted.  The result is the pending line
    and the error, if any. *)
Fixpoint write_loop (fuel : nat) (pending raw : bytes) : prog wcall (bytes * option OutputError) :=
  match raw, fuel with
  | [], _ | _, O => Ret (pending, None)
  | _, S fuel =>
      let found := IndexByte raw 10 in
      let n := default (length raw) found in
      if maxDiagnostic <? blen pending + Z.of_nat n
      then do! _ <- trigger (WFail ErrOutputLimit); Ret ([], Some ErrOutputLimit)
      else
        let pending := pending ++ take n raw in
        let raw := drop n raw in
        match found with
        | Some _ =>
            let raw := drop 1 raw in
            do! e <- trigger (WEmit source pending);
            match e with
            | Some e => Ret ([], Some e)
            | None => write_loop fuel [] raw
            end
        | None => write_loop fuel pending raw
        end
  end.

(** [Write]: the pending line and what the caller sees. *)
Definition Write (pending raw : bytes) : prog wcall (bytes * (Z * option OutputError)) :=
  do! r <- write_loop (length raw) pending raw;
  Ret (fst r, match snd r with Some e => (0, Some e) | None => (blen raw, None) end).

(** The writer's [finish]: the last line may lack its newline. *)
Definition finish (pending : bytes) : prog wcall unit :=
  match pending with
  | [] => Ret tt
  | _ => do! _ <- trigger (WEmit source pending); Ret tt
  end.

(** A process's stream in chunks: [io.Copy] stops at the first error. *)
Fixpoint copy (pending : bytes) (chunks : list bytes) : prog wcall (bytes * option OutputError) :=
  match chunks with
  | [] => Ret (pending, None)
  | raw :: rest =>
      do! r <- Write pending raw;
      match snd (snd r) with
      | Some e => Ret (fst r, Some e)
      | None => copy (fst r) rest
      end
  end.

Definition capture_stream (chunks : list bytes) : prog wcall (option OutputError) :=
  do! r <- copy [] chunks;
  do! _ <- finish (fst r);
  Ret (snd r).

(** ** Byte by byte *)

Fixpoint feed (pending raw : bytes) : prog wcall (bytes * option OutputError) :=
  match raw with
  | [] => Ret (pending, None)
  | b :: rest =>
      if b =? 10 then
        do! e <- trigger (WEmit source pending);
        match e with
        | Some e => Ret ([], Some e)
        | None => feed [] rest
        end
      else if maxDiagnostic <? blen pending + 1
      then do! _ <- trigger (WFail ErrOutputLimit); Ret ([], Some ErrOutputLimit)
      else feed (pending ++ [b]) rest
  end.

(** The complete lines of a stream and what follows the last newline. *)
Fixpoint lines (pending raw : bytes) : list bytes * bytes :=
  match raw with
  | [] => ([], pending)
  | b :: rest =>
      if b =? 10 then let r := lines [] rest in (pending :: fst r, snd r)
      else lines (pending ++ [b]) rest
  end.

Definition records (raw : bytes) : list bytes :=
  let r := lines [] raw in fst r ++ match snd r with [] => [] | last => [last] end.

(** ** Equivalence *)

Lemma blen_app a b : blen (a ++ b) = blen a + blen b.
Proof. unfold blen. rewrite length_app. lia. Qed.

(** A stretch without a newline is added as a whole. *)
Lemma feed_stretch s rest : forall pending, Forall (fun b => b <> 10) s -> blen pending + blen s <= maxDiagnostic ->
  feed pending (s ++ rest) = feed (pending ++ s) rest.
Proof.
  induction s as [| b s IH]; intros pending N L; [by rewrite app_nil_r |].
  apply Forall_cons in N as [Nb N]. cbn [app feed]. apply Z.eqb_neq in Nb. rewrite Nb.
  assert (Lb : blen (b :: s) = 1 + blen s) by (unfold blen; cbn [length]; lia).
  pose proof (Nat2Z.is_nonneg (length s)) as Ls. fold (blen s) in Ls.
  replace (_ <? _) with false by lia.
  rewrite IH; [by rewrite <- app_assoc | done |]. rewrite blen_app. unfold blen in *. cbn [length] in *. lia.
Qed.

(** A stretch that does not fit fails, wherever the limit is crossed. *)
Lemma feed_overrun s rest : forall pending, Forall (fun b => b <> 10) s -> blen pending <= maxDiagnostic ->
  maxDiagnostic < blen pending + blen s ->
  feed pending (s ++ rest) = (do! _ <- trigger (WFail ErrOutputLimit); Ret ([], Some ErrOutputLimit)).
Proof.
  induction s as [| b s IH]; intros pending N P L; [unfold blen in L at 2; cbn in L; lia |].
  apply Forall_cons in N as [Nb N]. cbn [app feed]. apply Z.eqb_neq in Nb. rewrite Nb.
  destruct (maxDiagnostic <? blen pending + 1) eqn:G; [done |].
  assert (L1 : blen (pending ++ [b]) = blen pending + 1) by (rewrite blen_app; done).
  assert (L2 : blen (b :: s) = 1 + blen s) by (unfold blen; cbn [length]; lia).
  apply IH; [done | lia | lia].
Qed.

Lemma IndexByte_some raw b n : IndexByte raw b = Some n ->
  exists rest, raw = take n raw ++ b :: rest /\ drop 1 (drop n raw) = rest /\ Forall (fun x => x <> b) (take n raw)
    /\ (n < length raw)%nat.
Proof.
  revert n. induction raw as [| x raw IH]; intros n H; [discriminate H |]. cbn [IndexByte] in H.
  destruct (Z.eqb_spec x b) as [-> | Nx].
  - injection H as <-. exists raw. cbn. split_and!; [done | done | constructor | lia].
  - destruct (IndexByte raw b) as [m |]; [| discriminate H]. injection H as <-.
    destruct (IH m eq_refl) as (rest & E & D & F & L). exists rest. cbn [take drop length app].
    split_and!; [by rewrite <- E | done | by constructor | lia].
Qed.

Lemma IndexByte_none raw b : IndexByte raw b = None -> Forall (fun x => x <> b) raw.
Proof.
  induction raw as [| x raw IH]; [done |]. cbn [IndexByte]. destruct (Z.eqb_spec x b) as [-> | Nx]; [done |].
  destruct (IndexByte raw b); [done |]. auto.
Qed.

(** [Write] reads the stream byte by byte. *)
Lemma write_loop_feed fuel : forall pending raw tr r, (length raw <= fuel)%nat -> blen pending <= maxDiagnostic ->
  runs (write_loop fuel pending raw) tr r <-> runs (feed pending raw) tr r.
Proof.
  induction fuel as [| fuel IH]; intros pending raw tr r L P.
  { destruct raw; [done | cbn in L; lia]. }
  destruct raw as [| b raw]; [done |]. remember (b :: raw) as all eqn:Ea. cbn [write_loop]. rewrite Ea. cbn iota. rewrite <- Ea.
  destruct (IndexByte all 10) as [n |] eqn:F; cbn [from_option]; unfold Datatypes.id.
  - apply IndexByte_some in F as (rest & E & D & N & Ln).
    assert (Lt : blen (take n all) = Z.of_nat n) by (unfold blen; rewrite length_take_le by lia; done).
    destruct (maxDiagnostic <? blen pending + Z.of_nat n) eqn:G.
    + assert (O : feed pending all = (do! _ <- trigger (WFail ErrOutputLimit); Ret ([], Some ErrOutputLimit))).
      { rewrite E. apply feed_overrun; [done | done | lia]. }
      rewrite O. reflexivity.
    + rewrite D.
      assert (O : feed pending all = feed (pending ++ take n all) (10 :: rest)).
      { rewrite E at 1. apply feed_stretch; [done | lia]. }
      rewrite O. cbn [feed]. rewrite Z.eqb_refl. cbn [pbind trigger runs].
      assert (Lr : (length rest <= fuel)%nat).
      { rewrite E, length_app, length_take_le in L by lia. cbn in L. lia. }
      split; intros (e & t & -> & R); exists e, t; (split; [done |]); destruct e; try done; apply IH; try done;
        unfold blen in *; cbn; lia.
  - apply IndexByte_none in F. fold (blen all). destruct (maxDiagnostic <? blen pending + blen all) eqn:G.
    + assert (O : feed pending all = (do! _ <- trigger (WFail ErrOutputLimit); Ret ([], Some ErrOutputLimit))).
      { rewrite <- (app_nil_r all). apply feed_overrun; [done | done | lia]. }
      rewrite O. reflexivity.
    + assert (O : feed pending all = feed (pending ++ all) []).
      { rewrite <- (app_nil_r all) at 1. apply feed_stretch; [done | lia]. }
      rewrite O, firstn_all, skipn_all. destruct fuel; reflexivity.
Qed.

(** What is left pending fits. *)
Lemma feed_pending raw : forall pending tr r, 0 <= maxDiagnostic -> blen pending <= maxDiagnostic ->
  runs (feed pending raw) tr r -> blen (fst r) <= maxDiagnostic.
Proof.
  induction raw as [| b raw IH]; intros pending tr r M P H; cbn [feed] in H.
  - destruct H as [_ ->]. done.
  - destruct (b =? 10).
    + cbn [pbind trigger runs] in H. destruct H as (e & t & _ & H). destruct e; [by destruct H as [_ ->] |].
      by apply IH in H.
    + destruct (maxDiagnostic <? blen pending + 1) eqn:G.
      * cbn [pbind trigger runs] in H. by destruct H as (? & t & _ & _ & ->).
      * apply IH in H; [done | done |]. rewrite blen_app. change (blen [b]) with 1. lia.
Qed.

(** Reading on after a prefix of the stream. *)
Definition resume (x : bytes * option OutputError) (rest : bytes) : prog wcall (bytes * option OutputError) :=
  match snd x with Some e => Ret (fst x, Some e) | None => feed (fst x) rest end.

Lemma feed_app a b : forall pending tr r,
  runs (feed pending (a ++ b)) tr r <-> runs (do! x <- feed pending a; resume x b) tr r.
Proof.
  induction a as [| x a IH]; intros pending tr r; [done |]. cbn [app feed]. destruct (x =? 10).
  - cbn [pbind trigger runs]. split; intros (e & t & -> & H); exists e, t; (split; [done |]); destruct e; try done; by apply IH.
  - destruct (maxDiagnostic <? blen pending + 1); [| apply IH]. cbn [pbind trigger runs]. done.
Qed.

(** Chunks are read as one stream. *)
Lemma copy_feed chunks : forall pending tr r, 0 <= maxDiagnostic -> blen pending <= maxDiagnostic ->
  runs (copy pending chunks) tr r <-> runs (feed pending (concat chunks)) tr r.
Proof.
  induction chunks as [| raw chunks IH]; intros pending tr r M P; [done |]. cbn [copy concat].
  rewrite feed_app, !runs_bind. unfold Write. split.
  - intros (t1 & t2 & x & -> & H & K). apply runs_bind in H as (u1 & u2 & y & -> & H & [-> ->]). cbn [fst snd] in K.
    rewrite app_nil_r. apply write_loop_feed in H; [| done | done]. exists u1, t2, y. split_and!; [done | done |].
    unfold resume. destruct (snd y); [done |]. cbn [snd] in K. apply IH in K; [done | done | by apply feed_pending in H].
  - intros (t1 & t2 & y & -> & H & K). exists t1, t2, (fst y, match snd y with Some e => (0, Some e) | None => (blen raw, None) end).
    split_and!; [done | |].
    + apply runs_bind. exists t1, [], y. rewrite app_nil_r. split_and!; [done | | done]. by apply write_loop_feed.
    + unfold resume in K. cbn [fst snd]. destruct (snd y); [done |]. cbn [snd]. apply IH; [done | | done].
      by apply feed_pending in H.
Qed.

(** ** Lines *)

(** The capture took the record. *)
Definition accepts (ev : event wcall) : bool :=
  match projT2 ev with
  | (c, b) =>
      match c in wcall B return B -> bool with
      | WEmit _ _ => fun e => negb (is_some e)
      | WFail _ => fun _ => true
      end b
  end.

Definition emitted (d : bytes) : event wcall := occurred (WEmit source d) None.

Lemma lines_first raw : forall q,
  match fst (lines q raw) with
  | [] => blen q <= blen (snd (lines q raw))
  | l :: _ => blen q <= blen l
  end.
Proof.
  induction raw as [| b raw IH]; intros q; cbn [lines]; [cbn; lia |]. destruct (b =? 10); [cbn; lia |].
  specialize (IH (q ++ [b])). rewrite blen_app in IH. change (blen [b]) with 1 in IH. destruct (fst _); lia.
Qed.

Lemma feed_lines raw : forall pending tr r, runs (feed pending raw) tr r -> forallb accepts tr = true ->
  Forall (fun d => blen d <= maxDiagnostic) (fst (lines pending raw)) -> blen (snd (lines pending raw)) <= maxDiagnostic ->
  tr = map emitted (fst (lines pending raw)) /\ r = (snd (lines pending raw), None).
Proof.
  induction raw as [| b raw IH]; intros pending tr r H A F L; cbn [feed lines] in *; [by destruct H as [-> ->] |].
  destruct (b =? 10).
  - cbn [pbind trigger runs] in H. destruct H as (e & t & -> & H). cbn [forallb] in A. apply andb_true_iff in A as [Ae A].
    destruct e; [discriminate Ae |]. cbn [fst snd] in *. apply Forall_cons in F as [_ F].
    destruct (IH [] t r H A F L) as [-> ->]. done.
  - pose proof (lines_first raw (pending ++ [b])) as P. rewrite blen_app in P. change (blen [b]) with 1 in P.
    replace (maxDiagnostic <? blen pending + 1) with false in H; [by apply IH |]. symmetry. apply Z.ltb_ge.
    destruct (fst (lines (pending ++ [b]) raw)); [lia |]. apply Forall_cons in F as [F _]. lia.
Qed.
End Writer.

(** C22: The chunking of a stream is irrelevant: the emitted records, the answers that are
    seen and the outcome are those of the stream as one chunk, whatever the capture
    answers; and when it accepts every record and every line fits, the records are
    exactly the lines of the stream, the last one with or without its newline. *)
Theorem writer_chunking_irrelevant maxDiagnostic source chunks (M : 0 <= maxDiagnostic) :
  (forall tr r, runs (capture_stream maxDiagnostic source chunks) tr r
     <-> runs (capture_stream maxDiagnostic source [concat chunks]) tr r)
  /\ (forall tr r, runs (capture_stream maxDiagnostic source chunks) tr r -> forallb accepts tr = true ->
       Forall (fun d => blen d <= maxDiagnostic) (records (concat chunks)) ->
       tr = map (emitted source) (records (concat chunks)) /\ r = None).
Proof.
  assert (C : forall cs tr r, runs (capture_stream maxDiagnostic source cs) tr r
    <-> runs (do! x <- feed maxDiagnostic source [] (concat cs); do! _ <- finish source (fst x); Ret (snd x)) tr r).
  { intros cs tr r. unfold capture_stream. rewrite !runs_bind.
    split; intros (t1 & t2 & x & -> & H & K); exists t1, t2, x; (split; [done |]); (split; [| done]); apply copy_feed; try done. }
  split.
  - intros tr r. rewrite !C. cbn [concat]. by rewrite app_nil_r.
  - intros tr r H A F. apply C in H. apply runs_bind in H as (t1 & t2 & x & -> & H & K). rewrite forallb_app in A.
    apply andb_true_iff in A as [A1 A2]. unfold records in *. apply Forall_app in F as [F1 F2].
    assert (L : blen (snd (lines [] (concat chunks))) <= maxDiagnostic).
    { destruct (snd (lines [] (concat chunks))); [done |]. by apply Forall_cons in F2 as [? _]. }
    destruct (feed_lines maxDiagnostic source _ _ _ _ H A1 F1 L) as [-> ->]. cbn [fst snd] in K. rewrite map_app.
    destruct (snd (lines [] (concat chunks))) as [| b last]; cbn [finish pbind trigger runs] in K.
    + destruct K as [-> ->]. done.
    + destruct K as (e & t & -> & -> & ->). cbn [forallb] in A2. apply andb_true_iff in A2 as [Ae _].
      destruct e; [discriminate Ae |]. done.
Qed.

(** ** Witness *)

(** Two lines and a remainder, cut in the middle of a line. *)
Definition ex_chunks : list bytes := [[97; 98]; [99; 10; 100]; [10; 101]].

Lemma writer_chunking_irrelevant_witness :
  map (emitted OutputStdout) (records (concat ex_chunks))
  = [emitted OutputStdout [97; 98; 99]; emitted OutputStdout [100]; emitted OutputStdout [101]].
Proof.
  destruct (writer_chunking_irrelevant 16 OutputStdout ex_chunks ltac:(lia)) as [_ L].
  destruct (L [emitted OutputStdout [97; 98; 99]; emitted OutputStdout [100]; emitted OutputStdout [101]] None) as [<- _].
  - exists None, [emitted OutputStdout [100]; emitted OutputStdout [101]]. split; [reflexivity |].
    exists None, [emitted OutputStdout [101]]. split; [reflexivity |].
    exists None, []. repeat split.
  - reflexivity.
  - change (records (concat ex_chunks)) with [[97; 98; 99]; [100]; [101]]. repeat constructor; unfold blen; cbn; lia.
  - reflexivity.
Defined.
