(* ===== verification/Control.v ===== *)
(** * internal/adapters/sandboxtransport/control: the process-control capability

    The bodies of agentd frames (api/agentd/v1), the digests that bind a mutation,
    the checks of a command ([Command], [turnCommand]), the canonical encoding of an
    execution's input ([ExecutionInput], [DecodeTurnInput]) and the sequence guard of a
    connection ([Sequences]).

    Proved: an input that validates has one encoding, which fits the payload limit and
    decodes to it, and nothing else decodes; and the frames that a sequence guard passes
    are numbered consecutively, a repetition being the latest frame again. *)

From Stdlib Require Import ZArith Bool Lia.
From stdpp Require Import base strings list.
From S2P Require Import Prelude Regex GoStd JsonDecoder JsonEncode JsonUnmarshal JsonRoundTrip Sha256 Primitives.
From S2P Require Import Handshake HarnessPort RuntimeEvent AgentdAdmission.

(** ** Frame bodies *)

Record CommandBody : Type := mkCommandBody {
  c_Kind : Z;
  c_ConfigurationDigest : string;
  c_PayloadSchema : string;
  c_Payload : string;
  c_ArtifactReference : string
}.

Record ObservationBody : Type := mkObservationBody {
  o_Kind : Z;
  o_PayloadSchema : string;
  o_Payload : string;
  o_ArtifactReference : string
}.

Record AcknowledgementBody : Type := mkAcknowledgementBody {
  a_MessageId : string;
  a_RequestDigest : string;
  a_AcceptedSequence : Z;
  a_EventCredit : Z
}.

Record HeartbeatBody : Type := mkHeartbeatBody {
  h_ProcessState : Z;
  h_LastAcceptedSequence : Z;
  h_LastProducedSequence : Z;
  h_ActiveOperationId : string
}.

Record RotationBody : Type := mkRotationBody {
  r_Kind : Z;
  r_CertificatePem : string;
  r_PrivateKeyPem : string;
  r_ExpiresUnixMs : Z
}.

(** [oneof body]; a message that is set has no [nil] payload after decoding. *)
Inductive Body : Type :=
| BHello (h : Hello)
| BWelcome (w : Welcome)
| BCommand (c : CommandBody)
| BObservation (o : ObservationBody)
| BAcknowledgement (a : AcknowledgementBody)
| BHeartbeat (h : HeartbeatBody)
| BRotation (r : RotationBody)
| BFailure (code : Z).

Definition Frame : Type := Envelope Body.

Definition START : Z := 1.
Definition STOP : Z := 2.
Definition RESTART : Z := 3.
Definition INTERRUPT : Z := 4.
Definition STATUS : Z := 5.
Definition EXECUTE : Z := 7.
Definition SIGNAL : Z := 8.

Definition GetCommand (f : Frame) : option CommandBody :=
  match f_Body _ f with Some (BCommand c) => Some c | _ => None end.

(** ** Digests *)

Inductive ControlError : Type := ErrControl.

Definition Capability : string := "process-control.v1".
Definition TurnCapability : string := "codex-turn.v1".

(** [strconv.Itoa] *)
Definition Itoa (n : Z) : string :=
  of_bytes (if n <? 0 then 45 :: decimal (- n) else decimal n).

Definition NUL : string := String (byte_of 0) "".

Definition Digest (kind : Z) (config handle : string) : string :=
  Sha256.Digest (Capability +:+ NUL +:+ Itoa kind +:+ NUL +:+ config +:+ NUL +:+ handle).

Definition TurnDigest (configuration handle payload : string) : string :=
  Sha256.Digest (TurnCapability +:+ NUL +:+ configuration +:+ NUL +:+ handle +:+ NUL +:+ payload).

(** ** Execution input *)

Definition MaxTurnTextBytes : Z := 16384.
Definition MaxTurnPayloadBytes : Z := 102400.

Record TurnInput : Type := mkTurnInput { InputID : ID; TClassification : string; Text : string }.

Definition Validate (v : TurnInput) : result ControlError unit :=
  if negb (is_ok (ParseID (InputID v))) then Err ErrControl
  else if negb (existsb (fun c => TClassification v == c) classifications) then Err ErrControl
  else if (len (Text v) =? 0) || (MaxTurnTextBytes <? len (Text v)) || negb (ValidString (Text v)) then Err ErrControl
  else Ok tt.

Definition set_InputID (s : string) (v : TurnInput) : TurnInput := mkTurnInput s (TClassification v) (Text v).
Definition set_Classification (s : string) (v : TurnInput) : TurnInput := mkTurnInput (InputID v) s (Text v).
Definition set_Text (s : string) (v : TurnInput) : TurnInput := mkTurnInput (InputID v) (TClassification v) s.

Definition turn_fields : list (field TurnInput) :=
  [ ("input_id", into_string set_InputID); ("classification", into_string set_Classification);
    ("text", into_string set_Text) ].

Definition turn_members (v : TurnInput) : list (string * jvalue) :=
  [ ("input_id", JString (InputID v)); ("classification", JString (TClassification v)); ("text", JString (Text v)) ].

(** [json.Marshal] of a [TurnInput], which cannot fail. *)
Definition turn_json (v : TurnInput) : string := marshal (JStruct (turn_members v)).

Definition DecodeTurnInput (raw : string) : result ControlError TurnInput :=
  if MaxTurnPayloadBytes <? len raw then Err ErrControl
  else match Unmarshal turn_fields raw (mkTurnInput "" "" "") with
  | None => Err ErrControl
  | Some v =>
      if negb (is_ok (Validate v)) then Err ErrControl
      else if turn_json v != raw then Err ErrControl
      else Ok v
  end.

#[export] Instance Fence_eq_dec : EqDecision Fence.
Proof. solve_decision. Defined.

(** The fields of an [ExecuteRequest] that are read; [options] is its number of options. *)
Definition ExecutionInput (h : HarnessHandle) (fence : Fence) (input : ID) (c : Content) (options : Z)
  : result ControlError string :=
  if (fence != hh_Fence h) || (Schema c != "text/plain") || (ArtifactReference c != "") || negb (options =? 0)
  then Err ErrControl
  else
    let v := mkTurnInput input (Classification c) (Inline c) in
    if negb (is_ok (Validate v)) then Err ErrControl else Ok (turn_json v).

(** ** Commands *)

Definition turnCommand (f : Frame) (c : CommandBody) (configuration : string) : result ControlError unit :=
  if negb (c_Kind c =? EXECUTE) || (c_ConfigurationDigest c != configuration) || (c_PayloadSchema c != TurnCapability)
     || (c_ArtifactReference c != "") then Err ErrControl
  else match DecodeTurnInput (c_Payload c) with
  | Err e => Err e
  | Ok _ =>
      if f_RequestDigest _ f != TurnDigest configuration (f_HarnessHandle _ f) (c_Payload c) then Err ErrControl
      else Ok tt
  end.

(** [now] is the clock in milliseconds. *)
Definition Command (now : Z) (self : option Frame) (configuration : string) : result ControlError unit :=
  match self with
  | None => Err ErrControl
  | Some f =>
      match GetCommand f with
      | None => Err ErrControl
      | Some c =>
          let! _ := if c_Kind c =? EXECUTE then turnCommand f c configuration
                    else if (c_ConfigurationDigest c != configuration) || (c_PayloadSchema c != Capability)
                            || negb (len (c_Payload c) =? 0) || (c_ArtifactReference c != "") then Err ErrControl
                    else if existsb (fun k => c_Kind c =? k) [START; STOP; RESTART; INTERRUPT; STATUS] then Ok tt
                    else Err ErrControl in
          if negb (is_ok (ParseID (f_HarnessHandle _ f))) then Err ErrControl
          else if negb (is_ok (ParseID (f_OperationId _ f))) then Err ErrControl
          else if (negb (c_Kind c =? EXECUTE)
                   && (f_RequestDigest _ f != Digest (c_Kind c) configuration (f_HarnessHandle _ f)))
                  || (f_SentUnixMs _ f <=? 0) || (f_DeadlineUnixMs _ f <=? f_SentUnixMs _ f)
                  || (f_DeadlineUnixMs _ f <=? now) then Err ErrControl
          else Ok tt
      end
  end.

(** ** Sequences *)

Record Sequences : Type := mkSequences { s_sequence : Z; s_last : list Z }.

Section Guard.
(** google.golang.org/protobuf: the deterministic encoding of a frame. *)
Variable MarshalFrame : Frame -> option string.

Definition Check (s : Sequences) (self : option Frame) : result ControlError Sequences :=
  match self with
  | None => Err ErrControl
  | Some f =>
      match MarshalFrame f with
      | None => Err ErrControl
      | Some raw =>
          let sum := Sum256 (to_bytes raw) in
          if (f_Sequence _ f =? s_sequence s) && negb (s_sequence s =? 0) && (sum == s_last s) then Ok s
          else if (s_sequence s =? 18446744073709551615) || negb (f_Sequence _ f =? u64 (s_sequence s + 1)) then Err ErrControl
          else Ok (mkSequences (f_Sequence _ f) sum)
      end
  end.
End Guard.

(** ** The size of an encoded input *)

Lemma DecodeRune_width b s : (1 <= snd (DecodeRune b s))%nat.
Proof. unfold DecodeRune. repeat case_match; cbn; lia. Qed.

Lemma length_u_escape b : length (u_escape b) = 6%nat.
Proof. reflexivity. Qed.

Lemma length_encode_rune r w l : (length (encode_rune r w l) <= 6 * Nat.max 1 (length l))%nat.
Proof. unfold encode_rune. repeat case_match; rewrite ?length_u_escape; cbn [length]; lia. Qed.

(** Escaping expands text at most six times. *)
Lemma length_escaped s : forall k, (length (escaped k s) <= 6 * (length s - k))%nat.
Proof.
  induction s as [| b s IH]; intros k; cbn [escaped]; [cbn; lia |]. destruct k as [| k].
  - pose proof (DecodeRune_width b s) as W. destruct (DecodeRune b s) as [r w]. cbn [fst snd] in *.
    rewrite length_app. specialize (IH (w - 1)%nat).
    pose proof (length_encode_rune r w (firstn w (b :: s))) as E. rewrite length_firstn in E. cbn [length] in *. lia.
  - specialize (IH k). cbn [length]. lia.
Qed.

Lemma length_encode_string s : (length (encode_string s) <= 6 * length (to_bytes s) + 2)%nat.
Proof. rewrite encode_string_escaped, !length_app. cbn [length]. pose proof (length_escaped (to_bytes s) 0). lia. Qed.

Lemma len_of_bytes l : len (of_bytes l) = Z.of_nat (length l).
Proof. unfold len, of_bytes. f_equal. induction l as [| b l IH]; [done |]. cbn. by rewrite IH. Qed.

Lemma ParseID_length v : is_ok (ParseID v) = true -> len v = 36.
Proof.
  destruct (ParseID v) as [i |] eqn:E; [| done]. intros _. unfold ParseID in E. ok_inv E. lia.
Qed.

Lemma Validate_ok v : is_ok (Validate v) = true ->
  is_ok (ParseID (InputID v)) = true /\ In (TClassification v) classifications
  /\ 0 < len (Text v) <= MaxTurnTextBytes /\ ValidString (Text v) = true.
Proof.
  unfold Validate. intros H. destruct (negb (is_ok (ParseID _))) eqn:A; [discriminate H |].
  destruct (negb (existsb _ _)) eqn:B; [discriminate H |]. destruct (_ || _) eqn:C in H; [discriminate H |].
  apply negb_false_iff in A, B. apply existsb_exists in B as (c & I & Ec). apply bool_decide_eq_true in Ec. simp_bool.
  split_and!; try done; try lia. pose proof (Nat2Z.is_nonneg (String.length (Text v))). unfold len in *. lia.
Qed.

Lemma turn_json_marshal v : Marshal (JStruct (turn_members v)) = Some (turn_json v).
Proof. done. Qed.

(** An input that validates always fits the payload limit. *)
Lemma turn_json_length v : is_ok (Validate v) = true -> len (turn_json v) <= MaxTurnPayloadBytes.
Proof.
  intros V. apply Validate_ok in V as (I & C & [_ T] & _). apply ParseID_length in I.
  unfold turn_json, marshal, Marshal. rewrite encode_struct. cbn [encode_fields turn_members encode option_map default from_option].
  unfold Datatypes.id. rewrite len_of_bytes, !length_app. cbn [join flat_map fst snd]. rewrite !length_app. cbn [length].
  pose proof (length_encode_string (InputID v)) as L1. pose proof (length_encode_string (TClassification v)) as L2.
  pose proof (length_encode_string (Text v)) as L3. pose proof (length_to_bytes (InputID v)) as E1.
  pose proof (length_to_bytes (Text v)) as E3.
  change (length (encode_string "input_id")) with 10%nat. change (length (encode_string "classification")) with 16%nat.
  change (length (encode_string "text")) with 6%nat.
  assert (E2 : (length (to_bytes (TClassification v)) <= 12)%nat).
  { destruct C as [<- | [<- | [<- | []]]]; cbn; lia. }
  unfold MaxTurnTextBytes, MaxTurnPayloadBytes in *. lia.
Qed.

Lemma classification_text c : In c classifications -> ValidString c = true.
Proof. intros [<- | [<- | [<- | []]]]; reflexivity. Qed.

(** C25: An execution's input has one encoding: an input that validates is encoded within the
    payload limit, and its encoding decodes to it; and whatever decodes is the encoding
    of the input that it decodes to, so no two payloads carry the same input. *)
Theorem turn_input_canonical :
  (forall v, is_ok (Validate v) = true ->
     len (turn_json v) <= MaxTurnPayloadBytes /\ DecodeTurnInput (turn_json v) = Ok v)
  /\ (forall raw v, DecodeTurnInput raw = Ok v -> is_ok (Validate v) = true /\ raw = turn_json v)
  /\ (forall h fence input c n raw, ExecutionInput h fence input c n = Ok raw ->
     DecodeTurnInput raw = Ok (mkTurnInput input (Classification c) (Inline c))).
Proof.
  assert (R : forall v, is_ok (Validate v) = true -> DecodeTurnInput (turn_json v) = Ok v).
  { intros v V. pose proof (turn_json_length v V) as L. unfold DecodeTurnInput.
    replace (MaxTurnPayloadBytes <? len (turn_json v)) with false by lia.
    destruct (Validate_ok v V) as (I & C & _ & T).
    rewrite (scalars_roundtrip turn_fields _
      [set_InputID (InputID v); set_Classification (TClassification v); set_Text (Text v)] _ _ (turn_json_marshal v)).
    - cbn [fold_left set_InputID set_Classification set_Text InputID TClassification Text]. destruct v as [i c t]. unfold set_InputID, set_Classification, set_Text. cbn [InputID TClassification Text] in *.
      rewrite V, bool_decide_true by done. done.
    - scalars_auto; [by apply ascii_valid, validID_ascii | by apply classification_text].
    - done.
    - accepts_auto. }
  split_and!.
  - intros v V. split; [by apply turn_json_length | by apply R].
  - intros raw v H. unfold DecodeTurnInput in H. destruct (_ <? _) in H; [discriminate H |].
    destruct (Unmarshal _ _ _) as [x |]; [| discriminate H]. destruct (negb (is_ok _)) eqn:V in H; [discriminate H |].
    destruct (negb _) eqn:E in H; [discriminate H |]. injection H as <-. simp_bool. done.
  - intros h fence input c n raw H. unfold ExecutionInput in H. destruct (_ || _) in H; [discriminate H |].
    destruct (negb _) eqn:V in H; [discriminate H |]. injection H as <-. apply R. by simp_bool.
Qed.

(** ** The sequence guard *)

Section Guarded.
Variable MarshalFrame : Frame -> option string.

(** The frames of one direction, all of which the guard passed. *)
Inductive passed : Sequences -> list Frame -> Prop :=
| pa_nil s : passed s []
| pa_cons s f s' fs : Check MarshalFrame s (Some f) = Ok s' -> passed s' fs -> passed s (f :: fs).

Definition fingerprint (f : Frame) : option (list Z) := option_map (fun raw => Sum256 (to_bytes raw)) (MarshalFrame f).

Lemma check_passed s f s' : 0 <= s_sequence s < two64 -> Check MarshalFrame s (Some f) = Ok s' ->
  s_sequence s' = f_Sequence _ f /\ fingerprint f = Some (s_last s') /\ 0 <= s_sequence s' < two64
  /\ (f_Sequence _ f = s_sequence s + 1 \/ s_sequence s <> 0 /\ s' = s).
Proof.
  intros B H. unfold Check, fingerprint in *. destruct (MarshalFrame f) as [raw |]; [| discriminate H]. cbn [option_map].
  destruct (_ && _) eqn:G in H.
  - injection H as <-. simp_bool. split_and!; try congruence; try lia. right. split; [lia | done].
  - destruct (_ || _) eqn:E in H; [discriminate H |]. injection H as <-. simp_bool. cbn [s_sequence s_last].
    unfold two64 in *. rewrite u64_succ_small in * by (unfold two64; lia). split_and!; try done; lia.
Qed.

Lemma passed_pairs s fs : passed s fs -> 0 <= s_sequence s < two64 -> forall i f g, fs !! i = Some f -> fs !! S i = Some g ->
  f_Sequence _ g = f_Sequence _ f + 1 \/ (f_Sequence _ g = f_Sequence _ f /\ fingerprint g = fingerprint f).
Proof.
  induction 1 as [s | s f0 s' fs C P IH]; intros B i f g F G; [discriminate F |].
  destruct (check_passed s f0 s' B C) as (S1 & L1 & B1 & _). destruct i as [| i]; [| exact (IH B1 i f g F G)].
  injection F as <-. destruct P as [| s1 f1 s2 fs C2 P]; [discriminate G |]. injection G as <-.
  destruct (check_passed s1 f1 s2 B1 C2) as (S2 & L2 & _ & [D | [_ ->]]); [left; lia | right]. split; congruence.
Qed.

(** Frames that a fresh guard passes are numbered from one; each next frame carries the
    next number, or is the previous frame again (up to a collision of SHA-256). *)
Theorem sequences_consecutive fs (P : passed (mkSequences 0 []) fs) :
  (forall f, fs !! 0%nat = Some f -> f_Sequence _ f = 1)
  /\ forall i f g, fs !! i = Some f -> fs !! S i = Some g ->
     f_Sequence _ g = f_Sequence _ f + 1 \/ (f_Sequence _ g = f_Sequence _ f /\ fingerprint g = fingerprint f).
Proof.
  assert (B : 0 <= s_sequence (mkSequences 0 []) < two64) by (cbn; unfold two64; lia).
  split; [| by apply (passed_pairs _ _ P)]. intros f H. inversion P as [| s f0 s' fs' C P']; subst; [discriminate H |].
  injection H as ->. destruct (check_passed _ _ _ B C) as (_ & _ & _ & [D | [D _]]); [exact D | by destruct D].
Qed.
End Guarded.

(** ** Witnesses *)

Definition ex_turn : TurnInput := mkTurnInput id1 "Internal" "run the tests".

Lemma turn_input_canonical_witness : DecodeTurnInput (turn_json ex_turn) = Ok ex_turn.
Proof. apply (proj1 turn_input_canonical ex_turn). vm_compute. reflexivity. Defined.

Definition ex_control_frame (n : Z) : Frame := mkEnvelope Body 1 0 id4 7 "m" n None "" "" "" 0 0 None "".

Definition ex_encode (f : Frame) : option string := Some (Itoa (f_Sequence _ f)).

Lemma ex_passed : passed ex_encode (mkSequences 0 []) [ex_control_frame 1; ex_control_frame 1; ex_control_frame 2].
Proof. repeat (econstructor; [vm_compute; reflexivity |]). constructor. Qed.

Lemma sequences_consecutive_witness : f_Sequence _ (ex_control_frame 1) = 1.
Proof. exact (proj1 (sequences_consecutive ex_encode _ ex_passed) (ex_control_frame 1) eq_refl). Defined.
