(* ===== verification/AgentdSession.v ===== *)
(** * internal/adapters/sandboxtransport/grpc/session.go: one admitted stream

    [valid] decides which frames may cross a session in which direction, [Send] and
    [Recv] combine it with the rate limiter and the lease's check of every frame.  The
    answers of the mutexes, the limiters, the lease, the stream and the clock are
    unconstrained; a call that [bounded] gives up on is one that failed.

    Proved: the stream is handed only the frame that was given, valid at the clock reading
    of the call and authorised just before; [Recv] returns only the frame that was read,
    under the same conditions; a call that took its mutex and fails has closed the session
    before it releases the mutex; and commands and credentials only ever travel from the
    runtime to the agent. *)

From Stdlib Require Import ZArith Bool Lia.
From stdpp Require Import base strings list.
From S2P Require Import Prelude Regex GoStd Sha256 Primitives Interaction.
From S2P Require Import Handshake AgentdAdmission Control.

Inductive TransportError : Type := ErrTransport.

(** [requestDigest]: lower-casing changes a hexadecimal digest exactly when it has an
    upper-case letter, and nothing else decodes. *)
Definition requestDigest (s : string) : bool :=
  (len s =? 71) && (String.substring 0 7 s == "sha256:")
  && forallb (fun c => negb ((65 <=? c) && (c <=? 90))) (to_bytes s)
  && is_some (hexDecode (String.substring 7 64 s)).

Section Session.

(** google.golang.org/protobuf: unknown fields of a body, encoded size, equality. *)
Variable known_body : Body -> bool.
Variable FrameSize : Frame -> Z.
Variable BindingEqual : option Binding -> option Binding -> bool.

(** The Welcome of the session and its limits, and whether this is the runtime's side. *)
Variable welcome : Welcome.
Variable limits : Limits.
Variable server : bool.

(** Whether the session has its limiters, and the channel that [watch] makes. *)
Variables sendRate recvRate activity : bool.

Definition minute15 : Z := 900000.

(** The body is allowed in the direction; [now] in milliseconds. *)
Definition valid_body (now : Z) (f : Frame) (fromServer : bool) : bool :=
  match f_Body _ f with
  | Some (BCommand c) =>
      ((c_Kind c =? STATUS)
       || (is_ok (ParseID (f_OperationId _ f)) && requestDigest (f_RequestDigest _ f)
           && negb ((f_SentUnixMs _ f <=? 0) || (f_DeadlineUnixMs _ f <=? f_SentUnixMs _ f)
                    || (f_DeadlineUnixMs _ f <=? now))))
      && fromServer && (START <=? c_Kind c) && (c_Kind c <=? SIGNAL) && (len (c_Payload c) <=? CommandBytes limits)
      && negb ((0 <? len (c_Payload c)) && (c_ArtifactReference c != ""))
  | Some (BObservation o) =>
      negb fromServer && (1 <=? o_Kind o) && (o_Kind o <=? 4)
      && (len (o_Payload o) <=? (if o_Kind o =? 4 then DiagnosticBytes limits else EventBytes limits))
      && negb ((0 <? len (o_Payload o)) && (o_ArtifactReference o != ""))
  | Some (BHeartbeat h) => negb fromServer && (1 <=? h_ProcessState h) && (h_ProcessState h <=? 6)
  | Some (BAcknowledgement a) => a_EventCredit a <=? BufferedEvents limits
  | Some (BFailure code) => (1 <=? code) && (code <=? 6)
  | Some (BRotation r) =>
      existsb (fun c => c == "rotation.v1") (Capabilities welcome)
      && if negb fromServer
         then (r_Kind r =? 1) && (len (r_CertificatePem r) =? 0) && (len (r_PrivateKeyPem r) =? 0)
              && (r_ExpiresUnixMs r =? 0)
         else (r_Kind r =? 2) && (0 <? len (r_CertificatePem r)) && (len (r_CertificatePem r) <=? 16384)
              && (0 <? len (r_PrivateKeyPem r)) && (len (r_PrivateKeyPem r) <=? 4096)
              && (now <? r_ExpiresUnixMs r) && (r_ExpiresUnixMs r <=? now + minute15)
  | Some (BHello _) | Some (BWelcome _) | None => false
  end.

Definition valid (now : Z) (self : option Frame) (fromServer : bool) : bool :=
  match self with
  | None => false
  | Some f =>
      KnownFields _ known_body f && (FrameSize f <=? FrameBytes limits)
      && (f_Major _ f =? w_Major welcome) && (f_Minor _ f =? w_Minor welcome)
      && (f_ConnectionId _ f == ConnectionId welcome) && (f_ConnectionEpoch _ f =? ConnectionEpoch welcome)
      && negb (f_Sequence _ f =? 0) && BindingEqual (f_Binding _ f) (w_Binding welcome)
      && is_ok (ParseID (f_MessageId _ f)) && valid_body now f fromServer
  end.

(** ** Send and Recv *)

Inductive sport : Type -> Type :=
| TryLock : sport bool
| Unlock : sport unit
| Allow : sport bool
| SNow : sport Z
| SCtxErr : sport bool
| CheckFrame (f : Frame) : sport bool
| WireSend (f : Frame) : sport bool
| WireRecv : sport (option Frame)
| Activity : sport unit
| CloseSession : sport unit.

(** [authorize]: the lease's check, within the liveness window. *)
Definition authorize (f : Frame) : prog sport bool :=
  do! cancelled <- trigger SCtxErr;
  if negb cancelled then trigger (CheckFrame f) else Ret false.

Definition refuse {A} : prog sport (result TransportError A) :=
  do! _ <- trigger CloseSession; Ret (Err ErrTransport).

(** [TryLock] with the deferred [Unlock]. *)
Definition exclusively {A} (work : prog sport (result TransportError A)) : prog sport (result TransportError A) :=
  do! locked <- trigger TryLock;
  if negb locked then Ret (Err ErrTransport)
  else do! r <- work; do! _ <- trigger Unlock; Ret r.

(** [rate == nil || !rate.Allow()], negated. *)
Definition allowed_by (rate : bool) : prog sport bool :=
  if negb rate then Ret false else trigger Allow.

Definition send_work (f : option Frame) : prog sport (result TransportError unit) :=
  do! allowed <- allowed_by sendRate;
  if negb allowed then refuse
  else
    do! now <- trigger SNow;
    match f with
    | None => refuse
    | Some f =>
        if negb (valid now (Some f) server) then refuse
        else
          do! ok <- authorize f;
          if negb ok then refuse
          else
            do! sent <- trigger (WireSend f);
            if negb sent then refuse else Ret (Ok tt)
    end.

Definition Send (f : option Frame) : prog sport (result TransportError unit) := exclusively (send_work f).

Definition recv_work : prog sport (result TransportError Frame) :=
  do! r <- trigger WireRecv;
  match r with
  | None => refuse
  | Some f =>
      do! allowed <- allowed_by recvRate;
      if negb allowed then refuse
      else
        do! now <- trigger SNow;
        if negb (valid now (Some f) (negb server)) then refuse
        else
          do! ok <- authorize f;
          if negb ok then refuse
          else do! _ <- (if activity then trigger Activity else Ret tt); Ret (Ok f)
  end.

Definition Recv : prog sport (result TransportError Frame) := exclusively recv_work.

(** ** Theorems *)

(** What crosses from the agent: no command, no credential. *)
Lemma valid_from_agent now f : valid now (Some f) false = true ->
  GetCommand f = None
  /\ match f_Body _ f with Some (BRotation r) => len (r_PrivateKeyPem r) = 0 /\ len (r_CertificatePem r) = 0 | _ => True end.
Proof.
  cbn [valid]. intros H. rewrite !andb_true_iff in H. destruct H as [_ H]. unfold GetCommand, valid_body in *.
  destruct (f_Body _ f) as [[] |]; try done; cbn [negb] in H; simp_bool; try done.
  split; [done |]. split; lia.
Qed.

(** What a run hands to the stream. *)
Definition sent_frame (e : event sport) : option Frame :=
  match projT2 e with (c, _) => match c with WireSend f => Some f | _ => None end end.

(** The calls before a frame may pass: the limiter, the clock at [now], the context and
    the lease's consent to this frame. *)
Definition clearance (f : Frame) (now : Z) : list (event sport) :=
  [occurred Allow true; occurred SNow now; occurred SCtxErr false; occurred (CheckFrame f) true].

(** The calls of a run that has the mutex: [work] between taking and releasing it.  A call
    that does not get the mutex makes no other call and fails; only it leaves the session
    open when it fails. *)
Definition gated {A} (work : list (event sport)) (tr : list (event sport)) (r : result TransportError A) : Prop :=
  tr = occurred TryLock true :: work ++ [occurred Unlock tt]
  /\ (r = Err ErrTransport -> last work = Some (occurred CloseSession tt)).

Definition turned_away {A} (tr : list (event sport)) (r : result TransportError A) : Prop :=
  tr = [occurred TryLock false] /\ r = Err ErrTransport.

Lemma exclusively_runs {A} (work : prog sport (result TransportError A)) tr r : runs (exclusively work) tr r ->
  turned_away tr r \/ exists t, tr = occurred TryLock true :: t ++ [occurred Unlock tt] /\ runs work t r.
Proof.
  unfold exclusively. cbn [pbind trigger runs]. intros (locked & t1 & -> & H). destruct locked; cbn [negb] in H.
  - right. apply runs_bind in H as (t2 & t3 & x & -> & W & [] & t4 & -> & -> & ->). eauto.
  - left. by destruct H as [-> ->].
Qed.

Ltac by_position :=
  repeat match goal with
  | H : context [?l !! ?i] |- _ => is_var i; destruct i as [| i]; cbn in H
  | H : None = Some _ |- _ => discriminate H
  | H : Some _ = Some _ |- _ => injection H as H
  end.

(** [send_work], frame by frame. *)
Lemma send_work_gate f t r : runs (send_work f) t r ->
  (forall i g, t !! i ≫= sent_frame = Some g ->
     sendRate = true /\ f = Some g /\ exists now, valid now (Some g) server = true /\ take i t = clearance g now)
  /\ match r with
     | Ok _ => exists i g, f = Some g /\ t !! i = Some (occurred (WireSend g) true)
     | Err _ => last t = Some (occurred CloseSession tt)
     end.
Proof.
  intros H. unfold send_work, refuse, authorize, allowed_by in H. explore H.
  all: repeat match goal with H : negb _ = false |- _ => apply negb_false_iff in H | H : negb _ = true |- _ => apply negb_true_iff in H
              | x : unit |- _ => destruct x end.
  all: subst; try discriminate; split; try done; try (by eexists 4%nat, _).
  all: intros i g L; cbn in L; by_position; subst; split_and!; try done; by eexists.
Qed.

Lemma recv_work_gate t r : runs recv_work t r ->
  match r with
  | Ok g => recvRate = true /\ exists now, valid now (Some g) (negb server) = true
      /\ t = occurred WireRecv (Some g) :: clearance g now ++ (if activity then [occurred Activity tt] else [])
  | Err _ => last t = Some (occurred CloseSession tt)
  end.
Proof.
  intros H. unfold recv_work, refuse, authorize, allowed_by in H. explore H.
  all: repeat match goal with H : negb _ = false |- _ => apply negb_false_iff in H | H : negb _ = true |- _ => apply negb_true_iff in H
              | x : unit |- _ => destruct x end.
  all: intros ->; subst; try discriminate; try done.
  all: split; [done |]; eexists; split; [eassumption |]; done.
Qed.

(** C24: A session's gate.  A call of [Send] or [Recv] either finds its mutex taken, makes
    no other call and fails, or takes the mutex and releases it last; and when it then
    fails, it has closed the session just before that.  Every frame that [Send] hands to
    the stream is the frame it was given, and is preceded by exactly the consent of the
    limiter, which must be there, the clock reading at which the frame is valid for the
    direction, and the consent of the context and of the lease to this very frame; [Send]
    succeeds only when the stream took the frame.  What [Recv] returns is the frame that
    it read from the stream, cleared in the same way afterwards, and on the runtime's side
    it is never a command and never carries key material. *)
Theorem session_gate :
  (forall f tr (r : result TransportError unit), runs (Send f) tr r ->
     turned_away tr r
     \/ exists work, gated work tr r
        /\ (forall i g, work !! i ≫= sent_frame = Some g ->
              sendRate = true /\ f = Some g
              /\ exists now, valid now (Some g) server = true /\ take i work = clearance g now)
        /\ (r = Ok tt -> exists i g, f = Some g /\ work !! i = Some (occurred (WireSend g) true)))
  /\ (forall tr (r : result TransportError Frame), runs Recv tr r ->
     turned_away tr r
     \/ exists work, gated work tr r
        /\ (forall g, r = Ok g ->
              recvRate = true
              /\ (exists now, valid now (Some g) (negb server) = true
                    /\ work = occurred WireRecv (Some g) :: clearance g now
                              ++ (if activity then [occurred Activity tt] else []))
              /\ (server = true -> GetCommand g = None
                    /\ match f_Body _ g with Some (BRotation r) => len (r_PrivateKeyPem r) = 0 | _ => True end))).
Proof.
  split.
  - intros f tr r H. apply exclusively_runs in H as [H | (t & -> & H)]; [by left | right].
    apply send_work_gate in H as [G E]. exists t. split; [split; [done |] |].
    + by intros ->.
    + split; [exact G |]. by intros ->.
  - intros tr r H. apply exclusively_runs in H as [H | (t & -> & H)]; [by left | right].
    apply recv_work_gate in H. exists t. split; [split; [done |]; by intros -> |].
    intros g ->. destruct H as (R & now & V & E). split_and!; [done | by exists now |]. intros ->. cbn [negb] in V.
    apply valid_from_agent in V as [C K]. split; [done |]. destruct (f_Body _ g) as [[] |]; try done. by destruct K.
Qed.
End Session.

(** ** Witness *)

Definition ex_session_welcome : Welcome :=
  mkWelcome 1 0 None "" id4 7 ["rotation.v1"] None "" digest_a "codex" digest_b "".

Definition ex_command_frame : Frame :=
  mkEnvelope Body 1 0 id4 7 id1 1 None id2 id3 digest_a 1000 5000 (Some (BCommand (mkCommandBody START "" Capability "" ""))) "".

Definition ex_send_trace : list (event sport) :=
  [occurred TryLock true; occurred Allow true; occurred SNow 2000; occurred SCtxErr false;
   occurred (CheckFrame ex_command_frame) true; occurred (WireSend ex_command_frame) true; occurred Unlock tt].

Definition ex_cleared : list (event sport) := take 5 (tl ex_send_trace).

Lemma ex_send_valid :
  valid (fun _ => true) (fun _ => 100) (fun _ _ => true) ex_session_welcome HardLimits 2000 (Some ex_command_frame) true = true.
Proof. vm_compute. reflexivity. Qed.

Lemma ex_send_run :
  runs (Send (fun _ => true) (fun _ => 100) (fun _ _ => true) ex_session_welcome HardLimits true true (Some ex_command_frame))
    ex_send_trace (Ok tt).
Proof.
  unfold Send, exclusively. cbn [pbind trigger runs]. eexists _, _. split; [reflexivity |]. cbn [negb].
  apply runs_bind. eexists ex_cleared, [occurred Unlock tt], (Ok tt). split; [reflexivity |].
  split; [| by eexists _, _]. unfold send_work, allowed_by. cbn [negb pbind trigger runs].
  do 2 (eexists _, _; split; [reflexivity |]; cbn [negb pbind trigger runs]). rewrite ex_send_valid.
  cbn [negb runs pbind trigger authorize]. do 3 (eexists _, _; split; [reflexivity |]; cbn [negb pbind runs trigger]). done.
Qed.

(** A command is sent by the runtime: it was cleared at the clock reading of the call. *)
Lemma session_gate_witness : exists now, take 4 ex_cleared = clearance ex_command_frame now.
Proof.
  destruct (proj1 (session_gate (fun _ => true) (fun _ => 100) (fun _ _ => true) ex_session_welcome
    HardLimits true true true true) (Some ex_command_frame) ex_send_trace (Ok tt) ex_send_run) as [[E _] | (work & [E _] & G & _)].
  - exfalso. apply (f_equal length) in E. discriminate E.
  - apply (f_equal (fun l => tl l)) in E. cbn [tl] in E. change (tl ex_send_trace) with (ex_cleared ++ [occurred Unlock tt]) in E.
    apply app_inj_tail in E as [<- _]. destruct (G 4%nat ex_command_frame eq_refl) as (_ & _ & now & _ & T). by exists now.
Defined.
