(* ===== verification/AgentdServer.v ===== *)
(** * internal/app/agentdserver/handler.go: serving an admitted agent

    The loop of [Serve]: it dispatches the commands of an operator's plan one at a time,
    answers credential rotations and acknowledges heartbeats and observations.  What
    the outcome store, the rotation service, the observer, the session and the peer
    answer is unconstrained.  [fuel] is the number of turns of the loop; a loop that has
    used it up is still serving and has no outcome, so what is proved of every run holds
    at every moment of an execution that never ends.

    Proved: frames are numbered consecutively and carry the identity and the deadline of
    the session; the frames that carry a command are those of commands of the plan, field
    by field, in its order, each at most once and only after the store reported that its
    operation is unknown; no command is sent while another one awaits its acknowledgement;
    and [Serve] never returns without closing the session. *)

From Stdlib Require Import ZArith Bool Lia.
From stdpp Require Import base strings list sets.
From S2P Require Import Prelude Regex GoStd Sha256 Primitives Interaction.
From S2P Require Import Handshake AgentdAdmission Control.

(** [Command] of the plan; the deadline in milliseconds. *)
Record PlanCommand : Type := mkPlanCommand {
  OperationID : string;
  ConfigurationDigest : string;
  HarnessHandle : string;
  Kind : Z;
  Payload : string;
  Deadline : Z
}.

(** [CommandOutcome]: [Found] tells whether the outcome is an acknowledgement. *)
Inductive Lookup : Type := Found (acknowledged : bool) | Missing | LookupFailed.

(** What the [select] of the loop received. *)
Inductive Wake : Type := WakeContext | WakeSession | WakeTick | WakeInput (f : option Frame).

Inductive Exit : Type := Stopped | ErrSession | SendFailed.

Inductive hport : Type -> Type :=
| HPlan : hport (option (list PlanCommand))
| HNewID : hport (option ID)
| HNow : hport Z
| HSelect : hport Wake
| HOutcome (tenant sandbox operation : ID) (digest : string) : hport Lookup
| HSend (f : Frame) : hport bool
| HRotate (connection : ID) (epoch : Z) (r : RotationBody) : hport (option RotationBody)
| HObserve (f : Frame) : hport bool
| HSettle : hport unit
| HClose : hport unit.

Section Serve.
Variable peer : Identity.
Variable welcome : Welcome.
(** The deadline of the session, in milliseconds. *)
Variable deadline : Z.

Definition frame (op handle digest : string) (sent expires : Z) (b : Body) : Frame :=
  mkEnvelope Body 0 0 "" 0 "" 0 None handle op digest sent expires (Some b) "".

(** The frame as [send] fills it in. *)
Definition stamped (f : Frame) (message : ID) (sequence now : Z) : Frame :=
  mkEnvelope Body (w_Major welcome) (w_Minor welcome) (ConnectionId welcome) (ConnectionEpoch welcome) message sequence
    (w_Binding welcome) (f_HarnessHandle _ f) (f_OperationId _ f) (f_RequestDigest _ f) now
    (if (f_DeadlineUnixMs _ f =? 0) || (deadline <? f_DeadlineUnixMs _ f) then deadline else f_DeadlineUnixMs _ f)
    (f_Body _ f) (f_unknown _ f).

(** [send]: the sequence after it, and why it failed. *)
Definition send (sequence : Z) (f : Frame) : prog hport (Z * option Exit) :=
  do! id <- trigger HNewID;
  match id with
  | None => Ret (sequence, Some ErrSession)
  | Some id =>
      do! now <- trigger HNow;
      let sequence := u64 (sequence + 1) in
      do! ok <- trigger (HSend (stamped f id sequence now));
      Ret (sequence, if negb ok then Some SendFailed else None)
  end.

Definition command_digest (c : PlanCommand) : string :=
  if Kind c =? EXECUTE then TurnDigest (ConfigurationDigest c) (HarnessHandle c) (Payload c)
  else Control.Digest (Kind c) (ConfigurationDigest c) (HarnessHandle c).

Definition command_schema (c : PlanCommand) : string := if Kind c =? EXECUTE then TurnCapability else Capability.

Definition command_frame (c : PlanCommand) (sent : Z) : Frame :=
  frame (OperationID c) (HarnessHandle c) (command_digest c) sent (Deadline c)
    (BCommand (mkCommandBody (Kind c) (ConfigurationDigest c) (command_schema c) (Payload c) "")).

Definition acknowledgement (f : Frame) : Frame :=
  frame "" "" "" 0 0 (BAcknowledgement (mkAcknowledgementBody (f_MessageId _ f) "" (f_Sequence _ f) 0)).

Definition is_ack (f : Frame) : bool := match f_Body _ f with Some (BAcknowledgement _) => true | _ => false end.
Definition is_failure (f : Frame) : bool := match f_Body _ f with Some (BFailure _) => true | _ => false end.
Definition is_report (f : Frame) : bool :=
  match f_Body _ f with Some (BHeartbeat _) | Some (BObservation _) => true | _ => false end.

Variable plan : list PlanCommand.

(** The turns of the loop. *)
Fixpoint serve_loop (fuel : nat) (sequence : Z) (index : nat) (pending : string) : prog hport (option Exit) :=
  match fuel with
  | O => Ret None
  | S fuel =>
      do! w <- trigger HSelect;
      match w with
      | WakeContext | WakeSession => Ret (Some Stopped)
      | WakeTick =>
          match (if pending == "" then plan !! index else None) with
          | None => serve_loop fuel sequence index pending
          | Some c =>
              do! o <- trigger (HOutcome (ITenantID peer) (ISandboxID peer) (OperationID c) (command_digest c));
              match o with
              | Found true => serve_loop fuel sequence (S index) pending
              | Found false | LookupFailed => Ret (Some ErrSession)
              | Missing =>
                  do! sent <- trigger HNow;
                  let f := command_frame c sent in
                  do! now <- trigger HNow;
                  if negb (is_ok (Command now (Some f) (ConfigurationDigest c))) then Ret (Some ErrSession)
                  else
                    do! r <- send sequence f;
                    match snd r with
                    | Some _ => Ret (Some ErrSession)
                    | None => serve_loop fuel (fst r) index (OperationID c)
                    end
              end
          end
      | WakeInput None => Ret (Some ErrSession)
      | WakeInput (Some f) =>
          match f_Body _ f with
          | Some (BRotation r) =>
              if pending != "" then Ret (Some ErrSession)
              else
                do! reply <- trigger (HRotate (ConnectionId welcome) (ConnectionEpoch welcome) r);
                match reply with
                | None => Ret (Some ErrSession)
                | Some reply =>
                    do! r <- send sequence (frame "" "" "" 0 0 (BRotation reply));
                    match snd r with
                    | Some e => Ret (Some e)
                    | None => do! _ <- trigger HSettle; Ret (Some Stopped)
                    end
                end
          | _ =>
              let mine := (f_OperationId _ f != "") && (f_OperationId _ f == pending) in
              if mine && is_failure f then Ret (Some ErrSession)
              else
                let settled := mine && is_ack f in
                let pending := if settled then "" else pending in
                let index := if settled then S index else index in
                if negb (is_report f) then serve_loop fuel sequence index pending
                else
                  do! ok <- trigger (HObserve f);
                  if negb ok then Ret (Some ErrSession)
                  else
                    do! r <- send sequence (acknowledgement f);
                    match snd r with
                    | Some _ => Ret (Some ErrSession)
                    | None => serve_loop fuel (fst r) index pending
                    end
          end
      end
  end.
End Serve.

(** [Serve] once its collaborators are present; [deadline] is the session's, if any. *)
Definition Serve (peer : Identity) (welcome : Welcome) (deadline : option Z) (fuel : nat) : prog hport (option Exit) :=
  do! r <- (do! plan <- trigger HPlan;
            match plan with
            | None => Ret (Some ErrSession)
            | Some plan =>
                if (128 <? Z.of_nat (length plan)) || existsb (fun c => MaxTurnPayloadBytes <? len (Payload c)) plan
                then Ret (Some ErrSession)
                else match deadline with
                | None => Ret (Some ErrSession)
                | Some deadline => serve_loop peer welcome deadline plan fuel 0 0 ""
                end
            end);
  match r with
  | None => Ret None
  | Some e => do! _ <- trigger HClose; Ret (Some e)
  end.

(** ** What a run did *)

Definition sent (e : event hport) : option Frame :=
  match projT2 e with (c, _) => match c with HSend f => Some f | _ => None end end.

(** The command that was sent: its operation and its digest. *)
Definition dispatched (e : event hport) : option (string * string) :=
  f ← sent e; _ ← GetCommand f; Some (f_OperationId _ f, f_RequestDigest _ f).

(** The operation whose acknowledgement was received. *)
Definition acknowledged (e : event hport) : option string :=
  match projT2 e with
  | (c, b) =>
      match c in hport B return B -> option string with
      | HSelect => fun w => match w with WakeInput (Some f) => if is_ack f then Some (f_OperationId _ f) else None | _ => None end
      | _ => fun _ => None
      end b
  end.

(** The operation that the store, asked about the sandbox of [peer], reported as unknown. *)
Definition unknown (peer : Identity) (e : event hport) : option (string * string) :=
  match projT2 e with
  | (c, b) =>
      match c in hport B return B -> option (string * string) with
      | HOutcome tenant sandbox op digest => fun o =>
          match o with
          | Missing => if (tenant == ITenantID peer) && (sandbox == ISandboxID peer) then Some (op, digest) else None
          | _ => None
          end
      | _ => fun _ => None
      end b
  end.

(** The frames with a command that were sent. *)
Definition commands (tr : list (event hport)) : list Frame :=
  omap (fun e => f ← sent e; _ ← GetCommand f; Some f) tr.

(** [f] asks for [c], in a session of [welcome] with the deadline [deadline]: the operation,
    the harness, the digest of the request, the kind, the configuration, the schema and the
    payload are those of the plan, and the deadline is the earlier of the two. *)
Record asks_for (welcome : Welcome) (deadline : Z) (c : PlanCommand) (f : Frame) : Prop := {
  as_operation : f_OperationId _ f = OperationID c;
  as_handle : f_HarnessHandle _ f = HarnessHandle c;
  as_digest : f_RequestDigest _ f =
    if Kind c =? EXECUTE then TurnDigest (ConfigurationDigest c) (HarnessHandle c) (Payload c)
    else Control.Digest (Kind c) (ConfigurationDigest c) (HarnessHandle c);
  as_body : f_Body _ f = Some (BCommand (mkCommandBody (Kind c) (ConfigurationDigest c)
    (if Kind c =? EXECUTE then TurnCapability else Capability) (Payload c) ""));
  as_deadline : f_DeadlineUnixMs _ f =
    if (Deadline c =? 0) || (deadline <? Deadline c) then deadline else Deadline c;
  as_version : f_Major _ f = w_Major welcome /\ f_Minor _ f = w_Minor welcome;
  as_extra : f_unknown _ f = ""
}.

(** The frames ask for some of the commands of [plan], in its order. *)
Definition asked (welcome : Welcome) (deadline : Z) (plan : list PlanCommand) (fs : list Frame) : Prop :=
  exists cs, cs `sublist_of` plan /\ Forall2 (asks_for welcome deadline) cs fs.

(** At most one command awaits its acknowledgement; [p] is the one that does, if any. *)
Fixpoint one_in_flight (p : string) (tr : list (event hport)) : Prop :=
  match tr with
  | [] => True
  | e :: tr =>
      match dispatched e, acknowledged e with
      | Some (op, _), _ => p = "" /\ op <> "" /\ one_in_flight op tr
      | None, Some op => one_in_flight (if op == p then "" else p) tr
      | None, None => one_in_flight p tr
      end
  end.

(** Every command was looked up before; [seen] are the operations found unknown so far. *)
Fixpoint looked_up (peer : Identity) (seen : list (string * string)) (tr : list (event hport)) : Prop :=
  match tr with
  | [] => True
  | e :: tr =>
      match dispatched e with Some d => d ∈ seen | None => True end
      /\ looked_up peer (match unknown peer e with Some d => d :: seen | None => seen end) tr
  end.

(** Frames carry the next number and belong to the session. *)
Fixpoint numbered (welcome : Welcome) (deadline : Z) (n : Z) (tr : list (event hport)) : Prop :=
  match tr with
  | [] => True
  | e :: tr =>
      match sent e with
      | Some f =>
          f_Sequence _ f = u64 (n + 1) /\ f_ConnectionId _ f = ConnectionId welcome
          /\ f_ConnectionEpoch _ f = ConnectionEpoch welcome /\ f_Binding _ f = w_Binding welcome
          /\ f_DeadlineUnixMs _ f <= deadline /\ numbered welcome deadline (u64 (n + 1)) tr
      | None => numbered welcome deadline n tr
      end
  end.

Lemma looked_up_more peer tr : forall seen more, seen ⊆ more -> looked_up peer seen tr -> looked_up peer more tr.
Proof.
  induction tr as [| e tr IH]; intros seen more S; [done |]. cbn [looked_up]. intros [H K]. split.
  - destruct (dispatched e); [by apply S | done].
  - revert K. apply IH. destruct (unknown peer e); set_solver.
Qed.

Lemma asked_fewer welcome deadline plan more fs : plan `sublist_of` more ->
  asked welcome deadline plan fs -> asked welcome deadline more fs.
Proof. intros S (cs & C & F). exists cs. split; [by etransitivity | done]. Qed.

Lemma asked_next welcome deadline c plan f fs : asks_for welcome deadline c f ->
  asked welcome deadline plan fs -> asked welcome deadline (c :: plan) (f :: fs).
Proof. intros A (cs & C & F). exists (c :: cs). split; [by apply sublist_skip | by constructor]. Qed.

Lemma commands_none e tr : dispatched e = None -> commands (e :: tr) = commands tr.
Proof.
  unfold dispatched, commands. cbn [omap list_omap]. destruct (sent e) as [f |]; [| done]. cbn.
  destruct (GetCommand f); [discriminate | done].
Qed.

Section Runs.
Variable peer : Identity.
Variable welcome : Welcome.
Variable deadline : Z.
Variable plan : list PlanCommand.

(** A run of the loop from [sequence], [index] and [pending]. *)
Record dispatches (sequence : Z) (index : nat) (pending : string) (tr : list (event hport)) : Prop := {
  di_numbered : numbered welcome deadline sequence tr;
  di_order : asked welcome deadline (drop (if pending == "" then index else S index) plan) (commands tr);
  di_flight : one_in_flight pending tr;
  di_lookup : looked_up peer [] tr
}.

Lemma dispatches_nil n i p : dispatches n i p [].
Proof. split; try done. exists []. split; [apply sublist_nil_l | constructor]. Qed.

(** A silent call in front. *)
Lemma dispatches_quiet n i p e tr : sent e = None -> acknowledged e = None -> unknown peer e = None ->
  dispatches n i p tr -> dispatches n i p (e :: tr).
Proof.
  intros S A U [N O F L]. assert (D : dispatched e = None) by (unfold dispatched; by rewrite S).
  split; cbn [numbered one_in_flight looked_up]; rewrite ?S, ?D, ?A, ?U; try done.
  by rewrite commands_none.
Qed.

(** A turn that sends nothing of its own. *)
Lemma dispatches_frame n i p f ok tr : GetCommand f = None ->
  f_Sequence _ f = u64 (n + 1) -> f_ConnectionId _ f = ConnectionId welcome ->
  f_ConnectionEpoch _ f = ConnectionEpoch welcome -> f_Binding _ f = w_Binding welcome -> f_DeadlineUnixMs _ f <= deadline ->
  dispatches (u64 (n + 1)) i p tr -> dispatches n i p (occurred (HSend f) ok :: tr).
Proof.
  intros G S1 S2 S3 S4 S5 [N O F L]. assert (D : dispatched (occurred (HSend f) ok) = None) by (unfold dispatched; cbn; by rewrite G).
  split; cbn [numbered one_in_flight looked_up]; rewrite ?D; try done.
  by rewrite commands_none.
Qed.

Lemma stamped_deadline f m s t : f_DeadlineUnixMs _ (stamped welcome deadline f m s t) <= deadline.
Proof. cbn [stamped f_DeadlineUnixMs]. destruct (_ || _) eqn:G; [lia |]. simp_bool. lia. Qed.

Lemma Command_operation now f conf : is_ok (Command now (Some f) conf) = true -> f_OperationId _ f <> "".
Proof.
  unfold Command. destruct (GetCommand f); [| done]. unfold rbind. destruct (if c_Kind c =? EXECUTE then _ else _); [| done].
  destruct (negb (is_ok (ParseID (f_HarnessHandle _ f)))); [done |]. intros H E. rewrite E in H. done.
Qed.

Lemma send_runs n f tr x : runs (send welcome deadline n f) tr x ->
  (exists m s ok, tr = [occurred HNewID (Some m); occurred HNow s; occurred (HSend (stamped welcome deadline f m (u64 (n + 1)) s)) ok]
     /\ x = (u64 (n + 1), if negb ok then Some SendFailed else None))
  \/ tr = [occurred HNewID None] /\ x = (n, Some ErrSession).
Proof.
  unfold send. intros H. cbn [pbind trigger runs] in H. destruct H as (id & t & -> & H). destruct id as [m |].
  - left. cbn [pbind trigger runs] in H. destruct H as (s & t2 & -> & ok & t3 & -> & -> & ->). eauto.
  - right. by destruct H as [-> ->].
Qed.

(** What a call of [send] with a frame that is no command leaves in front. *)
Lemma dispatches_send n i p f t1 x tr : GetCommand f = None -> runs (send welcome deadline n f) t1 x ->
  dispatches (fst x) i p tr -> dispatches n i p (t1 ++ tr).
Proof.
  intros G H D. apply send_runs in H as [(m & s & ok & -> & ->) | [-> ->]]; cbn [app fst] in *.
  - apply dispatches_quiet; [done.. |]. apply dispatches_quiet; [done.. |].
    apply dispatches_frame; try done. apply stamped_deadline.
  - by apply dispatches_quiet.
Qed.

(** A command of the plan is looked up and sent. *)
Lemma dispatches_command n i c t x m s ok tr : plan !! i = Some c -> OperationID c <> "" ->
  dispatches (u64 (n + 1)) i (OperationID c) tr ->
  dispatches n i ""
    (occurred (HOutcome (ITenantID peer) (ISandboxID peer) (OperationID c) (command_digest c)) Missing
     :: occurred HNow t :: occurred HNow x :: occurred HNewID (Some m) :: occurred HNow s
     :: occurred (HSend (stamped welcome deadline (command_frame c t) m (u64 (n + 1)) s)) ok :: tr).
Proof.
  intros P E [N O F L]. rewrite (bool_decide_false (OperationID c = "")) in O by done. split.
  - cbn. split_and!; try done. apply (stamped_deadline (command_frame c t) m (u64 (n + 1)) s).
  - rewrite (bool_decide_true (EmptyString = "")), (drop_S plan c i P) by done. apply asked_next; [| done].
    by split.
  - cbn. done.
  - cbn. rewrite !bool_decide_true by done. cbn. split_and!; try done; [by left |].
    by apply (looked_up_more peer tr []); [apply list_subseteq_nil |].
Qed.

(** The acknowledgement of the command in flight. *)
Lemma dispatches_acknowledged n i p f tr : is_ack f = true -> f_OperationId _ f = p -> p <> "" ->
  dispatches n (S i) "" tr -> dispatches n i p (occurred HSelect (WakeInput (Some f)) :: tr).
Proof.
  intros A E P [N O F L]. split; try done.
  - rewrite (bool_decide_false (p = "")) by done. exact O.
  - cbn. rewrite A, bool_decide_true by done. exact F.
Qed.

(** A frame that settles nothing. *)
Lemma dispatches_input n i p f tr : is_ack f && (f_OperationId _ f == p) = false \/ p = "" ->
  dispatches n i p tr -> dispatches n i p (occurred HSelect (WakeInput (Some f)) :: tr).
Proof.
  intros A [N O F L]. split; try done. cbn. destruct (is_ack f); [| exact F].
  destruct (bool_decide_reflect (f_OperationId _ f = p)) as [E | E]; [| exact F].
  destruct A as [A | ->]; [| exact F]. cbn in A. discriminate A.
Qed.

Lemma dispatches_skip n i tr : dispatches n (S i) "" tr -> dispatches n i "" tr.
Proof.
  intros [N O F L]. split; try done. rewrite bool_decide_true in * by done. eapply asked_fewer; [| exact O].
  destruct (plan !! i) as [c |] eqn:P; [rewrite (drop_S plan c i P); by apply sublist_cons |].
  apply lookup_ge_None in P. rewrite (drop_ge plan (S i)) by lia. apply sublist_nil_l.
Qed.

(** A lookup adds what is known. *)
Lemma dispatches_lookup n i p e tr : sent e = None -> acknowledged e = None ->
  dispatches n i p tr -> dispatches n i p (e :: tr).
Proof.
  intros S A [N O F L]. assert (D : dispatched e = None) by (unfold dispatched; by rewrite S).
  split; cbn [numbered one_in_flight looked_up]; rewrite ?S, ?D, ?A; try done.
  - by rewrite commands_none.
  - split; [done |]. by apply (looked_up_more peer tr []); [apply list_subseteq_nil |].
Qed.

Lemma dispatches_exit n i p e : sent e = None -> acknowledged e = None -> dispatches n i p [e].
Proof. intros S A. apply dispatches_lookup; [done | done | apply dispatches_nil]. Qed.

Definition turn_ok (fuel : nat) : Prop := forall n i p tr r, (p <> "" -> is_Some (plan !! i)) ->
  runs (serve_loop peer welcome deadline plan fuel n i p) tr r -> dispatches n i p tr.

(** The turn that sends a command. *)
Lemma tick_command fuel n i c tr r : turn_ok fuel -> plan !! i = Some c ->
  runs (do! sent <- trigger HNow;
        let f := command_frame c sent in
        do! now <- trigger HNow;
        if negb (is_ok (Command now (Some f) (ConfigurationDigest c))) then Ret (Some ErrSession)
        else do! r <- send welcome deadline n f;
             match snd r with
             | Some _ => Ret (Some ErrSession)
             | None => serve_loop peer welcome deadline plan fuel (fst r) i (OperationID c)
             end) tr r ->
  dispatches n i ""
    (occurred (HOutcome (ITenantID peer) (ISandboxID peer) (OperationID c) (command_digest c)) Missing :: tr).
Proof.
  intros IH P H. cbn [pbind trigger runs] in H. destruct H as (t & t2 & -> & x & t3 & -> & H).
  destruct (negb _) eqn:K in H.
  { destruct H as [-> _]. do 3 (apply dispatches_lookup; [done | done |]). apply dispatches_nil. }
  apply negb_false_iff, Command_operation in K. cbn [command_frame frame f_OperationId] in K.
  apply runs_bind in H as (u1 & u2 & y & -> & H & R). apply send_runs in H as [(m & s & ok & -> & ->) | [-> ->]]; cbn [fst snd] in R.
  - cbn [app]. apply dispatches_command; [done | done |]. destruct ok; cbn [negb] in R.
    + by eapply IH; [| exact R].
    + destruct R as [-> _]. apply dispatches_nil.
  - destruct R as [-> _]. cbn [app]. do 4 (apply dispatches_lookup; [done | done |]). apply dispatches_nil.
Qed.

(** The turn that takes a frame which is no rotation. *)
Lemma input_turn fuel n i p f tr r : turn_ok fuel -> (p <> "" -> is_Some (plan !! i)) ->
  runs (let mine := (f_OperationId _ f != "") && (f_OperationId _ f == p) in
        if mine && is_failure f then Ret (Some ErrSession)
        else
          let settled := mine && is_ack f in
          let pending := if settled then "" else p in
          let index := if settled then S i else i in
          if negb (is_report f) then serve_loop peer welcome deadline plan fuel n index pending
          else do! ok <- trigger (HObserve f);
               if negb ok then Ret (Some ErrSession)
               else do! r <- send welcome deadline n (acknowledgement f);
                    match snd r with
                    | Some _ => Ret (Some ErrSession)
                    | None => serve_loop peer welcome deadline plan fuel (fst r) index pending
                    end) tr r ->
  dispatches n i p (occurred HSelect (WakeInput (Some f)) :: tr).
Proof.
  intros IH Pi H. cbn zeta in H. set (mine := (f_OperationId _ f != "") && (f_OperationId _ f == p)) in *.
  assert (Q : forall k tr, dispatches k (if mine && is_ack f then S i else i) (if mine && is_ack f then "" else p) tr ->
              k = n -> dispatches n i p (occurred HSelect (WakeInput (Some f)) :: tr)).
  { intros k u D ->. destruct (mine && is_ack f) eqn:M.
    - subst mine. simp_bool. by apply dispatches_acknowledged.
    - apply dispatches_input; [| done]. subst mine. destruct (bool_decide_reflect (f_OperationId _ f = p)) as [E | E];
        [| left; apply andb_false_r]. destruct (decide (p = "")) as [Z0 | Z0]; [by right | left].
      rewrite E, (bool_decide_false (p = "")) in M by done. cbn in M. by rewrite M. }
  destruct (mine && is_failure f) eqn:Fl.
  { destruct H as [-> _]. apply (Q n); [| done]. destruct (mine && is_ack f); apply dispatches_nil. }
  assert (Ni : (if mine && is_ack f then "" else p) <> "" -> is_Some (plan !! (if mine && is_ack f then S i else i)))
    by (by destruct (mine && is_ack f)).
  destruct (negb (is_report f)); [by apply (Q n); [eapply IH |] |].
  cbn [pbind trigger runs] in H. destruct H as (ok & t & -> & H). apply (Q n); [| done]. apply dispatches_quiet; try done.
  destruct (negb ok); [destruct H as [-> _]; apply dispatches_nil |].
  apply runs_bind in H as (u1 & u2 & y & -> & H & R).
  apply (dispatches_send _ _ _ (acknowledgement f) _ y); [done | done |].
  destruct (snd y); [destruct R as [-> _]; apply dispatches_nil | by eapply IH].
Qed.

(** Every run of the loop. *)
Lemma serve_loop_dispatches fuel : turn_ok fuel.
Proof.
  induction fuel as [| fuel IH]; intros n i p tr r Pi H; cbn [serve_loop] in H.
  { destruct H as [-> _]. apply dispatches_nil. }
  cbn [pbind trigger runs] in H. destruct H as (w & t & -> & H). destruct w as [| | | [f |]].
  - destruct H as [-> _]. by apply dispatches_exit.
  - destruct H as [-> _]. by apply dispatches_exit.
  - apply dispatches_quiet; try done. destruct (bool_decide_reflect (p = "")) as [-> | Np]; [| by eapply IH].
    destruct (plan !! i) as [c |] eqn:Pc; [| by eapply IH].
    cbn [pbind trigger runs] in H. destruct H as (o & t2 & -> & H). destruct o as [[] | |].
    + apply dispatches_quiet; try done. apply dispatches_skip. by eapply IH.
    + destruct H as [-> _]. by apply dispatches_exit.
    + by eapply tick_command.
    + destruct H as [-> _]. by apply dispatches_exit.
  - destruct (f_Body _ f) as [[] |] eqn:Bf; try (by eapply input_turn).
    apply dispatches_input.
    { left. unfold is_ack. by rewrite Bf. }
    destruct (negb _) in H; [destruct H as [-> _]; apply dispatches_nil |].
    cbn [pbind trigger runs] in H. destruct H as (reply & t2 & -> & H). apply dispatches_quiet; try done.
    destruct reply as [reply |]; [| destruct H as [-> _]; apply dispatches_nil].
    apply runs_bind in H as (u1 & u2 & y & -> & H & R).
    apply (dispatches_send _ _ _ (frame "" "" "" 0 0 (BRotation reply)) _ y); [done | done |].
    destruct (snd y); [destruct R as [-> _]; apply dispatches_nil |].
    cbn [pbind trigger runs] in R. destruct R as (? & t3 & -> & -> & _). by apply dispatches_exit.
  - destruct H as [-> _]. by apply dispatches_exit.
Qed.
End Runs.

(** A silent call at the end. *)
Lemma dispatches_last peer welcome deadline plan e : sent e = None -> acknowledged e = None -> unknown peer e = None -> forall tr n i p,
  dispatches peer welcome deadline plan n i p tr -> dispatches peer welcome deadline plan n i p (tr ++ [e]).
Proof.
  intros S A U tr n i p [N O F L]. assert (D : dispatched e = None) by (unfold dispatched; by rewrite S). split.
  - clear - N S. revert n N. induction tr as [| x tr IH]; intros n N; cbn; [by rewrite S |]. cbn [numbered] in N.
    destruct (sent x); [| by apply IH]. destruct N as (? & ? & ? & ? & ? & N). split_and!; try done. by apply IH.
  - unfold commands in *. rewrite omap_app. cbn [omap list_omap]. by rewrite S, app_nil_r.
  - clear - F D A. revert p F. induction tr as [| x tr IH]; intros p F; cbn; [by rewrite D, A |]. cbn [one_in_flight] in F.
    destruct (dispatched x) as [[op d] |]; [destruct F as (? & ? & F); split_and!; try done; by apply IH |].
    destruct (acknowledged x); by apply IH.
  - clear - L D U. revert L. generalize (@nil (string * string)). induction tr as [| x tr IH]; intros seen L; cbn; [by rewrite D |].
    cbn [looked_up] in L. destruct L as [L1 L2]. split; [done | by apply IH].
Qed.

(** C23: Serving an agent.  In every run of [Serve], at every point of it: the frames that are
    sent carry consecutive numbers from one, the connection, epoch and binding of the
    session, and a deadline within the session's; the frames with a command among them
    ask, in the order of the operator's plan, for some of its commands, no entry of the plan
    twice: operation, harness handle, request digest, kind, configuration, schema, payload,
    version and deadline are those of the entry; a command is sent only when no other
    command awaits its acknowledgement, and only after the outcome store, asked about the
    sandbox of the authenticated peer, reported its operation with its digest as unknown;
    and when [Serve] returns it has closed the session. *)
Theorem serve_dispatches peer welcome deadline fuel tr r (H : runs (Serve peer welcome (Some deadline) fuel) tr r) :
  exists plan rest, tr = occurred HPlan plan :: rest
    /\ numbered welcome deadline 0 rest
    /\ asked welcome deadline (default [] plan) (commands rest)
    /\ one_in_flight "" rest
    /\ looked_up peer [] rest
    /\ (r <> None -> last tr = Some (occurred HClose tt)).
Proof.
  unfold Serve in H. apply runs_bind in H as (t1 & t2 & x & -> & H & K).
  cbn [pbind trigger runs] in H. destruct H as (plan & t & -> & H). exists plan, (t ++ t2).
  assert (D : dispatches peer welcome deadline (default [] plan) 0 0 "" t).
  { destruct plan as [plan |]; [| destruct H as [-> _]; apply dispatches_nil].
    destruct (_ || _) in H; [destruct H as [-> _]; apply dispatches_nil |].
    by apply (serve_loop_dispatches peer welcome deadline plan fuel 0 0%nat "" t x). }
  assert (E : dispatches peer welcome deadline (default [] plan) 0 0 "" (t ++ t2)
              /\ (r <> None -> last (occurred HPlan plan :: t ++ t2) = Some (occurred HClose tt))).
  { destruct x as [e |]; cbn [pbind trigger runs] in K.
    - destruct K as ([] & t3 & -> & -> & ->). split; [by apply dispatches_last |]. intros _.
      by rewrite app_comm_cons, last_snoc.
    - destruct K as [-> ->]. rewrite app_nil_r. by split. }
  destruct E as [[N O F L] C]. split; [done |]. split_and!; try done.
Qed.

(** ** Witness *)

Definition ex_plan : list PlanCommand := [mkPlanCommand id1 digest_a id2 START "" 9000].

Definition ex_agent_welcome : Welcome := mkWelcome 1 0 None "" id4 7 [] None "" digest_a "codex" digest_b "".

Definition ex_start : PlanCommand := mkPlanCommand id1 digest_a id2 START "" 9000.

(** The plan that was read. *)
Definition planned (e : event hport) : option (option (list PlanCommand)) :=
  match projT2 e with
  | (c, b) => match c in hport B return B -> option (option (list PlanCommand)) with HPlan => Some | _ => fun _ => None end b
  end.

(** What START of the plan looks like on the wire. *)
Definition ex_start_frame : Frame :=
  mkEnvelope Body 1 0 id4 7 id3 1 None id2 id1
    "sha256:3da4aeb3393f87fc04b07f42a037760b18a69e903ecd565ed90e37ebe06736c4" 1002 8000
    (Some (BCommand (mkCommandBody START digest_a Capability "" ""))) "".

Lemma ex_start_frame_stamped : stamped ex_agent_welcome 8000 (command_frame ex_start 1000) id3 1 1002 = ex_start_frame.
Proof. vm_compute. reflexivity. Qed.

Definition ex_served : list (event hport) :=
  [occurred HPlan (Some ex_plan); occurred HSelect WakeTick;
   occurred (HOutcome id1 id2 id1 (command_digest ex_start)) Missing; occurred HNow 1000; occurred HNow 1001;
   occurred HNewID (Some id3); occurred HNow 1002;
   occurred (HSend ex_start_frame) true;
   occurred HSelect WakeContext; occurred HClose tt].

Lemma ex_start_valid : is_ok (Command 1001 (Some (command_frame ex_start 1000)) digest_a) = true.
Proof. vm_compute. reflexivity. Qed.

Lemma ex_served_run : runs (Serve (mkIdentity id1 id2 id3) ex_agent_welcome (Some 8000) 2) ex_served (Some Stopped).
Proof.
  unfold Serve, ex_served. apply runs_bind. eexists (take 9 ex_served), [occurred HClose tt], (Some Stopped).
  split; [reflexivity |]. split; [| by eexists _, _].
  eexists _, _. split; [reflexivity |]. cbn [pbind]. change (_ || _) with false. cbn iota. cbn [serve_loop pbind trigger runs].
  eexists _, _. split; [reflexivity |]. cbn [bool_decide]. reduce_decide. cbn [ex_plan lookup list_lookup].
  eexists _, _. split; [reflexivity |]. cbn [pbind trigger runs]. eexists _, _. split; [reflexivity |]. cbn [pbind trigger runs].
  eexists _, _. split; [reflexivity |]. cbn [ConfigurationDigest]. fold ex_start. rewrite ex_start_valid. cbn [negb].
  apply runs_bind. eexists (take 3 (drop 5 ex_served)), [occurred HSelect WakeContext], (1, None). split; [reflexivity |]. split.
  - unfold send, ex_served. cbn [take drop]. change (u64 (0 + 1)) with 1. rewrite <- ex_start_frame_stamped. cbn [pbind trigger runs]. do 3 (eexists _, _; split; [reflexivity |]; cbn [pbind trigger runs]). done.
  - cbn [snd fst runs]. by eexists _, _.
Qed.

(** The frame above is the one of the plan's only entry. *)
Lemma serve_dispatches_witness : exists c, [c] `sublist_of` ex_plan /\ asks_for ex_agent_welcome 8000 c ex_start_frame.
Proof.
  destruct (serve_dispatches (mkIdentity id1 id2 id3) ex_agent_welcome 8000 2 ex_served (Some Stopped) ex_served_run)
    as (plan & rest & E & _ & (cs & C & F) & _).
  pose proof (f_equal (fun l => hd_error l ≫= planned) E) as P. pose proof (f_equal (fun l => commands (tl l)) E) as R.
  cbn in P. injection P as <-. cbn [tl] in R. rewrite <- R in F. change (commands _) with [ex_start_frame] in F. apply Forall2_cons_inv_r in F as (c & cs' & A & F & ->).
  apply Forall2_nil_inv_r in F as ->. by exists c.
Defined.
