(* ===== verification/AgentdReconnect.v ===== *)
(** * internal/app/agentd/reconnect.go: keeping the agent connected

    [runConnections] with the bootstrap material that it owns ([TransportBootstrap] of
    credentials.go) and the acceptance of a Welcome ([Connected] of rotation.go).
    Certificates are parsed and verified by parameters and calls; [Serve] may install a
    rotated certificate.  [fuel] is the number of connection attempts that are observed;
    a loop that has used it up is still running and has no outcome.

    Proved, at every moment of every run: the one-time proof of a bootstrap is presented
    at most once and never replayed; local work has been stopped before every further
    attempt; at most eight attempts in a row fail to hold a connection, with pauses of at
    most five seconds; material is recovered at most once; and the connection epochs that
    are served on the same material grow. *)

From Stdlib Require Import ZArith Bool Lia.
From stdpp Require Import base strings list.
From S2P Require Import Prelude GoStd Primitives Interaction Handshake.

Inductive AgentdError : Type := ErrConfig | ErrProcess | ErrTransport.

Definition second : Z := 1000000000.

Section Reconnect.

(** The configuration of the agent, what of it has to stay the same over a recovery, and
    the expiry that [x509.ParseCertificate] reads from a certificate. *)
Variable Config : Type.
Variable sameStartupConfig : Config -> Config -> bool.
Variable leaf_expiry : string -> option Z.

Record TransportBootstrap : Type := mkBootstrap {
  config : Config;
  connectionID : string;
  connectionEpoch : Z;
  sessionCredential : bool;
  certificate : list string;
  roots : bool;
  domain : string;
  proof : string;
  challenge : string
}.

Definition with_proof (b : TransportBootstrap) (p : string) : TransportBootstrap :=
  mkBootstrap (config b) (connectionID b) (connectionEpoch b) (sessionCredential b) (certificate b) (roots b) (domain b) p
    (challenge b).

(** What [Connected] reads of an established session: whether its context is alive, whether
    its binding is the configured one, and its Welcome. *)
Record Established : Type := mkEstablished { alive : bool; bound : bool; s_welcome : Welcome }.

Inductive cport : Type -> Type :=
| CCtxErr : cport bool
| CNow : cport Z
| Disconnected : cport bool
| AwaitExpiry (wait : Z) : cport bool
| Recovery : cport (option TransportBootstrap)
| ValidateIdentity (b : TransportBootstrap) : cport bool
| Connect (presented : string) : cport (option Established)
| ServeSession (epoch : Z) : cport (option (list string))
| HeldSecond : cport bool
| CloseStream : cport unit
| Rand (n : Z) : cport Z
| Pause (delay : Z) : cport bool
| Destroy : cport unit.

(** [ClientConfig]: only the conditions; the rest is copied into the call of [Connect]. *)
Definition ClientConfig (b : TransportBootstrap) : prog cport bool :=
  if negb (roots b) || (negb (len (proof b) =? 0) && negb (len (proof b) =? 32)) then Ret false
  else trigger (ValidateIdentity b).

(** [Connected] of rotation.go *)
Definition Connected (b : TransportBootstrap) (s : Established) : option TransportBootstrap :=
  if negb (alive s) || negb (bound s) || (ConnectionEpoch (s_welcome s) <=? connectionEpoch b) then None
  else Some (mkBootstrap (config b) (ConnectionId (s_welcome s)) (ConnectionEpoch (s_welcome s)) (sessionCredential b)
               (certificate b) (roots b) (domain b) "" (challenge b)).

(** The bootstrap after [Serve], which may have installed a rotated certificate. *)
Definition installed (b : TransportBootstrap) (pair : option (list string)) : TransportBootstrap :=
  match pair with
  | Some c => mkBootstrap (config b) (connectionID b) (connectionEpoch b) true c (roots b) (domain b) "" (challenge b)
  | None => b
  end.

Definition leaf (b : TransportBootstrap) : string := default "" (head (certificate b)).

(** The outcome of a part of the loop: stop with an error or not, or go on. *)
Inductive Turn (A : Type) : Type := Stop (e : option AgentdError) | Go (a : A).
Arguments Stop {A} e.
Arguments Go {A} a.

(** The recovery of expired material; [hook] tells whether there is a [Recovery]. *)
Definition renew (hook recovered : bool) (b : TransportBootstrap) (expiry : Z)
  : prog cport (Turn (TransportBootstrap * bool)) :=
  do! now <- trigger CNow;
  if negb (expiry - now <=? 5 * second) then Ret (Go (b, recovered))
  else
    do! stopped <- trigger Disconnected;
    if negb stopped then Ret (Stop (Some ErrProcess))
    else if recovered || negb hook then Ret (Stop (Some ErrConfig))
    else
      do! now <- trigger CNow;
      do! waited <- (if 0 <? expiry - now then trigger (AwaitExpiry (expiry - now)) else Ret true);
      if negb waited then Ret (Stop None)
      else
        do! next <- trigger Recovery;
        match next with
        | None => Ret (Stop (Some ErrConfig))
        | Some next =>
            if negb (sameStartupConfig (config b) (config next)) || negb (len (proof next) =? 32)
            then Ret (Stop (Some ErrConfig))
            else
              do! ok <- ClientConfig next;
              if negb ok then Ret (Stop (Some ErrConfig)) else Ret (Go (next, true))
        end.

(** One attempt: connect and, when it succeeds, serve.  The result is the bootstrap after
    it and whether the count of failures starts again. *)
Definition attempt (b : TransportBootstrap) : prog cport (Turn (TransportBootstrap * bool)) :=
  do! s <- trigger (Connect (proof b));
  let b := with_proof b "" in
  match s with
  | None => Ret (Go (b, false))
  | Some s =>
      match (if existsb (fun c => c == "rotation.v1") (Capabilities (s_welcome s)) then Connected b s else None) with
      | None => do! _ <- trigger CloseStream; Ret (Stop (Some ErrConfig))
      | Some b =>
          do! rotated <- trigger (ServeSession (connectionEpoch b));
          do! _ <- trigger CloseStream;
          let b' := installed b rotated in
          do! held <- trigger HeldSecond;
          Ret (Go (b', held || (leaf b' != leaf b)))
      end
  end.

(** [min(100ms << (failures-1), 5s)], halved and filled up at random. *)
Definition backoff (failures : Z) : Z := Z.min (Z.shiftl 100000000 (failures - 1)) (5 * second).

Fixpoint connections (fuel : nat) (hook recovered : bool) (failures : Z) (b : TransportBootstrap)
  : prog cport (option (option AgentdError)) :=
  match fuel with
  | O => Ret None
  | S fuel =>
      do! cancelled <- trigger CCtxErr;
      if negb (negb cancelled) then Ret (Some None)
      else match leaf_expiry (leaf b) with
      | None => Ret (Some (Some ErrConfig))
      | Some expiry =>
          do! r <- renew hook recovered b expiry;
          match r with
          | Stop e => Ret (Some e)
          | Go (b, recovered) =>
              do! ok <- ClientConfig b;
              if negb ok then Ret (Some (Some ErrConfig))
              else
                do! a <- attempt b;
                match a with
                | Stop e => Ret (Some e)
                | Go (b, reset) =>
                    let failures := if reset then 0 else failures in
                    do! stopped <- trigger Disconnected;
                    if negb stopped then Ret (Some (Some ErrProcess))
                    else
                      do! cancelled <- trigger CCtxErr;
                      if negb (negb cancelled) then Ret (Some None)
                      else
                        let failures := failures + 1 in
                        if 8 <=? failures then Ret (Some (Some ErrTransport))
                        else
                          let delay := backoff failures in
                          do! extra <- trigger (Rand (delay / 2 + 1));
                          do! slept <- trigger (Pause (delay / 2 + extra));
                          if negb slept then Ret (Some None)
                          else connections fuel hook recovered failures b
                end
          end
      end
  end.

(** [runConnections] for a context with a deadline; [wired] when the hooks are present. *)
Definition runConnections (fuel : nat) (wired finite hook : bool) (b : TransportBootstrap)
  : prog cport (option (option AgentdError)) :=
  if match certificate b with [] => true | _ => false end || negb wired || negb finite then Ret (Some (Some ErrConfig))
  else
    do! r <- connections fuel hook false 0 b;
    match r with
    | None => Ret None
    | Some e => do! _ <- trigger Destroy; Ret (Some e)
    end.

(** ** What a run may do

    An observer of the calls knows the proof that has not been presented yet, whether
    local work is stopped, the last epoch of the current material, the attempts since a
    connection was held or rotated, whether material was recovered, and whether the last
    random number was in its range. *)

Record Watch : Type := mkWatch {
  w_proof : string;
  w_idle : bool;
  w_epoch : Z;
  w_count : Z;
  w_recovered : bool;
  w_fair : bool
}.

(** What the observer demands of a call and what it knows afterwards. *)
Definition watch (st : Watch) (e : event cport) : Prop * Watch :=
  match projT2 e with
  | (c, a) =>
      match c in cport B return B -> Prop * Watch with
      | Connect q => fun _ =>
          (q = w_proof st /\ w_idle st = true /\ w_count st < 8,
           mkWatch "" false (w_epoch st) (w_count st + 1) (w_recovered st) (w_fair st))
      | Disconnected => fun ok =>
          (True, mkWatch (w_proof st) ok (w_epoch st) (w_count st) (w_recovered st) (w_fair st))
      | Recovery => fun next =>
          (w_recovered st = false,
           match next with
           | Some b => mkWatch (proof b) (w_idle st) (connectionEpoch b) (w_count st) true (w_fair st)
           | None => mkWatch (w_proof st) (w_idle st) (w_epoch st) (w_count st) true (w_fair st)
           end)
      | ServeSession m => fun rotated =>
          (w_epoch st < m,
           mkWatch (w_proof st) (w_idle st) m (match rotated with Some _ => 1 | None => w_count st end) (w_recovered st) (w_fair st))
      | HeldSecond => fun held =>
          (True, mkWatch (w_proof st) (w_idle st) (w_epoch st) (if held then 1 else w_count st) (w_recovered st) (w_fair st))
      | Rand n => fun x =>
          (True, mkWatch (w_proof st) (w_idle st) (w_epoch st) (w_count st) (w_recovered st) ((0 <=? x) && (x <? n)))
      | Pause d => fun _ => (w_fair st = true -> 0 < d <= 5 * second, st)
      | _ => fun _ => (True, st)
      end a
  end.

Fixpoint disciplined (st : Watch) (tr : list (event cport)) : Prop :=
  match tr with
  | [] => True
  | e :: tr => fst (watch st e) /\ disciplined (snd (watch st e)) tr
  end.

Definition after (st : Watch) (tr : list (event cport)) : Watch := fold_left (fun st e => snd (watch st e)) tr st.

Lemma after_app st t1 t2 : after st (t1 ++ t2) = after (after st t1) t2.
Proof. unfold after. apply fold_left_app. Qed.

Lemma after_cons st e tr : after st (e :: tr) = after (snd (watch st e)) tr.
Proof. done. Qed.

Lemma disciplined_app t1 t2 : forall st, disciplined st (t1 ++ t2) <-> disciplined st t1 /\ disciplined (after st t1) t2.
Proof. induction t1 as [| e t1 IH]; intros st; cbn; [tauto |]. rewrite IH. tauto. Qed.

(** The observer and the loop agree. *)
Definition agrees (st : Watch) (b : TransportBootstrap) (recovered : bool) (failures : Z) : Prop :=
  w_proof st = proof b /\ w_epoch st = connectionEpoch b /\ w_recovered st = recovered /\ w_idle st = true
  /\ 0 <= w_count st <= failures.

Ltac observe := repeat rewrite after_cons; cbn [disciplined watch projT2 occurred fst snd w_proof w_idle w_epoch w_count w_recovered w_fair].

Lemma client_config_quiet b tr ok : runs (ClientConfig b) tr ok -> forall st, disciplined st tr /\ after st tr = st.
Proof.
  unfold ClientConfig. destruct (_ || _); intros H st; cbn [runs trigger] in H; [by destruct H as [-> _] |].
  destruct H as (a & t & -> & -> & _). done.
Qed.

Lemma wait_quiet (x : Z) tr w :
  runs (if 0 <? x then trigger (AwaitExpiry x) else Ret true) tr w -> forall st, disciplined st tr /\ after st tr = st.
Proof.
  intros H st. destruct (_ <? _) in H; cbn [trigger runs] in H; [by destruct H as (? & ? & -> & -> & _) | by destruct H as [-> _]].
Qed.

Lemma renew_disciplined hook recovered b expiry failures tr x st :
  runs (renew hook recovered b expiry) tr x -> agrees st b recovered failures ->
  disciplined st tr
  /\ match x with Go (b', r') => agrees (after st tr) b' r' failures | Stop _ => True end.
Proof.
  intros H (A1 & A2 & A3 & A4 & A5). unfold renew in H. cbn [pbind trigger runs] in H. destruct H as (now & t & -> & H).
  destruct (negb _) in H; [by destruct H as [-> ->] |].
  cbn [pbind trigger runs] in H. destruct H as (stopped & t1 & -> & H).
  destruct (negb stopped) eqn:S in H; [by destruct H as [-> ->] |]. apply negb_false_iff in S. subst stopped.
  destruct (recovered || negb hook) eqn:R in H; [by destruct H as [-> ->] |]. apply orb_false_iff in R as [-> _].
  cbn [pbind trigger runs] in H. destruct H as (now2 & t2 & -> & H). apply runs_bind in H as (u1 & u2 & w & -> & W & H).
  pose proof (wait_quiet _ _ _ W) as Q. observe. rewrite disciplined_app, after_app.
  rewrite (proj2 (Q _)). destruct (negb w) in H; [destruct H as [-> ->]; split; [split_and!; try done; apply Q | done] |].
  cbn [pbind trigger runs] in H. destruct H as (next & t3 & -> & H). observe.
  destruct next as [next |]; [| destruct H as [-> ->]; split; [split_and!; try done; apply Q | done]].
  destruct (_ || _) in H; [destruct H as [-> ->]; split; [split_and!; try done; apply Q | done] |].
  apply runs_bind in H as (v1 & v2 & ok & -> & C & H). pose proof (client_config_quiet _ _ _ C) as D.
  rewrite disciplined_app, after_app, !(proj2 (D _)).
  destruct (negb ok); destruct H as [-> ->]; (split; [split_and!; try done; (apply Q || apply D) | done]).
Qed.

Lemma connected_epoch b s b' :
  Connected b s = Some b' ->
  connectionEpoch b < connectionEpoch b' /\ proof b' = "".
Proof. unfold Connected. destruct (_ || _) eqn:E; [done |]. simp_bool. intros [= <-]. cbn. split; [lia | done]. Qed.

Lemma attempt_disciplined b recovered failures tr x st :
  runs (attempt b) tr x -> agrees st b recovered failures -> failures < 8 ->
  disciplined st tr
  /\ match x with
     | Go (b', reset) => w_proof (after st tr) = proof b' /\ w_epoch (after st tr) = connectionEpoch b'
         /\ w_recovered (after st tr) = recovered /\ 0 <= w_count (after st tr) <= (if reset : bool then 1 else failures + 1)
     | Stop _ => True
     end.
Proof.
  intros H (A1 & A2 & A3 & A4 & A5) L. unfold attempt in H. cbn [pbind trigger runs] in H. destruct H as (s & t & -> & H). observe.
  destruct s as [s |]; [| destruct H as [-> ->]; cbn; split_and!; try done; lia].
  destruct (if existsb _ _ then _ else None) as [b1 |] eqn:E in H.
  2: { cbn [pbind trigger runs] in H. destruct H as (? & t1 & -> & -> & ->). cbn. split_and!; try done; lia. }
  destruct (existsb _ _); [| done]. apply connected_epoch in E as [E1 E2].
  change (connectionEpoch (with_proof b "")) with (connectionEpoch b) in E1.
  cbn [pbind trigger runs] in H. destruct H as (rot & t1 & -> & ? & t2 & -> & held & t3 & -> & -> & ->). observe.
  split; [split_and!; try done; lia |]. unfold installed, after, fold_left.
  destruct rot as [c |]; [| rewrite bool_decide_eq_true_2, orb_false_r by done]; cbn.
  - split_and!; try done; destruct held; cbn; try (destruct (_ != _)); lia.
  - split_and!; try done; destruct held; lia.
Qed.

(** The pauses of a count below eight. *)
Lemma backoff_bounds f : 1 <= f <= 7 -> 2 <= backoff f <= 5 * second.
Proof.
  intros H. unfold backoff, second. assert (f = 1 \/ f = 2 \/ f = 3 \/ f = 4 \/ f = 5 \/ f = 6 \/ f = 7) as C by lia.
  repeat destruct C as [-> | C]; [vm_compute; split; discriminate ..|]. subst f. vm_compute. split; discriminate.
Qed.

Lemma pause_bounds f x : 1 <= f <= 7 -> 0 <= x < backoff f / 2 + 1 -> 0 < backoff f / 2 + x <= 5 * second.
Proof.
  intros F X. pose proof (backoff_bounds f F) as B.
  pose proof (Z.div_le_lower_bound (backoff f) 2 1 ltac:(lia) ltac:(lia)).
  pose proof (Z.mul_div_le (backoff f) 2 ltac:(lia)). lia.
Qed.

Lemma connections_disciplined fuel hook : forall recovered failures b tr x st,
  runs (connections fuel hook recovered failures b) tr x -> agrees st b recovered failures -> failures < 8 ->
  disciplined st tr.
Proof.
  induction fuel as [| fuel IH]; intros recovered failures b tr x st H A L; cbn [connections] in H; [by destruct H as [-> _] |].
  cbn [pbind trigger runs] in H. destruct H as (c & t & -> & H). observe. split; [done |].
  destruct (negb _) in H; [by destruct H as [-> _] |]. destruct (leaf_expiry _) as [expiry |]; [| by destruct H as [-> _]].
  apply runs_bind in H as (t1 & t2 & r & -> & H1 & H). eapply renew_disciplined in H1 as [D1 A1]; [| exact A].
  rewrite disciplined_app. split; [done |]. destruct r as [e | [b1 r1]]; [by destruct H as [-> _] |].
  apply runs_bind in H as (t3 & t4 & ok & -> & H2 & H). destruct (client_config_quiet _ _ _ H2 (after st t1)) as [D2 E2].
  rewrite disciplined_app, E2. split; [done |]. destruct (negb ok) in H; [by destruct H as [-> _] |].
  apply runs_bind in H as (t5 & t6 & a & -> & H3 & H). eapply attempt_disciplined in H3 as [D3 A3]; [| exact A1 | exact L].
  rewrite disciplined_app. split; [done |]. destruct a as [e | [b2 reset]]; [by destruct H as [-> _] |].
  destruct A3 as (P1 & P2 & P3 & P4). destruct A1 as (_ & _ & _ & _ & A1). set (st' := after (after st t1) t5) in *. clearbody st'.
  cbn [pbind trigger runs] in H. destruct H as (stopped & t7 & -> & H). observe. split; [done |].
  destruct (negb stopped) eqn:S in H; [by destruct H as [-> _] |]. apply negb_false_iff in S. subst stopped.
  cbn [pbind trigger runs] in H. destruct H as (c2 & t8 & -> & H). observe. split; [done |].
  destruct (negb _) in H; [by destruct H as [-> _] |]. destruct (8 <=? _) eqn:M in H; [by destruct H as [-> _] |].
  apply Z.leb_gt in M. cbn [pbind trigger runs] in H. destruct H as (x0 & t9 & -> & sl & t10 & -> & H). observe.
  split; [done |]. split.
  - intros F. simp_bool. apply pause_bounds; destruct reset; lia.
  - destruct (negb sl) in H; [by destruct H as [-> _] |]. eapply IH; [exact H | | exact M].
    unfold agrees. cbn. split_and!; try done; destruct reset; lia.
Qed.

(** The observer at the start of a run. *)
Definition fresh (b : TransportBootstrap) : Watch := mkWatch (proof b) true (connectionEpoch b) 0 false true.

(** No call but [Destroy] comes after the material was destroyed: every run that returns
    ends with it, unless the arguments were refused. *)
Definition destroyed (tr : list (event cport)) : Prop := exists t, tr = t ++ [occurred Destroy tt].

(** C26: A run of [runConnections] keeps its discipline: every connection presents the
    proof of the current material once and then none, local work is stopped before every
    further attempt, at most eight attempts in a row fail, every pause is positive and at
    most five seconds, material is recovered at most once, every served session has a
    larger connection epoch than the one before it on the same material, and a run that ends has destroyed the
    material as its last act. *)
Theorem reconnect_disciplined fuel wired finite hook b tr x :
  runs (runConnections fuel wired finite hook b) tr x ->
  disciplined (fresh b) tr
  /\ (x = None \/ (x = Some (Some ErrConfig) /\ tr = []) \/ destroyed tr).
Proof.
  intros H. unfold runConnections in H. destruct (_ || _) in H; [destruct H as [-> ->]; naive_solver |].
  apply runs_bind in H as (t1 & t2 & r & -> & H1 & H). rewrite disciplined_app.
  eapply (connections_disciplined _ _ _ _ _ _ _ (fresh b)) in H1; [| done | done].
  destruct r as [e |]; [| destruct H as [-> ->]; split; [done | by left]].
  cbn [pbind trigger runs] in H. destruct H as ([] & t & -> & -> & ->). split; [done |]. right. right. by eexists.
Qed.

End Reconnect.

(** ** Witness: a refused first handshake, whose proof is not presented again. *)

Definition ex_proof : string := "0123456789abcdef0123456789abcdef".

Definition ex_material : TransportBootstrap unit := mkBootstrap unit tt id1 7 true ["leaf"] true "sandbox" ex_proof "".

Definition ex_expiry (_ : string) : option Z := Some (3600 * second).

Definition ex_spent : TransportBootstrap unit := with_proof unit ex_material "".

Definition ex_reconnects : list (event (cport unit)) :=
  [occurred (CCtxErr unit) false; occurred (CNow unit) 0; occurred (ValidateIdentity unit ex_material) true;
   occurred (Connect unit ex_proof) None; occurred (Disconnected unit) true; occurred (CCtxErr unit) false;
   occurred (Rand unit 50000001) 7; occurred (Pause unit 50000007) true;
   occurred (CCtxErr unit) false; occurred (CNow unit) 50000007; occurred (ValidateIdentity unit ex_spent) true;
   occurred (Connect unit "") None; occurred (Disconnected unit) true; occurred (CCtxErr unit) true;
   occurred (Destroy unit) tt].

Lemma ex_reconnects_run :
  runs (runConnections unit (fun _ _ => true) ex_expiry 2 true true false ex_material) ex_reconnects (Some None).
Proof.
  unfold ex_reconnects. cbn.
  repeat (eexists _, _; split; [reflexivity |]; cbn). done.
Qed.

Lemma reconnect_disciplined_witness :
  disciplined unit (fresh unit ex_material) ex_reconnects
  /\ (Some (@None AgentdError) = None \/ (Some None = Some (Some ErrConfig) /\ ex_reconnects = []) \/ destroyed unit ex_reconnects).
Proof.
  exact (reconnect_disciplined unit (fun _ _ => true) ex_expiry 2 true true false ex_material ex_reconnects (Some None)
           ex_reconnects_run).
Defined.
