(* ===== verification/AgentdConfig.v ===== *)
(** * internal/app/agentd/config.go: the startup configuration of an agent

    [Config] and its validation.  [net/url.Parse] and [net.ParseIP] are parameters, as are
    the protobuf functions of the negotiation that [Validate] runs against itself.

    Proved: a configuration that validates starts a program under the two binary
    directories that is no shell, with bounded arguments and timeouts, and can be
    negotiated. *)

From Stdlib Require Import ZArith Bool Lia Ascii.
From stdpp Require Import base strings list.
From S2P Require Import Prelude Regex GoStd JsonEncode Cursor Primitives Handshake.

Record HarnessConfig : Type := mkHarnessConfig {
  Argv : list string;
  WorkingDirectory : string;
  StartTimeoutMS : Z;
  StopGraceMS : Z;
  KillWaitMS : Z
}.

Record Config : Type := mkConfig {
  ControlDeadlineUnixMS : Z;
  cf_Version : Z;
  Endpoint : string;
  ServerName : string;
  cf_Binding : option Binding;
  cf_BuildDigest : string;
  cf_AdapterKind : string;
  cf_AdapterDigest : string;
  Protocol : option VersionRange;
  cf_Capabilities : list string;
  cf_RequiredCapabilities : list string;
  cf_Limits : option Limits;
  Harness : HarnessConfig
}.

Inductive ConfigError : Type := ErrConfig.

(** The fields of [url.URL] that are read; [Hostname] and [Port] are its methods. *)
Record URL : Type := mkURL {
  Scheme : string;
  User : bool;
  Host : string;
  Path : string;
  RawPath : string;
  RawQuery : string;
  ForceQuery : bool;
  Fragment : string;
  Hostname : string;
  Port : string
}.

Definition dns_byte (b : Z) : bool := ((97 <=? b) && (b <=? 122)) || ((48 <=? b) && (b <=? 57)) || (b =? 45).

Definition dns_part (p : string) : bool :=
  negb ((len p =? 0) || (63 <? len p) || (head (to_bytes p) == Some 45) || (last (to_bytes p) == Some 45))
  && forallb (fun r => dns_byte r) (runes p).

Definition dnsName (s : string) : bool :=
  negb ((len s =? 0) || (253 <? len s)) && forallb dns_part (Split s).

(** [strconv.Atoi] *)
Fixpoint atoi_digits (s : list Z) (acc : Z) : option Z :=
  match s with
  | [] => Some acc
  | b :: rest => if (48 <=? b) && (b <=? 57) then atoi_digits rest (acc * 10 + (b - 48)) else None
  end.

Definition Atoi (s : string) : option Z :=
  let digits (l : list Z) := match l with [] => None | _ => atoi_digits l 0 end in
  let n := match to_bytes s with
           | b :: rest => if b =? 45 then option_map Z.opp (digits rest) else if b =? 43 then digits rest else digits (b :: rest)
           | [] => None
           end in
  match n with
  | Some n => if (- max_int64 - 1 <=? n) && (n <=? max_int64) then Some n else None
  | None => None
  end.

(** [path.Base]: the last element after trailing slashes are stripped. *)
Definition Base (path : string) : string :=
  if path == "" then "."
  else default "/" (last (List.filter (fun x => x != "") (segments path ""))).

Example base_paths : map Base ["/usr/bin/codex"; "/usr/bin/sh/"; "/"; ""; "x"; "//"] = ["codex"; "sh"; "/"; "."; "x"; "/"].
Proof. vm_compute. reflexivity. Qed.

Definition shells : list string :=
  ["sh"; "bash"; "dash"; "ash"; "zsh"; "ksh"; "fish"; "env"; "cmd"; "powershell"; "pwsh"].

Definition argv_ok (argv : list string) : bool :=
  forallb (fun a => negb ((4096 <? len a) || negb (no_byte 0 a && no_byte 13 a && no_byte 10 a))) argv
  && (fold_right (fun a n => len a + n) 0 argv <=? 16384).

Definition harness_ok (hc : HarnessConfig) : bool :=
  match Argv hc with
  | [] => false
  | exe :: _ =>
      negb ((32 <? Z.of_nat (length (Argv hc))) || (WorkingDirectory hc != "/workspace") || (StartTimeoutMS hc =? 0)
            || (60000 <? StartTimeoutMS hc) || (StopGraceMS hc =? 0) || (30000 <? StopGraceMS hc) || (KillWaitMS hc =? 0)
            || (5000 <? KillWaitMS hc))
      && (Clean exe == exe) && (HasPrefix exe "/usr/bin/" || HasPrefix exe "/usr/local/bin/")
      && negb (existsb (fun s => Base exe == s) shells) && argv_ok (Argv hc)
  end.

Section Config.
Variable urlParse : string -> option URL.
Variable parseIP : string -> bool.
Variable Size : Hello -> Z.
Variable BindingEqual : option Binding -> option Binding -> bool.
Variable MarshalWelcome : Welcome -> string.

(** [strings.Contains(endpoint, "#")] is a byte search. *)
Definition endpoint_ok (c : Config) : bool :=
  match urlParse (Endpoint c) with
  | None => false
  | Some u =>
      negb ((Scheme u != "https") || User u || (RawQuery u != "") || ForceQuery u || negb (no_byte 35 (Endpoint c))
            || HasSuffix (Host u) ":" || (Fragment u != "") || (RawPath u != "") || (Path u != "")
            || (Hostname u != ServerName c) || negb (dnsName (ServerName c)) || parseIP (ServerName c))
      && ((Port u == "") || match Atoi (Port u) with Some n => (1 <=? n) && (n <=? 65535) | None => false end)
  end.

Definition nonce : string := of_bytes (repeat 0 32).

Definition self_hello (c : Config) : Hello :=
  mkHello (Protocol c) (cf_Binding c) nonce (cf_BuildDigest c) (cf_AdapterKind c) (cf_AdapterDigest c) (cf_Capabilities c)
    (cf_RequiredCapabilities c) (cf_Limits c) "" "".

Definition self_expected (c : Config) : Expected :=
  mkExpected (cf_Binding c) nonce (cf_BuildDigest c) (cf_AdapterKind c) (cf_AdapterDigest c) (cf_Capabilities c)
    (cf_RequiredCapabilities c) (cf_Limits c).

Definition Validate (c : Config) : result ConfigError unit :=
  if negb (cf_Version c =? 1) || (ControlDeadlineUnixMS c <? 0) then Err ErrConfig
  else if negb (endpoint_ok c) then Err ErrConfig
  else match cf_Binding c with
  | None => Err ErrConfig
  | Some b =>
      if negb (is_ok (Negotiate Size BindingEqual MarshalWelcome (Some (self_hello c)) (self_expected c) (SandboxBindingId b) 1))
      then Err ErrConfig
      else if negb (harness_ok (Harness c)) then Err ErrConfig
      else Ok tt
  end.
End Config.

(** What a validated configuration guarantees: a program of the two binary directories
    that is no shell, arguments of at most 16384 bytes together, and terms that can be
    negotiated. *)
Lemma validated_config urlParse parseIP Size BindingEqual MarshalWelcome c
    (H : Validate urlParse parseIP Size BindingEqual MarshalWelcome c = Ok tt) :
  (exists exe rest, Argv (Harness c) = exe :: rest /\ Clean exe = exe
     /\ (HasPrefix exe "/usr/bin/" = true \/ HasPrefix exe "/usr/local/bin/" = true) /\ Base exe ∉ shells)
  /\ fold_right (fun a n => len a + n) 0 (Argv (Harness c)) <= 16384
  /\ (exists b w, cf_Binding c = Some b
        /\ Negotiate Size BindingEqual MarshalWelcome (Some (self_hello c)) (self_expected c) (SandboxBindingId b) 1 = Ok w).
Proof.
  unfold Validate in H. destruct (_ || _) in H; [done |]. destruct (negb _) in H; [done |].
  destruct (cf_Binding c) as [b |]; [| done]. destruct (Negotiate _ _ _ _ _ _ _) as [w | e] eqn:N in H; [| done].
  cbn [is_ok negb] in H. destruct (negb (harness_ok _)) eqn:K in H; [done |]. apply negb_false_iff in K. unfold harness_ok in K.
  destruct (Argv (Harness c)) as [| exe rest]; [done |]. unfold argv_ok in K. simp_bool. split_and!; [| lia | by exists b, w].
  exists exe, rest. split_and!; try done; [by apply orb_true_iff |]. intros I.
  match goal with S : existsb _ shells = false |- _ => apply not_true_iff_false in S; apply S end.
  apply existsb_exists. exists (Base exe). split; [by apply list_elem_of_In | by apply bool_decide_eq_true_2].
Qed.
