(* ===== verification/AgentdCredentials.v ===== *)
(** * internal/adapters/postgres/agentd_credentials.go: the credential registry

    One tenant's rows of [agentd_credential_state], [agentd_credentials] and
    [agentd_bootstrap_delivery] with their constraints and triggers, and the registry's
    transactions over them: [Version], [Register], [ConsumeBootstrap], [CheckConnection],
    [IsSessionCredential], [CloseConnection] and [Reconnect].  What a transaction reads of
    the sandbox's own tables ([readSandboxBinding], [lockSandboxFence]) is answered by
    [Answers], with what became of the commit: done, refused, or done with its answer lost;
    [clk n] is the database's clock at the [n]th reading of a transaction.

    Proved, for every interleaving of transactions: connection epochs of a sandbox only
    grow; a connection checks only if it is the newest one and was opened with the
    certificate that is presented; closing an older connection changes nothing; a
    bootstrap credential opens one connection ever, against the registered proof; and of
    several registrations under one version at most one is committed. *)

From Stdlib Require Import ZArith Bool Lia.
From stdpp Require Import base strings list gmap sorting.
From S2P Require Import Prelude Regex GoStd Sha256 Primitives Interaction IdempotencyStore RuntimeProfile ComputeReconciliation.
From S2P Require Import Handshake AgentdAdmission.

Definition SandboxBinding : Type := ComputeReconciliation.Binding.

Inductive CredentialError : Type := ErrCredentialState.

(** ** Rows *)

(** The columns of the current connection, which are null together. *)
Record Conn : Type := mkConn { n_id : ID; n_digest : string; n_deadline : Time }.

(** [agentd_credential_state]; an absent digest is the empty string. *)
Record CredState : Type := mkCredState {
  z_attempt : ID;
  z_version : Z;
  z_latest : string;
  z_issued : option Time;
  z_conn : option Conn;
  z_epoch : Z
}.

(** [agentd_credentials] *)
Record Cred : Type := mkCred {
  k_sandbox : ID;
  k_id : ID;
  k_digest : string;
  k_issuer : string;
  k_proof : string;
  k_bootstrap : bool;
  k_notBefore : Time;
  k_expires : Time;
  k_consumed : option Time
}.

(** [agentd_bootstrap_delivery], the columns that the registry writes. *)
Record Delivery : Type := mkDelivery {
  d_credential : ID;
  d_cleanup_requested : bool;
  d_retry_after : Time;
  d_cleaned : bool
}.

Record Tables : Type := mkTables {
  states : gmap ID CredState;
  creds : list Cred;
  deliveries : list Delivery
}.

Definition max_bigint : Z := 9223372036854775807.

Definition minute : Z := 60000000000.

(** The CHECK constraints of [agentd_credentials]. *)
Definition cred_ok (c : Cred) : bool :=
  match_string sha256_pattern (k_digest c) && match_string sha256_pattern (k_issuer c)
  && (if k_bootstrap c then match_string sha256_pattern (k_proof c) else k_proof c == "")
  && After (k_expires c) (k_notBefore c)
  && (nanos (k_expires c) - nanos (k_notBefore c) <=? (if k_bootstrap c then 10 * minute else 15 * minute))
  && match k_consumed c with
     | None => true
     | Some at_ => k_bootstrap c && negb (Before at_ (k_notBefore c)) && Before at_ (k_expires c)
     end.

(** The keys: [(tenant_id, credential_id)] and [(tenant_id, certificate_digest)]. *)
Definition fresh_keys (c : Cred) (l : list Cred) : bool :=
  forallb (fun r => (k_id r != k_id c) && (k_digest r != k_digest c)) l.

Definition find_cred (t : Tables) (x : ID) (d : string) : option Cred :=
  List.find (fun c => (k_sandbox c == x) && (k_digest c == d)) (creds t).

(** ** Transactions *)

(** What a transaction reads of the sandbox's tables: the binding, whether its fence is
    current, the binding under its lock, and whether its state allows work; and what its commit
    did. *)
Record Answers : Type := mkAnswers {
  q_binding : option SandboxBinding;
  q_fence : option bool;
  q_locked : option SandboxBinding;
  q_allowed : option bool;
  q_commit : commit
}.

(** The same with a commit that is done and reported. *)
Definition answering (q : Answers) : Answers :=
  mkAnswers (q_binding q) (q_fence q) (q_locked q) (q_allowed q) CommitDone.

(** The outcome of a transaction that reached its commit. *)
Definition settle {T E A} (c : commit) (e : E) (t : T) (x : T * result E A) : T * result E A :=
  match c with
  | CommitDone => x
  | CommitRefused => (t, Err e)
  | CommitLost => (fst x, Err e)
  end.

(** The checks of [readSandboxBinding]; a row whose request does not decode or does not
    have its digest is answered as none. *)
Definition readSandboxBinding (tenant x : ID) (row : option SandboxBinding) : option SandboxBinding :=
  match row with
  | Some b => if (TenantID (RScope (Request b)) != tenant) || (SandboxID (RScope (Request b)) != x) then None else Some b
  | None => None
  end.

Definition transaction {T A} (q : Answers) (id : Identity) (work : SandboxBinding -> T -> option (T * A)) (t : T)
  : T * result CredentialError A :=
  let refused := (t, Err ErrCredentialState) in
  if negb (forallb (fun v => is_ok (ParseID v)) [ITenantID id; ISandboxID id; IAttemptID id]) then refused
  else match readSandboxBinding (ITenantID id) (ISandboxID id) (q_binding q) with
  | None => refused
  | Some b =>
      if AttemptID (RScope (Request b)) != IAttemptID id then refused
      else match q_fence q, readSandboxBinding (ITenantID id) (ISandboxID id) (q_locked q), q_allowed q with
      | Some true, Some b, Some true =>
          match work b t with
          | Some (t', a) => settle (q_commit q) ErrCredentialState t (t', Ok a)
          | None => refused
          end
      | _, _, _ => refused
      end
  end.

(** [credentialDigest] *)
Definition credentialDigest (v : string) : bool :=
  (len v =? 71) && (String.substring 0 7 v == "sha256:")
  && match hexDecode (String.substring 7 64 v) with
     | Some b => hexEncode b == String.substring 7 64 v
     | None => false
     end.

Definition with_state (t : Tables) (x : ID) (s : CredState) : Tables :=
  mkTables (<[x := s]> (states t)) (creds t) (deliveries t).

Section Registry.
Variable q : Answers.
Variable clk : nat -> Time.

Definition Version (id : Identity) (t : Tables) : Tables * result CredentialError Z :=
  transaction q id (fun _ t =>
    match states t !! ISandboxID id with
    | Some s => Some (t, z_version s)
    | None => Some (with_state t (ISandboxID id) (mkCredState (IAttemptID id) 1 "" None None 0), 1)
    end) t.

Definition checkAgentdConnection (at_ : Time) (p : Peer) (c : Connection) (t : Tables) : bool :=
  match states t !! ISandboxID (PIdentity p) with
  | None => false
  | Some s =>
      match z_conn s with
      | None => false
      | Some k =>
          match find_cred t (ISandboxID (PIdentity p)) (n_digest k) with
          | None => false
          | Some r =>
              (n_id k == CID c) && (z_epoch s =? CEpoch c) && (n_digest k == CertificateDigest p)
              && After (n_deadline k) at_ && TimeEqual (k_expires r) (timestamptz (PExpiresAt p))
              && After (k_expires r) at_
          end
      end
  end.

Definition CheckConnection (p : Peer) (c : Connection) (t : Tables) : Tables * result CredentialError unit :=
  transaction q (PIdentity p) (fun _ t => if checkAgentdConnection (clk 0) p c t then Some (t, tt) else None) t.

(** The checks of [Register] before its transaction. *)
Definition registrable (now : Time) (r : CredentialRequest) (g : CredentialGrant) (c : CredentialRecord) : bool :=
  let ttl := if Bootstrap c then 10 * minute else 15 * minute in
  is_ok (ParseID (CredentialID c))
  && negb ((QIdentity r != GIdentity g) || (QIdentity r != RIdentity c) || (GVersion g =? 0)
           || negb (credentialDigest (RCertificateDigest c)) || negb (credentialDigest (IssuerDigest c))
           || After (NotBefore c) now || negb (After (ExpiresAt c) now)
           || (ttl <? nanos (ExpiresAt c) - nanos (NotBefore c)) || negb (After (ExpiresAt c) (NotBefore c))
           || After (ExpiresAt c) (AuthorityDeadline g) || After (ExpiresAt c) (AttemptDeadline g))
  && (if Bootstrap c
      then negb (negb (QEpoch r =? 0) || (QConnectionID r != "") || (QPeer r != zeroPeer)
                 || negb (credentialDigest (ProofDigest c)) || After (ExpiresAt c) (GBootstrapDeadline g))
      else negb (Recovery r || (PIdentity (QPeer r) != QIdentity r) || (QEpoch r =? 0)
                 || negb (After (PExpiresAt (QPeer r)) now) || (ProofDigest c != ""))).

(** The recovery of an expired credential: the state without its connection, in a new
    epoch. *)
Definition recovered (b : SandboxBinding) (x : ID) (s : CredState) (t : Tables) : option CredState :=
  if (z_latest s == "") || (ProviderReference b == "") then None
  else match find_cred t x (z_latest s) with
  | None => None
  | Some r =>
      if negb (After (k_expires r) (clk 0))
         && match z_conn s with Some k => negb (After (n_deadline k) (clk 0)) | None => true end
         && (z_epoch s <? max_bigint)
      then Some (mkCredState (z_attempt s) (z_version s) (z_latest s) (z_issued s) None (z_epoch s + 1))
      else None
  end.

Definition earlier (a b : Time) : Time := if Before b a then b else a.

(** The state after a renewal: the old connection ends within thirty seconds. *)
Definition draining (at_ : Time) (s : CredState) : CredState :=
  mkCredState (z_attempt s) (z_version s) (z_latest s) (z_issued s)
    (option_map (fun k => mkConn (n_id k) (n_digest k) (earlier (n_deadline k) (Add at_ (30 * 1000000000)))) (z_conn s))
    (z_epoch s).

Definition cred_row (r : CredentialRequest) (c : CredentialRecord) : Cred :=
  mkCred (ISandboxID (QIdentity r)) (CredentialID c) (RCertificateDigest c) (IssuerDigest c) (ProofDigest c) (Bootstrap c)
    (timestamptz (NotBefore c)) (timestamptz (ExpiresAt c)) None.

Definition registration (r : CredentialRequest) (g : CredentialGrant) (c : CredentialRecord) (b : SandboxBinding)
    (t : Tables) : option (Tables * unit) :=
  let x := ISandboxID (QIdentity r) in
  if After (ExpiresAt c) (Deadline (Request b)) then None
  else match states t !! x with
  | None => None
  | Some s =>
      if negb (z_version s =? GVersion g) || (Bootstrap c && negb (Recovery r) && (z_latest s != "")) then None
      else match (if Recovery r then recovered b x s t else Some s) with
      | None => None
      | Some s' =>
          if negb (Bootstrap c)
             && ((z_latest s != CertificateDigest (QPeer r))
                 || negb (checkAgentdConnection (clk 1) (QPeer r) (mkConnection (QConnectionID r) (QEpoch r) zeroTime) t))
          then None
          else
            let row := cred_row r c in
            if negb (After (k_expires row) (clk 2) && cred_ok row && fresh_keys row (creds t) && (z_version s' <? max_bigint))
            then None
            else
              let s'' := if Bootstrap c then s' else draining (clk 3) s' in
              Some (mkTables (<[x := mkCredState (z_attempt s'') (z_version s'' + 1) (RCertificateDigest c) (Some (clk 4))
                                       (z_conn s'') (z_epoch s'')]> (states t))
                      (creds t ++ [row]) (deliveries t), tt)
      end
  end.

Definition Register (now : Time) (r : CredentialRequest) (g : CredentialGrant) (c : CredentialRecord) (t : Tables)
  : Tables * result CredentialError unit :=
  if negb (registrable now r g c) then (t, Err ErrCredentialState)
  else transaction q (QIdentity r) (registration r g c) t.

(** [UPDATE agentd_credentials SET consumed_at]: the constraint and the trigger. *)
Definition consume_row (d : string) (at_ : Time) (c : Cred) : Cred :=
  if k_digest c == d
  then mkCred (k_sandbox c) (k_id c) (k_digest c) (k_issuer c) (k_proof c) (k_bootstrap c) (k_notBefore c) (k_expires c)
         (Some at_)
  else c.

Definition consumes (d : string) (at_ : Time) (l : list Cred) : bool :=
  forallb (fun c => (k_digest c != d) || (negb (is_some (k_consumed c)) && cred_ok (consume_row d at_ c))) l.

(** The cleanup of the delivered bootstrap secret is requested with its consumption. *)
Definition request_cleanup (d : string) (at_ : Time) (l : list Cred) (v : Delivery) : Delivery :=
  if existsb (fun c => (k_digest c == d) && (k_id c == d_credential v)) l && negb (d_cleaned v)
  then mkDelivery (d_credential v) true (earlier (d_retry_after v) at_) (d_cleaned v)
  else v.

(** [UPDATE agentd_credential_state ... RETURNING connection_epoch] *)
Definition opened (at_ : Time) (id : ID) (digest : string) (deadline : Time) (s : CredState) : option CredState :=
  if After (timestamptz deadline) at_ && (z_version s <? max_bigint) && (z_epoch s <? max_bigint)
  then Some (mkCredState (z_attempt s) (z_version s + 1) (z_latest s) (z_issued s)
               (Some (mkConn id digest (timestamptz deadline))) (z_epoch s + 1))
  else None.

Definition consumable (p : Peer) (s : CredState) (c : Cred) : bool :=
  (z_latest s == k_digest c) && k_bootstrap c && negb (is_some (k_consumed c))
  && negb (After (k_notBefore c) (clk 0)) && After (k_expires c) (clk 0)
  && TimeEqual (k_expires c) (timestamptz (PExpiresAt p)) && negb (is_some (z_conn s)).

Definition consumption (p : Peer) (digest : string) (id : ID) (deadline : Time) (b : SandboxBinding) (t : Tables)
  : option (Tables * Connection) :=
  let x := ISandboxID (PIdentity p) in
  if After deadline (Deadline (Request b)) || (ProviderReference b == "") then None
  else match states t !! x, find_cred t x (CertificateDigest p) with
  | Some s, Some c =>
      if negb (consumable p s c) then None
      else if k_proof c != digest then None
      else if negb (consumes (CertificateDigest p) (clk 1) (creds t)) then None
      else match opened (clk 3) id (CertificateDigest p) deadline s with
      | None => None
      | Some s' =>
          Some (mkTables (<[x := s']> (states t)) (map (consume_row (CertificateDigest p) (clk 1)) (creds t))
                  (map (request_cleanup (CertificateDigest p) (clk 2) (creds t)) (deliveries t)),
                mkConnection id (z_epoch s') deadline)
      end
  | _, _ => None
  end.

(** [newID] is the answer of [primitives.NewID]. *)
Definition ConsumeBootstrap (now : Time) (newID : option ID) (p : Peer) (proof : string) (deadline : Time) (t : Tables)
  : Tables * result CredentialError Connection :=
  if negb (len proof =? 32) || negb (credentialDigest (CertificateDigest p)) || negb (After deadline now)
     || After deadline (PExpiresAt p)
  then (t, Err ErrCredentialState)
  else match newID with
  | None => (t, Err ErrCredentialState)
  | Some id => transaction q (PIdentity p) (consumption p (Sha256.Digest proof) id deadline) t
  end.

(** [IsSessionCredential] *)
Definition IsSessionCredential (p : Peer) (t : Tables) : Tables * result CredentialError bool :=
  transaction q (PIdentity p) (fun _ t =>
    match find_cred t (ISandboxID (PIdentity p)) (CertificateDigest p) with
    | Some c => if After (k_expires c) (clk 0) then Some (t, negb (k_bootstrap c)) else None
    | None => None
    end) t.

(** [CloseConnection]: only its tenant is checked. *)
Definition CloseConnection (id : Identity) (c : Connection) (t : Tables) : Tables * result CredentialError unit :=
  if negb (is_ok (ParseID (ITenantID id))) then (t, Err ErrCredentialState)
  else match states t !! ISandboxID id with
  | Some s =>
      if (z_attempt s == IAttemptID id) && (z_epoch s =? CEpoch c)
         && match z_conn s with Some k => n_id k == CID c | None => false end
      then
        if z_version s <? max_bigint
        then settle (q_commit q) ErrCredentialState t
               (with_state t (ISandboxID id)
                  (mkCredState (z_attempt s) (z_version s + 1) (z_latest s) (z_issued s) None (z_epoch s)), Ok tt)
        else (t, Err ErrCredentialState)
      else settle (q_commit q) ErrCredentialState t (t, Ok tt)
  | None => settle (q_commit q) ErrCredentialState t (t, Ok tt)
  end.

Definition reconnectable (p : Peer) (c : Cred) : bool :=
  negb (After (k_notBefore c) (clk 0)) && After (k_expires c) (clk 0)
  && TimeEqual (k_expires c) (timestamptz (PExpiresAt p)) && (negb (k_bootstrap c) || is_some (k_consumed c)).

Definition reconnection (p : Peer) (id : ID) (deadline : Time) (b : SandboxBinding) (t : Tables)
  : option (Tables * Connection) :=
  let x := ISandboxID (PIdentity p) in
  if (ProviderReference b == "") || After deadline (Deadline (Request b)) then None
  else match states t !! x, find_cred t x (CertificateDigest p) with
  | Some s, Some c =>
      if negb ((z_latest s == CertificateDigest p) && reconnectable p c) then None
      else match opened (clk 1) id (CertificateDigest p) deadline s with
      | None => None
      | Some s' => Some (with_state t x s', mkConnection id (z_epoch s') deadline)
      end
  | _, _ => None
  end.

Definition Reconnect (now : Time) (newID : option ID) (p : Peer) (deadline : Time) (t : Tables)
  : Tables * result CredentialError Connection :=
  if negb (credentialDigest (CertificateDigest p)) || negb (After deadline now) || After deadline (PExpiresAt p)
  then (t, Err ErrCredentialState)
  else match newID with
  | None => (t, Err ErrCredentialState)
  | Some id => transaction q (PIdentity p) (reconnection p id deadline) t
  end.
End Registry.

(** ** Histories

    A history is a sequence of transactions with what they committed, reported or not; the
    delivery table is also written by others. *)

Inductive Call : Type :=
| DoVersion (id : Identity)
| DoRegister (now : Time) (r : CredentialRequest) (g : CredentialGrant) (c : CredentialRecord)
| DoConsume (now : Time) (newID : option ID) (p : Peer) (proof : string) (deadline : Time)
| DoReconnect (now : Time) (newID : option ID) (p : Peer) (deadline : Time)
| DoClose (id : Identity) (c : Connection).

(** A connection that was opened: where, which, with which certificate, and against which
    proof when it was a bootstrap; a registration: where and under which version. *)
Record Opening : Type := mkOpening { v_sandbox : ID; v_conn : Connection; v_cert : string; v_proof : option string }.
Record Registration : Type := mkRegistration { g_sandbox : ID; g_version : Z }.

Inductive Entry : Type := Opened (o : Opening) | Registered (g : Registration).

(** The tables after a call and what the call reports. *)
Definition perform (q : Answers) (clk : nat -> Time) (c : Call) (t : Tables) : Tables * list Entry :=
  match c with
  | DoVersion id => (fst (Version q id t), [])
  | DoRegister now r g c =>
      let (t', res) := Register q clk now r g c t in
      (t', match res with Ok _ => [Registered (mkRegistration (ISandboxID (QIdentity r)) (GVersion g))] | Err _ => [] end)
  | DoConsume now newID p proof deadline =>
      let (t', res) := ConsumeBootstrap q clk now newID p proof deadline t in
      (t', match res with
           | Ok c => [Opened (mkOpening (ISandboxID (PIdentity p)) c (CertificateDigest p) (Some proof))]
           | Err _ => []
           end)
  | DoReconnect now newID p deadline =>
      let (t', res) := Reconnect q clk now newID p deadline t in
      (t', match res with
           | Ok c => [Opened (mkOpening (ISandboxID (PIdentity p)) c (CertificateDigest p) None)]
           | Err _ => []
           end)
  | DoClose id c => (fst (CloseConnection q id c t), [])
  end.

(** The tables after a call and what it committed: what it reports, or would have reported
    had the answer to its commit not been lost. *)
Definition run (q : Answers) (clk : nat -> Time) (c : Call) (t : Tables) : Tables * list Entry :=
  (fst (perform q clk c t), if took_effect (q_commit q) then snd (perform (answering q) clk c t) else []).

Inductive history : Tables -> list Entry -> Prop :=
| h_start ds : history (mkTables ∅ [] ds) []
| h_call t log q clk c t' new : history t log -> run q clk c t = (t', new) -> history t' (log ++ new)
| h_delivery t log ds : history t log -> history (mkTables (states t) (creds t) ds) log.

(** The openings and registrations of a sandbox, in order. *)
Definition openings (x : ID) (log : list Entry) : list Opening :=
  omap (fun e => match e with Opened o => if v_sandbox o == x then Some o else None | _ => None end) log.

Definition versions (x : ID) (log : list Entry) : list Z :=
  omap (fun e => match e with Registered g => if g_sandbox g == x then Some (g_version g) else None | _ => None end) log.

(** The certificates that a bootstrap was consumed for. *)
Definition bootstraps (log : list Entry) : list Opening :=
  omap (fun e => match e with Opened o => match v_proof o with Some _ => Some o | None => None end | _ => None end) log.

Definition epoch_of (o : Opening) : Z := CEpoch (v_conn o).

(** Below: every number of the list is smaller, and the list ascends. *)
Definition ascending_below (l : list Z) (n : Z) : Prop := StronglySorted Z.lt l /\ Forall (fun m => m < n) l.

Lemma ascending_snoc l n m : ascending_below l n -> n <= m -> ascending_below (l ++ [m]) (m + 1).
Proof.
  intros [S F] L. split.
  - apply StronglySorted_app; try repeat constructor; [| done].
    intros a b Ha Hb. apply list_elem_of_singleton in Hb as ->. rewrite Forall_forall in F. specialize (F a Ha). lia.
  - apply Forall_app. split; [| by repeat constructor; lia]. eapply Forall_impl; [exact F |]. cbn. lia.
Qed.

Lemma ascending_weaken l n m : ascending_below l n -> n <= m -> ascending_below l m.
Proof. intros [S F] L. split; [done |]. eapply Forall_impl; [exact F |]. cbn. lia. Qed.

(** What a sandbox's state says about its part of the log. *)
Record state_ok (os : list Opening) (vs : list Z) (s : CredState) : Prop := {
  so_epochs : ascending_below (map epoch_of os) (z_epoch s + 1);
  so_versions : ascending_below vs (z_version s);
  so_conn : forall k, z_conn s = Some k -> exists o, last os = Some o /\ CID (v_conn o) = n_id k
              /\ epoch_of o = z_epoch s /\ v_cert o = n_digest k
}.

(** A state that changed without an entry in the log. *)
Definition quiet_change (s s' : CredState) : Prop :=
  z_version s <= z_version s' /\ z_epoch s <= z_epoch s'
  /\ forall k', z_conn s' = Some k' -> z_epoch s' = z_epoch s
       /\ exists k, z_conn s = Some k /\ n_id k = n_id k' /\ n_digest k = n_digest k'.

Lemma quiet_change_ok os vs s s' : state_ok os vs s -> quiet_change s s' -> state_ok os vs s'.
Proof.
  intros [E V C] (Q1 & Q2 & Q3). split; [eapply ascending_weaken; [exact E | lia] | eapply ascending_weaken; [exact V | lia] |].
  intros k' K. destruct (Q3 k' K) as (-> & k & K1 & <- & <-). by apply C.
Qed.

Lemma opened_ok os vs s s' at_ i d deadline o :
  state_ok os vs s -> opened at_ i d deadline s = Some s' ->
  v_conn o = mkConnection i (z_epoch s') deadline -> v_cert o = d -> state_ok (os ++ [o]) vs s'.
Proof.
  intros [E V C] H Ho Hd. unfold opened in H. destruct (_ && _) in H; [| done]. injection H as <-. split.
  - rewrite map_app. cbn [map z_epoch]. unfold epoch_of at 2. rewrite Ho. cbn [CEpoch z_epoch].
    by eapply ascending_snoc; [exact E |].
  - eapply ascending_weaken; [exact V |]. cbn. lia.
  - intros k [= <-]. exists o. rewrite last_snoc. unfold epoch_of. rewrite Ho. done.
Qed.

(** The log and the rows of a tenant. *)
Record registry_ok (t : Tables) (log : list Entry) : Prop := {
  ro_states : forall x, match states t !! x with
                        | Some s => state_ok (openings x log) (versions x log) s
                        | None => openings x log = [] /\ versions x log = []
                        end;
  ro_digests : NoDup (map k_digest (creds t));
  ro_once : NoDup (map v_cert (bootstraps log));
  ro_proofs : forall o, o ∈ bootstraps log -> exists c proof, c ∈ creds t /\ k_digest c = v_cert o
                /\ k_sandbox c = v_sandbox o /\ v_proof o = Some proof /\ k_proof c = Sha256.Digest proof
                /\ is_Some (k_consumed c)
}.

(** ** Every transaction keeps the log *)

Lemma transaction_cases {T A} q id (work : SandboxBinding -> T -> option (T * A)) t t' res :
  transaction q id work t = (t', res) ->
  (t' = t /\ res = Err ErrCredentialState)
  \/ (exists b a, work b t = Some (t', a) /\ SandboxID (RScope (Request b)) = ISandboxID id
        /\ took_effect (q_commit q) = true
        /\ res = if reported (q_commit q) then Ok a else Err ErrCredentialState).
Proof.
  unfold transaction. intros H. destruct (negb _) in H; [left; by injection H as <- <- |].
  destruct (readSandboxBinding _ _ (q_binding q)) as [b |]; [| left; by injection H as <- <-].
  destruct (_ != _) in H; [left; by injection H as <- <- |].
  destruct (q_fence q) as [[] |]; try (left; by injection H as <- <-).
  destruct (readSandboxBinding _ _ (q_locked q)) as [b' |] eqn:L; [| left; by injection H as <- <-].
  destruct (q_allowed q) as [[] |]; try (left; by injection H as <- <-).
  destruct (work b' t) as [[u a] |] eqn:W; [| left; by injection H as <- <-].
  assert (X : SandboxID (RScope (Request b')) = ISandboxID id).
  { unfold readSandboxBinding in L. destruct (q_locked q); [| done]. destruct (_ || _) eqn:C in L; [done |].
    injection L as ->. by simp_bool. }
  destruct (q_commit q); cbn [settle fst] in H; injection H as <- <-; [right | by left | right]; by exists b', a.
Qed.

(** The same of a transaction whose commit is done and reported. *)
Lemma transaction_done {T A} q id (work : SandboxBinding -> T -> option (T * A)) t t' res :
  q_commit q = CommitDone -> transaction q id work t = (t', res) ->
  (t' = t /\ res = Err ErrCredentialState)
  \/ (exists b a, work b t = Some (t', a) /\ res = Ok a /\ SandboxID (RScope (Request b)) = ISandboxID id).
Proof.
  intros C H. apply transaction_cases in H as [H | (b & a & W & X & _ & R)]; [by left | right].
  rewrite C in R. by exists b, a.
Qed.

(** A transaction does what it would have done had its commit been answered, or nothing. *)
Lemma transaction_settled {T A} q id (work : SandboxBinding -> T -> option (T * A)) t :
  transaction q id work t = settle (q_commit q) ErrCredentialState t (transaction (answering q) id work t).
Proof.
  unfold transaction. cbn [answering q_binding q_fence q_locked q_allowed q_commit].
  assert (R : forall c, settle c ErrCredentialState t (t, Err ErrCredentialState : result _ A) = (t, Err ErrCredentialState)) by (by intros []).
  destruct (negb _); [by rewrite R |]. destruct (readSandboxBinding _ _ (q_binding q)) as [b |]; [| by rewrite R].
  destruct (_ != _); [by rewrite R |]. destruct (q_fence q) as [[] |]; try by rewrite R.
  destruct (readSandboxBinding _ _ (q_locked q)) as [b' |]; [| by rewrite R].
  destruct (q_allowed q) as [[] |]; try by rewrite R. by destruct (work b' t) as [[u a] |]; [| rewrite R].
Qed.

Lemma settle_refused {T A} c (t : T) : settle c ErrCredentialState t (t, Err ErrCredentialState : result _ A) = (t, Err ErrCredentialState).
Proof. by destruct c. Qed.

Lemma settle_fst {T E A} c (e : E) (t : T) (x : T * result E A) :
  fst (settle c e t x) = if took_effect c then fst x else t.
Proof. by destruct c. Qed.

Lemma perform_settled q clk c t :
  fst (perform q clk c t) = if took_effect (q_commit q) then fst (perform (answering q) clk c t) else t.
Proof.
  assert (F : forall A (x : Tables * result CredentialError A) (f : result CredentialError A -> list Entry),
            fst (let (u, r) := x in (u, f r)) = fst x) by (by intros A []).
  destruct c; cbn [perform].
  - unfold Version. by rewrite transaction_settled, settle_fst.
  - rewrite !(F unit _ (fun r => match r with Ok _ => _ | Err _ => _ end)). unfold Register.
    destruct (negb _); [by destruct (took_effect _) |]. by rewrite transaction_settled, settle_fst.
  - rewrite !(F Connection _ (fun r => match r with Ok _ => _ | Err _ => _ end)). unfold ConsumeBootstrap.
    destruct (_ || _); [by destruct (took_effect _) |]. destruct newID; [| by destruct (took_effect _)]. by rewrite transaction_settled, settle_fst.
  - rewrite !(F Connection _ (fun r => match r with Ok _ => _ | Err _ => _ end)). unfold Reconnect.
    destruct (_ || _); [by destruct (took_effect _) |]. destruct newID; [| by destruct (took_effect _)]. by rewrite transaction_settled, settle_fst.
  - cbn [fst]. unfold CloseConnection. destruct (negb _); [by destruct (took_effect _) |]. destruct (states t !! _); [| by rewrite !settle_fst].
    destruct (_ && _ && _); [| by rewrite !settle_fst]. destruct (_ <? _); [by rewrite !settle_fst | by destruct (took_effect _)].
Qed.

Lemma run_settled q clk c t :
  run q clk c t = if took_effect (q_commit q) then perform (answering q) clk c t else (t, []).
Proof.
  unfold run. rewrite perform_settled. destruct (took_effect _); [| done]. symmetry. apply surjective_pairing.
Qed.

Lemma openings_app x l1 l2 : openings x (l1 ++ l2) = openings x l1 ++ openings x l2.
Proof. apply omap_app. Qed.
Lemma versions_app x l1 l2 : versions x (l1 ++ l2) = versions x l1 ++ versions x l2.
Proof. apply omap_app. Qed.
Lemma bootstraps_app l1 l2 : bootstraps (l1 ++ l2) = bootstraps l1 ++ bootstraps l2.
Proof. apply omap_app. Qed.

Lemma openings_other x o : v_sandbox o <> x -> openings x [Opened o] = [].
Proof. intros N. cbn. by rewrite bool_decide_eq_false_2. Qed.
Lemma openings_own o : openings (v_sandbox o) [Opened o] = [o].
Proof. cbn. by rewrite bool_decide_eq_true_2. Qed.

Lemma bootstraps_in o log : o ∈ bootstraps log -> o ∈ openings (v_sandbox o) log.
Proof.
  unfold bootstraps, openings. rewrite !list_elem_of_omap. intros (e & E & H). exists e. split; [done |].
  destruct e as [o' | g]; [| done]. destruct (v_proof o'); [| done]. injection H as ->. by rewrite bool_decide_eq_true_2.
Qed.

(** A sandbox's state changes quietly; rows are only added or consumed. *)
Lemma quiet_registry t log x s s' ds :
  registry_ok t log -> states t !! x = Some s -> quiet_change s s' ->
  registry_ok (mkTables (<[x := s']> (states t)) (creds t) ds) log.
Proof.
  intros [S D O P] Hs Q. split; cbn [states creds]; try done. intros y. destruct (decide (x = y)) as [<- | N].
  - rewrite lookup_insert_eq. specialize (S x). rewrite Hs in S. by eapply quiet_change_ok.
  - rewrite lookup_insert_ne by done. apply S.
Qed.

Lemma version_registry q id t log : registry_ok t log -> registry_ok (fst (Version q id t)) log.
Proof.
  intros R. destruct (Version q id t) as [t' res] eqn:H. apply transaction_cases in H as [[-> _] | (b & a & H & _ & _ & _)]; [done |].
  cbn [fst]. destruct (states t !! ISandboxID id) as [s |] eqn:Hs; injection H as <- _; [done |].
  destruct R as [S D O P]. split; cbn [states creds with_state]; try done. intros y.
  destruct (decide (ISandboxID id = y)) as [<- | N]; [| rewrite lookup_insert_ne by done; apply S].
  rewrite lookup_insert_eq. specialize (S (ISandboxID id)). rewrite Hs in S. destruct S as [-> ->].
  by repeat constructor.
Qed.

Lemma close_registry q id c t log : registry_ok t log -> registry_ok (fst (CloseConnection q id c t)) log.
Proof.
  intros R. unfold CloseConnection. destruct (negb _); [done |]. destruct (states t !! ISandboxID id) as [s |] eqn:Hs; [| rewrite settle_fst; by destruct (took_effect _)].
  destruct (_ && _ && _); [| rewrite settle_fst; by destruct (took_effect _)]. destruct (_ <? _); [| done].
  rewrite settle_fst. destruct (took_effect _); [| done]. cbn [fst].
  eapply quiet_registry; [done | exact Hs |]. split_and!; cbn; [lia | lia | done].
Qed.

(** A connection is opened in its sandbox. *)
Lemma opened_states t log x s s' at_ i d deadline o y :
  registry_ok t log -> states t !! x = Some s -> opened at_ i d deadline s = Some s' ->
  v_sandbox o = x -> v_conn o = mkConnection i (z_epoch s') deadline -> v_cert o = d ->
  match <[x := s']> (states t) !! y with
  | Some s => state_ok (openings y (log ++ [Opened o])) (versions y (log ++ [Opened o])) s
  | None => openings y (log ++ [Opened o]) = [] /\ versions y (log ++ [Opened o]) = []
  end.
Proof.
  intros [S _ _ _] Hs Ho Hx Hc Hd. rewrite openings_app, versions_app.
  change (versions y [Opened o]) with (@nil Z). rewrite app_nil_r. specialize (S y).
  destruct (decide (x = y)) as [<- | N].
  - rewrite lookup_insert_eq. rewrite Hs in S. rewrite <- Hx at 1 2. rewrite openings_own. rewrite Hx. by eapply opened_ok.
  - rewrite lookup_insert_ne by done. rewrite openings_other by congruence. by rewrite app_nil_r.
Qed.

Lemma reconnect_registry q clk now newID p deadline t log t' new :
  q_commit q = CommitDone ->
  registry_ok t log -> perform q clk (DoReconnect now newID p deadline) t = (t', new) -> registry_ok t' (log ++ new).
Proof.
  intros Q0 R. cbn [perform]. destruct (Reconnect _ _ _ _ _ _ _) as [u res] eqn:H. intros [= <- <-]. unfold Reconnect in H.
  destruct (_ || _) in H; [injection H as <- <-; by rewrite app_nil_r |].
  destruct newID as [i |]; [| injection H as <- <-; by rewrite app_nil_r].
  apply (transaction_done _ _ _ _ _ _ Q0) in H as [[-> ->] | (b & a & H & -> & _)]; [by rewrite app_nil_r |]. unfold reconnection in H.
  destruct (_ || _) in H; [done |]. destruct (states t !! _) as [s |] eqn:Hs; [| done]. destruct (find_cred _ _ _); [| done].
  destruct (negb _) in H; [done |]. destruct (opened _ _ _ _ _) as [s' |] eqn:Ho; [| done]. injection H as <- <-.
  split; cbn [states creds with_state].
  - intros y. by eapply opened_states.
  - apply R.
  - rewrite bootstraps_app. cbn. rewrite app_nil_r. apply R.
  - rewrite bootstraps_app. cbn. rewrite app_nil_r. apply R.
Qed.

Lemma find_cred_some t x d c : find_cred t x d = Some c -> c ∈ creds t /\ k_sandbox c = x /\ k_digest c = d.
Proof. intros H. apply List.find_some in H as [H1 H2]. simp_bool. split; [by apply list_elem_of_In | done]. Qed.

Lemma consume_keeps d at_ l : map k_digest (map (consume_row d at_) l) = map k_digest l.
Proof. rewrite map_map. apply map_ext. intros c. unfold consume_row. by destruct (_ == _). Qed.

(** A consumed credential was not consumed before, so it opened nothing before. *)
Lemma unconsumed_fresh t log c o :
  registry_ok t log -> c ∈ creds t -> k_consumed c = None -> o ∈ bootstraps log -> v_cert o <> k_digest c.
Proof.
  intros [_ D _ P] Hc N Ho E. destruct (P o Ho) as (c' & pf & C1 & C2 & _ & _ & _ & C3).
  assert (c' = c) as ->; [| rewrite N in C3; by destruct C3].
  assert (E' : k_digest c' = k_digest c) by congruence. clear - D C1 Hc E'. induction (creds t) as [| a l IH]; [by apply not_elem_of_nil in Hc |].
  cbn [map] in D. apply NoDup_cons in D as [D1 D2]. apply elem_of_cons in C1 as [-> | C1], Hc as [-> | Hc]; try done; [| | by apply IH].
  - exfalso. apply D1. rewrite E'. by apply list_elem_of_fmap_2.
  - exfalso. apply D1. rewrite <- E'. by apply list_elem_of_fmap_2.
Qed.

Lemma consume_registry q clk now newID p proof deadline t log t' new :
  q_commit q = CommitDone ->
  registry_ok t log -> perform q clk (DoConsume now newID p proof deadline) t = (t', new) -> registry_ok t' (log ++ new).
Proof.
  intros Q0 R. cbn [perform]. destruct (ConsumeBootstrap _ _ _ _ _ _ _ _) as [u res] eqn:H. intros [= <- <-]. unfold ConsumeBootstrap in H.
  destruct (_ || _) in H; [injection H as <- <-; by rewrite app_nil_r |].
  destruct newID as [i |]; [| injection H as <- <-; by rewrite app_nil_r].
  apply (transaction_done _ _ _ _ _ _ Q0) in H as [[-> ->] | (b & a & H & -> & _)]; [by rewrite app_nil_r |]. unfold consumption in H.
  destruct (_ || _) in H; [done |]. destruct (states t !! _) as [s |] eqn:Hs; [| done]. destruct (find_cred _ _ _) as [c |] eqn:Hc; [| done].
  destruct (negb _) eqn:K in H; [done |]. destruct (_ != _) eqn:E in H; [done |]. destruct (negb (consumes _ _ _)) in H; [done |].
  destruct (opened _ _ _ _ _) as [s' |] eqn:Ho; [| done]. injection H as <- <-.
  apply find_cred_some in Hc as (C1 & C2 & C3). unfold consumable in K. simp_bool.
  assert (N : k_consumed c = None) by (destruct (k_consumed c); done).
  split; cbn [states creds].
  - intros y. by eapply opened_states.
  - rewrite consume_keeps. apply R.
  - rewrite bootstraps_app, map_app. cbn. apply NoDup_app. split_and!; [apply R | | apply NoDup_singleton].
    intros d Hd Hd'. apply list_elem_of_singleton in Hd' as ->. apply list_elem_of_fmap in Hd as (o & Eo & Ho').
    eapply unconsumed_fresh; [exact R | exact C1 | exact N | exact Ho' | congruence].
  - rewrite bootstraps_app. intros o I. apply elem_of_app in I as [I | I].
    + destruct (ro_proofs t log R o I) as (c' & pf & P1 & P2 & P3 & P4 & P5 & P6).
      exists (consume_row (CertificateDigest p) (clk 1%nat) c'), pf. split; [by apply list_elem_of_fmap_2 |].
      unfold consume_row. destruct (_ == _); cbn; split_and!; try done.
    + cbn in I. apply list_elem_of_singleton in I as ->. exists (consume_row (CertificateDigest p) (clk 1%nat) c), proof.
      split; [by apply list_elem_of_fmap_2 |]. unfold consume_row. rewrite bool_decide_eq_true_2 by done. cbn. split_and!; try done.
Qed.

Lemma recovered_quiet clk b x s t s' : recovered clk b x s t = Some s' -> quiet_change s s' /\ z_version s' = z_version s.
Proof.
  unfold recovered. destruct (_ || _); [done |]. destruct (find_cred _ _ _); [| done]. destruct (_ && _); [| done]. intros [= <-].
  split; [| done]. split_and!; cbn; [lia | lia | done].
Qed.

Lemma quiet_refl s : quiet_change s s.
Proof. split_and!; [lia | lia |]. intros k K. split; [done |]. by exists k. Qed.

Lemma draining_quiet at_ s s0 : quiet_change s0 s -> quiet_change s0 (draining at_ s).
Proof.
  intros (Q1 & Q2 & Q3). split_and!; [done | done |]. cbn. intros k K. destruct (z_conn s) as [k' |] eqn:E; [| done].
  injection K as <-. cbn. by apply Q3.
Qed.

Lemma register_registry q clk now r g c t log t' new :
  q_commit q = CommitDone ->
  registry_ok t log -> perform q clk (DoRegister now r g c) t = (t', new) -> registry_ok t' (log ++ new).
Proof.
  intros Q0 R. cbn [perform]. destruct (Register _ _ _ _ _ _ _) as [u res] eqn:H. intros [= <- <-]. unfold Register in H.
  destruct (negb _) in H; [injection H as <- <-; by rewrite app_nil_r |].
  apply (transaction_done _ _ _ _ _ _ Q0) in H as [[-> ->] | (b & a & H & -> & _)]; [by rewrite app_nil_r |]. unfold registration in H.
  set (x := ISandboxID (QIdentity r)) in *. destruct (After _ _) in H; [done |]. destruct (states t !! x) as [s |] eqn:Hs; [| done].
  destruct (_ || _) eqn:V in H; [done |]. destruct (if Recovery r then _ else _) as [s' |] eqn:Hr in H; [| done].
  assert (Q : quiet_change s s' /\ z_version s' = z_version s).
  { destruct (Recovery r); [by eapply recovered_quiet | injection Hr as <-; split; [apply quiet_refl | done]]. }
  destruct Q as [Q QV]. destruct (_ && _) in H; [done |]. destruct (negb _) eqn:F in H; [done |]. injection H as <-. simp_bool.
  set (s'' := if Bootstrap c then s' else draining (clk 3%nat) s') in *.
  assert (Q' : quiet_change s s'' /\ z_version s'' = z_version s).
  { unfold s''. destruct (Bootstrap c); [done |]. split; [by apply draining_quiet | done]. }
  destruct R as [S D O P]. destruct Q' as [Q' QV']. split; cbn [states creds].
  - intros y. rewrite openings_app, versions_app. change (openings y [Registered _]) with (@nil Opening). rewrite app_nil_r.
    specialize (S y). destruct (decide (x = y)) as [<- | N].
    + rewrite lookup_insert_eq. rewrite Hs in S. cbn. rewrite bool_decide_eq_true_2 by done.
      destruct (quiet_change_ok _ _ _ _ S Q') as [E1 E2 E3]. split; cbn; [done | | done].
      rewrite QV'. replace (GVersion g) with (z_version s) by lia. apply ascending_snoc with (z_version s); [| lia]. apply S.
    + rewrite lookup_insert_ne by done. cbn. rewrite bool_decide_eq_false_2 by done. by rewrite app_nil_r.
  - rewrite map_app. apply NoDup_app. split_and!; [done | | apply NoDup_singleton]. intros d Hd Hd'.
    apply list_elem_of_singleton in Hd' as ->. apply list_elem_of_fmap in Hd as (c' & E & I).
    match goal with F : fresh_keys _ _ = true |- _ => unfold fresh_keys in F; rewrite forallb_forall in F;
      apply list_elem_of_In in I; specialize (F c' I) end. simp_bool; congruence.
  - rewrite bootstraps_app. cbn. by rewrite app_nil_r.
  - rewrite bootstraps_app. cbn. rewrite app_nil_r. intros o I. destruct (P o I) as (c' & pf & P1 & P2). exists c', pf.
    split; [apply elem_of_app; by left | done].
Qed.

Lemma history_registry t log : history t log -> registry_ok t log.
Proof.
  induction 1 as [ds | t log q clk c t' new _ IH H | t log ds _ [S D O P]].
  - split; cbn; [intros x; by rewrite lookup_empty | by apply NoDup_nil_2 | by apply NoDup_nil_2 | intros o I; by apply not_elem_of_nil in I].
  - rewrite run_settled in H. destruct (took_effect _); [| injection H as <- <-; by rewrite app_nil_r]. destruct c.
    + cbn [perform] in H. injection H as <- <-. rewrite app_nil_r. by apply version_registry.
    + by eapply (register_registry (answering q)).
    + by eapply (consume_registry (answering q)).
    + by eapply (reconnect_registry (answering q)).
    + cbn [perform] in H. injection H as <- <-. rewrite app_nil_r. by apply close_registry.
  - by split.
Qed.

(** C28: The registry is fenced.  In every history of its transactions, those whose commit took
    effect without an answer included: the epochs of a
    sandbox's connections and the versions of its registrations strictly ascend, so no
    epoch is given out twice and at most one registration is committed under a version; a
    connection passes [CheckConnection] only if it is the newest of its sandbox and was
    opened with the certificate that is presented; closing any other connection leaves the
    tables as they are; and a bootstrap certificate opens one connection ever, with a proof
    whose digest was registered with it. *)
Theorem registry_fenced t log (H : history t log) :
  (forall x, StronglySorted Z.lt (map epoch_of (openings x log)) /\ StronglySorted Z.lt (versions x log))
  /\ (forall q clk p c, snd (CheckConnection q clk p c t) = Ok tt ->
        exists o, last (openings (ISandboxID (PIdentity p)) log) = Some o
          /\ CID (v_conn o) = CID c /\ epoch_of o = CEpoch c /\ v_cert o = CertificateDigest p)
  /\ (forall q id c o, last (openings (ISandboxID id) log) = Some o -> (CID c, CEpoch c) <> (CID (v_conn o), epoch_of o) ->
        fst (CloseConnection q id c t) = t)
  /\ NoDup (map v_cert (bootstraps log))
  /\ (forall o, o ∈ bootstraps log -> exists c proof, c ∈ creds t /\ k_digest c = v_cert o /\ k_sandbox c = v_sandbox o
        /\ v_proof o = Some proof /\ k_proof c = Sha256.Digest proof).
Proof.
  pose proof (history_registry t log H) as [S _ O P]. split_and!.
  - intros x. specialize (S x). destruct (states t !! x) as [s |].
    + destruct S as [[E _] [V _] _]. done.
    + destruct S as [-> ->]. by split; constructor.
  - intros q clk p c C. destruct (CheckConnection q clk p c t) as [t' res] eqn:E. cbn [snd] in C. subst res.
    apply transaction_cases in E as [[_ ?] | (b & a & E & _ & _ & _)]; [done |]. destruct (checkAgentdConnection _ _ _ _) eqn:K in E; [| done].
    clear E. unfold checkAgentdConnection in K. specialize (S (ISandboxID (PIdentity p))).
    destruct (states t !! _) as [s |]; [| done]. destruct (z_conn s) as [k |] eqn:Z; [| done]. destruct (find_cred _ _ _); [| done].
    destruct S as [_ _ S]. destruct (S k Z) as (o & L & O1 & O2 & O3). simp_bool. exists o. split_and!; try done; [congruence | lia | congruence].
  - intros q id c o L N. unfold CloseConnection. destruct (negb _); [done |]. specialize (S (ISandboxID id)).
    assert (I : forall r : result CredentialError unit, fst (settle (q_commit q) ErrCredentialState t (t, r)) = t) by (intros r; by destruct (q_commit q)).
    destruct (states t !! _) as [s |]; [| apply I]. destruct (_ && _ && _) eqn:K; [| apply I]. exfalso. apply N. clear N. simp_bool.
    destruct (z_conn s) as [k |] eqn:Z; [| done]. destruct S as [_ _ S]. destruct (S k Z) as (o' & L' & O1 & O2 & O3).
    rewrite L in L'. injection L' as <-. simp_bool. f_equal; [congruence | lia].
  - done.
  - intros o I. destruct (P o I) as (c & pf & P1 & P2 & P3 & P4 & P5 & _). by exists c, pf.
Qed.

(** ** Witness: a bootstrap certificate is registered, consumed once and used to reconnect. *)

Definition ex_peer_id : Identity := mkIdentity id1 id2 id3.

Definition ex_answers : Answers :=
  let b := ComputeReconciliation.mkBinding ex_arequest "uid-1" in mkAnswers (Some b) (Some true) (Some b) (Some true) CommitDone.

Definition ex_secret : string := "0123456789abcdef0123456789abcdef".

Definition ex_bootstrap_peer : Peer := mkPeer ex_peer_id digest_a (at_second 500).

Definition ex_calls : list Call :=
  [DoVersion ex_peer_id;
   DoRegister (at_second 100) (mkCredentialRequest ex_peer_id false zeroPeer "" 0)
     (mkCredentialGrant ex_peer_id 1 (at_second 900) (at_second 900) (at_second 600))
     (mkCredentialRecord ex_peer_id id4 digest_a digest_b (Sha256.Digest ex_secret) (at_second 50) (at_second 500) true);
   DoConsume (at_second 120) (Some id3) ex_bootstrap_peer ex_secret (at_second 450);
   DoConsume (at_second 121) (Some id4) ex_bootstrap_peer ex_secret (at_second 450);
   DoReconnect (at_second 130) (Some id4) ex_bootstrap_peer (at_second 460)].

Definition ex_clock (n : nat) : Time := at_second (150 + Z.of_nat n).

Definition ex_registry : Tables * list Entry :=
  fold_left (fun st c => let (t', new) := run ex_answers ex_clock c (fst st) in (t', snd st ++ new)) ex_calls
    (mkTables ∅ [] [mkDelivery id4 false (at_second 200) false], []).

Lemma run_history cs : forall t log, history t log ->
  history (fst (fold_left (fun st c => let (t', new) := run ex_answers ex_clock c (fst st) in (t', snd st ++ new)) cs (t, log)))
    (snd (fold_left (fun st c => let (t', new) := run ex_answers ex_clock c (fst st) in (t', snd st ++ new)) cs (t, log))).
Proof.
  induction cs as [| c cs IH]; intros t log H; cbn [fold_left fst snd]; [done |].
  destruct (run ex_answers ex_clock c t) as [t' new] eqn:E. apply IH. by eapply h_call.
Qed.

Lemma ex_history_log :
  snd ex_registry = [Registered (mkRegistration id2 1);
    Opened (mkOpening id2 (mkConnection id3 1 (at_second 450)) digest_a (Some ex_secret));
    Opened (mkOpening id2 (mkConnection id4 2 (at_second 460)) digest_a None)].
Proof. vm_compute. reflexivity. Qed.

Lemma registry_fenced_witness :
  history (fst ex_registry) (snd ex_registry)
  /\ StronglySorted Z.lt (map epoch_of (openings id2 (snd ex_registry)))
  /\ NoDup (map v_cert (bootstraps (snd ex_registry))).
Proof.
  assert (H : history (fst ex_registry) (snd ex_registry)) by (apply run_history; apply h_start).
  destruct (registry_fenced _ _ H) as (S & _ & _ & O & _). split; [exact H |]. split; [exact (proj1 (S id2)) | exact O].
Defined.
