(* ===== verification/ControlReports.v ===== *)
(** * internal/adapters/sandboxtransport/control/thread.go and shutdown.go: what an agent reports

    The identity of a started Codex thread ([ThreadObservation]) and the hint of a local
    stop ([IsShutdownObservation]).

    Proved: a thread identity is accepted exactly in its canonical encoding, and what the
    agent encodes is what the runtime decodes. *)

From Stdlib Require Import ZArith Bool Lia.
From stdpp Require Import base strings list.
From S2P Require Import Prelude Regex GoStd JsonDecoder JsonEncode JsonUnmarshal JsonRoundTrip JsonStrict Primitives.
From S2P Require Import Handshake AgentdAdmission CodexClient Control.

Definition ThreadCapability : string := "codex-thread.v1".

Record ThreadStarted : Type := mkThreadStarted { ProcessID : ID; ThreadID : string }.

Definition set_ProcessID (s : string) (v : ThreadStarted) : ThreadStarted := mkThreadStarted s (ThreadID v).
Definition set_ThreadID (s : string) (v : ThreadStarted) : ThreadStarted := mkThreadStarted (ProcessID v) s.

Definition thread_fields : list (field ThreadStarted) :=
  [ ("process_id", into_string set_ProcessID); ("thread_id", into_string set_ThreadID) ].

Definition thread_members (v : ThreadStarted) : list (string * jvalue) :=
  [ ("process_id", JString (ProcessID v)); ("thread_id", JString (ThreadID v)) ].

(** [json.Marshal] of a [ThreadStarted], which cannot fail. *)
Definition thread_json (v : ThreadStarted) : string := marshal (JStruct (thread_members v)).

Definition GetObservation (f : Frame) : option ObservationBody :=
  match f_Body _ f with Some (BObservation o) => Some o | _ => None end.

(** [Observation_PROCESS_STATUS], [_CANDIDATE_EVENT] and [_DIAGNOSTIC]. *)
Definition PROCESS_STATUS : Z := 1.
Definition CANDIDATE_EVENT : Z := 2.
Definition DIAGNOSTIC : Z := 4.

Definition ThreadObservation (f : Frame) : result ControlError ThreadStarted :=
  match GetObservation f with
  | None => Err ErrControl
  | Some o =>
      if negb (o_Kind o =? PROCESS_STATUS) || (o_PayloadSchema o != ThreadCapability) || (o_ArtifactReference o != "")
         || (256 <? len (o_Payload o))
      then Err ErrControl
      else match DecodeStrict thread_fields (o_Payload o) (mkThreadStarted "" "") with
      | None => Err ErrControl
      | Some v =>
          if (thread_json v != o_Payload o) || negb (ValidThreadID (ThreadID v)) then Err ErrControl
          else if negb (is_ok (ParseID (ProcessID v))) then Err ErrControl
          else Ok v
      end
  end.

(** ** shutdown.go *)

Definition ShutdownSchema : string := Capability +:+ "/shutdown".

Definition quoted (s : string) : string := String (byte_of 34) (s +:+ String (byte_of 34) "").

(** The two payloads, [{"managed_process":"stopped"}] and [{"managed_process":"unresolved"}]. *)
Definition shutdown_payload (state : string) : string :=
  "{" +:+ quoted "managed_process" +:+ ":" +:+ quoted state +:+ "}".

Definition ShutdownStopped : string := shutdown_payload "stopped".
Definition ShutdownUnresolved : string := shutdown_payload "unresolved".

Definition IsShutdownObservation (f : Frame) : bool :=
  match GetObservation f with
  | None => false
  | Some o =>
      (f_OperationId _ f == "") && (f_RequestDigest _ f == "") && (f_HarnessHandle _ f == "")
      && (o_Kind o =? PROCESS_STATUS) && (o_PayloadSchema o == ShutdownSchema) && (o_ArtifactReference o == "")
      && ((o_Payload o == ShutdownStopped) || (o_Payload o == ShutdownUnresolved))
  end.

(** ** Theorems *)

(** The frame in which an agent reports a thread. *)
Definition reports (f : Frame) (v : ThreadStarted) : Prop :=
  GetObservation f = Some (mkObservationBody PROCESS_STATUS ThreadCapability (thread_json v) "").

Lemma ValidThreadID_text s : ValidThreadID s = true -> ValidString s = true.
Proof.
  unfold ValidThreadID, ValidString. intros H. apply andb_true_iff in H as [_ H]. rewrite forallb_forall in H |- *.
  intros [i [r w]] I. specialize (H _ I). unfold uuid_rune in H. cbn [fst snd]. unfold RuneError. destruct (_ || _) in H; lia.
Qed.

(** A thread identity is accepted in its canonical encoding and in no other: what is
    accepted is the encoding of the identity that is returned, which names a process and a
    thread; and the encoding of such an identity, when it fits, is accepted as it. *)
Theorem thread_report_canonical f v :
  ThreadObservation f = Ok v <->
  (reports f v /\ len (thread_json v) <= 256 /\ ValidThreadID (ThreadID v) = true /\ is_ok (ParseID (ProcessID v)) = true).
Proof.
  unfold ThreadObservation, reports. split.
  - intros H. destruct (GetObservation f) as [o |]; [| done]. destruct (_ || _) eqn:C in H; [done |].
    destruct (DecodeStrict _ _ _) as [w |]; [| done]. destruct (_ || _) eqn:D in H; [done |]. destruct (negb _) eqn:E in H; [done |].
    injection H as ->. simp_bool. destruct o as [k s p a]. cbn in *. subst. assert (k = PROCESS_STATUS) as -> by lia.
    split_and!; try done; lia.
  - intros (-> & L & T & P). cbn [o_Kind o_PayloadSchema o_ArtifactReference o_Payload]. rewrite !bool_decide_eq_true_2 by done.
    replace (256 <? len (thread_json v)) with false by lia. cbn [negb orb Z.eqb PROCESS_STATUS Pos.eqb].
    rewrite (strict_roundtrip thread_fields (thread_members v) [set_ProcessID (ProcessID v); set_ThreadID (ThreadID v)]).
    + cbn [fold_left]. unfold set_ProcessID, set_ThreadID. cbn [ProcessID ThreadID]. destruct v as [i t]. cbn [ProcessID ThreadID] in *.
      by rewrite bool_decide_eq_true_2, T, P by done.
    + done.
    + scalars_auto; [by apply ascii_valid, validID_ascii | by apply ValidThreadID_text].
    + done.
    + accepts_auto.
Qed.
