(* ===== verification/AgentdPolicy.v ===== *)
(** * internal/adapters/postgres/agentd_policy.go and harness_bindings.go: the frame policy

    The durable policy of an agent's stream: one tenant's rows of [agentd_admission],
    [agentd_commands], [agentd_frame_sequences] and [harness_bindings] with their
    constraints and triggers, next to the credential registry, and the transactions over
    them.  A transaction is answered by an [Env]: what it reads of the sandbox's tables and
    of [executions], the two clocks, and whether the constraints that this file does not
    state (on [harness_bindings] and [attempts]) accept a thread, and what became of the
    commit, whose answer may be lost.

    Proved, for every interleaving with the credential registry and with writers of the
    harness tables: every command is dispatched once, one at a time per sandbox and at most
    128 of them, on the connection that was the newest; its outcome comes from a response
    that names it exactly and never changes again; the frames of a connection are numbered
    without gaps in either direction; and a revoked sandbox exchanges no further frame. *)

From Stdlib Require Import ZArith Bool Lia.
From stdpp Require Import base strings list gmap sorting.
From S2P Require Import Prelude Regex GoStd Sha256 Primitives Interaction IdempotencyStore RuntimeProfile ComputeReconciliation.
From S2P Require Import RuntimeBinding Handshake AgentdAdmission CodexStream CodexClient Control ControlReports AgentdConfig.
From S2P Require Import AgentdCredentials.

Inductive PolicyError : Type := ErrAgentdPolicy.

Record AgentdMaterialization : Type := mkMaterialization {
  m_Config : Config;
  m_Challenge : string;
  m_GrantDigest : string;
  m_AuthorityReference : string;
  m_Revision : string;
  m_RequestDigest : string;
  m_HarnessHandle : string;
  m_HarnessNegotiationDigest : string;
  m_ExecuteOperationID : string;
  m_ExecuteDigest : string;
  m_Deadline : Time;
  m_BootstrapDeadline : Time
}.

(** ** Rows *)

Inductive DispatchOutcome : Type := DispatchPending | DispatchAcknowledged | DispatchUnknown.

#[export] Instance DispatchOutcome_eq_dec : EqDecision DispatchOutcome.
Proof. solve_decision. Defined.

(** [agentd_commands] *)
Record CommandRow : Type := mkCommandRow {
  y_sandbox : ID;
  y_operation : ID;
  y_digest : string;
  y_connection : ID;
  y_epoch : Z;
  y_message : ID;
  y_sequence : Z;
  y_outcome : DispatchOutcome
}.

(** [agentd_admission] *)
Record AdmissionRow : Type := mkAdmissionRow { snapshot : string; revoked : bool }.

(** [harness_bindings], the columns that are inserted. *)
Record HarnessRow : Type := mkHarnessRow {
  b_id : ID;
  b_session : ID;
  b_execution : ID;
  b_generation : Z;
  b_attempt : ID;
  b_ordinal : Z;
  b_sandbox : ID;
  b_spec : Harness.HarnessSpecification;
  b_operation : ID;
  b_digest : string
}.

#[export] Instance HarnessSpecification_eq_dec : EqDecision Harness.HarnessSpecification.
Proof. solve_decision. Defined.
#[export] Instance HarnessRow_eq_dec : EqDecision HarnessRow.
Proof. solve_decision. Defined.

(** [agentd_frame_sequences] by sandbox, connection and direction: the number and the
    digest of the last frame; [references] is [attempts.harness_binding_reference]. *)
Record Store : Type := mkStore {
  registry : Tables;
  admissions : gmap ID AdmissionRow;
  commands : list CommandRow;
  sequences : gmap (ID * ID * string) (Z * string);
  harnesses : list HarnessRow;
  references : gmap ID string
}.

Definition with_commands (t : Store) (l : list CommandRow) : Store :=
  mkStore (registry t) (admissions t) l (sequences t) (harnesses t) (references t).
Definition with_sequences (t : Store) (m : gmap (ID * ID * string) (Z * string)) : Store :=
  mkStore (registry t) (admissions t) (commands t) m (harnesses t) (references t).
Definition with_threads (t : Store) (l : list HarnessRow) (m : gmap ID string) : Store :=
  mkStore (registry t) (admissions t) (commands t) (sequences t) l m.
Definition with_admissions (t : Store) (m : gmap ID AdmissionRow) : Store :=
  mkStore (registry t) m (commands t) (sequences t) (harnesses t) (references t).

(** The columns of [executions] that are read. *)
Record ExecutionRow : Type := mkExecutionRow {
  x_mode : string;
  x_namespace : string;
  x_reference : string;
  x_grant : string;
  x_created : Time;
  x_deadline : Time
}.

Record Env : Type := mkEnv {
  e_answers : Answers;
  e_execution : ID -> option ExecutionRow;
  e_clock : nat -> Time;
  e_now : nat -> Time;
  e_accepts : bool
}.

Definition policyIdentity (b : option Handshake.Binding) : Identity :=
  match b with
  | None => mkIdentity "" "" ""
  | Some b => mkIdentity (TenantId b) (SandboxBindingId b) (AttemptId b)
  end.

Definition u32 (n : Z) : Z := n mod 4294967296.

(** [codex.Command] *)
Definition codex_command : list string :=
  ["/usr/local/bin/codex"; "app-server"; "--listen"; "stdio://"; "-c"; "check_for_update_on_startup=false"].

Definition AR : string := "AR".
Definition AGENTD : string := "AGENTD".

Section Policy.

(** [net/url], [net] and google.golang.org/protobuf, and encoding/json of a configuration
    and of a materialization. *)
Variable urlParse : string -> option URL.
Variable parseIP : string -> bool.
Variable Size : Hello -> Z.
Variable MarshalWelcome : Welcome -> string.
Variable BindingEqual : option Handshake.Binding -> option Handshake.Binding -> bool.
Variable known_body : Body -> bool.
Variable FrameSize : Frame -> Z.
Variable MarshalFrame : Frame -> option string.
Variable ConfigJSON : Config -> string.
Variable MaterializationJSON : AgentdMaterialization -> option string.
Variable ParseMaterialization : string -> option AgentdMaterialization.

(** [NewAgentdLocalPolicy] has checked the revision; the issuer is fixed. *)
Variable revision : string.

Definition issuer : string := "thinkpixelar/local".

Definition has (l : list string) (c : string) : bool := contains l c.

Definition timing_ok (b : SandboxBinding) (m : AgentdMaterialization) : bool :=
  let c := m_Config m in
  let h := Harness c in
  (ControlDeadlineUnixMS c =? 0)
  || negb (negb (ControlDeadlineUnixMS c =? UnixMilli (m_Deadline m)) || (5000 <=? u32 (StopGraceMS h + KillWaitMS h))
           || (i64 (TerminationGraceSeconds (PLifecycle (RProfile (Request b))) * 1000)
               <=? u32 (StartTimeoutMS h + 3 * StopGraceMS h + 3 * KillWaitMS h) + 5000)).

(** The row of the execution at the clock of the database. *)
Definition grant_current (r : ExecutionRow) (m : AgentdMaterialization) (at_ : Time) : bool :=
  (x_mode r == "LOCAL") && (x_namespace r == issuer) && (x_reference r == m_AuthorityReference m)
  && (x_grant r == m_GrantDigest m) && negb (After (x_created r) at_) && After (x_deadline r) at_
  && negb (After (timestamptz (m_Deadline m)) (x_deadline r)).

Definition wanted (s : Scope) : Handshake.Binding :=
  Handshake.mkBinding (TenantID s) (SessionID s) (ExecutionID s) (AttemptID s) (SandboxID s) (Generation s) "".

Definition capability_ok (m : AgentdMaterialization) : bool :=
  let c := m_Config m in
  has (cf_RequiredCapabilities c) Capability && has (cf_RequiredCapabilities c) "rotation.v1"
  && negb (has (cf_Capabilities c) ThreadCapability
           && ((cf_AdapterKind c != Kind_) || negb (has (cf_RequiredCapabilities c) ThreadCapability)
               || (Argv (Harness c) != codex_command) || negb (credentialDigest (m_HarnessNegotiationDigest m))))
  && negb (has (cf_Capabilities c) TurnCapability
           && (negb (has (cf_RequiredCapabilities c) TurnCapability) || negb (has (cf_RequiredCapabilities c) ThreadCapability)
               || negb (credentialDigest (m_ExecuteDigest m)) || negb (is_ok (ParseID (m_ExecuteOperationID m))))).

Definition validate (e : Env) (b : SandboxBinding) (m : AgentdMaterialization) : bool :=
  let c := m_Config m in
  let r := Request b in
  timing_ok b m
  && is_ok (Validate urlParse parseIP Size BindingEqual MarshalWelcome c) && is_some (cf_Binding c)
  && (len (m_Challenge m) =? 32) && credentialDigest (m_GrantDigest m) && (m_Revision m == revision)
  && (m_RequestDigest m == Operation_Digest (ROperation r)) && After (m_Deadline m) (e_now e 0)
  && negb (After (m_Deadline m) (Deadline r)) && negb (After (m_BootstrapDeadline m) (m_Deadline m))
  && negb (IsZero (m_BootstrapDeadline m))
  && capability_ok m && is_ok (ParseID (m_HarnessHandle m)) && BindingEqual (cf_Binding c) (Some (wanted (RScope r)))
  && match e_execution e (ExecutionID (RScope r)) with Some x => grant_current x m (e_clock e 0) | None => false end.

(** [Register] of a materialization; [e_accepts] also covers the bound on the text of the
    stored [jsonb]. *)
Definition Register (e : Env) (m : AgentdMaterialization) (t : Store) : Store * result PolicyError unit :=
  match MaterializationJSON m with
  | None => (t, Err ErrAgentdPolicy)
  | Some raw =>
      if 98304 <? len raw then (t, Err ErrAgentdPolicy)
      else
        let (t', res) := transaction (e_answers e) (policyIdentity (cf_Binding (m_Config m))) (fun b t =>
          let x := SandboxID (RScope (Request b)) in
          if negb (validate e b m) || negb (After (m_BootstrapDeadline m) (e_now e 1)) then None
          else match admissions t !! x with
          | Some _ => None
          | None => if negb (e_accepts e) then None else Some (with_admissions t (<[x := mkAdmissionRow raw false]> (admissions t)), tt)
          end) t in
        (t', match res with Ok _ => Ok tt | Err _ => Err ErrAgentdPolicy end)
  end.

Definition load (e : Env) (b : SandboxBinding) (t : Store) : option AgentdMaterialization :=
  match admissions t !! SandboxID (RScope (Request b)) with
  | None => None
  | Some a =>
      if revoked a then None
      else match ParseMaterialization (snapshot a) with
      | None => None
      | Some m => if validate e b m then Some m else None
      end
  end.

Definition scope_identity (s : Scope) : Identity := mkIdentity (TenantID s) (SandboxID s) (AttemptID s).

Definition current_intent (i : ComputeIntent) : bool :=
  Current i && match Desired i with ComputeRunning => true | _ => false end.

Definition AuthorizeTransport (e : Env) (i : ComputeIntent) (purpose : Purpose) (t : Store)
  : Store * result PolicyError Authorization :=
  let r := Request (IBinding i) in
  if negb (current_intent i) || (purpose == RecoverBootstrap) then (t, Err ErrAgentdPolicy)
  else
    let (t', res) := transaction (e_answers e) (scope_identity (RScope r)) (fun b t =>
      if Operation_Digest (ROperation (Request b)) != Operation_Digest (ROperation r) then None
      else match load e b t with
      | None => None
      | Some m =>
          let c := m_Config m in
          if (purpose == IssueBootstrap) && negb (After (m_BootstrapDeadline m) (e_now e 1)) then None
          else Some (t, mkAuthorization (m_Deadline m) (m_BootstrapDeadline m)
                          (mkExpected (cf_Binding c) (m_Challenge m) (cf_BuildDigest c) (cf_AdapterKind c) (cf_AdapterDigest c)
                             (cf_Capabilities c) (cf_RequiredCapabilities c) (cf_Limits c)))
      end) t in
    (t', match res with Ok a => Ok a | Err _ => Err ErrAgentdPolicy end).

(** [Revoke]: a transaction that only needs a tenant; [c] is what its commit did. *)
Definition Revoke (c : commit) (tenant x : ID) (t : Store) : Store * result PolicyError unit :=
  if negb (is_ok (ParseID tenant)) then (t, Err ErrAgentdPolicy)
  else match admissions t !! x with
  | None => (t, Err ErrAgentdPolicy)
  | Some a => settle c ErrAgentdPolicy t (with_admissions t (<[x := mkAdmissionRow (snapshot a) true]> (admissions t)), Ok tt)
  end.

(** ** policyFrame *)

Definition OUTCOME_UNKNOWN : Z := 6.

Definition start_digest (m : AgentdMaterialization) : string :=
  Control.Digest START (Sha256.Digest (ConfigJSON (m_Config m))) (m_HarnessHandle m).

(** The last clauses of [policyFrame], on the body of a frame with no operation that is
    neither a command nor a correlated response. *)
Definition report_direction (now : Z) (f : Frame) (m : AgentdMaterialization) (l : Limits) : option string :=
  match f_Body _ f with
  | Some (BHeartbeat h) => if (h_ProcessState h <? 1) || (6 <? h_ProcessState h) then None else Some AGENTD
  | Some (BObservation o) =>
      if IsShutdownObservation f then Some AGENTD
      else if (f_HarnessHandle _ f != m_HarnessHandle m) || (o_ArtifactReference o != "") then None
      else if (o_Kind o =? DIAGNOSTIC)
              && ((o_PayloadSchema o == Capability +:+ "/stdout") || (o_PayloadSchema o == Capability +:+ "/stderr"))
              && (len (o_Payload o) <=? DiagnosticBytes l) then Some AGENTD
      else if (o_Kind o =? CANDIDATE_EVENT) && (o_PayloadSchema o == Capability +:+ "/event")
              && (len (o_Payload o) <=? EventBytes l) then Some AGENTD
      else None
  | Some (BRotation r) =>
      if (r_Kind r =? 1) && (len (r_CertificatePem r) =? 0) && (len (r_PrivateKeyPem r) =? 0) && (r_ExpiresUnixMs r =? 0)
      then Some AGENTD
      else if (r_Kind r =? 2) && (0 <? len (r_CertificatePem r)) && (len (r_CertificatePem r) <=? 16384)
              && (0 <? len (r_PrivateKeyPem r)) && (len (r_PrivateKeyPem r) <=? 4096) && (now <? r_ExpiresUnixMs r)
              && (r_ExpiresUnixMs r <=? UnixMilli (m_Deadline m))
      then Some AR
      else None
  | _ => None
  end.

Definition response_direction (f : Frame) (m : AgentdMaterialization) : option string :=
  if (f_OperationId _ f == "") || (f_HarnessHandle _ f != m_HarnessHandle m) then None
  else match f_Body _ f with
  | Some (BFailure code) => if code =? OUTCOME_UNKNOWN then Some AGENTD else None
  | _ => Some AGENTD
  end.

Definition policyFrame (now : Z) (f : Frame) (m : AgentdMaterialization) : option string :=
  let c := m_Config m in
  match cf_Limits c, Protocol c with
  | Some l, Some p =>
      if negb (KnownFields _ known_body f) || (FrameBytes l <? FrameSize f) then None
      else if negb (BindingEqual (f_Binding _ f) (cf_Binding c)) || negb (f_Major _ f =? Major_ p)
              || (MaximumMinor p <? f_Minor _ f) || (f_Minor _ f <? MinimumMinor p) then None
      else if (f_HarnessHandle _ f != "") && (f_HarnessHandle _ f != m_HarnessHandle m) then None
      else match f_Body _ f with
      | Some (BCommand k) =>
          if (c_Kind k =? EXECUTE)
             && (negb (has (cf_RequiredCapabilities c) TurnCapability) || (f_OperationId _ f != m_ExecuteOperationID m)
                 || (f_RequestDigest _ f != m_ExecuteDigest m)) then None
          else if (f_HarnessHandle _ f != m_HarnessHandle m)
                  || negb (is_ok (Command now (Some f) (Sha256.Digest (ConfigJSON c)))) then None
          else Some AR
      | body =>
          if match body with Some (BObservation o) => o_PayloadSchema o == ThreadCapability | _ => false end then
            if negb (has (cf_RequiredCapabilities c) ThreadCapability) || (f_HarnessHandle _ f != m_HarnessHandle m)
               || (f_OperationId _ f == "") || (f_RequestDigest _ f != start_digest m) then None
            else if is_ok (ThreadObservation f) then Some AGENTD else None
          else match body with
          | Some (BAcknowledgement a) =>
              if f_OperationId _ f == "" then
                if negb (is_ok (ParseID (a_MessageId a))) || (f_RequestDigest _ f != "") || (a_RequestDigest a != "")
                   || (a_AcceptedSequence a =? 0) || negb (a_EventCredit a =? 0) then None
                else Some AR
              else response_direction f m
          | Some (BFailure _) => response_direction f m
          | _ => if (f_OperationId _ f != "") || (f_RequestDigest _ f != "") then None else report_direction now f m l
          end
      end
  | _, _ => None
  end.

(** ** Sequences and threads *)

Definition policySequence (x : ID) (f : Frame) (direction : string) (t : Store) : option Store :=
  match MarshalFrame f with
  | None => None
  | Some raw =>
      let digest := Sha256.Digest raw in
      let key := (x, f_ConnectionId _ f, direction) in
      let last := default (0, "") (sequences t !! key) in
      if (f_Sequence _ f =? fst last) && (digest == snd last) then Some t
      else if negb (f_Sequence _ f =? u64 (fst last + 1)) then None
      else if negb (0 <? f_Sequence _ f) then None
      else Some (with_sequences t (<[key := (f_Sequence _ f, digest)]> (sequences t)))
  end.

Definition thread_row (s : Scope) (m : AgentdMaterialization) (f : Frame) (v : ThreadStarted) : HarnessRow :=
  mkHarnessRow (m_HarnessHandle m) (SessionID s) (ExecutionID s) (Generation s) (AttemptID s) (AttemptOrdinal s) (SandboxID s)
    (Harness.mkHarnessSpecification Kind_ CodexClient.Version (cf_AdapterDigest (m_Config m)) (m_HarnessNegotiationDigest m)
       "app-server" CodexClient.Version (ProcessID v) (ThreadID v))
    (f_OperationId _ f) (f_RequestDigest _ f).

Definition persistThread (e : Env) (b : SandboxBinding) (m : AgentdMaterialization) (f : Frame) (t : Store) : option Store :=
  match ThreadObservation f with
  | Err _ => None
  | Ok v =>
      let s := RScope (Request b) in
      let row := thread_row s m f v in
      if negb (is_ok (Harness.NewHarness (TenantID s) (m_HarnessHandle m) (SessionID s) (ExecutionID s) (AttemptID s)
                        (SandboxID s) (Generation s) (AttemptOrdinal s) (b_spec row)
                        (mkOperationIdentity (f_OperationId _ f) (f_RequestDigest _ f)) (e_now e 2))) then None
      else
        let stored := List.find (fun r => b_id r == m_HarnessHandle m) (harnesses t) in
        match (match stored with
               | Some r => Some (harnesses t, r)
               | None => if e_accepts e then Some (harnesses t ++ [row], row) else None
               end) with
        | None => None
        | Some (rows, r) =>
            if r != row then None
            else match references t !! AttemptID s with
            | None => None
            | Some previous =>
                if previous != "" then (if previous != m_HarnessHandle m then None else Some (with_threads t rows (references t)))
                else if negb (e_accepts e) then None
                else Some (with_threads t rows (<[AttemptID s := m_HarnessHandle m]> (references t)))
            end
        end
  end.

(** ** AuthorizeFrame *)

Definition find_command (x operation : ID) (t : Store) : option CommandRow :=
  List.find (fun r => (y_sandbox r == x) && (y_operation r == operation)) (commands t).

(** The claims of a heartbeat about what it received, sent and is doing. *)
Definition heartbeat_ok (x : ID) (c : Connection) (f : Frame) (t : Store) : bool :=
  match f_Body _ f with
  | Some (BHeartbeat h) =>
      let sent := fst (default (0, "") (sequences t !! (x, CID c, AR))) in
      negb ((sent <? h_LastAcceptedSequence h) || (f_Sequence _ f <=? h_LastProducedSequence h))
      && ((h_ActiveOperationId h == "")
          || match find_command x (h_ActiveOperationId h) t with
             | Some r => (y_connection r == CID c) && (y_outcome r == DispatchPending)
             | None => false
             end)
  | _ => true
  end.

(** An acknowledgement without an operation confirms a frame that was received. *)
Definition receipt_ok (x : ID) (c : Connection) (f : Frame) (t : Store) : bool :=
  match f_Body _ f with
  | Some (BAcknowledgement a) =>
      (f_OperationId _ f != "")
      || match sequences t !! (x, CID c, AGENTD) with Some last => a_AcceptedSequence a <=? fst last | None => false end
  | _ => true
  end.

Definition command_row (x : ID) (c : Connection) (f : Frame) : CommandRow :=
  mkCommandRow x (f_OperationId _ f) (f_RequestDigest _ f) (CID c) (CEpoch c) (f_MessageId _ f) (f_Sequence _ f) DispatchPending.

Definition outstanding (x : ID) (r : CommandRow) : bool := (y_sandbox r == x) && (y_outcome r != DispatchAcknowledged).

(** A thread of this binding whose start was acknowledged. *)
Definition thread_ready (s : Scope) (m : AgentdMaterialization) (t : Store) : bool :=
  existsb (fun h => (b_id h == m_HarnessHandle m) && (b_attempt h == AttemptID s) && (b_execution h == ExecutionID s)
                    && existsb (fun r => (y_operation r == b_operation h) && (y_outcome r == DispatchAcknowledged)) (commands t))
    (harnesses t).

(** The claim of a new operation. *)
Definition dispatch (s : Scope) (c : Connection) (m : AgentdMaterialization) (f : Frame) (k : CommandBody) (t : Store)
  : option Store :=
  let x := SandboxID s in
  if (c_Kind k =? EXECUTE) && negb (thread_ready s m t) then None
  else if has (cf_RequiredCapabilities (m_Config m)) ThreadCapability
          && ((c_Kind k =? RESTART)
              || ((c_Kind k =? START) && existsb (fun h => b_session h == SessionID s) (harnesses t))) then None
  else if (128 <=? Z.of_nat (length (List.filter (fun r => y_sandbox r == x) (commands t))))
          || existsb (outstanding x) (commands t) then None
  else if existsb (fun r => y_operation r == f_OperationId _ f) (commands t)
          || negb (match_string sha256_pattern (f_RequestDigest _ f)) || negb (0 <? CEpoch c) then None
  else Some (with_commands t (commands t ++ [command_row x c f])).

Definition settle (x operation : ID) (o : DispatchOutcome) (r : CommandRow) : CommandRow :=
  if (y_sandbox r == x) && (y_operation r == operation)
  then mkCommandRow (y_sandbox r) (y_operation r) (y_digest r) (y_connection r) (y_epoch r) (y_message r) (y_sequence r) o
  else r.

(** A response to a dispatched operation. *)
Definition respond (e : Env) (b : SandboxBinding) (m : AgentdMaterialization) (f : Frame) (t : Store) : option Store :=
  let s := RScope (Request b) in
  let x := SandboxID s in
  match find_command x (f_OperationId _ f) t with
  | None => None
  | Some r =>
      if (y_digest r != f_RequestDigest _ f) || (y_connection r != f_ConnectionId _ f)
         || negb (y_epoch r =? f_ConnectionEpoch _ f) then None
      else match f_Body _ f with
      | Some (BObservation _) => if y_outcome r == DispatchUnknown then None else persistThread e b m f t
      | body =>
          let next := match body with Some (BAcknowledgement _) => DispatchAcknowledged | _ => DispatchUnknown end in
          if match body with
             | Some (BAcknowledgement a) =>
                 (a_MessageId a != y_message r) || (a_RequestDigest a != y_digest r)
                 || negb (a_AcceptedSequence a =? y_sequence r) || negb (a_EventCredit a =? 0)
                 || (has (cf_RequiredCapabilities (m_Config m)) ThreadCapability && (y_digest r == start_digest m)
                     && negb (existsb (fun h => (b_id h == m_HarnessHandle m) && (b_operation h == f_OperationId _ f)
                                                && (b_digest h == y_digest r)) (harnesses t)))
             | _ => false
             end then None
          else if (y_outcome r != DispatchPending) && (y_outcome r != next) then None
          else Some (with_commands t (map (settle x (f_OperationId _ f) next) (commands t)))
      end
  end.

Definition connection_current (x : ID) (c : Connection) (at_ : Time) (t : Store) : bool :=
  match states (registry t) !! x with
  | Some s =>
      match z_conn s with
      | Some k => (n_id k == CID c) && (z_epoch s =? CEpoch c) && After (n_deadline k) at_
      | None => false
      end
  | None => false
  end.

Definition frame_work (e : Env) (i : ComputeIntent) (c : Connection) (f : Frame) (b : SandboxBinding) (t : Store)
  : option (Store * unit) :=
  let s := RScope (Request (IBinding i)) in
  let x := SandboxID s in
  match load e b t with
  | None => None
  | Some m =>
      if (Operation_Digest (ROperation (Request b)) != Operation_Digest (ROperation (Request (IBinding i))))
         || negb (BindingEqual (f_Binding _ f) (cf_Binding (m_Config m))) || (UnixMilli (m_Deadline m) <? f_DeadlineUnixMs _ f)
      then None
      else if negb (connection_current x c (e_clock e 1) t) then None
      else if negb (heartbeat_ok x c f t) then None
      else match policyFrame (UnixMilli (e_now e 1)) f m with
      | None => None
      | Some direction =>
          if negb (receipt_ok x c f t) then None
          else match policySequence x f direction t with
          | None => None
          | Some t =>
              match (match GetCommand f with
                     | Some k => dispatch s c m f k t
                     | None => if f_OperationId _ f != "" then respond e b m f t else Some t
                     end) with
              | None => None
              | Some t => Some (t, tt)
              end
          end
      end
  end.

Definition AuthorizeFrame (e : Env) (i : ComputeIntent) (c : Connection) (self : option Frame) (t : Store)
  : Store * result PolicyError unit :=
  match self with
  | None => (t, Err ErrAgentdPolicy)
  | Some f =>
      if (f_Sequence _ f =? 0) || (max_int64 <? f_Sequence _ f) || (f_ConnectionId _ f != CID c)
         || negb (f_ConnectionEpoch _ f =? CEpoch c) || negb (current_intent i) || negb (is_ok (ParseID (f_MessageId _ f)))
      then (t, Err ErrAgentdPolicy)
      else
        let (t', res) := transaction (e_answers e) (scope_identity (RScope (Request (IBinding i)))) (frame_work e i c f) t in
        (t', match res with Ok _ => Ok tt | Err _ => Err ErrAgentdPolicy end)
  end.

(** ** CommandOutcome *)

Inductive OutcomeError : Type := ErrCommandNotFound | OutcomeRejected.

Definition CommandOutcome (tenant x operation : ID) (digest : string) (t : Store) : result OutcomeError DispatchOutcome :=
  if negb (is_ok (ParseID tenant)) then Err OutcomeRejected
  else match find_command x operation t with
  | None => Err ErrCommandNotFound
  | Some r => if y_digest r != digest then Err OutcomeRejected else Ok (y_outcome r)
  end.

(** ** Histories

    The store next to the log of the credential registry and to the frames whose
    authorisation was committed, each with its sandbox: those that were authorised, and those
    that were refused only because the answer to the commit was lost.  Others write the
    harness tables. *)

Record World : Type := mkWorld { store : Store; opened_log : list Entry; frames : list (ID * Frame) }.

Definition with_registry (t : Store) (r : Tables) : Store :=
  mkStore r (admissions t) (commands t) (sequences t) (harnesses t) (references t).

Definition answering_env (e : Env) : Env :=
  mkEnv (answering (e_answers e)) (e_execution e) (e_clock e) (e_now e) (e_accepts e).

Definition frame_committed (e : Env) (i : ComputeIntent) (c : Connection) (f : Frame) (t : Store) : bool :=
  took_effect (q_commit (e_answers e)) && is_ok (snd (AuthorizeFrame (answering_env e) i c (Some f) t)).

Inductive step : World -> World -> Prop :=
| s_registry t rl l q clk call r' new : run q clk call (registry t) = (r', new) ->
    step (mkWorld t rl l) (mkWorld (with_registry t r') (rl ++ new) l)
| s_delivery t rl l ds :
    step (mkWorld t rl l) (mkWorld (with_registry t (mkTables (states (registry t)) (creds (registry t)) ds)) rl l)
| s_threads t rl l hs refs : step (mkWorld t rl l) (mkWorld (with_threads t hs refs) rl l)
| s_materialize t rl l e m t' res : Register e m t = (t', res) -> step (mkWorld t rl l) (mkWorld t' rl l)
| s_revoke t rl l cm tenant x t' res : Revoke cm tenant x t = (t', res) -> step (mkWorld t rl l) (mkWorld t' rl l)
| s_frame t rl l e i c f t' res : AuthorizeFrame e i c (Some f) t = (t', res) ->
    step (mkWorld t rl l)
      (mkWorld t' rl (if frame_committed e i c f t then l ++ [(SandboxID (RScope (Request (IBinding i))), f)] else l)).

Definition start_world (ds : list Delivery) (hs : list HarnessRow) (refs : gmap ID string) : World :=
  mkWorld (mkStore (mkTables ∅ [] ds) ∅ [] ∅ hs refs) [] [].

(** The direction of a frame. *)
Definition direction (f : Frame) : string :=
  match f_Body _ f with
  | Some (BCommand _) => AR
  | Some (BAcknowledgement _) => if f_OperationId _ f == "" then AR else AGENTD
  | Some (BRotation r) => if r_Kind r =? 2 then AR else AGENTD
  | _ => AGENTD
  end.

Lemma policyFrame_direction now f m d : policyFrame now f m = Some d -> d = direction f.
Proof.
  unfold policyFrame, direction. destruct (cf_Limits _) as [l |]; [| done]. destruct (Protocol _) as [p |]; [| done].
  destruct (_ || _); [done |]. destruct (_ || _); [done |]. destruct (_ && _); [done |].
  destruct (f_Body _ f) as [[] |] eqn:B; unfold response_direction, report_direction; try rewrite B; intros H;
    repeat (match type of H with
            | context [match ?x with _ => _ end] => let E := fresh "E" in destruct x eqn:E; try discriminate H
            end; cbn iota in H);
    try (by injection H as <-); try (injection H as <-); simp_bool; try done.
  all: destruct (r_Kind r =? 2) eqn:K; done || lia.
Qed.

(** The bodies that an operation may have. *)
Definition answerable (f : Frame) : Prop :=
  match f_Body _ f with
  | Some (BCommand _) | Some (BObservation _) | Some (BAcknowledgement _) | Some (BFailure _) => True
  | _ => False
  end.

Lemma policyFrame_answerable now f m d : policyFrame now f m = Some d -> f_OperationId _ f <> "" -> answerable f.
Proof.
  intros H N. unfold answerable. unfold policyFrame in H. destruct (cf_Limits _) as [l |]; [| done].
  destruct (Protocol _) as [p |]; [| done]. destruct (_ || _) in H; [done |]. destruct (_ || _) in H; [done |].
  destruct (_ && _) in H; [done |]. destruct (f_Body _ f) as [[] |]; try done; rewrite bool_decide_eq_false_2 in H by done; done.
Qed.

(** What an authorised frame went through. *)
Lemma authorize_inv e i c f t t' :
  AuthorizeFrame e i c (Some f) t = (t', Ok tt) ->
  let s := RScope (Request (IBinding i)) in
  exists b m t1, SandboxID (RScope (Request b)) = SandboxID s /\ load e b t = Some m
    /\ connection_current (SandboxID s) c (e_clock e 1) t = true
    /\ policySequence (SandboxID s) f (direction f) t = Some t1
    /\ match GetCommand f with
       | Some k => dispatch s c m f k t1 = Some t'
       | None => if f_OperationId _ f == "" then t' = t1 else respond e b m f t1 = Some t'
       end
    /\ (f_OperationId _ f <> "" -> answerable f)
    /\ f_ConnectionId _ f = CID c /\ f_ConnectionEpoch _ f = CEpoch c /\ f_Sequence _ f <> 0 /\ f_Sequence _ f <= max_int64.
Proof.
  intros H. cbn zeta. unfold AuthorizeFrame in H. destruct (_ || _) eqn:G in H; [done |].
  destruct (transaction _ _ _ _) as [u res] eqn:T. apply transaction_cases in T as [[-> ->] | (b & [] & W & X & _ & R)]; [done |].
  assert (res = Ok tt) as -> by (by destruct res as [[] |]). clear R.
  injection H as ->. cbn [scope_identity ISandboxID] in X. unfold frame_work in W.
  destruct (load e b t) as [m |] eqn:L; [| done]. destruct (_ || _) in W; [done |]. destruct (negb _) eqn:C in W; [done |].
  destruct (negb _) in W; [done |]. destruct (policyFrame _ _ _) as [d |] eqn:D; [| done].
  pose proof (policyFrame_answerable _ _ _ _ D) as A. apply policyFrame_direction in D as ->. destruct (negb _) in W; [done |].
  destruct (policySequence _ _ _ _) as [t1 |] eqn:Q; [| done]. exists b, m, t1. simp_bool.
  assert (M : match GetCommand f with
       | Some k => dispatch (RScope (Request (IBinding i))) c m f k t1 = Some t'
       | None => if f_OperationId _ f == "" then t' = t1 else respond e b m f t1 = Some t'
       end).
  { destruct (GetCommand f); [destruct (dispatch _ _ _ _ _ _); [by injection W as -> | done] |].
    destruct (f_OperationId _ f == ""); cbn [negb] in W; [by injection W as -> |].
    destruct (respond _ _ _ _ _); [by injection W as -> | done]. }
  split_and!; try done; lia.
Qed.

(** A frame whose authorisation is committed leaves what it leaves when the answer arrives;
    otherwise the store is as it was. *)
Lemma frame_settled e i c f t t' res : AuthorizeFrame e i c (Some f) t = (t', res) ->
  if frame_committed e i c f t then AuthorizeFrame (answering_env e) i c (Some f) t = (t', Ok tt) else t' = t.
Proof.
  unfold frame_committed, AuthorizeFrame. destruct (_ || _); [cbn [snd is_ok]; rewrite andb_false_r; by intros [= <- _] |].
  rewrite transaction_settled. cbn [answering_env e_answers].
  change (frame_work (answering_env e) i c f) with (frame_work e i c f).
  destruct (transaction (answering (e_answers e)) _ _ t) as [u r] eqn:T.
  destruct (transaction_done (answering (e_answers e)) _ _ _ _ _ eq_refl T) as [[-> ->] | (b & [] & _ & -> & _)].
  - cbn [is_ok snd]. rewrite andb_false_r. destruct (q_commit _); intros [= <- _]; done.
  - cbn [is_ok snd]. destruct (q_commit _); intros [= <- _]; done.
Qed.

(** ** The command ledger *)

Definition row_claim (r : CommandRow) : ID * ID * string * ID * Z * ID * Z :=
  (y_sandbox r, y_operation r, y_digest r, y_connection r, y_epoch r, y_message r, y_sequence r).

Definition frame_claim (p : ID * Frame) : ID * ID * string * ID * Z * ID * Z :=
  let f := snd p in
  (fst p, f_OperationId _ f, f_RequestDigest _ f, f_ConnectionId _ f, f_ConnectionEpoch _ f, f_MessageId _ f, f_Sequence _ f).

(** The commands among the frames. *)
Definition dispatched (l : list (ID * Frame)) : list (ID * Frame) := List.filter (fun p => is_some (GetCommand (snd p))) l.

(** The frame that settled a command: it names the operation, digest and connection, and
    an acknowledgement also the message and its number. *)
Definition settles (r : CommandRow) (f : Frame) : Prop :=
  f_OperationId _ f = y_operation r /\ f_RequestDigest _ f = y_digest r /\ f_ConnectionId _ f = y_connection r
  /\ f_ConnectionEpoch _ f = y_epoch r
  /\ match y_outcome r with
     | DispatchPending => True
     | DispatchAcknowledged => exists a, f_Body _ f = Some (BAcknowledgement a) /\ a_MessageId a = y_message r
         /\ a_RequestDigest a = y_digest r /\ a_AcceptedSequence a = y_sequence r
     | DispatchUnknown => exists code, f_Body _ f = Some (BFailure code)
     end.

Definition of_sandbox (x : ID) (r : CommandRow) : bool := y_sandbox r == x.

Record ledger_ok (rows : list CommandRow) (l : list (ID * Frame)) : Prop := {
  lk_claims : map row_claim rows = map frame_claim (dispatched l);
  lk_ops : NoDup (map y_operation rows);
  lk_count : forall x, Z.of_nat (length (List.filter (of_sandbox x) rows)) <= 128;
  lk_one : forall x, (length (List.filter (outstanding x) rows) <= 1)%nat;
  lk_evidence : forall r, r ∈ rows -> y_outcome r <> DispatchPending -> exists f, (y_sandbox r, f) ∈ l /\ settles r f
}.

(** A frame that is no command and settles nothing. *)
Lemma ledger_quiet rows l p : ledger_ok rows l -> GetCommand (snd p) = None -> ledger_ok rows (l ++ [p]).
Proof.
  intros [C O N U E] G. split; try done.
  - unfold dispatched. rewrite List.filter_app. cbn. rewrite G. cbn. by rewrite app_nil_r.
  - intros r I P. destruct (E r I P) as (f & F & S). exists f. split; [apply elem_of_app; by left | done].
Qed.

Lemma filter_none {A} (p : A -> bool) (l : list A) : existsb p l = false -> List.filter p l = [].
Proof.
  induction l as [| a l IH]; cbn; [done |]. intros H. apply orb_false_iff in H as [-> H]. by apply IH.
Qed.

Lemma ledger_dispatch s c m f k t t' l :
  ledger_ok (commands t) l -> dispatch s c m f k t = Some t' -> GetCommand f = Some k ->
  f_ConnectionId _ f = CID c -> f_ConnectionEpoch _ f = CEpoch c ->
  ledger_ok (commands t') (l ++ [(SandboxID s, f)]).
Proof.
  intros [C O N U E] H G F1 F2. unfold dispatch in H. destruct (_ && _) in H; [done |]. destruct (_ && _) in H; [done |].
  destruct (_ || _) eqn:B in H; [done |]. destruct (_ || _) eqn:D in H; [done |]. injection H as <-. cbn [commands with_commands].
  apply orb_false_iff in B as [B1 B2], D as [D _]. apply orb_false_iff in D as [D _]. apply Z.leb_gt in B1. split.
  - unfold dispatched. rewrite List.filter_app, !map_app. f_equal; [exact C |]. cbn. rewrite G. cbn.
    unfold row_claim, frame_claim. cbn. by rewrite F1, F2.
  - rewrite map_app. apply NoDup_app. split_and!; [done | | apply NoDup_singleton]. intros o I J.
    apply list_elem_of_singleton in J as ->. apply list_elem_of_fmap in I as (r & R & I).
    apply not_true_iff_false in D. apply D, existsb_exists. exists r. split; [by apply list_elem_of_In | by apply bool_decide_eq_true_2].
  - intros x. rewrite List.filter_app, length_app. specialize (N x). unfold of_sandbox in *. cbn. destruct (SandboxID s == x) eqn:X; cbn; [| lia].
    apply bool_decide_eq_true in X. subst x. lia.
  - intros x. rewrite List.filter_app, length_app. specialize (U x). unfold outstanding at 2. cbn. rewrite andb_true_r.
    destruct (SandboxID s == x) eqn:X; cbn; [| lia]. apply bool_decide_eq_true in X. subst x.
    rewrite (filter_none _ _ B2). cbn. lia.
  - intros r I P. apply elem_of_app in I as [I | I]; [| apply list_elem_of_singleton in I as ->; done].
    destruct (E r I P) as (g & I' & S). exists g. split; [apply elem_of_app; by left | done].
Qed.

(** ** Settling *)

Lemma settle_claim x op o r : row_claim (settle x op o r) = row_claim r.
Proof. unfold settle. by destruct (_ && _). Qed.

Lemma settle_other x op o r : (y_sandbox r, y_operation r) <> (x, op) -> settle x op o r = r.
Proof.
  intros N. unfold settle. destruct (_ && _) eqn:E; [| done]. simp_bool; by destruct N.
Qed.

Lemma unique_operation rows r r' : NoDup (map y_operation rows) -> r ∈ rows -> r' ∈ rows -> y_operation r = y_operation r' -> r = r'.
Proof.
  induction rows as [| a l IH]; intros D I J E; [by apply not_elem_of_nil in I |]. cbn in D. apply NoDup_cons in D as [D1 D2].
  apply elem_of_cons in I as [-> | I], J as [-> | J]; try done; [| | by apply IH].
  - exfalso. apply D1. rewrite E. by apply list_elem_of_fmap_2.
  - exfalso. apply D1. rewrite <- E. by apply list_elem_of_fmap_2.
Qed.

Lemma find_command_some x op t r : find_command x op t = Some r -> r ∈ commands t /\ y_sandbox r = x /\ y_operation r = op.
Proof. intros H. apply List.find_some in H as [H1 H2]. simp_bool. split; [by apply list_elem_of_In | done]. Qed.

Lemma filter_map_le {A} (p : A -> bool) (g : A -> A) (l : list A) :
  (forall a, a ∈ l -> p (g a) = true -> p a = true) -> (length (List.filter p (map g l)) <= length (List.filter p l))%nat.
Proof.
  induction l as [| a l IH]; intros H; cbn; [lia |]. assert (IH' := IH (fun b I => H b (proj2 (elem_of_cons l b a) (or_intror I)))).
  specialize (H a (proj2 (elem_of_cons l a a) (or_introl eq_refl))). destruct (p (g a)); [rewrite H by done; cbn; lia |].
  destruct (p a); cbn; lia.
Qed.

(** Settling the one row of an operation, with the frame that settles it. *)
Lemma ledger_settle rows l r f o :
  ledger_ok rows l -> r ∈ rows -> GetCommand f = None ->
  (y_outcome r = DispatchPending \/ y_outcome r = o) -> o <> DispatchPending ->
  settles (settle (y_sandbox r) (y_operation r) o r) f ->
  ledger_ok (map (settle (y_sandbox r) (y_operation r) o) rows) (l ++ [(y_sandbox r, f)]).
Proof.
  intros L I G P Q S. destruct (ledger_quiet rows l (y_sandbox r, f) L G) as [C O N U E].
  assert (K : forall r', r' ∈ rows -> settle (y_sandbox r) (y_operation r) o r' = r' \/ r' = r).
  { intros r' I'. destruct (decide (y_operation r' = y_operation r)) as [X | X].
    - right. by apply (unique_operation rows).
    - left. apply settle_other. congruence. }
  split.
  - rewrite <- C, map_map. apply map_ext. intros a. apply settle_claim.
  - rewrite map_map. erewrite map_ext; [exact O |]. intros a. pose proof (settle_claim (y_sandbox r) (y_operation r) o a) as X.
    by injection X.
  - intros x. specialize (N x). etransitivity; [apply Nat2Z.inj_le, filter_map_le | exact N]. intros a _. unfold of_sandbox.
    pose proof (settle_claim (y_sandbox r) (y_operation r) o a) as X. injection X as -> _ _ _ _ _ _. done.
  - intros x. specialize (U x). etransitivity; [apply filter_map_le | exact U]. intros a Ia.
    destruct (K a Ia) as [-> | ->]; [done |]. unfold outstanding, settle.
    rewrite (bool_decide_eq_true_2 (y_sandbox r = y_sandbox r)), (bool_decide_eq_true_2 (y_operation r = y_operation r)) by done. cbn.
    destruct P as [-> | ->]; [intros H; by apply andb_true_iff in H as [-> _] | done].
  - intros r' I' P'. apply list_elem_of_fmap in I' as (a & -> & Ia). destruct (K a Ia) as [X | ->].
    + rewrite X in P' |- *. by apply E.
    + exists f. pose proof (settle_claim (y_sandbox r) (y_operation r) o r) as X. injection X as -> _ _ _ _ _ _.
      split; [apply elem_of_app; right; by apply list_elem_of_singleton | done].
Qed.

(** What each part of a frame's transaction leaves alone. *)
Lemma policySequence_frame x f d t t1 : policySequence x f d t = Some t1 ->
  registry t1 = registry t /\ admissions t1 = admissions t /\ commands t1 = commands t.
Proof.
  unfold policySequence. destruct (MarshalFrame f); [| done]. destruct (_ && _); [intros [= <-]; done |].
  destruct (negb _); [done |]. destruct (negb _); [done |]. intros [= <-]. done.
Qed.

Lemma persistThread_frame e b m f t t1 : persistThread e b m f t = Some t1 ->
  registry t1 = registry t /\ admissions t1 = admissions t /\ commands t1 = commands t /\ sequences t1 = sequences t.
Proof.
  unfold persistThread. destruct (ThreadObservation f); [| done]. destruct (negb _); [done |].
  match goal with |- match ?o with _ => _ end = _ -> _ => destruct o as [[rows r] |]; [| done] end. destruct (_ != _); [done |].
  destruct (references t !! _) as [previous |]; [| done].
  destruct (previous != ""); [destruct (_ != _); [done | intros [= <-]; done] |]. destruct (negb _); [done |]. intros [= <-]. done.
Qed.

Lemma respond_frame e b m f t t1 : respond e b m f t = Some t1 ->
  registry t1 = registry t /\ admissions t1 = admissions t /\ sequences t1 = sequences t.
Proof.
  unfold respond. destruct (find_command _ _ _); [| done]. destruct (_ || _); [done |].
  assert (P : persistThread e b m f t = Some t1 -> registry t1 = registry t /\ admissions t1 = admissions t /\ sequences t1 = sequences t)
    by (intros X; apply persistThread_frame in X as (? & ? & _ & ?); done).
  destruct (f_Body _ f) as [[] |]; try (destruct (_ == _); [done | exact P]); cbn zeta;
    try (destruct (_ || _); [done |]); cbn iota; destruct (_ && _); try done; intros [= <-]; done.
Qed.

Lemma dispatch_frame s c m f k t t1 : dispatch s c m f k t = Some t1 ->
  registry t1 = registry t /\ admissions t1 = admissions t /\ sequences t1 = sequences t.
Proof.
  unfold dispatch. destruct (_ && _); [done |]. destruct (_ && _); [done |]. destruct (_ || _); [done |]. destruct (_ || _); [done |].
  by intros [= <-].
Qed.

(** Every command keeps its claim, and its outcome once it has one. *)
Definition rows_kept (l l' : list CommandRow) : Prop :=
  forall r, r ∈ l -> exists r', r' ∈ l' /\ row_claim r' = row_claim r
    /\ (y_outcome r = DispatchPending \/ y_outcome r' = y_outcome r).

Lemma rows_kept_refl l : rows_kept l l.
Proof. intros r I. exists r. split_and!; try done. by right. Qed.

Lemma rows_kept_trans l1 l2 l3 : rows_kept l1 l2 -> rows_kept l2 l3 -> rows_kept l1 l3.
Proof.
  intros H1 H2 r I. destruct (H1 r I) as (r1 & I1 & E1 & O1). destruct (H2 r1 I1) as (r2 & I2 & E2 & O2). exists r2.
  split_and!; [done | congruence |]. destruct O1 as [O1 | O1]; [by left |]. destruct O2 as [O2 | O2]; [left | right]; congruence.
Qed.

Lemma settle_kept rows r o :
  NoDup (map y_operation rows) -> r ∈ rows -> y_outcome r = DispatchPending \/ y_outcome r = o ->
  rows_kept rows (map (settle (y_sandbox r) (y_operation r) o) rows).
Proof.
  intros D I Q r' I'. exists (settle (y_sandbox r) (y_operation r) o r'). split_and!; [by apply list_elem_of_fmap_2 | apply settle_claim |].
  destruct (decide (y_operation r' = y_operation r)) as [Y | Y]; [| right; rewrite settle_other; [done | congruence]].
  rewrite (unique_operation _ r' r D I' I Y). unfold settle.
  rewrite (bool_decide_eq_true_2 (y_sandbox r = y_sandbox r)), (bool_decide_eq_true_2 (y_operation r = y_operation r)) by done. cbn.
  destruct Q as [-> | ->]; [by left | by right].
Qed.

Lemma settles_settled r f o :
  f_OperationId _ f = y_operation r -> y_digest r = f_RequestDigest _ f -> y_connection r = f_ConnectionId _ f ->
  y_epoch r = f_ConnectionEpoch _ f ->
  match o with
  | DispatchPending => True
  | DispatchAcknowledged => exists a, f_Body _ f = Some (BAcknowledgement a) /\ a_MessageId a = y_message r
      /\ a_RequestDigest a = y_digest r /\ a_AcceptedSequence a = y_sequence r
  | DispatchUnknown => exists code, f_Body _ f = Some (BFailure code)
  end -> settles (settle (y_sandbox r) (y_operation r) o r) f.
Proof.
  intros H1 H2 H3 H4 H. unfold settles, settle.
  rewrite (bool_decide_eq_true_2 (y_sandbox r = y_sandbox r)), (bool_decide_eq_true_2 (y_operation r = y_operation r)) by done.
  cbn. by split_and!.
Qed.

(** A response keeps the ledger. *)
Lemma respond_ledger e b m f t t1 l :
  ledger_ok (commands t) l -> respond e b m f t = Some t1 -> GetCommand f = None -> answerable f ->
  ledger_ok (commands t1) (l ++ [(SandboxID (RScope (Request b)), f)]) /\ rows_kept (commands t) (commands t1).
Proof.
  intros L H G A. unfold respond in H. destruct (find_command _ _ t) as [r |] eqn:F; [| done].
  apply find_command_some in F as (I & X & Op). destruct (_ || _) eqn:D in H; [done |].
  apply orb_false_iff in D as [D D3]. apply orb_false_iff in D as [D1 D2].
  apply negb_false_iff, bool_decide_eq_true in D1, D2. apply negb_false_iff, Z.eqb_eq in D3. unfold answerable in A.
  destruct (f_Body _ f) as [[] |] eqn:B; try done; cbn zeta in H; try (unfold GetCommand in G; by rewrite B in G).
  - destruct (_ == _) in H; [done |]. apply persistThread_frame in H as (_ & _ & -> & _).
    split; [by apply ledger_quiet | apply rows_kept_refl].
  - destruct (_ || _) eqn:K in H; [done |]. destruct (_ && _) eqn:P in H; [done |]. injection H as <-. cbn [commands with_commands].
    rewrite <- X, <- Op. apply orb_false_iff in K as [K _]. apply orb_false_iff in K as [K _]. apply orb_false_iff in K as [K K3].
    apply orb_false_iff in K as [K1 K2]. apply negb_false_iff, bool_decide_eq_true in K1, K2. apply negb_false_iff, Z.eqb_eq in K3.
    assert (Q : y_outcome r = DispatchPending \/ y_outcome r = DispatchAcknowledged) by (destruct (y_outcome r); auto; done).
    split; [| apply settle_kept; try done; apply L]. apply ledger_settle; try done. apply settles_settled; try done. by exists a.
  - destruct (_ && _) eqn:P in H; [done |]. injection H as <-. cbn [commands with_commands]. rewrite <- X, <- Op.
    assert (Q : y_outcome r = DispatchPending \/ y_outcome r = DispatchUnknown) by (destruct (y_outcome r); auto; done).
    split; [| apply settle_kept; try done; apply L]. apply ledger_settle; try done. apply settles_settled; try done. by exists code.
Qed.

(** ** Numbering *)

Definition frame_digest (f : Frame) : string :=
  match MarshalFrame f with Some raw => Sha256.Digest raw | None => "" end.

(** The number and digest of the frames of a connection in a direction. *)
Definition frames_on (key : ID * ID * string) (l : list (ID * Frame)) : list (Z * string) :=
  omap (fun p => if (fst p, f_ConnectionId _ (snd p), direction (snd p)) == key
                 then Some (f_Sequence _ (snd p), frame_digest (snd p)) else None) l.

(** Every frame is the one before it again or has the next number. *)
Fixpoint gapless (p : Z * string) (l : list (Z * string)) : Prop :=
  match l with
  | [] => True
  | q :: l => (q = p \/ fst q = fst p + 1) /\ gapless q l
  end.

Lemma gapless_snoc l : forall p q, gapless p l -> q = default p (last l) \/ fst q = fst (default p (last l)) + 1 -> gapless p (l ++ [q]).
Proof.
  induction l as [| a l IH]; intros p q G H; cbn; [done |]. destruct G as [G1 G2]. split; [done |]. apply IH; [done |].
  destruct l as [| b l]; [done |]. cbn [last] in *. destruct (last (b :: l)) eqn:E; [done |]. by apply last_None in E.
Qed.

Definition numbering_ok (m : gmap (ID * ID * string) (Z * string)) (l : list (ID * Frame)) : Prop :=
  forall key, gapless (0, "") (frames_on key l) /\ default (0, "") (m !! key) = default (0, "") (last (frames_on key l))
    /\ 0 <= fst (default (0, "") (m !! key)) <= max_int64.

Lemma omap_snoc {A B} (g : A -> option B) l a :
  omap g (l ++ [a]) = omap g l ++ match g a with Some b => [b] | None => [] end.
Proof. rewrite omap_app. cbn. by destruct (g a). Qed.

Lemma frames_on_snoc key l p : frames_on key (l ++ [p]) =
  frames_on key l ++ (if (fst p, f_ConnectionId _ (snd p), direction (snd p)) == key
                      then [(f_Sequence _ (snd p), frame_digest (snd p))] else []).
Proof. unfold frames_on. rewrite omap_snoc. f_equal. by destruct (bool_decide _). Qed.

Lemma policySequence_numbering x f t t1 l :
  numbering_ok (sequences t) l -> policySequence x f (direction f) t = Some t1 -> f_Sequence _ f <= max_int64 ->
  numbering_ok (sequences t1) (l ++ [(x, f)]).
Proof.
  intros N H M key. specialize (N key) as (G & L & R). rewrite frames_on_snoc. cbn [fst snd]. unfold policySequence in H.
  destruct (MarshalFrame f) as [raw |] eqn:D; [| done]. assert (FD : frame_digest f = Sha256.Digest raw) by (unfold frame_digest; by rewrite D).
  rewrite FD. set (key' := (x, f_ConnectionId _ f, direction f)) in *. destruct (key' == key) eqn:K.
  - apply bool_decide_eq_true in K. subst key. rewrite last_snoc.
    change (default (0, "") (Some (f_Sequence Body f, Sha256.Digest raw))) with (f_Sequence Body f, Sha256.Digest raw).
    destruct (_ && _) eqn:Q in H.
    + injection H as <-. apply andb_true_iff in Q as [Q1 Q2]. apply Z.eqb_eq in Q1. apply bool_decide_eq_true in Q2.
      assert (E : (f_Sequence _ f, Sha256.Digest raw) = default (0, "") (sequences t !! key')).
      { rewrite Q1, Q2. symmetry. apply surjective_pairing. }
      rewrite E. split_and!; try done; try apply R. apply gapless_snoc; [done |]. by left.
    + destruct (negb _) eqn:S in H; [done |]. destruct (negb (0 <? _)) in H; [done |]. injection H as <-. cbn [sequences with_sequences].
      rewrite lookup_insert_eq. change (default (0, "") (Some (f_Sequence Body f, Sha256.Digest raw))) with (f_Sequence Body f, Sha256.Digest raw).
      apply negb_false_iff, Z.eqb_eq in S. assert (B : 0 <= (default (0, "") (sequences t !! key')).1 < two64 - 1) by (destruct R as [R1 R2]; split; [exact R1 | eapply Z.le_lt_trans; [exact R2 | done]]).
      rewrite (u64_succ_small _ B) in S.
      split_and!; [| done | cbn [fst]; lia | done]. apply gapless_snoc; [done |]. right. rewrite <- L. exact S.
  - rewrite app_nil_r. apply bool_decide_eq_false in K. split; [done |]. rewrite <- L.
    destruct (_ && _) in H; [by injection H as <- |]. destruct (negb _) in H; [done |]. destruct (negb _) in H; [done |].
    injection H as <-. cbn [sequences with_sequences]. by rewrite lookup_insert_ne.
Qed.

(** ** The whole *)

Record world_ok (w : World) : Prop := {
  wk_registry : history (registry (store w)) (opened_log w);
  wk_ledger : ledger_ok (commands (store w)) (frames w);
  wk_numbers : numbering_ok (sequences (store w)) (frames w)
}.

(** What every step leaves behind: commands are kept, revocation stays. *)
Definition kept (w w' : World) : Prop :=
  rows_kept (commands (store w)) (commands (store w'))
  /\ forall x a, admissions (store w) !! x = Some a -> revoked a = true ->
       (exists a', admissions (store w') !! x = Some a' /\ revoked a' = true)
       /\ List.filter (fun p => fst p == x) (frames w') = List.filter (fun p => fst p == x) (frames w).

Lemma kept_same w w' : commands (store w) = commands (store w') -> admissions (store w) = admissions (store w') ->
  frames w = frames w' -> kept w w'.
Proof. intros E1 E2 E3. split; [rewrite E1; apply rows_kept_refl |]. rewrite E2, E3. eauto. Qed.

Lemma admissions_kept t t' rl l : commands t = commands t' ->
  (forall x a, admissions t !! x = Some a -> revoked a = true -> exists a', admissions t' !! x = Some a' /\ revoked a' = true) ->
  kept (mkWorld t rl l) (mkWorld t' rl l).
Proof. intros E H. split; cbn; [rewrite E; apply rows_kept_refl |]. intros x a A R. split; [by eapply H | done]. Qed.

Lemma revoked_refused e i c f t t' a :
  admissions t !! SandboxID (RScope (Request (IBinding i))) = Some a -> revoked a = true ->
  AuthorizeFrame e i c (Some f) t = (t', Ok tt) -> False.
Proof.
  intros A R H. apply authorize_inv in H as (b & m & t1 & X & L & _). unfold load in L. rewrite X, A, R in L. done.
Qed.

Lemma frame_step t rl l e i c f t' :
  world_ok (mkWorld t rl l) -> AuthorizeFrame e i c (Some f) t = (t', Ok tt) ->
  world_ok (mkWorld t' rl (l ++ [(SandboxID (RScope (Request (IBinding i))), f)]))
  /\ rows_kept (commands t) (commands t') /\ admissions t' = admissions t.
Proof.
  intros [R L N] H. cbn [store opened_log frames] in *. pose proof H as H'. apply authorize_inv in H as (b & m & t1 & X & _ & _ & Q & W & A & F1 & F2 & _ & F3).
  destruct (policySequence_frame _ _ _ _ _ Q) as (P1 & P2 & P3).
  pose proof (policySequence_numbering _ _ _ _ _ N Q F3) as N'. rewrite <- P3 in L |- *.
  destruct (GetCommand f) as [k |] eqn:G; [| destruct (f_OperationId _ f == "") eqn:O].
  - destruct (dispatch_frame _ _ _ _ _ _ _ W) as (D1 & D2 & D3). pose proof (ledger_dispatch _ _ _ _ _ _ _ _ L W G F1 F2) as L'.
    split_and!; [| | congruence].
    + split; cbn [store opened_log frames]; [by rewrite D1, P1 | done | by rewrite D3].
    + unfold dispatch in W. destruct (_ && _) in W; [done |]. destruct (_ && _) in W; [done |]. destruct (_ || _) in W; [done |].
      destruct (_ || _) in W; [done |]. injection W as <-. intros r I. exists r. cbn. split_and!; [apply elem_of_app; by left | done | by right].
  - subst t'. split_and!; [| apply rows_kept_refl | done]. split; cbn [store opened_log frames]; [by rewrite P1 | by apply ledger_quiet | done].
  - apply bool_decide_eq_false in O. destruct (respond_frame _ _ _ _ _ _ W) as (D1 & D2 & D3).
    destruct (respond_ledger _ _ _ _ _ _ _ L W G (A O)) as [L' K]. rewrite X in L'. split_and!; [| done | congruence].
    split; cbn [store opened_log frames]; [by rewrite D1, P1 | done | by rewrite D3].
Qed.

Lemma register_step e m t t' res : Register e m t = (t', res) ->
  registry t' = registry t /\ commands t' = commands t /\ sequences t' = sequences t
  /\ forall x a, admissions t !! x = Some a -> admissions t' !! x = Some a.
Proof.
  unfold Register. destruct (MaterializationJSON m) as [raw |]; [| by intros [= <- <-]]. destruct (_ <? _); [by intros [= <- <-] |].
  destruct (transaction _ _ _ _) as [u r] eqn:T. intros [= <- _].
  apply transaction_cases in T as [[-> _] | (b & a & W & _ & _ & _)]; [done |]. destruct (_ || _) in W; [done |].
  destruct (admissions t !! SandboxID _) eqn:A; [done |]. destruct (negb _) in W; [done |]. injection W as <- _. split_and!; try done.
  intros x a' E. cbn. rewrite lookup_insert_ne; [done |]. intros <-. by rewrite A in E.
Qed.

Lemma step_ok w w' : world_ok w -> step w w' -> world_ok w' /\ kept w w'.
Proof.
  intros K S. pose proof K as [R L N]. destruct S as [t rl l q clk call r' new H | t rl l ds | t rl l hs refs | t rl l e m t' res H | t rl l cm tenant x t' res H | t rl l e i c f t' res H];
    cbn [store opened_log frames] in *.
  - split; [| by apply kept_same]. split; cbn; [by eapply h_call | done | done].
  - split; [| by apply kept_same]. split; cbn; [by apply h_delivery | done | done].
  - split; [by split | by apply kept_same].
  - apply register_step in H as (E1 & E2 & E3 & E4). split; [split; cbn; by rewrite ?E1, ?E2, ?E3 |].
    apply admissions_kept; [done |]. intros x a A Z. exists a. split; [by apply E4 | done].
  - unfold Revoke in H. destruct (negb _) in H; [injection H as <- _; split; [done | by apply kept_same] |].
    destruct (admissions t !! x) as [a |] eqn:A; [| injection H as <- _; split; [done | by apply kept_same]].
    apply (f_equal fst) in H. rewrite settle_fst in H. cbn [fst] in H.
    destruct (took_effect cm); subst t'; [| split; [done | by apply kept_same]].
    split; [by split |]. apply admissions_kept; [done |]. intros y a' A' Z. cbn.
    destruct (decide (x = y)) as [<- |]; [rewrite lookup_insert_eq; by eexists | rewrite lookup_insert_ne by done; by exists a'].
  - apply frame_settled in H. destruct (frame_committed e i c f t); [| subst t'; split; [done | by apply kept_same]].
    destruct (frame_step _ _ _ _ _ _ _ _ K H) as (K' & P & E). split; [done |]. split; cbn; [done |]. intros x a A Z. rewrite E.
    split; [by exists a |]. rewrite List.filter_app. cbn. destruct (_ == x) eqn:X; [| by rewrite app_nil_r].
    apply bool_decide_eq_true in X. subst x. destruct (revoked_refused _ _ _ _ _ _ _ A Z H).
Qed.

Lemma reach_ok ds hs refs w : rtc step (start_world ds hs refs) w -> world_ok w.
Proof.
  intros H. assert (K : world_ok (start_world ds hs refs)).
  { split; cbn; [apply h_start | | intros key; cbn; rewrite lookup_empty; cbn; unfold max_int64; split_and!; done || lia].
    split; cbn; try done; try lia; [apply NoDup_nil_2 | intros r I; by apply not_elem_of_nil in I]. }
  induction H as [w | w u v S _ IH]; [done |]. apply IH. by apply (step_ok w u K S).
Qed.

Lemma reach_kept ds hs refs w w' : rtc step (start_world ds hs refs) w -> rtc step w w' -> kept w w'.
Proof.
  intros H R. pose proof (reach_ok ds hs refs w H) as K. clear H. induction R as [w | w u v S _ IH].
  - by apply kept_same.
  - destruct (step_ok w u K S) as [K' [P1 P2]]. specialize (IH K') as [Q1 Q2]. split; [by eapply rows_kept_trans |].
    intros x a A Z. destruct (P2 x a A Z) as [(a' & A' & Z') E]. destruct (Q2 x a' A' Z') as [? E']. split; [done |]. by rewrite E'.
Qed.

Lemma frame_newest w e i c f t' :
  world_ok w -> AuthorizeFrame e i c (Some f) (store w) = (t', Ok tt) ->
  exists o, last (openings (SandboxID (RScope (Request (IBinding i)))) (opened_log w)) = Some o
    /\ CID (v_conn o) = f_ConnectionId _ f /\ epoch_of o = f_ConnectionEpoch _ f.
Proof.
  intros [R _ _] H. apply authorize_inv in H as (b & m & t1 & _ & _ & C & _ & _ & _ & F1 & F2 & _). unfold connection_current in C.
  pose proof (ro_states _ _ (history_registry _ _ R) (SandboxID (RScope (Request (IBinding i))))) as S.
  destruct (states _ !! _) as [s |]; [| done]. destruct (z_conn s) as [k |] eqn:K; [| done].
  destruct (so_conn _ _ _ S k K) as (o & L & O1 & O2 & _). apply andb_true_iff in C as [C _]. apply andb_true_iff in C as [C1 C2].
  apply bool_decide_eq_true in C1. apply Z.eqb_eq in C2. exists o. split_and!; [done | congruence | congruence].
Qed.

(** C27: The dispatch ledger.  However agents, operators and the registry interleave, and
    whichever commits lose their answer: the commands whose authorisation was committed are exactly the rows of the ledger, in order, each
    operation once; a sandbox has at most one command without an acknowledgement and at
    most 128 commands; the frames of a connection in a direction are numbered from one
    without a gap, a repetition being the latest frame again; and whatever frame is
    authorised next travels on the newest connection of its sandbox. *)
Theorem dispatch_ledger ds hs refs w (H : rtc step (start_world ds hs refs) w) :
  map row_claim (commands (store w)) = map frame_claim (dispatched (frames w))
  /\ NoDup (map (fun p => f_OperationId _ (snd p)) (dispatched (frames w)))
  /\ (forall x, (length (List.filter (outstanding x) (commands (store w))) <= 1)%nat
        /\ Z.of_nat (length (List.filter (of_sandbox x) (commands (store w)))) <= 128)
  /\ (forall key, gapless (0, "") (frames_on key (frames w)))
  /\ (forall e i c f t', AuthorizeFrame e i c (Some f) (store w) = (t', Ok tt) ->
        exists o, last (openings (SandboxID (RScope (Request (IBinding i)))) (opened_log w)) = Some o
          /\ CID (v_conn o) = f_ConnectionId _ f /\ epoch_of o = f_ConnectionEpoch _ f).
Proof.
  pose proof (reach_ok ds hs refs w H) as K. pose proof K as [R L N]. split_and!.
  - apply L.
  - assert (E : map (fun p => f_OperationId _ (snd p)) (dispatched (frames w)) = map y_operation (commands (store w))).
    { pose proof (f_equal (map (fun k => snd (fst (fst (fst (fst (fst k))))))) (lk_claims _ _ L)) as C. rewrite !map_map in C. symmetry. exact C. }
    rewrite E. apply L.
  - intros x. split; [apply (lk_one _ _ L) | apply (lk_count _ _ L)].
  - intros key. apply N.
  - intros e i c f t' A. by eapply frame_newest.
Qed.

(** Outcomes are evidence and final: from any reachable state on, every command keeps
    its claim, and its outcome once it is acknowledged or unknown; an acknowledged command
    was acknowledged by a frame of its own connection that names its operation, digest,
    message and number, and one of unknown outcome was failed by such a frame. *)
Theorem dispatch_outcome_final ds hs refs w w' (H : rtc step (start_world ds hs refs) w) (K : rtc step w w') :
  rows_kept (commands (store w)) (commands (store w'))
  /\ (forall r, r ∈ commands (store w') -> y_outcome r <> DispatchPending ->
        exists f, (y_sandbox r, f) ∈ frames w' /\ settles r f).
Proof.
  split; [by apply (reach_kept ds hs refs w w') |].
  assert (R : rtc step (start_world ds hs refs) w') by (by etransitivity). intros r. apply (lk_evidence _ _ (wk_ledger _ (reach_ok ds hs refs w' R))).
Qed.

(** Revocation is final: once the admission of a sandbox is revoked, the authorisation of no
    further frame of that sandbox is committed, whatever is connected, registered or revoked afterwards. *)
Theorem revocation_final ds hs refs w w' x a (H : rtc step (start_world ds hs refs) w) (K : rtc step w w')
    (A : admissions (store w) !! x = Some a) (R : revoked a = true) :
  List.filter (fun p => fst p == x) (frames w') = List.filter (fun p => fst p == x) (frames w).
Proof. by apply (proj2 (reach_kept ds hs refs w w' H K) x a A R). Qed.
End Policy.

(** ** Witnesses: a status command is dispatched on a bootstrapped connection,
    acknowledged, and the sandbox is revoked. *)

Definition ex_url (_ : string) : option URL := Some (mkURL "https" false "ar.local" "" "" "" false "" "ar.local" "").

Definition ex_config : Config :=
  mkConfig 0 1 "https://ar.local" "ar.local" (Some ex_agent_binding) digest_a "pi" digest_a
    (Some (mkVersionRange 1 0 0 "")) [Capability; "rotation.v1"] [Capability; "rotation.v1"] (Some HardLimits)
    (mkHarnessConfig ["/usr/bin/agent"] "/workspace" 1000 1000 1000).

Definition ex_materialization : AgentdMaterialization :=
  mkMaterialization ex_config ex_challenge digest_a "grant-1" digest_b (Operation_Digest (ROperation ex_arequest)) id1 "" "" ""
    (at_second 800) (at_second 600).

Definition ex_env : Env :=
  mkEnv ex_answers (fun _ => Some (mkExecutionRow "LOCAL" "thinkpixelar/local" "grant-1" digest_a (at_second 0) (at_second 850)))
    (fun n => at_second (200 + Z.of_nat n)) (fun n => at_second (210 + Z.of_nat n)) true.

Definition ex_config_json (c : Config) : string := Endpoint c.

Definition ex_dispatch : Frame :=
  let digest := Sha256.Digest (ex_config_json ex_config) in
  mkEnvelope Body 1 0 id3 1 id4 1 (Some ex_agent_binding) id1 id2 (Control.Digest STATUS digest id1)
    (UnixMilli (at_second 205)) (UnixMilli (at_second 700)) (Some (BCommand (mkCommandBody STATUS digest Capability "" ""))) "".

Definition ex_reply : Frame :=
  let digest := f_RequestDigest _ ex_dispatch in
  mkEnvelope Body 1 0 id3 1 id2 1 (Some ex_agent_binding) id1 id2 digest 0 0
    (Some (BAcknowledgement (mkAcknowledgementBody id4 digest 1 0))) "".

Abbreviation ex_with F :=
  (F ex_url (fun _ => false) ex_size ex_encoding ex_equal (fun _ => true) (fun _ => 1) (fun f => Some (f_MessageId Body f))
     ex_config_json) (only parsing).

Definition ex_authorize : Env -> ComputeIntent -> Connection -> option Frame -> Store -> Store * result PolicyError unit :=
  ex_with AuthorizeFrame (fun _ => Some ex_materialization) digest_b.

Definition ex_step : World -> World -> Prop := ex_with step (fun _ => Some "snapshot") (fun _ => Some ex_materialization) digest_b.

Definition ex_connected : Tables * list Entry :=
  fold_left (fun st c => let (t', new) := run ex_answers ex_clock c (fst st) in (t', snd st ++ new)) (take 3 ex_calls)
    (mkTables ∅ [] [], []).

Definition ex_link : Connection := mkConnection id3 1 (at_second 450).

Definition ex_initial : Store := mkStore (mkTables ∅ [] []) ∅ [] ∅ [] ∅.

Definition ex_materialized : Store :=
  fst (Register ex_url (fun _ => false) ex_size ex_encoding ex_equal (fun _ => Some "snapshot") digest_b ex_env ex_materialization
         (with_registry ex_initial (fst ex_connected))).

Definition ex_sent : Store := fst (ex_authorize ex_env ex_intent ex_link (Some ex_dispatch) ex_materialized).
Definition ex_settled : Store := fst (ex_authorize ex_env ex_intent ex_link (Some ex_reply) ex_sent).
Definition ex_revoked : Store := fst (Revoke CommitDone id1 id2 ex_settled).

Definition ex_world : World := mkWorld ex_settled (snd ex_connected) [(id2, ex_dispatch); (id2, ex_reply)].
Definition ex_end : World := mkWorld ex_revoked (snd ex_connected) [(id2, ex_dispatch); (id2, ex_reply)].

Lemma ex_registered cs : forall t rl l,
  rtc ex_step (mkWorld t rl l)
    (let st := fold_left (fun st c => let (t', new) := run ex_answers ex_clock c (fst st) in (t', snd st ++ new)) cs (registry t, rl) in
     mkWorld (with_registry t (fst st)) (snd st) l).
Proof.
  induction cs as [| c cs IH]; intros t rl l; cbn [fold_left fst snd].
  - destruct t. apply rtc_refl.
  - destruct (run ex_answers ex_clock c (registry t)) as [r new] eqn:E. eapply rtc_l; [by eapply s_registry |].
    exact (IH (with_registry t r) (rl ++ new) l).
Qed.

Lemma ex_frame_step t rl l f : snd (ex_authorize ex_env ex_intent ex_link (Some f) t) = Ok tt ->
  ex_step (mkWorld t rl l) (mkWorld (fst (ex_authorize ex_env ex_intent ex_link (Some f) t)) rl (l ++ [(id2, f)])).
Proof.
  intros H. pose proof (s_frame ex_url (fun _ => false) ex_size ex_encoding ex_equal (fun _ => true) (fun _ => 1)
    (fun f => Some (f_MessageId Body f)) ex_config_json (fun _ => Some "snapshot") (fun _ => Some ex_materialization) digest_b
    t rl l ex_env ex_intent ex_link f _ _ (surjective_pairing _)) as S.
  assert (E : ex_with frame_committed (fun _ => Some ex_materialization) digest_b ex_env ex_intent ex_link f t = true).
  { unfold frame_committed. change (answering_env ex_env) with ex_env. change (took_effect (q_commit (e_answers ex_env))) with true.
    cbn [andb]. change (is_ok (snd (ex_authorize ex_env ex_intent ex_link (Some f) t)) = true). by rewrite H. }
  rewrite E in S. exact S.
Qed.

Lemma ex_sent_ok : snd (ex_authorize ex_env ex_intent ex_link (Some ex_dispatch) ex_materialized) = Ok tt.
Proof. vm_compute. reflexivity. Qed.

Lemma ex_settled_ok : snd (ex_authorize ex_env ex_intent ex_link (Some ex_reply) ex_sent) = Ok tt.
Proof. vm_compute. reflexivity. Qed.

Lemma ex_world_reached : rtc ex_step (start_world [] [] ∅) ex_world.
Proof.
  etransitivity; [apply (ex_registered (take 3 ex_calls)) |].
  eapply rtc_l; [eapply s_materialize; apply surjective_pairing |].
  eapply rtc_l; [apply ex_frame_step, ex_sent_ok |]. eapply rtc_l; [apply ex_frame_step, ex_settled_ok |]. apply rtc_refl.
Qed.

Lemma ex_end_reached : rtc ex_step ex_world ex_end.
Proof. eapply rtc_l; [eapply s_revoke; apply surjective_pairing |]. apply rtc_refl. Qed.

Lemma ex_revoked_row : admissions (store ex_end) !! id2 = Some (mkAdmissionRow "snapshot" true).
Proof. vm_compute. reflexivity. Qed.

Lemma dispatch_ledger_witness :
  map row_claim (commands (store ex_world)) = [frame_claim (id2, ex_dispatch)]
  /\ NoDup (map (fun p => f_OperationId _ (snd p)) (dispatched (frames ex_world))).
Proof.
  destruct (ex_with dispatch_ledger _ _ _ [] [] ∅ ex_world ex_world_reached) as (C & O & _).
  split; [exact C | exact O].
Defined.

Lemma dispatch_outcome_final_witness :
  rows_kept (commands (store ex_world)) (commands (store ex_end)).
Proof.
  exact (proj1 (ex_with dispatch_outcome_final _ _ _ [] [] ∅ ex_world ex_end ex_world_reached ex_end_reached)).
Defined.

Lemma ex_end_from_start : rtc ex_step (start_world [] [] ∅) ex_end.
Proof. etransitivity; [exact ex_world_reached | exact ex_end_reached]. Qed.

(** The agent reconnects after the revocation. *)
Definition ex_reconnected : World :=
  let st := fold_left (fun st c => let (t', new) := run ex_answers ex_clock c (fst st) in (t', snd st ++ new)) (drop 4 ex_calls)
              (registry ex_revoked, snd ex_connected) in
  mkWorld (with_registry ex_revoked (fst st)) (snd st) [(id2, ex_dispatch); (id2, ex_reply)].

Lemma revocation_final_witness :
  List.filter (fun p => fst p == id2) (frames ex_reconnected) = [(id2, ex_dispatch); (id2, ex_reply)].
Proof.
  exact (ex_with revocation_final _ _ _ [] [] ∅ ex_end ex_reconnected id2 (mkAdmissionRow "snapshot" true)
           ex_end_from_start (ex_registered (drop 4 ex_calls) ex_revoked (snd ex_connected) _) ex_revoked_row eq_refl).
Defined.
