(* ===== verification/ProcessControl.v ===== *)
(** * internal/app/agentd/control_linux.go: executing commands

    [ProcessControl.execute] with its bounded ledger of operations, and [CheckClient] and
    [Disconnected].  The process supervisor answers as calls; the calls of [execute] are
    serialised by the [operation] lock, so a history is a sequence of them.

    Proved, for every sequence of commands and every behaviour of the supervisor: an
    operation reaches the supervisor at most once ever, whatever its frame is repeated
    with; a repetition is answered with the recorded result and a different request under
    the same operation fails; the supervisor only ever serves one harness handle, the one
    of the first start; and the ledger never exceeds 128 operations. *)

From Stdlib Require Import ZArith Bool Lia.
From stdpp Require Import base strings list gmap.
From S2P Require Import Prelude Regex GoStd Sha256 Primitives Interaction.
From S2P Require Import Handshake AgentdAdmission Control ControlReports.

(** The observation of the process; only its identity is used here. *)
Record ProcessStatus : Type := mkProcessStatus { ps_ProcessID : ID; ps_State : Z }.

Record commandResult : Type := mkResult {
  digest : string;
  failed : bool;
  status : ProcessStatus;
  thread : ThreadStarted
}.

Definition noStatus : ProcessStatus := mkProcessStatus "" 0.
Definition noThread : ThreadStarted := mkThreadStarted "" "".

(** [commandResult{digest: d, failed: true}] *)
Definition failure (d : string) : commandResult := mkResult d true noStatus noThread.

Record ProcessControl : Type := mkProcessControl {
  handle : string;
  operations : gmap string commandResult
}.

(** [Stop] succeeds, meets another process ([ErrProcessStale]) or fails. *)
Inductive StopAnswer : Type := Stopped | StopStale | StopFailed.

(** The supervisor's operations; an answer is whether it succeeded. *)
Inductive pport : Type -> Type :=
| PTryLock : pport bool
| PNow : pport Z
| PStatus : pport ProcessStatus
| PStart : pport bool
| PStartTurn (operation : ID) (input : TurnInput) : pport bool
| PRestart (id : ID) : pport bool
| PInterruptTurn (id : ID) : pport bool
| PStop (id : ID) : pport StopAnswer
| PChild : pport ThreadStarted
| PCloseOutput (id : ID) : pport unit.

Section Control.

(** The digest of the configuration and what it enables. *)
Variable configuration : string.
Variable executeTurn : bool.
Variable createThread : bool.

(** [checkCommand], at a reading of the clock. *)
Definition checkCommand (now : Z) (f : Frame) : bool :=
  negb (match GetCommand f with Some c => c_Kind c =? EXECUTE | None => false end && negb executeTurn)
  && is_ok (Command now (Some f) configuration).

(** [CheckClient] *)
Definition CheckClient (now : Z) (f : Frame) : bool :=
  match f_Body _ f with
  | Some (BCommand _) => checkCommand now f
  | Some (BRotation r) => (r_Kind r =? 1) || (r_Kind r =? 2)
  | Some (BHeartbeat _) | Some (BAcknowledgement _) | Some (BObservation _) | Some (BFailure _) => true
  | Some (BHello _) | Some (BWelcome _) | None => false
  end.

(** The [switch] of [execute]: the handle and whether the operation succeeded, or [None]
    for a kind without a case. *)
Definition perform (p : ProcessControl) (f : Frame) (c : CommandBody) (id : ID) : prog pport (option (string * bool)) :=
  if c_Kind c =? START then
    if handle p != "" then Ret (Some (handle p, false))
    else do! ok <- trigger PStart; Ret (Some (f_HarnessHandle _ f, ok))
  else if c_Kind c =? EXECUTE then
    if handle p != f_HarnessHandle _ f then Ret (Some (handle p, false))
    else match DecodeTurnInput (c_Payload c) with
    | Err _ => Ret (Some (handle p, false))
    | Ok input => do! ok <- trigger (PStartTurn (f_OperationId _ f) input); Ret (Some (handle p, ok))
    end
  else if c_Kind c =? STATUS then
    Ret (Some (handle p, negb ((handle p != "") && (handle p != f_HarnessHandle _ f))))
  else if (c_Kind c =? STOP) || (c_Kind c =? INTERRUPT) || (c_Kind c =? RESTART) then
    if (handle p != f_HarnessHandle _ f) || (id == "") then Ret (Some (handle p, false))
    else if c_Kind c =? RESTART then do! ok <- trigger (PRestart id); Ret (Some (handle p, ok))
    else if (c_Kind c =? INTERRUPT) && executeTurn then do! ok <- trigger (PInterruptTurn id); Ret (Some (handle p, ok))
    else do! a <- trigger (PStop id); Ret (Some (handle p, match a with Stopped => true | _ => false end))
  else Ret None.

Definition execute (p : ProcessControl) (f : Frame) : prog pport (ProcessControl * commandResult) :=
  do! locked <- trigger PTryLock;
  if negb locked then Ret (p, failure "")
  else
    do! now <- trigger PNow;
    if negb (checkCommand now f) then Ret (p, failure "")
    else match operations p !! f_OperationId _ f with
    | Some old => Ret (p, if digest old != f_RequestDigest _ f then failure "" else old)
    | None =>
        if 128 <=? Z.of_nat (size (operations p)) then Ret (p, failure "")
        else match GetCommand f with
        | None => Ret (p, failure "")
        | Some c =>
            let result := failure (f_RequestDigest _ f) in
            let reserved := mkProcessControl (handle p) (<[f_OperationId _ f := result]> (operations p)) in
            do! st <- trigger PStatus;
            do! r <- perform reserved f c (ps_ProcessID st);
            match r with
            | None => Ret (reserved, result)
            | Some (h, ok) =>
                if (h != f_HarnessHandle _ f) && negb (c_Kind c =? STATUS)
                then Ret (mkProcessControl h (operations reserved), result)
                else
                  do! st <- trigger PStatus;
                  do! t <- (if negb (negb (ok && (c_Kind c =? START) && createThread)) then trigger PChild else Ret noThread);
                  let result := mkResult (f_RequestDigest _ f) (negb ok) st t in
                  Ret (mkProcessControl h (<[f_OperationId _ f := result]> (operations p)), result)
            end
        end
    end.

(** [Disconnected] stops the process, if there is one, and abandons its output. *)
Definition Disconnected : prog pport bool :=
  do! st <- trigger PStatus;
  if ps_ProcessID st == "" then Ret true
  else
    do! a <- trigger (PStop (ps_ProcessID st));
    match a with
    | Stopped | StopStale => do! _ <- trigger (PCloseOutput (ps_ProcessID st)); Ret true
    | StopFailed => Ret false
    end.

(** ** Histories *)

(** The calls that change the process. *)
Definition mutation (e : event pport) : bool :=
  match projT2 e with
  | (c, _) => match c with
              | PStart | PStartTurn _ _ | PRestart _ | PInterruptTurn _ | PStop _ => true
              | _ => false
              end
  end.

Definition mutations (tr : list (event pport)) : list (event pport) := List.filter mutation tr.

(** A command that was executed: its frame, the calls it made and its result. *)
Record Executed : Type := mkExecuted { x_frame : Frame; x_calls : list (event pport); x_result : commandResult }.

Definition operation (x : Executed) : string := f_OperationId _ (x_frame x).

(** The commands of one supervisor's lifetime; disconnections in between do not touch the
    ledger. *)
Inductive lifetime : ProcessControl -> list Executed -> Prop :=
| l_start : lifetime (mkProcessControl "" ∅) []
| l_execute p l f tr p' r : lifetime p l -> runs (execute p f) tr (p', r) -> lifetime p' (l ++ [mkExecuted f tr r]).

(** What one call of [execute] does. *)
Definition refused (p p' : ProcessControl) (f : Frame) (tr : list (event pport)) (r : commandResult) : Prop :=
  p' = p /\ mutations tr = [] /\ (r = failure "" \/ operations p !! f_OperationId _ f = Some r).

Definition recorded (p p' : ProcessControl) (f : Frame) (tr : list (event pport)) (r : commandResult) : Prop :=
  operations p !! f_OperationId _ f = None /\ Z.of_nat (size (operations p)) < 128
  /\ operations p' = <[f_OperationId _ f := r]> (operations p) /\ (length (mutations tr) <= 1)%nat
  /\ (handle p' = handle p \/ handle p = "")
  /\ (mutations tr <> [] -> handle p' = f_HarnessHandle _ f) /\ f_HarnessHandle _ f <> "".

Lemma perform_spec p f c id tr o :
  runs (perform p f c id) tr o ->
  (length (mutations tr) <= 1)%nat
  /\ (mutations tr <> [] -> exists ok, o = Some (f_HarnessHandle _ f, ok))
  /\ match o with Some (h, _) => h = handle p \/ handle p = "" | None => True end.
Proof.
  intros H. unfold perform in H.
  repeat (match type of H with context [if ?b then _ else _] => let E := fresh "E" in destruct b eqn:E end);
    try (destruct (DecodeTurnInput _) as [input | e]); cbn [pbind trigger runs] in H;
    try (destruct H as [-> ->]; cbn; split_and!; try done; auto; lia);
    destruct H as (ans & t & -> & -> & ->); cbn; split_and!; try lia; try (by left); try (by eexists); simp_bool; try (by right);
    intros _; match goal with X : handle _ = _ |- _ => rewrite X end; by eexists.
Qed.

Lemma mutations_app t1 t2 : mutations (t1 ++ t2) = mutations t1 ++ mutations t2.
Proof. apply List.filter_app. Qed.

Lemma checkCommand_handle now f : checkCommand now f = true -> f_HarnessHandle _ f <> "".
Proof.
  unfold checkCommand. intros H E. apply andb_true_iff in H as [_ H]. unfold Command in H. destruct (GetCommand f) as [c |]; [| done].
  destruct (if c_Kind c =? EXECUTE then _ else _); cbn [rbind] in H; [| done]. by rewrite E in H.
Qed.

Lemma execute_spec p f tr p' r : runs (execute p f) tr (p', r) -> refused p p' f tr r \/ recorded p p' f tr r.
Proof.
  intros H. unfold execute in H. cbn [pbind trigger runs] in H. destruct H as (locked & t & -> & H).
  destruct (negb locked) in H; [destruct H as [-> [= -> ->]]; left; by repeat split; left |].
  cbn [pbind trigger runs] in H. destruct H as (now & t1 & -> & H).
  destruct (negb (checkCommand _ _)) eqn:CC in H; [destruct H as [-> [= -> ->]]; left; by repeat split; left |].
  apply negb_false_iff, checkCommand_handle in CC.
  destruct (operations p !! _) as [old |] eqn:O.
  { destruct H as [-> [= -> ->]]. left. split_and!; try done. destruct (_ != _); [by left | by right]. }
  destruct (_ <=? _) eqn:Z in H; [destruct H as [-> [= -> ->]]; left; by repeat split; left |].
  destruct (GetCommand f) as [c |]; [| destruct H as [-> [= -> ->]]; left; by repeat split; left].
  cbn zeta in H. cbn [pbind trigger runs] in H. destruct H as (st & t2 & -> & H). right. apply Z.leb_gt in Z.
  apply runs_bind in H as (u1 & u2 & o & -> & P & H). apply perform_spec in P as (P1 & P2 & P3).
  assert (M : forall v, mutations (occurred PTryLock locked :: occurred PNow now :: occurred PStatus st :: u1 ++ v) = mutations u1 ++ mutations v)
    by (intros v; cbn; apply mutations_app).
  unfold recorded. destruct o as [[h ok] |].
  - destruct (_ && _) eqn:K in H.
    + destruct H as [-> [= -> ->]]. rewrite M, app_nil_r. cbn [operations handle]. split_and!; try done.
      intros N. destruct (P2 N) as [ok' [= <- <-]]. done.
    + cbn [pbind trigger runs] in H. destruct H as (st' & t3 & -> & H). apply runs_bind in H as (v1 & v2 & th & -> & V & [-> [= -> ->]]).
      assert (mutations v1 = []) as V0.
      { destruct (negb _) in V; cbn [trigger runs] in V; [by destruct V as (? & ? & -> & -> & _) | by destruct V as [-> _]]. }
      rewrite M. change (mutations (occurred PStatus st' :: v1 ++ [])) with (mutations (v1 ++ [])). rewrite app_nil_r, V0, app_nil_r.
      cbn [operations handle]. split_and!; try done. intros N. destruct (P2 N) as [ok' [= <- <-]]. done.
  - destruct H as [-> [= -> ->]]. rewrite M, app_nil_r. cbn [operations handle]. split_and!; try done; [by left |].
    intros N. by destruct (P2 N) as [ok' ?].
Qed.

Definition active (x : Executed) : bool := negb (bool_decide (mutations (x_calls x) = [])).

Lemma active_spec x : active x = true <-> mutations (x_calls x) <> [].
Proof. unfold active. rewrite negb_true_iff. apply bool_decide_eq_false. Qed.

(** The ledger after a lifetime. *)
Record ledger (p : ProcessControl) (l : list Executed) : Prop := {
  lg_size : Z.of_nat (size (operations p)) <= 128;
  lg_results : Forall (fun x => x_result x = failure "" \/ operations p !! operation x = Some (x_result x)) l;
  lg_once : NoDup (map operation (List.filter active l));
  lg_single : Forall (fun x => (length (mutations (x_calls x)) <= 1)%nat
                /\ (mutations (x_calls x) <> [] -> f_HarnessHandle _ (x_frame x) = handle p /\ handle p <> "" /\ is_Some (operations p !! operation x))) l
}.

Lemma ledger_execute p l f tr p' r : ledger p l -> runs (execute p f) tr (p', r) -> ledger p' (l ++ [mkExecuted f tr r]).
Proof.
  intros [S R O H] E. rewrite Forall_forall in R, H. apply execute_spec in E as [(-> & M & F) | (N & B & U & L1 & K & L2 & NE)].
  - assert (Q : active (mkExecuted f tr r) = false) by (apply not_true_iff_false; rewrite active_spec; auto).
    split; [done | | |].
    + apply Forall_app. rewrite Forall_forall. split; [done | by constructor].
    + rewrite List.filter_app. cbn [List.filter]. rewrite Q. by rewrite app_nil_r.
    + apply Forall_app. rewrite Forall_forall. split; [done |]. constructor; [| done]. cbn [x_calls]. rewrite M. split; [cbn; lia | done].
  - assert (X : forall x, is_Some (operations p !! operation x) -> operation x <> f_OperationId _ f) by (intros x [y Y] Z; by rewrite Z, N in Y).
    split.
    + rewrite U, map_size_insert_None by done. lia.
    + apply Forall_app. split; [| constructor; [right; cbn; by rewrite U, lookup_insert_eq | done]].
      rewrite Forall_forall. intros x I. destruct (R x I) as [-> | Y]; [by left |]. right. rewrite U, lookup_insert_ne; [done |].
      intros Q. by apply (X x); [eexists |].
    + rewrite List.filter_app, map_app. cbn [List.filter]. destruct (active _); cbn; [| by rewrite app_nil_r].
      apply NoDup_app. split_and!; [done | | apply NoDup_singleton]. intros o I J. apply list_elem_of_singleton in J. cbn in J. subst o.
      apply list_elem_of_fmap in I as (x & Q & I). apply list_elem_of_In, filter_In in I as [I Y]. apply list_elem_of_In in I.
      apply active_spec in Y. destruct (H x I) as [_ H']. destruct (H' Y) as (_ & _ & H3). by apply (X x H3).
    + apply Forall_app. split; [| constructor; [| done]].
      * rewrite Forall_forall. intros x I. destruct (H x I) as [H1 H2]. split; [done |]. intros Y. destruct (H2 Y) as (H3 & H4 & H5).
        destruct K as [-> | K]; [| done]. split_and!; [done | done |]. rewrite U, lookup_insert_ne; [done | intros Q; by apply (X x H5)].
      * cbn. split; [done |]. intros Y. rewrite L2 by done. split_and!; [done | done |]. rewrite U, lookup_insert_eq. by eexists.
Qed.

Lemma lifetime_ledger p l : lifetime p l -> ledger p l.
Proof.
  induction 1 as [| p l f tr p' r _ IH E]; [| by eapply ledger_execute].
  split; cbn; [rewrite map_size_empty; lia | constructor | apply NoDup_nil_2 | constructor].
Qed.

(** C29: Commands take effect once.  In the lifetime of a supervisor, whatever commands arrive
    and however the process behaves: a command makes at most one call that changes the
    process, and no operation ever makes a second one; a command is answered with the
    result that its operation has in the ledger, or refused without one; all changes are
    for one harness handle; and the ledger holds at most 128 operations. *)
Theorem control_effects_once p l (H : lifetime p l) :
  Forall (fun x => (length (mutations (x_calls x)) <= 1)%nat) l
  /\ NoDup (map operation (List.filter active l))
  /\ Forall (fun x => x_result x = failure "" \/ operations p !! operation x = Some (x_result x)) l
  /\ Forall (fun x => active x = true -> f_HarnessHandle _ (x_frame x) = handle p) l
  /\ Z.of_nat (size (operations p)) <= 128.
Proof.
  destruct (lifetime_ledger p l H) as [S R O K]. split_and!; try done.
  - eapply Forall_impl; [exact K |]. by intros x [? _].
  - eapply Forall_impl; [exact K |]. intros x [_ X] A. apply active_spec in A. by destruct (X A) as [? _].
Qed.
End Control.

(** ** Witness: a start that is repeated reaches the process once. *)

Definition ex_start_frame : Frame :=
  mkEnvelope Body 1 0 id4 7 id3 1 None id2 id1 (Control.Digest START digest_a id2) 1000 9000
    (Some (BCommand (mkCommandBody START digest_a Capability "" ""))) "".

Definition ex_start_result : commandResult :=
  mkResult (Control.Digest START digest_a id2) false (mkProcessStatus id3 2) noThread.

Definition ex_ledger : ProcessControl := mkProcessControl id2 {[ id1 := ex_start_result ]}.

Definition ex_first : list (event pport) :=
  [occurred PTryLock true; occurred PNow 2000; occurred PStatus noStatus; occurred PStart true;
   occurred PStatus (mkProcessStatus id3 2)].

Definition ex_second : list (event pport) := [occurred PTryLock true; occurred PNow 2000].

Lemma ex_start_accepted : checkCommand digest_a false 2000 ex_start_frame = true.
Proof. vm_compute. reflexivity. Qed.

Lemma ex_first_run :
  runs (execute digest_a false false (mkProcessControl "" ∅) ex_start_frame) ex_first (ex_ledger, ex_start_result).
Proof.
  unfold execute, ex_first. eexists _, _. split; [reflexivity |]. cbn [negb pbind trigger]. eexists _, _. split; [reflexivity |].
  cbn [pbind]. rewrite ex_start_accepted. cbn [negb operations]. rewrite lookup_empty, map_size_empty. cbn.
  do 3 (eexists _, _; split; [reflexivity |]; cbn). done.
Qed.

Lemma ex_second_run : runs (execute digest_a false false ex_ledger ex_start_frame) ex_second (ex_ledger, ex_start_result).
Proof.
  unfold execute, ex_second. eexists _, _. split; [reflexivity |]. cbn [negb pbind trigger]. eexists _, _. split; [reflexivity |].
  cbn [pbind]. rewrite ex_start_accepted. cbn [negb operations ex_ledger]. change (f_OperationId Body ex_start_frame) with id1.
  rewrite lookup_singleton_eq. change (digest ex_start_result) with (f_RequestDigest Body ex_start_frame).
  by rewrite bool_decide_eq_true_2.
Qed.

Lemma control_effects_once_witness :
  let l := [mkExecuted ex_start_frame ex_first ex_start_result; mkExecuted ex_start_frame ex_second ex_start_result] in
  lifetime digest_a false false ex_ledger l /\ NoDup (map operation (List.filter active l)).
Proof.
  cbv zeta.
  assert (H : lifetime digest_a false false ex_ledger
    [mkExecuted ex_start_frame ex_first ex_start_result; mkExecuted ex_start_frame ex_second ex_start_result]).
  { exact (l_execute _ _ _ _ _ _ _ _ _ (l_execute _ _ _ _ _ _ _ _ _ (l_start _ _ _) ex_first_run) ex_second_run). }
  split; [exact H |]. exact (proj1 (proj2 (control_effects_once digest_a false false ex_ledger _ H))).
Defined.
