(* ===== verification/Observer.v ===== *)
(** * Runs that keep to a protocol

    An observer of the calls of a program demands something of each call and learns from it.
    A run is orderly when every demand is met; [follows] is the proof rule for programs: what
    a program does is orderly, and a condition holds of what the observer knows and of the
    result when it returns. *)

From Stdlib Require Import ZArith Bool Lia.
From stdpp Require Import base list.
From S2P Require Import Prelude Interaction.

Section Observer.
Context {call : Type -> Type} {W : Type}.
(** What is demanded of a call with its answer, and what is known after it. *)
Variable watch : W -> event call -> Prop * W.

Fixpoint orderly (w : W) (tr : list (event call)) : Prop :=
  match tr with
  | [] => True
  | e :: tr => fst (watch w e) /\ orderly (snd (watch w e)) tr
  end.

Definition after (w : W) (tr : list (event call)) : W := fold_left (fun w e => snd (watch w e)) tr w.

Lemma after_append w t1 t2 : after w (t1 ++ t2) = after (after w t1) t2.
Proof. apply fold_left_app. Qed.

Lemma orderly_app t1 t2 : forall w, orderly w (t1 ++ t2) <-> orderly w t1 /\ orderly (after w t1) t2.
Proof. induction t1 as [| e t1 IH]; intros w; cbn; [tauto |]. rewrite IH. tauto. Qed.

Definition follows {A} (w : W) (p : prog call A) (Q : W -> A -> Prop) : Prop :=
  forall tr r, runs p tr r -> orderly w tr /\ Q (after w tr) r.

Lemma follows_ret {A} w (a : A) (Q : W -> A -> Prop) : Q w a -> follows w (Ret a) Q.
Proof. by intros H tr r [-> ->]. Qed.

Lemma follows_call {A B} w (c : call B) (k : B -> prog call A) Q :
  (forall b, fst (watch w (occurred c b)) /\ follows (snd (watch w (occurred c b))) (k b) Q) -> follows w (pbind (trigger c) k) Q.
Proof.
  intros H tr r R. cbn [pbind trigger runs] in R. destruct R as (b & t & -> & R). destruct (H b) as [H1 H2].
  destruct (H2 _ _ R) as [H3 H4]. done.
Qed.

Lemma follows_bind {A B} w (p : prog call A) (k : A -> prog call B) Q :
  follows w p (fun w' a => follows w' (k a) Q) -> follows w (pbind p k) Q.
Proof.
  intros H tr r R. apply runs_bind in R as (t1 & t2 & a & -> & R1 & R2). destruct (H _ _ R1) as [O1 H1].
  destruct (H1 _ _ R2) as [O2 H2]. rewrite orderly_app, after_append. done.
Qed.

Lemma follows_weaken {A} w (p : prog call A) (Q R : W -> A -> Prop) :
  follows w p Q -> (forall w' a, Q w' a -> R w' a) -> follows w p R.
Proof. intros H I tr r E. destruct (H _ _ E). auto. Qed.

End Observer.

(** ** What was last seen of an object *)
Inductive Sight (A : Type) : Type := Unseen | Absent | Present (a : A).
Arguments Unseen {A}.
Arguments Absent {A}.
Arguments Present {A} a.
