(* ===== verification/ControlLoop.v ===== *)
(** * internal/app/agentd/control_linux.go: serving a connection

    The select loop of [ProcessControl.Serve] with its sender: commands are spawned as
    workers, whose results come back through the loop; output, heartbeats and rotation
    share one outbound sequence.  What is selected and how the other parts answer is
    unconstrained; [fuel] is the number of selections that are observed, and a loop that
    has used it up is still running and has no outcome.

    Proved, at every moment of every run: frames are numbered consecutively from one and
    carry the connection of the Welcome; a command is started only when it was received,
    passed the sequence guard and its check, nothing else is running and no rotation is
    pending; a response follows a result, names its command, and acknowledges exactly a
    success; heartbeats report what was accepted, sent and is running; rotation is
    requested and installed only between commands; and a stop is reported as complete only
    when it was. *)

From Stdlib Require Import ZArith Bool Lia.
From stdpp Require Import base strings list gmap.
From S2P Require Import Prelude Regex GoStd Sha256 JsonEncode Primitives Interaction.
From S2P Require Import Handshake AgentdAdmission Control ControlReports Capture ProcessControl Observer.

Inductive Gate : Type := GateServe | GateOperation | GateProcesses.

(** A selection of the loop; a record of output, its end or its failure. *)
Inductive Wake : Type :=
| WDone
| WRecvErr
| WRenew
| WOutput (o : Output)
| WOutputEOF
| WOutputErr
| WTick
| WFrame (f : Frame)
| WResult (f : Frame) (r : commandResult).

(** A selection while the acknowledgement of the final report is awaited. *)
Inductive Final : Type := FFrame (f : Frame) | FEnd.

Inductive LoopError : Type := ErrProcessBusy | ErrLoopConfig | ErrLoopControl | ErrLoop | LoopDone.

(** After a selection the loop goes on, ends, or is still waiting when the observation
    stops. *)
Inductive Next : Type := Continue | End (e : LoopError) | Waiting.

Inductive lport : Type -> Type :=
| LTryLock (g : Gate) : lport bool
| LSelect : lport Wake
| LFinal : lport Final
| LNewID : lport (option ID)
| LSend (f : Frame) : lport bool
| LNow : lport Z
| LStatus : lport ProcessStatus
| LOutput (id : ID) : lport bool
| LDetach : lport unit
| LSpawn (f : Frame) : lport unit
| LInstall (f : Frame) : lport bool
| LStop : lport bool
| LClose : lport unit.

(** The local variables of the loop. *)
Record Loop : Type := mkLoop {
  input : Sequences;
  output : Z;
  accepted : Z;
  active_op : string;
  l_handle : string;
  captureID : ID;
  attached : bool;
  busy : bool;
  renewalPending : bool;
  renewalDue : bool
}.

Definition fresh_loop : Loop := mkLoop (mkSequences 0 []) 0 0 "" "" "" false false false false.

Section Serve.

Variable MarshalFrame : Frame -> option string.
Variable welcome : Welcome.
Variable configuration : string.
Variable executeTurn : bool.

Definition body_frame (op digest handle : string) (b : Body) : Frame :=
  mkEnvelope Body 0 0 "" 0 "" 0 None handle op digest 0 0 (Some b) "".

(** [send]: the frame as it leaves. *)
Definition addressed (f : Frame) (message : ID) (sequence : Z) : Frame :=
  mkEnvelope Body (w_Major welcome) (w_Minor welcome) (ConnectionId welcome) (ConnectionEpoch welcome) message sequence
    (w_Binding welcome) (f_HarnessHandle _ f) (f_OperationId _ f) (f_RequestDigest _ f) (f_SentUnixMs _ f)
    (f_DeadlineUnixMs _ f) (f_Body _ f) (f_unknown _ f).

Definition with_output (st : Loop) (n : Z) : Loop :=
  mkLoop (input st) n (accepted st) (active_op st) (l_handle st) (captureID st) (attached st) (busy st) (renewalPending st)
    (renewalDue st).

(** The frame that was sent, or why not. *)
Definition send (st : Loop) (f : Frame) : prog lport (Loop * result LoopError Frame) :=
  do! id <- trigger LNewID;
  match id with
  | None => Ret (st, Err ErrLoopControl)
  | Some id =>
      if output st =? 18446744073709551615 then Ret (st, Err ErrLoopControl)
      else
        let st := with_output st (output st + 1) in
        let f := addressed f id (output st) in
        do! ok <- trigger (LSend f);
        Ret (st, if negb ok then Err ErrLoop else Ok f)
  end.

Definition heartbeat (st : Loop) : prog lport (Loop * result LoopError Frame) :=
  do! p <- trigger LStatus;
  send st (body_frame "" "" "" (BHeartbeat (mkHeartbeatBody (ps_State p) (accepted st) (output st) (active_op st)))).

Definition rotation_request : Frame := body_frame "" "" "" (BRotation (mkRotationBody 1 "" "" 0)).

Definition rotate (st : Loop) : prog lport (Loop * Next) :=
  do! r <- send st rotation_request;
  match snd r with
  | Err e => Ret (fst r, End e)
  | Ok _ =>
      let st := fst r in
      Ret (mkLoop (input st) (output st) (accepted st) (active_op st) (l_handle st) (captureID st) (attached st) (busy st) true false, Continue)
  end.

Definition attachCapture (st : Loop) : prog lport (Loop * Next) :=
  do! p <- trigger LStatus;
  if (ps_ProcessID p == "") || (ps_ProcessID p == captureID st) then Ret (st, Continue)
  else
    do! _ <- (if attached st then trigger LDetach else Ret tt);
    do! ok <- trigger (LOutput (ps_ProcessID p));
    let st' := fun id a => mkLoop (input st) (output st) (accepted st) (active_op st) (l_handle st) id a (busy st) (renewalPending st)
                             (renewalDue st) in
    if negb ok then Ret (st' (captureID st) false, End ErrLoop) else Ret (st' (ps_ProcessID p) true, Continue).

Definition output_frame (st : Loop) (o : Output) : Frame :=
  body_frame "" "" (l_handle st)
    (BObservation
       (match Source o with
        | OutputStdout => mkObservationBody DIAGNOSTIC (Capability +:+ "/stdout") (of_bytes (Data o)) ""
        | OutputStderr => mkObservationBody DIAGNOSTIC (Capability +:+ "/stderr") (of_bytes (Data o)) ""
        | OutputAdapterEvent => mkObservationBody CANDIDATE_EVENT (Capability +:+ "/event") (of_bytes (Data o)) ""
        end)).

Definition shutdown_frame (stopped : bool) : Frame :=
  body_frame "" "" "" (BObservation (mkObservationBody PROCESS_STATUS ShutdownSchema
                                       (if stopped then ShutdownStopped else ShutdownUnresolved) "")).

(** Waiting for the acknowledgement of the final report. *)
Fixpoint wait_final (fuel : nat) (guard : Sequences) (sent : Frame) : prog lport bool :=
  match fuel with
  | O => Ret false
  | S fuel =>
      do! w <- trigger LFinal;
      match w with
      | FEnd => Ret true
      | FFrame f =>
          match Check MarshalFrame guard (Some f) with
          | Err _ => Ret true
          | Ok guard =>
              if match f_Body _ f with
                 | Some (BAcknowledgement a) => (a_MessageId a == f_MessageId _ sent) && (a_AcceptedSequence a =? f_Sequence _ sent)
                 | _ => false
                 end then Ret true
              else wait_final fuel guard sent
          end
      end
  end.

(** The end of the loop when its context is done. *)
Definition wind_down (fuel : nat) (st : Loop) : prog lport bool :=
  do! ok <- trigger LStop;
  do! r <- send st (shutdown_frame (ok && negb (busy st)));
  match snd r with
  | Ok f => wait_final fuel (input st) f
  | Err _ => Ret true
  end.

Definition thread_frame (f : Frame) (r : commandResult) : Frame :=
  body_frame (f_OperationId _ f) (f_RequestDigest _ f) (f_HarnessHandle _ f)
    (BObservation (mkObservationBody PROCESS_STATUS ThreadCapability (thread_json (thread r)) "")).

Definition reply_frame (f : Frame) (r : commandResult) : Frame :=
  body_frame (f_OperationId _ f) (f_RequestDigest _ f) (f_HarnessHandle _ f)
    (if failed r then BFailure 6
     else BAcknowledgement (mkAcknowledgementBody (f_MessageId _ f) (f_RequestDigest _ f) (f_Sequence _ f) 0)).

(** What has to succeed to go on; an error stops the loop. *)
Definition go {A} (r : Loop * result LoopError A) (k : Loop -> prog lport (Loop * Next))
  : prog lport (Loop * Next) :=
  match snd r with Err e => Ret (fst r, End e) | Ok _ => k (fst r) end.

Definition proceed (r : Loop * Next) (k : Loop -> prog lport (Loop * Next))
  : prog lport (Loop * Next) :=
  match snd r with Continue => k (fst r) | n => Ret (fst r, n) end.

(** A worker has finished. *)
Definition finished (st : Loop) (f : Frame) (r : commandResult) : prog lport (Loop * Next) :=
  let st := mkLoop (input st) (output st) (accepted st) "" (l_handle st) (captureID st) (attached st) false (renewalPending st)
              (renewalDue st) in
  do! t <- (if negb (failed r) && (ThreadID (thread r) != "") then send st (thread_frame f r) else Ret (st, Ok f));
  go t (fun st =>
    let st' := if failed r then st
               else mkLoop (input st) (output st) (accepted st) (active_op st) (f_HarnessHandle _ f) (captureID st) (attached st)
                      (busy st) (renewalPending st) (renewalDue st) in
    let launched := match GetCommand f with Some c => (c_Kind c =? START) || (c_Kind c =? RESTART) | None => false end in
    do! a <- (if negb (failed r) && launched then attachCapture st' else Ret (st', Continue));
    proceed a (fun st =>
      do! s <- send st (reply_frame f r);
      go s (fun st =>
        do! h <- heartbeat st;
        go h (fun st => if renewalDue st then rotate st else Ret (st, Continue))))).

(** A frame was received. *)
Definition frame_received (st : Loop) (f : Frame) : prog lport (Loop * Next) :=
  match Check MarshalFrame (input st) (Some f) with
  | Err _ => Ret (st, End ErrLoopControl)
  | Ok guard =>
      let st := mkLoop guard (output st) (f_Sequence _ f) (active_op st) (l_handle st) (captureID st) (attached st) (busy st)
                  (renewalPending st) (renewalDue st) in
      match f_Body _ f with
      | Some (BRotation _) =>
          if negb (renewalPending st) || busy st then Ret (st, End ErrLoopControl)
          else do! ok <- trigger (LInstall f); Ret (st, End (if negb ok then ErrLoop else LoopDone))
      | Some (BAcknowledgement _) => Ret (st, Continue)
      | Some (BCommand _) =>
          if busy st || renewalPending st then Ret (st, End ErrLoopControl)
          else
            do! now <- trigger LNow;
            if negb (checkCommand configuration executeTurn now f) then Ret (st, End ErrLoopControl)
            else
              do! _ <- trigger (LSpawn f);
              Ret (mkLoop (input st) (output st) (accepted st) (f_OperationId _ f) (l_handle st) (captureID st) (attached st) true
                     (renewalPending st) (renewalDue st), Continue)
      | _ => Ret (st, End ErrLoopControl)
      end
  end.

Definition due (st : Loop) : Loop :=
  mkLoop (input st) (output st) (accepted st) (active_op st) (l_handle st) (captureID st) (attached st) (busy st) (renewalPending st) true.

(** One selection: the state after it and whether the loop ends. *)
Definition turn (fuel : nat) (st : Loop) (w : Wake) : prog lport (Loop * Next) :=
  match w with
  | WDone => do! over <- wind_down fuel st; Ret (st, if negb over then Waiting else End LoopDone)
  | WRecvErr | WOutputErr => Ret (st, End ErrLoop)
  | WRenew => if busy st then Ret (due st, Continue) else rotate (due st)
  | WOutputEOF => Ret (st, Continue)
  | WOutput o => do! r <- send st (output_frame st o); go r (fun st => Ret (st, Continue))
  | WTick => do! r <- heartbeat st; go r (fun st => Ret (st, Continue))
  | WFrame f => frame_received st f
  | WResult f r => finished st f r
  end.

Fixpoint serve_loop (fuel : nat) (st : Loop) : prog lport (Loop * Next) :=
  match fuel with
  | O => Ret (st, Waiting)
  | S fuel =>
      do! w <- trigger LSelect;
      do! r <- turn fuel st w;
      proceed r (serve_loop fuel)
  end.

Definition has_capability (c : string) : bool := existsb (fun x => x == c) (Capabilities welcome).

(** [Serve], past its locks, with what is deferred. *)
Definition Serve (fuel : nat) : prog lport (option LoopError) :=
  do! free <- trigger (LTryLock GateServe);
  if negb free then Ret (Some ErrProcessBusy)
  else if negb (has_capability Capability) || (executeTurn && negb (has_capability TurnCapability)) then Ret (Some ErrLoopConfig)
  else
    do! free <- trigger (LTryLock GateOperation);
    if negb free then Ret (Some ErrProcessBusy)
    else
      do! free <- trigger (LTryLock GateProcesses);
      if negb free then Ret (Some ErrProcessBusy)
      else
        do! r <- serve_loop fuel fresh_loop;
        match snd r with
        | Continue | Waiting => Ret None
        | End e =>
            do! _ <- (if attached (fst r) then trigger LDetach else Ret tt);
            do! _ <- trigger LClose;
            Ret (Some e)
        end.

(** ** What a run may do

    An observer of the calls knows the number of the last frame that was sent, the last
    number that was accepted, the operation that is running, whether a rotation is pending,
    the last reading of the clock, and the last received frame, result, record of output
    and stop. *)

Record Watch : Type := mkWatch {
  o_sent : Z;
  o_accepted : Z;
  o_active : string;
  o_busy : bool;
  o_renewing : bool;
  o_now : Z;
  o_frame : option Frame;
  o_result : option (Frame * commandResult);
  o_output : option Output;
  o_stopped : bool;
  o_input : option Sequences
}.

(** A frame that answers a command. *)
Definition correlates (f f0 : Frame) : Prop :=
  f_OperationId _ f = f_OperationId _ f0 /\ f_RequestDigest _ f = f_RequestDigest _ f0
  /\ f_HarnessHandle _ f = f_HarnessHandle _ f0.

(** The body that may be sent. *)
Definition sendable (w : Watch) (f : Frame) : Prop :=
  match f_Body _ f with
  | Some (BHeartbeat h) =>
      h_LastAcceptedSequence h = o_accepted w /\ h_LastProducedSequence h = o_sent w /\ h_ActiveOperationId h = o_active w
  | Some (BAcknowledgement a) => exists f0 r, o_result w = Some (f0, r) /\ failed r = false /\ correlates f f0
      /\ a = mkAcknowledgementBody (f_MessageId _ f0) (f_RequestDigest _ f0) (f_Sequence _ f0) 0
  | Some (BFailure code) => exists f0 r, o_result w = Some (f0, r) /\ failed r = true /\ correlates f f0 /\ code = 6
  | Some (BRotation r) => o_busy w = false /\ r = mkRotationBody 1 "" "" 0
  | Some (BObservation o) =>
      if o_PayloadSchema o == ThreadCapability
      then exists f0 r, o_result w = Some (f0, r) /\ failed r = false /\ correlates f f0 /\ o_Payload o = thread_json (thread r)
      else if o_PayloadSchema o == ShutdownSchema then o_Payload o = ShutdownStopped -> o_stopped w = true /\ o_busy w = false
      else exists out, o_output w = Some out /\ o_Payload o = of_bytes (Data out)
  | _ => False
  end.

(** The observer after a frame was sent. *)
Definition noted (w : Watch) (f : Frame) : Watch :=
  mkWatch (o_sent w + 1) (o_accepted w) (o_active w) (o_busy w)
    match f_Body _ f with Some (BRotation _) => true | _ => o_renewing w end
    (o_now w) (o_frame w)
    match f_Body _ f with Some (BAcknowledgement _) | Some (BFailure _) => None | _ => o_result w end
    (o_output w) (o_stopped w) (o_input w).

(** What was received, with the guard it has to pass: no guard is left once a frame was
    refused. *)
Definition selected (w : Watch) (x : Wake) : Watch :=
  match x with
  | WFrame f => mkWatch (o_sent w) (f_Sequence _ f) (o_active w) (o_busy w) (o_renewing w) (o_now w) (Some f) (o_result w) (o_output w)
                  (o_stopped w)
                  match o_input w with
                  | Some g => match Check MarshalFrame g (Some f) with Ok g => Some g | Err _ => None end
                  | None => None
                  end
  | WResult f r => mkWatch (o_sent w) (o_accepted w) "" false (o_renewing w) (o_now w) (o_frame w) (Some (f, r)) (o_output w) (o_stopped w)
                    (o_input w)
  | WOutput o => mkWatch (o_sent w) (o_accepted w) (o_active w) (o_busy w) (o_renewing w) (o_now w) (o_frame w) (o_result w) (Some o)
                   (o_stopped w) (o_input w)
  | _ => w
  end.

(** What the observer demands of a call, and what it knows after it. *)
Definition watch (w : Watch) (e : event lport) : Prop * Watch :=
  match projT2 e with
  | (c, a) =>
      match c in lport B return B -> Prop * Watch with
      | LSend f => fun _ =>
          (f_Sequence _ f = o_sent w + 1 /\ f_ConnectionId _ f = ConnectionId welcome /\ f_ConnectionEpoch _ f = ConnectionEpoch welcome
           /\ f_Binding _ f = w_Binding welcome /\ is_Some (o_input w) /\ sendable w f, noted w f)
      | LSpawn f => fun _ =>
          (o_busy w = false /\ o_renewing w = false /\ o_frame w = Some f /\ is_Some (o_input w) /\ checkCommand configuration executeTurn (o_now w) f = true,
           mkWatch (o_sent w) (o_accepted w) (f_OperationId _ f) true (o_renewing w) (o_now w) (o_frame w) (o_result w) (o_output w)
             (o_stopped w) (o_input w))
      | LInstall f => fun _ => (o_renewing w = true /\ o_busy w = false /\ o_frame w = Some f /\ is_Some (o_input w), w)
      | LSelect => fun x => (True, selected w x)
      | LNow => fun t =>
          (True, mkWatch (o_sent w) (o_accepted w) (o_active w) (o_busy w) (o_renewing w) t (o_frame w) (o_result w) (o_output w) (o_stopped w)
             (o_input w))
      | LStop => fun ok =>
          (True, mkWatch (o_sent w) (o_accepted w) (o_active w) (o_busy w) (o_renewing w) (o_now w) (o_frame w) (o_result w) (o_output w) ok
             (o_input w))
      | _ => fun _ => (True, w)
      end a
  end.

Abbreviation orderly := (Observer.orderly watch).
Abbreviation follows := (Observer.follows watch).

(** The observer and the loop agree. *)
Definition agrees (w : Watch) (st : Loop) : Prop :=
  o_sent w = output st /\ o_accepted w = accepted st /\ o_active w = active_op st /\ o_busy w = busy st
  /\ o_renewing w = renewalPending st /\ o_input w = Some (input st).

(** A piece of the loop: the agreement holds again when the loop goes on. *)
Definition settled (w : Watch) (r : Loop * Next) : Prop := snd r = Continue -> agrees w (fst r).

(** The frame was not sent, or the observer saw it. *)
Definition handed (w : Watch) (st : Loop) (same : Frame -> Prop) (w' : Watch) (r : Loop * result LoopError Frame) : Prop :=
  (exists e, snd r = Err e)
  \/ exists f id, snd r = Ok (addressed f id (output st + 1)) /\ same f /\ fst r = with_output st (output st + 1)
       /\ w' = noted w (addressed f id (output st + 1)).

Lemma send_follows w st f : agrees w st -> (forall id, sendable w (addressed f id (output st + 1))) ->
  follows w (send st f) (handed w st (fun g => g = f)).
Proof.
  intros A S. unfold send. apply follows_call. intros id. split; [done |]. cbn [snd watch projT2 occurred].
  destruct id as [id |]; [| apply follows_ret; left; by eexists].
  destruct (_ =? _); [apply follows_ret; left; by eexists |].
  apply follows_call. intros ok. cbn [with_output output] in *. destruct A as (E1 & _ & _ & _ & _ & E6).
  split; [cbn; split_and!; first [by rewrite E1 | by eexists | done | apply S] |]. apply follows_ret.
  destruct ok; cbn [negb]; [right; exists f, id; done | left; by eexists].
Qed.

(** What is done next when a frame was sent. *)
Lemma sent_then w st p same k (Q : Watch -> Loop * Next -> Prop) :
  follows w p (handed w st same) -> (forall w' st' e, Q w' (st', End e)) ->
  (forall f id, same f -> follows (noted w (addressed f id (output st + 1))) (k (with_output st (output st + 1))) Q) ->
  follows w (do! r <- p; go r k) Q.
Proof.
  intros H QE K. apply follows_bind. eapply follows_weaken; [exact H |]. intros w' [st' r] [[e He] | (f & id & Hr & S & Hs & ->)];
    cbn [fst snd] in *; subst; unfold go; cbn [fst snd]; [by apply follows_ret | by apply K].
Qed.

(** Sending keeps the agreement, unless the frame asks for a rotation. *)
Definition plain (f : Frame) : Prop := match f_Body _ f with Some (BRotation _) => False | _ => True end.

Lemma send_agrees w st f id : agrees w st -> plain f ->
  agrees (noted w (addressed f id (output st + 1))) (with_output st (output st + 1)).
Proof.
  unfold plain. intros (A1 & A2 & A3 & A4 & A5 & A6) N. unfold agrees, noted, addressed. cbn. destruct (f_Body _ f) as [[] |]; try done;
    split_and!; try done; lia.
Qed.

Lemma rotate_follows w st : agrees w st -> busy st = false -> follows w (rotate st) settled.
Proof.
  intros A B. pose proof A as (A1 & A2 & A3 & A4 & A5 & A6).
  apply (sent_then w st (send st rotation_request) _ (fun st => Ret (mkLoop (input st) (output st) (accepted st) (active_op st)
    (l_handle st) (captureID st) (attached st) (busy st) true false, Continue)) settled
    (send_follows _ _ rotation_request A (fun id => conj (eq_trans A4 B) eq_refl))); [done |].
  intros f id ->. apply follows_ret. intros _. split_and!; try done. cbn. lia.
Qed.

Definition beats (f : Frame) : Prop := match f_Body _ f with Some (BHeartbeat _) => True | _ => False end.

Lemma beats_plain f : beats f -> plain f.
Proof. unfold beats, plain. by destruct (f_Body _ f) as [[] |]. Qed.

Lemma heartbeat_follows w st : agrees w st -> follows w (heartbeat st) (handed w st beats).
Proof.
  intros A. unfold heartbeat. apply follows_call. intros p. split; [done |]. cbn [snd watch projT2 occurred].
  eapply follows_weaken; [apply send_follows; [done |] |].
  - intros id. destruct A as (A1 & A2 & A3 & A4 & A5 & A6). done.
  - intros w' r [E | (f & id & E1 & -> & E2 & E3)]; [by left | right]. by eexists _, id.
Qed.

(** Attaching the capture changes what is captured. *)
Lemma attachCapture_follows w st : agrees w st ->
  follows w (attachCapture st) (fun w' r => w' = w /\ (snd r = Continue -> agrees w (fst r) /\ busy (fst r) = busy st)).
Proof.
  intros A. unfold attachCapture. apply follows_call. intros p. split; [done |]. cbn [snd watch projT2 occurred].
  destruct (_ || _); [by apply follows_ret |]. apply follows_bind.
  apply (follows_weaken _ _ _ (fun w' _ => w' = w)).
  { destruct (attached st); [| by apply follows_ret]. apply (follows_call _ w LDetach Ret). intros []. split; [done | by apply follows_ret]. }
  intros w' [] ->. apply follows_call. intros ok. split; [done |]. destruct ok; by apply follows_ret.
Qed.

(** Waiting sends nothing. *)
Lemma wait_final_follows fuel : forall w guard sent, follows w (wait_final fuel guard sent) (fun w' _ => w' = w).
Proof.
  induction fuel as [| fuel IH]; intros w guard sent; cbn [wait_final]; [by apply follows_ret |].
  apply follows_call. intros [f |]; split; try done; [| by apply follows_ret].
  destruct (Check _ _ _) as [g | e]; [| by apply follows_ret].
  destruct (match f_Body _ f with Some (BAcknowledgement _) => _ | _ => _ end); [by apply follows_ret | apply IH].
Qed.

Lemma wind_down_follows fuel w st : agrees w st -> follows w (wind_down fuel st) (fun _ _ => True).
Proof.
  intros A. unfold wind_down. apply follows_call. intros ok. split; [done |]. apply follows_bind.
  eapply follows_weaken; [apply send_follows |].
  - exact A.
  - intros id. unfold sendable. cbn. destruct A as (_ & _ & _ & A4 & _). rewrite A4.
    by destruct ok, (busy st).
  - intros w' [st' r] [[e E] | (f & id & E1 & E2 & E3 & ->)]; cbn [fst snd] in *; subst; [by apply follows_ret |].
    eapply follows_weaken; [apply wait_final_follows | done].
Qed.

(** A command is spawned, or a rotation installed, as the observer expects. *)
Lemma frame_received_follows w st f : agrees w st -> follows (selected w (WFrame f)) (frame_received st f) settled.
Proof.
  intros (A1 & A2 & A3 & A4 & A5 & A6). unfold frame_received. cbn [selected]. rewrite A6.
  destruct (Check _ _ _) as [g | e]; [| by apply follows_ret]. cbn [busy renewalPending].
  destruct (f_Body _ f) as [[] |] eqn:EB; try by apply follows_ret.
  - rewrite A4, A5. destruct (busy st) eqn:B, (renewalPending st) eqn:P; try by apply follows_ret. cbn [orb].
    apply follows_call. intros now. split; [done |]. cbn [snd watch projT2 occurred].
    destruct (checkCommand _ _ _ _) eqn:C; [| by apply follows_ret]. cbn [negb].
    apply follows_call. intros []. split; [cbn; split_and!; first [done | by eexists] |]. apply follows_ret. intros _. by split_and!.
  - rewrite A4, A5. destruct (busy st) eqn:B, (renewalPending st) eqn:P; try by apply follows_ret. cbn [negb orb].
    apply follows_call. intros ok. split; [cbn; split_and!; first [done | by eexists] |]. by apply follows_ret.
Qed.

(** The result of a command, from its reply on. *)
Lemma reply_follows w st f r : agrees w st -> busy st = false -> o_result w = Some (f, r) ->
  follows w (do! s <- send st (reply_frame f r);
             go s (fun st => do! h <- heartbeat st; go h (fun st => if renewalDue st then rotate st else Ret (st, Continue)))) settled.
Proof.
  intros A B R. eapply sent_then; [apply send_follows; [exact A |] | done |].
  - intros id. unfold sendable, reply_frame. cbn. destruct (failed r) eqn:F; exists f, r; by split_and!.
  - intros g id ->. pose proof (send_agrees w st (reply_frame f r) id A) as A'.
    assert (P : plain (reply_frame f r)) by (unfold plain, reply_frame; cbn; by destruct (failed r)). specialize (A' P).
    eapply sent_then; [by apply heartbeat_follows | done |]. intros h id' Hb.
    pose proof (send_agrees _ _ h id' A' (beats_plain _ Hb)) as A''.
    destruct (renewalDue _); [apply rotate_follows; [exact A'' | exact B] | apply follows_ret; intros _; exact A''].
Qed.

Lemma finished_follows w st f r : agrees w st -> follows (selected w (WResult f r)) (finished st f r) settled.
Proof.
  intros (A1 & A2 & A3 & A4 & A5 & A6). unfold finished. cbn zeta.
  set (st0 := mkLoop _ _ _ _ _ _ _ _ _ _). set (w0 := selected w _).
  assert (A : agrees w0 st0) by by split_and!.
  match goal with |- context [go _ ?k] => set (rest := k) end.
  assert (K : forall w st, agrees w st -> busy st = false -> o_result w = Some (f, r) -> follows w (rest st) settled).
  { clear. intros w st A B R. subst rest. cbn beta zeta. set (st' := if failed r then _ else _).
    assert (A' : agrees w st') by (subst st'; by destruct (failed r)).
    assert (B' : busy st' = false) by (subst st'; by destruct (failed r)).
    destruct (negb (failed r) && _).
    - apply follows_bind. eapply follows_weaken; [by apply attachCapture_follows |]. intros w' [st1 n] [-> H]. cbn [fst snd] in *.
      unfold proceed. cbn [fst snd]. destruct n; try by apply follows_ret. destruct (H eq_refl). apply reply_follows; [done | congruence | done].
    - cbn [pbind]. unfold proceed. cbn [fst snd]. by apply reply_follows. }
  clearbody rest. destruct (negb (failed r) && _) eqn:T.
  - eapply sent_then; [apply send_follows; [exact A |] | done |].
    + intros id. cbn. destruct (failed r) eqn:F; [done |]. exists f, r. by split_and!.
    + intros g id ->. apply K; [by apply send_agrees | done | done].
  - cbn [pbind]. unfold go. cbn [fst snd]. by apply K.
Qed.

Lemma turn_follows fuel w st x : agrees w st -> follows (selected w x) (turn fuel st x) settled.
Proof.
  intros A. destruct x; cbn [turn selected]; try by apply follows_ret.
  - apply follows_bind. eapply follows_weaken; [by apply wind_down_follows |]. intros w' over _. apply follows_ret. by destruct over.
  - destruct (busy st) eqn:B; [by apply follows_ret; intros _; exact A |]. by apply rotate_follows.
  - pose proof A as (A1 & A2 & A3 & A4 & A5 & A6). eapply sent_then; [apply send_follows; [by split_and! |] | done |].
    + intros id. unfold sendable, output_frame. cbn. destruct (Source o); cbn; by exists o.
    + intros g id ->. apply follows_ret. intros _. apply send_agrees; [by split_and! |]. unfold plain, output_frame. cbn. done.
  - apply follows_ret. intros _. exact A.
  - apply (sent_then w st (heartbeat st) beats (fun st => Ret (st, Continue))); [by apply heartbeat_follows | done |].
    intros h id Hb. apply follows_ret. intros _.
    apply send_agrees; [done | by apply beats_plain].
  - apply (frame_received_follows w st f A).
  - apply (finished_follows w st f r A).
Qed.

Lemma serve_loop_follows fuel : forall w st, agrees w st -> follows w (serve_loop fuel st) (fun _ _ => True).
Proof.
  induction fuel as [| fuel IH]; intros w st A; cbn [serve_loop]; [by apply follows_ret |].
  apply follows_call. intros x. split; [done |]. cbn [snd watch projT2 occurred]. apply follows_bind.
  eapply follows_weaken; [by apply turn_follows |]. intros w' [st' n] S. unfold proceed. cbn [fst snd].
  destruct n; [by apply IH, S | by apply follows_ret | by apply follows_ret].
Qed.

Definition start_watch : Watch := mkWatch 0 0 "" false false 0 None None None false (Some (mkSequences 0 [])).

Definition selects (e : event lport) : bool := match fst (projT2 e) with LSelect => true | _ => false end.

(** What [Serve] does with a loop that ended. *)
Lemma closing_follows w (st : Loop) (e : LoopError) :
  follows w (do! _ <- (if attached st then trigger LDetach else Ret tt); do! _ <- trigger LClose; Ret (Some e)) (fun _ _ => True).
Proof.
  apply follows_bind, (follows_weaken _ _ _ (fun _ _ => True)).
  - destruct (attached st); [| by apply follows_ret]. apply (follows_call _ w LDetach Ret). intros []. split; [done | by apply follows_ret].
  - intros w' [] _. apply follows_call. intros []. split; [done | by apply follows_ret].
Qed.

Lemma Serve_follows fuel : follows start_watch (Serve fuel) (fun _ _ => True).
Proof.
  unfold Serve. apply follows_call. intros free. split; [done |]. destruct (negb free); [by apply follows_ret |].
  destruct (_ || _); [by apply follows_ret |]. do 2 (apply follows_call; intros ?; split; [done |]; destruct (negb _); [by apply follows_ret |]).
  apply follows_bind. eapply follows_weaken; [apply serve_loop_follows; by split_and! |]. intros w [st []] _; cbn [fst snd];
    [by apply follows_ret | apply closing_follows | by apply follows_ret].
Qed.

(** A connection whose loop ended was closed last. *)
Lemma Serve_closes fuel tr e : runs (Serve fuel) tr (Some e) -> existsb selects tr = true -> last tr = Some (occurred LClose tt).
Proof.
  intros H S. unfold Serve in H. cbn [pbind trigger runs] in H. destruct H as (free & t & -> & H). cbn in S.
  destruct (negb free); [by destruct H as [-> _] |]. destruct (_ || _) in H; [by destruct H as [-> _] |].
  cbn [pbind trigger runs] in H. destruct H as (f2 & t2 & -> & H). destruct (negb f2); [by destruct H as [-> _] |].
  cbn [pbind trigger runs] in H. destruct H as (f3 & t3 & -> & H). destruct (negb f3); [by destruct H as [-> _] |].
  apply runs_bind in H as (t4 & t5 & [st n] & -> & _ & H). cbn [fst snd] in H. destruct n; try by destruct H as [_ [=]].
  apply runs_bind in H as (t6 & t7 & [] & -> & _ & H). cbn in H. destruct H as ([] & t8 & -> & -> & _).
  rewrite !app_comm_cons, app_assoc. apply last_snoc.
Qed.

(** C30: A connection is served in order.  Whatever is selected and however the other parts
    answer, at every moment of every run: frames are numbered consecutively from one and
    carry the connection, the epoch and the binding of the Welcome; nothing is sent or
    started after a frame that the sequence guard refused; a command is started only when
    it is the frame that was just received, passes its check, nothing else is running and
    no rotation is pending; an acknowledgement or a failure answers a result once, names
    its command, and is an acknowledgement exactly when the command succeeded; a heartbeat
    reports what was accepted and sent and what is running; a rotation is requested and
    installed only between commands; the final report says that everything stopped only
    when it did.  When the loop has ended, the connection is closed last. *)
Theorem serve_orderly fuel tr x (H : runs (Serve fuel) tr x) :
  orderly start_watch tr
  /\ (is_Some x -> existsb selects tr = true -> last tr = Some (occurred LClose tt)).
Proof.
  split; [apply (Serve_follows fuel _ _ H) |]. intros [e ->]. exact (Serve_closes fuel tr e H).
Qed.

End Serve.

(** ** Witness: a start that succeeds, its reply and heartbeat, and the end of the stream. *)

Definition ex_welcome : Welcome := mkWelcome 1 0 None "" id4 7 [Capability] None "" "" "" "" "".

(** The selections in order; everything else succeeds. *)
Definition ex_answers (B : Type) (s : list Wake) (c : lport B) : list Wake * B :=
  match c in lport B return list Wake * B with
  | LTryLock _ => (s, true)
  | LSelect => (tail s, hd WDone s)
  | LFinal => (s, FEnd)
  | LNewID => (s, Some id3)
  | LSend _ => (s, true)
  | LNow => (s, 2000)
  | LStatus => (s, mkProcessStatus id3 2)
  | LOutput _ => (s, true)
  | LDetach => (s, tt)
  | LSpawn _ => (s, tt)
  | LInstall _ => (s, true)
  | LStop => (s, true)
  | LClose => (s, tt)
  end.

Definition ex_serve : prog lport (option LoopError) := Serve (fun _ => Some "") ex_welcome digest_a false 4.

Definition ex_served : list (event lport) * option LoopError :=
  trace_state ex_answers [WFrame ex_start_frame; WResult ex_start_frame ex_start_result; WTick; WRecvErr] ex_serve.

(** What was sent, and what it said. *)
Definition ex_sent (e : event lport) : option (Z * option Body) :=
  match fst (projT2 e) with LSend f => Some (f_Sequence _ f, f_Body _ f) | _ => None end.

Lemma ex_served_outcome :
  snd ex_served = Some ErrLoop
  /\ omap ex_sent (fst ex_served)
     = [ (1, Some (BAcknowledgement (mkAcknowledgementBody id3 (f_RequestDigest _ ex_start_frame) 1 0)));
         (2, Some (BHeartbeat (mkHeartbeatBody 2 1 1 ""))); (3, Some (BHeartbeat (mkHeartbeatBody 2 1 2 ""))) ].
Proof. vm_compute. by split. Qed.

Lemma serve_orderly_witness :
  runs ex_serve (fst ex_served) (snd ex_served) /\ Observer.orderly (watch (fun _ => Some "") ex_welcome digest_a false) start_watch (fst ex_served).
Proof.
  assert (H : runs ex_serve (fst ex_served) (snd ex_served)) by exact (trace_state_runs ex_answers ex_serve _).
  split; [exact H |]. exact (proj1 (serve_orderly (fun _ => Some "") ex_welcome digest_a false 4 _ _ H)).
Defined.
