(* ===== verification/Supervisor.v ===== *)
(** * internal/app/agentd: the process supervisor

    process_linux.go, shutdown_linux.go, the delivery of controls (controls_linux.go,
    turn_linux.go) and the published status (status.go), as goroutines that interleave.
    Each goroutine is a program whose calls are the accesses to shared memory, locks,
    channels and the operating system; a step of the system is one call of one goroutine.
    Contexts, timers, callbacks and the operating system answer as they like, so budgets
    only decide when a wait ends.

    [SupervisorLocks] shows that the goroutines keep to the locks, [SupervisorSafety] what
    follows for every interleaving. *)

From Stdlib Require Import ZArith Bool Lia.
From stdpp Require Import base strings list relations.
From S2P Require Import Prelude Primitives Interaction.

Inductive ProcErr : Type :=
| ErrProcess | ErrProcessBusy | ErrProcessStale | ErrProcessDeadline | ErrProcessClosed
| ErrControl | ErrInterruptEscalated | ErrOther.

#[export] Instance ProcErr_eq_dec : EqDecision ProcErr.
Proof. solve_decision. Defined.

(** What an operation returns: [(primitives.ID, error)]. *)
Definition Res : Type := ID * option ProcErr.

(** ** status.go *)

Inductive ProcessState : Type := ABSENT | STARTING | RUNNING | STOPPING | EXITED | FAILED.

Inductive ProcessFailure : Type :=
| ProcessOK | ProcessLaunchFailed | ProcessExitFailed | ProcessCleanupFailed | ProcessOutputFailed.

Record ProcessStatus : Type := mkStatus {
  ProcessID : ID;
  PState : ProcessState;
  Exit : option (Z * Z);
  Failure : ProcessFailure;
  ProtocolReady : bool
}.

#[export] Instance ProcessState_eq_dec : EqDecision ProcessState.
Proof. solve_decision. Defined.

Definition simple_status (id : ID) (s : ProcessState) : ProcessStatus := mkStatus id s None ProcessOK false.

(** [publish], whose loop ends with the exchange. *)
Definition publish (old : option ProcessStatus) (s : ProcessStatus) : option ProcessStatus :=
  match old with
  | Some o =>
      if (ProcessID o == ProcessID s) && (PState o == STOPPING) && (PState s == RUNNING) then old
      else if (ProcessID o == ProcessID s) && ((PState o == EXITED) || (PState o == FAILED))
              && ((PState s == STOPPING) || (PState s == RUNNING)) then old
      else Some s
  | None => Some s
  end.

Definition status (o : option ProcessStatus) : ProcessStatus := default (simple_status "" ABSENT) o.

(** ** Shared state *)

(** A [child], with its process group. *)
Record Child : Type := mkChild {
  k_id : ID;
  k_stop : bool;
  k_mu : bool;
  k_reaped : bool;
  k_done : bool;
  k_err : bool
}.

(** The channel on which the goroutine of an operation hands over its result. *)
Inductive Out : Type := Unread | Read (r : Res) | Left.

Record Slot : Type := mkSlot { out : Out; finished : bool }.

Inductive Once : Type := OnceNew | OnceRunning | OnceOver.

Record Processes : Type := mkProcesses {
  gate : bool;
  closing : bool;
  current : option nat;
  active : option nat;
  children : list Child;
  slots : list Slot;
  restoreUsed : bool;
  observation : option ProcessStatus;
  shutdownOnce : Once;
  shutdownErr : option (option ProcErr)
}.

Definition initial : Processes := mkProcesses false false None None [] [] false None OnceNew None.

(** The operations that go through the gate. *)
Inductive Op : Type :=
| OStart
| OStop (id : ID)
| ORestart (id : ID)
| ODeliver (id : ID) (interrupt : bool) (callback : bool)
| OTurn.

(** What the surroundings decide. *)
Inductive Question : Type :=
| QCtxDone
| QCapture
| QNewCapture
| QPrepareCodex
| QInitialize
| QThread
| QThreadOpen
| QStartTurn
| QCallbackInTime
| QCallbackOk
| QAttemptExpired
| QTimer
| QWaitid
| QCloseCodex
| QCaptureFinish
| QCaptureErr
| QCaptureFailed
| QTick
| QPidOne.

Inductive Wait4 : Type := ECHILD | EINTR | EOTHER | NoneExited | Reaped_pid.

Inductive SIG : Type := SIGTERM | SIGKILL.

Inductive call : Type -> Type :=
| Ask (q : Question) : call bool
| NewID : call (option ID)
| Closing : call bool
| SetClosing : call unit
| TryGate : call bool
| UnlockGate : call unit
| OpenSlot : call nat
| Work (k : nat) (op : Op) : call unit
| Deliver (k : nat) (r : Res) : call bool
| Await (k : nat) : call (option Res)
| Finish (k : nat) : call unit
| WaitFinished (k : nat) : call unit
| Current : call (option (nat * ID))
| SetCurrent (n : nat) : call unit
| Active : call (option nat)
| SetActive (n : nat) : call unit
| RestoreUsed : call bool
| SetRestoreUsed : call unit
| Launch (id : ID) : call (option nat)
| Reaper (n : nat) : call unit
| Watcher (n : nat) : call unit
| Done (n : nat) : call bool
| WaitDone (n : nat) : call bool
| Err_ (n : nat) : call bool
| StopRequest (n : nat) : call unit
| StopRequested (n : nat) : call bool
| LockMu (n : nat) : call unit
| UnlockMu (n : nat) : call unit
| Reaped (n : nat) : call bool
| Kill (n : nat) (sig : SIG) : call bool
| Reap (n : nat) : call (option (Z * Z))
| SetErr (n : nat) : call unit
| CloseDone (n : nat) : call unit
| Publish (s : ProcessStatus) : call unit
| OnceEnter : call bool
| OnceLeave : call unit
| Shutting (hook : bool) : call unit
| ShutdownResult (r : option ProcErr) : call unit
| AwaitShutdown : call (option (option ProcErr))
| Orphan : call Wait4.

(** ** What a call may answer, and its effect *)

Definition with_gate (b : bool) (s : Processes) : Processes :=
  mkProcesses b (closing s) (current s) (active s) (children s) (slots s) (restoreUsed s) (observation s) (shutdownOnce s) (shutdownErr s).

Definition with_closing (s : Processes) : Processes :=
  mkProcesses (gate s) true (current s) (active s) (children s) (slots s) (restoreUsed s) (observation s) (shutdownOnce s) (shutdownErr s).

Definition with_current (c : option nat) (s : Processes) : Processes :=
  mkProcesses (gate s) (closing s) c (active s) (children s) (slots s) (restoreUsed s) (observation s) (shutdownOnce s) (shutdownErr s).

Definition with_active (c : option nat) (s : Processes) : Processes :=
  mkProcesses (gate s) (closing s) (current s) c (children s) (slots s) (restoreUsed s) (observation s) (shutdownOnce s) (shutdownErr s).

Definition with_children (l : list Child) (s : Processes) : Processes :=
  mkProcesses (gate s) (closing s) (current s) (active s) l (slots s) (restoreUsed s) (observation s) (shutdownOnce s) (shutdownErr s).

Definition with_slots (l : list Slot) (s : Processes) : Processes :=
  mkProcesses (gate s) (closing s) (current s) (active s) (children s) l (restoreUsed s) (observation s) (shutdownOnce s) (shutdownErr s).

Definition with_restoreUsed (s : Processes) : Processes :=
  mkProcesses (gate s) (closing s) (current s) (active s) (children s) (slots s) true (observation s) (shutdownOnce s) (shutdownErr s).

Definition with_observation (o : option ProcessStatus) (s : Processes) : Processes :=
  mkProcesses (gate s) (closing s) (current s) (active s) (children s) (slots s) (restoreUsed s) o (shutdownOnce s) (shutdownErr s).

Definition with_once (o : Once) (s : Processes) : Processes :=
  mkProcesses (gate s) (closing s) (current s) (active s) (children s) (slots s) (restoreUsed s) (observation s) o (shutdownErr s).

Definition with_shutdownErr (r : option ProcErr) (s : Processes) : Processes :=
  mkProcesses (gate s) (closing s) (current s) (active s) (children s) (slots s) (restoreUsed s) (observation s) (shutdownOnce s) (Some r).

Definition fork (id : ID) : Child := mkChild id false false false false false.

Definition set_stop (c : Child) : Child := mkChild (k_id c) true (k_mu c) (k_reaped c) (k_done c) (k_err c).
Definition set_mu (b : bool) (c : Child) : Child := mkChild (k_id c) (k_stop c) b (k_reaped c) (k_done c) (k_err c).
Definition set_reaped (c : Child) : Child := mkChild (k_id c) (k_stop c) (k_mu c) true (k_done c) (k_err c).
Definition set_done (c : Child) : Child := mkChild (k_id c) (k_stop c) (k_mu c) (k_reaped c) true (k_err c).
Definition set_err (c : Child) : Child := mkChild (k_id c) (k_stop c) (k_mu c) (k_reaped c) (k_done c) true.

(** A child that is changed. *)
Definition change (n : nat) (f : Child -> Child) (s : Processes) : option Processes :=
  match children s !! n with Some c => Some (with_children (<[n := f c]> (children s)) s) | None => None end.

(** An answer that reads a child. *)
Definition reads (n : nat) (f : Child -> bool) (b : bool) (s : Processes) : option Processes :=
  match children s !! n with Some c => if eqb (f c) b then Some s else None | None => None end.

Definition possible (b : bool) (s : Processes) : option Processes := if b then Some s else None.

Definition current_child (s : Processes) : option (nat * ID) :=
  match current s with
  | Some n => match children s !! n with Some c => Some (n, k_id c) | None => None end
  | None => None
  end.

(** The state after a call that was answered so; none when it cannot be, or blocks. *)
Definition react {B} (s : Processes) (c : call B) : B -> option Processes :=
  match c in call B return B -> option Processes with
  | Ask _ => fun _ => Some s
  | NewID => fun a => match a with Some id => possible (is_ok (ParseID id)) s | None => Some s end
  | Closing => fun b => possible (eqb b (closing s)) s
  | SetClosing => fun _ => Some (with_closing s)
  | TryGate => fun b => if b then possible (negb (gate s)) (with_gate true s) else Some s
  | UnlockGate => fun _ => Some (with_gate false s)
  | OpenSlot => fun k => possible (Nat.eqb k (length (slots s))) (with_slots (slots s ++ [mkSlot Unread false]) s)
  | Work _ _ => fun _ => Some s
  | Deliver k r => fun b =>
      if b then
        match slots s !! k with
        | Some (mkSlot Unread f) => Some (with_slots (<[k := mkSlot (Read r) f]> (slots s)) s)
        | _ => None
        end
      else Some s
  | Await k => fun a =>
      match slots s !! k, a with
      | Some (mkSlot (Read r) _), Some r' => if decide (r = r') then Some s else None
      | Some (mkSlot Unread f), None => Some (with_slots (<[k := mkSlot Left f]> (slots s)) s)
      | _, _ => None
      end
  | Finish k => fun _ =>
      match slots s !! k with Some (mkSlot o _) => Some (with_slots (<[k := mkSlot o true]> (slots s)) s) | None => None end
  | WaitFinished k => fun _ => match slots s !! k with Some (mkSlot _ true) => Some s | _ => None end
  | Current => fun a => if decide (a = current_child s) then Some s else None
  | SetCurrent n => fun _ => Some (with_current (Some n) s)
  | Active => fun a => if decide (a = active s) then Some s else None
  | SetActive n => fun _ => Some (with_active (Some n) s)
  | RestoreUsed => fun b => possible (eqb b (restoreUsed s)) s
  | SetRestoreUsed => fun _ => Some (with_restoreUsed s)
  | Launch id => fun a =>
      match a with
      | Some n => possible (Nat.eqb n (length (children s))) (with_children (children s ++ [fork id]) s)
      | None => Some s
      end
  | Reaper _ | Watcher _ => fun _ => Some s
  | Done n => fun b => reads n k_done b s
  | WaitDone n => fun b => if b then reads n k_done true s else Some s
  | Err_ n => fun b => reads n k_err b s
  | StopRequest n => fun _ => change n set_stop s
  | StopRequested n => fun b => reads n k_stop b s
  | LockMu n => fun _ =>
      match children s !! n with Some c => if k_mu c then None else change n (set_mu true) s | None => None end
  | UnlockMu n => fun _ => change n (set_mu false) s
  | Reaped n => fun b => reads n k_reaped b s
  | Kill _ _ => fun _ => Some s
  | Reap n => fun _ => change n set_reaped s
  | SetErr n => fun _ => change n set_err s
  | CloseDone n => fun _ => change n set_done s
  | Publish o => fun _ => Some (with_observation (publish (observation s) o) s)
  | OnceEnter => fun b =>
      match shutdownOnce s with
      | OnceNew => if b then Some (with_once OnceRunning s) else None
      | OnceRunning => None
      | OnceOver => if b then None else Some s
      end
  | OnceLeave => fun _ => Some (with_once OnceOver s)
  | Shutting _ => fun _ => Some s
  | ShutdownResult r => fun _ => Some (with_shutdownErr r s)
  | AwaitShutdown => fun a =>
      match a with
      | Some r => match shutdownErr s with Some r' => if decide (r = r') then Some s else None | None => None end
      | None => Some s
      end
  | Orphan => fun _ => Some s
  end.

(** ** The goroutines *)

(** The supervisor's configuration, and how many waits of a shutdown are observed. *)
Class Settings : Type := mkSettings {
  codex : bool;
  createThread : bool;
  restores : bool;
  executeTurn : bool;
  fuel : nat;
  orphan_fuel : nat
}.

Section Programs.
Context `{cfg : Settings}.


(** [child.signal] *)
Definition signal (n : nat) (sig : SIG) : prog call bool :=
  do! _ <- trigger (LockMu n);
  do! r <- trigger (Reaped n);
  if negb (negb r) then do! _ <- trigger (UnlockMu n); Ret true
  else
    do! ok <- trigger (Kill n sig);
    do! _ <- trigger (UnlockMu n);
    Ret ok.

Definition child_err (n : nat) : prog call (option ProcErr) :=
  do! e <- trigger (Err_ n); Ret (if negb e then None else Some ErrProcess).

(** [Processes.stop], from the forced signal on. *)
Definition kill_and_wait (n : nat) : prog call (option ProcErr) :=
  do! ok <- signal n SIGKILL;
  if negb ok then Ret (Some ErrProcess)
  else
    do! d <- trigger (WaitDone n);
    if negb d then Ret (Some ErrProcess) else child_err n.

Definition stop (id : ID) (force : bool) : prog call (option ProcErr) :=
  do! c <- trigger Current;
  match c with
  | None => Ret (Some ErrProcessStale)
  | Some (n, cid) =>
      if (id == "") || (cid != id) then Ret (Some ErrProcessStale)
      else
        do! d <- trigger (Done n);
        if negb (negb d) then child_err n
        else
          do! _ <- trigger (StopRequest n);
          do! _ <- trigger (Publish (simple_status cid STOPPING));
          do! x <- (if force then Ret true else trigger (Ask QCtxDone));
          if negb (negb x) then kill_and_wait n
          else
            do! ok <- signal n SIGTERM;
            if negb ok then Ret (Some ErrProcess)
            else
              do! d <- trigger (WaitDone n);
              if negb (negb d) then child_err n else kill_and_wait n
  end.

(** [start] before the launch. *)
Definition startable : prog call (option ProcErr) :=
  do! closed <- trigger Closing;
  if negb (negb closed) then Ret (Some ErrProcessClosed)
  else
    do! x <- trigger (Ask QCtxDone);
    if negb (negb x) then Ret (Some ErrProcessDeadline)
    else
      do! c <- trigger Current;
      match c with
      | None => Ret None
      | Some (n, _) =>
          do! d <- trigger (Done n);
          if negb d then Ret (Some ErrProcessBusy) else child_err n
      end.

Definition restore_once : prog call bool :=
  if restores then
    do! used <- trigger RestoreUsed;
    if negb (negb used) then Ret false else do! _ <- trigger SetRestoreUsed; Ret true
  else Ret true.

(** [start] with its process launched. *)
Definition launched (n : nat) (id : ID) (capture : bool) : prog call Res :=
  do! _ <- trigger (SetCurrent n);
  do! _ <- trigger (SetActive n);
  do! _ <- trigger (Reaper n);
  do! _ <- (if capture then trigger (Watcher n) else Ret tt);
  do! ok <- (if codex then
               do! ok <- trigger (Ask QInitialize);
               if negb ok then Ret false else if createThread then trigger (Ask QThread) else Ret true
             else Ret true);
  if negb ok then do! _ <- stop id true; Ret ("", Some ErrOther)
  else
    do! x <- trigger (Ask QCtxDone);
    do! x <- (if negb (negb x) then Ret true else trigger Closing);
    if negb (negb x) then do! _ <- stop id true; Ret ("", Some ErrProcessDeadline)
    else
      do! d <- (if codex then trigger (Done n) else Ret false);
      if negb (negb d) then Ret ("", Some ErrProcess)
      else do! _ <- trigger (Publish (mkStatus id RUNNING None ProcessOK codex)); Ret (id, None).

Definition start : prog call Res :=
  do! e <- startable;
  match e with
  | Some e => Ret ("", Some e)
  | None =>
      do! fresh <- restore_once;
      if negb fresh then Ret ("", Some ErrControl)
      else
        do! id <- trigger NewID;
        match id with
        | None => Ret ("", Some ErrProcess)
        | Some id =>
            do! capture <- trigger (Ask QCapture);
            do! ok <- (if negb capture then Ret true else trigger (Ask QNewCapture));
            if negb ok then Ret ("", Some ErrOther)
            else
              do! ok <- (if codex then trigger (Ask QPrepareCodex) else Ret true);
              if negb ok then Ret ("", Some ErrProcess)
              else
                do! _ <- trigger (Publish (simple_status id STARTING));
                do! n <- trigger (Launch id);
                match n with
                | None => do! _ <- trigger (Publish (mkStatus id FAILED None ProcessLaunchFailed false)); Ret ("", Some ErrProcess)
                | Some n => launched n id capture
                end
        end
  end.

(** [Controls.deliver], the function of its operation. *)
Definition deliver (id : ID) (interrupt callback : bool) : prog call Res :=
  do! c <- trigger Current;
  match c with
  | None => Ret ("", Some ErrProcessStale)
  | Some (n, cid) =>
      if (id == "") || (cid != id) then Ret ("", Some ErrProcessStale)
      else
        do! d <- trigger (Done n);
        if negb (negb d) then Ret ("", Some ErrProcessStale)
        else
          do! x <- trigger (Ask QCtxDone);
          if negb (negb x) then Ret ("", Some ErrProcessDeadline)
          else if negb callback then
            do! e <- stop id false;
            Ret ("", match e with Some e => Some e | None => Some ErrInterruptEscalated end)
          else
            do! returned <- trigger (Ask QCallbackInTime);
            do! ok <- (if negb returned then Ret false else trigger (Ask QCallbackOk));
            do! expired <- trigger (Ask QAttemptExpired);
            if returned && negb expired && ok then Ret (id, None)
            else if returned && negb expired && negb interrupt then Ret ("", Some ErrControl)
            else
              do! e <- stop id false;
              do! _ <- (if negb returned then trigger (Ask QCallbackOk) else Ret true);
              Ret ("", match e with
                       | Some e => Some e
                       | None => Some (if interrupt then ErrInterruptEscalated else ErrControl)
                       end)
  end.

(** [startTurn], the function of its operation. *)
Definition turn : prog call Res :=
  do! c <- trigger Current;
  match c with
  | None => Ret ("", Some ErrControl)
  | Some (n, cid) =>
      do! opened <- (if codex then trigger (Ask QThreadOpen) else Ret false);
      if negb opened then Ret ("", Some ErrControl)
      else
        do! d <- trigger (Done n);
        if negb (negb d) then Ret ("", Some ErrControl)
        else
          do! ok <- trigger (Ask QStartTurn);
          if negb ok then do! _ <- stop cid true; Ret (cid, Some ErrOther) else Ret (cid, None)
  end.

Definition body (op : Op) : prog call Res :=
  match op with
  | OStart => start
  | OStop id => do! e <- stop id false; Ret ("", e)
  | ORestart id =>
      do! e <- stop id false;
      match e with Some e => Ret ("", Some e) | None => start end
  | ODeliver id interrupt callback => deliver id interrupt callback
  | OTurn => turn
  end.

Definition nothing : Res := ("", None).

(** The goroutine of an operation: it holds the gate until its result was handed over or
    cleaned up. *)
Definition cleanup (r : Res) : prog call unit :=
  match r with
  | (id, None) => if id == "" then Ret tt else do! _ <- stop id true; Ret tt
  | _ => Ret tt
  end.

Definition worker (k : nat) (op : Op) : prog call Res :=
  do! r <- body op;
  do! x <- trigger (Ask QCtxDone);
  do! _ <- (if negb (negb x) then cleanup r
            else do! handed <- trigger (Deliver k r); if negb handed then cleanup r else Ret tt);
  do! _ <- trigger UnlockGate;
  do! _ <- trigger (Finish k);
  Ret nothing.

(** [operation] *)
Definition operation (op : Op) : prog call Res :=
  do! closed <- trigger Closing;
  if negb (negb closed) then Ret ("", Some ErrProcessClosed)
  else
    do! x <- trigger (Ask QCtxDone);
    if negb (negb x) then Ret ("", Some ErrProcessDeadline)
    else
      do! locked <- trigger TryGate;
      if negb locked then Ret ("", Some ErrProcessBusy)
      else
        do! closed <- trigger Closing;
        if negb (negb closed) then do! _ <- trigger UnlockGate; Ret ("", Some ErrProcessClosed)
        else
          do! k <- trigger OpenSlot;
          do! _ <- trigger (Work k op);
          do! r <- trigger (Await k);
          match r with
          | Some r => do! _ <- trigger (WaitFinished k); Ret r
          | None => Ret ("", Some ErrProcessDeadline)
          end.

(** [reap]: the status that is published last. *)
Definition final_status (id : ID) (exit : option (Z * Z)) (stopped err output : bool) : ProcessStatus :=
  let s := match exit with
           | Some (code, sig) =>
               if negb (code =? 0) && ((sig =? 0) || negb stopped) then mkStatus id FAILED exit ProcessExitFailed false
               else mkStatus id EXITED exit ProcessOK false
           | None => simple_status id EXITED
           end in
  let s := if err then mkStatus id FAILED (Exit s) ProcessCleanupFailed false else s in
  if output then mkStatus id FAILED (Exit s) ProcessOutputFailed false else s.

Definition note_failure (ok : bool) (n : nat) : prog call unit := if negb ok then trigger (SetErr n) else Ret tt.

(** The wait of the leader and the mark that it was reaped are one call: both are made
    under [mu], and the mark is only read under [mu]. *)
Definition reap (n : nat) (id : ID) : prog call Res :=
  do! ok <- trigger (Ask QWaitid);
  do! _ <- trigger (Publish (simple_status id STOPPING));
  do! _ <- trigger (LockMu n);
  do! killed <- (if negb ok then Ret false else trigger (Kill n SIGKILL));
  do! _ <- note_failure killed n;
  do! exit <- trigger (Reap n);
  do! _ <- trigger (UnlockMu n);
  do! closed <- trigger (Ask QCloseCodex);
  do! _ <- note_failure closed n;
  do! capture <- trigger (Ask QCapture);
  do! drained <- (if negb capture then Ret true else trigger (Ask QCaptureFinish));
  do! _ <- note_failure drained n;
  do! stopped <- trigger (StopRequested n);
  do! err <- trigger (Err_ n);
  do! output <- (if negb capture then Ret false else trigger (Ask QCaptureErr));
  do! _ <- trigger (Publish (final_status id exit stopped err output));
  do! _ <- trigger (CloseDone n);
  Ret nothing.

(** The goroutine that ends a process whose capture failed. *)
Definition watcher (n : nat) : prog call Res :=
  do! f <- trigger (Ask QCaptureFailed);
  if negb (negb f) then do! _ <- signal n SIGKILL; Ret nothing else Ret nothing.

(** [Output] *)
Definition output_of (id : ID) : prog call Res :=
  do! locked <- trigger TryGate;
  if negb locked then Ret ("", Some ErrProcessBusy)
  else
    do! c <- trigger Current;
    do! capture <- trigger (Ask QCapture);
    do! _ <- trigger UnlockGate;
    Ret ("", match c with
             | Some (_, cid) => if (id != cid) || negb capture then Some ErrProcessStale else None
             | None => Some ErrProcessStale
             end).

(** [reapOrphans]; [fuel] is the number of waits that are observed before the context
    ends. *)
Fixpoint reapOrphans (fuel : nat) : prog call (option ProcErr) :=
  match fuel with
  | O => Ret (Some ErrProcessDeadline)
  | S fuel =>
      do! x <- trigger (Ask QCtxDone);
      if negb (negb x) then Ret (Some ErrProcessDeadline)
      else
        do! w <- trigger Orphan;
        match w with
        | ECHILD => Ret None
        | EINTR | Reaped_pid => reapOrphans fuel
        | EOTHER => Ret (Some ErrProcess)
        | NoneExited =>
            do! x <- trigger (Ask QTimer);
            if negb (negb x) then reapOrphans fuel else Ret (Some ErrProcessDeadline)
        end
  end.

(** The gate was not released in time. *)
Definition force_active : prog call (option ProcErr) :=
  do! c <- trigger Active;
  match c with
  | None => Ret (Some ErrProcess)
  | Some n =>
      do! _ <- trigger (StopRequest n);
      do! _ <- signal n SIGKILL;
      do! _ <- trigger (WaitDone n);
      Ret (Some ErrProcess)
  end.

(** The cooperative attempt of a shutdown: whether its callback is still running. *)
Definition shutdown_hook (n : nat) : prog call bool :=
  do! returned <- trigger (Ask QCallbackInTime);
  if negb returned then Ret true
  else
    do! ok <- trigger (Ask QCallbackOk);
    do! _ <- (if negb ok then Ret false else trigger (WaitDone n));
    Ret false.

Definition orphans (fuel : nat) : prog call (option ProcErr) :=
  do! one <- trigger (Ask QPidOne);
  if negb (negb one) then reapOrphans fuel else Ret None.

(** [shutdown] with the gate. *)
Definition shutdown_current (fuel : nat) (hook : bool) : prog call (option ProcErr) :=
  do! c <- trigger Current;
  match c with
  | None => orphans fuel
  | Some (n, cid) =>
      do! d <- trigger (Done n);
      do! unresolved <-
        (if negb (negb d) then Ret false
         else
           do! _ <- trigger (StopRequest n);
           do! _ <- trigger (Publish (simple_status cid STOPPING));
           if negb hook then Ret false
           else
             do! x <- trigger (Ask QCtxDone);
             if negb (negb x) then Ret false else shutdown_hook n);
      do! e <- stop cid false;
      do! settled <- (match e with Some _ => trigger (WaitDone n) | None => Ret true end);
      if negb settled then Ret e
      else
        do! o <- orphans fuel;
        match o with
        | Some e => Ret (Some e)
        | None => Ret (if negb (negb unresolved) then Some ErrProcess else e)
        end
  end.

(** [fuel] is the number of attempts to take the gate that are observed before the wait
    for it ends. *)
Fixpoint shutdown (fuel : nat) (hook : bool) : prog call (option ProcErr) :=
  match fuel with
  | O => force_active
  | S fuel =>
      do! locked <- trigger TryGate;
      if negb (negb locked) then
        do! r <- shutdown_current orphan_fuel hook;
        do! _ <- trigger UnlockGate;
        Ret r
      else
        do! x <- trigger (Ask QTick);
        if negb (negb x) then shutdown fuel hook else force_active
  end.

Definition shutting (hook : bool) : prog call Res :=
  do! r <- shutdown fuel hook;
  do! _ <- trigger (ShutdownResult r);
  Ret nothing.

(** [Shutdown] *)
Definition Shutdown (hook : bool) : prog call Res :=
  do! first <- trigger OnceEnter;
  do! _ <- (if negb first then Ret tt
            else
              do! _ <- trigger SetClosing;
              do! _ <- trigger (Shutting hook);
              trigger OnceLeave);
  do! r <- trigger AwaitShutdown;
  Ret ("", match r with Some r => r | None => Some ErrProcessDeadline end).

(** ** Requests and steps *)

Inductive Request : Type :=
| RStart
| RStop (id : ID)
| RRestart (id : ID)
| RDeliver (id : ID) (interrupt callback : bool)
| RTurn (valid : bool)
| RInterruptTurn (id : ID)
| ROutput (id : ID)
| RShutdown (hook : bool).

Definition Stop (id : ID) : prog call Res := do! r <- operation (OStop id); Ret ("", snd r).

(** [interruptTurn] *)
Definition interruptTurn (id : ID) : prog call Res :=
  do! r <- operation (ODeliver id true true);
  match snd r with
  | Some ErrInterruptEscalated => Ret nothing
  | Some e => Ret ("", Some e)
  | None => Stop id
  end.

Definition serve (r : Request) : prog call Res :=
  match r with
  | RStart => operation OStart
  | RStop id => Stop id
  | RRestart id => if createThread then Ret ("", Some ErrControl) else operation (ORestart id)
  | RDeliver id interrupt callback => do! r <- operation (ODeliver id interrupt callback); Ret ("", snd r)
  | RTurn valid =>
      if negb executeTurn || negb valid then Ret ("", Some ErrControl)
      else do! r <- operation OTurn; Ret ("", snd r)
  | RInterruptTurn id => interruptTurn id
  | ROutput id => output_of id
  | RShutdown hook => Shutdown hook
  end.

(** The goroutine that a call starts. *)
Definition spawned {B} (s : Processes) (c : call B) : list (prog call Res) :=
  match c with
  | Work k op => [worker k op]
  | Reaper n => match children s !! n with Some c => [reap n (k_id c)] | None => [] end
  | Watcher n => [watcher n]
  | Shutting hook => [shutting hook]
  | _ => []
  end.

Definition World : Type := Processes * list (prog call Res).

Inductive step : World -> World -> Prop :=
| s_request s pool r : step (s, pool) (s, pool ++ [serve r])
| s_call s pool i B (c : call B) k b s' :
    pool !! i = Some (Vis c k) -> react s c b = Some s' ->
    step (s, pool) (s', <[i := k b]> pool ++ spawned s c).

Inductive reachable : World -> Prop :=
| r_initial : reachable (initial, [])
| r_step w w' : reachable w -> step w w' -> reachable w'.

End Programs.
