(* ===== verification/SupervisorLocks.v ===== *)
(** * The goroutines of the supervisor keep to their locks

    What a goroutine of [Supervisor] knows about the shared state while it holds the gate or
    the lock of a child, which calls that knowledge permits, and that every goroutine only
    makes such calls, whatever it is answered. *)

From Stdlib Require Import ZArith Bool Lia.
From stdpp Require Import base strings list.
From S2P Require Import Prelude Primitives Interaction Supervisor.

(** ** What a goroutine may do

    A goroutine knows something about the shared state as long as it holds the locks that
    protect it.  [allowed] is what it must know to make a call, [learn] what it knows after
    an answer, [expected] the answers that its knowledge leaves open. *)

Inductive Phase : Type := Before | After | Over.

Record Hold : Type := mkHold {
  g : bool;                          (* holds the gate *)
  open : bool;                       (* has seen, with the gate, that the supervisor is open *)
  cur : option (option (nat * ID));  (* what the current process is *)
  cur_done : bool;                   (* the current process is cleaned up *)
  clear : bool;                      (* every process is cleaned up, without an error *)
  fresh : option (nat * ID);         (* launched and not yet current *)
  pend : bool;                       (* the current process is running and nobody was told *)
  mu : option nat;                   (* the lock of this child is held *)
  live : bool;                       (* and it is not reaped *)
  reaper : option (nat * Phase);     (* reaps this child *)
  tospawn : option nat;              (* has to start the reaper of this child *)
  closed : bool;                     (* has closed the supervisor *)
  seal : bool;                       (* had the gate after the supervisor was closed *)
  quiet : bool                       (* and then saw that every process was cleaned up *)
}.

Definition free : Hold := mkHold false false None false false None false None false None None false false false.

Definition is_cur (h : Hold) (n : nat) : bool :=
  match cur h with Some (Some (m, _)) => Nat.eqb n m | _ => false end.

Definition upd_gate (h : Hold) (g' o : bool) : Hold :=
  mkHold g' o None false false None false (mu h) (live h) (reaper h) (tospawn h) (closed h) (seal h) (quiet h).

Definition upd_open (h : Hold) : Hold :=
  mkHold (g h) true (cur h) (cur_done h) (clear h) (fresh h) (pend h) (mu h) (live h) (reaper h) (tospawn h) (closed h) (seal h) (quiet h).

Definition upd_cur (h : Hold) (c : option (option (nat * ID))) (d cl : bool) (f : option (nat * ID)) (p : bool) : Hold :=
  mkHold (g h) (open h) c d cl f p (mu h) (live h) (reaper h) (tospawn h) (closed h) (seal h) (quiet h).

Definition upd_mu (h : Hold) (m : option nat) (l : bool) : Hold :=
  mkHold (g h) (open h) (cur h) (cur_done h) (clear h) (fresh h) (pend h) m l (reaper h) (tospawn h) (closed h) (seal h) (quiet h).

Definition upd_reap (h : Hold) (r : option (nat * Phase)) (t : option nat) : Hold :=
  mkHold (g h) (open h) (cur h) (cur_done h) (clear h) (fresh h) (pend h) (mu h) (live h) r t (closed h) (seal h) (quiet h).

Definition upd_shut (h : Hold) (c s q : bool) : Hold :=
  mkHold (g h) (open h) (cur h) (cur_done h) (clear h) (fresh h) (pend h) (mu h) (live h) (reaper h) (tospawn h) c s q.

(** The current process was seen to be cleaned up. *)
Definition saw_done (h : Hold) (n : nat) (b : bool) : Hold :=
  if b && is_cur h n then upd_cur h (cur h) true (clear h) (fresh h) false else h.

Definition allowed {B} (h : Hold) (c : call B) : Prop :=
  match c with
  | TryGate => g h = false
  | UnlockGate => g h = true /\ fresh h = None /\ pend h = false
  | Work _ _ => g h = true /\ fresh h = None /\ pend h = false
  | Deliver _ r => pend h = true -> exists n id, cur h = Some (Some (n, id)) /\ r = (id, None)
  | Current => g h = true /\ fresh h = None
  | SetCurrent n => g h = true /\ exists id, fresh h = Some (n, id)
  | SetActive n => is_cur h n = true /\ g h = true
  | Launch _ => g h = true /\ open h = true /\ clear h = true /\ fresh h = None /\ pend h = false /\ tospawn h = None
                /\ reaper h = None
  | Reaper n => tospawn h = Some n
  | LockMu _ => mu h = None
  | UnlockMu n => mu h = Some n
  | Reaped _ => reaper h = None
  | Kill n _ => mu h = Some n /\ (live h = true \/ reaper h = Some (n, Before))
  | Reap n => mu h = Some n /\ reaper h = Some (n, Before)
  | SetErr n => exists p, reaper h = Some (n, p) /\ p <> Over
  | CloseDone n => reaper h = Some (n, After)
  | Shutting _ => closed h = true
  | ShutdownResult r => r = None -> quiet h = true
  | _ => True
  end.

Definition expected {B} (h : Hold) (c : call B) : B -> Prop :=
  match c in call B return B -> Prop with
  | Current => fun a => match cur h with Some x => a = x | None => True end
  | NewID => fun a => match a with Some id => id <> "" | None => True end
  | _ => fun _ => True
  end.

Definition learn {B} (h : Hold) (c : call B) : B -> Hold :=
  match c in call B return B -> Hold with
  | Closing => fun b => if g h && negb b then upd_open h else h
  | SetClosing => fun _ => upd_shut h true (seal h) (quiet h)
  | TryGate => fun b => if b then upd_shut (upd_gate h true false) (closed h) (closed h || seal h) (quiet h) else h
  | UnlockGate => fun _ => upd_shut (upd_gate h false false) (closed h) (seal h) (quiet h || (seal h && clear h))
  | Work _ _ => fun _ => upd_gate h false false
  | Deliver _ _ => fun b => if b then upd_cur h (cur h) (cur_done h) (clear h) (fresh h) false else h
  | Current => fun a =>
      upd_cur h (Some a) (is_some (cur h) && cur_done h) (match a with None => true | Some _ => clear h end) (fresh h) (pend h)
  | SetCurrent n => fun _ =>
      match fresh h with
      | Some (m, id) => upd_cur h (Some (Some (n, id))) false false None true
      | None => h
      end
  | Launch id => fun a =>
      match a with Some n => upd_reap (upd_cur h (cur h) (cur_done h) false (Some (n, id)) false) (reaper h) (Some n) | None => h end
  | Reaper _ => fun _ => upd_reap h (reaper h) None
  | Done n => fun b => saw_done h n b
  | WaitDone n => fun b => saw_done h n b
  | Err_ n => fun b =>
      if is_cur h n && cur_done h && negb b && negb (is_some (fresh h)) then upd_cur h (cur h) true true (fresh h) (pend h) else h
  | StopRequest n => fun _ => if is_cur h n then upd_cur h (cur h) (cur_done h) (clear h) (fresh h) false else h
  | LockMu n => fun _ => upd_mu h (Some n) false
  | UnlockMu n => fun _ => upd_mu h None false
  | Reaped n => fun b => match mu h with Some m => if Nat.eqb n m then upd_mu h (mu h) (negb b) else h | None => h end
  | Reap n => fun _ => upd_mu (upd_reap h (Some (n, After)) (tospawn h)) (mu h) false
  | CloseDone n => fun _ => upd_reap h (Some (n, Over)) (tospawn h)
  | _ => fun _ => h
  end.

(** What the goroutine that a call starts knows. *)
Definition inherits {B} (h : Hold) (c : call B) : Hold :=
  match c with
  | Work _ _ => upd_gate free true (open h)
  | Reaper n => upd_reap free (Some (n, Before)) None
  | Shutting _ => upd_shut free true false false
  | _ => free
  end.

(** [safe h p Q]: whatever is answered, [p] only makes calls that are allowed, and [Q] holds
    of its knowledge and its result when it returns. *)
Fixpoint safe {A} (h : Hold) (p : prog call A) (Q : Hold -> A -> Prop) : Prop :=
  match p with
  | Ret a => Q h a
  | Vis c k => allowed h c /\ forall b, expected h c b -> safe (learn h c b) (k b) Q
  end.

Lemma safe_weaken {A} (p : prog call A) (Q R : Hold -> A -> Prop) : forall h,
  safe h p Q -> (forall h a, Q h a -> R h a) -> safe h p R.
Proof.
  induction p as [a | B c k IH]; intros h S I; cbn in *; [auto |]. destruct S as [S1 S2]. split; [done |].
  intros b E. eauto.
Qed.

Lemma safe_bind {A B} (p : prog call A) (f : A -> prog call B) Q : forall h,
  safe h p (fun h a => safe h (f a) Q) -> safe h (pbind p f) Q.
Proof.
  induction p as [a | C c k IH]; intros h S; cbn in *; [done |]. destruct S as [S1 S2]. split; [done |]. intros b E. auto.
Qed.

(** Nothing is held when a goroutine returns. *)
Definition released (h : Hold) (_ : Res) : Prop := g h = false /\ mu h = None.

Section Locks.
Context `{cfg : Settings}.

(** ** The goroutines keep to it *)

Lemma safe_call {A B} h (c : call B) (k : B -> prog call A) Q :
  allowed h c -> (forall b, expected h c b -> safe (learn h c b) (k b) Q) -> safe h (pbind (trigger c) k) Q.
Proof. done. Qed.

(** A question changes nothing. *)
Lemma safe_ask {A} h q (k : bool -> prog call A) Q : (forall b, safe h (k b) Q) -> safe h (pbind (trigger (Ask q)) k) Q.
Proof. intros H. by apply safe_call. Qed.

Lemma safe_publish {A} h s (k : unit -> prog call A) Q : safe h (k tt) Q -> safe h (pbind (trigger (Publish s)) k) Q.
Proof. intros H. apply safe_call; [done |]. by intros []. Qed.

(** A goroutine that holds the lock of no child and reaps none. *)
Definition idle (h : Hold) : Prop := mu h = None /\ live h = false /\ reaper h = None.

Lemma idle_unlock h n : idle h -> upd_mu (upd_mu h (Some n) false) None false = h.
Proof. destruct h. by intros (E1 & E2 & _); cbn in *; subst. Qed.

Lemma signal_safe h n sig (Q : Hold -> bool -> Prop) : idle h -> (forall b, Q h b) -> safe h (signal n sig) Q.
Proof.
  intros I H. pose proof (idle_unlock h n I) as U. unfold idle in I. unfold signal. apply safe_call; [apply I |]. intros [] _. cbn [learn].
  apply safe_call; [apply I |]. intros b _. cbn [learn mu upd_mu]. rewrite Nat.eqb_refl. destruct b; cbn [negb].
  - apply safe_call; [done |]. intros [] _. cbn [learn]. change (Q (upd_mu (upd_mu h (Some n) false) None false) true). by rewrite U.
  - apply safe_call; [split; [done | by left] |]. intros b _. apply safe_call; [done |]. intros [] _. cbn [learn].
    change (Q (upd_mu (upd_mu h (Some n) false) None false) b). by rewrite U.
Qed.

(** What stopping does to what a gate holder knows. *)
Record kept (h h' : Hold) : Prop := {
  kp_idle : idle h';
  kp_g : g h' = true;
  kp_open : open h' = open h;
  kp_fresh : fresh h' = None;
  kp_spawn : tospawn h' = tospawn h;
  kp_shut : closed h' = closed h /\ seal h' = seal h /\ quiet h' = quiet h;
  kp_pend : pend h = false -> pend h' = false
}.

Definition holder (h : Hold) : Prop := idle h /\ g h = true /\ fresh h = None.

Lemma kept_refl h : holder h -> kept h h.
Proof. by intros (I & G & F). Qed.

Lemma kept_trans a b c : kept a b -> kept b c -> kept a c.
Proof.
  intros [? ? ? ? ? (? & ? & ?) ?] [? ? ? ? ? (? & ? & ?) ?]. split; try done; try congruence; [split_and!; congruence | auto].
Qed.

Lemma kept_holder h h' : kept h h' -> holder h'.
Proof. intros []. by split. Qed.

Lemma kept_saw h n b : holder h -> kept h (saw_done h n b).
Proof. intros (I & G & F). unfold saw_done. by destruct (b && is_cur h n). Qed.

Lemma child_err_safe h n (Q : Hold -> option ProcErr -> Prop) :
  holder h -> is_cur h n = true -> cur_done h = true ->
  (forall h' r, kept h h' -> (r = None -> clear h' = true) -> pend h' = pend h -> Q h' r) -> safe h (child_err n) Q.
Proof.
  intros (I & G & F) C D H. unfold child_err. apply safe_call; [done |]. intros b _. cbn [learn safe]. rewrite C, D, F.
  destruct b; cbn [negb andb is_some]; apply H; try done; by repeat split.
Qed.

Lemma saw_done_cur h n : is_cur h n = true -> saw_done h n true = upd_cur h (cur h) true (clear h) (fresh h) false.
Proof. intros C. unfold saw_done. by rewrite C. Qed.

Lemma kept_done h : holder h -> kept h (upd_cur h (cur h) true (clear h) (fresh h) false).
Proof. by intros (I & G & F). Qed.

(** Waiting for a process, and its outcome. *)
Lemma wait_safe h n (p : prog call (option ProcErr)) (Q : Hold -> option ProcErr -> Prop) :
  holder h -> is_cur h n = true -> pend h = false ->
  safe h p Q ->
  (forall h' r, kept h h' -> (r = None -> clear h' = true) -> pend h' = false -> Q h' r) ->
  safe h (do! d <- trigger (WaitDone n); if negb (negb d) then child_err n else p) Q.
Proof.
  intros H C P S K. apply safe_call; [done |]. intros [] _; cbn [learn negb]; [| exact S].
  rewrite saw_done_cur by done. pose proof (kept_done h H) as KD. apply child_err_safe; [by apply (kept_holder h) | done | done |].
  intros h' r K' R P'. apply K; [by eapply kept_trans | done | done].
Qed.

Lemma kill_safe h n (Q : Hold -> option ProcErr -> Prop) :
  holder h -> is_cur h n = true -> pend h = false ->
  (forall h' r, kept h h' -> (r = None -> clear h' = true) -> pend h' = false -> Q h' r) -> safe h (kill_and_wait n) Q.
Proof.
  intros H C P K. unfold kill_and_wait. apply safe_bind, signal_safe; [apply H |]. intros []; cbn [negb].
  - apply safe_call; [done |]. intros [] _; cbn [learn negb].
    + rewrite saw_done_cur by done. pose proof (kept_done h H) as KD.
      apply child_err_safe; [by apply (kept_holder h) | done | done |]. intros h' r K' R P'. apply K; [by eapply kept_trans | done | done].
    + cbn. unfold saw_done. cbn. by apply K; [apply kept_refl | |].
  - by apply K; [apply kept_refl | |].
Qed.

(** Reading the current process. *)
Definition known (h : Hold) (a : option (nat * ID)) : Hold :=
  upd_cur h (Some a) (is_some (cur h) && cur_done h) (match a with None => true | Some _ => clear h end) (fresh h) (pend h).

Lemma known_kept h a : holder h -> kept h (known h a).
Proof. by intros (I & G & F). Qed.

Lemma is_cur_known h n id : cur h = Some (Some (n, id)) -> is_cur h n = true.
Proof. intros E. unfold is_cur. rewrite E. apply Nat.eqb_refl. Qed.

Lemma safe_current {A} h (k : option (nat * ID) -> prog call A) Q :
  holder h -> (forall a, match cur h with Some x => a = x | None => True end -> safe (known h a) (k a) Q) ->
  safe h (pbind (trigger Current) k) Q.
Proof. intros (I & G & F) H. apply safe_call; [done |]. exact H. Qed.

(** Stopping: the process that it names is cleaned up or was asked to stop. *)
Definition stops (h : Hold) (id : ID) (h' : Hold) (r : option ProcErr) : Prop :=
  kept h h' /\ (r = None -> clear h' = true) /\ (id <> "" -> (exists n, cur h = Some (Some (n, id))) -> pend h' = false).

Lemma stop_safe h id force : holder h -> safe h (stop id force) (stops h id).
Proof.
  intros H. unfold stop. apply safe_current; [done |]. intros a E. pose proof (known_kept h a H) as K. assert (C : cur (known h a) = Some a) by done.
  set (h1 := known h a) in *. pose proof (kept_holder _ _ K) as H1.
  destruct a as [[n cid] |]; cycle 1.
  { split_and!; [done | done |]. intros _ [n E']. by rewrite E' in E. }
  destruct ((id == "") || (cid != id)) eqn:G.
  { split_and!; [done | done |]. intros Z [m E']. rewrite E' in E. injection E as -> ->. apply orb_true_iff in G as [G | G]; [by apply bool_decide_eq_true in G |].
    by apply negb_true_iff, bool_decide_eq_false in G. }
  pose proof (is_cur_known _ _ _ C) as I.
  assert (Q : forall h' r, kept h1 h' -> (r = None -> clear h' = true) -> pend h' = false -> stops h id h' r).
  { intros h' r K' R P. split_and!; [by eapply kept_trans | done | done]. }
  apply safe_call; [done |]. intros [] _; cbn [learn negb].
  { rewrite saw_done_cur by done. pose proof (kept_done h1 H1) as KD.
    apply child_err_safe; [by apply (kept_holder h1) | done | done |]. intros h' r K' R P'. apply Q; [by eapply kept_trans | done | done]. }
  change (saw_done h1 n false) with h1. apply safe_call; [done |]. intros [] _. cbn [learn]. rewrite I.
  set (h2 := upd_cur _ _ _ _ _ _). assert (K2 : kept h1 h2) by (destruct H1 as (? & ? & ?); done).
  assert (Q2 : forall h' r, kept h2 h' -> (r = None -> clear h' = true) -> pend h' = false -> stops h id h' r).
  { intros h' r K' R P. apply Q; [by eapply kept_trans | done | done]. }
  pose proof (kept_holder _ _ K2) as H2. apply safe_publish. apply safe_bind.
  assert (KW : safe h2 (kill_and_wait n) (stops h id)) by by apply kill_safe.
  assert (X : forall x : bool, safe h2 (if negb (negb x) then kill_and_wait n else
            do! ok <- signal n SIGTERM; if negb ok then Ret (Some ErrProcess) else
              do! d <- trigger (WaitDone n); if negb (negb d) then child_err n else kill_and_wait n) (stops h id)).
  { intros []; cbn [negb]; [done |]. apply safe_bind, signal_safe; [apply H2 |]. intros []; cbn [negb]; [by apply wait_safe |].
    apply Q2; [by apply kept_refl | done | done]. }
  destruct force; [exact (X true) |]. split; [done |]. intros b _. apply X.
Qed.

(** The function of an operation: a process that nobody was told of is named by its
    result. *)
Definition works (h : Hold) (r : Res) : Prop :=
  holder h /\ tospawn h = None /\ (pend h = true -> exists n id, cur h = Some (Some (n, id)) /\ r = (id, None) /\ id <> "").

Definition ready (h : Hold) : Prop := holder h /\ tospawn h = None /\ pend h = false.

Lemma ready_works h r : ready h -> works h r.
Proof. intros (H & T & P). split_and!; try done. by rewrite P. Qed.

Lemma kept_ready h h' : ready h -> kept h h' -> ready h'.
Proof.
  intros (H & T & P) K. split_and!; [by eapply kept_holder | rewrite (kp_spawn _ _ K); done | by apply (kp_pend _ _ K)].
Qed.

Lemma stops_ready h id h' r : ready h -> stops h id h' r -> ready h'.
Proof. intros R (K & _). by eapply kept_ready. Qed.

Lemma startable_safe h : ready h ->
  safe h startable (fun h' r => ready h' /\ (r = None -> clear h' = true /\ open h' = true)).
Proof.
  intros R. pose proof R as (H & T & P). pose proof H as (I & G & F). unfold startable. apply safe_call; [done |].
  intros [] _; cbn [learn negb]; rewrite G; cbn [andb]; [by split |].
  set (h1 := upd_open h). assert (R1 : ready h1) by done. assert (O1 : open h1 = true) by done. clearbody h1. clear h I G F H T P R.
  apply safe_ask. intros []; cbn [negb]; [by split |]. apply safe_current; [apply R1 |]. intros a E.
  pose proof (known_kept h1 a (proj1 R1)) as K. assert (C : cur (known h1 a) = Some a) by done. pose proof (kept_ready _ _ R1 K) as R2.
  rewrite <- (kp_open _ _ K) in O1. destruct a as [[n id] |].
  - set (h2 := known h1 _) in *. clearbody h2. clear K E R1 h1. pose proof (is_cur_known _ _ _ C) as I. apply safe_call; [done |].
    intros [] _; cbn [learn negb]; [| by split]. rewrite saw_done_cur by done. pose proof (kept_done h2 (proj1 R2)) as KD.
    apply child_err_safe; [by apply (kept_holder h2) | done | done |]. intros h' r K' Cl P'. split.
    + eapply kept_ready; [| exact K']. by eapply kept_ready.
    + intros ->. split; [auto |]. by rewrite (kp_open _ _ K').
  - by split.
Qed.

(** A launched process is current, has its reaper, and is stopped unless it is reported. *)
Lemma launched_safe h n id capture :
  idle h -> g h = true -> fresh h = Some (n, id) -> tospawn h = Some n -> id <> "" -> safe h (launched n id capture) works.
Proof.
  intros (I1 & I2 & I3) G F T N. unfold launched. apply safe_call; [split; [done | by eexists] |]. intros [] _. cbn [learn]. rewrite F.
  set (h1 := upd_cur _ _ _ _ _ _). assert (C1 : cur h1 = Some (Some (n, id))) by done.
  apply safe_call; [split; [by eapply is_cur_known | done] |]. intros [] _. cbn [learn].
  apply safe_call; [done |]. intros [] _. cbn [learn]. set (h2 := upd_reap _ _ _).
  assert (H2 : holder h2) by done. assert (T2 : tospawn h2 = None) by done. assert (C2 : cur h2 = Some (Some (n, id))) by done.
  clearbody h2. clear h1 C1 F T G I1 I2 I3 h. rename h2 into h.
  assert (ST : forall e, safe h (do! _ <- stop id true; Ret ("", Some e)) works).
  { intros e. apply safe_bind. eapply safe_weaken; [by apply stop_safe |]. intros h' r (K & _ & P). cbn [safe].
    apply ready_works. split_and!; [by eapply kept_holder | rewrite (kp_spawn _ _ K); done | apply P; eauto]. }
  assert (REST : forall ok : bool, safe h (if negb ok then do! _ <- stop id true; Ret ("", Some ErrOther)
    else do! x <- trigger (Ask QCtxDone);
    do! x <- (if negb (negb x) then Ret true else trigger Closing);
    if negb (negb x) then do! _ <- stop id true; Ret ("", Some ErrProcessDeadline)
    else
      do! d <- (if codex then trigger (Done n) else Ret false);
      if negb (negb d) then Ret ("", Some ErrProcess)
      else do! _ <- trigger (Publish (mkStatus id RUNNING None ProcessOK codex)); Ret (id, None)) works).
  { intros []; cbn [negb]; [| apply ST]. apply safe_ask. intros []; cbn [negb]; [apply ST |]. apply safe_call; [done |].
    pose proof H2 as (_ & G & _). intros [] _; cbn [negb learn]; rewrite G; cbn [negb andb]; [apply ST |].
    assert (LAST : safe (upd_open h) (do! _ <- trigger (Publish (mkStatus id RUNNING None ProcessOK codex)); Ret (id, None)) works).
    { apply safe_publish. split_and!; [done | done |]. intros _. eauto. }
    destruct codex; [| exact LAST]. apply safe_call; [done |]. intros [] _; cbn [negb learn]; [| exact LAST].
    rewrite saw_done_cur by by apply (is_cur_known _ n id). apply ready_works. destruct H2 as (? & ? & ?). done. }
  apply safe_bind. apply (safe_weaken _ (fun h' _ => h' = h)).
  { destruct capture; [split; [done |]; by intros [] _ | done]. }
  intros ? [] ->. apply safe_bind. apply (safe_weaken _ (fun h' _ => h' = h)); [| by intros ? ok ->; apply REST].
  destruct codex; [| done]. apply safe_ask. intros []; [| done]. cbn [negb]. by destruct createThread.
Qed.

Lemma restore_safe h : safe h restore_once (fun h' _ => h' = h).
Proof.
  unfold restore_once. destruct restores; [| done]. apply safe_call; [done |]. intros [] _; [done |]. cbn [negb learn].
  apply safe_call; [done |]. by intros [] _.
Qed.

Lemma start_safe h : ready h -> safe h start works.
Proof.
  intros R. unfold start. apply safe_bind. eapply safe_weaken; [by apply startable_safe |]. intros h1 [e |] [R1 C]; [by apply ready_works |].
  destruct (C eq_refl) as [Cl O]. clear R C h. apply safe_bind. eapply safe_weaken; [apply restore_safe |]. intros h ok ->.
  destruct ok; cbn [negb]; [| by apply ready_works]. apply safe_call; [done |]. intros [id |] N; [| by apply ready_works].
  cbn [learn expected] in *. apply safe_ask. intros capture. apply safe_bind. apply (safe_weaken _ (fun h' _ => h' = h1)).
  { by destruct capture. }
  intros h ok ->. destruct ok; cbn [negb]; [| by apply ready_works]. apply safe_bind. apply (safe_weaken _ (fun h' _ => h' = h1)).
  { by destruct codex. }
  intros h ok ->. destruct ok; cbn [negb]; [| by apply ready_works]. apply safe_publish. destruct R1 as ((I & G & F) & T & P).
  apply safe_call; [by destruct I as (_ & _ & ?) |]. intros [n |] _; cbn [learn]; [| apply safe_publish; by apply ready_works].
  by apply launched_safe.
Qed.

Lemma stop_ready h id force : ready h -> safe h (stop id force) (fun h' _ => ready h').
Proof. intros R. eapply safe_weaken; [apply stop_safe, R |]. intros h' r S. by eapply stops_ready. Qed.

Lemma deliver_safe h id interrupt callback : ready h -> safe h (deliver id interrupt callback) works.
Proof.
  intros R. unfold deliver. apply safe_current; [apply R |]. intros a _.
  pose proof (kept_ready _ _ R (known_kept h a (proj1 R))) as R1. set (h1 := known h a) in *. clearbody h1. clear R h.
  destruct a as [[n cid] |]; [| by apply ready_works]. destruct (_ || _); [by apply ready_works |]. apply safe_call; [done |].
  intros d _. cbn [learn]. pose proof (kept_ready _ _ R1 (kept_saw h1 n d (proj1 R1))) as R2. set (h2 := saw_done h1 n d) in *.
  clearbody h2. clear R1 h1. destruct d; cbn [negb]; [by apply ready_works |]. apply safe_ask. intros []; cbn [negb]; [by apply ready_works |].
  assert (ST : forall (k : option ProcErr -> prog call Res), (forall h e, ready h -> safe h (k e) works) ->
    safe h2 (pbind (stop id false) k) works).
  { intros k K. apply safe_bind. eapply safe_weaken; [by apply stop_ready |]. intros h' e R'. by apply K. }
  destruct callback; cbn [negb]; [| apply ST; intros h' e R'; by apply ready_works].
  apply safe_ask. intros returned. apply safe_bind. apply (safe_weaken _ (fun h' _ => h' = h2)); [by destruct returned |].
  intros ? ok ->. apply safe_ask. intros expired. destruct (returned && negb expired && ok); [by apply ready_works |].
  destruct (returned && negb expired && negb interrupt); [by apply ready_works |]. apply ST. intros h' e R'.
  apply safe_bind. apply (safe_weaken _ (fun h'' _ => h'' = h')); [by destruct returned |]. intros ? ? ->. by apply ready_works.
Qed.

Lemma turn_safe h : ready h -> safe h turn works.
Proof.
  intros R. unfold turn. apply safe_current; [apply R |]. intros a _.
  pose proof (kept_ready _ _ R (known_kept h a (proj1 R))) as R1. set (h1 := known h a) in *. clearbody h1. clear R h.
  destruct a as [[n cid] |]; [| by apply ready_works]. apply safe_bind. apply (safe_weaken _ (fun h' _ => h' = h1)); [by destruct codex |].
  intros h [] ->; cbn [negb]; [| by apply ready_works]. apply safe_call; [done |]. intros d _. cbn [learn].
  pose proof (kept_ready _ _ R1 (kept_saw h1 n d (proj1 R1))) as R2. set (h2 := saw_done h1 n d) in *. clearbody h2.
  destruct d; cbn [negb]; [by apply ready_works |]. apply safe_ask. intros []; cbn [negb]; [by apply ready_works |].
  apply safe_bind. eapply safe_weaken; [by apply stop_ready |]. intros h' e R'. by apply ready_works.
Qed.

Lemma body_safe h op : ready h -> safe h (body op) works.
Proof.
  intros R. destruct op; cbn [body]; [by apply start_safe | | | by apply deliver_safe | by apply turn_safe].
  - apply safe_bind. eapply safe_weaken; [by apply stop_ready |]. intros h' e R'. by apply ready_works.
  - apply safe_bind. eapply safe_weaken; [by apply stop_ready |]. intros h' [e |] R'; [by apply ready_works | by apply start_safe].
Qed.

(** ** Whole goroutines *)

Lemma cleanup_safe h r : works h r -> safe h (cleanup r) (fun h' _ => ready h').
Proof.
  intros (H & T & P). unfold cleanup. destruct r as [id e].
  assert (NP : (forall n i, cur h = Some (Some (n, i)) -> (id, e) = (i, None) -> i <> "" -> False) -> ready h).
  { intros X. split_and!; [done | done |]. destruct (pend h); [| done]. destruct (P eq_refl) as (n & i & A & B & C). by destruct (X n i A B C). }
  destruct e as [e |]; [by apply NP |]. case_bool_decide as E; [apply NP; intros n i _ [= <-]; done |].
  apply safe_bind. eapply safe_weaken; [by apply stop_safe |]. intros h' r (K & _ & S). cbn [safe].
  split_and!; [by eapply kept_holder | rewrite (kp_spawn _ _ K); done |]. destruct (pend h) eqn:X; [| by apply (kp_pend _ _ K)].
  destruct (P eq_refl) as (n & i & A & [= ->] & C). apply S; eauto.
Qed.

Lemma worker_safe h k op : ready h -> safe h (worker k op) released.
Proof.
  intros R. unfold worker. apply safe_bind. eapply safe_weaken; [by apply body_safe |]. intros h1 r W. apply safe_ask. intros x.
  apply safe_bind. apply (safe_weaken _ (fun h' _ => ready h')).
  - pose proof (cleanup_safe h1 r W) as CL. destruct x; cbn [negb]; [done |]. destruct W as (H & T & P).
    apply safe_call; [intros X; destruct (P X) as (n & id & ? & ? & ?); eauto |]. intros [] _; cbn [negb learn]; [| done].
    destruct H as (? & ? & ?). done.
  - intros h2 [] ((I & G & F) & T & P). apply safe_call; [done |]. intros [] _. cbn [learn]. apply safe_call; [done |]. intros [] _.
    split; [done | apply I].
Qed.

Lemma operation_safe h op : idle h -> g h = false -> tospawn h = None ->
  safe h (operation op) (fun h' _ => idle h' /\ g h' = false /\ tospawn h' = None).
Proof.
  intros I G T. unfold operation. apply safe_call; [done |]. intros [] _; cbn [learn negb]; rewrite G; cbn [andb]; [done |].
  apply safe_ask. intros []; cbn [negb]; [done |]. apply safe_call; [done |]. intros [] _; cbn [learn negb]; [| done].
  apply safe_call; [done |]. intros [] _; cbn [learn negb andb g upd_gate upd_shut upd_open].
  - apply safe_call; [done |]. by intros [] _.
  - apply safe_call; [done |]. intros k _. cbn [learn]. apply safe_call; [done |]. intros [] _. cbn [learn].
    apply safe_call; [done |]. intros [r |] _; cbn [learn]; [| done]. apply safe_call; [done |]. by intros [] _.
Qed.

Lemma note_safe h ok n p : reaper h = Some (n, p) -> p <> Over -> safe h (note_failure ok n) (fun h' _ => h' = h).
Proof. intros R P. unfold note_failure. destruct ok; [done |]. split; [by exists p |]. by intros [] _. Qed.

Lemma reap_safe n id : safe (upd_reap free (Some (n, Before)) None) (reap n id) released.
Proof.
  unfold reap. apply safe_ask. intros ok. apply safe_publish. apply safe_call; [done |]. intros [] _. cbn [learn].
  apply safe_bind. set (h := upd_mu _ _ _). apply (safe_weaken _ (fun h' _ => h' = h)).
  { destruct ok; [| done]. split; [split; [done | by right] |]. done. }
  intros ? killed ->. apply safe_bind. eapply safe_weaken; [by apply (note_safe h killed n Before) |]. intros ? [] ->.
  apply safe_call; [done |]. intros exit _. apply safe_call; [done |]. intros [] _. cbn [learn]. set (h1 := upd_mu _ _ _).
  assert (N : forall ok, safe h1 (note_failure ok n) (fun h' _ => h' = h1)) by (intros; by apply (note_safe h1 _ n After)).
  apply safe_ask. intros c. apply safe_bind. eapply safe_weaken; [apply N |]. intros ? [] ->.
  apply safe_ask. intros capture. apply safe_bind. apply (safe_weaken _ (fun h' _ => h' = h1)); [by destruct capture |].
  intros ? drained ->. apply safe_bind. eapply safe_weaken; [apply N |]. intros ? [] ->.
  apply safe_call; [done |]. intros stopped _. apply safe_call; [done |]. intros err _. apply safe_bind.
  apply (safe_weaken _ (fun h' _ => h' = h1)); [by destruct capture |]. intros ? output ->. apply safe_publish.
  apply safe_call; [done |]. by intros [] _.
Qed.

Lemma watcher_safe n : safe free (watcher n) released.
Proof. apply safe_ask. intros []; cbn [negb]; [| done]. by apply safe_bind, signal_safe. Qed.

Lemma output_safe h id : idle h -> g h = false -> safe h (output_of id) released.
Proof.
  intros I G. apply safe_call; [done |]. intros [] _; cbn [learn negb]; [| by destruct I]. apply safe_call; [done |]. intros a _. cbn [learn].
  apply safe_ask. intros b. apply safe_call; [done |]. intros [] _. split; [done | apply I].
Qed.

(** Questions and waits for orphans change nothing. *)
Lemma orphans_safe h n : safe h (orphans n) (fun h' _ => h' = h).
Proof.
  apply safe_ask. intros []; cbn [negb]; [| done]. induction n as [| n IH]; cbn [reapOrphans]; [done |].
  apply safe_ask. intros []; cbn [negb]; [done |]. apply safe_call; [done |]. intros [] _; cbn [learn]; try done.
  apply safe_ask. by intros [].
Qed.

(** A shutdown that succeeds has seen that everything is cleaned up. *)
Definition shuts (h' : Hold) (r : option ProcErr) : Prop := idle h' /\ g h' = false /\ (r = None -> quiet h' = true).

Lemma hook_safe h n : ready h -> safe h (shutdown_hook n) (fun h' _ => ready h' /\ kept h h' /\ cur h' = cur h).
Proof.
  intros R. apply safe_ask. intros []; cbn [negb]; [| by split_and!; [| apply kept_refl, R |]]. apply safe_ask. intros ok.
  apply safe_bind. apply (safe_weaken _ (fun h' _ => ready h' /\ kept h h' /\ cur h' = cur h)); [| done].
  destruct ok; cbn [negb]; [| by split_and!; [| apply kept_refl, R |]]. split; [done |]. intros b _. cbn [learn safe].
  pose proof (kept_saw h n b (proj1 R)). split_and!; [by eapply kept_ready | done |]. unfold saw_done. by destruct (b && is_cur h n).
Qed.

Lemma shutdown_current_safe h n hook : ready h -> seal h = true ->
  safe h (shutdown_current n hook) (fun h' r => ready h' /\ seal h' = true /\ (r = None -> clear h' = true)).
Proof.
  intros R S. unfold shutdown_current. apply safe_current; [apply R |]. intros a _.
  pose proof (kept_ready _ _ R (known_kept h a (proj1 R))) as R1. assert (S1 : seal (known h a) = true) by done.
  destruct a as [[m cid] |].
  2: { eapply safe_weaken; [apply orphans_safe |]. by intros h' r ->. }
  set (h1 := known h _) in *. clearbody h1. clear R S h. apply safe_call; [done |]. intros d _. cbn [learn].
  pose proof (kept_saw h1 m d (proj1 R1)) as K. pose proof (kept_ready _ _ R1 K) as R2.
  assert (S2 : seal (saw_done h1 m d) = true) by (destruct (kp_shut _ _ K) as (_ & E & _); by rewrite E).
  set (h2 := saw_done h1 m d) in *. clearbody h2. clear K R1 S1 h1. apply safe_bind.
  apply (safe_weaken _ (fun h' _ => ready h' /\ seal h' = true)).
  { destruct d; cbn [negb]; [done |]. apply safe_call; [done |]. intros [] _. cbn [learn]. set (h3 := if is_cur h2 m then _ else _).
    assert (R3 : ready h3 /\ seal h3 = true).
    { subst h3. destruct R2 as ((? & ? & ?) & ? & ?). by destruct (is_cur h2 m). }
    destruct R3 as [R3 S3]. clearbody h3. apply safe_publish. destruct hook; cbn [negb]; [| done].
    apply safe_ask. intros []; cbn [negb]; [done |]. eapply safe_weaken; [by apply hook_safe |]. intros h' r (R' & K & _).
    split; [done |]. destruct (kp_shut _ _ K) as (_ & E & _). by rewrite E. }
  intros h3 unresolved [R3 S3]. apply safe_bind. eapply safe_weaken; [apply stop_safe, R3 |]. intros h4 e (K & C & _).
  pose proof (kept_ready _ _ R3 K) as R4. assert (S4 : seal h4 = true) by (destruct (kp_shut _ _ K) as (_ & E & _); by rewrite E).
  apply safe_bind. destruct e as [e |].
  - split; [done |]. intros b _. cbn [learn safe]. pose proof (kept_saw h4 m b (proj1 R4)) as K5.
    pose proof (kept_ready _ _ R4 K5) as R5. assert (S5 : seal (saw_done h4 m b) = true) by (destruct (kp_shut _ _ K5) as (_ & E & _); by rewrite E).
    destruct b; cbn [negb]; [| done]. apply safe_bind. eapply safe_weaken; [apply orphans_safe |]. intros h' [o |] ->; [done |].
    by destruct unresolved.
  - cbn [negb safe]. apply safe_bind. eapply safe_weaken; [apply orphans_safe |]. intros h' [o |] ->; [done |].
    destruct unresolved; cbn [negb]; [done |]. split_and!; auto.
Qed.

Lemma force_safe h : idle h -> g h = false -> safe h force_active shuts.
Proof.
  intros I G. apply safe_call; [done |]. intros [n |] _; [| done]. cbn [learn]. apply safe_call; [done |]. intros [] _. cbn [learn].
  assert (E : is_cur h n = true -> idle h /\ g h = false) by done.
  set (h1 := if is_cur h n then _ else _). assert (H1 : idle h1 /\ g h1 = false) by (subst h1; by destruct (is_cur h n)).
  clearbody h1. destruct H1 as [I1 G1]. apply safe_bind, signal_safe; [done |]. intros _. apply safe_call; [done |]. intros b _. cbn [learn].
  unfold saw_done. by destruct (b && is_cur h1 n).
Qed.

Lemma shutdown_safe h n hook : idle h -> g h = false -> closed h = true -> tospawn h = None -> safe h (shutdown n hook) shuts.
Proof.
  intros I G C T. induction n as [| n IH]; cbn [shutdown]; [by apply force_safe |].
  apply safe_call; [done |]. intros [] _; cbn [learn negb].
  - apply safe_bind. eapply safe_weaken; [apply shutdown_current_safe; [done | cbn; by rewrite C] |].
    intros h' r (((I' & G' & F') & T' & P') & S' & K'). apply safe_call; [done |]. intros [] _. cbn [learn safe].
    split_and!; [done | done |]. intros E. cbn. rewrite S', (K' E). apply orb_true_r.
  - apply safe_ask. intros []; cbn [negb]; [done | by apply force_safe].
Qed.

Lemma shutting_safe hook : safe (upd_shut free true false false) (shutting hook) released.
Proof.
  apply safe_bind. eapply safe_weaken; [by apply shutdown_safe |]. intros h r (I & G & Q). apply safe_call; [done |]. intros [] _.
  split; [done | apply I].
Qed.

Lemma Shutdown_safe hook : safe free (Shutdown hook) released.
Proof.
  apply safe_call; [done |]. intros first _. cbn [learn]. apply safe_bind.
  apply (safe_weaken _ (fun h _ => g h = false /\ mu h = None)).
  { destruct first; cbn [negb]; [| done]. apply safe_call; [done |]. intros [] _. cbn [learn]. apply safe_call; [done |]. intros [] _.
    split; [done |]. by intros [] _. }
  intros h [] [G M]. apply safe_call; [done |]. by intros r _.
Qed.

Lemma serve_safe r : safe free (serve r) released.
Proof.
  assert (OP : forall op (k : Res -> prog call Res), (forall h r, idle h -> g h = false -> tospawn h = None -> safe h (k r) released) ->
    safe free (pbind (operation op) k) released).
  { intros op k K. apply safe_bind. eapply safe_weaken; [by apply operation_safe |]. intros h x (I & G & T). by apply K. }
  assert (OR : forall op, safe free (operation op) released).
  { intros op. eapply safe_weaken; [by apply operation_safe |]. intros h x ((M & _) & G & _). done. }
  assert (RE : forall h (x : Res), idle h -> g h = false -> released h x) by (by intros h x (M & _) G).
  destruct r; cbn [serve].
  - apply OR.
  - unfold Stop. apply OP. intros h r I G T. by apply RE.
  - destruct createThread; [done | apply OR].
  - apply OP. intros h r I G T. by apply RE.
  - destruct (_ || _); [done |]. apply OP. intros h r I G T. by apply RE.
  - apply OP. intros h r I G T. destruct (snd r) as [[] |]; try by apply RE. apply safe_bind.
    eapply safe_weaken; [by apply operation_safe |]. intros h' x (I' & G' & _). by apply RE.
  - by apply output_safe.
  - apply Shutdown_safe.
Qed.

End Locks.
