(* ===== verification/SupervisorSafety.v ===== *)
(** * The supervisor under every interleaving

    What the locks of [Supervisor] protect is true at every moment: when the gate is free,
    or in the form in which its holder has taken it.  Proved, for every interleaving: at
    most one process is not cleaned up, and after a failed cleanup nothing is launched
    again; a process group is only signalled while its leader has not been reaped; a running
    process that nobody was told of is being stopped whenever the gate is free; and a
    shutdown that reports success has cleaned up every process, after which none is ever
    launched. *)

From Stdlib Require Import ZArith Bool Lia.
From stdpp Require Import base strings list relations.
From S2P Require Import Prelude Primitives Interaction Supervisor SupervisorLocks.

(** ** What is true at every moment *)

Definition clean (c : Child) : Prop := k_done c = true /\ k_err c = false.

Definition all_clean (s : Processes) : Prop := forall n c, children s !! n = Some c -> clean c.

(** Somebody was told of this process. *)
Definition reported (s : Processes) (id : ID) : Prop := exists k f, slots s !! k = Some (mkSlot (Read (id, None)) f).

(** The current process is cleaned up, asked to stop, or reported. *)
Definition accounted (s : Processes) : Prop :=
  forall n c, current s = Some n -> children s !! n = Some c -> k_done c = false -> k_stop c = false -> reported s (k_id c).

(** What the gate protects. *)
Definition free_ok (s : Processes) : Prop :=
  (forall n c, children s !! n = Some c -> current s <> Some n -> clean c) /\ accounted s.

(** What its holder has instead. *)
Record held_ok (s : Processes) (h : Hold) : Prop := {
  hd_rest : match fresh h with
            | None => forall n c, children s !! n = Some c -> current s <> Some n -> clean c
            | Some (m, id) => (exists c, children s !! m = Some c /\ k_id c = id)
                              /\ forall n c, children s !! n = Some c -> n <> m -> clean c
            end;
  hd_pend : fresh h = None -> pend h = false -> accounted s;
  hd_cur : forall x, cur h = Some x -> current_child s = x;
  hd_done : cur_done h = true -> forall n id c, cur h = Some (Some (n, id)) -> children s !! n = Some c -> k_done c = true;
  hd_clear : clear h = true -> all_clean s
}.

Definition claims (h : Hold) (n : nat) : Prop := (exists p, reaper h = Some (n, p)) \/ tospawn h = Some n.

Record holds (s : Processes) (h : Hold) : Prop := {
  ho_gate : g h = true -> gate s = true /\ held_ok s h;
  ho_mu : forall n, mu h = Some n -> exists c, children s !! n = Some c /\ k_mu c = true /\ (live h = true -> k_reaped c = false);
  ho_reaper : forall n p, reaper h = Some (n, p) -> exists c, children s !! n = Some c
      /\ match p with Before => k_reaped c = false /\ k_done c = false | After => k_reaped c = true /\ k_done c = false | Over => True end;
  ho_spawn : forall n, tospawn h = Some n -> reaper h = None /\ exists c, children s !! n = Some c /\ k_reaped c = false /\ k_done c = false;
  ho_closed : closed h = true \/ seal h = true -> closing s = true;
  ho_open : open h = true -> g h = true /\ seal h = false /\ shutdownErr s <> Some None;
  ho_quiet : quiet h = true -> seal h = true /\ all_clean s
}.

Record compat (h o : Hold) : Prop := {
  cp_gate : g h = true -> g o = true -> False;
  cp_mu : forall n, mu h = Some n -> mu o = Some n -> False;
  cp_claims : forall n, claims h n -> claims o n -> False;
  cp_seal : seal h = true -> open o = false;
  cp_open : seal o = true -> open h = false
}.

Record global (s : Processes) : Prop := {
  gl_free : gate s = false -> free_ok s;
  gl_result : shutdownErr s = Some None -> closing s = true /\ all_clean s;
  gl_reaped : forall n c, children s !! n = Some c -> k_done c = true -> k_reaped c = true;
  gl_current : forall n, current s = Some n -> is_Some (children s !! n);
  gl_one : forall n m c d, children s !! n = Some c -> children s !! m = Some d -> ~ clean c -> ~ clean d -> n = m
}.

Lemma compat_sym h o : compat h o -> compat o h.
Proof. intros []. split; eauto. Qed.

(** Calls that touch none of it. *)
Record mild (s s' : Processes) : Prop := {
  ml_gate : gate s' = gate s;
  ml_closing : closing s' = closing s;
  ml_current : current s' = current s;
  ml_children : children s' = children s;
  ml_shutdown : shutdownErr s' = shutdownErr s;
  ml_reported : forall id, reported s id -> reported s' id
}.

Lemma mild_refl s : mild s s.
Proof. by split. Qed.

Lemma mild_clean s s' : mild s s' -> all_clean s -> all_clean s'.
Proof. intros [] A n c. rewrite ml_children0. apply A. Qed.

Lemma mild_accounted s s' : mild s s' -> accounted s -> accounted s'.
Proof. intros M A n c. rewrite (ml_current _ _ M), (ml_children _ _ M). intros. apply (ml_reported _ _ M). eauto. Qed.

Lemma mild_held s s' h : mild s s' -> held_ok s h -> held_ok s' h.
Proof.
  intros M [R P C D L]. pose proof (ml_children _ _ M) as E. pose proof (ml_current _ _ M) as EC. split.
  - rewrite E, EC. done.
  - intros F X. eapply mild_accounted; eauto.
  - intros x X. unfold current_child. rewrite E, EC. by apply C.
  - rewrite E. done.
  - intros X. eapply mild_clean; eauto.
Qed.

Lemma mild_holds s s' h : mild s s' -> holds s h -> holds s' h.
Proof.
  intros M [G U R T C O Q]. pose proof (ml_children _ _ M) as E. split; rewrite ?E, ?(ml_closing _ _ M), ?(ml_shutdown _ _ M); try done.
  - rewrite (ml_gate _ _ M). intros X. destruct (G X). split; [done |]. by eapply mild_held.
  - intros X. destruct (Q X). split; [done |]. by eapply mild_clean.
Qed.

Lemma mild_global s s' : mild s s' -> global s -> global s'.
Proof.
  intros M [F R D C O]. pose proof (ml_children _ _ M) as E. split; rewrite ?E, ?(ml_current _ _ M), ?(ml_closing _ _ M), ?(ml_shutdown _ _ M); try done.
  - rewrite (ml_gate _ _ M). intros X. destruct (F X) as [F1 F2]. split; [rewrite E, (ml_current _ _ M); done | by eapply mild_accounted].
  - intros X. destruct (R X). split; [done |]. by eapply mild_clean.
Qed.

Lemma mild_slots s l : (forall id, reported s id -> reported (with_slots l s) id) -> mild s (with_slots l s).
Proof. by split. Qed.

(** A slot that nobody has read from may change. *)
Lemma reported_insert s k o o' id :
  slots s !! k = Some o -> (forall r, out o = Read r -> out o' = Read r) ->
  reported s id -> reported (with_slots (<[k := o']> (slots s)) s) id.
Proof.
  intros L K (j & f & J). destruct (decide (k = j)) as [-> | N].
  - rewrite L in J. injection J as ->. exists j, (finished o'). cbn. rewrite list_lookup_insert_eq by by eapply lookup_lt_Some.
    destruct o' as [o1 f1]. cbn in *. by rewrite (K _ eq_refl).
  - exists j, f. cbn. by rewrite list_lookup_insert_ne.
Qed.

(** ** A child that changes *)

(** A change of a child that takes nothing back. *)
Record grows (c c' : Child) : Prop := {
  gr_id : k_id c' = k_id c;
  gr_done : k_done c = true -> k_done c' = true;
  gr_stop : k_stop c = true -> k_stop c' = true;
  gr_clean : clean c -> clean c';
  gr_reaped : k_done c' = true -> k_reaped c' = true
}.

(** What another goroutine relies on is kept. *)
Definition spares (n : nat) (c c' : Child) (o : Hold) : Prop :=
  (mu o = Some n -> k_mu c' = true /\ k_reaped c' = k_reaped c)
  /\ (claims o n -> k_reaped c' = k_reaped c /\ k_done c' = k_done c).

Section Child.
Variables (s : Processes) (n : nat) (c c' : Child).
Hypothesis L : children s !! n = Some c.
Hypothesis GR : grows c c'.

Notation s' := (with_children (<[n := c']> (children s)) s).

Lemma changed_lookup m x : children s' !! m = Some x -> exists y, children s !! m = Some y /\ (m = n /\ y = c /\ x = c' \/ m <> n /\ x = y).
Proof.
  cbn. destruct (decide (m = n)) as [-> | N].
  - rewrite list_lookup_insert_eq by by eapply lookup_lt_Some. intros [= <-]. eauto 6.
  - rewrite list_lookup_insert_ne by done. eauto 6.
Qed.

Lemma changed_at m y : children s !! m = Some y -> exists x, children s' !! m = Some x /\ (m = n /\ y = c /\ x = c' \/ m <> n /\ x = y).
Proof.
  intros H. cbn. destruct (decide (m = n)) as [-> | N].
  - rewrite H in L. injection L as ->. rewrite list_lookup_insert_eq by by eapply lookup_lt_Some. eauto 6.
  - rewrite list_lookup_insert_ne by done. eauto 6.
Qed.

Lemma changed_clean m x : children s' !! m = Some x -> (forall y, children s !! m = Some y -> clean y) -> clean x.
Proof. intros H A. apply changed_lookup in H as (y & Y & [(-> & -> & ->) | [_ ->]]); [apply (gr_clean _ _ GR) |]; by apply A. Qed.

Lemma changed_all_clean : all_clean s -> all_clean s'.
Proof. intros A m x H. eapply changed_clean; eauto. Qed.

Lemma changed_current : current_child s' = current_child s.
Proof.
  unfold current_child. cbn [current with_children]. destruct (current s) as [m |]; [| done].
  destruct (children s !! m) as [y |] eqn:Y.
  - apply changed_at in Y as (x & -> & [(-> & -> & ->) | [_ ->]]); [by rewrite (gr_id _ _ GR) | done].
  - destruct (children s' !! m) as [x |] eqn:X; [| done]. apply changed_lookup in X as (y & Y' & _). congruence.
Qed.

Lemma changed_accounted : accounted s -> accounted s'.
Proof.
  intros A m x C H D S. apply changed_lookup in H as (y & Y & [(-> & -> & ->) | [_ ->]]); [| exact (A _ _ C Y D S)].
  rewrite (gr_id _ _ GR). apply (A n c C Y).
  - destruct (k_done c) eqn:X; [| done]. by rewrite (gr_done _ _ GR X) in D.
  - destruct (k_stop c) eqn:X; [| done]. by rewrite (gr_stop _ _ GR X) in S.
Qed.

Lemma changed_held h : held_ok s h -> held_ok s' h.
Proof.
  intros [R P C D K]. split.
  - destruct (fresh h) as [[m id] |].
    + destruct R as [(y & Y & I) R]. split.
      * apply changed_at in Y as (x & X & [(-> & -> & ->) | [_ ->]]); [| by exists y]. exists c'. by rewrite (gr_id _ _ GR).
      * intros j x X N. eapply changed_clean; eauto.
    + intros j x X N. eapply changed_clean; eauto.
  - intros F X. by apply changed_accounted, P.
  - intros x X. rewrite changed_current. by apply C.
  - intros X m id x E H. apply changed_lookup in H as (y & Y & [(-> & -> & ->) | [_ ->]]); [apply (gr_done _ _ GR) |]; eapply D; eauto.
  - intros X. by apply changed_all_clean, K.
Qed.

Lemma changed_holds h : spares n c c' h -> holds s h -> holds s' h.
Proof.
  intros [SM SC] [G U R T C O Q]. split; try done.
  - intros X. destruct (G X). split; [done | by apply changed_held].
  - intros m M. destruct (U m M) as (y & Y & K & V). apply changed_at in Y as (x & X & [(-> & -> & ->) | [_ ->]]); [| by exists y].
    destruct (SM M) as [K' R']. exists c'. split_and!; [done | done |]. by rewrite R'.
  - intros m p M. destruct (R m p M) as (y & Y & K). apply changed_at in Y as (x & X & [(-> & -> & ->) | [_ ->]]); [| by exists y].
    destruct SC as [R' D']; [left; by exists p |]. exists c'. split; [done |]. destruct p; rewrite ?R', ?D'; done.
  - intros m M. destruct (T m M) as (E & y & Y & K1 & K2). split; [done |].
    apply changed_at in Y as (x & X & [(-> & -> & ->) | [_ ->]]); [| by exists y].
    destruct SC as [R' D']; [by right |]. exists c'. rewrite R', D'. done.
  - intros X. destruct (Q X). split; [done | by apply changed_all_clean].
Qed.

Lemma changed_global : global s -> global s'.
Proof.
  intros [F R D C O]. split.
  - intros X. destruct (F X) as [F1 F2]. split; [| by apply changed_accounted]. intros m x M N. eapply changed_clean; eauto.
  - intros X. destruct (R X). split; [done | by apply changed_all_clean].
  - intros m x X K. apply changed_lookup in X as (y & Y & [(-> & -> & ->) | [_ ->]]); [by apply (gr_reaped _ _ GR) | eauto].
  - intros m M. destruct (C m M) as [y Y]. apply changed_at in Y as (x & X & _). by exists x.
  - intros i j x y X Y NX NY. destruct (changed_lookup _ _ X) as (x0 & X0 & _), (changed_lookup _ _ Y) as (y0 & Y0 & _).
    apply (O i j x0 y0 X0 Y0).
    + intros K. apply NX. eapply changed_clean; [exact X |]. intros z Z. congruence.
    + intros K. apply NY. eapply changed_clean; [exact Y |]. intros z Z. congruence.
Qed.
End Child.

Lemma change_inv n f s s' : change n f s = Some s' -> exists c, children s !! n = Some c /\ s' = with_children (<[n := f c]> (children s)) s.
Proof. unfold change. destruct (children s !! n) as [c |]; [| done]. intros [= <-]. eauto. Qed.

Lemma reads_inv n f b s s' : reads n f b s = Some s' -> s' = s /\ exists c, children s !! n = Some c /\ f c = b.
Proof.
  unfold reads. destruct (children s !! n) as [c |]; [| done]. destruct (eqb (f c) b) eqn:E; [| done]. intros [= <-].
  apply eqb_prop in E. eauto.
Qed.

Section Safety.
Context `{cfg : Settings}.

(** ** Every call keeps it *)

(** What a call does to the goroutine that makes it, to the others, to one that it starts,
    and to the rest. *)
Record sound {B} (h : Hold) (c : call B) (b : B) (s s' : Processes) : Prop := {
  so_self : holds s' (learn h c b);
  so_other : forall o, compat h o -> holds s o -> holds s' o /\ compat (learn h c b) o;
  so_spawn : spawned s c <> [] -> holds s' (inherits h c) /\ compat (learn h c b) (inherits h c)
               /\ forall o, compat h o -> holds s o -> compat (inherits h c) o;
  so_global : global s'
}.

(** Knowledge that excludes nobody further. *)
Record less (h' h : Hold) : Prop := {
  le_gate : g h' = true -> g h = true;
  le_mu : forall n, mu h' = Some n -> mu h = Some n;
  le_claims : forall n, claims h' n -> claims h n;
  le_seal : seal h' = true -> seal h = true;
  le_open : open h' = true -> open h = true
}.

Lemma less_refl h : less h h.
Proof. by split. Qed.

Lemma less_compat h' h o : less h' h -> compat h o -> compat h' o.
Proof.
  intros [A B C D E] [F G H I J]. split; eauto.
  intros S. specialize (J S). destruct (open h'); [| done]. by rewrite (E eq_refl) in J.
Qed.

Lemma less_free h : less free h.
Proof. split; try done. by intros n [[p X] | X]. Qed.

Lemma compat_free h : compat h free.
Proof. split; try done. by intros n _ [[p X] | X]. Qed.

Lemma holds_free s : holds s free.
Proof. split; try done. by intros [X | X]. Qed.

Lemma sound_mild {B} h (c : call B) b s s' :
  mild s s' -> global s -> holds s' (learn h c b) -> less (learn h c b) h -> spawned s c = [] -> sound h c b s s'.
Proof.
  intros M G H L E. split; [done | | by rewrite E | by eapply mild_global].
  intros o C O. split; [by eapply mild_holds | by eapply less_compat].
Qed.

(** Nothing is learnt. *)
Lemma sound_same {B} h (c : call B) b s s' :
  mild s s' -> global s -> holds s h -> learn h c b = h -> spawned s c = [] -> sound h c b s s'.
Proof. intros M G H E S. apply sound_mild; rewrite ?E; try done; by eapply mild_holds. Qed.

Lemma holds_upd_cur s h c d cl f p :
  holds s h -> (g h = true -> held_ok s (upd_cur h c d cl f p)) -> holds s (upd_cur h c d cl f p).
Proof. intros [G U R T C O Q] H. split; try done. intros X. split; [by apply G | by apply H]. Qed.

Lemma less_upd_cur h c d cl f p : less (upd_cur h c d cl f p) h.
Proof. by split. Qed.

(** Seeing that a process is cleaned up. *)
Lemma saw_holds s h n b : holds s h -> (b = true -> exists c, children s !! n = Some c /\ k_done c = true) -> holds s (saw_done h n b).
Proof.
  intros H D. unfold saw_done. destruct (b && is_cur h n) eqn:E; [| done]. apply andb_true_iff in E as [-> I].
  destruct (D eq_refl) as (c & L & K). apply holds_upd_cur; [done |]. intros G. destruct (ho_gate _ _ H G) as [_ [R P C D' Cl]].
  unfold is_cur in I. destruct (cur h) as [[[m id] |] |] eqn:X; try done. apply Nat.eqb_eq in I as <-.
  pose proof (C _ eq_refl) as CC. split; cbn; rewrite ?X; try done.
  - intros F _ j x J JL JD. exfalso. unfold current_child in CC. rewrite J in CC. rewrite JL in CC. injection CC as -> <-. congruence.
  - intros _ j i x [= <- <-] JL. congruence.
Qed.

Lemma less_saw h n b : less (saw_done h n b) h.
Proof. unfold saw_done. destruct (b && is_cur h n); [apply less_upd_cur | apply less_refl]. Qed.

Lemma current_known s h n : holds s h -> g h = true -> is_cur h n = true -> current s = Some n.
Proof.
  intros H G I. destruct (ho_gate _ _ H G) as [_ K]. unfold is_cur in I. destruct (cur h) as [[[m id] |] |] eqn:X; try done.
  apply Nat.eqb_eq in I as <-. pose proof (hd_cur _ _ K _ X) as C. unfold current_child in C.
  destruct (current s) as [j |]; [| done]. destruct (children s !! j); [| done]. by injection C as -> _.
Qed.

(** The calls that read children. *)
Lemma sound_done h n b s s' : global s -> holds s h -> reads n k_done b s = Some s' -> sound h (Done n) b s s'.
Proof.
  intros G H R. apply reads_inv in R as (-> & c & L & K). apply sound_mild; [apply mild_refl | done | | apply less_saw | done].
  apply saw_holds; [done |]. intros ->. eauto.
Qed.

Lemma sound_waitdone h n b s s' : global s -> holds s h -> react s (WaitDone n) b = Some s' -> sound h (WaitDone n) b s s'.
Proof.
  intros G H R. cbn in R. destruct b.
  - apply reads_inv in R as (-> & c & L & K). apply sound_mild; [apply mild_refl | done | | apply less_saw | done].
    apply saw_holds; [done |]. eauto.
  - injection R as <-. apply sound_same; [apply mild_refl | done ..].
Qed.

Lemma sound_err h n b s s' : global s -> holds s h -> reads n k_err b s = Some s' -> sound h (Err_ n) b s s'.
Proof.
  intros G H R. apply reads_inv in R as (-> & c & L & K). cbn. destruct (is_cur h n && cur_done h && negb b && negb (is_some (fresh h))) eqn:E.
  2: { apply sound_same; [apply mild_refl | done | done | | done]. cbn. by rewrite E. }
  apply sound_mild; [apply mild_refl | done | | | done]; cbn; rewrite E; [| apply less_upd_cur].
  apply holds_upd_cur; [done |]. intros GH. pose proof (ho_gate _ _ H GH) as [_ [R P C D Cl]].
  assert (I : is_cur h n = true) by (by destruct (is_cur h n)). pose proof (current_known s h n H GH I) as CN.
  rewrite I in E. cbn in E. destruct (cur_done h) eqn:CD; [| done]. destruct b; [done |]. destruct (fresh h) eqn:F; [done |].
  split; cbn; rewrite ?F; try done.
  intros _ m x M. destruct (decide (m = n)) as [-> | N].
  - rewrite L in M. injection M as <-. split; [| done]. unfold is_cur in I. destruct (cur h) as [[[j id] |] |] eqn:X; try done.
    apply Nat.eqb_eq in I as <-. by eapply (D eq_refl n id).
  - apply (R m x M). congruence.
Qed.

(** The gate's knowledge is apart from the rest. *)
Lemma held_ext s h h' : fresh h' = fresh h -> pend h' = pend h -> cur h' = cur h -> cur_done h' = cur_done h -> clear h' = clear h ->
  held_ok s h -> held_ok s h'.
Proof. intros E1 E2 E3 E4 E5 [R P C D K]. split; rewrite ?E1, ?E2, ?E3, ?E4, ?E5; done. Qed.

Lemma gate_ext s h h' : g h' = g h -> fresh h' = fresh h -> pend h' = pend h -> cur h' = cur h -> cur_done h' = cur_done h -> clear h' = clear h ->
  (g h = true -> gate s = true /\ held_ok s h) -> g h' = true -> gate s = true /\ held_ok s h'.
Proof. intros E E1 E2 E3 E4 E5 H G. rewrite E in G. destruct (H G). split; [done | by eapply (held_ext s h)]. Qed.

(** Splits [holds] for knowledge that differs outside of the gate. *)
Ltac split_holds HG := split; [eapply gate_ext; [.. | exact HG]; reflexivity | ..]; try done.

(** The calls that change a child. *)
Lemma spares_same n c c' o : k_mu c' = k_mu c -> k_reaped c' = k_reaped c -> k_done c' = k_done c -> (mu o = Some n -> k_mu c = true) ->
  spares n c c' o.
Proof. intros A B C D. split; [intros M; rewrite A, B; auto | done]. Qed.

Lemma holds_mu_at s h n c : holds s h -> children s !! n = Some c -> mu h = Some n -> k_mu c = true.
Proof. intros H L M. destruct (ho_mu _ _ H n M) as (c' & L' & K & _). congruence. Qed.

Lemma sound_child {B} h (c : call B) b s n x x' :
  global s -> holds s h -> children s !! n = Some x -> grows x x' ->
  let s' := with_children (<[n := x']> (children s)) s in
  holds s' (learn h c b) -> less (learn h c b) h -> spawned s c = [] ->
  (forall o, compat h o -> holds s o -> spares n x x' o) -> sound h c b s s'.
Proof.
  intros G H L GR s' HS LE SP SO. split; [done | | by rewrite SP | by apply (changed_global s n x x')].
  intros o C O. split; [apply (changed_holds s n x x' L GR); auto | by eapply less_compat].
Qed.

Lemma sound_stop h n s s' : global s -> holds s h -> change n set_stop s = Some s' -> sound h (StopRequest n) tt s s'.
Proof.
  intros G H R. apply change_inv in R as (c & L & ->).
  assert (GR : grows c (set_stop c)) by (split; try done; apply (gl_reaped _ G n c L)).
  assert (SP : forall o, holds s o -> spares n c (set_stop c) o) by (intros o O; apply spares_same; try done; intros; by eapply holds_mu_at).
  apply (sound_child h (StopRequest n) tt s n c); try done; [| | by intros; apply SP]; cbn; destruct (is_cur h n) eqn:I;
    [| by apply (changed_holds s n c); [| | apply SP |] | apply less_upd_cur | apply less_refl].
  pose proof (changed_holds s n c _ L GR h (SP h H) H) as H'. apply holds_upd_cur; [done |]. intros GH.
  destruct (ho_gate _ _ H' GH) as [_ [R P C D Cl]]. split; try done. intros F _ m x M X XD XS. exfalso.
  rewrite (current_known _ h n H' GH I) in M. injection M as <-. cbn in X.
  rewrite list_lookup_insert_eq in X by by eapply lookup_lt_Some. by injection X as <-.
Qed.

Lemma sound_lock h n s s' : global s -> holds s h -> mu h = None -> react s (LockMu n) tt = Some s' -> sound h (LockMu n) tt s s'.
Proof.
  intros G H M R. cbn in R. destruct (children s !! n) as [c |] eqn:L; [| done]. destruct (k_mu c) eqn:K; [done |].
  apply change_inv in R as (c' & L' & ->). rewrite L in L'. injection L' as <-.
  assert (GR : grows c (set_mu true c)) by (split; try done; apply (gl_reaped _ G n c L)).
  assert (SP : forall o, holds s o -> spares n c (set_mu true c) o) by done.
  pose proof (changed_holds s n c _ L GR h (SP h H) H) as [HG HU HR HT HC HO HQ]. split.
  - split_holds HG. intros m [= <-]. exists (set_mu true c). split_and!; try done. cbn. apply list_lookup_insert_eq. by eapply lookup_lt_Some.
  - intros o [? ? ? ? ?] O. split; [by apply (changed_holds s n c); [| | apply SP |] |]. split; try done. intros m [= <-] X.
    pose proof (holds_mu_at s o n c O L X). congruence.
  - done.
  - by apply (changed_global s n c).
Qed.

Lemma sound_unlock h n s s' : global s -> holds s h -> mu h = Some n -> change n (set_mu false) s = Some s' -> sound h (UnlockMu n) tt s s'.
Proof.
  intros G H M R. apply change_inv in R as (c & L & ->).
  assert (GR : grows c (set_mu false c)) by (split; try done; apply (gl_reaped _ G n c L)).
  assert (SP : forall o, mu o <> Some n -> spares n c (set_mu false c) o) by (intros o O; by split).
  apply (sound_child h (UnlockMu n) tt s n c); try done.
  - assert (H0 : holds s (upd_mu h None false)) by (destruct H as [HG HU HR HT HC HO HQ]; split_holds HG). by apply (changed_holds s n c).
  - intros o C O. apply SP. intros X. by apply (cp_mu _ _ C n).
Qed.

Lemma sound_reaped h n b s s' : global s -> holds s h -> reads n k_reaped b s = Some s' -> sound h (Reaped n) b s s'.
Proof.
  intros G H R. apply reads_inv in R as (-> & c & L & K). destruct (mu h) as [m |] eqn:M.
  2: { apply sound_same; [apply mild_refl | done | done | cbn; by rewrite M | done]. }
  destruct (Nat.eqb n m) eqn:E.
  2: { apply sound_same; [apply mild_refl | done | done | cbn; by rewrite M, E | done]. }
  apply Nat.eqb_eq in E as <-. apply sound_mild; [apply mild_refl | done | | | done]; cbn; rewrite M, Nat.eqb_refl.
  - destruct H as [HG HU HR HT HC HO HQ]. split_holds HG. cbn. intros m [= <-]. destruct (HU n M) as (c' & L' & U & _).
    rewrite L in L'. injection L' as <-. exists c. split_and!; try done. intros X. by destruct b.
  - by split; rewrite ?M.
Qed.

Lemma sound_reap h n b s s' : global s -> holds s h -> allowed h (Reap n) -> change n set_reaped s = Some s' -> sound h (Reap n) b s s'.
Proof.
  intros G H [M R] X. apply change_inv in X as (c & L & ->). assert (GR : grows c (set_reaped c)) by by split.
  assert (SP : forall o, mu o <> Some n -> ~ claims o n -> spares n c (set_reaped c) o) by (intros o A B; split; intros; by exfalso; auto).
  assert (CL : claims h n) by (left; by exists Before).
  destruct (ho_reaper _ _ H n Before R) as (c' & L' & R' & D). rewrite L in L'. injection L' as <-.
  apply (sound_child h (Reap n) b s n c); try done.
  - assert (H0 : holds s (upd_reap (upd_mu h None false) None None)).
    { destruct H as [HG HU HR HT HC HO HQ]. split_holds HG. }
    assert (H1 : holds (with_children (<[n:=set_reaped c]> (children s)) s) (upd_reap (upd_mu h None false) None None)).
    { apply (changed_holds s n c); try done. apply SP; [done |]. by intros [[p P] | P]. }
    assert (E : children (with_children (<[n:=set_reaped c]> (children s)) s) !! n = Some (set_reaped c))
      by (cbn; apply list_lookup_insert_eq; by eapply lookup_lt_Some).
    destruct H1 as [HG HU HR HT HC HO HQ]. split_holds HG.
    + intros m E'. cbn in E'. assert (m = n) as -> by congruence. exists (set_reaped c). split_and!; try done. by apply (holds_mu_at s h n c).
    + intros m p [= <- <-]. by exists (set_reaped c).
    + intros m T. cbn in T. destruct (ho_spawn _ _ H m T) as [N _]. congruence.
  - split; try done. intros m [[p [= <- <-]] | T]; [done | by right].
  - intros o C O. apply SP; [intros X; by apply (cp_mu _ _ C n) | intros X; by apply (cp_claims _ _ C n)].
Qed.

Lemma sound_seterr h n s s' : global s -> holds s h -> allowed h (SetErr n) -> change n set_err s = Some s' -> sound h (SetErr n) tt s s'.
Proof.
  intros G H (p & R & N) X. apply change_inv in X as (c & L & ->).
  assert (D : k_done c = false).
  { destruct (ho_reaper _ _ H n p R) as (c' & L' & Y). rewrite L in L'. injection L' as <-. by destruct p; [apply Y | apply Y |]. }
  assert (GR : grows c (set_err c)).
  { split; try done; [intros [Z _]; congruence | apply (gl_reaped _ G n c L)]. }
  assert (SP : forall o, holds s o -> spares n c (set_err c) o) by (intros o O; apply spares_same; try done; intros; by eapply holds_mu_at).
  apply (sound_child h (SetErr n) tt s n c); try done; [apply (changed_holds s n c); try done; by apply SP | by intros; apply SP].
Qed.

Lemma sound_close h n s s' : global s -> holds s h -> allowed h (CloseDone n) -> change n set_done s = Some s' -> sound h (CloseDone n) tt s s'.
Proof.
  intros G H R X. cbn in R. apply change_inv in X as (c & L & ->).
  destruct (ho_reaper _ _ H n After R) as (c' & L' & R' & D). rewrite L in L'. injection L' as <-.
  assert (GR : grows c (set_done c)) by (split; try done; intros [Z _]; congruence).
  assert (SP : forall o, holds s o -> ~ claims o n -> spares n c (set_done c) o).
  { intros o O A. split; [intros M; split; [by apply (holds_mu_at s o n c) | done] | by intros B]. }
  assert (CL : claims h n) by (left; by exists After).
  assert (NT : tospawn h = None) by (destruct (tospawn h) as [m |] eqn:T; [destruct (ho_spawn _ _ H m T); congruence | done]).
  apply (sound_child h (CloseDone n) tt s n c); try done.
  - assert (H0 : holds s (upd_reap h None None)) by (destruct H as [HG HU HR HT HC HO HQ]; split_holds HG).
    assert (H1 : holds (with_children (<[n:=set_done c]> (children s)) s) (upd_reap h None None)).
    { apply (changed_holds s n c); try done. apply SP; [done |]. by intros [[p P] | P]. }
    assert (E : children (with_children (<[n:=set_done c]> (children s)) s) !! n = Some (set_done c))
      by (cbn; apply list_lookup_insert_eq; by eapply lookup_lt_Some).
    destruct H1 as [HG HU HR HT HC HO HQ]. split_holds HG.
    + intros m p [= <- <-]. by exists (set_done c).
    + intros m T. cbn in T. congruence.
  - split; try done. intros m [[p [= <- <-]] | T]; [done | by right].
  - intros o C O. apply SP; [done |]. intros X. by apply (cp_claims _ _ C n).
Qed.

(** The gate. *)
Lemma holds_gate s h : holds s h -> gate s = false -> g h = false.
Proof. intros H G. destruct (g h) eqn:E; [| done]. destruct (ho_gate _ _ H E). congruence. Qed.

Lemma closed_open s h : holds s h -> g h = false -> open h = false.
Proof. intros H G. destruct (open h) eqn:E; [| done]. destruct (ho_open _ _ H E). congruence. Qed.

(** Whoever does not hold the gate does not care who does. *)
Lemma holds_with_gate s h b : holds s h -> g h = false -> holds (with_gate b s) h.
Proof.
  intros [G U R T C O Q] E. split; try done. intros X. congruence.
Qed.

Lemma global_with_gate s : global s -> free_ok s -> forall b, global (with_gate b s).
Proof. intros [F R D C O] K b. by split. Qed.

Lemma sound_trygate h s s' : global s -> holds s h -> g h = false -> react s TryGate true = Some s' -> sound h TryGate true s s'.
Proof.
  intros G H E R. cbn in R. unfold possible in R. destruct (gate s) eqn:GS; [done |]. injection R as <-.
  destruct (gl_free _ G GS) as [F A]. destruct H as [HG HU HR HT HC HO HQ]. split.
  - split; try done.
    + intros [X | X]; [by apply HC; left |]. cbn in X. apply orb_true_iff in X as [X | X]; apply HC; auto.
    + intros X. destruct (HQ X) as [S Q]. split; [cbn; rewrite S; apply orb_true_r | done].
  - intros o [CG CM CC CS CO] O. pose proof (holds_gate s o O GS) as GO. pose proof (closed_open s o O GO) as OO.
    split; [by apply holds_with_gate |]. split; try done. intros _. by rewrite GO.
  - done.
  - apply global_with_gate; [done |]. by split.
Qed.

(** Giving up the gate, or handing it over. *)
Lemma sound_ungate h s : global s -> holds s h -> allowed h UnlockGate -> sound h UnlockGate tt s (with_gate false s).
Proof.
  intros G H (E & F & P). destruct (ho_gate _ _ H E) as [GS [KR KP KC KD KL]]. rewrite F in KR.
  assert (FO : free_ok s) by (split; [done | by apply KP]). destruct H as [HG HU HR HT HC HO HQ]. split.
  - split; try done. intros X. cbn in X. apply orb_true_iff in X as [X | X]; [by apply HQ |]. apply andb_true_iff in X as [S C].
    split; [done |]. by apply KL.
  - intros o [CG CM CC CS CO] O. assert (GO : g o = false) by (destruct (g o); [by destruct (CG E eq_refl) | done]).
    split; [by apply holds_with_gate |]. by split.
  - done.
  - by apply global_with_gate.
Qed.

Lemma held_fresh s h o : global s -> holds s h -> g h = true -> fresh h = None -> pend h = false -> held_ok s (upd_gate free true o).
Proof.
  intros G H E F P. destruct (ho_gate _ _ H E) as [GS [KR KP KC KD KL]]. rewrite F in KR. split; try done. intros _ _. by apply KP.
Qed.

Lemma sound_work h k op s : global s -> holds s h -> allowed h (Work k op) -> sound h (Work k op) tt s s.
Proof.
  intros G H (E & F & P). pose proof (held_fresh s h (open h) G H E F P) as HF. destruct H as [HG HU HR HT HC HO HQ].
  destruct (HG E) as [GS _]. split; [| | | done].
  - by split.
  - intros o [CG CM CC CS CO] O. split; [done |]. by split.
  - intros _. split_and!.
    + split; try done; [by intros [X | X] |]. cbn. intros O. destruct (HO O) as (_ & _ & ?). done.
    + split; try done; [by intros n _ [[p X] | X] |]. cbn. intros S. destruct (open h) eqn:O; [| done]. destruct (HO eq_refl) as (_ & ? & _). congruence.
    + intros o [CG CM CC CS CO] O. split; try done; [intros _; by apply CG | by intros n [[p X] | X]].
Qed.

(** The gate's knowledge is about the children, the current process and the slots. *)
Lemma held_core s s' h : children s' = children s -> current s' = current s -> slots s' = slots s -> held_ok s h -> held_ok s' h.
Proof.
  intros E EC ES [R P C D L]. split.
  - by rewrite E, EC.
  - intros F X n c. rewrite E, EC. unfold reported. rewrite ES. by apply P.
  - intros x X. unfold current_child. rewrite E, EC. by apply C.
  - by rewrite E.
  - intros X n c. rewrite E. by apply L.
Qed.

(** Seeing the supervisor open. *)
Lemma sound_closing h b s s' : global s -> holds s h -> react s Closing b = Some s' -> sound h Closing b s s'.
Proof.
  intros G H R. cbn in R. unfold possible in R. destruct (eqb b (closing s)) eqn:E; [| done]. injection R as <-. apply eqb_prop in E.
  destruct (g h && negb b) eqn:X.
  2: { apply sound_same; [apply mild_refl | done | done | cbn; by rewrite X | done]. }
  apply andb_true_iff in X as [GH NB]. destruct b; [done |]. assert (NS : forall o, holds s o -> seal o = false).
  { intros o O. destruct (seal o) eqn:S; [| done]. rewrite (ho_closed _ _ O (or_intror S)) in E. done. }
  pose proof (NS h H) as NH. split; cbn; rewrite ?GH; cbn [andb negb].
  - destruct H as [HG HU HR HT HC HO HQ]. split_holds HG. intros _. split_and!; [done | done |]. intros X.
    destruct (gl_result _ G X) as [Y _]. congruence.
  - intros o [CG CM CC CS CO] O. split; [done |]. split; try done. rewrite (NS o O). done.
  - done.
  - done.
Qed.

Lemma sound_setclosing h s : global s -> holds s h -> sound h SetClosing tt s (with_closing s).
Proof.
  intros G H.
  assert (K : forall o, holds s o -> holds (with_closing s) o).
  { intros o [HG HU HR HT HC HO HQ]. split; try done. intros X. destruct (HG X). split; [done | by eapply (held_core s)]. }
  split.
  - destruct (K h H) as [HG HU HR HT HC HO HQ]. split_holds HG.
  - intros o [CG CM CC CS CO] O. split; [by apply K | by split].
  - done.
  - destruct G as [F R D C O]. split; try done. intros X. destruct (R X). done.
Qed.

(** What a shutdown reports. *)
Lemma sound_result h r s : global s -> holds s h -> allowed h (ShutdownResult r) -> sound h (ShutdownResult r) tt s (with_shutdownErr r s).
Proof.
  intros G H A. cbn in A.
  assert (Q : r = None -> seal h = true /\ closing s = true /\ all_clean s).
  { intros E. destruct (ho_quiet _ _ H (A E)) as [S C]. split_and!; [done | apply (ho_closed _ _ H); by right | done]. }
  assert (K : forall o, holds s o -> (r = None -> open o = false) -> holds (with_shutdownErr r s) o).
  { intros o [HG HU HR HT HC HO HQ] N. split; try done; [intros X; destruct (HG X); split; [done | by eapply (held_core s)] |]. intros O. destruct (HO O) as (? & ? & _). split_and!; [done | done |].
    intros [= E]. rewrite (N E) in O. done. }
  assert (OH : seal h = true -> open h = false).
  { intros S. destruct (open h) eqn:O; [| done]. destruct (ho_open _ _ H O) as (_ & X & _). congruence. }
  split.
  - apply K; [done |]. intros E. apply OH, Q, E.
  - intros o C O. split; [| done]. apply K; [done |]. intros E. apply (cp_seal _ _ C), Q, E.
  - done.
  - destruct G as [F R D C O]. split; try done. intros [= E]. by destruct (Q E) as (_ & ? & ?).
Qed.

(** The current process. *)
Lemma sound_current h a s s' : global s -> holds s h -> allowed h Current -> react s Current a = Some s' -> sound h Current a s s'.
Proof.
  intros G H [GH F] R. cbn in R. destruct (decide (a = current_child s)) as [-> |]; [| done]. injection R as <-.
  apply sound_mild; [apply mild_refl | done | | apply less_upd_cur | done]. apply holds_upd_cur; [done |]. intros _.
  destruct (ho_gate _ _ H GH) as [_ [KR KP KC KD KL]]. split; cbn; rewrite ?F in *; try done.
  - intros x [= <-]. done.
  - intros X n id c [= E] L. apply andb_true_iff in X as [X1 X2]. destruct (cur h) as [x |] eqn:Y; [| done].
    apply (KD X2 n id c); [| done]. by rewrite <- E, (KC x eq_refl).
  - destruct (current_child s) as [x |] eqn:E; [done |]. intros _ n c L. apply (KR n c L). intros X.
    unfold current_child in E. rewrite X, L in E. done.
Qed.

Lemma sound_setcurrent h n s : global s -> holds s h -> allowed h (SetCurrent n) -> sound h (SetCurrent n) tt s (with_current (Some n) s).
Proof.
  intros G H (GH & id & F). destruct (ho_gate _ _ H GH) as [GS [KR KP KC KD KL]]. rewrite F in KR. destruct KR as [(c & L & I) KR].
  assert (K : forall o, holds s o -> g o = false -> holds (with_current (Some n) s) o).
  { intros o [HG HU HR HT HC HO HQ] N. split; try done. congruence. }
  split; cbn; rewrite ?F.
  - destruct H as [HG HU HR HT HC HO HQ]. split; try done. intros _. split; [done |]. split; cbn; try done.
    + intros m x M N. apply (KR m x M). congruence.
    + intros x [= <-]. unfold current_child. cbn. by rewrite L, I.
  - intros o [CG CM CC CS CO] O. split; [apply K; [done |]; destruct (g o); [by destruct (CG GH eq_refl) | done] | by split].
  - done.
  - destruct G as [GF GR GD GC GO]. split; try done; [cbn; congruence |]. intros m [= <-]. by exists c.
Qed.

Lemma sound_launch h id n s s' :
  global s -> holds s h -> allowed h (Launch id) -> react s (Launch id) (Some n) = Some s' -> sound h (Launch id) (Some n) s s'.
Proof.
  intros G H (GH & O & Cl & F & P & T & Rp) R. cbn in R. unfold possible in R. destruct (Nat.eqb n _) eqn:E; [| done].
  apply Nat.eqb_eq in E. injection R as <-. destruct (ho_gate _ _ H GH) as [GS [KR KP KC KD KL]]. specialize (KL Cl).
  set (s' := with_children _ s).
  assert (OLD : forall m c, children s !! m = Some c -> children s' !! m = Some c).
  { intros m c M. cbn. by apply lookup_app_l_Some. }
  assert (NEW : children s' !! n = Some (fork id)) by (cbn; by rewrite E, list_lookup_middle).
  assert (INV : forall m c, children s' !! m = Some c -> children s !! m = Some c \/ m = n /\ c = fork id).
  { intros m c M. cbn in M. apply lookup_app_Some in M as [M | [Q M]]; [by left |]. right. apply list_lookup_singleton_Some in M as [? <-].
    split; [lia | done]. }
  assert (BOUND : forall m c, children s !! m = Some c -> m <> n) by (intros m c M; apply lookup_lt_Some in M; lia).
  assert (CUR : current_child s' = current_child s).
  { unfold current_child. cbn [current with_children s']. destruct (current s) as [m |] eqn:X; [| done].
    destruct (gl_current _ G m X) as [c M]. by rewrite (OLD _ _ M), M. }
  destruct (ho_open _ _ H O) as (_ & NS & NR).
  assert (K : forall o, g o = false -> quiet o = false -> holds s o -> holds s' o).
  { intros o N Q [HG HU HR HT HC HO HQ]. split; try done; [congruence | | | | by rewrite Q].
    - intros m M. destruct (HU m M) as (c & L & X). eauto.
    - intros m p M. destruct (HR m p M) as (c & L & X). eauto.
    - intros m M. destruct (HT m M) as (X & c & L & Y). eauto. }
  split.
  - assert (QH : quiet h = false) by (destruct (quiet h) eqn:Q; [destruct (ho_quiet _ _ H Q); congruence | done]).
    assert (H0 : holds s' (upd_gate h false false)).
    { apply K; [done | done |]. destruct H as [HG HU HR HT HC HO HQ]. by split. }
    destruct H0 as [HG HU HR HT HC HO HQ]. cbn in QH. split; try done.
    + intros _. split; [done |]. split; cbn; try done.
      * split; [by exists (fork id) |]. intros m c M N. destruct (INV m c M) as [M' | [-> _]]; [by apply (KL m) | done].
      * intros x X. rewrite CUR. by apply KC.
      * intros D m i c X M. destruct (INV m c M) as [M' | [-> _]]; [by eapply KD |]. exfalso.
        pose proof (KC _ X) as Y. unfold current_child in Y. destruct (current s) as [j |]; [| done].
        destruct (children s !! j) as [y |] eqn:Z; [| done]. injection Y as -> _. by apply BOUND in Z.
    + intros m [= <-]. split; [done |]. by exists (fork id).
  - intros o [CG CM CC CS CO] OO. assert (GO : g o = false) by (destruct (g o); [by destruct (CG GH eq_refl) | done]).
    assert (QO : quiet o = false).
    { destruct (quiet o) eqn:Q; [| done]. destruct (ho_quiet _ _ OO Q) as [S _]. by rewrite (CO S) in O. }
    split; [by apply K |]. split; try done. cbn. intros m [[p X] | [= <-]] Y; [by rewrite Rp in X |].
    destruct Y as [[p Y] | Y].
    + destruct (ho_reaper _ _ OO n p Y) as (c & L & _). by apply BOUND in L.
    + destruct (ho_spawn _ _ OO n Y) as (_ & c & L & _). by apply BOUND in L.
  - done.
  - destruct G as [GF GR GD GC GO]. split; try done.
    + cbn. congruence.
    + intros m c M D. destruct (INV m c M) as [M' | [_ ->]]; [eauto | done].
    + intros m M. destruct (GC m M) as [c L]. eauto.
    + intros i j x y X Y NX NY. destruct (INV i x X) as [X' | [-> _]]; [by destruct NX; apply (KL i) |].
      destruct (INV j y Y) as [Y' | [-> _]]; [by destruct NY; apply (KL j) | done].
Qed.

(** Handing over a result. *)
Lemma sound_deliver h k r b s s' :
  global s -> holds s h -> allowed h (Deliver k r) -> react s (Deliver k r) b = Some s' -> sound h (Deliver k r) b s s'.
Proof.
  intros G H A R. cbn in A, R. destruct b; [| injection R as <-; apply sound_same; [apply mild_refl | done ..]].
  destruct (slots s !! k) as [[[] f] |] eqn:L; try done. injection R as <-. set (s' := with_slots _ s).
  assert (M : mild s s') by (apply mild_slots; intros id I; by eapply reported_insert).
  apply sound_mild; [done | done | | apply less_upd_cur | done]. apply holds_upd_cur; [by eapply mild_holds |]. intros GH.
  destruct (ho_gate _ _ (mild_holds _ _ _ M H) GH) as [_ [KR KP KC KD KL]]. split; try done. intros F _.
  destruct (pend h) eqn:P; [| by apply KP]. destruct (A eq_refl) as (n & id & C & ->). intros m c X Y _ _.
  pose proof (KC _ C) as Z. unfold current_child in Z. rewrite X, Y in Z. injection Z as -> <-.
  exists k, f. cbn. apply list_lookup_insert_eq. by eapply lookup_lt_Some.
Qed.

(** The calls that start a goroutine. *)
Lemma sound_reaper h n s : global s -> holds s h -> allowed h (Reaper n) -> sound h (Reaper n) tt s s.
Proof.
  intros G H T. cbn in T. destruct (ho_spawn _ _ H n T) as (R & c & L & K). split; [| | | done].
  - destruct H as [HG HU HR HT HC HO HQ]. split_holds HG.
  - intros o [CG CM CC CS CO] O. split; [done |]. split; try done. intros m [[p X] | X]; [apply CC; left; by exists p | done].
  - intros _. split_and!.
    + split; try done; [| by intros [X | X]]. intros m p [= <- <-]. eauto.
    + split; try done. intros m [[p X] | X] _; [cbn in X; by rewrite R in X | done].
    + intros o C O. split; try done. intros m [[p [= <- <-]] | X] Y; [| done]. by apply (cp_claims _ _ C n); [right |].
Qed.

Lemma sound_shutting h hook s : global s -> holds s h -> closed h = true -> sound h (Shutting hook) tt s s.
Proof.
  intros G H C. split; [done | done | | done]. intros _. split_and!.
  - split; try done. intros _. apply (ho_closed _ _ H). by left.
  - split; try done. by intros m _ [[p X] | X].
  - intros o _ _. split; try done. by intros m [[p X] | X].
Qed.

Lemma sound_watcher h n s : global s -> holds s h -> sound h (Watcher n) tt s s.
Proof.
  intros G H. split; [done | done | | done]. intros _. split_and!; [apply holds_free | apply compat_free |].
  intros o _ _. apply compat_sym, compat_free.
Qed.

(** Every call. *)
Lemma call_sound {B} h (c : call B) b s s' :
  global s -> holds s h -> allowed h c -> react s c b = Some s' -> sound h c b s s'.
Proof.
  intros G H A R. destruct c.
  - injection R as <-. apply sound_same; [apply mild_refl | done ..].
  - assert (s' = s) as -> by (cbn in R; unfold possible in R; destruct b as [id |]; [destruct (is_ok _) |]; congruence).
    apply sound_same; [apply mild_refl | done ..].
  - by apply sound_closing.
  - injection R as <-. destruct b. by apply sound_setclosing.
  - destruct b; [by apply sound_trygate |]. injection R as <-. apply sound_same; [apply mild_refl | done ..].
  - injection R as <-. destruct b. by apply sound_ungate.
  - cbn in R. unfold possible in R. destruct (Nat.eqb _ _); [| done]. injection R as <-. apply sound_same; try done.
    apply mild_slots. intros id (k & f & K). exists k, f. by apply lookup_app_l_Some.
  - injection R as <-. destruct b. by apply sound_work.
  - by apply sound_deliver.
  - cbn in R. destruct (slots s !! k) as [[[] f] |] eqn:L; try done; destruct b as [r' |]; try done.
    + injection R as <-. apply sound_same; try done. apply mild_slots. intros id I. by eapply reported_insert.
    + destruct (decide _); [| done]. injection R as <-. apply sound_same; [apply mild_refl | done ..].
  - cbn in R. destruct (slots s !! k) as [[o f] |] eqn:L; [| done]. injection R as <-. apply sound_same; try done.
    apply mild_slots. intros id I. by eapply reported_insert.
  - cbn in R. destruct (slots s !! k) as [[o []] |]; try done. injection R as <-. apply sound_same; [apply mild_refl | done ..].
  - by apply sound_current.
  - injection R as <-. destruct b. by apply sound_setcurrent.
  - cbn in R. destruct (decide _); [| done]. injection R as <-. apply sound_same; [apply mild_refl | done ..].
  - injection R as <-. by apply sound_same.
  - cbn in R. unfold possible in R. destruct (eqb _ _); [| done]. injection R as <-. apply sound_same; [apply mild_refl | done ..].
  - injection R as <-. by apply sound_same.
  - destruct b as [n |]; [by apply sound_launch |]. injection R as <-. apply sound_same; [apply mild_refl | done ..].
  - injection R as <-. destruct b. by apply sound_reaper.
  - injection R as <-. destruct b. by apply sound_watcher.
  - by apply sound_done.
  - by apply sound_waitdone.
  - by apply sound_err.
  - destruct b. by apply sound_stop.
  - apply reads_inv in R as (-> & _). apply sound_same; [apply mild_refl | done ..].
  - destruct b. by apply sound_lock.
  - destruct b. by apply sound_unlock.
  - by apply sound_reaped.
  - injection R as <-. apply sound_same; [apply mild_refl | done ..].
  - by apply sound_reap.
  - destruct b. by apply sound_seterr.
  - destruct b. by apply sound_close.
  - injection R as <-. by apply sound_same.
  - cbn in R. destruct (shutdownOnce s), b; try done; injection R as <-; by apply sound_same.
  - injection R as <-. by apply sound_same.
  - injection R as <-. destruct b. by apply sound_shutting.
  - injection R as <-. destruct b. by apply sound_result.
  - assert (s' = s) as -> by (cbn in R; destruct b as [r |]; [destruct (shutdownErr s); [destruct (decide _) |] |]; congruence).
    apply sound_same; [apply mild_refl | done ..].
  - injection R as <-. apply sound_same; [apply mild_refl | done ..].
Qed.

Lemma call_expected {B} h (c : call B) b s s' : holds s h -> allowed h c -> react s c b = Some s' -> expected h c b.
Proof.
  intros H A R. destruct c; try done; cbn in *.
  - destruct b as [id |]; [| done]. unfold possible in R. destruct (is_ok (ParseID id)) eqn:E; [| done]. by apply ParseID_nonempty.
  - destruct (decide (b = current_child s)) as [-> |]; [| done]. destruct A as [GH F]. destruct (ho_gate _ _ H GH) as [_ K].
    destruct (cur h) as [x |] eqn:C; [| done]. by apply (hd_cur _ _ K).
Qed.

(** What a goroutine starts with is enough for what it does. *)
Lemma spawned_safe {B} h (c : call B) s p : allowed h c -> p ∈ spawned s c -> safe (inherits h c) p released.
Proof.
  intros A I. destruct c; cbn [spawned inherits] in *; try by apply not_elem_of_nil in I.
  - apply list_elem_of_singleton in I as ->. by apply worker_safe.
  - destruct (children s !! n); [| by apply not_elem_of_nil in I]. apply list_elem_of_singleton in I as ->. apply reap_safe.
  - apply list_elem_of_singleton in I as ->. apply watcher_safe.
  - apply list_elem_of_singleton in I as ->. apply shutting_safe.
Qed.

(** ** All goroutines *)

Record invariant (s : Processes) (pool : list (prog call Res)) (hs : list Hold) : Prop := {
  in_safe : Forall2 (fun p h => safe h p released) pool hs;
  in_holds : forall i h, hs !! i = Some h -> holds s h;
  in_compat : forall i j h o, i <> j -> hs !! i = Some h -> hs !! j = Some o -> compat h o;
  in_global : global s
}.

(** The knowledge of the goroutines after a call. *)
Definition next {B} (s : Processes) (hs : list Hold) (i : nat) (h : Hold) (c : call B) (b : B) : list Hold :=
  <[i := learn h c b]> hs ++ map (fun _ => inherits h c) (spawned s c).

Lemma next_lookup {B} s hs i h (c : call B) b j x : hs !! i = Some h -> next s hs i h c b !! j = Some x ->
  (j = i /\ x = learn h c b) \/ (j <> i /\ hs !! j = Some x) \/ (j = length hs /\ spawned s c <> [] /\ x = inherits h c).
Proof.
  intros L N. unfold next in N. apply lookup_app_Some in N as [N | [Q N]].
  - destruct (decide (j = i)) as [-> | D]; [| right; left; by rewrite list_lookup_insert_ne in N].
    left. rewrite list_lookup_insert_eq in N by by eapply lookup_lt_Some. by injection N as <-.
  - right. right. rewrite length_insert in Q, N.
    assert (Z : (length (spawned s c) <= 1)%nat) by (destruct c; cbn; try lia; destruct (children s !! n); cbn; lia).
    destruct (spawned s c) as [| p [|]]; cbn in *; [by rewrite lookup_nil in N | | lia].
    apply list_lookup_singleton_Some in N as [E <-]. split_and!; [lia | done | done].
Qed.

Lemma invariant_call s pool hs i B (c : call B) k b s' :
  invariant s pool hs -> pool !! i = Some (Vis c k) -> react s c b = Some s' ->
  exists h, hs !! i = Some h /\ allowed h c /\ invariant s' (<[i := k b]> pool ++ spawned s c) (next s hs i h c b).
Proof.
  intros [S H C G] L R. destruct (Forall2_lookup_l _ _ _ _ _ S L) as (h & LH & A & K). pose proof (H i h LH) as HH.
  pose proof (call_sound h c b s s' G HH A R) as [SS SO SP SG]. pose proof (call_expected h c b s s' HH A R) as E.
  exists h. split; [done |]. split; [done |]. split.
  - apply Forall2_app; [by apply Forall2_insert; [| apply K] |]. apply Forall2_fmap_r. apply Forall_Forall2_diag.
    apply Forall_forall. intros p I. by apply (spawned_safe h c s).
  - intros j x N. apply next_lookup in N as [[-> ->] | [[D N] | (_ & Z & ->)]]; [done | | by apply SP | done].
    apply SO; [by apply (C i j) | by apply (H j)].
  - assert (O : forall j x, j <> i -> hs !! j = Some x -> compat h x /\ holds s x) by (intros j x D X; split; [by apply (C i j) | by apply (H j)]).
    intros j1 j2 x1 x2 D N1 N2.
    apply next_lookup in N1 as [[-> ->] | [[D1 N1] | (-> & Z1 & ->)]]; [| | | done];
      apply next_lookup in N2 as [[-> ->] | [[D2 N2] | (-> & Z2 & ->)]]; try done.
    + destruct (O j2 x2 D2 N2). by apply SO.
    + by apply SP.
    + destruct (O j1 x1 D1 N1). by apply compat_sym, SO.
    + by apply (C j1 j2).
    + destruct (O j1 x1 D1 N1). by apply compat_sym, SP.
    + by apply compat_sym, SP.
    + destruct (O j2 x2 D2 N2). by apply SP.
  - done.
Qed.

Lemma invariant_request s pool hs r : invariant s pool hs -> invariant s (pool ++ [serve r]) (hs ++ [free]).
Proof.
  intros [S H C G]. split; [| | | done].
  - apply Forall2_app; [done |]. constructor; [apply serve_safe | done].
  - intros i h L. apply lookup_app_Some in L as [L | [_ L]]; [eauto |]. apply list_lookup_singleton_Some in L as [_ <-]. apply holds_free.
  - intros i j h o D L1 L2. apply lookup_app_Some in L1 as [L1 | [Q1 L1]], L2 as [L2 | [Q2 L2]].
    + by apply (C i j).
    + apply list_lookup_singleton_Some in L2 as [_ <-]. apply compat_free.
    + apply list_lookup_singleton_Some in L1 as [_ <-]. apply compat_sym, compat_free.
    + apply list_lookup_singleton_Some in L1 as [? _], L2 as [? _]. lia.
Qed.

Lemma reachable_invariant w : reachable w -> exists hs, invariant (fst w) (snd w) hs.
Proof.
  induction 1 as [| w w' _ [hs IH] S].
  - exists []. split; [constructor | done | done |]. by split.
  - destruct S as [s pool r | s pool i B c k b s' L R]; cbn [fst snd] in *; [eexists; by apply invariant_request |].
    destruct (invariant_call _ _ _ _ _ _ _ _ _ IH L R) as (h & _ & _ & I). eauto.
Qed.

(** The process that a goroutine is about to signal; whether it is about to launch one. *)
Definition kills (p : prog call Res) : option nat :=
  match p with Vis c _ => match c with Kill n _ => Some n | _ => None end | Ret _ => None end.

Definition launches (p : prog call Res) : bool :=
  match p with Vis c _ => match c with Launch _ => true | _ => false end | Ret _ => false end.

(** ** After a successful shutdown *)

Definition over (s : Processes) (hs : list Hold) : Prop := closing s = true /\ all_clean s /\ Forall (fun h => open h = false) hs.

Lemma clean_change n f s s' : (forall c, children s !! n = Some c -> clean c -> clean (f c)) -> change n f s = Some s' ->
  all_clean s -> closing s' = closing s /\ all_clean s' /\ length (children s') = length (children s).
Proof.
  intros F C A. apply change_inv in C as (c & L & ->). split_and!; [done | | apply length_insert]. intros m x X. cbn in X.
  apply list_lookup_insert_Some in X as [(<- & <- & _) | [_ X]]; [apply F; [done |] |]; by eapply A.
Qed.

Lemma over_call {B} s h (c : call B) b s' :
  holds s h -> allowed h c -> react s c b = Some s' -> closing s = true -> all_clean s -> open h = false ->
  (closing s' = true /\ all_clean s' /\ length (children s') = length (children s)) /\ open (learn h c b) = false /\ open (inherits h c) = false.
Proof.
  intros H A R C K O. split.
  - destruct c; cbn in R; unfold possible, reads in R; repeat case_match; simplify_eq; try done.
    all: try (apply clean_change in R; [by rewrite C in R | by intros ? _ [? ?] | done]).
    + destruct A as (_ & X & _). congruence.
    + destruct A as (p & X & N). apply clean_change in R; [by rewrite C in R | | done]. intros x L [D _].
      destruct (ho_reaper _ _ H n p X) as (y & L' & Y). rewrite L in L'. injection L' as <-. destruct p; [| | done]; destruct Y; congruence.
  - destruct c; cbn; try done; unfold saw_done; repeat case_match; try done. cbn in R. unfold possible in R. rewrite C in R.
    destruct b; [by rewrite andb_false_r in * | done].
Qed.

Lemma over_step s pool hs s' pool' : invariant s pool hs -> over s hs -> step (s, pool) (s', pool') ->
  exists hs', invariant s' pool' hs' /\ over s' hs' /\ length (children s') = length (children s).
Proof.
  intros I (C & K & O) S. inversion S as [? ? r | ? ? i B c k b ? L R]; subst.
  - exists (hs ++ [free]). split_and!; [by apply invariant_request | | done]. split_and!; [done | done |]. apply Forall_app. by repeat constructor.
  - destruct (invariant_call _ _ _ _ _ _ _ _ _ I L R) as (h & LH & A & I').
    assert (OH : open h = false) by (by apply (proj1 (Forall_lookup _ _) O i)).
    destruct (over_call s h c b s' (in_holds _ _ _ I i h LH) A R C K OH) as ((C' & K' & N) & O1 & O2).
    exists (next s hs i h c b). split_and!; [done | | done]. split_and!; [done | done |]. apply Forall_app. split.
    + by apply Forall_insert.
    + apply Forall_fmap, Forall_forall. done.
Qed.

Lemma over_steps w w' : rtc step w w' -> forall hs, invariant (fst w) (snd w) hs -> over (fst w) hs ->
  exists hs', invariant (fst w') (snd w') hs' /\ over (fst w') hs' /\ length (children (fst w')) = length (children (fst w)).
Proof.
  induction 1 as [w | w1 w2 w3 S _ IH]; intros hs I O; [by exists hs |]. destruct w1 as [s1 p1], w2 as [s2 p2]. cbn [fst snd] in *.
  destruct (over_step _ _ _ _ _ I O S) as (hs2 & I2 & O2 & N2). destruct (IH hs2 I2 O2) as (hs3 & I3 & O3 & N3).
  exists hs3. split_and!; [done | done | congruence].
Qed.

(** C7: One process at a time.  However operations, callbacks, reapers and a shutdown
    interleave: of all processes that were launched at most one is not cleaned up or has
    failed its cleanup; a goroutine is about to launch one only when all are cleaned up
    without an error, so after a failed cleanup none is launched again; a goroutine is
    about to signal a process group only while its leader has not been reaped, so a group
    whose number may be in use again is never signalled; and a process is reported as done
    only when it was reaped. *)
Theorem one_process_at_a_time s pool (H : reachable (s, pool)) :
  (forall n m c d, children s !! n = Some c -> children s !! m = Some d -> ~ clean c -> ~ clean d -> n = m)
  /\ (forall p, p ∈ pool -> launches p = true -> all_clean s)
  /\ (forall p n, p ∈ pool -> kills p = Some n -> exists c, children s !! n = Some c /\ k_reaped c = false)
  /\ (forall n c, children s !! n = Some c -> k_done c = true -> k_reaped c = true).
Proof.
  destruct (reachable_invariant _ H) as [hs [S HO _ [_ _ GR _ G1]]]. cbn [fst snd] in *.
  assert (P : forall p, p ∈ pool -> exists h, holds s h /\ safe h p released).
  { intros p I. apply list_elem_of_lookup in I as [i I]. destruct (Forall2_lookup_l _ _ _ _ _ S I) as (h & LH & A). eauto. }
  split_and!; [done | | | done].
  - intros p I L. destruct (P p I) as (h & HH & A). destruct p as [| B c k]; [done |]. destruct c; try done.
    destruct A as [(GH & _ & C & _) _]. destruct (ho_gate _ _ HH GH) as [_ K]. by apply (hd_clear _ _ K).
  - intros p n I L. destruct (P p I) as (h & HH & A). destruct p as [| B c k]; [done |]. destruct c; try done. injection L as ->.
    destruct A as [[M [V | R]] _].
    + destruct (ho_mu _ _ HH n M) as (c & L & _ & X). exists c. auto.
    + destruct (ho_reaper _ _ HH n Before R) as (c & L & X & _). eauto.
Qed.

(** C8: No process runs unnoticed.  Whenever no operation is in progress, the current
    process is cleaned up, has been asked to stop, or its identity was handed to the caller
    of a successful operation: a launch whose caller had gone, whose deadline had passed or
    whose handshake failed does not leave a process behind. *)
Theorem no_process_unnoticed s pool (H : reachable (s, pool)) (F : gate s = false) n c
  (C : current s = Some n) (L : children s !! n = Some c) (D : k_done c = false) (S : k_stop c = false) :
  reported s (k_id c).
Proof.
  destruct (reachable_invariant _ H) as [hs [_ _ _ G]]. destruct (gl_free _ G F) as [_ A]. by eapply A.
Qed.

(** C9: A shutdown that reports success is final: every process that was ever launched is
    cleaned up without an error, and whatever is requested afterwards no process is launched
    again. *)
Theorem shutdown_is_final w w' (H : reachable w) (R : shutdownErr (fst w) = Some None) (S : rtc step w w') :
  closing (fst w') = true /\ all_clean (fst w') /\ length (children (fst w')) = length (children (fst w)).
Proof.
  destruct (reachable_invariant _ H) as [hs I]. destruct (gl_result _ (in_global _ _ _ I) R) as [C K].
  destruct (over_steps w w' S hs I) as (hs' & I' & (C' & K' & _) & N); [| done].
  split_and!; [done | done |]. apply Forall_lookup. intros i h L. destruct (open h) eqn:O; [| done].
  by destruct (ho_open _ _ (in_holds _ _ _ I i h L) O) as (_ & _ & X).
Qed.

(** ** Schedules *)

(** An answer that the state allows, where there is one. *)
Definition oracle {B} (ask : Question -> bool) (id : ID) (s : Processes) (c : call B) : B :=
  let child := fun n (f : Child -> bool) => match children s !! n with Some c => f c | None => false end in
  match c in call B return B with
  | Ask q => ask q
  | NewID => Some id
  | Closing => closing s
  | TryGate => negb (gate s)
  | OpenSlot => length (slots s)
  | Deliver k _ => match slots s !! k with Some (mkSlot Unread _) => true | _ => false end
  | Await k => match slots s !! k with Some (mkSlot (Read r) _) => Some r | _ => None end
  | Current => current_child s
  | Active => active s
  | RestoreUsed => restoreUsed s
  | Launch _ => Some (length (children s))
  | Done n => child n k_done
  | WaitDone n => child n k_done
  | Err_ n => child n k_err
  | StopRequested n => child n k_stop
  | Reaped n => child n k_reaped
  | Kill _ _ => true
  | Reap _ => Some (0, 15)
  | OnceEnter => match shutdownOnce s with OnceNew => true | _ => false end
  | AwaitShutdown => shutdownErr s
  | Orphan => ECHILD
  | SetClosing | UnlockGate | Work _ _ | Finish _ | WaitFinished _ | SetCurrent _ | SetActive _ | SetRestoreUsed | Reaper _ | Watcher _
  | StopRequest _ | LockMu _ | UnlockMu _ | SetErr _ | CloseDone _ | Publish _ | OnceLeave | Shutting _ | ShutdownResult _ => tt
  end.

Inductive Move : Type := Come (r : Request) | Run (i : nat).

Definition move (ask : Question -> bool) (id : ID) (w : World) (m : Move) : World :=
  match m with
  | Come r => (fst w, snd w ++ [serve r])
  | Run i =>
      match snd w !! i with
      | Some (Vis c k) =>
          let b := oracle ask id (fst w) c in
          match react (fst w) c b with Some s' => (s', <[i := k b]> (snd w) ++ spawned (fst w) c) | None => w end
      | _ => w
      end
  end.

Lemma move_steps ask id w m : rtc step w (move ask id w m).
Proof.
  destruct w as [s pool], m as [r | i]; cbn [move fst snd]; [apply rtc_once, s_request |].
  destruct (pool !! i) as [[| B c k] |] eqn:L; try done. destruct (react s c _) eqn:R; [| done]. apply rtc_once. by eapply s_call.
Qed.

Definition schedule (ask : Question -> bool) (id : ID) (l : list Move) (w : World) : World := fold_left (move ask id) l w.

Lemma schedule_steps ask id l : forall w, rtc step w (schedule ask id l w).
Proof.
  induction l as [| m l IH]; intros w; [done |]. etrans; [apply (move_steps ask id w m) | apply IH].
Qed.

Lemma reachable_steps w w' : reachable w -> rtc step w w' -> reachable w'.
Proof. intros H. induction 1 as [w | w1 w2 w3 S _ IH]; [done |]. apply IH. by eapply r_step. Qed.

End Safety.

(** ** Witnesses

    A start that is reported, then a shutdown whose signal ends the process. *)

Definition ex_ask (q : Question) : bool :=
  match q with QCtxDone | QPidOne | QCapture | QCaptureFailed | QCaptureErr | QAttemptExpired => false | _ => true end.

#[local] Instance ex_settings : Settings := mkSettings false false false false 3 3.

Definition ex_world (l : list Move) (w : World) : World := schedule ex_ask id1 l w.

(** The caller is goroutine 0, the worker 1 and the reaper 2. *)
Definition ex_started : World :=
  ex_world (Come RStart :: repeat (Run 0) 6 ++ repeat (Run 1) 18 ++ repeat (Run 0) 2) (initial, []).

(** The caller of the shutdown is goroutine 3 and the shutdown 4. *)
Definition ex_over : World :=
  ex_world (Come (RShutdown false) :: repeat (Run 3) 4 ++ repeat (Run 4) 10 ++ repeat (Run 2) 12 ++ repeat (Run 4) 12 ++ [Run 3]) ex_started.

Definition ex_refused : World := ex_world (Come RStart :: repeat (Run 5) 3) ex_over.

Lemma ex_started_reachable : reachable ex_started.
Proof. exact (reachable_steps _ _ r_initial (schedule_steps _ _ _ _)). Qed.

Lemma ex_over_reachable : reachable ex_over.
Proof. exact (reachable_steps _ _ ex_started_reachable (schedule_steps _ _ _ _)). Qed.

Definition ex_child : Child := mkChild id1 false false false false false.

Lemma one_process_at_a_time_witness :
  reachable (fst ex_started, snd ex_started) /\ children (fst ex_started) = [ex_child]
  /\ forall p, p ∈ snd ex_started -> launches p = true -> all_clean (fst ex_started).
Proof.
  pose proof ex_started_reachable as H. rewrite (surjective_pairing ex_started) in H. split; [exact H |].
  split; [vm_compute; reflexivity |]. exact (proj1 (proj2 (one_process_at_a_time _ _ H))).
Defined.

Lemma no_process_unnoticed_witness : k_done ex_child = false /\ reported (fst ex_started) id1.
Proof.
  pose proof ex_started_reachable as H. rewrite (surjective_pairing ex_started) in H. split; [reflexivity |].
  refine (no_process_unnoticed _ _ H _ 0%nat ex_child _ _ _ _); vm_compute; reflexivity.
Defined.

(** A start after the shutdown is refused. *)
Lemma shutdown_is_final_witness :
  snd ex_refused !! 5%nat = Some (Ret ("", Some ErrProcessClosed)) /\ all_clean (fst ex_refused).
Proof.
  split; [vm_compute; reflexivity |].
  refine (proj1 (proj2 (shutdown_is_final ex_over ex_refused ex_over_reachable _ (schedule_steps _ _ _ _)))). vm_compute. reflexivity.
Defined.
