(* ===== verification/HttpRequests.v ===== *)
(** * internal/adapters/http: requests and responses

    The middleware of server.go ([requestContext], [requestLimits]), the problem documents of
    problem.go and the handlers of sessions.go, executions.go and execution_signals.go as
    programs over the authentication, the services and the generator of request identifiers.
    The multiplexer chooses the handler; tracing and the recovery of panics are left out.

    Proved, whatever the services answer: a service is called at most once, only for an
    authenticated caller and with exactly what the request says, and a request that is not
    well formed never reaches one; the response is a success exactly when the service
    succeeded; an error has the status of its table and a problem document; every response
    carries the request's identifier and is never stored by caches. *)

From Stdlib Require Import ZArith Bool Lia.
From stdpp Require Import base strings list gmap.
From S2P Require Import Prelude Regex GoStd JsonDecoder JsonEncode JsonUnmarshal JsonStrict JsonRoundTrip Primitives Interaction.
From S2P Require Import Execution EventStream SessionCreate ExecutionBinding ExecutionCreate ExecutionSignal.

(** ** net/http *)

(** A body that is read: its bytes, and whether reading fails after them. *)
Record Body : Type := mkBody { bytes : string; broken : bool }.

(** [Header] has canonical names, each once. *)
Record Request : Type := mkRequest {
  RequestURI : string;
  Path : string;
  RawQuery : string;
  PathValue : string;
  Header : list (string * list string);
  ContentLength : Z;
  RBody : Body
}.

Record Response : Type := mkResponse {
  StatusCode : Z;
  Headers : list (string * string);
  Content : string
}.

(** [Header.Values] and [Header.Get] *)
Definition Values (r : Request) (name : string) : list string :=
  match List.find (fun h => fst h == name) (Header r) with Some h => snd h | None => [] end.

Definition GetHeader (r : Request) (name : string) : string := default "" (head (Values r name)).

(** [io.ReadAll(io.LimitReader(body, n))] *)
Definition ReadAll (b : Body) (n : Z) : string * bool :=
  if n <=? len (bytes b) then (String.substring 0 (Z.to_nat n) (bytes b), true) else (bytes b, negb (broken b)).

(** [Header.Set] of a response. *)
Definition set_header (name value : string) (hs : list (string * string)) : list (string * string) :=
  List.filter (fun h => negb (fst h == name)) hs ++ [(name, value)].

Definition header (resp : Response) (name : string) : option string :=
  option_map snd (List.find (fun h => fst h == name) (Headers resp)).

(** ** problem.go *)

Definition problemBase : string := "https://thinkpixel.dev/problems/".

Definition newline : string := String (byte_of 10) "".

Definition problem_json (status : Z) (code title instance request_id : string) : jvalue :=
  JStruct ([("type", JString (problemBase +:+ code)); ("title", JString title); ("status", JUint status)]
           ++ omitempty "instance" instance ++ [("code", JString code); ("request_id", JString request_id)]).

(** A response writer, as far as it was filled, for a request with this identifier. *)
Record Writer : Type := mkWriter { w_headers : list (string * string); w_path : string; w_id : string }.

Definition writeProblem (w : Writer) (status : Z) (code title : string) : Response :=
  mkResponse status (set_header "Content-Type" "application/problem+json" (w_headers w))
    (marshal (problem_json status code title (w_path w) (w_id w)) +:+ newline).

Definition writeJSON (w : Writer) (status : Z) (body : string) : Response :=
  mkResponse status (set_header "Content-Type" "application/json; charset=utf-8" (w_headers w)) (body +:+ newline).

Definition with_header (name value : string) (w : Writer) : Writer := mkWriter (set_header name value (w_headers w)) (w_path w) (w_id w).

(** ** Ports *)

Inductive hcall : Type -> Type :=
| NewRequestID : hcall (option ID)
| Authenticate (r : Request) : hcall (option Caller)
| CreateSession (c : Caller) (key : string) (q : SessionCreate.CreateRequest) : hcall (result CreateError SessionCreate.Result)
| CreateExecution (c : Caller) (sid : ID) (version : Z) (key : string) (q : ExecutionCreate.CreateRequest)
    : hcall (result ExecError ExecutionCreate.Result)
| GetExecution (c : Caller) (id : ID) : hcall (result ExecError Status)
| SignalExecution (c : Caller) (id : ID) (key : string) (q : SignalRequest) : hcall (result ExecError SignalResult).

Inductive Route : Type := PostSession | PostExecution | GetExecutionRoute | PostSignal.

Definition maxURIBytes : Z := 8192.
Definition maxHeaderBytes : Z := 32768.
Definition maxHeaderFields : Z := 100.
Definition maxHeaderValue : Z := 8192.
Definition maxRequestBody : Z := 262144.

(** [^[A-Za-z0-9][A-Za-z0-9._:-]{0,127}$] *)
Definition validRequestID : re :=
  RCat (RCls (cls_lower ++ [(65, 90)] ++ cls_digit)) (rep_upto 127 (RCls (cls_lower ++ [(65, 90)] ++ cls_digit ++ [(45, 46); (58, 58); (95, 95)]))).

Section Handlers.

(** [mime.ParseMediaType]: the media type and the [charset] parameter; and
    [canonical.Transform], a third-party package. *)
Variable ParseMediaType : string -> option (string * string).
Variable Transform : string -> option string.
(** Whether the authentication and the service of a route were supplied. *)
Variable authenticates : bool.
Variable supplied : Route -> bool.

(** ** server.go *)

Definition sum (l : list Z) : Z := fold_right Z.add 0 l.

Definition header_fields (r : Request) : Z := sum (map (fun h => Z.of_nat (length (snd h))) (Header r)).
Definition header_bytes (r : Request) : Z := sum (map (fun h => len (fst h) + sum (map len (snd h))) (Header r)).
Definition long_value (r : Request) : bool := existsb (fun h => existsb (fun v => maxHeaderValue <? len v) (snd h)) (Header r).

Definition with_body (r : Request) (b : Body) : Request :=
  mkRequest (RequestURI r) (Path r) (RawQuery r) (PathValue r) (Header r) (ContentLength r) b.

Definition requestLimits (w : Writer) (r : Request) (next : Writer -> Request -> prog hcall Response) : prog hcall Response :=
  if maxURIBytes <? len (RequestURI r) then Ret (writeProblem w 414 "uri-too-long" "URI Too Long")
  else if long_value r || (maxHeaderFields <? header_fields r) || (maxHeaderBytes <? header_bytes r)
  then Ret (writeProblem w 431 "headers-too-large" "Request Header Fields Too Large")
  else if GetHeader r "Content-Encoding" != "" then Ret (writeProblem w 415 "unsupported-media-type" "Unsupported Media Type")
  else if maxRequestBody <? ContentLength r then Ret (writeProblem w 413 "body-too-large" "Content Too Large")
  else
    let (body, ok) := ReadAll (RBody r) (maxRequestBody + 1) in
    if negb ok then Ret (writeProblem w 400 "invalid-request" "Invalid Request")
    else if maxRequestBody <? len body then Ret (writeProblem w 413 "body-too-large" "Content Too Large")
    else next w (with_body r (mkBody body false)).

Definition requestContext (r : Request) (next : Writer -> Request -> prog hcall Response) : prog hcall Response :=
  do! id <- (if match_string validRequestID (GetHeader r "X-Request-Id") then Ret (Some (GetHeader r "X-Request-Id")) else trigger NewRequestID);
  match id with
  | None => Ret (writeProblem (mkWriter [] (Path r) "") 500 "internal-error" "Internal Server Error")
  | Some id =>
      next (with_header "X-Content-Type-Options" "nosniff"
              (with_header "Cache-Control" "no-store" (with_header "X-Request-Id" id (mkWriter [] (Path r) id)))) r
  end.

(** ** What the handlers share *)

Definition authenticated (w : Writer) (r : Request) (route : Route) (k : Caller -> prog hcall Response) : prog hcall Response :=
  if negb authenticates then Ret (writeProblem w 401 "unauthorized" "Unauthorized")
  else
    do! caller <- trigger (Authenticate r);
    match caller with
    | None => Ret (writeProblem w 401 "unauthorized" "Unauthorized")
    | Some caller =>
        if negb (supplied route) then Ret (writeProblem w 503 "temporarily-unavailable" "Service Unavailable") else k caller
    end.

Definition json_media (r : Request) : bool :=
  match ParseMediaType (GetHeader r "Content-Type") with
  | Some (media, charset) => (media == "application/json") && ((charset == "") || (charset == "utf-8"))
  | None => false
  end.

Definition unsupported_media (w : Writer) : prog hcall Response := Ret (writeProblem w 415 "unsupported-media-type" "Unsupported Media Type").
Definition invalid (w : Writer) : prog hcall Response := Ret (writeProblem w 400 "invalid-request" "Invalid Request").

(** Header fields that occur exactly once. *)
Definition once (r : Request) (name : string) : bool := Z.of_nat (length (Values r name)) =? 1.

Definition jsonString (raw : option string) : bool :=
  match raw with
  | Some s => (2 <=? len s) && match to_bytes s with b :: _ => b =? 34 | [] => false end
  | None => false
  end.

(** ** sessions.go *)

Definition set_Kind (x : string) (s : Source) : Source := mkSource x (SReference s) (SDigest s).
Definition set_Reference (x : string) (s : Source) : Source := mkSource (Kind s) x (SDigest s).
Definition set_Digest (x : string) (s : Source) : Source := mkSource (Kind s) (SReference s) x.

Definition source_fields : list (field Source) :=
  [ ("kind", into_string set_Kind); ("reference", into_string set_Reference); ("digest", into_string set_Digest) ].

Definition into_source (t : jtree) (q : SessionCreate.CreateRequest) : option SessionCreate.CreateRequest :=
  option_map (fun s => SessionCreate.mkCreateRequest (RuntimeID q) (ProfileID q) s) (struct_known source_fields t (RSource q)).

Definition set_RuntimeID (x : string) (q : SessionCreate.CreateRequest) := SessionCreate.mkCreateRequest x (ProfileID q) (RSource q).
Definition set_ProfileID (x : string) (q : SessionCreate.CreateRequest) := SessionCreate.mkCreateRequest (RuntimeID q) x (RSource q).

Definition session_fields : list (field SessionCreate.CreateRequest) :=
  [ ("agent_runtime_spec_id", into_string set_RuntimeID); ("runtime_profile_id", into_string set_ProfileID); ("source", into_source) ].

Definition zeroSession : SessionCreate.CreateRequest := SessionCreate.mkCreateRequest "" "" (mkSource "" "" "").

(** The request that a body describes. *)
Definition decodeSession (raw : string) : option SessionCreate.CreateRequest :=
  if (maxRequestBody <? len raw) || negb (ValidString raw) then None
  else match Transform raw with
  | None => None
  | Some normalized =>
      match unmarshalRawMap normalized with
      | None => None
      | Some m =>
          let fields := default ∅ m in
          if negb (Z.of_nat (size fields) =? 3) || negb (jsonString (fields !! "agent_runtime_spec_id"))
             || negb (jsonString (fields !! "runtime_profile_id")) then None
          else match fields !! "source" with
          | None => None
          | Some text =>
              match unmarshalRawMap text with
              | None => None
              | Some s =>
                  let source := default ∅ s in
                  if negb (jsonString (source !! "kind"))
                     || existsb (fun kv => negb (existsb (fun k => fst kv == k) ["kind"; "reference"; "digest"]) || negb (jsonString (Some (snd kv))))
                          (map_to_list source) then None
                  else DecodeStrict session_fields normalized zeroSession
              end
          end
      end
  end.

Definition session_problem (w : Writer) (e : CreateError) : Response :=
  match e with
  | SessionCreate.ErrInvalid => writeProblem w 400 "invalid-request" "Invalid Request"
  | ErrForbidden => writeProblem w 403 "forbidden" "Forbidden"
  | SessionCreate.ErrUnsupported => writeProblem w 422 "unsupported-session-configuration" "Unsupported Session Configuration"
  | SessionCreate.ErrConflict => writeProblem w 409 "idempotency-key-conflict" "Idempotency Key Conflict"
  | SessionCreate.ErrUnavailable => writeProblem w 503 "temporarily-unavailable" "Service Unavailable"
  end.

Definition replayed (b : bool) (w : Writer) : Writer := if b then with_header "Idempotency-Replayed" "true" w else w.

Definition createSession (w : Writer) (r : Request) : prog hcall Response :=
  authenticated w r PostSession (fun caller =>
    if negb (json_media r) then unsupported_media w
    else if negb (once r "Idempotency-Key") || negb (once r "Content-Type") || (RawQuery r != "") then invalid w
    else
      let (raw, ok) := ReadAll (RBody r) (maxRequestBody + 1) in
      if negb ok then invalid w
      else match decodeSession raw with
      | None => invalid w
      | Some q =>
          do! x <- trigger (CreateSession caller (GetHeader r "Idempotency-Key") q);
          match x with
          | Err e => Ret (session_problem w e)
          | Ok res =>
              Ret (writeJSON (replayed (SessionCreate.Replayed res) (with_header "Location" ("/v1/sessions/" +:+ SessionCreate.V_ID (SessionCreate.R_View res)) w))
                     201 (marshal (SessionCreate.view_json (SessionCreate.R_View res))))
          end
      end).

(** ** executions.go *)

(** [strconv.ParseUint(s, 10, 63)] *)
Definition ParseUint63 (s : string) : option Z :=
  if s == "" then None
  else match parse_digits (to_bytes s) 0 with Some n => if n <=? max_int64 then Some n else None | None => None end.

(** The version in an [If-Match] tag. *)
Definition parseTag (tag : string) : option Z :=
  if (len tag <? 3) || negb (match to_bytes tag with q :: d :: _ => (q =? 34) && (49 <=? d) && (d <=? 57) | _ => false end)
     || negb (match last (to_bytes tag) with Some q => q =? 34 | None => false end) then None
  else
    let digits := String.substring 1 (String.length tag - 2) tag in
    if negb (forallb (fun c => (48 <=? c) && (c <=? 57)) (to_bytes digits)) then None else ParseUint63 digits.

Definition set_Input (x : string) (q : ExecutionCreate.CreateRequest) := ExecutionCreate.mkCreateRequest x (RunReference q).
Definition set_RunReference (x : string) (q : ExecutionCreate.CreateRequest) := ExecutionCreate.mkCreateRequest (Input q) x.

Definition execution_fields : list (field ExecutionCreate.CreateRequest) :=
  [ ("input", into_string set_Input); ("run_reference", into_string set_RunReference) ].

Definition decodeExecution (raw : string) : option ExecutionCreate.CreateRequest :=
  if negb (ValidString raw) then None
  else match Transform raw with
  | None => None
  | Some normalized =>
      match unmarshalRawMap normalized with
      | None => None
      | Some m =>
          let fields := default ∅ m in
          if negb (jsonString (fields !! "input"))
             || existsb (fun kv => negb (existsb (fun k => fst kv == k) ["input"; "run_reference"]) || negb (jsonString (Some (snd kv)))) (map_to_list fields)
          then None
          else match Unmarshal execution_fields normalized (ExecutionCreate.mkCreateRequest "" "") with
          | None => None
          | Some q => if 256 <? len (RunReference q) then None else Some q
          end
      end
  end.

Definition unavailable (w : Writer) : Response := writeProblem w 503 "temporarily-unavailable" "Service Unavailable".

Definition execution_problem (unsupported title : string) (w : Writer) (e : ExecError) : Response :=
  match e with
  | ErrInvalid => writeProblem w 400 "invalid-request" "Invalid Request"
  | ErrNotFound => writeProblem w 404 "not-found" "Not Found"
  | ErrDenied => writeProblem w 403 "forbidden" "Forbidden"
  | ErrConflict => writeProblem w 409 "execution-conflict" "Execution Conflict"
  | ErrUnsupported => writeProblem w 422 unsupported title
  | _ => unavailable w
  end.

Definition createExecution (w : Writer) (r : Request) : prog hcall Response :=
  authenticated w r PostExecution (fun caller =>
    if negb (json_media r) then unsupported_media w
    else if negb (once r "Content-Type") || negb (once r "Idempotency-Key") || negb (once r "If-Match") || (RawQuery r != "") then invalid w
    else match parseTag (GetHeader r "If-Match") with
    | None => invalid w
    | Some version =>
        match ParseID (PathValue r) with
        | Err _ => invalid w
        | Ok sid =>
            let (raw, ok) := ReadAll (RBody r) (maxRequestBody + 1) in
            if maxRequestBody <? len raw then Ret (writeProblem w 413 "payload-too-large" "Payload Too Large")
            else if negb ok then invalid w
            else match decodeExecution raw with
            | None => invalid w
            | Some q =>
                do! x <- trigger (CreateExecution caller sid version (GetHeader r "Idempotency-Key") q);
                match x with
                | Err e => Ret (execution_problem "unsupported-authority" "Unsupported Authority" w e)
                | Ok res =>
                    Ret (writeJSON (replayed (ExecutionCreate.Replayed res)
                                      (with_header "Location" ("/v1/executions/" +:+ ExecutionCreate.V_ID (ExecutionCreate.R_View res)) w))
                           201 (marshal (ExecutionCreate.view_json (ExecutionCreate.R_View res))))
                end
            end
        end
    end).

(** The embedded view of a [Status], with its run reference. *)
Definition status_json (s : Status) : jvalue :=
  JStruct ([("id", JString (T_ID s)); ("session_id", JString (T_SessionID s)); ("state", JString (enum_string (T_State s)));
            ("state_version", JUint (T_StateVersion s)); ("generation", JUint (T_Generation s));
            ("authority_mode", JString (T_AuthorityMode s)); ("authority_issuer", JString (T_AuthorityIssuer s));
            ("created_at", JTime (T_CreatedAt s))] ++ omitempty "run_reference" (T_RunReference s)).

Definition read_problem (w : Writer) (e : ExecError) : Response :=
  match e with
  | ErrInvalid => writeProblem w 400 "invalid-request" "Invalid Request"
  | ErrDenied => writeProblem w 403 "forbidden" "Forbidden"
  | ErrNotFound => writeProblem w 404 "not-found" "Not Found"
  | _ => unavailable w
  end.

Definition getExecution (w : Writer) (r : Request) : prog hcall Response :=
  let w := with_header "Cache-Control" "no-store" w in
  authenticated w r GetExecutionRoute (fun caller =>
    match ParseID (PathValue r) with
    | Err _ => invalid w
    | Ok id =>
        if RawQuery r != "" then invalid w
        else
          do! x <- trigger (GetExecution caller id);
          match x with
          | Err e => Ret (read_problem w e)
          | Ok s => Ret (writeJSON w 200 (marshal (status_json s)))
          end
    end).

(** ** execution_signals.go *)

Definition signalExecution (w : Writer) (r : Request) : prog hcall Response :=
  let w := with_header "Cache-Control" "no-store" w in
  authenticated w r PostSignal (fun caller =>
    if negb (json_media r) then unsupported_media w
    else match ParseID (PathValue r) with
    | Err _ => invalid w
    | Ok id =>
        if negb (once r "Content-Type") || negb (once r "Idempotency-Key") || (RawQuery r != "") then invalid w
        else
          let (raw, ok) := ReadAll (RBody r) (MaxSignalBytes + 1) in
          if MaxSignalBytes <? len raw then Ret (writeProblem w 413 "payload-too-large" "Payload Too Large")
          else if negb ok then invalid w
          else match ParseSignal Transform raw with
          | Err _ => invalid w
          | Ok q =>
              do! x <- trigger (SignalExecution caller id (GetHeader r "Idempotency-Key") q);
              match x with
              | Err e => Ret (execution_problem "unsupported-signal" "Unsupported Signal" w e)
              | Ok res =>
                  Ret (writeJSON (with_header "Location" (O_ResourceLocation (S_Operation res)) (replayed (S_Replayed res) w))
                         202 (marshal (ExecutionSignal.operation_json (S_Operation res))))
              end
          end
    end).

Definition handler (route : Route) : Writer -> Request -> prog hcall Response :=
  match route with
  | PostSession => createSession
  | PostExecution => createExecution
  | GetExecutionRoute => getExecution
  | PostSignal => signalExecution
  end.

Definition ServeHTTP (route : Route) (r : Request) : prog hcall Response :=
  requestContext r (fun w r => requestLimits w r (handler route)).

(** ** What a run shows *)

(** Whether a call of a service succeeded. *)
Definition outcome (e : event hcall) : option bool :=
  match projT2 e with
  | (c, a) =>
      match c in hcall B return B -> option bool with
      | CreateSession _ _ _ => fun a => Some (is_ok a)
      | CreateExecution _ _ _ _ _ => fun a => Some (is_ok a)
      | GetExecution _ _ => fun a => Some (is_ok a)
      | SignalExecution _ _ _ _ => fun a => Some (is_ok a)
      | _ => fun _ => None
      end a
  end.

(** The call is the one that the request asks for. *)
Definition asked (route : Route) (r : Request) (caller : Caller) (e : event hcall) : Prop :=
  RawQuery r = "" /\
  match fst (projT2 e) with
  | CreateSession c key q => route = PostSession /\ c = caller /\ json_media r = true /\ Values r "Idempotency-Key" = [key]
      /\ decodeSession (bytes (RBody r)) = Some q
  | CreateExecution c sid version key q => route = PostExecution /\ c = caller /\ json_media r = true /\ Values r "Idempotency-Key" = [key]
      /\ (exists tag, Values r "If-Match" = [tag] /\ parseTag tag = Some version) /\ ParseID (PathValue r) = Ok sid
      /\ decodeExecution (bytes (RBody r)) = Some q
  | GetExecution c id => route = GetExecutionRoute /\ c = caller /\ ParseID (PathValue r) = Ok id
  | SignalExecution c id key q => route = PostSignal /\ c = caller /\ json_media r = true /\ Values r "Idempotency-Key" = [key]
      /\ ParseID (PathValue r) = Ok id /\ ParseSignal Transform (bytes (RBody r)) = Ok q
  | _ => False
  end.

(** What every response carries. *)
Definition marked (id : string) (resp : Response) : Prop :=
  header resp "X-Request-Id" = Some id /\ header resp "Cache-Control" = Some "no-store".

Definition is_problem (resp : Response) : Prop :=
  400 <= StatusCode resp /\ header resp "Content-Type" = Some "application/problem+json".

Definition is_success (resp : Response) : Prop :=
  200 <= StatusCode resp < 300 /\ header resp "Content-Type" = Some "application/json; charset=utf-8".

(** The request was refused before a service was called, or the service decided. *)
Definition decided (route : Route) (r : Request) (tr : list (event hcall)) (resp : Response) : Prop :=
  (omap outcome tr = [] /\ is_problem resp)
  \/ exists caller e ok, tr = [occurred (Authenticate r) (Some caller); e] /\ asked route r caller e /\ outcome e = Some ok
       /\ (if ok : bool then is_success resp else is_problem resp).

Lemma find_filter (name other : string) (hs : list (string * string)) : other <> name ->
  List.find (fun h => fst h == other) (List.filter (fun h => negb (fst h == name)) hs) = List.find (fun h => fst h == other) hs.
Proof.
  intros N. induction hs as [| h hs IH]; [done |]. cbn. case_bool_decide as E; cbn.
  - rewrite E, (bool_decide_eq_false_2 (name = other)) by congruence. exact IH.
  - by rewrite IH.
Qed.

Lemma find_app {A} (p : A -> bool) (l l' : list A) : List.find p (l ++ l') = match List.find p l with Some x => Some x | None => List.find p l' end.
Proof. induction l as [| a l IH]; [done |]. cbn. by destruct (p a). Qed.

Lemma header_set name value hs other :
  List.find (fun h => fst h == other) (set_header name value hs)
  = if other == name then Some (name, value) else List.find (fun h => fst h == other) hs.
Proof.
  unfold set_header. rewrite find_app. cbn. case_bool_decide as E.
  - subst other. assert (X : List.find (fun h => fst h == name) (List.filter (fun h => negb (fst h == name)) hs) = None).
    { induction hs as [| h hs IH]; [done |]. cbn. case_bool_decide as Y; cbn; [done |]. by rewrite (bool_decide_eq_false_2 (h.1 = name)). }
    rewrite X. by rewrite bool_decide_eq_true_2.
  - rewrite find_filter, (bool_decide_eq_false_2 (other = name)) by congruence. by destruct (List.find _ hs).
Qed.

(** A writer with these marks. *)
Definition marking (id : string) (w : Writer) : Prop :=
  option_map snd (List.find (fun h => fst h == "X-Request-Id") (w_headers w)) = Some id
  /\ option_map snd (List.find (fun h => fst h == "Cache-Control") (w_headers w)) = Some "no-store".

Lemma marking_header id w name value : marking id w -> name <> "X-Request-Id" -> (name = "Cache-Control" -> value = "no-store") ->
  marking id (with_header name value w).
Proof.
  intros [M1 M2] N C. unfold marking, with_header. cbn [w_headers]. rewrite !header_set. split; case_bool_decide as E; try done.
  cbn. by rewrite C.
Qed.

Lemma problem_marked id w status code title : marking id w -> 400 <= status ->
  is_problem (writeProblem w status code title) /\ marked id (writeProblem w status code title).
Proof.
  intros [M1 M2] S. unfold is_problem, marked, header, writeProblem. cbn [Headers StatusCode]. rewrite !header_set. split; [by split | by split].
Qed.

Lemma json_marked id w status body : marking id w -> 200 <= status < 300 ->
  is_success (writeJSON w status body) /\ marked id (writeJSON w status body).
Proof.
  intros [M1 M2] S. unfold is_success, marked, header, writeJSON. cbn [Headers StatusCode]. rewrite !header_set. split; [by split | by split].
Qed.

Lemma replayed_marking id w b : marking id w -> marking id (replayed b w).
Proof. intros M. destruct b; [| done]. by apply marking_header. Qed.

(** The checks of a request with its body read. *)
Lemma once_values r name : once r name = true -> Values r name = [GetHeader r name].
Proof.
  unfold once, GetHeader. intros E. apply Z.eqb_eq in E. destruct (Values r name) as [| v [| v' l]]; cbn in *; [lia | done | lia].
Qed.

Lemma take_length n : forall s, (n <= String.length s)%nat -> String.length (String.substring 0 n s) = n.
Proof. induction n as [| n IH]; intros [| a s] L; cbn in *; try lia; try done. by rewrite IH by lia. Qed.

(** A body that was read by the middleware is read again as it is. *)
Definition settled (r : Request) : Prop := len (bytes (RBody r)) <= maxRequestBody /\ broken (RBody r) = false.

Lemma ReadAll_settled r : settled r -> ReadAll (RBody r) (maxRequestBody + 1) = (bytes (RBody r), true).
Proof.
  intros [L B]. unfold ReadAll. rewrite B. destruct (maxRequestBody + 1 <=? len (bytes (RBody r))) eqn:E; [| done]. apply Z.leb_le in E. lia.
Qed.

Lemma session_problem_ok id w e : marking id w -> is_problem (session_problem w e) /\ marked id (session_problem w e).
Proof. intros M. by destruct e; apply problem_marked. Qed.

Lemma execution_problem_ok id w u t e : marking id w -> is_problem (execution_problem u t w e) /\ marked id (execution_problem u t w e).
Proof. intros M. by destruct e; apply problem_marked. Qed.

Lemma read_problem_ok id w e : marking id w -> is_problem (read_problem w e) /\ marked id (read_problem w e).
Proof. intros M. by destruct e; apply problem_marked. Qed.

(** What a handler does: [answers] is what was said above of its run. *)
Definition answers (route : Route) (id : string) (r : Request) (p : prog hcall Response) : Prop :=
  forall tr resp, runs p tr resp -> decided route r tr resp /\ marked id resp.

Lemma answers_problem route id r w status code title : marking id w -> 400 <= status -> answers route id r (Ret (writeProblem w status code title)).
Proof. intros M S tr resp [-> ->]. destruct (problem_marked id w status code title M S). split; [by left | done]. Qed.

(** Past the authentication: a refusal, or the call of the service. *)
Definition proceeds (route : Route) (id : string) (r : Request) (caller : Caller) (p : prog hcall Response) : Prop :=
  forall tr resp, runs p tr resp -> marked id resp
    /\ (tr = [] /\ is_problem resp
        \/ exists e ok, tr = [e] /\ asked route r caller e /\ outcome e = Some ok /\ if ok : bool then is_success resp else is_problem resp).

Lemma proceeds_problem route id r caller w status code title : marking id w -> 400 <= status ->
  proceeds route id r caller (Ret (writeProblem w status code title)).
Proof. intros M S tr resp [-> ->]. destruct (problem_marked id w status code title M S). split; [done | by left]. Qed.

Lemma authenticated_answers route id w r k : marking id w -> (forall caller, proceeds route id r caller (k caller)) ->
  answers route id r (authenticated w r route k).
Proof.
  intros M K. unfold authenticated. destruct (negb authenticates); [by apply answers_problem |].
  intros tr resp H. cbn [pbind trigger runs] in H. destruct H as (caller & t & -> & H).
  destruct caller as [caller |]; cycle 1.
  { destruct H as [-> ->]. destruct (problem_marked id w 401 "unauthorized" "Unauthorized" M ltac:(lia)). split; [by left | done]. }
  destruct (negb (supplied route)).
  { destruct H as [-> ->]. destruct (problem_marked id w 503 "temporarily-unavailable" "Service Unavailable" M ltac:(lia)). split; [by left | done]. }
  destruct (K caller t resp H) as [MK [[-> P] | (e & ok & -> & A & O & S)]]; (split; [| done]); [by left |].
  right. exists caller, e, ok. done.
Qed.

(** A call of a service and the response to its answer. *)
Lemma proceeds_call {E A} route id r caller (c : hcall (result E A)) (bad : E -> Response) (good : A -> Response) :
  (forall a, asked route r caller (occurred c a) /\ outcome (occurred c a) = Some (is_ok a)) ->
  (forall e, is_problem (bad e) /\ marked id (bad e)) -> (forall a, is_success (good a) /\ marked id (good a)) ->
  proceeds route id r caller (do! x <- trigger c; match x with Err e => Ret (bad e) | Ok a => Ret (good a) end).
Proof.
  intros C B G tr resp H. cbn [pbind trigger runs] in H. destruct H as (x & t & -> & H). destruct (C x) as [C1 C2].
  destruct x as [a | e]; destruct H as [-> ->].
  - destruct (G a). split; [done |]. right. by exists (occurred c (Ok a)), true.
  - destruct (B e). split; [done |]. right. by exists (occurred c (Err e)), false.
Qed.

Lemma createSession_answers id w r : marking id w -> settled r -> answers PostSession id r (createSession w r).
Proof.
  intros M S. apply authenticated_answers; [done |]. intros caller.
  destruct (json_media r) eqn:J; cbn [negb]; [| by apply proceeds_problem].
  destruct (negb (once r "Idempotency-Key") || _ || _) eqn:G; [by apply proceeds_problem |].
  rewrite ReadAll_settled by done. cbn [negb]. destruct (decodeSession _) as [q |] eqn:D; [| by apply proceeds_problem].
  apply orb_false_iff in G as [G Q]. apply orb_false_iff in G as [K _]. apply negb_false_iff in K, Q. apply bool_decide_eq_true in Q.
  apply proceeds_call.
  - intros a. split; [| done]. split; [done |]. split_and!; try done. by apply once_values.
  - intros e. by apply session_problem_ok.
  - intros a. apply json_marked; [| lia]. by apply replayed_marking, marking_header.
Qed.

Lemma createExecution_answers id w r : marking id w -> settled r -> answers PostExecution id r (createExecution w r).
Proof.
  intros M S. apply authenticated_answers; [done |]. intros caller.
  destruct (json_media r) eqn:J; cbn [negb]; [| by apply proceeds_problem].
  destruct (negb (once r "Content-Type") || _ || _ || _) eqn:G; [by apply proceeds_problem |].
  destruct (parseTag _) as [version |] eqn:T; [| by apply proceeds_problem].
  destruct (ParseID _) as [sid | e] eqn:I; [| by apply proceeds_problem].
  rewrite ReadAll_settled by done. destruct (maxRequestBody <? _); [by apply proceeds_problem |]. cbn [negb].
  destruct (decodeExecution _) as [q |] eqn:D; [| by apply proceeds_problem].
  apply orb_false_iff in G as [G Q]. apply orb_false_iff in G as [G F]. apply orb_false_iff in G as [_ K].
  apply negb_false_iff in K, Q, F. apply bool_decide_eq_true in Q. apply proceeds_call.
  - intros a. split; [| done]. split; [done |]. split_and!; try done; [by apply once_values |]. exists (GetHeader r "If-Match"). split; [by apply once_values | done].
  - intros e. by apply execution_problem_ok.
  - intros a. apply json_marked; [| lia]. by apply replayed_marking, marking_header.
Qed.

Lemma getExecution_answers id w r : marking id w -> answers GetExecutionRoute id r (getExecution w r).
Proof.
  intros M. assert (M' : marking id (with_header "Cache-Control" "no-store" w)) by by apply marking_header.
  apply authenticated_answers; [done |]. intros caller.
  destruct (ParseID _) as [x | e] eqn:I; [| by apply proceeds_problem].
  destruct (RawQuery r != "") eqn:Q; [by apply proceeds_problem |]. apply negb_false_iff, bool_decide_eq_true in Q. apply proceeds_call.
  - intros a. split; [| done]. by split.
  - intros e. by apply read_problem_ok.
  - intros a. by apply json_marked.
Qed.

Lemma signalExecution_answers id w r : marking id w -> settled r -> answers PostSignal id r (signalExecution w r).
Proof.
  intros M [L B]. assert (M' : marking id (with_header "Cache-Control" "no-store" w)) by by apply marking_header.
  apply authenticated_answers; [done |]. intros caller.
  destruct (json_media r) eqn:J; cbn [negb]; [| by apply proceeds_problem].
  destruct (ParseID _) as [x | e] eqn:I; [| by apply proceeds_problem].
  destruct (negb (once r "Content-Type") || _ || _) eqn:G; [by apply proceeds_problem |].
  assert (R : ReadAll (RBody r) (MaxSignalBytes + 1) = (bytes (RBody r), true)
    \/ exists raw ok, ReadAll (RBody r) (MaxSignalBytes + 1) = (raw, ok) /\ MaxSignalBytes <? len raw = true).
  { unfold ReadAll. destruct (_ <=? len _) eqn:E; [right | left; by rewrite B]. eexists _, _. split; [done |]. apply Z.leb_le in E.
    unfold len in *. rewrite take_length by lia. apply Z.ltb_lt. lia. }
  destruct R as [R | (raw & ok & R & X)]; rewrite R; [| rewrite X; by apply proceeds_problem].
  destruct (MaxSignalBytes <? _); [by apply proceeds_problem |]. cbn [negb].
  destruct (ParseSignal Transform _) as [q | e] eqn:D; [| by apply proceeds_problem].
  apply orb_false_iff in G as [G Q]. apply orb_false_iff in G as [_ K]. apply negb_false_iff in K, Q. apply bool_decide_eq_true in Q.
  apply proceeds_call.
  - intros a. split; [| done]. split; [done |]. split_and!; try done. by apply once_values.
  - intros e. by apply execution_problem_ok.
  - intros a. apply json_marked; [| lia]. by apply marking_header; [apply replayed_marking | |].
Qed.

Lemma handler_answers route id w r : marking id w -> settled r -> answers route id r (handler route w r).
Proof.
  intros M S. destruct route; [by apply createSession_answers | by apply createExecution_answers | by apply getExecution_answers |
    by apply signalExecution_answers].
Qed.

(** The request as the middleware passes it on. *)
Definition read (r : Request) : Request := with_body r (mkBody (bytes (RBody r)) false).

Definition within_limits (r : Request) : Prop :=
  len (RequestURI r) <= maxURIBytes /\ header_fields r <= maxHeaderFields /\ header_bytes r <= maxHeaderBytes
  /\ GetHeader r "Content-Encoding" = "" /\ len (bytes (RBody r)) <= maxRequestBody /\ broken (RBody r) = false.

Lemma limits_answers route id w r next : marking id w ->
  (forall r', settled r' -> answers route id r' (next w r')) ->
  forall tr resp, runs (requestLimits w r next) tr resp ->
  marked id resp /\ (tr = [] /\ is_problem resp \/ within_limits r /\ decided route (read r) tr resp).
Proof.
  intros M K tr resp H. unfold requestLimits in H.
  assert (P : forall status code title, 400 <= status -> runs (Ret (writeProblem w status code title) : prog hcall Response) tr resp ->
    marked id resp /\ (tr = [] /\ is_problem resp \/ within_limits r /\ decided route (read r) tr resp)).
  { intros status code title S [-> ->]. destruct (problem_marked id w status code title M S). auto. }
  destruct (maxURIBytes <? _) eqn:E1; [by eapply P, H |]. destruct (long_value r || _ || _) eqn:E2; [by eapply P, H |].
  destruct (GetHeader r "Content-Encoding" != "") eqn:E3; [by eapply P, H |]. destruct (maxRequestBody <? ContentLength r) eqn:E4; [by eapply P, H |].
  unfold ReadAll in H. destruct (maxRequestBody + 1 <=? len (bytes (RBody r))) eqn:E5.
  - cbn [negb] in H. destruct (maxRequestBody <? len _) eqn:E6 in H; [by eapply P, H |]. exfalso. apply Z.leb_le in E5. apply Z.ltb_ge in E6.
    unfold len in *. rewrite take_length in E6 by lia. lia.
  - destruct (broken (RBody r)) eqn:B; cbn [negb] in H; [by eapply P, H |]. destruct (maxRequestBody <? len _) eqn:E6 in H; [by eapply P, H |].
    apply Z.ltb_ge in E1, E4, E6. apply orb_false_iff in E2 as [E2 E7]. apply orb_false_iff in E2 as [_ E8]. apply Z.ltb_ge in E7, E8.
    apply negb_false_iff, bool_decide_eq_true in E3.
    destruct (K (read r)) with (tr := tr) (resp := resp) as [D MK]; [by split | exact H |]. split; [done |]. right. by split.
Qed.

(** C32: The HTTP adapter decides nothing and hides nothing.  Whatever the authentication and
    the services answer: a request whose identifier could not be made is refused without
    another call; otherwise the response carries the request's identifier and is not to be
    cached, and either the request was refused with a problem document before any service
    was called, or it is within the limits, exactly one service was called, last, for the
    caller that the authentication named, with the identifier, version, key and body that
    the request has, and the response is a success exactly when the service succeeded and a
    problem document otherwise. *)
Theorem http_service_decides route r tr resp (H : runs (ServeHTTP route r) tr resp) :
  (tr = [occurred NewRequestID None] /\ is_problem resp)
  \/ exists id t, (match_string validRequestID (GetHeader r "X-Request-Id") = true /\ id = GetHeader r "X-Request-Id" /\ tr = t
                   \/ match_string validRequestID (GetHeader r "X-Request-Id") = false /\ tr = occurred NewRequestID (Some id) :: t)
       /\ marked id resp
       /\ (t = [] /\ is_problem resp \/ within_limits r /\ decided route (read r) t resp).
Proof.
  unfold ServeHTTP, requestContext in H.
  assert (K : forall id t, runs (requestLimits (with_header "X-Content-Type-Options" "nosniff" (with_header "Cache-Control" "no-store"
      (with_header "X-Request-Id" id (mkWriter [] (Path r) id)))) r (handler route)) t resp ->
    marked id resp /\ (t = [] /\ is_problem resp \/ within_limits r /\ decided route (read r) t resp)).
  { intros id t R. eapply limits_answers; [| | exact R]; [| intros r' S; apply handler_answers; [| done]];
      (split; cbn [w_headers with_header]; rewrite !header_set; done). }
  destruct (match_string _ _) eqn:V.
  - cbn [pbind] in H. right. destruct (K _ _ H). exists (GetHeader r "X-Request-Id"), tr. auto.
  - cbn [pbind trigger runs] in H. destruct H as (id & t & -> & H). destruct id as [id |].
    + right. destruct (K _ _ H). exists id, t. auto.
    + left. destruct H as [-> ->]. split; [done |]. split; [cbn; lia |]. unfold header, writeProblem. cbn [Headers]. by rewrite header_set.
Qed.
End Handlers.

(** ** Witness: a Session is created. *)

(** Text with [#] for a quotation mark. *)
Definition ex_text (s : string) : string := of_bytes (map (fun b => if b =? 35 then 34 else b) (to_bytes s)).

Definition ex_body : string :=
  ex_text "{#agent_runtime_spec_id#:#codex#,#runtime_profile_id#:#small#,#source#:{#kind#:#empty#}}".

Definition ex_request : Request :=
  mkRequest "/v1/sessions" "/v1/sessions" "" ""
    [("Content-Type", ["application/json"]); ("Idempotency-Key", ["0123456789abcdef"]); ("X-Request-Id", ["req-1"])] (len ex_body) (mkBody ex_body false).

Definition ex_caller : Caller := mkCaller id1 digest_a.

Definition ex_view : SessionCreate.View :=
  SessionCreate.mkView id2 "PROVISIONING" 1 0 "codex" "small" id3 "local" "thinkpixelar/local" (at_second 10) (at_second 10).

Definition ex_answer (B : Type) (c : hcall B) : B :=
  match c with
  | NewRequestID => None
  | Authenticate _ => Some ex_caller
  | CreateSession _ _ _ => Ok (SessionCreate.mkResult ex_view false)
  | CreateExecution _ _ _ _ _ => Err ErrNotFound
  | GetExecution _ _ => Err ErrNotFound
  | SignalExecution _ _ _ _ => Err ErrNotFound
  end.

Definition ex_serve : prog hcall Response :=
  ServeHTTP (fun m => if m == "application/json" then Some (m, "") else None) Some true (fun _ => true) PostSession ex_request.

Lemma ex_session_created : StatusCode (snd (execute ex_answer ex_serve)) = 201
  /\ header (snd (execute ex_answer ex_serve)) "Location" = Some ("/v1/sessions/" +:+ id2).
Proof. vm_compute. by split. Qed.

Lemma http_service_decides_witness :
  runs ex_serve (fst (execute ex_answer ex_serve)) (snd (execute ex_answer ex_serve))
  /\ ((fst (execute ex_answer ex_serve) = [occurred NewRequestID None] /\ is_problem (snd (execute ex_answer ex_serve)))
      \/ exists id, marked id (snd (execute ex_answer ex_serve))).
Proof.
  pose proof (execute_runs ex_answer ex_serve) as H. split; [exact H |]. unfold ex_serve in H.
  destruct (http_service_decides _ _ _ _ _ _ _ _ H) as [X | (id & t & _ & M & _)]; [left; exact X | right; exists id; exact M].
Defined.
