(* ===== verification/HttpStream.v ===== *)
(** * internal/adapters/http/session_events.go: event streams

    The limits on concurrent streams ([streamLimits]) and the handler of a server-sent event
    stream ([eventStream]) as a program over the authentication, the reader of events, the
    limits, the connection and the clock.  [fuel] is the number of turns of its loop that
    are observed; a stream that has used it up is still open and has no outcome.

    Proved: the counters of the limits are exactly the streams that are open, stay within
    their bounds and keep no entry for whoever has no stream; and in every run of a stream
    the caller is authenticated again before every read, which is for that caller, from the
    cursor of the last event; every event that is read is written, once, as it was read,
    before the next one is read; after a failed read only the end is announced; and what was
    acquired is released last.  With a reader of events, the
    numbers that are written go up strictly from the client's cursor on. *)

From Stdlib Require Import ZArith Bool Lia.
From stdpp Require Import base strings list gmap sorting.
From S2P Require Import Prelude Regex GoStd JsonDecoder JsonEncode JsonUnmarshal Primitives Interaction Observer.
From S2P Require Import EventStream HttpRequests.

(** ** streamLimits *)

Record streamLimits : Type := mkLimits {
  total : Z;
  tenants : gmap string Z;
  principals : gmap string Z;
  ips : gmap string Z
}.

(** An entry of a Go map, absent as zero. *)
Definition entry (m : gmap string Z) (k : string) : Z := default 0 (m !! k).

Definition acquire (l : streamLimits) (tenant principal ip : string) : option streamLimits :=
  if (128 <=? total l) || (32 <=? entry (tenants l) tenant) || (4 <=? entry (principals l) principal) || (16 <=? entry (ips l) ip) then None
  else Some (mkLimits (total l + 1) (<[tenant := entry (tenants l) tenant + 1]> (tenants l))
               (<[principal := entry (principals l) principal + 1]> (principals l)) (<[ip := entry (ips l) ip + 1]> (ips l))).

(** One counter of [release]. *)
Definition decrement (m : gmap string Z) (k : string) : gmap string Z :=
  let m := <[k := entry m k - 1]> m in if entry m k =? 0 then delete k m else m.

Definition release (l : streamLimits) (tenant principal ip : string) : streamLimits :=
  mkLimits (total l - 1) (decrement (tenants l) tenant) (decrement (principals l) principal) (decrement (ips l) ip).

Definition no_streams : streamLimits := mkLimits 0 ∅ ∅ ∅.

(** The streams that are open, and what happens to them. *)
Record Stream : Type := mkStream { s_tenant : string; s_principal : string; s_ip : string }.

Inductive streams : streamLimits -> list Stream -> Prop :=
| st_none : streams no_streams []
| st_acquire l open s l' : streams l open -> acquire l (s_tenant s) (s_principal s) (s_ip s) = Some l' -> streams l' (s :: open)
| st_release l before s rest : streams l (before ++ s :: rest) -> streams (release l (s_tenant s) (s_principal s) (s_ip s)) (before ++ rest).

(** How many of the open streams have this key. *)
Definition tally (key : Stream -> string) (open : list Stream) (k : string) : Z :=
  Z.of_nat (length (List.filter (fun s => key s == k) open)).

(** A counter says exactly how many there are. *)
Definition counts (m : gmap string Z) (key : Stream -> string) (open : list Stream) : Prop :=
  forall k, m !! k = if tally key open k =? 0 then None else Some (tally key open k).

Lemma counts_entry m key open k : counts m key open -> entry m k = tally key open k.
Proof. intros C. unfold entry. rewrite (C k). destruct (_ =? _) eqn:E; [| done]. apply Z.eqb_eq in E. by rewrite E. Qed.

Lemma tally_cons key s open k : tally key (s :: open) k = tally key open k + (if key s == k then 1 else 0).
Proof. unfold tally. cbn. case_bool_decide; cbn [length]; lia. Qed.

Lemma tally_middle key before s rest k : tally key (before ++ s :: rest) k = tally key (before ++ rest) k + (if key s == k then 1 else 0).
Proof. unfold tally. rewrite !List.filter_app, !length_app. cbn. case_bool_decide; cbn [length]; lia. Qed.

Lemma tally_nonneg key open k : 0 <= tally key open k.
Proof. unfold tally. lia. Qed.

Lemma counts_acquire m key open s : counts m key open -> counts (<[key s := entry m (key s) + 1]> m) key (s :: open).
Proof.
  intros C k. rewrite tally_cons, (counts_entry m key open) by done. destruct (decide (key s = k)) as [E | N].
  - rewrite E, lookup_insert_eq, bool_decide_eq_true_2 by done. pose proof (tally_nonneg key open k).
    destruct (_ =? _) eqn:Z0; [apply Z.eqb_eq in Z0; lia | done].
  - rewrite lookup_insert_ne, bool_decide_eq_false_2 by done. rewrite Z.add_0_r. apply C.
Qed.

Lemma counts_release m key before s rest : counts m key (before ++ s :: rest) -> counts (decrement m (key s)) key (before ++ rest).
Proof.
  intros C k. pose proof (counts_entry m key _ (key s) C) as E. rewrite tally_middle, bool_decide_eq_true_2 in E by done.
  unfold decrement. rewrite E. replace (tally key (before ++ rest) (key s) + 1 - 1) with (tally key (before ++ rest) (key s)) by lia.
  unfold entry at 1. rewrite lookup_insert_eq. cbn [default from_option]. unfold id.
  destruct (decide (key s = k)) as [<- | N].
  - destruct (_ =? 0) eqn:Z0; [by rewrite lookup_delete_eq | by rewrite lookup_insert_eq].
  - assert (X : m !! k = if tally key (before ++ rest) k =? 0 then None else Some (tally key (before ++ rest) k)).
    { rewrite (C k), tally_middle, bool_decide_eq_false_2, Z.add_0_r by done. done. }
    destruct (tally key (before ++ rest) (key s) =? 0); [rewrite lookup_delete_ne by done |]; by rewrite lookup_insert_ne.
Qed.

Lemma streams_counted l open : streams l open ->
  total l = Z.of_nat (length open) /\ counts (tenants l) s_tenant open /\ counts (principals l) s_principal open /\ counts (ips l) s_ip open.
Proof.
  induction 1 as [| l open s l' _ (T & C1 & C2 & C3) A | l before s rest _ (T & C1 & C2 & C3)].
  - by split_and!.
  - unfold acquire in A. destruct (_ || _ || _ || _); [done |]. injection A as <-. cbn [total tenants principals ips length].
    split_and!; [lia | by apply (counts_acquire _ s_tenant) | by apply (counts_acquire _ s_principal) | by apply (counts_acquire _ s_ip)].
  - rewrite length_app in T. cbn [length total tenants principals ips release] in *. rewrite length_app.
    split_and!; [lia | by apply (counts_release _ s_tenant) | by apply (counts_release _ s_principal) | by apply (counts_release _ s_ip)].
Qed.

(** C33: The limits are exact.  However streams come and go: the total and the counters per
    tenant, principal and address are the numbers of open streams, with no entry left for
    whoever has none; at most 128 streams are open, 32 for a tenant, 4 for a principal and
    16 from an address; and a stream is refused only when one of these bounds is reached. *)
Theorem stream_limits_exact l open (H : streams l open) :
  total l = Z.of_nat (length open) /\ counts (tenants l) s_tenant open /\ counts (principals l) s_principal open /\ counts (ips l) s_ip open
  /\ total l <= 128 /\ (forall k, tally s_tenant open k <= 32) /\ (forall k, tally s_principal open k <= 4) /\ (forall k, tally s_ip open k <= 16)
  /\ forall s, acquire l (s_tenant s) (s_principal s) (s_ip s) = None ->
       Z.of_nat (length open) = 128 \/ tally s_tenant open (s_tenant s) = 32 \/ tally s_principal open (s_principal s) = 4
       \/ tally s_ip open (s_ip s) = 16.
Proof.
  destruct (streams_counted l open H) as (T & C1 & C2 & C3).
  assert (B : total l <= 128 /\ (forall k, tally s_tenant open k <= 32) /\ (forall k, tally s_principal open k <= 4)
    /\ (forall k, tally s_ip open k <= 16)).
  { clear T C1 C2 C3. induction H as [| l open s l' H IH A | l before s rest H IH].
    - by split_and!.
    - destruct (streams_counted l open H) as (T & C1 & C2 & C3). destruct IH as (I0 & I1 & I2 & I3). unfold acquire in A.
      rewrite (counts_entry _ _ _ _ C1), (counts_entry _ _ _ _ C2), (counts_entry _ _ _ _ C3) in A.
      destruct (_ || _ || _ || _) eqn:E; [done |]. injection A as <-. repeat (apply orb_false_iff in E as [E ?]).
      rewrite Z.leb_gt in *. cbn [total]. split_and!; [lia | intros k; rewrite tally_cons; case_bool_decide as K; rewrite <- ?K ..].
      all: match goal with |- context [tally _ _ ?k] => specialize (I1 k); specialize (I2 k); specialize (I3 k) end; lia.
    - destruct IH as (I0 & I1 & I2 & I3). cbn [total release]. split_and!; [lia | ..]; intros k;
        [specialize (I1 k); rewrite tally_middle in I1 | specialize (I2 k); rewrite tally_middle in I2 | specialize (I3 k); rewrite tally_middle in I3];
        case_bool_decide; lia. }
  destruct B as (B0 & B1 & B2 & B3). split_and!; try done. intros s A. unfold acquire in A.
  rewrite (counts_entry _ _ _ _ C1), (counts_entry _ _ _ _ C2), (counts_entry _ _ _ _ C3) in A.
  destruct (_ || _ || _ || _) eqn:E; [| done]. specialize (B1 (s_tenant s)). specialize (B2 (s_principal s)). specialize (B3 (s_ip s)).
  repeat (apply orb_true_iff in E as [E | E]); apply Z.leb_le in E; lia.
Qed.

(** ** The stream *)

#[export] Instance Caller_eq_dec : EqDecision Caller.
Proof. solve_decision. Defined.

(** What is written to the connection. *)
Inductive Sse : Type :=
| SseRetry
| SseEvent (sequence : Z) (type data : string)
| SseHeartbeat
| SseEnd (reason : string).

Definition sse_text (f : Sse) : string :=
  match f with
  | SseRetry => "retry: 1000" +:+ newline +:+ newline
  | SseEvent n t d => "id: " +:+ of_bytes (decimal n) +:+ newline +:+ "event: " +:+ t +:+ newline +:+ "data: " +:+ d +:+ newline +:+ newline
  | SseHeartbeat => ": heartbeat" +:+ newline +:+ newline
  | SseEnd reason => ": stream-ended " +:+ reason +:+ "; reconnect from last received id" +:+ newline +:+ newline
  end.

Inductive eport : Type -> Type :=
| EAuth : eport (option Caller)
| EAcquire (tenant principal ip : string) : eport bool
| ERead (c : Caller) (id : ID) (after : Z) : eport (Result * option StreamError)
| EDeadline : eport bool
| EWrite (f : Sse) : eport bool
| ECtxDone : eport bool
| EPoll : eport bool
| ELate : eport bool
| ERelease : eport unit.

(** How a stream ended. *)
Inductive Ended : Type := Answered (resp : Response) | Closed.

(** [parseEventSequence] *)
Definition parseEventSequence (value : string) : option Z :=
  match ParseUint63 value with
  | Some n => if of_bytes (decimal n) == value then Some n else None
  | None => None
  end.

Definition gap_json (result : Result) (request_id : string) : jvalue :=
  JStruct [("type", JString (problemBase +:+ "replay-gap")); ("title", JString "Event Replay Gap"); ("status", JUint 410);
           ("code", JString "replay-gap"); ("request_id", JString request_id);
           ("earliest_sequence", JUint (Earliest result)); ("latest_sequence", JUint (Latest result))].

Definition streamProblem (w : Writer) (result : Result) (e : StreamError) : Response :=
  match e with
  | ErrGap => mkResponse 410 (set_header "Content-Type" "application/problem+json" (w_headers w))
                (marshal (gap_json result (w_id w)) +:+ newline)
  | ErrInvalid => writeProblem w 400 "invalid-request" "Invalid Request"
  | ErrNotFound => writeProblem w 404 "not-found" "Not Found"
  | ErrUnavailable => writeProblem w 503 "temporarily-unavailable" "Service Unavailable"
  end.

Definition end_reason (e : StreamError) : string :=
  match e with ErrGap => "replay-gap" | ErrNotFound => "access-ended" | _ => "unavailable" end.

Section Stream_.

(** The host of [net.SplitHostPort]. *)
Variable SplitHost : string -> option string.
Variable authenticates : bool.
Variable reads : bool.

(** [next]: authentication again, then the read. *)
Definition next_event (caller : Caller) (id : ID) (after : Z) : prog eport (Result * option StreamError) :=
  do! current <- trigger EAuth;
  if decide (current = Some caller) then trigger (ERead caller id after) else Ret (emptyResult, Some ErrNotFound).

(** The event of a result, when it has one to show. *)
Definition shown (result : Result) : option Sse :=
  match Data result with
  | Some d => if d == "" then None else Some (SseEvent (Sequence result) (Type_ result) d)
  | None => None
  end.

(** The loop: whether the stream has ended. *)
Fixpoint stream_loop (fuel : nat) (caller : Caller) (id : ID) (after : Z) (result : Result) : prog eport bool :=
  match fuel with
  | O => Ret false
  | S fuel =>
      do! over <- trigger ECtxDone;
      if negb (negb over) then Ret true
      else
        do! ok <- (if Sequence result =? 0 then trigger EPoll
                   else match shown result with Some f => trigger (EWrite f) | None => Ret true end);
        if negb ok then Ret true
        else
          let after := if Sequence result =? 0 then after else Sequence result in
          do! x <- next_event caller id after;
          match snd x with
          | Some e =>
              do! over <- trigger ECtxDone;
              if negb (negb over) then Ret true else do! _ <- trigger (EWrite (SseEnd (end_reason e))); Ret true
          | None =>
              do! late <- trigger ELate;
              do! ok <- (if negb late then Ret true else trigger (EWrite SseHeartbeat));
              if negb ok then Ret true else stream_loop fuel caller id after (fst x)
          end
  end.

Definition closed (over : bool) : prog eport (option Ended) :=
  if over then do! _ <- trigger ERelease; Ret (Some Closed) else Ret None.

Definition answered (resp : Response) : prog eport (option Ended) :=
  do! _ <- trigger ERelease; Ret (Some (Answered resp)).

(** The client's cursor. *)
Definition cursor (r : Request) : option Z :=
  match Values r "Last-Event-Id" with
  | [] => Some 0
  | [v] => parseEventSequence v
  | _ => None
  end.

Definition eventStream (fuel : nat) (w : Writer) (r : Request) (method remote : string) : prog eport (option Ended) :=
  let refuse := fun status code title => Ret (Some (Answered (writeProblem w status code title))) in
  if negb authenticates then refuse 401 "unauthorized" "Unauthorized"
  else
    do! caller <- trigger EAuth;
    match caller with
    | None => refuse 401 "unauthorized" "Unauthorized"
    | Some caller =>
        if negb reads then refuse 503 "temporarily-unavailable" "Service Unavailable"
        else match ParseID (PathValue r), cursor r with
        | Ok id, Some after =>
            if (RawQuery r != "") || (method != "GET") then refuse 400 "invalid-request" "Invalid Request"
            else
              do! ok <- trigger (EAcquire (CTenantID caller) (CTenantID caller +:+ "/" +:+ PrincipalDigest caller) (default remote (SplitHost remote)));
              if negb ok then Ret (Some (Answered (writeProblem (with_header "Retry-After" "5" w) 429 "rate-limited" "Too Many Requests")))
              else
                do! x <- next_event caller id after;
                match snd x with
                | Some e => answered (streamProblem w (fst x) e)
                | None =>
                    do! ok <- trigger EDeadline;
                    if negb ok then answered (writeProblem w 503 "temporarily-unavailable" "Service Unavailable")
                    else
                      do! ok <- trigger (EWrite SseRetry);
                      if negb ok then closed true
                      else do! over <- stream_loop fuel caller id after (fst x); closed over
                end
        | _, _ => refuse 400 "invalid-request" "Invalid Request"
        end
    end.
End Stream_.

(** ** What a run may do *)

Record View : Type := mkView {
  v_caller : option Caller;
  v_fresh : bool;
  v_after : Z;
  v_unsent : option Result;
  v_failed : option StreamError;
  v_open : bool;
  v_ended : bool
}.

Definition presents (result : Result) : bool := negb (Sequence result =? 0) && is_some (shown result).

Definition advanced (after : Z) (result : Result) : Z := if Sequence result =? 0 then after else Sequence result.

(** For the stream of [id]. *)
Definition sees (id : ID) (v : View) (e : event eport) : Prop * View :=
  match projT2 e with
  | (c, a) =>
      match c in eport B return B -> Prop * View with
      | EAuth => fun a =>
          (True, match v_caller v with
                 | None => mkView a true (v_after v) (v_unsent v) (v_failed v) (v_open v) (v_ended v)
                 | Some c => mkView (v_caller v) (bool_decide (a = Some c)) (v_after v) (v_unsent v) (v_failed v) (v_open v) (v_ended v)
                 end)
      | EAcquire tenant principal _ => fun ok =>
          (exists c, v_caller v = Some c /\ tenant = CTenantID c /\ principal = CTenantID c +:+ "/" +:+ PrincipalDigest c /\ v_open v = false,
           mkView (v_caller v) false (v_after v) (v_unsent v) (v_failed v) ok (v_ended v))
      | ERead c i after => fun x =>
          (v_open v = true /\ v_caller v = Some c /\ v_fresh v = true /\ i = id /\ after = v_after v /\ v_unsent v = None /\ v_failed v = None,
           match snd x with
           | None => mkView (v_caller v) false (advanced (v_after v) (fst x)) (if presents (fst x) then Some (fst x) else None) None (v_open v) (v_ended v)
           | Some e => mkView (v_caller v) false (v_after v) None (Some e) (v_open v) (v_ended v)
           end)
      | EWrite f => fun ok =>
          (v_open v = true /\ v_ended v = false
           /\ match f with
              | SseEvent _ _ _ => exists result, v_unsent v = Some result /\ shown result = Some f /\ v_failed v = None
              | SseEnd reason => reason = end_reason (default ErrNotFound (v_failed v)) /\ (v_failed v = None -> v_fresh v = false)
              | _ => v_failed v = None
              end,
           match f with
           | SseEvent _ _ _ => mkView (v_caller v) (v_fresh v) (v_after v) None (v_failed v) (v_open v) (v_ended v)
           | SseEnd _ => mkView (v_caller v) (v_fresh v) (v_after v) (v_unsent v) (v_failed v) (v_open v) true
           | _ => v
           end)
      | ERelease => fun _ =>
          (v_open v = true, mkView (v_caller v) (v_fresh v) (v_after v) (v_unsent v) (v_failed v) false (v_ended v))
      | _ => fun _ => (True, v)
      end a
  end.

Definition watching (after : Z) : View := mkView None false after None None false false.

(** The stream is open, with this cursor and this result to be shown. *)
Definition serving (caller : Caller) (after : Z) (result : Result) (v : View) : Prop :=
  v_caller v = Some caller /\ v_open v = true /\ v_ended v = false /\ v_failed v = None /\ v_after v = advanced after result
  /\ v_unsent v = if presents result then Some result else None.

(** The stream is open and nothing is owed. *)
Definition ready (caller : Caller) (after : Z) (v : View) : Prop :=
  v_caller v = Some caller /\ v_open v = true /\ v_ended v = false /\ v_failed v = None /\ v_after v = after /\ v_unsent v = None.

Section Follows.
Variable id : ID.
Abbreviation follows := (Observer.follows (sees id)).

Lemma next_event_follows caller after v : ready caller after v ->
  follows v (next_event caller id after) (fun v' x =>
    match snd x with
    | None => serving caller after (fst x) v'
    | Some e => v_open v' = true /\ v_ended v' = false /\ (v_failed v' = Some e \/ v_failed v' = None /\ e = ErrNotFound /\ v_fresh v' = false)
    end).
Proof.
  intros (C & O & E & F & A & U). unfold next_event. apply follows_call. intros a. split; [done |]. cbn [snd sees projT2 occurred]. rewrite C.
  destruct (decide (a = Some caller)) as [-> | N].
  - rewrite bool_decide_eq_true_2 by done. apply (follows_call _ _ (ERead caller id after) Ret). intros [res [e |]]; cbn [sees projT2 occurred fst snd].
    + split; [by split_and! |]. apply follows_ret. cbn. auto.
    + split; [by split_and! |]. apply follows_ret. cbn. rewrite A. by split_and!.
  - apply follows_ret. cbn. split_and!; [done | done |]. right. split_and!; [done | done |]. by apply bool_decide_eq_false_2.
Qed.

Lemma stream_loop_follows fuel : forall caller after result v, serving caller after result v ->
  follows v (stream_loop fuel caller id after result) (fun v' _ => v_open v' = true).
Proof.
  induction fuel as [| fuel IH]; intros caller after result v S; cbn [stream_loop]; [apply follows_ret, S |].
  apply follows_call. intros over. split; [done |]. cbn [snd sees projT2 occurred]. destruct over; cbn [negb]; [apply follows_ret, S |].
  apply follows_bind. apply (follows_weaken _ _ _ (fun v' ok => v_open v' = true /\ (ok = true -> ready caller (advanced after result) v'))).
  { destruct S as (C & O & E & F & A & U). destruct (Sequence result =? 0) eqn:Z0.
    - apply (follows_call _ _ EPoll Ret). intros ok. split; [done |]. apply follows_ret. split; [done |]. intros _.
      unfold presents in U. rewrite Z0 in U. by split_and!.
    - destruct (shown result) as [f |] eqn:SH.
      + unfold presents in U. rewrite Z0, SH in U. cbn in U.
        assert (FF : exists n t d, f = SseEvent n t d).
        { unfold shown in SH. destruct (Data result) as [d |]; [| done]. destruct (d == ""); [done |]. injection SH as <-. eauto. }
        destruct FF as (n & t & d & ->). apply (follows_call _ _ (EWrite (SseEvent n t d)) Ret). intros ok. split; [cbn; split_and!; eauto |].
        apply follows_ret. split; [done |]. intros _. by split_and!.
      + apply follows_ret. split; [done |]. intros _. unfold presents in U. rewrite Z0, SH in U. by split_and!. }
  intros v1 [] [O1 R1]; cbn [negb]; [| by apply follows_ret]. specialize (R1 eq_refl). fold (advanced after result).
  apply follows_bind. eapply follows_weaken; [apply (next_event_follows _ _ _ R1) |]. intros v2 [res [e |]] H2; cbn [snd fst] in *.
  - destruct H2 as (O2 & E2 & F2). apply follows_call. intros over. split; [done |]. destruct over; cbn [negb]; [by apply follows_ret |].
    apply follows_call. intros ok. split; [| by apply follows_ret]. cbn. split_and!; [done | done | |]; destruct F2 as [-> | (-> & -> & FR)]; done.
  - apply follows_call. intros late. split; [done |]. cbn [snd sees projT2 occurred]. apply follows_bind.
    apply (follows_weaken _ _ _ (fun v' _ => v' = v2)).
    { destruct late; [| by apply follows_ret]. apply (follows_call _ _ (EWrite SseHeartbeat) Ret). intros ok. split; [| by apply follows_ret].
      destruct H2 as (? & ? & ? & ? & ?). by split_and!. }
    intros ? ok ->. destruct ok; cbn [negb]; [by apply IH | apply follows_ret, H2].
Qed.

Lemma answered_follows v resp : v_open v = true -> follows v (answered resp) (fun v' x => is_Some x -> v_open v' = false).
Proof. intros O. apply follows_call. intros []. split; [done |]. by apply follows_ret. Qed.

Lemma closed_follows v over : v_open v = true -> follows v (closed over) (fun v' x => is_Some x -> v_open v' = false).
Proof. intros O. destruct over; [apply follows_call; intros []; split; [done |]; by apply follows_ret | apply follows_ret; by intros [? ?]]. Qed.
End Follows.

Lemma eventStream_follows SplitHost authenticates reads fuel w r method remote id after :
  ParseID (PathValue r) = Ok id -> cursor r = Some after ->
  Observer.follows (sees id) (watching after) (eventStream SplitHost authenticates reads fuel w r method remote) (fun v x => is_Some x -> v_open v = false).
Proof.
  intros I C. unfold eventStream. destruct (negb authenticates); [by apply follows_ret |]. apply follows_call. intros a. split; [done |].
  cbn [snd sees projT2 occurred v_caller watching]. destruct a as [caller |]; [| by apply follows_ret]. destruct (negb reads); [by apply follows_ret |].
  rewrite I, C. destruct (_ || _); [by apply follows_ret |]. apply follows_call. intros ok. cbn [sees projT2 occurred].
  split; [by exists caller |]. cbn [snd]. destruct ok; cbn [negb]; [| by apply follows_ret].
  apply follows_bind. eapply follows_weaken; [by apply next_event_follows |]. intros v [res [e |]] H; cbn [fst snd] in *; [apply answered_follows, H |].
  apply follows_call. intros ok. split; [done |]. cbn [snd sees projT2 occurred]. pose proof H as (_ & O & _).
  destruct ok; cbn [negb]; [| by apply answered_follows]. apply follows_call. intros ok. split; [destruct H as (? & ? & ? & ? & ?); by split_and! |].
  cbn [snd sees projT2 occurred]. destruct ok; cbn [negb]; [| by apply closed_follows]. apply follows_bind.
  eapply follows_weaken; [by apply stream_loop_follows |]. intros v' over O'. by apply closed_follows.
Qed.

(** ** Events in order *)

(** The numbers of the events that are written. *)
Definition number (e : event eport) : option Z :=
  match fst (projT2 e) with EWrite (SseEvent n _ _) => Some n | _ => None end.

Definition written (tr : list (event eport)) : list Z := omap number tr.

(** Every successful read is one of a reader of Sessions or of Executions. *)
Definition honest (tr : list (event eport)) : Prop :=
  forall c i a out, occurred (ERead c i a) (out, None) ∈ tr -> exists execution t, runs (next c i a execution) t (out, None).

Lemma reader_successor c i a execution t out : 0 <= a -> runs (next c i a execution) t (out, None) -> Sequence out = 0 \/ Sequence out = a + 1.
Proof. intros A R. destruct (stream_disclosure _ _ _ _ _ _ A R) as (? & ? & ? & ? & _ & _ & _ & _ & _ & _ & D). destruct D; auto. Qed.

(** Below the next number to be written. *)
Definition low (v : View) : Z := match v_unsent v with Some _ => v_after v - 1 | None => v_after v end.

Definition sequenced (v : View) : Prop := 0 <= v_after v /\ forall res, v_unsent v = Some res -> Sequence res = v_after v.

Lemma sorted_lower a b l : b <= a -> StronglySorted Z.lt (a :: l) -> StronglySorted Z.lt (b :: l).
Proof. intros L [S F]%StronglySorted_inv. constructor; [done |]. eapply Forall_impl; [exact F |]. cbn. lia. Qed.

Lemma sorted_push a b l : b < a -> StronglySorted Z.lt (a :: l) -> StronglySorted Z.lt (b :: a :: l).
Proof. intros L S. pose proof S as [_ F]%StronglySorted_inv. constructor; [done |]. constructor; [done |]. eapply Forall_impl; [exact F |]. cbn. lia. Qed.

Lemma shown_number res n t d : shown res = Some (SseEvent n t d) -> n = Sequence res.
Proof. unfold shown. destruct (Data res) as [x |]; [| done]. destruct (x == ""); [done |]. intros E; by injection E as <- _ _. Qed.

(** One call: the numbers go up, or nothing is written and the bound does not go down. *)
Lemma sees_sequenced id v e : sequenced v -> fst (sees id v e) -> honest [e] ->
  sequenced (snd (sees id v e))
  /\ match number e with Some n => low v < n /\ low (snd (sees id v e)) = n | None => low v <= low (snd (sees id v e)) end.
Proof.
  intros [N U] D H. destruct e as [B [c b]]. destruct c; cbn in b, D |- *; try by (split; [split |]).
  - destruct (v_caller v); (split; [split |]); done.
  - destruct D as (_ & _ & _ & -> & -> & NU & _). destruct b as [out [e |]]; cbn [snd fst].
    + split; [by split |]. unfold low. rewrite NU. cbn. lia.
    + destruct (H c id (v_after v) out) as (x & t & R); [by left |]. destruct (reader_successor _ _ _ _ _ _ N R) as [Z0 | Z1].
      * unfold sequenced, low, advanced, presents. rewrite NU, Z0. cbn. split; [split; done | lia].
      * unfold sequenced, low, advanced, presents. rewrite NU, Z1. replace (v_after v + 1 =? 0) with false by (symmetry; apply Z.eqb_neq; lia).
        cbn. destruct (is_some (shown out)); cbn; (split; [split; [lia |] | lia]); intros res E; [injection E as <-; done | done].
  - destruct f; cbn; try by (split; [split |]).
    destruct D as (_ & _ & res & E & S & _). apply shown_number in S as ->. pose proof (U _ E) as V.
    unfold low. cbn. rewrite E. split; [split; [done | done] | lia].
Qed.

Lemma orderly_ascending id tr : forall v, sequenced v -> orderly (sees id) v tr -> honest tr -> StronglySorted Z.lt (low v :: written tr).
Proof.
  induction tr as [| e tr IH]; intros v V O H; [repeat constructor |]. destruct O as [D O].
  assert (H1 : honest [e]) by (intros c i a out X%list_elem_of_singleton; apply (H c i a out); rewrite X; by left).
  assert (H2 : honest tr) by (intros c i a out X; apply (H c i a out); by right).
  destruct (sees_sequenced id v e V D H1) as [V' L]. specialize (IH _ V' O H2). unfold written. cbn [omap list_omap]. fold (written tr).
  destruct (number e) as [n |]; [destruct L as [L E]; rewrite E in IH; by apply sorted_push | by apply (sorted_lower _ _ _ L)].
Qed.

Lemma parse_digits_nonneg l : forall n m, 0 <= n -> parse_digits l n = Some m -> 0 <= m.
Proof.
  induction l as [| c l IH]; intros n m N E; cbn [parse_digits] in E.
  { destruct (n <? two64); [by injection E as <- | done]. }
  destruct (Json.isDigit c) eqn:Dg; [| done]. unfold Json.isDigit in Dg. eapply IH; [| exact E]. lia.
Qed.

Lemma cursor_nonneg r n : cursor r = Some n -> 0 <= n.
Proof.
  unfold cursor, parseEventSequence, ParseUint63. destruct (Values r "Last-Event-Id") as [| v [| ? ?]]; [intros E; by injection E as <- | | done].
  destruct (v == ""); [done |]. destruct (parse_digits (to_bytes v) 0) as [m |] eqn:P; [| done]. destruct (m <=? max_int64); [| done].
  destruct (_ == _); [| done]. intros E; injection E as <-. by apply (parse_digits_nonneg (to_bytes v) 0).
Qed.

(** C31: A stream of events, in every run.  The caller is authenticated again right before
    every read, which is for that caller, this log and the cursor of the last event; an event
    that was read is written before the next read, once and as it was read; once a read has
    failed nothing is written but the announcement of the end, and nothing at all after that;
    nothing is written before the stream has been acquired nor after it has been released, and
    a stream that has ended has been released.  When the reads are those of a reader of events,
    the numbers that are written go up strictly, from the cursor the client sent. *)
Theorem sse_stream_follows SplitHost authenticates reads fuel w r method remote id n tr x
  (I : ParseID (PathValue r) = Ok id) (C : cursor r = Some n)
  (R : runs (eventStream SplitHost authenticates reads fuel w r method remote) tr x) :
  orderly (sees id) (watching n) tr
  /\ (is_Some x -> v_open (after (sees id) (watching n) tr) = false)
  /\ (honest tr -> StronglySorted Z.lt (n :: written tr)).
Proof.
  destruct (eventStream_follows _ _ _ _ _ _ _ _ _ _ I C _ _ R) as [O E]. split_and!; [done | done |].
  intros H. apply (orderly_ascending id tr (watching n)); [split; [by apply (cursor_nonneg r) | done] | done | done].
Qed.

(** ** Witnesses *)

Definition ex_stream : Stream := mkStream id1 (id1 +:+ "/p") "10.0.0.1".

Definition ex_open : streamLimits := mkLimits 1 {[id1 := 1]} {[(id1 +:+ "/p") := 1]} {["10.0.0.1" := 1]}.

Lemma ex_acquired : streams ex_open [ex_stream].
Proof. apply (st_acquire no_streams [] ex_stream); [apply st_none |]. vm_compute. reflexivity. Qed.

Lemma stream_limits_exact_witness : total ex_open = 1 /\ forall k, tally s_ip [ex_stream] k <= 16.
Proof.
  destruct (stream_limits_exact ex_open [ex_stream] ex_acquired) as (T & _ & _ & _ & _ & _ & _ & B & _). split; [exact T | exact B].
Defined.

(** A stream that shows the second event of the log to a client that has seen the first,
    and ends at the gap after it. *)
Definition ex_stream_request : Request :=
  mkRequest ("/v1/sessions/" +:+ id3 +:+ "/events") ("/v1/sessions/" +:+ id3 +:+ "/events") "" id3
    [("Last-Event-Id", ["1"]); ("X-Request-Id", ["req-1"])] 0 (mkBody "" false).

Definition ex_stream_answer (B : Type) (c : eport B) : B :=
  match c in eport B return B with
  | EAuth => Some ex_ecaller
  | EAcquire _ _ _ => true
  | ERead c i a => snd (execute ex_sport (next c i a false))
  | EDeadline => true
  | EWrite _ => true
  | ECtxDone => false
  | EPoll => true
  | ELate => false
  | ERelease => tt
  end.

Definition ex_streaming : prog eport (option Ended) :=
  eventStream (fun _ => Some "10.0.0.1") true true 5 (mkWriter [] (Path ex_stream_request) "req-1") ex_stream_request "GET" "10.0.0.1:4000".

Lemma ex_streamed : snd (execute ex_stream_answer ex_streaming) = Some Closed
  /\ written (fst (execute ex_stream_answer ex_streaming)) = [2]
  /\ exists before, fst (execute ex_stream_answer ex_streaming) = before ++ [occurred (EWrite (SseEnd "replay-gap")) true; occurred ERelease tt].
Proof.
  split_and!; [vm_compute; reflexivity | vm_compute; reflexivity |].
  exists (take (length (fst (execute ex_stream_answer ex_streaming)) - 2) (fst (execute ex_stream_answer ex_streaming))). vm_compute. reflexivity.
Qed.

(** The read of an event, if that is what it is. *)
Definition read_of (e : event eport) : option (Caller * ID * Z * (Result * option StreamError)) :=
  match projT2 e with (c, a) => match c in eport B return B -> _ with ERead c i n => fun x => Some (c, i, n, x) | _ => fun _ => None end a end.

Lemma answers_honest {A} (p : prog eport A) : honest (fst (execute ex_stream_answer p)).
Proof.
  induction p as [a | B c k IH]; cbn [execute]; [by intros ? ? ? ? X%elem_of_nil |].
  specialize (IH (ex_stream_answer B c)). destruct (execute ex_stream_answer (k _)) as [tr a] eqn:E. cbn [fst] in *.
  intros c' i a' out X. apply elem_of_cons in X as [X | X]; [| by apply (IH c' i a' out)].
  exists false, (fst (execute ex_sport (next c' i a' false))). apply (f_equal read_of) in X.
  destruct c; try discriminate X. unfold read_of, occurred in X. cbn [projT2 ex_stream_answer] in X. injection X as -> -> -> ->. apply execute_runs.
Qed.

Lemma sse_stream_follows_witness :
  let r := execute ex_stream_answer ex_streaming in
  snd r = Some Closed /\ written (fst r) = [2]
  /\ orderly (sees id3) (watching 1) (fst r) /\ v_open (after (sees id3) (watching 1) (fst r)) = false
  /\ StronglySorted Z.lt (1 :: written (fst r)).
Proof.
  intros r. destruct ex_streamed as (S & W & _). split; [exact S |]. split; [exact W |].
  destruct (sse_stream_follows (fun _ => Some "10.0.0.1") true true 5 (mkWriter [] (Path ex_stream_request) "req-1") ex_stream_request "GET"
    "10.0.0.1:4000" id3 1 (fst r) (snd r) eq_refl eq_refl (execute_runs ex_stream_answer ex_streaming)) as (O & E & A).
  split; [exact O |]. split; [apply E; unfold r; rewrite S; eexists; reflexivity |]. apply A, (answers_honest ex_streaming).
Defined.
