(* ===== verification/WorkspaceStorage.v ===== *)
(** * Storage of workspaces: adapters/workspace/kubernetes and adapters/postgres/workspace_storage.go

    A Workspace is stored in two persistent volume claims.  The provider
    (kubernetes/provider.go) creates, observes and deletes them, the initializer
    (kubernetes/empty.go) proves that they are empty, and the journal
    (postgres/workspace_storage.go, [Operations] of ports/workspace) admits an operation,
    makes it durable and pins what was observed.  The journal calls the provider back while
    it holds the Workspace, so both are one program over the statements of the database and
    the calls of the Kubernetes API.

    The Kubernetes API types are the fields that the code names; comparisons of whole Pod
    specifications and their JSON are parameters, being code of that API's packages.

    [WorkspaceStorageSafety] has what holds of every run. *)

From Stdlib Require Import ZArith Bool Lia Ascii.
From stdpp Require Import base strings list.
From S2P Require Import Prelude Regex GoStd JsonDecoder JsonEncode JsonUnmarshal JsonStrict Primitives Sha256 Interaction.

(** ** ports/workspace *)

Inductive WorkspaceError : Type := ErrInvalid | ErrConflict | ErrIntegrity | ErrNotFound | ErrUnavailable | ErrUnsupported.

Record Operation : Type := mkOperation { OID : ID; ODigest : string }.

Record CreateRequest : Type := mkCreateRequest {
  TenantID : ID;
  SessionID : ID;
  WorkspaceID : ID;
  Op : Operation;
  StorageProfile : string;
  ConfigurationDigest : string;
  CapacityBytes : Z;
  StateCapacityBytes : Z;
  AccessMode : string;
  EncryptionRequired : bool
}.

(** [Command.Kind] *)
Inductive Kind : Type := Create | Get | Delete | Initialize.

Record EmptyProof : Type := mkProof {
  P_Workspace : string;
  P_State : string;
  P_Initializer : string;
  P_Spec : string
}.

#[export] Instance Operation_eq_dec : EqDecision Operation.
Proof. solve_decision. Defined.
#[export] Instance CreateRequest_eq_dec : EqDecision CreateRequest.
Proof. solve_decision. Defined.
#[export] Instance Kind_eq_dec : EqDecision Kind.
Proof. solve_decision. Defined.
#[export] Instance EmptyProof_eq_dec : EqDecision EmptyProof.
Proof. solve_decision. Defined.

Record Command : Type := mkCommand {
  kind : Kind;
  CTenant : ID;
  CWorkspace : ID;
  COperation : Operation;
  CCreate : CreateRequest
}.

Record Reservation : Type := mkReservation {
  Request : CreateRequest;
  WorkspaceReference : string;
  StateReference : string;
  InitializerReference : string;
  InitializerSpec : string;
  Proof_ : option EmptyProof;
  Ready : bool
}.

Record Handle : Type := mkHandle {
  H_Workspace : ID;
  H_Kind : string;
  H_WorkspaceReference : string;
  H_StateReference : string;
  H_State : string
}.

(** The JSON of these types, whose members have the names of the fields. *)
Definition request_json (r : CreateRequest) : jvalue :=
  JStruct [("TenantID", JString (TenantID r)); ("SessionID", JString (SessionID r)); ("WorkspaceID", JString (WorkspaceID r));
           ("Operation", JStruct [("ID", JString (OID (Op r))); ("Digest", JString (ODigest (Op r)))]);
           ("StorageProfile", JString (StorageProfile r)); ("ConfigurationDigest", JString (ConfigurationDigest r));
           ("CapacityBytes", int_json (CapacityBytes r)); ("StateCapacityBytes", int_json (StateCapacityBytes r));
           ("AccessMode", JString (AccessMode r)); ("EncryptionRequired", bool_json (EncryptionRequired r))].

Definition operation_fields : list (field Operation) :=
  [("ID", into_string (fun s o => mkOperation s (ODigest o))); ("Digest", into_string (fun s o => mkOperation (OID o) s))].

Definition request_fields : list (field CreateRequest) :=
  [ ("TenantID", into_string (fun s r => mkCreateRequest s (SessionID r) (WorkspaceID r) (Op r) (StorageProfile r) (ConfigurationDigest r) (CapacityBytes r) (StateCapacityBytes r) (AccessMode r) (EncryptionRequired r)));
    ("SessionID", into_string (fun s r => mkCreateRequest (TenantID r) s (WorkspaceID r) (Op r) (StorageProfile r) (ConfigurationDigest r) (CapacityBytes r) (StateCapacityBytes r) (AccessMode r) (EncryptionRequired r)));
    ("WorkspaceID", into_string (fun s r => mkCreateRequest (TenantID r) (SessionID r) s (Op r) (StorageProfile r) (ConfigurationDigest r) (CapacityBytes r) (StateCapacityBytes r) (AccessMode r) (EncryptionRequired r)));
    ("Operation", fun t r => option_map (fun o => mkCreateRequest (TenantID r) (SessionID r) (WorkspaceID r) o (StorageProfile r) (ConfigurationDigest r) (CapacityBytes r) (StateCapacityBytes r) (AccessMode r) (EncryptionRequired r)) (struct operation_fields t (Op r)));
    ("StorageProfile", into_string (fun s r => mkCreateRequest (TenantID r) (SessionID r) (WorkspaceID r) (Op r) s (ConfigurationDigest r) (CapacityBytes r) (StateCapacityBytes r) (AccessMode r) (EncryptionRequired r)));
    ("ConfigurationDigest", into_string (fun s r => mkCreateRequest (TenantID r) (SessionID r) (WorkspaceID r) (Op r) (StorageProfile r) s (CapacityBytes r) (StateCapacityBytes r) (AccessMode r) (EncryptionRequired r)));
    ("CapacityBytes", into_int (fun n r => mkCreateRequest (TenantID r) (SessionID r) (WorkspaceID r) (Op r) (StorageProfile r) (ConfigurationDigest r) n (StateCapacityBytes r) (AccessMode r) (EncryptionRequired r)));
    ("StateCapacityBytes", into_int (fun n r => mkCreateRequest (TenantID r) (SessionID r) (WorkspaceID r) (Op r) (StorageProfile r) (ConfigurationDigest r) (CapacityBytes r) n (AccessMode r) (EncryptionRequired r)));
    ("AccessMode", into_string (fun s r => mkCreateRequest (TenantID r) (SessionID r) (WorkspaceID r) (Op r) (StorageProfile r) (ConfigurationDigest r) (CapacityBytes r) (StateCapacityBytes r) s (EncryptionRequired r)));
    ("EncryptionRequired", fun t r => option_map (fun b => mkCreateRequest (TenantID r) (SessionID r) (WorkspaceID r) (Op r) (StorageProfile r) (ConfigurationDigest r) (CapacityBytes r) (StateCapacityBytes r) (AccessMode r) b) (as_bool t (EncryptionRequired r))) ].

Definition noRequest : CreateRequest := mkCreateRequest "" "" "" (mkOperation "" "") "" "" 0 0 "" false.

Definition decodeRequest (raw : string) : option CreateRequest := Unmarshal request_fields raw noRequest.

Definition proof_json (p : EmptyProof) : jvalue :=
  JStruct [("WorkspaceReference", JString (P_Workspace p)); ("StateReference", JString (P_State p));
           ("InitializerReference", JString (P_Initializer p)); ("SpecDigest", JString (P_Spec p))].

Definition proof_fields : list (field EmptyProof) :=
  [ ("WorkspaceReference", into_string (fun s p => mkProof s (P_State p) (P_Initializer p) (P_Spec p)));
    ("StateReference", into_string (fun s p => mkProof (P_Workspace p) s (P_Initializer p) (P_Spec p)));
    ("InitializerReference", into_string (fun s p => mkProof (P_Workspace p) (P_State p) s (P_Spec p)));
    ("SpecDigest", into_string (fun s p => mkProof (P_Workspace p) (P_State p) (P_Initializer p) s)) ].

Definition decodeProof (raw : string) : option EmptyProof := Unmarshal proof_fields raw (mkProof "" "" "" "").

(** [CreateDigest]: of the request without its digest. *)
Definition CreateDigest (r : CreateRequest) : string :=
  Digest (marshal (request_json (mkCreateRequest (TenantID r) (SessionID r) (WorkspaceID r) (mkOperation (OID (Op r)) "") (StorageProfile r)
    (ConfigurationDigest r) (CapacityBytes r) (StateCapacityBytes r) (AccessMode r) (EncryptionRequired r)))).

Definition DeleteDigest (tenant id : ID) (op : Operation) : string :=
  Digest ("[" +:+ marshal (JString "delete") +:+ "," +:+ marshal (JString tenant) +:+ "," +:+ marshal (JString id) +:+ "," +:+ marshal (JString (OID op)) +:+ "]").

Definition EmptyManifestDigest : string := Digest "[]".

(** ** The Kubernetes API *)

(** A persistent volume claim; whether its data sources, its selector and its attributes
    class are set. *)
Record Claim : Type := mkClaim {
  c_name : string;
  c_namespace : string;
  c_uid : string;
  c_version : string;
  c_annotations : list (string * string);
  c_owners : Z;
  c_deleting : bool;
  c_class : option string;
  c_mode : option string;
  c_access : list string;
  c_request : Z;
  c_source : bool;
  c_sourceref : bool;
  c_selector : bool;
  c_attributes : bool;
  c_volume : string;
  c_phase : string;
  c_capacity : Z
}.

Definition annotation (l : list (string * string)) (key : string) : string :=
  match List.find (fun kv => fst kv == key) l with Some kv => snd kv | None => "" end.

(** Security settings; [.._rest] is what else they contain. *)
Record PodSecurity : Type := mkPodSecurity {
  RunAsNonRoot : option bool;
  RunAsUser : option Z;
  RunAsGroup : option Z;
  FSGroup : option Z;
  Seccomp : option string;
  ps_rest : string
}.

Record ContainerSecurity : Type := mkContainerSecurity {
  Privileged : option bool;
  AllowPrivilegeEscalation : option bool;
  ReadOnlyRootFilesystem : option bool;
  Drop : list string;
  cs_rest : string
}.

Record Mount : Type := mkMount { m_name : string; m_path : string; m_rest : string }.
Record Volume : Type := mkVolume { v_name : string; v_claim : option string; v_rest : string }.

#[export] Instance PodSecurity_eq_dec : EqDecision PodSecurity.
Proof. solve_decision. Defined.
#[export] Instance ContainerSecurity_eq_dec : EqDecision ContainerSecurity.
Proof. solve_decision. Defined.
#[export] Instance Mount_eq_dec : EqDecision Mount.
Proof. solve_decision. Defined.
#[export] Instance Volume_eq_dec : EqDecision Volume.
Proof. solve_decision. Defined.

(** [ct_extra]: whether it has arguments, ports, probes, environment, devices or lifecycle
    hooks. *)
Record Container : Type := mkContainer {
  ct_name : string;
  ct_image : string;
  ct_pull : string;
  ct_command : list string;
  ct_security : option ContainerSecurity;
  ct_requests : list (string * string);
  ct_limits : list (string * string);
  ct_mounts : list Mount;
  ct_args : Z;
  ct_ports : Z;
  ct_env : Z;
  ct_envfrom : Z;
  ct_devices : Z;
  ct_liveness : bool;
  ct_readiness : bool;
  ct_startup : bool;
  ct_lifecycle : bool
}.

Record PodSpec : Type := mkPodSpec {
  sp_runtime_class : option string;
  sp_restart : string;
  sp_deadline : option Z;
  sp_automount : option bool;
  sp_links : option bool;
  sp_security : option PodSecurity;
  sp_containers : list Container;
  sp_init : Z;
  sp_ephemeral : Z;
  sp_volumes : list Volume;
  sp_host_network : bool;
  sp_host_pid : bool;
  sp_host_ipc : bool;
  sp_node : string
}.

(** The status of a container: its name, its exit code once terminated, its restarts. *)
Record ContainerStatus : Type := mkContainerStatus { cs_name : string; cs_exit : option Z; cs_restarts : Z }.

Record Pod : Type := mkPod {
  p_name : string;
  p_namespace : string;
  p_uid : string;
  p_version : string;
  p_annotations : list (string * string);
  p_owners : Z;
  p_deleting : bool;
  p_spec : PodSpec;
  p_phase : string;
  p_statuses : list ContainerStatus
}.

Inductive APIError : Type := IsNotFound | IsAlreadyExists | IsConflict | OtherError.

(** [storageError] *)
Definition storageError (e : APIError) : WorkspaceError :=
  match e with
  | IsNotFound => ErrNotFound
  | IsConflict | IsAlreadyExists => ErrConflict
  | OtherError => ErrUnavailable
  end.

(** ** Rows and statements *)

(** A row of [workspaces], as far as it is read. *)
Record WorkspaceRow : Type := mkWorkspaceRow {
  w_session : ID;
  w_state : string;
  w_provider : string;
  w_profile : string;
  w_config : string;
  w_capacity : Z;
  w_access : string;
  w_volume : string;
  w_encryption : string;
  w_create : ID;
  w_attached : bool;
  w_source : string
}.

(** A row of [workspace_storage_operations]. *)
Record OperationRow : Type := mkOperationRow {
  o_request : string;
  o_workspace : string;
  o_state : string;
  o_delete : option string;
  o_delete_digest : option string;
  o_initializer : string;
  o_spec : string;
  o_proof : string
}.

Inductive Column : Type := WorkspaceColumn | StateColumn | InitializerColumn | SpecColumn.

#[export] Instance Column_eq_dec : EqDecision Column.
Proof. solve_decision. Defined.

Inductive Tx : Type := Outer | Journal.

Inductive SqlError : Type := ErrNoRows | ErrSql.

(** A pod is created, read and deleted by name in the provider's namespace, and so is a
    claim; an object that does not convert to its type is [None].  [Encode]: whether a claim
    or a Pod converts to the API's representation. *)
Inductive port : Type -> Type :=
| BeginTx (t : Tx) : port bool
| SetTenant (t : Tx) (tenant : ID) : port bool
| LockWorkspace (tenant id : ID) : port (result SqlError WorkspaceRow)
| CheckAccess (c : Command) : port bool
| LockOperation (tenant op : ID) : port bool
| OperationUsed (tenant op : ID) (k : Kind) (id : ID) : port (option bool)
| InsertOperation (tenant id op : ID) (raw : string) : port bool
| LoadOperation (tenant id : ID) : port (result SqlError OperationRow)
| SetDelete (tenant id op : ID) (digest : string) : port bool
| SetProof (tenant id : ID) (raw : string) : port bool
| SetReference (col : Column) (tenant id : ID) (ref : string) : port (option Z)
| InsertGeneration (r : CreateRequest) (root evidence evidence_digest : string) : port bool
| PublishReady (tenant id op : ID) : port bool
| Commit (t : Tx) : port bool
| Rollback (t : Tx) : port unit
| Qualify : port bool
| QualifyEmpty : port bool
| Encode : port bool
| GetClaim (name : string) : port (result APIError (option Claim))
| CreateClaim (c : Claim) : port (result APIError (option Claim))
| DeleteClaim (name uid version : string) : port (result APIError unit)
| GetPod (name : string) : port (result APIError (option Pod))
| CreatePod (p : Pod) : port (result APIError (option Pod))
| DeletePod (name uid version : string) : port (result APIError unit).

(** ** postgres/workspace_storage.go *)

(** An error before [storageDBError] maps it. *)
Inductive Failure : Type := Sql (e : SqlError) | Ws (e : WorkspaceError).

Definition storageDBError (f : Failure) : WorkspaceError :=
  match f with
  | Sql ErrNoRows => ErrNotFound
  | Sql ErrSql => ErrUnavailable
  | Ws e => e
  end.

(** [journal], a transaction of its own. *)
Definition journal {A} (tenant : ID) (fn : prog port (result Failure A)) : prog port (result WorkspaceError A) :=
  do! begun <- trigger (BeginTx Journal);
  if negb begun then Ret (Err ErrUnavailable)
  else
    do! r <- (do! set <- trigger (SetTenant Journal tenant);
              if negb set then Ret (Err ErrUnavailable)
              else
                do! r <- fn;
                match r with
                | Err e => Ret (Err (storageDBError e))
                | Ok a => do! ok <- trigger (Commit Journal); Ret (if negb (negb ok) then Ok a else Err ErrUnavailable)
                end);
    do! _ <- trigger (Rollback Journal);
    Ret r.

(** What [bind] keeps: the reservation as it is pinned, and whether to publish. *)
Record Pinned : Type := mkPinned { pinned : Reservation; publish : bool }.

Definition with_proof (p : EmptyProof) (s : Reservation) : Reservation :=
  mkReservation (Request s) (WorkspaceReference s) (StateReference s) (InitializerReference s) (InitializerSpec s) (Some p) (Ready s).
Definition with_initializer (ref : string) (s : Reservation) : Reservation :=
  mkReservation (Request s) (WorkspaceReference s) (StateReference s) ref (InitializerSpec s) (Proof_ s) (Ready s).
Definition with_spec (d : string) (s : Reservation) : Reservation :=
  mkReservation (Request s) (WorkspaceReference s) (StateReference s) (InitializerReference s) d (Proof_ s) (Ready s).

(** The column of a role. *)
Definition column (k : Kind) (role : string) : option Column :=
  if role == "state" then Some StateColumn
  else if (k == Initialize) && (role == "initializer") then Some InitializerColumn
  else if (k == Initialize) && (role == "initializer-spec") then Some SpecColumn
  else if role != "workspace" then None
  else Some WorkspaceColumn.

(** Whether a proof is that of the reservation. *)
Definition proves (s : Reservation) (p : EmptyProof) : bool :=
  negb ((P_Workspace p != WorkspaceReference s) || (P_State p != StateReference s) || (P_Initializer p != InitializerReference s)
        || (P_Spec p != InitializerSpec s) || (P_Initializer p == "") || (P_Spec p == "")).

(** The function that [Do] passes on. *)
Definition bind (cmd : Command) (st : Pinned) (role ref : string) : prog port (Pinned * option WorkspaceError) :=
  if (kind cmd == Initialize) && (role == "empty-ready") then
    if (ref != "ready") || negb (is_some (Proof_ (pinned st))) then Ret (st, Some ErrIntegrity)
    else Ret (mkPinned (pinned st) true, None)
  else if (kind cmd == Initialize) && (role == "empty-proof") then
    match (if 16384 <? len ref then None else decodeProof ref) with
    | None => Ret (st, Some ErrIntegrity)
    | Some p =>
        if negb (proves (pinned st) p) then Ret (st, Some ErrIntegrity)
        else
          do! r <- journal (CTenant cmd) (do! ok <- trigger (SetProof (CTenant cmd) (CWorkspace cmd) ref);
                                          Ret (if negb ok then Err (Sql ErrSql) else Ok tt));
          match r with
          | Err e => Ret (st, Some e)
          | Ok _ => Ret (mkPinned (with_proof p (pinned st)) (publish st), None)
          end
    end
  else if (ref == "") || (2048 <? len ref) then Ret (st, Some ErrInvalid)
  else match column (kind cmd) role with
  | None => Ret (st, Some ErrInvalid)
  | Some col =>
      do! r <- journal (CTenant cmd) (do! n <- trigger (SetReference col (CTenant cmd) (CWorkspace cmd) ref);
                                      Ret (match n with
                                           | None => Err (Sql ErrSql)
                                           | Some n => if n != 1 then Err (Ws ErrIntegrity) else Ok tt
                                           end));
      match r with
      | Err e => Ret (st, Some e)
      | Ok _ =>
          let s := pinned st in
          let s := if role == "initializer" then with_initializer ref s else s in
          let s := if role == "initializer-spec" then with_spec ref s else s in
          Ret (mkPinned s (publish st), None)
      end
  end.

(** The identifiers and digests of a command. *)
Definition command_ok (cmd : Command) : bool :=
  negb (negb (validID (CTenant cmd)) || negb (validID (CWorkspace cmd))
        || ((kind cmd != Get) && negb (validID (OID (COperation cmd))))
        || (((kind cmd == Create) || (kind cmd == Initialize))
            && ((TenantID (CCreate cmd) != CTenant cmd) || (WorkspaceID (CCreate cmd) != CWorkspace cmd)
                || (Op (CCreate cmd) != COperation cmd) || (CreateDigest (CCreate cmd) != ODigest (COperation cmd))))
        || ((kind cmd == Delete) && (DeleteDigest (CTenant cmd) (CWorkspace cmd) (COperation cmd) != ODigest (COperation cmd)))).

(** Whether the Workspace is in a state for the command. *)
Definition state_ok (cmd : Command) (w : WorkspaceRow) : bool :=
  negb (((kind cmd == Create) && (w_state w != "PROVISIONING"))
        || ((kind cmd == Delete) && ((w_state w != "DELETING") || w_attached w))
        || ((kind cmd == Initialize) && ((w_source w != "empty") || w_attached w || ((w_state w != "PROVISIONING") && (w_state w != "READY"))))).

(** Whether a request is the one that the Workspace was created for. *)
Definition created_for (r : CreateRequest) (w : WorkspaceRow) : bool :=
  negb ((SessionID r != w_session w) || (OID (Op r) != w_create w) || (StorageProfile r != w_profile w)
        || (ConfigurationDigest r != w_config w) || (CapacityBytes r != w_capacity w) || (AccessMode r != w_access w)
        || (w_volume w != "filesystem") || ((w_encryption w != "none") && negb (EncryptionRequired r))).

(** The reservation that a row holds. *)
Definition reservation (cmd : Command) (ready : bool) (o : OperationRow) : result WorkspaceError Reservation :=
  match decodeRequest (o_request o) with
  | None => Err ErrIntegrity
  | Some r =>
      if (TenantID r != CTenant cmd) || (WorkspaceID r != CWorkspace cmd) || (CreateDigest r != ODigest (Op r)) then Err ErrIntegrity
      else
        let saved := mkReservation r (o_workspace o) (o_state o) (o_initializer o) (o_spec o) in
        let proof := if 0 <? len (o_proof o) then option_map Some (decodeProof (o_proof o)) else Some None in
        match proof with
        | None => Err ErrIntegrity
        | Some p =>
            if ((kind cmd == Create) || (kind cmd == Initialize)) && ((r != CCreate cmd) || is_some (o_delete o)) then Err ErrConflict
            else if (kind cmd == Delete) && (o_spec o != "") && negb (is_some p) then Err ErrConflict
            else if (kind cmd == Delete) && is_some (o_delete o)
                    && ((default "" (o_delete o) != OID (COperation cmd)) || (default "" (o_delete_digest o) != ODigest (COperation cmd)))
            then Err ErrConflict
            else Ok (saved p ready)
        end
  end.

(** The transaction that reserves the operation. *)
Definition reserve (cmd : Command) (w : WorkspaceRow) : prog port (result Failure Reservation) :=
  do! free <- (if (kind cmd == Get) || (kind cmd == Initialize) then Ret None
               else
                 do! locked <- trigger (LockOperation (CTenant cmd) (OID (COperation cmd)));
                 if negb locked then Ret (Some (Sql ErrSql))
                 else
                   do! used <- trigger (OperationUsed (CTenant cmd) (OID (COperation cmd)) (kind cmd) (CWorkspace cmd));
                   Ret (match used with None => Some (Sql ErrSql) | Some true => Some (Ws ErrConflict) | Some false => None end));
  match free with
  | Some e => Ret (Err e)
  | None =>
      do! inserted <- (if kind cmd != Create then Ret None
                       else if negb (created_for (CCreate cmd) w) then Ret (Some (Ws ErrIntegrity))
                       else match Marshal (request_json (CCreate cmd)) with
                       | None => Ret (Some (Ws ErrInvalid))
                       | Some raw =>
                           do! ok <- trigger (InsertOperation (CTenant cmd) (CWorkspace cmd) (OID (COperation cmd)) raw);
                           Ret (if negb ok then Some (Sql ErrSql) else None)
                       end);
      match inserted with
      | Some e => Ret (Err e)
      | None =>
          do! row <- trigger (LoadOperation (CTenant cmd) (CWorkspace cmd));
          match row with
          | Err e => Ret (Err (Sql e))
          | Ok o =>
              match reservation cmd (w_state w == "READY") o with
              | Err e => Ret (Err (Ws e))
              | Ok saved =>
                  if kind cmd == Delete then
                    do! ok <- trigger (SetDelete (CTenant cmd) (CWorkspace cmd) (OID (COperation cmd)) (ODigest (COperation cmd)));
                    Ret (if negb ok then Err (Sql ErrSql) else Ok saved)
                  else Ret (Ok saved)
              end
          end
      end
  end.

(** [publishEmpty] *)
Definition publishEmpty (saved : Reservation) : prog port (option Failure) :=
  match Proof_ saved with
  | None => Ret (Some (Ws ErrIntegrity))
  | Some p =>
      if (P_Workspace p == "") || (P_State p == "") then Ret (Some (Ws ErrIntegrity))
      else
        let r := Request saved in
        let evidence := marshal (proof_json p) in
        do! ok <- trigger (InsertGeneration r EmptyManifestDigest evidence (Digest evidence));
        if negb ok then Ret (Some (Sql ErrSql))
        else
          do! ok <- trigger (PublishReady (TenantID r) (WorkspaceID r) (OID (Op r)));
          Ret (if negb ok then Some (Sql ErrSql) else None)
  end.

(** What [Do] calls back, with the reservation as it was saved. *)
Definition Work (R : Type) : Type := Reservation -> prog port (Pinned * result WorkspaceError R).

(** [Do] with the transaction that holds the Workspace. *)
Definition holding {R} (cmd : Command) (work : Work R) : prog port (result WorkspaceError R) :=
  do! set <- trigger (SetTenant Outer (CTenant cmd));
  if negb set then Ret (Err ErrUnavailable)
  else
    do! row <- trigger (LockWorkspace (CTenant cmd) (CWorkspace cmd));
    match row with
    | Err e => Ret (Err (storageDBError (Sql e)))
    | Ok w =>
        if w_provider w != "kubernetes" then Ret (Err ErrUnsupported)
        else if negb (state_ok cmd w) then Ret (Err ErrConflict)
        else
          do! allowed <- trigger (CheckAccess cmd);
          if negb allowed then Ret (Err ErrUnavailable)
          else
            do! saved <- journal (CTenant cmd) (reserve cmd w);
            match saved with
            | Err e => Ret (Err e)
            | Ok saved =>
                do! x <- work saved;
                match x with
                | (_, Err e) => Ret (Err e)
                | (st, Ok r) =>
                    if negb (publish st) || Ready (pinned st) then Ret (Ok r)
                    else
                      do! e <- publishEmpty (pinned st);
                      match e with
                      | Some e => Ret (Err (storageDBError e))
                      | None => do! ok <- trigger (Commit Outer); Ret (if negb (negb ok) then Ok r else Err ErrUnavailable)
                      end
                end
            end
    end.

Definition Do {R} (cmd : Command) (work : Work R) : prog port (result WorkspaceError R) :=
  if negb (command_ok cmd) then Ret (Err ErrInvalid)
  else
    do! begun <- trigger (BeginTx Outer);
    if negb begun then Ret (Err ErrUnavailable)
    else do! r <- holding cmd work; do! _ <- trigger (Rollback Outer); Ret r.

(** ** kubernetes/provider.go *)

Record StorageConfig : Type := mkStorageConfig {
  Namespace : string;
  StorageClass : string;
  ProfileName : string;
  ConfigDigest : string;
  SinglePodWriter : bool;
  Encrypted : bool
}.

Record EmptyConfig : Type := mkEmptyConfig { Image : string; RuntimeClass : string; UID : Z; GID : Z }.

Definition storageDigest : re := sha256_pattern.

(** [strings.Split(s, "/")] *)
Fixpoint split_slash (s : string) : list string :=
  match s with
  | "" => [""]
  | String c rest =>
      if Ascii.eqb c "/"%char then "" :: split_slash rest
      else match split_slash rest with p :: ps => String c p :: ps | [] => [String c ""] end
  end%string.

Inductive Role : Type := WorkspaceRole | StateRole.

Definition role_name (i : Role) : string := match i with WorkspaceRole => "workspace" | StateRole => "state" end.

Definition role_reference (i : Role) (s : Reservation) : string :=
  match i with WorkspaceRole => WorkspaceReference s | StateRole => StateReference s end.

Definition role_capacity (i : Role) (r : CreateRequest) : Z :=
  match i with WorkspaceRole => CapacityBytes r | StateRole => StateCapacityBytes r end.

Definition claim_name (i : Role) (r : CreateRequest) : string := "ar-" +:+ role_name i +:+ "-" +:+ WorkspaceID r.

Definition validStorageRequest (r : CreateRequest) : bool :=
  validID (TenantID r) && validID (SessionID r) && validID (WorkspaceID r) && validID (OID (Op r))
  && (0 <? CapacityBytes r) && (0 <? StateCapacityBytes r) && (StateCapacityBytes r <=? CapacityBytes r)
  && match_string storageDigest (ConfigurationDigest r) && (StorageProfile r != "")
  && ((AccessMode r == "single-writer") || (AccessMode r == "single-pod-writer")) && (ODigest (Op r) == CreateDigest r).

Section Provider.
Context (config : StorageConfig).

(** Whether this provider's storage is what a request asks for. *)
Definition supports (r : CreateRequest) : bool :=
  negb ((StorageProfile r != ProfileName config) || (ConfigurationDigest r != ConfigDigest config)
        || (EncryptionRequired r && negb (Encrypted config)) || ((AccessMode r == "single-pod-writer") && negb (SinglePodWriter config))).

Definition claim_annotations (r : CreateRequest) (i : Role) : list (string * string) :=
  [ ("thinkpixel.io/storage-owner", "ar"); ("thinkpixel.io/tenant", TenantID r); ("thinkpixel.io/session", SessionID r);
    ("thinkpixel.io/workspace", WorkspaceID r); ("thinkpixel.io/storage-role", role_name i);
    ("thinkpixel.io/create-operation", OID (Op r)); ("thinkpixel.io/create-digest", ODigest (Op r));
    ("thinkpixel.io/storage-config", ConfigurationDigest r) ].

Definition access_mode (r : CreateRequest) : string :=
  if AccessMode r == "single-pod-writer" then "ReadWriteOncePod" else "ReadWriteOnce".

(** [claim] *)
Definition claim (r : CreateRequest) (i : Role) : Claim :=
  mkClaim (claim_name i r) (Namespace config) "" "" (claim_annotations r i) 0 false (Some (StorageClass config)) (Some "Filesystem")
    [access_mode r] (role_capacity i r) false false false false "" "" 0.

(** [matches] *)
Definition matches (c : Claim) (r : CreateRequest) (i : Role) : bool :=
  negb ((c_name c != claim_name i r) || (c_namespace c != Namespace config) || (c_uid c == "") || negb (c_owners c =? 0)
        || (c_class c != Some (StorageClass config)) || (is_some (c_mode c) && (c_mode c != Some "Filesystem"))
        || (c_access c != [access_mode r]) || negb (c_request c =? role_capacity i r)
        || c_source c || c_sourceref c || c_selector c || c_attributes c)
  && forallb (fun kv => annotation (c_annotations c) (fst kv) == snd kv) (claim_annotations r i).

Definition observed (c : Claim) (i : Role) (r : CreateRequest) : string :=
  Namespace config +:+ "/" +:+ claim_name i r +:+ "/" +:+ c_uid c.

(** Whether a saved reference is one of this claim's name. *)
Definition reference_ok (ref : string) (i : Role) (r : CreateRequest) : bool :=
  match split_slash ref with
  | [ns; name; uid] => negb ((ns != Namespace config) || (name != claim_name i r) || (uid == ""))
  | _ => false
  end.

(** What is found under a claim's name. *)
Inductive Found : Type :=
| Skip
| Refuse (e : WorkspaceError)
| Object (c : option Claim).

Definition answer (a : result APIError (option Claim)) : Found :=
  match a with Ok c => Object c | Err e => Refuse (storageError e) end.

(** The object is read, or created when it may be. *)
Definition find_claim (cmd : Command) (r : CreateRequest) (i : Role) (ref : string) : prog port Found :=
  do! got <- trigger (GetClaim (claim_name i r));
  match got with
  | Err IsNotFound =>
      if (kind cmd == Create) && (ref == "") then
        do! ok <- trigger Encode;
        if negb ok then Ret (Refuse ErrInvalid)
        else
          do! made <- trigger (CreateClaim (claim r i));
          match made with
          | Err IsAlreadyExists => do! got <- trigger (GetClaim (claim_name i r)); Ret (answer got)
          | _ => Ret (answer made)
          end
      else if kind cmd == Delete then Ret Skip
      else Ret (Refuse ErrNotFound)
  | _ => Ret (answer got)
  end.

Definition with_state (s : string) (h : Handle) : Handle :=
  mkHandle (H_Workspace h) (H_Kind h) (H_WorkspaceReference h) (H_StateReference h) s.

Definition with_reference (i : Role) (ref : string) (h : Handle) : Handle :=
  match i with
  | WorkspaceRole => mkHandle (H_Workspace h) (H_Kind h) ref (H_StateReference h) (H_State h)
  | StateRole => mkHandle (H_Workspace h) (H_Kind h) (H_WorkspaceReference h) ref (H_State h)
  end.

(** What a command does with the claim that it found. *)
Definition conclude (cmd : Command) (r : CreateRequest) (i : Role) (c : Claim) (h : Handle) : prog port (result WorkspaceError Handle) :=
  if kind cmd == Delete then
    let h := with_state "DELETING" h in
    if c_deleting c then Ret (Ok h)
    else if c_version c == "" then Ret (Err ErrIntegrity)
    else
      do! gone <- trigger (DeleteClaim (claim_name i r) (c_uid c) (c_version c));
      match gone with
      | Ok _ | Err IsNotFound => Ret (Ok h)
      | Err e => Ret (Err (storageError e))
      end
  else if c_deleting c || (c_phase c == "Lost") then Ret (Err ErrConflict)
  else if c_phase c != "Bound" then Ret (Ok (with_state "PENDING" h))
  else if (c_volume c == "") || negb (c_capacity c =? role_capacity i r) then Ret (Err ErrIntegrity)
  else Ret (Ok h).

(** The body of the loop over the two claims. *)
Definition claim_step (cmd : Command) (saved : Reservation) (i : Role) (st : Pinned) (h : Handle)
  : prog port (Pinned * result WorkspaceError Handle) :=
  let r := Request saved in
  let ref := role_reference i saved in
  if (ref != "") && negb (reference_ok ref i r) then Ret (st, Err ErrIntegrity)
  else
    do! found <- find_claim cmd r i ref;
    match found with
    | Skip => Ret (st, Ok h)
    | Refuse e => Ret (st, Err e)
    | Object None => Ret (st, Err ErrIntegrity)
    | Object (Some c) =>
        if negb (matches c r i) then Ret (st, Err ErrIntegrity)
        else if (ref != "") && (observed c i r != ref) then Ret (st, Err ErrIntegrity)
        else
          do! b <- (if ref == "" then bind cmd st (role_name i) (observed c i r) else Ret (st, None));
          match b with
          | (st, Some e) => Ret (st, Err e)
          | (st, None) => do! h <- conclude cmd r i c (with_reference i (observed c i r) h); Ret (st, h)
          end
    end.

(** The function that [run] hands to [Do]. *)
Definition provide (cmd : Command) : Work Handle := fun saved =>
  let r := Request saved in
  let st := mkPinned saved false in
  if negb (validStorageRequest r) || (TenantID r != CTenant cmd) || (WorkspaceID r != CWorkspace cmd)
     || ((kind cmd == Create) && (r != CCreate cmd)) then Ret (st, Err ErrIntegrity)
  else if negb (supports r) then Ret (st, Err ErrUnsupported)
  else
    do! ok <- trigger Qualify;
    if negb ok then Ret (st, Err ErrUnsupported)
    else
      do! x <- claim_step cmd saved WorkspaceRole st (mkHandle (WorkspaceID r) "kubernetes" "" "" "BOUND");
      match x with
      | (st, Err e) => Ret (st, Err e)
      | (st, Ok h) =>
          do! x <- claim_step cmd saved StateRole st h;
          match x with
          | (st, Err e) => Ret (st, Err e)
          | (st, Ok h) => Ret (st, Ok (if (kind cmd == Delete) && (H_State h == "BOUND") then with_state "ABSENT" h else h))
          end
      end.

Definition run (cmd : Command) : prog port (result WorkspaceError Handle) :=
  if negb (validID (CTenant cmd)) || negb (validID (CWorkspace cmd)) then Ret (Err ErrInvalid) else Do cmd (provide cmd).

(** [Create], [Get] and [Delete] *)
Definition CreateStorage (r : CreateRequest) : prog port (result WorkspaceError Handle) :=
  if negb (validStorageRequest r) then Ret (Err ErrInvalid) else run (mkCommand Create (TenantID r) (WorkspaceID r) (Op r) r).

Definition GetStorage (tenant id : ID) : prog port (result WorkspaceError Handle) :=
  run (mkCommand Get tenant id (mkOperation "" "") noRequest).

Definition DeleteStorage (tenant id : ID) (op : Operation) : prog port (result WorkspaceError Handle) :=
  if negb (validID (OID op)) || (ODigest op != DeleteDigest tenant id op) then Ret (Err ErrInvalid)
  else run (mkCommand Delete tenant id op noRequest).

(** ** kubernetes/empty.go *)

Section Initializer.
Context (empty : EmptyConfig).
(** [json.Marshal] and [equality.Semantic.DeepDerivative] on the API's Pod specifications. *)
Variable marshalSpec : PodSpec -> string.
Variable DeepDerivative : PodSpec -> PodSpec -> bool.

(** The command, with [#] for a quotation mark. *)
Definition init_script : string :=
  of_bytes (map (fun b => if b =? 35 then 34 else b) (to_bytes
    "for dir in /workspace /state; do test -d #$dir# && test -w #$dir#; entries=#$(find #$dir# -mindepth 1 -maxdepth 1 -print -quit)# || exit 1; test -z #$entries#; done; sync")).

Definition init_spec (workspace_claim state_claim : string) : PodSpec :=
  mkPodSpec (Some (RuntimeClass empty)) "Never" (Some 300) (Some false) (Some false)
    (Some (mkPodSecurity (Some true) (Some (UID empty)) (Some (GID empty)) (Some (GID empty)) (Some "RuntimeDefault") ""))
    [mkContainer "initialize" (Image empty) "IfNotPresent" ["/bin/sh"; "-ec"; init_script]
       (Some (mkContainerSecurity None (Some false) (Some true) ["ALL"] ""))
       [("cpu", "10m"); ("memory", "16Mi")] [("cpu", "100m"); ("memory", "32Mi")]
       [mkMount "workspace" "/workspace" ""; mkMount "state" "/state" ""] 0 0 0 0 0 false false false false]
    0 0 [mkVolume "workspace" (Some workspace_claim) ""; mkVolume "state" (Some state_claim) ""] false false false "".

(** [pod], with the digest of its specification. *)
Definition init_pod (r : CreateRequest) (digest : string) : Pod :=
  mkPod ("ar-init-" +:+ WorkspaceID r) (Namespace config) "" ""
    [("thinkpixel.io/workspace", WorkspaceID r); ("thinkpixel.io/create-digest", ODigest (Op r)); ("thinkpixel.io/initializer-spec", digest)]
    0 false (init_spec (claim_name WorkspaceRole r) (claim_name StateRole r)) "" [].

Definition length_is {A} (l : list A) (n : Z) : bool := Z.of_nat (length l) =? n.

Definition init_container (c : Container) (want : Container) : bool :=
  (ct_security c == ct_security want) && is_some (ct_security c) && (ct_args c =? 0) && (ct_ports c =? 0)
  && negb (ct_liveness c) && negb (ct_readiness c) && negb (ct_startup c) && (ct_mounts c == ct_mounts want)
  && (ct_env c =? 0) && (ct_envfrom c =? 0) && length_is (ct_mounts c) 2 && (ct_devices c =? 0) && negb (ct_lifecycle c)
  && negb (match ct_security c with Some s => bool_decide (Privileged s = Some true) | None => false end).

(** [matchesEmptyPod] *)
Definition matchesEmptyPod (want got : Pod) : bool :=
  let s := p_spec got in
  negb ((p_name got != p_name want) || (p_namespace got != p_namespace want) || (p_uid got == "") || negb (p_owners got =? 0)
        || negb (length_is (sp_containers s) 1) || negb (sp_init s =? 0) || negb (sp_ephemeral s =? 0) || negb (length_is (sp_volumes s) 2)
        || sp_host_network s || sp_host_pid s || sp_host_ipc s)
  && forallb (fun kv => annotation (p_annotations got) (fst kv) == snd kv) (p_annotations want)
  && (sp_security (p_spec want) == sp_security s) && (sp_volumes (p_spec want) == sp_volumes s)
  && match sp_containers s, sp_containers (p_spec want) with
     | c :: _, w :: _ => init_container c w
     | _, _ => false
     end
  && DeepDerivative (p_spec want) s.

(** One claim of an initialization: whether it is bound. *)
Definition initial_claim (saved : Reservation) (i : Role) : prog port (result WorkspaceError bool) :=
  let r := Request saved in
  do! got <- trigger (GetClaim (claim_name i r));
  match got with
  | Err e => Ret (Err (storageError e))
  | Ok None => Ret (Err ErrIntegrity)
  | Ok (Some c) =>
      if negb (matches c r i) || (role_reference i saved != observed c i r) || c_deleting c || (c_phase c == "Lost") then Ret (Err ErrIntegrity)
      else if c_phase c != "Bound" then Ret (Ok false)
      else if (c_volume c == "") || negb (c_capacity c =? role_capacity i r) then Ret (Err ErrIntegrity)
      else Ret (Ok true)
  end.

Definition initialized (c : ContainerStatus) : bool :=
  negb ((cs_name c != "initialize") || (cs_exit c != Some 0) || negb (cs_restarts c =? 0)).

(** Once the Pod is gone: the proof that is saved must be this one's. *)
Definition absent_pod (cmd : Command) (saved : Reservation) (bound : bool) (digest : string) (p : EmptyProof) (st : Pinned)
  : prog port (Pinned * result WorkspaceError bool) :=
  if (P_Initializer p != InitializerReference saved) || (P_Spec p != digest) || (P_Workspace p != WorkspaceReference saved)
     || (P_State p != StateReference saved) || negb bound then Ret (st, Err ErrIntegrity)
  else
    do! b <- bind cmd st "empty-ready" "ready";
    match b with
    | (st, Some e) => Ret (st, Err e)
    | (st, None) => Ret (st, Ok true)
    end.

(** The Pod has succeeded: its proof is pinned. *)
Definition prove_empty (cmd : Command) (saved : Reservation) (bound : bool) (digest ref : string) (pod : Pod) (st : Pinned)
  : prog port (Pinned * option WorkspaceError) :=
  if negb bound || (sp_node (p_spec pod) == "") || negb (length_is (p_statuses pod) 1) then Ret (st, Some ErrIntegrity)
  else if negb (forallb initialized (p_statuses pod)) then Ret (st, Some ErrIntegrity)
  else bind cmd st "empty-proof" (marshal (proof_json (mkProof (WorkspaceReference saved) (StateReference saved) ref digest))).

(** The compute of an initialization that succeeded is removed. *)
Definition remove_pod (pod : Pod) (st : Pinned) : prog port (Pinned * result WorkspaceError bool) :=
  if p_deleting pod then Ret (st, Ok false)
  else if p_version pod == "" then Ret (st, Err ErrIntegrity)
  else
    do! gone <- trigger (DeletePod (p_name pod) (p_uid pod) (p_version pod));
    match gone with
    | Ok _ | Err IsNotFound => Ret (st, Ok false)
    | Err e => Ret (st, Err (storageError e))
    end.

(** The Pod that was read or created. *)
Definition present_pod (cmd : Command) (saved : Reservation) (bound : bool) (digest : string) (pod : option Pod) (st : Pinned)
  : prog port (Pinned * result WorkspaceError bool) :=
  match pod with
  | None => Ret (st, Err ErrIntegrity)
  | Some pod =>
      if negb (matchesEmptyPod (init_pod (Request saved) digest) pod) then Ret (st, Err ErrIntegrity)
      else
        let ref := p_namespace pod +:+ "/" +:+ p_name pod +:+ "/" +:+ p_uid pod in
        if (InitializerReference saved != "") && (InitializerReference saved != ref) then Ret (st, Err ErrIntegrity)
        else
          do! b <- (if InitializerReference saved == "" then bind cmd st "initializer" ref else Ret (st, None));
          match b with
          | (st, Some e) => Ret (st, Err e)
          | (st, None) =>
              if p_phase pod == "Failed" then Ret (st, Err ErrIntegrity)
              else if is_some (Proof_ saved) then remove_pod pod st
              else if p_deleting pod then Ret (st, Err ErrConflict)
              else if p_phase pod != "Succeeded" then Ret (st, Ok false)
              else
                do! b <- prove_empty cmd saved bound digest ref pod st;
                match b with
                | (st, Some e) => Ret (st, Err e)
                | (st, None) => remove_pod pod st
                end
          end
  end.

(** The Pod is read, or created when there is neither a proof nor an earlier Pod. *)
Definition initializer_pod (cmd : Command) (saved : Reservation) (bound : bool) (digest : string) (st : Pinned)
  : prog port (Pinned * result WorkspaceError bool) :=
  let want := init_pod (Request saved) digest in
  do! got <- trigger (GetPod (p_name want));
  match got with
  | Err IsNotFound =>
      match Proof_ saved with
      | Some p => absent_pod cmd saved bound digest p st
      | None =>
          if InitializerReference saved != "" then Ret (st, Err ErrIntegrity)
          else
            do! ok <- trigger Encode;
            if negb ok then Ret (st, Err ErrInvalid)
            else
              do! made <- trigger (CreatePod want);
              do! made <- (match made with
                           | Err IsAlreadyExists => trigger (GetPod (p_name want))
                           | _ => Ret made
                           end);
              match made with
              | Err e => Ret (st, Err (storageError e))
              | Ok pod => present_pod cmd saved bound digest pod st
              end
      end
  | Err e => Ret (st, Err (storageError e))
  | Ok pod => present_pod cmd saved bound digest pod st
  end.

Definition initialize (cmd : Command) : Work bool := fun saved =>
  let r := Request saved in
  let st := mkPinned saved false in
  if (r != CCreate cmd) || (WorkspaceReference saved == "") || (StateReference saved == "") then Ret (st, Err ErrIntegrity)
  else if Ready saved then Ret (st, Ok true)
  else
    do! ok <- trigger Qualify;
    do! ok <- (if negb ok then Ret false else trigger QualifyEmpty);
    if negb ok || negb (supports r) then Ret (st, Err ErrUnsupported)
    else
      do! a <- initial_claim saved WorkspaceRole;
      match a with
      | Err e => Ret (st, Err e)
      | Ok a =>
          do! b <- initial_claim saved StateRole;
          match b with
          | Err e => Ret (st, Err e)
          | Ok b =>
              let digest := Digest (marshalSpec (init_spec (claim_name WorkspaceRole r) (claim_name StateRole r))) in
              if (InitializerSpec saved != "") && (InitializerSpec saved != digest) then Ret (st, Err ErrConflict)
              else
                do! x <- (if InitializerSpec saved == "" then bind cmd st "initializer-spec" digest else Ret (st, None));
                match x with
                | (st, Some e) => Ret (st, Err e)
                | (st, None) => initializer_pod cmd saved (a && b) digest st
                end
          end
      end.

(** [InitializeEmpty] *)
Definition InitializeEmpty (r : CreateRequest) : prog port (result WorkspaceError bool) :=
  if negb (validStorageRequest r) then Ret (Err ErrInvalid)
  else let cmd := mkCommand Initialize (TenantID r) (WorkspaceID r) (Op r) r in Do cmd (initialize cmd).
End Initializer.
End Provider.
