(* ===== verification/WorkspaceStorageSafety.v ===== *)
(** * What holds of every run of an operation on a Workspace's storage

    An observer of the statements and API calls of [WorkspaceStorage] knows what has been
    committed and what was last seen of every object.  It demands durable intent before every
    external mutation: a claim or Pod is created only under a committed reservation of exactly
    this request, while its name is free and nothing has been pinned for it; an object is
    deleted only under a committed deletion (or proof), as the object that was verified and
    pinned, by its identity and version; what is pinned is what was seen and verified; and a
    Workspace is published only on a committed proof, with the initializer gone. *)

From Stdlib Require Import ZArith Bool Lia.
From stdpp Require Import base strings list sets.
From S2P Require Import Prelude Regex GoStd JsonDecoder JsonEncode JsonUnmarshal JsonStrict Primitives Sha256 Interaction Observer.
From S2P Require Import WorkspaceStorage.

(** What a committed transaction has made durable. *)
Inductive Fact : Type :=
| Requested (r : CreateRequest)
| Deleted (op : ID) (digest : string)
| Pins (col : Column) (ref : string)
| Proven (p : EmptyProof)
| Generated (evidence : string)
| Published.

Definition sight {A} (a : result APIError (option A)) : Sight A :=
  match a with Ok (Some x) => Present x | Err IsNotFound => Absent | _ => Unseen end.

Record View : Type := mkView {
  v_row : option WorkspaceRow;
  v_locked : bool;
  v_qualified : bool;
  v_initializer : bool;
  v_pending : list Fact;
  v_outer : list Fact;
  v_durable : list Fact;
  v_claims : string -> Sight Claim;
  v_pod : Sight Pod
}.

Definition start : View := mkView None false false false [] [] [] (fun _ => Unseen) Unseen.

(** The facts of a row. *)
Definition pin (col : Column) (ref : string) : list Fact := if ref == "" then [] else [Pins col ref].

Definition facts (o : OperationRow) : list Fact :=
  (match decodeRequest (o_request o) with Some r => [Requested r] | None => [] end)
  ++ pin WorkspaceColumn (o_workspace o) ++ pin StateColumn (o_state o) ++ pin InitializerColumn (o_initializer o) ++ pin SpecColumn (o_spec o)
  ++ (match (if 0 <? len (o_proof o) then decodeProof (o_proof o) else None) with Some p => [Proven p] | None => [] end).

Definition with_lock (w : option WorkspaceRow) (b : bool) (v : View) : View :=
  mkView w b (v_qualified v) (v_initializer v) (v_pending v) (v_outer v) (v_durable v) (v_claims v) (v_pod v).
Definition pend (fs : list Fact) (v : View) : View :=
  mkView (v_row v) (v_locked v) (v_qualified v) (v_initializer v) fs (v_outer v) (v_durable v) (v_claims v) (v_pod v).
Definition outer (fs : list Fact) (v : View) : View :=
  mkView (v_row v) (v_locked v) (v_qualified v) (v_initializer v) (v_pending v) fs (v_durable v) (v_claims v) (v_pod v).
Definition add (fs : list Fact) (v : View) : View :=
  mkView (v_row v) (v_locked v) (v_qualified v) (v_initializer v) (v_pending v) (v_outer v) (v_durable v ++ fs) (v_claims v) (v_pod v).
Definition qualify (b : bool) (v : View) : View :=
  mkView (v_row v) (v_locked v) b (v_initializer v) (v_pending v) (v_outer v) (v_durable v) (v_claims v) (v_pod v).
Definition qualify_empty (b : bool) (v : View) : View :=
  mkView (v_row v) (v_locked v) (v_qualified v) b (v_pending v) (v_outer v) (v_durable v) (v_claims v) (v_pod v).
Definition see_claim (name : string) (s : Sight Claim) (v : View) : View :=
  mkView (v_row v) (v_locked v) (v_qualified v) (v_initializer v) (v_pending v) (v_outer v) (v_durable v)
    (fun n => if n == name then s else v_claims v n) (v_pod v).
Definition see_pod (s : Sight Pod) (v : View) : View :=
  mkView (v_row v) (v_locked v) (v_qualified v) (v_initializer v) (v_pending v) (v_outer v) (v_durable v) (v_claims v) s.

Definition role_column (i : Role) : Column := match i with WorkspaceRole => WorkspaceColumn | StateRole => StateColumn end.

Section Safety.
Context (config : StorageConfig) (empty : EmptyConfig).
Variable marshalSpec : PodSpec -> string.
Variable DeepDerivative : PodSpec -> PodSpec -> bool.
Variable cmd : Command.

Abbreviation spec_digest r := (Digest (marshalSpec (init_spec empty (claim_name WorkspaceRole r) (claim_name StateRole r)))).
Abbreviation initializer r := (init_pod config empty r (spec_digest r)).
Abbreviation initializer_matches r := (matchesEmptyPod DeepDerivative (initializer r)).

Definition pod_reference (p : Pod) : string := p_namespace p +:+ "/" +:+ p_name p +:+ "/" +:+ p_uid p.

(** The claim of a role as it was last seen: this request's, and not another's. *)
Definition verified (v : View) (r : CreateRequest) (i : Role) (c : Claim) : Prop :=
  v_claims v (claim_name i r) = Present c /\ matches config c r i = true.

(** The reservation under which an external object may be touched. *)
Definition admitted (v : View) (k : Kind) (r : CreateRequest) : Prop :=
  kind cmd = k /\ v_locked v = true /\ (exists w, v_row v = Some w /\ state_ok cmd w = true) /\ v_qualified v = true
  /\ Requested r ∈ v_durable v /\ TenantID r = CTenant cmd /\ WorkspaceID r = CWorkspace cmd /\ supports config r = true.

Definition unpinned (v : View) (col : Column) : Prop := forall ref, Pins col ref ∉ v_durable v.

Definition sees (v : View) (e : event port) : Prop * View :=
  match projT2 e with
  | (c, a) =>
      match c in port B return B -> Prop * View with
      | LockWorkspace _ _ => fun a => (True, match a with Ok w => with_lock (Some w) true v | Err _ => v end)
      | BeginTx Journal => fun _ => (True, pend [] v)
      | BeginTx Outer => fun _ => (True, outer [] v)
      | LoadOperation _ _ => fun a => (True, match a with Ok o => pend (v_pending v ++ facts o) v | Err _ => v end)
      | InsertOperation _ _ _ raw => fun _ =>
          (v_locked v = true /\ kind cmd = Create /\ Marshal (request_json (CCreate cmd)) = Some raw, v)
      | SetDelete _ _ op digest => fun ok =>
          (v_locked v = true /\ kind cmd = Delete, if ok then pend (v_pending v ++ [Deleted op digest]) v else v)
      | SetProof _ _ raw => fun ok =>
          (exists r p pod, admitted v Initialize r /\ decodeProof raw = Some p /\ v_pod v = Present pod /\ initializer_matches r pod = true
             /\ p_phase pod = "Succeeded" /\ Pins InitializerColumn (pod_reference pod) ∈ v_durable v
             /\ P_Initializer p = pod_reference pod /\ P_Spec p = spec_digest r /\ Pins SpecColumn (spec_digest r) ∈ v_durable v
             /\ (forall i, exists c, verified v r i c /\ c_phase c = "Bound" /\ Pins (role_column i) (observed config c i r) ∈ v_durable v)
             /\ Pins WorkspaceColumn (P_Workspace p) ∈ v_durable v /\ Pins StateColumn (P_State p) ∈ v_durable v,
           match decodeProof raw with Some p => if ok then pend (v_pending v ++ [Proven p]) v else v | None => v end)
      | SetReference col _ _ ref => fun n =>
          (match col with
           | WorkspaceColumn => exists r c, admitted v (kind cmd) r /\ verified v r WorkspaceRole c /\ ref = observed config c WorkspaceRole r
           | StateColumn => exists r c, admitted v (kind cmd) r /\ verified v r StateRole c /\ ref = observed config c StateRole r
           | SpecColumn => exists r, admitted v Initialize r /\ ref = spec_digest r
           | InitializerColumn => exists r pod, admitted v Initialize r /\ v_pod v = Present pod /\ initializer_matches r pod = true /\ ref = pod_reference pod
           end,
           match n with Some n => if n =? 1 then pend (v_pending v ++ [Pins col ref]) v else v | None => v end)
      | Commit Journal => fun ok => (True, if ok then pend [] (add (v_pending v) v) else v)
      | Commit Outer => fun ok => (True, if ok then outer [] (add (v_outer v) v) else v)
      | Rollback Journal => fun _ => (True, pend [] v)
      | Rollback Outer => fun _ => (True, with_lock (v_row v) false v)
      | Qualify => fun ok => (True, qualify ok v)
      | QualifyEmpty => fun ok => (True, qualify_empty ok v)
      | GetClaim name => fun a => (True, see_claim name (sight a) v)
      | CreateClaim c => fun a =>
          (exists r i, admitted v Create r /\ r = CCreate cmd /\ c = claim config r i /\ v_claims v (c_name c) = Absent
             /\ unpinned v (role_column i),
           see_claim (c_name c) (match a with Ok (Some x) => Present x | _ => Unseen end) v)
      | DeleteClaim name uid version => fun _ =>
          (exists r i c, admitted v Delete r /\ Deleted (OID (COperation cmd)) (ODigest (COperation cmd)) ∈ v_durable v
             /\ name = claim_name i r /\ verified v r i c /\ c_deleting c = false /\ uid = c_uid c /\ version = c_version c
             /\ Pins (role_column i) (observed config c i r) ∈ v_durable v,
           see_claim name Unseen v)
      | GetPod _ => fun a => (True, see_pod (sight a) v)
      | CreatePod p => fun a =>
          (exists r, admitted v Initialize r /\ r = CCreate cmd /\ v_initializer v = true /\ p = initializer r /\ v_pod v = Absent
             /\ Pins SpecColumn (spec_digest r) ∈ v_durable v /\ unpinned v InitializerColumn
             /\ forall i, exists c, verified v r i c /\ Pins (role_column i) (observed config c i r) ∈ v_durable v,
           see_pod (match a with Ok (Some x) => Present x | _ => Unseen end) v)
      | DeletePod name uid version => fun _ =>
          (exists r p pod, admitted v Initialize r /\ v_pod v = Present pod /\ initializer_matches r pod = true /\ p_deleting pod = false
             /\ name = p_name pod /\ uid = p_uid pod /\ version = p_version pod
             /\ Pins InitializerColumn (pod_reference pod) ∈ v_durable v /\ Proven p ∈ v_durable v,
           see_pod Unseen v)
      | InsertGeneration r _ evidence _ => fun ok =>
          (exists p, admitted v Initialize r /\ Proven p ∈ v_durable v /\ evidence = marshal (proof_json p) /\ P_Spec p = spec_digest r
             /\ v_pod v = Absent
             /\ forall i, exists c, verified v r i c /\ c_phase c = "Bound" /\ Pins (role_column i) (observed config c i r) ∈ v_durable v,
           if ok then outer (v_outer v ++ [Generated evidence]) v else v)
      | PublishReady _ _ _ => fun ok =>
          (exists evidence, v_locked v = true /\ Generated evidence ∈ v_outer v,
           if ok then outer (v_outer v ++ [Published]) v else v)
      | _ => fun _ => (True, v)
      end a
  end.

Abbreviation follows := (Observer.follows sees).

(** ** Transactions *)

(** What was known stays known: rows, locks and qualifications are as they were, and more
    may be durable. *)
Record extends (v v' : View) : Prop := mkExtends {
  ex_row : v_row v' = v_row v;
  ex_locked : v_locked v' = v_locked v;
  ex_qualified : v_qualified v' = v_qualified v;
  ex_initializer : v_initializer v' = v_initializer v;
  ex_pending : v_pending v' = v_pending v;
  ex_outer : v_outer v' = v_outer v;
  ex_durable : v_durable v ⊆ v_durable v'
}.

Lemma extends_refl v : extends v v.
Proof. by split. Qed.

Lemma extends_trans v v' v'' : extends v v' -> extends v' v'' -> extends v v''.
Proof. intros [] []. split; try congruence. by etrans. Qed.

Lemma extends_add v fs : extends v (add fs v).
Proof. split; try done. cbn. set_solver. Qed.

Lemma extends_claim v n s : extends v (see_claim n s v).
Proof. by split. Qed.

Lemma extends_pod v s : extends v (see_pod s v).
Proof. by split. Qed.

Lemma pend_idle v : v_pending v = [] -> pend [] v = v.
Proof. destruct v. by intros [= ->]. Qed.

(** Calls that are not looked at. *)
Lemma follows_unseen {A B} v (c : port B) (k : B -> prog port A) Q :
  (forall b, sees v (occurred c b) = (True, v)) -> (forall b, follows v (k b) Q) -> follows v (pbind (trigger c) k) Q.
Proof. intros S F. apply follows_call. intros b. rewrite S. by split. Qed.

Lemma journal_follows {A} v tenant (fn : prog port (result Failure A)) (P : list Fact -> A -> Prop) :
  v_pending v = [] ->
  follows v fn (fun v' r => exists fs, v' = pend fs v /\ forall a, r = Ok a -> P fs a) ->
  follows v (journal tenant fn) (fun v' r => match r with Ok a => exists fs, v' = add fs v /\ P fs a | Err _ => v' = v end).
Proof.
  intros N F. unfold journal. apply follows_call. intros begun. split; [done |]. cbn [snd sees projT2 occurred]. rewrite pend_idle by done.
  destruct begun; cbn [negb]; [| by apply follows_ret].
  apply follows_bind. apply (follows_weaken _ _ _ (fun v' r => match r with Ok a => exists fs, v' = add fs v /\ P fs a | Err _ => exists fs, v' = pend fs v end)).
  { apply follows_unseen; [done |]. intros set. destruct set; cbn [negb]; [| apply follows_ret; exists []; by rewrite pend_idle].
    apply follows_bind. eapply follows_weaken; [exact F |]. intros v' r (fs & -> & H). destruct r as [a | e]; [| apply follows_ret; eauto].
    apply follows_call. intros ok. split; [done |]. apply follows_ret. destruct ok; cbn [negb]; [| exists fs; done].
    exists fs. split; [| by apply H]. cbn. unfold pend, add. cbn. by rewrite N. }
  intros v' r H. apply follows_call. intros []. split; [done |]. apply follows_ret. cbn [snd sees projT2 occurred].
  destruct r as [a | e]; [destruct H as (fs & -> & H); exists fs; split; [| done] | destruct H as [fs ->]].
  - unfold pend, add. cbn. by rewrite N.
  - unfold pend. cbn. rewrite <- N. by destruct v.
Qed.

Definition reference (col : Column) (s : Reservation) : string :=
  match col with
  | WorkspaceColumn => WorkspaceReference s
  | StateColumn => StateReference s
  | InitializerColumn => InitializerReference s
  | SpecColumn => InitializerSpec s
  end.

(** What the transaction of a reservation made durable. *)
Record reserves (w : WorkspaceRow) (fs : list Fact) (s : Reservation) : Prop := mkReserves {
  rv_request : Requested (Request s) ∈ fs;
  rv_tenant : TenantID (Request s) = CTenant cmd;
  rv_workspace : WorkspaceID (Request s) = CWorkspace cmd;
  rv_same : kind cmd = Create \/ kind cmd = Initialize -> Request s = CCreate cmd;
  rv_deleted : kind cmd = Delete -> Deleted (OID (COperation cmd)) (ODigest (COperation cmd)) ∈ fs;
  rv_pinned : forall col, reference col s <> "" -> Pins col (reference col s) ∈ fs;
  rv_fresh : forall col, reference col s = "" -> forall ref, Pins col ref ∉ fs;
  rv_proof : forall p, Proof_ s = Some p -> Proven p ∈ fs;
  rv_ready : Ready s = (w_state w == "READY")
}.

Lemma pin_elem col c ref x : Pins col x ∈ pin c ref <-> col = c /\ x = ref /\ ref <> "".
Proof.
  unfold pin. case_bool_decide as E.
  - split; [by intros ?%elem_of_nil | by intros (_ & _ & [])].
  - rewrite list_elem_of_singleton. split; [by intros [= -> ->] | by intros (-> & -> & _)].
Qed.

Lemma pin_other c ref f : (forall col x, f <> Pins col x) -> f ∉ pin c ref.
Proof. unfold pin. intros N. case_bool_decide; [by intros ?%elem_of_nil | intros ->%list_elem_of_singleton; by eapply N]. Qed.

(** The next guard of an equation is passed. *)
Ltac pass R E := match type of R with (if ?b then _ else _) = _ => destruct b eqn:E; [done |] end.

Lemma reservation_reserves w o s : reservation cmd (w_state w == "READY") o = Ok s ->
  forall fs, (forall f, f ∈ facts o -> f ∈ fs) -> (forall col x, Pins col x ∈ fs -> Pins col x ∈ facts o) ->
  (kind cmd = Delete -> Deleted (OID (COperation cmd)) (ODigest (COperation cmd)) ∈ fs) -> reserves w fs s.
Proof.
  unfold reservation, facts. intros R fs I J D. destruct (decodeRequest (o_request o)) as [r |]; [| done].
  destruct (_ || _ || _) eqn:E; [done |]. simp_bool.
  destruct (if 0 <? len (o_proof o) then _ else _) as [p |] eqn:P; [| done].
  pass R E1. pass R E2. pass R E3.
  injection R as <-. split; cbn [Request WorkspaceReference StateReference InitializerReference InitializerSpec Proof_ Ready]; try done.
  - apply I. set_solver.
  - intros K. destruct (decide (r = CCreate cmd)) as [| N]; [done |]. rewrite (bool_decide_eq_false_2 _ N) in E1. cbn in E1.
    destruct K as [K | K]; rewrite K in E1; done.
  - intros col N. apply I. destruct col; cbn [reference WorkspaceReference StateReference InitializerReference InitializerSpec] in *;
      rewrite !elem_of_app, !pin_elem; naive_solver.
  - intros col N ref X%J. rewrite !elem_of_app, !pin_elem in X.
    destruct col; cbn [reference WorkspaceReference StateReference InitializerReference InitializerSpec] in N;
      repeat match type of X with _ \/ _ => destruct X as [X | X] end; try (destruct X as (? & _ & ?); congruence); try (apply list_elem_of_singleton in X; congruence).
    all: match type of X with _ ∈ match ?x with _ => _ end => destruct x end; [apply list_elem_of_singleton in X; congruence | by apply elem_of_nil in X].
  - intros q ->. apply I. destruct (0 <? len (o_proof o)); [| done]. destruct (decodeProof (o_proof o)) as [q' |]; [| done].
    injection P as ->. set_solver.
Qed.

(** Facts that are added one by one. *)
Lemma pend_pend fs gs v : pend fs (pend gs v) = pend fs v.
Proof. done. Qed.

Lemma reserve_follows w v : v_pending v = [] -> v_locked v = true ->
  follows v (reserve cmd w) (fun v' r => exists fs, v' = pend fs v /\ forall s, r = Ok s -> reserves w fs s).
Proof.
  intros N L. unfold reserve. assert (V : v = pend [] v) by by rewrite pend_idle.
  apply follows_bind. apply (follows_weaken _ _ _ (fun v' _ => v' = v)).
  { destruct (_ || _); [by apply follows_ret |]. apply follows_unseen; [done |]. intros b. destruct b; cbn [negb]; [| by apply follows_ret].
    apply follows_unseen; [done |]. intros u. by apply follows_ret. }
  intros ? free ->. destruct free as [e |]; [apply follows_ret; by exists [] |].
  apply follows_bind. apply (follows_weaken _ _ _ (fun v' _ => v' = v)).
  { destruct (kind cmd != Create) eqn:K; [by apply follows_ret |]. simp_bool. destruct (negb (created_for _ _)); [by apply follows_ret |].
    destruct (Marshal _) as [raw |] eqn:M; [| by apply follows_ret]. apply follows_call. intros b. split; [done |]. by apply follows_ret. }
  intros ? inserted ->. destruct inserted as [e |]; [apply follows_ret; by exists [] |].
  apply follows_call. intros row. split; [done |]. cbn [snd sees projT2 occurred]. destruct row as [o | e]; [| apply follows_ret; by exists []].
  rewrite N. cbn [app]. destruct (reservation _ _ o) as [s | e] eqn:R; [| apply follows_ret; by exists (facts o)].
  destruct (kind cmd == Delete) eqn:K.
  - apply bool_decide_eq_true in K. apply follows_call. intros b. split; [done |]. apply follows_ret. cbn [snd sees projT2 occurred]. destruct b; cbn [negb].
    + exists (facts o ++ [Deleted (OID (COperation cmd)) (ODigest (COperation cmd))]). split; [done |]. intros s' [= <-].
      apply (reservation_reserves _ o); [done | set_solver | | set_solver].
      intros col x X. apply elem_of_app in X as [X | X%list_elem_of_singleton]; [done | congruence].
    + by exists (facts o).
  - apply bool_decide_eq_false in K. apply follows_ret. exists (facts o). split; [done |]. intros s' [= <-]. by apply (reservation_reserves _ o).
Qed.

(** ** References *)

(** The reservation after a reference was pinned. *)
Definition after_bind (role ref : string) (s : Reservation) : Reservation :=
  if role == "initializer" then with_initializer ref s else if role == "initializer-spec" then with_spec ref s else s.

Lemma bind_follows v st role ref col :
  v_pending v = [] -> column (kind cmd) role = Some col -> role <> "empty-ready" -> role <> "empty-proof" ->
  fst (sees v (occurred (SetReference col (CTenant cmd) (CWorkspace cmd) ref) None)) ->
  follows v (bind cmd st role ref) (fun v' x =>
    match snd x with
    | None => v' = add [Pins col ref] v /\ fst x = mkPinned (after_bind role ref (pinned st)) (publish st)
    | Some _ => v' = v
    end).
Proof.
  intros N C R1 R2 D. unfold bind. rewrite (bool_decide_eq_false_2 (role = "empty-ready")), (bool_decide_eq_false_2 (role = "empty-proof")), !andb_false_r by done.
  destruct (_ || _); [by apply follows_ret |]. rewrite C. apply follows_bind.
  eapply follows_weaken; [apply (journal_follows _ _ _ (fun fs _ => fs = [Pins col ref])); [done |] |].
  - apply follows_call. intros n. split; [exact D |]. apply follows_ret. cbn [snd sees projT2 occurred].
    destruct n as [n |]; [| exists []; by rewrite pend_idle]. destruct (n =? 1) eqn:E.
    + apply Z.eqb_eq in E as ->. rewrite N. exists [Pins col ref]. by split.
    + apply Z.eqb_neq in E. exists []. rewrite pend_idle by done. split; [done |]. rewrite bool_decide_eq_false_2 by done. by intros [].
  - intros v' [u | e] H; apply follows_ret; cbn [snd fst]; [| done]. destruct H as (fs & -> & ->). split; [done |].
    unfold after_bind. case_bool_decide as X; [subst role |]; done.
Qed.

(** The reservation under which the provider works. *)
Definition reserved (v : View) (s : Reservation) : Prop :=
  v_locked v = true /\ v_pending v = [] /\ v_outer v = []
  /\ exists w fs, v_row v = Some w /\ state_ok cmd w = true /\ reserves w fs s /\ fs ⊆ v_durable v.

Definition fresh (v : View) (s : Reservation) : Prop := forall col, reference col s = "" -> unpinned v col.

Lemma reserved_extends v v' s : extends v v' -> reserved v s -> reserved v' s.
Proof.
  intros [E1 E2 _ _ E5 E6 E7] (L & P & O & w & fs & R & S & V & I). split_and!; [congruence | congruence | congruence |].
  exists w, fs. split_and!; [congruence | done | done |]. by etrans.
Qed.

Lemma reserved_pinned v s col : reserved v s -> reference col s <> "" -> Pins col (reference col s) ∈ v_durable v.
Proof. intros (_ & _ & _ & w & fs & _ & _ & V & I) N. by apply I, (rv_pinned _ _ _ V). Qed.

Lemma reserved_admitted v s : reserved v s -> v_qualified v = true -> supports config (Request s) = true -> admitted v (kind cmd) (Request s).
Proof.
  intros (L & _ & _ & w & fs & R & S & V & I) Q U. destruct V. split_and!; try done; [by exists w | by apply I].
Qed.

Lemma reference_role i s : role_reference i s = reference (role_column i) s.
Proof. by destruct i. Qed.

Lemma column_role k i : column k (role_name i) = Some (role_column i).
Proof. destruct i; [| done]. unfold column. cbn. by rewrite !andb_false_r. Qed.

Lemma claim_names r : claim_name WorkspaceRole r <> claim_name StateRole r.
Proof. done. Qed.

Lemma claim_name_inj i j r : claim_name i r = claim_name j r -> i = j.
Proof. destruct i, j; try done; intros E; by destruct (claim_names r). Qed.

(** ** The claims *)

(** What is known of the claim of a role that was found. *)
Lemma find_claim_follows v s i :
  reserved v s -> v_qualified v = true -> supports config (Request s) = true ->
  (role_reference i s = "" -> unpinned v (role_column i)) ->
  follows v (find_claim config cmd (Request s) i (role_reference i s)) (fun v' f =>
    extends v v' /\ v_durable v' = v_durable v /\ (forall n, n <> claim_name i (Request s) -> v_claims v' n = v_claims v n)
    /\ match f with
       | Skip => kind cmd = Delete /\ v_claims v' (claim_name i (Request s)) = Absent
       | Object (Some c) => v_claims v' (claim_name i (Request s)) = Present c
       | _ => True
       end).
Proof.
  intros R Q U F. unfold find_claim. set (name := claim_name i (Request s)).
  assert (D : forall x v0, extends v v0 -> v_durable v0 = v_durable v -> (forall n, n <> name -> v_claims v0 n = v_claims v n) ->
    (extends v (see_claim name x v0) /\ v_durable (see_claim name x v0) = v_durable v
     /\ (forall n, n <> name -> v_claims (see_claim name x v0) n = v_claims v n)) /\ v_claims (see_claim name x v0) name = x).
  { intros x v0 X1 X2 X3. split; [| cbn; by rewrite bool_decide_eq_true_2]. split_and!; [| done |].
    - eapply extends_trans; [exact X1 | apply extends_claim].
    - intros n N. cbn. rewrite bool_decide_eq_false_2 by done. by apply X3. }
  assert (W : forall a v0, extends v v0 -> v_durable v0 = v_durable v -> (forall n, n <> name -> v_claims v0 n = v_claims v n) ->
    follows (see_claim name (sight a) v0) (Ret (answer a)) (fun v' f => extends v v' /\ v_durable v' = v_durable v
      /\ (forall n, n <> name -> v_claims v' n = v_claims v n)
      /\ match f with
         | Skip => kind cmd = Delete /\ v_claims v' name = Absent
         | Object (Some c) => v_claims v' name = Present c
         | _ => True
         end)).
  { intros a v0 X1 X2 X3. apply follows_ret. destruct (D (sight a) v0 X1 X2 X3) as [(Y1 & Y2 & Y3) Y4]. split_and!; [done | done | done |].
    by destruct a as [[c |] | e]. }
  pose proof (fun n (_ : n <> name) => eq_refl (v_claims v n)) as SC.
  apply follows_call. intros got. split; [done |]. cbn [snd sees projT2 occurred].
  destruct got as [c | []]; try by apply (W _ v (extends_refl v) eq_refl SC).
  destruct (D Absent v (extends_refl v) eq_refl SC) as [(Y1 & Y2 & Y3) Y4].
  destruct ((kind cmd == Create) && _) eqn:K.
  - apply andb_true_iff in K as [K%bool_decide_eq_true E%bool_decide_eq_true].
    apply follows_unseen; [done |]. intros ok. destruct ok; cbn [negb]; [| by apply follows_ret].
    apply follows_call. intros made. cbn [sees projT2 occurred fst snd]. split.
    { exists (Request s), i. change (c_name (claim config (Request s) i)) with name. split_and!; [| | done | done |].
      - rewrite <- K. by apply (reserved_admitted _ s); [apply (reserved_extends v) | |].
      - destruct R as (_ & _ & _ & w & fs & _ & _ & V & _). apply (rv_same _ _ _ V). by left.
      - intros ref. cbn. by apply F. }
    change (c_name (claim config (Request s) i)) with name.
    destruct (D Unseen (see_claim name Absent v) Y1 Y2 Y3) as [(Z1 & Z2 & Z3) _].
    destruct made as [[c |] | []].
    + by apply (W (Ok (Some c)) (see_claim name Absent v)).
    + by apply (W (Ok None) (see_claim name Absent v)).
    + apply follows_ret. by split_and!.
    + apply follows_call. intros again. split; [done |]. cbn [snd sees projT2 occurred]. by apply W.
    + by apply (W (Err IsConflict) (see_claim name Absent v)).
    + by apply (W (Err OtherError) (see_claim name Absent v)).
  - destruct (kind cmd == Delete) eqn:K2; apply follows_ret; [| by split_and!]. apply bool_decide_eq_true in K2. by split_and!.
Qed.

(** Bound to a volume of the capacity that was asked for. *)
Definition available (c : Claim) (r : CreateRequest) (i : Role) : Prop :=
  c_deleting c = false /\ c_phase c = "Bound" /\ c_volume c <> "" /\ c_capacity c = role_capacity i r.

(** How a command left a role. *)
Definition concluded (v : View) (r : CreateRequest) (i : Role) (h h' : Handle) : Prop :=
  (kind cmd = Delete /\ v_claims v (claim_name i r) = Absent /\ h' = h)
  \/ exists c, matches config c r i = true /\ Pins (role_column i) (observed config c i r) ∈ v_durable v
     /\ ((kind cmd = Delete /\ h' = with_state "DELETING" (with_reference i (observed config c i r) h))
         \/ (kind cmd <> Delete /\ h' = with_state "PENDING" (with_reference i (observed config c i r) h))
         \/ (kind cmd <> Delete /\ v_claims v (claim_name i r) = Present c /\ available c r i /\ h' = with_reference i (observed config c i r) h)).

(** A step on one role leaves the other as it was. *)
Definition steps (i : Role) (r : CreateRequest) (v v' : View) : Prop :=
  extends v v' /\ (forall n, n <> claim_name i r -> v_claims v' n = v_claims v n)
  /\ (forall col, col <> role_column i -> unpinned v col -> unpinned v' col).

Lemma steps_refl i r v : steps i r v v.
Proof. split_and!; [apply extends_refl | done | done]. Qed.

Lemma steps_trans i r v1 v2 v3 : steps i r v1 v2 -> steps i r v2 v3 -> steps i r v1 v3.
Proof.
  intros (E1 & C1 & U1) (E2 & C2 & U2). split_and!; [by eapply extends_trans | | eauto]. intros n N. rewrite C2, C1; done.
Qed.

Lemma steps_add i r v ref : steps i r v (add [Pins (role_column i) ref] v).
Proof.
  split_and!; [apply extends_add | done |]. intros col N U x X. cbn in X. apply elem_of_app in X as [X | X%list_elem_of_singleton]; [by apply U in X |].
  by injection X as ->.
Qed.

Lemma conclude_follows v s i c h :
  reserved v s -> v_qualified v = true -> supports config (Request s) = true -> verified v (Request s) i c ->
  Pins (role_column i) (observed config c i (Request s)) ∈ v_durable v ->
  follows v (conclude cmd (Request s) i c (with_reference i (observed config c i (Request s)) h)) (fun v' x =>
    steps i (Request s) v v' /\ match x with Ok h' => concluded v' (Request s) i h h' | Err _ => True end).
Proof.
  intros R Q U V P. unfold conclude. pose proof (steps_refl i (Request s) v) as S0.
  destruct V as [V M]. destruct (kind cmd == Delete) eqn:K.
  - apply bool_decide_eq_true in K. assert (C : forall v', v_durable v' = v_durable v -> concluded v' (Request s) i h
      (with_state "DELETING" (with_reference i (observed config c i (Request s)) h))).
    { intros v' E. right. exists c. rewrite E. split; [done |]. split; [done |]. by left. }
    destruct (c_deleting c) eqn:DL; [apply follows_ret; split; [done | by apply C] |].
    destruct (c_version c == ""); [by apply follows_ret |]. apply follows_call. intros gone. cbn [sees projT2 occurred fst snd]. split.
    { exists (Request s), i, c. split_and!; try done.
      - rewrite <- K. by apply (reserved_admitted _ s).
      - destruct R as (_ & _ & _ & w & fs & _ & _ & RV & I). by apply I, (rv_deleted _ _ _ RV). }
    assert (S1 : steps i (Request s) v (see_claim (claim_name i (Request s)) Unseen v)).
    { split_and!; [apply extends_claim | | done]. intros n N. cbn. by rewrite bool_decide_eq_false_2. }
    destruct gone as [u | []]; apply follows_ret; (split; [done |]); try done; by apply C.
  - apply bool_decide_eq_false in K. destruct (c_deleting c) eqn:DL; [by apply follows_ret |]. cbn [orb].
    destruct (c_phase c == "Lost"); [by apply follows_ret |].
    destruct (c_phase c != "Bound") eqn:PH.
    + apply follows_ret. split; [done |]. right. exists c. split; [done |]. split; [done |]. right. by left.
    + destruct ((c_volume c == "") || _) eqn:AV; [by apply follows_ret |]. simp_bool. apply follows_ret. split; [done |].
      right. exists c. split; [done |]. split; [done |]. right. right. split_and!; try done. split_and!; try done. by apply Z.eqb_eq.
Qed.

Lemma claim_step_follows v s i st h :
  reserved v s -> v_qualified v = true -> supports config (Request s) = true ->
  (role_reference i s = "" -> unpinned v (role_column i)) ->
  follows v (claim_step config cmd s i st h) (fun v' x =>
    steps i (Request s) v v' /\ match snd x with Ok h' => publish (fst x) = publish st /\ concluded v' (Request s) i h h' | Err _ => True end).
Proof.
  intros R Q U F. unfold claim_step. pose proof (steps_refl i (Request s) v) as S0.
  destruct (_ && _); [by apply follows_ret |]. apply follows_bind.
  eapply follows_weaken; [by apply (find_claim_follows v s i) |]. intros v1 f (E1 & D1 & C1 & H1).
  assert (S1 : steps i (Request s) v v1) by (split_and!; [done | done | intros col _ X ref; rewrite D1; apply X]).
  destruct f as [| e | [c |]]; [| by apply follows_ret | | by apply follows_ret].
  { apply follows_ret. split; [done |]. split; [done |]. left. by destruct H1. }
  destruct (negb (matches config c (Request s) i)) eqn:M; [by apply follows_ret |]. apply negb_false_iff in M.
  destruct ((role_reference i s != "") && _) eqn:O; [by apply follows_ret |].
  pose proof (reserved_extends _ _ _ E1 R) as R1. assert (Q1 : v_qualified v1 = true) by (rewrite (ex_qualified _ _ E1); done).
  apply follows_bind.
  apply (follows_weaken _ _ _ (fun v2 b => steps i (Request s) v1 v2
    /\ (snd b = None -> publish (fst b) = publish st /\ verified v2 (Request s) i c /\ Pins (role_column i) (observed config c i (Request s)) ∈ v_durable v2))).
  - destruct (role_reference i s == "") eqn:Z.
    + eapply follows_weaken; [apply (bind_follows v1 st (role_name i) _ (role_column i)) |].
      * apply R1.
      * apply column_role.
      * by destruct i.
      * by destruct i.
      * pose proof (reserved_admitted _ _ R1 Q1 U) as A. destruct i; cbn; by exists (Request s), c.
      * intros v2 [st' [e |]] H; cbn [fst snd] in *.
        -- subst v2. split; [apply steps_refl | done].
        -- destruct H as [-> ->]. split; [apply steps_add |]. intros _. split_and!; [done | by split |]. cbn. set_solver.
    + apply follows_ret. cbn [fst snd]. split; [apply steps_refl |]. intros _. split_and!; [done | by split |].
      apply bool_decide_eq_false in Z. cbn [negb andb] in O. apply negb_false_iff, bool_decide_eq_true in O. rewrite O, reference_role.
      apply (reserved_pinned v1 s); [done |]. by rewrite <- reference_role.
  - intros v2 [st' [e |]] [S2 H]; cbn [fst snd] in *; [apply follows_ret; split; [by eapply steps_trans | done] |].
    destruct (H eq_refl) as (PB & V2 & P2). destruct S2 as (E2 & C2 & U2). apply follows_bind.
    eapply follows_weaken; [apply (conclude_follows v2 s i c h) |].
    + by apply (reserved_extends v1).
    + by rewrite (ex_qualified _ _ E2).
    + done.
    + done.
    + done.
    + intros v3 x [S3 X]. apply follows_ret. cbn [fst snd]. split; [| by destruct x]. eapply steps_trans; [exact S1 |]. by eapply steps_trans.
Qed.

(** ** The operation as a whole *)

Definition Core : Type := option WorkspaceRow * list Fact * (string -> Sight Claim) * Sight Pod.

Definition core (v : View) : Core := (v_row v, v_durable v, v_claims v, v_pod v).

(** A publication rests on a committed proof, on both claims and on the initializer's absence. *)
Definition publishable (v : View) (r : CreateRequest) (p : EmptyProof) : Prop :=
  admitted v Initialize r /\ Proven p ∈ v_durable v /\ P_Spec p = spec_digest r /\ v_pod v = Absent
  /\ forall i, exists c, verified v r i c /\ c_phase c = "Bound" /\ Pins (role_column i) (observed config c i r) ∈ v_durable v.

Lemma publishEmpty_follows v s p : Proof_ s = Some p -> publishable v (Request s) p -> v_outer v = [] ->
  follows v (publishEmpty s) (fun v' e => exists fs, v' = outer fs v /\ (e = None -> fs = [Generated (marshal (proof_json p)); Published])).
Proof.
  intros P (A & PR & SP & PD & CL) O. unfold publishEmpty. rewrite P. assert (V : v = outer [] v) by (destruct v; cbn in O; by subst).
  destruct (_ || _); [apply follows_ret; by exists [] |]. apply follows_call. intros ok. split; [exists p; exact (conj A (conj PR (conj eq_refl (conj SP (conj PD CL))))) |]. cbn [snd sees projT2 occurred].
  destruct ok; cbn [negb]; [| apply follows_ret; by exists []]. rewrite O. cbn [app].
  apply follows_call. intros ok. split.
  - exists (marshal (proof_json p)). split; [apply A |]. by apply list_elem_of_singleton.
  - apply follows_ret. cbn [snd sees projT2 occurred]. destruct ok; [by exists [Generated (marshal (proof_json p)); Published] |].
    exists [Generated (marshal (proof_json p))]. by split.
Qed.

(** What the work of an operation has to leave behind for its result. *)
Definition finishes {R} (Q : Core -> R -> Prop) (v : View) (x : Pinned * result WorkspaceError R) : Prop :=
  match x with
  | (st, Ok r) =>
      if negb (publish st) || Ready (pinned st) then Q (core v) r
      else v_outer v = [] /\ exists p, Proof_ (pinned st) = Some p /\ publishable v (Request (pinned st)) p
             /\ Q (core (add [Generated (marshal (proof_json p)); Published] v)) r
  | _ => True
  end.

Lemma Do_follows {R} (work : Work R) (Q : Core -> R -> Prop) :
  (forall v s, reserved v s -> fresh v s -> follows v (work s) (finishes Q)) ->
  follows start (Do cmd work) (fun v' x => match x with Ok r => Q (core v') r | Err _ => True end).
Proof.
  intros H. unfold Do. destruct (negb (command_ok cmd)); [by apply follows_ret |]. apply follows_call. intros begun. split; [done |].
  cbn [snd sees projT2 occurred]. destruct begun; cbn [negb]; [| by apply follows_ret]. apply follows_bind.
  apply (follows_weaken _ _ _ (fun v' x => match x with Ok r => Q (core v') r | Err _ => True end)); cycle 1.
  { intros v' r K. apply follows_call. intros []. split; [done |]. by apply follows_ret. }
  unfold holding. apply follows_unseen; [done |]. intros set. destruct set; cbn [negb]; [| by apply follows_ret].
  apply follows_call. intros row. split; [done |]. cbn [snd sees projT2 occurred]. destruct row as [w | e]; [| by apply follows_ret].
  destruct (w_provider w != "kubernetes"); [by apply follows_ret |]. destruct (state_ok cmd w) eqn:SO; cbn [negb]; [| by apply follows_ret].
  apply follows_unseen; [done |]. intros al. destruct al; cbn [negb]; [| by apply follows_ret].
  apply follows_bind. eapply follows_weaken; [apply journal_follows; [done |]; by apply reserve_follows |].
  intros v1 [s | e] K; [| by apply follows_ret]. destruct K as (fs & -> & RV). apply follows_bind.
  eapply follows_weaken; [apply H |].
  - split_and!; try done. exists w, fs. split_and!; try done.
  - intros col N ref. cbn. by apply (rv_fresh _ _ _ RV).
  - intros v2 [st [r | e]] K; cbn [finishes] in K; [| by apply follows_ret].
    destruct (negb (publish st) || Ready (pinned st)); [by apply follows_ret |].
    destruct K as (O & p & P & PB & K). apply follows_bind. eapply follows_weaken; [by apply (publishEmpty_follows v2 _ p) |].
    intros v3 e (gs & -> & E). destruct e as [e |]; [by apply follows_ret |]. rewrite E by done.
    apply follows_call. intros ok. split; [done |]. apply follows_ret. destruct ok; cbn [negb]; [exact K | done].
Qed.

(** ** The provider *)

Definition handle_reference (i : Role) (h : Handle) : string :=
  match i with WorkspaceRole => H_WorkspaceReference h | StateRole => H_StateReference h end.

(** What a handle that is returned stands for. *)
Definition evidence (v : Core) (h : Handle) : Prop :=
  let '(_, durable, claims, _) := v in
  exists r, Requested r ∈ durable /\ H_Workspace h = WorkspaceID r /\ WorkspaceID r = CWorkspace cmd
    /\ (forall i, handle_reference i h <> "" -> Pins (role_column i) (handle_reference i h) ∈ durable)
    /\ (H_State h = "BOUND" -> kind cmd <> Delete /\ forall i, exists c, claims (claim_name i r) = Present c /\ matches config c r i = true
          /\ available c r i /\ handle_reference i h = observed config c i r)
    /\ (H_State h = "ABSENT" -> kind cmd = Delete /\ forall i, claims (claim_name i r) = Absent).

(** A role's conclusion survives the other role's step. *)
Lemma concluded_steps v v' r i h h' : concluded v r WorkspaceRole h h' -> steps StateRole r v v' -> i = WorkspaceRole -> concluded v' r i h h'.
Proof.
  intros C (E & K & _) ->. pose proof (K (claim_name WorkspaceRole r) (claim_names r)) as KC. unfold concluded. rewrite KC.
  destruct C as [C | (c & M & P & C)]; [by left |]. right. exists c. split; [done |]. split; [| done]. by apply (ex_durable _ _ E).
Qed.

Lemma concluded_evidence v s h1 h2 : reserved v s ->
  concluded v (Request s) WorkspaceRole (mkHandle (WorkspaceID (Request s)) "kubernetes" "" "" "BOUND") h1 -> concluded v (Request s) StateRole h1 h2 ->
  evidence (core v) (if (kind cmd == Delete) && (H_State h2 == "BOUND") then with_state "ABSENT" h2 else h2).
Proof.
  intros (_ & _ & _ & w & fs & _ & _ & V & I) C1 C2. unfold core, evidence. exists (Request s).
  assert (X : Requested (Request s) ∈ v_durable v) by (apply I, (rv_request _ _ _ V)). assert (Y := rv_workspace _ _ _ V).
  destruct C1 as [(D1 & A1 & ->) | (c1 & M1 & P1 & C1)], C2 as [(D2 & A2 & ->) | (c2 & M2 & P2 & C2)].
  - rewrite (bool_decide_eq_true_2 _ D1). cbn. split_and!; [done | done | done | by intros [] | done |]. intros _. split; [done |]. by intros [].
  - rewrite (bool_decide_eq_true_2 _ D1). destruct C2 as [[_ ->] | [[N _] | (N & _)]]; [| done | done]. cbn.
    split_and!; [done | done | done | | done | done]. by intros [].
  - rewrite (bool_decide_eq_true_2 _ D2). destruct C1 as [[_ ->] | [[N _] | (N & _)]]; [| done | done]. cbn.
    split_and!; [done | done | done | | done | done]. by intros [].
  - destruct C1 as [[D1 ->] | [[N1 ->] | (N1 & S1 & A1 & ->)]], C2 as [[D2 ->] | [[N2 ->] | (N2 & S2 & A2 & ->)]]; try done;
      try (rewrite (bool_decide_eq_true_2 _ D1)); try (rewrite (bool_decide_eq_false_2 _ N1)); cbn.
    all: split_and!; [done | done | done | by intros [] | try done | try done].
    intros _. split; [done |]. intros []; [exists c1 | exists c2]; by split_and!.
Qed.

Lemma provide_follows v s : reserved v s -> fresh v s -> follows v (provide config cmd s) (finishes evidence).
Proof.
  intros R F. unfold provide. destruct (_ || _ || _ || _); [by apply follows_ret |]. destruct (supports config (Request s)) eqn:U; cbn [negb]; [| by apply follows_ret].
  apply follows_call. intros ok. split; [done |]. cbn [snd sees projT2 occurred]. destruct ok; cbn [negb]; [| by apply follows_ret].
  set (v1 := qualify true v). assert (R1 : reserved v1 s) by exact R. assert (F1 : fresh v1 s) by exact F.
  apply follows_bind. eapply follows_weaken; [apply (claim_step_follows v1 s WorkspaceRole) |].
  - done.
  - done.
  - done.
  - rewrite reference_role. apply F1.
  - intros v2 [st [h | e]] [S2 H2]; [| by apply follows_ret]. cbn [fst snd publish] in H2. destruct H2 as [P2 C2].
    pose proof S2 as (E2 & _ & U2). pose proof (reserved_extends _ _ _ E2 R1) as R2. apply follows_bind.
    eapply follows_weaken; [apply (claim_step_follows v2 s StateRole) |].
    + done.
    + by rewrite (ex_qualified _ _ E2).
    + done.
    + rewrite reference_role. intros N. apply U2; [done |]. by apply F1.
    + intros v3 [st3 [h3 | e]] [S3 H3]; [| by apply follows_ret]. cbn [fst snd] in H3. destruct H3 as [P3 C3].
      apply follows_ret. cbn [finishes]. rewrite P3, P2. cbn [publish negb orb].
      apply (concluded_evidence v3 s h); [| by apply (concluded_steps v2 v3) | done]. destruct S3 as (E3 & _). by apply (reserved_extends v2).
Qed.

Lemma run_follows : follows start (run config cmd) (fun v' x => match x with Ok h => evidence (core v') h | Err _ => True end).
Proof. unfold run. destruct (_ || _); [by apply follows_ret |]. apply Do_follows, provide_follows. Qed.

(** ** The initializer *)

Abbreviation ready_claims v s bound :=
  (forall i, exists c, verified v (Request s) i c /\ Pins (role_column i) (observed config c i (Request s)) ∈ v_durable v
     /\ (bound = true -> c_phase c = "Bound")).

(** An initialization whose claims were verified and whose specification is pinned. *)
Record initializing (v : View) (s : Reservation) (bound : bool) (st : Pinned) : Prop := mkInitializing {
  in_reserved : reserved v s;
  in_admitted : admitted v Initialize (Request s);
  in_same : Request s = CCreate cmd;
  in_qualified : v_initializer v = true;
  in_claims : ready_claims v s bound;
  in_workspace : WorkspaceReference s <> "";
  in_state : StateReference s <> "";
  in_pinned : Pins SpecColumn (spec_digest (Request s)) ∈ v_durable v;
  in_not_ready : Ready s = false;
  in_publish : publish st = false;
  in_request : Request (pinned st) = Request s;
  in_references : WorkspaceReference (pinned st) = WorkspaceReference s /\ StateReference (pinned st) = StateReference s
                  /\ InitializerReference (pinned st) = InitializerReference s;
  in_spec : InitializerSpec (pinned st) = spec_digest (Request s);
  in_proof : Proof_ (pinned st) = Proof_ s;
  in_ready : Ready (pinned st) = false
}.

(** What a completed initialization stands for. *)
Definition initialized_evidence (v : Core) (ready : bool) : Prop :=
  let '(row, durable, _, pod) := v in
  ready = true -> (exists w, row = Some w /\ w_state w = "READY")
    \/ exists p, Proven p ∈ durable /\ Generated (marshal (proof_json p)) ∈ durable /\ Published ∈ durable /\ pod = Absent.

(** Not ready, and nothing to publish. *)
Definition unfinished (x : Pinned * result WorkspaceError bool) : Prop :=
  match x with (st, Ok b) => publish st = false /\ b = false | _ => True end.

Lemma unfinished_finishes v x : unfinished x -> finishes initialized_evidence v x.
Proof. destruct x as [st [b | e]]; [| done]. intros [P ->]. cbn [finishes]. by rewrite P. Qed.

Lemma initial_claim_follows v s i :
  follows v (initial_claim config s i) (fun v' a =>
    steps i (Request s) v v' /\ v_durable v' = v_durable v
    /\ match a with
       | Ok b => exists c, verified v' (Request s) i c /\ role_reference i s = observed config c i (Request s) /\ (b = true -> c_phase c = "Bound")
       | Err _ => True
       end).
Proof.
  unfold initial_claim. apply follows_call. intros got. split; [done |]. cbn [snd sees projT2 occurred].
  assert (S : steps i (Request s) v (see_claim (claim_name i (Request s)) (sight got) v)).
  { split_and!; [apply extends_claim | | done]. intros n N. cbn. by rewrite bool_decide_eq_false_2. }
  destruct got as [[c |] | e]; [| by apply follows_ret | by apply follows_ret].
  destruct (_ || _) eqn:E; [by apply follows_ret |]. simp_bool.
  assert (K : v_claims (see_claim (claim_name i (Request s)) (sight (Ok (Some c))) v) (claim_name i (Request s)) = Present c).
  { cbn. by rewrite bool_decide_eq_true_2. }
  destruct (c_phase c != "Bound") eqn:P.
  - apply follows_ret. split; [done |]. split; [done |]. exists c. by split_and!.
  - destruct ((c_volume c == "") || _); [by apply follows_ret |]. apply negb_bool_decide_false in P.
    apply follows_ret. split; [done |]. split; [done |]. exists c. by split_and!.
Qed.

Lemma remove_pod_follows v s bound st pod p :
  initializing v s bound st -> v_pod v = Present pod -> initializer_matches (Request s) pod = true ->
  Pins InitializerColumn (pod_reference pod) ∈ v_durable v -> Proven p ∈ v_durable v -> forall st', publish st' = false ->
  follows v (remove_pod pod st') (fun _ x => unfinished x).
Proof.
  intros I P M PN PR st' PB. unfold remove_pod. destruct (p_deleting pod) eqn:D; [by apply follows_ret |].
  destruct (p_version pod == ""); [by apply follows_ret |]. apply follows_call. intros gone. split.
  - exists (Request s), p, pod. pose proof (in_admitted _ _ _ _ I). by split_and!.
  - destruct gone as [u | []]; by apply follows_ret.
Qed.

(** The proof of emptiness is pinned. *)
Lemma prove_follows v s bound st pod :
  initializing v s bound st -> v_pod v = Present pod -> initializer_matches (Request s) pod = true -> p_phase pod = "Succeeded" ->
  Pins InitializerColumn (pod_reference pod) ∈ v_durable v ->
  forall st', publish st' = false -> WorkspaceReference (pinned st') = WorkspaceReference s -> StateReference (pinned st') = StateReference s ->
  InitializerReference (pinned st') = pod_reference pod -> InitializerSpec (pinned st') = spec_digest (Request s) ->
  follows v (prove_empty cmd s bound (spec_digest (Request s)) (pod_reference pod) pod st') (fun v' x =>
    match snd x with None => publish (fst x) = false /\ exists p, v' = add [Proven p] v | Some _ => True end).
Proof.
  intros I P M PH PN st' PB W S IR SP. unfold prove_empty. destruct (_ || _ || _) eqn:B; [by apply follows_ret |]. simp_bool.
  destruct (negb (forallb initialized (p_statuses pod))); [by apply follows_ret |].
  set (raw := marshal _). clearbody raw. pose proof (in_admitted _ _ _ _ I) as A. pose proof (in_reserved _ _ _ _ I) as R.
  assert (K : kind cmd = Initialize) by apply A. unfold bind. rewrite (bool_decide_eq_true_2 _ K).
  change ("empty-proof" == "empty-ready") with false. change ("empty-proof" == "empty-proof") with true. cbn [andb].
  destruct (16384 <? len raw); [by apply follows_ret |]. destruct (decodeProof raw) as [p |] eqn:DP; [| by apply follows_ret].
  destruct (proves (pinned st') p) eqn:PR; cbn [negb]; [| by apply follows_ret]. unfold proves in PR. apply negb_true_iff in PR. simp_bool.
  apply follows_bind. eapply follows_weaken; [apply (journal_follows _ _ _ (fun fs _ => fs = [Proven p])); [apply R |] |].
  - apply follows_call. intros ok. cbn [sees projT2 occurred fst snd]. rewrite DP. split.
    + exists (Request s), p, pod.
      assert (CL : forall i, exists c, verified v (Request s) i c /\ c_phase c = "Bound" /\ Pins (role_column i) (observed config c i (Request s)) ∈ v_durable v).
      { intros i. destruct (in_claims _ _ _ _ I i) as (c & V & PC & BC). exists c. split_and!; [done | by apply BC | done]. }
      pose proof (reserved_pinned v s WorkspaceColumn R (in_workspace _ _ _ _ I)) as PW.
      pose proof (reserved_pinned v s StateColumn R (in_state _ _ _ _ I)) as PS. pose proof (in_pinned _ _ _ _ I) as PI. cbn [reference] in PW, PS.
      repeat match goal with H : P_Workspace p = _ |- _ => rewrite H; clear H | H : P_State p = _ |- _ => rewrite H; clear H
        | H : P_Initializer p = _ |- _ => rewrite H; clear H | H : P_Spec p = _ |- _ => rewrite H; clear H end.
      rewrite W, S, IR, SP. split_and!; done.
    + destruct R as (_ & N & _). rewrite N. cbn [app]. apply follows_ret. destruct ok; [by exists [Proven p] |]. exists []. by rewrite pend_idle.
  - intros v' [u | e] J; apply follows_ret; cbn [snd fst publish]; [| done]. destruct J as (fs & -> & ->). split; [done |]. by exists p.
Qed.

Lemma admitted_extends v v' k r : extends v v' -> admitted v k r -> admitted v' k r.
Proof.
  intros [E1 E2 E3 _ _ _ E7] (K & L & W & Q & RQ & T & WS & U). split_and!; try done; [congruence | by rewrite E1 | congruence | by apply E7].
Qed.

Lemma initializing_extends v v' s bound st : extends v v' -> v_claims v' = v_claims v -> initializing v s bound st -> initializing v' s bound st.
Proof.
  intros E C []. pose proof (ex_durable _ _ E) as D. split; try done.
  - by apply (reserved_extends v).
  - by apply (admitted_extends v).
  - by rewrite (ex_initializer _ _ E).
  - intros i. destruct (in_claims0 i) as (c & [V M] & P & B). exists c. split_and!; [by split; [rewrite C |] | by apply D | done].
  - by apply D.
Qed.

Lemma present_pod_follows v s bound st pod :
  initializing v s bound st -> match pod with Some p => v_pod v = Present p | None => True end ->
  follows v (present_pod config empty DeepDerivative cmd s bound (spec_digest (Request s)) pod st) (fun _ x => unfinished x).
Proof.
  intros I P. unfold present_pod. destruct pod as [pod |]; [| by apply follows_ret].
  destruct (initializer_matches (Request s) pod) eqn:M; cbn [negb]; [| by apply follows_ret].
  change (p_namespace pod +:+ "/" +:+ p_name pod +:+ "/" +:+ p_uid pod) with (pod_reference pod).
  destruct ((InitializerReference s != "") && _) eqn:O; [by apply follows_ret |].
  pose proof (in_reserved _ _ _ _ I) as R. pose proof (in_admitted _ _ _ _ I) as A. assert (K : kind cmd = Initialize) by apply A.
  apply follows_bind.
  apply (follows_weaken _ _ _ (fun v' b => snd b = None ->
    initializing v' s bound st /\ v_pod v' = Present pod /\ Pins InitializerColumn (pod_reference pod) ∈ v_durable v'
    /\ publish (fst b) = false /\ WorkspaceReference (pinned (fst b)) = WorkspaceReference s /\ StateReference (pinned (fst b)) = StateReference s
    /\ InitializerReference (pinned (fst b)) = pod_reference pod /\ InitializerSpec (pinned (fst b)) = spec_digest (Request s))).
  - destruct (in_references _ _ _ _ I) as (W & S & IR). destruct (InitializerReference s == "") eqn:Z.
    + eapply follows_weaken; [apply (bind_follows v st "initializer" _ InitializerColumn) |].
      * apply R.
      * unfold column. by rewrite (bool_decide_eq_true_2 _ K).
      * done.
      * done.
      * exists (Request s), pod. by split_and!.
      * intros v' [st' [e |]] H; cbn [fst snd] in *; [done |]. destruct H as [-> ->]. intros _. split_and!; try done.
        -- by apply (initializing_extends v); [apply extends_add | |].
        -- cbn. apply elem_of_app. right. by apply list_elem_of_singleton.
        -- apply I.
        -- apply I.
    + apply follows_ret. intros _. cbn [fst]. apply bool_decide_eq_false in Z. cbn [negb andb] in O. simp_bool.
      split_and!; try done; try apply I. all: try congruence.
      rewrite <- O. apply (reserved_pinned v s InitializerColumn R). done.
  - intros v' [st' [e |]] H; [by apply follows_ret |]. destruct (H eq_refl) as (I' & P' & PN & PB & W & S & IR & SP). cbn [fst] in *.
    destruct (p_phase pod == "Failed"); [by apply follows_ret |].
    destruct (is_some (Proof_ s)) eqn:PF.
    + destruct (Proof_ s) as [p |] eqn:PE; [| done]. apply (remove_pod_follows v' s bound st pod p); try done.
      destruct (in_reserved _ _ _ _ I') as (_ & _ & _ & w & fs & _ & _ & RV & IN). by apply IN, (rv_proof _ _ _ RV).
    + destruct (p_deleting pod) eqn:D; [by apply follows_ret |]. destruct (p_phase pod != "Succeeded") eqn:PH; [by apply follows_ret |].
      apply negb_bool_decide_false in PH. apply follows_bind. eapply follows_weaken; [by apply (prove_follows v' s bound st pod) |].
      intros v2 [st2 [e |]] K2; cbn [fst snd] in *; [by apply follows_ret |]. destruct K2 as [PB2 [p ->]].
      apply (remove_pod_follows (add [Proven p] v') s bound st pod p); try done.
      * by apply (initializing_extends v'); [apply extends_add | |].
      * cbn. apply elem_of_app. by left.
      * cbn. apply elem_of_app. right. by apply list_elem_of_singleton.
Qed.

Lemma absent_pod_follows v s bound st p :
  initializing v s bound st -> v_pod v = Absent -> Proof_ s = Some p ->
  follows v (absent_pod cmd s bound (spec_digest (Request s)) p st) (finishes initialized_evidence).
Proof.
  intros I P PE. unfold absent_pod. destruct (_ || _ || _ || _ || _) eqn:B; [by apply follows_ret |]. simp_bool.
  pose proof (in_admitted _ _ _ _ I) as A. assert (K : kind cmd = Initialize) by apply A. pose proof (in_reserved _ _ _ _ I) as R.
  unfold bind. rewrite (bool_decide_eq_true_2 _ K). change ("empty-ready" == "empty-ready") with true. change ("ready" != "ready") with false.
  rewrite (in_proof _ _ _ _ I), PE. cbn [andb orb is_some negb pbind]. apply follows_ret. cbn [finishes publish pinned].
  rewrite (in_ready _ _ _ _ I). cbn [negb orb].
  assert (PR : Proven p ∈ v_durable v).
  { destruct R as (_ & _ & _ & w & fs & _ & _ & RV & IN). by apply IN, (rv_proof _ _ _ RV). }
  split; [apply R |]. exists p. split; [by rewrite (in_proof _ _ _ _ I) |]. rewrite (in_request _ _ _ _ I). split.
  - split; [done |]. split; [done |]. split; [congruence |]. split; [done |]. intros i.
    destruct (in_claims _ _ _ _ I i) as (c & V & PC & BC). exists c. split; [done |]. split; [by apply BC | done].
  - cbn [core add initialized_evidence v_durable v_pod]. intros _. right. exists p. rewrite !elem_of_app, !elem_of_cons. auto 10.
Qed.

Lemma initializer_pod_follows v s bound st :
  initializing v s bound st -> (InitializerReference s = "" -> unpinned v InitializerColumn) ->
  follows v (initializer_pod config empty DeepDerivative cmd s bound (spec_digest (Request s)) st) (finishes initialized_evidence).
Proof.
  intros I F. unfold initializer_pod. apply follows_call. intros got. split; [done |]. cbn [snd sees projT2 occurred].
  assert (S : forall x, initializing (see_pod x v) s bound st) by (intros x; by apply (initializing_extends v); [apply extends_pod | |]).
  assert (PP : forall v' pod, initializing v' s bound st -> match pod with Some p => v_pod v' = Present p | None => True end ->
    follows v' (present_pod config empty DeepDerivative cmd s bound (spec_digest (Request s)) pod st) (finishes initialized_evidence)).
  { intros v' pod I' P'. eapply follows_weaken; [by apply present_pod_follows |]. intros v2 x. apply unfinished_finishes. }
  destruct got as [pod | e]; [apply PP; [apply S | by destruct pod] |].
  destruct e; try by apply follows_ret.
  destruct (Proof_ s) as [p |] eqn:PE; [by apply absent_pod_follows; [apply S | |] |].
  destruct (InitializerReference s != "") eqn:IR; [by apply follows_ret |]. apply negb_bool_decide_false in IR.
  apply follows_unseen; [done |]. intros ok. destruct ok; cbn [negb]; [| by apply follows_ret].
  pose proof (S Absent) as I1. apply follows_call. intros made. cbn [sees projT2 occurred fst snd]. split.
  { exists (Request s). pose proof (in_admitted _ _ _ _ I1) as A. pose proof (in_pinned _ _ _ _ I1) as PI. pose proof (in_same _ _ _ _ I1) as SM.
    split; [done |]. split; [done |]. split; [apply I1 |]. split; [done |]. split; [done |]. split; [done |]. split; [by apply F |].
    intros i. destruct (in_claims _ _ _ _ I1 i) as (c & V & PC & _). by exists c. }
  assert (S2 : forall x, initializing (see_pod x (see_pod Absent v)) s bound st) by (intros x; by apply (initializing_extends (see_pod Absent v)); [apply extends_pod | |]).
  apply follows_bind.
  apply (follows_weaken _ _ _ (fun v' made => match made with Ok pod => initializing v' s bound st /\ match pod with Some p => v_pod v' = Present p | None => True end | Err _ => True end)).
  - destruct made as [pod | []]; try by apply follows_ret.
    + apply follows_ret. split; [apply S2 | by destruct pod].
    + apply (follows_call _ _ (GetPod (p_name (init_pod config empty (Request s) (spec_digest (Request s))))) Ret). intros again. split; [done |]. apply follows_ret. cbn [snd sees projT2 occurred].
      destruct again as [pod | e]; [| done]. split; [| by destruct pod].
      apply (initializing_extends (see_pod Unseen (see_pod Absent v))); [apply extends_pod | done | apply S2].
  - intros v' [pod | e] H; [by apply PP; apply H | by apply follows_ret].
Qed.

Lemma initialize_follows v s : kind cmd = Initialize -> reserved v s -> fresh v s ->
  follows v (initialize config empty marshalSpec DeepDerivative cmd s) (finishes initialized_evidence).
Proof.
  intros K R F. unfold initialize. destruct (_ || _ || _) eqn:G; [by apply follows_ret |].
  apply orb_false_iff in G as [G GS]. apply orb_false_iff in G as [GR GW]. apply negb_bool_decide_false in GR. apply bool_decide_eq_false in GW, GS.
  destruct (Ready s) eqn:RD.
  { apply follows_ret. cbn [finishes publish negb orb]. intros _. left. destruct R as (_ & _ & _ & w & fs & W & _ & RV & _). exists w. split; [done |].
    pose proof (rv_ready _ _ _ RV) as X. rewrite RD in X. symmetry in X. by apply bool_decide_eq_true in X. }
  apply follows_call. intros ok. split; [done |]. cbn [snd sees projT2 occurred]. apply follows_bind.
  apply (follows_weaken _ _ _ (fun v' ok' => ok' = true -> reserved v' s /\ fresh v' s /\ v_qualified v' = true /\ v_initializer v' = true)).
  { destruct ok; cbn [negb]; [| by apply follows_ret]. apply (follows_call _ _ QualifyEmpty Ret). intros ok. split; [done |]. apply follows_ret.
    intros ->. by split_and!. }
  intros v1 ok1 H1. destruct ok1; cbn [negb orb]; [| by apply follows_ret]. destruct (H1 eq_refl) as (R1 & F1 & Q1 & QE1). clear H1 R F.
  destruct (supports config (Request s)) eqn:U; cbn [negb]; [| by apply follows_ret].
  apply follows_bind. eapply follows_weaken; [apply (initial_claim_follows v1 s WorkspaceRole) |].
  intros v2 [a | e] (S2 & D2 & H2); [| by apply follows_ret]. destruct H2 as (c1 & [V1 M1] & O1 & B1).
  apply follows_bind. eapply follows_weaken; [apply (initial_claim_follows v2 s StateRole) |].
  intros v3 [b | e] (S3 & D3 & H3); [| by apply follows_ret]. destruct H3 as (c2 & [V2 M2] & O2 & B2).
  pose proof S2 as (E2 & _ & U2). pose proof S3 as (E3 & C3 & U3). pose proof (extends_trans _ _ _ E2 E3) as E.
  pose proof (reserved_extends _ _ _ E R1) as R. assert (V1' : v_claims v3 (claim_name WorkspaceRole (Request s)) = Present c1) by (rewrite C3; [done | apply claim_names]).
  assert (F : fresh v3 s) by (intros col N ref; rewrite D3, D2; by apply F1).
  destruct ((InitializerSpec s != "") && _) eqn:SP; [by apply follows_ret |].
  set (st := mkPinned s false). apply follows_bind.
  apply (follows_weaken _ _ _ (fun v' x => snd x = None ->
    initializing v' s (a && b) (fst x) /\ (InitializerReference s = "" -> unpinned v' InitializerColumn))).
  - assert (I : forall v' st', extends v3 v' -> v_claims v' = v_claims v3 -> Pins SpecColumn (spec_digest (Request s)) ∈ v_durable v' ->
      publish st' = false -> Request (pinned st') = Request s -> WorkspaceReference (pinned st') = WorkspaceReference s ->
      StateReference (pinned st') = StateReference s -> InitializerReference (pinned st') = InitializerReference s ->
      InitializerSpec (pinned st') = spec_digest (Request s) -> Proof_ (pinned st') = Proof_ s -> Ready (pinned st') = false ->
      initializing v' s (a && b) st').
    { intros v' st' X1 X2 X3 X4 X5 X6 X7 X8 X9 X10 X11. pose proof (reserved_extends _ _ _ X1 R) as R'. split; try done.
      - rewrite <- K. apply reserved_admitted; [done | | done]. by rewrite (ex_qualified _ _ X1), (ex_qualified _ _ E).
      - by rewrite (ex_initializer _ _ X1), (ex_initializer _ _ E).
      - intros i. destruct i; [exists c1 | exists c2]; (split; [by split; [rewrite X2 |] |]).
        + rewrite <- O1. split; [by apply (reserved_pinned v' s WorkspaceColumn R') |]. intros [? _]%andb_true_iff. auto.
        + rewrite <- O2. split; [by apply (reserved_pinned v' s StateColumn R') |]. intros [_ ?]%andb_true_iff. auto. }
    destruct (InitializerSpec s == "") eqn:Z.
    + eapply follows_weaken; [apply (bind_follows v3 st "initializer-spec" _ SpecColumn) |].
      * apply R.
      * unfold column. by rewrite (bool_decide_eq_true_2 _ K).
      * done.
      * done.
      * exists (Request s). split; [| done]. rewrite <- K. apply reserved_admitted; [done | | done]. by rewrite (ex_qualified _ _ E).
      * intros v' [st' [e |]] H; cbn [fst snd] in *; [done |]. destruct H as [-> ->]. intros _. split.
        -- apply I; try done; [apply extends_add |]. cbn. apply elem_of_app. right. by apply list_elem_of_singleton.
        -- intros N ref X. cbn in X. apply elem_of_app in X as [X | X%list_elem_of_singleton]; [by apply (F InitializerColumn N) in X | done].
    + apply follows_ret. intros _. cbn [fst]. apply bool_decide_eq_false in Z. cbn [negb andb] in SP. apply negb_bool_decide_false in SP. split; [| exact (F InitializerColumn)].
      apply I; try done. rewrite <- SP. by apply (reserved_pinned v3 s SpecColumn R).
  - intros v4 [st4 [e |]] H4; [by apply follows_ret |]. destruct (H4 eq_refl) as [I4 F4]. by apply initializer_pod_follows.
Qed.
End Safety.

(** C11: Durable intent comes first.  In every run of the provider's operations and of the
    initializer, whatever the database and the Kubernetes API answer: a claim or Pod is
    created only while the Workspace is locked, under a committed reservation of exactly this
    request, with its name free and nothing pinned for it; a reference is pinned only of an
    object that was seen and verified as this request's; a claim is deleted only under a
    committed deletion, and the initializer only after its proof was committed, as the
    verified and pinned object by its identity and version; a proof is recorded and the
    Workspace is published only with both claims verified and bound, and published only once
    the initializer is gone.  A handle that is returned rests on what was seen and is durable:
    BOUND on two bound claims of the right capacity, ABSENT on the absence of both; and an
    initialization reports success only of a Workspace that is published. *)
Theorem storage_write_ahead config empty marshalSpec DeepDerivative :
  (forall cmd tr x, runs (run config cmd) tr x ->
     orderly (sees config empty marshalSpec DeepDerivative cmd) start tr
     /\ forall h, x = Ok h -> evidence config cmd (core (after (sees config empty marshalSpec DeepDerivative cmd) start tr)) h)
  /\ (forall r tr x, runs (InitializeEmpty config empty marshalSpec DeepDerivative r) tr x ->
        let cmd := mkCommand Initialize (TenantID r) (WorkspaceID r) (Op r) r in
        orderly (sees config empty marshalSpec DeepDerivative cmd) start tr
        /\ (x = Ok true -> initialized_evidence (core (after (sees config empty marshalSpec DeepDerivative cmd) start tr)) true)).
Proof.
  split.
  - intros cmd tr x R. destruct (run_follows config empty marshalSpec DeepDerivative cmd _ _ R) as [O E]. split; [done |]. intros h ->. exact E.
  - intros r tr x R cmd. unfold InitializeEmpty in R. destruct (negb (validStorageRequest r)); [by destruct R as [-> ->] |].
    assert (F := Do_follows config empty marshalSpec DeepDerivative cmd (initialize config empty marshalSpec DeepDerivative cmd) initialized_evidence
      (fun v s => initialize_follows config empty marshalSpec DeepDerivative cmd v s eq_refl)).
    destruct (F _ _ R) as [O E]. split; [done |]. by intros ->.
Qed.

(** ** Witness: two claims are created and pinned. *)

Definition ex_config : StorageConfig := mkStorageConfig "agents" "fast" "standard" digest_a false false.

Definition ex_request : CreateRequest :=
  let r := mkCreateRequest id1 id2 id3 (mkOperation id4 "") "standard" digest_a 1000 100 "single-writer" false in
  mkCreateRequest id1 id2 id3 (mkOperation id4 (CreateDigest r)) "standard" digest_a 1000 100 "single-writer" false.

Definition ex_command : Command := mkCommand Create id1 id3 (Op ex_request) ex_request.

Definition ex_answer (B : Type) (c : port B) : B :=
  match c in port B return B with
  | BeginTx _ | SetTenant _ _ | CheckAccess _ | LockOperation _ _ | InsertOperation _ _ _ _ | SetDelete _ _ _ _ | SetProof _ _ _
  | InsertGeneration _ _ _ _ | PublishReady _ _ _ | Commit _ | Qualify | QualifyEmpty | Encode => true
  | LockWorkspace _ _ => Ok (mkWorkspaceRow id2 "PROVISIONING" "kubernetes" "standard" digest_a 1000 "single-writer" "filesystem" "none" id4 false "empty")
  | OperationUsed _ _ _ _ => Some false
  | LoadOperation _ _ => Ok (mkOperationRow (marshal (request_json ex_request)) "" "" None None "" "" "")
  | SetReference _ _ _ _ => Some 1
  | Rollback _ => tt
  | GetClaim _ => Err IsNotFound
  | CreateClaim c => Ok (Some (mkClaim (c_name c) (c_namespace c) "uid-1" "7" (c_annotations c) 0 false (c_class c) (c_mode c) (c_access c) (c_request c)
      false false false false "" "Pending" 0))
  | DeleteClaim _ _ _ => Ok tt
  | GetPod _ => Err IsNotFound
  | CreatePod _ => Err OtherError
  | DeletePod _ _ _ => Ok tt
  end.

Abbreviation ex_created_run := (execute ex_answer (run ex_config ex_command)).

Definition ex_handle : Handle :=
  mkHandle id3 "kubernetes" ("agents/ar-workspace-" +:+ id3 +:+ "/uid-1") ("agents/ar-state-" +:+ id3 +:+ "/uid-1") "PENDING".

Lemma ex_created_handle : snd ex_created_run = Ok ex_handle.
Proof. vm_compute. reflexivity. Qed.

Lemma storage_write_ahead_witness :
  snd ex_created_run = Ok ex_handle
  /\ orderly (sees ex_config (mkEmptyConfig "" "" 1 1) (fun _ => "") (fun _ _ => true) ex_command) start (fst ex_created_run)
  /\ evidence ex_config ex_command (core (after (sees ex_config (mkEmptyConfig "" "" 1 1) (fun _ => "") (fun _ _ => true) ex_command) start (fst ex_created_run))) ex_handle.
Proof.
  split; [exact ex_created_handle |].
  destruct (proj1 (storage_write_ahead ex_config (mkEmptyConfig "" "" 1 1) (fun _ => "") (fun _ _ => true)) ex_command _ _
    (execute_runs ex_answer (run ex_config ex_command))) as [O E].
  split; [exact O | exact (E ex_handle ex_created_handle)].
Defined.
