(* ===== verification/AgentSandbox.v ===== *)
(** * adapters/sandbox/agentsandbox: sandboxes of the Kubernetes agent-sandbox API

    The provider behind [ComputeReconciliation]'s ports: [Acquire] (acquire.go), [Get]
    (status.go), [Release] (release.go), [Suspend] (suspend.go) and [Resume] (resume.go), with
    the checks of capabilities (capabilities.go and ports/sandbox/capabilities.go), of the
    network (network.go) and of an isolated blueprint (security.go), as programs over the
    binding store, the trusted resolvers and the Kubernetes API.

    The API's types are the fields that the code names; the comparison of whole blueprints,
    DNS names and the canonical form of JSON are parameters, being code of other packages.  A
    slice without elements is marshalled as [[]].

    [AgentSandboxSafety] has what holds of every run. *)

From Stdlib Require Import ZArith Bool Lia.
From stdpp Require Import base strings list.
From S2P Require Import Prelude Regex GoStd JsonDecoder JsonEncode JsonUnmarshal Primitives Sha256 RuntimeProfile Interaction.
From S2P Require Import ComputeReconciliation.

#[export] Instance RequestLimit_eq_dec : EqDecision RequestLimit.
Proof. solve_decision. Defined.
#[export] Instance GPU_eq_dec : EqDecision GPU.
Proof. solve_decision. Defined.
#[export] Instance Resources_eq_dec : EqDecision Resources.
Proof. solve_decision. Defined.
#[export] Instance Storage_eq_dec : EqDecision Storage.
Proof. solve_decision. Defined.
#[export] Instance Network_eq_dec : EqDecision Network.
Proof. solve_decision. Defined.
#[export] Instance Platform_eq_dec : EqDecision Platform.
Proof. solve_decision. Defined.
#[export] Instance Security_eq_dec : EqDecision Security.
Proof. solve_decision. Defined.
#[export] Instance Lifecycle_eq_dec : EqDecision Lifecycle.
Proof. solve_decision. Defined.
#[export] Instance Implementation_eq_dec : EqDecision Implementation.
Proof. solve_decision. Defined.
#[export] Instance Profile_eq_dec : EqDecision Profile.
Proof. solve_decision. Defined.
#[export] Instance Scope_eq_dec : EqDecision Scope.
Proof. solve_decision. Defined.
#[export] Instance Runtime_eq_dec : EqDecision Runtime.
Proof. solve_decision. Defined.
#[export] Instance Attachment_eq_dec : EqDecision Attachment.
Proof. solve_decision. Defined.
#[export] Instance AcquireRequest_eq_dec : EqDecision AcquireRequest.
Proof. solve_decision. Defined.

(** ** ports/sandbox *)

Record Capabilities : Type := mkCapabilities {
  CProviderKind : string;
  ContractVersion : string;
  ProviderVersion : string;
  SupportsSuspend : bool;
  SupportsResume : bool;
  SupportsWarmPool : bool;
  IsolationClasses : list string;
  CArchitectures : list string;
  VolumeAttachment : list string;
  NetworkClasses : list string;
  CDigest : string
}.

Definition Contains (l : list string) (s : string) : bool := existsb (fun x => x == s) l.

(** [ValidateProfile] *)
Definition ValidateProfile (c : Capabilities) (p : Profile) : option Sentinel :=
  let plat := PPlatform p in
  let life := PLifecycle p in
  if (CProviderKind c != ProviderKind (PImplementation p)) || (ContractVersion c != "v1") || (CDigest c == "") || negb (is_ok (ValidateConstraints p))
     || (OS plat != "linux") || (Z.of_nat (length (Architectures plat)) =? 0) || negb (Contains (IsolationClasses c) (IsolationClass p))
     || negb (Contains (NetworkClasses c) (NProfile (PNetwork p))) || negb (Contains (VolumeAttachment c) (AccessMode (PStorage p)))
     || GPUAllowed plat || negb (Count (RGPU (PResources p)) =? 0) || (WarmPoolEligible life && negb (SupportsWarmPool c))
  then Some ErrUnsupported
  else if negb (forallb (Contains (CArchitectures c)) (Architectures plat)) then Some ErrUnsupported
  else if (SuspendMode life != "release-and-restore") && (SuspendMode life != "provider-suspend-preferred") then Some ErrUnsupported
  else if (SuspendMode life == "provider-suspend-preferred") && (negb (SupportsSuspend c) || negb (SupportsResume c)) then Some ErrUnsupported
  else None.

Definition strings_json (l : list string) : jvalue := JRaw (default "" (MarshalArray (map JString l))).

Definition omit_false (name : string) (b : bool) : list (string * jvalue) := if b then [(name, bool_json true)] else [].

Definition limit_json (l : RequestLimit) : jvalue := JStruct [("request", int_json (RuntimeProfile.Request l)); ("limit", int_json (Limit l))].

Definition resources_json (r : Resources) : jvalue :=
  JStruct [("cpu_millis", limit_json (CPU r)); ("memory_bytes", limit_json (Memory r)); ("ephemeral_storage_bytes", limit_json (EphemeralStorage r));
           ("max_processes", int_json (MaxProcesses r));
           ("gpu", JStruct [("count", int_json (Count (RGPU r))); ("classes", strings_json (Classes (RGPU r)))])].

Definition profile_json (p : Profile) : jvalue :=
  let st := PStorage p in let n := PNetwork p in let pl := PPlatform p in let s := PSecurity p in let l := PLifecycle p in let i := PImplementation p in
  JStruct ([("schema_version", int_json (SchemaVersion p)); ("name", JString (Name p))] ++ omitempty "description" (Description p)
    ++ [ ("isolation_class", JString (IsolationClass p)); ("resources", resources_json (PResources p));
         ("storage", JStruct ([("workspace_bytes", int_json (WorkspaceBytes st)); ("workspace_mount", JString (WorkspaceMount st));
                               ("vendor_state_root", JString (VendorStateRoot st))] ++ omitempty "access_mode" (AccessMode st)
                              ++ [("snapshot_class", JString (SnapshotClass st))] ++ omit_false "encryption_required" (EncryptionRequired st)));
         ("network", JStruct ([("profile", JString (NProfile n)); ("default_deny_ingress", bool_json (DefaultDenyIngress n));
                               ("default_deny_egress", bool_json (DefaultDenyEgress n)); ("deny_cloud_metadata", bool_json (DenyCloudMetadata n));
                               ("deny_kubernetes_api", bool_json (DenyKubernetesAPI n))] ++ omitempty "dns_policy" (DNSPolicy n)));
         ("platform", JStruct ([("os", JString (OS pl)); ("architectures", strings_json (Architectures pl)); ("gpu_allowed", bool_json (GPUAllowed pl))]
                               ++ omitempty "node_class" (NodeClass pl)));
         ("security", JStruct [("privileged", bool_json (Privileged s)); ("run_as_non_root", bool_json (RunAsNonRoot s));
                               ("read_only_root_filesystem", bool_json (ReadOnlyRootFilesystem s));
                               ("allow_privilege_escalation", bool_json (AllowPrivilegeEscalation s)); ("service_account_token", bool_json (ServiceAccountToken s));
                               ("host_network", bool_json (HostNetwork s)); ("host_pid", bool_json (HostPID s)); ("host_ipc", bool_json (HostIPC s));
                               ("host_paths", bool_json (HostPaths s)); ("runtime_sockets", bool_json (RuntimeSockets s));
                               ("linux_capabilities_add", strings_json (LinuxCapabilitiesAdd s)); ("seccomp_class", JString (SeccompClass s))]);
         ("lifecycle", JStruct ([("idle_suspend_seconds", int_json (IdleSuspendSeconds l)); ("termination_grace_seconds", int_json (TerminationGraceSeconds l));
                                 ("warm_pool_eligible", bool_json (WarmPoolEligible l))] ++ omitempty "suspend_mode" (SuspendMode l)));
         ("implementation", JStruct [("provider_kind", JString (ProviderKind i)); ("provider_profile_ref", JString (ProviderProfileRef i));
                                     ("isolation_runtime_ref", JString (IsolationRuntimeRef i)); ("storage_profile_ref", JString (StorageProfileRef i));
                                     ("network_policy_ref", JString (NetworkPolicyRef i))]) ]).

Definition request_json (r : AcquireRequest) : jvalue :=
  let s := RScope r in let w := RWorkspace r in
  JStruct [ ("Scope", JStruct [("TenantID", JString (TenantID s)); ("SessionID", JString (SessionID s)); ("ExecutionID", JString (ExecutionID s));
                               ("AttemptID", JString (AttemptID s)); ("SandboxID", JString (SandboxID s)); ("Generation", JUint (Generation s));
                               ("AttemptOrdinal", JUint (AttemptOrdinal s))]);
            ("Operation", JStruct [("ID", JString (Operation_ID (ROperation r))); ("Digest", JString (Operation_Digest (ROperation r)))]);
            ("Runtime", JStruct [("Image", JString (Image (RRuntime r))); ("Architecture", JString (Architecture (RRuntime r)));
                                 ("Entrypoint", strings_json (Entrypoint (RRuntime r)))]);
            ("Profile", profile_json (RProfile r)); ("ProfileDigest", JString (ProfileDigest r)); ("ImplementationDigest", JString (ImplementationDigest r));
            ("Workspace", JStruct [("Reference", JString (Reference w)); ("WorkspaceID", JString (WorkspaceID w)); ("Generation", JUint (AGeneration w));
                                   ("MountPath", JString (MountPath w)); ("ReadOnly", bool_json (ReadOnly w))]);
            ("BootstrapReference", JString (BootstrapReference r)); ("Deadline", JTime (Deadline r)) ].

Definition set_digest (d : string) (r : AcquireRequest) : AcquireRequest :=
  mkAcquireRequest (RScope r) (mkOperation (Operation_ID (ROperation r)) d) (RRuntime r) (RProfile r) (ProfileDigest r) (ImplementationDigest r)
    (RWorkspace r) (BootstrapReference r) (Deadline r).

(** [LifecycleDigest] *)
Definition LifecycleDigest (tenant id : ID) (kind operation : string) : string :=
  Digest (default "" (MarshalArray [JString tenant; JString id; JString kind; JString operation])).

(** ** The Kubernetes API *)

Record PodSecurity : Type := mkPodSecurity {
  ps_non_root : option bool;
  ps_user : option Z;
  ps_group : option Z;
  ps_seccomp : option string
}.

(** The capabilities that are added and dropped, when they are set. *)
Record ContainerSecurity : Type := mkContainerSecurity {
  cs_privileged : option bool;
  cs_escalation : option bool;
  cs_read_only : option bool;
  cs_non_root : option bool;
  cs_user : option Z;
  cs_group : option Z;
  cs_seccomp : option string;
  cs_capabilities : option (list string * list string);
  cs_proc_mount : option string
}.

(** A resource list: its entries, and the quantities that are looked at (zero if absent). *)
Record ResourceList : Type := mkResourceList { rl_entries : Z; rl_cpu_millis : Z; rl_memory : Z; rl_ephemeral : Z }.

Record VolumeMount : Type := mkVolumeMount {
  vm_name : string;
  vm_path : string;
  vm_subpath : string;
  vm_subpath_expr : string;
  vm_propagation : option string;
  vm_read_only : bool
}.

(** A claim template; [ct_rest]: whether anything else in it is set. *)
Record ClaimTemplate : Type := mkClaimTemplate {
  ct_class : option string;
  ct_mode : option string;
  ct_access : list string;
  ct_storage : Z;
  ct_rest : bool
}.

#[export] Instance ClaimTemplate_eq_dec : EqDecision ClaimTemplate.
Proof. solve_decision. Defined.

(** A volume: a claim by name and whether it is read only, a secret by name, an empty
    directory with its size limit, an ephemeral volume with its template; [vl_other]: whether
    it has another source. *)
Record Volume : Type := mkVolume {
  vl_name : string;
  vl_claim : option (string * bool);
  vl_secret : option string;
  vl_empty : option (option Z);
  vl_ephemeral : option (option ClaimTemplate);
  vl_other : bool
}.

Record Container : Type := mkContainer {
  co_image : string;
  co_command : list string;
  co_security : option ContainerSecurity;
  co_args : Z;
  co_env : Z;
  co_env_from : Z;
  co_devices : Z;
  co_requests : ResourceList;
  co_limits : ResourceList;
  co_mounts : list VolumeMount
}.

Record PodSpec : Type := mkPodSpec {
  po_host_network : bool;
  po_host_pid : bool;
  po_host_ipc : bool;
  po_share_process : option bool;
  po_automount : option bool;
  po_links : option bool;
  po_runtime_class : option string;
  po_containers : list Container;
  po_init : Z;
  po_ephemeral : Z;
  po_security : option PodSecurity;
  po_volumes : list Volume
}.

Record Blueprint : Type := mkBlueprint {
  bp_annotations : list (string * string);
  bp_service : option bool;
  bp_claim_templates : Z;
  bp_spec : PodSpec
}.

Record Condition : Type := mkCondition { cn_type : string; cn_status : string; cn_generation : Z }.

(** A Sandbox as far as it converts to its type. *)
Record SandboxSpec : Type := mkSandboxSpec {
  sb_blueprint : Blueprint;
  sb_mode : string;
  sb_shutdown : option Time;
  sb_conditions : list Condition
}.

Record Object : Type := mkObject {
  ob_name : string;
  ob_uid : string;
  ob_version : string;
  ob_generation : Z;
  ob_annotations : list (string * string);
  ob_deleting : bool;
  ob_spec : option SandboxSpec
}.

Record OwnerReference : Type := mkOwnerReference { or_uid : string; or_name : string; or_kind : string; or_api : string; or_controller : bool }.

Record Pod : Type := mkPod {
  pd_owners : list OwnerReference;
  pd_deleting : bool;
  pd_phase : string;
  pd_conditions : list (string * string)
}.

Definition annotation (l : list (string * string)) (key : string) : string :=
  match List.find (fun kv => fst kv == key) l with Some kv => snd kv | None => "" end.

Inductive APIError : Type := IsTimeout | IsNotFound | IsForbidden | IsConflict | IsAlreadyExists | IsInvalid | OtherError.

(** [providerError] *)
Definition providerError (e : APIError) : Sentinel :=
  match e with
  | IsTimeout => ErrTimeout
  | IsNotFound => ErrNotFound
  | IsForbidden => ErrPermission
  | IsConflict | IsAlreadyExists => ErrConflict
  | IsInvalid => ErrInvalid
  | OtherError => ErrUnavailable
  end.

Inductive sbport : Type -> Type :=
| Now : sbport Time
| Discover : sbport (result GoError Capabilities)
| Resolve (r : AcquireRequest) : sbport (option Blueprint)
| EnforceNetwork (r : AcquireRequest) : sbport (option GoError)
| Reserve (r : AcquireRequest) : sbport (result GoError Binding)
| GetBinding (tenant id : ID) : sbport (result GoError Binding)
| BindReference (tenant id : ID) (ref : string) : sbport (option GoError)
| BeginOperation (tenant id : ID) (kind : string) (op : Operation) : sbport (result GoError Z)
| Encode : sbport bool
| GetObject (name : string) : sbport (result APIError Object)
| CreateObject (name : string) (annotations : list (string * string)) (b : Blueprint) (shutdown : Time) : sbport (result APIError Object)
| DeleteObject (name uid version : string) : sbport (result APIError unit)
| PatchObject (name uid version : string) (annotations : list (string * string)) (mode : string) : sbport (result APIError unit)
| GetPod (name : string) : sbport (result APIError (option Pod))
| Verify (b : Binding) (p : Pod) : sbport (option EffectiveFacts).

(** The provider: whether its network enforcer, its capability resolver, its verifier and a
    store of lifecycle operations were supplied. *)
Record Provider : Type := mkProvider {
  namespace : string;
  network : bool;
  capabilities : bool;
  verify : bool;
  lifecycle : bool;
  capabilityDigest : string
}.

Definition capabilityAnnotation : string := "thinkpixel.io/capability-digest".
Definition upstreamVersion : string := "v1.0.0".
Definition digestAnnotation : string := "thinkpixel.io/acquire-digest".
Definition attemptAnnotation : string := "thinkpixel.io/attempt".
Definition revisionAnnotation : string := "thinkpixel.io/operation-revision".
Definition operationAnnotation : string := "thinkpixel.io/operation-digest".

(** [imageDigest] *)
Definition imageDigest : re :=
  let alnum := cls_lower ++ [(65, 90)] ++ cls_digit in
  RCat (RCls alnum) (RCat (RStar (RCls (alnum ++ [(45, 47); (58, 58); (95, 95)]))) (RCat (lit "@sha256:") (rep 64 (RCls cls_hex)))).

Definition fail {A} (s : Sentinel) : prog sbport (result GoError A) := Ret (Err [s]).

Section Programs.
Context (p : Provider).
Variable Transform : string -> option string.
Variable IsDNS1123Subdomain : string -> bool.
Variable DeepEqual : Blueprint -> Blueprint -> bool.

(** [RequestDigest] *)
Definition RequestDigest (r : AcquireRequest) : option string :=
  match Marshal (request_json (set_digest "" r)) with
  | None => None
  | Some raw =>
      match Transform raw with
      | None => None
      | Some b => if 262144 <? len b then None else Some (Digest b)
      end
  end.

(** ** security.go *)

Definition dnsName (s : string) : bool := (0 <? len s) && IsDNS1123Subdomain s.

Definition is_true (b : option bool) : bool := match b with Some b => b | None => false end.
Definition is_false (b : option bool) : bool := match b with Some b => negb b | None => false end.
Definition positive (n : option Z) : bool := match n with Some n => 0 <? n | None => false end.

Definition safeSecurity (ps : option PodSecurity) (cs : option ContainerSecurity) : bool :=
  match ps, cs with
  | Some ps, Some cs =>
      is_true (ps_non_root ps) && positive (ps_user ps) && positive (ps_group ps) && (ps_seccomp ps == Some "RuntimeDefault")
      && is_false (cs_privileged cs) && is_false (cs_escalation cs) && is_true (cs_read_only cs) && is_true (cs_non_root cs)
      && positive (cs_user cs) && positive (cs_group cs) && (cs_seccomp cs == Some "RuntimeDefault")
      && (cs_capabilities cs == Some ([], ["ALL"])) && ((cs_proc_mount cs == None) || (cs_proc_mount cs == Some "Default"))
  | _, _ => false
  end.

(** [scratchClaim] *)
Definition scratchClaim (class : string) (bytes : Z) : ClaimTemplate := mkClaimTemplate (Some class) (Some "Filesystem") ["ReadWriteOnce"] bytes false.

Definition safeScratch (v : Volume) (ceiling : Z) : bool :=
  negb (is_some (vl_secret v) || is_some (vl_claim v))
  && match vl_ephemeral v with
     | None => match vl_empty v with Some (Some n) => (0 <? n) && (n <=? ceiling) | _ => false end
     | Some t =>
         negb (is_some (vl_empty v))
         && match t with
            | None => false
            | Some t =>
                negb ((ct_storage t <=? 0) || (ceiling <? ct_storage t))
                && match ct_class t with Some class => dnsName class && (t == scratchClaim class (ct_storage t)) | None => false end
            end
     end.

(** The source of a volume. *)
Definition volume_ok (ceiling : Z) (v : Volume) : bool :=
  negb (vl_other v)
  && (if (vl_name v == "workspace") || (vl_name v == "state") then
        match vl_claim v with Some (name, read_only) => negb read_only && dnsName name | None => false end
        && negb (is_some (vl_secret v)) && negb (is_some (vl_empty v)) && negb (is_some (vl_ephemeral v))
      else if vl_name v == "bootstrap" then
        match vl_secret v with Some name => dnsName name | None => false end
        && negb (is_some (vl_claim v)) && negb (is_some (vl_empty v)) && negb (is_some (vl_ephemeral v))
      else if vl_name v == "tmp" then safeScratch v ceiling
      else false).

Definition mount_root (name : string) : string :=
  if name == "workspace" then "/workspace"
  else if name == "state" then "/state"
  else if name == "tmp" then "/tmp"
  else if name == "bootstrap" then "/run/thinkpixel/bootstrap"
  else "".

Definition mount_ok (m : VolumeMount) : bool :=
  negb ((mount_root (vm_name m) == "") || (vm_path m != mount_root (vm_name m)) || (vm_subpath m != "") || (vm_subpath_expr m != "")
        || (is_some (vm_propagation m) && (vm_propagation m != Some "None")) || negb (eqb (vm_read_only m) (vm_name m == "bootstrap"))).

(** No name occurs twice. *)
Fixpoint distinct (l : list string) : bool :=
  match l with [] => true | x :: l => negb (Contains l x) && distinct l end.

Definition claim_of (name : string) (l : list Volume) : option string :=
  match List.find (fun v => vl_name v == name) l with Some v => option_map fst (vl_claim v) | None => None end.

Definition resources_ok (r : Resources) (c : Container) : bool :=
  (rl_entries (co_requests c) =? 3) && (rl_entries (co_limits c) =? 3)
  && (0 <? rl_cpu_millis (co_requests c)) && (0 <? rl_memory (co_requests c)) && (0 <? rl_ephemeral (co_requests c))
  && (rl_cpu_millis (co_requests c) =? RuntimeProfile.Request (CPU r)) && (rl_cpu_millis (co_limits c) =? Limit (CPU r))
  && (rl_memory (co_requests c) =? RuntimeProfile.Request (Memory r)) && (rl_memory (co_limits c) =? Limit (Memory r))
  && (rl_ephemeral (co_requests c) =? RuntimeProfile.Request (EphemeralStorage r)) && (rl_ephemeral (co_limits c) =? Limit (EphemeralStorage r)).

(** [secureBlueprint]; that both claims are there is what its last line relies on. *)
Definition secureBlueprint (r : AcquireRequest) (s : PodSpec) : bool :=
  negb (po_host_network s || po_host_pid s || po_host_ipc s || is_true (po_share_process s) || negb (is_false (po_automount s)) || negb (is_false (po_links s))
        || negb (match po_runtime_class s with Some c => dnsName c | None => false end) || negb (po_init s =? 0) || negb (po_ephemeral s =? 0))
  && match po_containers s with
     | [c] =>
         safeSecurity (po_security s) (co_security c) && (co_image c == Image (RRuntime r)) && (co_command c == Entrypoint (RRuntime r))
         && (co_args c =? 0) && (co_env c =? 0) && (co_env_from c =? 0) && (co_devices c =? 0)
         && resources_ok (PResources (RProfile r)) c
         && (Z.of_nat (length (po_volumes s)) =? 4) && (Z.of_nat (length (co_mounts c)) =? 4)
         && distinct (map vl_name (po_volumes s)) && forallb (volume_ok (Limit (EphemeralStorage (PResources (RProfile r))))) (po_volumes s)
         && forallb mount_ok (co_mounts c) && distinct (map vm_name (co_mounts c))
         && (claim_of "workspace" (po_volumes s) != claim_of "state" (po_volumes s))
     | _ => false
     end.

(** ** capabilities.go and network.go *)

Definition provider_capabilities : prog sbport (result GoError Capabilities) :=
  if negb (capabilities p) then fail ErrUnsupported
  else
    do! c <- trigger Discover;
    match c with
    | Err e => Ret (Err e)
    | Ok c =>
        if negb (match_string sha256_pattern (CDigest c)) || (CProviderKind c != "kubernetes-agent-sandbox") || (ContractVersion c != "v1")
           || (ProviderVersion c != upstreamVersion) then fail ErrUnsupported
        else Ret (Ok c)
    end.

Definition checkCapabilities (r : AcquireRequest) : prog sbport (option GoError) :=
  do! c <- provider_capabilities;
  match c with
  | Err e => Ret (Some e)
  | Ok c =>
      if negb (match_string sha256_pattern (capabilityDigest p)) || (CDigest c != capabilityDigest p) then Ret (Some [ErrConflict])
      else Ret (option_map (fun e => [e]) (ValidateProfile c (RProfile r)))
  end.

Definition checkNetwork (r : AcquireRequest) : prog sbport (option GoError) :=
  if negb (network p) then Ret (if IsolationClass (RProfile r) != "container-standard" then Some [ErrUnsupported] else None)
  else trigger (EnforceNetwork r).

(** ** acquire.go *)

Definition object_name (id : ID) : string := "ar-" +:+ id.

Definition object_reference (id : ID) (uid : string) : string := namespace p +:+ "/" +:+ object_name id +:+ "/" +:+ uid.

Definition validAcquire (r : AcquireRequest) : bool :=
  let s := RScope r in
  validID (TenantID s) && validID (SessionID s) && validID (ExecutionID s) && validID (AttemptID s) && validID (SandboxID s)
  && (0 <? Generation s) && (0 <? AttemptOrdinal s) && (0 <? len (Operation_ID (ROperation r))) && (len (Operation_ID (ROperation r)) <=? 128)
  && match_string imageDigest (Image (RRuntime r)) && (0 <? Z.of_nat (length (Entrypoint (RRuntime r))))
  && ((Architecture (RRuntime r) == "amd64") || (Architecture (RRuntime r) == "arm64"))
  && match_string sha256_pattern (ProfileDigest r) && match_string sha256_pattern (ImplementationDigest r)
  && is_ok (ValidateConstraints (RProfile r)) && (BootstrapReference r != "") && (Reference (RWorkspace r) != "").

(** Whether a blueprint may be made for a request. *)
Definition admissible (r : AcquireRequest) (b : Blueprint) : option Sentinel :=
  let class := IsolationClass (RProfile r) in
  if annotation (bp_annotations b) capabilityAnnotation != capabilityDigest p then Some ErrConflict
  else if (bp_service b != Some false) || negb (bp_claim_templates b =? 0) || (Z.of_nat (length (po_containers (bp_spec b))) =? 0) then Some ErrIntegrity
  else if class == "confidential-strong" then Some ErrUnsupported
  else if (class == "microvm-strong") && negb (secureBlueprint r (bp_spec b)) then Some ErrIntegrity
  else if (class != "container-standard") && negb (network p) then Some ErrUnsupported
  else None.

Definition acquire_annotations (r : AcquireRequest) (digest : string) : list (string * string) :=
  [(digestAnnotation, digest); (attemptAnnotation, AttemptID (RScope r))].

(** The object is read, or created unless one was bound. *)
Definition obtain (r : AcquireRequest) (digest : string) (b : Blueprint) (bound : string) : prog sbport (result GoError Object) :=
  let name := object_name (SandboxID (RScope r)) in
  do! got <- trigger (GetObject name);
  match got with
  | Ok o => Ret (Ok o)
  | Err IsNotFound =>
      if bound != "" then fail ErrNotFound
      else
        do! made <- trigger (CreateObject name (acquire_annotations r digest) b (Deadline r));
        do! made <- (match made with Err IsAlreadyExists => trigger (GetObject name) | _ => Ret made end);
        match made with
        | Ok o => Ret (Ok o)
        | Err e => fail (providerError e)
        end
  | Err e => fail (providerError e)
  end.

(** What was acquired is bound. *)
Definition bind_object (r : AcquireRequest) (digest : string) (b : Blueprint) (bound : string) (o : Object) : prog sbport (result GoError Handle) :=
  if (annotation (ob_annotations o) digestAnnotation != digest) || (annotation (ob_annotations o) attemptAnnotation != AttemptID (RScope r))
     || (ob_uid o == "") || ob_deleting o then fail ErrConflict
  else match ob_spec o with
  | None => fail ErrIntegrity
  | Some s =>
      if negb (DeepEqual (sb_blueprint s) b) then fail ErrIntegrity
      else
        let reference := object_reference (SandboxID (RScope r)) (ob_uid o) in
        if (bound != "") && (bound != reference) then fail ErrIntegrity
        else
          do! e <- trigger (BindReference (TenantID (RScope r)) (SandboxID (RScope r)) reference);
          match e with
          | Some e => Ret (Err e)
          | None => do! now <- trigger Now; Ret (Ok (mkHandle (SandboxID (RScope r)) "kubernetes-agent-sandbox" reference Provisioning (UTC now)))
          end
  end.

Definition AcquireSandbox (r : AcquireRequest) : prog sbport (result GoError Handle) :=
  if negb (validAcquire r) then fail ErrInvalid
  else
    do! now <- trigger Now;
    if negb (After (Deadline r) now) then fail ErrInvalid
    else if RequestDigest r != Some (Operation_Digest (ROperation r)) then fail ErrConflict
    else
      let digest := Operation_Digest (ROperation r) in
      do! e <- checkCapabilities r;
      match e with
      | Some e => Ret (Err e)
      | None =>
          do! b <- trigger (Resolve r);
          match b with
          | None => fail ErrUnsupported
          | Some b =>
              match admissible r b with
              | Some e => fail e
              | None =>
                  do! binding <- trigger (Reserve r);
                  match binding with
                  | Err e => Ret (Err e)
                  | Ok binding =>
                      if Request binding != r then fail ErrConflict
                      else
                        do! e <- checkNetwork r;
                        match e with
                        | Some e => Ret (Err e)
                        | None =>
                            do! ok <- trigger Encode;
                            if negb ok then fail ErrInvalid
                            else
                              do! o <- obtain r digest b (ProviderReference binding);
                              match o with
                              | Err e => Ret (Err e)
                              | Ok o => bind_object r digest b (ProviderReference binding) o
                              end
                        end
                  end
              end
          end
      end.

(** ** status.go *)

Definition getOwned (tenant id : ID) : prog sbport (result GoError (Binding * Object * SandboxSpec)) :=
  do! b <- trigger (GetBinding tenant id);
  match b with
  | Err e => Ret (Err e)
  | Ok b =>
      let s := RScope (Request b) in
      if (TenantID s != tenant) || (SandboxID s != id) then fail ErrIntegrity
      else if (ProviderReference b != "") && negb (String.prefix (object_reference id "") (ProviderReference b)) then fail ErrIntegrity
      else
        do! got <- trigger (GetObject (object_name id));
        match got with
        | Err e => fail (providerError e)
        | Ok o =>
            match ob_spec o with
            | None => fail ErrIntegrity
            | Some spec =>
                if (ob_uid o == "") || ((ProviderReference b != "") && (ProviderReference b != object_reference id (ob_uid o)))
                   || (annotation (ob_annotations o) digestAnnotation != Operation_Digest (ROperation (Request b)))
                   || (annotation (ob_annotations o) attemptAnnotation != AttemptID s) then fail ErrIntegrity
                else Ret (Ok (b, o, spec))
            end
        end
  end.

Definition ownedPod (pod : Pod) (o : Object) : bool :=
  existsb (fun r => (or_uid r == ob_uid o) && (or_name r == ob_name o) && (or_kind r == "Sandbox") && (or_api r == "agents.x-k8s.io/v1beta1") && or_controller r)
    (pd_owners pod).

(** Whether a condition of this type holds of the current generation. *)
Definition holds_now (o : Object) (s : SandboxSpec) (type : string) : bool :=
  existsb (fun c => (cn_generation c =? ob_generation o) && (cn_status c == "True") && (cn_type c == type)) (sb_conditions s).

Definition translateState (o : Object) (s : SandboxSpec) (pod : option Pod) : State * string :=
  if ob_deleting o then (Releasing, "DELETION_PENDING")
  else if sb_mode s == "Suspended" then
    if holds_now o s "Suspended" && negb (is_some pod) then (Suspended, "COMPUTE_SUSPENDED") else (Suspending, "SUSPEND_PENDING")
  else if (sb_mode s != "") && (sb_mode s != "Running") then (Unknown, "UNRECOGNIZED_MODE")
  else if holds_now o s "Finished" || match pod with Some q => (pd_phase q == "Failed") || (pd_phase q == "Succeeded") | None => false end
  then (Failed, "COMPUTE_TERMINAL")
  else if holds_now o s "Suspended" then (Resuming, "RESUME_PENDING")
  else if holds_now o s "Ready"
          && match pod with
             | Some q => negb (pd_deleting q) && (pd_phase q == "Running") && existsb (fun c => (fst c == "Ready") && (snd c == "True")) (pd_conditions q)
             | None => false
             end
  then (Ready, "INFRASTRUCTURE_READY")
  else (Provisioning, "DEPENDENCIES_PENDING").

(** Whether the blueprint that is resolved now is the one that runs. *)
Definition unchanged (r : AcquireRequest) (s : SandboxSpec) : prog sbport (option bool) :=
  do! expected <- trigger (Resolve r);
  Ret (match expected with
       | None => None
       | Some b => Some ((annotation (bp_annotations b) capabilityAnnotation == capabilityDigest p) && DeepEqual b (sb_blueprint s))
       end).

(** What is said of a sandbox that appears ready. *)
Definition ready_status (b : Binding) (s : SandboxSpec) (pod : option Pod) (result : Status) : prog sbport (Prelude.result GoError Status) :=
  do! e <- checkCapabilities (Request b);
  match e with
  | Some e => Ret (Err e)
  | None =>
      do! e <- checkNetwork (Request b);
      match e with
      | Some e => Ret (Err e)
      | None =>
          do! same <- unchanged (Request b) s;
          if same != Some true then fail ErrIntegrity
          else match pod, verify p && (ProviderReference b != "") with
          | Some q, true =>
              do! facts <- trigger (Verify b q);
              match facts with
              | Some f => if negb (Verified f) then fail ErrIntegrity
                          else Ret (Ok (ComputeReconciliation.mkStatus (SHandle result) (SState result) (Reason result) (ProviderGeneration result) f))
              | None => fail ErrIntegrity
              end
          | _, _ => Ret (Ok (ComputeReconciliation.mkStatus (SHandle result) Unknown "EFFECTIVE_STATE_UNVERIFIED" (ProviderGeneration result) (Effective result)))
          end
      end
  end.

Definition with_handle_state (r : Status) : Status :=
  let h := SHandle r in
  ComputeReconciliation.mkStatus (mkHandle (HSandboxID h) (HProviderKind h) (HProviderReference h) (SState r) (ObservedAt h))
    (SState r) (Reason r) (ProviderGeneration r) (Effective r).

Definition GetSandbox (tenant id : ID) : prog sbport (result GoError Status) :=
  do! x <- getOwned tenant id;
  match x with
  | Err e => Ret (Err e)
  | Ok (b, o, s) =>
      do! now <- trigger Now;
      do! got <- trigger (GetPod (ob_name o));
      match got with
      | Err IsNotFound | Ok (Some _) =>
          let pod := match got with Ok pod => pod | Err _ => None end in
          if negb (match pod with Some q => ownedPod q o | None => true end) then fail ErrIntegrity
          else
            let (state, reason) := translateState o s pod in
            let result := ComputeReconciliation.mkStatus (mkHandle id "kubernetes-agent-sandbox" (ProviderReference b) Requested (UTC now)) state reason
                            (if ob_generation o <? 0 then "-" +:+ of_bytes (decimal (- ob_generation o)) else of_bytes (decimal (ob_generation o))) noFacts in
            do! r <- (if state == Ready then ready_status b s pod result else Ret (Ok result));
            Ret (match r with Ok r => Ok (with_handle_state r) | Err e => Err e end)
      | Ok None => fail ErrIntegrity
      | Err e => fail (providerError e)
      end
  end.

(** ** release.go *)

Definition begin_ (tenant id : ID) (kind : string) (op : Operation) : prog sbport (result GoError Z) :=
  if (Operation_ID op == "") || (128 <? len (Operation_ID op)) || (Operation_Digest op != LifecycleDigest tenant id kind (Operation_ID op)) then fail ErrInvalid
  else
    do! b <- trigger (GetBinding tenant id);
    match b with
    | Err e => Ret (Err e)
    | Ok _ =>
        if negb (lifecycle p) then fail ErrUnsupported
        else
          do! r <- trigger (BeginOperation tenant id kind op);
          Ret (match r with Err e => Err e | Ok n => if n =? 0 then Err [ErrIntegrity] else Ok n end)
    end.

(** [checkRevision] *)
Definition checkRevision (annotations : list (string * string)) (revision : Z) : bool :=
  let raw := annotation annotations revisionAnnotation in
  (raw == "") || match parse_digits (to_bytes raw) 0 with Some n => n <=? revision | None => false end.

Definition ReleaseSandbox (tenant id : ID) (op : Operation) : prog sbport (result GoError unit) :=
  do! r <- begin_ tenant id "release" op;
  match r with
  | Err e => Ret (Err e)
  | Ok revision =>
      do! x <- getOwned tenant id;
      match x with
      | Err e => Ret (if errors_Is e ErrNotFound then Ok tt else Err e)
      | Ok (_, o, _) =>
          if negb (checkRevision (ob_annotations o) revision) then fail ErrConflict
          else
            do! gone <- trigger (DeleteObject (ob_name o) (ob_uid o) (ob_version o));
            Ret (match gone with Ok _ | Err IsNotFound => Ok tt | Err e => Err [providerError e] end)
      end
  end.

(** ** suspend.go and resume.go *)

(** Whether a sandbox may be brought back. *)
Definition resumable (op : Operation) (o : Object) (s : SandboxSpec) : bool :=
  (sb_mode s == "Suspended") || ((sb_mode s == "Running") && (annotation (ob_annotations o) operationAnnotation == Operation_Digest op)).

Definition resume_checks (b : Binding) (o : Object) (s : SandboxSpec) (op : Operation) : prog sbport (option GoError) :=
  do! late <- (match sb_shutdown s with Some t => do! now <- trigger Now; Ret (negb (After t now)) | None => Ret false end);
  if negb (negb late) then Ret (Some [ErrConflict])
  else
    do! e <- checkNetwork (Request b);
    match e with
    | Some e => Ret (Some e)
    | None =>
        if negb (resumable op o s) then Ret (Some [ErrConflict])
        else
          do! same <- unchanged (Request b) s;
          Ret (match same with None => Some [ErrUnsupported] | Some false => Some [ErrIntegrity] | Some true => None end)
    end.

Definition setMode (tenant id : ID) (kind mode : string) (op : Operation) : prog sbport (result GoError Handle) :=
  do! b0 <- trigger (GetBinding tenant id);
  match b0 with
  | Err e => Ret (Err e)
  | Ok b0 =>
      do! e <- checkCapabilities (Request b0);
      match e with
      | Some e => Ret (Err e)
      | None =>
          do! r <- begin_ tenant id kind op;
          match r with
          | Err e => Ret (Err e)
          | Ok revision =>
              do! x <- getOwned tenant id;
              match x with
              | Err e => Ret (Err e)
              | Ok (b, o, s) =>
                  if (ProviderReference b == "") || ob_deleting o then fail ErrConflict
                  else if negb (checkRevision (ob_annotations o) revision) then fail ErrConflict
                  else
                    do! e <- (if mode == "Running" then resume_checks b o s op else Ret None);
                    match e with
                    | Some e => Ret (Err e)
                    | None =>
                        let text := of_bytes (decimal revision) in
                        do! e <- (if (sb_mode s != mode) || (annotation (ob_annotations o) revisionAnnotation != text) then
                                    do! r <- trigger (PatchObject (ob_name o) (ob_uid o) (ob_version o)
                                                        [(revisionAnnotation, text); (operationAnnotation, Operation_Digest op)] mode);
                                    Ret (match r with Ok _ => None | Err e => Some [providerError e] end)
                                  else Ret None);
                        match e with
                        | Some e => Ret (Err e)
                        | None =>
                            do! now <- trigger Now;
                            Ret (Ok (mkHandle id "kubernetes-agent-sandbox" (ProviderReference b) (if mode == "Running" then Resuming else Suspending) (UTC now)))
                        end
                    end
              end
          end
      end
  end.

Definition SuspendSandbox (tenant id : ID) (op : Operation) : prog sbport (result GoError unit) :=
  do! r <- setMode tenant id "suspend" "Suspended" op;
  Ret (match r with Ok _ => Ok tt | Err e => Err e end).

Definition ResumeSandbox (tenant id : ID) (op : Operation) : prog sbport (result GoError Handle) :=
  do! x <- getOwned tenant id;
  match x with
  | Err e => Ret (Err e)
  | Ok (b, o, s) =>
      if negb (resumable op o s) then fail ErrConflict
      else
        do! e <- (if sb_mode s == "Suspended" then
                    do! r <- GetSandbox tenant id;
                    Ret (match r with Err e => Some e | Ok r => if SState r != Suspended then Some [ErrConflict] else None end)
                  else Ret None);
        match e with
        | Some e => Ret (Err e)
        | None =>
            do! same <- unchanged (Request b) s;
            match same with
            | None => fail ErrUnsupported
            | Some false => fail ErrIntegrity
            | Some true => setMode tenant id "resume" "Running" op
            end
        end
  end.
End Programs.
