(* ===== verification/AgentSandboxSafety.v ===== *)
(** * What holds of every run of the agent-sandbox provider

    An observer of the calls of [AgentSandbox] knows what was answered and what was last seen
    of every object.  It demands that nothing is reserved that was not checked, that compute is
    created only for a durable reservation, that what is bound is what was verified, and that
    an object is changed only as the one that was read, under the durable operation that asks
    for it. *)

From Stdlib Require Import ZArith Bool Lia.
From stdpp Require Import base strings list sets.
From S2P Require Import Prelude Regex GoStd JsonDecoder JsonEncode JsonUnmarshal Primitives Sha256 RuntimeProfile Interaction Observer.
From S2P Require Import ComputeReconciliation AgentSandbox.

(** What has been answered. *)
Inductive Answered : Type :=
| Clocked (t : Time)
| Discovered (c : Capabilities)
| Resolved (r : AcquireRequest) (b : Blueprint)
| Reserved (b : Binding)
| Loaded (tenant id : ID) (b : Binding)
| Unbound (tenant id : ID)
| Enforced (r : AcquireRequest)
| Begun (tenant id : ID) (kind : string) (op : Operation) (revision : Z)
| Recorded (tenant id : ID) (ref : string)
| Deleted (name uid : string)
| Confirmed (b : Binding) (q : Pod) (f : EffectiveFacts).

Definition sight {A} (a : result APIError (option A)) : Sight A :=
  match a with Ok (Some x) => Present x | Err IsNotFound => Absent | _ => Unseen end.

Record View : Type := mkView {
  known : list Answered;
  v_objects : string -> Sight Object;
  v_pods : string -> Sight Pod
}.

Definition start : View := mkView [] (fun _ => Unseen) (fun _ => Unseen).

Definition learn (f : Answered) (v : View) : View := mkView (known v ++ [f]) (v_objects v) (v_pods v).
Definition see_object (name : string) (s : Sight Object) (v : View) : View :=
  mkView (known v) (fun n => if n == name then s else v_objects v n) (v_pods v).
Definition see_pod (name : string) (s : Sight Pod) (v : View) : View :=
  mkView (known v) (v_objects v) (fun n => if n == name then s else v_pods v n).
Definition learn_ok {E A} (f : A -> Answered) (a : result E A) (v : View) : View := match a with Ok x => learn (f x) v | Err _ => v end.

Section Safety.
Context (p : Provider).
Variable Transform : string -> option string.
Variable IsDNS1123Subdomain : string -> bool.
Variable DeepEqual : Blueprint -> Blueprint -> bool.

Abbreviation admissible := (AgentSandbox.admissible p IsDNS1123Subdomain).
Abbreviation RequestDigest := (AgentSandbox.RequestDigest Transform).
Abbreviation object_reference := (AgentSandbox.object_reference p).

(** The discovered capabilities are the pinned ones and serve the request's profile. *)
Definition checked (v : View) (r : AcquireRequest) : Prop :=
  exists c, Discovered c ∈ known v /\ CDigest c = capabilityDigest p /\ ProviderVersion c = upstreamVersion /\ ValidateProfile c (RProfile r) = None.

(** The network of a request is enforced; only the weakest class does without an enforcer. *)
Definition enforced (v : View) (r : AcquireRequest) : Prop :=
  if network p then Enforced r ∈ known v else IsolationClass (RProfile r) = "container-standard".

(** What runs is what is resolved for a request. *)
Definition same_blueprint (v : View) (r : AcquireRequest) (s : SandboxSpec) : Prop :=
  exists b, Resolved r b ∈ known v /\ annotation (bp_annotations b) capabilityAnnotation = capabilityDigest p /\ DeepEqual b (sb_blueprint s) = true.

(** A request that may be reserved, with the blueprint that was resolved for it. *)
Record prepared (v : View) (r : AcquireRequest) (b : Blueprint) : Prop := mkPrepared {
  pr_valid : validAcquire r = true;
  pr_digest : RequestDigest r = Some (Operation_Digest (ROperation r));
  pr_deadline : exists t, Clocked t ∈ known v /\ After (Deadline r) t = true;
  pr_checked : checked v r;
  pr_resolved : Resolved r b ∈ known v;
  pr_admissible : admissible r b = None
}.

(** The same once it is reserved and its network enforced. *)
Definition acquiring (v : View) (r : AcquireRequest) (b : Blueprint) (bound : string) : Prop :=
  prepared v r b /\ Reserved (mkBinding r bound) ∈ known v /\ enforced v r.

(** The object of a binding, as it was last seen: marked with the binding's request, and the
    bound one if one was bound. *)
Record owned (v : View) (tenant id : ID) (b : Binding) (o : Object) (s : SandboxSpec) : Prop := mkOwned {
  ow_loaded : Loaded tenant id b ∈ known v;
  ow_tenant : TenantID (RScope (Request b)) = tenant;
  ow_sandbox : SandboxID (RScope (Request b)) = id;
  ow_seen : v_objects v (object_name id) = Present o;
  ow_spec : ob_spec o = Some s;
  ow_uid : ob_uid o <> "";
  ow_reference : ProviderReference b = "" \/ ProviderReference b = object_reference id (ob_uid o);
  ow_digest : annotation (ob_annotations o) digestAnnotation = Operation_Digest (ROperation (Request b));
  ow_attempt : annotation (ob_annotations o) attemptAnnotation = AttemptID (RScope (Request b))
}.

(** The object of a binding under a durable operation, which no later one has overtaken. *)
Definition operating (v : View) (tenant id : ID) (kind : string) (op : Operation) (revision : Z) (b : Binding) (o : Object) (s : SandboxSpec) : Prop :=
  owned v tenant id b o s /\ Begun tenant id kind op revision ∈ known v /\ checkRevision (ob_annotations o) revision = true.

Definition saw_object (name : string) (a : result APIError Object) (v : View) : View :=
  see_object name (sight (match a with Ok o => Ok (Some o) | Err e => Err e end)) v.

Definition sees (v : View) (e : event sbport) : Prop * View :=
  match projT2 e with
  | (c, a) =>
      match c in sbport B return B -> Prop * View with
      | Now => fun t => (True, learn (Clocked t) v)
      | Discover => fun a => (True, learn_ok Discovered a v)
      | Resolve r => fun a => (True, match a with Some b => learn (Resolved r b) v | None => v end)
      | EnforceNetwork r => fun a =>
          (exists b, Request b = r /\ (Reserved b ∈ known v \/ exists tenant id, Loaded tenant id b ∈ known v),
           match a with None => learn (Enforced r) v | Some _ => v end)
      | Reserve r => fun a => (exists b, prepared v r b, learn_ok Reserved a v)
      | GetBinding tenant id => fun a =>
          (True, match a with Ok b => learn (Loaded tenant id b) v | Err e => if errors_Is e ErrNotFound then learn (Unbound tenant id) v else v end)
      | BindReference tenant id ref => fun a =>
          (exists r b bound o s, acquiring v r b bound /\ tenant = TenantID (RScope r) /\ id = SandboxID (RScope r)
             /\ v_objects v (object_name id) = Present o /\ annotation (ob_annotations o) digestAnnotation = Operation_Digest (ROperation r)
             /\ annotation (ob_annotations o) attemptAnnotation = AttemptID (RScope r) /\ ob_uid o <> "" /\ ob_deleting o = false
             /\ ob_spec o = Some s /\ DeepEqual (sb_blueprint s) b = true /\ ref = object_reference id (ob_uid o) /\ (bound = "" \/ bound = ref),
           match a with None => learn (Recorded tenant id ref) v | Some _ => v end)
      | BeginOperation tenant id kind op => fun a =>
          (Operation_Digest op = LifecycleDigest tenant id kind (Operation_ID op) /\ exists b, Loaded tenant id b ∈ known v,
           learn_ok (Begun tenant id kind op) a v)
      | Encode => fun _ => (True, v)
      | GetObject name => fun a => (True, saw_object name a v)
      | CreateObject name annotations b shutdown => fun a =>
          (exists r, acquiring v r b "" /\ name = object_name (SandboxID (RScope r)) /\ v_objects v name = Absent
             /\ annotations = acquire_annotations r (Operation_Digest (ROperation r)) /\ shutdown = Deadline r,
           saw_object name (match a with Ok o => Ok o | Err _ => Err OtherError end) v)
      | DeleteObject name uid version => fun a =>
          (exists tenant id op revision b o s, operating v tenant id "release" op revision b o s
             /\ name = ob_name o /\ uid = ob_uid o /\ version = ob_version o,
           match a with Ok _ | Err IsNotFound => learn (Deleted name uid) v | Err _ => v end)
      | PatchObject name uid version annotations mode => fun _ =>
          (exists tenant id kind op revision b o s, operating v tenant id kind op revision b o s
             /\ name = ob_name o /\ uid = ob_uid o /\ version = ob_version o
             /\ ProviderReference b = object_reference id (ob_uid o) /\ ob_deleting o = false
             /\ annotations = [(revisionAnnotation, of_bytes (decimal revision)); (operationAnnotation, Operation_Digest op)]
             /\ (exists b0, Loaded tenant id b0 ∈ known v /\ checked v (Request b0))
             /\ (kind = "suspend" /\ mode = "Suspended"
                 \/ kind = "resume" /\ mode = "Running" /\ resumable op o s = true /\ enforced v (Request b) /\ same_blueprint v (Request b) s
                    /\ match sb_shutdown s with Some t => exists now, Clocked now ∈ known v /\ After t now = true | None => True end),
           v)
      | GetPod name => fun a => (True, see_pod name (sight a) v)
      | Verify b q => fun a =>
          (exists tenant id o s, owned v tenant id b o s /\ v_pods v (ob_name o) = Present q /\ ownedPod q o = true
             /\ translateState o s (Some q) = (Ready, "INFRASTRUCTURE_READY") /\ ProviderReference b = object_reference id (ob_uid o)
             /\ checked v (Request b) /\ enforced v (Request b) /\ same_blueprint v (Request b) s,
           match a with Some f => learn (Confirmed b q f) v | None => v end)
      end a
  end.

Abbreviation follows := (Observer.follows sees).

(** ** What stays known *)

Lemma elem_grows (v v' : View) f : known v ⊆ known v' -> f ∈ known v -> f ∈ known v'.
Proof. auto. Qed.

(** More is known, and the objects are as they were last seen. *)
Record extends (v v' : View) : Prop := mkExtends {
  ex_known : known v ⊆ known v';
  ex_objects : v_objects v' = v_objects v;
  ex_pods : v_pods v' = v_pods v
}.

Lemma sb_extends_refl v : extends v v.
Proof. by split. Qed.

Lemma sb_extends_trans v v' v'' : extends v v' -> extends v' v'' -> extends v v''.
Proof. intros [] []. split; [by etrans | congruence | congruence]. Qed.

Lemma learn_extends v f : extends v (learn f v).
Proof. split; [| done | done]. intros x X. cbn. apply elem_of_app. by left. Qed.

Lemma learnt v f : f ∈ known (learn f v).
Proof. cbn. apply elem_of_app. right. by apply list_elem_of_singleton. Qed.

Lemma checked_grows v v' r : known v ⊆ known v' -> checked v r -> checked v' r.
Proof. intros I (c & X & Y). exists c. auto. Qed.

Lemma enforced_grows v v' r : known v ⊆ known v' -> enforced v r -> enforced v' r.
Proof. unfold enforced. intros I. destruct (network p); auto. Qed.

Lemma same_grows v v' r s : known v ⊆ known v' -> same_blueprint v r s -> same_blueprint v' r s.
Proof. intros I (b & X & Y). exists b. auto. Qed.

Lemma prepared_grows v v' r b : known v ⊆ known v' -> prepared v r b -> prepared v' r b.
Proof. intros I [V D (t & X & Y) C R A]. split; auto; [by exists t; auto | by apply (checked_grows v)]. Qed.

Lemma acquiring_grows v v' r b bound : known v ⊆ known v' -> acquiring v r b bound -> acquiring v' r b bound.
Proof. intros I (P & R & E). split; [by apply (prepared_grows v) |]. split; [by apply I | by apply (enforced_grows v)]. Qed.

Lemma owned_extends v v' t i b o s : extends v v' -> owned v t i b o s -> owned v' t i b o s.
Proof. intros [I O _] []. split; auto. by rewrite O. Qed.

Lemma operating_extends v v' t i k op n b o s : extends v v' -> operating v t i k op n b o s -> operating v' t i k op n b o s.
Proof. intros E (O & B & C). split; [by apply (owned_extends v) |]. split; [by apply (ex_known _ _ E) | done]. Qed.

Lemma see_object_same n x v : v_objects (see_object n x v) n = x.
Proof. cbn. by rewrite bool_decide_eq_true_2. Qed.

Lemma see_pod_same n x v : v_pods (see_pod n x v) n = x.
Proof. cbn. by rewrite bool_decide_eq_true_2. Qed.

(** ** The checks *)

Lemma checkCapabilities_follows v r :
  follows v (checkCapabilities p r) (fun v' e => extends v v' /\ (e = None -> checked v' r)).
Proof.
  unfold checkCapabilities, provider_capabilities. destruct (capabilities p); cbn [negb pbind fail]; [| apply follows_ret; by split; [apply sb_extends_refl |]].
  apply follows_bind. apply (follows_weaken _ _ _ (fun v' c => extends v v'
    /\ match c with Ok c => Discovered c ∈ known v' /\ ProviderVersion c = upstreamVersion | Err _ => True end)).
  - apply follows_call. intros a. split; [done |]. cbn [snd sees projT2 occurred]. destruct a as [c | e]; cbn [learn_ok].
    + destruct (_ || _ || _ || _) eqn:E; apply follows_ret; (split; [apply learn_extends |]); [done |].
      apply orb_false_iff in E as [_ E%negb_bool_decide_false]. split; [apply learnt | done].
    + apply follows_ret. by split; [apply sb_extends_refl |].
  - intros v' [c | e] [E H]; [| by apply follows_ret]. destruct H as [D V].
    destruct (negb _ || _) eqn:K; apply follows_ret; (split; [done |]); [done |]. apply orb_false_iff in K as [_ K%negb_bool_decide_false].
    intros N. exists c. by destruct (ValidateProfile c (RProfile r)).
Qed.

Lemma checkNetwork_follows v r :
  (exists b, Request b = r /\ (Reserved b ∈ known v \/ exists tenant id, Loaded tenant id b ∈ known v)) ->
  follows v (checkNetwork p r) (fun v' e => extends v v' /\ (e = None -> enforced v' r)).
Proof.
  intros B. unfold checkNetwork, enforced. destruct (network p); cbn [negb].
  - apply (follows_call _ _ (EnforceNetwork r) Ret). intros a. split; [done |]. cbn [snd sees projT2 occurred]. apply follows_ret.
    destruct a; [by split; [apply sb_extends_refl |] |]. split; [apply learn_extends |]. intros _. apply learnt.
  - apply follows_ret. split; [apply sb_extends_refl |]. destruct (IsolationClass (RProfile r) == "container-standard") eqn:E; cbn [negb]; [| done].
    by apply bool_decide_eq_true in E.
Qed.

Lemma unchanged_follows v r s :
  follows v (unchanged p DeepEqual r s) (fun v' x => extends v v' /\ (x = Some true -> same_blueprint v' r s)).
Proof.
  unfold unchanged. apply follows_call. intros a. split; [done |]. cbn [snd sees projT2 occurred]. apply follows_ret.
  destruct a as [b |]; [| by split; [apply sb_extends_refl |]]. split; [apply learn_extends |]. intros [= K].
  apply andb_true_iff in K as [K1%bool_decide_eq_true K2]. exists b. split; [apply learnt | done].
Qed.

Lemma now_follows v : follows v (trigger Now) (fun v' t => extends v v' /\ Clocked t ∈ known v').
Proof. apply (follows_call _ _ Now Ret). intros t. split; [done |]. apply follows_ret. split; [apply learn_extends | apply learnt]. Qed.

(** ** The object of a binding *)

Lemma getOwned_follows v tenant id :
  follows v (getOwned p tenant id) (fun v' x => known v ⊆ known v'
    /\ match x with
       | Ok (b, o, s) => owned v' tenant id b o s
       | Err e => errors_Is e ErrNotFound = true -> Unbound tenant id ∈ known v' \/ v_objects v' (object_name id) = Absent
       end).
Proof.
  unfold getOwned. apply follows_call. intros a. split; [done |]. cbn [snd sees projT2 occurred].
  destruct a as [b | e]; [| apply follows_ret; destruct (errors_Is e ErrNotFound); [split; [apply learn_extends | intros _; left; apply learnt] | done]].
  pose proof (ex_known _ _ (learn_extends v (Loaded tenant id b))) as I.
  destruct (_ || _) eqn:E; [by apply follows_ret |]. apply orb_false_iff in E as [E1%negb_bool_decide_false E2%negb_bool_decide_false].
  destruct (_ && _); [by apply follows_ret |].
  apply follows_call. intros got. split; [done |]. cbn [snd sees projT2 occurred].
  destruct got as [o | e].
  2: { apply follows_ret. split; [done |]. destruct e; try done. intros _. right. unfold saw_object. apply see_object_same. }
  destruct (ob_spec o) as [s |] eqn:S; [| by apply follows_ret].
  destruct (_ || _ || _ || _) eqn:K; apply follows_ret; [done |]. split; [done |].
  apply orb_false_iff in K as [K K4%negb_bool_decide_false]. apply orb_false_iff in K as [K K3%negb_bool_decide_false].
  apply orb_false_iff in K as [K1%bool_decide_eq_false K2].
  split; try done.
  - apply learnt.
  - unfold saw_object. apply see_object_same.
  - apply andb_false_iff in K2 as [K2 | K2]; apply negb_bool_decide_false in K2; auto.
Qed.

Lemma begin_follows v tenant id kind op :
  follows v (begin_ p tenant id kind op) (fun v' x => extends v v'
    /\ match x with Ok n => Begun tenant id kind op n ∈ known v' | Err _ => True end).
Proof.
  unfold begin_. destruct (_ || _ || _) eqn:E; [apply follows_ret; by split; [apply sb_extends_refl |] |].
  apply orb_false_iff in E as [_ E%negb_bool_decide_false]. apply follows_call. intros a. split; [done |]. cbn [snd sees projT2 occurred].
  destruct a as [b | e]; [| apply follows_ret; split; [| done]; destruct (errors_Is e ErrNotFound); [apply learn_extends | apply sb_extends_refl]].
  destruct (lifecycle p); cbn [negb]; [| apply follows_ret; by split; [apply learn_extends |]].
  apply follows_call. intros a. cbn [sees projT2 occurred fst snd]. split; [split; [done |]; exists b; apply learnt |]. apply follows_ret.
  destruct a as [n | e]; cbn [learn_ok]; [| by split; [apply learn_extends |]].
  split; [eapply sb_extends_trans; apply learn_extends |]. destruct (n =? 0); [done | apply learnt].
Qed.

(** ** Acquire *)

(** What is known of an object that was obtained. *)
Definition seen_as (v v' : View) (name : string) (x : result GoError Object) : Prop :=
  known v ⊆ known v' /\ match x with Ok o => v_objects v' name = Present o | Err _ => True end.

Lemma obtain_follows v r b bound : acquiring v r b bound ->
  follows v (obtain r (Operation_Digest (ROperation r)) b bound) (fun v' x => seen_as v v' (object_name (SandboxID (RScope r))) x).
Proof.
  intros A. unfold obtain. set (name := object_name (SandboxID (RScope r))).
  apply follows_call. intros got. split; [done |]. cbn [snd sees projT2 occurred].
  destruct got as [o | e]; [apply follows_ret; split; [done | unfold saw_object; apply see_object_same] |].
  destruct e; try by apply follows_ret. destruct (bound == "") eqn:B; cbn [negb]; [| by apply follows_ret]. apply bool_decide_eq_true in B as ->.
  apply follows_call. intros made. cbn [sees projT2 occurred fst snd]. split.
  { exists r. split; [by apply (acquiring_grows v) |]. split; [done |]. split; [unfold saw_object; apply see_object_same | done]. }
  set (v1 := saw_object name (Err IsNotFound) v).
  set (w := saw_object name (match made with Ok o => Ok o | Err _ => Err OtherError end) v1). apply follows_bind.
  apply (follows_weaken _ _ _ (fun v' x => known v ⊆ known v' /\ match x with Ok o => v_objects v' name = Present o | Err _ => True end)).
  - destruct made as [o | e]; [apply follows_ret; split; [done | unfold w, saw_object; apply see_object_same] |].
    destruct e; try by apply follows_ret. apply (follows_call _ _ (GetObject name) Ret). intros again. split; [done |]. apply follows_ret.
    cbn [snd sees projT2 occurred]. destruct again as [o | e]; [split; [done | unfold saw_object; apply see_object_same] | done].
  - intros v' [o | e] H; by apply follows_ret.
Qed.

(** What an acquisition reports: an object that was bound durably. *)
Definition acquired (r : AcquireRequest) (v : View) (x : result GoError Handle) : Prop :=
  match x with
  | Ok h => HSandboxID h = SandboxID (RScope r) /\ Recorded (TenantID (RScope r)) (SandboxID (RScope r)) (HProviderReference h) ∈ known v
            /\ HState h = Provisioning
  | Err _ => True
  end.

Lemma bind_object_follows v r b bound o : acquiring v r b bound -> v_objects v (object_name (SandboxID (RScope r))) = Present o ->
  follows v (bind_object p DeepEqual r (Operation_Digest (ROperation r)) b bound o) (acquired r).
Proof.
  intros A P. unfold bind_object. destruct (_ || _ || _ || _) eqn:E; [by apply follows_ret |]. simp_bool.
  destruct (ob_spec o) as [s |] eqn:S; [| by apply follows_ret].
  destruct (DeepEqual (sb_blueprint s) b) eqn:D; cbn [negb]; [| by apply follows_ret].
  destruct (_ && _) eqn:R; [by apply follows_ret |]. apply follows_call. intros a. cbn [sees projT2 occurred fst snd]. split.
  { exists r, b, bound, o, s. do 11 (split; [done |]). apply andb_false_iff in R as [R | R]; apply negb_bool_decide_false in R; auto. }
  destruct a as [e |]; [by apply follows_ret |]. apply follows_bind. eapply follows_weaken; [apply now_follows |].
  intros v' t [X _]. apply follows_ret. split; [done |]. split; [| done]. apply (ex_known _ _ X). apply learnt.
Qed.

Lemma acquire_follows v r : follows v (AcquireSandbox p Transform IsDNS1123Subdomain DeepEqual r) (acquired r).
Proof.
  unfold AcquireSandbox. destruct (validAcquire r) eqn:V; cbn [negb]; [| by apply follows_ret].
  apply follows_bind. eapply follows_weaken; [apply now_follows |]. intros v1 now [_ C].
  destruct (After (Deadline r) now) eqn:L; cbn [negb]; [| by apply follows_ret].
  destruct (RequestDigest r != _) eqn:D; [by apply follows_ret |]. apply negb_bool_decide_false in D.
  apply follows_bind. eapply follows_weaken; [apply checkCapabilities_follows |]. intros v2 [e |] [E2 H]; [by apply follows_ret |].
  specialize (H eq_refl). apply follows_call. intros b. split; [done |]. cbn [snd sees projT2 occurred].
  destruct b as [b |]; [| by apply follows_ret]. destruct (admissible r b) eqn:AD; [by apply follows_ret |].
  assert (P : prepared (learn (Resolved r b) v2) r b).
  { split; try done.
    - exists now. split; [| done]. apply (ex_known _ _ (learn_extends _ _)), (ex_known _ _ E2), C.
    - by apply (checked_grows v2); [apply learn_extends |].
    - apply learnt. }
  apply follows_call. intros got. cbn [sees projT2 occurred fst snd]. split; [by exists b |].
  destruct got as [[r' bound] | e]; cbn [learn_ok]; [| by apply follows_ret]. cbn [Request ProviderReference].
  destruct (r' != r) eqn:Q; [by apply follows_ret |]. apply negb_bool_decide_false in Q as ->.
  set (v3 := learn (Reserved (mkBinding r bound)) (learn (Resolved r b) v2)).
  assert (RS : Reserved (mkBinding r bound) ∈ known v3) by apply learnt.
  apply follows_bind. eapply follows_weaken.
  { apply checkNetwork_follows. exists (mkBinding r bound). by split; [| left]. }
  intros v4 [e |] [E4 N]; [by apply follows_ret |]. specialize (N eq_refl).
  assert (A : acquiring v4 r b bound).
  { split; [| split; [by apply (ex_known _ _ E4) | done]].
    apply (prepared_grows v3); [apply E4 |]. by apply (prepared_grows (learn (Resolved r b) v2)); [apply learn_extends |]. }
  apply follows_call. intros ok. split; [done |]. cbn [snd sees projT2 occurred]. destruct ok; cbn [negb]; [| by apply follows_ret].
  apply follows_bind. eapply follows_weaken; [by apply obtain_follows |]. intros v5 [o | e] [K S]; [| by apply follows_ret].
  by apply bind_object_follows; [apply (acquiring_grows v4) |].
Qed.

(** ** Release *)

(** What a release reports: the object was deleted, or there is none. *)
Definition released (tenant id : ID) (v : View) (x : result GoError unit) : Prop :=
  match x with
  | Ok _ => (exists b o s, owned v tenant id b o s /\ Deleted (ob_name o) (ob_uid o) ∈ known v)
            \/ Unbound tenant id ∈ known v \/ v_objects v (object_name id) = Absent
  | Err _ => True
  end.

Lemma release_follows v tenant id op : follows v (ReleaseSandbox p tenant id op) (released tenant id).
Proof.
  unfold ReleaseSandbox. apply follows_bind. eapply follows_weaken; [apply begin_follows |]. intros v1 [n | e] [E1 B]; [| by apply follows_ret].
  apply follows_bind. eapply follows_weaken; [apply getOwned_follows |]. intros v2 [[[b o] s] | e] [I O].
  2: { apply follows_ret. destruct (errors_Is e ErrNotFound) eqn:N; [| done]. right. by apply O. }
  destruct (checkRevision (ob_annotations o) n) eqn:R; cbn [negb]; [| by apply follows_ret].
  apply follows_call. intros a. cbn [sees projT2 occurred fst snd]. split.
  { exists tenant, id, op, n, b, o, s. split; [| done]. split; [done |]. split; [by apply I | done]. }
  assert (D : released tenant id (learn (Deleted (ob_name o) (ob_uid o)) v2) (Ok tt)).
  { left. exists b, o, s. split; [by apply (owned_extends v2); [apply learn_extends |] | apply learnt]. }
  apply follows_ret. by destruct a as [u | []].
Qed.

(** ** Suspend *)

Lemma resume_checks_follows v tenant id b o s op : owned v tenant id b o s ->
  follows v (resume_checks p DeepEqual b o s op) (fun v' e => extends v v' /\ (e = None ->
    resumable op o s = true /\ enforced v' (Request b) /\ same_blueprint v' (Request b) s
    /\ match sb_shutdown s with Some t => exists now, Clocked now ∈ known v' /\ After t now = true | None => True end)).
Proof.
  intros O. unfold resume_checks. apply follows_bind.
  apply (follows_weaken _ _ _ (fun v' late => extends v v' /\ (late = false ->
    match sb_shutdown s with Some t => exists now, Clocked now ∈ known v' /\ After t now = true | None => True end))).
  { destruct (sb_shutdown s) as [t |]; [| apply follows_ret; by split; [apply sb_extends_refl |]].
    apply follows_bind. eapply follows_weaken; [apply now_follows |]. intros v' now [E C]. apply follows_ret. split; [done |].
    destruct (After t now) eqn:A; [| done]. intros _. by exists now. }
  intros v1 late [E1 L]. destruct late; cbn [negb]; [by apply follows_ret |]. specialize (L eq_refl).
  apply follows_bind. eapply follows_weaken; [apply checkNetwork_follows |].
  { exists b. split; [done |]. right. exists tenant, id. apply (ex_known _ _ E1). by destruct O. }
  intros v2 [e |] [E2 N]; [apply follows_ret; by split; [eapply sb_extends_trans |] |]. specialize (N eq_refl).
  pose proof (sb_extends_trans _ _ _ E1 E2) as E. destruct (resumable op o s) eqn:R; cbn [negb]; [| by apply follows_ret].
  apply follows_bind. eapply follows_weaken; [apply unchanged_follows |]. intros v3 x [E3 S]. apply follows_ret.
  split; [by eapply sb_extends_trans |]. destruct x as [[] |]; try done. intros _. split; [done |].
  split; [by apply (enforced_grows v2); [apply E3 |] |]. split; [by apply S |].
  destruct (sb_shutdown s) as [t |]; [| done]. destruct L as (now & C & A). exists now. split; [| done].
  by apply (ex_known _ _ E3), (ex_known _ _ E2).
Qed.

(** What a change of mode reports: the bound object of a binding. *)
Definition turned (tenant id : ID) (state : State) (v : View) (x : result GoError Handle) : Prop :=
  match x with
  | Ok h => HState h = state /\ exists b o s, owned v tenant id b o s /\ HProviderReference h = object_reference id (ob_uid o)
  | Err _ => True
  end.

Lemma setMode_follows v tenant id kind mode op : kind = "suspend" /\ mode = "Suspended" \/ kind = "resume" /\ mode = "Running" ->
  follows v (setMode p DeepEqual tenant id kind mode op) (turned tenant id (if mode == "Running" then Resuming else Suspending)).
Proof.
  intros M. unfold setMode. apply follows_call. intros a. split; [done |]. cbn [snd sees projT2 occurred].
  destruct a as [b0 | e]; [| by apply follows_ret]. pose proof (learnt v (Loaded tenant id b0)) as L0.
  set (v0 := learn (Loaded tenant id b0) v) in *.
  apply follows_bind. eapply follows_weaken; [apply checkCapabilities_follows |]. intros v1 [e |] [E1 C]; [by apply follows_ret |].
  specialize (C eq_refl). apply (ex_known _ _ E1) in L0.
  apply follows_bind. eapply follows_weaken; [apply begin_follows |]. intros v2 [n | e] [E2 B]; [| by apply follows_ret].
  apply (ex_known _ _ E2) in L0. apply (checked_grows v1 v2) in C; [| apply E2].
  apply follows_bind. eapply follows_weaken; [apply getOwned_follows |]. intros v3 [[[b o] s] | e] [I3 O]; [| by apply follows_ret].
  apply I3 in L0, B. apply (checked_grows v2 v3) in C; [| done]. clear E1 E2 I3 v0 v1 v2.
  destruct (_ || _) eqn:BD; [by apply follows_ret |]. apply orb_false_iff in BD as [BD%bool_decide_eq_false D].
  destruct (checkRevision (ob_annotations o) n) eqn:R; cbn [negb]; [| by apply follows_ret].
  assert (RF : ProviderReference b = object_reference id (ob_uid o)) by (destruct (ow_reference _ _ _ _ _ _ O); [done | done]).
  apply follows_bind. apply (follows_weaken _ _ _ (fun v' e => extends v3 v' /\ (e = None ->
    kind = "suspend" /\ mode = "Suspended"
    \/ kind = "resume" /\ mode = "Running" /\ resumable op o s = true /\ enforced v' (Request b) /\ same_blueprint v' (Request b) s
       /\ match sb_shutdown s with Some t => exists now, Clocked now ∈ known v' /\ After t now = true | None => True end))).
  { destruct M as [[-> ->] | [-> ->]].
    - change ("Suspended" == "Running") with false. apply follows_ret. split; [apply sb_extends_refl | auto].
    - change ("Running" == "Running") with true. eapply follows_weaken; [by apply (resume_checks_follows v3 tenant id) |].
      intros v' e [E H]. split; [done |]. intros N. right. auto. }
  intros v4 [e |] [E4 H]; [by apply follows_ret |]. specialize (H eq_refl).
  apply (owned_extends v3 v4) in O; [| done]. apply (ex_known _ _ E4) in L0, B. apply (checked_grows v3 v4) in C; [| apply E4].
  apply follows_bind. apply (follows_weaken _ _ _ (fun v' _ => extends v4 v')).
  { destruct (_ || _); [| apply follows_ret, sb_extends_refl]. apply follows_call. intros a. cbn [sees projT2 occurred fst snd].
    split; [| apply follows_ret, sb_extends_refl]. exists tenant, id, kind, op, n, b, o, s. split; [done |]. do 6 (split; [done |]).
    split; [by exists b0 | done]. }
  intros v5 [e |] E5; [by apply follows_ret |]. apply follows_bind. eapply follows_weaken; [apply now_follows |].
  intros v6 now [E6 _]. apply follows_ret. split; [done |]. exists b, o, s. split; [| done].
  apply (owned_extends v4); [by eapply sb_extends_trans | done].
Qed.

(** ** Get *)

(** The Pod of an object, as it was last seen: owned by it. *)
Definition pod_seen (v : View) (o : Object) (pod : option Pod) : Prop :=
  match pod with Some q => v_pods v (ob_name o) = Present q /\ ownedPod q o = true | None => v_pods v (ob_name o) = Absent end.

(** What a status reports: what was seen of the object and of its Pod, and READY only with
    everything verified. *)
Definition reported (tenant id : ID) (v : View) (x : result GoError Status) : Prop :=
  match x with
  | Ok st =>
      HState (SHandle st) = SState st /\ HSandboxID (SHandle st) = id
      /\ exists b o s pod, owned v tenant id b o s /\ pod_seen v o pod /\ HProviderReference (SHandle st) = ProviderReference b
         /\ ((SState st, Reason st) = translateState o s pod \/ (SState st, Reason st) = (Unknown, "EFFECTIVE_STATE_UNVERIFIED"))
         /\ (SState st = Ready -> Verified (Effective st) = true /\ (exists q, pod = Some q /\ Confirmed b q (Effective st) ∈ known v)
               /\ HProviderReference (SHandle st) = object_reference id (ob_uid o)
               /\ checked v (Request b) /\ enforced v (Request b) /\ same_blueprint v (Request b) s)
  | Err _ => True
  end.

Lemma pod_seen_extends v v' o pod : extends v v' -> pod_seen v o pod -> pod_seen v' o pod.
Proof. intros [_ _ P]. unfold pod_seen. by rewrite P. Qed.

Lemma translateState_ready o s pod reason : translateState o s pod = (Ready, reason) ->
  reason = "INFRASTRUCTURE_READY" /\ exists q, pod = Some q.
Proof.
  unfold translateState. destruct (ob_deleting o); [done |]. destruct (sb_mode s == "Suspended"); [by destruct (_ && _) |].
  destruct (_ && _); [done |]. destruct (_ || _); [done |]. destruct (holds_now o s "Suspended"); [done |].
  destruct (_ && _) eqn:E; [| done]. intros [= <-]. split; [done |]. apply andb_true_iff in E as [_ E]. destruct pod as [q |]; [by exists q | done].
Qed.

Lemma ready_status_follows v tenant id b o s pod st :
  owned v tenant id b o s -> pod_seen v o pod -> HProviderReference (SHandle st) = ProviderReference b -> HSandboxID (SHandle st) = id ->
  (SState st, Reason st) = translateState o s pod -> SState st = Ready ->
  follows v (ready_status p DeepEqual b s pod st) (fun v' x => reported tenant id v' (match x with Ok st => Ok (with_handle_state st) | Err e => Err e end)).
Proof.
  intros O P H1 H2 T RD. unfold ready_status.
  apply follows_bind. eapply follows_weaken; [apply checkCapabilities_follows |]. intros v1 [e |] [E1 C]; [by apply follows_ret |]. specialize (C eq_refl).
  apply follows_bind. eapply follows_weaken; [apply checkNetwork_follows |].
  { exists b. split; [done |]. right. exists tenant, id. apply (ex_known _ _ E1). by destruct O. }
  intros v2 [e |] [E2 N]; [by apply follows_ret |]. specialize (N eq_refl).
  apply follows_bind. eapply follows_weaken; [apply unchanged_follows |]. intros v3 same [E3 S].
  destruct (same != Some true) eqn:Q; [by apply follows_ret |]. apply negb_bool_decide_false in Q as ->. specialize (S eq_refl).
  pose proof (sb_extends_trans _ _ _ (sb_extends_trans _ _ _ E1 E2) E3) as E. apply (owned_extends v v3) in O; [| done]. apply (pod_seen_extends v v3) in P; [| done].
  apply (checked_grows v1 v3) in C; [| by eapply sb_extends_trans]. apply (enforced_grows v2 v3) in N; [| apply E3]. clear E1 E2 E3 E v v1 v2. rename v3 into v.
  assert (U : follows v (Ret (Ok (ComputeReconciliation.mkStatus (SHandle st) Unknown "EFFECTIVE_STATE_UNVERIFIED" (ProviderGeneration st) (Effective st))))
    (fun v' x => reported tenant id v' (match x with Ok st => Ok (with_handle_state st) | Err e => Err e end))).
  { apply follows_ret. split; [done |]. split; [done |]. exists b, o, s, pod. split; [done |]. split; [done |]. split; [done |]. split; [by right | done]. }
  destruct pod as [q |]; [| done]. destruct (verify p && _) eqn:V; [| done]. apply andb_true_iff in V as [_ V%negb_bool_decide_true].
  assert (RF : ProviderReference b = object_reference id (ob_uid o)) by (by destruct (ow_reference _ _ _ _ _ _ O)).
  apply follows_call. intros a. cbn [sees projT2 occurred fst snd]. split.
  { exists tenant, id, o, s. destruct P as [P1 P2]. split; [done |]. split; [done |]. split; [done |]. split; [| done].
    rewrite RD in T. symmetry in T. destruct (translateState_ready _ _ _ _ T) as [K _]. by rewrite T, K. }
  destruct a as [f |]; [| by apply follows_ret]. destruct (Verified f) eqn:VF; cbn [negb]; [| by apply follows_ret].
  pose proof (learn_extends v (Confirmed b q f)) as X. pose proof (ex_known _ _ X) as XK.
  apply follows_ret. split; [done |]. split; [done |]. exists b, o, s, (Some q). split; [by apply (owned_extends v) |].
  split; [by apply (pod_seen_extends v) |]. split; [done |]. split; [by left |]. intros _. split; [done |].
  split; [exists q; split; [done | apply learnt] |]. split; [by cbn; rewrite H1 |]. split; [by apply (checked_grows v) |].
  split; [by apply (enforced_grows v) | by apply (same_grows v)].
Qed.

Lemma owned_see_pod v n x t i b o s : owned v t i b o s -> owned (see_pod n x v) t i b o s.
Proof. intros []. by split. Qed.

Lemma get_follows v tenant id : follows v (GetSandbox p DeepEqual tenant id) (reported tenant id).
Proof.
  unfold GetSandbox. apply follows_bind. eapply follows_weaken; [apply getOwned_follows |]. intros v1 [[[b o] s] | e] [_ O]; [| by apply follows_ret].
  apply follows_bind. eapply follows_weaken; [apply now_follows |]. intros v2 now [E2 _]. apply (owned_extends v1 v2) in O; [| done].
  apply follows_call. intros got. split; [done |]. cbn [snd sees projT2 occurred].
  apply (owned_see_pod v2 (ob_name o) (sight got)) in O. pose proof (see_pod_same (ob_name o) (sight got) v2) as P.
  set (v3 := see_pod (ob_name o) (sight got) v2) in *.
  assert (M : forall pod, (if negb (match pod with Some q => ownedPod q o | None => true end) then True else pod_seen v3 o pod) ->
    follows v3 (if negb (match pod with Some q => ownedPod q o | None => true end) then fail ErrIntegrity
      else let (state, reason) := translateState o s pod in
           let result := ComputeReconciliation.mkStatus (mkHandle id "kubernetes-agent-sandbox" (ProviderReference b) Requested (UTC now)) state reason
                           (if ob_generation o <? 0 then "-" +:+ of_bytes (decimal (- ob_generation o)) else of_bytes (decimal (ob_generation o))) noFacts in
           do! r <- (if state == Ready then ready_status p DeepEqual b s pod result else Ret (Ok result));
           Ret (match r with Ok r => Ok (with_handle_state r) | Err e => Err e end)) (reported tenant id)).
  { intros pod S. destruct (negb _); [by apply follows_ret |]. destruct (translateState o s pod) as [state reason] eqn:T. apply follows_bind.
    destruct (state == Ready) eqn:R.
    - apply bool_decide_eq_true in R. eapply follows_weaken; [by apply (ready_status_follows v3 tenant id b o) |]. intros v' x H. by apply follows_ret.
    - apply bool_decide_eq_false in R. apply follows_ret, follows_ret. split; [done |]. split; [done |]. exists b, o, s, pod.
      split; [done |]. split; [done |]. split; [done |]. split; [by left | done]. }
  destruct got as [[q |] | e].
  - apply (M (Some q)). destruct (ownedPod q o) eqn:W; cbn [negb]; [by split | done].
  - by apply follows_ret.
  - destruct e; try by apply follows_ret. by apply (M None).
Qed.

(** ** Resume *)

Lemma resume_follows v tenant id op : follows v (ResumeSandbox p DeepEqual tenant id op) (turned tenant id Resuming).
Proof.
  unfold ResumeSandbox. apply follows_bind. eapply follows_weaken; [apply getOwned_follows |]. intros v1 [[[b o] s] | e] _; [| by apply follows_ret].
  destruct (negb (resumable op o s)); [by apply follows_ret |]. apply follows_bind.
  apply (follows_weaken _ _ _ (fun _ _ => True)).
  { destruct (sb_mode s == "Suspended"); [| by apply follows_ret]. apply follows_bind. eapply follows_weaken; [apply get_follows |].
    intros v2 x _. by apply follows_ret. }
  intros v2 [e |] _; [by apply follows_ret |]. apply follows_bind. eapply follows_weaken; [apply unchanged_follows |].
  intros v3 [[] |] _; [| by apply follows_ret | by apply follows_ret]. apply (setMode_follows v3 tenant id "resume" "Running"). by right.
Qed.
End Safety.

(** C10: Compute is created only for what was checked and reserved, and changed only as what was
    read.  In every run of the provider's operations, whatever the store, the resolvers and the
    Kubernetes API answer: a request is reserved only with its own digest, before its deadline,
    under the pinned capabilities and with an admissible blueprint; its network is enforced only
    once a durable binding holds that request; a sandbox is created only for a reservation
    without a reference, with its network enforced and its name free, as the resolved
    blueprint; a reference is bound only of the live object that was seen with this request's
    marks and blueprint; an object is deleted or patched only by the identity and version that
    were read, as the binding's, under a begun operation that no later one has overtaken, and
    brought back only before its deadline with its network enforced and an unchanged blueprint.
    An acquisition reports what was bound; a release, that the object was deleted or is absent;
    a status, what was seen, and READY only of the bound object with its own Pod once the
    capabilities, the network, the blueprint and the effective facts are verified; a suspend or
    resume, the bound object. *)
Theorem sandbox_changes_owned p Transform IsDNS1123Subdomain DeepEqual :
  let orderly := orderly (sees p Transform IsDNS1123Subdomain DeepEqual) start in
  let after := after (sees p Transform IsDNS1123Subdomain DeepEqual) start in
  (forall r tr x, runs (AcquireSandbox p Transform IsDNS1123Subdomain DeepEqual r) tr x -> orderly tr /\ acquired r (after tr) x)
  /\ (forall tenant id tr x, runs (GetSandbox p DeepEqual tenant id) tr x -> orderly tr /\ reported p DeepEqual tenant id (after tr) x)
  /\ (forall tenant id op tr x, runs (ReleaseSandbox p tenant id op) tr x -> orderly tr /\ released p tenant id (after tr) x)
  /\ (forall tenant id op tr x, runs (SuspendSandbox p DeepEqual tenant id op) tr x -> orderly tr)
  /\ (forall tenant id op tr x, runs (ResumeSandbox p DeepEqual tenant id op) tr x -> orderly tr /\ turned p tenant id Resuming (after tr) x).
Proof.
  cbv zeta. split_and!.
  - intros r tr x R. exact (acquire_follows p Transform IsDNS1123Subdomain DeepEqual start r _ _ R).
  - intros t i tr x R. exact (get_follows p Transform IsDNS1123Subdomain DeepEqual start t i _ _ R).
  - intros t i op tr x R. exact (release_follows p Transform IsDNS1123Subdomain DeepEqual start t i op _ _ R).
  - intros t i op tr x R. apply runs_bind in R as (t1 & t2 & y & -> & R & [-> _]). rewrite app_nil_r.
    apply (setMode_follows p Transform IsDNS1123Subdomain DeepEqual start t i "suspend" "Suspended" op (or_introl (conj eq_refl eq_refl)) _ _ R).
  - intros t i op tr x R. exact (resume_follows p Transform IsDNS1123Subdomain DeepEqual start t i op _ _ R).
Qed.

(** ** Witness: a sandbox is acquired, and released under its operation. *)

Definition ex_provider : Provider := mkProvider "agents" false true false true digest_a.

Definition ex_capabilities : Capabilities :=
  mkCapabilities "kubernetes-agent-sandbox" "v1" "v1.0.0" true true false ["container-standard"] (Architectures (PPlatform ex_profile))
    [AccessMode (PStorage ex_profile)] [NProfile (PNetwork ex_profile)] digest_a.

Definition ex_acquired_profile : Profile :=
  let q := ex_profile in
  mkProfile (SchemaVersion q) (Name q) (Description q) "container-standard" (PResources q) (PStorage q) (PNetwork q) (PPlatform q) (PSecurity q)
    (PLifecycle q) (mkImplementation "kubernetes-agent-sandbox" "p" "i" "s" "n").

Definition ex_compute (digest : string) : AcquireRequest :=
  mkAcquireRequest ex_scope (mkOperation id4 digest) (mkRuntime ("registry/agent@" +:+ digest_a) "amd64" ["/agentd"]) ex_acquired_profile digest_a digest_b
    (mkAttachment "pvc-1" id3 0 "/workspace" false) "bootstrap-1" (at_second 600).

Definition ex_acquire : AcquireRequest := ex_compute (default "" (RequestDigest Some (ex_compute ""))).

Definition ex_spec : PodSpec :=
  mkPodSpec false false false None (Some false) (Some false) None
    [mkContainer (Image (RRuntime ex_acquire)) ["/agentd"] None 0 0 0 0 (mkResourceList 0 0 0 0) (mkResourceList 0 0 0 0) []] 0 0 None [].

Definition ex_blueprint : Blueprint := mkBlueprint [(capabilityAnnotation, digest_a)] (Some false) 0 ex_spec.

Definition ex_answers (B : Type) (c : sbport B) : B :=
  match c in sbport B return B with
  | Now => at_second 1
  | Discover => Ok ex_capabilities
  | Resolve _ => Some ex_blueprint
  | EnforceNetwork _ => None
  | Reserve r => Ok (mkBinding r "")
  | GetBinding _ _ => Ok (mkBinding ex_acquire "")
  | BindReference _ _ _ => None
  | BeginOperation _ _ _ _ => Ok 1
  | Encode => true
  | GetObject _ => Err IsNotFound
  | CreateObject name a b t => Ok (mkObject name "uid-1" "7" 1 a false (Some (mkSandboxSpec b "Running" (Some t) [])))
  | DeleteObject _ _ _ => Ok tt
  | PatchObject _ _ _ _ _ => Ok tt
  | GetPod _ => Err IsNotFound
  | Verify _ _ => None
  end.

Abbreviation ex_acquire_run := (execute ex_answers (AcquireSandbox ex_provider Some (fun _ => true) (fun _ _ => true) ex_acquire)).

Definition ex_acquired : Handle :=
  mkHandle (SandboxID ex_scope) "kubernetes-agent-sandbox" ("agents/ar-" +:+ SandboxID ex_scope +:+ "/uid-1") Provisioning (at_second 1).

Lemma ex_sandbox_acquired : snd ex_acquire_run = Ok ex_acquired.
Proof. vm_compute. reflexivity. Qed.

Lemma sandbox_changes_owned_witness :
  snd ex_acquire_run = Ok ex_acquired
  /\ orderly (sees ex_provider Some (fun _ => true) (fun _ _ => true)) start (fst ex_acquire_run)
  /\ acquired ex_acquire (after (sees ex_provider Some (fun _ => true) (fun _ _ => true)) start (fst ex_acquire_run)) (Ok ex_acquired).
Proof.
  split; [exact ex_sandbox_acquired |].
  destruct (proj1 (sandbox_changes_owned ex_provider Some (fun _ => true) (fun _ _ => true)) ex_acquire _ _
    (execute_runs ex_answers (AcquireSandbox ex_provider Some (fun _ => true) (fun _ _ => true) ex_acquire))) as [O E].
  split; [exact O |]. rewrite <- ex_sandbox_acquired. exact E.
Defined.
