(* ===== verification/SandboxBindings.v ===== *)
(** * internal/adapters/postgres/sandbox_bindings.go: the durable bindings of sandboxes

    One tenant's rows of [sandbox_bindings] joined with [sandbox_binding_requests], of
    [sandbox_operations], [cleanup_intents], [reconciliation_work], [sandbox_replacements] and
    of the events and outbox messages that are written with them, with the constraints and
    triggers of migrations 9 and 14 to 17, and the transactions over them: the binding store
    and the lifecycle store of the sandbox providers (sandbox_bindings.go), the compute store
    of the reconciler (compute_reconciliation.go, compute_recovery.go) and the replacement of
    lost compute (sandbox_replacement.go).

    A transaction holds the row locks of a binding from its check to its commit, so it is one
    step on the tables; a request never changes once it is stored, so what is read before the
    lock holds after it.  [Env] answers what a transaction reads of other tables, the clocks and
    the fresh identifiers; [e_fault] is a statement that fails for a reason of its own
    (constraints and triggers on other tables, a lost connection), [e_lost] a commit whose
    answer is lost.  Claiming and finishing reconciliation work ([ClaimCompute],
    [FinishCompute]) are not modelled. *)

From Stdlib Require Import ZArith Bool Lia.
From stdpp Require Import base strings list gmap.
From S2P Require Import Prelude Regex RuntimeEvent GoStd JsonDecoder JsonEncode JsonUnmarshal Primitives Sha256 RuntimeProfile Profiles Interaction.
From S2P Require Import ComputeReconciliation AgentSandbox.

(** ** Rows *)

(** A row of [sandbox_bindings] with that of [sandbox_binding_requests]; an absent reference
    is the empty string. *)
Record BindingRow : Type := mkBindingRow {
  r_request : string;
  r_acquire : string;
  r_revision : Z;
  r_attempt : ID;
  r_kind : string;
  r_reference : string;
  r_suspend : option Operation;
  r_resume : option Operation;
  r_release : option Operation;
  r_state : State;
  r_reason : string;
  r_facts : option string;
  r_version : Z
}.

(** A row of [sandbox_operations]. *)
Record OperationRow : Type := mkOperationRow { p_sandbox : ID; p_kind : string; p_digest : string; p_revision : Z }.

Inductive CleanupState : Type := CleanupPending | CleanupConfirmed | CleanupQuarantined.

#[export] Instance CleanupState_eq_dec : EqDecision CleanupState.
Proof. solve_decision. Defined.

(** A row of [cleanup_intents], by its operation. *)
Record CleanupRow : Type := mkCleanupRow {
  c_owner_type : string;
  c_owner : ID;
  c_target_type : string;
  c_provider : string;
  c_reference : string;
  c_digest : string;
  c_proof : string;
  c_orphan : bool;
  c_state : CleanupState
}.

(** A row of [reconciliation_work]: what it is for. *)
Record WorkRow : Type := mkWorkRow { k_kind : string; k_target_type : string; k_target : ID; k_error : string }.

(** A row of [outbox_messages]. *)
Record MessageRow : Type := mkMessageRow {
  m_id : ID;
  m_aggregate_type : string;
  m_aggregate : ID;
  m_version : Z;
  m_payload : string;
  m_digest : string
}.

Record Tables : Type := mkTables {
  bindings : gmap ID BindingRow;
  operations : gmap string OperationRow;
  cleanups : gmap string CleanupRow;
  work : gmap ID WorkRow;
  events : list Event;
  outbox : list MessageRow;
  replacements : gmap ID ID
}.

Definition with_bindings (m : gmap ID BindingRow) (t : Tables) : Tables :=
  mkTables m (operations t) (cleanups t) (work t) (events t) (outbox t) (replacements t).
Definition with_operations (m : gmap string OperationRow) (t : Tables) : Tables :=
  mkTables (bindings t) m (cleanups t) (work t) (events t) (outbox t) (replacements t).
Definition with_cleanups (m : gmap string CleanupRow) (t : Tables) : Tables :=
  mkTables (bindings t) (operations t) m (work t) (events t) (outbox t) (replacements t).
Definition with_work (m : gmap ID WorkRow) (t : Tables) : Tables :=
  mkTables (bindings t) (operations t) (cleanups t) m (events t) (outbox t) (replacements t).
Definition with_event (e : Event) (m : MessageRow) (t : Tables) : Tables :=
  mkTables (bindings t) (operations t) (cleanups t) (work t) (events t ++ [e]) (outbox t ++ [m]) (replacements t).
Definition with_replacements (m : gmap ID ID) (t : Tables) : Tables :=
  mkTables (bindings t) (operations t) (cleanups t) (work t) (events t) (outbox t) m.

(** ** Errors *)

Inductive Failure : Type := Stable (s : Sentinel) | NoRows | Cancelled | PgError (code : string) | OtherFailure.

(** [bindingError] *)
Definition bindingError (f : Failure) : Sentinel :=
  match f with
  | Stable s => s
  | NoRows => ErrNotFound
  | Cancelled => ErrTimeout
  | PgError code =>
      if existsb (fun c => c == code) ["23505"; "23503"; "23514"; "40001"; "40P01"] then ErrConflict
      else if code == "42501" then ErrPermission
      else ErrUnavailable
  | OtherFailure => ErrUnavailable
  end.

Definition duplicate : Failure := PgError "23505".
Definition violation : Failure := PgError "23514".

Definition require (b : bool) (f : Failure) : result Failure unit := if negb b then Err f else Ok tt.

(** A [bigint] column that is incremented. *)
Definition advance (n : Z) : result Failure Z := if 9223372036854775807 <=? n then Err (PgError "22003") else Ok (n + 1).

Record Env : Type := mkEnv {
  e_fault : option Failure;
  e_lost : bool;
  e_fence : AcquireRequest -> result Failure bool;
  e_resolution : ID -> result Failure (string * string * string * string);
  e_handoff : AcquireRequest -> result Failure string;
  e_now : Time;
  e_clock : Time;
  e_ids : nat -> option ID;
  e_sequence : nat -> result Failure Z;
  e_degraded : result Failure (option Z);
  e_policy : bool;
  e_deadline : result Failure bool;
  e_safe : result Failure (bool * Z * Z);
  e_recovery_work : result Failure unit
}.

(** [transaction] *)
Definition transaction {A} (e : Env) (tenant : ID) (body : Tables -> result Failure (Tables * A)) (t : Tables) : Tables * result GoError A :=
  if negb (validID tenant) then (t, Err [ErrInvalid])
  else match body t with
  | Err f => (t, Err [bindingError f])
  | Ok (t', a) =>
      match e_fault e with
      | Some f => (t, Err [bindingError f])
      | None => (t', if e_lost e then Err [ErrUnavailable] else Ok a)
      end
  end.

(** ** The stored request *)

Definition decode_Scope (x : jtree) (a : Scope) : option Scope :=
  members x a (fun ms =>
    let names := ["TenantID"; "SessionID"; "ExecutionID"; "AttemptID"; "SandboxID"; "Generation"; "AttemptOrdinal"] in
    t ← get as_string names ms "TenantID" (TenantID a);
    s ← get as_string names ms "SessionID" (SessionID a);
    e ← get as_string names ms "ExecutionID" (ExecutionID a);
    p ← get as_string names ms "AttemptID" (AttemptID a);
    b ← get as_string names ms "SandboxID" (SandboxID a);
    g ← get (into_uint (fun n _ => n)) names ms "Generation" (Generation a);
    o ← get (into_uint (fun n _ => n)) names ms "AttemptOrdinal" (AttemptOrdinal a);
    Some (mkScope t s e p b g o)).

Definition decode_Operation (x : jtree) (a : Operation) : option Operation :=
  members x a (fun ms =>
    let names := ["ID"; "Digest"] in
    i ← get as_string names ms "ID" (Operation_ID a);
    d ← get as_string names ms "Digest" (Operation_Digest a);
    Some (mkOperation i d)).

Definition decode_Runtime (x : jtree) (a : Runtime) : option Runtime :=
  members x a (fun ms =>
    let names := ["Image"; "Architecture"; "Entrypoint"] in
    i ← get as_string names ms "Image" (Image a);
    c ← get as_string names ms "Architecture" (Architecture a);
    e ← get as_strings names ms "Entrypoint" (Entrypoint a);
    Some (mkRuntime i c e)).

Definition decode_Attachment (x : jtree) (a : Attachment) : option Attachment :=
  members x a (fun ms =>
    let names := ["Reference"; "WorkspaceID"; "Generation"; "MountPath"; "ReadOnly"] in
    r ← get as_string names ms "Reference" (Reference a);
    w ← get as_string names ms "WorkspaceID" (WorkspaceID a);
    g ← get (into_uint (fun n _ => n)) names ms "Generation" (AGeneration a);
    m ← get as_string names ms "MountPath" (MountPath a);
    o ← get as_bool names ms "ReadOnly" (ReadOnly a);
    Some (mkAttachment r w g m o)).

Definition noRequest : AcquireRequest :=
  mkAcquireRequest (mkScope "" "" "" "" "" 0 0) (mkOperation "" "") (mkRuntime "" "" []) zeroProfile "" "" (mkAttachment "" "" 0 "" false) "" zeroTime.

(** [json.Unmarshal(raw, &b.Request)] *)
Definition decodeAcquire (raw : string) : option AcquireRequest :=
  x ← parse (to_bytes raw);
  members x noRequest (fun ms =>
    let a := noRequest in
    let names := ["Scope"; "Operation"; "Runtime"; "Profile"; "ProfileDigest"; "ImplementationDigest"; "Workspace"; "BootstrapReference"; "Deadline"] in
    s ← get decode_Scope names ms "Scope" (RScope a);
    o ← get decode_Operation names ms "Operation" (ROperation a);
    r ← get decode_Runtime names ms "Runtime" (RRuntime a);
    p ← get decode_Profile names ms "Profile" (RProfile a);
    pd ← get as_string names ms "ProfileDigest" (ProfileDigest a);
    i ← get as_string names ms "ImplementationDigest" (ImplementationDigest a);
    w ← get decode_Attachment names ms "Workspace" (RWorkspace a);
    b ← get as_string names ms "BootstrapReference" (BootstrapReference a);
    d ← get (into_time (fun t _ => t)) names ms "Deadline" (Deadline a);
    Some (mkAcquireRequest s o r p pd i w b d)).

(** What [Reserve] reads of a runtime specification. *)
Record RuntimeSpec : Type := mkRuntimeSpec {
  rs_reference : string;
  rs_command : list string;
  rs_directory : string;
  rs_grace : Z;
  rs_architectures : list string
}.

Definition decodeRuntime (raw : string) : option RuntimeSpec :=
  x ← parse (to_bytes raw);
  members x (mkRuntimeSpec "" [] "" 0 []) (fun ms =>
    let names := ["image"; "entrypoint"; "platform"] in
    i ← get (fun y a => members y a (fun ms => get as_string ["reference"] ms "reference" a)) names ms "image" "";
    e ← get (fun y a => members y a (fun ms =>
               let names := ["command"; "working_directory"; "shutdown_grace_seconds"] in
               c ← get as_strings names ms "command" (fst (fst a));
               w ← get as_string names ms "working_directory" (snd (fst a));
               g ← get as_int names ms "shutdown_grace_seconds" (snd a);
               Some (c, w, g))) names ms "entrypoint" ([], "", 0);
    p ← get (fun y a => members y a (fun ms => get as_strings ["architectures"] ms "architectures" a)) names ms "platform" [];
    Some (mkRuntimeSpec i (fst (fst e)) (snd (fst e)) (snd e) p)).

Section Store.
(** The canonical form of JSON. *)
Variable Transform : string -> option string.

Abbreviation RequestDigest := (AgentSandbox.RequestDigest Transform).

(** [CanonicalRequest] *)
Definition CanonicalRequest (r : AcquireRequest) : option string :=
  raw ← Marshal (request_json r);
  b ← Transform raw;
  if 262144 <? len b then None else Some b.

(** [readSandboxBinding] *)
Definition readSandboxBinding (tenant id : ID) (t : Tables) : result Failure (Binding * Z) :=
  match bindings t !! id with
  | None => Err NoRows
  | Some row =>
      match decodeAcquire (r_request row) with
      | None => Err (Stable ErrIntegrity)
      | Some r =>
          if (TenantID (RScope r) != tenant) || (SandboxID (RScope r) != id) then Err (Stable ErrIntegrity)
          else if RequestDigest r != Some (Operation_Digest (ROperation r)) then Err (Stable ErrIntegrity)
          else Ok (mkBinding r (r_reference row), r_revision row)
      end
  end.

(** [Get] *)
Definition GetBinding (e : Env) (tenant id : ID) (t : Tables) : Tables * result GoError Binding :=
  transaction e tenant (fun t => let! b := readSandboxBinding tenant id t in Ok (t, fst b)) t.

(** ** Reconciliation work *)

Definition insertable (k : WorkRow) (t : Tables) : bool :=
  negb (bool_decide (map_Exists (fun _ w => k_kind w = k_kind k /\ k_target_type w = k_target_type k /\ k_target w = k_target k) (work t))).

(** [queueCompute] *)
Definition queueCompute (id : ID) (t : Tables) : result Failure Tables :=
  let row := mkWorkRow "sandbox.reconcile" "sandbox" id "" in
  let! t := (match work t !! id with
             | Some _ => Ok t
             | None => let! _ := require (insertable row t) duplicate in Ok (with_work (<[id := row]> (work t)) t)
             end) in
  match work t !! id with
  | None => Err NoRows
  | Some w =>
      if negb ((k_kind w == "sandbox.reconcile") && (k_target_type w == "sandbox") && (k_target w == id)) then Err (Stable ErrIntegrity)
      else Ok t
  end.

(** ** Operations *)

(** The kind of the operation that has a revision. *)
Definition kind_at (t : Tables) (id : ID) (revision : Z) : option string :=
  match map_to_list (filter (fun kv => p_sandbox (snd kv) = id /\ p_revision (snd kv) = revision) (operations t)) with
  | [] => None
  | (_, o) :: _ => Some (p_kind o)
  end.

(** [INSERT INTO sandbox_operations] with its keys. *)
Definition insert_operation (op : string) (o : OperationRow) (t : Tables) : result Failure Tables :=
  let! _ := require (negb (is_some (operations t !! op)) && negb (is_some (kind_at t (p_sandbox o) (p_revision o)))) duplicate in
  Ok (with_operations (<[op := o]> (operations t)) t).

(** [UPDATE sandbox_binding_requests SET operation_revision] with its trigger. *)
Definition set_revision (id : ID) (revision : Z) (t : Tables) : result Failure Tables :=
  match bindings t !! id with
  | None => Ok t
  | Some r =>
      let! _ := require (revision =? r_revision r + 1) violation in
      Ok (with_bindings (<[id := mkBindingRow (r_request r) (r_acquire r) revision (r_attempt r) (r_kind r) (r_reference r) (r_suspend r) (r_resume r)
                                    (r_release r) (r_state r) (r_reason r) (r_facts r) (r_version r)]> (bindings t)) t)
  end.

Definition coalesce {A} (old : option A) (new : A) : option A := match old with Some _ => old | None => Some new end.

(** [UPDATE sandbox_bindings SET <kind>_operation_id=COALESCE(...)] *)
Definition set_operation (id : ID) (kind : string) (op : Operation) (t : Tables) : result Failure Tables :=
  match bindings t !! id with
  | None => Ok t
  | Some r =>
      let! version := advance (r_version r) in
      Ok (with_bindings (<[id := mkBindingRow (r_request r) (r_acquire r) (r_revision r) (r_attempt r) (r_kind r) (r_reference r)
                                    (if kind == "suspend" then coalesce (r_suspend r) op else r_suspend r)
                                    (if kind == "resume" then coalesce (r_resume r) op else r_resume r)
                                    (if kind == "release" then coalesce (r_release r) op else r_release r)
                                    (r_state r) (r_reason r) (r_facts r) version]> (bindings t)) t)
  end.

(** The unique index on the references of a provider. *)
Definition reference_free (id : ID) (kind reference : string) (t : Tables) : bool :=
  negb (bool_decide (map_Exists (fun x r => x <> id /\ r_kind r = kind /\ r_reference r = reference) (bindings t))).

Definition with_reference (r : BindingRow) (reference : string) (version : Z) : BindingRow :=
  mkBindingRow (r_request r) (r_acquire r) (r_revision r) (r_attempt r) (r_kind r) reference (r_suspend r) (r_resume r) (r_release r) (r_state r)
    (r_reason r) (r_facts r) version.

(** A binding and its request are inserted, with the keys of both tables. *)
Definition insert_binding (id : ID) (row : BindingRow) (t : Tables) : result Failure Tables :=
  let! _ := require (negb (is_some (bindings t !! id))
                     && negb (bool_decide (map_Exists (fun _ r => r_attempt r = r_attempt row \/ r_acquire r = r_acquire row) (bindings t)))) duplicate in
  Ok (with_bindings (<[id := row]> (bindings t)) t).

Definition new_row (r : AcquireRequest) (raw : string) : BindingRow :=
  mkBindingRow raw (Operation_ID (ROperation r)) 0 (AttemptID (RScope r)) (ProviderKind (PImplementation (RProfile r))) "" None None None Requested "" None 0.

(** ** Reserve *)

(** The persisted resolution is authoritative. *)
Definition resolved (r : AcquireRequest) (x : string * string * string * string) : result Failure unit :=
  let '(profileRaw, pd, id, runtimeRaw) := x in
  if (pd != ProfileDigest r) || (id != ImplementationDigest r) || (Digest profileRaw != pd) then Err (Stable ErrIntegrity)
  else match unmarshalProfile profileRaw, decodeRuntime runtimeRaw with
  | Some profile, Some runtime =>
      if (profile != RProfile r) || (rs_reference runtime != Image (RRuntime r)) || (rs_command runtime != Entrypoint (RRuntime r))
         || negb (Contains (rs_architectures runtime) (Architecture (RRuntime r))) then Err (Stable ErrIntegrity)
      else if ((rs_directory runtime != "") && (rs_directory runtime != "/workspace"))
              || (TerminationGraceSeconds (PLifecycle (RProfile r)) <? rs_grace runtime) then Err (Stable ErrUnsupported)
      else Ok tt
  | _, _ => Err (Stable ErrIntegrity)
  end.

(** A reservation that exists is replayed unless it was released. *)
Definition replayed (r : AcquireRequest) (raw : string) (previous : Binding) (revision : Z) (t : Tables) : result Failure (Tables * Binding) :=
  if CanonicalRequest (Request previous) != Some raw then Err (Stable ErrConflict)
  else
    let! _ := (if 0 <? revision then
                 match kind_at t (SandboxID (RScope r)) revision with
                 | None => Err NoRows
                 | Some kind => if kind == "release" then Err (Stable ErrConflict) else Ok tt
                 end
               else Ok tt) in
    let! t := queueCompute (SandboxID (RScope r)) t in Ok (t, previous).

Definition reserved (e : Env) (r : AcquireRequest) (raw : string) (t : Tables) : result Failure (Tables * Binding) :=
  let id := SandboxID (RScope r) in
  if is_some (operations t !! Operation_ID (ROperation r)) then Err (Stable ErrConflict)
  else
    let! current := e_fence e r in
    if negb current then Err (Stable ErrConflict)
    else
      let! x := e_resolution e (ExecutionID (RScope r)) in
      let! _ := resolved r x in
      match readSandboxBinding (TenantID (RScope r)) id t with
      | Ok (previous, revision) => replayed r raw previous revision t
      | Err NoRows =>
          let! reference := e_handoff e r in
          let! t := insert_binding id (new_row r raw) t in
          let! t := (if reference != "" then
                       let! _ := require (reference_free id (ProviderKind (PImplementation (RProfile r))) reference t) duplicate in
                       Ok (with_bindings (<[id := with_reference (new_row r raw) reference 0]> (bindings t)) t)
                     else Ok t) in
          let! t := queueCompute id t in
          Ok (t, mkBinding r reference)
      | Err f => Err f
      end.

Definition ReserveBinding (e : Env) (r : AcquireRequest) (t : Tables) : Tables * result GoError Binding :=
  let s := RScope r in
  if negb (validID (Operation_ID (ROperation r))) || negb (forallb validID [SessionID s; ExecutionID s; AttemptID s; SandboxID s]) then (t, Err [ErrInvalid])
  else if (RequestDigest r != Some (Operation_Digest (ROperation r))) || negb (is_ok (ValidateConstraints (RProfile r)))
          || negb (After (Deadline r) (e_now e)) then (t, Err [ErrInvalid])
  else match CanonicalRequest r with
  | None => (t, Err [ErrInvalid])
  | Some raw => transaction e (TenantID s) (reserved e r raw) t
  end.

(** ** BindReference *)

Definition bound (tenant id : ID) (reference : string) (t : Tables) : result Failure (Tables * unit) :=
  let! x := readSandboxBinding tenant id t in
  if ProviderReference (fst x) != "" then
    if ProviderReference (fst x) != reference then Err (Stable ErrIntegrity) else Ok (t, tt)
  else match bindings t !! id with
  | None => Ok (t, tt)
  | Some row =>
      let! version := advance (r_version row) in
      let! _ := require (reference_free id (r_kind row) reference t) duplicate in
      Ok (with_bindings (<[id := with_reference row reference version]> (bindings t)) t, tt)
  end.

Definition BindReference (e : Env) (tenant id : ID) (reference : string) (t : Tables) : Tables * result GoError unit :=
  if (len reference =? 0) || (2048 <? len reference) then (t, Err [ErrInvalid]) else transaction e tenant (bound tenant id reference) t.

(** ** BeginOperation *)

Definition kinds : list string := ["suspend"; "resume"; "release"].

Definition live (c : CleanupState) : bool := negb (c == CleanupQuarantined).

(** A cleanup intent for exactly this release of what is bound. *)
Definition cleanup_for (t : Tables) (id : ID) (b : Binding) (op : Operation) : bool :=
  match cleanups t !! Operation_ID op with
  | None => false
  | Some c =>
      (c_owner_type c == "sandbox-binding") && (c_owner c == id) && (c_target_type c == "sandbox")
      && (c_provider c == ProviderKind (PImplementation (RProfile (Request b)))) && (c_reference c == ProviderReference b)
      && (c_digest c == Operation_Digest op) && (c_proof c == Operation_Digest (ROperation (Request b))) && live (c_state c)
  end.

(** A new operation: never after a release. *)
Definition journaled (id : ID) (kind : string) (op : Operation) (revision : Z) (t : Tables) : result Failure (Tables * Z) :=
  let! _ := (if 0 <? revision then
               match kind_at t id revision with
               | None => Err NoRows
               | Some last => if last == "release" then Err (Stable ErrConflict) else Ok tt
               end
             else Ok tt) in
  let! revision := advance revision in
  let! t := insert_operation (Operation_ID op) (mkOperationRow id kind (Operation_Digest op) revision) t in
  let! t := set_revision id revision t in
  let! t := set_operation id kind op t in
  let! t := (if kind == "release" then queueCompute id t else Ok t) in
  Ok (t, revision).

Definition begun (e : Env) (tenant id : ID) (kind : string) (op : Operation) (t : Tables) : result Failure (Tables * Z) :=
  if bool_decide (map_Exists (fun _ r => r_acquire r = Operation_ID op) (bindings t)) then Err (Stable ErrConflict)
  else
    let! x := readSandboxBinding tenant id t in
    let! current := e_fence e (Request (fst x)) in
    let (b, revision) := x in
    if negb current && ((kind != "release") || negb (cleanup_for t id b op)) then Err (Stable ErrConflict)
    else match operations t !! Operation_ID op with
    | Some o =>
        if (p_sandbox o != id) || (p_kind o != kind) || (p_digest o != Operation_Digest op) || negb (p_revision o =? revision) then Err (Stable ErrConflict)
        else let! t := (if kind == "release" then queueCompute id t else Ok t) in Ok (t, revision)
    | None => journaled id kind op revision t
    end.

Definition BeginOperation (e : Env) (tenant id : ID) (kind : string) (op : Operation) (t : Tables) : Tables * result GoError Z :=
  if negb (validID (Operation_ID op)) || negb (Contains kinds kind) || (Operation_Digest op != LifecycleDigest tenant id kind (Operation_ID op))
  then (t, Err [ErrInvalid])
  else transaction e tenant (begun e tenant id kind op) t.

(** ** compute_reconciliation.go *)

Definition observationCode : re := RCat (RCls cls_upper) (rep_upto 63 (RCls (cls_upper ++ cls_digit ++ [(95, 95)]))).

(** A cleanup intent for what is bound. *)
Definition cleanup_of (t : Tables) (id : ID) (b : Binding) : option (string * CleanupRow) :=
  head (map_to_list (filter (fun kv =>
    (c_owner_type (snd kv) == "sandbox-binding") && (c_owner (snd kv) == id) && (c_target_type (snd kv) == "sandbox")
    && (c_provider (snd kv) == ProviderKind (PImplementation (RProfile (Request b)))) && (c_reference (snd kv) == ProviderReference b)
    && (c_proof (snd kv) == Operation_Digest (ROperation (Request b))) && live (c_state (snd kv)) = true) (cleanups t))).

(** The operation that has a revision. *)
Definition operation_at (t : Tables) (id : ID) (revision : Z) : option (string * OperationRow) :=
  head (map_to_list (filter (fun kv => p_sandbox (snd kv) = id /\ p_revision (snd kv) = revision) (operations t))).

(** [loadCompute] *)
Definition loadCompute (e : Env) (tenant id : ID) (t : Tables) : result Failure ComputeIntent :=
  let! x := readSandboxBinding tenant id t in
  let! current := e_fence e (Request (fst x)) in
  let (b, revision) := x in
  match bindings t !! id with
  | None => Err NoRows
  | Some row =>
      let acquire := ROperation (Request b) in
      if revision =? 0 then
        match (if ProviderReference b != "" then cleanup_of t id b else None) with
        | Some (op, c) =>
            if c_digest c != LifecycleDigest tenant id "release" op then Err (Stable ErrIntegrity)
            else Ok (mkComputeIntent b ComputeReleased (mkOperation op (c_digest c)) (r_version row) revision current true)
        | None => Ok (mkComputeIntent b ComputeRunning acquire (r_version row) revision current false)
        end
      else match operation_at t id revision with
      | None => Err NoRows
      | Some (op, o) =>
          if p_kind o != "release" then Err (Stable ErrUnsupported)
          else
            let operation := mkOperation op (p_digest o) in
            Ok (mkComputeIntent b ComputeReleased operation (r_version row) revision current (cleanup_for t id b operation))
      end
  end.

Definition LoadCompute (e : Env) (tenant id : ID) (t : Tables) : Tables * result GoError ComputeIntent :=
  transaction e tenant (fun t => let! i := loadCompute e tenant id t in Ok (t, i)) t.

(** ** compute_recovery.go *)

Definition scope_of (i : ComputeIntent) : Scope := RScope (Request (IBinding i)).

(** An event is appended, with its outbox message. *)
Definition emit (e : Env) (n k : nat) (s : Scope) (kind : string) (version : Z) (payload : list (string * jvalue)) (aggregate_type : string)
    (aggregate : ID) (now : Time) (t : Tables) : result Failure Tables :=
  match e_ids e n with
  | None => Err OtherFailure
  | Some id =>
      let! sequence := e_sequence e k in
      match Marshal (JMap payload) with
      | None => Err OtherFailure
      | Some raw =>
          match RuntimeEvent.New id (TenantID s) (SessionID s) (ExecutionID s) (AttemptID s) sequence version kind now now "agent-runtime" "Internal" raw
                  (mkCorrelation "" "" "") "runtime-control" None with
          | Err _ => Err OtherFailure
          | Ok event =>
              match Marshal (JMap
                [ ("schema_version", JString "thinkpixel.runtime-event/v1"); ("event_id", JString id); ("tenant_id", JString (TenantID s));
                  ("session_id", JString (SessionID s)); ("execution_id", JString (ExecutionID s)); ("attempt_id", JString (AttemptID s));
                  ("sequence", JUint sequence); ("aggregate_version", JUint version); ("type", JString kind); ("occurred_at", JTime now);
                  ("recorded_at", JTime now); ("source", JString "agent-runtime"); ("classification", JString "Internal"); ("payload", JMap payload);
                  ("correlation", JMap []) ]) with
              | None => Err OtherFailure
              | Some envelope => Ok (with_event event (mkMessageRow id aggregate_type aggregate version envelope (Digest envelope)) t)
              end
          end
      end
  end.

(** [recordRecoveryEvent] *)
Definition recordRecoveryEvent (e : Env) (i : ComputeIntent) (code eventType : string) (version : Z) (now : Time) (t : Tables) : result Failure Tables :=
  let s := scope_of i in
  let payload := [("sandbox_id", JString (SandboxID s)); ("reason_code", JString code); ("recovery_required", bool_json true)]
                 ++ (if eventType == "session.degraded" then [("previous_state", JString "ACTIVE"); ("state", JString "DEGRADED")] else []) in
  emit e 1 0 s eventType version payload (if eventType == "sandbox.health_changed" then "sandbox-binding" else "session")
    (if eventType == "sandbox.health_changed" then SandboxID s else SessionID s) now t.

Definition settled (s : CleanupState) (c : CleanupRow) : CleanupRow :=
  mkCleanupRow (c_owner_type c) (c_owner c) (c_target_type c) (c_provider c) (c_reference c) (c_digest c) (c_proof c) (c_orphan c) s.

(** [UPDATE cleanup_intents SET state ... AND state='PENDING'], of the rows that qualify. *)
Definition settle (op : string) (s : CleanupState) (qualifies : CleanupRow -> bool) (t : Tables) : Tables :=
  match cleanups t !! op with
  | Some c => if (c_state c == CleanupPending) && qualifies c then with_cleanups (<[op := settled s c]> (cleanups t)) t else t
  | None => t
  end.

(** [INSERT INTO reconciliation_work ... ON CONFLICT(tenant_id,work_kind,target_type,target_id) DO NOTHING];
    whether a row was inserted. *)
Definition queueRecovery (recoveryID : ID) (row : WorkRow) (t : Tables) : result Failure (Tables * bool) :=
  if negb (insertable row t) then Ok (t, false)
  else let! _ := require (negb (is_some (work t !! recoveryID))) duplicate in Ok (with_work (<[recoveryID := row]> (work t)) t, true).

(** [INSERT INTO cleanup_intents] with its keys. *)
Definition insert_cleanup (op : string) (c : CleanupRow) (t : Tables) : result Failure Tables :=
  let! _ := require (negb (is_some (cleanups t !! op))
                     && negb (bool_decide (map_Exists (fun _ x => c_provider x = c_provider c /\ c_target_type x = c_target_type c
                                                                /\ c_reference x = c_reference c) (cleanups t)))) duplicate in
  Ok (with_cleanups (<[op := c]> (cleanups t)) t).

(** [UPDATE sandbox_bindings SET release_operation_id], with its trigger. *)
Definition set_release (id : ID) (op : Operation) (t : Tables) : result Failure Tables :=
  match bindings t !! id with
  | None => Ok t
  | Some r =>
      let! version := advance (r_version r) in
      let! _ := require (match r_release r with Some old => old == op | None => true end) violation in
      Ok (with_bindings (<[id := mkBindingRow (r_request r) (r_acquire r) (r_revision r) (r_attempt r) (r_kind r) (r_reference r) (r_suspend r) (r_resume r)
                                    (Some op) (r_state r) (r_reason r) (r_facts r) version]> (bindings t)) t)
  end.

(** The release of compute that is to be recovered. *)
Definition orphaned (e : Env) (i : ComputeIntent) (t : Tables) : result Failure Tables :=
  let s := scope_of i in
  match e_ids e 2 with
  | None => Err OtherFailure
  | Some id =>
      let op := mkOperation id (LifecycleDigest (TenantID s) (SandboxID s) "release" id) in
      let! t := insert_cleanup id (mkCleanupRow "sandbox-binding" (SandboxID s) "sandbox" (ProviderKind (PImplementation (RProfile (Request (IBinding i)))))
                                     (ProviderReference (IBinding i)) (Operation_Digest op) (Operation_Digest (ROperation (Request (IBinding i))))
                                     (negb (Current i)) CleanupPending) t in
      let revision := u64 (Revision i + 1) in
      let! t := insert_operation id (mkOperationRow (SandboxID s) "release" (Operation_Digest op) revision) t in
      let! t := set_revision (SandboxID s) revision t in
      set_release (SandboxID s) op t
  end.

(** [recordComputeRecovery] *)
Definition recordComputeRecovery (e : Env) (i : ComputeIntent) (o : ComputeObservation) (now : Time) (t : Tables) : result Failure Tables :=
  let s := scope_of i in
  match e_ids e 0 with
  | None => Err OtherFailure
  | Some recoveryID =>
      let! x := queueRecovery recoveryID (mkWorkRow "sandbox.recover" "sandbox" (SandboxID s) (Code o)) t in
      let (t, inserted) := x in
      match Desired i with
      | ComputeReleased =>
          let t := settle (Operation_ID (IOperation i)) CleanupQuarantined (fun _ => true) t in
          if negb inserted then Ok t
          else recordRecoveryEvent e i (Code o) "sandbox.health_changed" (u64 (Version i + 1)) now t
      | _ =>
          if negb inserted then Ok t
          else
            let! degraded := e_degraded e in
            let! t := recordRecoveryEvent e i (Code o) (match degraded with Some _ => "session.degraded" | None => "sandbox.health_changed" end)
                        (match degraded with Some version => version | None => u64 (Version i + 1) end) now t in
            if ProviderReference (IBinding i) == "" then Ok t else orphaned e i t
      end
  end.

(** ** RecordCompute *)

Definition facts_json (f : EffectiveFacts) : jvalue :=
  JStruct [("IsolationClass", JString (EIsolationClass f)); ("Image", JString (EImage f)); ("Architecture", JString (EArchitecture f));
           ("ResourceDigest", JString (ResourceDigest f)); ("NetworkClass", JString (NetworkClass f));
           ("AttachmentReference", JString (AttachmentReference f)); ("Verified", bool_json (Verified f))].

Definition observable (s : State) : bool :=
  match s with Unknown | Provisioning | Requested | Resuming | Ready | Releasing | Released => true | _ => false end.

Definition observation_error (o : ComputeObservation) : option Sentinel :=
  if negb (match_string observationCode (Code o)) then Some ErrInvalid
  else if negb (observable (OState o)) then Some ErrInvalid
  else if negb (eqb (Converged o) ((OState o == Ready) || (OState o == Released))) || (RecoveryRequired o && (OState o != Unknown)) then Some ErrInvalid
  else if (OState o == Ready) && negb (Verified (OEffective o)) then Some ErrIntegrity
  else None.

Definition running (i : ComputeIntent) : bool := match Desired i with ComputeRunning => true | _ => false end.
Definition releasing (i : ComputeIntent) : bool := match Desired i with ComputeReleased => true | _ => false end.

#[export] Instance DesiredCompute_eq_dec : EqDecision DesiredCompute.
Proof. solve_decision. Defined.

(** Whether an intent is still the one that was observed. *)
Definition same_intent (current expected : ComputeIntent) : bool :=
  negb ((running current && negb (eqb (Current current) (Current expected))) || negb (Version current =? Version expected)
        || negb (Revision current =? Revision expected) || (IOperation current != IOperation expected) || (Desired current != Desired expected)
        || (ROperation (Request (IBinding current)) != ROperation (Request (IBinding expected)))
        || (ProviderReference (IBinding current) != ProviderReference (IBinding expected))).

(** Whether an intent permits its observation. *)
Definition permitted (current expected : ComputeIntent) (o : ComputeObservation) : option Sentinel :=
  if (running current && negb (Current current) && negb (RecoveryRequired o && (Code o == "FENCED_COMPUTE") && negb (Current expected)))
     || (releasing current && negb (ReleaseAuthorized current)) then Some ErrConflict
  else if (running current && ((OState o == Released) || (OState o == Releasing)))
          || (releasing current && (OState o != Released) && (OState o != Releasing) && (OState o != Unknown)) then Some ErrIntegrity
  else None.

(** [UPDATE sandbox_bindings SET state=...] *)
Definition set_state (id : ID) (o : ComputeObservation) (facts : option string) (t : Tables) : result Failure Tables :=
  match bindings t !! id with
  | None => Ok t
  | Some r =>
      let! version := advance (r_version r) in
      Ok (with_bindings (<[id := mkBindingRow (r_request r) (r_acquire r) (r_revision r) (r_attempt r) (r_kind r) (r_reference r) (r_suspend r) (r_resume r)
                                    (r_release r) (OState o) (Code o) facts version]> (bindings t)) t)
  end.

Definition recorded (e : Env) (expected : ComputeIntent) (o : ComputeObservation) (t : Tables) : result Failure (Tables * unit) :=
  let s := scope_of expected in
  let! current := loadCompute e (TenantID s) (SandboxID s) t in
  if negb (same_intent current expected) then Err (Stable ErrConflict)
  else match permitted current expected o with
  | Some s => Err (Stable s)
  | None =>
      match (if Verified (OEffective o) then option_map (fun raw => Some (Digest raw)) (Marshal (facts_json (OEffective o))) else Some None) with
      | None => Err (Stable ErrInvalid)
      | Some facts =>
          let! t := set_state (SandboxID s) o facts t in
          let! t := (if RecoveryRequired o then recordComputeRecovery e current o (e_clock e) t
                     else if OState o == Released then
                       Ok (settle (Operation_ID (IOperation current)) CleanupConfirmed
                             (fun c => (c_owner_type c == "sandbox-binding") && (c_owner c == SandboxID s)) t)
                     else Ok t) in
          Ok (t, tt)
      end
  end.

Definition RecordCompute (e : Env) (expected : ComputeIntent) (o : ComputeObservation) (t : Tables) : Tables * result GoError unit :=
  match observation_error o with
  | Some s => (t, Err [s])
  | None => transaction e (TenantID (scope_of expected)) (recorded e expected o) t
  end.

(** ** sandbox_replacement.go *)

Record Resources : Type := mkResources {
  z_attempt : ID;
  z_sandbox : ID;
  z_operation : ID;
  z_attachment : string;
  z_bootstrap : string
}.

Definition resources_ok (z : Resources) : bool :=
  validID (z_attempt z) && validID (z_sandbox z) && validID (z_operation z)
  && is_ok (BoundedString (z_attachment z) 1 2048 2048) && is_ok (BoundedString (z_bootstrap z) 1 2048 2048).

(** [replacementDeadline] and the policy *)
Definition replaceable (e : Env) : result Failure unit :=
  let! _ := require (e_policy e) (Stable ErrPermission) in
  let! current := e_deadline e in
  require current (Stable ErrConflict).

(** A replacement that was decided before. *)
Definition replacement_replayed (e : Env) (tenant id : ID) (z : Resources) (t : Tables) : result Failure (Tables * Binding) :=
  let! x := readSandboxBinding tenant id t in
  let r := Request (fst x) in
  if (AttemptID (RScope r) != z_attempt z) || (SandboxID (RScope r) != z_sandbox z) || (Operation_ID (ROperation r) != z_operation z)
     || (Reference (RWorkspace r) != z_attachment z) || (BootstrapReference r != z_bootstrap z) then Err (Stable ErrConflict)
  else
    let! current := e_fence e r in
    let alive := match bindings t !! id with
                 | Some row => negb (is_some (r_release row)) && negb (existsb (fun s => s == r_state row) [Released; Releasing; Failed])
                 | None => false
                 end in
    if negb current || negb alive then Err (Stable ErrConflict)
    else let! _ := replaceable e in Ok (t, fst x).

(** The request of the replacement. *)
Definition candidate_of (old : AcquireRequest) (z : Resources) : AcquireRequest :=
  let s := RScope old in
  let w := RWorkspace old in
  mkAcquireRequest (mkScope (TenantID s) (SessionID s) (ExecutionID s) (z_attempt z) (z_sandbox z) (Generation s) (u64 (AttemptOrdinal s + 1)))
    (mkOperation (z_operation z) (Operation_Digest (ROperation old))) (RRuntime old) (RProfile old) (ProfileDigest old) (ImplementationDigest old)
    (mkAttachment (z_attachment z) (WorkspaceID w) (AGeneration w) (MountPath w) (ReadOnly w)) (z_bootstrap z) (Deadline old).

(** [replacementEvent] *)
Definition replacementEvent (e : Env) (n k : nat) (old next : Scope) (kind : string) (version : Z) (now : Time) (t : Tables) : result Failure Tables :=
  let payload := [("old_attempt_id", JString (AttemptID old)); ("replacement_attempt_id", JString (AttemptID next));
                  ("old_sandbox_id", JString (SandboxID old)); ("replacement_sandbox_id", JString (SandboxID next));
                  ("reason_code", JString "PRE_EXECUTION_COMPUTE_REPLACED")]
                 ++ (if kind == "session.state_changed" then [("previous_state", JString "DEGRADED"); ("state", JString "ACTIVE")] else []) in
  emit e n k old kind version payload (if kind == "session.state_changed" then "session" else "attempt")
    (if kind == "session.state_changed" then SessionID old else AttemptID old) now t.

Definition replacement_decided (e : Env) (tenant lost : ID) (z : Resources) (old : AcquireRequest) (t : Tables) : result Failure (Tables * Binding) :=
  let! x := e_safe e in
  let '(safe, attemptVersion, sessionVersion) := x in
  let s := RScope old in
  if negb safe || (z_attempt z == AttemptID s) || (z_sandbox z == lost) || (z_operation z == Operation_ID (ROperation old))
     || (9223372036854775807 <=? AttemptOrdinal s) || (z_attachment z == Reference (RWorkspace old)) || (z_bootstrap z == BootstrapReference old)
  then Err (Stable ErrConflict)
  else match RequestDigest (candidate_of old z) with
  | None => Err (Stable ErrInvalid)
  | Some d =>
      let candidate := set_digest d (candidate_of old z) in
      let! _ := replaceable e in
      if is_some (operations t !! Operation_ID (ROperation candidate)) then Err (Stable ErrConflict)
      else match CanonicalRequest candidate with
      | None => Err (Stable ErrInvalid)
      | Some raw =>
          let! t := insert_binding (z_sandbox z) (new_row candidate raw) t in
          let! _ := require (negb (is_some (replacements t !! lost))
                             && negb (bool_decide (map_Exists (fun _ x => x = z_sandbox z) (replacements t)))) duplicate in
          let t := with_replacements (<[lost := z_sandbox z]> (replacements t)) t in
          let! _ := (match e_recovery_work e with Err NoRows => Err (Stable ErrConflict) | r => r end) in
          let! t := queueCompute (z_sandbox z) t in
          let! t := replacementEvent e 0 0 s (RScope candidate) "attempt.replaced" (u64 (attemptVersion + 2)) (e_clock e) t in
          let! t := replacementEvent e 1 1 s (RScope candidate) "session.state_changed" (u64 (sessionVersion + 1)) (e_clock e) t in
          Ok (t, mkBinding candidate "")
      end
  end.

Definition replaced (e : Env) (tenant lost : ID) (z : Resources) (t : Tables) : result Failure (Tables * Binding) :=
  let! old := readSandboxBinding tenant lost t in
  let! _ := e_fence e (Request (fst old)) in
  match replacements t !! lost with
  | Some id => replacement_replayed e tenant id z t
  | None => replacement_decided e tenant lost z (Request (fst old)) t
  end.

Definition ReplaceDeleted (e : Env) (tenant lost : ID) (z : Resources) (t : Tables) : Tables * result GoError Binding :=
  if negb (validID lost) || negb (resources_ok z) then (t, Err [ErrInvalid]) else transaction e tenant (replaced e tenant lost z) t.
End Store.
