(* ===== verification/SandboxJournal.v ===== *)
(** * What holds of the durable bindings of sandboxes

    Every transaction of [SandboxBindings] is a sequence of changes of four kinds ([change]):
    one that touches neither a binding nor an operation, one that inserts a binding, one that
    updates a binding under a new version, and one that journals an operation under the next
    revision of a binding that was not released.  So the journal of operations is an
    append-only history without gaps, ended by a release, and every update of a binding can be
    told by its version. *)

From Stdlib Require Import ZArith Bool Lia.
From stdpp Require Import base strings list gmap relations.
From S2P Require Import Prelude Regex RuntimeEvent GoStd JsonDecoder JsonEncode JsonUnmarshal Primitives Sha256 RuntimeProfile Profiles Interaction.
From S2P Require Import ComputeReconciliation AgentSandbox SandboxBindings.

Lemma rbind_ok {E A B} (m : result E A) (k : A -> result E B) b : rbind m k = Ok b -> exists a, m = Ok a /\ k a = Ok b.
Proof. destruct m as [a |]; [| done]. intros H. by exists a. Qed.

Lemma require_ok b f u : require b f = Ok u -> b = true.
Proof. by destruct b. Qed.

Lemma advance_ok n m : advance n = Ok m -> m = n + 1.
Proof. unfold advance. destruct (_ <=? _); [done |]. by intros [= <-]. Qed.

(** The next step of a transaction. *)
Ltac bind_step H x E := apply rbind_ok in H as (x & E & H).

(** ** The invariant *)

Record journal (t : Tables) : Prop := mkJournal {
  j_row : forall op o, operations t !! op = Some o ->
    exists r, bindings t !! p_sandbox o = Some r /\ 1 <= p_revision o <= r_revision r /\ p_kind o ∈ kinds;
  j_once : forall op op' o o', operations t !! op = Some o -> operations t !! op' = Some o' ->
    p_sandbox o = p_sandbox o' -> p_revision o = p_revision o' -> op = op';
  j_all : forall x r n, bindings t !! x = Some r -> 1 <= n <= r_revision r ->
    exists op o, operations t !! op = Some o /\ p_sandbox o = x /\ p_revision o = n;
  j_last : forall op o r, operations t !! op = Some o -> bindings t !! p_sandbox o = Some r -> p_kind o = "release" -> p_revision o = r_revision r;
  j_revision : forall x r, bindings t !! x = Some r -> 0 <= r_revision r;
  j_attempt : forall x y r r', bindings t !! x = Some r -> bindings t !! y = Some r' -> r_attempt r = r_attempt r' \/ r_acquire r = r_acquire r' -> x = y;
  j_reference : forall x y r r', bindings t !! x = Some r -> bindings t !! y = Some r' -> r_kind r = r_kind r' ->
    r_reference r = r_reference r' -> r_reference r <> "" -> x = y
}.

(** What a binding keeps while it is updated. *)
Record kept (r r' : BindingRow) : Prop := mkKept {
  k_request : r_request r' = r_request r;
  k_acquire : r_acquire r' = r_acquire r;
  k_attempt : r_attempt r' = r_attempt r;
  k_provider : r_kind r' = r_kind r;
  k_reference : r_reference r <> "" -> r_reference r' = r_reference r;
  k_suspend : is_some (r_suspend r) = true -> r_suspend r' = r_suspend r;
  k_resume : is_some (r_resume r) = true -> r_resume r' = r_resume r;
  k_release : is_some (r_release r) = true -> r_release r' = r_release r;
  k_revision : r_revision r <= r_revision r';
  k_version : r_version r < r_version r'
}.

Inductive change (t t' : Tables) : Prop :=
| Elsewhere : bindings t' = bindings t -> operations t' = operations t -> change t t'
| Inserted id row : bindings t !! id = None -> r_revision row = 0 ->
    (forall x r, bindings t !! x = Some r -> r_attempt r <> r_attempt row /\ r_acquire r <> r_acquire row) ->
    (forall x r, bindings t !! x = Some r -> r_kind r = r_kind row -> r_reference r = r_reference row -> r_reference row = "") ->
    bindings t' = <[id := row]> (bindings t) -> operations t' = operations t -> change t t'
| Updated id r r' : bindings t !! id = Some r -> kept r r' -> r_revision r' = r_revision r ->
    (forall x s, x <> id -> bindings t !! x = Some s -> r_kind s = r_kind r' -> r_reference s = r_reference r' -> r_reference r' = r_reference r) ->
    bindings t' = <[id := r']> (bindings t) -> operations t' = operations t -> change t t'
| Journaled id r r' op o : bindings t !! id = Some r -> kept r r' -> r_revision r' = r_revision r + 1 -> r_reference r' = r_reference r ->
    (r_revision r = 0 \/ exists k, kind_at t id (r_revision r) = Some k /\ k <> "release") ->
    operations t !! op = None -> o = mkOperationRow id (p_kind o) (p_digest o) (r_revision r') -> p_kind o ∈ kinds ->
    bindings t' = <[id := r']> (bindings t) -> operations t' = <[op := o]> (operations t) -> change t t'.

Lemma kind_at_some t id n k : kind_at t id n = Some k ->
  exists op o, operations t !! op = Some o /\ p_sandbox o = id /\ p_revision o = n /\ p_kind o = k.
Proof.
  unfold kind_at. destruct (map_to_list _) as [| [op o] l] eqn:E; [done |]. intros [= <-].
  assert (X : (op, o) ∈ map_to_list (filter (fun kv => p_sandbox (snd kv) = id /\ p_revision (snd kv) = n) (operations t))) by (rewrite E; apply list_elem_of_here).
  apply elem_of_map_to_list, map_lookup_filter_Some in X as [X [Y Z]]. by exists op, o.
Qed.

Lemma kind_at_none t id n op o : kind_at t id n = None -> operations t !! op = Some o -> p_sandbox o = id -> p_revision o <> n.
Proof.
  unfold kind_at. destruct (map_to_list _) as [| [? ?] l] eqn:E; [| done]. intros _ O S R.
  assert (X : (op, o) ∈ map_to_list (filter (fun kv => p_sandbox (snd kv) = id /\ p_revision (snd kv) = n) (operations t))).
  { apply elem_of_map_to_list, map_lookup_filter_Some. done. }
  rewrite E in X. by apply elem_of_nil in X.
Qed.

Lemma insert_case {A} (m : gmap ID A) x y a b : <[x := a]> m !! y = Some b -> x = y /\ a = b \/ x <> y /\ m !! y = Some b.
Proof. intros H. apply lookup_insert_Some in H. done. Qed.

(** ** Changes preserve the journal *)

Lemma journal_same t t' : bindings t' = bindings t -> operations t' = operations t -> journal t -> journal t'.
Proof. intros B O []. split; by rewrite ?B, ?O. Qed.

Lemma journal_inserted t t' id row :
  bindings t !! id = None -> r_revision row = 0 ->
  (forall x r, bindings t !! x = Some r -> r_attempt r <> r_attempt row /\ r_acquire r <> r_acquire row) ->
  (forall x r, bindings t !! x = Some r -> r_kind r = r_kind row -> r_reference r = r_reference row -> r_reference row = "") ->
  bindings t' = <[id := row]> (bindings t) -> operations t' = operations t -> journal t -> journal t'.
Proof.
  intros N Z A R B O J. assert (L : forall x r, bindings t !! x = Some r -> id <> x) by (intros x r H ->; congruence).
  split; rewrite ?B, ?O.
  - intros op o H. destruct (j_row _ J op o H) as (r & X & Y). exists r. split; [| done]. rewrite lookup_insert_ne by (by eapply L). done.
  - apply (j_once _ J).
  - intros x r n H. apply insert_case in H as [[<- <-] | [_ H]]; [lia | by apply (j_all _ J)].
  - intros op o r H H'. apply insert_case in H' as [[E <-] | [_ H']]; [| by apply (j_last _ J op)].
    destruct (j_row _ J op o H) as (s & X & _). congruence.
  - intros x r H. apply insert_case in H as [[<- <-] | [_ H]]; [lia | by apply (j_revision _ J x)].
  - intros x y r r' H1 H2 E. apply insert_case in H1 as [[<- <-] | [_ H1]]; apply insert_case in H2 as [[<- <-] | [_ H2]]; [done | | |].
    + destruct (A _ _ H2) as [? ?]. destruct E; congruence.
    + destruct (A _ _ H1) as [? ?]. destruct E; congruence.
    + by apply (j_attempt _ J x y r r').
  - intros x y r r' H1 H2 K E NE. apply insert_case in H1 as [[<- <-] | [_ H1]]; apply insert_case in H2 as [[<- <-] | [_ H2]]; [done | | |].
    + destruct NE. by apply (R y r').
    + destruct NE. rewrite E. by apply (R x r).
    + by apply (j_reference _ J x y r r').
Qed.

(** The identities of the rows when one of them is updated. *)
Lemma updated_identities t id r r' : journal t -> bindings t !! id = Some r -> kept r r' ->
  (forall x s, x <> id -> bindings t !! x = Some s -> r_kind s = r_kind r' -> r_reference s = r_reference r' -> r_reference r' = r_reference r) ->
  (forall x y s s', <[id := r']> (bindings t) !! x = Some s -> <[id := r']> (bindings t) !! y = Some s' ->
     r_attempt s = r_attempt s' \/ r_acquire s = r_acquire s' -> x = y)
  /\ (forall x y s s', <[id := r']> (bindings t) !! x = Some s -> <[id := r']> (bindings t) !! y = Some s' -> r_kind s = r_kind s' ->
     r_reference s = r_reference s' -> r_reference s <> "" -> x = y).
Proof.
  intros J L K F. split.
  - intros x y s s' H1 H2 E. apply insert_case in H1 as [[<- <-] | [_ H1]]; apply insert_case in H2 as [[<- <-] | [_ H2]]; [done | | |].
    + apply (j_attempt _ J id y r s'); [done | done |]. by rewrite <- (k_attempt _ _ K), <- (k_acquire _ _ K).
    + apply (j_attempt _ J x id s r); [done | done |]. by rewrite <- (k_attempt _ _ K), <- (k_acquire _ _ K).
    + by apply (j_attempt _ J x y s s').
  - intros x y s s' H1 H2 KK E NE.
    apply insert_case in H1 as [[<- <-] | [N1 H1]]; apply insert_case in H2 as [[<- <-] | [N2 H2]]; [done | | |].
    + assert (Q : r_reference r' = r_reference r) by (apply (F y s'); done).
      apply (j_reference _ J id y r s'); try done; [by rewrite <- (k_provider _ _ K) | by rewrite <- Q | by rewrite <- Q].
    + assert (Q : r_reference r' = r_reference r) by (apply (F x s); done).
      apply (j_reference _ J x id s r); try done; [by rewrite <- (k_provider _ _ K) | by rewrite <- Q].
    + by apply (j_reference _ J x y s s').
Qed.

Lemma journal_updated t t' id r r' :
  bindings t !! id = Some r -> kept r r' -> r_revision r' = r_revision r ->
  (forall x s, x <> id -> bindings t !! x = Some s -> r_kind s = r_kind r' -> r_reference s = r_reference r' -> r_reference r' = r_reference r) ->
  bindings t' = <[id := r']> (bindings t) -> operations t' = operations t -> journal t -> journal t'.
Proof.
  intros L K R F B O J. destruct (updated_identities t id r r' J L K F) as [A1 A2]. split; rewrite ?B, ?O; [| apply (j_once _ J) | | | | done | done].
  - intros op o H. destruct (j_row _ J op o H) as (s & X & Y). destruct (decide (id = p_sandbox o)) as [E | NE].
    + rewrite <- E in X |- *. rewrite lookup_insert_eq. exists r'. split; [done |]. rewrite R. assert (s = r) as -> by congruence. done.
    + rewrite lookup_insert_ne by done. by exists s.
  - intros x s n H. apply insert_case in H as [[<- <-] | [_ H]]; [rewrite R |]; by apply (j_all _ J).
  - intros op o s H H'. apply insert_case in H' as [[E <-] | [_ H']]; [rewrite R; intros X; apply (j_last _ J op o r); [done | by rewrite <- E | done] |].
    by apply (j_last _ J op).
  - intros x s H. apply insert_case in H as [[<- <-] | [_ H]]; [rewrite R; by apply (j_revision _ J id) | by apply (j_revision _ J x)].
Qed.

Lemma journal_appended t t' id r r' op o :
  bindings t !! id = Some r -> kept r r' -> r_revision r' = r_revision r + 1 -> r_reference r' = r_reference r ->
  (r_revision r = 0 \/ exists k, kind_at t id (r_revision r) = Some k /\ k <> "release") ->
  operations t !! op = None -> o = mkOperationRow id (p_kind o) (p_digest o) (r_revision r') -> p_kind o ∈ kinds ->
  bindings t' = <[id := r']> (bindings t) -> operations t' = <[op := o]> (operations t) -> journal t -> journal t'.
Proof.
  intros L K R Q NR NO EO KO B O J.
  destruct (updated_identities t id r r' J L K (fun x s _ _ _ _ => Q)) as [A1 A2].
  assert (PS : p_sandbox o = id) by by rewrite EO. assert (PR : p_revision o = r_revision r + 1) by (rewrite EO; done).
  assert (BD : forall q u, operations t !! q = Some u -> p_sandbox u = id -> p_revision u <= r_revision r).
  { intros q u H S. destruct (j_row _ J q u H) as (s & X & Y & _). rewrite S, L in X. injection X as <-. lia. }
  assert (RL : forall q u, operations t !! q = Some u -> p_sandbox u = id -> p_kind u <> "release").
  { intros q u H S E. assert (RV := j_last _ J q u r H ltac:(by rewrite S) E).
    destruct NR as [NR | (k & KA & NK)]; [destruct (j_row _ J q u H) as (s & X & Y & _); lia |].
    apply kind_at_some in KA as (q' & u' & H' & S' & R' & K'). apply NK. rewrite <- K', <- E.
    assert (q' = q) as -> by (apply (j_once _ J q' q u' u); congruence). congruence. }
  pose proof (j_revision _ J id r L) as P.
  split; rewrite ?B, ?O; [| | | | | done | done].
  - intros q u H. apply lookup_insert_Some in H as [[<- <-] | [_ H]].
    + rewrite PS, lookup_insert_eq. exists r'. split; [done |]. split; [lia | done].
    + destruct (j_row _ J q u H) as (s & X & Y & Z). destruct (decide (id = p_sandbox u)) as [E | NE].
      * rewrite <- E, lookup_insert_eq. exists r'. split; [done |]. split; [| done]. rewrite <- E, L in X. injection X as <-. lia.
      * rewrite lookup_insert_ne by done. by exists s.
  - intros q q' u u' H H' S RR. apply lookup_insert_Some in H as [[<- <-] | [_ H]]; apply lookup_insert_Some in H' as [[<- <-] | [_ H']]; [done | | |].
    + rewrite PS in S. pose proof (BD _ _ H' (eq_sym S)). lia.
    + rewrite PS in S. pose proof (BD _ _ H S). lia.
    + by apply (j_once _ J q q' u u').
  - intros x s n H RG. apply insert_case in H as [[<- <-] | [_ H]].
    + destruct (decide (n = r_revision r + 1)) as [-> | NE].
      * exists op, o. by rewrite lookup_insert_eq.
      * destruct (j_all _ J id r n L) as (q & u & X & Y); [lia |]. exists q, u. rewrite lookup_insert_ne by congruence. done.
    + destruct (j_all _ J x s n H RG) as (q & u & X & Y). exists q, u. rewrite lookup_insert_ne by congruence. done.
  - intros q u s H H' E. apply lookup_insert_Some in H as [[<- <-] | [_ H]].
    + rewrite PS, lookup_insert_eq in H'. injection H' as <-. lia.
    + apply insert_case in H' as [[E' <-] | [_ H']]; [by destruct (RL q u H) | by apply (j_last _ J q)].
  - intros x s H. apply insert_case in H as [[<- <-] | [_ H]]; [lia | by apply (j_revision _ J x)].
Qed.

Lemma journal_change t t' : change t t' -> journal t -> journal t'.
Proof.
  destruct 1; [by apply journal_same | by eapply journal_inserted | by eapply journal_updated | by eapply journal_appended].
Qed.

(** ** Histories *)

(** Rows are kept, and differ only under a new version; operations are kept as they are. *)
Record evolves (t t' : Tables) : Prop := mkEvolves {
  ev_rows : forall x r, bindings t !! x = Some r -> exists r', bindings t' !! x = Some r' /\ (r' = r \/ kept r r');
  ev_operations : operations t ⊆ operations t'
}.

Lemma kept_rows_trans r r' r'' : kept r r' -> kept r' r'' -> kept r r''.
Proof.
  intros [] []. split; try congruence; try lia.
  - intros N. rewrite <- k_reference0 in N |- * by done. auto.
  - intros N. rewrite <- k_suspend0 in N |- * by done. auto.
  - intros N. rewrite <- k_resume0 in N |- * by done. auto.
  - intros N. rewrite <- k_release0 in N |- * by done. auto.
Qed.

Lemma evolves_refl t : evolves t t.
Proof. split; [| done]. intros x r H. exists r. auto. Qed.

Lemma evolves_trans t t' t'' : evolves t t' -> evolves t' t'' -> evolves t t''.
Proof.
  intros [A B] [C D]. split; [| by etrans]. intros x r H. destruct (A x r H) as (r' & H' & K). destruct (C x r' H') as (r'' & H'' & K').
  exists r''. split; [done |]. destruct K as [-> | K]; [done |]. destruct K' as [-> | K']; [by right | right]. by apply (kept_rows_trans r r').
Qed.

Lemma evolves_row t t' id r r' : bindings t !! id = Some r -> kept r r' -> bindings t' = <[id := r']> (bindings t) ->
  forall x s, bindings t !! x = Some s -> exists s', bindings t' !! x = Some s' /\ (s' = s \/ kept s s').
Proof.
  intros L K B x s H. rewrite B. destruct (decide (id = x)) as [<- | NE].
  - rewrite lookup_insert_eq. exists r'. split; [done |]. right. by assert (s = r) as -> by congruence.
  - rewrite lookup_insert_ne by done. exists s. auto.
Qed.

Lemma evolves_change t t' : change t t' -> evolves t t'.
Proof.
  destruct 1 as [B O | id row N _ _ _ B O | id r r' L K _ _ B O | id r r' op o L K _ _ _ NO _ _ B O].
  - split; [| by rewrite O]. rewrite B. intros x r H. exists r. auto.
  - split; [| by rewrite O]. rewrite B. intros x r H. exists r. split; [| auto]. rewrite lookup_insert_ne; [done | congruence].
  - split; [| by rewrite O]. by eapply evolves_row.
  - split; [by eapply evolves_row |]. rewrite O. by apply insert_subseteq.
Qed.

Abbreviation changes := (rtc change).

Lemma journal_changes t t' : changes t t' -> journal t -> journal t'.
Proof. induction 1; [done |]. eauto using journal_change. Qed.

Lemma evolves_changes t t' : changes t t' -> evolves t t'.
Proof. induction 1; [apply evolves_refl |]. eauto using evolves_trans, evolves_change. Qed.

(** ** Transactions are sequences of changes *)

Section Transactions.
Variable Transform : string -> option string.

Definition same (t t' : Tables) : Prop := bindings t' = bindings t /\ operations t' = operations t.

Lemma same_changes t t' : same t t' -> changes t t'.
Proof. intros [B O]. apply rtc_once. by apply Elsewhere. Qed.

Lemma same_trans t t' t'' : same t t' -> same t' t'' -> same t t''.
Proof. intros [] []. split; congruence. Qed.

Lemma journal_transaction_cases {A} e tenant (body : Tables -> result Failure (Tables * A)) t t' x :
  transaction e tenant body t = (t', x) ->
  (forall a, x = Ok a -> body t = Ok (t', a)) /\ (t' = t \/ exists a, body t = Ok (t', a)).
Proof.
  unfold transaction. destruct (negb (validID tenant)); [intros [= <- <-]; split; [done | by left] |].
  destruct (body t) as [[u a] | f]; [| intros [= <- <-]; split; [done | by left]].
  destruct (e_fault e); [intros [= <- <-]; split; [done | by left] |]. intros [= <- <-]. split; [| right; by exists a].
  destruct (e_lost e); [done | by intros ? [= ->]].
Qed.

Lemma transaction_changes {A} e tenant (body : Tables -> result Failure (Tables * A)) t t' x :
  (forall a, body t = Ok (t', a) -> changes t t') -> transaction e tenant body t = (t', x) -> changes t t'.
Proof. intros C H. apply journal_transaction_cases in H as [_ [-> | [a H]]]; [apply rtc_refl | by apply (C a)]. Qed.

Lemma queueCompute_same id t t' : queueCompute id t = Ok t' -> same t t'.
Proof.
  unfold queueCompute. intros H. bind_step H u E. assert (S : same t u).
  { destruct (work t !! id); [by injection E as <- |]. bind_step E v Q. by injection E as <-. }
  destruct (work u !! id); [| done]. destruct (negb _); [done |]. by injection H as <-.
Qed.

Lemma emit_same e n k s kind version payload ty agg now t t' : emit e n k s kind version payload ty agg now t = Ok t' -> same t t'.
Proof.
  unfold emit. destruct (e_ids e n) as [id |]; [| done]. intros H. bind_step H q E. destruct (Marshal (JMap payload)) as [raw |]; [| done].
  destruct (RuntimeEvent.New _ _ _ _ _ _ _ _ _ _ _ _ _ _ _ _) as [ev |]; [| done].
  match type of H with match ?m with _ => _ end = _ => destruct m as [envelope |]; [| done] end. by injection H as <-.
Qed.

Lemma settle_same op s q t : same t (settle op s q t).
Proof. unfold settle. destruct (cleanups t !! op); [| done]. by destruct (_ && _). Qed.

Lemma insert_cleanup_same op c t t' : insert_cleanup op c t = Ok t' -> same t t'.
Proof. unfold insert_cleanup. intros H. bind_step H u E. by injection H as <-. Qed.

Lemma queueRecovery_same i row t t' b : queueRecovery i row t = Ok (t', b) -> same t t'.
Proof. unfold queueRecovery. destruct (negb _); [by intros [= <- <-] |]. intros H. bind_step H u E. by injection H as <- <-. Qed.

(** What a check of the references means. *)
Lemma reference_free_spec id kind reference t x s : reference_free id kind reference t = true ->
  x <> id -> bindings t !! x = Some s -> r_kind s = kind -> r_reference s <> reference.
Proof.
  unfold reference_free. intros H%negb_true_iff%bool_decide_eq_false N L K E. apply H. by exists x, s.
Qed.

(** An operation is appended, whatever its last update of the binding is. *)
Lemma append_changes id r op o t t1 t2 t3 r3 :
  bindings t !! id = Some r -> insert_operation op o t = Ok t1 -> set_revision id (p_revision o) t1 = Ok t2 ->
  p_sandbox o = id -> p_kind o ∈ kinds ->
  (r_revision r = 0 \/ exists k, kind_at t id (r_revision r) = Some k /\ k <> "release") ->
  (forall r2, bindings t2 !! id = Some r2 -> r_version r2 = r_version r -> r_reference r2 = r_reference r ->
     bindings t3 = <[id := r3]> (bindings t2) /\ operations t3 = operations t2 /\ r_reference r3 = r_reference r2 /\ r_revision r3 = r_revision r2 /\ kept r2 r3) ->
  change t t3 /\ r_revision r3 = p_revision o /\ bindings t3 = <[id := r3]> (bindings t) /\ operations t3 = <[op := o]> (operations t).
Proof.
  intros L I S PS PK NR F. unfold insert_operation in I. bind_step I u E. apply require_ok, andb_true_iff in E as [E _].
  assert (B1 : bindings t1 = bindings t) by by injection I as <-. assert (O1 : operations t1 = <[op := o]> (operations t)) by by injection I as <-. clear I.
  unfold set_revision in S. rewrite B1, L in S. bind_step S v E2. apply require_ok, Z.eqb_eq in E2.
  assert (B2 : exists r2, bindings t2 = <[id := r2]> (bindings t) /\ operations t2 = <[op := o]> (operations t) /\ r_revision r2 = p_revision o
    /\ r_version r2 = r_version r /\ r_reference r2 = r_reference r /\ forall r3, kept r2 r3 -> kept r r3).
  { injection S as <-. cbn [bindings operations with_bindings]. rewrite O1. eexists. split; [reflexivity |]. split; [done |].
    split; [done |]. split; [done |]. split; [done |]. intros s [K1 K2 K3 K4 K5 K6 K7 K8 K9 K10]. split; try done; cbn in *; lia. }
  destruct B2 as (r2 & B2 & O2 & R2 & V2 & Q2 & KK). destruct (F r2) as (B3 & O3 & Q3 & R3 & K3); [by rewrite B2, lookup_insert_eq | done | done |].
  rewrite B2, insert_insert_eq in B3. rewrite O2 in O3.
  split; [| by rewrite R3, R2]. apply (Journaled t t3 id r r3 op o); try done; [by apply KK | by rewrite R3, R2 | congruence | |].
  - by destruct (operations t !! op).
  - destruct o. cbn in *. subst. by rewrite R3, R2.
Qed.

Lemma set_operation_kept id kind op t t' r : bindings t !! id = Some r -> set_operation id kind op t = Ok t' ->
  exists r', bindings t' = <[id := r']> (bindings t) /\ operations t' = operations t /\ r_reference r' = r_reference r /\ r_revision r' = r_revision r /\ kept r r'.
Proof.
  unfold set_operation. intros -> H. bind_step H n E. apply advance_ok in E as ->. injection H as <-. eexists. split; [reflexivity |].
  split; [done |]. split; [done |]. split; [done |].
  split; cbn; try done; try lia; intros N; (destruct (_ == _); [| done]); unfold coalesce; by destruct (_ r).
Qed.

Lemma set_release_kept id op t t' r : bindings t !! id = Some r -> set_release id op t = Ok t' ->
  exists r', bindings t' = <[id := r']> (bindings t) /\ operations t' = operations t /\ r_reference r' = r_reference r /\ r_revision r' = r_revision r /\ kept r r'.
Proof.
  unfold set_release. intros -> H. bind_step H n E. apply advance_ok in E as ->. bind_step H u Q. apply require_ok in Q. injection H as <-.
  eexists. split; [reflexivity |]. split; [done |]. split; [done |]. split; [done |]. split; cbn; try done; try lia.
  destruct (r_release r); [| done]. by apply bool_decide_eq_true in Q as ->.
Qed.

(** ** The store *)

Lemma read_row tenant id t b n : readSandboxBinding Transform tenant id t = Ok (b, n) ->
  exists r, bindings t !! id = Some r /\ n = r_revision r /\ ProviderReference b = r_reference r /\ decodeAcquire (r_request r) = Some (Request b)
    /\ TenantID (RScope (Request b)) = tenant /\ SandboxID (RScope (Request b)) = id.
Proof.
  unfold readSandboxBinding. destruct (bindings t !! id) as [r |] eqn:L; [| done]. destruct (decodeAcquire (r_request r)) as [q |] eqn:D; [| done].
  destruct ((_ != tenant) || _) eqn:G; [done |]. apply orb_false_iff in G as [G1%negb_bool_decide_false G2%negb_bool_decide_false].
  destruct (_ != _); [done |]. intros [= <- <-]. by exists r.
Qed.

(** The next guard, and the next case, of an equation. *)
Ltac pass H := match type of H with (if ?b then _ else _) = _ => destruct b; [discriminate H |] end.
Ltac cases H := match type of H with match ?m with _ => _ end = _ => destruct m end.

Lemma insert_binding_fresh id row t t' : insert_binding id row t = Ok t' ->
  bindings t !! id = None /\ (forall x r, bindings t !! x = Some r -> r_attempt r <> r_attempt row /\ r_acquire r <> r_acquire row)
  /\ bindings t' = <[id := row]> (bindings t) /\ operations t' = operations t.
Proof.
  unfold insert_binding. intros H. bind_step H u E. apply require_ok, andb_true_iff in E as [E1 E2%negb_true_iff%bool_decide_eq_false].
  assert (L : bindings t !! id = None) by by destruct (bindings t !! id). injection H as <-. split; [done |]. split; [| done].
  intros x r X. split; intros Q; apply E2; exists x, r; auto.
Qed.

Lemma insert_binding_change id r raw t t' : insert_binding id (new_row r raw) t = Ok t' -> change t t'.
Proof. intros H. apply insert_binding_fresh in H as (L & F & B & O). by apply (Inserted _ _ id (new_row r raw)). Qed.

Lemma reserved_changes e r raw t t' b : reserved Transform e r raw t = Ok (t', b) -> changes t t'.
Proof.
  unfold reserved. destruct (is_some _); [done |]. intros H. bind_step H current E1. destruct (negb current); [done |].
  bind_step H x E2. bind_step H u E3. destruct (readSandboxBinding _ _ _ _) as [[previous n] | f].
  - unfold replayed in H. destruct (_ != _); [done |]. bind_step H v E4. bind_step H w E5. injection H as -> _. by eapply same_changes, queueCompute_same.
  - destruct f; try done. bind_step H ref E4. bind_step H t1 E5. bind_step H t2 E6. bind_step H t3 E7. injection H as -> _.
    apply queueCompute_same in E7. destruct (ref != "").
    + apply insert_binding_fresh in E5 as (L & F & B1 & O1). bind_step E6 v E8. apply require_ok in E8. injection E6 as <-.
      destruct E7 as [B3 O3]. cbn [bindings operations with_bindings] in B3, O3. rewrite B1, insert_insert_eq in B3.
      apply rtc_once. apply (Inserted _ _ (SandboxID (RScope r)) (with_reference (new_row r raw) ref 0)); [done | done | exact F | | done | congruence].
      intros y s X K Q. exfalso. apply (reference_free_spec _ _ _ t1 y s E8); [congruence | | done | done].
      rewrite B1, lookup_insert_ne by congruence. done.
    + injection E6 as <-. eapply rtc_l; [by eapply insert_binding_change | by apply same_changes].
Qed.

Lemma bound_changes tenant id ref t t' u : bound Transform tenant id ref t = Ok (t', u) -> changes t t'.
Proof.
  unfold bound. intros H. bind_step H x E1. destruct x as [b n]. cbn [fst] in H. apply read_row in E1 as (r & L & _ & R & _).
  destruct (ProviderReference b != "") eqn:N; [destruct (ProviderReference b != ref); [discriminate H | injection H as <- _; apply rtc_refl] |].
  apply negb_bool_decide_false in N. rewrite L in H. bind_step H v E2. apply advance_ok in E2 as ->. bind_step H w E3. apply require_ok in E3.
  injection H as <- _. apply rtc_once. apply (Updated _ _ id r (with_reference r ref (r_version r + 1))); try done.
  - split; cbn; try done; try lia. intros X. congruence.
  - intros x s X Y K Q. exfalso. by apply (reference_free_spec _ _ _ t x s E3).
Qed.

Lemma operation_at_kind t id n : option_map (fun x => p_kind (snd x)) (operation_at t id n) = kind_at t id n.
Proof. unfold operation_at, kind_at. by destruct (map_to_list _) as [| [? ?] ?]. Qed.

(** What a new operation of a lifecycle is. *)
Lemma journaled_changes id kind op r t t' n : journal t -> bindings t !! id = Some r -> kind ∈ kinds -> journaled id kind op (r_revision r) t = Ok (t', n) ->
  n = r_revision r + 1 /\ (kind_at t id (r_revision r) <> Some "release")
  /\ exists t1 r', change t t1 /\ same t1 t' /\ bindings t1 = <[id := r']> (bindings t) /\ r_revision r' = n
     /\ operations t1 = <[Operation_ID op := mkOperationRow id kind (Operation_Digest op) n]> (operations t).
Proof.
  unfold journaled. intros J L K H. pose proof (j_revision _ J id r L) as P. bind_step H u E1. bind_step H m E2. apply advance_ok in E2 as ->. bind_step H t1 E3. bind_step H t2 E4.
  bind_step H t3 E5. bind_step H t4 E6. injection H as -> <-. split; [done |].
  assert (NR : r_revision r = 0 \/ exists k, kind_at t id (r_revision r) = Some k /\ k <> "release").
  { destruct (0 <? r_revision r) eqn:Z; [| left; lia]. right. destruct (kind_at t id (r_revision r)) as [k |]; [| done].
    destruct (k == "release") eqn:Q; [done |]. apply bool_decide_eq_false in Q. by exists k. }
  assert (S4 : same t3 t') by (destruct (kind == "release"); [by eapply queueCompute_same | by injection E6 as <-]).
  assert (RW : exists r2, bindings t2 !! id = Some r2).
  { unfold insert_operation in E3. bind_step E3 v Q. injection E3 as <-. unfold set_revision in E4. cbn [with_operations bindings] in E4. rewrite L in E4.
    bind_step E4 w Q2. injection E4 as <-. cbn. rewrite lookup_insert_eq. eauto. }
  destruct RW as [r2 L2]. destruct (set_operation_kept id kind op t2 t3 r2 L2 E5) as (r3 & B3 & O3 & Q3 & R3 & K3).
  destruct (append_changes id r (Operation_ID op) (mkOperationRow id kind (Operation_Digest op) (r_revision r + 1)) t t1 t2 t3 r3) as (C & RV & B & O); try done.
  { intros r2' L2' _ _. assert (r2' = r2) as -> by congruence. done. }
  split.
  - destruct NR as [NR | (k & -> & N)]; [| congruence]. intros X. apply kind_at_some in X as (q & u' & X & _ & Y & _).
    destruct (j_row _ J q u' X) as (? & _ & Z & _). lia.
  - exists t3, r3. done.
Qed.

(** What it means that an operation has begun. *)
Lemma begun_ok e tenant id kind op t t' n : journal t -> kind ∈ kinds -> begun Transform e tenant id kind op t = Ok (t', n) ->
  exists b r, readSandboxBinding Transform tenant id t = Ok (b, r_revision r) /\ bindings t !! id = Some r
  /\ (e_fence e (Request b) = Ok true \/ kind = "release" /\ cleanup_for t id b op = true)
  /\ ((operations t !! Operation_ID op = Some (mkOperationRow id kind (Operation_Digest op) n) /\ n = r_revision r /\ same t t')
      \/ (operations t !! Operation_ID op = None /\ n = r_revision r + 1 /\ kind_at t id (r_revision r) <> Some "release"
          /\ exists t1 r', change t t1 /\ same t1 t' /\ bindings t1 = <[id := r']> (bindings t) /\ r_revision r' = n
             /\ operations t1 = <[Operation_ID op := mkOperationRow id kind (Operation_Digest op) n]> (operations t))).
Proof.
  unfold begun. intros J K H. destruct (bool_decide _); [done |]. bind_step H x E1. bind_step H current E2. destruct x as [b m]. cbn [fst] in E2.
  pose proof (read_row _ _ _ _ _ E1) as (r & L & -> & _ & _). destruct (negb current && _) eqn:F; [done |].
  exists b, r. split; [done |]. split; [done |]. split.
  { destruct current; [by left |]. right. apply orb_false_iff in F as [F1%negb_bool_decide_false F2%negb_false_iff]. done. }
  destruct (operations t !! Operation_ID op) as [o |] eqn:O.
  - destruct (_ || _ || _ || _) eqn:G; [done |]. simp_bool. left. bind_step H t1 E3. injection H as -> <-.
    split; [| split; [done |]].
    + destruct o as [? ? d v]. cbn in *. assert (v = r_revision r) as -> by lia. congruence.
    + destruct (_ == "release"); [by eapply queueCompute_same | by injection E3 as <-].
  - right. destruct (journaled_changes id kind op r t t' n J L K H) as (N & R & X). done.
Qed.

Lemma begun_changes e tenant id kind op t t' n : journal t -> kind ∈ kinds -> begun Transform e tenant id kind op t = Ok (t', n) -> changes t t'.
Proof.
  intros J K H. destruct (begun_ok _ _ _ _ _ _ _ _ J K H) as (b & r & _ & _ & _ & [(_ & _ & S) | (_ & _ & _ & t1 & r' & C & S & _)]); [by apply same_changes |].
  eapply rtc_l; [exact C | by apply same_changes].
Qed.

(** ** Observations *)

(** What an intent was loaded from. *)
Lemma loadCompute_row e tenant id t i : loadCompute Transform e tenant id t = Ok i ->
  exists r, bindings t !! id = Some r /\ Version i = r_version r /\ Revision i = r_revision r /\ ProviderReference (IBinding i) = r_reference r
    /\ (releasing i = false -> r_revision r = 0) /\ TenantID (scope_of i) = tenant /\ SandboxID (scope_of i) = id.
Proof.
  unfold loadCompute. intros H. bind_step H x E1. bind_step H current E2. destruct x as [b n].
  apply read_row in E1 as (r & L & -> & R & _ & T & S). rewrite L in H. exists r. split; [done |]. destruct (r_revision r =? 0) eqn:Z.
  - apply Z.eqb_eq in Z. cases H; [destruct p as [op c]; pass H |]; by injection H as <-.
  - cases H; [| done]. destruct p as [op o]. pass H. by injection H as <-.
Qed.

Lemma set_state_kept id o facts t t' r : bindings t !! id = Some r -> set_state id o facts t = Ok t' ->
  exists r', bindings t' = <[id := r']> (bindings t) /\ operations t' = operations t /\ r_reference r' = r_reference r /\ r_revision r' = r_revision r
    /\ kept r r' /\ r_state r' = OState o /\ r_reason r' = Code o /\ r_facts r' = facts.
Proof.
  unfold set_state. intros -> H. bind_step H n E. apply advance_ok in E as ->. injection H as <-. eexists. split; [reflexivity |].
  do 3 (split; [done |]). split; [| done]. split; cbn; done || lia.
Qed.

Lemma kept_change t t' id r r' : bindings t !! id = Some r -> bindings t' = <[id := r']> (bindings t) -> operations t' = operations t ->
  r_reference r' = r_reference r -> r_revision r' = r_revision r -> kept r r' -> change t t'.
Proof. intros L B O Q R K. by apply (Updated t t' id r r'). Qed.

(** The release of what is to be recovered: the first operation of its binding. *)
Lemma orphaned_changes e i t t' r : bindings t !! SandboxID (scope_of i) = Some r -> Revision i = r_revision r -> r_revision r = 0 ->
  orphaned e i t = Ok t' ->
  change t t' /\ exists r', bindings t' = <[SandboxID (scope_of i) := r']> (bindings t) /\ r_state r' = r_state r /\ r_reason r' = r_reason r.
Proof.
  unfold orphaned. intros L RV Z H. destruct (e_ids e 2) as [id |]; [| done]. cbv zeta in H. bind_step H t1 E1. bind_step H t2 E2. bind_step H t3 E3.
  apply insert_cleanup_same in E1 as [B1 O1]. rewrite RV, Z in E2, E3. change (u64 (0 + 1)) with 1 in *.
  assert (L1 : bindings t1 !! SandboxID (scope_of i) = Some r) by by rewrite B1.
  assert (RW : exists r2, bindings t3 !! SandboxID (scope_of i) = Some r2 /\ r_state r2 = r_state r /\ r_reason r2 = r_reason r).
  { unfold insert_operation in E2. bind_step E2 v Q. injection E2 as <-. unfold set_revision in E3. cbn [with_operations bindings] in E3. rewrite L1 in E3.
    bind_step E3 w Q2. injection E3 as <-. cbn. rewrite lookup_insert_eq. eauto. }
  destruct RW as (r2 & L2 & S2 & N2). pose proof H as H'.
  destruct (set_release_kept _ _ _ _ r2 L2 H) as (r3 & B3 & O3 & Q3 & R3 & K3).
  destruct (append_changes (SandboxID (scope_of i)) r id (mkOperationRow (SandboxID (scope_of i)) "release" (LifecycleDigest (TenantID (scope_of i)) (SandboxID (scope_of i)) "release" id) 1) t1 t2 t3 t' r3) as (C & RR & B & O); try done.
  - by apply list_elem_of_In; cbn; auto.
  - by left.
  - intros r2' L2' _ _. assert (r2' = r2) as -> by congruence. done.
  - split.
    + destruct C as [B' O' | ? ? ? ? ? ? B' O' | ? ? ? ? ? ? ? B' O' | ? ? ? ? ? ? ? ? ? ? ? ? ? B' O']; rewrite ?B1, ?O1 in *.
      all: first [by apply Elsewhere | by eapply Inserted | by eapply Updated | idtac].
      eapply Journaled; try eassumption. unfold kind_at in *. by rewrite <- O1.
    + exists r3. rewrite B, B1. split; [done |]. unfold set_release in H'. rewrite L2 in H'. bind_step H' n Q. bind_step H' u Q'. injection H' as <-.
      cbn in B3. pose proof (f_equal (lookup (SandboxID (scope_of i))) B3) as X. rewrite !lookup_insert_eq in X. by injection X as <-.
Qed.

Lemma recovery_changes e i o now t t' r : bindings t !! SandboxID (scope_of i) = Some r -> Revision i = r_revision r ->
  (releasing i = false -> r_revision r = 0) -> recordComputeRecovery e i o now t = Ok t' ->
  changes t t' /\ exists r', bindings t' !! SandboxID (scope_of i) = Some r' /\ r_state r' = r_state r /\ r_reason r' = r_reason r.
Proof.
  unfold recordComputeRecovery. intros L RV Z H. destruct (e_ids e 0) as [rid |]; [| done]. cbv zeta in H. bind_step H x E1. destruct x as [t1 inserted].
  apply queueRecovery_same in E1. destruct E1 as [B1 O1].
  assert (D : forall u, same t1 u -> changes t u /\ exists r', bindings u !! SandboxID (scope_of i) = Some r' /\ r_state r' = r_state r /\ r_reason r' = r_reason r).
  { intros u S. pose proof (same_trans t t1 u (conj B1 O1) S) as S'. split; [by apply same_changes |]. exists r. by rewrite (proj1 S'). }
  destruct (releasing i) eqn:RL; unfold releasing in RL; destruct (Desired i); try done.
  2-3: specialize (Z eq_refl); destruct (negb inserted); [injection H as <-; by apply D |]; bind_step H d E2; bind_step H t2 E3; apply emit_same in E3;
    destruct (ProviderReference (IBinding i) == ""); [injection H as <-; by apply D |];
    pose proof (same_trans t t1 t2 (conj B1 O1) E3) as S2;
    assert (L2 : bindings t2 !! SandboxID (scope_of i) = Some r) by (by rewrite (proj1 S2));
    destruct (orphaned_changes e i t2 t' r L2 RV Z H) as (C & r' & B & X); split; [etrans; [by apply same_changes | by apply rtc_once] |];
    exists r'; by rewrite B, lookup_insert_eq.
  pose proof (settle_same (Operation_ID (IOperation i)) CleanupQuarantined (fun _ => true) t1) as S2.
  destruct (negb inserted); [injection H as <-; by apply D |]. apply emit_same in H. apply D. by eapply same_trans.
Qed.

(** What an observation that is recorded rests on, and what it does. *)
Lemma recorded_ok e i o t t' u : recorded Transform e i o t = Ok (t', u) ->
  exists current r r', loadCompute Transform e (TenantID (scope_of i)) (SandboxID (scope_of i)) t = Ok current
    /\ same_intent current i = true /\ permitted current i o = None
    /\ bindings t !! SandboxID (scope_of i) = Some r /\ Version i = r_version r
    /\ changes t t' /\ bindings t' !! SandboxID (scope_of i) = Some r' /\ r_version r < r_version r' /\ r_state r' = OState o /\ r_reason r' = Code o.
Proof.
  unfold recorded. intros H. bind_step H current E1. destruct (same_intent current i) eqn:SI; cbn [negb] in H; [| done].
  destruct (permitted current i o) eqn:P; [done |]. cases H; [| done]. bind_step H t1 E2. bind_step H t2 E3. injection H as -> _.
  destruct (loadCompute_row _ _ _ _ _ E1) as (r & L & V & RV & _ & Z & T & S).
  destruct (set_state_kept _ _ _ _ _ r L E2) as (r1 & B1 & O1 & Q1 & R1 & K1 & S1 & N1 & _).
  pose proof (kept_change t t1 _ r r1 L B1 O1 Q1 R1 K1) as C1.
  assert (L1 : bindings t1 !! SandboxID (scope_of i) = Some r1) by by rewrite B1, lookup_insert_eq.
  assert (X : changes t1 t' /\ exists r', bindings t' !! SandboxID (scope_of i) = Some r' /\ r_state r' = r_state r1 /\ r_reason r' = r_reason r1).
  { destruct (RecoveryRequired o).
    - rewrite <- S in L1 |- *. apply (recovery_changes e current o (e_clock e) t1 t' r1 L1); [congruence | | done]. intros N. rewrite R1. auto.
    - assert (S3 : same t1 t') by (destruct (OState o == Released); injection E3 as <-; [apply settle_same | done]).
      split; [by apply same_changes |]. exists r1. by rewrite (proj1 S3). }
  destruct X as (C2 & r' & L' & S' & N'). exists current, r, r'.
  assert (VI : Version i = r_version r).
  { unfold same_intent in SI. apply negb_true_iff in SI. repeat (apply orb_false_iff in SI as [SI ?]). lia. }
  repeat (split; [done |]). split; [by eapply rtc_l |]. split; [done |]. split; [| split; congruence].
  pose proof (k_version _ _ K1). destruct (ev_rows _ _ (evolves_changes _ _ C2) _ _ L1) as (r2 & L2 & [-> | K2]).
  - assert (r' = r1) as -> by congruence. done.
  - pose proof (k_version _ _ K2). assert (r' = r2) as -> by congruence. lia.
Qed.

(** ** Replacement *)

Lemma replaced_changes e tenant lost z t t' b : replaced Transform e tenant lost z t = Ok (t', b) -> changes t t'.
Proof.
  unfold replaced. intros H. bind_step H old E1. bind_step H fence E2. destruct (replacements t !! lost) as [id |].
  - unfold replacement_replayed in H. bind_step H x E3. cbv zeta in H. pass H. bind_step H current E4. pass H. bind_step H v E5. injection H as <- _. apply rtc_refl.
  - unfold replacement_decided in H. bind_step H x E3. destruct x as [[safe av] sv]. cbv zeta in H. pass H. cases H; [| done].
    bind_step H v E4. pass H. cases H; [| done]. bind_step H t1 E5. bind_step H w E6. bind_step H y E7. bind_step H t2 E8. bind_step H t3 E9. bind_step H t4 E10.
    injection H as -> _. eapply rtc_l; [by eapply insert_binding_change |]. apply same_changes.
    apply queueCompute_same in E8. apply emit_same in E9, E10. eapply same_trans; [| by eapply same_trans; [| exact E10]].
    eapply same_trans; [| exact E8]. done.
Qed.

(** ** Any sequence of calls *)

(** A call to the store, with what answers it; [Others] is a transaction of another component,
    which leaves bindings and operations alone. *)
Inductive StoreCall : Type :=
| CallReserve (e : Env) (r : AcquireRequest)
| CallBind (e : Env) (id : ID) (ref : string)
| CallBegin (e : Env) (id : ID) (kind : string) (op : Operation)
| CallRecord (e : Env) (i : ComputeIntent) (o : ComputeObservation)
| CallReplace (e : Env) (lost : ID) (z : Resources)
| Others (c : gmap string CleanupRow) (w : gmap ID WorkRow) (ev : list Event) (m : list MessageRow).

Definition called (tenant : ID) (t : Tables) (c : StoreCall) : Tables :=
  match c with
  | CallReserve e r => fst (ReserveBinding Transform e r t)
  | CallBind e id ref => fst (BindReference Transform e tenant id ref t)
  | CallBegin e id kind op => fst (BeginOperation Transform e tenant id kind op t)
  | CallRecord e i o => fst (RecordCompute Transform e i o t)
  | CallReplace e lost z => fst (ReplaceDeleted Transform e tenant lost z t)
  | Others c w ev m => mkTables (bindings t) (operations t) c w ev m (replacements t)
  end.

Definition called_all (tenant : ID) (t : Tables) (cs : list StoreCall) : Tables := foldl (called tenant) t cs.

Lemma Contains_elem l s : Contains l s = true -> s ∈ l.
Proof. unfold Contains. intros (x & H & E)%existsb_exists. apply bool_decide_eq_true in E as <-. by apply list_elem_of_In. Qed.

Lemma BeginOperation_cases e tenant id kind op t t' x : BeginOperation Transform e tenant id kind op t = (t', x) ->
  (t' = t /\ exists err, x = Err err) \/ (kind ∈ kinds /\ transaction e tenant (begun Transform e tenant id kind op) t = (t', x)).
Proof.
  unfold BeginOperation. destruct (_ || _ || _) eqn:E; [intros [= <- <-]; left; eauto |]. intros H. right. split; [| done].
  apply orb_false_iff in E as [E _]. apply orb_false_iff in E as [_ E%negb_false_iff]. by apply Contains_elem.
Qed.

Lemma called_changes tenant t c : journal t -> changes t (called tenant t c).
Proof.
  intros J. destruct c as [e r | e id ref | e id kind op | e i o | e lost z |]; cbn [called].
  - unfold ReserveBinding. cbv zeta. destruct (_ || _); [apply rtc_refl |]. destruct (_ || _); [apply rtc_refl |].
    destruct (CanonicalRequest _ _) as [raw |]; [| apply rtc_refl]. destruct (transaction _ _ _ _) as [t' x] eqn:T. cbn [fst].
    eapply transaction_changes; [| exact T]. intros a. apply reserved_changes.
  - unfold BindReference. destruct (_ || _); [apply rtc_refl |]. destruct (transaction _ _ _ _) as [t' x] eqn:T. cbn [fst].
    eapply transaction_changes; [| exact T]. intros a. apply bound_changes.
  - destruct (BeginOperation _ _ _ _ _ _ _) as [t' x] eqn:T. cbn [fst]. apply BeginOperation_cases in T as [[-> _] | [K T]]; [apply rtc_refl |].
    eapply transaction_changes; [| exact T]. intros n. by apply begun_changes.
  - unfold RecordCompute. destruct (observation_error o); [apply rtc_refl |]. destruct (transaction _ _ _ _) as [t' x] eqn:T. cbn [fst].
    eapply transaction_changes; [| exact T]. intros u H. by destruct (recorded_ok _ _ _ _ _ _ H) as (? & ? & ? & _ & _ & _ & _ & _ & C & _).
  - unfold ReplaceDeleted. destruct (_ || _); [apply rtc_refl |]. destruct (transaction _ _ _ _) as [t' x] eqn:T. cbn [fst].
    eapply transaction_changes; [| exact T]. intros b. apply replaced_changes.
  - by apply same_changes.
Qed.

Lemma called_all_changes tenant cs : forall t, journal t -> changes t (called_all tenant t cs).
Proof.
  induction cs as [| c cs IH]; intros t J; [apply rtc_refl |]. pose proof (called_changes tenant t c J) as C.
  etrans; [exact C |]. apply IH. by eapply journal_changes.
Qed.

(** ** What may begin *)

(** An operation that has begun is the newest of its binding, and was admitted by the fence of
    its Attempt or by a cleanup intent for exactly this release. *)
Definition newest (e : Env) (tenant id : ID) (kind : string) (op : Operation) (t t' : Tables) (n : Z) : Prop :=
  operations t' !! Operation_ID op = Some (mkOperationRow id kind (Operation_Digest op) n)
  /\ (exists r', bindings t' !! id = Some r' /\ r_revision r' = n)
  /\ exists b r, readSandboxBinding Transform tenant id t = Ok (b, r)
     /\ (e_fence e (Request b) = Ok true \/ kind = "release" /\ cleanup_for t id b op = true)
     /\ (operations t !! Operation_ID op = None /\ n = r + 1 \/ operations t !! Operation_ID op = operations t' !! Operation_ID op /\ n = r).

Lemma begun_newest e tenant id kind op t t' n : journal t -> kind ∈ kinds -> begun Transform e tenant id kind op t = Ok (t', n) ->
  newest e tenant id kind op t t' n.
Proof.
  intros J K H. destruct (begun_ok _ _ _ _ _ _ _ _ J K H) as (b & r & RB & L & A & [(O & N & S) | (O & N & _ & t1 & r' & _ & S & B1 & R1 & O1)]).
  - destruct S as [B' O']. split; [by rewrite O' |]. split; [exists r; by rewrite B' |]. exists b, (r_revision r). rewrite O', N. auto.
  - destruct S as [B' O']. split; [by rewrite O', O1, lookup_insert_eq |]. split; [exists r'; by rewrite B', B1, lookup_insert_eq |].
    exists b, (r_revision r). split; [done |]. split; [done |]. by left.
Qed.

Lemma begin_refused e tenant id kind op t : (forall t' n, kind ∈ kinds -> begun Transform e tenant id kind op t <> Ok (t', n)) ->
  exists err, BeginOperation Transform e tenant id kind op t = (t, Err err).
Proof.
  intros F. destruct (BeginOperation Transform e tenant id kind op t) as [t' x] eqn:H. apply BeginOperation_cases in H as [[-> [err ->]] | [K T]]; [by exists err |].
  unfold transaction in T. destruct (negb (validID tenant)); [injection T as <- <-; eauto |].
  destruct (begun Transform e tenant id kind op t) as [[u n] | f] eqn:B; [by destruct (F u n K) |]. injection T as <- <-. eauto.
Qed.

(** A superseded operation is not begun again, and nothing begins after a release. *)
Lemma superseded_refused e tenant id kind op t o r : journal t -> operations t !! Operation_ID op = Some o -> bindings t !! p_sandbox o = Some r ->
  p_revision o < r_revision r -> exists err, BeginOperation Transform e tenant id kind op t = (t, Err err).
Proof.
  intros J O L V. apply begin_refused. intros t' n K H.
  destruct (begun_ok _ _ _ _ _ _ _ _ J K H) as (b & r' & _ & L' & _ & [(O' & N & _) | (O' & _)]); [| congruence].
  rewrite O in O'. injection O' as ->. cbn in L, V. rewrite L in L'. injection L' as <-. lia.
Qed.

Lemma released_refused e tenant id kind op t q o : journal t -> operations t !! q = Some o -> p_sandbox o = id -> p_kind o = "release" ->
  Operation_ID op <> q -> exists err, BeginOperation Transform e tenant id kind op t = (t, Err err).
Proof.
  intros J O S R NE. apply begin_refused. intros t' n K H.
  destruct (begun_ok _ _ _ _ _ _ _ _ J K H) as (b & r & _ & L & _ & X). assert (V := j_last _ J q o r O ltac:(by rewrite S) R).
  destruct X as [(O' & N & _) | (_ & _ & KA & _)].
  - apply NE. apply (j_once _ J _ _ _ _ O' O); [by rewrite S | cbn; lia].
  - destruct (kind_at t id (r_revision r)) as [k |] eqn:E.
    + apply kind_at_some in E as (q' & o' & O' & S' & R' & K'). assert (q' = q) as -> by (apply (j_once _ J q' q o' o); congruence).
      apply KA. congruence.
    + by apply (kind_at_none _ _ _ q o E).
Qed.
End Transactions.

(** C12: The lifecycle operations of a sandbox are journaled once and in order.  Whatever calls
    are made to the store of bindings, with whatever answers of the database, and whatever
    other components write to cleanup intents, work and events: the operations of every
    binding are numbered without gaps, one per revision, a release is the last one, and
    attempts, acquisitions and provider references belong to one binding; what was stored
    stays (requests, bound references, the first operation of every kind, every journaled
    operation), and a binding changes only under a new version.  An operation that begins is
    the newest of its binding and was admitted by the fence of its Attempt or by a live cleanup
    intent for exactly this release; an operation that a newer one has superseded is not begun
    again, and after a release no other operation begins: both change nothing. *)
Theorem sandbox_operations_ordered Transform tenant t cs (J : journal t) :
  let t' := called_all Transform tenant t cs in
  journal t' /\ evolves t t'
  /\ (forall e id kind op t'' n, BeginOperation Transform e tenant id kind op t' = (t'', Ok n) -> newest Transform e tenant id kind op t' t'' n)
  /\ (forall e id kind op o r, operations t' !! Operation_ID op = Some o -> bindings t' !! p_sandbox o = Some r -> p_revision o < r_revision r ->
        exists err, BeginOperation Transform e tenant id kind op t' = (t', Err err))
  /\ (forall e id kind op q o, operations t' !! q = Some o -> p_sandbox o = id -> p_kind o = "release" -> Operation_ID op <> q ->
        exists err, BeginOperation Transform e tenant id kind op t' = (t', Err err)).
Proof.
  cbv zeta. pose proof (called_all_changes Transform tenant cs t J) as C. pose proof (journal_changes _ _ C J) as J'.
  split; [done |]. split; [by apply evolves_changes |]. split; [| split].
  - intros e id kind op t'' n H. apply BeginOperation_cases in H as [[_ [err E]] | [K T]]; [done |].
    apply journal_transaction_cases in T as [T _]. apply begun_newest; auto.
  - intros e id kind op o r. by apply superseded_refused.
  - intros e id kind op q o. by apply released_refused.
Qed.

(** C13: An observation of compute is recorded at most once.  When an observation was committed,
    even if the answer to its commit was lost, the loaded intent was still the stored one (its
    version, revision, operation, reference and fence) and permits it, and the binding shows
    it; and whatever is called afterwards, no other observation of the same intent is ever
    recorded: it is refused and changes nothing.  A success is reported only for a commit. *)
Theorem observation_recorded_once Transform e i o t t' x (J : journal t) (R : RecordCompute Transform e i o t = (t', x)) :
  (x = Ok tt -> t' <> t)
  /\ (t' <> t ->
      (exists current, loadCompute Transform e (TenantID (scope_of i)) (SandboxID (scope_of i)) t = Ok current
         /\ same_intent current i = true /\ permitted current i o = None)
      /\ (exists r, bindings t' !! SandboxID (scope_of i) = Some r /\ r_state r = OState o /\ r_reason r = Code o)
      /\ forall cs e2 o2, let t2 := called_all Transform (TenantID (scope_of i)) t' cs in
           exists err, RecordCompute Transform e2 i o2 t2 = (t2, Err err)).
Proof.
  unfold RecordCompute in R. destruct (observation_error o); [by injection R as <- <- |]. apply journal_transaction_cases in R as [R1 R2].
  assert (F : forall u, recorded Transform e i o t = Ok (t', u) -> t' <> t).
  { intros u H ->. destruct (recorded_ok _ _ _ _ _ _ _ H) as (? & r & r' & _ & _ & _ & L & _ & _ & L' & V & _). assert (r' = r) as -> by congruence. lia. }
  split; [intros E; by eapply F, R1 |]. intros N. destruct R2 as [-> | [u H]]; [done |].
  destruct (recorded_ok _ _ _ _ _ _ _ H) as (current & r & r' & LC & SI & P & L & V & C & L' & VV & ST & CD).
  split; [by exists current |]. split; [by exists r' |]. intros cs e2 o2. cbv zeta.
  pose proof (journal_changes _ _ C J) as J'. pose proof (called_all_changes Transform (TenantID (scope_of i)) cs t' J') as C2.
  set (t2 := called_all _ _ _ _) in *. unfold RecordCompute. destruct (observation_error o2); [eauto |]. unfold transaction.
  destruct (negb _); [eauto |]. destruct (recorded Transform e2 i o2 t2) as [[t3 u3] |] eqn:H2; [exfalso | eauto].
  destruct (recorded_ok _ _ _ _ _ _ _ H2) as (? & s & s' & _ & _ & _ & L2 & V2 & _).
  destruct (ev_rows _ _ (evolves_changes _ _ C2) _ _ L') as (r2 & L3 & K2). assert (s = r2) as -> by congruence.
  destruct K2 as [-> | K2]; [lia |]. pose proof (k_version _ _ K2). lia.
Qed.

(** ** Witnesses: a sandbox is reserved, bound and suspended; then it may be released, and what
    was observed of it is recorded once. *)

Definition ex_runtime_raw : string :=
  marshal (JStruct [("image", JStruct [("reference", JString ("registry/agent@" +:+ digest_a))]);
                    ("entrypoint", JStruct [("command", strings_json ["/agentd"])]); ("platform", JStruct [("architectures", strings_json ["amd64"])])]).

Definition ex_reserved_profile : Profile :=
  let q := ex_profile in
  mkProfile (SchemaVersion q) (Name q) (Description q) "container-standard" (PResources q) (PStorage q) (PNetwork q) (PPlatform q) (PSecurity q)
    (PLifecycle q) (mkImplementation "kubernetes-agent-sandbox" "p" "i" "s" "n").

Definition ex_profile_raw : string := marshal (profile_json ex_reserved_profile).

Definition ex_binding_request (digest : string) : AcquireRequest :=
  mkAcquireRequest ex_scope (mkOperation id4 digest) (mkRuntime ("registry/agent@" +:+ digest_a) "amd64" ["/agentd"]) ex_reserved_profile
    (Digest ex_profile_raw) digest_b (mkAttachment "pvc-1" id3 0 "/workspace" false) "bootstrap-1" (at_second 600).

Definition ex_reserved : AcquireRequest := ex_binding_request (default "" (AgentSandbox.RequestDigest Some (ex_binding_request ""))).

Definition ex_env : Env :=
  mkEnv None false (fun _ => Ok true) (fun _ => Ok (ex_profile_raw, Digest ex_profile_raw, digest_b, ex_runtime_raw)) (fun _ => Ok "")
    (at_second 1) (at_second 2) (fun _ => None) (fun _ => Ok 1) (Ok None) true (Ok true) (Ok (true, 0, 0)) (Ok tt).

Definition no_tables : Tables := mkTables ∅ ∅ ∅ ∅ [] [] ∅.

Definition ex_lifecycle (kind : string) (id : string) : Operation := mkOperation id (LifecycleDigest id1 (SandboxID ex_scope) kind id).

Definition ex_calls : list StoreCall :=
  [ CallReserve ex_env ex_reserved; CallBind ex_env (SandboxID ex_scope) "agents/ar-1/uid-1";
    CallBegin ex_env (SandboxID ex_scope) "suspend" (ex_lifecycle "suspend" id1) ].

Lemma no_tables_journal : journal no_tables.
Proof. by split. Qed.

Definition ex_begin := BeginOperation Some ex_env id1 (SandboxID ex_scope) "release" (ex_lifecycle "release" id2) (called_all Some id1 no_tables ex_calls).

Lemma ex_release_begins : snd ex_begin = Ok 2.
Proof. vm_compute. reflexivity. Qed.

Lemma sandbox_operations_ordered_witness :
  journal no_tables /\ newest Some ex_env id1 (SandboxID ex_scope) "release" (ex_lifecycle "release" id2) (called_all Some id1 no_tables ex_calls) (fst ex_begin) 2.
Proof.
  split; [exact no_tables_journal |].
  apply (proj1 (proj2 (proj2 (sandbox_operations_ordered Some id1 no_tables ex_calls no_tables_journal)))).
  rewrite <- ex_release_begins. apply surjective_pairing.
Defined.

(** The reservation alone, and the observation that it is pending. *)
Definition ex_pending_tables : Tables := called_all Some id1 no_tables [CallReserve ex_env ex_reserved].

Definition ex_pending_intent : ComputeIntent := mkComputeIntent (mkBinding ex_reserved "") ComputeRunning (ROperation ex_reserved) 0 0 true false.

Definition ex_pending : ComputeObservation := mkComputeObservation Provisioning "COMPUTE_PENDING" false false noFacts.

Lemma ex_pending_journal : journal ex_pending_tables.
Proof. apply (journal_changes no_tables); [apply called_all_changes |]; apply no_tables_journal. Qed.

Lemma ex_recorded : snd (RecordCompute Some ex_env ex_pending_intent ex_pending ex_pending_tables) = Ok tt.
Proof. vm_compute. reflexivity. Qed.

Lemma observation_recorded_once_witness :
  journal ex_pending_tables /\ snd (RecordCompute Some ex_env ex_pending_intent ex_pending ex_pending_tables) = Ok tt
  /\ forall cs e2 o2,
       let t2 := called_all Some (TenantID (scope_of ex_pending_intent)) (fst (RecordCompute Some ex_env ex_pending_intent ex_pending ex_pending_tables)) cs in
       exists err, RecordCompute Some e2 ex_pending_intent o2 t2 = (t2, Err err).
Proof.
  split; [exact ex_pending_journal |]. split; [exact ex_recorded |].
  destruct (observation_recorded_once Some ex_env ex_pending_intent ex_pending ex_pending_tables _ _ ex_pending_journal
    (surjective_pairing (RecordCompute Some ex_env ex_pending_intent ex_pending ex_pending_tables))) as [A B].
  destruct (B (A ex_recorded)) as (_ & _ & C). exact C.
Defined.
